(* ===== verification/_CoqProject ===== *)
-Q . S2P
Prelude.v
CList.v
Libs.v
Mem.v
Strings.v
Printfmt.v
StringsSpec.v
PrintfmtSpec.v
DefaultPmm.v
BestFit.v
Buddy.v
BuddySpec.v
Disk.v
Bitmap.v
SfsIo.v
SfsInode.v
SfsAlloc.v
SfsMap.v
SfsFile.v
SfsDir.v
SfsDirSpec.v
SfsCache.v
SfsFs.v
SfsFsSpec.v
Mksfs.v
MksfsInv.v
MksfsTree.v
MksfsClose.v
MksfsSpec.v
MksfsMount.v
Inode.v
Vfs.v
VfsSpec.v
File.v
FileSpec.v
Vmm.v
VmmSpec.v
Sysfile.v
SkewHeap.v
Proc.v
RunQueue.v
RunQueueSpec.v
Sched.v
SchedSpec.v
TimerSpec.v
Pid.v
Process.v
ProcessSpec.v
PageTable.v
PageTableSpec.v
PagePmm.v
PageData.v
Dtb.v
PageInit.v
Slob.v
SlobSpec.v
Sync.v
Threads.v
Philosophers.v
Monitor.v
PhilosophersCondvar.v
Exec.v
KernelRead.v
LoadSpec.v
Execve.v
ProcsInv.v
ProcsKeep.v
ProcsLife.v
ProcsFork.v
Boot.v
KernelSteps.v
Ring.v
Console.v
Devs.v
DevsSpec.v
Trap.v
Tick.v
