(* ===== verification/Prelude.v ===== *)
(** * The uCore lab kernels in Rocq

    A development beside the uCore operating system labs: a small Unix-like
    kernel for 64-bit RISC-V, in C.  The repository keeps one copy of the kernel
    per lab; [src/lab8] is the last and most complete, and everything here
    follows it except the best-fit and buddy page allocators, which exist in
    [src/lab2] only.  All paths below are under [src/lab8] unless they say lab2.

    ** The program and the files

    Support code.
    - [Prelude] (this file): machine integers, the outcome monad, total maps.
    - [CList] (libs/list.h): circular doubly linked lists as two total maps of
      pointers, against the abstract list a circular list represents.
    - [Libs] (libs/atomic.h, hash.c, rand.c, error.h): bit operations, hashing,
      pseudo-random numbers, error codes.
    - [Mem]: byte memories; [Strings], [StringsSpec] (libs/string.c); [Printfmt],
      [PrintfmtSpec] (libs/printfmt.c); [SkewHeap] (libs/skew_heap.h).

    Physical and virtual memory.
    - [DefaultPmm] (kern/mm/default_pmm.c), [BestFit] (lab2 best_fit_pmm.c),
      [Buddy], [BuddySpec] (lab2 buddy_pmm.c): managers of physical pages.
    - [PageTable], [PageTableSpec] (kern/mm/mmu.h, pmm.h, pmm.c): Sv39 page
      tables over the interface [PmmManager]; [PagePmm] makes the first-fit
      manager an instance of it and of its laws [PmmLaws]; [PageData]: what
      happens to the contents of pages while tables change.
    - [Dtb] (kern/driver/dtb.c): the memory a flattened device tree describes;
      [PageInit] ([page_init], [switch_kernel_memorylayout], [pmm_init]): from it to
      the free pages and the tables the kernel runs on.
    - [Slob], [SlobSpec] (kern/mm/kmalloc.c): small objects over a page.
    - [Vmm], [VmmSpec] (kern/mm/vmm.c): the areas of a process, and the checks
      and copies between user and kernel memory.

    Files.
    - [Disk] (kern/fs/iobuf.c, kern/driver/ramdisk.c, ide.c,
      kern/fs/devs/dev_disk0.c) and the interface [BlockDevice].
    - [Bitmap] (kern/fs/sfs/bitmap.c); [SfsIo] (sfs_io.c);
      [SfsInode] (sfs_inode.c: block map, reading, writing, truncating), with
      [SfsAlloc], [SfsMap], [SfsFile] about it; [SfsDir] (the rest of
      sfs_inode.c: cache of inodes, directories), with [SfsDirSpec] and
      [SfsCache] about it; [SfsFs], [SfsFsSpec] (sfs_fs.c).
    - [Mksfs] (tools/mksfs.c, the host program that makes the image of the file
      system), with [MksfsInv] (what one file adds), [MksfsTree] (a directory
      and everything below it), [MksfsClose] (the bitmap and the superblock) and
      [MksfsSpec] about it; [MksfsMount]: the kernel on an image of the tool.
    - [Inode]: the interface [Inodes] (kern/fs/vfs/inode.h); [Vfs], [VfsSpec]
      (kern/fs/vfs) over it; [File], [FileSpec] (kern/fs/file.c, fs.c);
      [Sysfile] (kern/fs/sysfile.c).

    Devices.
    - [Ring]: queues kept in an array used round and round; [Console] (kern/driver/console.c, kern/libs/stdio.c, readline.c);
      [Devs], [DevsSpec] (kern/fs/devs: dev_stdin.c over the wait queues of
      [Sync], dev_stdout.c, dev.c).
    - [Trap] (kern/trap/trap.c, kern/syscall/syscall.c): trap frames,
      dispatch and the casts of arguments, over the interfaces [Clock] and
      [Services] of the rest of the kernel; [Tick]: scheduler, console and
      standard input together as an instance of [Clock].

    Processes.
    - [Proc] (kern/process/proc.h); [Pid] (get_pid); [Process], [ProcessSpec]
      (kern/process/proc.c: fork, exit, wait, kill, sleep).
    - [RunQueue], [RunQueueSpec] (kern/schedule/default_sched.c,
      default_sched_stride.c) with the interface [SchedClass]; [Sched],
      [SchedSpec], [TimerSpec] (kern/schedule/sched.c).
    - [Sync] (kern/sync/wait.c, sem.c): wait queues and semaphores over the
      scheduler.
    - [Threads]: programs of threads over semaphores and their interleavings;
      [Philosophers] (the semaphore half of kern/sync/check_sync.c); [Monitor]
      (kern/sync/monitor.c) and [PhilosophersCondvar] (the other half).
    - [Exec] ([load_icode], libs/elf.h; what a program finds of its arguments),
      with [KernelRead] about reading a file into kernel memory and [LoadSpec]
      about the segments; [Execve] ([do_execve] around the loader,
      [kernel_execve], [user_main]).
    - [ProcsInv] states what holds of all processes between two operations;
      [ProcsKeep], [ProcsLife], [ProcsFork] show that each operation of [Process]
      keeps it; [Boot] ([proc_init], [init_main], [cpu_idle]);
      [KernelSteps] makes the operations the steps of one machine.

    ** How the parts interact

    A component is proved against an interface of the one below it, a [Class]
    whose laws the one below proves in an instance: page tables against
    [PmmManager]/[PmmLaws] ([PagePmm.default_pmm_laws]), processes against
    [PageTables] ([PageTable.machine_tables]), the simple file system against
    [BlockDevice] ([Disk.disk0_device]), the virtual file system and open files
    against [Inodes] ([VfsSpec.plain_inodes_ops]), the scheduler and the
    semaphores against [SchedClass] ([RunQueueSpec.RR_class]).  Threads are
    programs over the abstract semaphore that [Sync] shows the kernel's to
    implement.  The loader runs file system calls, areas and page tables on one
    memory.

    Definitions come first in a file or in the file without [Spec] in its name;
    a C structure is a record, a pointer is the address or the index that names
    the object, [NULL] is [None] or 0 as the code compares it, and a function of
    the code is a [Definition] or [Fixpoint] of the same name in the monad [ST]
    below, over the state of its component.  What comes from code outside the
    component (whether [kmalloc] succeeds and what the memory it returns holds,
    the comparison function of a heap, the [putch] of a formatter) is an
    argument.

    ** What the theorems show

    - Start: the device tree is read as it was written
      ([dtb_init_finds_memory]), and the kernel's window is mapped with code, data and the
      guards of the boot stack as they should be ([memory_start_maps_kernel]).
    - Memory: allocation and release of the three page managers refine abstract
      lists of free blocks ([default_alloc_pages_refines],
      [default_free_pages_refines],
      [buddy_free_refines]); the releases
      after which the first-fit manager gives out a block twice
      ([default_free_pages_tail_double_allocation]); mapping a page changes the
      map of an address space in one place ([page_insert_maps]); areas and user
      memory ([user_mem_check_exact], [mm_map_maps]).
    - Files: reading and writing a file refine reading and writing an array of
      bytes, out-of-space included ([sfs_io_nolock_reads],
      [sfs_io_nolock_writes]); the cache of inodes keeps one object per
      inode ([sfs_load_inode_unique]); syncing and mounting
      ([sfs_sync_mount_roundtrip]); the system
      call [read] writes only where the process may, and ends when the reads of the
      inode do ([sysfile_read_confined]).
    - The tool and the kernel: the image the tool writes of a directory of the
      host holds its files, every block once ([mksfs_image]), and the kernel that
      mounts it finds each by its name and reads the bytes of the host's file
      ([host_file_read_back]).
    - Processes: the start makes two processes that are well-formed together
      ([proc_init_starts]), and every sequence of operations keeps all of them so:
      pids, lists, families, run queue, [init] ([processes_stay_sound]; forks that
      find no memory for a file table are left out, since the code then frees a
      process in use, and [kmalloc] hands out no process that exists); when
      [init] ends nobody else is left ([init_main_returns]); the family tree
      through exit and wait ([leave_orphans], [wait_turn_reaps]); fresh identifiers ([get_pid_fresh]); the scheduler
      picks a runnable process, round robin serves everyone, stride keeps the
      strides in one round ([schedule_picks_runnable], [round_robin_serves],
      [stride_round_keeps_order]); timers are deadlines; semaphores are first come, first served
      ([semaphore_fifo]); the philosophers of check_sync.c are safe and end
      under every interleaving ([neighbours_never_eat], [dinner_ends]), over the
      monitor too ([neighbours_never_eat_condvar], [dinner_condvar_ends]), which
      never holds two threads ([monitor_exclusive]); a program is loaded as its
      headers say ([load_segments_loads]) and finds its arguments, when they fit in
      the top page of its stack ([push_args_readable]); replacing a program refuses
      only arguments that are bad, before it gives anything up ([do_execve_checks]).
    - Support: copying whatever the overlap ([memmove_is_copy]), formatting and
      parsing numbers ([strtol_vprintfmt]), truncation of formatted output
      ([vsnprintf_truncates]).
    - Devices: the standard input is a queue however readers, keys and wake-ups
      interleave ([stdin_refines_queue]); a tick of the clock moves a character from the
      console to it and fires the timers ([timer_interrupt_feeds_stdin]).
    - Entry: a system call is one call of the service of its number, with every
      register cast to the type the service declares and the result in [a0]
      ([trap_preserves_types]), and every one but [exec] changes [a0] and nothing else
      of its caller ([trap_syscall]).  The laws of [Services], that services return to
      their caller with its frame in place, are assumed there: no instance with the
      modelled services is given.

    ** Integers, fuel and outcomes

    Integers are [Z]; an operation that can leave its width is wrapped by
    [u32], [u64], [s32] or [s64].  A loop that is not structural takes [fuel], and
    its theorem says how much is enough for it to end: more than the number of
    free blocks for the page and small-object allocators, the number of nodes
    for skew heaps, the length of the text plus one for string scans (six
    characters for the strings the formatter has of its own), the number of
    blocks or bytes for transfers, twice [MAX_PID] for [get_pid], the number of
    children for the loops over a family, the number of areas for [vmm.c], one
    more than the number of whole bitmap blocks for the end of the image tool.
    [Panicked] is what an [assert], a [panic] or an access the code forbids
    leads to, so a theorem that concludes [Done] also says no assertion fails.

    ** What is not modelled, and why

    - SBI calls (what the firmware reads is a list), CSR accesses, the context
      switch and the first instructions of the kernel: assembly.  The TLB:
      [tlb_invalidate] does nothing in the model.
    - The self-tests inside the kernel, printing, and the host tools that make
      the boot image (tools/sign.c, tools/vector.c).
    - Interrupts inside a component: where the code turns them off an operation
      is one step; [down], [do_wait] and reading the standard input are cut where
      the process sleeps.
    - The earlier copies of the kernel in the other labs, of which lab8 is the
      last version, and user programs. *)
From Stdlib Require Import FunctionalExtensionality ZArith Lia.
From stdpp Require Export prelude.

#[global] Open Scope Z_scope.

(** ** Machine integers

    The kernel is compiled for RV64: [unsigned int] and [uint32_t] have 32
    bits, [size_t], [uintptr_t] and [uint64_t] have 64, [int] is signed 32-bit
    and [off_t], [long] signed 64-bit.  Values are kept as [Z] and every
    arithmetic operation of the source that can leave its width is followed by
    one of these wrap-around functions. *)
Definition u32 (z : Z) : Z := z mod 2 ^ 32.
Definition u64 (z : Z) : Z := z mod 2 ^ 64.
Definition s32 (z : Z) : Z := (z + 2 ^ 31) mod 2 ^ 32 - 2 ^ 31.
Definition s64 (z : Z) : Z := (z + 2 ^ 63) mod 2 ^ 64 - 2 ^ 63.

Arguments u32 : simpl never.
Arguments u64 : simpl never.
Arguments s32 : simpl never.
Arguments s64 : simpl never.

Lemma u32_small z : 0 <= z < 2 ^ 32 -> u32 z = z.
Proof. intros. by apply Z.mod_small. Qed.

Lemma u64_small z : 0 <= z < 2 ^ 64 -> u64 z = z.
Proof. intros. by apply Z.mod_small. Qed.

Lemma s32_small z : - 2 ^ 31 <= z < 2 ^ 31 -> s32 z = z.
Proof. intros. unfold s32. rewrite Z.mod_small; lia. Qed.

Lemma s64_small z : - 2 ^ 63 <= z < 2 ^ 63 -> s64 z = z.
Proof. intros. unfold s64. rewrite Z.mod_small; lia. Qed.

Lemma u32_range z : 0 <= u32 z < 2 ^ 32.
Proof. apply Z.mod_pos_bound. lia. Qed.

Lemma u64_range z : 0 <= u64 z < 2 ^ 64.
Proof. apply Z.mod_pos_bound. lia. Qed.

Lemma s32_range z : - 2 ^ 31 <= s32 z < 2 ^ 31.
Proof.
  unfold s32. pose proof (Z.mod_pos_bound (z + 2 ^ 31) (2 ^ 32)). lia.
Qed.

(** [ROUNDDOWN] and [ROUNDUP] of libs/defs.h, on 64-bit operands. *)
Definition ROUNDDOWN (a n : Z) : Z := a - a mod n.
Definition ROUNDUP (a n : Z) : Z := ROUNDDOWN (u64 (a + n - 1)) n.
Definition ROUNDUP_DIV (a n : Z) : Z := u64 (a + n - 1) / n.

(** ** Outcomes and the state monad

    A run of kernel code ends normally with a value ([Done]), at an [assert],
    a [panic] or another use the code forbids ([Panicked]), or, for the loops
    that are not structural, runs out of the fuel the model gave it
    ([NoFuel]).  The theorems show which fuel is enough. *)
Inductive outcome (A : Type) : Type :=
| Done (a : A)
| Panicked
| NoFuel.
Arguments Done {A} a.
Arguments Panicked {A}.
Arguments NoFuel {A}.

Definition ST (S A : Type) : Type := S -> outcome (A * S).

#[global] Instance ST_ret S : MRet (ST S) := fun A a s => Done (a, s).

#[global] Instance ST_bind S : MBind (ST S) := fun A B k m s =>
  match m s with
  | Done (a, s') => k a s'
  | Panicked => Panicked
  | NoFuel => NoFuel
  end.

Definition get {S A} (f : S -> A) : ST S A := fun s => Done (f s, s).
Definition modify {S} (f : S -> S) : ST S unit := fun s => Done (tt, f s).
Definition panic {S A} : ST S A := fun _ => Panicked.
Definition no_fuel {S A} : ST S A := fun _ => NoFuel.
Definition assert {S} (b : bool) : ST S unit := if b then mret tt else panic.

(** Run a computation on a local object [x] of the caller. *)
Definition on_local {S X A} (x : X) (m : ST X A) : ST S (A * X) :=
  fun s => match m x with
           | Done r => Done (r, s)
           | Panicked => Panicked
           | NoFuel => NoFuel
           end.

(** A semaphore initialised to 1 and used as a lock, in a run that no other
    thread interleaves: [down] on 0 would sleep for ever, so it is a use the
    model forbids. *)
Definition lock {S} (sem : S -> Z) (set : Z -> S -> S) : ST S unit :=
  fun s => if 0 <? sem s then Done (tt, set (sem s - 1) s) else Panicked.
Definition unlock {S} (sem : S -> Z) (set : Z -> S -> S) : ST S unit :=
  fun s => Done (tt, set (sem s + 1) s).

Lemma bind_Done {S A B} (m : ST S A) (k : A -> ST S B) s a s' :
  m s = Done (a, s') -> (m ≫= k) s = k a s'.
Proof. unfold mbind, ST_bind. by intros ->. Qed.

Lemma ret_bind {S A B} (a : A) (k : A -> ST S B) s : ((mret a : ST S A) ≫= k) s = k a s.
Proof. done. Qed.

Lemma bind_Done_inv {S A B} (m : ST S A) (k : A -> ST S B) s b s' :
  (m ≫= k) s = Done (b, s') ->
  exists a s1, m s = Done (a, s1) /\ k a s1 = Done (b, s').
Proof. unfold mbind, ST_bind. destruct (m s) as [[a s1]| |]; naive_solver. Qed.

Lemma assert_true {S} (b : bool) (s : S) : b = true -> assert b s = Done (tt, s).
Proof. by intros ->. Qed.

Lemma assert_Done_inv {S} (b : bool) (s : S) r :
  assert b s = Done r -> b = true /\ r = (tt, s).
Proof. destruct b; cbn; intros H; [by inversion H | done]. Qed.

(** The value a run returns, if it does; evaluated in the witnesses. *)
Definition result {S A} (o : outcome (A * S)) : option A :=
  match o with Done (a, _) => Some a | _ => None end.

Lemma result_Done {S A} (o : outcome (A * S)) a : result o = Some a -> exists s, o = Done (a, s).
Proof. destruct o as [[b s]| |]; cbn; try done. intros H. injection H as ->. by exists s. Qed.

(** [mrun] unfolds the monad and the state accessors registered in
    [ucore_run] and reduces; [mstep H] rewrites one leading step with the
    equation [H]. *)
Create HintDb ucore_run.
#[export] Hint Unfold mbind ST_bind mret ST_ret get modify panic no_fuel assert on_local
  : ucore_run.
Ltac mrun := repeat (progress (autounfold with ucore_run; cbn)).
Ltac mstep H := rewrite (bind_Done _ _ _ _ _ H).

(** ** Memory as a total map

    Every cell of a C object holds some value, so the memory of a family of
    objects is a total function from names to contents, updated pointwise. *)
Definition upd `{EqDecision A} {B} (f : A -> B) (a : A) (b : B) : A -> B :=
  fun x => if decide (x = a) then b else f x.

Lemma upd_eq `{EqDecision A} {B} (f : A -> B) a b : upd f a b a = b.
Proof. unfold upd. by destruct (decide (a = a)). Qed.

Lemma upd_ne `{EqDecision A} {B} (f : A -> B) a b x : x <> a -> upd f a b x = f x.
Proof. unfold upd. by destruct (decide (x = a)). Qed.

Lemma upd_upd `{EqDecision A} {B} (f : A -> B) a b b' : upd (upd f a b) a b' = upd f a b'.
Proof. apply functional_extensionality. intros x. unfold upd. by case_decide. Qed.

Lemma upd_same `{EqDecision A} {B} (f : A -> B) a b : f a = b -> upd f a b = f.
Proof. intros <-. apply functional_extensionality. intros x. unfold upd. case_decide; by subst. Qed.

Create HintDb ucore.
#[export] Hint Rewrite @upd_eq : ucore.
#[export] Hint Rewrite @upd_ne using (congruence || lia || set_solver) : ucore.
#[export] Hint Rewrite u32_small u64_small s32_small s64_small using lia : ucore.
#[export] Hint Resolve u32_range u64_range s32_range : ucore.

(** Case analysis on every pending [upd] and boolean test of the goal. *)
Ltac case_upd :=
  cbn in *; unfold upd in *; cbn in *;
  repeat (case_decide; simplify_eq); cbn in *; try (done || lia).

(** ** Lists *)
Fixpoint sum_Z (l : list Z) : Z :=
  match l with
  | [] => 0
  | z :: l' => z + sum_Z l'
  end.

Lemma sum_Z_app l1 l2 : sum_Z (l1 ++ l2) = sum_Z l1 + sum_Z l2.
Proof. induction l1; cbn in *; lia. Qed.

Lemma sum_Z_nonneg l : Forall (fun z => 0 <= z) l -> 0 <= sum_Z l.
Proof. induction 1; cbn in *; lia. Qed.

Lemma sum_Z_elem_le l z : Forall (fun z => 0 <= z) l -> z ∈ l -> z <= sum_Z l.
Proof.
  induction 1 as [|x l Hx Hl IH]; [by intros ?%elem_of_nil|].
  pose proof (sum_Z_nonneg l Hl).
  intros [->|Hin]%elem_of_cons; cbn; [lia|]. specialize (IH Hin). lia.
Qed.

(** ** Bits of bounded integers *)
Lemma testbit_high z k n : 0 <= k <= n -> 0 <= z < 2 ^ k -> Z.testbit z n = false.
Proof.
  intros Hk Hz. destruct (decide (z = 0)) as [->|]; [apply Z.testbit_0_l|].
  apply Z.bits_above_log2; [lia|]. apply Z.log2_lt_pow2; [lia|].
  eapply Z.lt_le_trans; [apply Hz|]. apply Z.pow_le_mono_r; lia.
Qed.

Lemma range_of_testbit z k :
  0 <= k -> 0 <= z -> (forall n, k <= n -> Z.testbit z n = false) -> z < 2 ^ k.
Proof.
  intros Hk Hz H. destruct (decide (z = 0)) as [->|]; [lia|].
  apply Z.log2_lt_pow2; [lia|]. destruct (Z.lt_ge_cases (Z.log2 z) k) as [|Hge]; [done|].
  pose proof (Z.bit_log2 z ltac:(lia)) as Hb. by rewrite H in Hb.
Qed.

(** A bounded universal statement, decided by evaluation. *)
Lemma forall_range (P : Z -> bool) lo k :
  forallb (fun j => P (lo + Z.of_nat j)) (seq 0 k) = true ->
  forall i, lo <= i < lo + Z.of_nat k -> P i = true.
Proof.
  rewrite forallb_forall. intros H i Hi.
  replace i with (lo + Z.of_nat (Z.to_nat (i - lo))) by lia. apply H, in_seq. lia.
Qed.
