(* ===== verification/CList.v ===== *)
(** * Circular doubly linked lists (libs/list.h) *)
From S2P Require Import Prelude.

(** A [list_entry_t] is a pair of pointers.  The memory of all the entries a
    component links is a pair of total maps from the names of the entries. *)
Record links (N : Type) : Type := mkLinks { nxt : N -> N; prv : N -> N }.
Arguments mkLinks {N} _ _.
Arguments nxt {N} _ _.
Arguments prv {N} _ _.

Section ops.
  Context {N : Type} `{EqDecision N}.
  Implicit Types (s : links N) (e l p n : N).

Definition set_nxt s l n : links N := mkLinks (upd (nxt s) l n) (prv s).
Definition set_prv s l p : links N := mkLinks (nxt s) (upd (prv s) l p).

(** [elm->prev = elm->next = elm] *)
Definition list_init s e : links N := set_prv (set_nxt s e e) e e.

(** [prev->next = next->prev = elm; elm->next = next; elm->prev = prev] *)
Definition list_add_between s e p n : links N :=
  set_prv (set_nxt (set_nxt (set_prv s n e) p e) e n) e p.

(** [prev->next = next; next->prev = prev] *)
Definition list_del_between s p n : links N := set_prv (set_nxt s p n) n p.

Definition list_next s l : N := nxt s l.
Definition list_prev s l : N := prv s l.
Definition list_empty s l : bool := bool_decide (nxt s l = l).
Definition list_add_before s l e : links N := list_add_between s e (prv s l) l.
Definition list_add_after s l e : links N := list_add_between s e l (nxt s l).
Definition list_add s l e : links N := list_add_after s l e.
Definition list_del s l : links N := list_del_between s (prv s l) (nxt s l).
Definition list_del_init s l : links N := list_init (list_del s l) l.

(** ** Well-formed lists

    [dseg s a xs b]: following [next] from [a] meets exactly [xs] and then [b],
    and the [prev] pointers mirror that path.  [is_dlist s h xs]: the circular
    list with head [h] holds the distinct entries [xs], in order. *)
Fixpoint dseg s (a : N) (xs : list N) (b : N) : Prop :=
  match xs with
  | [] => nxt s a = b /\ prv s b = a
  | x :: xs' => nxt s a = x /\ prv s x = a /\ dseg s x xs' b
  end.

Definition is_dlist s (h : N) (xs : list N) : Prop :=
  NoDup (h :: xs) /\ dseg s h xs h.

Definition headd (d : N) (xs : list N) : N :=
  match xs with
  | [] => d
  | x :: _ => x
  end.

Fixpoint lastd (d : N) (xs : list N) : N :=
  match xs with
  | [] => d
  | x :: xs' => lastd x xs'
  end.
End ops.

(** ** Segments *)
Section segments.
  Context {N : Type} `{EqDecision N}.
  Implicit Types (s : links N) (a b e h x y : N) (xs ys : list N).

Lemma lastd_cons a x xs : lastd a (x :: xs) = lastd x xs.
Proof. done. Qed.

Lemma lastd_snoc a xs x : lastd a (xs ++ [x]) = x.
Proof. revert a; induction xs; intros a'; cbn; auto. Qed.

Lemma lastd_elem a xs : lastd a xs ∈ a :: xs.
Proof.
  revert a; induction xs as [|x xs IH]; intros a; [by left|].
  rewrite lastd_cons. right. apply IH.
Qed.

Lemma headd_elem b xs : headd b xs ∈ xs ++ [b].
Proof. destruct xs; cbn; left. Qed.

Lemma dseg_nxt s a xs b : dseg s a xs b -> nxt s a = headd b xs.
Proof. destruct xs; naive_solver. Qed.

Lemma dseg_prv s a xs b : dseg s a xs b -> prv s b = lastd a xs.
Proof.
  revert a; induction xs as [|x xs IH]; intros a; [by intros [_ ?]|].
  intros (_ & _ & H). rewrite lastd_cons. by apply IH.
Qed.

Lemma dseg_nxt_last s a xs b : dseg s a xs b -> nxt s (lastd a xs) = b.
Proof.
  revert a; induction xs as [|x xs IH]; intros a; [by intros [? _]|].
  intros (_ & _ & H). rewrite lastd_cons. by apply IH.
Qed.

Lemma dseg_app s a xs ys b :
  dseg s a (xs ++ ys) b <-> dseg s a xs (headd b ys) /\ dseg s (lastd a xs) ys b.
Proof.
  revert a; induction xs as [|x xs IH]; intros a; cbn [app].
  - cbn. split; [|tauto]. intros H. split; [|done].
    split; [by apply dseg_nxt in H|]. destruct ys; naive_solver.
  - rewrite lastd_cons. cbn [dseg]. rewrite IH. tauto.
Qed.

Lemma dseg_mid s a xs e ys b :
  dseg s a (xs ++ e :: ys) b <-> dseg s a xs e /\ dseg s e ys b.
Proof.
  rewrite dseg_app. cbn. split; [naive_solver|]. intros [H1 H2].
  pose proof (dseg_nxt_last _ _ _ _ H1). pose proof (dseg_prv _ _ _ _ H1). tauto.
Qed.

Lemma dseg_ext s s' a xs b :
  (forall x, x ∈ a :: xs -> nxt s' x = nxt s x) ->
  (forall x, x ∈ xs ++ [b] -> prv s' x = prv s x) ->
  dseg s a xs b -> dseg s' a xs b.
Proof.
  revert a; induction xs as [|x xs IH]; intros a Hn Hp; cbn.
  - intros [Hb Ha]. by rewrite Hn, Hp by left.
  - intros (Hx & Hpx & H). rewrite Hn by left. split_and!; [done| |].
    + by rewrite Hp by left.
    + apply IH; [|intros y Hy; apply Hp; by right|done].
      intros y Hy. apply Hn. by right.
Qed.

(** Retargeting the last link of a segment, or the first. *)
Lemma dseg_relink_last s s' a xs b e :
  dseg s a xs b -> NoDup (a :: xs) ->
  (forall x, x ∈ xs -> prv s' x = prv s x) ->
  (forall x, x ∈ a :: xs -> x <> lastd a xs -> nxt s' x = nxt s x) ->
  nxt s' (lastd a xs) = e -> prv s' e = lastd a xs ->
  dseg s' a xs e.
Proof.
  revert a; induction xs as [|x xs IH]; intros a H Hnd Hp Hn Hl He; cbn in *.
  { by split. }
  destruct H as (Ha & Hx & H).
  apply NoDup_cons in Hnd as [Hax Hnd]. split_and!.
  - rewrite Hn; [done|left|]. intros ->. apply Hax, lastd_elem.
  - by rewrite Hp by left.
  - apply IH; auto; intros y Hy; [apply Hp; by right|intros; apply Hn; [by right|done]].
Qed.

Lemma dseg_relink_first s s' a ys b e :
  dseg s a ys b -> NoDup (ys ++ [b]) ->
  (forall x, x ∈ ys -> nxt s' x = nxt s x) ->
  (forall x, x ∈ ys ++ [b] -> x <> headd b ys -> prv s' x = prv s x) ->
  nxt s' e = headd b ys -> prv s' (headd b ys) = e ->
  dseg s' e ys b.
Proof.
  destruct ys as [|y ys]; cbn; [done|]. intros (_ & _ & H) Hnd Hn Hp He Hy.
  split_and!; [done..|]. apply NoDup_cons in Hnd as [Hyb Hnd].
  eapply dseg_ext; [| |exact H].
  - intros x Hx. by apply Hn.
  - intros x Hx. apply Hp; [by right|]. by intros ->.
Qed.
End segments.

(** ** The list operations on well-formed lists *)
Section lists.
  Context {N : Type} `{EqDecision N}.
  Implicit Types (s : links N) (a b e h x y : N) (xs ys : list N).

Lemma is_dlist_nxt s h xs e ys :
  is_dlist s h (xs ++ e :: ys) -> nxt s e = headd h ys.
Proof. intros [_ [_ H]%dseg_mid]. by apply dseg_nxt in H. Qed.

Lemma is_dlist_prv s h xs e ys :
  is_dlist s h (xs ++ e :: ys) -> prv s e = lastd h xs.
Proof. intros [_ [H _]%dseg_mid]. by apply dseg_prv in H. Qed.

Lemma is_dlist_first s h xs : is_dlist s h xs -> nxt s h = headd h xs.
Proof. intros [_ H]. by apply dseg_nxt in H. Qed.

Lemma is_dlist_last s h xs : is_dlist s h xs -> prv s h = lastd h xs.
Proof. intros [_ H]. by apply dseg_prv in H. Qed.

Lemma is_dlist_gap s h xs ys :
  is_dlist s h (xs ++ ys) ->
  nxt s (lastd h xs) = headd h ys /\ prv s (headd h ys) = lastd h xs.
Proof.
  intros [_ [H1 H2]%dseg_app]. apply dseg_prv in H1. by apply dseg_nxt in H2.
Qed.

Lemma is_dlist_frame s s' h xs :
  (forall x, x ∈ h :: xs -> nxt s' x = nxt s x /\ prv s' x = prv s x) ->
  is_dlist s h xs -> is_dlist s' h xs.
Proof.
  intros Hs [Hnd H]. split; [done|]. eapply dseg_ext; [| |exact H].
  - intros x Hx. by apply Hs.
  - intros x Hx. apply Hs. set_solver.
Qed.

Lemma list_init_dlist s h : is_dlist (list_init s h) h [].
Proof.
  split; [apply NoDup_singleton|]. cbn. by rewrite !upd_eq.
Qed.

Lemma list_empty_spec s h xs :
  is_dlist s h xs -> list_empty s h = bool_decide (xs = []).
Proof.
  intros H. unfold list_empty. rewrite (is_dlist_first _ _ _ H).
  apply bool_decide_ext. destruct H as [Hnd _]. destruct xs as [|x xs]; cbn; [done|].
  split; [|done]. intros ->. apply NoDup_cons in Hnd as [Hn _]. set_solver.
Qed.

Lemma list_add_between_dlist s h xs ys e :
  is_dlist s h (xs ++ ys) -> e ∉ h :: xs ++ ys ->
  is_dlist (list_add_between s e (lastd h xs) (headd h ys)) h (xs ++ e :: ys).
Proof.
  intros [Hnd H] He. pose proof (lastd_elem h xs) as Hl.
  pose proof (headd_elem h ys) as Hh.
  assert (Hle : lastd h xs <> e) by set_solver. assert (Hhe : headd h ys <> e) by set_solver.
  split.
  { rewrite app_comm_cons in Hnd |- *. apply NoDup_app in Hnd as (? & Hd & ?).
    apply NoDup_app. split_and!; [done| |apply NoDup_cons; split; [set_solver|done]].
    intros x Hx [->|Hx']%elem_of_cons; [set_solver|by apply (Hd x)]. }
  apply dseg_app in H as [Hs1 Hs2]. apply dseg_mid. split.
  - eapply dseg_relink_last; [exact Hs1|..].
    + rewrite app_comm_cons in Hnd. by apply NoDup_app in Hnd as [? _].
    + intros x Hx. cbn. rewrite upd_ne by set_solver. apply upd_ne. intros ->.
      rewrite app_comm_cons in Hnd. apply NoDup_app in Hnd as (Hnd1 & Hnd2 & _).
      apply NoDup_cons in Hnd1 as [Hnh _].
      destruct ys as [|y ys]; cbn in *; [done|]. apply (Hnd2 y); set_solver.
    + intros x Hx Hne. cbn. rewrite upd_ne by set_solver. by apply upd_ne.
    + cbn. rewrite upd_ne by done. apply upd_eq.
    + cbn. apply upd_eq.
  - eapply dseg_relink_first; [exact Hs2|..].
    + apply NoDup_cons in Hnd as [Hnh Hnd]. apply NoDup_app in Hnd as (_ & _ & ?).
      apply NoDup_app. split_and!; [done|set_solver|apply NoDup_singleton].
    + intros x Hx. cbn. rewrite upd_ne by set_solver. apply upd_ne. intros ->.
      rewrite app_comm_cons in Hnd. apply NoDup_app in Hnd as (_ & Hd & _).
      by apply (Hd _ Hl).
    + intros x Hx Hne. cbn. rewrite upd_ne by set_solver. by apply upd_ne.
    + cbn. apply upd_eq.
    + cbn. rewrite upd_ne by done. apply upd_eq.
Qed.

Lemma list_add_before_dlist s h xs e y ys :
  is_dlist s h (xs ++ y :: ys) -> e ∉ h :: xs ++ y :: ys ->
  is_dlist (list_add_before s y e) h (xs ++ e :: y :: ys).
Proof.
  intros H He. unfold list_add_before. rewrite (is_dlist_prv _ _ _ _ _ H).
  by apply (list_add_between_dlist _ _ xs (y :: ys)).
Qed.

Lemma list_add_tail_dlist s h xs e :
  is_dlist s h xs -> e ∉ h :: xs -> is_dlist (list_add_before s h e) h (xs ++ [e]).
Proof.
  intros H He. unfold list_add_before. rewrite (is_dlist_last _ _ _ H).
  apply (list_add_between_dlist _ _ xs []); by rewrite app_nil_r.
Qed.

Lemma list_add_after_dlist s h xs ys e :
  is_dlist s h (xs ++ ys) -> e ∉ h :: xs ++ ys ->
  is_dlist (list_add_after s (lastd h xs) e) h (xs ++ e :: ys).
Proof.
  intros H He. unfold list_add_after.
  destruct (is_dlist_gap _ _ _ _ H) as [-> _]. by apply list_add_between_dlist.
Qed.

Lemma list_add_head_dlist s h xs e :
  is_dlist s h xs -> e ∉ h :: xs -> is_dlist (list_add s h e) h (e :: xs).
Proof. intros H He. by apply (list_add_after_dlist s h [] xs e). Qed.

Lemma list_del_dlist s h xs e ys :
  is_dlist s h (xs ++ e :: ys) -> is_dlist (list_del s e) h (xs ++ ys).
Proof.
  intros H. unfold list_del. rewrite (is_dlist_prv _ _ _ _ _ H), (is_dlist_nxt _ _ _ _ _ H).
  destruct H as [Hnd H]. apply dseg_mid in H as [H1 H2].
  rewrite app_comm_cons in Hnd. apply NoDup_app in Hnd as (Hnd1 & Hd & Hndy).
  apply NoDup_cons in Hndy as [Hey Hndy].
  pose proof (lastd_elem h xs) as Hl. pose proof (headd_elem h ys) as Hh.
  split.
  { rewrite app_comm_cons. apply NoDup_app. split_and!; [done| |done]. set_solver. }
  apply dseg_app. split.
  - eapply dseg_relink_last; [exact H1|done|..]; cbn.
    + intros x Hx. apply upd_ne. intros ->. apply NoDup_cons in Hnd1 as [Hnh _].
      destruct ys as [|y ys]; cbn in *; [done|]. apply (Hd y); set_solver.
    + intros x Hx Hne. by apply upd_ne.
    + apply upd_eq.
    + apply upd_eq.
  - eapply dseg_relink_first; [exact H2|..]; cbn.
    + apply NoDup_app. split_and!; [done|set_solver|apply NoDup_singleton].
    + intros x Hx. apply upd_ne. intros ->. apply (Hd _ Hl). by right.
    + intros x Hx Hne. by apply upd_ne.
    + apply upd_eq.
    + apply upd_eq.
Qed.

(** After [list_del_init] the entry is alone again: its own empty list. *)
Lemma list_del_init_dlist s h xs e ys :
  is_dlist s h (xs ++ e :: ys) ->
  is_dlist (list_del_init s e) h (xs ++ ys) /\ is_dlist (list_del_init s e) e [].
Proof.
  intros H. split; [|apply list_init_dlist].
  pose proof (list_del_dlist _ _ _ _ _ H) as Hd. destruct H as [Hnd _].
  eapply is_dlist_frame; [|exact Hd]. intros x Hx. cbn.
  rewrite app_comm_cons in Hnd. apply NoDup_app in Hnd as (_ & Hd' & [Hey _]%NoDup_cons).
  assert (x <> e).
  { intros ->. rewrite app_comm_cons in Hx. apply elem_of_app in Hx as [Hx|Hx]; [|done].
    apply (Hd' _ Hx). by left. }
  split; by apply upd_ne.
Qed.

(** Entries of other lists keep their links. *)
Lemma list_add_frame s h xs e x : is_dlist s h xs -> x ∉ e :: h :: xs ->
  nxt (list_add s h e) x = nxt s x /\ prv (list_add s h e) x = prv s x.
Proof.
  intros H Hx. unfold list_add, list_add_after. rewrite (is_dlist_first _ _ _ H). cbn.
  assert (headd h xs ∈ h :: xs) by (destruct xs; cbn; [left|right; left]).
  split; rewrite !upd_ne by set_solver; done.
Qed.

Lemma list_del_frame s h xs e ys x : is_dlist s h (xs ++ e :: ys) -> x ∉ h :: xs ++ e :: ys ->
  nxt (list_del s e) x = nxt s x /\ prv (list_del s e) x = prv s x.
Proof.
  intros H Hx. unfold list_del. rewrite (is_dlist_prv _ _ _ _ _ H), (is_dlist_nxt _ _ _ _ _ H). cbn.
  pose proof (lastd_elem h xs). assert (headd h ys ∈ h :: ys) by (destruct ys; cbn; [left|right; left]).
  split; rewrite upd_ne by set_solver; done.
Qed.
End lists.

#[export] Hint Resolve list_init_dlist : ucore.
#[export] Hint Unfold list_next list_prev : ucore_run.
