(* ===== verification/Libs.v ===== *)
(** * Kernel support routines: bit operations, hashing, pseudo-random numbers

    libs/atomic.h, libs/hash.c and libs/rand.c. *)
From S2P Require Import Prelude.

(** ** libs/atomic.h on one 64-bit word *)
Definition BIT_MASK (nr : Z) : Z := Z.shiftl 1 (nr mod 64).
Definition set_bit (nr w : Z) : Z := Z.lor w (BIT_MASK nr).
Definition clear_bit (nr w : Z) : Z := Z.land w (Z.lnot (BIT_MASK nr)).
Definition test_bit (nr w : Z) : bool := Z.testbit w nr.

Lemma BIT_MASK_testbit nr i :
  0 <= nr < 64 -> 0 <= i -> Z.testbit (BIT_MASK nr) i = bool_decide (i = nr).
Proof.
  intros Hn Hi. unfold BIT_MASK. rewrite Z.mod_small by lia.
  rewrite Z.shiftl_1_l, Z.pow2_bits_eqb by lia.
  destruct (Z.eqb_spec nr i); case_bool_decide; congruence.
Qed.

Lemma set_bit_spec nr w i :
  0 <= nr < 64 -> 0 <= i ->
  test_bit i (set_bit nr w) = bool_decide (i = nr) || test_bit i w.
Proof.
  intros. unfold test_bit, set_bit. rewrite Z.lor_spec, BIT_MASK_testbit by done.
  apply orb_comm.
Qed.

Lemma clear_bit_spec nr w i :
  0 <= nr < 64 -> 0 <= i ->
  test_bit i (clear_bit nr w) = negb (bool_decide (i = nr)) && test_bit i w.
Proof.
  intros. unfold test_bit, clear_bit.
  rewrite Z.land_spec, Z.lnot_spec, BIT_MASK_testbit by done. apply andb_comm.
Qed.

(** ** libs/error.h *)
Definition E_UNSPECIFIED : Z := 1.
Definition E_BAD_PROC : Z := 2.
Definition E_INVAL : Z := 3.
Definition E_NO_MEM : Z := 4.
Definition E_NO_FREE_PROC : Z := 5.
Definition E_FAULT : Z := 6.
Definition E_SWAP_FAULT : Z := 7.
Definition E_INVAL_ELF : Z := 8.
Definition E_KILLED : Z := 9.
Definition E_PANIC : Z := 10.
Definition E_TIMEOUT : Z := 11.
Definition E_TOO_BIG : Z := 12.
Definition E_NO_DEV : Z := 13.
Definition E_NA_DEV : Z := 14.
Definition E_BUSY : Z := 15.
Definition E_NOENT : Z := 16.
Definition E_ISDIR : Z := 17.
Definition E_NOTDIR : Z := 18.
Definition E_XDEV : Z := 19.
Definition E_UNIMP : Z := 20.
Definition E_SEEK : Z := 21.
Definition E_MAX_OPEN : Z := 22.
Definition E_EXISTS : Z := 23.
Definition E_NOTEMPTY : Z := 24.

(** ** libs/hash.c *)
Definition GOLDEN_RATIO_PRIME_32 : Z := 0x9e370001.
Definition hash32 (val bits : Z) : Z :=
  Z.shiftr (u32 (val * GOLDEN_RATIO_PRIME_32)) (32 - bits).

Lemma hash32_range val bits : 0 <= bits <= 32 -> 0 <= hash32 val bits < 2 ^ bits.
Proof.
  intros Hb. unfold hash32. pose proof (u32_range (val * GOLDEN_RATIO_PRIME_32)) as Hr.
  rewrite Z.shiftr_div_pow2 by lia. split; [apply Z.div_pos; lia|].
  apply Z.div_lt_upper_bound; [lia|]. rewrite <- Z.pow_add_r by lia.
  replace (32 - bits + bits) with 32 by lia. apply Hr.
Qed.

(** ** libs/rand.c: the state is the word [next] *)
Definition RAND_MAX : Z := 2147483647.
Definition rand : ST Z Z :=
  modify (fun next => Z.land (u64 (u64 (next * 0x5DEECE66D) + 0xB)) (2 ^ 48 - 1)) ;;
  result ← get (fun next => Z.shiftr next 12);
  mret (result mod (RAND_MAX + 1)).
Definition srand (seed : Z) : ST Z unit := modify (fun _ => seed).
