(* ===== verification/Mem.v ===== *)
(** * Byte memories

    A buffer is the memory around its address: a total map from addresses to
    bytes.  Copying and filling are those of libs/string.c on disjoint or
    overlapping ranges ([memmove] reads the source before it writes). *)
From S2P Require Import Prelude.

Definition mem := Z -> Z.

(** [memcpy]/[memmove] of [n] bytes from [src + s] to [dst + d]. *)
Definition copy (dst : mem) (d : Z) (src : mem) (s n : Z) : mem :=
  fun a => if (d <=? a) && (a <? d + n) then src (s + (a - d)) else dst a.

(** [memset]. *)
Definition fill (m : mem) (a n v : Z) : mem :=
  fun x => if (a <=? x) && (x <? a + n) then v else m x.

(** Little-endian integers of [n] bytes. *)
Fixpoint le_get (m : mem) (a : Z) (n : nat) : Z :=
  match n with
  | O => 0
  | S n' => m a + 256 * le_get m (a + 1) n'
  end.

Fixpoint le_put (m : mem) (a : Z) (n : nat) (v : Z) : mem :=
  match n with
  | O => m
  | S n' => le_put (upd m a (v mod 256)) (a + 1) n' (v / 256)
  end.

Definition get32 (m : mem) (a : Z) : Z := le_get m a 4.
Definition put32 (m : mem) (a v : Z) : mem := le_put m a 4 v.
Definition get16 (m : mem) (a : Z) : Z := le_get m a 2.
Definition put16 (m : mem) (a v : Z) : mem := le_put m a 2 v.

Lemma copy_in dst d src s n a : d <= a < d + n -> copy dst d src s n a = src (s + (a - d)).
Proof.
  intros. unfold copy. by rewrite (proj2 (Z.leb_le _ _)), (proj2 (Z.ltb_lt _ _)) by lia.
Qed.

Lemma copy_out dst d src s n a : a < d \/ d + n <= a -> copy dst d src s n a = dst a.
Proof.
  intros. unfold copy. destruct (Z.leb_spec d a), (Z.ltb_spec a (d + n)); cbn; done || lia.
Qed.

Lemma fill_in m a n v x : a <= x < a + n -> fill m a n v x = v.
Proof.
  intros. unfold fill. by rewrite (proj2 (Z.leb_le _ _)), (proj2 (Z.ltb_lt _ _)) by lia.
Qed.

Lemma fill_out m a n v x : x < a \/ a + n <= x -> fill m a n v x = m x.
Proof.
  intros. unfold fill. destruct (Z.leb_spec a x), (Z.ltb_spec x (a + n)); cbn; done || lia.
Qed.

Lemma le_get_ext m m' a n :
  (forall i, 0 <= i < Z.of_nat n -> m (a + i) = m' (a + i)) -> le_get m a n = le_get m' a n.
Proof.
  revert a; induction n as [|n IH]; intros a H; [done|]. cbn [le_get].
  rewrite (IH (a + 1)).
  - pose proof (H 0 ltac:(lia)) as H0. rewrite Z.add_0_r in H0. by rewrite H0.
  - intros i Hi. replace (a + 1 + i) with (a + (i + 1)) by lia. apply H. lia.
Qed.

Lemma le_get_shift m m' a b n :
  (forall i, 0 <= i < Z.of_nat n -> m (a + i) = m' (b + i)) -> le_get m a n = le_get m' b n.
Proof.
  revert a b; induction n as [|n IH]; intros a b H; [done|]. cbn [le_get].
  pose proof (H 0 ltac:(lia)) as H0. rewrite !Z.add_0_r in H0. rewrite H0, (IH (a + 1) (b + 1)); [done|].
  intros i Hi. pose proof (H (i + 1) ltac:(lia)) as Hs.
  by replace (a + 1 + i) with (a + (i + 1)) by lia; replace (b + 1 + i) with (b + (i + 1)) by lia.
Qed.

Lemma le_get_zero m a n : (forall i, 0 <= i < Z.of_nat n -> m (a + i) = 0) -> le_get m a n = 0.
Proof.
  revert a; induction n as [|n IH]; intros a Hz; [done|]. cbn [le_get].
  pose proof (Hz 0 ltac:(lia)) as H0. rewrite Z.add_0_r in H0. rewrite H0, IH; [done|].
  intros i Hi. replace (a + 1 + i) with (a + (i + 1)) by lia. apply Hz. lia.
Qed.

Lemma le_put_out n : forall m a v x, x < a \/ a + Z.of_nat n <= x -> le_put m a n v x = m x.
Proof.
  induction n as [|n IH]; intros m a v x Hx; [done|]. cbn [le_put].
  rewrite IH by lia. apply upd_ne. lia.
Qed.

Lemma le_get_put n : forall m a v,
  0 <= v < 256 ^ Z.of_nat n -> le_get (le_put m a n v) a n = v.
Proof.
  induction n as [|n IH]; intros m a v Hv; [cbn in *; lia|]. cbn [le_get le_put].
  rewrite le_put_out by lia. rewrite upd_eq.
  rewrite Nat2Z.inj_succ, Z.pow_succ_r in Hv by lia.
  rewrite IH; [pose proof (Z.div_mod v 256); lia|].
  split; [apply Z.div_pos; lia|apply Z.div_lt_upper_bound; lia].
Qed.

Lemma le_get_put_other m a n b k v :
  b + Z.of_nat k <= a \/ a + Z.of_nat n <= b ->
  le_get (le_put m b k v) a n = le_get m a n.
Proof. intros H. apply le_get_ext. intros i Hi. apply le_put_out. lia. Qed.

(** Every cell holds a byte. *)
Definition bytes_ok (m : mem) : Prop := forall a, 0 <= m a < 256.

Lemma le_get_range m a n : bytes_ok m -> 0 <= le_get m a n < 256 ^ Z.of_nat n.
Proof.
  intros Hm. revert a; induction n as [|n IH]; intros a; [cbn; lia|]. cbn [le_get].
  pose proof (Hm a). pose proof (IH (a + 1)).
  rewrite Nat2Z.inj_succ, Z.pow_succ_r by lia. lia.
Qed.

Lemma copy_ok dst d src s n : bytes_ok dst -> bytes_ok src -> bytes_ok (copy dst d src s n).
Proof. intros H1 H2 a. unfold copy. destruct (_ && _); auto. Qed.

Lemma fill_ok m a n v : bytes_ok m -> 0 <= v < 256 -> bytes_ok (fill m a n v).
Proof. intros H1 H2 x. unfold fill. destruct (_ && _); auto. Qed.

Lemma upd_ok m a v : bytes_ok m -> 0 <= v < 256 -> bytes_ok (upd m a v).
Proof. intros H1 H2 x. unfold upd. destruct (decide _); auto. Qed.

Lemma le_put_ok n : forall m a v, bytes_ok m -> bytes_ok (le_put m a n v).
Proof.
  induction n as [|n IH]; intros m a v Hm; [done|]. cbn [le_put].
  apply IH, upd_ok; [done|]. apply Z.mod_pos_bound. lia.
Qed.

#[export] Hint Resolve copy_ok fill_ok le_put_ok upd_ok : ucore.
#[export] Hint Rewrite copy_in copy_out fill_in fill_out using lia : ucore.
