(* ===== verification/Strings.v ===== *)
(** * Strings and memory blocks (libs/string.c)

    The loops of the C functions over a memory of bytes; a [char] is unsigned on
    RISC-V.  [__HAVE_ARCH_MEMCPY] and its like are not defined, so the portable
    bodies are the ones compiled.  [fuel] bounds the scans for a terminating 0. *)
From S2P Require Import Prelude Mem.

(** [*p = v]. *)
Definition put (p v : Z) : ST mem unit := modify (fun m => upd m p (v mod 256)).
Definition peek (p : Z) : ST mem Z := get (fun m => m p).

Section strings.
  Context (fuel : nat).

Fixpoint strlen_loop (k : nat) (s cnt : Z) : ST mem Z :=
  match k with
  | O => no_fuel
  | S k' => c ← peek s; if negb (c =? 0) then strlen_loop k' (s + 1) (u64 (cnt + 1)) else mret cnt
  end.
Definition strlen (s : Z) : ST mem Z := strlen_loop fuel s 0.

Fixpoint strnlen_loop (k : nat) (s cnt len : Z) : ST mem Z :=
  match k with
  | O => no_fuel
  | S k' =>
      if cnt <? len then c ← peek s; if negb (c =? 0) then strnlen_loop k' (s + 1) (cnt + 1) len else mret cnt
      else mret cnt
  end.
Definition strnlen (s len : Z) : ST mem Z := strnlen_loop fuel s 0 len.

Fixpoint strcpy_loop (k : nat) (p src : Z) : ST mem unit :=
  match k with
  | O => no_fuel
  | S k' => c ← peek src; put p c ;; if negb (c =? 0) then strcpy_loop k' (p + 1) (src + 1) else mret tt
  end.
Definition strcpy (dst src : Z) : ST mem Z := strcpy_loop fuel dst src ;; mret dst.

Fixpoint strncpy_loop (len : nat) (p src : Z) : ST mem unit :=
  match len with
  | O => mret tt
  | S len' => c ← peek src; put p c ;; strncpy_loop len' (p + 1) (if negb (c =? 0) then src + 1 else src)
  end.
Definition strncpy (dst src len : Z) : ST mem Z := strncpy_loop (Z.to_nat len) dst src ;; mret dst.

Definition strcat (dst src : Z) : ST mem Z := n ← strlen dst; strcpy (dst + n) src.

Fixpoint strcmp_loop (k : nat) (s1 s2 : Z) : ST mem Z :=
  match k with
  | O => no_fuel
  | S k' =>
      a ← peek s1; b ← peek s2;
      if negb (a =? 0) && (a =? b) then strcmp_loop k' (s1 + 1) (s2 + 1) else mret (a - b)
  end.
Definition strcmp (s1 s2 : Z) : ST mem Z := strcmp_loop fuel s1 s2.

Fixpoint strncmp_loop (n : nat) (s1 s2 : Z) : ST mem Z :=
  match n with
  | O => mret 0
  | S n' =>
      a ← peek s1; b ← peek s2;
      if negb (a =? 0) && (a =? b) then strncmp_loop n' (s1 + 1) (s2 + 1) else mret (a - b)
  end.
Definition strncmp (s1 s2 n : Z) : ST mem Z := strncmp_loop (Z.to_nat n) s1 s2.

(** [None] is [NULL]. *)
Fixpoint strchr_loop (k : nat) (s c : Z) : ST mem (option Z) :=
  match k with
  | O => no_fuel
  | S k' => x ← peek s; if x =? 0 then mret None else if x =? c then mret (Some s) else strchr_loop k' (s + 1) c
  end.
Definition strchr (s c : Z) : ST mem (option Z) := strchr_loop fuel s c.

Fixpoint strfind_loop (k : nat) (s c : Z) : ST mem Z :=
  match k with
  | O => no_fuel
  | S k' => x ← peek s; if x =? 0 then mret s else if x =? c then mret s else strfind_loop k' (s + 1) c
  end.
Definition strfind (s c : Z) : ST mem Z := strfind_loop fuel s c.

(** ** strtol *)
Fixpoint skip_blanks (k : nat) (s : Z) : ST mem Z :=
  match k with
  | O => no_fuel
  | S k' => c ← peek s; if (c =? 32) || (c =? 9) then skip_blanks k' (s + 1) else mret s
  end.
(** The pointer after the sign, and [neg]. *)
Definition take_sign (s : Z) : ST mem (Z * bool) :=
  c ← peek s;
  mret (if c =? 43 then (s + 1, false) else if c =? 45 then (s + 1, true) else (s, false)).
(** The pointer after the prefix, and the base. *)
Definition take_prefix (s base : Z) : ST mem (Z * Z) :=
  c0 ← peek s; c1 ← peek (s + 1);
  mret (if ((base =? 0) || (base =? 16)) && ((c0 =? 48) && (c1 =? 120)) then (s + 2, 16)
        else if (base =? 0) && (c0 =? 48) then (s + 1, 8)
        else if base =? 0 then (s, 10) else (s, base)).
(** The value of a digit, [None] for any other character. *)
Definition digit (c : Z) : option Z :=
  if (48 <=? c) && (c <=? 57) then Some (c - 48)
  else if (97 <=? c) && (c <=? 122) then Some (c - 97 + 10)
  else if (65 <=? c) && (c <=? 90) then Some (c - 65 + 10)
  else None.
Fixpoint digits_loop (k : nat) (s val base : Z) : ST mem (Z * Z) :=
  match k with
  | O => no_fuel
  | S k' =>
      c ← peek s;
      match digit c with
      | Some dig => if base <=? dig then mret (s, val) else digits_loop k' (s + 1) (s64 (val * base + dig)) base
      | None => mret (s, val)
      end
  end.
(** The value, and what goes to [*endptr]. *)
Definition strtol (s base : Z) : ST mem (Z * Z) :=
  s ← skip_blanks fuel s;
  '(s, neg) ← take_sign s;
  '(s, base) ← take_prefix s base;
  '(s, val) ← digits_loop fuel s 0 base;
  mret (if (neg : bool) then s64 (- val) else val, s).
End strings.

(** ** Blocks of memory *)
Fixpoint memset_loop (n : nat) (p c : Z) : ST mem unit :=
  match n with
  | O => mret tt
  | S n' => put p c ;; memset_loop n' (p + 1) c
  end.
Definition memset (s c n : Z) : ST mem Z := memset_loop (Z.to_nat n) s c ;; mret s.

(** Upwards from [d] and [s], and downwards to them. *)
Fixpoint copy_up (n : nat) (d s : Z) : ST mem unit :=
  match n with
  | O => mret tt
  | S n' => c ← peek s; put d c ;; copy_up n' (d + 1) (s + 1)
  end.
Fixpoint copy_down (n : nat) (d s : Z) : ST mem unit :=
  match n with
  | O => mret tt
  | S n' => c ← peek (s - 1); put (d - 1) c ;; copy_down n' (d - 1) (s - 1)
  end.
Definition memmove (dst src n : Z) : ST mem Z :=
  (if (src <? dst) && (dst <? src + n) then copy_down (Z.to_nat n) (dst + n) (src + n)
   else copy_up (Z.to_nat n) dst src) ;;
  mret dst.
Definition memcpy (dst src n : Z) : ST mem Z := copy_up (Z.to_nat n) dst src ;; mret dst.

Fixpoint memcmp_loop (n : nat) (s1 s2 : Z) : ST mem Z :=
  match n with
  | O => mret 0
  | S n' =>
      a ← peek s1; b ← peek s2;
      if negb (a =? b) then mret (a - b) else memcmp_loop n' (s1 + 1) (s2 + 1)
  end.
Definition memcmp (v1 v2 n : Z) : ST mem Z := memcmp_loop (Z.to_nat n) v1 v2.
