(* ===== verification/Printfmt.v ===== *)
(** * Formatted output (libs/printfmt.c)

    [vprintfmt] over an arbitrary [putch] and its data [D], and [vsnprintf], whose
    [putch] fills a buffer.  A variable argument is the 64-bit register it is passed in.
    The format and the strings are read from a memory [m] that [putch] does not write:
    a buffer does not overlap what is formatted into it. *)
From Stdlib Require Import String Ascii.
From S2P Require Import Prelude Libs Mem Strings.

Record pstate (D : Type) := mkP { ap : list Z; dat : D }.
Arguments mkP {D}. Arguments ap {D}. Arguments dat {D}.

(** [padc], [width], [precision], [lflag] and [altflag] of a conversion. *)
Record conv := mkConv { padc : Z; width : Z; precision : Z; lflag : Z; altflag : bool }.
Definition conv0 : conv := mkConv 32 (-1) (-1) 0 false.
Definition set_padc c (e : conv) := mkConv c (width e) (precision e) (lflag e) (altflag e).
Definition set_width w (e : conv) := mkConv (padc e) w (precision e) (lflag e) (altflag e).
Definition set_precision p (e : conv) := mkConv (padc e) (width e) p (lflag e) (altflag e).

(** The characters of a literal. *)
Definition text (s : String.string) : list Z := map (fun c => Z.of_N (Ascii.N_of_ascii c)) (list_ascii_of_string s).
Definition text_mem (l : list Z) : mem := fun a => if 0 <=? a then nth (Z.to_nat a) l 0 else 0.

Definition MAXERROR : Z := 24.
(** [error_string]; [None] is [NULL]. *)
Definition error_string (err : Z) : option String.string :=
  if err =? E_UNSPECIFIED then Some "unspecified error"%string
  else if err =? E_BAD_PROC then Some "bad process"%string
  else if err =? E_INVAL then Some "invalid parameter"%string
  else if err =? E_NO_MEM then Some "out of memory"%string
  else if err =? E_NO_FREE_PROC then Some "out of processes"%string
  else if err =? E_FAULT then Some "segmentation fault"%string
  else if err =? E_INVAL_ELF then Some "invalid elf file"%string
  else if err =? E_KILLED then Some "process is killed"%string
  else if err =? E_PANIC then Some "panic failure"%string
  else if err =? E_NO_DEV then Some "no such device"%string
  else if err =? E_NA_DEV then Some "device not available"%string
  else if err =? E_BUSY then Some "device/file is busy"%string
  else if err =? E_NOENT then Some "no such file or directory"%string
  else if err =? E_ISDIR then Some "is a directory"%string
  else if err =? E_NOTDIR then Some "not a directory"%string
  else if err =? E_XDEV then Some "cross device link"%string
  else if err =? E_UNIMP then Some "unimplemented feature"%string
  else if err =? E_SEEK then Some "illegal seek"%string
  else if err =? E_MAX_OPEN then Some "too many files are open"%string
  else if err =? E_EXISTS then Some "file or directory already exists"%string
  else if err =? E_NOTEMPTY then Some "directory is not empty"%string
  else None.

Section printfmt.
  Context {D : Type} (putch : Z -> ST D unit) (m : mem) (fuel : nat).
  Notation M := (ST (pstate D)).

Definition emit (ch : Z) : M unit := fun s =>
  match putch ch (dat s) with
  | Done (_, d) => Done (tt, mkP (ap s) d)
  | Panicked => Panicked
  | NoFuel => NoFuel
  end.
Fixpoint emit_all (l : list Z) : M unit :=
  match l with [] => mret tt | c :: l' => emit c ;; emit_all l' end.
(** A missing argument is undefined behaviour. *)
Definition va_arg : M Z := fun s =>
  match ap s with
  | x :: l => Done (x, mkP l (dat s))
  | [] => Panicked
  end.
Definition va_int : M Z := x ← va_arg; mret (s32 x).

(** [0123456789abcdef][d]. *)
Definition digit_char (d : Z) : Z := if d <? 10 then 48 + d else 87 + d.
Fixpoint printnum (k : nat) (num base width padc : Z) : M unit :=
  match k with
  | O => no_fuel
  | S k' =>
      (if base <=? num then printnum k' (num / base) base (width - 1) padc
       else emit_all (repeat padc (Z.to_nat (width - 1)))) ;;
      emit (digit_char (num mod base))
  end.

Definition getuint (lflag : Z) : M Z := x ← va_arg; mret (if negb (lflag =? 0) then u64 x else u32 x).
Definition getint (lflag : Z) : M Z := x ← va_arg; mret (if negb (lflag =? 0) then s64 x else s32 x).

(** The labels of the [switch] that print something. *)
Definition number (e : conv) (num base : Z) : M unit := printnum 65 num base (width e) (padc e).
Definition print_d (e : conv) (num : Z) : M unit :=
  num ← (if num <? 0 then emit 45 ;; mret (u64 (- num)) else mret num : M Z);
  number e num 10.
(** [%e]; the two nested calls of [printfmt] are written out. *)
Definition print_e : M unit :=
  err ← va_int;
  let err := if err <? 0 then s32 (- err) else err in
  if err <? 0 then panic
  else match (if MAXERROR <? err then None else error_string err) with
  | None => emit_all (text "error ") ;; print_d conv0 err
  | Some p => emit_all (text p)
  end.

(** The loop over the characters of a string; returns what is left of [width]. *)
Fixpoint string_loop (k : nat) (sm : mem) (p : Z) (e : conv) : M Z :=
  match k with
  | O => no_fuel
  | S k' =>
      let ch := sm p in
      if (ch =? 0) || negb ((precision e <? 0) || (0 <=? precision e - 1)) then mret (width e)
      else
        emit (if altflag e && ((ch <? 32) || (126 <? ch)) then 63 else ch) ;;
        string_loop k' sm (p + 1)
          (set_width (width e - 1) (set_precision (if precision e <? 0 then precision e else precision e - 1) e))
  end.
Definition print_s (e : conv) : M unit :=
  p ← va_arg;
  let p := u64 p in
  (* [NULL] prints "(null)" *)
  let '(sm, p) := if p =? 0 then (text_mem (text "(null)"), 0) else (m, p) in
  e ← (if (0 <? width e) && negb (padc e =? 45) then
         '(n, _) ← (fun s => match strnlen fuel p (u64 (precision e)) sm with
                             | Done r => Done (r, s) | Panicked => Panicked | NoFuel => NoFuel end);
         let w := s32 (width e - n) in
         emit_all (repeat (padc e) (Z.to_nat w)) ;;
         mret (set_width (Z.min w 0) e)
       else mret e : M conv);
  w ← string_loop fuel sm p e;
  emit_all (repeat 32 (Z.to_nat w)).

(** The digits of a width or a precision. *)
Fixpoint read_num (k : nat) (fmt prec ch : Z) : outcome (Z * Z) :=
  match k with
  | O => NoFuel
  | S k' =>
      let prec := s32 (prec * 10 + ch - 48) in
      let ch := m fmt in
      if (ch <? 48) || (57 <? ch) then Done (prec, fmt) else read_num k' (fmt + 1) prec ch
  end.
Definition process_precision (e : conv) (p : Z) : conv :=
  if width e <? 0 then set_precision (-1) (set_width p e) else set_precision p e.

(** Back to the place after the [%]. *)
Fixpoint back (k : nat) (fmt : Z) : outcome Z :=
  match k with
  | O => NoFuel
  | S k' => if m (fmt - 1) =? 37 then Done fmt else back k' (fmt - 1)
  end.
Definition lift {X} (o : outcome X) : M X := fun s =>
  match o with Done x => Done (x, s) | Panicked => Panicked | NoFuel => NoFuel end.

(** From the label [reswitch]; returns the place to go on from. *)
Fixpoint escape (k : nat) (fmt : Z) (e : conv) : M Z :=
  match k with
  | O => no_fuel
  | S k' =>
      let ch := m fmt in
      let fmt := fmt + 1 in
      if ch =? 45 then escape k' fmt (set_padc 45 e)
      else if ch =? 48 then escape k' fmt (set_padc 48 e)
      else if (49 <=? ch) && (ch <=? 57) then
        '(p, fmt) ← lift (read_num fuel fmt 0 ch);
        escape k' fmt (process_precision e p)
      else if ch =? 42 then p ← va_int; escape k' fmt (process_precision e p)
      else if ch =? 46 then escape k' fmt (if width e <? 0 then set_width 0 e else e)
      else if ch =? 35 then escape k' fmt (mkConv (padc e) (width e) (precision e) (lflag e) true)
      else if ch =? 108 then escape k' fmt (mkConv (padc e) (width e) (precision e) (lflag e + 1) (altflag e))
      else if ch =? 99 then x ← va_int; emit x ;; mret fmt
      else if ch =? 101 then print_e ;; mret fmt
      else if ch =? 115 then print_s e ;; mret fmt
      else if ch =? 100 then n ← getint (lflag e); print_d e n ;; mret fmt
      else if ch =? 117 then n ← getuint (lflag e); number e n 10 ;; mret fmt
      else if ch =? 111 then n ← getuint (lflag e); number e n 8 ;; mret fmt
      else if ch =? 112 then emit 48 ;; emit 120 ;; n ← va_arg; number e (u64 n) 16 ;; mret fmt
      else if ch =? 120 then n ← getuint (lflag e); number e n 16 ;; mret fmt
      else if ch =? 37 then emit ch ;; mret fmt
      else emit 37 ;; lift (back fuel (fmt - 1))
  end.

Fixpoint vprint_loop (k : nat) (fmt : Z) : M unit :=
  match k with
  | O => no_fuel
  | S k' =>
      let ch := m fmt in
      if ch =? 37 then fmt ← escape fuel (fmt + 1) conv0; vprint_loop k' fmt
      else if ch =? 0 then mret tt
      else emit ch ;; vprint_loop k' (fmt + 1)
  end.
Definition vprintfmt (fmt : Z) : M unit := vprint_loop fuel fmt.
End printfmt.

(** ** Printing into a buffer *)
Record sprintbuf := mkBuf { buf : Z; ebuf : Z; cnt : Z }.
Definition sprintputch (ch : Z) : ST (mem * sprintbuf) unit := fun '(m, b) =>
  let c := s32 (cnt b + 1) in
  Done (tt, if buf b <? ebuf b then (upd m (buf b) (ch mod 256), mkBuf (buf b + 1) (ebuf b) c)
            else (m, mkBuf (buf b) (ebuf b) c)).
(** The buffer is an object of C that ends below 2^64, so its last address
    [str + size - 1] is not wrapped. *)
Definition vsnprintf (fuel : nat) (str size fmt : Z) (args : list Z) : ST mem Z := fun m =>
  let b := mkBuf str (str + size - 1) 0 in
  if (str =? 0) || (ebuf b <? buf b) then Done (- E_INVAL, m)
  else match vprintfmt sprintputch m fuel fmt (mkP args (m, b)) with
  | Done (_, s) => let '(m', b') := dat s in Done (cnt b', upd m' (buf b') 0)
  | Panicked => Panicked
  | NoFuel => NoFuel
  end.
Definition snprintf := vsnprintf.
