(* ===== verification/StringsSpec.v ===== *)
(** * Strings and formatted output, specified

    Block copies are the simultaneous copy of [Mem], whatever the overlap; what the
    number formats print, [strtol] reads back; [vsnprintf] truncates what is printed. *)
From Stdlib Require Import String Ascii.
From S2P Require Import Prelude Libs Mem Strings Printfmt.

(** ** Copies *)
Lemma put_run p v (m : mem) : 0 <= v < 256 -> put p v m = Done (tt, upd m p v).
Proof. intros Hv. unfold put, modify. by rewrite Z.mod_small by lia. Qed.

Lemma copy_step (m : mem) d s n a b : copy (upd m b (m b)) d (upd m b (m b)) s n a = copy m d m s n a.
Proof.
  assert (Hm : forall x, upd m b (m b) x = m x) by (intros x; unfold upd; by case_decide; subst).
  unfold copy. by rewrite !Hm.
Qed.

Lemma copy_up_run n : forall d s (m : mem), bytes_ok m -> ~ s < d < s + Z.of_nat n ->
  exists m', copy_up n d s m = Done (tt, m') /\ forall a, m' a = copy m d m s (Z.of_nat n) a.
Proof.
  induction n as [|n IH]; intros d s m Hm Hd.
  { exists m. split; [done|]. intros a. by rewrite copy_out by lia. }
  cbn [copy_up]. mstep (eq_refl : peek s m = Done (m s, m)). rewrite (bind_Done _ _ _ _ _ (put_run d (m s) m (Hm s))).
  destruct (IH (d + 1) (s + 1) (upd m d (m s))) as (m' & Hrun & Hm'); [by apply upd_ok|lia|].
  exists m'. split; [done|]. intros a. rewrite Hm'. destruct (decide (d + 1 <= a < d + 1 + Z.of_nat n)) as [Hin|Hout].
  - rewrite !copy_in by lia. rewrite upd_ne by lia. f_equal. lia.
  - rewrite (copy_out (upd m d (m s))) by lia. destruct (decide (a = d)) as [->|].
    + rewrite upd_eq, copy_in by lia. f_equal. lia.
    + rewrite upd_ne, copy_out by lia. done.
Qed.

Lemma copy_down_run n : forall d s (m : mem), bytes_ok m -> s <= d ->
  exists m', copy_down n d s m = Done (tt, m') /\
    forall a, m' a = copy m (d - Z.of_nat n) m (s - Z.of_nat n) (Z.of_nat n) a.
Proof.
  induction n as [|n IH]; intros d s m Hm Hd.
  { exists m. split; [done|]. intros a. by rewrite copy_out by lia. }
  cbn [copy_down]. mstep (eq_refl : peek (s - 1) m = Done (m (s - 1), m)).
  rewrite (bind_Done _ _ _ _ _ (put_run (d - 1) (m (s - 1)) m (Hm (s - 1)))).
  destruct (IH (d - 1) (s - 1) (upd m (d - 1) (m (s - 1)))) as (m' & Hrun & Hm'); [by apply upd_ok|lia|].
  exists m'. split; [done|]. intros a. rewrite Hm'. set (e := d - Z.of_nat (S n)).
  replace (d - 1 - Z.of_nat n) with e by lia. replace (s - 1 - Z.of_nat n) with (s - Z.of_nat (S n)) by lia.
  destruct (decide (e <= a < e + Z.of_nat n)) as [Hin|Hout].
  - rewrite !copy_in by lia. by rewrite upd_ne by lia.
  - rewrite (copy_out (upd _ _ _)) by lia. destruct (decide (a = d - 1)) as [->|].
    + rewrite upd_eq, copy_in by lia. f_equal. lia.
    + rewrite upd_ne, copy_out by lia. done.
Qed.

(** C40 The byte loops of [memmove] have the effect of reading the whole source before writing,
    in either direction and for every overlap; so have those of [memcpy] unless the
    destination starts inside the source. *)
Theorem memmove_is_copy (m : mem) dst src n : bytes_ok m -> 0 <= n ->
  (exists m', memmove dst src n m = Done (dst, m') /\ forall a, m' a = copy m dst m src n a) /\
  (~ src < dst < src + n -> exists m', memcpy dst src n m = Done (dst, m') /\ forall a, m' a = copy m dst m src n a).
Proof.
  intros Hm Hn.
  assert (Hup : ~ src < dst < src + n -> exists m', copy_up (Z.to_nat n) dst src m = Done (tt, m') /\ forall a, m' a = copy m dst m src n a).
  { intros Hd. destruct (copy_up_run (Z.to_nat n) dst src m Hm) as (m' & Hrun & Hm'); [lia|]. exists m'. by rewrite Z2Nat.id in Hm' by lia. }
  split.
  - unfold memmove. destruct (Z.ltb_spec src dst), (Z.ltb_spec dst (src + n)); cbn [andb].
    1: { destruct (copy_down_run (Z.to_nat n) (dst + n) (src + n) m Hm) as (m' & Hrun & Hm'); [lia|].
         rewrite (bind_Done _ _ _ _ _ Hrun). exists m'. split; [done|]. intros a. rewrite Hm', Z2Nat.id by lia. do 2 f_equal; lia. }
    all: destruct Hup as (m' & Hrun & Hm'); [lia|]; rewrite (bind_Done _ _ _ _ _ Hrun); by exists m'.
  - intros Hd. destruct (Hup Hd) as (m' & Hrun & Hm'). unfold memcpy. rewrite (bind_Done _ _ _ _ _ Hrun). by exists m'.
Qed.

Definition ramp : mem := fun a => if (0 <=? a) && (a <? 8) then a + 65 else 0.
Lemma ramp_ok : bytes_ok ramp.
Proof. intros a. unfold ramp. destruct (Z.leb_spec 0 a), (Z.ltb_spec a 8); cbn; lia. Qed.
Lemma memmove_is_copy_witness : exists m', memmove 2 0 6 ramp = Done (2, m') /\ forall a, m' a = copy ramp 2 ramp 0 6 a.
Proof. apply (memmove_is_copy ramp 2 0 6 ramp_ok). lia. Defined.
(** Where [memcpy] differs: upwards over its own source. *)
Example memcpy_overlap :
  result ((memcpy 2 0 6 ;; a ← peek 4; b ← peek 6; mret (a, b)) ramp) = Some (65, 65) /\
  result ((memmove 2 0 6 ;; a ← peek 4; b ← peek 6; mret (a, b)) ramp) = Some (67, 69).
Proof. by vm_compute. Qed.

(** ** Numbers *)

(** The value of a list of digits, most significant first. *)
Definition digit_val (c : Z) : Z := default 0 (digit c).
Definition value (base acc : Z) (ds : list Z) : Z := fold_left (fun v c => v * base + digit_val c) ds acc.
Definition is_digit (base c : Z) : Prop := exists d, digit c = Some d /\ d < base.

Lemma digit_char_ok base d : 0 <= d < base -> base <= 16 -> is_digit base (digit_char d) /\ digit_val (digit_char d) = d /\
  0 < digit_char d < 256 /\ (digit_char d = 48 <-> d = 0).
Proof.
  intros Hd Hb.
  assert (H : forallb (fun d => bool_decide (digit (digit_char d) = Some d) && ((0 <? digit_char d) && (digit_char d <? 256)) &&
                       bool_decide (digit_char d = 48 <-> d = 0)) (seqZ 0 16) = true) by by vm_compute.
  rewrite forallb_forall in H. specialize (H d). rewrite <- list_elem_of_In, elem_of_seqZ in H. specialize (H ltac:(lia)).
  apply andb_true_iff in H as [[H1%bool_decide_eq_true [H2%Z.ltb_lt H3%Z.ltb_lt]%andb_true_iff]%andb_true_iff H4%bool_decide_eq_true].
  split; [by exists d; split; [|lia]|]. split; [unfold digit_val; by rewrite H1|]. split; [lia|done].
Qed.

Section emit.
  Context {D : Type} (putch : Z -> ST D unit).
  Implicit Types s : pstate D.

Lemma emit_all_app l1 l2 s : emit_all putch (l1 ++ l2) s = (emit_all putch l1 ;; emit_all putch l2) s.
Proof.
  revert s. induction l1 as [|c l1 IH]; intros s; [done|]. cbn [app emit_all].
  unfold mbind, ST_bind in *. destruct (emit putch c s) as [[[] s1]| |]; [|done..]. rewrite IH. done.
Qed.

Lemma emit_all_one c s : emit_all putch [c] s = emit putch c s.
Proof. cbn [emit_all]. unfold mbind, ST_bind, mret, ST_ret. by destruct (emit putch c s) as [[[] s1]| |]. Qed.

(** What a number format prints: padding, then the digits of the number. *)
Record printed (base num : Z) (ds : list Z) : Prop := mkPrinted {
  pr_digits : Forall (fun c => is_digit base c /\ 0 < c < 256) ds;
  pr_value : value base 0 ds = num;
  pr_head : (exists c ds', ds = c :: ds' /\ (c = 48 -> ds = [48])) }.

Lemma printnum_S k num base width padc : printnum putch (S k) num base width padc =
  ((if base <=? num then printnum putch k (num / base) base (width - 1) padc
    else emit_all putch (repeat padc (Z.to_nat (width - 1)))) ;; emit putch (digit_char (num mod base)) : ST (pstate D) unit).
Proof. done. Qed.

Lemma printnum_run base padc : 2 <= base <= 16 -> forall k num width, 0 <= num < base ^ (Z.of_nat (S k)) ->
  exists ds, printed base num ds /\ (length ds <= S k)%nat /\
    forall s, printnum putch (S k) num base width padc s = emit_all putch (repeat padc (Z.to_nat (width - Z.of_nat (length ds))) ++ ds) s.
Proof.
  intros Hb. induction k as [|k IH]; intros num width Hn.
  - rewrite Z.pow_1_r in Hn. destruct (digit_char_ok base num) as (H1 & H2 & H3 & H4); [lia|lia|].
    exists [digit_char num]. split.
    { split; [by constructor|cbn; lia|]. exists (digit_char num), []. split; [done|]. by intros ->. }
    split; [done|]. intros s. rewrite printnum_S. destruct (Z.leb_spec base num); [lia|]. rewrite Z.mod_small by lia.
    rewrite emit_all_app. cbn [length]. unfold mbind, ST_bind. destruct (emit_all _ _ s) as [[[] s1]| |]; [|done..]. by rewrite emit_all_one.
  - destruct (Z.leb_spec base num) as [Hle|Hlt].
    + rewrite Nat2Z.inj_succ, Z.pow_succ_r in Hn by lia.
      assert (Hq : 0 <= num / base < base ^ Z.of_nat (S k)) by (split; [apply Z.div_pos; lia|apply Z.div_lt_upper_bound; lia]).
      destruct (IH (num / base) (width - 1) Hq) as (ds & [Hds Hv (c & ds' & Hc & Hh)] & Hl & Hrun).
      pose proof (Z.mod_pos_bound num base ltac:(lia)) as Hm.
      destruct (digit_char_ok base (num mod base)) as (H1 & H2 & H3 & H4); [lia|lia|].
      exists (ds ++ [digit_char (num mod base)]). split.
      { split.
        - apply Forall_app. split; [done|by constructor].
        - unfold value in *. rewrite fold_left_app. cbn [fold_left]. rewrite Hv, H2. pose proof (Z.div_mod num base). lia.
        - exists c, (ds' ++ [digit_char (num mod base)]). split; [by rewrite Hc|]. intros ->. exfalso.
          assert (1 <= num / base) by (apply Z.div_le_lower_bound; lia).
          rewrite (Hh eq_refl) in Hv. cbn in Hv. lia. }
      split; [rewrite length_app; cbn; lia|]. intros s. rewrite printnum_S. rewrite (proj2 (Z.leb_le _ _)) by lia.
      rewrite length_app. cbn [length]. rewrite app_assoc, emit_all_app.
      replace (width - Z.of_nat (length ds + 1)) with (width - 1 - Z.of_nat (length ds)) by lia.
      unfold mbind, ST_bind. rewrite Hrun. destruct (emit_all _ _ s) as [[[] s1]| |]; [|done..]. by rewrite emit_all_one.
    + destruct (digit_char_ok base num) as (H1 & H2 & H3 & H4); [lia|lia|].
      exists [digit_char num]. split.
      { split; [by constructor|cbn; lia|]. exists (digit_char num), []. split; [done|]. by intros ->. }
      split; [cbn; lia|]. intros s. rewrite printnum_S. rewrite (proj2 (Z.leb_gt _ _)) by lia. rewrite Z.mod_small by lia.
      rewrite emit_all_app. cbn [length]. unfold mbind, ST_bind. destruct (emit_all _ _ s) as [[[] s1]| |]; [|done..]. by rewrite emit_all_one.
Qed.
End emit.

(** ** strtol *)

(** The bytes [l] lie at [s]. *)
Fixpoint bytes_at (m : mem) (s : Z) (l : list Z) : Prop :=
  match l with [] => True | c :: l' => m s = c /\ bytes_at m (s + 1) l' end.

Lemma s64_mul_add x b d : s64 (s64 x * b + d) = s64 (x * b + d).
Proof.
  unfold s64. f_equal.
  replace (((x + 2 ^ 63) mod 2 ^ 64 - 2 ^ 63) * b + d + 2 ^ 63) with ((x + 2 ^ 63) mod 2 ^ 64 * b + (d + 2 ^ 63 - 2 ^ 63 * b)) by ring.
  rewrite <- Zplus_mod_idemp_l, Zmult_mod_idemp_l, Zplus_mod_idemp_l. f_equal. ring.
Qed.

Lemma digits_loop_run (m : mem) base : forall ds s acc k, Forall (fun c => is_digit base c /\ 0 < c < 256) ds ->
  bytes_at m s (ds ++ [0]) -> (length ds < k)%nat ->
  digits_loop k s (s64 acc) base m = Done ((s + Z.of_nat (length ds), s64 (value base acc ds)), m).
Proof.
  induction ds as [|c ds IH]; intros s acc k Hd Hb Hk; (destruct k as [|k]; [cbn in Hk; lia|]); cbn [digits_loop].
  - destruct Hb as [Hz _]. mstep (eq_refl : peek s m = Done (m s, m)). rewrite Hz. cbn. by rewrite Z.add_0_r.
  - apply Forall_cons in Hd as [[(d & Hdig & Hlt) _] Hd]. destruct Hb as [Hc Hb].
    mstep (eq_refl : peek s m = Done (m s, m)). rewrite Hc, Hdig. rewrite (proj2 (Z.leb_gt _ _)) by lia.
    rewrite s64_mul_add. rewrite (IH (s + 1) (acc * base + d) k Hd Hb) by (cbn in Hk; lia).
    assert (Hdv : digit_val c = d) by (unfold digit_val; by rewrite Hdig).
    unfold value. cbn [fold_left length]. rewrite Hdv. do 3 f_equal. lia.
Qed.

Lemma digit_not_special base c : is_digit base c -> base <= 16 -> c <> 32 /\ c <> 9 /\ c <> 43 /\ c <> 45 /\ c <> 120.
Proof.
  intros (d & Hd & Hlt) Hb. unfold digit in Hd.
  destruct (Z.leb_spec 48 c), (Z.leb_spec c 57); cbn in Hd; [split_and!; lia|..];
  destruct (Z.leb_spec 97 c), (Z.leb_spec c 122); cbn in Hd; try (injection Hd as <-; split_and!; lia);
  destruct (Z.leb_spec 65 c), (Z.leb_spec c 90); cbn in Hd; try (injection Hd as <-; split_and!; lia); done.
Qed.

(** [strtol] on a sign and printed digits. *)
Lemma strtol_run (m : mem) fuel base num ds s (neg : bool) : 2 <= base <= 16 -> printed base num ds -> (length ds + 1 < fuel)%nat ->
  bytes_at m s ((if neg then [45] else []) ++ ds ++ [0]) ->
  strtol fuel s base m = Done ((if neg then s64 (- s64 num) else s64 num, s + Z.of_nat (length ((if neg then [45] else []) ++ ds))), m).
Proof.
  intros Hb [Hd Hv (c & ds' & Hc & Hh)] Hf Hm. unfold strtol.
  pose proof Hd as Hd2. rewrite Hc in Hd2. apply Forall_cons in Hd2 as [[Hcd Hcr] Hd'].
  destruct (digit_not_special base c Hcd ltac:(lia)) as (N1 & N2 & N3 & N4 & _).
  set (t := s + if neg then 1 else 0).
  assert (Hmt : bytes_at m t (ds ++ [0])) by (unfold t; destruct neg; [by destruct Hm|by rewrite Z.add_0_r]).
  assert (Hct : m t = c) by (rewrite Hc in Hmt; by destruct Hmt).
  assert (Hskip : skip_blanks fuel s m = Done (s, m)).
  { destruct fuel as [|f]; [lia|]. cbn [skip_blanks]. mstep (eq_refl : peek s m = Done (m s, m)).
    assert (Hs : m s = if neg then 45 else c) by (unfold t in Hct; destruct neg; [by destruct Hm|by rewrite Z.add_0_r in Hct]).
    rewrite Hs. destruct neg; [done|]. by rewrite (proj2 (Z.eqb_neq c 32)), (proj2 (Z.eqb_neq c 9)). }
  mstep Hskip.
  assert (Hsign : take_sign s m = Done ((t, neg), m)).
  { unfold take_sign. mstep (eq_refl : peek s m = Done (m s, m)). unfold t in *. destruct neg.
    - destruct Hm as [-> _]. done.
    - rewrite Z.add_0_r in *. rewrite Hct. by rewrite (proj2 (Z.eqb_neq c 43)), (proj2 (Z.eqb_neq c 45)). }
  mstep Hsign.
  assert (Hpre : take_prefix t base m = Done ((t, base), m)).
  { unfold take_prefix. mstep (eq_refl : peek t m = Done (m t, m)). mstep (eq_refl : peek (t + 1) m = Done (m (t + 1), m)). rewrite Hct.
    rewrite (proj2 (Z.eqb_neq base 0)) by lia. cbn [orb andb].
    assert (Hx : (c =? 48) && (m (t + 1) =? 120) = false).
    { destruct (Z.eqb_spec c 48) as [->|]; [|done]. rewrite (Hh eq_refl) in Hmt. destruct Hmt as (_ & H1 & _). by rewrite H1. }
    rewrite Hx. by rewrite andb_false_r. }
  mstep Hpre.
  change 0 with (s64 0) at 1. rewrite (bind_Done _ _ _ _ _ (digits_loop_run m base ds t 0 fuel Hd Hmt ltac:(lia))). rewrite Hv.
  rewrite length_app. unfold t. destruct neg; cbn [length]; unfold mret, ST_ret; do 3 f_equal; lia.
Qed.

(** ** What is printed is read back *)
Definition collect (ch : Z) : ST (list Z) unit := modify (fun l => l ++ [ch]).

Lemma emit_all_collect l : forall (s : pstate (list Z)), emit_all collect l s = Done (tt, mkP (ap s) (dat s ++ l)).
Proof.
  induction l as [|c l IH]; intros [a d]; cbn [emit_all]; [by rewrite app_nil_r|].
  mstep (eq_refl : emit collect c (mkP a d) = Done (tt, mkP a (d ++ [c]))). rewrite IH. cbn. by rewrite <- app_assoc.
Qed.

Lemma s64_u64 x : s64 (u64 x) = s64 x.
Proof. unfold s64, u64. by rewrite Zplus_mod_idemp_l. Qed.

Lemma s64_opp x : s64 (- s64 x) = s64 (- x).
Proof. pose proof (s64_mul_add x (-1) 0) as H. replace (s64 x * -1 + 0) with (- s64 x) in H by lia. by replace (x * -1 + 0) with (- x) in H by lia. Qed.

Lemma s64_range x : - 2 ^ 63 <= s64 x < 2 ^ 63.
Proof. unfold s64. pose proof (Z.mod_pos_bound (x + 2 ^ 63) (2 ^ 64) ltac:(lia)). lia. Qed.

(** A number format without width, on the collected output. *)
Lemma number_collect base num (s : pstate (list Z)) : 2 <= base <= 16 -> 0 <= num < 2 ^ 64 ->
  exists ds, printed base num ds /\ (length ds <= 65)%nat /\
    number collect conv0 num base s = Done (tt, mkP (ap s) (dat s ++ ds)).
Proof.
  intros Hb Hn. destruct (printnum_run collect base 32 Hb 64 num (-1)) as (ds & Hp & Hl & Hrun).
  { split; [lia|]. eapply Z.lt_le_trans; [apply Hn|]. etrans; [|apply (Z.pow_le_mono_l 2); lia]. apply Z.pow_le_mono_r; lia. }
  exists ds. split; [done|]. split; [done|]. unfold number. cbn [width padc conv0]. rewrite Hrun, emit_all_collect.
  replace (Z.to_nat (-1 - Z.of_nat (length ds))) with 0%nat by lia. done.
Qed.

(** The number formats with [l], and the base they print in. *)
Definition long_format (c : Z) : option Z :=
  if c =? 100 then Some 10 else if c =? 117 then Some 10 else if c =? 111 then Some 8 else if c =? 120 then Some 16 else None.

Lemma vprint_S {D} (putch : Z -> ST D unit) (m : mem) fuel k fmt : vprint_loop putch m fuel (S k) fmt =
  (if m fmt =? 37 then f ← escape putch m fuel fuel (fmt + 1) conv0; vprint_loop putch m fuel k f
   else if m fmt =? 0 then mret tt else emit putch (m fmt) ;; vprint_loop putch m fuel k (fmt + 1) : ST (pstate D) unit).
Proof. done. Qed.

Lemma long_format_run (m : mem) fuel fmt c base x : long_format c = Some base -> bytes_at m fmt [37; 108; c; 0] -> (2 < fuel)%nat ->
  exists (neg : bool) num ds, printed base num ds /\ (length ds <= 65)%nat /\ s64 x = (if neg then s64 (- s64 num) else s64 num) /\
    vprintfmt collect m fuel fmt (mkP [x] []) = Done (tt, mkP [] ((if neg then [45] else []) ++ ds)).
Proof.
  intros Hc (H0 & H1 & H2 & H3 & _) Hf. do 3 (destruct fuel as [|fuel]; [lia|]).
  assert (Hrun : forall (pr : ST (pstate (list Z)) unit) out,
          pr (mkP [x] []) = Done (tt, mkP [] out) ->
          escape collect m (S (S (S fuel))) (S (S (S fuel))) (fmt + 1) conv0 (mkP [x] []) = (pr ;; mret (fmt + 1 + 1 + 1)) (mkP [x] []) ->
          vprintfmt collect m (S (S (S fuel))) fmt (mkP [x] []) = Done (tt, mkP [] out)).
  { intros pr out Hpr He. unfold vprintfmt. rewrite vprint_S, H0. rewrite Z.eqb_refl.
    rewrite (bind_Done pr _ _ _ _ Hpr) in He. rewrite (bind_Done _ _ _ _ _ He). by rewrite vprint_S, H3. }
  assert (Hesc : forall e, escape collect m (S (S (S fuel))) (S (S (S fuel))) (fmt + 1) e = escape collect m (S (S (S fuel))) (S (S fuel)) (fmt + 1 + 1)
     (mkConv (padc e) (width e) (precision e) (lflag e + 1) (altflag e))).
  { intros e. cbn [escape]. by rewrite H1. }
  unfold long_format in Hc.
  destruct (Z.eqb_spec c 100) as [->|_]; [injection Hc as <-|].
  - set (n := s64 x). set (num := if n <? 0 then u64 (- n) else n). pose proof (s64_range x) as Hr. fold n in Hr.
    assert (Hnum : num = Z.abs n /\ 0 <= num < 2 ^ 64) by (unfold num; destruct (Z.ltb_spec n 0); [rewrite u64_small by lia; lia|lia]).
    destruct (number_collect 10 num (mkP [] (if n <? 0 then [45] else []))) as (ds & Hp & Hl & Hnr); [lia|apply Hnum|].
    exists (n <? 0), num, ds. split; [done|]. split; [done|]. split.
    { fold n. destruct Hnum as [-> _]. rewrite s64_opp. destruct (Z.ltb_spec n 0).
      - replace (- Z.abs n) with n by lia. symmetry. by apply s64_small.
      - rewrite Z.abs_eq by lia. symmetry. by apply s64_small. }
    apply (Hrun (va_arg ≫= (fun y => print_d collect conv0 (s64 y)))).
    + mstep (eq_refl : va_arg (mkP [x] ([] : list Z)) = Done (x, mkP [] [])). unfold print_d. fold n.
      rewrite (bind_Done _ _ _ num (mkP [] (if n <? 0 then [45] else []))); [|unfold num; by destruct (n <? 0)].
      exact Hnr.
    + rewrite Hesc. cbn [escape]. rewrite H2. done.
  - assert (Hu : forall b, 2 <= b <= 16 -> base = b -> (forall n, escape collect m (S (S (S fuel))) (S (S (S fuel))) (fmt + 1) conv0 (mkP [x] n) =
        ((va_arg ≫= (fun y => number collect conv0 (u64 y) b)) ;; mret (fmt + 1 + 1 + 1)) (mkP [x] n)) ->
        exists (neg : bool) num ds, printed base num ds /\ (length ds <= 65)%nat /\ s64 x = (if neg then s64 (- s64 num) else s64 num) /\
    vprintfmt collect m (S (S (S fuel))) fmt (mkP [x] []) = Done (tt, mkP [] ((if neg then [45] else []) ++ ds))).
    { intros b Hb -> He. destruct (number_collect b (u64 x) (mkP [] [])) as (ds & Hp & Hl & Hnr); [done|apply u64_range|].
      exists false, (u64 x), ds. split; [done|]. split; [done|]. split; [by rewrite s64_u64|].
      apply (Hrun (va_arg ≫= (fun y => number collect conv0 (u64 y) b))); [|exact (He [])].
      mstep (eq_refl : va_arg (mkP [x] ([] : list Z)) = Done (x, mkP [] [])). exact Hnr. }
    destruct (Z.eqb_spec c 117) as [->|_]; [injection Hc as <-; apply (Hu 10); [lia|done|intros n; rewrite Hesc; cbn [escape]; by rewrite H2]|].
    destruct (Z.eqb_spec c 111) as [->|_]; [injection Hc as <-; apply (Hu 8); [lia|done|intros n; rewrite Hesc; cbn [escape]; by rewrite H2]|].
    destruct (Z.eqb_spec c 120) as [->|_]; [injection Hc as <-; apply (Hu 16); [lia|done|intros n; rewrite Hesc; cbn [escape]; by rewrite H2]|done].
Qed.

(** C37 What the conversions d, u, o and x print with the flag l, without width, [strtol] reads back in
    the base of the conversion: the same 64-bit number, signed, up to the end of the text,
    the least negative number and the unsigned ones past the signed range included. *)
Theorem strtol_vprintfmt (m : mem) fuel fmt c base x : long_format c = Some base -> bytes_at m fmt [37; 108; c; 0] -> (2 < fuel)%nat ->
  exists out, vprintfmt collect m fuel fmt (mkP [x] []) = Done (tt, mkP [] out) /\ (length out <= 66)%nat /\
    forall (m2 : mem) s fuel2, bytes_at m2 s (out ++ [0]) -> (67 < fuel2)%nat ->
      strtol fuel2 s base m2 = Done ((s64 x, s + Z.of_nat (length out)), m2).
Proof.
  intros Hc Hm Hf. destruct (long_format_run m fuel fmt c base x Hc Hm Hf) as (neg & num & ds & Hp & Hl & Hx & Hrun).
  exists ((if neg then [45] else []) ++ ds). split; [done|]. split; [rewrite length_app; destruct neg; cbn; lia|].
  intros m2 s fuel2 Hb Hf2. rewrite Hx. apply strtol_run; [|done|lia|by rewrite app_assoc].
  unfold long_format in Hc. repeat case_match; try done; injection Hc as <-; lia.
Qed.

Lemma strtol_vprintfmt_witness : exists out, vprintfmt collect (text_mem (text "%lx")) 3 0 (mkP [48879] []) = Done (tt, mkP [] out) /\
  (length out <= 66)%nat /\ forall (m2 : mem) s fuel2, bytes_at m2 s (out ++ [0]) -> (67 < fuel2)%nat ->
      strtol fuel2 s 16 m2 = Done ((48879, s + Z.of_nat (length out)), m2).
Proof. apply (strtol_vprintfmt (text_mem (text "%lx")) 3 0 120 16 48879); [done|by vm_compute|lia]. Defined.
