(* ===== verification/PrintfmtSpec.v ===== *)
(** * Printing into a buffer, specified

    Two [putch] functions that act alike on related data make [vprintfmt] act alike;
    [vsnprintf] is related that way to the collection of everything printed. *)
From Stdlib Require Import String Ascii.
From S2P Require Import Prelude Libs Mem Strings Printfmt StringsSpec.

(** ** Related runs *)
Section related.
  Context {D1 D2 : Type} (R : D1 -> D2 -> Prop) (putch1 : Z -> ST D1 unit) (putch2 : Z -> ST D2 unit).

Definition alike {X} {S1 S2 : Type} (RS : S1 -> S2 -> Prop) (o1 : outcome (X * S1)) (o2 : outcome (X * S2)) : Prop :=
  match o1, o2 with
  | Done (x1, s1), Done (x2, s2) => x1 = x2 /\ RS s1 s2
  | Panicked, Panicked | NoFuel, NoFuel => True
  | _, _ => False
  end.

  Hypothesis Hputch : forall c d1 d2, R d1 d2 -> alike R (putch1 c d1) (putch2 c d2).

Definition states (s1 : pstate D1) (s2 : pstate D2) : Prop := ap s1 = ap s2 /\ R (dat s1) (dat s2).
Definition rel {X} (m1 : ST (pstate D1) X) (m2 : ST (pstate D2) X) : Prop :=
  forall s1 s2, states s1 s2 -> alike states (m1 s1) (m2 s2).

Lemma rel_ret {X} (x : X) : rel (mret x) (mret x).
Proof. intros s1 s2 Hs. by split. Qed.

Lemma rel_bind {X Y} (m1 : ST (pstate D1) X) m2 (k1 : X -> ST (pstate D1) Y) k2 :
  rel m1 m2 -> (forall x, rel (k1 x) (k2 x)) -> rel (m1 ≫= k1) (m2 ≫= k2).
Proof.
  intros Hm Hk s1 s2 Hs. specialize (Hm s1 s2 Hs). unfold mbind, ST_bind, alike in *.
  destruct (m1 s1) as [[x1 t1]| |], (m2 s2) as [[x2 t2]| |]; try done. destruct Hm as [-> Ht]. by apply Hk.
Qed.

Lemma rel_lift {X} (o : outcome X) : rel (lift o) (lift o).
Proof. intros s1 s2 Hs. unfold lift. by destruct o. Qed.

Lemma rel_emit c : rel (emit putch1 c) (emit putch2 c).
Proof.
  intros s1 s2 [Ha Hd]. specialize (Hputch c _ _ Hd). unfold emit, alike in *.
  destruct (putch1 c (dat s1)) as [[[] d1]| |], (putch2 c (dat s2)) as [[[] d2]| |]; try done. destruct Hputch as [_ Hd']. by split.
Qed.

Lemma rel_va_arg : rel va_arg va_arg.
Proof.
  intros [a1 d1] [a2 d2] [Ha Hd]. cbn in Ha, Hd. subst a2. unfold va_arg. cbn. by destruct a1.
Qed.

Lemma rel_panic {X} : rel (panic : ST _ X) panic. Proof. done. Qed.
Lemma rel_no_fuel {X} : rel (no_fuel : ST _ X) no_fuel. Proof. done. Qed.

(** Follows the structure of both programs at once; [leaf] closes the calls. *)
Ltac rel_auto leaf := repeat lazymatch goal with
  | |- rel (mret _) _ => apply rel_ret
  | |- rel panic _ => apply rel_panic
  | |- rel no_fuel _ => apply rel_no_fuel
  | |- rel va_arg _ => apply rel_va_arg
  | |- rel (lift _) _ => apply rel_lift
  | |- rel (emit _ _) _ => apply rel_emit
  | |- rel (_ ≫= _) _ => apply rel_bind; [|intros]
  | |- rel (let '(_, _) := ?p in _) _ => destruct p
  | |- rel (if ?b then _ else _) _ => destruct b
  | _ => leaf
  end.

Lemma rel_emit_all l : rel (emit_all putch1 l) (emit_all putch2 l).
Proof. induction l as [|c l IH]; cbn [emit_all]; rel_auto ltac:(apply IH). Qed.
Lemma rel_va_int : rel va_int va_int. Proof. unfold va_int. rel_auto fail. Qed.
Lemma rel_getuint n : rel (getuint n) (getuint n). Proof. unfold getuint. rel_auto fail. Qed.
Lemma rel_getint n : rel (getint n) (getint n). Proof. unfold getint. rel_auto fail. Qed.

Lemma rel_printnum k base padc : forall num w, rel (printnum putch1 k num base w padc) (printnum putch2 k num base w padc).
Proof. induction k as [|k IH]; intros num w; cbn [printnum]; rel_auto ltac:(apply IH || apply rel_emit_all). Qed.
Lemma rel_number e num base : rel (number putch1 e num base) (number putch2 e num base).
Proof. apply rel_printnum. Qed.
Lemma rel_print_d e num : rel (print_d putch1 e num) (print_d putch2 e num).
Proof. unfold print_d. rel_auto ltac:(apply rel_number). Qed.
Lemma rel_print_e : rel (print_e putch1) (print_e putch2).
Proof.
  unfold print_e. rel_auto ltac:(apply rel_va_int).
  all: match goal with |- context [match ?o with Some _ => _ | None => _ end] => destruct o end.
  all: rel_auto ltac:(apply rel_emit_all || apply rel_print_d).
Qed.

Lemma rel_string_loop k sm : forall p e, rel (string_loop putch1 k sm p e) (string_loop putch2 k sm p e).
Proof. induction k as [|k IH]; intros p e; cbn [string_loop]; rel_auto ltac:(apply IH). Qed.

Lemma rel_strnlen fuel p n sm : rel
  (fun s => match strnlen fuel p n sm with Done r => Done (r, s) | Panicked => Panicked | NoFuel => NoFuel end)
  (fun s => match strnlen fuel p n sm with Done r => Done (r, s) | Panicked => Panicked | NoFuel => NoFuel end).
Proof. intros s1 s2 Hs. by destruct (strnlen _ _ _ _). Qed.

Lemma rel_print_s m fuel e : rel (print_s putch1 m fuel e) (print_s putch2 m fuel e).
Proof.
  unfold print_s. apply rel_bind; [apply rel_va_arg|]. intros p. destruct (if u64 p =? 0 then _ else _) as [sm q].
  rel_auto ltac:(apply rel_strnlen || apply rel_emit_all || apply rel_string_loop).
Qed.

Lemma rel_escape m fuel k : forall fmt e, rel (escape putch1 m fuel k fmt e) (escape putch2 m fuel k fmt e).
Proof.
  induction k as [|k IH]; intros fmt e; cbn [escape]; [apply rel_no_fuel|].
  rel_auto ltac:(apply IH || apply rel_va_int || apply rel_getint || apply rel_getuint || apply rel_print_d || apply rel_print_e ||
                 apply rel_print_s || apply rel_number).
Qed.

Lemma rel_vprintfmt m fuel fmt : rel (vprintfmt putch1 m fuel fmt) (vprintfmt putch2 m fuel fmt).
Proof.
  unfold vprintfmt. assert (H : forall k fmt, rel (vprint_loop putch1 m fuel k fmt) (vprint_loop putch2 m fuel k fmt)); [|apply H].
  induction k as [|k IH]; intros f; [apply rel_no_fuel|]. rewrite !vprint_S.
  destruct (m f =? 37); [apply rel_bind; [apply rel_escape|intros; apply IH]|]. destruct (m f =? 0); [apply rel_ret|].
  apply rel_bind; [apply rel_emit|intros; apply IH].
Qed.
End related.

(** ** Termination *)
Section ends.
  Context {D : Type} (putch : Z -> ST D unit) (m : mem) (fuel : nat).
  Hypothesis Hputch : forall c d, putch c d <> NoFuel.
  (** Every string ends within [fuel] bytes. *)
  Hypothesis Hfuel : (6 < fuel)%nat.
  Hypothesis Hstrings : forall p, exists n, (n < fuel)%nat /\ m (p + Z.of_nat n) = 0.
  Notation M := (ST (pstate D)).

Definition ends {X} (P : X -> Prop) (c : M X) : Prop :=
  forall s, match c s with Done (x, _) => P x | Panicked => True | NoFuel => False end.
Definition any {X} (x : X) : Prop := True.

Lemma ends_bind {X Y} (P : X -> Prop) (Q : Y -> Prop) (c : M X) k : ends P c -> (forall x, P x -> ends Q (k x)) -> ends Q (c ≫= k).
Proof.
  intros Hc Hk s. specialize (Hc s). unfold mbind, ST_bind. destruct (c s) as [[x s1]| |]; [|done..]. by apply Hk.
Qed.
Lemma ends_ret {X} (P : X -> Prop) (x : X) : P x -> ends P (mret x : M X). Proof. by intros H s. Qed.
Lemma ends_emit c : ends any (emit putch c).
Proof. intros s. unfold emit. pose proof (Hputch c (dat s)). by destruct (putch c (dat s)) as [[[] d]| |]. Qed.
Lemma ends_va_arg : ends any (va_arg : M Z). Proof. intros s. unfold va_arg. by destruct (ap s). Qed.
Lemma ends_panic {X} (P : X -> Prop) : ends P (panic : M X). Proof. by intros s. Qed.

Ltac ends_auto leaf := repeat lazymatch goal with
  | |- ends _ (mret _) => apply ends_ret
  | |- ends _ panic => apply ends_panic
  | |- ends _ (_ ≫= _) => eapply (ends_bind any); [|intros ? _]
  | |- ends any (emit _ _) => apply ends_emit
  | |- ends any va_arg => apply ends_va_arg
  | |- ends _ (if ?b then _ else _) => destruct b
  | |- any _ => exact I
  | _ => leaf
  end.

Lemma ends_emit_all l : ends any (emit_all putch l).
Proof. induction l as [|c l IH]; cbn [emit_all]; ends_auto ltac:(apply IH). Qed.
Lemma ends_va_int : ends (fun x => - 2 ^ 31 <= x < 2 ^ 31) (va_int : M Z).
Proof. unfold va_int. eapply (ends_bind any); [apply ends_va_arg|]. intros x _. apply ends_ret, s32_range. Qed.

Lemma ends_number e num base : 2 <= base <= 16 -> 0 <= num < 2 ^ 64 -> ends any (number putch e num base).
Proof.
  intros Hb Hn s. destruct (printnum_run putch base (padc e) Hb 64 num (width e)) as (ds & _ & _ & Hrun).
  { split; [lia|]. eapply Z.lt_le_trans; [apply Hn|]. etrans; [|apply (Z.pow_le_mono_l 2); lia]. apply Z.pow_le_mono_r; lia. }
  unfold number. rewrite Hrun. apply ends_emit_all.
Qed.

Lemma ends_print_d e num : - 2 ^ 63 <= num < 2 ^ 63 -> ends any (print_d putch e num).
Proof.
  intros Hn. unfold print_d. eapply (ends_bind (fun n => 0 <= n < 2 ^ 64)).
  - destruct (Z.ltb_spec num 0); [|apply ends_ret; lia]. eapply (ends_bind any); [apply ends_emit|]. intros _ _. apply ends_ret, u64_range.
  - intros n Hr. apply ends_number; lia.
Qed.

Lemma ends_getint_range n : ends (fun x => - 2 ^ 63 <= x < 2 ^ 63) (getint n : M Z).
Proof.
  unfold getint. eapply (ends_bind any); [apply ends_va_arg|]. intros x _. apply ends_ret. destruct (negb _); [apply s64_range|].
  pose proof (s32_range x). lia.
Qed.
Lemma ends_getuint_range n : ends (fun x => 0 <= x < 2 ^ 64) (getuint n : M Z).
Proof.
  unfold getuint. eapply (ends_bind any); [apply ends_va_arg|]. intros x _. apply ends_ret. destruct (negb _); [apply u64_range|].
  pose proof (u32_range x). lia.
Qed.

Lemma ends_print_e : ends any (print_e putch).
Proof.
  unfold print_e. eapply ends_bind; [apply ends_va_int|]. intros err Hr. cbv beta in Hr.
  set (e := if err <? 0 then s32 (- err) else err). destruct (Z.ltb_spec e 0); [apply ends_panic|].
  assert (He : e < 2 ^ 31) by (unfold e; pose proof (s32_range (- err)); destruct (err <? 0); lia).
  destruct (if MAXERROR <? e then None else error_string e); [apply ends_emit_all|].
  eapply (ends_bind any); [apply ends_emit_all|]. intros _ _. apply ends_print_d. lia.
Qed.

Lemma ends_string_loop sm : forall k p e, (exists n, (n < k)%nat /\ sm (p + Z.of_nat n) = 0) -> ends any (string_loop putch k sm p e).
Proof.
  induction k as [|k IH]; intros p e (n & Hn & Hz); [lia|]. cbn [string_loop]. destruct (Z.eqb_spec (sm p) 0) as [|Hne]; cbn [orb].
  - by apply ends_ret.
  - destruct (negb _); [by apply ends_ret|]. eapply (ends_bind any); [apply ends_emit|]. intros _ _. apply IH.
    destruct n as [|n]; [by rewrite Z.add_0_r in Hz|]. exists n. split; [lia|]. by replace (p + 1 + Z.of_nat n) with (p + Z.of_nat (S n)) by lia.
Qed.

Lemma strnlen_ends sm len : forall k p c, (exists n, (n < k)%nat /\ sm (p + Z.of_nat n) = 0) -> exists r, strnlen_loop k p c len sm = Done (r, sm).
Proof.
  induction k as [|k IH]; intros p c (n & Hn & Hz); [lia|]. cbn [strnlen_loop]. destruct (c <? len); [|by eexists].
  mstep (eq_refl : peek p sm = Done (sm p, sm)). destruct (Z.eqb_spec (sm p) 0) as [|Hne]; cbn [negb]; [by eexists|].
  apply IH. destruct n as [|n]; [by rewrite Z.add_0_r in Hz|]. exists n. split; [lia|]. by replace (p + 1 + Z.of_nat n) with (p + Z.of_nat (S n)) by lia.
Qed.

Lemma ends_print_s e : ends any (print_s putch m fuel e).
Proof.
  unfold print_s. eapply (ends_bind any); [apply ends_va_arg|]. intros p _.
  assert (Hz : forall sm q, (sm, q) = (if u64 p =? 0 then (text_mem (text "(null)"), 0) else (m, u64 p)) ->
            exists n, (n < fuel)%nat /\ sm (q + Z.of_nat n) = 0).
  { intros sm q. destruct (u64 p =? 0); intros [= -> ->]; [by exists 6%nat|apply Hstrings]. }
  destruct (if u64 p =? 0 then _ else _) as [sm q]. specialize (Hz sm q eq_refl).
  eapply (ends_bind any).
  - destruct (_ && _); [|by apply ends_ret]. eapply (ends_bind any).
    + intros s. unfold strnlen. destruct (strnlen_ends sm (u64 (precision e)) fuel q 0 Hz) as (r & ->). done.
    + intros [n m'] _. eapply (ends_bind any); [apply ends_emit_all|]. intros _ _. by apply ends_ret.
  - intros e' _. eapply (ends_bind any); [by apply ends_string_loop|]. intros w _. apply ends_emit_all.
Qed.

(** The format ends at [E]; a conversion starts behind a percent sign at [start]. *)
Context (E : Z) (HE : m E = 0).

Lemma read_num_ends : forall k f p ch, f <= E < f + Z.of_nat k -> exists r g, read_num m k f p ch = Done (r, g) /\ f <= g <= E.
Proof.
  induction k as [|k IH]; intros f p ch Hf; [lia|]. cbn [read_num].
  destruct (Z.ltb_spec (m f) 48) as [|H1]; cbn [orb]; [do 2 eexists; split; [done|lia]|].
  destruct (Z.ltb_spec 57 (m f)) as [|H2]; [do 2 eexists; split; [done|lia]|].
  assert (f <> E) by (intros ->; lia). destruct (IH (f + 1) (s32 (p * 10 + ch - 48)) (m f)) as (r & g & Hr & Hg); [lia|].
  exists r, g. split; [done|lia].
Qed.

Lemma back_ends start : m (start - 1) = 37 -> forall k f, start <= f < start + Z.of_nat k -> exists g, back m k f = Done g /\ start <= g <= f.
Proof.
  intros Hs. induction k as [|k IH]; intros f Hf; [lia|]. cbn [back]. destruct (Z.eqb_spec (m (f - 1)) 37) as [|Hne]; [exists f; split; [done|lia]|].
  assert (f <> start) by (intros ->; done). destruct (IH (f - 1)) as (g & Hg & Hr); [lia|]. exists g. split; [done|lia].
Qed.

(** The next test of [switch]; a character that is not 0 is before the end. *)
Ltac next_case := match goal with
  | H : m ?f <> 0 -> ?f < E |- ends _ (if ?c =? ?n then _ else _) =>
      destruct (Z.eqb_spec c n); [assert (f < E) by (apply H; lia)|] end.

Lemma escape_ends start : m (start - 1) = 37 -> (Z.to_nat (E - start) < fuel)%nat ->
  forall k f e, start <= f <= E -> E - f < Z.of_nat k -> ends (fun g => start <= g <= E) (escape putch m fuel k f e).
Proof.
  intros Hs Hf. induction k as [|k IH]; intros f e Hr Hk; [lia|]. cbn [escape].
  assert (Hlt : m f <> 0 -> f < E) by (intros Hne; destruct (decide (f = E)) as [->|]; [done|lia]).
  assert (HS : forall e, f < E -> ends (fun g => start <= g <= E) (escape putch m fuel k (f + 1) e)) by (intros; apply IH; lia).
  assert (HR : f < E -> ends (fun g => start <= g <= E) (mret (f + 1))) by (intros; apply ends_ret; lia).
  do 2 (next_case; [by apply HS|]).
  destruct (Z.leb_spec 49 (m f)); cbn [andb]; [destruct (Z.leb_spec (m f) 57)|].
  1: { destruct (read_num_ends fuel (f + 1) 0 (m f)) as (r & g & Hrun & Hg); [assert (f < E) by (apply Hlt; lia); lia|].
       eapply (ends_bind (fun x => x = (r, g))); [intros s; unfold lift; by rewrite Hrun|]. intros x ->. apply IH; lia. }
  all: next_case; [eapply ends_bind; [apply ends_va_int|intros; by apply HS]|].
  all: do 3 (next_case; [by apply HS|]).
  all: next_case; [eapply ends_bind; [apply ends_va_int|intros; eapply (ends_bind any); [apply ends_emit|intros; by apply HR]]|].
  all: next_case; [eapply (ends_bind any); [apply ends_print_e|intros; by apply HR]|].
  all: next_case; [eapply (ends_bind any); [apply ends_print_s|intros; by apply HR]|].
  all: next_case; [eapply ends_bind; [apply ends_getint_range|intros; eapply (ends_bind any); [by apply ends_print_d|intros; by apply HR]]|].
  all: do 2 (next_case; [eapply ends_bind; [apply ends_getuint_range|intros; eapply (ends_bind any); [by apply ends_number|intros; by apply HR]]|]).
  all: next_case; [do 2 (eapply (ends_bind any); [apply ends_emit|intros _ _]); eapply (ends_bind any); [apply ends_va_arg|intros x _];
                   eapply (ends_bind any); [by apply ends_number; [|apply u64_range]|intros; by apply HR]|].
  all: next_case; [eapply ends_bind; [apply ends_getuint_range|intros; eapply (ends_bind any); [by apply ends_number|intros; by apply HR]]|].
  all: next_case; [eapply (ends_bind any); [apply ends_emit|intros; by apply HR]|].
  all: eapply (ends_bind any); [apply ends_emit|intros _ _].
  all: replace (f + 1 - 1) with f by lia; destruct (back_ends start Hs fuel f) as (g & Hrun & Hg); [lia|].
  all: intros s; unfold lift; rewrite Hrun; lia.
Qed.

Lemma vprintfmt_ends fmt : fmt <= E < fmt + Z.of_nat fuel -> ends any (vprintfmt putch m fuel fmt).
Proof.
  intros Hf. unfold vprintfmt.
  assert (H : forall k f, fmt <= f <= E -> E - f < Z.of_nat k -> ends any (vprint_loop putch m fuel k f)); [|apply H; lia].
  induction k as [|k IH]; intros f Hr Hk; [lia|]. rewrite vprint_S.
  assert (Hlt : m f <> 0 -> f < E) by (intros Hne; destruct (decide (f = E)) as [->|]; [done|lia]).
  destruct (Z.eqb_spec (m f) 37).
  - assert (f < E) by (apply Hlt; lia). eapply ends_bind.
    + apply (escape_ends (f + 1)); [by replace (f + 1 - 1) with f by lia|lia|lia|lia].
    + intros g Hg. cbv beta in Hg. apply IH; lia.
  - destruct (Z.eqb_spec (m f) 0); [by apply ends_ret|]. assert (f < E) by by apply Hlt.
    eapply (ends_bind any); [apply ends_emit|]. intros _ _. apply IH; lia.
Qed.
End ends.

(** ** The buffer holds a prefix of what is printed *)
Section buffer.
  Context (m0 : mem) (str size : Z).

Definition room (out : list Z) : Z := Z.min (Z.of_nat (length out)) (size - 1).

Record holds (out : list Z) (d : mem * sprintbuf) : Prop := mkHolds {
  ho_buf : buf (snd d) = str + room out;
  ho_ebuf : ebuf (snd d) = str + size - 1;
  ho_cnt : cnt (snd d) = s32 (Z.of_nat (length out));
  ho_text i c : out !! i = Some c -> Z.of_nat i < size - 1 -> fst d (str + Z.of_nat i) = c mod 256;
  ho_rest a : a < str \/ str + room out <= a -> fst d a = m0 a }.

Lemma s32_add x y : s32 (s32 x + y) = s32 (x + y).
Proof.
  unfold s32. f_equal. replace ((x + 2 ^ 31) mod 2 ^ 32 - 2 ^ 31 + y + 2 ^ 31) with ((x + 2 ^ 31) mod 2 ^ 32 + y) by ring.
  rewrite Zplus_mod_idemp_l. f_equal. ring.
Qed.

Lemma holds_put c out d : holds out d -> alike holds (collect c out) (sprintputch c d).
Proof.
  destruct d as [m b]. intros [Hb He Hc Ht Hr]. cbn in Hb, He, Hc, Ht, Hr. cbn. rewrite Hb, He.
  assert (Hlen : Z.of_nat (length (out ++ [c])) = Z.of_nat (length out) + 1) by (rewrite length_app; cbn; lia).
  assert (Hcnt : s32 (cnt b + 1) = s32 (Z.of_nat (length (out ++ [c])))) by (rewrite Hc, s32_add; f_equal; lia).
  assert (Ht' : forall i x, (out ++ [c]) !! i = Some x -> i = length out /\ x = c \/ (i < length out)%nat /\ out !! i = Some x).
  { intros i x Hi. destruct (decide (i < length out)%nat) as [Hlt|Hge]; [right; by rewrite lookup_app_l in Hi|].
    rewrite lookup_app_r in Hi by lia. apply list_lookup_singleton_Some in Hi as [? <-]. left. split; [lia|done]. }
  split; [done|]. unfold room in *. destruct (Z.ltb_spec (str + Z.min (Z.of_nat (length out)) (size - 1)) (str + size - 1)).
  - split; cbn [fst snd buf ebuf cnt]; unfold room; rewrite ?Hlen; try lia.
    + rewrite <- Hlen. exact Hcnt.
    + intros i x Hi His. destruct (Ht' i x Hi) as [[-> ->]|[Hlt Hi']].
      * rewrite Z.min_l by lia. apply upd_eq.
      * rewrite upd_ne by lia. by apply Ht.
    + intros a Ha. rewrite upd_ne by lia. apply Hr. lia.
  - split; cbn [fst snd buf ebuf cnt]; unfold room; rewrite ?Hlen; try lia.
    + rewrite <- Hlen. exact Hcnt.
    + intros i x Hi His. destruct (Ht' i x Hi) as [[-> ->]|[Hlt Hi']]; [lia|]. by apply Ht.
    + intros a Ha. apply Hr. lia.
Qed.
End buffer.

Lemma vsnprintf_run (m : mem) fuel str size fmt args : str <> 0 -> 1 <= size ->
  match vprintfmt collect m fuel fmt (mkP args []) with
  | Done (_, s) =>
      let out := dat s in let k := Z.min (Z.of_nat (length out)) (size - 1) in
      exists m', vsnprintf fuel str size fmt args m = Done (s32 (Z.of_nat (length out)), m') /\
        (forall i c, out !! i = Some c -> Z.of_nat i < k -> m' (str + Z.of_nat i) = c mod 256) /\
        m' (str + k) = 0 /\ forall a, a < str \/ str + k < a -> m' a = m a
  | Panicked => vsnprintf fuel str size fmt args m = Panicked
  | NoFuel => vsnprintf fuel str size fmt args m = NoFuel
  end.
Proof.
  intros Hstr Hsize. unfold vsnprintf. cbn [buf ebuf]. rewrite (proj2 (Z.eqb_neq _ _)) by done.
  rewrite (proj2 (Z.ltb_ge _ _)) by lia. cbn [orb].
  pose proof (rel_vprintfmt (holds m str size) collect sprintputch (holds_put m str size) m fuel fmt
                (mkP args []) (mkP args (m, mkBuf str (str + size - 1) 0))) as Hrel.
  assert (H0 : holds m str size [] (m, mkBuf str (str + size - 1) 0)).
  { split; cbn; unfold room; cbn; try lia; [by rewrite s32_small by lia|done]. }
  specialize (Hrel (conj eq_refl H0)). cbn [dat] in Hrel.
  destruct (vprintfmt collect m fuel fmt _) as [[x1 s1]| |], (vprintfmt sprintputch m fuel fmt _) as [[x2 s2]| |]; try done.
  destruct Hrel as [_ [_ Hh]]. destruct (dat s2) as [m' b]. destruct Hh as [Hb He Hc Ht Hr]. cbn in Hb, He, Hc, Ht, Hr.
  cbn zeta. set (out := dat s1) in *. set (k := Z.min (Z.of_nat (length out)) (size - 1)). unfold room in *. fold k in Hb, Hr.
  rewrite Hc, Hb. eexists. split; [done|]. split; [|split].
  - intros i c Hi Hik. rewrite upd_ne by lia. apply Ht; [done|]. unfold k in Hik. lia.
  - apply upd_eq.
  - intros a Ha. rewrite upd_ne by lia. apply Hr. lia.
Qed.

(** C38 When the format and the strings end within the fuel, formatting ends.  [vsnprintf] puts
    into the buffer what the format prints, cut off so that the terminating 0 fits,
    writes nothing outside the part of the buffer it fills, and returns the length of
    the whole text; only a missing argument or the error code -2^31 leads it astray. *)
Theorem vsnprintf_truncates (m : mem) fuel str size fmt args len : str <> 0 -> 1 <= size ->
  m (fmt + Z.of_nat len) = 0 -> (len < fuel)%nat -> (6 < fuel)%nat ->
  (forall p, exists n, (n < fuel)%nat /\ m (p + Z.of_nat n) = 0) ->
  match vprintfmt collect m fuel fmt (mkP args []) with
  | Done (_, s) =>
      let out := dat s in let k := Z.min (Z.of_nat (length out)) (size - 1) in
      exists m', vsnprintf fuel str size fmt args m = Done (s32 (Z.of_nat (length out)), m') /\
        (forall i c, out !! i = Some c -> Z.of_nat i < k -> m' (str + Z.of_nat i) = c mod 256) /\
        m' (str + k) = 0 /\ forall a, a < str \/ str + k < a -> m' a = m a
  | Panicked => vsnprintf fuel str size fmt args m = Panicked
  | NoFuel => False
  end.
Proof.
  intros Hstr Hsize HE Hlen Hf Hs. pose proof (vsnprintf_run m fuel str size fmt args Hstr Hsize) as Hrun.
  pose proof (vprintfmt_ends collect m fuel ltac:(done) Hf Hs (fmt + Z.of_nat len) HE fmt ltac:(lia) (mkP args [])) as Hend.
  by destruct (vprintfmt collect m fuel fmt _) as [[x s]| |].
Qed.

(** "pid %3d" of 42 into five bytes: "pid ", and 7 is returned. *)
Definition pid_mem : mem := text_mem (text "pid %3d").
Lemma pid_mem_ends : forall p, exists n, (n < 20)%nat /\ pid_mem (p + Z.of_nat n) = 0.
Proof.
  intros p. exists (if decide (0 <= p <= 7) then Z.to_nat (7 - p) else 0%nat). split; [case_decide; lia|].
  unfold pid_mem, text_mem. case_decide; [rewrite Z2Nat.id, Zplus_minus by lia; by vm_compute|].
  rewrite Z.add_0_r. destruct (Z.leb_spec 0 p); [|done]. apply nth_overflow. cbn. lia.
Qed.
Lemma vsnprintf_truncates_witness : exists m', vsnprintf 20 100 5 0 [42] pid_mem = Done (7, m') /\
  m' 100 = 112 /\ m' 103 = 32 /\ m' 104 = 0 /\ m' 105 = 0.
Proof.
  pose proof (vsnprintf_truncates pid_mem 20 100 5 0 [42] 7 ltac:(done) ltac:(done) ltac:(by vm_compute) ltac:(lia) ltac:(lia) pid_mem_ends) as H.
  assert (Hp : vprintfmt collect pid_mem 20 0 (mkP [42] []) = Done (tt, mkP [] [112; 105; 100; 32; 32; 52; 50])) by by vm_compute.
  rewrite Hp in H. cbn [dat] in H. destruct H as (m' & Hrun & Ht & Hz & Hr). exists m'. split; [exact Hrun|].
  split; [exact (Ht 0%nat 112 ltac:(done) ltac:(done))|]. split; [exact (Ht 3%nat 32 ltac:(done) ltac:(done))|].
  split; [exact Hz|]. rewrite Hr by (right; done). done.
Defined.

(** Padding a number to the right pads it on the left, with dashes; the sign is not
    counted in the width. *)
Definition printed_text (f : String.string) (args : list Z) : option (list Z) :=
  match vprintfmt collect (text_mem (text f)) 40 0 (mkP args []) with Done (_, s) => Some (dat s) | _ => None end.
Example dashes : printed_text "%-5d" [42] = Some (text "---42"). Proof. by vm_compute. Qed.
Example sign_beside_width : printed_text "%05d" [2 ^ 32 - 42] = Some (text "-00042"). Proof. by vm_compute. Qed.
Example unknown_format : printed_text "%3q%%" [] = Some (text "%3q%"). Proof. by vm_compute. Qed.
Example error_text : printed_text "%e|%e" [2 ^ 32 - 4; 11] = Some (text "out of memory|error 11"). Proof. by vm_compute. Qed.
