(* ===== verification/DefaultPmm.v ===== *)
(** * The first-fit physical page allocator (kern/mm/default_pmm.c)

    State, operations and the refinement to an abstract first-fit allocator on
    lists of free blocks. *)
From S2P Require Import Prelude Libs CList.

(** The entries of the free list: [&free_list] and [&pages[p].page_link]. *)
Inductive lnode := Head | Link (p : Z).
#[export] Instance lnode_eq_dec : EqDecision lnode.
Proof. solve_decision. Defined.
Definition le2page (le : lnode) : Z := match le with Head => -1 | Link p => p end.

(** The fields of [struct Page] the allocators use; [page_link] lives in [lnk]. *)
Record Page := mkPage { page_ref : Z; flags : Z; property : Z }.
Definition PG_reserved : Z := 0.
Definition PG_property : Z := 1.
Definition PageReserved (p : Page) : bool := test_bit PG_reserved (flags p).
Definition PageProperty (p : Page) : bool := test_bit PG_property (flags p).
Definition SetPageProperty (p : Page) : Page :=
  mkPage (page_ref p) (set_bit PG_property (flags p)) (property p).
Definition ClearPageProperty (p : Page) : Page :=
  mkPage (page_ref p) (clear_bit PG_property (flags p)) (property p).
Arguments PageReserved : simpl never.
Arguments PageProperty : simpl never.
Definition set_property (k : Z) (p : Page) : Page := mkPage (page_ref p) (flags p) k.

(** [free_area] and the page descriptors; a page pointer is its index. *)
Record pmm := mkPmm { pages : Z -> Page; lnk : links lnode; nr_free : Z }.

Definition on_page (p : Z) (f : Page -> Page) : ST pmm unit :=
  modify (fun st => mkPmm (upd (pages st) p (f (pages st p))) (lnk st) (nr_free st)).
Definition on_list (f : links lnode -> links lnode) : ST pmm unit :=
  modify (fun st => mkPmm (pages st) (f (lnk st)) (nr_free st)).
Definition set_nr_free (f : Z -> Z) : ST pmm unit :=
  modify (fun st => mkPmm (pages st) (lnk st) (u32 (f (nr_free st)))).
Definition page_at (p : Z) : ST pmm Page := get (fun st => pages st p).
Definition le_next (le : lnode) : ST pmm lnode := get (fun st => list_next (lnk st) le).
Definition le_prev (le : lnode) : ST pmm lnode := get (fun st => list_prev (lnk st) le).

Definition default_init : ST pmm unit :=
  on_list (fun s => list_init s Head) ;; set_nr_free (fun _ => 0).

(** The loop over [base .. base + n) of [default_init_memmap]. *)
Fixpoint reserve_pages (k : nat) (p : Z) : ST pmm unit :=
  match k with
  | O => mret tt
  | S k' =>
      pg ← page_at p;
      assert (PageReserved pg) ;;
      on_page p (fun _ => mkPage 0 0 0) ;;
      reserve_pages k' (p + 1)
  end.

(** [while ((le = list_next(le)) != &free_list)]: find the place of [base]. *)
Fixpoint link_loop (fuel : nat) (le : lnode) (base : Z) : ST pmm unit :=
  match fuel with
  | O => no_fuel
  | S fuel' =>
      le ← le_next le;
      if bool_decide (le = Head) then mret tt
      else if base <? le2page le then
        on_list (fun s => list_add_before s le (Link base))
      else
        n ← le_next le;
        (if bool_decide (n = Head) then on_list (fun s => list_add s le (Link base))
         else mret tt) ;;
        link_loop fuel' le base
  end.

Definition link_block (fuel : nat) (base : Z) : ST pmm unit :=
  e ← get (fun st => list_empty (lnk st) Head);
  if (e : bool) then on_list (fun s => list_add s Head (Link base))
  else link_loop fuel Head base.

Definition default_init_memmap (fuel : nat) (base n : Z) : ST pmm unit :=
  assert (0 <? n) ;;
  reserve_pages (Z.to_nat n) base ;;
  on_page base (set_property (u32 n)) ;;
  on_page base SetPageProperty ;;
  set_nr_free (fun nf => nf + n) ;;
  link_block fuel base.

Fixpoint first_fit_search (fuel : nat) (le : lnode) (n : Z) : ST pmm (option Z) :=
  match fuel with
  | O => no_fuel
  | S fuel' =>
      le ← le_next le;
      if bool_decide (le = Head) then mret None
      else
        p ← page_at (le2page le);
        if n <=? property p then mret (Some (le2page le))
        else first_fit_search fuel' le n
  end.

(** The part of an allocation after the block was chosen. *)
Definition take_block (page n : Z) : ST pmm unit :=
  prev ← le_prev (Link page);
  on_list (fun s => list_del s (Link page)) ;;
  pg ← page_at page;
  (if n <? property pg then
     let p := page + n in
     on_page p (set_property (u32 (property pg - n))) ;;
     on_page p SetPageProperty ;;
     on_list (fun s => list_add s prev (Link p))
   else mret tt) ;;
  set_nr_free (fun nf => nf - n) ;;
  on_page page ClearPageProperty.

Definition default_alloc_pages (fuel : nat) (n : Z) : ST pmm (option Z) :=
  assert (0 <? n) ;;
  nf ← get nr_free;
  if nf <? n then mret None
  else
    page ← first_fit_search fuel Head n;
    match page with
    | None => mret None
    | Some page => take_block page n ;; mret (Some page)
    end.

(** The loop over [base .. base + n) of [default_free_pages]. *)
Fixpoint release_pages (k : nat) (p : Z) : ST pmm unit :=
  match k with
  | O => mret tt
  | S k' =>
      pg ← page_at p;
      assert (negb (PageReserved pg) && negb (PageProperty pg)) ;;
      on_page p (fun pg => mkPage 0 0 (property pg)) ;;
      release_pages k' (p + 1)
  end.

(** [p->property += q->property; ClearPageProperty(q); list_del(q)] *)
Definition absorb (p q : Z) : ST pmm unit :=
  pq ← page_at q;
  on_page p (fun pg => set_property (u32 (property pg + property pq)) pg) ;;
  on_page q ClearPageProperty ;;
  on_list (fun s => list_del s (Link q)).

Definition merge_prev (base : Z) : ST pmm Z :=
  le ← le_prev (Link base);
  if bool_decide (le = Head) then mret base
  else
    let p := le2page le in
    pg ← page_at p;
    if p + property pg =? base then absorb p base ;; mret p else mret base.

Definition merge_next (base : Z) : ST pmm unit :=
  le ← le_next (Link base);
  if bool_decide (le = Head) then mret tt
  else
    let p := le2page le in
    pg ← page_at base;
    if base + property pg =? p then absorb base p else mret tt.

Definition default_free_pages (fuel : nat) (base n : Z) : ST pmm unit :=
  assert (0 <? n) ;;
  release_pages (Z.to_nat n) base ;;
  on_page base (set_property (u32 n)) ;;
  on_page base SetPageProperty ;;
  set_nr_free (fun nf => nf + n) ;;
  link_block fuel base ;;
  base ← merge_prev base;
  merge_next base.

Definition default_nr_free_pages : ST pmm Z := get nr_free.

#[export] Hint Unfold on_page on_list set_nr_free page_at le_next le_prev : ucore_run.

(** ** The abstract allocator: address-ordered lists of free blocks *)
Abbreviation block := (Z * Z)%type (only parsing).

Definition split_block (s k n : Z) : list block :=
  if n <? k then [(s + n, k - n)] else [].

Fixpoint abs_alloc (n : Z) (xs : list block) : option (Z * list block) :=
  match xs with
  | [] => None
  | (s, k) :: r =>
      if n <=? k then Some (s, split_block s k n ++ r)
      else match abs_alloc n r with
           | Some (p, r') => Some (p, (s, k) :: r')
           | None => None
           end
  end.

(** Insert a block and coalesce it with the block before and after it. *)
Definition abs_merge_next (b : block) (post : list block) : list block :=
  match post with
  | (s, k) :: r => if b.1 + b.2 =? s then (b.1, b.2 + k) :: r else b :: post
  | [] => [b]
  end.

Fixpoint abs_free (base n : Z) (xs : list block) : list block :=
  match xs with
  | [] => [(base, n)]
  | (s, k) :: r =>
      if base <? s then abs_merge_next (base, n) xs
      else if s + k =? base then abs_merge_next (s, k + n) r
      else (s, k) :: abs_free base n r
  end.

Definition links_of (xs : list block) : list lnode := map (fun b => Link b.1) xs.

Fixpoint blocks_from (lo : Z) (xs : list block) : Prop :=
  match xs with
  | [] => True
  | (s, k) :: r => lo <= s /\ 0 < k /\ blocks_from (s + k) r
  end.

Definition block_ok (pg : Z -> Page) (b : block) : Prop :=
  property (pg b.1) = b.2 /\ flags (pg b.1) = 2 /\
  (forall i, b.1 < i < b.1 + b.2 -> flags (pg i) = 0) /\
  (forall i, b.1 <= i < b.1 + b.2 -> page_ref (pg i) = 0).

Definition free_total (xs : list block) : Z := sum_Z (map snd xs).

(** [wf st xs]: the free list of [st] holds exactly the blocks [xs], in
    address order and disjoint, each described by its head page. *)
Record wf (st : pmm) (xs : list block) : Prop := mkWf {
  wf_list : is_dlist (lnk st) Head (links_of xs);
  wf_sorted : blocks_from 0 xs;
  wf_block : forall b, b ∈ xs -> block_ok (pages st) b;
  wf_free : nr_free st = free_total xs;
  wf_bound : free_total xs < 2 ^ 32 }.

Arguments links_of : simpl never.
Arguments free_total : simpl never.

Definition covers (xs : list block) (i : Z) : Prop :=
  exists s k, (s, k) ∈ xs /\ s <= i < s + k.

(** ** Facts about block lists *)
Lemma free_total_app xs ys : free_total (xs ++ ys) = free_total xs + free_total ys.
Proof. unfold free_total. by rewrite map_app, sum_Z_app. Qed.

Lemma free_total_cons b xs : free_total (b :: xs) = b.2 + free_total xs.
Proof. done. Qed.

Lemma links_of_cons s k xs : links_of ((s, k) :: xs) = Link s :: links_of xs.
Proof. done. Qed.

Lemma links_of_app xs ys : links_of (xs ++ ys) = links_of xs ++ links_of ys.
Proof. apply map_app. Qed.

Lemma links_of_snoc h xs s k : lastd h (links_of (xs ++ [(s, k)])) = Link s.
Proof. rewrite links_of_app. apply (lastd_snoc _ _ (Link s)). Qed.

Lemma blocks_from_weaken lo lo' xs : lo' <= lo -> blocks_from lo xs -> blocks_from lo' xs.
Proof. destruct xs as [|[s k] xs]; cbn; [done|]. intros ? (? & ? & ?). split_and!; [lia|done..]. Qed.

Lemma blocks_from_elem lo xs s k :
  blocks_from lo xs -> (s, k) ∈ xs -> lo <= s /\ 0 < k.
Proof.
  revert lo; induction xs as [|[s' k'] xs IH]; intros lo; cbn.
  - by intros _ ?%elem_of_nil.
  - intros (? & ? & Hr) [[= -> ->]|Hin]%elem_of_cons; [done|].
    destruct (IH _ Hr Hin). lia.
Qed.

Lemma block_le_total lo xs s k : blocks_from lo xs -> (s, k) ∈ xs -> k <= free_total xs.
Proof.
  intros Hs Hin. apply sum_Z_elem_le.
  - apply Forall_forall. intros z Hz. apply list_elem_of_fmap in Hz as ([s' k'] & -> & Hin').
    destruct (blocks_from_elem _ _ _ _ Hs Hin'). cbn. lia.
  - apply list_elem_of_fmap. by exists (s, k).
Qed.

Lemma free_total_nonneg lo xs : blocks_from lo xs -> 0 <= free_total xs.
Proof.
  revert lo; induction xs as [|[s k] xs IH]; intros lo; cbn; [done|].
  intros (? & ? & Hr%IH). rewrite free_total_cons. cbn. lia.
Qed.

(** Splitting a sorted list: the left part ends before the right part starts. *)
Lemma blocks_from_app lo xs s k ys :
  blocks_from lo (xs ++ (s, k) :: ys) <->
  blocks_from lo xs /\ (forall s' k', (s', k') ∈ xs -> s' + k' <= s) /\ lo <= s /\
  0 < k /\ blocks_from (s + k) ys.
Proof.
  revert lo; induction xs as [|[s0 k0] xs IH]; intros lo; cbn.
  - split; [intros (?&?&?); split_and!; try done|naive_solver].
    by intros s' k' ?%elem_of_nil.
  - rewrite IH. split.
    + intros (? & ? & ? & Hall & ? & ? & ?). split_and!; try done; [|lia].
      intros s' k' [[= -> ->]|Hin]%elem_of_cons; [lia|by eapply Hall].
    + intros ((? & ? & ?) & Hall & ? & ? & ?).
      pose proof (Hall s0 k0 ltac:(left)). split_and!; try done.
      intros s' k' Hin. apply Hall. by right.
Qed.

Lemma abs_alloc_Some n xs p xs' :
  abs_alloc n xs = Some (p, xs') ->
  exists pre k post, xs = pre ++ (p, k) :: post /\ n <= k /\
    (forall b, b ∈ pre -> b.2 < n) /\ xs' = pre ++ split_block p k n ++ post.
Proof.
  revert xs'; induction xs as [|[s k] xs IH]; intros xs'; cbn; [done|].
  destruct (Z.leb_spec n k).
  - intros [= -> <-]. exists [], k, xs. split_and!; [done..|by intros b ?%elem_of_nil|done].
  - destruct (abs_alloc n xs) as [[p' r']|]; [|done]. intros [= -> <-].
    destruct (IH _ eq_refl) as (pre & k' & post & -> & ? & Hpre & ->).
    exists ((s, k) :: pre), k', post. split_and!; try done.
    intros b [->|?]%elem_of_cons; [done|by apply Hpre].
Qed.

Lemma abs_alloc_None n xs : abs_alloc n xs = None -> forall b, b ∈ xs -> b.2 < n.
Proof.
  induction xs as [|[s k] xs IH]; cbn; [by intros _ b ?%elem_of_nil|].
  destruct (Z.leb_spec n k); [done|].
  destruct (abs_alloc n xs) as [[p' r']|]; [done|].
  intros _ b [->|?]%elem_of_cons; [done|by apply IH].
Qed.

Lemma free_total_split pre s k n post :
  n <= k ->
  free_total (pre ++ split_block s k n ++ post)
  = free_total (pre ++ (s, k) :: post) - n.
Proof.
  intros. rewrite !free_total_app, free_total_cons. unfold split_block, free_total.
  destruct (Z.ltb_spec n k); cbn; lia.
Qed.

Lemma abs_alloc_total_le n xs lo :
  blocks_from lo xs -> if abs_alloc n xs then n <= free_total xs else True.
Proof.
  intros Hs. destruct (abs_alloc n xs) as [[p xs']|] eqn:Ha; [|done].
  apply abs_alloc_Some in Ha as (pre & k & post & -> & Hk & _ & ->).
  apply blocks_from_app in Hs as (H1%free_total_nonneg & _ & _ & _ & H2%free_total_nonneg).
  rewrite free_total_app, free_total_cons. cbn. lia.
Qed.

(** ** Searching the free list *)
Lemma first_fit_search_spec st n rest :
  forall seen fuel,
  is_dlist (lnk st) Head (links_of (seen ++ rest)) ->
  (forall b, b ∈ rest -> property (pages st b.1) = b.2) ->
  (length rest < fuel)%nat ->
  first_fit_search fuel (lastd Head (links_of seen)) n st
  = Done (fst <$> abs_alloc n rest, st).
Proof.
  induction rest as [|[s k] rest IH]; intros seen [|fuel] Hl Hp Hf; cbn in Hf; try lia.
  - rewrite app_nil_r in Hl. cbn [first_fit_search]. mrun.
    pose proof (is_dlist_gap _ _ (links_of seen) [] ltac:(by rewrite app_nil_r)) as [Hn _].
    cbn in Hn. by rewrite Hn.
  - cbn [first_fit_search]. mrun.
    pose proof Hl as Hg. rewrite links_of_app, links_of_cons in Hg.
    apply is_dlist_gap in Hg as [-> _]. cbn.
    rewrite bool_decide_eq_false_2 by done. cbn.
    pose proof (Hp (s, k) ltac:(left)) as Hk. cbn in Hk. rewrite Hk. destruct (Z.leb_spec n k); [done|].
    specialize (IH (seen ++ [(s, k)]) fuel).
    rewrite links_of_snoc in IH. rewrite IH.
    + by destruct (abs_alloc n rest) as [[? ?]|].
    + by rewrite <- app_assoc.
    + intros b Hb. apply Hp. by right.
    + lia.
Qed.

(** ** Taking a block *)
Lemma links_of_elem s xs : Link s ∈ links_of xs <-> exists k, (s, k) ∈ xs.
Proof.
  unfold links_of. rewrite list_elem_of_In, in_map_iff. split.
  - intros ([s' k] & [= ->] & ?%list_elem_of_In). eauto.
  - intros [k ?%list_elem_of_In]. by exists (s, k).
Qed.

Lemma Head_links_of xs : Head ∉ links_of xs.
Proof. unfold links_of. rewrite list_elem_of_In, in_map_iff. by intros (? & ? & ?). Qed.

Lemma wf_disjoint st pre s k post s' k' :
  wf st (pre ++ (s, k) :: post) -> (s', k') ∈ pre ++ post ->
  s' + k' <= s \/ s + k <= s'.
Proof.
  intros Hwf. pose proof (wf_sorted _ _ Hwf) as Hs.
  apply blocks_from_app in Hs as (_ & Hpre & _ & _ & Hpost).
  intros [H|H]%elem_of_app; [left; by eapply Hpre|right].
  by destruct (blocks_from_elem _ _ _ _ Hpost H).
Qed.

Definition same_pages_except (st st' : pmm) (P : Z -> Prop) : Prop :=
  forall i, ~ P i -> pages st' i = pages st i.

Lemma set_property_bit_flags p :
  flags p = 0 -> flags (SetPageProperty p) = 2.
Proof. by intros H; cbn; rewrite H. Qed.

Lemma clear_property_bit_flags p :
  flags p = 2 -> flags (ClearPageProperty p) = 0.
Proof. by intros H; cbn; rewrite H. Qed.

Lemma block_ok_ext pg pg' b :
  (forall i, b.1 <= i < b.1 + b.2 -> pg' i = pg i) -> 0 < b.2 ->
  block_ok pg b -> block_ok pg' b.
Proof.
  intros He Hk (Hp & Hf & Hin & Hr). unfold block_ok.
  rewrite He by lia. split_and!; [done|done|..]; intros i Hi; rewrite He by lia; auto with lia.
Qed.

Lemma wf_block_at st xs s k : wf st xs -> (s, k) ∈ xs -> block_ok (pages st) (s, k).
Proof. intros Hwf Hin. by apply (wf_block _ _ Hwf). Qed.

Lemma wf_size_bound st xs s k : wf st xs -> (s, k) ∈ xs -> 0 < k < 2 ^ 32.
Proof.
  intros Hwf Hin. pose proof (wf_sorted _ _ Hwf) as Hs. pose proof (wf_bound _ _ Hwf) as Hb.
  destruct (blocks_from_elem _ _ _ _ Hs Hin). split; [done|].
  pose proof (block_le_total _ _ _ _ Hs Hin). lia.
Qed.

(** Blocks that are neither the taken one nor touched by its changes. *)
Lemma wf_others st pg' pre s k post :
  wf st (pre ++ (s, k) :: post) ->
  (forall i, ~ (s <= i < s + k) -> pg' i = pages st i) ->
  forall b, b ∈ pre ++ post -> block_ok pg' b.
Proof.
  intros Hwf He [s' k'] Hin.
  assert ((s', k') ∈ pre ++ (s, k) :: post) as Hin' by set_solver.
  destruct (wf_disjoint _ _ _ _ _ _ _ Hwf Hin);
    pose proof (wf_size_bound _ _ _ _ Hwf Hin');
    (eapply block_ok_ext; [| |by apply (wf_block_at _ _ _ _ Hwf Hin')]);
    cbn; try lia; intros i Hi; apply He; lia.
Qed.

Lemma wf_link_fresh st pre s k post i :
  wf st (pre ++ (s, k) :: post) -> s < i < s + k ->
  Link i ∉ Head :: links_of pre ++ links_of post.
Proof.
  intros Hwf Hi. rewrite <- links_of_app.
  intros [?|[k' Hin]%links_of_elem]%elem_of_cons; [done|].
  assert ((i, k') ∈ pre ++ (s, k) :: post) as Hin' by set_solver.
  pose proof (wf_size_bound _ _ _ _ Hwf Hin').
  destruct (wf_disjoint _ _ _ _ _ _ _ Hwf Hin); lia.
Qed.

Lemma split_block_sorted st pre s k post n :
  wf st (pre ++ (s, k) :: post) -> 0 < n <= k ->
  blocks_from 0 (pre ++ split_block s k n ++ post).
Proof.
  intros Hwf Hn. pose proof (wf_sorted _ _ Hwf) as Hs.
  apply blocks_from_app in Hs as (Hpre & Hle & H0 & Hk & Hpost).
  unfold split_block. destruct (Z.ltb_spec n k); cbn.
  - apply blocks_from_app. split_and!; [done| |lia|lia|].
    + intros s' k' Hin. specialize (Hle _ _ Hin). lia.
    + by replace (s + n + (k - n)) with (s + k) by lia.
  - destruct post as [|[s' k'] post]; [by rewrite app_nil_r|].
    apply blocks_from_app. cbn in Hpost. destruct Hpost as (? & ? & ?).
    split_and!; [done| |lia|done|done]. intros s0 k0 Hin. specialize (Hle _ _ Hin). lia.
Qed.

Lemma take_block_spec st pre s k post n :
  wf st (pre ++ (s, k) :: post) -> 0 < n <= k ->
  exists st', take_block s n st = Done (tt, st') /\
    wf st' (pre ++ split_block s k n ++ post) /\
    (forall i, s <= i < s + n -> flags (pages st' i) = 0 /\ page_ref (pages st' i) = 0) /\
    same_pages_except st st' (fun i => i = s \/ (i = s + n /\ n < k)).
Proof.
  intros Hwf Hn. assert ((s, k) ∈ pre ++ (s, k) :: post) as Hin by set_solver.
  destruct (wf_block_at _ _ _ _ Hwf Hin) as (Hp & Hf & Hflags & Href). cbn in Hp, Hf, Hflags, Href.
  pose proof (wf_size_bound _ _ _ _ Hwf Hin) as Hk.
  pose proof (wf_list _ _ Hwf) as Hl. rewrite links_of_app in Hl.
  pose proof (is_dlist_prv _ _ _ _ _ Hl) as Hprev. cbn in Hprev.
  apply list_del_dlist in Hl as Hdel.
  pose proof (split_block_sorted _ _ _ _ _ _ Hwf Hn) as Hsort.
  pose proof (wf_free _ _ Hwf) as Hfree. pose proof (wf_bound _ _ Hwf) as Hbound.
  pose proof (free_total_split pre s k n post ltac:(lia)) as Htot.
  pose proof (free_total_nonneg _ _ Hsort) as Hnn.
  unfold take_block. mrun. rewrite Hp, Hprev.
  unfold split_block in *. destruct (Z.ltb_spec n k) as [Hlt|Hge]; mrun; cbn in Htot, Hnn; eexists; (split; [done|]).
  - split_and!; cbn.
    + split; cbn.
      * rewrite !links_of_app. apply list_add_after_dlist; [done|].
        eapply wf_link_fresh; [exact Hwf|cbn; lia].
      * done.
      * intros b Hb. assert (b = (s + n, k - n) \/ b ∈ pre ++ post) as [->|Hb'] by set_solver.
        -- unfold block_ok; cbn. rewrite upd_ne, upd_eq by lia. cbn. rewrite upd_eq. cbn.
           rewrite u32_small by lia. rewrite Hflags by lia. split_and!; [done|done|..].
           all: intros i Hi; case_upd; first [apply Hflags; lia|apply Href; lia].
        -- eapply wf_others; [exact Hwf| |done]. intros i Hi. case_upd.
      * rewrite Hfree, Htot, u32_small; lia.
      * rewrite Htot; lia.
    + intros i Hi. case_upd; [by rewrite Hf, Href by lia|].
      split; [apply Hflags; lia|apply Href; lia].
    + intros i Hi. case_upd.
  - assert (k = n) as -> by lia. split_and!; cbn.
    + split; cbn.
      * by rewrite links_of_app.
      * done.
      * intros b Hb. eapply wf_others; [exact Hwf| |done]. intros i Hi. case_upd.
      * rewrite Hfree, Htot, u32_small; lia.
      * rewrite Htot; lia.
    + intros i Hi. case_upd; [by rewrite Hf, Href by lia|].
      split; [apply Hflags; lia|apply Href; lia].
    + intros i Hi. case_upd.
Qed.

(** ** Releasing pages and linking the new block *)
Definition in_range (base n i : Z) : Prop := base <= i < base + n.

Lemma release_pages_spec k : forall st p,
  (forall i, in_range p (Z.of_nat k) i ->
     PageReserved (pages st i) = false /\ PageProperty (pages st i) = false) ->
  exists st', release_pages k p st = Done (tt, st') /\
    lnk st' = lnk st /\ nr_free st' = nr_free st /\
    (forall i, in_range p (Z.of_nat k) i ->
       pages st' i = mkPage 0 0 (property (pages st i))) /\
    same_pages_except st st' (in_range p (Z.of_nat k)).
Proof.
  unfold in_range. induction k as [|k IH]; intros st p Hok; cbn [release_pages].
  { exists st. split_and!; try done. lia. }
  destruct (Hok p ltac:(lia)) as [Hr Hp]. mrun. rewrite Hr, Hp. mrun.
  edestruct (IH (mkPmm (upd (pages st) p (mkPage 0 0 (property (pages st p)))) (lnk st)
                  (nr_free st)) (p + 1)) as (st' & -> & Hl & Hn & Hin & Hout).
  { intros i Hi. cbn. rewrite upd_ne by lia. apply Hok. lia. }
  exists st'. split_and!; try done.
  - intros i Hi. destruct (decide (i = p)) as [->|].
    + rewrite Hout by lia. cbn. apply upd_eq.
    + rewrite Hin by lia. cbn. by rewrite upd_ne.
  - intros i Hi. rewrite Hout by lia. cbn. apply upd_ne. lia.
Qed.

(** The loop of [link_block] stops before the first block above [base]. *)
Lemma link_loop_spec st base s k post pre : forall seen fuel,
  is_dlist (lnk st) Head (links_of (seen ++ pre ++ (s, k) :: post)) ->
  (forall b, b ∈ pre -> b.1 <= base) -> base < s ->
  (length pre < fuel)%nat ->
  link_loop fuel (lastd Head (links_of seen)) base st
  = Done (tt, mkPmm (pages st) (list_add_before (lnk st) (Link s) (Link base)) (nr_free st)).
Proof.
  induction pre as [|[s0 k0] pre IH]; intros seen [|fuel] Hl Hpre Hs Hf; cbn in Hf; try lia;
    cbn [link_loop]; pose proof Hl as Hg; cbn [app] in Hg;
    rewrite links_of_app, links_of_cons in Hg; mrun;
    pose proof (is_dlist_gap _ _ _ _ Hg) as [-> _]; cbn; mrun;
    rewrite bool_decide_eq_false_2 by done; cbn.
  - destruct (Z.ltb_spec base s); [done|lia].
  - pose proof (Hpre (s0, k0) ltac:(left)) as H0. cbn in H0.
    destruct (Z.ltb_spec base s0); [lia|]. mrun.
    assert (nxt (lnk st) (Link s0) <> Head) as Hne.
    { rewrite (is_dlist_nxt _ _ _ _ _ Hg).
      destruct pre as [|[??] ?]; cbn; done. }
    rewrite bool_decide_eq_false_2 by done. mrun.
    specialize (IH (seen ++ [(s0, k0)]) fuel).
    rewrite links_of_snoc in IH. apply IH.
    + by rewrite <- app_assoc.
    + intros b Hb. apply Hpre. by right.
    + done.
    + lia.
Qed.

Lemma link_block_spec st base pre post fuel :
  is_dlist (lnk st) Head (links_of (pre ++ post)) ->
  (forall b, b ∈ pre -> b.1 < base) -> (forall b, b ∈ post -> base < b.1) ->
  (pre = [] \/ post <> []) -> (length pre < fuel)%nat ->
  exists l, link_block fuel base st = Done (tt, mkPmm (pages st) l (nr_free st)) /\
    is_dlist l Head (links_of pre ++ Link base :: links_of post).
Proof.
  intros Hl Hpre Hpost Hne Hf. unfold link_block. mrun.
  assert (Hfresh : Link base ∉ Head :: links_of pre ++ links_of post).
  { rewrite <- links_of_app. intros [?|[k' Hin]%links_of_elem]%elem_of_cons; [done|].
    apply elem_of_app in Hin as [Hin|Hin]; [apply Hpre in Hin|apply Hpost in Hin]; cbn in Hin; lia. }
  rewrite (list_empty_spec _ _ _ Hl).
  destruct post as [|[s k] post].
  - destruct Hne as [->|]; [|done]. rewrite bool_decide_eq_true_2 by done. mrun.
    eexists. split; [done|]. by apply (list_add_head_dlist _ _ []).
  - rewrite bool_decide_eq_false_2.
    2:{ rewrite links_of_app, links_of_cons. by destruct (links_of pre). }
    rewrite (link_loop_spec st base s k post pre []); try done.
    + eexists. split; [done|]. rewrite links_of_app in Hl.
      by apply list_add_before_dlist.
    + intros b Hb. specialize (Hpre _ Hb). lia.
    + apply (Hpost (s, k)). left.
Qed.

(** ** Coalescing two neighbours *)
Lemma wf_absorbed st pg' pre p k q m post :
  wf st (pre ++ (p, k) :: (q, m) :: post) -> p + k = q ->
  (forall i, i <> p -> i <> q -> pg' i = pages st i) ->
  forall b, b ∈ pre ++ post -> block_ok pg' b.
Proof.
  intros Hwf Hq He [s' k'] Hin.
  assert (Hin' : (s', k') ∈ pre ++ (p, k) :: (q, m) :: post) by set_solver.
  assert (Hin1 : (s', k') ∈ pre ++ (q, m) :: post) by set_solver.
  assert (Hin2 : (s', k') ∈ (pre ++ [(p, k)]) ++ post) by set_solver.
  pose proof (wf_disjoint _ _ _ _ _ _ _ Hwf Hin1) as H1.
  assert (Hwf2 : wf st ((pre ++ [(p, k)]) ++ (q, m) :: post)) by by rewrite <- app_assoc.
  pose proof (wf_disjoint _ _ _ _ _ _ _ Hwf2 Hin2) as H2.
  pose proof (wf_size_bound _ _ p k Hwf ltac:(set_solver)).
  pose proof (wf_size_bound _ _ q m Hwf ltac:(set_solver)).
  pose proof (wf_size_bound _ _ _ _ Hwf Hin').
  eapply block_ok_ext; [|cbn; lia|by apply (wf_block_at _ _ _ _ Hwf)].
  cbn. intros i Hi. apply He; lia.
Qed.

Lemma blocks_from_absorb lo pre p k q m post :
  blocks_from lo (pre ++ (p, k) :: (q, m) :: post) -> p + k = q ->
  blocks_from lo (pre ++ (p, k + m) :: post).
Proof.
  intros (? & ? & ? & ? & Hq)%blocks_from_app <-. cbn in Hq. destruct Hq as (? & ? & Hpost).
  apply blocks_from_app. split_and!; try done; [lia|].
  by replace (p + (k + m)) with (p + k + m) by lia.
Qed.

Lemma absorb_spec st pre p k q m post :
  wf st (pre ++ (p, k) :: (q, m) :: post) -> p + k = q ->
  exists st', absorb p q st = Done (tt, st') /\
    wf st' (pre ++ (p, k + m) :: post) /\
    same_pages_except st st' (fun i => i = p \/ i = q).
Proof.
  intros Hwf Hq.
  destruct (wf_block_at _ _ p k Hwf ltac:(set_solver)) as (Hp1 & Hf1 & Hz1 & Hr1).
  destruct (wf_block_at _ _ q m Hwf ltac:(set_solver)) as (Hp2 & Hf2 & Hz2 & Hr2).
  pose proof (wf_size_bound _ _ p k Hwf ltac:(set_solver)) as Hk.
  pose proof (wf_size_bound _ _ q m Hwf ltac:(set_solver)) as Hm.
  pose proof (blocks_from_absorb _ _ _ _ _ _ _ (wf_sorted _ _ Hwf) Hq) as Hsort.
  assert (Htot : free_total (pre ++ (p, k + m) :: post)
                 = free_total (pre ++ (p, k) :: (q, m) :: post)).
  { rewrite !free_total_app, !free_total_cons. cbn. lia. }
  pose proof (wf_bound _ _ Hwf) as Hb.
  assert (Hkm : k + m < 2 ^ 32).
  { rewrite <- Htot, free_total_app, free_total_cons in Hb. cbn in Hb.
    apply blocks_from_app in Hsort as (Hs1%free_total_nonneg & _ & _ & _ & Hs2%free_total_nonneg). lia. }
  unfold absorb. mrun. eexists. split; [done|]. cbn in Hp1, Hf1, Hz1, Hr1, Hp2, Hf2, Hz2, Hr2.
  split; [split|].
  - cbn. pose proof (wf_list _ _ Hwf) as Hl.
    rewrite links_of_app, !links_of_cons in Hl |- *.
    rewrite cons_middle, app_assoc in Hl. apply list_del_dlist in Hl.
    by rewrite <- app_assoc in Hl.
  - done.
  - intros b Hb'. assert (b = (p, k + m) \/ b ∈ pre ++ post) as [->|Hb''] by set_solver.
    + assert (Hz : forall i, p < i < p + (k + m) -> i <> q -> flags (pages st i) = 0).
      { intros i ??. destruct (decide (i < q)); [apply Hz1; lia|apply Hz2; lia]. }
      assert (Hr : forall i, p <= i < p + (k + m) -> page_ref (pages st i) = 0).
      { intros i ?. destruct (decide (i < q)); [apply Hr1; lia|apply Hr2; lia]. }
      unfold block_ok. cbn [fst snd pages]. rewrite (upd_ne _ q) by lia. rewrite upd_eq. cbn.
      rewrite Hp1, Hp2, u32_small by lia. split_and!; [done|done|..]; intros i Hi;
        (destruct (decide (i = q)) as [->|]; [rewrite upd_eq, upd_ne by lia|rewrite upd_ne by lia]).
      * cbn. by rewrite Hf2.
      * rewrite upd_ne by lia. by apply Hz.
      * cbn. apply Hr. lia.
      * destruct (decide (i = p)) as [->|]; [rewrite upd_eq|rewrite upd_ne by lia]; by apply Hr.
    + eapply wf_absorbed; [exact Hwf|done| |done]. intros i ??. cbn. by rewrite !upd_ne.
  - cbn. rewrite Htot. apply (wf_free _ _ Hwf).
  - by rewrite Htot.
  - intros i Hi. case_upd.
Qed.

Lemma merge_prev_last st pre base n post :
  wf st (pre ++ (base, n) :: post) ->
  (pre = [] /\ merge_prev base st = Done (base, st)) \/
  exists pre' s k, pre = pre' ++ [(s, k)] /\
    (if s + k =? base then
       exists st', merge_prev base st = Done (s, st') /\
         wf st' (pre' ++ (s, k + n) :: post) /\
         same_pages_except st st' (fun i => i = s \/ i = base)
     else merge_prev base st = Done (base, st)).
Proof.
  intros Hwf. pose proof (wf_list _ _ Hwf) as Hl. rewrite links_of_app, links_of_cons in Hl.
  pose proof (is_dlist_prv _ _ _ _ _ Hl) as Hprev. unfold merge_prev. mrun. rewrite Hprev.
  destruct pre as [|[s k] pre' _] using rev_ind.
  { left. split; [done|]. by rewrite bool_decide_eq_true_2. }
  right. exists pre', s, k. split; [done|]. rewrite links_of_snoc.
  rewrite bool_decide_eq_false_2 by done. cbn.
  destruct (wf_block_at _ _ s k Hwf ltac:(set_solver)) as (Hp & _). cbn in Hp. rewrite Hp.
  destruct (Z.eqb_spec (s + k) base) as [He|]; [|done].
  rewrite <- app_assoc in Hwf. destruct (absorb_spec _ _ _ _ _ _ _ Hwf He) as (st' & Ha & ? & ?).
  rewrite Ha. by exists st'.
Qed.

Lemma merge_next_spec st pre base n post :
  wf st (pre ++ (base, n) :: post) ->
  exists st', merge_next base st = Done (tt, st') /\
    wf st' (pre ++ abs_merge_next (base, n) post).
Proof.
  intros Hwf. pose proof (wf_list _ _ Hwf) as Hl. rewrite links_of_app, links_of_cons in Hl.
  pose proof (is_dlist_nxt _ _ _ _ _ Hl) as Hnext. unfold merge_next. mrun. rewrite Hnext.
  destruct post as [|[s k] post]; [by exists st|].
  rewrite links_of_cons. cbn.
  rewrite bool_decide_eq_false_2 by done. cbn.
  destruct (wf_block_at _ _ base n Hwf ltac:(set_solver)) as (Hp & _). cbn in Hp. rewrite Hp.
  destruct (Z.eqb_spec (base + n) s) as [He|]; [|by exists st].
  destruct (absorb_spec _ _ _ _ _ _ _ Hwf He) as (st' & Ha & ? & ?). by exists st'.
Qed.

(** [abs_free] on a list split at the released block. *)
Lemma abs_free_nil base n post :
  (forall b, b ∈ post -> base < b.1) -> abs_free base n post = abs_merge_next (base, n) post.
Proof.
  destruct post as [|[s k] post]; [done|]. intros H. cbn [abs_free].
  pose proof (H (s, k) ltac:(left)) as Hs. cbn in Hs. by destruct (Z.ltb_spec base s); [|lia].
Qed.

Lemma abs_free_snoc base n pre s k post :
  (forall b, b ∈ pre -> b.1 + b.2 < base) -> (forall b, b ∈ pre -> 0 < b.2) ->
  s < base -> (forall b, b ∈ post -> base < b.1) ->
  abs_free base n ((pre ++ [(s, k)]) ++ post)
  = pre ++ (if s + k =? base then abs_merge_next (s, k + n) post
            else (s, k) :: abs_merge_next (base, n) post).
Proof.
  intros Hpre Hpos Hs Hpost. induction pre as [|[s0 k0] pre IH]; cbn [app abs_free].
  - destruct (Z.ltb_spec base s); [lia|]. by rewrite abs_free_nil.
  - pose proof (Hpre (s0, k0) ltac:(left)) as H0. pose proof (Hpos (s0, k0) ltac:(left)) as H1.
    cbn in H0, H1. destruct (Z.ltb_spec base s0); [lia|].
    destruct (Z.eqb_spec (s0 + k0) base); [lia|]. f_equal.
    apply IH; intros b Hb; [apply Hpre|apply Hpos]; by right.
Qed.

(** A well-formed list splits at any address range disjoint from it. *)
Lemma split_at lo xs base n :
  blocks_from lo xs -> 0 < n ->
  (forall s k, (s, k) ∈ xs -> s + k <= base \/ base + n <= s) ->
  exists pre post, xs = pre ++ post /\
    (forall s k, (s, k) ∈ pre -> s + k <= base) /\
    (forall s k, (s, k) ∈ post -> base + n <= s).
Proof.
  revert lo; induction xs as [|[s k] xs IH]; intros lo Hs Hn Hd.
  { exists [], []. split_and!; [done|..]; by intros ?? ?%elem_of_nil. }
  cbn in Hs. destruct Hs as (? & ? & Hs).
  destruct (Hd s k ltac:(left)) as [Hle|Hge].
  - destruct (IH _ Hs Hn) as (pre & post & -> & Hpre & Hpost).
    { intros s' k' ?. apply Hd. by right. }
    exists ((s, k) :: pre), post. split_and!; [done| |done].
    intros s' k' [[= -> ->]|?]%elem_of_cons; [done|by apply Hpre].
  - exists [], ((s, k) :: xs). split_and!; [done|by intros ?? ?%elem_of_nil|].
    intros s' k' [[= -> ->]|Hin]%elem_of_cons; [done|].
    pose proof (blocks_from_elem _ _ _ _ Hs Hin). lia.
Qed.

Lemma insert_sorted pre base n post lo :
  blocks_from lo (pre ++ post) -> lo <= base -> 0 < n ->
  (forall s k, (s, k) ∈ pre -> s + k <= base) ->
  (forall s k, (s, k) ∈ post -> base + n <= s) ->
  blocks_from lo (pre ++ (base, n) :: post).
Proof.
  intros H Hlo Hn Hpre Hpost. apply blocks_from_app. destruct post as [|[s k] post].
  - rewrite app_nil_r in H. by split_and!.
  - apply blocks_from_app in H as (? & ? & ? & ? & ?).
    pose proof (Hpost s k ltac:(left)). by split_and!.
Qed.

(** ** What the blocks of a list cover *)
Lemma covers_app xs ys i : covers (xs ++ ys) i <-> covers xs i \/ covers ys i.
Proof. unfold covers. setoid_rewrite elem_of_app. naive_solver. Qed.

Lemma covers_cons s k xs i : covers ((s, k) :: xs) i <-> s <= i < s + k \/ covers xs i.
Proof. unfold covers. setoid_rewrite elem_of_cons. naive_solver. Qed.

Lemma covers_nil i : covers [] i <-> False.
Proof. unfold covers. split; [by intros (? & ? & ?%elem_of_nil & _)|done]. Qed.

Lemma covers_split s k n i :
  0 < n -> covers (split_block s k n) i <-> s + n <= i < s + k.
Proof.
  unfold split_block. destruct (Z.ltb_spec n k); rewrite ?covers_cons, covers_nil; lia.
Qed.

Lemma covers_merge_next b post i :
  0 < b.2 -> Forall (fun c => 0 < c.2) post ->
  covers (abs_merge_next b post) i <-> b.1 <= i < b.1 + b.2 \/ covers post i.
Proof.
  destruct b as [s k], post as [|[s' k'] post]; cbn; intros Hk Hpost.
  - by rewrite covers_cons.
  - apply Forall_cons in Hpost as [Hk' _]. cbn in Hk'.
    destruct (Z.eqb_spec (s + k) s'); rewrite !covers_cons; [|done]. split; [|intuition lia].
    intros [?|?]; [|tauto]. destruct (decide (i < s + k)); [left|right; left]; lia.
Qed.

Lemma blocks_from_pos lo xs : blocks_from lo xs -> Forall (fun c => 0 < c.2) xs.
Proof.
  intros H. apply Forall_forall. intros [s k] Hin. by destruct (blocks_from_elem _ _ _ _ H Hin).
Qed.

(** Freeing adds exactly the released range to the free pages. *)
Lemma abs_free_covers base n xs i :
  0 < n -> Forall (fun c => 0 < c.2) xs ->
  covers (abs_free base n xs) i <-> in_range base n i \/ covers xs i.
Proof.
  unfold in_range. intros Hn. induction xs as [|[s k] xs IH]; intros Hpos.
  { cbn. by rewrite covers_cons. }
  pose proof Hpos as [Hk Hpos']%Forall_cons. cbn in Hk. cbn [abs_free].
  destruct (Z.ltb_spec base s); [by rewrite covers_merge_next|].
  destruct (Z.eqb_spec (s + k) base); rewrite ?covers_cons.
  - rewrite covers_merge_next by (cbn; first [lia|done]). cbn. split; [|intuition lia].
    intros [?|?]; [|tauto]. destruct (decide (i < s + k)); [right; left|left]; lia.
  - rewrite IH by done. tauto.
Qed.

Lemma split_covers pre p k post n lo :
  blocks_from lo (pre ++ (p, k) :: post) -> 0 < n <= k -> forall i,
  (covers (pre ++ (p, k) :: post) i
   <-> covers (pre ++ split_block p k n ++ post) i \/ in_range p n i) /\
  (covers (pre ++ split_block p k n ++ post) i -> ~ in_range p n i).
Proof.
  intros Hs Hn i. unfold in_range.
  rewrite !covers_app, covers_cons, covers_split by lia. split; [split; [|intuition lia]|].
  - intros [?|[?|?]]; [tauto| |tauto]. destruct (decide (i < p + n)); [right|left; right; left]; lia.
  - apply blocks_from_app in Hs as (_ & Hpre & _ & _ & Hpost).
    intros [(s' & k' & Hin & ?)|[?|(s' & k' & Hin & ?)]]; [|lia|].
    + specialize (Hpre _ _ Hin). lia.
    + destruct (blocks_from_elem _ _ _ _ Hpost Hin). lia.
Qed.

(** ** Properties *)
Definition allocation (st st' : pmm) (xs xs' : list block) (p n : Z) : Prop :=
  wf st' xs' /\ nr_free st' = nr_free st - n /\
  (forall i, (covers xs i <-> covers xs' i \/ in_range p n i) /\
             (covers xs' i -> ~ in_range p n i)) /\
  (forall i, in_range p n i -> flags (pages st' i) = 0 /\ page_ref (pages st' i) = 0) /\
  same_pages_except st st' (covers xs).

Lemma take_block_allocates st pre p k post n :
  wf st (pre ++ (p, k) :: post) -> 0 < n <= k ->
  exists st', take_block p n st = Done (tt, st') /\
    allocation st st' (pre ++ (p, k) :: post) (pre ++ split_block p k n ++ post) p n.
Proof.
  intros Hwf Hn. pose proof (wf_sorted _ _ Hwf) as Hs.
  destruct (take_block_spec st pre p k post n Hwf ltac:(lia)) as (st' & Hrun & Hwf' & Hpg & Hfr).
  exists st'. split; [done|]. split_and!; [done| | |intros i Hi; apply Hpg, Hi|].
  - rewrite (wf_free _ _ Hwf'), (wf_free _ _ Hwf), free_total_split by lia. lia.
  - by eapply split_covers.
  - intros i Hi. apply Hfr. intros Hp. apply Hi. exists p, k.
    split; [apply elem_of_app; right; left|lia].
Qed.

Lemma default_alloc_run st xs n fuel :
  wf st xs -> 0 < n -> (length xs < fuel)%nat ->
  match abs_alloc n xs with
  | None => default_alloc_pages fuel n st = Done (None, st)
  | Some (p, xs') =>
      exists st', default_alloc_pages fuel n st = Done (Some p, st') /\
        allocation st st' xs xs' p n
  end.
Proof.
  intros Hwf Hn Hf. pose proof (wf_sorted _ _ Hwf) as Hs.
  pose proof (first_fit_search_spec st n xs [] fuel (wf_list _ _ Hwf)) as Hsearch.
  specialize (Hsearch ltac:(intros b Hb; by apply (wf_block _ _ Hwf)) Hf).
  change (lastd Head (links_of [])) with Head in Hsearch.
  pose proof (abs_alloc_total_le n xs 0 Hs) as Htot.
  unfold default_alloc_pages. destruct (Z.ltb_spec 0 n); [|lia]. mrun. rewrite (wf_free _ _ Hwf).
  destruct (Z.ltb_spec (free_total xs) n).
  { destruct (abs_alloc n xs); [lia|done]. }
  rewrite Hsearch. destruct (abs_alloc n xs) as [[p xs']|] eqn:Ha; cbn; [|done].
  apply abs_alloc_Some in Ha as (pre & k & post & -> & Hk & _ & ->).
  destruct (take_block_allocates st pre p k post n Hwf ltac:(lia)) as (st' & -> & Hal).
  by exists st'.
Qed.

(** C35 [default_alloc_pages] refines the abstract first fit: with more fuel
    than blocks it always returns; it fails exactly when no block has [n]
    pages, then leaving the state as it was; otherwise it returns the start of
    the first large enough block, the pages it hands out were free, are free
    no longer and belong to no remaining block, have clear flags and reference
    counts, the count of free pages drops by [n] and no page outside the free
    blocks is written. *)
Theorem default_alloc_pages_refines st xs n fuel :
  wf st xs -> 0 < n -> (length xs < fuel)%nat ->
  match abs_alloc n xs with
  | None => default_alloc_pages fuel n st = Done (None, st)
  | Some (p, xs') =>
      exists st', default_alloc_pages fuel n st = Done (Some p, st') /\
        allocation st st' xs xs' p n
  end.
Proof. apply default_alloc_run. Qed.

(** The state between [link_block] and the coalescing steps. *)
Lemma enlist_spec st pre post base n fuel pg :
  wf st (pre ++ post) -> 0 <= base -> 0 < n -> free_total (pre ++ post) + n < 2 ^ 32 ->
  (forall s k, (s, k) ∈ pre -> s + k <= base) ->
  (forall s k, (s, k) ∈ post -> base + n <= s) ->
  (pre = [] \/ post <> []) -> (length (pre ++ post) < fuel)%nat ->
  (forall i, ~ in_range base n i -> pg i = pages st i) -> block_ok pg (base, n) ->
  exists st', link_block fuel base (mkPmm pg (lnk st) (u32 (nr_free st + n))) = Done (tt, st') /\
    wf st' (pre ++ (base, n) :: post) /\ pages st' = pg.
Proof.
  intros Hwf Hb Hn Htot Hpre Hpost Hne Hf Hpg Hok. pose proof (wf_sorted _ _ Hwf) as Hs.
  destruct (link_block_spec (mkPmm pg (lnk st) (u32 (nr_free st + n))) base pre post fuel)
    as (l & -> & Hl); try done.
  - apply (wf_list _ _ Hwf).
  - intros [s k] Hin. pose proof (Hpre _ _ Hin).
    pose proof (wf_size_bound _ _ s k Hwf ltac:(apply elem_of_app; by left)). cbn. lia.
  - intros [s k] Hin. pose proof (Hpost _ _ Hin). cbn. lia.
  - rewrite length_app in Hf. lia.
  - assert (Ht : free_total (pre ++ (base, n) :: post) = free_total (pre ++ post) + n).
    { rewrite !free_total_app, free_total_cons. cbn. lia. }
    pose proof (free_total_nonneg _ _ Hs).
    eexists. split; [done|]. split; [split|done]; cbn.
    + by rewrite links_of_app.
    + by apply insert_sorted.
    + intros [s k] Hin. assert ((s, k) = (base, n) \/ (s, k) ∈ pre ++ post) as [->|Hin'].
      { rewrite elem_of_app, elem_of_cons in Hin. rewrite elem_of_app. tauto. }
      { done. }
      pose proof (wf_size_bound _ _ _ _ Hwf Hin').
      eapply block_ok_ext; [|cbn; lia|by apply (wf_block_at _ _ _ _ Hwf)]. cbn. intros i Hi.
      apply Hpg. unfold in_range.
      apply elem_of_app in Hin' as [Hin'|Hin']; [apply Hpre in Hin'|apply Hpost in Hin']; lia.
    + rewrite (wf_free _ _ Hwf), Ht, u32_small; lia.
    + lia.
Qed.

Lemma split_not_last lo xs pre post base n :
  xs = pre ++ post -> blocks_from lo xs ->
  (forall s k, (s, k) ∈ pre -> s + k <= base) ->
  (forall s k, (s, k) ∈ post -> base + n <= s) ->
  (xs = [] \/ exists s k, (s, k) ∈ xs /\ base < s) -> pre = [] \/ post <> [].
Proof.
  intros -> Hs Hpre Hpost [[-> _]%app_nil|(s & k & Hin & Hlt)]; [by left|right].
  intros ->. rewrite app_nil_r in *. pose proof (Hpre _ _ Hin).
  pose proof (blocks_from_elem _ _ _ _ Hs Hin). lia.
Qed.

(** Coalescing the freshly linked block with both neighbours. *)
Lemma merge_spec st pre base n post xs :
  wf st (pre ++ (base, n) :: post) -> xs = pre ++ post ->
  exists st', (base ← merge_prev base; merge_next base) st = Done (tt, st') /\
    wf st' (abs_free base n xs).
Proof.
  intros Hwf ->. pose proof (wf_sorted _ _ Hwf) as Hs.
  apply blocks_from_app in Hs as (Hpre & Hle & Hb & Hn & Hpost).
  assert (Hpost' : forall b, b ∈ post -> base < b.1).
  { intros [s k] Hin. pose proof (blocks_from_elem _ _ _ _ Hpost Hin). cbn. lia. }
  destruct (merge_prev_last _ _ _ _ _ Hwf) as [[-> Hm]|(pre' & s & k & -> & Hm)].
  - mstep Hm. destruct (merge_next_spec _ _ _ _ _ Hwf) as (st' & Hrun & Hwf').
    rewrite Hrun. exists st'. split; [done|]. cbn [app] in *. by rewrite abs_free_nil.
  - apply blocks_from_app in Hpre as (Hpre & Hle' & Hs & Hk & _).
    pose proof (Hle s k ltac:(apply elem_of_app; right; left)).
    rewrite abs_free_snoc; [|intros [s' k'] Hin..|lia|done].
    2:{ pose proof (Hle' _ _ Hin). cbn. lia. }
    2:{ pose proof (blocks_from_elem _ _ _ _ Hpre Hin). cbn. lia. }
    destruct (Z.eqb_spec (s + k) base).
    + destruct Hm as (st1 & Hm & Hwf1 & _). mstep Hm. by apply merge_next_spec.
    + mstep Hm. destruct (merge_next_spec _ _ _ _ _ Hwf) as (st' & Hrun & Hwf').
      rewrite Hrun. exists st'. split; [done|]. by rewrite <- app_assoc in Hwf'.
Qed.

(** The descriptors after the head of the released block was written. *)
Definition freed_pages (pg : Z -> Page) (base n : Z) : Z -> Page :=
  let pg1 := upd pg base (set_property (u32 n) (pg base)) in
  upd pg1 base (SetPageProperty (pg1 base)).

Lemma head_block_run {A} base n (k : ST pmm A) st :
  (on_page base (set_property (u32 n)) ;; on_page base SetPageProperty ;;
   set_nr_free (fun nf => nf + n) ;; k) st
  = k (mkPmm (freed_pages (pages st) base n) (lnk st) (u32 (nr_free st + n))).
Proof. done. Qed.

Lemma freed_pages_eq pg base n :
  freed_pages pg base n base = SetPageProperty (set_property (u32 n) (pg base)).
Proof. unfold freed_pages. by rewrite !upd_eq. Qed.

Lemma freed_pages_ne pg base n i : i <> base -> freed_pages pg base n i = pg i.
Proof. intros. unfold freed_pages. by rewrite !upd_ne. Qed.

Lemma freed_block_ok pg pg0 base n :
  0 < n -> n < 2 ^ 32 ->
  (forall i, in_range base n i -> pg i = mkPage 0 0 (property (pg0 i))) ->
  block_ok (freed_pages pg base n) (base, n).
Proof.
  unfold in_range. intros Hn Hn' Hpg. unfold block_ok. cbn. rewrite freed_pages_eq. cbn.
  rewrite u32_small, Hpg by lia. split_and!; [done|done|..]; intros i Hi.
  - rewrite freed_pages_ne, Hpg by lia. done.
  - destruct (decide (i = base)) as [->|]; [rewrite freed_pages_eq|rewrite freed_pages_ne by done];
      cbn; rewrite Hpg by lia; done.
Qed.

(** The pages of a range that [free_pages] accepts. *)
Definition releasable (st : pmm) (xs : list block) (base n : Z) : Prop :=
  0 <= base /\ 0 < n /\ free_total xs + n < 2 ^ 32 /\
  (forall i, in_range base n i ->
     PageReserved (pages st i) = false /\ PageProperty (pages st i) = false) /\
  (forall s k, (s, k) ∈ xs -> s + k <= base \/ base + n <= s).

Lemma release_spec st xs base n fuel :
  wf st xs -> releasable st xs base n -> (length xs < fuel)%nat ->
  (xs = [] \/ exists s k, (s, k) ∈ xs /\ base < s) ->
  exists st', (assert (0 <? n) ;;
    release_pages (Z.to_nat n) base ;;
    on_page base (set_property (u32 n)) ;;
    on_page base SetPageProperty ;;
    set_nr_free (fun nf => nf + n) ;;
    link_block fuel base ;;
    base ← merge_prev base;
    merge_next base) st = Done (tt, st') /\ wf st' (abs_free base n xs).
Proof.
  intros Hwf (Hb & Hn & Htot & Hpg & Hd) Hf Hlast. pose proof (wf_sorted _ _ Hwf) as Hs.
  destruct (split_at _ _ _ _ Hs Hn Hd) as (pre & post & Hxs & Hpre & Hpost).
  pose proof (split_not_last _ _ _ _ _ _ Hxs Hs Hpre Hpost Hlast) as Hne.
  destruct (release_pages_spec (Z.to_nat n) st base) as (st1 & Hrel & Hl & Hnf & Hin & Hout);
    [intros i Hi; apply Hpg; unfold in_range in *; lia|].
  rewrite Z2Nat.id in Hin, Hout by lia.
  edestruct (enlist_spec st pre post base n fuel (freed_pages (pages st1) base n))
    as (st2 & Hlink & Hwf2 & _).
  { by rewrite <- Hxs. } { done. } { done. } { by rewrite <- Hxs. } { done. } { done. } { done. }
  { by rewrite <- Hxs. }
  { intros i Hi. rewrite freed_pages_ne; [by apply Hout|]. intros ->. apply Hi. unfold in_range. lia. }
  { eapply freed_block_ok; [done| |exact Hin]. pose proof (free_total_nonneg _ _ Hs). lia. }
  destruct (merge_spec _ _ _ _ _ _ Hwf2 Hxs) as (st' & Hm & Hwf').
  exists st'. split; [|done]. destruct (Z.ltb_spec 0 n); [|lia].
  mstep (assert_true true st eq_refl). mstep Hrel.
  rewrite head_block_run, Hl, Hnf. by mstep Hlink.
Qed.

(** C36 [default_free_pages] refines the abstract free of an address-ordered,
    coalescing list, when the released range does not lie above every free
    block of a non-empty list: it returns, the list is well formed again, the
    free pages are exactly the former ones and the released range, and a
    released block is merged with the free blocks that touch it. *)
Theorem default_free_pages_refines st xs base n fuel :
  wf st xs -> releasable st xs base n -> (length xs < fuel)%nat ->
  (xs = [] \/ exists s k, (s, k) ∈ xs /\ base < s) ->
  exists st', default_free_pages fuel base n st = Done (tt, st') /\
    wf st' (abs_free base n xs) /\
    (forall i, covers (abs_free base n xs) i <-> in_range base n i \/ covers xs i).
Proof.
  intros Hwf Hr Hf Hlast. destruct (release_spec _ _ _ _ _ Hwf Hr Hf Hlast) as (st' & Hrun & Hwf').
  exists st'. split_and!; [done|done|]. intros i. destruct Hr as (_ & Hn & _).
  apply abs_free_covers; [done|]. eapply blocks_from_pos, (wf_sorted _ _ Hwf).
Qed.

(** The list after a block was linked, before any coalescing. *)
Fixpoint abs_insert (b : block) (xs : list block) : list block :=
  match xs with
  | [] => [b]
  | c :: r => if b.1 <? c.1 then b :: xs else c :: abs_insert b r
  end.

Lemma abs_insert_app b pre post :
  (forall c, c ∈ pre -> c.1 <= b.1) -> (forall c, c ∈ post -> b.1 < c.1) ->
  abs_insert b (pre ++ post) = pre ++ b :: post.
Proof.
  intros Hpre Hpost. induction pre as [|c pre IH]; cbn.
  - destruct post as [|c post]; [done|]. cbn. pose proof (Hpost c ltac:(left)).
    by destruct (Z.ltb_spec b.1 c.1); [|lia].
  - pose proof (Hpre c ltac:(left)). destruct (Z.ltb_spec b.1 c.1); [lia|].
    rewrite IH; [done|]. intros d Hd. apply Hpre. by right.
Qed.

Lemma reserve_pages_spec k : forall st p,
  (forall i, in_range p (Z.of_nat k) i -> PageReserved (pages st i) = true) ->
  exists st', reserve_pages k p st = Done (tt, st') /\
    lnk st' = lnk st /\ nr_free st' = nr_free st /\
    (forall i, in_range p (Z.of_nat k) i -> pages st' i = mkPage 0 0 0) /\
    same_pages_except st st' (in_range p (Z.of_nat k)).
Proof.
  unfold in_range. induction k as [|k IH]; intros st p Hok; cbn [reserve_pages].
  { exists st. split_and!; try done. lia. }
  pose proof (Hok p ltac:(lia)) as Hr. mrun. rewrite Hr. mrun.
  edestruct (IH (mkPmm (upd (pages st) p (mkPage 0 0 0)) (lnk st) (nr_free st)) (p + 1))
    as (st' & -> & Hl & Hn & Hin & Hout).
  { intros i Hi. cbn. rewrite upd_ne by lia. apply Hok. lia. }
  exists st'. split_and!; try done.
  - intros i Hi. destruct (decide (i = p)) as [->|]; [|by rewrite Hin by lia].
    rewrite Hout by lia. apply upd_eq.
  - intros i Hi. rewrite Hout by lia. cbn. apply upd_ne. lia.
Qed.

(** [default_init_memmap] on pages that are all reserved adds the one block
    [base, n] at its place in the list, without coalescing it, provided the
    list is empty or has a block above it. *)
Theorem default_init_memmap_spec st xs base n fuel :
  wf st xs -> 0 <= base -> 0 < n -> free_total xs + n < 2 ^ 32 ->
  (forall i, in_range base n i -> PageReserved (pages st i) = true) ->
  (forall s k, (s, k) ∈ xs -> s + k <= base \/ base + n <= s) ->
  (length xs < fuel)%nat -> (xs = [] \/ exists s k, (s, k) ∈ xs /\ base < s) ->
  exists st', default_init_memmap fuel base n st = Done (tt, st') /\
    wf st' (abs_insert (base, n) xs) /\ same_pages_except st st' (in_range base n).
Proof.
  intros Hwf Hb Hn Htot Hpg Hd Hf Hlast. pose proof (wf_sorted _ _ Hwf) as Hs.
  destruct (split_at _ _ _ _ Hs Hn Hd) as (pre & post & Hxs & Hpre & Hpost).
  pose proof (split_not_last _ _ _ _ _ _ Hxs Hs Hpre Hpost Hlast) as Hne.
  destruct (reserve_pages_spec (Z.to_nat n) st base) as (st1 & Hrel & Hl & Hnf & Hin & Hout);
    [intros i Hi; apply Hpg; unfold in_range in *; lia|].
  rewrite Z2Nat.id in Hin, Hout by lia. subst xs.
  destruct (enlist_spec st pre post base n fuel (freed_pages (pages st1) base n))
    as (st2 & Hlink & Hwf2 & Hpages); try done.
  { intros i Hi. rewrite freed_pages_ne; [by apply Hout|]. intros ->. apply Hi. unfold in_range. lia. }
  { apply (freed_block_ok _ (fun _ => mkPage 0 0 0)); [done| |exact Hin].
    pose proof (free_total_nonneg _ _ Hs). lia. }
  exists st2. split.
  - unfold default_init_memmap. destruct (Z.ltb_spec 0 n); [|lia].
    mstep (assert_true true st eq_refl). mstep Hrel.
    by rewrite head_block_run, Hl, Hnf.
  - split.
    + rewrite abs_insert_app; [done|..]; intros [s k] Hin'; cbn.
      * pose proof (Hpre _ _ Hin').
        pose proof (wf_size_bound _ _ s k Hwf ltac:(apply elem_of_app; by left)). lia.
      * pose proof (Hpost _ _ Hin'). lia.
    + intros i Hi. rewrite Hpages, freed_pages_ne; [by apply Hout|]. intros ->. apply Hi. unfold in_range. lia.
Qed.

(** A machine with eight pages, all reserved, as [page_init] leaves them. *)
Definition boot : pmm := mkPmm (fun _ => mkPage 0 1 0) (mkLinks (fun l => l) (fun l => l)) 0.

Definition booted : ST pmm unit := default_init ;; default_init_memmap 20 0 8.

(** Release, then allocate: the blocks are released in address order, so the
    second release goes to the end of the list. *)
Definition double_allocation : ST pmm (option Z * option Z) :=
  booted ;;
  _ ← default_alloc_pages 20 8;
  default_free_pages 20 0 1 ;;
  default_free_pages 20 2 2 ;;
  p ← default_alloc_pages 20 2;
  default_free_pages 20 6 1 ;;
  q ← default_alloc_pages 20 2;
  mret (p, q).

Example double_allocation_run : result (double_allocation boot) = Some (Some 2, Some 2).
Proof. vm_compute. reflexivity. Qed.

(** ** Releasing a block above all others *)

(** What the loop makes of the links when [le] is the last entry: [base] is added after
    it, and then once more after itself. *)
Definition added_twice (s : links lnode) (le : lnode) (base : Z) : links lnode :=
  list_add (list_add s le (Link base)) (Link base) (Link base).

Lemma added_twice_links s le base : le <> Link base -> nxt s le = Head ->
  let l := list_add s le (Link base) in
  (forall x, nxt (added_twice s le base) x = nxt l x) /\
  forall x, prv (added_twice s le base) x = if decide (x = Link base) then Link base else prv l x.
Proof.
  intros Hne Hn l. assert (Hl : nxt l (Link base) = Head) by (cbn; rewrite upd_eq; exact Hn).
  unfold added_twice. fold l. unfold list_add at 1 2, list_add_after. rewrite Hl. split; intros x; cbn.
  - destruct (decide (x = Link base)) as [->|Hx]; [rewrite upd_eq; symmetry; exact Hl|]. by rewrite upd_ne, upd_ne by done.
  - unfold upd at 1. case_decide; [done|]. destruct (decide (x = Head)) as [->|Hx]; [|by rewrite upd_ne].
    rewrite upd_eq, upd_ne, Hn, upd_eq by done. done.
Qed.

Lemma link_loop_tail base pre : forall st seen fuel,
  is_dlist (lnk st) Head (links_of (seen ++ pre)) -> (forall b, b ∈ pre -> b.1 < base) -> pre <> [] ->
  (length pre + 2 <= fuel)%nat ->
  link_loop fuel (lastd Head (links_of seen)) base st
  = Done (tt, mkPmm (pages st) (added_twice (lnk st) (lastd Head (links_of (seen ++ pre))) base) (nr_free st)).
Proof.
  induction pre as [|[s0 k0] pre IH]; intros st seen [|fuel] Hl Hpre Hne Hf; cbn [length] in Hf; try lia; [done|].
  cbn [link_loop]. pose proof Hl as Hg. rewrite links_of_app, links_of_cons in Hg. mrun.
  pose proof (is_dlist_gap _ _ _ _ Hg) as [-> _]. cbn. mrun. rewrite bool_decide_eq_false_2 by done. cbn.
  pose proof (Hpre (s0, k0) ltac:(left)) as H0. cbn in H0. destruct (Z.ltb_spec base s0); [lia|]. mrun.
  pose proof (is_dlist_nxt _ _ _ _ _ Hg) as Hnx. destruct pre as [|[s1 k1] pre].
  - assert (Hn : nxt (lnk st) (Link s0) = Head) by exact Hnx. rewrite Hn. mrun. rewrite links_of_snoc.
    destruct (added_twice_links (lnk st) (Link s0) base) as [Hx _]; [by intros [=]; lia|done|].
    set (l := list_add (lnk st) (Link s0) (Link base)) in *.
    assert (Hl0 : nxt l (Link s0) = Link base).
    { unfold l. cbn. rewrite upd_ne by (intros [=]; lia). apply upd_eq. }
    assert (Hl1 : nxt l (Link base) = Head) by (unfold l; cbn; rewrite upd_eq; exact Hn).
    destruct fuel as [|[|fuel]]; [lia|lia|]. rewrite bool_decide_eq_true_2 by done. cbv iota beta. fold l.
    set (stl := mkPmm (pages st) l (nr_free st)). cbn [link_loop].
    mstep (eq_refl : le_next (Link s0) stl = Done (nxt l (Link s0), stl)). rewrite Hl0, bool_decide_eq_false_2 by done.
    cbn [le2page]. rewrite Z.ltb_irrefl.
    mstep (eq_refl : le_next (Link base) stl = Done (nxt l (Link base), stl)). rewrite Hl1, bool_decide_eq_true_2 by done.
    set (st2 := mkPmm (pages st) (added_twice (lnk st) (Link s0) base) (nr_free st)).
    mstep (eq_refl : on_list (fun s => list_add s (Link base) (Link base)) stl = Done (tt, st2)).
    mstep (eq_refl : le_next (Link base) st2 = Done (nxt (added_twice (lnk st) (Link s0) base) (Link base), st2)).
    by rewrite Hx, Hl1, bool_decide_eq_true_2.
  - assert (Hn : nxt (lnk st) (Link s0) = Link s1) by exact Hnx. rewrite Hn. mrun.
    specialize (IH st (seen ++ [(s0, k0)]) fuel). rewrite links_of_snoc, <- app_assoc in IH. apply IH; [done| |done|lia].
    intros b Hb. apply Hpre. by right.
Qed.

(** Going forward the list is that of [xs] and the block [(base, n)]; going back it
    stays at [base] for ever. *)
Record looped (st : pmm) (xs : list block) (base n : Z) : Prop := mkLooped {
  lo_list : exists l, is_dlist l Head (links_of (xs ++ [(base, n)])) /\ (forall x, nxt (lnk st) x = nxt l x) /\
    forall x, prv (lnk st) x = if decide (x = Link base) then Link base else prv l x;
  lo_size b : b ∈ xs ++ [(base, n)] -> property (pages st b.1) = b.2 }.

Lemma link_block_tail st xs base n fuel :
  is_dlist (lnk st) Head (links_of xs) -> xs <> [] -> (forall b, b ∈ xs -> b.1 < base) -> (length xs + 2 <= fuel)%nat ->
  (forall b, b ∈ xs ++ [(base, n)] -> property (pages st b.1) = b.2) ->
  exists st', link_block fuel base st = Done (tt, st') /\ looped st' xs base n /\ pages st' = pages st /\ nr_free st' = nr_free st.
Proof.
  intros Hl Hne Hlt Hf Hp. set (last := lastd Head (links_of xs)).
  exists (mkPmm (pages st) (added_twice (lnk st) last base) (nr_free st)). split; [|split; [|done]].
  - unfold link_block. mrun. rewrite (list_empty_spec _ _ _ Hl).
    rewrite bool_decide_eq_false_2 by (by destruct xs as [|[??] ?]).
    exact (link_loop_tail base xs st [] fuel Hl Hlt Hne Hf).
  - assert (Hfresh : Link base ∉ Head :: links_of xs).
    { intros [?|[k Hin]%links_of_elem]%elem_of_cons; [done|]. specialize (Hlt _ Hin). cbn in Hlt. lia. }
    assert (Hlast : last <> Link base).
    { intros He. apply Hfresh. rewrite <- He. apply lastd_elem. }
    assert (Hn : nxt (lnk st) last = Head).
    { apply (is_dlist_gap _ _ (links_of xs) []). by rewrite app_nil_r. }
    destruct (added_twice_links (lnk st) last base Hlast Hn) as [Hx Hy]. split; [|done].
    exists (list_add (lnk st) last (Link base)). split; [|done]. rewrite links_of_app.
    apply (list_add_after_dlist (lnk st) Head (links_of xs) []); by rewrite app_nil_r.
Qed.

Lemma first_fit_search_ext fuel n st st' : pages st' = pages st -> (forall x, nxt (lnk st') x = nxt (lnk st) x) ->
  forall le o, first_fit_search fuel le n st = Done (o, st) -> first_fit_search fuel le n st' = Done (o, st').
Proof.
  intros Hp Hn. induction fuel as [|fuel IH]; intros le o; cbn [first_fit_search]; [done|]. mrun. rewrite Hn.
  destruct (bool_decide _); [by intros [= ->]|]. mrun. rewrite Hp.
  destruct (n <=? _); [by intros [= ->]|]. apply IH.
Qed.

Lemma abs_alloc_last n xs base : (forall s k, (s, k) ∈ xs -> k < n) -> fst <$> abs_alloc n (xs ++ [(base, n)]) = Some base.
Proof.
  induction xs as [|[s k] xs IH]; intros Hk; cbn; [by rewrite Z.leb_refl|].
  pose proof (Hk s k ltac:(left)). destruct (Z.leb_spec n k); [lia|].
  assert (IH' := IH ltac:(intros s' k' Hin; apply (Hk s' k'); by right)).
  by destruct (abs_alloc n (xs ++ [(base, n)])) as [[? ?]|].
Qed.

(** An allocation from such a list takes the block and leaves the list as it is. *)
Lemma looped_alloc st xs base n fuel :
  looped st xs base n -> 0 < n <= nr_free st -> (forall s k, (s, k) ∈ xs -> k < n) -> (length xs + 2 <= fuel)%nat ->
  exists st', default_alloc_pages fuel n st = Done (Some base, st') /\ looped st' xs base n /\ nr_free st' = u32 (nr_free st - n).
Proof.
  intros [(l & Hl & Hnx & Hpv) Hsz] Hn Hk Hf. unfold default_alloc_pages.
  rewrite (proj2 (Z.ltb_lt 0 n)) by lia. mrun. destruct (Z.ltb_spec (nr_free st) n); [lia|].
  pose proof (first_fit_search_spec (mkPmm (pages st) l (nr_free st)) n (xs ++ [(base, n)]) [] fuel Hl Hsz
    ltac:(rewrite length_app; cbn; lia)) as Hs.
  rewrite (abs_alloc_last n xs base Hk) in Hs.
  change (lastd Head (links_of [])) with Head in Hs.
  rewrite (first_fit_search_ext fuel n (mkPmm (pages st) l (nr_free st)) st eq_refl Hnx _ _ Hs). cbn.
  pose proof Hl as Hl'. rewrite links_of_app in Hl'.
  assert (Hb : nxt (lnk st) (Link base) = Head) by (rewrite Hnx; exact (is_dlist_nxt _ _ _ _ _ Hl')).
  assert (Hh : prv (lnk st) Head = Link base).
  { rewrite Hpv, decide_False by done. rewrite (is_dlist_last _ _ _ Hl'). apply lastd_snoc. }
  assert (Hpb : prv (lnk st) (Link base) = Link base) by (by rewrite Hpv, decide_True).
  assert (Hsb : property (pages st base) = n) by (apply (Hsz (base, n)), elem_of_app; right; left).
  unfold take_block. mrun. rewrite Hsb, Z.ltb_irrefl. mrun. eexists. split; [reflexivity|]. split; [|done]. split; cbn.
  - exists l. split; [done|]. unfold list_del. rewrite Hpb, Hb. cbn. split; intros x.
    + rewrite <- Hnx. unfold upd. case_decide; [subst; done|done].
    + rewrite <- Hpv. unfold upd. case_decide; [subst; done|done].
  - intros b Hin. unfold upd. case_decide as Hd; [rewrite <- Hd|]; by apply Hsz.
Qed.

(** C39 The loop that links a released block does not stop after adding it at
    the end of a non-empty list: it adds the block a second time, next to
    itself, which breaks its [prev] pointer.  So for every well-formed free list, when a
    block above all free blocks is released that is larger than each of them and not
    larger than all together, the next two allocations of its size, with no release in
    between, are both given that same block. *)
Theorem default_free_pages_tail_double_allocation st xs base n fuel :
  wf st xs -> xs <> [] -> releasable st xs base n ->
  (forall s k, (s, k) ∈ xs -> s + k <= base /\ k < n) -> n <= free_total xs -> (length xs + 2 <= fuel)%nat ->
  exists st1 st2 st3, default_free_pages fuel base n st = Done (tt, st1) /\
    default_alloc_pages fuel n st1 = Done (Some base, st2) /\
    default_alloc_pages fuel n st2 = Done (Some base, st3).
Proof.
  intros Hwf Hne (Hb & Hn & Htot & Hpg & Hd) Habove Hle Hf. pose proof (wf_sorted _ _ Hwf) as Hs.
  destruct (release_pages_spec (Z.to_nat n) st base) as (st0 & Hrel & Hl & Hnf & Hin & Hout);
    [intros i Hi; apply Hpg; unfold in_range in *; lia|]. rewrite Z2Nat.id in Hin, Hout by lia.
  assert (Hlt : forall b, b ∈ xs -> b.1 < base /\ 0 < b.2).
  { intros [s k] Hx. destruct (Habove s k Hx). destruct (blocks_from_elem _ _ _ _ Hs Hx). cbn. lia. }
  set (sta := mkPmm (freed_pages (pages st0) base n) (lnk st0) (u32 (nr_free st0 + n))).
  destruct (link_block_tail sta xs base n fuel) as (st1 & Hlink & Hlo & Hp1 & Hn1); try done.
  { cbn. rewrite Hl. apply (wf_list _ _ Hwf). } { intros b Hx. by apply Hlt. }
  { intros [s k] [Hx|[= -> ->]%list_elem_of_singleton]%elem_of_app; cbn.
    - destruct (Hlt _ Hx) as [Hsb _]. cbn in Hsb. rewrite freed_pages_ne by lia. rewrite Hout by (unfold in_range; lia).
      by destruct (wf_block _ _ Hwf _ Hx).
    - rewrite freed_pages_eq. cbn. pose proof (free_total_nonneg _ _ Hs). apply u32_small. lia. }
  assert (Hfree : nr_free st1 = free_total xs + n).
  { rewrite Hn1. cbn. rewrite Hnf, (wf_free _ _ Hwf). apply u32_small. lia. }
  assert (Hk : forall s k, (s, k) ∈ xs -> k < n) by (intros s k Hx; by apply (Habove s)).
  destruct (looped_alloc st1 xs base n fuel Hlo ltac:(lia) Hk Hf) as (st2 & Ha & Hlo2 & Hn2).
  rewrite Hfree, u32_small in Hn2 by lia.
  destruct (looped_alloc st2 xs base n fuel Hlo2 ltac:(lia) Hk Hf) as (st3 & Ha3 & _).
  exists st1, st2, st3. split; [|done]. unfold default_free_pages. rewrite (proj2 (Z.ltb_lt 0 n)) by lia.
  mstep (assert_true true st eq_refl). mstep Hrel. rewrite head_block_run. fold sta. mstep Hlink.
  destruct Hlo as [(l & Hl' & Hnx & Hpv) Hsz]. rewrite links_of_app in Hl'.
  assert (Hsb : property (pages st1 base) = n) by (apply (Hsz (base, n)), elem_of_app; right; left).
  unfold merge_prev, merge_next. mrun. rewrite Hpv, decide_True by done.
  rewrite bool_decide_eq_false_2 by done. cbn. rewrite Hsb.
  destruct (Z.eqb_spec (base + n) base); [lia|]. mrun. rewrite Hnx.
  by replace (nxt l (Link base)) with Head by (symmetry; exact (is_dlist_nxt _ _ _ _ _ Hl')).
Qed.

(** ** Witnesses: one block of four pages at 4, two reserved pages at 0 *)
Definition sample : pmm :=
  mkPmm (fun i => if i <? 2 then mkPage 0 1 0
                  else if i =? 4 then mkPage 0 2 4 else mkPage 0 0 0)
        (list_add (list_init (mkLinks (fun l => l) (fun l => l)) Head) Head (Link 4)) 4.

Lemma sample_wf : wf sample [(4, 4)].
Proof.
  split; [|cbn; lia| |done|done].
  - apply (list_add_head_dlist _ _ []); [apply list_init_dlist|].
    by intros [?|?%elem_of_nil]%elem_of_cons.
  - intros b [->|?%elem_of_nil]%elem_of_cons; [|done].
    unfold block_ok. cbn. split_and!; [done|done|..]; intros i Hi;
      destruct (Z.ltb_spec i 2); try lia; destruct (Z.eqb_spec i 4); try lia; done.
Qed.

Lemma sample_disjoint base n s k :
  base + n <= 4 -> (s, k) ∈ [(4, 4)] -> s + k <= base \/ base + n <= s.
Proof. intros ? [[= -> ->]|?%elem_of_nil]%elem_of_cons; [lia|done]. Qed.

Lemma default_alloc_pages_witness :
  wf sample [(4, 4)] /\
  exists st', default_alloc_pages 5 3 sample = Done (Some 4, st') /\
    allocation sample st' [(4, 4)] [(7, 1)] 4 3.
Proof.
  split; [exact sample_wf|].
  apply (default_alloc_pages_refines sample [(4, 4)] 3 5 sample_wf); cbn; lia.
Defined.

Lemma sample_releasable : releasable sample [(4, 4)] 2 2.
Proof.
  split_and!; [lia|lia|done| |intros s k; apply sample_disjoint; lia].
  unfold in_range. intros i Hi. cbn. destruct (Z.ltb_spec i 2); [lia|].
  destruct (Z.eqb_spec i 4); [lia|done].
Qed.

Lemma default_free_pages_witness :
  releasable sample [(4, 4)] 2 2 /\
  exists st', default_free_pages 5 2 2 sample = Done (tt, st') /\ wf st' [(2, 6)] /\
    (forall i, covers [(2, 6)] i <-> in_range 2 2 i \/ covers [(4, 4)] i).
Proof.
  pose proof sample_releasable as H.
  split; [exact H|]. apply (default_free_pages_refines sample [(4, 4)] 2 2 5 sample_wf H).
  - cbn. lia.
  - right. exists 4, 4. split; [left|lia].
Defined.

Lemma default_init_memmap_witness :
  exists st', default_init_memmap 5 0 2 sample = Done (tt, st') /\ wf st' [(0, 2); (4, 4)] /\
    same_pages_except sample st' (in_range 0 2).
Proof.
  apply (default_init_memmap_spec sample [(4, 4)] 0 2 5 sample_wf); try done.
  - unfold in_range. intros i Hi. cbn. destruct (Z.ltb_spec i 2); [done|lia].
  - intros s k. apply sample_disjoint. lia.
  - cbn. lia.
  - right. exists 4, 4. split; [left|lia].
Defined.

(** Pages 0 and 2 free, each a block; pages 4 and 5 released and given out twice. *)
Definition two_blocks : pmm :=
  mkPmm (fun i => if i =? 0 then mkPage 0 2 1 else if i =? 2 then mkPage 0 2 1 else mkPage 0 0 0)
        (list_add (list_add (list_init (mkLinks (fun l => l) (fun l => l)) Head) Head (Link 2)) Head (Link 0)) 2.

Lemma two_blocks_wf : wf two_blocks [(0, 1); (2, 1)].
Proof.
  split; [|cbn; lia| |done|done].
  - apply (list_add_head_dlist _ _ [Link 2]); [apply (list_add_head_dlist _ _ []); [apply list_init_dlist|]|];
      apply (bool_decide_unpack _); reflexivity.
  - intros b [->|[->|?%elem_of_nil]%elem_of_cons]%elem_of_cons; [| |done];
      unfold block_ok; cbn; (split_and!; [done|done|..]); intros i Hi; first [lia|replace i with 0 by lia; done|replace i with 2 by lia; done].
Qed.

Lemma default_free_pages_tail_double_allocation_witness :
  result ((default_free_pages 4 4 2 ;; p ← default_alloc_pages 4 2; q ← default_alloc_pages 4 2; mret (p, q)) two_blocks) = Some (Some 4, Some 4) /\
  exists st1 st2 st3, default_free_pages 4 4 2 two_blocks = Done (tt, st1) /\
    default_alloc_pages 4 2 st1 = Done (Some 4, st2) /\ default_alloc_pages 4 2 st2 = Done (Some 4, st3).
Proof.
  split; [vm_compute; reflexivity|].
  apply (default_free_pages_tail_double_allocation two_blocks [(0, 1); (2, 1)] 4 2 4 two_blocks_wf); [done| | |done|cbn; lia].
  - split; [lia|]. split; [lia|]. split; [done|]. split.
    + unfold in_range. intros i Hi. assert (i = 4 \/ i = 5) as [-> | ->] by lia; done.
    + intros s k [[= -> ->]|[[= -> ->]|?%elem_of_nil]%elem_of_cons]%elem_of_cons; [lia|lia|done].
  - intros s k [[= -> ->]|[[= -> ->]|?%elem_of_nil]%elem_of_cons]%elem_of_cons; [lia|lia|done].
Defined.
