(* ===== verification/BestFit.v ===== *)
(** * The best-fit physical page allocator (lab2, kern/mm/best_fit_pmm.c)

    The manager has the state and the release path of the first-fit one
    (DefaultPmm); only the search differs.  It shares the step functions and
    the well-formedness predicate of that file. *)
From S2P Require Import Prelude CList DefaultPmm.

Definition best_fit_init : ST pmm unit :=
  on_list (fun s => list_init s Head) ;; set_nr_free (fun _ => 0).

Definition best_fit_init_memmap (fuel : nat) (base n : Z) : ST pmm unit :=
  assert (0 <? n) ;;
  reserve_pages (Z.to_nat n) base ;;
  on_page base (set_property (u32 n)) ;;
  on_page base SetPageProperty ;;
  set_nr_free (fun nf => nf + n) ;;
  link_block fuel base.

(** The loop keeps the best block so far and its size. *)
Fixpoint best_fit_search (fuel : nat) (le : lnode) (n : Z) (page : option Z) (min_size : Z)
  : ST pmm (option Z) :=
  match fuel with
  | O => no_fuel
  | S fuel' =>
      le ← le_next le;
      if bool_decide (le = Head) then mret page
      else
        p ← page_at (le2page le);
        if (n <=? property p) && (property p <? min_size) then
          best_fit_search fuel' le n (Some (le2page le)) (property p)
        else best_fit_search fuel' le n page min_size
  end.

Definition best_fit_alloc_pages (fuel : nat) (n : Z) : ST pmm (option Z) :=
  assert (0 <? n) ;;
  nf ← get nr_free;
  if nf <? n then mret None
  else
    page ← best_fit_search fuel Head n None (u32 (nf + 1));
    match page with
    | None => mret None
    | Some page => take_block page n ;; mret (Some page)
    end.

Definition best_fit_free_pages (fuel : nat) (base n : Z) : ST pmm unit :=
  assert (0 <? n) ;;
  release_pages (Z.to_nat n) base ;;
  on_page base (set_property (u32 n)) ;;
  on_page base SetPageProperty ;;
  set_nr_free (fun nf => nf + n) ;;
  link_block fuel base ;;
  base ← merge_prev base;
  merge_next base.

Definition best_fit_nr_free_pages : ST pmm Z := get nr_free.

(** ** The abstract best fit *)
Fixpoint abs_best (n : Z) (page : option Z) (min_size : Z) (xs : list block) : option Z :=
  match xs with
  | [] => page
  | (s, k) :: r =>
      if (n <=? k) && (k <? min_size) then abs_best n (Some s) k r
      else abs_best n page min_size r
  end.

Lemma best_fit_search_spec st n rest :
  forall seen fuel page min_size,
  is_dlist (lnk st) Head (links_of (seen ++ rest)) ->
  (forall b, b ∈ rest -> property (pages st b.1) = b.2) ->
  (length rest < fuel)%nat ->
  best_fit_search fuel (lastd Head (links_of seen)) n page min_size st
  = Done (abs_best n page min_size rest, st).
Proof.
  induction rest as [|[s k] rest IH]; intros seen [|fuel] page min_size Hl Hp Hf;
    cbn in Hf; try lia; cbn [best_fit_search abs_best]; mrun.
  - pose proof (is_dlist_gap _ _ (links_of seen) [] ltac:(by rewrite app_nil_r in * )) as [-> _].
    done.
  - pose proof Hl as Hg. rewrite links_of_app, links_of_cons in Hg.
    apply is_dlist_gap in Hg as [-> _]. cbn.
    pose proof (Hp (s, k) ltac:(left)) as Hk. cbn in Hk.
    rewrite bool_decide_eq_false_2 by done. cbn. rewrite Hk.
    assert (Hrest : forall b, b ∈ rest -> property (pages st b.1) = b.2)
      by (intros b Hb; apply Hp; by right).
    specialize (IH (seen ++ [(s, k)]) fuel). rewrite links_of_snoc, <- app_assoc in IH.
    destruct (_ && _); apply IH; auto; lia.
Qed.

(** What the search returns: a block of minimal size, the first such. *)
Definition best_in (n : Z) (xs : list block) (pre : list block) (b : block)
    (post : list block) : Prop :=
  xs = pre ++ b :: post /\ n <= b.2 /\
  (forall c, c ∈ pre -> n <= c.2 -> b.2 < c.2) /\
  (forall c, c ∈ post -> n <= c.2 -> b.2 <= c.2).

Lemma abs_best_spec n xs : forall page min_size,
  (abs_best n page min_size xs = page /\
     forall c, c ∈ xs -> n <= c.2 -> min_size <= c.2) \/
  exists pre b post, best_in n xs pre b post /\ b.2 < min_size /\
    abs_best n page min_size xs = Some b.1.
Proof.
  induction xs as [|[s k] xs IH]; intros page min_size; cbn.
  { left. split; [done|]. by intros c ?%elem_of_nil. }
  destruct (Z.leb_spec n k) as [Hn|Hn], (Z.ltb_spec k min_size) as [Hk|Hk]; cbn.
  1: destruct (IH (Some s) k) as [[-> Hall]|(pre & b & post & (-> & ? & Hpre & Hpost) & Hb & ->)].
  3-5: destruct (IH page min_size) as [[-> Hall]|(pre & b & post & (-> & ? & Hpre & Hpost) & Hb & ->)].
  1: right; exists [], (s, k), xs; unfold best_in; cbn; split_and!; try done.
  1: by intros c ?%elem_of_nil.
  1, 3, 5, 7: right; exists ((s, k) :: pre), b, post; split_and!; [|lia|done];
    split; [done|]; split; [done|]; split; [|done];
    intros c [->|Hin]%elem_of_cons ?; cbn in *; [lia|by apply Hpre].
  all: left; split; [done|]; intros c [->|Hin]%elem_of_cons ?; cbn in *; [lia|by apply Hall].
Qed.

(** [best_fit_alloc_pages] with more fuel than blocks always returns.  It
    fails, changing nothing, exactly when no block has [n] pages; otherwise it
    takes the first of the smallest blocks that have [n] pages, and the
    resulting state is that of a correct allocation. *)
Theorem best_fit_alloc_pages_spec st xs n fuel :
  wf st xs -> 0 < n -> (length xs < fuel)%nat -> free_total xs + 1 < 2 ^ 32 ->
  (best_fit_alloc_pages fuel n st = Done (None, st) /\ forall b, b ∈ xs -> b.2 < n) \/
  exists pre p k post st', best_in n xs pre (p, k) post /\
    best_fit_alloc_pages fuel n st = Done (Some p, st') /\
    allocation st st' xs (pre ++ split_block p k n ++ post) p n.
Proof.
  intros Hwf Hn Hf Hmax. pose proof (wf_sorted _ _ Hwf) as Hs.
  pose proof (free_total_nonneg _ _ Hs) as Hnn.
  assert (Hle : forall b, b ∈ xs -> b.2 <= free_total xs).
  { intros [s k] Hin. by apply (block_le_total 0 xs s k). }
  pose proof (best_fit_search_spec st n xs [] fuel None (u32 (nr_free st + 1)) (wf_list _ _ Hwf)
                ltac:(intros b Hb; by apply (wf_block _ _ Hwf)) Hf) as Hsearch.
  change (lastd Head (links_of [])) with Head in Hsearch.
  unfold best_fit_alloc_pages. destruct (Z.ltb_spec 0 n); [|lia]. mrun.
  rewrite (wf_free _ _ Hwf) in *. rewrite u32_small in * by lia.
  destruct (Z.ltb_spec (free_total xs) n).
  { left. split; [done|]. intros b Hb. specialize (Hle b Hb). lia. }
  rewrite Hsearch.
  destruct (abs_best_spec n xs None (free_total xs + 1)) as
    [[-> Hall]|(pre & [p k] & post & Hbest & Hk & ->)].
  - left. split; [done|]. intros b Hb. destruct (Z.ltb_spec b.2 n); [done|].
    pose proof (Hall b Hb). pose proof (Hle b Hb). lia.
  - right. pose proof Hbest as (-> & Hnk & _). cbn in Hnk, Hk |- *.
    destruct (take_block_allocates st pre p k post n Hwf ltac:(lia)) as (st' & Hrun & Hal).
    exists pre, p, k, post, st'. by rewrite Hrun.
Qed.

(** [best_fit_free_pages] has the effect of the first-fit release: the
    range becomes free, in address order and merged with its neighbours, when
    it does not go to the end of a non-empty list. *)
Theorem best_fit_free_pages_refines st xs base n fuel :
  wf st xs -> releasable st xs base n -> (length xs < fuel)%nat ->
  (xs = [] \/ exists s k, (s, k) ∈ xs /\ base < s) ->
  exists st', best_fit_free_pages fuel base n st = Done (tt, st') /\
    wf st' (abs_free base n xs).
Proof.
  intros. by apply release_spec.
Qed.

Lemma best_fit_alloc_pages_witness :
  free_total [(4, 4)] + 1 < 2 ^ 32 /\
  ((best_fit_alloc_pages 5 3 sample = Done (None, sample) /\ forall b, b ∈ [(4, 4)] -> b.2 < 3) \/
   exists pre p k post st', best_in 3 [(4, 4)] pre (p, k) post /\
    best_fit_alloc_pages 5 3 sample = Done (Some p, st') /\
    allocation sample st' [(4, 4)] (pre ++ split_block p k 3 ++ post) p 3).
Proof.
  split; [done|]. apply (best_fit_alloc_pages_spec sample [(4, 4)] 3 5 sample_wf); [lia|cbn; lia|done].
Defined.

Lemma best_fit_free_pages_witness :
  exists st', best_fit_free_pages 5 2 2 sample = Done (tt, st') /\ wf st' [(2, 6)].
Proof.
  apply (best_fit_free_pages_refines sample [(4, 4)] 2 2 5 sample_wf).
  - apply sample_releasable.
  - cbn. lia.
  - right. exists 4, 4. split; [left|lia].
Defined.
