(* ===== verification/Buddy.v ===== *)
(** * The buddy allocator (lab2, kern/mm/buddy_pmm.c)

    One free list per order and, for every page, the order of the block it was last
    part of.  A page pointer is its index in [pages]; [buddy_order] is indexed from
    [buddy_base]. *)
From S2P Require Import Prelude Libs CList Mem DefaultPmm.

Definition BUDDY_MAX_ORDER : Z := 15.
Definition MAX_BUDDY_PAGES : Z := Z.shiftl 1 BUDDY_MAX_ORDER.

(** [&free_area[i].free_list] and [&pages[p].page_link]. *)
Inductive bnode := Area (i : Z) | Frame (p : Z).
#[export] Instance bnode_eq_dec : EqDecision bnode.
Proof. solve_decision. Defined.
Definition le2frame (le : bnode) : Z := match le with Area _ => -1 | Frame p => p end.

Record buddy := mkBuddy {
  frames : Z -> Page; flists : links bnode; area_free : Z -> Z; buddy_order : Z -> Z; buddy_base : Z }.

Definition set_frames f (b : buddy) := mkBuddy (f (frames b)) (flists b) (area_free b) (buddy_order b) (buddy_base b).
Definition set_flists f (b : buddy) := mkBuddy (frames b) (f (flists b)) (area_free b) (buddy_order b) (buddy_base b).
Definition set_area_free f (b : buddy) := mkBuddy (frames b) (flists b) (f (area_free b)) (buddy_order b) (buddy_base b).
Definition set_orders f (b : buddy) := mkBuddy (frames b) (flists b) (area_free b) (f (buddy_order b)) (buddy_base b).
Definition set_base p (b : buddy) := mkBuddy (frames b) (flists b) (area_free b) (buddy_order b) p.

Definition on_frame (p : Z) (f : Page -> Page) : ST buddy unit :=
  modify (set_frames (fun g => upd g p (f (g p)))).
(** [list_add(&free_area[o].free_list, &p->page_link)], [list_del(le)]. *)
Definition push (o p : Z) : ST buddy unit := modify (set_flists (fun l => list_add l (Area o) (Frame p))).
Definition unlink_frame (le : bnode) : ST buddy unit := modify (set_flists (fun l => list_del l le)).
(** [free_area[o].nr_free += d], an [unsigned int]. *)
Definition add_free (o d : Z) : ST buddy unit := modify (set_area_free (fun g => upd g o (u32 (g o + d)))).
(** [for (i = 0; i < n; i++) buddy_order[i0 + i] = o]. *)
Definition mark (i0 n o : Z) : ST buddy unit := modify (set_orders (fun g => fill g i0 n o)).

(** ** Powers of two *)
Definition is_power_of_2 (n : Z) : bool := Z.land n (u64 (n - 1)) =? 0.

Fixpoint round_up_loop {S} (k : nat) (ret n : Z) : ST S Z :=
  match k with
  | O => no_fuel
  | S k' => if ret <? n then round_up_loop k' (u64 (Z.shiftl ret 1)) n else mret ret
  end.
Definition round_up_power_of_2 {S} (n : Z) : ST S Z := round_up_loop 65 1 n.

(** Past [2^63] the loop would not end: [size] becomes 0. *)
Fixpoint order_loop {S} (k : nat) (order size n : Z) : ST S Z :=
  match k with
  | O => no_fuel
  | S k' => if size <? n then order_loop k' (order + 1) (u64 (Z.shiftl size 1)) n else mret order
  end.
Definition get_order {S} (n : Z) : ST S Z := order_loop 65 0 1 n.

(** ** Setting up *)
Definition orders : list Z := map Z.of_nat (seq 0 16).
Definition buddy_nr_free_pages (b : buddy) : Z := fold_left (fun total i => u64 (total + area_free b i)) orders 0.

Fixpoint init_areas (os : list Z) : ST buddy unit :=
  match os with
  | [] => mret tt
  | i :: os' =>
      modify (set_flists (fun l => list_init l (Area i))) ;;
      modify (set_area_free (fun g => upd g i 0)) ;;
      init_areas os'
  end.
Definition buddy_init : ST buddy unit := init_areas orders ;; mark 0 MAX_BUDDY_PAGES 0.

Fixpoint claim_frames (k : nat) (p : Z) : ST buddy unit :=
  match k with
  | O => mret tt
  | S k' =>
      pg ← get (fun b => frames b p);
      assert (PageReserved pg) ;;
      on_frame p (fun pg => mkPage 0 (set_bit PG_property 0) (property pg)) ;;
      claim_frames k' (p + 1)
  end.

(** [while (max_order >= 0)] from [k - 1] down. *)
Fixpoint max_order_loop (k : nat) (n : Z) : Z :=
  match k with
  | O => -1
  | S k' => if Z.shiftl 1 (Z.of_nat k') <=? n then Z.of_nat k' else max_order_loop k' n
  end.
Definition max_order (n : Z) : Z := let m := max_order_loop 16 n in if m <? 0 then 0 else m.

Definition buddy_init_memmap (base n : Z) : ST buddy unit :=
  assert (0 <? n) ;;
  modify (set_base base) ;;
  claim_frames (Z.to_nat n) base ;;
  let m := max_order n in
  let block_size := Z.shiftl 1 m in
  on_frame base (set_property block_size) ;;
  mark 0 block_size m ;;
  push m base ;;
  add_free m block_size.

(** ** Allocation *)

(** [while (current_order > req_order)]; [k] is the difference. *)
Fixpoint split_loop (k : nat) (page current : Z) : ST buddy unit :=
  match k with
  | O => mret tt
  | S k' =>
      let current := current - 1 in
      let split_size := Z.shiftl 1 current in
      let half := page + split_size in
      on_frame half (set_property split_size) ;;
      on_frame half SetPageProperty ;;
      base ← get buddy_base;
      mark (page - base + split_size) split_size current ;;
      push current half ;;
      add_free current split_size ;;
      split_loop k' page current
  end.

Definition take_frame (page n : Z) : ST buddy (option Z) :=
  on_frame page ClearPageProperty ;;
  on_frame page (set_property n) ;;
  mret (Some page).

(** [while (current_order <= BUDDY_MAX_ORDER)]. *)
Fixpoint alloc_search (k : nat) (current req n : Z) : ST buddy (option Z) :=
  match k with
  | O => mret None
  | S k' =>
      empty ← get (fun b => list_empty (flists b) (Area current));
      if negb empty then
        le ← get (fun b => list_next (flists b) (Area current));
        let page := le2frame le in
        unlink_frame le ;;
        add_free current (- Z.shiftl 1 current) ;;
        split_loop (Z.to_nat (current - req)) page current ;;
        take_frame page n
      else alloc_search k' (current + 1) req n
  end.

Definition buddy_alloc_pages (n : Z) : ST buddy (option Z) :=
  assert (0 <? n) ;;
  if MAX_BUDDY_PAGES <? n then mret None
  else
    req ← get_order n;
    alloc_search (Z.to_nat (BUDDY_MAX_ORDER + 1 - req)) req req n.

(** ** Release *)

(** [while (order < BUDDY_MAX_ORDER)]; returns the final order and block. *)
Fixpoint merge_loop (k : nat) (idx base order : Z) : ST buddy (Z * Z) :=
  match k with
  | O => mret (base, order)
  | S k' =>
      let buddy_idx := Z.lxor idx (Z.shiftl 1 order) in
      b0 ← get buddy_base;
      let other := b0 + buddy_idx in
      pg ← get (fun b => frames b other);
      bo ← get (fun b => buddy_order b buddy_idx);
      if (0 <=? buddy_idx) && PageProperty pg && (bo =? order) then
        unlink_frame (Frame other) ;;
        add_free order (- Z.shiftl 1 order) ;;
        let '(idx, base) := if buddy_idx <? idx then (buddy_idx, other) else (idx, base) in
        let order := order + 1 in
        on_frame base (set_property (Z.shiftl 1 order)) ;;
        mark idx (Z.shiftl 1 order) order ;;
        merge_loop k' idx base order
      else mret (base, order)
  end.

Definition buddy_free_pages (base n : Z) : ST buddy unit :=
  assert (0 <? n) ;;
  b0 ← get buddy_base;
  let idx := base - b0 in
  order ← get_order n;
  on_frame base SetPageProperty ;;
  on_frame base (set_property (Z.shiftl 1 order)) ;;
  mark idx (Z.shiftl 1 order) order ;;
  '(base, order) ← merge_loop (Z.to_nat (BUDDY_MAX_ORDER - order)) idx base order;
  push order base ;;
  add_free order (Z.shiftl 1 order).
