(* ===== verification/BuddySpec.v ===== *)
(** * The buddy allocator, specified

    Aligned blocks of powers of two that tile the managed region, each one free or
    allocated; splitting and merging keep the tiling, and what release does to the
    free lists is an executable function of them. *)
From S2P Require Import Prelude Libs CList Mem DefaultPmm Buddy.

(** ** Buddies *)
Definition buddy_of (h k : Z) : Z := Z.lxor h (2 ^ k).

Lemma lxor_1 m : Z.lxor m 1 = if Z.even m then m + 1 else m - 1.
Proof.
  destruct (Z.even m) eqn:He.
  - symmetry. apply Z.add_nocarry_lxor. apply Z.bits_inj'. intros i Hi. rewrite Z.land_spec, Z.bits_0.
    destruct (decide (i = 0)) as [->|]; [rewrite Z.bit0_odd, <- Z.negb_even, He; done|].
    assert (Z.testbit 1 i = false) as -> by (apply (testbit_high 1 1); lia). apply andb_false_r.
  - assert (He' : Z.even (m - 1) = true) by (rewrite Z.even_sub; by rewrite He).
    assert (Hm : m = Z.lxor (m - 1) 1).
    { rewrite <- Z.add_nocarry_lxor; [lia|]. apply Z.bits_inj'. intros i Hi. rewrite Z.land_spec, Z.bits_0.
      destruct (decide (i = 0)) as [->|]; [rewrite Z.bit0_odd, <- Z.negb_even, He'; done|].
      assert (Z.testbit 1 i = false) as -> by (apply (testbit_high 1 1); lia). apply andb_false_r. }
    rewrite Hm at 1. rewrite Z.lxor_assoc, Z.lxor_nilpotent. by rewrite Z.lxor_0_r.
Qed.

Lemma buddy_of_mul m k : 0 <= k -> buddy_of (2 ^ k * m) k = 2 ^ k * (if Z.even m then m + 1 else m - 1).
Proof.
  intros Hk. unfold buddy_of. rewrite <- lxor_1. rewrite !(Z.mul_comm (2 ^ k)), <- !Z.shiftl_mul_pow2 by done.
  rewrite <- (Z.shiftl_1_l k), <- Z.shiftl_lxor. done.
Qed.

(** [h] is a multiple of [2^k]. *)
Definition aligned (h k : Z) : Prop := exists m, h = 2 ^ k * m.

Lemma buddy_cases h k : 0 <= k -> aligned h k ->
  aligned h (k + 1) /\ buddy_of h k = h + 2 ^ k \/ aligned (h - 2 ^ k) (k + 1) /\ buddy_of h k = h - 2 ^ k.
Proof.
  intros Hk [m ->]. rewrite buddy_of_mul by done. unfold aligned. rewrite Z.pow_add_r by lia.
  destruct (Z.even m) eqn:He.
  - left. apply Z.even_spec in He as [q ->]. split; [exists q; ring|ring].
  - right. rewrite <- Z.negb_odd in He. apply negb_false_iff, Z.odd_spec in He as [q ->]. split; [exists q; ring|ring].
Qed.

Lemma buddy_involutive h k : buddy_of (buddy_of h k) k = h.
Proof. unfold buddy_of. by rewrite Z.lxor_assoc, Z.lxor_nilpotent, Z.lxor_0_r. Qed.

Lemma pow_pos k : 0 <= k -> 0 < 2 ^ k. Proof. intros. apply Z.pow_pos_nonneg; lia. Qed.

Lemma aligned_down h k j : 0 <= j <= k -> aligned h k -> aligned h j.
Proof. intros Hj [m ->]. exists (2 ^ (k - j) * m). rewrite Z.mul_assoc, <- Z.pow_add_r by lia. do 2 f_equal. lia. Qed.

(** Two aligned blocks are disjoint or one is inside the other. *)
Lemma aligned_inside h k b j : 0 <= k <= j -> aligned h k -> aligned b j -> b < h + 2 ^ k -> h < b + 2 ^ j -> b <= h /\ h + 2 ^ k <= b + 2 ^ j.
Proof.
  intros Hk [m ->] Hb Hlt1 Hlt2. pose proof (pow_pos k ltac:(lia)). destruct (aligned_down b j k) as [q ->]; [lia|done|].
  assert (Hp : 2 ^ j = 2 ^ k * 2 ^ (j - k)) by (rewrite <- Z.pow_add_r by lia; f_equal; lia). rewrite Hp in *.
  assert (q <= m) by nia. assert (m + 1 <= q + 2 ^ (j - k)) by nia. split; nia.
Qed.

Section tiles.
  (** The region has [2 ^ top] pages. *)
  Context (top : Z).
  Implicit Types (fl : Z -> list Z) (al : list (Z * Z)).

Definition blk fl al (h k : Z) : Prop := h ∈ fl k \/ (h, k) ∈ al.
Definition total fl al : Z :=
  sum_Z (map (fun k => 2 ^ k * Z.of_nat (length (fl k))) orders) + sum_Z (map (fun b => 2 ^ snd b) al).

Record tiles fl al : Prop := mkTiles {
  ti_ok : forall h k, blk fl al h k -> 0 <= k <= top /\ aligned h k /\ 0 <= h /\ h + 2 ^ k <= 2 ^ top;
  ti_disj : forall h k h' k', blk fl al h k -> blk fl al h' k' -> h <= h' < h + 2 ^ k -> h = h' /\ k = k';
  ti_excl : forall h k, h ∈ fl k -> (h, k) ∉ al;
  ti_free : forall k, NoDup (fl k);
  ti_alloc : NoDup al;
  ti_cover : forall i, 0 <= i < 2 ^ top -> exists h k, blk fl al h k /\ h <= i < h + 2 ^ k;
  ti_total : total fl al = 2 ^ top }.
End tiles.

Lemma sum_upd {B} (f : Z -> B -> Z) (g : Z -> B) k v ks : NoDup ks -> k ∈ ks ->
  sum_Z (map (fun i => f i (upd g k v i)) ks) = sum_Z (map (fun i => f i (g i)) ks) + f k v - f k (g k).
Proof.
  assert (Hne : forall ks, k ∉ ks -> map (fun i => f i (upd g k v i)) ks = map (fun i => f i (g i)) ks).
  { intros l Hl. apply map_ext_in. intros i Hi. rewrite upd_ne; [done|]. intros ->. apply Hl. by apply list_elem_of_In. }
  induction ks as [|i ks IH]; [by intros _ []%elem_of_nil|]. intros [Hi Hnd]%NoDup_cons [->|Hk]%elem_of_cons; cbn.
  - rewrite upd_eq, Hne by done. lia.
  - rewrite upd_ne by (intros ->; done). rewrite IH by done. lia.
Qed.

Lemma orders_elem k : k ∈ orders <-> 0 <= k <= 15.
Proof.
  unfold orders. rewrite list_elem_of_In, in_map_iff. split.
  - intros (i & <- & Hi%in_seq). lia.
  - intros Hk. exists (Z.to_nat k). split; [lia|]. apply in_seq. lia.
Qed.

Lemma orders_nodup : NoDup orders.
Proof. apply (bool_decide_unpack _). vm_compute. done. Qed.

Lemma total_upd fl al k l : 0 <= k <= 15 ->
  total (upd fl k l) al = total fl al + 2 ^ k * (Z.of_nat (length l) - Z.of_nat (length (fl k))).
Proof.
  intros Hk. unfold total. rewrite (sum_upd (fun k l => 2 ^ k * Z.of_nat (length l))); [lia|apply orders_nodup|by apply orders_elem].
Qed.

Section tiling.
  Context (top : Z) (Htop : top <= 15).
  Implicit Types (fl : Z -> list Z) (al : list (Z * Z)).
  Notation tiles := (tiles top).

Lemma ti_range fl al h k : tiles fl al -> blk fl al h k -> 0 <= k <= top /\ 0 <= k <= 15.
Proof. intros Ht Hb. destruct (ti_ok _ _ _ Ht h k Hb) as (? & _). lia. Qed.

(** Only the state of one block changes. *)
Lemma tiles_same fl al fl' al' : tiles fl al -> (forall h k, blk fl' al' h k <-> blk fl al h k) ->
  (forall h k, h ∈ fl' k -> (h, k) ∉ al') -> (forall k, NoDup (fl' k)) -> NoDup al' -> total fl' al' = total fl al ->
  tiles fl' al'.
Proof.
  intros Ht Hb He Hf Ha Hs. split; try done.
  - intros h k Hh%Hb. by apply (ti_ok _ _ _ Ht).
  - intros h k h' k' H1%Hb H2%Hb. by apply (ti_disj _ _ _ Ht).
  - intros i Hi. destruct (ti_cover _ _ _ Ht i Hi) as (h & k & Hh & ?). exists h, k. by rewrite Hb.
  - rewrite Hs. apply Ht.
Qed.

Lemma tiles_take fl al k x h y : tiles fl al -> fl k = x ++ h :: y -> tiles (upd fl k (x ++ y)) ((h, k) :: al).
Proof.
  intros Ht Hfl. assert (Hin : h ∈ fl k) by (rewrite Hfl; apply elem_of_app; right; left).
  destruct (ti_range fl al h k Ht) as [_ Hk]; [by left|].
  pose proof (ti_free _ _ _ Ht k) as Hnd. rewrite Hfl in Hnd. apply NoDup_app in Hnd as (Hx & Hd & [Hhy Hy]%NoDup_cons).
  assert (Hnd : NoDup (x ++ y)) by (apply NoDup_app; split_and!; [done|set_solver|done]).
  assert (Hhxy : h ∉ x ++ y) by (intros [Hh|Hh]%elem_of_app; [apply (Hd h Hh); left|done]).
  apply (tiles_same fl al); try done.
  - intros g j. unfold blk, upd. case_decide as Hj; [subst j|].
    + rewrite Hfl, elem_of_cons, !elem_of_app, elem_of_cons. split; [intros [[?|?]|[[= ->]|?]]; auto|].
      intros [[?|[->|?]]|?]; auto.
    + rewrite elem_of_cons. split; [intros [?|[[= -> ->]|?]]; auto; done|intros [?|?]; auto].
  - intros g j. unfold upd. case_decide as Hj; [subst j|].
    + intros Hg [[= ->]|Ha]%elem_of_cons; [done|]. apply (ti_excl _ _ _ Ht g k); [|done]. rewrite Hfl. set_solver.
    + intros Hg [[= -> ->]|Ha]%elem_of_cons; [done|]. by apply (ti_excl _ _ _ Ht g j).
  - intros j. unfold upd. case_decide; [done|apply Ht].
  - apply NoDup_cons. split; [by apply (ti_excl _ _ _ Ht)|apply Ht].
  - rewrite total_upd by done. unfold total. cbn [map sum_Z snd]. rewrite Hfl, !length_app. cbn [length]. lia.
Qed.

Lemma tiles_release fl al k h : tiles fl ((h, k) :: al) -> tiles (upd fl k (h :: fl k)) al.
Proof.
  intros Ht. destruct (ti_range fl _ h k Ht) as [_ Hk]; [right; left|].
  assert (Hh : h ∉ fl k) by (intros Hh; apply (ti_excl _ _ _ Ht h k Hh); left).
  pose proof (ti_alloc _ _ _ Ht) as [Hna Hnd]%NoDup_cons.
  apply (tiles_same fl ((h, k) :: al)); try done.
  - intros g j. unfold blk, upd. case_decide as Hj; [subst j|].
    + rewrite !elem_of_cons. split; [intros [[->|?]|?]; auto|]. intros [?|[[= ->]|?]]; auto.
    + rewrite elem_of_cons. split; [intros [?|?]; auto|intros [?|[[= -> ->]|?]]; auto; done].
  - intros g j. unfold upd. case_decide as Hj; [subst j|].
    + intros [->|Hg]%elem_of_cons; [done|]. intros Ha. apply (ti_excl _ _ _ Ht g k Hg). by right.
    + intros Hg Ha. apply (ti_excl _ _ _ Ht g j Hg). by right.
  - intros j. unfold upd. case_decide; [apply NoDup_cons; split; [done|apply Ht]|apply Ht].
  - rewrite total_upd by done. unfold total. cbn [map sum_Z snd length]. lia.
Qed.

Lemma tiles_perm fl al al' : al ≡ₚ al' -> tiles fl al -> tiles fl al'.
Proof.
  intros Hp Ht. apply (tiles_same fl al); try done.
  - intros h k. unfold blk. by rewrite Hp.
  - intros h k Hh. rewrite <- Hp. by apply (ti_excl _ _ _ Ht).
  - apply Ht.
  - rewrite <- Hp. apply Ht.
  - unfold total. f_equal. clear Ht. induction Hp; cbn; lia.
Qed.

Lemma ti_overlap fl al h k h' k' i : tiles fl al -> blk fl al h k -> blk fl al h' k' ->
  h <= i < h + 2 ^ k -> h' <= i < h' + 2 ^ k' -> h = h' /\ k = k'.
Proof.
  intros Ht H1 H2 Hi Hi'. destruct (Z.le_ge_cases h h').
  - apply (ti_disj _ _ _ Ht); [done..|lia].
  - destruct (ti_disj _ _ _ Ht h' k' h k); [done..|lia|]. done.
Qed.

(** The other blocks, when one block is singled out. *)
Lemma blk_rest fl al h k g j : tiles fl ((h, k) :: al) ->
  blk fl al g j <-> blk fl ((h, k) :: al) g j /\ (g, j) <> (h, k).
Proof.
  intros Ht. pose proof (ti_alloc _ _ _ Ht) as [Hna _]%NoDup_cons. unfold blk. rewrite elem_of_cons. split.
  - intros [Hg|Ha]; (split; [auto|]); intros [= -> ->]; [|done]. apply (ti_excl _ _ _ Ht h k Hg). left.
  - intros [[Hg|[?|Ha]] Hne]; auto; done.
Qed.

Lemma tiles_halve fl al h k : tiles fl ((h, k) :: al) -> 0 < k ->
  tiles (upd fl (k - 1) (h + 2 ^ (k - 1) :: fl (k - 1))) ((h, k - 1) :: al).
Proof.
  intros Ht Hk. set (m := h + 2 ^ (k - 1)).
  assert (HB : blk fl ((h, k) :: al) h k) by (right; left).
  destruct (ti_ok _ _ _ Ht h k HB) as (Hkt & Hah & Hh0 & Hht).
  assert (Hp : 2 ^ k = 2 * 2 ^ (k - 1)) by (rewrite <- Z.pow_succ_r by lia; f_equal; lia).
  pose proof (pow_pos (k - 1) ltac:(lia)) as Hpos.
  assert (Hnew : forall g j, blk (upd fl (k - 1) (m :: fl (k - 1))) ((h, k - 1) :: al) g j <->
            (g, j) = (h, k - 1) \/ (g, j) = (m, k - 1) \/ blk fl ((h, k) :: al) g j /\ (g, j) <> (h, k)).
  { intros g j. rewrite <- (blk_rest fl al h k g j Ht). unfold blk, upd. rewrite elem_of_cons. case_decide as Hj; [subst j|].
    - rewrite elem_of_cons. split; [intros [[->|?]|[?|?]]; auto|intros [?|[[= ->]|[?|?]]]; auto].
    - split; [intros [?|[?|?]]; auto|]. intros [?|[[= _ ?]|[?|?]]]; auto; done. }
  assert (Hin : forall g j i, blk fl ((h, k) :: al) g j -> (g, j) <> (h, k) -> g <= i < g + 2 ^ j -> h <= i < h + 2 ^ k -> False).
  { intros g j i Hg Hne Hi Hi'. destruct (ti_overlap _ _ g j h k i Ht Hg HB Hi Hi') as [-> ->]. done. }
  assert (Hno : forall g, blk fl ((h, k) :: al) g (k - 1) -> h <= g < h + 2 ^ k -> False).
  { intros g Hg Hi. apply (Hin g (k - 1) g); try done; [intros [= _ ?]; lia|lia]. }
  pose proof (ti_alloc _ _ _ Ht) as [Hna Hnd]%NoDup_cons.
  split.
  - intros g j [[= -> ->]|[[= -> ->]|[Hg _]]]%Hnew; [|subst m|by apply (ti_ok _ _ _ Ht)].
    + split; [lia|]. split; [by apply (aligned_down h k); [lia|]|lia].
    + split; [lia|]. split; [|lia]. destruct (aligned_down h k (k - 1)) as [q ->]; [lia|done|]. exists (q + 1). ring.
  - intros g j g' j' Hg%Hnew Hg'%Hnew Hi.
    destruct Hg as [[= -> ->]|[[= -> ->]|[Hg Hne]]], Hg' as [[= -> ->]|[[= -> ->]|[Hg' Hne']]]; try (by split); try (subst m; lia).
    + exfalso. apply (Hin g' j' g'); try done; [|lia]. destruct (ti_ok _ _ _ Ht g' j' Hg') as (? & _). pose proof (pow_pos j' ltac:(lia)). lia.
    + exfalso. apply (Hin g' j' g'); try done; [|subst m; lia]. destruct (ti_ok _ _ _ Ht g' j' Hg') as (? & _). pose proof (pow_pos j' ltac:(lia)). lia.
    + exfalso. apply (Hin g j h); done || lia.
    + exfalso. apply (Hin g j m); try done. subst m. lia.
    + by apply (ti_disj _ _ _ Ht).
  - intros g j. unfold upd. case_decide as Hj; [subst j|].
    + intros [->|Hg]%elem_of_cons [[= Hm]|Ha]%elem_of_cons; subst m; [lia| | |].
      * apply (Hno (h + 2 ^ (k - 1))); [right; by right|lia].
      * subst g. apply (Hno h); [by left|lia].
      * apply (ti_excl _ _ _ Ht g (k - 1) Hg). by right.
    + intros Hg [[= -> ->]|Ha]%elem_of_cons; [done|]. apply (ti_excl _ _ _ Ht g j Hg). by right.
  - intros j. unfold upd. case_decide; [|apply Ht]. apply NoDup_cons. split; [|apply Ht].
    intros Hm. apply (Hno m); [by left|subst m; lia].
  - apply NoDup_cons. split; [|done]. intros Ha. apply (Hno h); [right; by right|lia].
  - intros i Hi. destruct (ti_cover _ _ _ Ht i Hi) as (g & j & Hg & Hgi). destruct (decide ((g, j) = (h, k))) as [[= -> ->]|Hne].
    + destruct (Z.lt_ge_cases i m); [exists h, (k - 1)|exists m, (k - 1)]; rewrite Hnew; (split; [auto|subst m; lia]).
    + exists g, j. rewrite Hnew. auto.
  - rewrite total_upd by lia. rewrite <- (ti_total _ _ _ Ht). unfold total. cbn [map sum_Z snd length]. lia.
Qed.

Lemma tiles_join fl al l k : tiles fl ((l, k) :: (l + 2 ^ k, k) :: al) -> aligned l (k + 1) -> k < top ->
  tiles fl ((l, k + 1) :: al).
Proof.
  intros Ht Hal Hk. set (al2 := (l, k) :: (l + 2 ^ k, k) :: al) in *.
  assert (H1 : blk fl al2 l k) by (right; left). assert (H2 : blk fl al2 (l + 2 ^ k) k) by (right; right; left).
  destruct (ti_ok _ _ _ Ht _ _ H1) as (Hk1 & _ & Hl0 & _). destruct (ti_ok _ _ _ Ht _ _ H2) as (_ & _ & _ & Hlt).
  assert (Hp : 2 ^ (k + 1) = 2 * 2 ^ k) by (rewrite Z.pow_add_r by lia; lia).
  pose proof (pow_pos k ltac:(lia)) as Hpos.
  pose proof (ti_alloc _ _ _ Ht) as [Hna1 [Hna2 Hnd]%NoDup_cons]%NoDup_cons.
  assert (Hrest : forall g j, blk fl al g j <-> blk fl al2 g j /\ (g, j) <> (l, k) /\ (g, j) <> (l + 2 ^ k, k)).
  { intros g j. unfold blk, al2. rewrite !elem_of_cons. split.
    - intros [Hg|Ha]; (split; [auto|]); split; intros [= -> ->].
      + apply (ti_excl _ _ _ Ht _ _ Hg). left.
      + apply (ti_excl _ _ _ Ht _ _ Hg). right. left.
      + apply Hna1. by right.
      + done.
    - intros ([?|[?|[?|?]]] & ? & ?); auto; done. }
  assert (Hin : forall g j i, blk fl al g j -> g <= i < g + 2 ^ j -> l <= i < l + 2 ^ (k + 1) -> False).
  { intros g j i (Hg & Hn1 & Hn2)%Hrest Hi Hi'. destruct (Z.lt_ge_cases i (l + 2 ^ k)).
    - destruct (ti_overlap _ _ g j l k i Ht Hg H1 Hi) as [-> ->]; [lia|done].
    - destruct (ti_overlap _ _ g j _ k i Ht Hg H2 Hi) as [-> ->]; [lia|done]. }
  assert (Hpj : forall g j, blk fl al g j -> 0 < 2 ^ j).
  { intros g j (Hg & _)%Hrest. destruct (ti_ok _ _ _ Ht g j Hg) as (? & _). apply pow_pos. lia. }
  assert (Hnew : forall g j, blk fl ((l, k + 1) :: al) g j <-> (g, j) = (l, k + 1) \/ blk fl al g j).
  { intros g j. unfold blk. rewrite elem_of_cons. tauto. }
  split.
  - intros g j [[= -> ->]|(Hg & _)%Hrest]%Hnew; [split; [lia|]; split; [done|lia]|by apply (ti_ok _ _ _ Ht)].
  - intros g j g' j' [[= -> ->]|Hg]%Hnew [[= -> ->]|Hg']%Hnew Hi; try done.
    + exfalso. pose proof (Hpj _ _ Hg'). by apply (Hin g' j' g' Hg'); lia.
    + exfalso. by apply (Hin g j l Hg); lia.
    + apply Hrest in Hg as (Hg & _), Hg' as (Hg' & _). by apply (ti_disj _ _ _ Ht).
  - intros g j Hg [[= -> ->]|Ha]%elem_of_cons.
    + assert (Hb : blk fl al l (k + 1)) by by left. apply (Hin l (k + 1) l Hb); lia.
    + apply (ti_excl _ _ _ Ht g j Hg). right. by right.
  - apply Ht.
  - apply NoDup_cons. split; [|done]. intros Ha. assert (Hb : blk fl al l (k + 1)) by by right. apply (Hin l (k + 1) l Hb); lia.
  - intros i Hi. destruct (ti_cover _ _ _ Ht i Hi) as (g & j & Hg & Hgi).
    destruct (decide ((g, j) = (l, k))) as [[= -> ->]|Hn1]; [exists l, (k + 1); rewrite Hnew; split; [by left|lia]|].
    destruct (decide ((g, j) = (l + 2 ^ k, k))) as [[= -> ->]|Hn2]; [exists l, (k + 1); rewrite Hnew; split; [by left|lia]|].
    exists g, j. rewrite Hnew, Hrest. auto.
  - rewrite <- (ti_total _ _ _ Ht). unfold total, al2. cbn [map sum_Z snd]. lia.
Qed.

Lemma tiles_merge fl al h k x y : tiles fl ((h, k) :: al) -> fl k = x ++ buddy_of h k :: y -> k < top ->
  tiles (upd fl k (x ++ y)) ((Z.min h (buddy_of h k), k + 1) :: al).
Proof.
  intros Ht Hfl Hk. destruct (ti_ok _ _ _ Ht h k) as (Hk0 & Hal & _ & _); [right; left|].
  pose proof (tiles_take _ _ _ _ _ _ Ht Hfl) as Ht2. pose proof (pow_pos k ltac:(lia)).
  destruct (buddy_cases h k) as [[Ha Hb]|[Ha Hb]]; [lia|done| |]; rewrite Hb in *.
  - rewrite Z.min_l by lia. apply tiles_join; [|done|done]. eapply tiles_perm; [|exact Ht2]. constructor.
  - rewrite Z.min_r by lia. apply tiles_join; [|done|done]. by replace (h - 2 ^ k + 2 ^ k) with h by lia.
Qed.

(** ** What the page descriptors say *)

(** The head of a free block has its bit set and the order recorded, that of an
    allocated block has the bit clear. *)
Record heads (P : Z -> bool) (ord : Z -> Z) fl al : Prop := mkHeads {
  hd_free : forall h k, h ∈ fl k -> P h = true /\ ord h = k;
  hd_alloc : forall h k, (h, k) ∈ al -> P h = false }.

Lemma buddy_in_range fl al h k : tiles fl ((h, k) :: al) -> k < top -> 0 <= buddy_of h k < 2 ^ top.
Proof.
  intros Ht Hk. destruct (ti_ok _ _ _ Ht h k) as (Hk0 & Hal & Hh & Hht); [right; left|].
  pose proof (pow_pos k ltac:(lia)). destruct (buddy_cases h k) as [[[q Ha] ->]|[[q Ha] ->]]; [lia|done| |].
  - split; [lia|]. rewrite Z.pow_add_r in Ha by lia.
    assert (Ht' : 2 ^ top = 2 ^ k * (2 * 2 ^ (top - k - 1))).
    { replace (2 * 2 ^ (top - k - 1)) with (2 ^ (top - k)); [rewrite <- Z.pow_add_r by lia; f_equal; lia|].
      rewrite <- Z.pow_succ_r by lia. f_equal. lia. }
    rewrite Ht', Ha in *. assert (2 * q + 1 <= 2 * 2 ^ (top - k - 1)) by nia. nia.
  - split; [|lia]. rewrite Z.pow_add_r in Ha by lia. destruct Hal as [m Hm]. assert (q >= 0) by nia. nia.
Qed.

Lemma buddy_test P ord fl al h k : tiles fl ((h, k) :: al) -> heads P ord fl al -> k < top ->
  P (buddy_of h k) && (ord (buddy_of h k) =? k) = bool_decide (buddy_of h k ∈ fl k).
Proof.
  intros Ht [Hf Ha] Hk. pose proof (buddy_in_range _ _ _ _ Ht Hk) as Hbr. set (b := buddy_of h k) in *.
  assert (HB : blk fl ((h, k) :: al) h k) by (right; left).
  destruct (ti_ok _ _ _ Ht h k HB) as (Hk0 & Hal & _ & _). pose proof (pow_pos k ltac:(lia)) as Hpos.
  assert (Hl : exists l, aligned l (k + 1) /\ (h = l /\ b = l + 2 ^ k \/ h = l + 2 ^ k /\ b = l)).
  { destruct (buddy_cases h k) as [[? Hb]|[? Hb]]; [lia|done|exists h; auto|exists (h - 2 ^ k); split; [done|right; unfold b; lia]]. }
  destruct Hl as (l & Hl & Hhb).
  assert (Hp : 2 ^ (k + 1) = 2 * 2 ^ k) by (rewrite Z.pow_add_r by lia; lia).
  assert (Hab : aligned b k) by (destruct Hhb as [[-> ->]|[-> ->]]; [destruct Hal as [q ->]; exists (q + 1); ring|apply (aligned_down l (k + 1)); [lia|done]]).
  destruct (ti_cover _ _ _ Ht b Hbr) as (g & j & Hg & Hgb).
  destruct (ti_ok _ _ _ Ht g j Hg) as (Hj & Hag & _ & _).
  destruct (Z.lt_ge_cases k j) as [Hkj|Hkj].
  { exfalso. destruct (aligned_inside l (k + 1) g j) as [? ?]; [lia|done|done|lia|lia|].
    destruct (ti_overlap _ _ g j h k h Ht Hg HB) as [-> ->]; lia. }
  assert (g = b) as -> by (destruct (aligned_inside g j b k); [lia|done|done|lia|lia|lia]).
  case_bool_decide as Hin.
  - destruct (Hf b k Hin) as [-> ->]. by rewrite Z.eqb_refl.
  - destruct Hg as [Hg|[[= Hbh ->]|Hg]%elem_of_cons].
    + destruct (Hf b j Hg) as [-> ->]. apply Z.eqb_neq. by intros ->.
    + lia.
    + by rewrite (Ha b j Hg).
Qed.
End tiling.

(** ** The free lists *)
Definition link_of (b0 h : Z) : bnode := Frame (b0 + h).

Record lists_ok (l : links bnode) (b0 : Z) (fl : Z -> list Z) : Prop := mkLists {
  lo_list : forall k, 0 <= k <= 15 -> is_dlist l (Area k) (link_of b0 <$> fl k);
  lo_once : forall h j k, h ∈ fl j -> h ∈ fl k -> j = k }.

Lemma link_of_inj b0 : Inj (=) (=) (link_of b0).
Proof. intros g h [= H]. lia. Qed.

Lemma frame_elem b0 h xs k : (Frame (b0 + h) : bnode) ∈ Area k :: (link_of b0 <$> xs) <-> h ∈ xs.
Proof.
  rewrite elem_of_cons, list_elem_of_fmap. split.
  - intros [?|(g & [= Hg] & Hin)]; [done|]. by replace h with g by lia.
  - intros Hin. right. exists h. by split.
Qed.

Lemma lists_push l b0 fl k h : lists_ok l b0 fl -> 0 <= k <= 15 -> (forall j, h ∉ fl j) ->
  lists_ok (list_add l (Area k) (link_of b0 h)) b0 (upd fl k (h :: fl k)).
Proof.
  intros [Hl Ho] Hk Hh. split.
  - intros j Hj. unfold upd. case_decide as Hd; [subst j|].
    + apply list_add_head_dlist; [by apply Hl|]. unfold link_of. rewrite frame_elem. apply Hh.
    + eapply is_dlist_frame; [|by apply Hl]. intros x Hx. eapply list_add_frame; [by apply Hl|].
      intros [->|[->|Hx']%elem_of_cons]%elem_of_cons.
      * unfold link_of in Hx. apply frame_elem in Hx. by apply (Hh j).
      * apply elem_of_cons in Hx as [[= ?]|(g & ? & _)%list_elem_of_fmap]; done.
      * apply list_elem_of_fmap in Hx' as (g & -> & Hg). unfold link_of in Hx. apply frame_elem in Hx. apply Hd. by apply (Ho g).
  - intros g i j. unfold upd. repeat case_decide; subst; try done; rewrite ?elem_of_cons; intros H1 H2.
    + destruct H1 as [->|H1]; [by destruct (Hh j)|by apply (Ho g)].
    + destruct H2 as [->|H2]; [by destruct (Hh i)|by apply (Ho g)].
    + by apply (Ho g).
Qed.

Lemma lists_unlink l b0 fl k x h y : lists_ok l b0 fl -> 0 <= k <= 15 -> fl k = x ++ h :: y ->
  lists_ok (list_del l (link_of b0 h)) b0 (upd fl k (x ++ y)).
Proof.
  intros [Hl Ho] Hk Hfl. pose proof (Hl k Hk) as Hlk. rewrite Hfl, fmap_app in Hlk. cbn in Hlk. split.
  - intros j Hj. unfold upd. case_decide as Hd; [subst j|].
    + rewrite fmap_app. by eapply list_del_dlist.
    + eapply is_dlist_frame; [|by apply Hl]. intros z Hz. eapply list_del_frame; [exact Hlk|].
      intros [->|Hx']%elem_of_cons; [apply elem_of_cons in Hz as [[= ?]|(g & ? & _)%list_elem_of_fmap]; done|].
      assert (Hzk : z ∈ link_of b0 <$> fl k) by (rewrite Hfl, fmap_app; done).
      apply list_elem_of_fmap in Hzk as (g & -> & Hg). unfold link_of in Hz. apply frame_elem in Hz. apply Hd. by apply (Ho g).
  - assert (Hsub : forall g j, g ∈ upd fl k (x ++ y) j -> g ∈ fl j).
    { intros g j. unfold upd. case_decide; [subst j; rewrite Hfl|done]. rewrite !elem_of_app, elem_of_cons. tauto. }
    intros g i j H1%Hsub H2%Hsub. by apply (Ho g).
Qed.

Lemma u32_add_l a d : u32 (u32 a + d) = u32 (a + d).
Proof. unfold u32. by rewrite Zplus_mod_idemp_l. Qed.

(** ** The state of the allocator *)
Definition has_bit (b : buddy) (i : Z) : bool := PageProperty (frames b (buddy_base b + i)).

Section shape.
  Context (top : Z) (Htop : top <= 15).
  Implicit Types (fl : Z -> list Z) (al : list (Z * Z)) (b : buddy).

Record shape b fl al : Prop := mkShape {
  sh_lists : lists_ok (flists b) (buddy_base b) fl;
  sh_count : forall k, 0 <= k <= 15 -> area_free b k = u32 (2 ^ k * Z.of_nat (length (fl k)));
  sh_heads : heads (has_bit b) (buddy_order b) fl al;
  sh_edge : top < 15 -> has_bit b (2 ^ top) && (buddy_order b (2 ^ top) =? top) = false }.

(** The page descriptors of the block in hand are the business of the operation. *)
Lemma shape_frames b fl al h k i f : shape b fl al -> tiles top fl ((h, k) :: al) -> h <= i < h + 2 ^ k ->
  shape (set_frames (fun g => upd g (buddy_base b + i) (f (g (buddy_base b + i)))) b) fl al.
Proof.
  intros [Hl Hc [Hf Ha] He] Ht Hi. destruct (ti_ok _ _ _ Ht h k) as (_ & _ & Hh & Hht); [right; left|].
  assert (Hout : forall g j, blk fl al g j -> g <> i).
  { intros g j Hg ->. apply (blk_rest top fl al h k i j Ht) in Hg as [Hg Hne]. apply Hne.
    destruct (ti_disj _ _ _ Ht h k i j) as [-> ->]; [right; left|done|done|done]. }
  assert (Hb : forall g, g <> i -> has_bit (set_frames (fun g => upd g (buddy_base b + i) (f (g (buddy_base b + i)))) b) g = has_bit b g).
  { intros g Hg. unfold has_bit. cbn. by rewrite upd_ne by lia. }
  split; [done|done| |].
  - split; intros g j Hg; rewrite Hb; [by apply Hf|apply (Hout g j); by left|by apply (Ha g j)|apply (Hout g j); by right].
  - intros Hlt. rewrite Hb by lia. by apply He.
Qed.

Lemma shape_mark b fl al h k i n o : shape b fl al -> tiles top fl ((h, k) :: al) -> h <= i -> i + n <= h + 2 ^ k ->
  shape (set_orders (fun g => fill g i n o) b) fl al.
Proof.
  intros [Hl Hc [Hf Ha] He] Ht Hi Hn. destruct (ti_ok _ _ _ Ht h k) as (_ & _ & Hh & Hht); [right; left|].
  split; [done|done| |].
  - split; [|done]. intros g j Hg. split; [by apply (Hf g j)|]. cbn. rewrite fill_out; [by apply (Hf g j)|].
    assert (Hb : blk fl al g j) by by left. apply (blk_rest top fl al h k g j Ht) in Hb as [Hb Hne].
    destruct (Z.lt_ge_cases g i), (Z.lt_ge_cases g (i + n)); try lia.
    exfalso. apply Hne. destruct (ti_disj _ _ _ Ht h k g j) as [-> ->]; [right; left|done|lia|done].
  - intros Hlt. cbn. rewrite fill_out by lia. by apply He.
Qed.

Definition pushed k p b :=
  set_area_free (fun g => upd g k (u32 (g k + 2 ^ k))) (set_flists (fun l => list_add l (Area k) (Frame p)) b).
Definition pulled k p b :=
  set_area_free (fun g => upd g k (u32 (g k + - 2 ^ k))) (set_flists (fun l => list_del l (Frame p)) b).

Lemma shape_push b fl al h k : shape b fl al -> 0 <= k <= 15 -> (forall j, h ∉ fl j) -> has_bit b h = true -> buddy_order b h = k ->
  shape (pushed k (buddy_base b + h) b) (upd fl k (h :: fl k)) al.
Proof.
  intros [Hl Hc [Hf Ha] He] Hk Hh Hb Ho. split.
  - by apply lists_push.
  - intros j Hj. cbn. unfold upd. case_decide as Hd; [subst j|by apply Hc]. rewrite Hc by done. rewrite u32_add_l. f_equal. cbn [length]. lia.
  - split; [|done]. intros g j. unfold upd. case_decide as Hd; [subst j|by apply Hf].
    intros [->|Hg]%elem_of_cons; [by split|by apply Hf].
  - done.
Qed.

Lemma shape_pull b fl al h k x y : shape b fl al -> 0 <= k <= 15 -> fl k = x ++ h :: y ->
  shape (pulled k (buddy_base b + h) b) (upd fl k (x ++ y)) al.
Proof.
  intros [Hl Hc [Hf Ha] He] Hk Hfl. split.
  - by eapply lists_unlink.
  - intros j Hj. cbn. unfold upd. case_decide as Hd; [subst j|by apply Hc]. rewrite Hc by done. rewrite u32_add_l, Hfl, !length_app. f_equal.
    cbn [length]. lia.
  - split; [|done]. intros g j. unfold upd. case_decide as Hd; [subst j|by apply Hf]. intros Hg. apply Hf. rewrite Hfl. set_solver.
  - done.
Qed.

Lemma shape_hold b fl al h k : shape b fl ((h, k) :: al) -> shape b fl al.
Proof. intros [Hl Hc [Hf Ha] He]. split; try done. split; [done|]. intros g j Hg. apply (Ha g j). by right. Qed.

Lemma shape_give b fl al h k : shape b fl al -> has_bit b h = false -> shape b fl ((h, k) :: al).
Proof. intros [Hl Hc [Hf Ha] He] Hb. split; try done. split; [done|]. intros g j [[= -> ->]|Hg]%elem_of_cons; [done|by apply (Ha g j)]. Qed.

(** ** Orders *)
Lemma order_loop_run {S} (n : Z) (s : S) : n <= 2 ^ 63 -> forall k o, 0 <= o -> (o = 0 \/ 2 ^ (o - 1) < n) -> 64 <= Z.of_nat k + o ->
  order_loop (Datatypes.S k) o (2 ^ o) n s = Done (Z.max o (Z.log2_up n), s).
Proof.
  intros Hn. induction k as [|k IH]; intros o Ho Hlt Hk.
  - destruct Hlt as [->|Hlt]; [lia|].  exfalso. assert (2 ^ 63 <= 2 ^ (o - 1)) by (apply Z.pow_le_mono_r; lia). lia.
  - cbn [order_loop]. destruct (Z.ltb_spec (2 ^ o) n) as [Hon|Hon].
    + assert (o < 63) by (apply (Z.pow_lt_mono_r_iff 2); lia).
      assert (Hs : u64 (Z.shiftl (2 ^ o) 1) = 2 ^ (o + 1)).
      { rewrite Z.shiftl_mul_pow2, Z.pow_add_r by lia. apply u64_small.
        assert (2 ^ o <= 2 ^ 62) by (apply Z.pow_le_mono_r; lia). pose proof (pow_pos o Ho). lia. }
      rewrite Hs. change (order_loop (Datatypes.S k) (o + 1) (2 ^ (o + 1)) n s = Done (Z.max o (Z.log2_up n), s)).
      rewrite IH; [|lia|right; by replace (o + 1 - 1) with o by lia|lia].
      do 2 f_equal. pose proof (Z.log2_up_lt_pow2 n o) as Hl. destruct (Z.le_gt_cases (Z.log2_up n) o); [|lia].
      exfalso. destruct (decide (n <= 0)); [pose proof (pow_pos o Ho); lia|]. assert (o < Z.log2_up n) by (apply Z.log2_up_lt_pow2; lia). lia.
    + change (Done (o, s) = Done (Z.max o (Z.log2_up n), s)). do 2 f_equal. assert (Z.log2_up n <= o); [|lia]. destruct (decide (n <= 0)); [rewrite Z.log2_up_eqn0; lia|].
      by apply Z.log2_up_le_pow2; lia.
Qed.

Lemma get_order_run {S} (n : Z) (s : S) : n <= 2 ^ 63 -> get_order n s = Done (Z.log2_up n, s).
Proof.
  intros Hn. unfold get_order. change 1 with (2 ^ 0). rewrite (order_loop_run n s Hn 64 0) by lia.
  pose proof (Z.log2_up_nonneg n). by rewrite Z.max_r.
Qed.

(** ** Allocation *)

(** Halve the block at [h] from order [cur], [k] times; the upper halves are free. *)
Fixpoint abs_split (k : nat) (h cur : Z) fl : Z -> list Z :=
  match k with
  | O => fl
  | S k' => abs_split k' h (cur - 1) (upd fl (cur - 1) (h + 2 ^ (cur - 1) :: fl (cur - 1)))
  end.

Lemma not_free fl al h k : tiles top fl ((h, k) :: al) -> forall i j, h <= i < h + 2 ^ k -> i ∉ fl j.
Proof.
  intros Ht i j Hi Hin. assert (HB : blk fl al i j) by by left. apply (blk_rest top fl al h k i j Ht) in HB as [HB Hne].
  apply Hne. destruct (ti_disj _ _ _ Ht h k i j) as [-> ->]; [right; left|done|done|done].
Qed.

Lemma split_loop_run al h (b0 : Z) : forall k cur fl b, tiles top fl ((h, cur) :: al) -> shape b fl al -> buddy_base b = b0 ->
  Z.of_nat k <= cur -> exists b', split_loop k (b0 + h) cur b = Done (tt, b') /\
    tiles top (abs_split k h cur fl) ((h, cur - Z.of_nat k) :: al) /\ shape b' (abs_split k h cur fl) al /\ buddy_base b' = b0.
Proof.
  induction k as [|k IH]; intros cur fl b Ht Hs Hb Hk.
  { exists b. cbn. by rewrite Z.sub_0_r. }
  destruct (ti_ok _ _ _ Ht h cur) as (Hct & Hal & Hh & Hht); [right; left|].
  assert (Hp : 2 ^ cur = 2 * 2 ^ (cur - 1)) by (rewrite <- Z.pow_succ_r by lia; f_equal; lia).
  pose proof (pow_pos (cur - 1) ltac:(lia)) as Hpos.
  cbn [split_loop abs_split]. rewrite Z.shiftl_1_l. set (c := cur - 1) in *. set (m := h + 2 ^ c).
  replace (b0 + h + 2 ^ c) with (b0 + m) by (unfold m; lia). subst b0.
  set (b1 := set_frames (fun g => upd g (buddy_base b + m) (set_property (2 ^ c) (g (buddy_base b + m)))) b).
  assert (Hs1 : shape b1 fl al) by (apply (shape_frames b fl al h cur m _ Hs Ht); unfold m; lia).
  set (b2 := set_frames (fun g => upd g (buddy_base b1 + m) (SetPageProperty (g (buddy_base b1 + m)))) b1).
  assert (Hs2 : shape b2 fl al) by (apply (shape_frames b1 fl al h cur m _ Hs1 Ht); unfold m; lia).
  set (b3 := set_orders (fun g => fill g m (2 ^ c) c) b2).
  assert (Hs3 : shape b3 fl al) by (apply (shape_mark b2 fl al h cur m _ c Hs2 Ht); unfold m; lia).
  assert (Hs4 : shape (pushed c (buddy_base b3 + m) b3) (upd fl c (m :: fl c)) al).
  { apply shape_push; [done|lia|intros j; apply (not_free fl al h cur Ht); unfold m; lia| |].
    - unfold has_bit. cbn. rewrite upd_eq. apply set_bit_spec; done.
    - cbn. apply fill_in. lia. }
  destruct (IH c (upd fl c (m :: fl c)) (pushed c (buddy_base b3 + m) b3)) as (b' & Hrun & Ht' & Hs' & Hb'); [|done|done|lia|].
  { by apply tiles_halve; [done|..|lia]. }
  assert (Hck : cur - Z.of_nat (S k) = c - Z.of_nat k) by lia. rewrite Hck.
  exists b'. split; [|done]. rewrite <- Hrun.
  mstep (eq_refl : on_frame (buddy_base b + m) (set_property (2 ^ c)) b = Done (tt, b1)).
  mstep (eq_refl : on_frame (buddy_base b + m) SetPageProperty b1 = Done (tt, b2)).
  mstep (eq_refl : get buddy_base b2 = Done (buddy_base b, b2)).
  by replace (buddy_base b + h - buddy_base b + 2 ^ c) with m by (unfold m; lia).
Qed.

Definition buddy_ok b fl al : Prop := tiles top fl al /\ shape b fl al.

(** The block at [h] was taken from the list of order [j], split down to [req] and
    is allocated. *)
Definition taken b b' fl al (req j h : Z) : Prop :=
  exists t, fl j = h :: t /\ buddy_base b' = buddy_base b /\
    buddy_ok b' (abs_split (Z.to_nat (j - req)) h j (upd fl j t)) ((h, req) :: al).

Lemma take_frame_run b fl al req n j h t : buddy_ok b fl al -> 0 <= req <= j -> j <= 15 -> fl j = h :: t ->
  exists b', (unlink_frame (Frame (buddy_base b + h)) ;; add_free j (- Z.shiftl 1 j) ;;
    split_loop (Z.to_nat (j - req)) (buddy_base b + h) j ;; take_frame (buddy_base b + h) n) b =
    Done (Some (buddy_base b + h), b') /\ taken b b' fl al req j h.
Proof.
  intros [Ht Hs] Hr Hj Hfl. rewrite Z.shiftl_1_l.
  pose proof (tiles_take top Htop fl al j [] h t Ht Hfl) as Ht1.
  pose proof (shape_pull b fl al h j [] t Hs ltac:(lia) Hfl) as Hs1. cbn [app] in Ht1, Hs1.
  destruct (split_loop_run al h (buddy_base b) (Z.to_nat (j - req)) j (upd fl j t) (pulled j (buddy_base b + h) b))
    as (b2 & Hrun & Ht2 & Hs2 & Hb2); [done|done|done|lia|].
  replace (j - Z.of_nat (Z.to_nat (j - req))) with req in Ht2 by lia.
  set (fl2 := abs_split (Z.to_nat (j - req)) h j (upd fl j t)) in *.
  destruct (ti_ok _ _ _ Ht2 h req) as (Hreq & _ & _ & _); [right; left|]. pose proof (pow_pos req ltac:(lia)) as Hpos.
  set (b3 := set_frames (fun g => upd g (buddy_base b2 + h) (ClearPageProperty (g (buddy_base b2 + h)))) b2).
  set (b4 := set_frames (fun g => upd g (buddy_base b3 + h) (set_property n (g (buddy_base b3 + h)))) b3).
  assert (Hs3 : shape b3 fl2 al) by (apply (shape_frames b2 fl2 al h req h _ Hs2 Ht2); lia).
  assert (Hs4 : shape b4 fl2 al) by (apply (shape_frames b3 fl2 al h req h _ Hs3 Ht2); lia).
  exists b4. split.
  - mstep (eq_refl : unlink_frame (Frame (buddy_base b + h)) b = Done (tt, set_flists (fun l => list_del l (Frame (buddy_base b + h))) b)).
    mstep (eq_refl : add_free j (- 2 ^ j) (set_flists (fun l => list_del l (Frame (buddy_base b + h))) b) = Done (tt, pulled j (buddy_base b + h) b)).
    mstep Hrun. rewrite <- Hb2. done.
  - exists t. split; [done|]. split; [done|]. split; [done|]. apply shape_give; [done|].
    unfold has_bit. cbn. rewrite !upd_eq. apply clear_bit_spec; done.
Qed.

Lemma alloc_search_run b fl al req n : buddy_ok b fl al -> 0 <= req -> forall k cur, req <= cur -> cur + Z.of_nat k = 16 ->
  (alloc_search k cur req n b = Done (None, b) /\ forall j, cur <= j <= 15 -> fl j = []) \/
  exists j h b', alloc_search k cur req n b = Done (Some (buddy_base b + h), b') /\ cur <= j <= 15 /\
    (forall i, cur <= i < j -> fl i = []) /\ taken b b' fl al req j h.
Proof.
  intros Hok Hr. induction k as [|k IH]; intros cur Hc Hk; [left; split; [done|lia]|]. cbn [alloc_search].
  pose proof (lo_list _ _ _ (sh_lists _ _ _ (proj2 Hok)) cur ltac:(lia)) as Hl.
  mstep (eq_refl : get (fun b => list_empty (flists b) (Area cur)) b = Done (list_empty (flists b) (Area cur), b)).
  rewrite (list_empty_spec _ _ _ Hl). destruct (fl cur) as [|h t] eqn:Hfl; cbn [fmap list_fmap].
  - rewrite bool_decide_eq_true_2 by done. cbn [negb].
    destruct (IH (cur + 1)) as [[Hrun Hall]|(j & h & b' & Hrun & Hj & Hall & Hx)]; [lia|lia| |].
    + left. split; [done|]. intros j Hj. destruct (decide (j = cur)) as [->|]; [done|]. apply Hall. lia.
    + right. exists j, h, b'. split; [done|]. split; [lia|]. split; [|done]. intros i Hi.
      destruct (decide (i = cur)) as [->|]; [done|]. apply Hall. lia.
  - rewrite bool_decide_eq_false_2 by done. cbn [negb]. right.
    mstep (eq_refl : get (fun b => list_next (flists b) (Area cur)) b = Done (nxt (flists b) (Area cur), b)).
    rewrite (is_dlist_first _ _ _ Hl). cbn [fmap list_fmap headd le2frame link_of].
    destruct (take_frame_run b fl al req n cur h t Hok) as (b' & Hrun & Hx); [lia|lia|done|].
    exists cur, h, b'. split; [exact Hrun|]. split; [lia|]. split; [lia|done].
Qed.

(** ** Release *)

(** Merge the block at [h] with its buddy while that is a free block of the same
    order. *)
Fixpoint abs_merge (k : nat) (h o : Z) fl : Z * Z * (Z -> list Z) :=
  match k with
  | O => (h, o, fl)
  | S k' =>
      let g := buddy_of h o in
      if bool_decide (g ∈ fl o) then abs_merge k' (Z.min h g) (o + 1) (upd fl o (filter (fun x => x <> g) (fl o)))
      else (h, o, fl)
  end.
Definition abs_buddy_free (h o : Z) fl : Z -> list Z :=
  let '(h', o', fl') := abs_merge (Z.to_nat (15 - o)) h o fl in upd fl' o' (h' :: fl' o').

Lemma filter_ne (g : Z) x y : g ∉ x -> g ∉ y -> filter (fun z => z <> g) (x ++ g :: y) = x ++ y.
Proof.
  assert (Hid : forall l : list Z, g ∉ l -> filter (fun z => z <> g) l = l).
  { induction l as [|a l IH]; [done|]. intros [Ha Hl]%not_elem_of_cons. rewrite filter_cons_True by done. by rewrite IH. }
  intros Hx Hy. rewrite filter_app, filter_cons_False by tauto. by rewrite !Hid.
Qed.

Lemma merge_test b fl al h o : tiles top fl ((h, o) :: al) -> shape b fl al -> o < 15 ->
  (0 <=? buddy_of h o) && has_bit b (buddy_of h o) && (buddy_order b (buddy_of h o) =? o) = bool_decide (buddy_of h o ∈ fl o).
Proof.
  intros Ht Hs Ho. destruct (ti_ok _ _ _ Ht h o) as (Hot & Hal & Hh & Hht); [right; left|].
  destruct (decide (o = top)) as [->|].
  - assert (h = 0) as -> by lia.
    assert (Hb : buddy_of 0 top = 2 ^ top) by (unfold buddy_of; apply Z.lxor_0_l). rewrite Hb.
    rewrite <- andb_assoc, (sh_edge _ _ _ Hs) by done. rewrite andb_false_r. symmetry. apply bool_decide_eq_false_2.
    intros Hin. destruct (ti_ok _ _ _ Ht (2 ^ top) top) as (_ & _ & _ & Hr); [by left|]. pose proof (pow_pos top ltac:(lia)). lia.
  - pose proof (buddy_in_range top Htop fl al h o Ht ltac:(lia)) as Hr. rewrite (proj2 (Z.leb_le _ _)) by lia. cbn [andb].
    apply (buddy_test top Htop _ _ fl al h o Ht (sh_heads _ _ _ Hs)). lia.
Qed.

Lemma merge_loop_run al : forall k h o fl b, tiles top fl ((h, o) :: al) -> shape b fl al -> has_bit b h = true -> buddy_order b h = o ->
  o + Z.of_nat k = 15 -> let '(h', o', fl') := abs_merge k h o fl in
  exists b', merge_loop k h (buddy_base b + h) o b = Done ((buddy_base b + h', o'), b') /\ tiles top fl' ((h', o') :: al) /\
    shape b' fl' al /\ has_bit b' h' = true /\ buddy_order b' h' = o' /\ buddy_base b' = buddy_base b.
Proof.
  induction k as [|k IH]; intros h o fl b Ht Hs Hb Ho Hk; [by exists b|]. cbn [abs_merge merge_loop]. rewrite !Z.shiftl_1_l.
  change (Z.lxor h (2 ^ o)) with (buddy_of h o). set (g := buddy_of h o).
  mstep (eq_refl : get buddy_base b = Done (buddy_base b, b)).
  mstep (eq_refl : get (fun b' => frames b' (buddy_base b + g)) b = Done (frames b (buddy_base b + g), b)).
  mstep (eq_refl : get (fun b => buddy_order b g) b = Done (buddy_order b g, b)).
  change (PageProperty (frames b (buddy_base b + g))) with (has_bit b g).
  pose proof (merge_test b fl al h o Ht Hs ltac:(lia)) as Htest. fold g in Htest. rewrite Htest. clear Htest. case_bool_decide as Hg; [|by exists b].
  destruct (ti_ok _ _ _ Ht h o) as (Hot & Hal & Hh & Hht); [right; left|].
  destruct (ti_ok _ _ _ Ht g o) as (_ & _ & Hg0 & Hgt); [by left|].
  destruct (hd_free _ _ _ _ (sh_heads _ _ _ Hs) g o Hg) as [Hgb _].
  assert (Hgh : g <> h) by (intros Heq; apply (ti_excl _ _ _ Ht g o Hg); rewrite Heq; left).
  assert (o < top).
  { destruct (decide (o = top)) as [->|]; [|lia]. lia. }
  pose proof Hg as Hsplit. apply list_elem_of_split in Hsplit as (x & y & Hfl).
  pose proof (ti_free _ _ _ Ht o) as Hnd. rewrite Hfl in Hnd. apply NoDup_app in Hnd as (_ & Hd & [Hgy _]%NoDup_cons).
  assert (Hgx : g ∉ x) by (intros Hx; apply (Hd g Hx); left).
  rewrite Hfl, filter_ne by done.
  pose proof (tiles_merge top Htop fl al h o x y Ht Hfl ltac:(done)) as Ht1. fold g in Ht1.
  pose proof (shape_pull b fl al g o x y Hs ltac:(lia) Hfl) as Hs1.
  set (fl1 := upd fl o (x ++ y)) in *. set (l := Z.min h g) in *. set (b1 := pulled o (buddy_base b + g) b) in *.
  pose proof (pow_pos (o + 1) ltac:(lia)) as Hpos.
  set (b2 := set_frames (fun q => upd q (buddy_base b1 + l) (set_property (2 ^ (o + 1)) (q (buddy_base b1 + l)))) b1).
  set (b3 := set_orders (fun q => fill q l (2 ^ (o + 1)) (o + 1)) b2).
  assert (Hs2 : shape b2 fl1 al) by (apply (shape_frames b1 fl1 al l (o + 1) l _ Hs1 Ht1); lia).
  assert (Hs3 : shape b3 fl1 al) by (apply (shape_mark b2 fl1 al l (o + 1) l _ _ Hs2 Ht1); lia).
  specialize (IH l (o + 1) fl1 b3 Ht1 Hs3). destruct (abs_merge k l (o + 1) fl1) as [[h' o'] fl'].
  assert (Hlb : has_bit b l = true) by (unfold l; destruct (Z.min_spec h g) as [[_ ->]|[_ ->]]; done).
  destruct IH as (b' & Hrun & Hx); [| |lia|].
  - unfold has_bit. cbn. rewrite upd_eq. exact Hlb.
  - cbn. apply fill_in. lia.
  - change (buddy_base b3) with (buddy_base b) in Hrun. exists b'. split; [|exact Hx]. rewrite <- Hrun.
    mstep (eq_refl : unlink_frame (Frame (buddy_base b + g)) b = Done (tt, set_flists (fun l => list_del l (Frame (buddy_base b + g))) b)).
    mstep (eq_refl : add_free o (- 2 ^ o) (set_flists (fun l => list_del l (Frame (buddy_base b + g))) b) = Done (tt, b1)).
    assert (Hm : (if g <? h then (g, buddy_base b + g) else (h, buddy_base b + h)) = (l, buddy_base b + l)).
    { unfold l. destruct (Z.ltb_spec g h); [by rewrite Z.min_r by lia|by rewrite Z.min_l by lia]. }
    rewrite Hm. done.
Qed.

Lemma buddy_free_run b fl al al' h o n : buddy_ok b fl al -> al ≡ₚ (h, o) :: al' -> 0 < n <= 2 ^ 63 -> Z.log2_up n = o ->
  exists b', buddy_free_pages (buddy_base b + h) n b = Done (tt, b') /\ buddy_ok b' (abs_buddy_free h o fl) al' /\
    buddy_base b' = buddy_base b.
Proof.
  intros [Ht Hs] Hp Hn Ho. apply (tiles_perm top fl al _ Hp) in Ht.
  assert (Hs0 : shape b fl al').
  { destruct Hs as [Hl Hc [Hf Ha] He]. split; try done. split; [done|]. intros g j Hg. apply (Ha g j). rewrite Hp. by right. }
  destruct (ti_ok _ _ _ Ht h o) as (Hot & Hal & Hh & Hht); [right; left|]. pose proof (pow_pos o ltac:(lia)) as Hpos.
  unfold buddy_free_pages. rewrite (bind_Done _ _ _ _ _ (assert_true _ b (proj2 (Z.ltb_lt 0 n) ltac:(lia)))).
  mstep (eq_refl : get buddy_base b = Done (buddy_base b, b)). cbn [fst snd].
  rewrite (bind_Done _ _ _ _ _ (get_order_run n b ltac:(lia))). rewrite Ho, !Z.shiftl_1_l.
  set (b1 := set_frames (fun q => upd q (buddy_base b + h) (SetPageProperty (q (buddy_base b + h)))) b).
  set (b2 := set_frames (fun q => upd q (buddy_base b1 + h) (set_property (2 ^ o) (q (buddy_base b1 + h)))) b1).
  set (b3 := set_orders (fun q => fill q h (2 ^ o) o) b2).
  assert (Hs1 : shape b1 fl al') by (apply (shape_frames b fl al' h o h _ Hs0 Ht); lia).
  assert (Hs2 : shape b2 fl al') by (apply (shape_frames b1 fl al' h o h _ Hs1 Ht); lia).
  assert (Hs3 : shape b3 fl al') by (apply (shape_mark b2 fl al' h o h _ _ Hs2 Ht); lia).
  mstep (eq_refl : on_frame (buddy_base b + h) SetPageProperty b = Done (tt, b1)).
  mstep (eq_refl : on_frame (buddy_base b + h) (set_property (2 ^ o)) b1 = Done (tt, b2)).
  replace (buddy_base b + h - buddy_base b) with h by lia.
  mstep (eq_refl : mark h (2 ^ o) o b2 = Done (tt, b3)).
  pose proof (merge_loop_run al' (Z.to_nat (BUDDY_MAX_ORDER - o)) h o fl b3 Ht Hs3) as Hm. unfold abs_buddy_free.
  change (Z.to_nat (15 - o)) with (Z.to_nat (BUDDY_MAX_ORDER - o)).
  destruct (abs_merge (Z.to_nat (BUDDY_MAX_ORDER - o)) h o fl) as [[h' o'] fl'].
  destruct Hm as (b4 & Hrun & Ht4 & Hs4 & Hb4 & Ho4 & Hbase).
  - unfold has_bit. cbn. rewrite !upd_eq. apply set_bit_spec; done.
  - cbn. apply fill_in. lia.
  - unfold BUDDY_MAX_ORDER. lia.
  - change (buddy_base b3) with (buddy_base b) in *. mstep Hrun.
    destruct (ti_ok _ _ _ Ht4 h' o') as (Hot' & _); [right; left|].
    assert (Hpos' : 0 < 2 ^ o') by (apply pow_pos; lia).
    exists (pushed o' (buddy_base b4 + h') b4). split; [rewrite <- Hbase, Z.shiftl_1_l; done|]. split; [split|done].
    + by apply tiles_release.
    + apply shape_push; try done; [lia|]. intros j. apply (not_free fl' al' h' o' Ht4). lia.
Qed.

(** ** Free blocks whose buddies are not free *)
Definition merged fl : Prop := forall h k, h ∈ fl k -> buddy_of h k ∉ fl k.

Lemma buddy_of_ne h k : 0 <= k -> aligned h k -> buddy_of h k <> h.
Proof. intros Hk Ha. pose proof (pow_pos k Hk). destruct (buddy_cases h k Hk Ha) as [[_ ->]|[_ ->]]; lia. Qed.

Lemma merged_push fl h k : merged fl -> buddy_of h k ∉ fl k -> buddy_of h k <> h -> merged (upd fl k (h :: fl k)).
Proof.
  intros Hm Hh Hne g j. unfold upd. case_decide as Hj; [subst j|by apply Hm].
  intros [->|Hg]%elem_of_cons [Heq|Hin]%elem_of_cons; [done|done| |by apply (Hm g k)].
  apply Hh. by rewrite <- Heq, buddy_involutive.
Qed.

Lemma merged_sub fl k xs : merged fl -> xs ⊆ fl k -> merged (upd fl k xs).
Proof.
  intros Hm Hs g j. unfold upd. case_decide as Hj; [subst j|by apply Hm].
  intros Hg%Hs Hb%Hs. by apply (Hm g k).
Qed.

Lemma half_buddy h c : 0 <= c -> aligned h (c + 1) -> buddy_of h c = h + 2 ^ c.
Proof.
  intros Hc [m ->]. rewrite Z.pow_add_r by lia. replace (2 ^ c * 2 ^ 1 * m) with (2 ^ c * (2 * m)) by ring.
  rewrite buddy_of_mul by done. rewrite Z.even_mul. cbn [Z.even orb]. ring.
Qed.

Lemma merged_split al h : forall k cur fl, tiles top fl ((h, cur) :: al) -> Z.of_nat k <= cur -> merged fl -> merged (abs_split k h cur fl).
Proof.
  induction k as [|k IH]; intros cur fl Ht Hk Hm; [done|]. cbn [abs_split].
  destruct (ti_ok _ _ _ Ht h cur) as (Hct & Hal & _ & _); [right; left|]. pose proof (pow_pos (cur - 1) ltac:(lia)) as Hpos.
  apply IH; [by apply tiles_halve; [done|..|lia]|lia|].
  assert (Hb : buddy_of h (cur - 1) = h + 2 ^ (cur - 1)) by (apply half_buddy; [lia|by replace (cur - 1 + 1) with cur by lia]).
  apply merged_push; [done| |]; rewrite <- Hb, buddy_involutive.
  - apply (not_free fl al h cur Ht). pose proof (pow_pos cur ltac:(lia)). lia.
  - lia.
Qed.

Lemma merged_merge al : forall k h o fl, tiles top fl ((h, o) :: al) -> o + Z.of_nat k = 15 -> merged fl ->
  let '(h', o', fl') := abs_merge k h o fl in tiles top fl' ((h', o') :: al) /\ merged fl' /\ buddy_of h' o' ∉ fl' o'.
Proof.
  induction k as [|k IH]; intros h o fl Ht Hk Hm; cbn [abs_merge].
  - split; [done|]. split; [done|]. intros Hin. assert (o = 15) as -> by lia.
    destruct (ti_ok _ _ _ Ht h 15) as (Hot & Hal & Hh & Hht); [right; left|].
    destruct (ti_ok _ _ _ Ht _ _ ltac:(by left)) as (_ & _ & Hg0 & Hgt).
    assert (Htt : top = 15) by lia. rewrite Htt in Hht, Hgt. assert (h = 0) as -> by lia.
    unfold buddy_of in Hgt. rewrite Z.lxor_0_l in Hgt. lia.
  - set (g := buddy_of h o). case_bool_decide as Hg; [|by split].
    destruct (ti_ok _ _ _ Ht h o) as (Hot & Hal & Hh & Hht); [right; left|].
    destruct (ti_ok _ _ _ Ht g o) as (_ & _ & Hg0 & Hgt); [by left|].
    assert (Hgh : g <> h) by (apply buddy_of_ne; [lia|done]).
    assert (o < top) by (destruct (decide (o = top)) as [->|]; lia).
    pose proof Hg as Hsplit. apply list_elem_of_split in Hsplit as (x & y & Hfl).
    pose proof (ti_free _ _ _ Ht o) as Hnd. rewrite Hfl in Hnd. apply NoDup_app in Hnd as (_ & Hd & [Hgy _]%NoDup_cons).
    assert (Hgx : g ∉ x) by (intros Hx; apply (Hd g Hx); left).
    rewrite Hfl, filter_ne by done. apply IH; [by apply tiles_merge|lia|]. apply merged_sub; [done|]. rewrite Hfl. set_solver.
Qed.

Lemma merged_free fl al h o : tiles top fl ((h, o) :: al) -> merged fl -> merged (abs_buddy_free h o fl).
Proof.
  intros Ht Hm. unfold abs_buddy_free. destruct (ti_ok _ _ _ Ht h o) as (Hot & _); [right; left|].
  pose proof (merged_merge al (Z.to_nat (15 - o)) h o fl Ht ltac:(lia) Hm) as H.
  destruct (abs_merge (Z.to_nat (15 - o)) h o fl) as [[h' o'] fl']. destruct H as (Ht' & Hm' & Hn').
  destruct (ti_ok _ _ _ Ht' h' o') as (Hot' & Hal' & _); [right; left|].
  apply merged_push; [done|done|]. apply buddy_of_ne; [lia|done].
Qed.

(** ** Releasing what was split off puts the pieces together again *)
Definition same_result (r s : Z * Z * (Z -> list Z)) : Prop := r.1 = s.1 /\ forall k, r.2 k = s.2 k.

Lemma abs_merge_ext : forall k h o f g, (forall i, f i = g i) -> same_result (abs_merge k h o f) (abs_merge k h o g).
Proof.
  induction k as [|k IH]; intros h o f g Hfg; cbn [abs_merge]; [by split|]. rewrite Hfg.
  case_bool_decide; [|by split]. apply IH. intros i. unfold upd. by case_decide.
Qed.

Lemma abs_merge_split al h : forall k cur m fl, tiles top fl ((h, cur) :: al) -> Z.of_nat k <= cur ->
  same_result (abs_merge (k + m) h (cur - Z.of_nat k) (abs_split k h cur fl)) (abs_merge m h cur fl).
Proof.
  induction k as [|k IH]; intros cur m fl Ht Hk; [cbn; rewrite Z.sub_0_r; by split|]. cbn [abs_split].
  destruct (ti_ok _ _ _ Ht h cur) as (Hct & Hal & _ & _); [right; left|].
  set (c := cur - 1). set (g := h + 2 ^ c). set (fl2 := upd fl c (g :: fl c)).
  pose proof (pow_pos c ltac:(lia)) as Hpos. assert (Hp : 2 ^ cur = 2 * 2 ^ c) by (rewrite <- Z.pow_succ_r by lia; f_equal; lia).
  assert (Ht2 : tiles top fl2 ((h, c) :: al)) by (apply tiles_halve; [done|done|lia]).
  destruct (IH c (S m) fl2 Ht2 ltac:(lia)) as [H1 H2].
  replace (cur - Z.of_nat (S k)) with (c - Z.of_nat k) by lia. replace (S k + m)%nat with (k + S m)%nat by lia.
  assert (Hb : buddy_of h c = g) by (apply half_buddy; [lia|by replace (c + 1) with cur by lia]).
  assert (Hgf : g ∉ fl c) by (apply (not_free fl al h cur Ht); unfold g; lia).
  assert (H3 : same_result (abs_merge (S m) h c fl2) (abs_merge m h cur fl)).
  { cbn [abs_merge]. rewrite Hb. rewrite bool_decide_eq_true_2 by (unfold fl2; rewrite upd_eq; left).
    rewrite Z.min_l by (unfold g; lia). replace (c + 1) with cur by lia. apply abs_merge_ext. intros i. unfold fl2.
    destruct (decide (i = c)) as [->|]; [rewrite !upd_eq|by rewrite !upd_ne].
    apply (filter_ne g []); [apply not_elem_of_nil|done]. }
  destruct H3 as [H3 H4]. split; [by rewrite H1|]. intros i. by rewrite H2.
Qed.

Lemma free_taken al h req j fl t : tiles top (upd fl j t) ((h, j) :: al) -> 0 <= req <= j -> fl j = h :: t -> merged fl ->
  forall i, abs_buddy_free h req (abs_split (Z.to_nat (j - req)) h j (upd fl j t)) i = fl i.
Proof.
  intros Ht Hr Hfl Hm. destruct (ti_ok _ _ _ Ht h j) as (Hjt & _); [right; left|].
  pose proof (abs_merge_split al h (Z.to_nat (j - req)) j (Z.to_nat (15 - j)) (upd fl j t) Ht ltac:(lia)) as [H1 H2].
  replace (j - Z.of_nat (Z.to_nat (j - req))) with req in * by lia.
  replace (Z.to_nat (j - req) + Z.to_nat (15 - j))%nat with (Z.to_nat (15 - req)) in * by lia.
  assert (Hstop : abs_merge (Z.to_nat (15 - j)) h j (upd fl j t) = (h, j, upd fl j t)).
  { destruct (Z.to_nat (15 - j)); [done|]. cbn [abs_merge]. rewrite upd_eq, bool_decide_eq_false_2; [done|].
    intros Hin. apply (Hm h j); rewrite Hfl; [left|by right]. }
  rewrite Hstop in *. unfold abs_buddy_free. destruct (abs_merge (Z.to_nat (15 - req)) h req _) as [[h' o'] fl'].
  cbn [fst snd] in H1, H2. injection H1 as -> ->. intros i. unfold upd at 1. case_decide as Hi.
  - subst i. rewrite H2, upd_eq. done.
  - by rewrite H2, upd_ne.
Qed.

Lemma buddy_ok_ext b fl fl' al : (forall k, fl' k = fl k) -> buddy_ok b fl al -> buddy_ok b fl' al.
Proof.
  intros He [Ht [[Hl Ho] Hc [Hf Ha] Hx]]. split.
  - apply (tiles_same top fl al); try done.
    + intros h k. unfold blk. by rewrite He.
    + intros h k. rewrite He. by apply (ti_excl _ _ _ Ht).
    + intros k. rewrite He. apply Ht.
    + apply Ht.
    + unfold total. f_equal. f_equal. apply map_ext. intros k. by rewrite He.
  - split; [|intros k Hk; rewrite He; by apply Hc| |done].
    + split; [intros k Hk; rewrite He; by apply Hl|]. intros h j k. rewrite !He. apply Ho.
    + split; [intros h k; rewrite He; apply Hf|done].
Qed.

(** ** The number of free pages *)
Lemma fold_u64 (f : Z -> Z) : forall l acc, (forall i, i ∈ l -> 0 <= f i) -> 0 <= acc -> acc + sum_Z (map f l) < 2 ^ 64 ->
  fold_left (fun t i => u64 (t + f i)) l acc = acc + sum_Z (map f l).
Proof.
  induction l as [|i l IH]; intros acc Hf Ha Hs; cbn [fold_left map sum_Z] in *; [lia|].
  assert (0 <= sum_Z (map f l)) by (apply sum_Z_nonneg, Forall_forall; intros z Hz; apply list_elem_of_In, in_map_iff in Hz as (j & <- & Hj);
    apply Hf; right; by apply list_elem_of_In).
  pose proof (Hf i ltac:(left)). rewrite u64_small by lia. rewrite IH; [lia| |lia|lia]. intros j Hj. apply Hf. by right.
Qed.

Lemma nr_free_run b fl al : buddy_ok b fl al -> buddy_nr_free_pages b = 2 ^ top - sum_Z (map (fun x => 2 ^ snd x) al).
Proof.
  intros [Ht Hs]. pose proof (ti_total _ _ _ Ht) as Htot. unfold total in Htot.
  assert (Hal : 0 <= sum_Z (map (fun x => 2 ^ snd x) al)).
  { apply sum_Z_nonneg, Forall_forall. intros z Hz. apply list_elem_of_In, in_map_iff in Hz as ([h k] & <- & Hx). apply Z.pow_nonneg. lia. }
  assert (Hnn : Forall (fun z => 0 <= z) (map (fun k => 2 ^ k * Z.of_nat (length (fl k))) orders)).
  { apply Forall_forall. intros z Hz. apply list_elem_of_In, in_map_iff in Hz as (k & <- & _). assert (0 <= 2 ^ k) by (apply Z.pow_nonneg; lia). nia. }
  assert (H15 : 2 ^ top <= 2 ^ 15) by (apply Z.pow_le_mono_r; lia).
  assert (Heq : forall k, k ∈ orders -> area_free b k = 2 ^ k * Z.of_nat (length (fl k))).
  { intros k Hk. rewrite (sh_count _ _ _ Hs) by (by apply orders_elem). apply u32_small.
    assert (Hin : 2 ^ k * Z.of_nat (length (fl k)) ∈ map (fun k => 2 ^ k * Z.of_nat (length (fl k))) orders)
      by (apply list_elem_of_In, in_map_iff; exists k; split; [done|by apply list_elem_of_In]).
    pose proof (sum_Z_elem_le _ _ Hnn Hin). pose proof (proj1 (Forall_forall _ _) Hnn _ Hin). cbv beta in *. change (2 ^ 32) with 4294967296. change (2 ^ 15) with 32768 in H15. lia. }
  assert (Hm : map (area_free b) orders = map (fun k => 2 ^ k * Z.of_nat (length (fl k))) orders)
    by (apply map_ext_in; intros k Hk; apply Heq; by apply list_elem_of_In).
  unfold buddy_nr_free_pages. rewrite fold_u64; rewrite ?Hm; [lia| |lia|lia].
  intros i Hi. rewrite Heq by done. assert (0 <= 2 ^ i) by (apply Z.pow_nonneg; lia). nia.
Qed.

(** ** The operations *)
Lemma log2_up_range n : 0 < n <= MAX_BUDDY_PAGES -> 0 <= Z.log2_up n <= 15.
Proof. intros Hn. split; [apply Z.log2_up_nonneg|]. change 15 with (Z.log2_up MAX_BUDDY_PAGES). apply Z.log2_up_le_mono, Hn. Qed.

Lemma buddy_alloc_run b fl al n : buddy_ok b fl al -> 0 < n <= MAX_BUDDY_PAGES -> let req := Z.log2_up n in
  (buddy_alloc_pages n b = Done (None, b) /\ forall j, req <= j <= 15 -> fl j = []) \/
  exists j h b', buddy_alloc_pages n b = Done (Some (buddy_base b + h), b') /\ req <= j <= 15 /\
    (forall i, req <= i < j -> fl i = []) /\ taken b b' fl al req j h.
Proof.
  intros Hok Hn req. pose proof (log2_up_range n Hn) as Hr. unfold buddy_alloc_pages. rewrite (bind_Done _ _ _ _ _ (assert_true _ b (proj2 (Z.ltb_lt 0 n) ltac:(lia)))).
  rewrite (proj2 (Z.ltb_ge _ _)) by lia. unfold MAX_BUDDY_PAGES, BUDDY_MAX_ORDER in Hn. rewrite Z.shiftl_1_l in Hn.
  rewrite (bind_Done _ _ _ _ _ (get_order_run n b ltac:(lia))). fold req.
  apply alloc_search_run; try done; unfold req, BUDDY_MAX_ORDER; lia.
Qed.

(** A request of [n] pages, rounded up to a power of two, is answered with the first block of
    the lowest order that has one, halved down to the request: its pages were free, the
    upper halves are free blocks of their orders, and the count falls by the rounded
    request.  It fails, changing nothing, exactly when no order holds a large enough block or the
    request exceeds the largest block. *)
Theorem buddy_alloc_spec b fl al n : buddy_ok b fl al -> 0 < n -> let req := Z.log2_up n in
  (MAX_BUDDY_PAGES < n -> buddy_alloc_pages n b = Done (None, b)) /\
  (n <= MAX_BUDDY_PAGES -> (forall j, req <= j <= 15 -> fl j = []) -> buddy_alloc_pages n b = Done (None, b)) /\
  (n <= MAX_BUDDY_PAGES -> forall j, req <= j <= 15 -> fl j <> [] -> (forall i, req <= i < j -> fl i = []) ->
    exists h b', buddy_alloc_pages n b = Done (Some (buddy_base b + h), b') /\ taken b b' fl al req j h /\
      buddy_nr_free_pages b' = buddy_nr_free_pages b - 2 ^ req /\ n <= 2 ^ req /\
      (forall i, h <= i < h + 2 ^ req -> h <= i < h + 2 ^ j /\ forall g k, (g, k) ∈ al -> ~ g <= i < g + 2 ^ k)).
Proof.
  intros Hok Hn req. split; [|split].
  - intros Hm. unfold buddy_alloc_pages. rewrite (bind_Done _ _ _ _ _ (assert_true _ b (proj2 (Z.ltb_lt 0 n) Hn))).
    by rewrite (proj2 (Z.ltb_lt _ _)).
  - intros Hm Hall. destruct (buddy_alloc_run b fl al n Hok) as [[Hrun _]|(j & h & b' & _ & Hj & _ & t & Hfl & _)]; [lia|done|].
    rewrite (Hall j Hj) in Hfl. done.
  - intros Hm j Hj Hne Hlow. destruct (buddy_alloc_run b fl al n Hok) as [[_ Hall]|(j' & h & b' & Hrun & Hj' & Hlow' & Htk)]; [lia|by rewrite Hall in Hne|].
    fold req in Hj', Hlow', Htk.
    assert (j' = j) as ->.
    { destruct (Z.lt_trichotomy j j') as [Hlt|[?|Hlt]]; [|done|].
      - exfalso. apply Hne, Hlow'. lia.
      - destruct Htk as (t & Hfl & _). rewrite Hlow in Hfl by lia. done. }
    exists h, b'. split; [done|]. split; [done|]. destruct Htk as (t & Hfl & Hb & Hok'). split; [|split].
    + rewrite (nr_free_run _ _ _ Hok), (nr_free_run _ _ _ Hok'). cbn [map sum_Z snd]. lia.
    + destruct (decide (n = 1)) as [->|]; [done|]. apply Z.log2_up_spec. lia.
    + assert (2 ^ req <= 2 ^ j) by (apply Z.pow_le_mono_r; lia). intros i Hi. split; [lia|]. intros g k Hg Hgi.
      destruct Hok' as [Ht' _]. pose proof (proj1 (NoDup_cons _ _) (ti_alloc _ _ _ Ht')) as [Hnin _].
      destruct (ti_overlap _ _ _ g k h req i Ht') as [-> ->]; [right; by right|right; left|done|done|done].
Qed.

(** C33 Releasing an allocated block makes its pages free, merged with its buddy as long as that
    is a free block of the same order; no two free buddies remain when there were none,
    and the count rises by the size of the block. *)
Theorem buddy_free_refines b fl al al' h o n : buddy_ok b fl al -> al ≡ₚ (h, o) :: al' -> 0 < n <= 2 ^ 63 -> Z.log2_up n = o ->
  exists b', buddy_free_pages (buddy_base b + h) n b = Done (tt, b') /\ buddy_ok b' (abs_buddy_free h o fl) al' /\
    buddy_base b' = buddy_base b /\ buddy_nr_free_pages b' = buddy_nr_free_pages b + 2 ^ o /\
    (merged fl -> merged (abs_buddy_free h o fl)).
Proof.
  intros Hok Hp Hn Ho. destruct (buddy_free_run b fl al al' h o n Hok Hp Hn Ho) as (b' & Hrun & Hok' & Hb).
  exists b'. split; [done|]. split; [done|]. split; [done|]. split.
  - rewrite (nr_free_run _ _ _ Hok), (nr_free_run _ _ _ Hok').
    assert (Hsum : sum_Z (map (fun x => 2 ^ snd x) al) = sum_Z (map (fun x => 2 ^ snd x) ((h, o) :: al'))).
    { clear -Hp. induction Hp; cbn in *; lia. }
    rewrite Hsum. cbn [map sum_Z snd]. lia.
  - intros Hm. apply (merged_free fl al'); [|done]. eapply tiles_perm; [exact Hp|apply Hok].
Qed.

(** Allocating and releasing at once leaves the free lists as they were, in order and with
    every block whole again. *)
Theorem buddy_alloc_free b fl al n j : buddy_ok b fl al -> merged fl -> 0 < n <= MAX_BUDDY_PAGES ->
  Z.log2_up n <= j <= 15 -> fl j <> [] ->
  exists p b1 b2, buddy_alloc_pages n b = Done (Some p, b1) /\ buddy_free_pages p n b1 = Done (tt, b2) /\ buddy_ok b2 fl al.
Proof.
  intros Hok Hm Hn Hj Hne.
  destruct (buddy_alloc_run b fl al n Hok Hn) as [[_ Hall]|(i & h & b1 & Hrun & Hi & _ & t & Hfl & Hb & Hok1)]; [by rewrite Hall in Hne|].
  unfold MAX_BUDDY_PAGES, BUDDY_MAX_ORDER in Hn. rewrite Z.shiftl_1_l in Hn. pose proof (Z.log2_up_nonneg n).
  destruct (buddy_free_run b1 _ _ al h (Z.log2_up n) n Hok1 ltac:(done)) as (b2 & Hrun2 & Hok2 & _); [lia|done|].
  exists (buddy_base b + h), b1, b2. split; [done|]. split; [by rewrite <- Hb|].
  apply (buddy_ok_ext b2 (abs_buddy_free h (Z.log2_up n) (abs_split (Z.to_nat (i - Z.log2_up n)) h i (upd fl i t)))); [|done].
  intros k. symmetry. apply (free_taken al); try done; [|lia]. by apply (tiles_take top Htop fl al i [] h t (proj1 Hok)).
Qed.
End shape.

(** ** Setting up *)
Definition fresh_area (b : buddy) (i : Z) : Prop := is_dlist (flists b) (Area i) [] /\ area_free b i = 0.

Lemma fresh_init (b : buddy) i j : fresh_area b j \/ j = i ->
  fresh_area (set_area_free (fun g => upd g i 0) (set_flists (fun l => list_init l (Area i)) b)) j.
Proof.
  intros Hj. destruct (decide (j = i)) as [->|Hne]; [split; [apply list_init_dlist|apply upd_eq]|].
  destruct Hj as [[Hl Hz]|]; [|done]. split; [|cbn; by rewrite upd_ne].
  eapply is_dlist_frame; [|exact Hl]. intros x Hx. apply elem_of_cons in Hx as [->|[]%elem_of_nil].
  cbn. by rewrite !upd_ne by (intros [=]; done).
Qed.

Lemma init_areas_run : forall os (b : buddy), exists b', init_areas os b = Done (tt, b') /\
  (forall j, fresh_area b j \/ j ∈ os -> fresh_area b' j) /\
  frames b' = frames b /\ buddy_order b' = buddy_order b /\ buddy_base b' = buddy_base b.
Proof.
  induction os as [|i os IH]; intros b.
  { exists b. split; [done|]. split; [intros j [?|[]%elem_of_nil]; done|done]. }
  destruct (IH (set_area_free (fun g => upd g i 0) (set_flists (fun l => list_init l (Area i)) b))) as (b' & Hrun & Hf & Hx).
  exists b'. split; [exact Hrun|]. split; [|exact Hx].
  intros j Hj. apply Hf. destruct Hj as [Hj|[->|Hj]%elem_of_cons]; [left; apply fresh_init; auto|left; apply fresh_init; auto|by right].
Qed.

Lemma claim_frames_run : forall k p (b : buddy), (forall q, p <= q < p + Z.of_nat k -> PageReserved (frames b q) = true) ->
  exists g, claim_frames k p b = Done (tt, set_frames (fun _ => g) b) /\
    forall q, if decide (p <= q < p + Z.of_nat k) then PageProperty (g q) = true else g q = frames b q.
Proof.
  induction k as [|k IH]; intros p b Hr.
  { exists (frames b). split; [by destruct b|]. intros q. case_decide; [lia|done]. }
  cbn [claim_frames]. mstep (eq_refl : get (fun b => frames b p) b = Done (frames b p, b)).
  rewrite (bind_Done _ _ _ _ _ (assert_true _ b (Hr p ltac:(lia)))).
  set (b1 := set_frames (fun q => upd q p (mkPage 0 (set_bit PG_property 0) (property (q p)))) b).
  mstep (eq_refl : on_frame p (fun pg => mkPage 0 (set_bit PG_property 0) (property pg)) b = Done (tt, b1)).
  destruct (IH (p + 1) b1) as (g & Hrun & Hg).
  { intros q Hq. cbn. rewrite upd_ne by lia. apply Hr. lia. }
  exists g. split; [rewrite Hrun; by destruct b|]. intros q. specialize (Hg q). cbn in Hg. unfold upd in Hg.
  destruct (decide (q = p)) as [->|].
  - rewrite decide_False in Hg by lia. rewrite decide_True by lia. rewrite Hg. done.
  - destruct (decide (p + 1 <= q < p + 1 + Z.of_nat k)); [rewrite decide_True by lia; done|].
    rewrite decide_False by lia. done.
Qed.

Lemma max_order_loop_spec n : 1 <= n -> forall k, (0 < k)%nat -> let m := max_order_loop k n in
  0 <= m < Z.of_nat k /\ 2 ^ m <= n /\ (m = Z.of_nat k - 1 \/ n < 2 ^ (m + 1)).
Proof.
  intros Hn. induction k as [|k IH]; [lia|]. intros _. cbn [max_order_loop]. rewrite Z.shiftl_1_l.
  destruct (Z.leb_spec (2 ^ Z.of_nat k) n) as [Hle|Hlt]; [split; [lia|]; split; [done|left; lia]|].
  destruct k as [|k]; [cbn in Hlt; lia|]. destruct (IH ltac:(lia)) as (H1 & H2 & [H3|H3]).
  - split; [lia|]. split; [done|]. right. rewrite H3. by replace (Z.of_nat (S k) - 1 + 1) with (Z.of_nat (S k)) by lia.
  - split; [lia|]. split; [done|by right].
Qed.

Lemma max_order_spec n : 1 <= n -> 0 <= max_order n <= 15 /\ 2 ^ max_order n <= n /\ (max_order n = 15 \/ n < 2 ^ (max_order n + 1)).
Proof.
  intros Hn. pose proof (max_order_loop_spec n Hn 16 ltac:(lia)) as (H1 & H2 & H3). unfold max_order.
  destruct (Z.ltb_spec (max_order_loop 16 n) 0); [lia|]. split; [lia|]. split; [done|]. destruct H3; [left; lia|by right].
Qed.

Lemma tiles_one m : 0 <= m <= 15 -> tiles m (upd (fun _ => []) m [0]) [].
Proof.
  intros Hm. pose proof (pow_pos m ltac:(lia)).
  assert (Hb : forall h k, blk (upd (fun _ => []) m [0]) [] h k <-> h = 0 /\ k = m).
  { intros h k. unfold blk, upd. case_decide; subst.
    - rewrite list_elem_of_singleton, elem_of_nil. tauto.
    - rewrite !elem_of_nil. tauto. }
  split.
  - intros h k [-> ->]%Hb. split; [lia|]. split; [by exists 0; lia|lia].
  - intros h k h' k' [-> ->]%Hb [-> ->]%Hb. done.
  - intros h k _. apply not_elem_of_nil.
  - intros k. unfold upd. case_decide; [apply NoDup_singleton|apply NoDup_nil_2].
  - apply NoDup_nil_2.
  - intros i Hi. exists 0, m. rewrite Hb. split; [done|lia].
  - rewrite total_upd by done. cbn [length]. assert (H0 : total (fun _ : Z => []) [] = 0) by (vm_compute; done). rewrite H0. lia.
Qed.

(** Over [n] reserved pages the allocator starts with one free block: the largest power
    of two that fits; the pages behind it are in no list and are never given out. *)
Lemma buddy_init_memmap_run (b : buddy) base n : 1 < n ->
  (forall q, base <= q < base + n -> PageReserved (frames b q) = true) ->
  let m := max_order n in
  0 <= m <= 15 /\ 2 ^ m <= n /\ (m = 15 \/ n < 2 ^ (m + 1)) /\
  exists b', (buddy_init ;; buddy_init_memmap base n) b = Done (tt, b') /\ buddy_base b' = base /\
    buddy_ok m b' (upd (fun _ => []) m [0]) [].
Proof.
  intros Hn Hr m. destruct (max_order_spec n ltac:(lia)) as (Hm1 & Hm2 & Hm3). fold m in Hm1, Hm2, Hm3.
  split; [done|]. split; [done|]. split; [done|]. pose proof (pow_pos m ltac:(lia)) as Hpos.
  destruct (init_areas_run orders b) as (b1 & Hrun1 & Hfresh & Hf1 & Ho1 & _).
  set (b2 := set_orders (fun g => fill g 0 MAX_BUDDY_PAGES 0) b1).
  assert (Hinit : buddy_init b = Done (tt, b2)) by (unfold buddy_init; mstep Hrun1; done).
  rewrite (bind_Done _ _ _ _ _ Hinit). unfold buddy_init_memmap.
  rewrite (bind_Done _ _ _ _ _ (assert_true _ b2 (proj2 (Z.ltb_lt 0 n) ltac:(lia)))).
  mstep (eq_refl : modify (set_base base) b2 = Done (tt, set_base base b2)).
  destruct (claim_frames_run (Z.to_nat n) base (set_base base b2)) as (g & Hrun2 & Hg).
  { intros q Hq. cbn. rewrite Hf1. apply Hr. lia. }
  mstep Hrun2. fold m. rewrite Z.shiftl_1_l.
  set (b3 := set_orders (fun q => fill q 0 (2 ^ m) m)
    (set_frames (fun q => upd q base (set_property (2 ^ m) (q base))) (set_frames (fun _ => g) (set_base base b2)))).
  assert (Hbit : forall i, 0 <= i < n -> has_bit b3 i = true).
  { intros i Hi. unfold has_bit. cbn. specialize (Hg (base + i)). rewrite decide_True in Hg by lia. unfold upd.
    case_decide as Hd; [|done]. assert (i = 0) as -> by lia. by rewrite Z.add_0_r in Hg. }
  assert (Hs : shape m b3 (fun _ => []) []).
  { split.
    - split; [intros k Hk; apply (Hfresh k); right; by apply orders_elem|intros h j k []%elem_of_nil].
    - intros k Hk. cbn. destruct (Hfresh k) as [_ ->]; [right; by apply orders_elem|]. by rewrite Z.mul_0_r.
    - split; [intros h k []%elem_of_nil|intros h k []%elem_of_nil].
    - intros Hlt. apply andb_false_iff. right. apply Z.eqb_neq. cbn. rewrite fill_out by lia.
      assert (2 ^ m <= 2 ^ 14) by (apply Z.pow_le_mono_r; lia). rewrite fill_in; [|change (2 ^ 14) with 16384 in *; change MAX_BUDDY_PAGES with 32768; lia].
      intros Hm0. rewrite <- Hm0 in Hm3. destruct Hm3 as [?|Hm3]; [done|cbn in Hm3; lia]. }
  exists (pushed m (buddy_base b3 + 0) b3). split; [rewrite Z.add_0_r; done|]. split; [done|]. split.
  - by apply tiles_one.
  - apply (shape_push m b3 (fun _ => []) [] 0 m); try done; [intros j; apply not_elem_of_nil|by apply Hbit; lia|].
    cbn. rewrite fill_in by lia. done.
Qed.

(** ** Twenty-one pages from page 4: sixteen are managed *)
Definition raw_buddy : buddy :=
  mkBuddy (fun _ => mkPage 0 1 0) (mkLinks (fun l => l) (fun l => l)) (fun _ => 0) (fun _ => 0) 0.
Definition start_buddy : ST buddy unit := buddy_init ;; buddy_init_memmap 4 21.
Definition sample_buddy : buddy := match start_buddy raw_buddy with Done (_, b) => b | _ => raw_buddy end.
Definition sample_lists : Z -> list Z := upd (fun _ => []) 4 [0].

Lemma sample_buddy_run : start_buddy raw_buddy = Done (tt, sample_buddy) /\ buddy_base sample_buddy = 4 /\
  buddy_ok 4 sample_buddy sample_lists [].
Proof.
  destruct (buddy_init_memmap_run raw_buddy 4 21) as (_ & _ & _ & b' & Hrun & Hb & Hok); [lia|done|].
  unfold sample_buddy, start_buddy. rewrite Hrun. by split.
Qed.

Lemma buddy_alloc_spec_witness : exists h b', buddy_alloc_pages 3 sample_buddy = Done (Some (buddy_base sample_buddy + h), b') /\
  taken 4 sample_buddy b' sample_lists [] 2 4 h /\ buddy_nr_free_pages b' = buddy_nr_free_pages sample_buddy - 4.
Proof.
  destruct (buddy_alloc_spec 4 ltac:(lia) sample_buddy sample_lists [] 3) as (_ & _ & H); [apply sample_buddy_run|lia|].
  destruct (H ltac:(done) 4) as (h & b' & Hrun & Ht & Hn & _); [done|done| |].
  - change (Z.log2_up 3) with 2. intros i Hi. unfold sample_lists. by rewrite upd_ne by lia.
  - exists h, b'. split; [exact Hrun|]. split; [exact Ht|exact Hn].
Defined.

(** Four pages given out for three and taken back. *)
Lemma buddy_free_refines_witness : exists b1 b2, buddy_alloc_pages 3 sample_buddy = Done (Some 4, b1) /\
  buddy_free_pages 4 3 b1 = Done (tt, b2) /\ buddy_nr_free_pages b2 = buddy_nr_free_pages b1 + 4.
Proof.
  destruct (buddy_alloc_run 4 ltac:(lia) sample_buddy sample_lists [] 3) as [[_ H]|(j & h & b1 & Hrun & Hj & _ & t & Hfl & Hb & Hok)].
  - apply sample_buddy_run.
  - done.
  - discriminate (H 4 ltac:(done)).
  - unfold sample_lists, upd in Hfl. case_decide; [|done]. injection Hfl as <- <-.
    destruct (buddy_free_refines 4 ltac:(lia) b1 _ _ [] 0 2 3 Hok) as (b2 & Hrun2 & _ & _ & Hn & _); [done|lia|done|].
    destruct sample_buddy_run as (_ & Hb0 & _). rewrite Hb in Hrun2. rewrite Hb0 in Hrun, Hrun2. exists b1, b2. done.
Defined.

Lemma buddy_alloc_free_witness : exists p b1 b2, buddy_alloc_pages 5 sample_buddy = Done (Some p, b1) /\
  buddy_free_pages p 5 b1 = Done (tt, b2) /\ buddy_ok 4 b2 sample_lists [].
Proof.
  apply (buddy_alloc_free 4 ltac:(lia) sample_buddy sample_lists [] 5 4).
  - apply sample_buddy_run.
  - intros h k. unfold sample_lists, upd. case_decide; [|intros []%elem_of_nil]. subst k.
    intros ->%list_elem_of_singleton. intros H%list_elem_of_singleton. discriminate H.
  - done.
  - done.
  - done.
Defined.

(** Three requests split the one block; once all is back, sixteen pages are one
    block again, and the other five were never available. *)
Example buddy_runs :
  result ((start_buddy ;; a ← buddy_alloc_pages 1; b ← buddy_alloc_pages 2; c ← buddy_alloc_pages 3;
           n ← get buddy_nr_free_pages; buddy_free_pages 4 1 ;; buddy_free_pages 8 3 ;; buddy_free_pages 6 2 ;;
           d ← buddy_alloc_pages 17; e ← buddy_alloc_pages 16; mret (a, b, c, n, d, e)) raw_buddy)
  = Some (Some 4, Some 6, Some 8, 9, None, Some 4).
Proof. vm_compute. reflexivity. Qed.
