(* ===== verification/Disk.v ===== *)
(** * The block device: I/O buffers, RAM disk, IDE layer and disk0

    kern/fs/iobuf.c, kern/driver/ramdisk.c, kern/driver/ide.c and
    kern/fs/devs/dev_disk0.c, and the interface [BlockDevice] that the file
    system is written against. *)
From S2P Require Import Prelude Libs Mem.

(** ** kern/fs/iobuf.h, iobuf.c *)
Record iobuf := mkIob {
  io_mem : mem;      (* the memory [io_base] points into *)
  io_base : Z; io_offset : Z; io_len : Z; io_resid : Z }.

Definition iobuf_init (m : mem) (base len offset : Z) : iobuf := mkIob m base offset len len.
Definition iobuf_used (iob : iobuf) : Z := u64 (io_len iob - io_resid iob).

Definition iobuf_skip (n : Z) : ST iobuf unit :=
  iob ← get id;
  assert (n <=? io_resid iob) ;;
  modify (fun b => mkIob (io_mem b) (io_base b + n) (s64 (io_offset b + n)) (io_len b)
                         (io_resid b - n)).

(** Moves between the buffer and [data + d]; returns the code, the size moved
    and the memory of [data]. *)
Definition iobuf_move (data : mem) (d len : Z) (m2b : bool) : ST iobuf (Z * Z * mem) :=
  iob ← get id;
  let alen := if len <? io_resid iob then len else io_resid iob in
  if 0 <? alen then
    (if m2b then
       modify (fun b => mkIob (copy (io_mem b) (io_base b) data d alen) (io_base b)
                              (io_offset b) (io_len b) (io_resid b))
     else mret tt) ;;
    iobuf_skip alen ;;
    mret (if len - alen =? 0 then 0 else - E_NO_MEM, alen,
          if m2b then data else copy data d (io_mem iob) (io_base iob) alen)
  else mret (if len =? 0 then 0 else - E_NO_MEM, alen, data).

Definition iobuf_move_zeros (len : Z) : ST iobuf (Z * Z) :=
  iob ← get id;
  let alen := if len <? io_resid iob then len else io_resid iob in
  if 0 <? alen then
    modify (fun b => mkIob (fill (io_mem b) (io_base b) alen 0) (io_base b)
                           (io_offset b) (io_len b) (io_resid b)) ;;
    iobuf_skip alen ;;
    mret (if len - alen =? 0 then 0 else - E_NO_MEM, alen)
  else mret (if len =? 0 then 0 else - E_NO_MEM, alen).

(** ** kern/driver/ramdisk.c

    The image is memory; [imem] is that memory addressed from [iobase]. *)
Definition SECTSIZE : Z := 512.
Record ide_device := mkIde { valid : Z; size : Z; imem : mem }.
Definition set_imem (d : ide_device) (m : mem) : ide_device := mkIde (valid d) (size d) m.

(** [nsecs < 0] compares an unsigned value: the test is never true. *)
Definition ramdisk_read (dev : ide_device) (secno : Z) (dst : mem) (d nsecs : Z) : Z * mem :=
  let nsecs := Z.min nsecs (u64 (size dev - secno)) in
  if nsecs <? 0 then (-1, dst)
  else (0, copy dst d (imem dev) (secno * SECTSIZE) (nsecs * SECTSIZE)).

Definition ramdisk_write (dev : ide_device) (secno : Z) (src : mem) (s nsecs : Z) : Z * ide_device :=
  let nsecs := Z.min nsecs (u64 (size dev - secno)) in
  if nsecs <? 0 then (-1, dev)
  else (0, set_imem dev (copy (imem dev) (secno * SECTSIZE) src s (nsecs * SECTSIZE))).

Definition check_initrd (bgn end_ : Z) : bool := negb (bgn =? end_).

(** [ramdisk_init] on an image of the linker from [bgn] to [end_]. *)
Definition ramdisk_init (bgn end_ : Z) (image : mem) : ide_device :=
  if check_initrd bgn end_ then mkIde 1 (u32 (end_ - bgn) / SECTSIZE) image
  else mkIde 0 0 (fun _ => 0).

(** ** kern/driver/ide.c and kern/fs/devs/dev_disk0.c *)
Definition MAX_IDE : Z := 4.
Definition MAX_NSECS : Z := 128.
Definition MAX_DISK_NSECS : Z := 0x10000000.
Definition SWAP_DEV_NO : Z := 1.
Definition DISK0_DEV_NO : Z := 2.
Definition PGSIZE : Z := 4096.
Definition DISK0_BLKSIZE : Z := PGSIZE.
Definition DISK0_BUFSIZE : Z := 4 * DISK0_BLKSIZE.
Definition DISK0_BLK_NSECT : Z := DISK0_BLKSIZE / SECTSIZE.

Record disks := mkDisks {
  ide_devices : Z -> ide_device;
  disk0_buffer : mem;
  disk0_sem : Z;
  d_blocks : Z; d_blocksize : Z }.

Definition set_buffer (b : mem) (st : disks) : disks :=
  mkDisks (ide_devices st) b (disk0_sem st) (d_blocks st) (d_blocksize st).
Definition set_ide (no : Z) (dev : ide_device) (st : disks) : disks :=
  mkDisks (upd (ide_devices st) no dev) (disk0_buffer st) (disk0_sem st) (d_blocks st)
          (d_blocksize st).
Definition set_disk0_sem (v : Z) (st : disks) : disks :=
  mkDisks (ide_devices st) (disk0_buffer st) v (d_blocks st) (d_blocksize st).

Definition VALID_IDE (st : disks) (ideno : Z) : bool :=
  (0 <=? ideno) && (ideno <? MAX_IDE) && negb (valid (ide_devices st ideno) =? 0).

Definition ide_init (swap0 swap1 : Z) (swap : mem) (sfs0 sfs1 : Z) (sfs : mem) : ST disks unit :=
  modify (fun st => mkDisks (fun no => if (0 <=? no) && (no <? MAX_IDE)
                                       then mkIde 0 (size (ide_devices st no)) (imem (ide_devices st no))
                                       else ide_devices st no)
                            (disk0_buffer st) (disk0_sem st) (d_blocks st) (d_blocksize st)) ;;
  modify (set_ide SWAP_DEV_NO (ramdisk_init swap0 swap1 swap)) ;;
  v ← get (fun st => VALID_IDE st SWAP_DEV_NO);
  assert v ;;
  modify (set_ide DISK0_DEV_NO (ramdisk_init sfs0 sfs1 sfs)) ;;
  v ← get (fun st => VALID_IDE st DISK0_DEV_NO);
  assert v.

Definition ide_device_valid (ideno : Z) : ST disks bool := get (fun st => VALID_IDE st ideno).
Definition ide_device_size (ideno : Z) : ST disks Z :=
  get (fun st => if VALID_IDE st ideno then size (ide_devices st ideno) else 0).

(** The destination, then the source, of these two is [disk0_buffer]. *)
Definition ide_read_secs (ideno secno nsecs : Z) : ST disks Z :=
  v ← get (fun st => VALID_IDE st ideno);
  assert ((nsecs <=? MAX_NSECS) && v) ;;
  assert ((secno <? MAX_DISK_NSECS) && (u64 (secno + nsecs) <=? MAX_DISK_NSECS)) ;;
  r ← get (fun st => ramdisk_read (ide_devices st ideno) secno (disk0_buffer st) 0 nsecs);
  modify (set_buffer (snd r)) ;;
  mret (fst r).

Definition ide_write_secs (ideno secno nsecs : Z) : ST disks Z :=
  v ← get (fun st => VALID_IDE st ideno);
  assert ((nsecs <=? MAX_NSECS) && v) ;;
  assert ((secno <? MAX_DISK_NSECS) && (u64 (secno + nsecs) <=? MAX_DISK_NSECS)) ;;
  r ← get (fun st => ramdisk_write (ide_devices st ideno) secno (disk0_buffer st) 0 nsecs);
  modify (set_ide ideno (snd r)) ;;
  mret (fst r).

Definition lock_disk0 : ST disks unit := lock disk0_sem set_disk0_sem.
Definition unlock_disk0 : ST disks unit := unlock disk0_sem set_disk0_sem.
Definition disk0_open (open_flags : Z) : ST disks Z := mret 0.
Definition disk0_close : ST disks Z := mret 0.

Definition disk0_read_blks_nolock (blkno nblks : Z) : ST disks unit :=
  ret ← ide_read_secs DISK0_DEV_NO (u32 (blkno * DISK0_BLK_NSECT)) (u32 (nblks * DISK0_BLK_NSECT));
  if ret =? 0 then mret tt else panic.

Definition disk0_write_blks_nolock (blkno nblks : Z) : ST disks unit :=
  ret ← ide_write_secs DISK0_DEV_NO (u32 (blkno * DISK0_BLK_NSECT)) (u32 (nblks * DISK0_BLK_NSECT));
  if ret =? 0 then mret tt else panic.

(** The loop of [disk0_io]: at most [DISK0_BUFSIZE] bytes per turn. *)
Fixpoint disk0_loop (fuel : nat) (iob : iobuf) (write : bool) (resid blkno : Z) : ST disks iobuf :=
  if resid =? 0 then mret iob
  else match fuel with
  | O => no_fuel
  | S fuel' =>
      if write then
        buf ← get disk0_buffer;
        '((ret, copied, buf'), iob) ← on_local iob (iobuf_move buf 0 DISK0_BUFSIZE false);
        modify (set_buffer buf') ;;
        assert (negb (copied =? 0) && (copied <=? resid) && (copied mod DISK0_BLKSIZE =? 0)) ;;
        let nblks := u32 (copied / DISK0_BLKSIZE) in
        disk0_write_blks_nolock blkno nblks ;;
        disk0_loop fuel' iob write (resid - copied) (u32 (blkno + nblks))
      else
        let alen := if resid <? DISK0_BUFSIZE then resid else DISK0_BUFSIZE in
        let nblks := u32 (alen / DISK0_BLKSIZE) in
        disk0_read_blks_nolock blkno nblks ;;
        buf ← get disk0_buffer;
        '((ret, copied, _), iob) ← on_local iob (iobuf_move buf 0 alen true);
        assert ((copied =? alen) && (copied mod DISK0_BLKSIZE =? 0)) ;;
        disk0_loop fuel' iob write (resid - copied) (u32 (blkno + nblks))
  end.

Definition disk0_io (iob : iobuf) (write : bool) : ST disks (Z * iobuf) :=
  let offset := io_offset iob in
  let resid := io_resid iob in
  let blkno := u32 (Z.quot offset DISK0_BLKSIZE) in
  let nblks := u32 (resid / DISK0_BLKSIZE) in
  if negb (Z.rem offset DISK0_BLKSIZE =? 0) || negb (resid mod DISK0_BLKSIZE =? 0) then
    mret (- E_INVAL, iob)
  else
    blocks ← get d_blocks;
    if blocks <? u32 (blkno + nblks) then mret (- E_INVAL, iob)
    else if nblks =? 0 then mret (0, iob)
    else
      lock_disk0 ;;
      iob ← disk0_loop (Z.to_nat (resid / DISK0_BLKSIZE)) iob write resid blkno;
      unlock_disk0 ;;
      mret (0, iob).

Definition disk0_ioctl (op : Z) : ST disks Z := mret (- E_UNIMP).

(** [buf] is what [kmalloc] of the bounce buffer returns, if anything. *)
Definition disk0_device_init (buf : option mem) : ST disks unit :=
  v ← ide_device_valid DISK0_DEV_NO;
  assert v ;;
  sz ← ide_device_size DISK0_DEV_NO;
  match buf with
  | None => panic
  | Some b =>
      modify (fun st => mkDisks (ide_devices st) b 1 (sz / DISK0_BLK_NSECT) DISK0_BLKSIZE)
  end.

Arguments VALID_IDE : simpl never.
Arguments ramdisk_read : simpl never.
Arguments ramdisk_write : simpl never.
#[export] Hint Unfold iobuf_skip iobuf_move ide_read_secs ide_write_secs disk0_read_blks_nolock
  disk0_write_blks_nolock lock_disk0 unlock_disk0 lock unlock : ucore_run.

(** ** The contract of [disk0_io] *)
Definition disk_byte (st : disks) : mem := imem (ide_devices st DISK0_DEV_NO).

Record disk_ok (st : disks) : Prop := mkDiskOk {
  disk_valid : VALID_IDE st DISK0_DEV_NO = true;
  disk_size : 0 <= d_blocks st /\ d_blocks st * 8 <= size (ide_devices st DISK0_DEV_NO);
  disk_size32 : size (ide_devices st DISK0_DEV_NO) < 2 ^ 23;
  disk_limit : d_blocks st * 8 <= MAX_DISK_NSECS;
  disk_blksize : d_blocksize st = DISK0_BLKSIZE }.

(** [n] blocks from block [b] were moved between the disk and the buffer. *)
Definition transferred (w : bool) (b n : Z) (st : disks) (iob : iobuf)
    (st' : disks) (iob' : iobuf) : Prop :=
  disk_ok st' /\ d_blocks st' = d_blocks st /\ disk0_sem st' = disk0_sem st /\
  io_base iob' = io_base iob + n * 4096 /\ io_offset iob' = io_offset iob + n * 4096 /\
  io_resid iob' = io_resid iob - n * 4096 /\ io_len iob' = io_len iob /\
  if w then
    (forall a, io_mem iob' a = io_mem iob a) /\
    (forall a, disk_byte st' a = copy (disk_byte st) (b * 4096) (io_mem iob) (io_base iob) (n * 4096) a)
  else
    (forall a, disk_byte st' a = disk_byte st a) /\
    (forall a, io_mem iob' a = copy (io_mem iob) (io_base iob) (disk_byte st) (b * 4096) (n * 4096) a).

(** Two consecutive copies are one. *)
Lemma copy_append dst d src s n m a :
  0 <= n -> 0 <= m ->
  copy (copy dst d src s n) (d + n) src (s + n) m a = copy dst d src s (n + m) a.
Proof.
  intros. destruct (decide (d <= a < d + n)); [|destruct (decide (d + n <= a < d + n + m))].
  - by rewrite copy_out, !copy_in by lia.
  - rewrite !copy_in by lia. f_equal. lia.
  - by rewrite !copy_out by lia.
Qed.

Lemma copy_ext dst dst' d src src' s n a :
  (forall x, dst x = dst' x) -> (forall x, src x = src' x) ->
  copy dst d src s n a = copy dst' d src' s n a.
Proof. intros H1 H2. unfold copy. by rewrite H1, H2. Qed.

Lemma transferred_append w b n m st iob st1 iob1 st2 iob2 :
  0 <= n -> 0 <= m ->
  transferred w b n st iob st1 iob1 -> transferred w (b + n) m st1 iob1 st2 iob2 ->
  transferred w b (n + m) st iob st2 iob2.
Proof.
  intros Hn Hm (Ho1 & Hd1 & Hs1 & Hb1 & Hf1 & Hr1 & Hl1 & H1)
    (Ho2 & Hd2 & Hs2 & Hb2 & Hf2 & Hr2 & Hl2 & H2).
  split_and!; [done|congruence|congruence|lia|lia|lia|congruence|].
  destruct w; destruct H1 as [H1 H1'], H2 as [H2 H2']; split; intros a.
  - by rewrite H2, H1.
  - rewrite H2', Hb1. replace ((b + n) * 4096) with (b * 4096 + n * 4096) by lia.
    rewrite (copy_ext _ _ _ _ (io_mem iob) _ _ _ H1' H1), copy_append by lia. f_equal. lia.
  - by rewrite H2, H1.
  - rewrite H2', Hb1. replace ((b + n) * 4096) with (b * 4096 + n * 4096) by lia.
    rewrite (copy_ext _ _ _ _ (disk_byte st) _ _ _ H1' H1), copy_append by lia. f_equal. lia.
Qed.

Lemma transferred_refl w b st iob : disk_ok st -> transferred w b 0 st iob st iob.
Proof.
  intros Hok. split_and!; try done; try lia.
  destruct w; split; try done; intros a; by rewrite copy_out by lia.
Qed.

(** Bounds that make the size arithmetic exact. *)
Lemma blocks_fit st b n :
  disk_ok st -> 0 <= b -> 0 < n <= 4 -> b + n <= d_blocks st ->
  u32 (b * DISK0_BLK_NSECT) = b * 8 /\ u32 (n * DISK0_BLK_NSECT) = n * 8 /\
  (n * 8 <=? MAX_NSECS) = true /\ (b * 8 <? MAX_DISK_NSECS) = true /\
  (u64 (b * 8 + n * 8) <=? MAX_DISK_NSECS) = true /\
  Z.min (n * 8) (u64 (size (ide_devices st DISK0_DEV_NO) - b * 8)) = n * 8.
Proof.
  intros [Hv Hs Hs32 Hl] Hb Hn Hle.
  change DISK0_BLK_NSECT with 8. unfold MAX_NSECS, MAX_DISK_NSECS in *.
  rewrite !u32_small, !u64_small by lia.
  split_and!; try lia; first [apply Z.leb_le; lia|apply Z.ltb_lt; lia].
Qed.

Lemma disk0_read_blks_spec st b n :
  disk_ok st -> 0 <= b -> 0 < n <= 4 -> b + n <= d_blocks st ->
  disk0_read_blks_nolock b n st
  = Done (tt, set_buffer (copy (disk0_buffer st) 0 (disk_byte st) (b * 4096) (n * 4096)) st).
Proof.
  intros Hok Hb Hn Hle. destruct (blocks_fit st b n Hok Hb Hn Hle) as (E1 & E2 & E3 & E4 & E5 & E6).
  mrun. rewrite E1, E2, (disk_valid _ Hok), E3. mrun. rewrite E4, E5. mrun.
  unfold ramdisk_read. rewrite E6. destruct (Z.ltb_spec (n * 8) 0); [lia|]. cbn.
  unfold SECTSIZE, disk_byte. by replace (b * 8 * 512) with (b * 4096) by lia;
    replace (n * 8 * 512) with (n * 4096) by lia.
Qed.

Lemma disk0_write_blks_spec st b n :
  disk_ok st -> 0 <= b -> 0 < n <= 4 -> b + n <= d_blocks st ->
  disk0_write_blks_nolock b n st
  = Done (tt, set_ide DISK0_DEV_NO (set_imem (ide_devices st DISK0_DEV_NO)
                (copy (disk_byte st) (b * 4096) (disk0_buffer st) 0 (n * 4096))) st).
Proof.
  intros Hok Hb Hn Hle. destruct (blocks_fit st b n Hok Hb Hn Hle) as (E1 & E2 & E3 & E4 & E5 & E6).
  mrun. rewrite E1, E2, (disk_valid _ Hok), E3. mrun. rewrite E4, E5. mrun.
  unfold ramdisk_write. rewrite E6. destruct (Z.ltb_spec (n * 8) 0); [lia|]. cbn.
  unfold SECTSIZE, disk_byte. by replace (b * 8 * 512) with (b * 4096) by lia;
    replace (n * 8 * 512) with (n * 4096) by lia.
Qed.

Lemma disk_ok_set_buffer st m : disk_ok st -> disk_ok (set_buffer m st).
Proof. intros []. by split. Qed.

Lemma disk_ok_set_imem st m :
  disk_ok st -> disk_ok (set_ide DISK0_DEV_NO (set_imem (ide_devices st DISK0_DEV_NO) m) st).
Proof.
  intros [Hv Hs Hs32 Hl]. unfold VALID_IDE in Hv.
  split; unfold VALID_IDE; cbn; done.
Qed.

Lemma disk_ok_lock st v : disk_ok st -> disk_ok (set_disk0_sem v st).
Proof. intros []. by split. Qed.

#[export] Hint Resolve disk_ok_set_buffer disk_ok_set_imem disk_ok_lock : ucore.

(** One turn of the loop moves up to four blocks. *)
Lemma disk0_read_step st iob b n :
  disk_ok st -> 0 <= b -> 0 < n -> b + n <= d_blocks st -> io_resid iob = n * 4096 ->
  0 <= io_offset iob -> io_offset iob + n * 4096 < 2 ^ 63 ->
  exists k st1 iob1, (0 < k <= n) /\ transferred false b k st iob st1 iob1 /\
    forall fuel, disk0_loop (S fuel) iob false (n * 4096) b st
                 = disk0_loop fuel iob1 false ((n - k) * 4096) (b + k) st1.
Proof.
  intros Hok Hb Hn Hle Hr Ho1 Ho2. set (k := Z.min n 4).
  assert (Hk : 0 < k <= 4 /\ k <= n) by lia.
  assert (Halen : (if n * 4096 <? DISK0_BUFSIZE then n * 4096 else DISK0_BUFSIZE) = k * 4096).
  { change DISK0_BUFSIZE with 16384. destruct (Z.ltb_spec (n * 4096) 16384); lia. }
  assert (Hmod : k * 4096 mod DISK0_BLKSIZE = 0) by (apply Z.mod_mul; done).
  assert (Hdiv : u32 (k * 4096 / DISK0_BLKSIZE) = k).
  { change DISK0_BLKSIZE with 4096. rewrite Z.div_mul by done. apply u32_small. lia. }
  set (buf := copy (disk0_buffer st) 0 (disk_byte st) (b * 4096) (k * 4096)).
  exists k, (set_buffer buf st),
    (mkIob (copy (io_mem iob) (io_base iob) buf 0 (k * 4096)) (io_base iob + k * 4096)
           (io_offset iob + k * 4096) (io_len iob) (io_resid iob - k * 4096)).
  split; [lia|]. split.
  - split_and!; cbn; auto with ucore. intros a. destruct (decide (io_base iob <= a < io_base iob + k * 4096)).
    + rewrite !copy_in by lia. unfold buf. rewrite copy_in by lia. f_equal. lia.
    + by rewrite !copy_out by lia.
  - intros fuel. cbn [disk0_loop]. destruct (Z.eqb_spec (n * 4096) 0); [lia|]. rewrite Halen, Hdiv.
    mstep (disk0_read_blks_spec st b k Hok ltac:(lia) ltac:(lia) ltac:(lia)). fold buf.
    assert (Hmin : (if k * 4096 <? io_resid iob then k * 4096 else io_resid iob) = k * 4096).
    { rewrite Hr. destruct (Z.ltb_spec (k * 4096) (n * 4096)); lia. }
    mrun. rewrite Hmin. destruct (Z.ltb_spec 0 (k * 4096)); [|lia]. mrun.
    destruct (Z.leb_spec (k * 4096) (io_resid iob)); [|lia]. mrun.
    rewrite Z.eqb_refl, Hmod, s64_small, u32_small by (destruct Hok as [_ ? _ ?]; unfold MAX_DISK_NSECS in *; lia).
    mrun. f_equal. lia.
Qed.

Lemma disk0_write_step st iob b n :
  disk_ok st -> 0 <= b -> 0 < n -> b + n <= d_blocks st -> io_resid iob = n * 4096 ->
  0 <= io_offset iob -> io_offset iob + n * 4096 < 2 ^ 63 ->
  exists k st1 iob1, (0 < k <= n) /\ transferred true b k st iob st1 iob1 /\
    forall fuel, disk0_loop (S fuel) iob true (n * 4096) b st
                 = disk0_loop fuel iob1 true ((n - k) * 4096) (b + k) st1.
Proof.
  intros Hok Hb Hn Hle Hr Ho1 Ho2. set (k := Z.min n 4).
  assert (Hk : 0 < k <= 4 /\ k <= n) by lia.
  assert (Halen : (if DISK0_BUFSIZE <? io_resid iob then DISK0_BUFSIZE else io_resid iob) = k * 4096).
  { rewrite Hr. change DISK0_BUFSIZE with 16384. destruct (Z.ltb_spec 16384 (n * 4096)); lia. }
  assert (Hmod : k * 4096 mod DISK0_BLKSIZE = 0) by (apply Z.mod_mul; done).
  assert (Hdiv : u32 (k * 4096 / DISK0_BLKSIZE) = k).
  { change DISK0_BLKSIZE with 4096. rewrite Z.div_mul by done. apply u32_small. lia. }
  set (buf := copy (disk0_buffer st) 0 (io_mem iob) (io_base iob) (k * 4096)).
  exists k,
    (set_ide DISK0_DEV_NO (set_imem (ide_devices st DISK0_DEV_NO)
       (copy (disk_byte st) (b * 4096) buf 0 (k * 4096))) (set_buffer buf st)),
    (mkIob (io_mem iob) (io_base iob + k * 4096)
           (io_offset iob + k * 4096) (io_len iob) (io_resid iob - k * 4096)).
  split; [lia|]. split.
  - split_and!; cbn; try done.
    { by apply (disk_ok_set_imem (set_buffer buf st)), disk_ok_set_buffer. }
    intros a. destruct (decide (b * 4096 <= a < b * 4096 + k * 4096)).
    + change (copy (disk_byte st) (b * 4096) buf 0 (k * 4096) a
              = copy (disk_byte st) (b * 4096) (io_mem iob) (io_base iob) (k * 4096) a).
      rewrite !copy_in by lia. unfold buf. rewrite copy_in by lia. f_equal. lia.
    + change (copy (disk_byte st) (b * 4096) buf 0 (k * 4096) a
              = copy (disk_byte st) (b * 4096) (io_mem iob) (io_base iob) (k * 4096) a).
      by rewrite !copy_out by lia.
  - intros fuel. cbn [disk0_loop]. destruct (Z.eqb_spec (n * 4096) 0); [lia|].
    mstep (eq_refl : get disk0_buffer st = Done (disk0_buffer st, st)).
    assert (Hmove : on_local iob (iobuf_move (disk0_buffer st) 0 DISK0_BUFSIZE false) st
      = Done ((if DISK0_BUFSIZE - k * 4096 =? 0 then 0 else - E_NO_MEM, k * 4096, buf,
               mkIob (io_mem iob) (io_base iob + k * 4096) (io_offset iob + k * 4096)
                     (io_len iob) (io_resid iob - k * 4096)), st)).
    { mrun. rewrite Halen. destruct (Z.ltb_spec 0 (k * 4096)); [|lia]. mrun.
      destruct (Z.leb_spec (k * 4096) (io_resid iob)); [|lia]. mrun.
      by rewrite s64_small by lia. }
    mstep Hmove. cbn [fst snd].
    mstep (eq_refl : modify (set_buffer buf) st = Done (tt, set_buffer buf st)).
    rewrite Hmod, Hdiv. destruct (Z.eqb_spec (k * 4096) 0); [lia|].
    destruct (Z.leb_spec (k * 4096) (n * 4096)); [|lia].
    mstep (assert_true true (set_buffer buf st) eq_refl).
    rewrite (bind_Done _ _ _ _ _ (disk0_write_blks_spec (set_buffer buf st) b k
      (disk_ok_set_buffer _ _ Hok) ltac:(lia) ltac:(lia) ltac:(cbn; lia))).
    rewrite u32_small by (destruct Hok as [_ ? _ ?]; unfold MAX_DISK_NSECS in *; lia).
    f_equal. lia.
Qed.

Lemma disk0_loop_spec w : forall fuel st iob b n,
  disk_ok st -> 0 <= b -> 0 <= n -> b + n <= d_blocks st -> io_resid iob = n * 4096 ->
  0 <= io_offset iob -> io_offset iob + n * 4096 < 2 ^ 63 -> (Z.to_nat n <= fuel)%nat ->
  exists st' iob', disk0_loop fuel iob w (n * 4096) b st = Done (iob', st') /\
    transferred w b n st iob st' iob'.
Proof.
  induction fuel as [|fuel IH]; intros st iob b n Hok Hb Hn Hle Hr Ho1 Ho2 Hf.
  { assert (n = 0) as -> by lia. exists st, iob. split; [done|]. by apply transferred_refl. }
  destruct (decide (n = 0)) as [->|].
  { exists st, iob. split; [done|]. by apply transferred_refl. }
  assert (exists k st1 iob1, (0 < k <= n) /\ transferred w b k st iob st1 iob1 /\
    forall fuel, disk0_loop (S fuel) iob w (n * 4096) b st
                 = disk0_loop fuel iob1 w ((n - k) * 4096) (b + k) st1)
    as (k & st1 & iob1 & Hk & Ht & Hstep).
  { destruct w; [apply disk0_write_step|apply disk0_read_step]; done || lia. }
  pose proof Ht as (Hok1 & Hd1 & _ & _ & Hf1 & Hr1 & _).
  destruct (IH st1 iob1 (b + k) (n - k)) as (st2 & iob2 & Hrun & Ht2); try done; try lia.
  exists st2, iob2. rewrite Hstep. split; [done|].
  replace n with (k + (n - k)) by lia. eapply transferred_append; [lia|lia|done..].
Qed.

(** A request for [n] whole blocks from block [b]. *)
Definition block_request (iob : iobuf) (b n : Z) : Prop :=
  io_offset iob = b * 4096 /\ io_resid iob = n * 4096 /\ 0 <= b /\ 0 <= n.

Lemma block_request_nums st iob b n :
  disk_ok st -> block_request iob b n -> b + n <= d_blocks st ->
  Z.quot (io_offset iob) DISK0_BLKSIZE = b /\ io_resid iob / DISK0_BLKSIZE = n /\
  Z.rem (io_offset iob) DISK0_BLKSIZE = 0 /\ io_resid iob mod DISK0_BLKSIZE = 0 /\
  u32 b = b /\ u32 n = n /\ u32 (b + n) = b + n.
Proof.
  intros [_ ? ? _] (-> & -> & ? & ?) ?. change DISK0_BLKSIZE with 4096.
  rewrite Z.quot_mul, Z.div_mul, Z.rem_mul, Z.mod_mul by done.
  split_and!; try done; apply u32_small; lia.
Qed.

Lemma disk0_io_transfers_correct st iob w b n :
  disk_ok st -> 0 < disk0_sem st -> block_request iob b n -> b + n <= d_blocks st ->
  exists st' iob', disk0_io iob w st = Done ((0, iob'), st') /\
    transferred w b n st iob st' iob'.
Proof.
  intros Hok Hsem Hreq Hle.
  destruct (block_request_nums _ _ _ _ Hok Hreq Hle) as (E1 & E2 & E3 & E4 & E5 & E6 & E7).
  destruct Hreq as (Ho & Hr & Hb & Hn).
  unfold disk0_io. rewrite E1, E2, E3, E4, E5, E6, E7. cbn [Z.eqb negb orb].
  mstep (eq_refl : get d_blocks st = Done (d_blocks st, st)).
  destruct (Z.ltb_spec (d_blocks st) (b + n)); [lia|]. destruct (Z.eqb_spec n 0) as [->|].
  { exists st, iob. split; [done|]. by apply transferred_refl. }
  assert (Hlock : lock_disk0 st = Done (tt, set_disk0_sem (disk0_sem st - 1) st)).
  { unfold lock_disk0, lock. by destruct (Z.ltb_spec 0 (disk0_sem st)); [|lia]. }
  mstep Hlock. rewrite Hr. set (st1 := set_disk0_sem (disk0_sem st - 1) st).
  pose proof (disk_ok_lock st (disk0_sem st - 1) Hok) as Hok1. fold st1 in Hok1.
  pose proof Hok as [_ [_ ?] ? _].
  destruct (disk0_loop_spec w (Z.to_nat n) st1 iob b n) as (st2 & iob2 & Hrun & Ht);
    try done; try lia.
  mstep Hrun. eexists _, _. split; [reflexivity|].
  destruct Ht as (Hok2 & Hd2 & Hs2 & Hrest). split; [by apply disk_ok_lock|].
  split; [done|]. split; [cbn in *; lia|]. exact Hrest.
Qed.

(** On an idle disk, [disk0_io] on a request for whole blocks inside the
    device returns 0 and moves exactly those blocks between the device and the
    buffer, whatever the size of the bounce buffer: a write changes no byte of
    the disk outside the blocks and none of the buffer, a read none of the disk
    and no byte of memory outside the buffer; the position and the residue of
    the request advance by the bytes moved and the device is idle again. *)
Theorem disk0_io_transfers st iob w b n :
  disk_ok st -> 0 < disk0_sem st -> block_request iob b n -> b + n <= d_blocks st ->
  exists st' iob', disk0_io iob w st = Done ((0, iob'), st') /\
    transferred w b n st iob st' iob'.
Proof. apply disk0_io_transfers_correct. Qed.

(** [disk0_io] refuses, changing nothing, a request that is not aligned to
    whole blocks and one that leaves the device. *)
Theorem disk0_io_rejects st iob w :
  (Z.rem (io_offset iob) 4096 <> 0 \/ io_resid iob mod 4096 <> 0 \/
   d_blocks st < u32 (u32 (Z.quot (io_offset iob) 4096) + u32 (io_resid iob / 4096))) ->
  disk0_io iob w st = Done ((- E_INVAL, iob), st).
Proof.
  intros H. unfold disk0_io. change DISK0_BLKSIZE with 4096.
  destruct (Z.eqb_spec (Z.rem (io_offset iob) 4096) 0); [|done].
  destruct (Z.eqb_spec (io_resid iob mod 4096) 0); [|done].
  destruct H as [?|[?|?]]; [done..|]. cbn [negb orb].
  mstep (eq_refl : get d_blocks st = Done (d_blocks st, st)).
  by destruct (Z.ltb_spec (d_blocks st)
    (u32 (u32 (Z.quot (io_offset iob) 4096) + u32 (io_resid iob / 4096)))); [|lia].
Qed.

(** [disk0_device_init] on a RAM disk image leaves an idle, well-formed disk. *)
Lemma disk0_device_init_ok st bgn end_ image buf :
  ide_devices st DISK0_DEV_NO = ramdisk_init bgn end_ image -> bgn <> end_ ->
  exists st', disk0_device_init (Some buf) st = Done (tt, st') /\ disk_ok st' /\ disk0_sem st' = 1.
Proof.
  intros Hdev Hne.
  assert (Hinit : ramdisk_init bgn end_ image = mkIde 1 (u32 (end_ - bgn) / SECTSIZE) image).
  { unfold ramdisk_init, check_initrd. by destruct (Z.eqb_spec bgn end_). }
  rewrite Hinit in Hdev.
  assert (Hv : VALID_IDE st DISK0_DEV_NO = true) by (unfold VALID_IDE; by rewrite Hdev).
  pose proof (u32_range (end_ - bgn)) as Hr.
  assert (0 <= u32 (end_ - bgn) / 512 < 2 ^ 23).
  { split; [apply Z.div_pos; lia|apply Z.div_lt_upper_bound; lia]. }
  unfold disk0_device_init, ide_device_valid, ide_device_size. mrun. rewrite Hv. mrun.
  eexists. split; [done|]. rewrite Hv, Hdev. split; [|done]. change DISK0_BLK_NSECT with 8.
  pose proof (Z.mul_div_le (u32 (end_ - bgn) / 512) 8 ltac:(lia)).
  pose proof (Z.div_pos (u32 (end_ - bgn) / 512) 8 ltac:(lia) ltac:(lia)).
  split; cbn; rewrite ?Hdev; cbn; unfold MAX_DISK_NSECS, SECTSIZE.
  - unfold VALID_IDE. cbn. by rewrite Hdev.
  - lia.
  - lia.
  - lia.
  - done.
Qed.

(** ** The interface of block devices

    What the file system relies on: a request for whole blocks inside the
    device succeeds and moves exactly those bytes. *)
Definition moved (w : bool) (b n : Z) (m m' : mem) (iob iob' : iobuf) : Prop :=
  io_base iob' = io_base iob + n * 4096 /\ io_offset iob' = io_offset iob + n * 4096 /\
  io_resid iob' = io_resid iob - n * 4096 /\ io_len iob' = io_len iob /\
  if w then
    (forall a, io_mem iob' a = io_mem iob a) /\
    (forall a, m' a = copy m (b * 4096) (io_mem iob) (io_base iob) (n * 4096) a)
  else
    (forall a, m' a = m a) /\
    (forall a, io_mem iob' a = copy (io_mem iob) (io_base iob) m (b * 4096) (n * 4096) a).

Class BlockDevice (D : Type) := {
  dev_blocks : D -> Z;
  dev_blocksize : D -> Z;
  dop_io : iobuf -> bool -> ST D (Z * iobuf);
  dev_byte : D -> mem;
  dev_ok : D -> Prop;
  dev_blocks_bound d : dev_ok d -> 0 <= dev_blocks d <= 2 ^ 20;
  dev_blocksize_ok d : dev_ok d -> dev_blocksize d = 4096;
  dop_io_moves d iob w b n :
    dev_ok d -> block_request iob b n -> b + n <= dev_blocks d ->
    exists d' iob', dop_io iob w d = Done ((0, iob'), d') /\
      dev_ok d' /\ dev_blocks d' = dev_blocks d /\
      moved w b n (dev_byte d) (dev_byte d') iob iob' }.

#[export] Program Instance disk0_device : BlockDevice disks := {|
  dev_blocks := d_blocks; dev_blocksize := d_blocksize; dop_io := disk0_io;
  dev_byte := disk_byte; dev_ok := fun st => disk_ok st /\ 0 < disk0_sem st |}.
Next Obligation. intros st [[_ [? ?] ? _ _] _]. lia. Qed.
Next Obligation. by intros st [[_ _ _ _ ->] _]. Qed.
Next Obligation.
  cbn. intros st iob w b n [Hok Hsem] Hreq Hle.
  destruct (disk0_io_transfers_correct st iob w b n Hok Hsem Hreq Hle) as (st' & iob' & Hrun & Ht).
  destruct Ht as (Hok' & Hd & Hs & Hm). exists st', iob'. split_and!; try done. lia.
Qed.

(** ** Witnesses: a disk of eight blocks *)
Definition sample_disk : disks :=
  mkDisks (fun _ => mkIde 1 64 (fun a => a mod 256)) (fun _ => 0) 1 8 4096.
Definition sample_request : iobuf := iobuf_init (fun _ => 0) 100 (5 * 4096) (2 * 4096).

Lemma sample_disk_ok : disk_ok sample_disk.
Proof. split; cbn; unfold MAX_DISK_NSECS; lia || done. Qed.

Lemma disk0_io_transfers_witness :
  disk_ok sample_disk /\ block_request sample_request 2 5 /\
  exists st' iob', disk0_io sample_request false sample_disk = Done ((0, iob'), st') /\
    transferred false 2 5 sample_disk sample_request st' iob'.
Proof.
  assert (block_request sample_request 2 5) as Hreq by (split_and!; done || lia).
  split; [exact sample_disk_ok|]. split; [exact Hreq|].
  apply (disk0_io_transfers sample_disk sample_request false 2 5 sample_disk_ok); [cbn; lia|exact Hreq|cbn; lia].
Defined.

Lemma disk0_io_rejects_witness :
  disk0_io (iobuf_init (fun _ => 0) 0 4096 (8 * 4096)) true sample_disk
  = Done ((- E_INVAL, iobuf_init (fun _ => 0) 0 4096 (8 * 4096)), sample_disk).
Proof.
  apply (disk0_io_rejects sample_disk (iobuf_init (fun _ => 0) 0 4096 (8 * 4096)) true).
  right; right. reflexivity.
Defined.
