(* ===== verification/Bitmap.v ===== *)
(** * The free-block bitmap (kern/fs/sfs/bitmap.c)

    [map] is the memory of the words; a set bit is a free block. *)
From S2P Require Import Prelude Libs Mem.

Definition WORD_BITS : Z := 32.
Record bitmap := mkBitmap { nbits : Z; nwords : Z; map : mem }.
Definition word (bm : bitmap) (ix : Z) : Z := get32 (map bm) (4 * ix).
Definition set_word (ix v : Z) (bm : bitmap) : bitmap :=
  mkBitmap (nbits bm) (nwords bm) (put32 (map bm) (4 * ix) v).

(** [map[ix] ^= (1 << overbits)] for [overbits .. WORD_BITS). *)
Fixpoint clear_overbits (k : nat) (ix overbits : Z) (bm : bitmap) : bitmap :=
  match k with
  | O => bm
  | S k' => clear_overbits k' ix (overbits + 1)
              (set_word ix (Z.lxor (word bm ix) (Z.shiftl 1 overbits)) bm)
  end.

(** The two arguments are what [kmalloc] returns for the descriptor and for
    the words (with their former contents), if anything. *)
Definition bitmap_create (nbits : Z) (desc : bool) (words : option mem) : outcome (option bitmap) :=
  if negb (negb (nbits =? 0) && (nbits <? u64 (nbits + WORD_BITS))) then Panicked
  else if negb desc then Done None
  else
    let nwords := ROUNDUP_DIV nbits WORD_BITS in
    match words with
    | None => Done None
    | Some m =>
        let bm := mkBitmap nbits nwords (fill m 0 (4 * nwords) 0xFF) in
        if nbits =? u32 (nwords * WORD_BITS) then Done (Some bm)
        else
          let ix := u32 (nwords - 1) in
          let overbits := u32 (nbits - ix * WORD_BITS) in
          if (nbits / WORD_BITS =? ix) && (0 <? overbits) && (overbits <? WORD_BITS)
          then Done (Some (clear_overbits (Z.to_nat (WORD_BITS - overbits)) ix overbits bm))
          else Panicked
    end.

(** The inner loop of [bitmap_alloc]: the first set bit of the word. *)
Fixpoint first_bit (k : nat) (w offset : Z) : option Z :=
  match k with
  | O => None
  | S k' => if Z.land w (Z.shiftl 1 offset) =? 0 then first_bit k' w (offset + 1)
            else Some offset
  end.

(** The outer loop over the words. *)
Fixpoint alloc_loop (k : nat) (ix : Z) (bm : bitmap) : outcome ((Z * option Z) * bitmap) :=
  match k with
  | O => Done ((- E_NO_MEM, None), bm)
  | S k' =>
      if word bm ix =? 0 then alloc_loop k' (ix + 1) bm
      else match first_bit 32 (word bm ix) 0 with
           | Some offset =>
               Done ((0, Some (u32 (ix * WORD_BITS + offset))),
                     set_word ix (Z.lxor (word bm ix) (Z.shiftl 1 offset)) bm)
           | None => Panicked
           end
  end.

(** The code returned and the index stored, if one is. *)
Definition bitmap_alloc : ST bitmap (Z * option Z) :=
  fun bm => alloc_loop (Z.to_nat (nwords bm)) 0 bm.

Definition bitmap_translate (index : Z) : ST bitmap (Z * Z) :=
  n ← get nbits;
  assert (index <? n) ;;
  mret (index / WORD_BITS, Z.shiftl 1 (index mod WORD_BITS)).

Definition bitmap_test (index : Z) : ST bitmap bool :=
  '(ix, mask) ← bitmap_translate index;
  w ← get (fun bm => word bm ix);
  mret (negb (Z.land w mask =? 0)).

Definition bitmap_free (index : Z) : ST bitmap unit :=
  '(ix, mask) ← bitmap_translate index;
  w ← get (fun bm => word bm ix);
  assert (Z.land w mask =? 0) ;;
  modify (set_word ix (Z.lor w mask)).

Definition bitmap_getdata (bm : bitmap) : mem * Z := (map bm, 4 * nwords bm).

#[export] Hint Unfold bitmap_translate : ucore_run.
Arguments word : simpl never.
Arguments set_word : simpl never.

(** ** The bits *)
Definition bit (bm : bitmap) (i : Z) : bool := Z.testbit (word bm (i / 32)) (i mod 32).

Record bitmap_ok (bm : bitmap) : Prop := mkBitmapOk {
  bm_bytes : bytes_ok (map bm);
  bm_words : nwords bm = (nbits bm + 31) / 32;
  bm_nbits : 0 < nbits bm < 2 ^ 32 - 32;
  bm_tail : forall i, nbits bm <= i < 32 * nwords bm -> bit bm i = false }.

Lemma word_range bm ix : bytes_ok (map bm) -> 0 <= word bm ix < 2 ^ 32.
Proof. intros H. apply (le_get_range _ _ 4 H). Qed.

Lemma word_high bm ix n : bytes_ok (map bm) -> 32 <= n -> Z.testbit (word bm ix) n = false.
Proof.
  intros H Hn. pose proof (word_range bm ix H). apply testbit_high with 32; lia.
Qed.

Lemma word_set bm ix v jx :
  0 <= v < 2 ^ 32 -> word (set_word ix v bm) jx = if decide (jx = ix) then v else word bm jx.
Proof.
  intros Hv. unfold word, set_word, get32, put32. cbn [map]. case_decide as Hd.
  - subst. by apply le_get_put.
  - apply le_get_put_other. lia.
Qed.

Lemma bit_set_word bm ix v i :
  0 <= v < 2 ^ 32 ->
  bit (set_word ix v bm) i = if decide (i / 32 = ix) then Z.testbit v (i mod 32) else bit bm i.
Proof. intros Hv. unfold bit. rewrite word_set by done. by case_decide. Qed.

Lemma testbit_mask o n : 0 <= o -> 0 <= n -> Z.testbit (Z.shiftl 1 o) n = bool_decide (n = o).
Proof.
  intros. rewrite Z.shiftl_1_l, Z.pow2_bits_eqb by lia.
  destruct (Z.eqb_spec o n); case_bool_decide; congruence.
Qed.

Lemma land_mask_zero w o : 0 <= o -> (Z.land w (Z.shiftl 1 o) =? 0) = negb (Z.testbit w o).
Proof.
  intros Ho. destruct (Z.eqb_spec (Z.land w (Z.shiftl 1 o)) 0) as [He|He].
  - pose proof (f_equal (fun z => Z.testbit z o) He) as Hb. cbn in Hb.
    rewrite Z.land_spec, testbit_mask, bool_decide_eq_true_2, Z.testbit_0_l, andb_true_r in Hb by done.
    by rewrite Hb.
  - destruct (Z.testbit w o) eqn:Hb; [done|]. destruct He. apply Z.bits_inj'. intros n Hn.
    rewrite Z.land_spec, testbit_mask, Z.testbit_0_l by done.
    case_bool_decide; subst; [by rewrite Hb|by rewrite andb_false_r].
Qed.

(** Changing one bit of a word, by [^=] or [|=]. *)
Lemma lxor_mask_range w o : 0 <= w < 2 ^ 32 -> 0 <= o < 32 -> 0 <= Z.lxor w (Z.shiftl 1 o) < 2 ^ 32.
Proof.
  intros Hw Ho. assert (0 <= Z.lxor w (Z.shiftl 1 o)).
  { rewrite Z.lxor_nonneg, Z.shiftl_1_l. pose proof (Z.pow_nonneg 2 o). lia. }
  split; [done|]. apply range_of_testbit; [lia|done|]. intros n Hn.
  rewrite Z.lxor_spec, testbit_mask, bool_decide_eq_false_2, (testbit_high w 32) by lia. done.
Qed.

Lemma lor_mask_range w o : 0 <= w < 2 ^ 32 -> 0 <= o < 32 -> 0 <= Z.lor w (Z.shiftl 1 o) < 2 ^ 32.
Proof.
  intros Hw Ho. assert (0 <= Z.lor w (Z.shiftl 1 o)).
  { rewrite Z.lor_nonneg, Z.shiftl_1_l. pose proof (Z.pow_nonneg 2 o). lia. }
  split; [done|]. apply range_of_testbit; [lia|done|]. intros n Hn.
  rewrite Z.lor_spec, testbit_mask, bool_decide_eq_false_2, (testbit_high w 32) by lia. done.
Qed.

Lemma index_parts i j : (i / 32 = j / 32 /\ i mod 32 = j mod 32) <-> i = j.
Proof. split; [|by intros ->]. intros [? ?]. rewrite (Z.div_mod i 32), (Z.div_mod j 32) by lia. congruence. Qed.

Lemma bit_flip bm i j :
  bytes_ok (map bm) -> 0 <= i -> 0 <= j ->
  bit (set_word (i / 32) (Z.lxor (word bm (i / 32)) (Z.shiftl 1 (i mod 32))) bm) j
  = if decide (j = i) then negb (bit bm i) else bit bm j.
Proof.
  intros Hb Hi Hj. pose proof (Z.mod_pos_bound i 32 ltac:(lia)).
  rewrite bit_set_word by (by apply lxor_mask_range; [apply word_range|]).
  case_decide as Hd; case_decide as Hji; subst; try done.
  - by rewrite Z.lxor_spec, testbit_mask, bool_decide_eq_true_2, xorb_true_r by lia.
  - pose proof (Z.mod_pos_bound j 32 ltac:(lia)).
    rewrite Z.lxor_spec, testbit_mask, bool_decide_eq_false_2, xorb_false_r by
      (try lia; intros ?; apply Hji; by apply index_parts).
    unfold bit. by rewrite Hd.
Qed.

Lemma bit_set bm i j :
  bytes_ok (map bm) -> 0 <= i -> 0 <= j ->
  bit (set_word (i / 32) (Z.lor (word bm (i / 32)) (Z.shiftl 1 (i mod 32))) bm) j
  = bool_decide (j = i) || bit bm j.
Proof.
  intros Hb Hi Hj. pose proof (Z.mod_pos_bound i 32 ltac:(lia)).
  rewrite bit_set_word by (by apply lor_mask_range; [apply word_range|]).
  case_decide as Hd.
  - pose proof (Z.mod_pos_bound j 32 ltac:(lia)).
    rewrite Z.lor_spec, testbit_mask by lia. unfold bit. rewrite Hd, orb_comm. f_equal.
    apply bool_decide_ext. rewrite <- (index_parts j i). tauto.
  - rewrite bool_decide_eq_false_2; [done|]. by intros ->.
Qed.

Lemma first_bit_spec k : forall w o,
  0 <= o ->
  match first_bit k w o with
  | Some p => o <= p < o + Z.of_nat k /\ Z.testbit w p = true /\
              forall q, o <= q < p -> Z.testbit w q = false
  | None => forall q, o <= q < o + Z.of_nat k -> Z.testbit w q = false
  end.
Proof.
  induction k as [|k IH]; intros w o Ho; cbn [first_bit]; [lia|].
  rewrite land_mask_zero by done. destruct (Z.testbit w o) eqn:Hb; cbn.
  - split_and!; [lia|lia|done|lia].
  - specialize (IH w (o + 1) ltac:(lia)). destruct (first_bit k w (o + 1)) as [p|].
    + destruct IH as (? & ? & Hq). split_and!; [lia|lia|done|].
      intros q ?. destruct (decide (q = o)) as [->|]; [done|]. apply Hq. lia.
    + intros q ?. destruct (decide (q = o)) as [->|]; [done|]. apply IH. lia.
Qed.

Lemma word_zero_bits bm ix : word bm ix = 0 -> forall i, i / 32 = ix -> bit bm i = false.
Proof. intros H i <-. unfold bit. rewrite H. apply Z.testbit_0_l. Qed.

Lemma alloc_loop_spec k : forall bm ix,
  bytes_ok (map bm) -> 0 <= ix -> (ix + Z.of_nat k) * 32 < 2 ^ 32 ->
  (forall i, 32 * ix <= i < 32 * (ix + Z.of_nat k) -> bit bm i = false) /\
    alloc_loop k ix bm = Done ((- E_NO_MEM, None), bm) \/
  exists i, 32 * ix <= i < 32 * (ix + Z.of_nat k) /\ bit bm i = true /\
    (forall j, 32 * ix <= j < i -> bit bm j = false) /\
    alloc_loop k ix bm
    = Done ((0, Some i), set_word (i / 32) (Z.lxor (word bm (i / 32)) (Z.shiftl 1 (i mod 32))) bm).
Proof.
  induction k as [|k IH]; intros bm ix Hb Hix Hlt; cbn [alloc_loop].
  { left. split; [lia|done]. }
  assert (Hin : forall j, 32 * ix <= j < 32 * ix + 32 -> j / 32 = ix).
  { intros j Hj. symmetry. apply Z.div_unique with (j - 32 * ix); lia. }
  destruct (Z.eqb_spec (word bm ix) 0) as [Hz|Hz].
  - pose proof (word_zero_bits bm ix Hz) as H0.
    destruct (IH bm (ix + 1)) as [[Hall ->]|(i & Hi & Hbit & Hfirst & ->)]; try done; try lia.
    + left. split; [|done]. intros i Hi.
      destruct (decide (i < 32 * ix + 32)); [apply H0, Hin; lia|apply Hall; lia].
    + right. exists i. split_and!; try lia; try done. intros j Hj.
      destruct (decide (j < 32 * ix + 32)); [apply H0, Hin; lia|apply Hfirst; lia].
  - pose proof (first_bit_spec 32 (word bm ix) 0 ltac:(lia)) as Hf.
    destruct (first_bit 32 (word bm ix) 0) as [o|].
    + destruct Hf as (Ho & Hbit & Hfirst). right. exists (ix * 32 + o).
      assert (Hd : (ix * 32 + o) / 32 = ix) by (apply Hin; lia).
      assert (Hm : (ix * 32 + o) mod 32 = o).
      { symmetry. apply Z.mod_unique with ix; lia. }
      unfold bit. rewrite Hd, Hm. split_and!; try done; try lia.
      * intros j Hj. assert (Hjd : j / 32 = ix) by (apply Hin; lia). rewrite Hjd. apply Hfirst.
        pose proof (Z.div_mod j 32). pose proof (Z.mod_pos_bound j 32). lia.
      * unfold WORD_BITS. by rewrite u32_small by lia.
    + destruct Hz. apply Z.bits_inj'. intros n Hn. rewrite Z.testbit_0_l.
      destruct (decide (n < 32)); [apply Hf; lia|]. apply word_high; [done|lia].
Qed.

Lemma bitmap_ok_bits bm i : bitmap_ok bm -> 0 <= i < 32 * nwords bm -> bit bm i = true -> i < nbits bm.
Proof.
  intros Hok Hi Hb. destruct (decide (i < nbits bm)); [done|].
  rewrite (bm_tail _ Hok) in Hb by lia. done.
Qed.

Lemma nwords_bound bm : bitmap_ok bm ->
  0 < nwords bm /\ nbits bm <= 32 * nwords bm /\ 32 * nwords bm < nbits bm + 32.
Proof.
  intros [_ Hw Hn _]. rewrite Hw. pose proof (Z.div_mod (nbits bm + 31) 32 ltac:(lia)).
  pose proof (Z.mod_pos_bound (nbits bm + 31) 32 ltac:(lia)). lia.
Qed.

(** The state after the bit [i] changed to [b]. *)
Definition bit_changed (bm bm' : bitmap) (i : Z) (b : bool) : Prop :=
  bitmap_ok bm' /\ nbits bm' = nbits bm /\ nwords bm' = nwords bm /\
  forall j, 0 <= j -> bit bm' j = if decide (j = i) then b else bit bm j.

Lemma bit_changed_intro bm i v b :
  bitmap_ok bm -> 0 <= i < nbits bm ->
  (forall j, 0 <= j -> bit (set_word (i / 32) v bm) j = if decide (j = i) then b else bit bm j) ->
  bit_changed bm (set_word (i / 32) v bm) i b.
Proof.
  intros Hok Hi Hbit. split_and!; [|done..]. destruct Hok as [Hb Hw Hn Ht].
  split; [by apply le_put_ok|done|done|].
  intros j Hj. change (nbits bm <= j < 32 * nwords bm) in Hj. rewrite Hbit, decide_False by lia. by apply Ht.
Qed.

Lemma bitmap_alloc_correct bm :
  bitmap_ok bm ->
  ((forall i, 0 <= i < nbits bm -> bit bm i = false) /\
     bitmap_alloc bm = Done ((- E_NO_MEM, None), bm)) \/
  exists i bm', 0 <= i < nbits bm /\ bit bm i = true /\
    (forall j, 0 <= j < i -> bit bm j = false) /\
    bitmap_alloc bm = Done ((0, Some i), bm') /\ bit_changed bm bm' i false.
Proof.
  intros Hok. pose proof (nwords_bound _ Hok) as (Hn1 & Hn2 & Hn3).
  pose proof Hok as [Hb Hw Hn Ht].
  unfold bitmap_alloc.
  destruct (alloc_loop_spec (Z.to_nat (nwords bm)) bm 0 Hb) as
    [[Hall Hrun]|(i & Hi & Hbit & Hfirst & Hrun)]; rewrite ?Z2Nat.id in *; try lia.
  - left. split; [|done]. intros i Hi. apply Hall. lia.
  - right. eexists i, _. split_and!; [lia| |done| |done|].
    + apply (bitmap_ok_bits bm i Hok); [lia|done].
    + intros j Hj. apply Hfirst. lia.
    + apply bit_changed_intro; [done| |].
      * pose proof (bitmap_ok_bits bm i Hok ltac:(lia) Hbit). lia.
      * intros j Hj. rewrite bit_flip by (done || lia). case_decide; [by rewrite Hbit|done].
Qed.

(** [bitmap_alloc] finds the lowest free bit, marks it in use, changes no
    other bit and returns its index; it fails, changing nothing, exactly when
    no bit below [nbits] is free. *)
Theorem bitmap_alloc_spec bm :
  bitmap_ok bm ->
  ((forall i, 0 <= i < nbits bm -> bit bm i = false) /\
     bitmap_alloc bm = Done ((- E_NO_MEM, None), bm)) \/
  exists i bm', 0 <= i < nbits bm /\ bit bm i = true /\
    (forall j, 0 <= j < i -> bit bm j = false) /\
    bitmap_alloc bm = Done ((0, Some i), bm') /\ bit_changed bm bm' i false.
Proof. apply bitmap_alloc_correct. Qed.

Lemma bitmap_test_spec bm i :
  0 <= i < nbits bm -> bitmap_test i bm = Done (bit bm i, bm).
Proof.
  intros Hi. unfold bitmap_test. mrun. destruct (Z.ltb_spec i (nbits bm)); [|lia]. mrun.
  pose proof (Z.mod_pos_bound i WORD_BITS ltac:(done)).
  by rewrite land_mask_zero, negb_involutive by lia.
Qed.

Lemma bitmap_free_correct bm i :
  bitmap_ok bm -> 0 <= i ->
  if (i <? nbits bm) && negb (bit bm i) then
    exists bm', bitmap_free i bm = Done (tt, bm') /\ bit_changed bm bm' i true
  else bitmap_free i bm = Panicked.
Proof.
  intros Hok Hi. unfold bitmap_free. mrun.
  destruct (Z.ltb_spec i (nbits bm)) as [Hlt|]; [|done]. cbn [andb]. mrun.
  pose proof (Z.mod_pos_bound i WORD_BITS ltac:(done)).
  rewrite land_mask_zero by lia.
  change (Z.testbit (word bm (i / WORD_BITS)) (i mod WORD_BITS)) with (bit bm i).
  destruct (bit bm i) eqn:Hb; [done|]. mrun. eexists. split; [done|].
  apply bit_changed_intro; [done|lia|]. intros j Hj.
  change WORD_BITS with 32. rewrite bit_set by (done || apply Hok).
  case_decide; [by rewrite bool_decide_eq_true_2|by rewrite bool_decide_eq_false_2].
Qed.

(** [bitmap_free] on a bit in use sets it free and changes no other bit;
    on a free bit, or past the end, it panics. *)
Theorem bitmap_free_spec bm i :
  bitmap_ok bm -> 0 <= i ->
  if (i <? nbits bm) && negb (bit bm i) then
    exists bm', bitmap_free i bm = Done (tt, bm') /\ bit_changed bm bm' i true
  else bitmap_free i bm = Panicked.
Proof. apply bitmap_free_correct. Qed.

Lemma clear_overbits_spec k : forall bm ix o,
  bytes_ok (map bm) -> 0 <= ix -> 0 <= o -> o + Z.of_nat k = 32 ->
  (forall j, 32 * ix + o <= j < 32 * ix + 32 -> bit bm j = true) ->
  let bm' := clear_overbits k ix o bm in
  bytes_ok (map bm') /\ nbits bm' = nbits bm /\ nwords bm' = nwords bm /\
  (forall j, 0 <= j -> bit bm' j = if decide (32 * ix + o <= j < 32 * ix + 32) then false
                                   else bit bm j).
Proof.
  induction k as [|k IH]; intros bm ix o Hb Hix Ho Hk Hall bm'; cbn [clear_overbits] in bm'.
  { split_and!; try done. intros j Hj. rewrite decide_False by lia. done. }
  set (i := 32 * ix + o).
  assert (Hd : i / 32 = ix) by (symmetry; apply Z.div_unique with o; lia).
  assert (Hm : i mod 32 = o) by (symmetry; apply Z.mod_unique with ix; lia).
  set (bm1 := set_word ix (Z.lxor (word bm ix) (Z.shiftl 1 o)) bm) in *.
  assert (Hflip : forall j, 0 <= j -> bit bm1 j = if decide (j = i) then false else bit bm j).
  { intros j Hj. unfold bm1. pose proof (bit_flip bm i j Hb ltac:(lia) Hj) as Hf.
    rewrite Hd, Hm in Hf. rewrite Hf. rewrite (Hall i) by lia. done. }
  assert (Hb1 : bytes_ok (map bm1)) by by apply le_put_ok.
  destruct (IH bm1 ix (o + 1) Hb1) as (H1 & H2 & H3 & H4); try lia.
  { intros j Hj. rewrite Hflip, decide_False by lia. apply Hall. lia. }
  fold bm' in H1, H2, H3, H4. split_and!; try done. intros j Hj. rewrite H4 by done.
  repeat case_decide; try lia; try done; rewrite Hflip by done; case_decide; try done; lia.
Qed.

Lemma filled_bits m n j :
  0 <= j < 32 * n -> Z.testbit (get32 (fill m 0 (4 * n) 0xFF) (4 * (j / 32))) (j mod 32) = true.
Proof.
  intros Hj. assert (0 <= j / 32 < n).
  { split; [apply Z.div_pos; lia|apply Z.div_lt_upper_bound; lia]. }
  unfold get32. cbn [le_get]. rewrite !fill_in by lia.
  pose proof (Z.mod_pos_bound j 32 ltac:(lia)). generalize dependent (j mod 32). intros o Ho.
  change (255 + 256 * (255 + 256 * (255 + 256 * (255 + 256 * 0)))) with (Z.ones 32).
  by apply Z.ones_spec_low.
Qed.

(** [bitmap_create] builds a well-formed bitmap of [nbits] bits, all free,
    with the padding of the last word in use; without memory it returns
    nothing. *)
Theorem bitmap_create_spec n m :
  0 < n < 2 ^ 32 - 32 -> bytes_ok m ->
  (exists bm, bitmap_create n true (Some m) = Done (Some bm) /\ bitmap_ok bm /\ nbits bm = n /\
     forall i, 0 <= i < n -> bit bm i = true) /\
  bitmap_create n true None = Done None /\ bitmap_create n false (Some m) = Done None.
Proof.
  intros Hn Hm. unfold bitmap_create. unfold WORD_BITS, ROUNDUP_DIV.
  destruct (Z.eqb_spec n 0); [lia|]. rewrite !u64_small by lia.
  destruct (Z.ltb_spec n (n + 32)); [|lia]. cbn [negb andb].
  split; [|done]. replace (n + 32 - 1) with (n + 31) by lia. set (nw := (n + 31) / 32).
  assert (Hnw : 0 < nw /\ n <= 32 * nw /\ 32 * nw < n + 32).
  { unfold nw. pose proof (Z.div_mod (n + 31) 32 ltac:(lia)).
    pose proof (Z.mod_pos_bound (n + 31) 32 ltac:(lia)). lia. }
  set (bm := mkBitmap n nw (fill m 0 (4 * nw) 255)).
  assert (Hb : bytes_ok (map bm)) by by apply fill_ok.
  assert (Hfull : forall j, 0 <= j < 32 * nw -> bit bm j = true) by (intros; by apply filled_bits).
  rewrite (u32_small (nw * 32)), (u32_small (nw - 1)) by lia.
  destruct (Z.eqb_spec n (nw * 32)) as [He|Hne].
  { eexists. split; [done|]. split_and!; [split|done|]; cbn; [done|done|lia| |].
    - intros i Hi. lia.
    - intros i Hi. apply Hfull. lia. }
  rewrite (u32_small (n - (nw - 1) * 32)) by lia. set (o := n - (nw - 1) * 32).
  assert (Hdiv : n / 32 = nw - 1) by (symmetry; apply Z.div_unique with o; lia).
  rewrite Hdiv, Z.eqb_refl. destruct (Z.ltb_spec 0 o); [|lia]. destruct (Z.ltb_spec o 32); [|lia].
  cbn [andb]. destruct (clear_overbits_spec (Z.to_nat (32 - o)) bm (nw - 1) o Hb) as (G1 & G2 & G3 & G4);
    try lia; [intros j Hj; apply Hfull; lia|].
  eexists. split; [done|]. split_and!; [split|done|]; rewrite ?G2, ?G3; try done.
  - intros i Hi. cbn in Hi. rewrite G4, decide_True by lia. done.
  - intros i Hi. rewrite G4, decide_False by lia. apply Hfull. lia.
Qed.

(** ** Witnesses *)
Definition sample_bitmap : bitmap := mkBitmap 32 1 (fun a => if a =? 1 then 4 else 0).

Lemma sample_bitmap_ok : bitmap_ok sample_bitmap.
Proof.
  split; cbn; [|done|lia|intros; lia]. intros a. cbn. destruct (a =? 1); lia.
Qed.

Lemma bitmap_alloc_witness :
  ((forall i, 0 <= i < 32 -> bit sample_bitmap i = false) /\
     bitmap_alloc sample_bitmap = Done ((- E_NO_MEM, None), sample_bitmap)) \/
  exists i bm', 0 <= i < 32 /\ bit sample_bitmap i = true /\
    (forall j, 0 <= j < i -> bit sample_bitmap j = false) /\
    bitmap_alloc sample_bitmap = Done ((0, Some i), bm') /\ bit_changed sample_bitmap bm' i false.
Proof. exact (bitmap_alloc_spec sample_bitmap sample_bitmap_ok). Defined.

Lemma bitmap_free_witness :
  exists bm', bitmap_free 3 sample_bitmap = Done (tt, bm') /\ bit_changed sample_bitmap bm' 3 true.
Proof. exact (bitmap_free_spec sample_bitmap 3 sample_bitmap_ok ltac:(lia)). Defined.

Lemma bitmap_create_witness :
  exists bm, bitmap_create 40 true (Some (fun _ => 0)) = Done (Some bm) /\ bitmap_ok bm /\
    nbits bm = 40 /\ forall i, 0 <= i < 40 -> bit bm i = true.
Proof.
  apply (bitmap_create_spec 40 (fun _ => 0)); [lia|intros a; lia].
Defined.
