(* ===== verification/SfsIo.v ===== *)
(** * The simple file system: state and block I/O (kern/fs/sfs/sfs.h, sfs_io.c)

    The mounted file system over any [BlockDevice], and the routines that move
    whole blocks and parts of blocks.  Inodes are named by the addresses of
    their in-memory objects; the linked list of inodes and the hash chains are
    the sequences their circular lists hold (CList). *)
From Stdlib Require Import FunctionalExtensionality.
From S2P Require Import Prelude Libs Mem Disk Bitmap.

Definition SFS_MAGIC : Z := 0x2f8dbe2a.
Definition SFS_BLKSIZE : Z := PGSIZE.
Definition SFS_NDIRECT : Z := 12.
Definition SFS_MAX_INFO_LEN : Z := 31.
Definition FS_MAX_FNAME_LEN : Z := 255.
Definition SFS_MAX_FNAME_LEN : Z := FS_MAX_FNAME_LEN.
Definition SFS_MAX_FILE_SIZE : Z := 1024 * 1024 * 128.
Definition SFS_BLKN_SUPER : Z := 0.
Definition SFS_BLKN_ROOT : Z := 1.
Definition SFS_BLKN_FREEMAP : Z := 2.
Definition SFS_BLKBITS : Z := SFS_BLKSIZE * 8.
Definition SFS_BLK_NENTRY : Z := SFS_BLKSIZE / 4.
Definition SFS_TYPE_INVAL : Z := 0.
Definition SFS_TYPE_FILE : Z := 1.
Definition SFS_TYPE_DIR : Z := 2.
Definition SFS_TYPE_LINK : Z := 3.
Definition SFS_HLIST_SHIFT : Z := 10.
Definition SFS_HLIST_SIZE : Z := 2 ^ SFS_HLIST_SHIFT.
Definition sin_hashfn (x : Z) : Z := hash32 x SFS_HLIST_SHIFT.

Record sfs_super := mkSuper { magic : Z; blocks : Z; unused_blocks : Z; info : mem }.
Definition sfs_freemap_bits (sb : sfs_super) : Z := u32 (ROUNDUP (blocks sb) SFS_BLKBITS).
Definition sfs_freemap_blocks (sb : sfs_super) : Z := u32 (ROUNDUP_DIV (blocks sb) SFS_BLKBITS).

Record sfs_disk_inode := mkDin {
  size : Z; type : Z; nlinks : Z; iblocks : Z; direct : Z -> Z; indirect : Z }.
Record sfs_inode := mkSin {
  din : sfs_disk_inode; ino : Z; dirty : bool; reclaim_count : Z; sem : Z;
  ref_count : Z; open_count : Z }.    (* of the enclosing [struct inode] *)
Record sfs_disk_entry := mkEntry { e_ino : Z; e_name : list Z }.

Record sfs_fs (D : Type) := mkSfs {
  super : sfs_super; dev : D; freemap : bitmap; super_dirty : bool; sfs_buffer : mem;
  fs_sem : Z; io_sem : Z; mutex_sem : Z;
  sins : Z -> sfs_inode; inode_list : list Z; hash_list : Z -> list Z }.
Arguments mkSfs {D} _ _ _ _ _ _ _ _ _ _ _.
Arguments super {D} _. Arguments dev {D} _. Arguments freemap {D} _.
Arguments super_dirty {D} _. Arguments sfs_buffer {D} _. Arguments fs_sem {D} _.
Arguments io_sem {D} _. Arguments mutex_sem {D} _. Arguments sins {D} _.
Arguments inode_list {D} _. Arguments hash_list {D} _.

(** Field updates. *)
Section setters.
  Context {D : Type}.
  Implicit Types (s : sfs_fs D).

Definition set_super x s := mkSfs x (dev s) (freemap s) (super_dirty s) (sfs_buffer s) (fs_sem s)
  (io_sem s) (mutex_sem s) (sins s) (inode_list s) (hash_list s).
Definition set_dev (x : D) s := mkSfs (super s) x (freemap s) (super_dirty s) (sfs_buffer s) (fs_sem s)
  (io_sem s) (mutex_sem s) (sins s) (inode_list s) (hash_list s).
Definition set_freemap x s := mkSfs (super s) (dev s) x (super_dirty s) (sfs_buffer s) (fs_sem s)
  (io_sem s) (mutex_sem s) (sins s) (inode_list s) (hash_list s).
Definition set_super_dirty x s := mkSfs (super s) (dev s) (freemap s) x (sfs_buffer s) (fs_sem s)
  (io_sem s) (mutex_sem s) (sins s) (inode_list s) (hash_list s).
Definition set_sfs_buffer x s := mkSfs (super s) (dev s) (freemap s) (super_dirty s) x (fs_sem s)
  (io_sem s) (mutex_sem s) (sins s) (inode_list s) (hash_list s).
Definition set_fs_sem x s := mkSfs (super s) (dev s) (freemap s) (super_dirty s) (sfs_buffer s) x
  (io_sem s) (mutex_sem s) (sins s) (inode_list s) (hash_list s).
Definition set_io_sem x s := mkSfs (super s) (dev s) (freemap s) (super_dirty s) (sfs_buffer s)
  (fs_sem s) x (mutex_sem s) (sins s) (inode_list s) (hash_list s).
Definition set_sins x s := mkSfs (super s) (dev s) (freemap s) (super_dirty s) (sfs_buffer s)
  (fs_sem s) (io_sem s) (mutex_sem s) x (inode_list s) (hash_list s).
Definition set_lists x y s := mkSfs (super s) (dev s) (freemap s) (super_dirty s) (sfs_buffer s)
  (fs_sem s) (io_sem s) (mutex_sem s) (sins s) x y.
Definition on_sin (n : Z) (f : sfs_inode -> sfs_inode) s := set_sins (upd (sins s) n (f (sins s n))) s.
End setters.

Definition set_unused (f : Z -> Z) (sb : sfs_super) : sfs_super :=
  mkSuper (magic sb) (blocks sb) (u32 (f (unused_blocks sb))) (info sb).
Definition set_dirty (b : bool) (i : sfs_inode) : sfs_inode :=
  mkSin (din i) (ino i) b (reclaim_count i) (sem i) (ref_count i) (open_count i).
Definition set_sem (v : Z) (i : sfs_inode) : sfs_inode :=
  mkSin (din i) (ino i) (dirty i) (reclaim_count i) v (ref_count i) (open_count i).
Definition set_reclaim (v : Z) (i : sfs_inode) : sfs_inode :=
  mkSin (din i) (ino i) (dirty i) v (sem i) (ref_count i) (open_count i).
Definition set_ref (v : Z) (i : sfs_inode) : sfs_inode :=
  mkSin (din i) (ino i) (dirty i) (reclaim_count i) (sem i) v (open_count i).
Definition set_open (v : Z) (i : sfs_inode) : sfs_inode :=
  mkSin (din i) (ino i) (dirty i) (reclaim_count i) (sem i) (ref_count i) v.
Definition on_din (f : sfs_disk_inode -> sfs_disk_inode) (i : sfs_inode) : sfs_inode :=
  mkSin (f (din i)) (ino i) (dirty i) (reclaim_count i) (sem i) (ref_count i) (open_count i).
Definition set_size (v : Z) (d : sfs_disk_inode) : sfs_disk_inode :=
  mkDin (u32 v) (type d) (nlinks d) (iblocks d) (direct d) (indirect d).
Definition set_iblocks (v : Z) (d : sfs_disk_inode) : sfs_disk_inode :=
  mkDin (size d) (type d) (nlinks d) (u32 v) (direct d) (indirect d).
Definition set_direct (i v : Z) (d : sfs_disk_inode) : sfs_disk_inode :=
  mkDin (size d) (type d) (nlinks d) (iblocks d) (upd (direct d) i v) (indirect d).
Definition set_indirect (v : Z) (d : sfs_disk_inode) : sfs_disk_inode :=
  mkDin (size d) (type d) (nlinks d) (iblocks d) (direct d) v.

(** ** The bytes of the on-disk structures *)
Fixpoint put_words (m : mem) (a : Z) (f : Z -> Z) (i : Z) (k : nat) : mem :=
  match k with
  | O => m
  | S k' => put_words (put32 m (a + 4 * i) (f i)) a f (i + 1) k'
  end.

Definition sizeof_disk_inode : Z := 64.
Definition put_din (m : mem) (d : sfs_disk_inode) : mem :=
  put32 (put_words (put32 (put16 (put16 (put32 m 0 (size d)) 4 (type d)) 6 (nlinks d)) 8 (iblocks d))
                   12 (direct d) 0 12) 60 (indirect d).
Definition get_din (m : mem) : sfs_disk_inode :=
  mkDin (get32 m 0) (get16 m 4) (get16 m 6) (get32 m 8) (fun i => get32 m (12 + 4 * i)) (get32 m 60).

Definition put_super (m : mem) (sb : sfs_super) : mem :=
  copy (put32 (put32 (put32 m 0 (magic sb)) 4 (blocks sb)) 8 (unused_blocks sb)) 12 (info sb) 0 32.
Definition get_super (m : mem) : sfs_super :=
  mkSuper (get32 m 0) (get32 m 4) (get32 m 8) (fun i => m (12 + i)).

(** The string at [a], cut after [k] bytes. *)
Fixpoint cstr (m : mem) (a : Z) (k : nat) : list Z :=
  match k with
  | O => []
  | S k' => if m a =? 0 then [] else m a :: cstr m (a + 1) k'
  end.

Definition sizeof_disk_entry : Z := 260.
(** [sfs_disk_entry] as read, with [name[SFS_MAX_FNAME_LEN] = 0]. *)
Definition get_entry (m : mem) : sfs_disk_entry := mkEntry (get32 m 0) (cstr m 4 255).

(** ** kern/fs/sfs/sfs_lock.c and sfs_io.c *)
Section sfs_io.
  Context {D : Type} `{BlockDevice D}.

Definition lock_sfs_fs : ST (sfs_fs D) unit := lock fs_sem set_fs_sem.
Definition unlock_sfs_fs : ST (sfs_fs D) unit := unlock fs_sem set_fs_sem.
Definition lock_sfs_io : ST (sfs_fs D) unit := lock io_sem set_io_sem.
Definition unlock_sfs_io : ST (sfs_fs D) unit := unlock io_sem set_io_sem.

Definition on_dev {A} (m : ST D A) : ST (sfs_fs D) A :=
  fun s => match m (dev s) with
           | Done (a, d) => Done (a, set_dev d s)
           | Panicked => Panicked
           | NoFuel => NoFuel
           end.

(** Returns the code and the memory of [buf]. *)
Definition sfs_rwblock_nolock (buf : mem) (base blkno : Z) (write check : bool)
  : ST (sfs_fs D) (Z * mem) :=
  sb ← get super;
  assert ((negb (blkno =? 0) || negb check) && (blkno <? blocks sb)) ;;
  '(ret, iob) ← on_dev (dop_io (iobuf_init buf base SFS_BLKSIZE (u32 (blkno * SFS_BLKSIZE))) write);
  mret (ret, io_mem iob).

Fixpoint rwblock_loop (nblks : nat) (buf : mem) (base blkno : Z) (write : bool)
  : ST (sfs_fs D) (Z * mem) :=
  match nblks with
  | O => mret (0, buf)
  | S nblks' =>
      '(ret, buf) ← sfs_rwblock_nolock buf base blkno write true;
      if ret =? 0 then rwblock_loop nblks' buf (base + SFS_BLKSIZE) (u32 (blkno + 1)) write
      else mret (ret, buf)
  end.

Definition sfs_rwblock (buf : mem) (base blkno nblks : Z) (write : bool) : ST (sfs_fs D) (Z * mem) :=
  lock_sfs_io ;;
  r ← rwblock_loop (Z.to_nat nblks) buf base blkno write;
  unlock_sfs_io ;;
  mret r.

Definition sfs_rblock (buf : mem) (base blkno nblks : Z) := sfs_rwblock buf base blkno nblks false.
Definition sfs_wblock (buf : mem) (base blkno nblks : Z) := sfs_rwblock buf base blkno nblks true.

(** [sfs_rwblock_nolock] on [sfs->sfs_buffer]. *)
Definition rw_sfs_buffer (blkno : Z) (write check : bool) : ST (sfs_fs D) Z :=
  buf ← get sfs_buffer;
  '(ret, buf) ← sfs_rwblock_nolock buf 0 blkno write check;
  modify (set_sfs_buffer buf) ;;
  mret ret.

Definition sfs_rbuf (buf : mem) (base len blkno offset : Z) : ST (sfs_fs D) (Z * mem) :=
  assert ((0 <=? offset) && (offset <? SFS_BLKSIZE) && (offset + len <=? SFS_BLKSIZE)) ;;
  lock_sfs_io ;;
  ret ← rw_sfs_buffer blkno false true;
  sbuf ← get sfs_buffer;
  unlock_sfs_io ;;
  mret (ret, if ret =? 0 then copy buf base sbuf offset len else buf).

Definition sfs_wbuf (buf : mem) (base len blkno offset : Z) : ST (sfs_fs D) Z :=
  assert ((0 <=? offset) && (offset <? SFS_BLKSIZE) && (offset + len <=? SFS_BLKSIZE)) ;;
  lock_sfs_io ;;
  ret ← rw_sfs_buffer blkno false true;
  ret ← (if ret =? 0 then
           modify (fun s => set_sfs_buffer (copy (sfs_buffer s) offset buf base len) s) ;;
           rw_sfs_buffer blkno true true
         else mret ret);
  unlock_sfs_io ;;
  mret ret.

Definition sfs_sync_super : ST (sfs_fs D) Z :=
  lock_sfs_io ;;
  modify (fun s => set_sfs_buffer (put_super (fill (sfs_buffer s) 0 SFS_BLKSIZE 0) (super s)) s) ;;
  ret ← rw_sfs_buffer SFS_BLKN_SUPER true false;
  unlock_sfs_io ;;
  mret ret.

Definition sfs_sync_freemap : ST (sfs_fs D) Z :=
  nblks ← get (fun s => sfs_freemap_blocks (super s));
  data ← get (fun s => fst (bitmap_getdata (freemap s)));
  r ← sfs_wblock data 0 SFS_BLKN_FREEMAP nblks;
  mret (fst r).

(** [ret] is unset before the loop; a call with no block would return it. *)
Fixpoint clear_loop (nblks : nat) (blkno : Z) (ret : option Z) : ST (sfs_fs D) Z :=
  match nblks with
  | O => match ret with Some r => mret r | None => panic end
  | S nblks' =>
      ret ← rw_sfs_buffer blkno true true;
      if ret =? 0 then clear_loop nblks' (u32 (blkno + 1)) (Some ret) else mret ret
  end.

Definition sfs_clear_block (blkno nblks : Z) : ST (sfs_fs D) Z :=
  lock_sfs_io ;;
  modify (fun s => set_sfs_buffer (fill (sfs_buffer s) 0 SFS_BLKSIZE 0) s) ;;
  ret ← clear_loop (Z.to_nat nblks) blkno None;
  unlock_sfs_io ;;
  mret ret.
End sfs_io.

#[export] Hint Unfold lock_sfs_io unlock_sfs_io lock_sfs_fs unlock_sfs_fs rw_sfs_buffer on_dev
  : ucore_run.

(** ** The simple file system: what the block I/O routines do

    Every routine of sfs_io.c on a mounted, idle file system returns 0 and
    changes the disk by exactly the bytes it is given. *)

Section specs.
  Context {D : Type} `{BlockDevice D}.
  Implicit Types (st : sfs_fs D) (m buf : mem).

(** The bytes of the disk. *)
Definition img st : mem := dev_byte (dev st).

(** The device works, and the file system fits on it. *)
Definition fs_dev st : Prop := dev_ok (dev st) /\ blocks (super st) <= dev_blocks (dev st).

(** No operation holds the I/O lock. *)
Record fs_ready st : Prop := mkReady { ready_dev : fs_dev st; ready_io : 0 < io_sem st }.

(** Only the disk, which now holds [m], and the bounce buffer changed. *)
Definition disk_upd st st' m : Prop :=
  exists d b, st' = set_sfs_buffer b (set_dev d st) /\ dev_ok d /\
    dev_blocks d = dev_blocks (dev st) /\ (forall a, dev_byte d a = m a).

Lemma disk_upd_img st st' m : disk_upd st st' m -> forall a, img st' a = m a.
Proof. by intros (d & b & -> & _ & _ & ?). Qed.

Lemma disk_upd_ready st st' m : disk_upd st st' m -> fs_ready st -> fs_ready st'.
Proof.
  intros (d & b & -> & Hd & Hbl & _) [[H1 H2] H3]. split; cbn; [|done]. split; cbn; [done|by rewrite Hbl].
Qed.

Lemma disk_upd_trans st st1 st2 m1 m2 :
  disk_upd st st1 m1 -> disk_upd st1 st2 m2 -> disk_upd st st2 m2.
Proof.
  intros (d1 & b1 & -> & _ & Hb1 & _) (d2 & b2 & -> & Hd & Hb2 & Hm).
  exists d2, b2. split_and!; try done. cbn in Hb2. congruence.
Qed.

Lemma disk_upd_ext st st' m m' :
  (forall a, m a = m' a) -> disk_upd st st' m -> disk_upd st st' m'.
Proof. intros He (d & b & ? & ? & ? & Hm). exists d, b. split_and!; try done. intros a. by rewrite Hm. Qed.

Lemma disk_upd_refl st : dev_ok (dev st) -> disk_upd st st (img st).
Proof. intros Hd. exists (dev st), (sfs_buffer st). split_and!; try done. by destruct st. Qed.

Lemma set_io_sem_id st v : v = io_sem st -> set_io_sem v st = st.
Proof. intros ->. by destruct st. Qed.

(** ** One block *)
Lemma sfs_rwblock_nolock_spec st buf base b w check :
  fs_dev st -> 0 <= b < blocks (super st) -> (b <> 0 \/ check = false) ->
  exists d m, sfs_rwblock_nolock buf base b w check st = Done ((0, m), set_dev d st) /\
    dev_ok d /\ dev_blocks d = dev_blocks (dev st) /\
    if w then (forall a, m a = buf a) /\
              (forall a, dev_byte d a = copy (img st) (b * 4096) buf base 4096 a)
    else (forall a, dev_byte d a = img st a) /\
         (forall a, m a = copy buf base (img st) (b * 4096) 4096 a).
Proof.
  intros [Hd Hbl] Hb Hc. pose proof (dev_blocks_bound _ Hd) as Hbound.
  unfold sfs_rwblock_nolock. mrun.
  assert (Hcond : (negb (b =? 0) || negb check) && (b <? blocks (super st)) = true).
  { destruct (Z.ltb_spec b (blocks (super st))); [|lia]. destruct (Z.eqb_spec b 0); [|done].
    destruct Hc as [?| ->]; done. }
  rewrite Hcond. mrun. change (b * SFS_BLKSIZE) with (b * 4096). rewrite u32_small by lia.
  set (iob := iobuf_init buf base SFS_BLKSIZE (b * 4096)).
  destruct (dop_io_moves (dev st) iob w b 1 Hd) as (d & iob' & -> & Hd' & Hbl' & Hm).
  { split_and!; cbn; lia || done. }
  { lia. }
  cbn. exists d, (io_mem iob'). split; [done|]. split; [done|]. split; [done|].
  destruct Hm as (_ & _ & _ & _ & Hm). destruct w; exact Hm.
Qed.

Lemma rw_sfs_buffer_read st b :
  fs_dev st -> 0 < b < blocks (super st) ->
  exists d m, rw_sfs_buffer b false true st = Done (0, set_sfs_buffer m (set_dev d st)) /\
    dev_ok d /\ dev_blocks d = dev_blocks (dev st) /\ (forall a, dev_byte d a = img st a) /\
    (forall i, 0 <= i < 4096 -> m i = img st (b * 4096 + i)).
Proof.
  intros Hr Hb. destruct (sfs_rwblock_nolock_spec st (sfs_buffer st) 0 b false true Hr)
    as (d & m & Hrun & Hd & Hbl & Hi & Hm); [lia|left; lia|].
  exists d, m. split_and!; try done.
  - unfold rw_sfs_buffer. mstep (eq_refl : get sfs_buffer st = Done (sfs_buffer st, st)).
    by mstep Hrun.
  - intros i Hi'. rewrite Hm, copy_in by lia. f_equal. lia.
Qed.

Lemma rw_sfs_buffer_write st b check :
  fs_dev st -> 0 <= b < blocks (super st) -> (b <> 0 \/ check = false) ->
  exists d m, rw_sfs_buffer b true check st = Done (0, set_sfs_buffer m (set_dev d st)) /\
    dev_ok d /\ dev_blocks d = dev_blocks (dev st) /\ (forall a, m a = sfs_buffer st a) /\
    (forall a, dev_byte d a = copy (img st) (b * 4096) (sfs_buffer st) 0 4096 a).
Proof.
  intros Hr Hb Hc. destruct (sfs_rwblock_nolock_spec st (sfs_buffer st) 0 b true check Hr Hb Hc)
    as (d & m & Hrun & Hd & Hbl & Hm & Hi).
  exists d, m. split_and!; try done.
  unfold rw_sfs_buffer. mstep (eq_refl : get sfs_buffer st = Done (sfs_buffer st, st)).
  by mstep Hrun.
Qed.

Lemma lock_io_run st : fs_ready st -> lock_sfs_io st = Done (tt, set_io_sem (io_sem st - 1) st).
Proof. intros [_ Hs]. unfold lock_sfs_io, lock. by destruct (Z.ltb_spec 0 (io_sem st)); [|lia]. Qed.

Lemma io_range_true offset len :
  0 <= offset < 4096 -> offset + len <= 4096 ->
  (0 <=? offset) && (offset <? SFS_BLKSIZE) && (offset + len <=? SFS_BLKSIZE) = true.
Proof.
  intros. change SFS_BLKSIZE with 4096. destruct (Z.leb_spec 0 offset); [|lia].
  destruct (Z.ltb_spec offset 4096); [|lia]. by destruct (Z.leb_spec (offset + len) 4096); [|lia].
Qed.

(** ** The routines with the lock *)
Lemma set_io_sem_dev st v : fs_dev (set_io_sem v st) <-> fs_dev st.
Proof. done. Qed.

Lemma sfs_rbuf_spec st buf base len b offset :
  fs_ready st -> 0 < b < blocks (super st) -> 0 <= offset < 4096 -> 0 <= len ->
  offset + len <= 4096 ->
  exists st' m, sfs_rbuf buf base len b offset st = Done ((0, m), st') /\
    disk_upd st st' (img st) /\
    (forall a, m a = copy buf base (img st) (b * 4096 + offset) len a).
Proof.
  intros Hr Hb Ho Hl Hle. set (st0 := set_io_sem (io_sem st - 1) st).
  destruct (rw_sfs_buffer_read st0 b (ready_dev _ Hr) Hb) as (d & m & Hrun & Hd & Hbl & Hi & Hm).
  exists (set_sfs_buffer m (set_dev d st)), (copy buf base m offset len). split_and!.
  - unfold sfs_rbuf. rewrite (io_range_true offset len Ho Hle). mstep (assert_true true st eq_refl).
    mstep (lock_io_run st Hr). fold st0. mstep Hrun. mrun.
    replace (io_sem st - 1 + 1) with (io_sem st) by lia. by destruct st.
  - by exists d, m.
  - intros a. destruct (decide (base <= a < base + len)); [|by rewrite !copy_out by lia].
    rewrite !copy_in, Hm by lia. change (img st0) with (img st). f_equal. lia.
Qed.

Lemma sfs_wbuf_spec st buf base len b offset :
  fs_ready st -> 0 < b < blocks (super st) -> 0 <= offset < 4096 -> 0 <= len ->
  offset + len <= 4096 ->
  exists st', sfs_wbuf buf base len b offset st = Done (0, st') /\
    disk_upd st st' (copy (img st) (b * 4096 + offset) buf base len).
Proof.
  intros Hr Hb Ho Hl Hle. set (st0 := set_io_sem (io_sem st - 1) st).
  destruct (rw_sfs_buffer_read st0 b (ready_dev _ Hr) Hb) as (d & m & Hrun & Hd & Hbl & Hi & Hm).
  set (st1 := set_sfs_buffer (copy m offset buf base len) (set_dev d st0)).
  assert (Hdev1 : fs_dev st1) by (split; cbn; [done|rewrite Hbl; apply Hr]).
  destruct (rw_sfs_buffer_write st1 b true Hdev1) as (d2 & m2 & Hrun2 & Hd2 & Hbl2 & Hm2 & Hi2);
    [cbn; lia|left; lia|].
  exists (set_sfs_buffer m2 (set_dev d2 st)). split.
  - unfold sfs_wbuf. rewrite (io_range_true offset len Ho Hle). mstep (assert_true true st eq_refl).
    mstep (lock_io_run st Hr). fold st0. mstep Hrun. cbn [Z.eqb].
    assert (Hmod : (modify (fun s => set_sfs_buffer (copy (sfs_buffer s) offset buf base len) s) ;;
                    rw_sfs_buffer b true true) (set_sfs_buffer m (set_dev d st0))
                   = Done (0, set_sfs_buffer m2 (set_dev d2 st1))).
    { rewrite <- Hrun2. done. }
    mstep Hmod. mrun. replace (io_sem st - 1 + 1) with (io_sem st) by lia. by destruct st.
  - exists d2, m2. split; [done|]. split; [done|]. split; [cbn in *; congruence|]. intros a.
    rewrite Hi2. cbn [st1 sfs_buffer set_sfs_buffer].
    destruct (decide (b * 4096 <= a < b * 4096 + 4096)).
    + rewrite (copy_in (img st1)) by lia.
      destruct (decide (b * 4096 + offset <= a < b * 4096 + offset + len)).
      * rewrite !copy_in by lia. f_equal. lia.
      * rewrite !copy_out by lia. rewrite Hm by lia. change (img st0) with (img st). f_equal. lia.
    + rewrite !copy_out by lia. apply Hi.
Qed.

Lemma sfs_clear_block_spec st b :
  fs_ready st -> 0 < b < blocks (super st) ->
  exists st', sfs_clear_block b 1 st = Done (0, st') /\
    disk_upd st st' (fill (img st) (b * 4096) 4096 0).
Proof.
  intros Hr Hb.
  set (st1 := set_sfs_buffer (fill (sfs_buffer st) 0 SFS_BLKSIZE 0) (set_io_sem (io_sem st - 1) st)).
  destruct (rw_sfs_buffer_write st1 b true (ready_dev _ Hr)) as (d & m & Hrun & Hd & Hbl & Hm & Hi);
    [cbn; lia|left; lia|].
  exists (set_sfs_buffer m (set_dev d st)). split.
  - unfold sfs_clear_block. mstep (lock_io_run st Hr).
    mstep (eq_refl : modify (fun s => set_sfs_buffer (fill (sfs_buffer s) 0 SFS_BLKSIZE 0) s)
             (set_io_sem (io_sem st - 1) st) = Done (tt, st1)).
    assert (Hloop : clear_loop 1 b None st1 = Done (0, set_sfs_buffer m (set_dev d st1))).
    { cbn [clear_loop]. by mstep Hrun. }
    mstep Hloop. mrun.
    replace (io_sem st - 1 + 1) with (io_sem st) by lia. by destruct st.
  - exists d, m. split_and!; try done. intros a. rewrite Hi. change (img st1) with (img st).
    destruct (decide (b * 4096 <= a < b * 4096 + 4096)).
    + rewrite copy_in, !fill_in by (lia || (cbn; change SFS_BLKSIZE with 4096; lia)). cbn.
      by rewrite fill_in by (change SFS_BLKSIZE with 4096; lia).
    + by rewrite copy_out, fill_out by lia.
Qed.

(** One whole block, as [sfs_io_nolock] reads and writes it. *)
Lemma sfs_rwblock_one_spec st buf base b w :
  fs_ready st -> 0 < b < blocks (super st) ->
  exists st' m, sfs_rwblock buf base b 1 w st = Done ((0, m), st') /\
    (if w then disk_upd st st' (copy (img st) (b * 4096) buf base 4096) /\ m = buf
     else disk_upd st st' (img st) /\
          (forall a, m a = copy buf base (img st) (b * 4096) 4096 a)).
Proof.
  intros Hr Hb. set (st0 := set_io_sem (io_sem st - 1) st).
  destruct (sfs_rwblock_nolock_spec st0 buf base b w true (ready_dev _ Hr))
    as (d & m & Hrun & Hd & Hbl & Hm); [cbn; lia|left; lia|].
  exists (set_dev d st), m. split.
  - unfold sfs_rwblock. mstep (lock_io_run st Hr). fold st0.
    assert (Hloop : rwblock_loop (Z.to_nat 1) buf base b w st0 = Done ((0, m), set_dev d st0)).
    { change (Z.to_nat 1) with 1%nat. cbn [rwblock_loop]. by mstep Hrun. }
    mstep Hloop. mrun. replace (io_sem st - 1 + 1) with (io_sem st) by lia. by destruct st.
  - destruct w; destruct Hm as [Hm1 Hm2]; (split; [|by first [exact Hm2|apply functional_extensionality]]);
      exists d, (sfs_buffer st); split_and!; try done; by destruct st.
Qed.
End specs.
