(* ===== verification/SfsInode.v ===== *)
(** * The simple file system: blocks of a file, reading, writing, truncating

    The block allocator, the block map (twelve direct blocks and one indirect
    block) and the file operations of kern/fs/sfs/sfs_inode.c. *)
From S2P Require Import Prelude Libs Mem Disk Bitmap SfsIo.

Section sfs_inode_ops.
  Context {D : Type} `{BlockDevice D}.

Definition get_sin (n : Z) : ST (sfs_fs D) sfs_inode := get (fun s => sins s n).
Definition get_dinode (n : Z) : ST (sfs_fs D) sfs_disk_inode := get (fun s => din (sins s n)).
Definition mod_sin (n : Z) (f : sfs_inode -> sfs_inode) : ST (sfs_fs D) unit := modify (on_sin n f).
Definition lock_sin (n : Z) : ST (sfs_fs D) unit :=
  lock (fun s => sem (sins s n)) (fun v => on_sin n (set_sem v)).
Definition unlock_sin (n : Z) : ST (sfs_fs D) unit :=
  unlock (fun s => sem (sins s n)) (fun v => on_sin n (set_sem v)).

Definition on_freemap {A} (m : ST bitmap A) : ST (sfs_fs D) A :=
  fun s => match m (freemap s) with
           | Done (a, b) => Done (a, set_freemap b s)
           | Panicked => Panicked
           | NoFuel => NoFuel
           end.

(** ** The block allocator *)
Definition sfs_block_inuse (ino : Z) : ST (sfs_fs D) bool :=
  sb ← get super;
  if negb (ino =? 0) && (ino <? blocks sb) then
    b ← on_freemap (bitmap_test ino);
    mret (negb b)
  else panic.

Definition sfs_block_alloc : ST (sfs_fs D) (Z * Z) :=
  '(ret, index) ← on_freemap bitmap_alloc;
  match index with
  | None => mret (ret, 0)
  | Some ino =>
      if negb (ret =? 0) then mret (ret, ino)
      else
        sb ← get super;
        assert (0 <? unused_blocks sb) ;;
        modify (fun s => set_super (set_unused (fun u => u - 1) (super s)) s) ;;
        modify (set_super_dirty true) ;;
        b ← sfs_block_inuse ino;
        assert b ;;
        ret ← sfs_clear_block ino 1;
        mret (ret, ino)
  end.

Definition sfs_block_free (ino : Z) : ST (sfs_fs D) unit :=
  b ← sfs_block_inuse ino;
  assert b ;;
  on_freemap (bitmap_free ino) ;;
  modify (fun s => set_super (set_unused (fun u => u + 1) (super s)) s) ;;
  modify (set_super_dirty true).

(** ** The block map *)

(** Reading and writing the [uint32_t] at [offset] of block [blkno]. *)
Definition read_entry (blkno offset : Z) : ST (sfs_fs D) (Z * Z) :=
  '(ret, buf) ← sfs_rbuf (fun _ => 0) 0 4 blkno offset;
  mret (ret, get32 buf 0).
Definition write_entry (v blkno offset : Z) : ST (sfs_fs D) Z :=
  sfs_wbuf (put32 (fun _ => 0) 0 v) 0 4 blkno offset.

(** The label [failed_cleanup] of [sfs_bmap_get_sub_nolock]. *)
Definition failed_cleanup (entp ent ret : Z) : ST (sfs_fs D) (Z * Z * Z) :=
  (if negb (ent =? entp) then sfs_block_free ent else mret tt) ;;
  mret (ret, entp, 0).

(** Its second half: allocate a block and enter it in block [ent]. *)
Definition alloc_entry (entp ent offset : Z) : ST (sfs_fs D) (Z * Z * Z) :=
  '(ret, ino) ← sfs_block_alloc;
  if negb (ret =? 0) then failed_cleanup entp ent ret
  else
    ret ← write_entry ino ent offset;
    if negb (ret =? 0) then sfs_block_free ino ;; failed_cleanup entp ent ret
    else mret (0, ent, ino).

(** Returns the code, the new value of [*entp] and the block. *)
Definition sfs_bmap_get_sub_nolock (entp index : Z) (create : bool) : ST (sfs_fs D) (Z * Z * Z) :=
  assert (index <? SFS_BLK_NENTRY) ;;
  let offset := index * 4 in
  if negb (entp =? 0) then
    '(ret, ino) ← read_entry entp offset;
    if negb (ret =? 0) then mret (ret, entp, 0)
    else if negb (ino =? 0) || negb create then mret (0, entp, ino)
    else alloc_entry entp entp offset
  else if negb create then mret (0, entp, 0)
  else
    '(ret, ent) ← sfs_block_alloc;
    if negb (ret =? 0) then mret (ret, entp, 0) else alloc_entry entp ent offset.

Definition bmap_out (ino : Z) : ST (sfs_fs D) (Z * Z) :=
  b ← (if ino =? 0 then mret true else sfs_block_inuse ino);
  assert b ;;
  mret (0, ino).

Definition sfs_bmap_get_nolock (n index : Z) (create : bool) : ST (sfs_fs D) (Z * Z) :=
  d ← get_dinode n;
  if index <? SFS_NDIRECT then
    let ino := direct d index in
    if (ino =? 0) && create then
      '(ret, ino) ← sfs_block_alloc;
      if negb (ret =? 0) then mret (ret, 0)
      else
        mod_sin n (on_din (set_direct index ino)) ;;
        mod_sin n (set_dirty true) ;;
        bmap_out ino
    else bmap_out ino
  else
    let index := u32 (index - SFS_NDIRECT) in
    if index <? SFS_BLK_NENTRY then
      '((ret, ent), ino) ← sfs_bmap_get_sub_nolock (indirect d) index create;
      if negb (ret =? 0) then mret (ret, 0)
      else
        d ← get_dinode n;
        (if negb (ent =? indirect d) then
           assert (indirect d =? 0) ;;
           mod_sin n (on_din (set_indirect ent)) ;;
           mod_sin n (set_dirty true)
         else mret tt) ;;
        bmap_out ino
    else panic.

Definition sfs_bmap_free_sub_nolock (ent index : Z) : ST (sfs_fs D) Z :=
  b ← sfs_block_inuse ent;
  assert (b && (index <? SFS_BLK_NENTRY)) ;;
  '(ret, ino) ← read_entry ent (index * 4);
  if negb (ret =? 0) then mret ret
  else if negb (ino =? 0) then
    ret ← write_entry 0 ent (index * 4);
    if negb (ret =? 0) then mret ret
    else sfs_block_free ino ;; mret 0
  else mret 0.

Definition sfs_bmap_free_nolock (n index : Z) : ST (sfs_fs D) Z :=
  d ← get_dinode n;
  if index <? SFS_NDIRECT then
    let ino := direct d index in
    if negb (ino =? 0) then
      sfs_block_free ino ;;
      mod_sin n (on_din (set_direct index 0)) ;;
      mod_sin n (set_dirty true) ;;
      mret 0
    else mret 0
  else
    let index := u32 (index - SFS_NDIRECT) in
    if index <? SFS_BLK_NENTRY then
      if negb (indirect d =? 0) then
        ret ← sfs_bmap_free_sub_nolock (indirect d) index;
        mret ret
      else mret 0
    else mret 0.

Definition sfs_bmap_load_nolock (n index : Z) : ST (sfs_fs D) (Z * Z) :=
  d ← get_dinode n;
  assert (index <=? iblocks d) ;;
  let create := index =? iblocks d in
  '(ret, ino) ← sfs_bmap_get_nolock n index create;
  if negb (ret =? 0) then mret (ret, 0)
  else
    b ← sfs_block_inuse ino;
    assert b ;;
    (if create then mod_sin n (on_din (fun d => set_iblocks (iblocks d + 1) d)) else mret tt) ;;
    mret (0, ino).

Definition sfs_bmap_truncate_nolock (n : Z) : ST (sfs_fs D) Z :=
  d ← get_dinode n;
  assert (negb (iblocks d =? 0)) ;;
  ret ← sfs_bmap_free_nolock n (u32 (iblocks d - 1));
  if negb (ret =? 0) then mret ret
  else
    mod_sin n (on_din (fun d => set_iblocks (iblocks d - 1) d)) ;;
    mod_sin n (set_dirty true) ;;
    mret 0.

(** ** Reading and writing *)
Definition sfs_buf_op (write : bool) (buf : mem) (base len blkno offset : Z) : ST (sfs_fs D) (Z * mem) :=
  if write then ret ← sfs_wbuf buf base len blkno offset; mret (ret, buf)
  else sfs_rbuf buf base len blkno offset.
Definition sfs_block_op (write : bool) (buf : mem) (base blkno nblks : Z) : ST (sfs_fs D) (Z * mem) :=
  if write then sfs_wblock buf base blkno nblks else sfs_rblock buf base blkno nblks.

(** The loop over whole blocks: the code, the bytes done and the buffer. *)
Fixpoint io_blocks (nblks : nat) (n : Z) (write : bool) (buf : mem) (base blkno alen : Z)
  : ST (sfs_fs D) (Z * Z * mem) :=
  match nblks with
  | O => mret (0, alen, buf)
  | S nblks' =>
      '(ret, ino) ← sfs_bmap_load_nolock n blkno;
      if negb (ret =? 0) then mret (ret, alen, buf)
      else
        '(ret, buf) ← sfs_block_op write buf base ino 1;
        if negb (ret =? 0) then mret (ret, alen, buf)
        else io_blocks nblks' n write buf (base + SFS_BLKSIZE) (u32 (blkno + 1)) (alen + SFS_BLKSIZE)
  end.

(** A part of one block. *)
Definition io_part (n : Z) (write : bool) (buf : mem) (base size blkno blkoff alen : Z)
  : ST (sfs_fs D) (Z * Z * mem) :=
  '(ret, ino) ← sfs_bmap_load_nolock n blkno;
  if negb (ret =? 0) then mret (ret, alen, buf)
  else
    '(ret, buf) ← sfs_buf_op write buf base size ino blkoff;
    if negb (ret =? 0) then mret (ret, alen, buf) else mret (0, alen + size, buf).

(** The whole blocks and the last part. *)
Definition io_finish (n : Z) (write : bool) (endpos base blkno nblks alen : Z) (buf : mem)
  : ST (sfs_fs D) (Z * Z * mem) :=
  '((ret, alen), buf) ← io_blocks (Z.to_nat nblks) n write buf base blkno alen;
  if negb (ret =? 0) then mret (ret, alen, buf)
  else
    let size := endpos mod SFS_BLKSIZE in
    if negb (size =? 0) then
      io_part n write buf (base + SFS_BLKSIZE * nblks) size (u32 (blkno + nblks)) 0 alen
    else mret (0, alen, buf).

(** The phases of [sfs_io_nolock] up to the label [out]. *)
Definition io_body (n : Z) (write : bool) (buf : mem) (base offset endpos : Z)
  : ST (sfs_fs D) (Z * Z * mem) :=
  let blkno := u32 (offset / SFS_BLKSIZE) in
  let nblks := u32 (endpos / SFS_BLKSIZE - blkno) in
  let blkoff := offset mod SFS_BLKSIZE in
  if negb (blkoff =? 0) then
    let size := if negb (nblks =? 0) then SFS_BLKSIZE - blkoff else endpos - offset in
    '((ret, alen), buf) ← io_part n write buf base size blkno blkoff 0;
    if negb (ret =? 0) || (nblks =? 0) then mret (ret, alen, buf)
    else io_finish n write endpos (base + size) (u32 (blkno + 1)) (u32 (nblks - 1)) alen buf
  else io_finish n write endpos base blkno nblks 0 buf.

Definition sfs_io_nolock (n : Z) (buf : mem) (base offset alen : Z) (write : bool)
  : ST (sfs_fs D) (Z * Z * mem) :=
  d ← get_dinode n;
  assert (negb (type d =? SFS_TYPE_DIR)) ;;
  let endpos := s64 (offset + alen) in
  if (offset <? 0) || (SFS_MAX_FILE_SIZE <=? offset) || (endpos <? offset) then
    mret (- E_INVAL, 0, buf)
  else if offset =? endpos then mret (0, 0, buf)
  else
    let endpos := if SFS_MAX_FILE_SIZE <? endpos then SFS_MAX_FILE_SIZE else endpos in
    if negb write && (size d <=? offset) then mret (0, 0, buf)
    else
      let endpos := if negb write && (size d <? endpos) then size d else endpos in
      '((ret, alen), buf) ← io_body n write buf base offset endpos;
      d ← get_dinode n;
      (if size d <? offset + alen then
         mod_sin n (on_din (set_size (offset + alen))) ;;
         mod_sin n (set_dirty true)
       else mret tt) ;;
      mret (ret, alen, buf).

Definition sfs_io (n : Z) (iob : iobuf) (write : bool) : ST (sfs_fs D) (Z * iobuf) :=
  lock_sin n ;;
  '((ret, alen), buf) ← sfs_io_nolock n (io_mem iob) (io_base iob) (io_offset iob) (io_resid iob) write;
  let iob := mkIob buf (io_base iob) (io_offset iob) (io_len iob) (io_resid iob) in
  '(_, iob) ← (if negb (alen =? 0) then on_local iob (iobuf_skip alen) else mret (tt, iob));
  unlock_sin n ;;
  mret (ret, iob).

Definition sfs_read (n : Z) (iob : iobuf) : ST (sfs_fs D) (Z * iobuf) := sfs_io n iob false.
Definition sfs_write (n : Z) (iob : iobuf) : ST (sfs_fs D) (Z * iobuf) := sfs_io n iob true.

(** ** Truncating *)
Fixpoint grow_loop (k : nat) (n nblks : Z) : ST (sfs_fs D) Z :=
  match k with
  | O => mret 0
  | S k' =>
      '(ret, _) ← sfs_bmap_load_nolock n nblks;
      if negb (ret =? 0) then mret ret else grow_loop k' n (u32 (nblks + 1))
  end.

Fixpoint shrink_loop (k : nat) (n : Z) : ST (sfs_fs D) Z :=
  match k with
  | O => mret 0
  | S k' =>
      ret ← sfs_bmap_truncate_nolock n;
      if negb (ret =? 0) then mret ret else shrink_loop k' n
  end.

Definition sfs_truncfile (n len : Z) : ST (sfs_fs D) Z :=
  if (len <? 0) || (SFS_MAX_FILE_SIZE <? len) then mret (- E_INVAL)
  else
    let tblks := u32 (ROUNDUP_DIV len SFS_BLKSIZE) in
    d ← get_dinode n;
    if size d =? len then assert (tblks =? iblocks d) ;; mret 0
    else
      lock_sin n ;;
      nblks ← get (fun s => iblocks (din (sins s n)));
      ret ← (if nblks <? tblks then grow_loop (Z.to_nat (tblks - nblks)) n nblks
             else if tblks <? nblks then shrink_loop (Z.to_nat (nblks - tblks)) n
             else mret 0);
      (if ret =? 0 then
         d ← get_dinode n;
         assert (iblocks d =? tblks) ;;
         mod_sin n (on_din (set_size len)) ;;
         mod_sin n (set_dirty true)
       else mret tt) ;;
      unlock_sin n ;;
      mret ret.

(** [inode_check], which every [vop_*] call makes first. *)
Definition MAX_INODE_COUNT : Z := 0x10000.
Definition inode_check (n : Z) : ST (sfs_fs D) unit :=
  i ← get_sin n;
  assert ((open_count i <=? ref_count i) && (0 <=? open_count i)) ;;
  assert ((ref_count i <? MAX_INODE_COUNT) && (open_count i <? MAX_INODE_COUNT)).

(** The directory operations have no [vop_truncate]. *)
Definition vop_truncate (n len : Z) : ST (sfs_fs D) Z :=
  d ← get_dinode n;
  if type d =? SFS_TYPE_FILE then inode_check n ;; sfs_truncfile n len else panic.

Definition sfs_tryseek (n pos : Z) : ST (sfs_fs D) Z :=
  if (pos <? 0) || (SFS_MAX_FILE_SIZE <=? pos) then mret (- E_INVAL)
  else
    d ← get_dinode n;
    if size d <? pos then vop_truncate n pos else mret 0.

(** ** Flushing the inode *)
Definition sfs_fsync (n : Z) : ST (sfs_fs D) Z :=
  i ← get_sin n;
  if dirty i then
    lock_sin n ;;
    i ← get_sin n;
    ret ← (if dirty i then
             mod_sin n (set_dirty false) ;;
             ret ← sfs_wbuf (put_din (fun _ => 0) (din i)) 0 sizeof_disk_inode (ino i) 0;
             (if negb (ret =? 0) then mod_sin n (set_dirty true) else mret tt) ;;
             mret ret
           else mret 0);
    unlock_sin n ;;
    mret ret
  else mret 0.

Definition vop_fsync (n : Z) : ST (sfs_fs D) Z := inode_check n ;; sfs_fsync n.
Definition sfs_close (n : Z) : ST (sfs_fs D) Z := vop_fsync n.
End sfs_inode_ops.

#[export] Hint Unfold get_sin get_dinode mod_sin lock_sin unlock_sin on_freemap : ucore_run.
