(* ===== verification/SfsAlloc.v ===== *)
(** * The simple file system: the block allocator

    Allocation and release of disk blocks against the free-block bitmap and
    the count of unused blocks in the superblock. *)
From S2P Require Import Prelude Libs Mem Disk Bitmap SfsIo SfsInode.

(** The number of free bits below [k]. *)
Fixpoint count_free (bm : bitmap) (k : nat) : Z :=
  match k with
  | O => 0
  | S k' => (if bit bm (Z.of_nat k') then 1 else 0) + count_free bm k'
  end.

Lemma count_free_nonneg bm k : 0 <= count_free bm k.
Proof. induction k; cbn; [lia|]. destruct (bit _ _); lia. Qed.

Lemma count_free_le bm k : count_free bm k <= Z.of_nat k.
Proof. induction k; [cbn; lia|]. cbn [count_free]. destruct (bit bm (Z.of_nat k)); lia. Qed.

Lemma count_free_pos bm k i : 0 <= i < Z.of_nat k -> bit bm i = true -> 0 < count_free bm k.
Proof.
  intros Hi Hb. induction k as [|k IH]; [lia|]. cbn. pose proof (count_free_nonneg bm k).
  destruct (Z.eq_dec i (Z.of_nat k)) as [He|Hne]; [subst i; rewrite Hb; lia|].
  specialize (IH ltac:(lia)). destruct (bit bm (Z.of_nat k)); lia.
Qed.

Lemma count_free_change bm bm' i b k :
  0 <= i -> (forall j, 0 <= j -> bit bm' j = if decide (j = i) then b else bit bm j) ->
  count_free bm' k
  = count_free bm k + if decide (i < Z.of_nat k)
                      then (if b then 1 else 0) - (if bit bm i then 1 else 0) else 0.
Proof.
  intros Hi Hb. induction k as [|k IH]; [cbn; rewrite decide_False by lia; lia|].
  cbn [count_free]. rewrite IH, Hb by lia.
  destruct (decide (Z.of_nat k = i)) as [Hki|].
  - rewrite decide_False, decide_True by lia. rewrite Hki. destruct b, (bit bm i); lia.
  - destruct (decide (i < Z.of_nat k)); [rewrite decide_True by lia|rewrite decide_False by lia];
      destruct (bit bm (Z.of_nat k)); lia.
Qed.

Section alloc.
  Context {D : Type} `{BlockDevice D}.
  Implicit Types (st : sfs_fs D).

Definition inuse st (b : Z) : Prop := 0 < b < blocks (super st) /\ bit (freemap st) b = false.

(** The bitmap covers the file system, blocks outside it are in use, and the
    superblock counts the free ones. *)
Record fs_wf st : Prop := mkFsWf {
  wf_ready : fs_ready st;
  wf_bitmap : bitmap_ok (freemap st);
  wf_bits : blocks (super st) <= nbits (freemap st);
  wf_super : bit (freemap st) 0 = false;
  wf_outside : forall i, blocks (super st) <= i < nbits (freemap st) -> bit (freemap st) i = false;
  wf_count : unused_blocks (super st) = count_free (freemap st) (Z.to_nat (nbits (freemap st)))}.

Lemma sfs_block_inuse_spec st b :
  fs_wf st -> 0 < b < blocks (super st) ->
  sfs_block_inuse b st = Done (negb (bit (freemap st) b), st).
Proof.
  intros Hwf Hb. unfold sfs_block_inuse. mrun. destruct (Z.eqb_spec b 0); [lia|].
  destruct (Z.ltb_spec b (blocks (super st))); [|lia]. cbn.
  rewrite bitmap_test_spec by (pose proof (wf_bits _ Hwf); lia). cbn. by destruct st.
Qed.

Lemma sfs_block_inuse_true st b : fs_wf st -> inuse st b -> sfs_block_inuse b st = Done (true, st).
Proof. intros Hwf [Hb Hbit]. rewrite sfs_block_inuse_spec, Hbit by done. done. Qed.

(** The fields that allocation does not touch. *)
Definition fs_frame st st' : Prop :=
  blocks (super st') = blocks (super st) /\ sins st' = sins st /\ inode_list st' = inode_list st /\
  hash_list st' = hash_list st /\ fs_sem st' = fs_sem st /\ io_sem st' = io_sem st /\
  mutex_sem st' = mutex_sem st.

Lemma fs_frame_refl st : fs_frame st st.
Proof. done. Qed.

Lemma fs_frame_trans st1 st2 st3 : fs_frame st1 st2 -> fs_frame st2 st3 -> fs_frame st1 st3.
Proof. unfold fs_frame. intuition congruence. Qed.

Lemma disk_upd_frame st st' m :
  disk_upd st st' m -> fs_frame st st' /\ freemap st' = freemap st /\ super st' = super st.
Proof. intros (d & b & -> & _). done. Qed.

Lemma disk_upd_wf st st' m : disk_upd st st' m -> fs_wf st -> fs_wf st'.
Proof.
  intros Hu [Hr Hb Hn Hs Ho Hc]. pose proof (disk_upd_ready _ _ _ Hu Hr) as Hr'.
  destruct Hu as (d & b & -> & _). by split.
Qed.

Lemma disk_upd_inuse st st' m b : disk_upd st st' m -> inuse st' b <-> inuse st b.
Proof. by intros (d & b' & -> & _). Qed.

(** The state after block [b] was taken from, or given back to, the bitmap. *)
Definition marked (u : bool) st fm : sfs_fs D :=
  set_super_dirty true
    (set_super (set_unused (fun x => if u then x + 1 else x - 1) (super st)) (set_freemap fm st)).

Lemma marked_wf u st b fm :
  fs_wf st -> 0 < b < blocks (super st) -> bit (freemap st) b = negb u ->
  bit_changed (freemap st) fm b u ->
  fs_wf (marked u st fm).
Proof.
  intros [[[Hd Hbl] Hio] Hok Hn Hs Ho Hc] Hb Hbit (Hok' & Hn' & Hw' & Hch).
  assert (Hcount : count_free fm (Z.to_nat (nbits fm))
                   = count_free (freemap st) (Z.to_nat (nbits (freemap st))) + if u then 1 else -1).
  { rewrite Hn', (count_free_change (freemap st) fm b u _ ltac:(lia) Hch).
    rewrite decide_True by lia. rewrite Hbit. destruct u; cbn; lia. }
  assert (Hun : u32 (if u then unused_blocks (super st) + 1 else unused_blocks (super st) - 1)
                = count_free fm (Z.to_nat (nbits fm))).
  { pose proof (count_free_nonneg fm (Z.to_nat (nbits fm))).
    pose proof (count_free_le fm (Z.to_nat (nbits fm))). pose proof (bm_nbits _ Hok').
    rewrite <- Hc in Hcount. destruct u; rewrite u32_small; lia. }
  split; cbn; try done.
  - by rewrite Hn'.
  - rewrite Hch, decide_False by lia. done.
  - intros i Hi. rewrite Hn' in Hi. rewrite Hch, decide_False by lia. by apply Ho.
Qed.

Lemma sfs_block_alloc_correct st :
  fs_wf st ->
  ((forall b, 0 < b < blocks (super st) -> inuse st b) /\
     sfs_block_alloc st = Done ((- E_NO_MEM, 0), st)) \/
  exists b st', 0 < b < blocks (super st) /\ ~ inuse st b /\
    sfs_block_alloc st = Done ((0, b), st') /\ fs_wf st' /\ fs_frame st st' /\
    (forall c, inuse st' c <-> c = b \/ inuse st c) /\
    (forall a, img st' a = fill (img st) (b * 4096) 4096 0 a).
Proof.
  intros Hwf. pose proof Hwf as [Hr Hok Hn Hs Ho Hc]. unfold sfs_block_alloc.
  destruct (bitmap_alloc_correct (freemap st) Hok) as
    [[Hall Hrun]|(b & fm & Hb & Hbit & Hlow & Hrun & Hch)].
  { left. split.
    - intros b Hb. split; [done|]. apply Hall. lia.
    - assert (Hrun' : on_freemap bitmap_alloc st = Done ((- E_NO_MEM, None), st)).
      { unfold on_freemap. rewrite Hrun. by destruct st. }
      by mstep Hrun'. }
  right.
  assert (Hb' : 0 < b < blocks (super st)).
  { split.
    - destruct (decide (b = 0)) as [->|]; [congruence|lia].
    - destruct (decide (b < blocks (super st))); [done|]. rewrite Ho in Hbit by lia. done. }
  pose proof (marked_wf false st b fm Hwf Hb' Hbit Hch) as Hwf1.
  assert (Hpos : 0 < unused_blocks (super st)).
  { rewrite Hc. apply (count_free_pos _ _ b); [lia|done]. }
  set (st1 := marked false st fm) in *.
  assert (Hin1 : inuse st1 b).
  { split; [done|]. cbn. destruct Hch as (_ & _ & _ & ->); [by rewrite decide_True|lia]. }
  destruct (sfs_clear_block_spec st1 b (wf_ready _ Hwf1)) as (st' & Hclr & Hu); [done|].
  exists b, st'. split_and!; [lia|lia| | | | | |].
  - intros [_ Hf]. congruence.
  - unfold mbind, ST_bind, on_freemap. rewrite Hrun. cbn.
    destruct (Z.ltb_spec 0 (unused_blocks (super st))); [|lia]. cbn.
    change (set_super_dirty true _) with st1.
    rewrite (sfs_block_inuse_true st1 b Hwf1 Hin1). cbn. by rewrite Hclr.
  - by apply (disk_upd_wf st1 _ _ Hu).
  - apply (fs_frame_trans _ st1); [done|]. by apply (disk_upd_frame _ _ _ Hu).
  - intros c. rewrite (disk_upd_inuse _ _ _ _ Hu). unfold inuse. cbn.
    destruct Hch as (_ & _ & _ & Hch). split.
    + intros [Hc1 Hc2]. rewrite Hch in Hc2 by lia. case_decide; [by left|by right].
    + intros [->|[Hc1 Hc2]]; (split; [done|]); rewrite Hch by lia; case_decide; done.
  - intros a. by rewrite (disk_upd_img _ _ _ Hu).
Qed.

(** On a well-formed file system [sfs_block_alloc] either takes the lowest
    free block, zeroes it, records it in the bitmap and the superblock, and
    changes no other byte of the disk and no other block's state, or fails
    with [-E_NO_MEM] and no effect when every block is in use. *)
Theorem sfs_block_alloc_spec st :
  fs_wf st ->
  ((forall b, 0 < b < blocks (super st) -> inuse st b) /\
     sfs_block_alloc st = Done ((- E_NO_MEM, 0), st)) \/
  exists b st', 0 < b < blocks (super st) /\ ~ inuse st b /\
    sfs_block_alloc st = Done ((0, b), st') /\ fs_wf st' /\ fs_frame st st' /\
    (forall c, inuse st' c <-> c = b \/ inuse st c) /\
    (forall a, img st' a = fill (img st) (b * 4096) 4096 0 a).
Proof. apply sfs_block_alloc_correct. Qed.

Lemma sfs_block_free_correct st b :
  fs_wf st -> 0 < b < blocks (super st) ->
  if bit (freemap st) b then sfs_block_free b st = Panicked
  else exists st', sfs_block_free b st = Done (tt, st') /\ fs_wf st' /\ fs_frame st st' /\
    dev st' = dev st /\ (forall c, inuse st' c <-> inuse st c /\ c <> b).
Proof.
  intros Hwf Hb. unfold sfs_block_free. mstep (sfs_block_inuse_spec st b Hwf Hb).
  pose proof (bitmap_free_correct (freemap st) b (wf_bitmap _ Hwf) ltac:(lia)) as Hfree.
  destruct (Z.ltb_spec b (nbits (freemap st))); [|pose proof (wf_bits _ Hwf); lia].
  destruct (bit (freemap st) b) eqn:Hbit; [done|]. cbn [negb andb] in *.
  destruct Hfree as (fm & Hrun & Hch).
  exists (marked true st fm). split_and!; try done.
  - mrun. by rewrite Hrun.
  - by apply marked_wf with b.
  - intros c. unfold inuse. cbn. destruct Hch as (_ & _ & _ & Hch). split.
    + intros [Hc1 Hc2]. rewrite Hch in Hc2 by lia. by case_decide.
    + intros [[Hc1 Hc2] Hne]. split; [done|]. by rewrite Hch, decide_False by lia.
Qed.

(** [sfs_block_free] on a block in use makes it free, and nothing else; on
    a free block it panics. *)
Theorem sfs_block_free_spec st b :
  fs_wf st -> 0 < b < blocks (super st) ->
  if bit (freemap st) b then sfs_block_free b st = Panicked
  else exists st', sfs_block_free b st = Done (tt, st') /\ fs_wf st' /\ fs_frame st st' /\
    dev st' = dev st /\ (forall c, inuse st' c <-> inuse st c /\ c <> b).
Proof. apply sfs_block_free_correct. Qed.
End alloc.
