(* ===== verification/SfsMap.v ===== *)
(** * The simple file system: the block map of a file

    [fmap st n i] is the disk block of logical block [i] of inode [n].  What
    [sfs_bmap_get_nolock] and [sfs_bmap_load_nolock] return and change, direct
    and indirect, found, allocated or out of blocks. *)
From S2P Require Import Prelude Libs Mem Disk Bitmap SfsIo SfsInode SfsAlloc.

Definition max_blocks : Z := 1036.     (* SFS_NDIRECT + SFS_BLK_NENTRY *)

Section bmap.
  Context {D : Type} `{BlockDevice D}.
  Implicit Types (st : sfs_fs D).

(** Byte [o] of block [b], and entry [i] of an indirect block. *)
Definition byte st (b o : Z) : Z := img st (b * 4096 + o).
Definition entry st (ent i : Z) : Z := get32 (img st) (ent * 4096 + i * 4).

Definition dino st n : sfs_disk_inode := din (sins st n).
Definition fmap st (n i : Z) : Z :=
  if i <? 12 then direct (dino st n) i
  else if indirect (dino st n) =? 0 then 0 else entry st (indirect (dino st n)) (i - 12).

Record map_ok st (n : Z) : Prop := mkMapOk {
  mo_blocks : 0 <= iblocks (dino st n) <= max_blocks;
  mo_used i : 0 <= i < iblocks (dino st n) -> inuse st (fmap st n i);
  mo_rest i : iblocks (dino st n) <= i < max_blocks -> fmap st n i = 0;
  mo_inj i j : 0 <= i < iblocks (dino st n) -> 0 <= j < iblocks (dino st n) ->
               fmap st n i = fmap st n j -> i = j;
  mo_ind : indirect (dino st n) <> 0 ->
    inuse st (indirect (dino st n)) /\
    forall i, 0 <= i < iblocks (dino st n) -> fmap st n i <> indirect (dino st n) }.

Lemma inuse_range st b : inuse st b -> 0 < b < blocks (super st).
Proof. by intros [? _]. Qed.

Lemma blocks_bound st : fs_wf st -> blocks (super st) <= 2 ^ 20.
Proof.
  intros Hwf. destruct (ready_dev _ (wf_ready _ Hwf)) as [Hd Hb].
  pose proof (dev_blocks_bound _ Hd). lia.
Qed.

(** ** Entries of the indirect block *)
Lemma read_entry_spec st ent i :
  fs_wf st -> inuse st ent -> 0 <= i < 1024 ->
  exists st', read_entry ent (i * 4) st = Done ((0, entry st ent i), st') /\
    disk_upd st st' (img st).
Proof.
  intros Hwf He Hi.
  destruct (sfs_rbuf_spec st (fun _ => 0) 0 4 ent (i * 4) (wf_ready _ Hwf) (inuse_range _ _ He))
    as (st' & m & Hrun & Hu & Hm); try lia.
  exists st'. split; [|done]. 
  assert (Hg : get32 m 0 = entry st ent i).
  { apply le_get_shift. intros k Hk. rewrite Hm, copy_in by lia. f_equal. lia. }
  unfold read_entry. mstep Hrun. by rewrite Hg.
Qed.

Lemma write_entry_spec st v ent i :
  fs_wf st -> inuse st ent -> 0 <= i < 1024 -> 0 <= v < 2 ^ 32 ->
  exists st' m', write_entry v ent (i * 4) st = Done (0, st') /\ disk_upd st st' m' /\
    get32 m' (ent * 4096 + i * 4) = v /\
    (forall a, a < ent * 4096 + i * 4 \/ ent * 4096 + i * 4 + 4 <= a -> m' a = img st a).
Proof.
  intros Hwf He Hi Hv.
  destruct (sfs_wbuf_spec st (put32 (fun _ => 0) 0 v) 0 4 ent (i * 4) (wf_ready _ Hwf)
              (inuse_range _ _ He)) as (st' & Hrun & Hu); try lia.
  eexists st', _. split_and!; [done|exact Hu| |].
  - rewrite <- (le_get_put 4 (fun _ => 0) 0 v) at 2 by done.
    apply le_get_shift. intros k Hk. rewrite copy_in by lia. unfold put32. f_equal. lia.
  - intros a Ha. by rewrite copy_out by lia.
Qed.

Lemma entry_ext st st' ent i :
  (forall o, 0 <= o < 4096 -> byte st' ent o = byte st ent o) -> 0 <= i < 1024 ->
  entry st' ent i = entry st ent i.
Proof.
  intros He Hi. apply le_get_shift. intros k Hk.
  replace (ent * 4096 + i * 4 + k) with (ent * 4096 + (i * 4 + k)) by lia. apply He. lia.
Qed.

Lemma disk_upd_byte st st' b o : disk_upd st st' (img st) -> byte st' b o = byte st b o.
Proof. intros Hu. apply (disk_upd_img _ _ _ Hu). Qed.

Lemma disk_upd_dino st st' m n : disk_upd st st' m -> dino st' n = dino st n.
Proof. intros (d & b & -> & _). done. Qed.

Lemma fmap_ext st st' n i :
  dino st' n = dino st n ->
  (forall o, 0 <= o < 4096 -> indirect (dino st n) <> 0 ->
     byte st' (indirect (dino st n)) o = byte st (indirect (dino st n)) o) ->
  0 <= i < max_blocks -> fmap st' n i = fmap st n i.
Proof.
  unfold max_blocks. intros Hd He Hi. unfold fmap. rewrite Hd. destruct (Z.ltb_spec i 12); [done|].
  destruct (Z.eqb_spec (indirect (dino st n)) 0); [done|]. apply entry_ext; [|lia]. auto.
Qed.

(** ** Growing the map by one block *)
Record bmap_new st (n index b : Z) st' : Prop := mkBmapNew {
  bn_wf : fs_wf st';
  bn_blocks : blocks (super st') = blocks (super st);
  bn_lists : inode_list st' = inode_list st /\ hash_list st' = hash_list st;
  bn_sems : fs_sem st' = fs_sem st /\ io_sem st' = io_sem st /\ mutex_sem st' = mutex_sem st;
  bn_others k : k <> n -> sins st' k = sins st k;
  bn_sin : ino (sins st' n) = ino (sins st n) /\ sem (sins st' n) = sem (sins st n) /\
           reclaim_count (sins st' n) = reclaim_count (sins st n) /\
           ref_count (sins st' n) = ref_count (sins st n) /\
           open_count (sins st' n) = open_count (sins st n);
  bn_din : size (dino st' n) = size (dino st n) /\ type (dino st' n) = type (dino st n) /\
           nlinks (dino st' n) = nlinks (dino st n) /\ iblocks (dino st' n) = iblocks (dino st n);
  bn_fmap i : 0 <= i < max_blocks -> fmap st' n i = if decide (i = index) then b else fmap st n i;
  bn_b : inuse st' b /\ ~ inuse st b;
  bn_ind : indirect (dino st' n) = indirect (dino st n) \/
           (indirect (dino st n) = 0 /\ inuse st' (indirect (dino st' n)) /\
            ~ inuse st (indirect (dino st' n)) /\ indirect (dino st' n) <> b);
  bn_mono c : inuse st c -> inuse st' c;
  bn_zero o : 0 <= o < 4096 -> byte st' b o = 0;
  bn_frame c o : inuse st c -> c <> indirect (dino st n) -> 0 <= o < 4096 ->
                 byte st' c o = byte st c o }.

(** A failed attempt leaves the file and every used block alone. *)
Record bmap_failed st (n : Z) st' : Prop := mkBmapFailed {
  bf_wf : fs_wf st';
  bf_frame : fs_frame st st';
  bf_inuse c : inuse st' c <-> inuse st c;
  bf_bytes c o : inuse st c -> 0 <= o < 4096 -> byte st' c o = byte st c o }.

Lemma disk_upd_failed st st' n : fs_wf st -> disk_upd st st' (img st) -> bmap_failed st n st'.
Proof.
  intros Hwf Hu. split.
  - by apply (disk_upd_wf _ _ _ Hu).
  - apply (disk_upd_frame _ _ _ Hu).
  - intros c. apply (disk_upd_inuse _ _ _ _ Hu).
  - intros c o _ _. by apply disk_upd_byte.
Qed.

Lemma bmap_out_spec st b :
  fs_wf st -> inuse st b -> bmap_out b st = Done ((0, b), st).
Proof.
  intros Hwf Hb. unfold bmap_out. destruct (Z.eqb_spec b 0) as [->|]; [destruct Hb; lia|].
  by mstep (sfs_block_inuse_true st b Hwf Hb).
Qed.

(** What one allocation gives, byte by byte. *)
Lemma alloc_bytes st st' b :
  (forall a, img st' a = fill (img st) (b * 4096) 4096 0 a) ->
  (forall o, 0 <= o < 4096 -> byte st' b o = 0) /\
  (forall c o, c <> b -> 0 <= o < 4096 -> byte st' c o = byte st c o).
Proof.
  intros Hi. unfold byte. split; [intros o Ho|intros c o Hc Ho]; rewrite Hi;
    [by rewrite fill_in by lia|]. rewrite fill_out; [done|].
  destruct (Z.lt_ge_cases c b); [left|right]; lia.
Qed.

Lemma get_dinode_run st n : get_dinode n st = Done (dino st n, st).
Proof. done. Qed.

Lemma sub_index index : 12 <= index < max_blocks ->
  u32 (index - SFS_NDIRECT) = index - 12 /\ (index - 12 <? SFS_BLK_NENTRY) = true /\
  (index <? SFS_NDIRECT) = false.
Proof.
  unfold max_blocks, SFS_NDIRECT. change SFS_BLK_NENTRY with 1024. intros Hi.
  rewrite u32_small by lia. split_and!; [done|apply Z.ltb_lt; lia|apply Z.ltb_ge; lia].
Qed.

Lemma sfs_bmap_get_found st n index create :
  fs_wf st -> 0 <= index < max_blocks -> inuse st (fmap st n index) ->
  (indirect (dino st n) <> 0 -> inuse st (indirect (dino st n))) ->
  exists st', sfs_bmap_get_nolock n index create st = Done ((0, fmap st n index), st') /\
    disk_upd st st' (img st).
Proof.
  intros Hwf Hi Hb Hind. unfold sfs_bmap_get_nolock. mstep (get_dinode_run st n).
  pose proof (inuse_range _ _ Hb) as Hrange. unfold fmap in Hb, Hrange |- *.
  destruct (Z.ltb_spec index 12) as [Hlt|Hge].
  - destruct (Z.ltb_spec index SFS_NDIRECT); [|unfold SFS_NDIRECT in *; lia].
    destruct (Z.eqb_spec (direct (dino st n) index) 0); [lia|]. cbn [andb].
    rewrite bmap_out_spec by done. exists st. split; [done|]. apply disk_upd_refl.
    apply (ready_dev _ (wf_ready _ Hwf)).
  - destruct (sub_index index ltac:(lia)) as (-> & E & ->). rewrite E.
    destruct (Z.eqb_spec (indirect (dino st n)) 0) as [|Hne]; [lia|].
    destruct (read_entry_spec st (indirect (dino st n)) (index - 12) Hwf (Hind Hne))
      as (st' & Hrun & Hu); [unfold max_blocks in *; lia|].
    set (b := entry st (indirect (dino st n)) (index - 12)) in *.
    assert (Hsub : sfs_bmap_get_sub_nolock (indirect (dino st n)) (index - 12) create st
                   = Done ((0, indirect (dino st n), b), st')).
    { unfold sfs_bmap_get_sub_nolock. rewrite E. mstep (assert_true true st eq_refl).
      destruct (Z.eqb_spec (indirect (dino st n)) 0); [done|]. cbn [negb]. mstep Hrun.
      destruct (Z.eqb_spec b 0); [lia|]. done. }
    mstep Hsub. cbn [Z.eqb negb]. mstep (get_dinode_run st' n).
    rewrite (disk_upd_dino _ _ _ n Hu), Z.eqb_refl. cbn [negb].
    rewrite ret_bind, bmap_out_spec; [by exists st'|by apply (disk_upd_wf _ _ _ Hu)|].
    by apply (disk_upd_inuse _ _ _ _ Hu).
Qed.

(** The state after [direct[index]] or [indirect] of inode [n] was set. *)
Definition din_changed st n (f : sfs_disk_inode -> sfs_disk_inode) : sfs_fs D :=
  on_sin n (set_dirty true) (on_sin n (on_din f) st).

Lemma din_changed_dino st n f k :
  dino (din_changed st n f) k = if decide (k = n) then f (dino st n) else dino st k.
Proof.
  unfold dino, din_changed, on_sin, set_sins. cbn.
  destruct (decide (k = n)) as [->|]; [by rewrite !upd_eq|by rewrite !upd_ne].
Qed.

Lemma din_changed_wf st n f : fs_wf st -> fs_wf (din_changed st n f).
Proof. by intros [[? ?] ? ? ? ? ?]. Qed.

Lemma din_changed_img st n f : img (din_changed st n f) = img st.
Proof. done. Qed.

Lemma din_changed_sin st n f k :
  sins (din_changed st n f) k
  = if decide (k = n) then set_dirty true (on_din f (sins st n)) else sins st k.
Proof.
  unfold din_changed, on_sin, set_sins. cbn.
  destruct (decide (k = n)) as [->|]; [by rewrite !upd_eq|by rewrite !upd_ne].
Qed.

(** A direct block. *)
Lemma bmap_new_direct st st1 n index b :
  fs_wf st -> map_ok st n -> 0 <= index < 12 ->
  ~ inuse st b -> fs_wf st1 -> fs_frame st st1 ->
  (forall c, inuse st1 c <-> c = b \/ inuse st c) ->
  (forall a, img st1 a = fill (img st) (b * 4096) 4096 0 a) ->
  bmap_new st n index b (din_changed st1 n (set_direct index b)).
Proof.
  intros Hwf Hmap Hi Hnb Hwf1 (Hf1 & Hf2 & Hf3 & Hf4 & Hf5 & Hf6 & Hf7) Hinuse Himg.
  destruct (alloc_bytes st st1 b Himg) as [Hz Hfr].
  assert (Hd1 : dino st1 n = dino st n) by (unfold dino; by rewrite Hf2).
  assert (Hd : dino (din_changed st1 n (set_direct index b)) n = set_direct index b (dino st n)).
  { by rewrite din_changed_dino, decide_True, Hd1. }
  split; rewrite ?Hd; try done.
  - by apply din_changed_wf.
  - intros k Hk. by rewrite din_changed_sin, decide_False, Hf2 by done.
  - rewrite din_changed_sin, decide_True by done. cbn. by rewrite Hf2.
  - intros i Hi'. unfold fmap. rewrite Hd. cbn [direct indirect set_direct].
    destruct (Z.ltb_spec i 12).
    + destruct (decide (i = index)) as [->|]; [by rewrite upd_eq|by rewrite upd_ne].
    + rewrite decide_False by lia. destruct (Z.eqb_spec (indirect (dino st n)) 0); [done|].
      apply entry_ext; [|unfold max_blocks in *; lia]. intros o Ho. apply Hfr; [|done].
      destruct (mo_ind _ _ Hmap ltac:(done)) as [Hin _]. by intros <-.
  - split; [|done]. apply Hinuse. by left.
  - by left.
  - intros c Hc. apply Hinuse. by right.
  - intros c o Hc _ Ho. apply Hfr; [|done]. by intros ->.
Qed.

Lemma entry_zero st ent i :
  (forall o, 0 <= o < 4096 -> byte st ent o = 0) -> 0 <= i < 1024 -> entry st ent i = 0.
Proof.
  intros Hz Hi. apply le_get_zero. intros k Hk.
  replace (ent * 4096 + i * 4 + k) with (ent * 4096 + (i * 4 + k)) by lia. apply Hz. lia.
Qed.

(** The state [s3] has block [b] allocated and entered in the indirect block
    [e], which is the old one or was allocated too. *)
Record indirect_set st s3 n (index e b : Z) : Prop := mkIndirectSet {
  is_wf : fs_wf s3;
  is_frame : fs_frame st s3;
  is_e : e = indirect (dino st n) /\ e <> 0 \/
         indirect (dino st n) = 0 /\ ~ inuse st e /\ inuse s3 e;
  is_b : inuse s3 b /\ ~ inuse st b /\ b <> e;
  is_mono c : inuse st c -> inuse s3 c;
  is_zero o : 0 <= o < 4096 -> byte s3 b o = 0;
  is_bytes c o : inuse st c -> c <> e -> 0 <= o < 4096 -> byte s3 c o = byte st c o;
  is_entries j : 0 <= j < 1024 ->
    entry s3 e j = if decide (j = index - 12) then b
                   else if indirect (dino st n) =? 0 then 0 else entry st e j }.

(** What [sfs_bmap_get_nolock] does to the inode then. *)
Definition indirect_done s3 n (d : sfs_disk_inode) (e : Z) : sfs_fs D :=
  if e =? indirect d then s3 else din_changed s3 n (set_indirect e).

Lemma bmap_new_indirect st s3 n index e b :
  fs_wf st -> map_ok st n -> 12 <= index < max_blocks ->
  indirect_set st s3 n index e b ->
  bmap_new st n index b (indirect_done s3 n (dino st n) e).
Proof.
  intros Hwf Hmap Hi [Hw3 (Hf1 & Hf2 & Hf3 & Hf4 & Hf5 & Hf6 & Hf7) He (Hb1 & Hb2 & Hbe) Hmono Hz Hby Hent].
  assert (Hd3 : dino s3 n = dino st n) by (unfold dino; by rewrite Hf2).
  assert (He0 : e <> 0) by (destruct He as [[_ ?]|(_ & _ & [? _])]; lia).
  set (s' := indirect_done s3 n (dino st n) e).
  assert (Hd : dino s' n = set_indirect e (dino st n)).
  { unfold s', indirect_done. destruct (Z.eqb_spec e (indirect (dino st n))) as [->|].
    - rewrite Hd3. by destruct (dino st n).
    - by rewrite din_changed_dino, decide_True, Hd3. }
  assert (Himg : img s' = img s3) by (unfold s', indirect_done; by destruct (e =? indirect (dino st n))).
  assert (Hinu : forall c, inuse s' c <-> inuse s3 c).
  { unfold s', indirect_done. by destruct (e =? indirect (dino st n)). }
  assert (Hsin : forall k, sins s' k = if decide (k = n) then
      (if e =? indirect (dino st n) then sins st n
       else set_dirty true (on_din (set_indirect e) (sins st n))) else sins st k).
  { intros k. unfold s', indirect_done. rewrite <- Hf2. destruct (e =? indirect (dino st n)); [by case_decide; subst|].
    apply din_changed_sin. }
  assert (Hent' : forall j, entry s' e j = entry s3 e j) by (intros j; unfold entry; by rewrite Himg).
  split; rewrite ?Hd; try done.
  - unfold s', indirect_done. destruct (e =? indirect (dino st n)); [done|by apply din_changed_wf].
  - unfold s', indirect_done. by destruct (e =? indirect (dino st n)).
  - unfold s', indirect_done. by destruct (e =? indirect (dino st n)).
  - unfold s', indirect_done. by destruct (e =? indirect (dino st n)).
  - intros k Hk. by rewrite Hsin, decide_False.
  - rewrite Hsin, decide_True by done. by destruct (e =? indirect (dino st n)).
  - intros i Hi'. unfold fmap. rewrite Hd. cbn [direct indirect set_indirect].
    destruct (Z.ltb_spec i 12); [by rewrite decide_False by lia|].
    destruct (Z.eqb_spec e 0); [done|]. rewrite Hent', Hent by (unfold max_blocks in *; lia).
    destruct (decide (i = index)) as [->|]; [by rewrite decide_True|]. rewrite decide_False by lia.
    destruct He as [[-> _]|(-> & _)]; [|done].
    by destruct (Z.eqb_spec (indirect (dino st n)) 0).
  - by rewrite Hinu.
  - cbn. rewrite Hinu. destruct He as [[-> _]|(H0 & ? & ?)]; [by left|right]. split_and!; auto.
  - intros c Hc. rewrite Hinu. by apply Hmono.
  - intros o Ho. unfold byte. rewrite Himg. by apply Hz.
  - intros c o Hc Hne Ho. unfold byte. rewrite Himg. apply Hby; [done| |done].
    destruct He as [[-> _]|(_ & Hn & _)]; [done|]. by intros ->.
Qed.

(** Allocation and the write of the entry, from a state where [e] is in use. *)
Lemma alloc_entry_set st s1 n index e :
  fs_wf s1 -> fs_frame st s1 -> 12 <= index < max_blocks -> inuse s1 e ->
  (e = indirect (dino st n) /\ e <> 0 \/ indirect (dino st n) = 0 /\ ~ inuse st e) ->
  (forall c, inuse st c -> inuse s1 c) ->
  (forall c o, inuse st c -> c <> e -> 0 <= o < 4096 -> byte s1 c o = byte st c o) ->
  (forall j, 0 <= j < 1024 ->
     entry s1 e j = if indirect (dino st n) =? 0 then 0 else entry st e j) ->
  sfs_block_alloc s1 = Done ((- E_NO_MEM, 0), s1) \/
  exists b s2 s3, sfs_block_alloc s1 = Done ((0, b), s2) /\
    write_entry b e ((index - 12) * 4) s2 = Done (0, s3) /\
    indirect_set st s3 n index e b.
Proof.
  intros Hw1 Hf1 Hi He He' Hmono Hby Hent.
  destruct (sfs_block_alloc_correct s1 Hw1) as [[_ Hrun]|(b & s2 & Hb & Hnb & Hrun & Hw2 & Hf2 & Hin2 & Him2)];
    [by left|right].
  destruct (alloc_bytes s1 s2 b Him2) as [Hz2 Hby2].
  pose proof (blocks_bound s1 Hw1) as Hbound. unfold max_blocks in Hi.
  destruct (write_entry_spec s2 b e (index - 12) Hw2) as (s3 & m' & Hwr & Hu & Hget & Hout);
    [apply Hin2; by right|lia|lia|].
  assert (Hbe : b <> e) by (by intros ->).
  assert (Hby3 : forall c o, c <> e -> 0 <= o < 4096 -> byte s3 c o = byte s2 c o).
  { intros c o Hc Ho. unfold byte. rewrite (disk_upd_img _ _ _ Hu). apply Hout.
    destruct (Z.lt_ge_cases c e); [left|right]; lia. }
  exists b, s2, s3. split; [done|]. split; [done|]. split.
  - by apply (disk_upd_wf _ _ _ Hu).
  - eapply fs_frame_trans; [exact Hf1|]. eapply fs_frame_trans; [exact Hf2|].
    by apply (disk_upd_frame _ _ _ Hu).
  - destruct He' as [?|[? ?]]; [by left|right]. split_and!; [done|done|].
    apply (disk_upd_inuse _ _ _ _ Hu), Hin2. by right.
  - split_and!; [|intros Hc; by apply Hnb, Hmono|done].
    apply (disk_upd_inuse _ _ _ _ Hu), Hin2. by left.
  - intros c Hc. apply (disk_upd_inuse _ _ _ _ Hu), Hin2. right. by apply Hmono.
  - intros o Ho. rewrite Hby3 by done. by apply Hz2.
  - intros c o Hc Hne Ho. rewrite Hby3, Hby2; [by apply Hby| |done|done|done].
    intros ->. by apply Hnb, Hmono.
  - intros j Hj. rewrite <- Hent by done. case_decide as Hji.
    + subst j. unfold entry. rewrite <- Hget. apply le_get_ext. intros k Hk.
      apply (disk_upd_img _ _ _ Hu).
    + transitivity (entry s2 e j).
      * apply le_get_ext. intros k Hk. rewrite (disk_upd_img _ _ _ Hu). apply Hout. lia.
      * apply entry_ext; [|done]. intros o Ho. by apply Hby2.
Qed.

Lemma bmap_out_ind st s3 n index e b :
  indirect_set st s3 n index e b -> bmap_out b s3 = Done ((0, b), s3).
Proof. intros Hs. apply bmap_out_spec; [apply Hs|]. by destruct (is_b _ _ _ _ _ _ Hs). Qed.

(** The end of [sfs_bmap_get_nolock] after the indirect block was updated. *)
Lemma finish_indirect st s3 n index e b :
  map_ok st n -> fs_wf st -> 12 <= index < max_blocks -> indirect_set st s3 n index e b ->
  sfs_bmap_get_sub_nolock (indirect (dino st n)) (index - 12) true st = Done ((0, e, b), s3) ->
  sfs_bmap_get_nolock n index true st = Done ((0, b), indirect_done s3 n (dino st n) e).
Proof.
  intros Hmap Hwf Hi Hset Hsub. unfold sfs_bmap_get_nolock. mstep (get_dinode_run st n).
  destruct (sub_index index Hi) as (-> & E & ->). rewrite E. mstep Hsub. cbn [Z.eqb negb].
  mstep (get_dinode_run s3 n).
  assert (Hd3 : dino s3 n = dino st n).
  { unfold dino. by destruct (is_frame _ _ _ _ _ _ Hset) as (_ & -> & _). }
  rewrite Hd3. unfold indirect_done. destruct (Z.eqb_spec e (indirect (dino st n))); cbn [negb].
  - rewrite ret_bind. by apply (bmap_out_ind st s3 n index e b).
  - destruct (is_e _ _ _ _ _ _ Hset) as [[? _]|(H0 & _)]; [done|]. rewrite H0. cbn [Z.eqb].
    change ((assert true ;; mod_sin n (on_din (set_indirect e)) ;; mod_sin n (set_dirty true)) ≫=
              (fun _ => bmap_out b)) with
      (fun s => bmap_out b (din_changed s n (set_indirect e)) : outcome (Z * Z * sfs_fs D)).
    cbv beta. apply bmap_out_spec; [apply din_changed_wf, Hset|].
    by destruct (is_b _ _ _ _ _ _ Hset).
Qed.

Lemma fmap_indirect st n index :
  12 <= index -> fmap st n index
  = if indirect (dino st n) =? 0 then 0 else entry st (indirect (dino st n)) (index - 12).
Proof. intros. unfold fmap. by destruct (Z.ltb_spec index 12); [lia|]. Qed.

(** The indirect block is there. *)
Lemma bmap_alloc_old_indirect st n index :
  fs_wf st -> map_ok st n -> 12 <= index < max_blocks -> fmap st n index = 0 ->
  indirect (dino st n) <> 0 ->
  (exists st', sfs_bmap_get_nolock n index true st = Done ((- E_NO_MEM, 0), st') /\
     bmap_failed st n st') \/
  exists b st', sfs_bmap_get_nolock n index true st = Done ((0, b), st') /\
     bmap_new st n index b st'.
Proof.
  intros Hwf Hmap Hi H0 Hne. destruct (mo_ind _ _ Hmap Hne) as [Hin _].
  rewrite fmap_indirect in H0 by lia. destruct (Z.eqb_spec (indirect (dino st n)) 0); [done|].
  destruct (sub_index index Hi) as (E1 & E2 & E3).
  destruct (read_entry_spec st (indirect (dino st n)) (index - 12) Hwf Hin) as (s1 & Hrd & Hu);
    [unfold max_blocks in *; lia|].
  rewrite H0 in Hrd. pose proof (disk_upd_wf _ _ _ Hu Hwf) as Hw1.
  assert (Hsub0 : forall r,
    alloc_entry (indirect (dino st n)) (indirect (dino st n)) ((index - 12) * 4) s1 = r ->
    sfs_bmap_get_sub_nolock (indirect (dino st n)) (index - 12) true st = r).
  { intros r <-. unfold sfs_bmap_get_sub_nolock. rewrite E2. mstep (assert_true true st eq_refl).
    destruct (Z.eqb_spec (indirect (dino st n)) 0); [done|]. cbn [negb]. mstep Hrd.
    by rewrite Z.eqb_refl. }
  destruct (alloc_entry_set st s1 n index (indirect (dino st n)) Hw1) as [Hal|(b & s2 & s3 & Hal & Hwr & Hset)].
  - apply (disk_upd_frame _ _ _ Hu).
  - done.
  - by apply (disk_upd_inuse _ _ _ _ Hu).
  - by left.
  - intros c Hc. by apply (disk_upd_inuse _ _ _ _ Hu).
  - intros c o _ _ _. by apply disk_upd_byte.
  - intros j Hj. destruct (Z.eqb_spec (indirect (dino st n)) 0); [done|]. apply entry_ext; [|done].
    intros o _. by apply disk_upd_byte.
  - left. exists s1. split; [|by apply disk_upd_failed].
    unfold sfs_bmap_get_nolock. mstep (get_dinode_run st n). rewrite E1, E2, E3.
    assert (Hs : sfs_bmap_get_sub_nolock (indirect (dino st n)) (index - 12) true st
                 = Done ((- E_NO_MEM, indirect (dino st n), 0), s1)).
    { apply Hsub0. unfold alloc_entry. mstep Hal. unfold failed_cleanup. by rewrite Z.eqb_refl. }
    by mstep Hs.
  - right. exists b. eexists. split; [|by apply bmap_new_indirect].
    apply (finish_indirect st s3 n index _ b Hmap Hwf Hi Hset), Hsub0. unfold alloc_entry. mstep Hal. cbn [Z.eqb negb].
    by mstep Hwr.
Qed.

(** The indirect block has to be allocated first. *)
Lemma bmap_alloc_new_indirect st n index :
  fs_wf st -> map_ok st n -> 12 <= index < max_blocks -> indirect (dino st n) = 0 ->
  (exists st', sfs_bmap_get_nolock n index true st = Done ((- E_NO_MEM, 0), st') /\
     bmap_failed st n st') \/
  exists b st', sfs_bmap_get_nolock n index true st = Done ((0, b), st') /\
     bmap_new st n index b st'.
Proof.
  intros Hwf Hmap Hi H0. destruct (sub_index index Hi) as (E1 & E2 & E3).
  assert (Hfail : forall st', bmap_failed st n st' ->
    sfs_bmap_get_sub_nolock 0 (index - 12) true st = Done ((- E_NO_MEM, 0, 0), st') ->
    sfs_bmap_get_nolock n index true st = Done ((- E_NO_MEM, 0), st')).
  { intros st' _ Hs. unfold sfs_bmap_get_nolock. mstep (get_dinode_run st n).
    rewrite E1, E2, E3, H0. by mstep Hs. }
  destruct (sfs_block_alloc_correct st Hwf) as [[_ Hal]|(e & s1 & He & Hne & Hal & Hw1 & Hf1 & Hin1 & Him1)].
  { left. exists st. assert (Hbf : bmap_failed st n st) by by split.
    split; [|done]. apply Hfail; [done|]. unfold sfs_bmap_get_sub_nolock. rewrite E2.
    mstep (assert_true true st eq_refl). cbn [Z.eqb negb]. by mstep Hal. }
  destruct (alloc_bytes st s1 e Him1) as [Hz1 Hby1].
  assert (Hine : inuse s1 e) by (apply Hin1; by left).
  assert (Hfresh : forall c, inuse st c -> c <> e) by (intros c Hc ->; done).
  destruct (alloc_entry_set st s1 n index e Hw1) as [Hal2|(b & s2 & s3 & Hal2 & Hwr & Hset)];
    try done.
  - by right.
  - intros c Hc. apply Hin1. by right.
  - intros c o Hc Hc' Ho. by apply Hby1.
  - intros j Hj. rewrite H0. cbn [Z.eqb]. by apply entry_zero.
  - left. pose proof (sfs_block_free_correct s1 e Hw1 (inuse_range _ _ Hine)) as Hfree.
    destruct Hine as [_ Hbit]. rewrite Hbit in Hfree.
    destruct Hfree as (s2 & Hfr & Hw2 & Hf2 & Hdev & Hin2). exists s2.
    assert (Hbf : bmap_failed st n s2).
    { split; [done|by eapply fs_frame_trans| |].
      - intros c. rewrite Hin2, Hin1. split; [intuition congruence|]. intros Hc. split; [by right|].
        by apply Hfresh.
      - intros c o Hc Ho. unfold byte, img. rewrite Hdev. by apply Hby1; [apply Hfresh|]. }
    split; [|done]. apply Hfail; [done|]. unfold sfs_bmap_get_sub_nolock. rewrite E2.
    mstep (assert_true true st eq_refl). cbn [Z.eqb negb]. mstep Hal. cbn [Z.eqb negb].
    unfold alloc_entry. mstep Hal2. cbn [Z.eqb negb E_NO_MEM Z.opp]. unfold failed_cleanup. destruct (Z.eqb_spec e 0); [lia|]. cbn [negb].
    change (- E_NO_MEM =? 0) with false. cbn [negb]. by mstep Hfr.
  - right. exists b. eexists. split; [|by apply bmap_new_indirect].
    apply (finish_indirect st s3 n index e b Hmap Hwf Hi Hset). rewrite H0.
    unfold sfs_bmap_get_sub_nolock. rewrite E2.
    mstep (assert_true true st eq_refl). cbn [Z.eqb negb]. mstep Hal. cbn [Z.eqb negb].
    unfold alloc_entry. mstep Hal2. cbn [Z.eqb negb]. by mstep Hwr.
Qed.

Lemma bmap_alloc_direct st n index :
  fs_wf st -> map_ok st n -> 0 <= index < 12 -> fmap st n index = 0 ->
  sfs_bmap_get_nolock n index true st = Done ((- E_NO_MEM, 0), st) \/
  exists b st', sfs_bmap_get_nolock n index true st = Done ((0, b), st') /\
     bmap_new st n index b st'.
Proof.
  intros Hwf Hmap Hi H0.
  assert (Hd0 : (direct (dino st n) index =? 0) && true = true).
  { unfold fmap in H0. destruct (Z.ltb_spec index 12); [|lia]. by rewrite H0. }
  assert (Hlt : (index <? SFS_NDIRECT) = true) by (apply Z.ltb_lt; unfold SFS_NDIRECT; lia).
  unfold sfs_bmap_get_nolock.
  destruct (sfs_block_alloc_correct st Hwf) as [[_ Hal]|(b & s1 & Hb & Hnb & Hal & Hw1 & Hf1 & Hin1 & Him1)].
  - left. mstep (get_dinode_run st n). rewrite Hlt, Hd0. by mstep Hal.
  - right. exists b, (din_changed s1 n (set_direct index b)).
    split; [|by apply bmap_new_direct]. mstep (get_dinode_run st n). rewrite Hlt, Hd0.
    mstep Hal. cbn [Z.eqb negb].
    change (bmap_out b (din_changed s1 n (set_direct index b))
            = Done ((0, b), din_changed s1 n (set_direct index b))).
    apply bmap_out_spec; [by apply din_changed_wf|]. apply Hin1. by left.
Qed.

Lemma sfs_bmap_get_alloc st n index :
  fs_wf st -> map_ok st n -> 0 <= index < max_blocks -> fmap st n index = 0 ->
  (exists st', sfs_bmap_get_nolock n index true st = Done ((- E_NO_MEM, 0), st') /\
     bmap_failed st n st') \/
  exists b st', sfs_bmap_get_nolock n index true st = Done ((0, b), st') /\
     bmap_new st n index b st'.
Proof.
  intros Hwf Hmap Hi H0. destruct (decide (index < 12)).
  - destruct (bmap_alloc_direct st n index Hwf Hmap ltac:(lia) H0) as [Hf|Hs]; [left|by right].
    exists st. split; [done|by split].
  - destruct (decide (indirect (dino st n) = 0)).
    + apply bmap_alloc_new_indirect; done || lia.
    + apply bmap_alloc_old_indirect; done || lia.
Qed.

(** ** [sfs_bmap_load_nolock] *)
Lemma sfs_bmap_load_found st n index :
  fs_wf st -> map_ok st n -> 0 <= index < iblocks (dino st n) ->
  exists st', sfs_bmap_load_nolock n index st = Done ((0, fmap st n index), st') /\
    disk_upd st st' (img st).
Proof.
  intros Hwf Hmap Hi. pose proof (mo_used _ _ Hmap index Hi) as Hin.
  pose proof (mo_blocks _ _ Hmap).
  destruct (sfs_bmap_get_found st n index false Hwf) as (st' & Hrun & Hu); [lia|done| |].
  { intros Hne. by destruct (mo_ind _ _ Hmap Hne). }
  exists st'. split; [|done]. unfold sfs_bmap_load_nolock. mstep (get_dinode_run st n).
  destruct (Z.leb_spec index (iblocks (dino st n))); [|lia]. mstep (assert_true true st eq_refl).
  destruct (Z.eqb_spec index (iblocks (dino st n))); [lia|]. mstep Hrun. cbn [Z.eqb negb].
  mstep (sfs_block_inuse_true st' (fmap st n index) (disk_upd_wf _ _ _ Hu Hwf)
           (proj2 (disk_upd_inuse _ _ _ _ Hu) Hin)).
  by mstep (assert_true true st' eq_refl).
Qed.

Definition iblocks_inc st n : sfs_fs D := on_sin n (on_din (fun d => set_iblocks (iblocks d + 1) d)) st.

Lemma sfs_bmap_load_new st n :
  fs_wf st -> map_ok st n -> iblocks (dino st n) < max_blocks ->
  (exists st', sfs_bmap_load_nolock n (iblocks (dino st n)) st = Done ((- E_NO_MEM, 0), st') /\
     bmap_failed st n st') \/
  exists b s1, sfs_bmap_load_nolock n (iblocks (dino st n)) st = Done ((0, b), iblocks_inc s1 n) /\
     bmap_new st n (iblocks (dino st n)) b s1.
Proof.
  intros Hwf Hmap Hlt. pose proof (mo_blocks _ _ Hmap) as Hnb.
  assert (H0 : fmap st n (iblocks (dino st n)) = 0) by (apply (mo_rest _ _ Hmap); lia).
  assert (Hrun : forall st' r, sfs_bmap_get_nolock n (iblocks (dino st n)) true st = Done (r, st') ->
    sfs_bmap_load_nolock n (iblocks (dino st n)) st =
    (let (ret, ino) := r in
     if negb (ret =? 0) then Done ((ret, 0), st')
     else (b ← sfs_block_inuse ino; assert b ;;
           mod_sin n (on_din (fun d => set_iblocks (iblocks d + 1) d)) ;; mret (0, ino)) st')).
  { intros st' [ret b] Hr. unfold sfs_bmap_load_nolock. mstep (get_dinode_run st n).
    rewrite Z.leb_refl, Z.eqb_refl. mstep (assert_true true st eq_refl). mstep Hr.
    by destruct (ret =? 0). }
  destruct (sfs_bmap_get_alloc st n (iblocks (dino st n)) Hwf Hmap ltac:(lia) H0) as
    [(st' & Hr & Hf)|(b & s1 & Hr & Hn)]; rewrite (Hrun _ _ Hr).
  - left. by exists st'.
  - right. exists b, s1. split; [|done]. cbn [Z.eqb negb].
    destruct (bn_b _ _ _ _ _ Hn) as [Hin _].
    mstep (sfs_block_inuse_true s1 b (bn_wf _ _ _ _ _ Hn) Hin).
    by mstep (assert_true true s1 eq_refl).
Qed.

(** ** The growth of a file, as one relation

    From [st] to [st'] the file [n] kept its blocks and may have new ones; its
    bytes from [lo] to [hi] are now given by [f], its other old bytes are
    unchanged and the rest of the new blocks is zero.  Nothing else that is in
    use changed. *)
Definition fbyte st n (p : Z) : Z := byte st (fmap st n (p / 4096)) (p mod 4096).

Record advanced st n (lo hi : Z) (f : Z -> Z) st' : Prop := mkAdvanced {
  ad_wf : fs_wf st';
  ad_map : map_ok st' n;
  ad_super : blocks (super st') = blocks (super st);
  ad_lists : inode_list st' = inode_list st /\ hash_list st' = hash_list st;
  ad_sems : fs_sem st' = fs_sem st /\ io_sem st' = io_sem st /\ mutex_sem st' = mutex_sem st;
  ad_others k : k <> n -> sins st' k = sins st k;
  ad_sin : ino (sins st' n) = ino (sins st n) /\ sem (sins st' n) = sem (sins st n) /\
           reclaim_count (sins st' n) = reclaim_count (sins st n) /\
           ref_count (sins st' n) = ref_count (sins st n) /\
           open_count (sins st' n) = open_count (sins st n);
  ad_din : size (dino st' n) = size (dino st n) /\ type (dino st' n) = type (dino st n) /\
           nlinks (dino st' n) = nlinks (dino st n);
  ad_blocks : iblocks (dino st n) <= iblocks (dino st' n);
  ad_fmap i : 0 <= i < iblocks (dino st n) -> fmap st' n i = fmap st n i;
  ad_fresh i : iblocks (dino st n) <= i < iblocks (dino st' n) -> ~ inuse st (fmap st' n i);
  ad_ind : indirect (dino st' n) = indirect (dino st n) \/
           (indirect (dino st n) = 0 /\ ~ inuse st (indirect (dino st' n)));
  ad_mono c : inuse st c -> inuse st' c;
  ad_hi : lo < hi -> hi <= iblocks (dino st' n) * 4096;
  ad_content p : 0 <= p < iblocks (dino st' n) * 4096 ->
    fbyte st' n p = if decide (lo <= p < hi) then f p
                    else if decide (p < iblocks (dino st n) * 4096) then fbyte st n p else 0;
  ad_frame c o : inuse st c -> (forall i, 0 <= i < iblocks (dino st n) -> fmap st n i <> c) ->
    c <> indirect (dino st n) -> 0 <= o < 4096 -> byte st' c o = byte st c o }.

Lemma advanced_trans st n lo mid hi f st1 st2 :
  map_ok st n -> lo <= mid <= hi ->
  advanced st n lo mid f st1 -> advanced st1 n mid hi f st2 -> advanced st n lo hi f st2.
Proof.
  intros Hmap Hle A B. pose proof (mo_blocks _ _ Hmap). pose proof (ad_blocks _ _ _ _ _ _ A). pose proof (ad_blocks _ _ _ _ _ _ B).
  pose proof (mo_blocks _ _ (ad_map _ _ _ _ _ _ B)).
  destruct A as [A1 A2 A3 A4 A5 A6 A7 A8 A9 A10 A11 A12 A13 Ah A14 A15].
  destruct B as [B1 B2 B3 B4 B5 B6 B7 B8 B9 B10 B11 B12 B13 Bh B14 B15].
  split; try done; try (intuition congruence).
  - intros k Hk. by rewrite B6, A6.
  - lia.
  - intros i Hi. rewrite B10, A10 by lia. done.
  - intros i Hi. destruct (decide (i < iblocks (dino st1 n))).
    + rewrite B10 by lia. apply A11. lia.
    + intros Hc. apply (B11 i); [lia|]. by apply A13.
  - destruct A12 as [A12|[? ?]], B12 as [B12|[? B12]]; try (left; congruence).
    + right. split; [congruence|]. intros Hc. apply B12. by apply A13.
    + right. split; [done|]. by rewrite B12.
    + right. split; [done|]. intros Hc. apply B12. by apply A13.
  - intros c Hc. by apply B13, A13.
  - intros Hlt. destruct (decide (mid < hi)); [by apply Bh|].
    assert (hi = mid) as -> by lia. specialize (Ah ltac:(lia)). lia.
  - intros p Hp. rewrite B14 by done. destruct (decide (mid <= p < hi)).
    { by rewrite decide_True by lia. }
    destruct (decide (p < iblocks (dino st1 n) * 4096)).
    + rewrite A14 by lia. repeat case_decide; try done; lia.
    + rewrite !decide_False; [done|lia|]. intros Hin. specialize (Ah ltac:(lia)). lia.
  - intros c o Hc Hn Hi Ho. rewrite B15; [apply A15; done|by apply A13| | |done].
    + intros i Hi'. destruct (decide (i < iblocks (dino st n))); [by rewrite A10 by lia; apply Hn; lia|].
      intros <-. apply (A11 i); [lia|done].
    + destruct A12 as [->|[_ A12]]; [done|]. by intros ->.
Qed.
End bmap.
