(* ===== verification/SfsFile.v ===== *)
(** * The simple file system: reading and writing files

    [sfs_io_nolock] refines reading and writing an array of bytes. *)
From S2P Require Import Prelude Libs Mem Disk Bitmap SfsIo SfsInode SfsAlloc SfsMap.

Section file.
  Context {D : Type} `{BlockDevice D}.
  Implicit Types (st : sfs_fs D).

Lemma block_of p : 0 <= p -> 0 <= p / 4096 /\ 0 <= p mod 4096 < 4096 /\ p = p / 4096 * 4096 + p mod 4096.
Proof.
  intros. pose proof (Z.div_mod p 4096 ltac:(lia)). pose proof (Z.mod_pos_bound p 4096 ltac:(lia)).
  split_and!; [apply Z.div_pos|..]; lia.
Qed.

Lemma block_lt p k : 0 <= p < k * 4096 -> p / 4096 < k.
Proof. intros. apply Z.div_lt_upper_bound; lia. Qed.

(** ** States that differ in nothing the file can see *)
Lemma map_ok_ext st st' n :
  map_ok st n -> dino st' n = dino st n ->
  (forall c, inuse st c -> inuse st' c) ->
  (forall i, 0 <= i < max_blocks -> fmap st' n i = fmap st n i) -> map_ok st' n.
Proof.
  intros [M1 M2 M3 M4 M5] Hd Hin Hf. split; rewrite ?Hd; try done.
  - intros i Hi. rewrite Hf by lia. by apply Hin, M2.
  - intros i Hi. rewrite Hf by lia. by apply M3.
  - intros i j Hi Hj. rewrite !Hf by lia. by apply M4.
  - intros Hne. destruct (M5 Hne) as [M5' M6]. split; [by apply Hin|]. intros i Hi.
    rewrite Hf by lia. by apply M6.
Qed.

Lemma failed_fmap st st' n i :
  map_ok st n -> bmap_failed st n st' -> 0 <= i < max_blocks -> fmap st' n i = fmap st n i.
Proof.
  intros Hmap [_ (_ & Hs & _) _ Hb] Hi. apply fmap_ext; [unfold dino; by rewrite Hs| |done].
  intros o Ho Hne. apply Hb; [|done]. by destruct (mo_ind _ _ Hmap Hne).
Qed.

Lemma advanced_failed st n lo f st' :
  map_ok st n -> bmap_failed st n st' -> advanced st n lo lo f st'.
Proof.
  intros Hmap Hf. pose proof (failed_fmap st st' n) as Hfm.
  pose proof (mo_blocks _ _ Hmap) as Hnb.
  destruct Hf as [Hwf (F1 & F2 & F3 & F4 & F5 & F6 & F7) Hin Hb] eqn:Heq. clear Heq.
  assert (Hd : dino st' n = dino st n) by (unfold dino; by rewrite F2).
  assert (Hfm' : forall i, 0 <= i < max_blocks -> fmap st' n i = fmap st n i).
  { intros i Hi. apply Hfm; [done| |done]. by split. }
  split; rewrite ?Hd; try done; try lia.
  - apply (map_ok_ext st); [done|done| |done]. intros c. by apply Hin.
  - by rewrite F2.
  - by rewrite F2.
  - intros i Hi. apply Hfm'. lia.
  - intros c. by apply Hin.
  - intros p Hp. destruct (block_of p ltac:(lia)) as (? & ? & ?). pose proof (block_lt _ _ Hp).
    rewrite decide_False, decide_True by lia. unfold fbyte. rewrite Hfm' by lia.
    apply Hb; [|lia]. apply (mo_used _ _ Hmap). lia.
  - intros c o Hc _ _ Ho. by apply Hb.
Qed.

Lemma advanced_refl st n lo f : fs_wf st -> map_ok st n -> advanced st n lo lo f st.
Proof.
  intros Hwf Hmap. apply advanced_failed; [done|]. by split.
Qed.

Lemma advanced_upd st n lo f st' :
  fs_wf st -> map_ok st n -> disk_upd st st' (img st) -> advanced st n lo lo f st'.
Proof. intros. apply advanced_failed; [done|]. by apply disk_upd_failed. Qed.

(** ** A new block at the end *)
Section new_block.
  Context (st s1 : sfs_fs D) (n b : Z) (Hwf : fs_wf st) (Hmap : map_ok st n)
    (Hlt : iblocks (dino st n) < max_blocks)
    (Hnew : bmap_new st n (iblocks (dino st n)) b s1).

Let st' : sfs_fs D := iblocks_inc s1 n.

Lemma inc_dino : dino st' n = set_iblocks (iblocks (dino st n) + 1) (dino s1 n).
Proof.
  unfold st', dino, iblocks_inc, on_sin, set_sins. cbn. rewrite upd_eq. cbn.
  destruct (bn_din _ _ _ _ _ Hnew) as (_ & _ & _ & He). unfold dino in He. by rewrite He.
Qed.

Lemma inc_iblocks : iblocks (dino st' n) = iblocks (dino st n) + 1.
Proof.
  rewrite inc_dino. cbn. pose proof (mo_blocks _ _ Hmap). unfold max_blocks in *.
  apply u32_small. lia.
Qed.

Lemma inc_indirect : indirect (dino st' n) = indirect (dino s1 n).
Proof. by rewrite inc_dino. Qed.

Lemma inc_fmap i : 0 <= i < max_blocks ->
  fmap st' n i = if decide (i = iblocks (dino st n)) then b else fmap st n i.
Proof.
  intros Hi. rewrite <- (bn_fmap _ _ _ _ _ Hnew) by done. unfold fmap. by rewrite inc_dino.
Qed.

Lemma inc_inuse c : inuse st' c <-> inuse s1 c.
Proof. done. Qed.

Lemma inc_byte c o : byte st' c o = byte s1 c o.
Proof. done. Qed.

Lemma inc_map_ok : map_ok st' n.
Proof.
  pose proof (mo_blocks _ _ Hmap) as Hnb. destruct (bn_b _ _ _ _ _ Hnew) as [Hb1 Hb2].
  assert (Hold : forall i, 0 <= i < iblocks (dino st n) -> inuse st (fmap st n i)) by apply Hmap.
  split; rewrite ?inc_iblocks, ?inc_indirect.
  - lia.
  - intros i Hi. rewrite inc_fmap by lia. case_decide; [done|].
    apply inc_inuse, (bn_mono _ _ _ _ _ Hnew), Hold. lia.
  - intros i Hi. rewrite inc_fmap, decide_False by lia. apply (mo_rest _ _ Hmap). lia.
  - intros i j Hi Hj. rewrite !inc_fmap by lia. repeat case_decide; try lia.
    + intros Hbj. destruct Hb2. rewrite Hbj. apply Hold. lia.
    + intros Hbi. destruct Hb2. rewrite <- Hbi. apply Hold. lia.
    + apply (mo_inj _ _ Hmap); lia.
  - intros Hne. destruct (bn_ind _ _ _ _ _ Hnew) as [He|(H0 & He1 & He2 & He3)].
    + rewrite He in Hne |- *. destruct (mo_ind _ _ Hmap Hne) as [Hi1 Hi2].
      split; [by apply (bn_mono _ _ _ _ _ Hnew)|]. intros i Hi. rewrite inc_fmap by lia.
      case_decide; [by intros ->|apply Hi2; lia].
    + split; [done|]. intros i Hi. rewrite inc_fmap by lia. case_decide; [congruence|].
      intros Hfe. apply He2. rewrite <- Hfe. apply Hold. lia.
Qed.

Lemma advanced_new lo f : advanced st n lo lo f st'.
Proof.
  pose proof (mo_blocks _ _ Hmap) as Hnb. destruct (bn_b _ _ _ _ _ Hnew) as [Hb1 Hb2].
  destruct Hnew as [N1 N2 N3 N4 N5 N6 N7 N8 N9 N10 N11 N12 N13].
  split; rewrite ?inc_iblocks, ?inc_indirect; try done; try lia.
  - destruct N1 as [[? ?] ? ? ? ? ?]. by split.
  - exact inc_map_ok.
  - intros k Hk. rewrite <- N5 by done. unfold st', iblocks_inc, on_sin, set_sins. cbn. by rewrite upd_ne.
  - unfold st', iblocks_inc, on_sin, set_sins. cbn. rewrite upd_eq. cbn. exact N6.
  - rewrite inc_dino. cbn. intuition.
  - intros i Hi. rewrite inc_fmap, decide_False by lia. done.
  - intros i Hi. by rewrite inc_fmap, decide_True by lia.
  - destruct N10 as [?|(? & ? & ? & ?)]; [by left|by right].
  - intros p Hp. destruct (block_of p ltac:(lia)) as (? & ? & ?). pose proof (block_lt _ _ Hp).
    rewrite (decide_False (P := lo <= p < lo)) by lia. unfold fbyte.
    rewrite inc_fmap by lia. case_decide as Hpi.
    + rewrite decide_False by lia. by apply N12.
    + rewrite decide_True by lia. rewrite inc_byte. apply N13; [|intros He|lia].
      * apply (mo_used _ _ Hmap). lia.
      * destruct (decide (indirect (dino st n) = 0)) as [Hz0|Hne].
        { assert (Hu : inuse st (fmap st n (p / 4096))) by (apply (mo_used _ _ Hmap); lia).
          destruct Hu. lia. }
        destruct (mo_ind _ _ Hmap Hne) as [_ Hni]. apply (Hni (p / 4096)); [lia|done].
  - intros c o Hc _ Hne Ho. by apply N13.
Qed.
End new_block.

(** [sfs_bmap_load_nolock] up to the end of the file. *)
Lemma load_advances st n index lo f :
  fs_wf st -> map_ok st n -> 0 <= index <= iblocks (dino st n) -> index < max_blocks ->
  exists ret ino st', sfs_bmap_load_nolock n index st = Done ((ret, ino), st') /\
    advanced st n lo lo f st' /\
    ((ret = - E_NO_MEM /\ iblocks (dino st' n) = iblocks (dino st n)) \/
     (ret = 0 /\ iblocks (dino st' n) = Z.max (iblocks (dino st n)) (index + 1) /\
      ino = fmap st' n index)).
Proof.
  intros Hwf Hmap Hi Hlt. destruct (decide (index < iblocks (dino st n))).
  - destruct (sfs_bmap_load_found st n index Hwf Hmap ltac:(lia)) as (st' & Hrun & Hu).
    exists 0, (fmap st n index), st'. split; [done|]. split; [by apply advanced_upd|right].
    pose proof (advanced_upd st n 0 (fun _ => 0) st' Hwf Hmap Hu) as Ha.
    split; [done|]. rewrite (disk_upd_dino _ _ _ n Hu). split; [lia|].
    by rewrite (ad_fmap _ _ _ _ _ _ Ha) by lia.
  - assert (index = iblocks (dino st n)) as -> by lia.
    destruct (sfs_bmap_load_new st n Hwf Hmap Hlt) as [(st' & Hrun & Hf)|(b & s1 & Hrun & Hn)].
    + exists (- E_NO_MEM), 0, st'. split; [done|]. split; [by apply advanced_failed|left].
      split; [done|]. destruct Hf as [_ (_ & Hs & _) _ _]. unfold dino. by rewrite Hs.
    + exists 0, b, (iblocks_inc s1 n). split; [done|]. split; [by apply advanced_new with b|right].
      split; [done|]. rewrite (inc_iblocks st s1 n b) by done. split; [lia|].
      rewrite (inc_fmap st s1 n b) by (done || lia). by rewrite decide_True.
Qed.

(** ** Writing part of a block *)
Lemma write_advances st n q off len f buf base st' :
  fs_wf st -> map_ok st n -> 0 <= q < iblocks (dino st n) -> 0 <= off -> 0 <= len ->
  off + len <= 4096 ->
  (forall p, q * 4096 + off <= p < q * 4096 + off + len -> f p = buf (base + (p - (q * 4096 + off)))) ->
  disk_upd st st' (copy (img st) (fmap st n q * 4096 + off) buf base len) ->
  advanced st n (q * 4096 + off) (q * 4096 + off + len) f st'.
Proof.
  intros Hwf Hmap Hq Ho Hl Hle Hf Hu. pose proof (mo_blocks _ _ Hmap) as Hnb.
  set (b := fmap st n q) in *.
  assert (Hd : dino st' n = dino st n) by apply (disk_upd_dino _ _ _ n Hu).
  assert (Hby : forall c o, 0 <= o < 4096 ->
            byte st' c o = if decide (c = b /\ off <= o < off + len) then buf (base + (o - off))
                           else byte st c o).
  { intros c o Hco. unfold byte. rewrite (disk_upd_img _ _ _ Hu). case_decide as Hc.
    - destruct Hc as [-> Hc]. rewrite copy_in by lia. f_equal. lia.
    - rewrite copy_out; [done|]. destruct (decide (c = b)) as [->|]; [lia|].
      destruct (Z.lt_ge_cases c b); [left|right]; lia. }
  assert (Hother : forall c, inuse st c -> c <> b -> forall o, 0 <= o < 4096 -> byte st' c o = byte st c o).
  { intros c _ Hc o Hco. rewrite Hby by done. rewrite decide_False; [done|]. by intros [? _]. }
  assert (Hfm : forall i, 0 <= i < max_blocks -> fmap st' n i = fmap st n i).
  { intros i Hi. apply fmap_ext; [done| |done]. intros o Hco Hne.
    destruct (mo_ind _ _ Hmap Hne) as [Hin Hni]. apply Hother; [done| |done].
    intros He. by apply (Hni q Hq). }
  assert (Hin : forall c, inuse st' c <-> inuse st c) by (intros c; apply (disk_upd_inuse _ _ _ _ Hu)).
  destruct (disk_upd_frame _ _ _ Hu) as ((F1 & F2 & F3 & F4 & F5 & F6 & F7) & _).
  split; rewrite ?Hd; try done.
  - by apply (disk_upd_wf _ _ _ Hu).
  - apply (map_ok_ext st); [done|done| |done]. intros c. by apply Hin.
  - by rewrite F2.
  - by rewrite F2.
  - intros i Hi. apply Hfm. lia.
  - lia.
  - by left.
  - intros c. by apply Hin.
  - intros _. lia.
  - intros p Hp. destruct (block_of p ltac:(lia)) as (? & ? & Hpe). pose proof (block_lt _ _ Hp).
    rewrite (decide_True (P := p < iblocks (dino st n) * 4096)) by lia.
    unfold fbyte. rewrite Hfm, Hby by lia.
    destruct (decide (p / 4096 = q)) as [Hpq|Hpq].
    + rewrite Hpq. fold b. destruct (decide (off <= p mod 4096 < off + len)).
      * rewrite !decide_True by lia. rewrite Hf by lia. f_equal. lia.
      * rewrite !decide_False by lia. done.
    + rewrite !decide_False; [done|lia|]. intros [He _].
      apply Hpq. apply (mo_inj _ _ Hmap); [lia|done|done].
  - intros c o Hc Hni _ Hco. apply Hother; [done| |done]. intros ->. by apply (Hni q Hq).
Qed.

Ltac same_done :=
  match goal with
  | |- Done ((?r, ?x, ?b), ?s) = Done ((?r, ?y, ?b), ?s) => replace y with x by lia; reflexivity
  end.

(** The number of blocks of [z] bytes. *)
Definition ceil_blocks (z : Z) : Z := (z + 4095) / 4096.

Lemma ceil_blocks_spec z q : q * 4096 < z <= (q + 1) * 4096 -> ceil_blocks z = q + 1.
Proof. intros. symmetry. apply Z.div_unique with (z + 4095 - (q + 1) * 4096); lia. Qed.

Lemma ceil_blocks_mul q : ceil_blocks (q * 4096) = q.
Proof. symmetry. apply Z.div_unique with 4095; lia. Qed.

Lemma ceil_mono y z : y <= z -> ceil_blocks y <= ceil_blocks z.
Proof. intros. apply Z.div_le_mono; lia. Qed.

Lemma ceil_blocks_le z q : z <= q * 4096 -> ceil_blocks z <= q.
Proof. intros. apply Z.lt_succ_r, Z.div_lt_upper_bound; lia. Qed.

(** The result of a phase of a write that covers [lo .. hi): all of it, or a
    prefix when the disk is full.  The file has the blocks the bytes need. *)
Definition write_result st n (lo hi : Z) (f : Z -> Z) (ret done_ : Z) st' : Prop :=
  lo <= done_ <= hi /\ advanced st n lo done_ f st' /\
  iblocks (dino st' n) = Z.max (iblocks (dino st n)) (ceil_blocks done_) /\
  ((ret = 0 /\ done_ = hi) \/ (ret = - E_NO_MEM /\ done_ < hi)).

Lemma io_part_write st n buf base q off len alen f :
  fs_wf st -> map_ok st n -> 0 <= q -> q * 4096 + off <= iblocks (dino st n) * 4096 ->
  q < max_blocks -> 0 <= off -> 0 < len -> off + len <= 4096 ->
  (forall p, q * 4096 + off <= p < q * 4096 + off + len -> f p = buf (base + (p - (q * 4096 + off)))) ->
  exists ret d st', io_part n true buf base len q off alen st
                    = Done ((ret, alen + (d - (q * 4096 + off)), buf), st') /\
    write_result st n (q * 4096 + off) (q * 4096 + off + len) f ret d st'.
Proof.
  intros Hwf Hmap Hq Hqo Hlt Ho Hl Hle Hf.
  destruct (load_advances st n q (q * 4096 + off) f Hwf Hmap ltac:(lia) Hlt) as (ret & ino & s1 & Hrun & Ha & Hr).
  pose proof (ad_wf _ _ _ _ _ _ Ha) as Hw1. pose proof (ad_map _ _ _ _ _ _ Ha) as Hm1.
  unfold io_part. mstep Hrun. destruct Hr as [[-> Hsame]|(-> & Hq1 & ->)].
  - exists (- E_NO_MEM), (q * 4096 + off), s1. split.
    + change (Done ((- E_NO_MEM, alen, buf), s1)
              = Done ((- E_NO_MEM, alen + (q * 4096 + off - (q * 4096 + off)), buf), s1)).
      same_done.
    + split; [lia|]. split; [done|]. split; [|right; split; [done|lia]].
      rewrite Hsame. pose proof (ceil_blocks_le (q * 4096 + off) (iblocks (dino st n)) Hqo). lia.
  - cbn [Z.eqb negb].
    destruct (sfs_wbuf_spec s1 buf base len (fmap s1 n q) off (wf_ready _ Hw1)) as (s2 & Hwr & Hu);
      [apply inuse_range, (mo_used _ _ Hm1); lia|lia|lia|lia|].
    pose proof (write_advances s1 n q off len f buf base s2 Hw1 Hm1 ltac:(lia) Ho ltac:(lia) Hle Hf Hu) as Hb.
    exists 0, (q * 4096 + off + len), s2. split.
    + unfold sfs_buf_op.
      assert (Hop : (ret ← sfs_wbuf buf base len (fmap s1 n q) off; mret (ret, buf)) s1
                    = Done ((0, buf), s2)) by by mstep Hwr.
      mstep Hop. cbn [Z.eqb negb].
      change (Done ((0, alen + len, buf), s2)
              = Done ((0, alen + (q * 4096 + off + len - (q * 4096 + off)), buf), s2)).
      same_done.
    + split; [lia|]. split; [eapply advanced_trans; [exact Hmap| |exact Ha|exact Hb]; lia|].
      split; [|by left]. rewrite (disk_upd_dino _ _ _ n Hu), Hq1.
      by rewrite (ceil_blocks_spec _ q) by lia.
Qed.

Lemma io_blocks_write n buf f k : forall st base q alen,
  fs_wf st -> map_ok st n -> 0 <= q <= iblocks (dino st n) -> q + Z.of_nat k <= max_blocks ->
  (forall p, q * 4096 <= p < (q + Z.of_nat k) * 4096 -> f p = buf (base + (p - q * 4096))) ->
  exists ret d st', io_blocks k n true buf base q alen st
                    = Done ((ret, alen + (d - q * 4096), buf), st') /\
    write_result st n (q * 4096) ((q + Z.of_nat k) * 4096) f ret d st'.
Proof.
  induction k as [|k IH]; intros st base q alen Hwf Hmap Hq Hle Hf.
  { exists 0, (q * 4096), st. split.
    - cbn [io_blocks]. change (Done ((0, alen, buf), st) = Done ((0, alen + (q * 4096 - q * 4096), buf), st)).
      same_done.
    - split; [lia|]. split; [by apply advanced_refl|]. split; [|left; lia].
      rewrite ceil_blocks_mul. lia. }
  destruct (load_advances st n q (q * 4096) f Hwf Hmap Hq ltac:(lia)) as (ret & ino & s1 & Hrun & Ha & Hr).
  pose proof (ad_wf _ _ _ _ _ _ Ha) as Hw1. pose proof (ad_map _ _ _ _ _ _ Ha) as Hm1.
  cbn [io_blocks]. mstep Hrun. destruct Hr as [[-> Hsame]|(-> & Hq1 & ->)].
  - exists (- E_NO_MEM), (q * 4096), s1. split.
    + change (Done ((- E_NO_MEM, alen, buf), s1)
              = Done ((- E_NO_MEM, alen + (q * 4096 - q * 4096), buf), s1)).
      same_done.
    + split; [lia|]. split; [done|]. split; [|right; split; [done|lia]].
      rewrite Hsame, ceil_blocks_mul. lia.
  - cbn [Z.eqb negb].
    destruct (sfs_rwblock_one_spec s1 buf base (fmap s1 n q) true (wf_ready _ Hw1)) as (s2 & m & Hwr & Hu & ->);
      [apply inuse_range, (mo_used _ _ Hm1); lia|].
    pose proof (write_advances s1 n q 0 4096 f buf base s2 Hw1 Hm1 ltac:(lia) ltac:(lia) ltac:(lia) ltac:(lia)) as Hb.
    rewrite !Z.add_0_r in Hb. specialize (Hb ltac:(intros p Hp; apply Hf; lia) Hu).
    pose proof (ad_wf _ _ _ _ _ _ Hb) as Hw2. pose proof (ad_map _ _ _ _ _ _ Hb) as Hm2.
    pose proof (ad_blocks _ _ _ _ _ _ Hb).
    destruct (IH s2 (base + 4096) (q + 1) (alen + 4096)) as (ret & d & st' & Hrest & Hd & Hc & Hcl & Hres);
      [done|done|lia|lia| |].
    { intros p Hp. rewrite Hf by lia. f_equal. lia. }
    exists ret, d, st'. split.
    + unfold sfs_block_op, sfs_wblock. mstep Hwr. cbn [Z.eqb negb]. change SFS_BLKSIZE with 4096.
      rewrite u32_small by (unfold max_blocks in *; lia).
      rewrite Hrest. same_done.
    + split; [lia|]. split; [|split; [|destruct Hres; [left|right]; lia]].
      2:{ rewrite Hcl, (disk_upd_dino _ _ _ n Hu), Hq1.
          pose proof (ceil_mono ((q + 1) * 4096) d ltac:(lia)) as Hm0. rewrite ceil_blocks_mul in Hm0. lia. }
      eapply advanced_trans; [exact Hmap| |exact Ha|]; [lia|].
      eapply advanced_trans; [exact Hm1| |exact Hb|]; [lia|].
      by replace (q * 4096 + 4096) with ((q + 1) * 4096) by lia.
Qed.

Lemma finish_write st n buf base q k endpos alen f :
  fs_wf st -> map_ok st n -> 0 <= q <= iblocks (dino st n) -> 0 <= k ->
  endpos / 4096 = q + k -> 0 <= endpos <= max_blocks * 4096 ->
  (forall p, q * 4096 <= p < endpos -> f p = buf (base + (p - q * 4096))) ->
  exists ret d st', io_finish n true endpos base q k alen buf st
                    = Done ((ret, alen + (d - q * 4096), buf), st') /\
    write_result st n (q * 4096) endpos f ret d st'.
Proof.
  intros Hwf Hmap Hq Hk He Hend Hf.
  destruct (block_of endpos ltac:(lia)) as (_ & Hmod & Hsplit). rewrite He in Hsplit.
  destruct (io_blocks_write n buf f (Z.to_nat k) st base q alen Hwf Hmap Hq) as
    (ret & d & s1 & Hrun & Hd & Ha & Hcl & Hr); rewrite ?Z2Nat.id in * by lia; [lia| |].
  { intros p Hp. apply Hf. lia. }
  unfold io_finish. mstep Hrun. destruct Hr as [[-> ->]|[-> Hlt]].
  2:{ exists (- E_NO_MEM), d, s1. split; [done|]. split; [lia|]. split; [done|]. split; [done|right; split; [done|lia]]. }
  cbn [Z.eqb negb]. change SFS_BLKSIZE with 4096. destruct (Z.eqb_spec (endpos mod 4096) 0) as [Hz|Hz].
  { exists 0, ((q + k) * 4096), s1. split; [done|].
    replace endpos with ((q + k) * 4096) by lia. split; [lia|]. split; [done|]. by split; [|left]. }
  cbn [negb]. rewrite ceil_blocks_mul in Hcl. rewrite u32_small by (unfold max_blocks in *; lia).
  destruct (io_part_write s1 n buf (base + 4096 * k) (q + k) 0 (endpos mod 4096)
              (alen + ((q + k) * 4096 - q * 4096)) f) as (ret & d & s2 & Hrun2 & Hd2 & Ha2 & Hcl2 & Hr2);
    [apply Ha|apply Ha|lia|lia|unfold max_blocks in *; lia|lia|lia|lia| |].
  { intros p Hp. rewrite Hf by lia. f_equal. lia. }
  rewrite !Z.add_0_r, <- Hsplit in *.
  exists ret, d, s2. split; [rewrite Hrun2; same_done|]. split; [lia|].
  split; [eapply advanced_trans; [exact Hmap| |exact Ha|exact Ha2]; lia|]. split; [|done].
  rewrite Hcl2, Hcl. pose proof (ceil_mono ((q + k) * 4096) d ltac:(lia)) as Hm0.
  rewrite ceil_blocks_mul in Hm0. lia.
Qed.

Lemma io_body_write st n buf base offset endpos f :
  fs_wf st -> map_ok st n -> 0 <= offset <= iblocks (dino st n) * 4096 ->
  offset < endpos <= max_blocks * 4096 ->
  (forall p, offset <= p < endpos -> f p = buf (base + (p - offset))) ->
  exists ret d st', io_body n true buf base offset endpos st = Done ((ret, d - offset, buf), st') /\
    write_result st n offset endpos f ret d st'.
Proof.
  intros Hwf Hmap Ho Hend Hf. pose proof (mo_blocks _ _ Hmap) as Hnb.
  assert (Hqn : offset / 4096 <= iblocks (dino st n)) by (apply Z.div_le_upper_bound; lia).
  destruct (block_of offset ltac:(lia)) as (Hq0 & Hmod & Hsplit).
  destruct (block_of endpos ltac:(lia)) as (He0 & Hmode & Hsplite).
  assert (Hle : offset / 4096 <= endpos / 4096) by (apply Z.div_le_mono; lia).
  unfold max_blocks in *.
  unfold io_body. change SFS_BLKSIZE with 4096.
  set (q := offset / 4096) in *. set (o := offset mod 4096) in *. set (E := endpos / 4096) in *.
  rewrite (u32_small q) by lia. rewrite (u32_small (E - q)) by lia.
  destruct (Z.eqb_spec o 0) as [Hz|Hz]; cbn [negb].
  { destruct (finish_write st n buf base q (E - q) endpos 0 f) as (ret & d & s1 & Hrun & Hres);
      try done; try (unfold max_blocks; lia).
    { intros p Hp. rewrite Hf by lia. f_equal. lia. }
    replace (q * 4096) with offset in * by lia. exists ret, d, s1. split; [|done].
    rewrite Hrun. same_done. }
  set (size := if negb (E - q =? 0) then 4096 - o else endpos - offset).
  assert (Hsize : 0 < size /\ o + size <= 4096 /\
    (E = q -> q * 4096 + o + size = endpos) /\ (E <> q -> q * 4096 + o + size = (q + 1) * 4096)).
  { unfold size. destruct (Z.eqb_spec (E - q) 0); cbn [negb]; lia. }
  destruct Hsize as (Hs1 & Hs2 & Hs3 & Hs4).
  destruct (io_part_write st n buf base q o size 0 f) as (ret & d & s1 & Hrun & Hd & Ha & Hcl & Hr);
    try done; try (unfold max_blocks; lia).
  { intros p Hp. assert (p < endpos) by (destruct (decide (E = q)); lia).
    rewrite Hf by lia. f_equal. lia. }
  mstep Hrun. replace (q * 4096 + o) with offset in * by lia.
  destruct Hr as [[-> ->]|[-> Hlt]].
  2:{ exists (- E_NO_MEM), d, s1. split.
      - change (Done ((- E_NO_MEM, 0 + (d - offset), buf), s1) = Done ((- E_NO_MEM, d - offset, buf), s1)).
        same_done.
      - destruct (decide (E = q)); (split; [lia|]; split; [done|]; split; [done|right; lia]). }
  cbn [Z.eqb negb orb]. destruct (Z.eqb_spec (E - q) 0).
  { exists 0, (offset + size), s1. split; [|split; [lia|]; split; [done|]; split; [done|left; lia]].
    change (Done ((0, 0 + (offset + size - offset), buf), s1) = Done ((0, offset + size - offset, buf), s1)).
    same_done. }
  rewrite !u32_small by lia.
  replace (offset + size) with ((q + 1) * 4096) in Hcl by lia. rewrite ceil_blocks_mul in Hcl.
  destruct (finish_write s1 n buf (base + size) (q + 1) (E - q - 1) endpos (0 + (offset + size - offset)) f)
    as (ret & d & s2 & Hrun2 & Hd2 & Ha2 & Hcl2 & Hr2);
    [apply Ha|apply Ha|lia|lia|lia|unfold max_blocks; lia| |].
  { intros p Hp. rewrite Hf by lia. f_equal. lia. }
  exists ret, d, s2. split; [rewrite Hrun2; same_done|]. split; [lia|]. split; [|split; [|done]].
  2:{ rewrite Hcl2, Hcl. pose proof (ceil_mono ((q + 1) * 4096) d ltac:(lia)) as Hm0.
      rewrite ceil_blocks_mul in Hm0. lia. }
  eapply advanced_trans; [exact Hmap| |exact Ha|]; [lia|].
  by replace (offset + size) with ((q + 1) * 4096) by lia.
Qed.

(** ** Reading *)
Lemma upd_fbyte st st' n p :
  map_ok st n -> disk_upd st st' (img st) -> 0 <= p < iblocks (dino st n) * 4096 ->
  fbyte st' n p = fbyte st n p.
Proof.
  intros Hmap Hu Hp. pose proof (mo_blocks _ _ Hmap).
  destruct (block_of p ltac:(lia)) as (? & ? & ?). pose proof (block_lt _ _ Hp).
  unfold fbyte. rewrite (disk_upd_byte _ _ _ _ Hu). f_equal.
  apply fmap_ext; [by apply (disk_upd_dino _ _ _ n Hu)| |lia].
  intros o _ _. by apply disk_upd_byte.
Qed.

Lemma upd_map_ok st st' n : map_ok st n -> disk_upd st st' (img st) -> map_ok st' n.
Proof.
  intros Hmap Hu. apply (map_ok_ext st); [done|by apply (disk_upd_dino _ _ _ n Hu)| |].
  - intros c. by apply (disk_upd_inuse _ _ _ _ Hu).
  - intros i Hi. apply fmap_ext; [by apply (disk_upd_dino _ _ _ n Hu)| |done].
    intros o _ _. by apply disk_upd_byte.
Qed.

Lemma upd_img_trans st st1 st2 :
  disk_upd st st1 (img st) -> disk_upd st1 st2 (img st1) -> disk_upd st st2 (img st).
Proof.
  intros H1 H2. eapply disk_upd_trans; [exact H1|]. eapply disk_upd_ext; [|exact H2].
  apply (disk_upd_img _ _ _ H1).
Qed.

(** A phase of a read fills [base .. base + len) with the bytes from [lo]. *)
Definition read_result st n (buf : mem) (base lo len : Z) (m : mem) st' : Prop :=
  disk_upd st st' (img st) /\ forall a, m a = copy buf base (fbyte st n) lo len a.

Lemma read_result_append st n buf base lo k len m1 s1 m2 s2 :
  map_ok st n -> 0 <= lo -> 0 <= k -> 0 <= len -> lo + k + len <= iblocks (dino st n) * 4096 ->
  read_result st n buf base lo k m1 s1 ->
  read_result s1 n m1 (base + k) (lo + k) len m2 s2 ->
  read_result st n buf base lo (k + len) m2 s2.
Proof.
  intros Hmap Hlo Hk Hl Hle [U1 M1] [U2 M2]. split; [by eapply upd_img_trans|]. intros a. rewrite M2.
  rewrite <- (copy_append buf base (fbyte st n) lo k len a Hk Hl).
  destruct (decide (base + k <= a < base + k + len)); [|by rewrite !copy_out by lia; apply M1].
  rewrite !copy_in by lia. apply (upd_fbyte st s1); [done|done|lia].
Qed.

Lemma copy_block st n q off len buf base a :
  0 <= off -> off + len <= 4096 ->
  copy buf base (img st) (fmap st n q * 4096 + off) len a
  = copy buf base (fbyte st n) (q * 4096 + off) len a.
Proof.
  intros Ho Hle. destruct (decide (base <= a < base + len)); [|by rewrite !copy_out by lia].
  rewrite !copy_in by lia. unfold fbyte, byte.
  assert (Hd : (q * 4096 + off + (a - base)) / 4096 = q).
  { symmetry. apply Z.div_unique with (off + (a - base)); lia. }
  assert (Hm : (q * 4096 + off + (a - base)) mod 4096 = off + (a - base)).
  { symmetry. apply Z.mod_unique with q; lia. }
  rewrite Hd, Hm. f_equal. lia.
Qed.

Lemma io_part_read st n buf base q off len alen :
  fs_wf st -> map_ok st n -> 0 <= q < iblocks (dino st n) -> 0 <= off -> 0 < len -> off + len <= 4096 ->
  exists m st', io_part n false buf base len q off alen st = Done ((0, alen + len, m), st') /\
    read_result st n buf base (q * 4096 + off) len m st'.
Proof.
  intros Hwf Hmap Hq Ho Hl Hle.
  destruct (sfs_bmap_load_found st n q Hwf Hmap Hq) as (s1 & Hrun & Hu).
  pose proof (disk_upd_wf _ _ _ Hu Hwf) as Hw1.
  destruct (sfs_rbuf_spec s1 buf base len (fmap st n q) off (wf_ready _ Hw1)) as (s2 & m & Hrd & Hu2 & Hm);
    [apply inuse_range, (disk_upd_inuse _ _ _ _ Hu), (mo_used _ _ Hmap); lia|lia|lia|lia|].
  exists m, s2. split.
  - unfold io_part. mstep Hrun. cbn [Z.eqb negb]. unfold sfs_buf_op. by mstep Hrd.
  - split; [by eapply upd_img_trans|]. intros a. rewrite Hm, <- copy_block by done.
    apply copy_ext; [done|apply (disk_upd_img _ _ _ Hu)].
Qed.

Lemma io_blocks_read n k : forall st buf base q alen,
  fs_wf st -> map_ok st n -> 0 <= q -> q + Z.of_nat k <= iblocks (dino st n) ->
  exists m st', io_blocks k n false buf base q alen st = Done ((0, alen + Z.of_nat k * 4096, m), st') /\
    read_result st n buf base (q * 4096) (Z.of_nat k * 4096) m st'.
Proof.
  induction k as [|k IH]; intros st buf base q alen Hwf Hmap Hq Hle.
  { exists buf, st. split.
    - cbn [io_blocks]. change (Done ((0, alen, buf), st) = Done ((0, alen + Z.of_nat 0 * 4096, buf), st)).
      same_done.
    - split; [apply disk_upd_refl; by destruct (ready_dev _ (wf_ready _ Hwf))|].
      intros a. by rewrite copy_out by lia. }
  pose proof (mo_blocks _ _ Hmap) as Hnb.
  destruct (sfs_bmap_load_found st n q Hwf Hmap ltac:(lia)) as (s1 & Hrun & Hu).
  pose proof (disk_upd_wf _ _ _ Hu Hwf) as Hw1.
  destruct (sfs_rwblock_one_spec s1 buf base (fmap st n q) false (wf_ready _ Hw1)) as (s2 & m & Hrd & Hu2 & Hm);
    [apply inuse_range, (disk_upd_inuse _ _ _ _ Hu), (mo_used _ _ Hmap); lia|].
  assert (Hu12 : disk_upd st s2 (img st)) by by eapply upd_img_trans.
  assert (Hres : read_result st n buf base (q * 4096) 4096 m s2).
  { split; [done|]. intros a. rewrite Hm.
    pose proof (copy_block st n q 0 4096 buf base a ltac:(lia) ltac:(lia)) as Hc.
    rewrite !Z.add_0_r in Hc. rewrite <- Hc.
    apply copy_ext; [done|apply (disk_upd_img _ _ _ Hu)]. }
  destruct (IH s2 m (base + 4096) (q + 1) (alen + 4096)) as (m' & s3 & Hrest & Hres2).
  { by apply (disk_upd_wf _ _ _ Hu12). } { by apply (upd_map_ok st). } { lia. }
  { rewrite (disk_upd_dino _ _ _ n Hu12). lia. }
  exists m', s3. split.
  - cbn [io_blocks]. mstep Hrun. cbn [Z.eqb negb]. unfold sfs_block_op, sfs_rblock. mstep Hrd.
    cbn [Z.eqb negb]. change SFS_BLKSIZE with 4096.
    rewrite u32_small, Hrest by (unfold max_blocks in *; lia). same_done.
  - replace (Z.of_nat (S k) * 4096) with (4096 + Z.of_nat k * 4096) by lia.
    eapply read_result_append; try exact Hres; try done; try lia.
    by replace (q * 4096 + 4096) with ((q + 1) * 4096) by lia.
Qed.

Lemma finish_read st n buf base q k endpos alen :
  fs_wf st -> map_ok st n -> 0 <= q -> 0 <= k -> endpos / 4096 = q + k ->
  0 <= endpos <= iblocks (dino st n) * 4096 ->
  exists m st', io_finish n false endpos base q k alen buf st
                = Done ((0, alen + (endpos - q * 4096), m), st') /\
    read_result st n buf base (q * 4096) (endpos - q * 4096) m st'.
Proof.
  intros Hwf Hmap Hq Hk He Hend. pose proof (mo_blocks _ _ Hmap) as Hnb.
  destruct (block_of endpos ltac:(lia)) as (_ & Hmod & Hsplit). rewrite He in Hsplit.
  destruct (io_blocks_read n (Z.to_nat k) st buf base q alen Hwf Hmap Hq) as (m & s1 & Hrun & Hres);
    rewrite ?Z2Nat.id in * by lia; [lia|].
  unfold io_finish. mstep Hrun. cbn [Z.eqb negb]. change SFS_BLKSIZE with 4096.
  destruct (Z.eqb_spec (endpos mod 4096) 0) as [Hz|Hz]; cbn [negb].
  { exists m, s1. replace (endpos - q * 4096) with (k * 4096) by lia. done. }
  rewrite u32_small by (unfold max_blocks in *; lia).
  pose proof (proj1 Hres) as Hu.
  destruct (io_part_read s1 n m (base + 4096 * k) (q + k) 0 (endpos mod 4096) (alen + k * 4096))
    as (m' & s2 & Hrun2 & Hres2); [by apply (disk_upd_wf _ _ _ Hu)|by apply (upd_map_ok st)| |lia|lia|lia|].
  { rewrite (disk_upd_dino _ _ _ n Hu). lia. }
  exists m', s2. split; [rewrite Hrun2; same_done|].
  replace (endpos - q * 4096) with (k * 4096 + endpos mod 4096) by lia.
  eapply read_result_append; try exact Hres; try done; try lia.
  replace (base + k * 4096) with (base + 4096 * k) by lia.
  by replace (q * 4096 + k * 4096) with ((q + k) * 4096 + 0) by lia.
Qed.

Lemma io_body_read st n buf base offset endpos :
  fs_wf st -> map_ok st n -> 0 <= offset -> offset < endpos <= iblocks (dino st n) * 4096 ->
  exists m st', io_body n false buf base offset endpos st = Done ((0, endpos - offset, m), st') /\
    read_result st n buf base offset (endpos - offset) m st'.
Proof.
  intros Hwf Hmap Ho Hend. pose proof (mo_blocks _ _ Hmap) as Hnb. unfold max_blocks in *.
  destruct (block_of offset Ho) as (Hq0 & Hmod & Hsplit).
  destruct (block_of endpos ltac:(lia)) as (He0 & Hmode & Hsplite).
  assert (Hle : offset / 4096 <= endpos / 4096) by (apply Z.div_le_mono; lia).
  unfold io_body. change SFS_BLKSIZE with 4096.
  set (q := offset / 4096) in *. set (o := offset mod 4096) in *. set (E := endpos / 4096) in *.
  rewrite (u32_small q) by lia. rewrite (u32_small (E - q)) by lia.
  destruct (Z.eqb_spec o 0) as [Hz|Hz]; cbn [negb].
  { destruct (finish_read st n buf base q (E - q) endpos 0) as (m & s1 & Hrun & Hres);
      try done; try lia.
    replace (q * 4096) with offset in * by lia. exists m, s1. split; [|done].
    rewrite Hrun. same_done. }
  set (size := if negb (E - q =? 0) then 4096 - o else endpos - offset).
  assert (Hsize : 0 < size /\ o + size <= 4096 /\
    (E = q -> q * 4096 + o + size = endpos) /\ (E <> q -> q * 4096 + o + size = (q + 1) * 4096)).
  { unfold size. destruct (Z.eqb_spec (E - q) 0); cbn [negb]; lia. }
  destruct Hsize as (Hs1 & Hs2 & Hs3 & Hs4).
  destruct (io_part_read st n buf base q o size 0) as (m & s1 & Hrun & Hres); try done; try lia.
  mstep Hrun. replace (q * 4096 + o) with offset in * by lia.
  cbn [Z.eqb negb orb]. destruct (Z.eqb_spec (E - q) 0).
  { exists m, s1. replace (endpos - offset) with size by lia. split; [|done].
    change (Done ((0, 0 + size, m), s1) = Done ((0, size, m), s1)). same_done. }
  rewrite !u32_small by lia. pose proof (proj1 Hres) as Hu.
  destruct (finish_read s1 n m (base + size) (q + 1) (E - q - 1) endpos (0 + size))
    as (m' & s2 & Hrun2 & Hres2);
    [by apply (disk_upd_wf _ _ _ Hu)|by apply (upd_map_ok st)|lia|lia|lia| |].
  { rewrite (disk_upd_dino _ _ _ n Hu). lia. }
  exists m', s2. split; [rewrite Hrun2; same_done|].
  replace (endpos - offset) with (size + (endpos - (q + 1) * 4096)) by lia.
  eapply read_result_append; try exact Hres; try done; try lia.
  by replace (offset + size) with ((q + 1) * 4096) by lia.
Qed.

(** ** [sfs_io_nolock] *)
Record file_ok st n : Prop := mkFileOk {
  fo_map : map_ok st n;
  fo_type : type (dino st n) = SFS_TYPE_FILE;
  fo_size : 0 <= size (dino st n);
  fo_blocks : iblocks (dino st n) = ceil_blocks (size (dino st n)) }.

Lemma size_le_blocks st n : file_ok st n -> size (dino st n) <= iblocks (dino st n) * 4096.
Proof.
  intros [_ _ Hs Hb]. rewrite Hb. unfold ceil_blocks.
  pose proof (Z.div_mod (size (dino st n) + 4095) 4096 ltac:(lia)).
  pose proof (Z.mod_pos_bound (size (dino st n) + 4095) 4096 ltac:(lia)). lia.
Qed.

Lemma file_not_dir st n : file_ok st n -> negb (type (dino st n) =? SFS_TYPE_DIR) = true.
Proof. intros Hf. by rewrite (fo_type _ _ Hf). Qed.

Lemma io_nolock_read_run st n buf base offset len :
  fs_wf st -> file_ok st n -> 0 <= offset < SFS_MAX_FILE_SIZE -> 0 <= len < 2 ^ 62 ->
  let k := Z.max 0 (Z.min len (size (dino st n) - offset)) in
  exists m st', sfs_io_nolock n buf base offset len false st = Done ((0, k, m), st') /\
    read_result st n buf base offset k m st'.
Proof.
  intros Hwf Hf Ho Hl k. pose proof (size_le_blocks _ _ Hf) as Hsz.
  pose proof (mo_blocks _ _ (fo_map _ _ Hf)) as Hnb. pose proof (fo_size _ _ Hf) as Hs0.
  assert (Hmax : SFS_MAX_FILE_SIZE = 134217728) by done. unfold max_blocks in *.
  assert (Hnone : forall m, m = buf -> k = 0 -> read_result st n buf base offset k m st).
  { intros m -> ->. split; [apply disk_upd_refl, (ready_dev _ (wf_ready _ Hwf))|].
    intros a. by rewrite copy_out by lia. }
  unfold sfs_io_nolock. mstep (get_dinode_run st n). rewrite (file_not_dir _ _ Hf).
  mstep (assert_true true st eq_refl). rewrite s64_small by lia.
  destruct (Z.ltb_spec offset 0); [lia|]. destruct (Z.leb_spec SFS_MAX_FILE_SIZE offset); [lia|].
  destruct (Z.ltb_spec (offset + len) offset); [lia|]. cbn [orb negb andb].
  destruct (Z.eqb_spec offset (offset + len)) as [He|He].
  { exists buf, st. assert (k = 0) as Hk by lia. rewrite Hk. split; [done|]. rewrite <- Hk. by apply Hnone. }
  destruct (Z.leb_spec (size (dino st n)) offset) as [Hge|Hlt].
  { exists buf, st. assert (k = 0) as Hk by lia. rewrite Hk. split; [done|]. rewrite <- Hk. by apply Hnone. }
  set (e1 := if SFS_MAX_FILE_SIZE <? offset + len then SFS_MAX_FILE_SIZE else offset + len).
  set (e := if size (dino st n) <? e1 then size (dino st n) else e1).
  assert (He' : e = offset + k).
  { unfold e, e1, k. destruct (Z.ltb_spec SFS_MAX_FILE_SIZE (offset + len));
      destruct (Z.ltb_spec (size (dino st n)) SFS_MAX_FILE_SIZE);
      destruct (Z.ltb_spec (size (dino st n)) (offset + len)); lia. }
  destruct (io_body_read st n buf base offset e Hwf (fo_map _ _ Hf)) as (m & st' & Hrun & Hres); [lia|lia|].
  replace (e - offset) with k in * by lia. exists m, st'. split; [|done].
  mstep Hrun. mstep (get_dinode_run st' n). rewrite (disk_upd_dino _ _ _ n (proj1 Hres)).
  destruct (Z.ltb_spec (size (dino st n)) (offset + k)); [lia|]. done.
Qed.

(** C8 Reading [len] bytes at [offset] of a file always succeeds, never
    touches the file, the disk contents or any other inode, and fills the
    buffer with exactly the bytes of the file from [offset] up to its end,
    returning their number (0 at or past the end), whatever the alignment of
    [offset] and [len] to blocks. *)
Theorem sfs_io_nolock_reads st n buf base offset len :
  fs_wf st -> file_ok st n -> 0 <= offset < SFS_MAX_FILE_SIZE -> 0 <= len < 2 ^ 62 ->
  let k := Z.max 0 (Z.min len (size (dino st n) - offset)) in
  exists m st', sfs_io_nolock n buf base offset len false st = Done ((0, k, m), st') /\
    read_result st n buf base offset k m st'.
Proof. apply io_nolock_read_run. Qed.

(** What a write of [k] bytes leaves behind. *)
Record written st n (offset k : Z) (buf : mem) (base : Z) st' : Prop := mkWritten {
  wr_wf : fs_wf st';
  wr_file : file_ok st' n;
  wr_size : size (dino st' n) = Z.max (size (dino st n)) (offset + k);
  wr_bytes p : 0 <= p < size (dino st' n) ->
    fbyte st' n p = if decide (offset <= p < offset + k) then buf (base + (p - offset))
                    else fbyte st n p;
  wr_others m : m <> n -> sins st' m = sins st m;
  wr_sems : fs_sem st' = fs_sem st /\ io_sem st' = io_sem st /\ mutex_sem st' = mutex_sem st /\
            sem (sins st' n) = sem (sins st n);
  wr_frame c o : inuse st c -> (forall i, 0 <= i < iblocks (dino st n) -> fmap st n i <> c) ->
    c <> indirect (dino st n) -> 0 <= o < 4096 -> inuse st' c /\ byte st' c o = byte st c o }.

(** The update of the size at the end. *)
Lemma finish_size st n offset k f buf base s1 :
  fs_wf st -> file_ok st n -> 0 <= offset <= size (dino st n) -> 0 <= k ->
  offset + k <= max_blocks * 4096 ->
  (forall p, offset <= p < offset + k -> f p = buf (base + (p - offset))) ->
  advanced st n offset (offset + k) f s1 ->
  iblocks (dino s1 n) = Z.max (iblocks (dino st n)) (ceil_blocks (offset + k)) ->
  written st n offset k buf base
    (if size (dino s1 n) <? offset + k then din_changed s1 n (set_size (offset + k)) else s1).
Proof.
  intros Hwf Hf Ho Hk Hmax Hbuf Ha Hcl.
  pose proof (ad_din _ _ _ _ _ _ Ha) as (Hsz & Hty & _). rewrite Hsz.
  pose proof (size_le_blocks _ _ Hf) as Hszb. pose proof (fo_size _ _ Hf). unfold max_blocks in *.
  assert (Hbytes : forall p, 0 <= p < Z.max (size (dino st n)) (offset + k) ->
    fbyte s1 n p = if decide (offset <= p < offset + k) then buf (base + (p - offset)) else fbyte st n p).
  { intros p Hp. rewrite (ad_content _ _ _ _ _ _ Ha).
    - case_decide as Hd; [by apply Hbuf|]. rewrite decide_True by lia. done.
    - pose proof (ad_hi _ _ _ _ _ _ Ha). pose proof (ad_blocks _ _ _ _ _ _ Ha). lia. }
  assert (Hframe : forall c o, inuse st c -> (forall i, 0 <= i < iblocks (dino st n) -> fmap st n i <> c) ->
    c <> indirect (dino st n) -> 0 <= o < 4096 -> inuse s1 c /\ byte s1 c o = byte st c o).
  { intros c o ????. split; [by apply (ad_mono _ _ _ _ _ _ Ha)|by apply (ad_frame _ _ _ _ _ _ Ha)]. }
  destruct (ad_sems _ _ _ _ _ _ Ha) as (? & ? & ?). destruct (ad_sin _ _ _ _ _ _ Ha) as (? & ? & ? & ?).
  destruct (Z.ltb_spec (size (dino st n)) (offset + k)) as [Hlt|Hge].
  - set (st' := din_changed s1 n (set_size (offset + k))).
    assert (Hd : dino st' n = set_size (offset + k) (dino s1 n)) by
      (unfold st'; by rewrite din_changed_dino, decide_True).
    assert (Hs' : size (dino st' n) = offset + k) by (rewrite Hd; cbn; apply u32_small; lia).
    assert (Hfm : forall i, fmap st' n i = fmap s1 n i) by (intros i; unfold fmap; by rewrite Hd).
    split; rewrite ?Hs'; try lia; try done.
    + by apply din_changed_wf, Ha.
    + destruct (ad_map _ _ _ _ _ _ Ha) as [M1 M2 M3 M4 M5].
      split; [split|..]; rewrite ?Hd; cbn [iblocks indirect set_size size type]; try done.
      * intros i Hi. rewrite Hfm. by apply M2.
      * intros i Hi. rewrite Hfm. by apply M3.
      * intros i j Hi Hj. rewrite !Hfm. by apply M4.
      * intros Hne. destruct (M5 Hne) as [M5' M6]. split; [done|]. intros i Hi. rewrite Hfm. by apply M6.
      * by rewrite Hty, (fo_type _ _ Hf).
      * rewrite u32_small by lia. lia.
      * rewrite u32_small, Hcl, (fo_blocks _ _ Hf) by lia.
        pose proof (ceil_mono (size (dino st n)) (offset + k) ltac:(lia)). lia.
    + intros p Hp. change (fbyte st' n p) with (byte s1 (fmap st' n (p / 4096)) (p mod 4096)).
      rewrite Hfm. change (byte s1 (fmap s1 n (p / 4096)) (p mod 4096)) with (fbyte s1 n p).
      apply Hbytes. lia.
    + intros m Hm. unfold st'. rewrite din_changed_sin, decide_False by done.
      by apply (ad_others _ _ _ _ _ _ Ha).
    + split_and!; try done. unfold st'. by rewrite din_changed_sin, decide_True.
  - split; rewrite ?Hsz; try lia; try done.
    + apply Ha.
    + split; rewrite ?Hsz; [apply Ha|by rewrite Hty, (fo_type _ _ Hf)|done|].
      rewrite Hcl, (fo_blocks _ _ Hf).
      pose proof (ceil_mono (offset + k) (size (dino st n)) ltac:(lia)). lia.
    + intros p Hp. apply Hbytes. lia.
    + apply Ha.
Qed.

(** C1 Writing [len] bytes at an [offset] within a file, up to the largest
    file the block map can hold, either writes them all or, when the disk
    fills up, a prefix, returning the number written.  The file then holds the
    written bytes there and its old bytes elsewhere, its size and block count
    grow to match, new blocks come from the free ones, and no other inode and
    no block in use outside this file changes. *)
Theorem sfs_io_nolock_writes st n buf base offset len :
  fs_wf st -> file_ok st n -> 0 <= offset <= size (dino st n) -> 0 <= len ->
  offset + len <= max_blocks * 4096 ->
  exists ret k st', sfs_io_nolock n buf base offset len true st = Done ((ret, k, buf), st') /\
    0 <= k <= len /\ ((ret = 0 /\ k = len) \/ (ret = - E_NO_MEM /\ k < len)) /\
    written st n offset k buf base st'.
Proof.
  intros Hwf Hf Ho Hl Hle. pose proof (size_le_blocks _ _ Hf) as Hsz.
  assert (Hmax : SFS_MAX_FILE_SIZE = 134217728) by done. unfold max_blocks in *.
  pose proof (mo_blocks _ _ (fo_map _ _ Hf)) as Hnb. unfold max_blocks in Hnb.
  unfold sfs_io_nolock. mstep (get_dinode_run st n). rewrite (file_not_dir _ _ Hf).
  mstep (assert_true true st eq_refl). rewrite s64_small by lia.
  destruct (Z.ltb_spec offset 0); [lia|]. destruct (Z.leb_spec SFS_MAX_FILE_SIZE offset); [lia|].
  destruct (Z.ltb_spec (offset + len) offset); [lia|]. cbn [orb negb andb].
  destruct (Z.ltb_spec SFS_MAX_FILE_SIZE (offset + len)); [lia|].
  destruct (Z.eqb_spec offset (offset + len)) as [He|He].
  { exists 0, 0, st. split; [done|]. split; [lia|]. split; [left; lia|].
    pose proof (finish_size st n offset 0 (fun _ => 0) buf base st Hwf Hf Ho ltac:(lia)) as Hw.
    rewrite Z.add_0_r in Hw. destruct (Z.ltb_spec (size (dino st n)) offset); [lia|].
    apply Hw; [unfold max_blocks; lia|lia|by apply advanced_refl; [|apply Hf]|].
    rewrite (fo_blocks _ _ Hf). pose proof (ceil_mono offset (size (dino st n)) ltac:(lia)). lia. }
  set (f := fun p => buf (base + (p - offset))).
  destruct (io_body_write st n buf base offset (offset + len) f Hwf (fo_map _ _ Hf))
    as (ret & d & s1 & Hrun & Hd & Ha & Hcl & Hr); [lia|unfold max_blocks; lia|done|].
  exists ret, (d - offset). eexists. split.
  - mstep Hrun. mstep (get_dinode_run s1 n).
    replace (offset + (d - offset)) with d by lia.
    assert (Hfin : ((if size (dino s1 n) <? d then
         mod_sin n (on_din (set_size d)) ;; mod_sin n (set_dirty true)
       else mret tt) : ST (sfs_fs D) unit) s1
       = Done (tt, if size (dino s1 n) <? d then din_changed s1 n (set_size d) else s1)).
    { by destruct (size (dino s1 n) <? d). }
    mstep Hfin. reflexivity.
  - split; [lia|]. split; [destruct Hr; [left|right]; lia|].
    pose proof (finish_size st n offset (d - offset) f buf base s1 Hwf Hf Ho ltac:(lia)) as Hw.
    replace (offset + (d - offset)) with d in Hw by lia.
    apply Hw; [unfold max_blocks; lia|done|done|done].
Qed.

(** The limit the code checks, [SFS_MAX_FILE_SIZE] (128 MB), is larger
    than what the block map can address (1036 blocks): looking up or allocating
    any later block of a file panics. *)
Theorem sfs_bmap_get_past_limit st n index create :
  max_blocks <= index < 2 ^ 32 -> sfs_bmap_get_nolock n index create st = Panicked.
Proof.
  unfold max_blocks. intros Hi. unfold sfs_bmap_get_nolock. mstep (get_dinode_run st n).
  unfold SFS_NDIRECT. change SFS_BLK_NENTRY with 1024.
  destruct (Z.ltb_spec index 12); [lia|]. rewrite u32_small by lia.
  destruct (Z.ltb_spec (index - 12) 1024); [lia|done].
Qed.
(** ** What a read owes the layer above *)

(** [c] reports at least [a] bytes done. *)
Definition reports (a : Z) {B} (c : ST (sfs_fs D) (Z * Z * B)) : Prop :=
  forall st r k b st', c st = Done ((r, k, b), st') -> a <= k.

Lemma io_part_reports n write buf base size blkno blkoff alen :
  0 <= size -> reports alen (io_part n write buf base size blkno blkoff alen).
Proof.
  intros Hs st r k b st' Hr. unfold io_part in Hr. apply bind_Done_inv in Hr as ([ret ino] & s1 & _ & Hr).
  destruct (negb _); [injection Hr as _ <- _ _; lia|]. apply bind_Done_inv in Hr as ([ret' buf'] & s2 & _ & Hr).
  destruct (negb _); injection Hr as _ <- _ _; lia.
Qed.

Lemma io_blocks_reports nblks n write : forall buf base blkno alen, reports alen (io_blocks nblks n write buf base blkno alen).
Proof.
  induction nblks as [|nblks IH]; intros buf base blkno alen st r k b st' Hr; cbn [io_blocks] in Hr.
  { injection Hr as _ <- _ _. lia. }
  apply bind_Done_inv in Hr as ([ret ino] & s1 & _ & Hr). destruct (negb _); [injection Hr as _ <- _ _; lia|].
  apply bind_Done_inv in Hr as ([ret' buf'] & s2 & _ & Hr). destruct (negb _); [injection Hr as _ <- _ _; lia|].
  apply IH in Hr. change SFS_BLKSIZE with 4096 in Hr. lia.
Qed.

Lemma io_finish_reports n write endpos base blkno nblks alen buf : reports alen (io_finish n write endpos base blkno nblks alen buf).
Proof.
  intros st r k b st' Hr. unfold io_finish in Hr. apply bind_Done_inv in Hr as ([[ret a] buf'] & s1 & H1 & Hr).
  apply io_blocks_reports in H1. destruct (negb _); [injection Hr as _ <- _ _; lia|]. cbv zeta in Hr.
  destruct (negb _); [|injection Hr as _ <- _ _; lia]. apply io_part_reports in Hr; [lia|].
  change SFS_BLKSIZE with 4096. pose proof (Z.mod_pos_bound endpos 4096 eq_refl). lia.
Qed.

Lemma io_body_reports n write buf base offset endpos : offset <= endpos -> reports 0 (io_body n write buf base offset endpos).
Proof.
  intros Ho st r k b st' Hr. unfold io_body in Hr. cbv zeta in Hr. destruct (negb _); [|by apply io_finish_reports in Hr].
  apply bind_Done_inv in Hr as ([[ret a] buf'] & s1 & H1 & Hr). apply io_part_reports in H1.
  - destruct (_ || _); [injection Hr as _ <- _ _; lia|]. apply io_finish_reports in Hr. lia.
  - change SFS_BLKSIZE with 4096. pose proof (Z.mod_pos_bound offset 4096 eq_refl). destruct (negb _); lia.
Qed.

Lemma sfs_io_nolock_reports n buf base offset alen write : reports 0 (sfs_io_nolock n buf base offset alen write).
Proof.
  intros st r k b st' Hr. unfold sfs_io_nolock in Hr. apply bind_Done_inv in Hr as (d & s1 & _ & Hr).
  apply bind_Done_inv in Hr as ([] & s2 & _ & Hr). cbv zeta in Hr.
  destruct ((offset <? 0) || (SFS_MAX_FILE_SIZE <=? offset) || (s64 (offset + alen) <? offset)) eqn:He; [injection Hr as _ <- _ _; lia|].
  destruct (offset =? _); [injection Hr as _ <- _ _; lia|].
  destruct (negb write && (size d <=? offset)) eqn:Hsz; [injection Hr as _ <- _ _; lia|].
  apply bind_Done_inv in Hr as ([[ret a] buf'] & s3 & H3 & Hr). apply io_body_reports in H3.
  - apply bind_Done_inv in Hr as (d' & s4 & _ & Hr). apply bind_Done_inv in Hr as ([] & s5 & _ & Hr). by injection Hr as _ <- _ _.
  - set (e := s64 (offset + alen)) in *. apply orb_false_iff in He as [He H2%Z.ltb_ge]. apply orb_false_iff in He as [_ H1%Z.leb_gt].
    destruct (negb write); cbn [andb] in *; [apply Z.leb_gt in Hsz|]; repeat case_match; lia.
Qed.

(** [sfs_read] satisfies the law [vop_read_takes] of the interface [Inodes]. *)
Lemma sfs_read_takes n iob st r iob' st' :
  io_resid iob = io_len iob -> sfs_read n iob st = Done ((r, iob'), st') ->
  io_len iob' = io_len iob /\ (0 <= io_len iob -> 0 <= io_resid iob' <= io_len iob).
Proof.
  intros Hl Hr. unfold sfs_read, sfs_io in Hr. apply bind_Done_inv in Hr as ([] & s1 & _ & Hr).
  apply bind_Done_inv in Hr as ([[ret a] buf] & s2 & H2 & Hr). apply sfs_io_nolock_reports in H2. cbv zeta in Hr.
  apply bind_Done_inv in Hr as ([[] i] & s3 & H3 & Hr). apply bind_Done_inv in Hr as ([] & s4 & _ & Hr).
  injection Hr as _ <- _. destruct (negb (a =? 0)).
  - unfold on_local, iobuf_skip, mbind, ST_bind, get, id, assert in H3. cbn in H3.
    destruct (Z.leb_spec a (io_resid iob)); [|by unfold panic in H3]. cbn in H3.
    injection H3 as <- _. cbn. split; [done|lia].
  - injection H3 as <- _. cbn. split; [done|lia].
Qed.
End file.

(** ** Witnesses: a file of 100 bytes in block 4 of a disk of 16 blocks *)
Definition sample_din : sfs_disk_inode :=
  mkDin 100 SFS_TYPE_FILE 1 1 (fun i => if i =? 0 then 4 else 0) 0.
Definition sample_fs : sfs_fs disks :=
  mkSfs (mkSuper SFS_MAGIC 16 11 (fun _ => 0))
    (mkDisks (fun _ => mkIde 1 128 (fun a => a mod 256)) (fun _ => 0) 1 16 4096)
    (mkBitmap 32 1 (fun a => if a =? 0 then 0xE0 else if a =? 1 then 0xFF else 0))
    false (fun _ => 0) 1 1 1 (fun _ => mkSin sample_din 3 false 1 1 1 0) [7] (fun _ => []).

Lemma sample_fs_wf : fs_wf sample_fs.
Proof.
  split; try done.
  - split; try done; cbn; try lia. intros a. cbn. destruct (a =? 0); [lia|]. destruct (a =? 1); lia.
  - cbn. intros i Hi. apply negb_true_iff. apply (forall_range (fun i => negb (bit (freemap sample_fs) i)) 16 16);
      [done|lia].
Qed.

Lemma sample_inuse : inuse sample_fs 4.
Proof. split; [cbn; lia|done]. Qed.

Lemma sample_file_ok : file_ok sample_fs 7.
Proof.
  split; [|done|cbn; lia|done]. unfold fmap, max_blocks. split; cbn.
  - unfold max_blocks. lia.
  - intros i Hi. assert (i = 0) as -> by lia. exact sample_inuse.
  - unfold max_blocks, fmap. cbn. intros i Hi. destruct (Z.ltb_spec i 12); [|done].
    destruct (Z.eqb_spec i 0); [lia|done].
  - intros. lia.
  - done.
Qed.

Lemma sfs_block_alloc_witness :
  ((forall b, 0 < b < 16 -> inuse sample_fs b) /\
     sfs_block_alloc sample_fs = Done ((- E_NO_MEM, 0), sample_fs)) \/
  exists b st', 0 < b < 16 /\ ~ inuse sample_fs b /\
    sfs_block_alloc sample_fs = Done ((0, b), st') /\ fs_wf st' /\ fs_frame sample_fs st' /\
    (forall c, inuse st' c <-> c = b \/ inuse sample_fs c) /\
    (forall a, img st' a = fill (img sample_fs) (b * 4096) 4096 0 a).
Proof. exact (sfs_block_alloc_spec sample_fs sample_fs_wf). Defined.

Lemma sfs_block_free_witness :
  exists st', sfs_block_free 4 sample_fs = Done (tt, st') /\ fs_wf st' /\ fs_frame sample_fs st' /\
    dev st' = dev sample_fs /\ (forall c, inuse st' c <-> inuse sample_fs c /\ c <> 4).
Proof. exact (sfs_block_free_spec sample_fs 4 sample_fs_wf ltac:(cbn; lia)). Defined.

(** Thirty bytes at 90: only ten are in the file. *)
Lemma sfs_io_nolock_reads_witness :
  exists m st', sfs_io_nolock 7 (fun _ => 0) 0 90 30 false sample_fs = Done ((0, 10, m), st') /\
    read_result sample_fs 7 (fun _ => 0) 0 90 10 m st'.
Proof.
  apply (sfs_io_nolock_reads sample_fs 7 (fun _ => 0) 0 90 30 sample_fs_wf sample_file_ok);
    [unfold SFS_MAX_FILE_SIZE; lia|lia].
Defined.

(** Ten thousand bytes at 50: two more blocks. *)
Lemma sfs_io_nolock_writes_witness :
  exists ret k st', sfs_io_nolock 7 (fun a => a mod 7) 0 50 10000 true sample_fs
                    = Done ((ret, k, fun a => a mod 7), st') /\
    0 <= k <= 10000 /\ ((ret = 0 /\ k = 10000) \/ (ret = - E_NO_MEM /\ k < 10000)) /\
    written sample_fs 7 50 k (fun a => a mod 7) 0 st'.
Proof.
  apply (sfs_io_nolock_writes sample_fs 7 (fun a => a mod 7) 0 50 10000 sample_fs_wf sample_file_ok);
    [cbn; lia|lia|unfold max_blocks; lia].
Defined.

Lemma sfs_bmap_get_past_limit_witness :
  sfs_bmap_get_nolock 7 1036 true sample_fs = Panicked.
Proof. apply (sfs_bmap_get_past_limit sample_fs 7 1036 true). unfold max_blocks. lia. Defined.
