(* ===== verification/SfsDir.v ===== *)
(** * The simple file system: inode cache and directories

    The rest of kern/fs/sfs/sfs_inode.c: the cache of in-memory inodes (loading
    and reclaiming), directory entries, lookup, path names and metadata.  The
    results of [kmalloc] are arguments. *)
From S2P Require Import Prelude Libs Mem Disk Bitmap SfsIo SfsInode.

Definition S_IFREG : Z := 4096.     (* 010000 *)
Definition S_IFDIR : Z := 8192.     (* 020000 *)
Definition S_IFLNK : Z := 12288.    (* 030000 *)
Definition O_RDONLY : Z := 0.
Definition O_WRONLY : Z := 1.
Definition O_RDWR : Z := 2.
Definition O_CREAT : Z := 4.
Definition O_EXCL : Z := 8.
Definition O_TRUNC : Z := 0x10.
Definition O_APPEND : Z := 0x20.
Definition O_ACCMODE : Z := 3.
Definition FS_MAX_FPATH_LEN : Z := 4095.

Record stat := mkStat { st_mode : Z; st_nlinks : Z; st_blocks : Z; st_size : Z }.

(** What [kmalloc] returns to one loading of an inode: for the disk inode,
    and the address of the in-memory one. *)
Record kalloc := mkKalloc { al_din : bool; al_node : option Z }.

Inductive inode_ops := sfs_node_dirops | sfs_node_fileops.

Section sfs_dir_ops.
  Context {D : Type} `{BlockDevice D}.

(** ** The cache of inodes *)
Definition sfs_get_ops (type : Z) : ST (sfs_fs D) inode_ops :=
  if type =? SFS_TYPE_DIR then mret sfs_node_dirops
  else if type =? SFS_TYPE_FILE then mret sfs_node_fileops
  else panic.

Definition sfs_hash_list (ino : Z) : ST (sfs_fs D) (list Z) := get (fun s => hash_list s (sin_hashfn ino)).

Definition sfs_set_links (n : Z) : ST (sfs_fs D) unit :=
  modify (fun s => let h := sin_hashfn (ino (sins s n)) in
                   set_lists (n :: inode_list s) (upd (hash_list s) h (n :: hash_list s h)) s).

Definition unlinked (n : Z) (l : list Z) : list Z := filter (fun x => x <> n) l.
Definition sfs_remove_links (n : Z) : ST (sfs_fs D) unit :=
  modify (fun s => let h := sin_hashfn (ino (sins s n)) in
                   set_lists (unlinked n (inode_list s)) (upd (hash_list s) h (unlinked n (hash_list s h))) s).

(** [alloc_inode] returned [node]; [vop_init] leaves one reference. *)
Definition sfs_create_inode (node : option Z) (d : sfs_disk_inode) (ino : Z)
  : ST (sfs_fs D) (Z * option Z) :=
  match node with
  | Some n =>
      sfs_get_ops (type d) ;;
      mod_sin n (fun _ => mkSin d ino false 1 1 1 0) ;;
      mret (0, Some n)
  | None => mret (- E_NO_MEM, None)
  end.

Fixpoint find_sin (sins : Z -> sfs_inode) (l : list Z) (i : Z) : option Z :=
  match l with
  | [] => None
  | n :: l' => if ino (sins n) =? i then Some n else find_sin sins l' i
  end.

Definition inode_ref_inc (n : Z) : ST (sfs_fs D) Z :=
  mod_sin n (fun i => set_ref (s32 (ref_count i + 1)) i) ;;
  get (fun s => ref_count (sins s n)).

Definition lookup_sfs_nolock (i : Z) : ST (sfs_fs D) (option Z) :=
  l ← sfs_hash_list i;
  f ← get sins;
  match find_sin f l i with
  | Some n =>
      r ← inode_ref_inc n;
      (if r =? 1 then mod_sin n (fun i => set_reclaim (s32 (reclaim_count i + 1)) i) else mret tt) ;;
      mret (Some n)
  | None => mret None
  end.

(** The path of [sfs_load_inode] that misses the cache. *)
Definition load_miss (al : kalloc) (i : Z) : ST (sfs_fs D) (Z * option Z) :=
  if al_din al then
    b ← sfs_block_inuse i;
    assert b ;;
    '(ret, buf) ← sfs_rbuf (fun _ => 0) 0 sizeof_disk_inode i 0;
    if negb (ret =? 0) then mret (ret, None)
    else
      let d := get_din buf in
      assert (negb (nlinks d =? 0)) ;;
      '(ret, node) ← sfs_create_inode (al_node al) d i;
      match node with
      | Some n => sfs_set_links n ;; mret (0, Some n)
      | None => mret (ret, None)
      end
  else mret (- E_NO_MEM, None).

Definition sfs_load_inode (al : kalloc) (i : Z) : ST (sfs_fs D) (Z * option Z) :=
  lock_sfs_fs ;;
  node ← lookup_sfs_nolock i;
  r ← match node with
      | Some n => mret (0, Some n)
      | None => load_miss al i
      end;
  unlock_sfs_fs ;;
  mret r.

(** [inode_kill]; the memory of the inode is released. *)
Definition inode_kill (n : Z) : ST (sfs_fs D) unit :=
  i ← get_sin n;
  assert (ref_count i =? 0) ;;
  assert (open_count i =? 0).

(** The last part of [sfs_reclaim], after the links are removed. *)
Definition reclaim_blocks (n : Z) : ST (sfs_fs D) Z :=
  i ← get_sin n;
  (if nlinks (din i) =? 0 then
     sfs_block_free (ino i) ;;
     let ent := indirect (din i) in
     if negb (ent =? 0) then sfs_block_free ent else mret tt
   else mret tt) ;;
  inode_kill n ;;
  mret 0.

Definition sfs_reclaim (n : Z) : ST (sfs_fs D) Z :=
  lock_sfs_fs ;;
  i ← get_sin n;
  assert (0 <? reclaim_count i) ;;
  mod_sin n (set_reclaim (reclaim_count i - 1)) ;;
  if negb (reclaim_count i - 1 =? 0) || negb (ref_count i =? 0) then
    unlock_sfs_fs ;; mret (- E_BUSY)
  else
    ret ← (if nlinks (din i) =? 0 then vop_truncate n 0 else mret 0);
    if negb (ret =? 0) then unlock_sfs_fs ;; mret ret
    else
      i ← get_sin n;
      ret ← (if dirty i then vop_fsync n else mret 0);
      if negb (ret =? 0) then unlock_sfs_fs ;; mret ret
      else
        sfs_remove_links n ;;
        unlock_sfs_fs ;;
        reclaim_blocks n.

(** A failed [vop_reclaim] is only reported. *)
Definition inode_ref_dec (n : Z) : ST (sfs_fs D) Z :=
  i ← get_sin n;
  assert (0 <? ref_count i) ;;
  mod_sin n (set_ref (ref_count i - 1)) ;;
  (if ref_count i - 1 =? 0 then inode_check n ;; _ ← sfs_reclaim n; mret tt else mret tt) ;;
  mret (ref_count i - 1).

Definition inode_open_inc (n : Z) : ST (sfs_fs D) Z :=
  mod_sin n (fun i => set_open (s32 (open_count i + 1)) i) ;;
  get (fun s => open_count (sins s n)).

Definition inode_open_dec (n : Z) : ST (sfs_fs D) Z :=
  i ← get_sin n;
  assert (0 <? open_count i) ;;
  mod_sin n (set_open (open_count i - 1)) ;;
  (if open_count i - 1 =? 0 then inode_check n ;; _ ← sfs_close n; mret tt else mret tt) ;;
  mret (open_count i - 1).

(** ** Directory entries

    An entry is handed around as the 260 bytes read from its block. *)
Definition sfs_dirent_read_nolock (n slot : Z) : ST (sfs_fs D) (Z * mem) :=
  d ← get_dinode n;
  assert ((type d =? SFS_TYPE_DIR) && (0 <=? slot) && (slot <? iblocks d)) ;;
  '(ret, i) ← sfs_bmap_load_nolock n slot;
  if negb (ret =? 0) then mret (ret, fun _ => 0)
  else
    b ← sfs_block_inuse i;
    assert b ;;
    '(ret, buf) ← sfs_rbuf (fun _ => 0) 0 sizeof_disk_entry i 0;
    if negb (ret =? 0) then mret (ret, buf)
    else mret (0, upd buf (4 + SFS_MAX_FNAME_LEN) 0).

(** Slots [i], [i+1], ... ([k] of them); the code, the inode number and the
    slot found, and the last empty slot. *)
Fixpoint search_loop (k : nat) (n : Z) (name : list Z) (i empty : Z) : ST (sfs_fs D) (Z * Z * Z * Z) :=
  match k with
  | O => mret (- E_NOENT, 0, 0, empty)
  | S k' =>
      '(ret, m) ← sfs_dirent_read_nolock n i;
      if negb (ret =? 0) then mret (ret, 0, 0, empty)
      else if get32 m 0 =? 0 then search_loop k' n name (i + 1) i
      else if decide (name = cstr m 4 256) then mret (0, get32 m 0, i, empty)
      else search_loop k' n name (i + 1) empty
  end.

Definition sfs_dirent_search_nolock (mem_ok : bool) (n : Z) (name : list Z)
  : ST (sfs_fs D) (Z * Z * Z * Z) :=
  assert (Z.of_nat (length name) <=? SFS_MAX_FNAME_LEN) ;;
  if mem_ok then
    d ← get_dinode n;
    let nslots := s32 (iblocks d) in
    search_loop (Z.to_nat nslots) n name 0 nslots
  else mret (- E_NO_MEM, 0, 0, 0).

Fixpoint findino_loop (k : nat) (n i slot : Z) : ST (sfs_fs D) (Z * mem) :=
  match k with
  | O => mret (- E_NOENT, fun _ => 0)
  | S k' =>
      '(ret, m) ← sfs_dirent_read_nolock n slot;
      if negb (ret =? 0) then mret (ret, m)
      else if get32 m 0 =? i then mret (0, m)
      else findino_loop k' n i (slot + 1)
  end.
Definition sfs_dirent_findino_nolock (n i : Z) : ST (sfs_fs D) (Z * mem) :=
  d ← get_dinode n;
  findino_loop (Z.to_nat (s32 (iblocks d))) n i 0.

(** The entry number [slot] among those in use. *)
Fixpoint getdirentry_loop (k : nat) (n slot i : Z) : ST (sfs_fs D) (Z * mem) :=
  match k with
  | O => mret (- E_NOENT, fun _ => 0)
  | S k' =>
      '(ret, m) ← sfs_dirent_read_nolock n i;
      if negb (ret =? 0) then mret (ret, m)
      else if negb (get32 m 0 =? 0) then
        if slot =? 0 then mret (0, m) else getdirentry_loop k' n (slot - 1) (i + 1)
      else getdirentry_loop k' n slot (i + 1)
  end.
Definition sfs_getdirentry_sub_nolock (n slot : Z) : ST (sfs_fs D) (Z * mem) :=
  d ← get_dinode n;
  getdirentry_loop (Z.to_nat (s32 (iblocks d))) n slot 0.

Definition sfs_dentry_size : Z := 256.
Definition sfs_getdirentry (mem_ok : bool) (n : Z) (iob : iobuf) : ST (sfs_fs D) (Z * iobuf) :=
  if mem_ok then
    let offset := io_offset iob in
    if (offset <? 0) || negb (offset mod sfs_dentry_size =? 0) then mret (- E_INVAL, iob)
    else
      let slot := s32 (offset / sfs_dentry_size) in
      d ← get_dinode n;
      if iblocks d <? u32 slot then mret (- E_NOENT, iob)
      else
        lock_sin n ;;
        '(ret, m) ← sfs_getdirentry_sub_nolock n slot;
        unlock_sin n ;;
        if negb (ret =? 0) then mret (ret, iob)
        else
          '((ret, _, _), iob) ← on_local iob (iobuf_move m 4 sfs_dentry_size true);
          mret (ret, iob)
  else mret (- E_NO_MEM, iob).

(** ** Lookup *)
Definition sfs_lookup_once (mem_ok : bool) (al : kalloc) (n : Z) (name : list Z)
  : ST (sfs_fs D) (Z * option Z) :=
  lock_sin n ;;
  '(ret, i, slot, empty) ← sfs_dirent_search_nolock mem_ok n name;
  unlock_sin n ;;
  if ret =? 0 then sfs_load_inode al i else mret (ret, None).

Definition sfs_lookup (mem_ok : bool) (al : kalloc) (n : Z) (path : list Z)
  : ST (sfs_fs D) (Z * option Z) :=
  assert (match path with [] => false | c :: _ => negb (c =? 47) end) ;;
  inode_ref_inc n ;;
  d ← get_dinode n;
  if negb (type d =? SFS_TYPE_DIR) then
    inode_ref_dec n ;; mret (- E_NOTDIR, None)
  else
    '(ret, subnode) ← sfs_lookup_once mem_ok al n path;
    inode_ref_dec n ;;
    mret (if negb (ret =? 0) then (ret, None) else (0, subnode)).

(** ** Metadata *)
Definition sfs_opendir (open_flags : Z) : Z :=
  if negb (Z.land open_flags O_ACCMODE =? O_RDONLY) then - E_ISDIR
  else if negb (Z.land open_flags O_APPEND =? 0) then - E_ISDIR
  else 0.
Definition sfs_openfile (open_flags : Z) : Z := 0.

Definition sfs_gettype (n : Z) : ST (sfs_fs D) (Z * Z) :=
  d ← get_dinode n;
  if type d =? SFS_TYPE_DIR then mret (0, S_IFDIR)
  else if type d =? SFS_TYPE_FILE then mret (0, S_IFREG)
  else if type d =? SFS_TYPE_LINK then mret (0, S_IFLNK)
  else panic.

Definition sfs_fstat (n : Z) : ST (sfs_fs D) (Z * stat) :=
  inode_check n ;;
  '(ret, mode) ← sfs_gettype n;
  if negb (ret =? 0) then mret (ret, mkStat 0 0 0 0)
  else
    d ← get_dinode n;
    mret (0, mkStat mode (nlinks d) (iblocks d) (size d)).

(** ** Path names

    One turn of the loop of [sfs_namefile] for inode [n] goes up to the parent;
    the name is written backwards from [ptr].  The failure paths drop the
    reference the turn holds. *)
Inductive name_step :=
| NameFailed (ret : Z) (m : mem)
| NameRoot (m : mem) (ptr resid : Z)
| NameUp (m : mem) (ptr resid parent : Z).

Definition name_up (mem_ok : bool) (al : kalloc) (n : Z) (m : mem) (ptr resid : Z)
  : ST (sfs_fs D) name_step :=
  '(ret, parent) ← sfs_lookup_once mem_ok al n [46; 46];
  match parent with
  | None => inode_ref_dec n ;; mret (NameFailed ret m)
  | Some parent =>
      i ← get (fun s => ino (sins s n));
      inode_ref_dec n ;;
      if n =? parent then inode_ref_dec n ;; mret (NameRoot m ptr resid)
      else
        p ← get_sin parent;
        assert (negb (i =? ino p) && (type (din p) =? SFS_TYPE_DIR)) ;;
        lock_sin parent ;;
        '(ret, e) ← sfs_dirent_findino_nolock parent i;
        unlock_sin parent ;;
        if negb (ret =? 0) then inode_ref_dec parent ;; mret (NameFailed ret m)
        else
          let alen := Z.of_nat (length (cstr e 4 256)) + 1 in
          if resid <? alen then inode_ref_dec parent ;; mret (NameFailed (- E_NO_MEM) m)
          else mret (NameUp (upd (copy m (ptr - alen) e 4 (alen - 1)) (ptr - 1) 47)
                            (ptr - alen) (resid - alen) parent)
  end.

Fixpoint name_loop (fuel : nat) (al : nat -> bool * kalloc) (k : nat) (n : Z) (m : mem) (ptr resid : Z)
  : ST (sfs_fs D) name_step :=
  match fuel with
  | O => no_fuel
  | S fuel' =>
      r ← name_up (fst (al k)) (snd (al k)) n m ptr resid;
      match r with
      | NameUp m ptr resid parent => name_loop fuel' al (S k) parent m ptr resid
      | _ => mret r
      end
  end.

Definition sfs_namefile (fuel : nat) (mem_ok : bool) (al : nat -> bool * kalloc) (n : Z) (iob : iobuf)
  : ST (sfs_fs D) (Z * iobuf) :=
  if (io_resid iob <=? 2) || negb mem_ok then mret (- E_NO_MEM, iob)
  else
    inode_ref_inc n ;;
    r ← name_loop fuel al 0 n (io_mem iob) (io_base iob + io_resid iob) (io_resid iob - 2);
    match r with
    | NameRoot m ptr resid =>
        let alen := io_resid iob - resid - 2 in
        let m := copy m (io_base iob + 1) m ptr alen in
        let m := upd (upd m (io_base iob) 47) (io_base iob + 1 + alen) 0 in
        '(_, iob) ← on_local (mkIob m (io_base iob) (io_offset iob) (io_len iob) (io_resid iob))
                             (iobuf_skip alen);
        mret (0, iob)
    | NameFailed ret m => mret (ret, mkIob m (io_base iob) (io_offset iob) (io_len iob) (io_resid iob))
    | NameUp _ _ _ _ => no_fuel
    end.
End sfs_dir_ops.
