(* ===== verification/SfsDirSpec.v ===== *)
(** * The simple file system: directories and the inode cache, specified

    What a search of a directory returns, that the cache holds one in-memory
    inode per inode number, and that flushing an inode and loading it are
    inverse. *)
From S2P Require Import Prelude Libs Mem Disk Bitmap SfsIo SfsInode SfsAlloc SfsMap SfsFile.
From S2P Require Import SfsDir.

(** ** The bytes of an on-disk inode *)

(** Disk inodes that agree on their fields and on their twelve direct blocks. *)
#[export] Instance din_equiv : Equiv sfs_disk_inode := fun d e =>
  size d = size e /\ type d = type e /\ nlinks d = nlinks e /\ iblocks d = iblocks e /\
  (forall i, 0 <= i < 12 -> direct d i = direct e i) /\ indirect d = indirect e.

#[export] Instance din_equivalence : Equivalence (≡@{sfs_disk_inode}).
Proof.
  split.
  - intros d. by repeat split.
  - intros d e (? & ? & ? & ? & Hd & ?). split_and!; try congruence. intros i Hi. by rewrite Hd.
  - intros d e f (? & ? & ? & ? & Hd & ?) (? & ? & ? & ? & He & ?). split_and!; try congruence.
    intros i Hi. by rewrite Hd, He.
Qed.

(** Every field fits its width. *)
Record din_ok (d : sfs_disk_inode) : Prop := mkDinOk {
  dk_size : 0 <= size d < 2 ^ 32;
  dk_type : 0 <= type d < 2 ^ 16;
  dk_nlinks : 0 <= nlinks d < 2 ^ 16;
  dk_blocks : 0 <= iblocks d < 2 ^ 32;
  dk_direct i : 0 <= i < 12 -> 0 <= direct d i < 2 ^ 32;
  dk_indirect : 0 <= indirect d < 2 ^ 32 }.

Lemma put_words_out k : forall m a f i x,
  x < a + 4 * i \/ a + 4 * (i + Z.of_nat k) <= x -> put_words m a f i k x = m x.
Proof.
  induction k as [|k IH]; intros m a f i x Hx; [done|]. cbn [put_words].
  rewrite IH by lia. unfold put32. apply le_put_out. lia.
Qed.

Lemma get_put_words k : forall m a f i j,
  (forall l, i <= l < i + Z.of_nat k -> 0 <= f l < 2 ^ 32) -> i <= j < i + Z.of_nat k ->
  get32 (put_words m a f i k) (a + 4 * j) = f j.
Proof.
  induction k as [|k IH]; intros m a f i j Hf Hj; [lia|]. cbn [put_words].
  destruct (decide (j = i)) as [->|].
  - unfold get32. rewrite (le_get_ext _ (put32 m (a + 4 * i) (f i))).
    + apply le_get_put. change (256 ^ Z.of_nat 4) with (2 ^ 32). apply Hf. lia.
    + intros x Hx. apply put_words_out. lia.
  - apply IH; [intros l Hl; apply Hf|]; lia.
Qed.

Lemma get32_put32 m a v : 0 <= v < 2 ^ 32 -> get32 (put32 m a v) a = v.
Proof. intros. by apply le_get_put. Qed.

Lemma get16_put16 m a v : 0 <= v < 2 ^ 16 -> get16 (put16 m a v) a = v.
Proof. intros. by apply le_get_put. Qed.

Lemma get_put_din m d : din_ok d -> get_din (put_din m d) ≡ d.
Proof.
  intros [Hs Ht Hn Hb Hd Hi]. set (m0 := put32 (put16 (put16 (put32 m 0 (size d)) 4 (type d)) 6 (nlinks d))
                                               8 (iblocks d)).
  assert (Hlow : forall a n, a + Z.of_nat n <= 12 -> le_get (put_din m d) a n = le_get m0 a n).
  { intros a n Ha. apply le_get_ext. intros x Hx. unfold put_din. fold m0.
    unfold put32 at 1. rewrite le_put_out by lia. apply put_words_out. lia. }
  split_and!; cbn [get_din size type nlinks iblocks direct indirect]; unfold get32, get16.
  - rewrite Hlow by lia. unfold m0, put32, put16. rewrite !le_get_put_other by lia. by apply le_get_put.
  - rewrite Hlow by lia. unfold m0, put32, put16. rewrite !le_get_put_other by lia. by apply le_get_put.
  - rewrite Hlow by lia. unfold m0, put32, put16. rewrite le_get_put_other by lia. by apply le_get_put.
  - rewrite Hlow by lia. by apply le_get_put.
  - intros i Hr. unfold put_din. fold m0. unfold put32 at 1. rewrite le_get_put_other by lia.
    apply get_put_words; [intros l Hl; apply Hd|]; lia.
  - by apply le_get_put.
Qed.

Lemma get_din_ext m m' : (forall a, 0 <= a < 64 -> m a = m' a) -> get_din m ≡ get_din m'.
Proof.
  intros Hm. assert (Hg : forall a n, 0 <= a -> a + Z.of_nat n <= 64 -> le_get m a n = le_get m' a n).
  { intros. apply le_get_ext. intros. apply Hm. lia. }
  split_and!; cbn [get_din size type nlinks iblocks direct indirect]; intros; apply Hg; lia.
Qed.

#[export] Instance get_din_proper : Proper (pointwise_relation Z (=) ==> (≡)) get_din.
Proof. intros m m' Hm. apply get_din_ext. auto. Qed.

(** ** Directories *)
Lemma cstr_ext m m' a b k :
  (forall i, 0 <= i < Z.of_nat k -> m (a + i) = m' (b + i)) -> cstr m a k = cstr m' b k.
Proof.
  revert a b; induction k as [|k IH]; intros a b H; [done|]. cbn [cstr].
  pose proof (H 0 ltac:(lia)) as H0. rewrite !Z.add_0_r in H0. rewrite H0.
  destruct (m' b =? 0); [done|]. f_equal. apply IH. intros i Hi.
  replace (a + 1 + i) with (a + (i + 1)) by lia. replace (b + 1 + i) with (b + (i + 1)) by lia.
  apply H. lia.
Qed.

Lemma cstr_cut m a k : m (a + Z.of_nat k) = 0 -> cstr m a (S k) = cstr m a k.
Proof.
  revert a; induction k as [|k IH]; intros a Hz.
  - cbn in *. rewrite Z.add_0_r in Hz. by rewrite Hz.
  - change (cstr m a (S (S k))) with (if m a =? 0 then [] else m a :: cstr m (a + 1) (S k)).
    change (cstr m a (S k)) with (if m a =? 0 then [] else m a :: cstr m (a + 1) k).
    destruct (m a =? 0); [done|]. f_equal. apply IH. rewrite <- Hz. f_equal. lia.
Qed.

Section dir.
  Context {D : Type} `{BlockDevice D}.
  Implicit Types (st : sfs_fs D).

(** The inode number and the name in slot [k] of directory [n]. *)
Definition slot_ino st (n k : Z) : Z := get32 (img st) (fmap st n k * 4096).
Definition slot_name st (n k : Z) : list Z := cstr (img st) (fmap st n k * 4096 + 4) 255.

Record dir_ok st n : Prop := mkDirOk {
  do_map : map_ok st n;
  do_type : type (dino st n) = SFS_TYPE_DIR }.

Lemma dir_blocks st n : dir_ok st n -> 0 <= iblocks (dino st n) <= max_blocks.
Proof. intros [Hm _]. apply (mo_blocks _ _ Hm). Qed.

Lemma dir_ok_upd st st' n : dir_ok st n -> disk_upd st st' (img st) -> dir_ok st' n.
Proof.
  intros [Hm Ht] Hu. split; [by eapply upd_map_ok|by rewrite (disk_upd_dino _ _ _ n Hu)].
Qed.

Lemma fmap_upd st st' n k : disk_upd st st' (img st) -> 0 <= k < max_blocks ->
  fmap st' n k = fmap st n k.
Proof.
  intros Hu Hk. apply fmap_ext; [by apply (disk_upd_dino _ _ _ n Hu)| |done].
  intros. by apply disk_upd_byte.
Qed.

Lemma slot_upd st st' n k : disk_upd st st' (img st) -> 0 <= k < max_blocks ->
  slot_ino st' n k = slot_ino st n k /\ slot_name st' n k = slot_name st n k.
Proof.
  intros Hu Hk. unfold slot_ino, slot_name. rewrite (fmap_upd _ _ _ _ Hu Hk). split.
  - apply le_get_ext. intros. apply (disk_upd_img _ _ _ Hu).
  - apply cstr_ext. intros. apply (disk_upd_img _ _ _ Hu).
Qed.

Lemma sfs_dirent_read_spec st n k :
  fs_wf st -> dir_ok st n -> 0 <= k < iblocks (dino st n) ->
  exists st' m, sfs_dirent_read_nolock n k st = Done ((0, m), st') /\ disk_upd st st' (img st) /\
    get32 m 0 = slot_ino st n k /\ cstr m 4 256 = slot_name st n k.
Proof.
  intros Hwf Hd Hk. pose proof (dir_blocks _ _ Hd) as Hnb.
  destruct (sfs_bmap_load_found st n k Hwf (do_map _ _ Hd) Hk) as (s1 & Hload & Hu1).
  pose proof (disk_upd_wf _ _ _ Hu1 Hwf) as Hwf1.
  assert (Hin : inuse s1 (fmap st n k))
    by (apply (disk_upd_inuse _ _ _ _ Hu1), (mo_used _ _ (do_map _ _ Hd)); done).
  destruct (sfs_rbuf_spec s1 (fun _ => 0) 0 260 (fmap st n k) 0 (wf_ready _ Hwf1) (inuse_range _ _ Hin))
    as (s2 & m & Hrd & Hu2 & Hm); try lia.
  exists s2, (upd m 259 0). split_and!.
  - unfold sfs_dirent_read_nolock. mstep (get_dinode_run st n).
    rewrite (do_type _ _ Hd). destruct (Z.leb_spec 0 k); [|lia].
    destruct (Z.ltb_spec k (iblocks (dino st n))); [|lia]. mstep (assert_true true st eq_refl).
    mstep Hload. cbn [Z.eqb negb]. mstep (sfs_block_inuse_true s1 _ Hwf1 Hin).
    rewrite (bind_Done _ _ _ _ _ (assert_true true s1 eq_refl)).
    change sizeof_disk_entry with 260. mstep Hrd. done.
  - by eapply upd_img_trans.
  - apply le_get_shift. intros i Hi. rewrite upd_ne, Hm, copy_in by lia.
    rewrite (disk_upd_img _ _ _ Hu1). f_equal. lia.
  - change 256%nat with (S 255). rewrite cstr_cut by (by rewrite upd_eq). apply cstr_ext.
    intros i Hi. rewrite upd_ne, Hm, copy_in by lia. rewrite (disk_upd_img _ _ _ Hu1). f_equal. lia.
Qed.

(** Slot [k] holds a file called [name]. *)
Definition entry_of st n (name : list Z) (k : Z) : Prop :=
  slot_ino st n k <> 0 /\ slot_name st n k = name.

(** [e] is the last empty slot of [lo, hi), or the default [d]. *)
Definition last_empty st n (lo hi d e : Z) : Prop :=
  (e = d /\ forall j, lo <= j < hi -> slot_ino st n j <> 0) \/
  (lo <= e < hi /\ slot_ino st n e = 0 /\ forall j, e < j < hi -> slot_ino st n j <> 0).

Lemma last_empty_step st n lo hi d e :
  slot_ino st n lo <> 0 -> last_empty st n (lo + 1) hi d e -> last_empty st n lo hi d e.
Proof.
  intros Hn [(-> & Hr)|(He & Hz & Hr)]; [left|right].
  - split; [done|]. intros j Hj. destruct (decide (j = lo)) as [->|]; [done|apply Hr; lia].
  - split; [lia|done].
Qed.

Lemma last_empty_here st n lo hi d e :
  lo < hi -> slot_ino st n lo = 0 -> last_empty st n (lo + 1) hi lo e -> last_empty st n lo hi d e.
Proof.
  intros Hlt Hz [(-> & Hr)|(He & Hze & Hr)]; right.
  - split; [lia|]. split; [done|]. intros j Hj. apply Hr. lia.
  - split; [lia|done].
Qed.

Definition search_result st n name (lo hi d : Z) (r : Z * Z * Z * Z) : Prop :=
  let '(ret, i, slot, e) := r in
  (ret = 0 /\ lo <= slot < hi /\ entry_of st n name slot /\ i = slot_ino st n slot /\
   (forall j, lo <= j < slot -> ~ entry_of st n name j) /\ last_empty st n lo slot d e) \/
  (ret = - E_NOENT /\ (forall j, lo <= j < hi -> ~ entry_of st n name j) /\
   last_empty st n lo hi d e).

Lemma last_empty_ext st st' n lo hi d e :
  (forall j, lo <= j < hi -> slot_ino st' n j = slot_ino st n j) ->
  last_empty st' n lo hi d e -> last_empty st n lo hi d e.
Proof.
  intros Hs [(-> & Hr)|(He & Hz & Hr)]; [left|right].
  - split; [done|]. intros j Hj. rewrite <- Hs by lia. by apply Hr.
  - split; [done|]. split; [by rewrite <- Hs|]. intros j Hj. rewrite <- Hs by lia. by apply Hr.
Qed.

Lemma search_result_ext st st' n name lo hi d r :
  (forall j, lo <= j < hi -> slot_ino st' n j = slot_ino st n j /\ slot_name st' n j = slot_name st n j) ->
  search_result st' n name lo hi d r -> search_result st n name lo hi d r.
Proof.
  intros Hs.
  assert (He : forall j, lo <= j < hi -> entry_of st n name j <-> entry_of st' n name j).
  { intros j Hj. unfold entry_of. by destruct (Hs j Hj) as [-> ->]. }
  destruct r as [[[ret i] slot] e].
  intros [(-> & Hsl & Hen & -> & Hno & Hle)|(-> & Hno & Hle)]; [left|right].
  - refine (conj eq_refl (conj Hsl (conj (proj2 (He _ Hsl) Hen) (conj (proj1 (Hs _ Hsl)) (conj _ _))))).
    + intros j Hj. rewrite He by lia. by apply Hno.
    + eapply last_empty_ext; [|exact Hle]. intros j Hj. apply Hs. lia.
  - refine (conj eq_refl (conj _ _)).
    + intros j Hj. rewrite He by lia. by apply Hno.
    + eapply last_empty_ext; [|exact Hle]. intros j Hj. by apply Hs.
Qed.

Lemma search_result_step st n name lo hi d d' r :
  lo < hi -> ~ entry_of st n name lo ->
  (slot_ino st n lo = 0 /\ d' = lo \/ slot_ino st n lo <> 0 /\ d' = d) ->
  search_result st n name (lo + 1) hi d' r -> search_result st n name lo hi d r.
Proof.
  intros Hlt Hno Hd.
  assert (Hle : forall h e, lo < h -> last_empty st n (lo + 1) h d' e -> last_empty st n lo h d e).
  { intros h e Hh. destruct Hd as [[Hz ->]|[Hnz ->]]; [by apply last_empty_here|by apply last_empty_step]. }
  assert (Hall : forall h, (forall j, lo + 1 <= j < h -> ~ entry_of st n name j) ->
                           forall j, lo <= j < h -> ~ entry_of st n name j).
  { intros h Hr j Hj. destruct (decide (j = lo)) as [->|]; [done|apply Hr; lia]. }
  destruct r as [[[ret i] slot] e].
  intros [(-> & Hsl & Hen & -> & Hn & He)|(-> & Hn & He)]; [left|right].
  - refine (conj eq_refl (conj _ (conj Hen (conj eq_refl (conj _ _))))); [lia|by apply Hall|].
    apply Hle; [lia|done].
  - refine (conj eq_refl (conj _ _)); [by apply Hall|by apply Hle].
Qed.

Lemma search_loop_spec n name k : forall st i d,
  fs_wf st -> dir_ok st n -> 0 <= i -> i + Z.of_nat k = iblocks (dino st n) ->
  exists st' r, search_loop k n name i d st = Done (r, st') /\ disk_upd st st' (img st) /\
    search_result st n name i (i + Z.of_nat k) d r.
Proof.
  induction k as [|k IH]; intros st i d Hwf Hd Hi Hk.
  { exists st, (- E_NOENT, 0, 0, d). split; [done|].
    split; [apply disk_upd_refl, (ready_dev _ (wf_ready _ Hwf))|]. right. split; [done|].
    split; [lia|]. left. split; [done|lia]. }
  pose proof (dir_blocks _ _ Hd) as Hnb.
  destruct (sfs_dirent_read_spec st n i Hwf Hd ltac:(lia)) as (s1 & m & Hrd & Hu1 & Hino & Hname).
  pose proof (disk_upd_wf _ _ _ Hu1 Hwf) as Hwf1. pose proof (dir_ok_upd _ _ _ Hd Hu1) as Hd1.
  assert (Hsame : forall j, 0 <= j < max_blocks ->
            slot_ino s1 n j = slot_ino st n j /\ slot_name s1 n j = slot_name st n j)
    by (intros; by apply slot_upd).
  assert (Hrest : forall d', exists st' r,
    search_loop k n name (i + 1) d' s1 = Done (r, st') /\ disk_upd st st' (img st) /\
    search_result st n name (i + 1) (i + Z.of_nat (S k)) d' r).
  { intros d'. destruct (IH s1 (i + 1) d' Hwf1 Hd1 ltac:(lia)) as (st' & r & Hrun & Hu2 & Hr).
    { rewrite (disk_upd_dino _ _ _ n Hu1). lia. }
    exists st', r. split; [done|]. split; [by eapply upd_img_trans|].
    replace (i + Z.of_nat (S k)) with (i + 1 + Z.of_nat k) by lia.
    revert Hr. apply search_result_ext. intros j Hj. apply Hsame. unfold max_blocks in *. lia. }
  cbn [search_loop]. mstep Hrd. cbn [Z.eqb negb]. rewrite Hino, Hname.
  destruct (Z.eqb_spec (slot_ino st n i) 0) as [Hz|Hnz].
  - destruct (Hrest i) as (st' & r & Hrun & Hu & Hr). exists st', r. split; [done|]. split; [done|].
    eapply search_result_step; [lia|by intros [? _]|by left|done].
  - destruct (decide (name = slot_name st n i)) as [He|Hne].
    + eexists s1, _. split; [done|]. split; [done|]. left.
      refine (conj eq_refl (conj _ (conj (conj Hnz (eq_sym He)) (conj eq_refl (conj _ _))))); [lia|lia|].
      left. split; [done|lia].
    + destruct (Hrest d) as (st' & r & Hrun & Hu & Hr). exists st', r. split; [done|]. split; [done|].
      eapply search_result_step; [lia|intros [_ ?]; congruence|by right|done].
Qed.

Lemma dirent_search_run st n name :
  fs_wf st -> dir_ok st n -> Z.of_nat (length name) <= SFS_MAX_FNAME_LEN ->
  exists st' r, sfs_dirent_search_nolock true n name st = Done (r, st') /\
    disk_upd st st' (img st) /\
    search_result st n name 0 (iblocks (dino st n)) (iblocks (dino st n)) r.
Proof.
  intros Hwf Hd Hn. pose proof (dir_blocks _ _ Hd) as Hnb. unfold max_blocks in Hnb.
  destruct (search_loop_spec n name (Z.to_nat (iblocks (dino st n))) st 0 (iblocks (dino st n)) Hwf Hd)
    as (st' & r & Hrun & Hu & Hr); [lia|lia|].
  exists st', r. split_and!; [|done|by rewrite Z.add_0_l, Z2Nat.id in Hr by lia].
  unfold sfs_dirent_search_nolock. destruct (Z.leb_spec (Z.of_nat (length name)) SFS_MAX_FNAME_LEN); [|lia].
  mstep (assert_true true st eq_refl). mstep (get_dinode_run st n). by rewrite s32_small by lia.
Qed.

(** Searching a directory for a name of at most 255 bytes returns the
    inode number and the slot of the first entry in use with that name, or
    [-E_NOENT] when there is none; [empty_slot] is the last empty slot that
    the search passed, or the number of slots.  Nothing changes but the bounce
    buffer. *)
Theorem sfs_dirent_search_finds st n name :
  fs_wf st -> dir_ok st n -> Z.of_nat (length name) <= SFS_MAX_FNAME_LEN ->
  exists st' r, sfs_dirent_search_nolock true n name st = Done (r, st') /\
    disk_upd st st' (img st) /\
    search_result st n name 0 (iblocks (dino st n)) (iblocks (dino st n)) r.
Proof. apply dirent_search_run. Qed.
End dir.
