(* ===== verification/SfsCache.v ===== *)
(** * The simple file system: the inode cache, specified

    Loading an inode finds the cached one or decodes its block; the cache holds
    at most one in-memory inode per number; flushing writes what loading reads;
    dropping the last reference flushes the inode and forgets it. *)
From S2P Require Import Prelude Libs Mem Disk Bitmap SfsIo SfsInode SfsAlloc SfsMap SfsFile.
From S2P Require Import SfsDir SfsDirSpec.

Section cache.
  Context {D : Type} `{BlockDevice D}.
  Implicit Types (st : sfs_fs D).

(** The hash chains hold exactly the inodes of the list, each in the chain of
    its number, and no two have the same number. *)
Record cache_ok st : Prop := mkCacheOk {
  ck_nodup : NoDup (inode_list st);
  ck_hash n h : n ∈ hash_list st h <-> n ∈ inode_list st /\ h = sin_hashfn (ino (sins st n));
  ck_uniq n m : n ∈ inode_list st -> m ∈ inode_list st -> ino (sins st n) = ino (sins st m) -> n = m }.

(** The inode that block [i] of the disk holds. *)
Definition disk_din st (i : Z) : sfs_disk_inode := get_din (byte st i).

Lemma find_sin_spec f l i :
  match find_sin f l i with
  | Some n => n ∈ l /\ ino (f n) = i
  | None => forall n, n ∈ l -> ino (f n) <> i
  end.
Proof.
  induction l as [|n l IH]; cbn; [by intros n ?%elem_of_nil|].
  destruct (Z.eqb_spec (ino (f n)) i) as [He|Hne].
  - split; [apply elem_of_cons; by left|done].
  - destruct (find_sin f l i) as [m|].
    + destruct IH. split; [apply elem_of_cons; by right|done].
    + intros m [->|Hm]%elem_of_cons; [done|by apply IH].
Qed.

Lemma find_sin_hit st n i :
  cache_ok st -> n ∈ inode_list st -> ino (sins st n) = i ->
  find_sin (sins st) (hash_list st (sin_hashfn i)) i = Some n.
Proof.
  intros Hc Hn Hi. pose proof (find_sin_spec (sins st) (hash_list st (sin_hashfn i)) i) as Hf.
  destruct (find_sin _ _ _) as [m|].
  - destruct Hf as [Hm He]. apply (ck_hash _ Hc) in Hm as [Hm _].
    f_equal. apply (ck_uniq _ Hc); congruence.
  - exfalso. apply (Hf n); [|done]. apply (ck_hash _ Hc). by rewrite Hi.
Qed.

Lemma find_sin_miss st i :
  cache_ok st -> (forall n, n ∈ inode_list st -> ino (sins st n) <> i) ->
  find_sin (sins st) (hash_list st (sin_hashfn i)) i = None.
Proof.
  intros Hc Hno. pose proof (find_sin_spec (sins st) (hash_list st (sin_hashfn i)) i) as Hf.
  destruct (find_sin _ _ _) as [m|]; [|done]. destruct Hf as [Hm He].
  apply (ck_hash _ Hc) in Hm as [Hm _]. by apply Hno in Hm.
Qed.

(** Changes that keep the numbers of the inodes and the lists keep the cache. *)
Lemma cache_ok_ext st st' :
  cache_ok st -> inode_list st' = inode_list st -> hash_list st' = hash_list st ->
  (forall n, n ∈ inode_list st -> ino (sins st' n) = ino (sins st n)) -> cache_ok st'.
Proof.
  intros [Hnd Hh Hu] Hl Hhl Hi. split; rewrite Hl.
  - done.
  - intros n h. rewrite Hhl, Hh. split; intros [Hn ->]; by rewrite Hi.
  - intros n m Hn Hm. rewrite !Hi by done. by apply Hu.
Qed.

Lemma cache_ok_add st n :
  cache_ok st -> n ∉ inode_list st ->
  (forall m, m ∈ inode_list st -> ino (sins st m) <> ino (sins st n)) ->
  forall st', sfs_set_links n st = Done (tt, st') ->
  cache_ok st' /\ inode_list st' = n :: inode_list st /\ sins st' = sins st.
Proof.
  intros [Hnd Hh Hu] Hn Hno st' Hrun. unfold sfs_set_links, modify in Hrun. injection Hrun as <-.
  split; [|done]. split; cbn.
  - by constructor.
  - intros m h. rewrite elem_of_cons. destruct (decide (h = sin_hashfn (ino (sins st n)))) as [->|Hne].
    + rewrite upd_eq, elem_of_cons, Hh. naive_solver.
    + rewrite upd_ne, Hh by done. naive_solver.
  - intros m k [->|Hm]%elem_of_cons [->|Hk]%elem_of_cons He; try done.
    + by apply Hno in Hk.
    + by apply Hno in Hm.
    + by apply Hu.
Qed.

Lemma elem_of_list_del n m l : m ∈ unlinked n l <-> m ∈ l /\ m <> n.
Proof. unfold unlinked. rewrite list_elem_of_filter. tauto. Qed.

Lemma cache_ok_remove st n :
  cache_ok st -> n ∈ inode_list st ->
  forall st', sfs_remove_links n st = Done (tt, st') ->
  cache_ok st' /\ inode_list st' = unlinked n (inode_list st) /\ sins st' = sins st.
Proof.
  intros [Hnd Hh Hu] Hn st' Hrun. unfold sfs_remove_links, modify in Hrun. injection Hrun as <-.
  split; [|done]. split; cbn.
  - by apply NoDup_filter.
  - intros m h. rewrite elem_of_list_del.
    destruct (decide (h = sin_hashfn (ino (sins st n)))) as [->|Hne].
    + rewrite upd_eq, elem_of_list_del, Hh. naive_solver.
    + rewrite upd_ne, Hh by done. naive_solver.
  - intros m k [Hm _]%elem_of_list_del [Hk _]%elem_of_list_del. by apply Hu.
Qed.

(** ** Flushing *)
Lemma fs_wf_sins f st : fs_wf st -> fs_wf (set_sins f st).
Proof. intros [[[Hd Hb] Hio] Hbm Hn Hs Ho Hc]. by split. Qed.

Lemma fs_wf_lists x y st : fs_wf st -> fs_wf (set_lists x y st).
Proof. intros [[[Hd Hb] Hio] Hbm Hn Hs Ho Hc]. by split. Qed.

Lemma fs_wf_fs_sem v st : fs_wf st -> fs_wf (set_fs_sem v st).
Proof. intros [[[Hd Hb] Hio] Hbm Hn Hs Ho Hc]. by split. Qed.

(** Inode [n] was written back if it was dirty, and nothing else happened. *)
Record flushed st (n : Z) st' : Prop := mkFlushed {
  fl_wf : fs_wf st';
  fl_sin : sins st' n = set_dirty false (sins st n);
  fl_others k : k <> n -> sins st' k = sins st k;
  fl_lists : inode_list st' = inode_list st /\ hash_list st' = hash_list st;
  fl_super : super st' = super st /\ freemap st' = freemap st /\ super_dirty st' = super_dirty st;
  fl_sems : fs_sem st' = fs_sem st /\ io_sem st' = io_sem st;
  fl_img a : img st' a = if dirty (sins st n)
                         then copy (img st) (ino (sins st n) * 4096)
                                   (put_din (fun _ => 0) (dino st n)) 0 64 a
                         else img st a }.

Lemma flushed_clean st n : fs_wf st -> dirty (sins st n) = false -> flushed st n st.
Proof.
  intros Hwf Hd. split; try done; [|by rewrite Hd].
  destruct (sins st n); cbn in *. by rewrite Hd.
Qed.

Lemma sfs_fsync_dirty st n :
  fs_wf st -> dirty (sins st n) = true -> 0 < sem (sins st n) -> inuse st (ino (sins st n)) ->
  exists st', sfs_fsync n st = Done (0, st') /\ flushed st n st'.
Proof.
  intros Hwf Hdirty Hsem Hin. set (s0 := on_sin n (set_sem (sem (sins st n) - 1)) st).
  set (s1 := on_sin n (set_dirty false) s0).
  assert (Hs0 : sins s0 n = set_sem (sem (sins st n) - 1) (sins st n)) by apply upd_eq.
  assert (Hs1 : sins s1 n = set_dirty false (sins s0 n)) by apply upd_eq.
  assert (Hwf1 : fs_wf s1) by (apply fs_wf_sins, fs_wf_sins, Hwf).
  destruct (sfs_wbuf_spec s1 (put_din (fun _ => 0) (dino st n)) 0 64 (ino (sins st n)) 0
              (wf_ready _ Hwf1) (inuse_range _ _ Hin)) as (s2 & Hrun & Hu); try lia.
  pose proof (disk_upd_wf _ _ _ Hu Hwf1) as Hwf2.
  assert (Hsin2 : sins s2 = sins s1) by (by destruct Hu as (d & b & -> & _)).
  exists (on_sin n (set_sem (sem (sins s2 n) + 1)) s2). split.
  - unfold sfs_fsync. mstep (eq_refl : get_sin n st = Done (sins st n, st)). rewrite Hdirty.
    assert (Hl : lock_sin n st = Done (tt, s0)).
    { unfold lock_sin, lock. by destruct (Z.ltb_spec 0 (sem (sins st n))); [|lia]. }
    mstep Hl. mstep (eq_refl : get_sin n s0 = Done (sins s0 n, s0)).
    rewrite Hs0. cbn [dirty set_sem din ino]. rewrite Hdirty.
    assert (Hin2 : (mod_sin n (set_dirty false) ;;
        ret ← sfs_wbuf (put_din (fun _ => 0) (din (sins st n))) 0 sizeof_disk_inode (ino (sins st n)) 0;
        (if negb (ret =? 0) then mod_sin n (set_dirty true) else mret tt) ;; mret ret) s0
        = Done (0, s2)).
    { mstep (eq_refl : mod_sin n (set_dirty false) s0 = Done (tt, s1)).
      change sizeof_disk_inode with 64. mstep Hrun. done. }
    mstep Hin2. reflexivity.
  - assert (Hn : sins s2 n = set_dirty false (set_sem (sem (sins st n) - 1) (sins st n)))
      by (by rewrite Hsin2, Hs1, Hs0).
    split.
    + apply fs_wf_sins, Hwf2.
    + cbn. rewrite upd_eq, Hn. cbn. unfold set_sem, set_dirty. cbn. f_equal. lia.
    + intros k Hk. cbn. rewrite upd_ne, Hsin2 by done. cbn. by rewrite !upd_ne by done.
    + by destruct Hu as (d & b & -> & _).
    + by destruct Hu as (d & b & -> & _).
    + by destruct Hu as (d & b & -> & _).
    + intros a. rewrite Hdirty. change (img (on_sin _ _ s2) a) with (img s2 a).
      rewrite (disk_upd_img _ _ _ Hu). by rewrite Z.add_0_r.
Qed.

Lemma sfs_fsync_flushes st n :
  fs_wf st -> 0 < sem (sins st n) -> inuse st (ino (sins st n)) ->
  exists st', sfs_fsync n st = Done (0, st') /\ flushed st n st'.
Proof.
  intros Hwf Hsem Hin. destruct (dirty (sins st n)) eqn:Hd; [by apply sfs_fsync_dirty|].
  exists st. split; [|by apply flushed_clean].
  unfold sfs_fsync. mstep (eq_refl : get_sin n st = Done (sins st n, st)). by rewrite Hd.
Qed.

(** The block then decodes to the inode in memory. *)
Lemma flushed_disk_din st n st' :
  flushed st n st' -> dirty (sins st n) = true -> din_ok (dino st n) ->
  disk_din st' (ino (sins st n)) ≡ dino st n.
Proof.
  intros Hf Hd Hok. rewrite <- (get_put_din (fun _ => 0) _ Hok). apply get_din_ext. intros a Ha.
  unfold byte. rewrite (fl_img _ _ _ Hf), Hd, copy_in by lia. f_equal. lia.
Qed.

(** ** Loading *)
Lemma lock_fs_run st : 0 < fs_sem st -> lock_sfs_fs st = Done (tt, set_fs_sem (fs_sem st - 1) st).
Proof. intros Hs. unfold lock_sfs_fs, lock. by destruct (Z.ltb_spec 0 (fs_sem st)); [|lia]. Qed.

Lemma set_fs_sem_id st v : v = fs_sem st -> set_fs_sem v st = st.
Proof. intros ->. by destruct st. Qed.

(** The counts after a cached inode was handed out once more. *)
Definition referenced (i : sfs_inode) : sfs_inode :=
  let i' := set_ref (s32 (ref_count i + 1)) i in
  if ref_count i' =? 1 then set_reclaim (s32 (reclaim_count i' + 1)) i' else i'.

Lemma lookup_hit st n i :
  cache_ok st -> n ∈ inode_list st -> ino (sins st n) = i ->
  exists f, lookup_sfs_nolock i st = Done (Some n, set_sins f st) /\
    f n = referenced (sins st n) /\ forall k, k <> n -> f k = sins st k.
Proof.
  intros Hc Hn Hi. unfold lookup_sfs_nolock, sfs_hash_list.
  mstep (eq_refl : get (fun s => hash_list s (sin_hashfn i)) st = Done (hash_list st (sin_hashfn i), st)).
  mstep (eq_refl : get sins st = Done (sins st, st)). rewrite (find_sin_hit st n i Hc Hn Hi).
  set (s1 := on_sin n (fun i => set_ref (s32 (ref_count i + 1)) i) st).
  assert (Hr : inode_ref_inc n st = Done (ref_count (sins s1 n), s1)) by done.
  mstep Hr. assert (Hs1 : sins s1 n = set_ref (s32 (ref_count (sins st n) + 1)) (sins st n)) by apply upd_eq.
  destruct (ref_count (sins s1 n) =? 1) eqn:H1; rewrite Hs1 in H1.
  - eexists. split; [reflexivity|]. split.
    + rewrite upd_eq. fold s1. rewrite Hs1. unfold referenced. by rewrite H1.
    + intros k Hk. rewrite upd_ne by done. cbn. by rewrite upd_ne.
  - exists (sins s1). split; [reflexivity|]. split.
    + rewrite Hs1. unfold referenced. by rewrite H1.
    + intros k Hk. cbn. by rewrite upd_ne.
Qed.

(** What loading inode [i] leaves, with [n] the in-memory inode handed out. *)
Record loaded st (al : kalloc) (i n : Z) st' : Prop := mkLoaded {
  ld_wf : fs_wf st';
  ld_cache : cache_ok st';
  ld_in : n ∈ inode_list st' /\ ino (sins st' n) = i;
  ld_others k : k <> n -> sins st' k = sins st k;
  ld_img a : img st' a = img st a;
  ld_frame : super st' = super st /\ freemap st' = freemap st;
  ld_how : (n ∈ inode_list st /\ inode_list st' = inode_list st /\
            sins st' n = referenced (sins st n)) \/
           (n ∉ inode_list st /\ al_node al = Some n /\ inode_list st' = n :: inode_list st /\
            exists d, d ≡ disk_din st i /\ sins st' n = mkSin d i false 1 1 1 0) }.

(** The block of a file or directory that is linked somewhere. *)
Definition inode_block st (i : Z) : Prop :=
  inuse st i /\ nlinks (disk_din st i) <> 0 /\
  (type (disk_din st i) = SFS_TYPE_DIR \/ type (disk_din st i) = SFS_TYPE_FILE).

Lemma load_miss_spec st al i n :
  fs_wf st -> cache_ok st -> (forall m, m ∈ inode_list st -> ino (sins st m) <> i) ->
  al = mkKalloc true (Some n) -> n ∉ inode_list st -> inode_block st i ->
  exists st', load_miss al i st = Done ((0, Some n), st') /\ loaded st al i n st' /\ fs_sem st' = fs_sem st.
Proof.
  intros Hwf Hc Hno -> Hn (Hin & Hnl & Hty).
  destruct (sfs_rbuf_spec st (fun _ => 0) 0 64 i 0 (wf_ready _ Hwf) (inuse_range _ _ Hin))
    as (s1 & m & Hrun & Hu & Hm); try lia.
  assert (Hd : get_din m ≡ disk_din st i).
  { apply get_din_ext. intros a Ha. rewrite Hm, copy_in by lia. unfold byte. f_equal. lia. }
  pose proof Hd as (_ & Ht & Hl & _).
  set (s2 := on_sin n (fun _ => mkSin (get_din m) i false 1 1 1 0) s1).
  assert (Hs2 : sins s2 n = mkSin (get_din m) i false 1 1 1 0) by apply upd_eq.
  assert (Hs1 : inode_list s1 = inode_list st /\ hash_list s1 = hash_list st /\ sins s1 = sins st /\
                fs_sem s1 = fs_sem st) by (by destruct Hu as (d & b & -> & _)).
  destruct Hs1 as (Hl1 & Hh1 & Hsin1 & Hfs1).
  assert (Hc2 : cache_ok s2).
  { apply (cache_ok_ext st); [done|done|done|]. intros k Hk. cbn. rewrite upd_ne, Hsin1; [done|].
    by intros ->. }
  destruct (sfs_set_links n s2) as [[[] s3]| |] eqn:Hset; try done.
  destruct (cache_ok_add s2 n Hc2 ltac:(cbn; by rewrite Hl1)) with (st' := s3) as (Hc3 & Hl3 & Hsin3); [|done|].
  { intros k Hk. cbn in Hk. rewrite Hl1 in Hk. rewrite Hs2. cbn. rewrite upd_ne, Hsin1; [by apply Hno|].
    by intros ->. }
  assert (Hs3 : s3 = set_lists (inode_list s3) (hash_list s3) s2)
    by (unfold sfs_set_links, modify in Hset; by injection Hset as <-).
  exists s3. split; [|split].
  - unfold load_miss. cbn [al_din]. mstep (sfs_block_inuse_true st i Hwf Hin).
    mstep (assert_true true st eq_refl). change sizeof_disk_inode with 64. mstep Hrun.
    cbn [Z.eqb negb]. assert (Hnz : negb (nlinks (get_din m) =? 0) = true).
    { apply negb_true_iff, Z.eqb_neq. by rewrite Hl. }
    mstep (assert_true _ s1 Hnz). cbn [al_node].
    assert (Hcr : sfs_create_inode (Some n) (get_din m) i s1 = Done ((0, Some n), s2)).
    { unfold sfs_create_inode, sfs_get_ops. rewrite Ht. destruct Hty as [-> | ->]; reflexivity. }
    mstep Hcr. mstep Hset. done.
  - split.
    + rewrite Hs3. apply fs_wf_lists, fs_wf_sins. by apply (disk_upd_wf _ _ _ Hu).
    + done.
    + split; [rewrite Hl3; apply elem_of_cons; by left|]. by rewrite Hsin3, Hs2.
    + intros k Hk. rewrite Hsin3. cbn. by rewrite upd_ne, Hsin1.
    + intros a. rewrite Hs3. apply (disk_upd_img _ _ _ Hu).
    + rewrite Hs3. by destruct Hu as (d & b & -> & _).
    + right. split; [done|]. split; [done|]. split; [by rewrite Hl3; cbn; rewrite Hl1|].
      exists (get_din m). by rewrite Hsin3, Hs2.
  - by rewrite Hs3.
Qed.

Lemma loaded_fs_sem st v w al i n st' :
  loaded (set_fs_sem v st) al i n st' -> loaded st al i n (set_fs_sem w st').
Proof.
  intros [Hwf Hc Hin Ho Hi Hf Hh]. split; try done; [by apply fs_wf_fs_sem|].
  by apply (cache_ok_ext st').
Qed.

Lemma lookup_miss st i :
  cache_ok st -> (forall m, m ∈ inode_list st -> ino (sins st m) <> i) ->
  lookup_sfs_nolock i st = Done (None, st).
Proof.
  intros Hc Hno. unfold lookup_sfs_nolock, sfs_hash_list.
  mstep (eq_refl : get (fun s => hash_list s (sin_hashfn i)) st = Done (hash_list st (sin_hashfn i), st)).
  mstep (eq_refl : get sins st = Done (sins st, st)). by rewrite find_sin_miss.
Qed.

Lemma load_inode_run st i m :
  fs_wf st -> cache_ok st -> 0 < fs_sem st -> inode_block st i -> m ∉ inode_list st ->
  exists n st', sfs_load_inode (mkKalloc true (Some m)) i st = Done ((0, Some n), st') /\
    loaded st (mkKalloc true (Some m)) i n st' /\ fs_sem st' = fs_sem st.
Proof.
  intros Hwf Hc Hsem Hb Hm. unfold sfs_load_inode. mstep (lock_fs_run st Hsem).
  set (s0 := set_fs_sem (fs_sem st - 1) st).
  assert (Hwf0 : fs_wf s0) by (by apply fs_wf_fs_sem).
  assert (Hc0 : cache_ok s0) by (by apply (cache_ok_ext st)).
  destruct (decide (Exists (fun n => ino (sins st n) = i) (inode_list st))) as [He|Hne].
  - apply Exists_exists in He as (n & Hn & Hi).
    destruct (lookup_hit s0 n i Hc0 Hn Hi) as (f & Hlk & Hfn & Hfo). mstep Hlk.
    rewrite ret_bind. exists n. eexists. split; [reflexivity|]. split; [|cbn; lia].
    apply (loaded_fs_sem st (fs_sem st - 1)). fold s0.
    assert (Hino : ino (f n) = ino (sins st n)).
    { rewrite Hfn. unfold referenced. by destruct (_ =? 1). }
    split; try done.
    + by apply fs_wf_sins.
    + apply (cache_ok_ext s0); [done|done|done|]. intros k Hk. cbn.
      destruct (decide (k = n)) as [->|]; [done|by rewrite Hfo].
    + cbn. by rewrite Hino.
    + left. done.
  - assert (Hno : forall n, n ∈ inode_list s0 -> ino (sins s0 n) <> i).
    { intros n Hn Hi. apply Hne, Exists_exists. by exists n. }
    rewrite (bind_Done _ _ _ _ _ (lookup_miss s0 i Hc0 Hno)).
    destruct (load_miss_spec s0 (mkKalloc true (Some m)) i m Hwf0 Hc0 Hno eq_refl Hm Hb)
      as (s1 & Hrun & Hld & Hfs). mstep Hrun.
    exists m. eexists. split; [reflexivity|]. split; [by eapply loaded_fs_sem|]. cbn. rewrite Hfs. cbn. lia.
Qed.

(** C24 Loading inode [i] hands out the in-memory inode that the cache has
    for [i] (with one more reference), or, when it has none, a new one whose
    contents are decoded from block [i], entered in the list and in the hash
    chain of [i].  Either way the cache still holds one inode per number and
    no other inode and no byte of the disk changes. *)
Theorem sfs_load_inode_unique st i m :
  fs_wf st -> cache_ok st -> 0 < fs_sem st -> inode_block st i -> m ∉ inode_list st ->
  exists n st', sfs_load_inode (mkKalloc true (Some m)) i st = Done ((0, Some n), st') /\
    loaded st (mkKalloc true (Some m)) i n st' /\ fs_sem st' = fs_sem st.
Proof. apply load_inode_run. Qed.

(** Flushing a modified inode writes its fields to block [ino] in the
    form that loading decodes: the inode is clean, its block decodes to it and
    no other byte of the disk changes. *)
Theorem sfs_fsync_roundtrip st n :
  fs_wf st -> 0 < sem (sins st n) -> inuse st (ino (sins st n)) ->
  dirty (sins st n) = true -> din_ok (dino st n) ->
  exists st', sfs_fsync n st = Done (0, st') /\ flushed st n st' /\
    disk_din st' (ino (sins st n)) ≡ dino st n.
Proof.
  intros Hwf Hsem Hin Hd Hok. destruct (sfs_fsync_flushes st n Hwf Hsem Hin) as (st' & Hrun & Hf).
  exists st'. split; [done|]. split; [done|]. by apply flushed_disk_din.
Qed.

(** ** Dropping a reference *)
Record dropped st (n : Z) st' : Prop := mkDropped {
  dr_wf : fs_wf st';
  dr_cache : cache_ok st';
  dr_list : inode_list st' = unlinked n (inode_list st);
  dr_others k : k <> n -> sins st' k = sins st k;
  dr_super : super st' = super st /\ freemap st' = freemap st /\ fs_sem st' = fs_sem st;
  dr_img a : img st' a = if dirty (sins st n)
                         then copy (img st) (ino (sins st n) * 4096)
                                   (put_din (fun _ => 0) (dino st n)) 0 64 a
                         else img st a }.

(** The inode is linked in some directory and in its last use. *)
Record last_use st (n : Z) : Prop := mkLastUse {
  lu_in : n ∈ inode_list st;
  lu_counts : ref_count (sins st n) = 1 /\ reclaim_count (sins st n) = 1 /\ open_count (sins st n) = 0;
  lu_links : nlinks (dino st n) <> 0;
  lu_sem : 0 < sem (sins st n);
  lu_block : inuse st (ino (sins st n)) }.

Lemma inode_check_run st n :
  0 <= open_count (sins st n) <= ref_count (sins st n) -> ref_count (sins st n) < MAX_INODE_COUNT ->
  inode_check n st = Done (tt, st).
Proof.
  intros Ho Hm. unfold inode_check. mstep (eq_refl : get_sin n st = Done (sins st n, st)).
  assert (H1 : (open_count (sins st n) <=? ref_count (sins st n)) && (0 <=? open_count (sins st n)) = true)
    by (apply andb_true_iff; split; apply Z.leb_le; lia).
  mstep (assert_true _ st H1). apply assert_true, andb_true_iff. split; apply Z.ltb_lt; lia.
Qed.

Lemma sfs_reclaim_last st n :
  fs_wf st -> cache_ok st -> 0 < fs_sem st -> n ∈ inode_list st ->
  ref_count (sins st n) = 0 -> reclaim_count (sins st n) = 1 -> open_count (sins st n) = 0 ->
  nlinks (dino st n) <> 0 -> 0 < sem (sins st n) -> inuse st (ino (sins st n)) ->
  exists st', sfs_reclaim n st = Done (0, st') /\ dropped st n st'.
Proof.
  intros Hwf Hc Hsem Hn Hr Hrc Ho Hl Hs Hin. set (s0 := set_fs_sem (fs_sem st - 1) st).
  set (s1 := on_sin n (set_reclaim (reclaim_count (sins s0 n) - 1)) s0).
  assert (Hwf1 : fs_wf s1) by (by apply fs_wf_sins, fs_wf_fs_sem).
  assert (Hs1 : sins s1 n = set_reclaim (reclaim_count (sins st n) - 1) (sins st n)) by apply upd_eq.
  destruct (sfs_fsync_flushes s1 n Hwf1) as (s2 & Hfsync & Hf); [by rewrite Hs1|by rewrite Hs1|].
  assert (Hn2 : sins s2 n = set_dirty false (sins s1 n)) by apply (fl_sin _ _ _ Hf).
  assert (Hc2 : cache_ok s2).
  { apply (cache_ok_ext st); [done| | |]; try apply (fl_lists _ _ _ Hf). intros k Hk.
    destruct (decide (k = n)) as [->|Hne]; [by rewrite Hn2, Hs1|].
    rewrite (fl_others _ _ _ Hf k Hne). cbn. by rewrite upd_ne. }
  assert (Hl2 : inode_list s2 = inode_list st) by (by rewrite (proj1 (fl_lists _ _ _ Hf))).
  destruct (sfs_remove_links n s2) as [[[] s3]| |] eqn:Hrm; try done.
  destruct (cache_ok_remove s2 n Hc2 ltac:(by rewrite Hl2) s3 Hrm) as (Hc3 & Hl3 & Hsin3).
  assert (Hs3 : s3 = set_lists (inode_list s3) (hash_list s3) s2)
    by (unfold sfs_remove_links, modify in Hrm; by injection Hrm as <-).
  assert (Hfs3 : fs_sem s3 = fs_sem st - 1).
  { rewrite Hs3. cbn. by rewrite (proj1 (fl_sems _ _ _ Hf)). }
  exists (set_fs_sem (fs_sem s3 + 1) s3). split.
  - unfold sfs_reclaim. mstep (lock_fs_run st Hsem). fold s0.
    mstep (eq_refl : get_sin n s0 = Done (sins s0 n, s0)). change (sins s0 n) with (sins st n).
    rewrite Hr, Hrc, (bind_Done _ _ _ _ _ (assert_true true s0 eq_refl)).
    assert (Hm : mod_sin n (set_reclaim (1 - 1)) s0 = Done (tt, s1))
      by (unfold s1; change (sins s0 n) with (sins st n); by rewrite Hrc).
    mstep Hm. change (negb (1 - 1 =? 0) || negb (0 =? 0)) with false. cbv iota. change (din (sins st n)) with (dino st n).
    rewrite (proj2 (Z.eqb_neq _ _) Hl). cbv iota. rewrite ret_bind. cbn [Z.eqb negb].
    mstep (eq_refl : get_sin n s1 = Done (sins s1 n, s1)).
    assert (Hsync : (if dirty (sins s1 n) then vop_fsync n else mret 0) s1 = Done (0, s2)).
    { destruct (dirty (sins s1 n)) eqn:Hd.
      - unfold vop_fsync. rewrite (bind_Done _ _ _ _ _ (inode_check_run s1 n ltac:(rewrite Hs1; cbn; lia)
          ltac:(rewrite Hs1; unfold MAX_INODE_COUNT; cbn; lia))). done.
      - unfold sfs_fsync in Hfsync. revert Hfsync.
        mstep (eq_refl : get_sin n s1 = Done (sins s1 n, s1)). by rewrite Hd. }
    mstep Hsync. cbn [Z.eqb negb]. mstep Hrm. set (s4 := set_fs_sem (fs_sem s3 + 1) s3).
    mstep (eq_refl : unlock_sfs_fs s3 = Done (tt, s4)).
    assert (Hs4 : sins s4 n = set_dirty false (sins s1 n)) by (change (sins s4 n) with (sins s3 n); by rewrite Hsin3).
    unfold reclaim_blocks. mstep (eq_refl : get_sin n s4 = Done (sins s4 n, s4)). rewrite Hs4, Hs1.
    cbn [din set_dirty set_reclaim]. change (din (sins st n)) with (dino st n).
    rewrite (proj2 (Z.eqb_neq _ _) Hl). cbv iota. rewrite ret_bind. unfold inode_kill.
    assert (Hk : (i ← get_sin n; assert (ref_count i =? 0) ;; assert (open_count i =? 0)) s4 = Done (tt, s4)).
    { mstep (eq_refl : get_sin n s4 = Done (sins s4 n, s4)). rewrite Hs4, Hs1.
      cbn [ref_count open_count set_dirty set_reclaim]. by rewrite Hr, Ho. }
    mstep Hk. done.
  - split.
    + rewrite Hs3. apply fs_wf_fs_sem, fs_wf_lists, (fl_wf _ _ _ Hf).
    + by apply (cache_ok_ext s3).
    + cbn. by rewrite Hl3, Hl2.
    + intros k Hk. cbn. rewrite Hsin3, (fl_others _ _ _ Hf k Hk). cbn. by rewrite upd_ne.
    + cbn. rewrite Hs3. cbn. destruct (fl_super _ _ _ Hf) as (-> & -> & _). split_and!; [done..|].
      rewrite Hs3 in Hfs3. cbn in Hfs3. lia.
    + intros a. change (img (set_fs_sem _ s3) a) with (img s3 a). rewrite Hs3.
      change (img (set_lists _ _ s2) a) with (img s2 a). rewrite (fl_img _ _ _ Hf). unfold dino.
      by rewrite Hs1.
Qed.

(** Dropping the last reference of an inode that is not open writes it
    back if it was modified and takes it out of the cache; the cache stays
    well formed and no other inode, and no other byte, changes. *)
Theorem inode_ref_dec_evicts st n :
  fs_wf st -> cache_ok st -> 0 < fs_sem st -> last_use st n ->
  exists st', inode_ref_dec n st = Done (0, st') /\ dropped st n st'.
Proof.
  intros Hwf Hc Hsem [Hin (Hr & Hrc & Ho) Hl Hs Hb].
  set (s1 := on_sin n (set_ref (ref_count (sins st n) - 1)) st).
  assert (Hs1 : sins s1 n = set_ref (ref_count (sins st n) - 1) (sins st n)) by apply upd_eq.
  destruct (sfs_reclaim_last s1 n) as (st' & Hrun & Hd); try (rewrite Hs1; cbn; lia || done); try done.
  { by apply fs_wf_sins. }
  { apply (cache_ok_ext st); [done..|]. intros k Hk. cbn. destruct (decide (k = n)) as [->|];
      [by rewrite upd_eq|by rewrite upd_ne]. }
  { unfold dino. by rewrite Hs1. }
  exists st'. split.
  - unfold inode_ref_dec. mstep (eq_refl : get_sin n st = Done (sins st n, st)).
    assert (H1 : 0 <? ref_count (sins st n) = true) by (apply Z.ltb_lt; lia).
    mstep (assert_true _ st H1). mstep (eq_refl : mod_sin n (set_ref (ref_count (sins st n) - 1)) st = Done (tt, s1)).
    rewrite Hr. cbn [Z.sub Z.add Z.opp Z.pos_sub Z.eqb].
    assert (Hin2 : (inode_check n ;; _ ← sfs_reclaim n; mret tt) s1 = Done (tt, st')).
    { rewrite (bind_Done _ _ _ _ _ (inode_check_run s1 n ltac:(rewrite Hs1; cbn; lia)
          ltac:(rewrite Hs1; unfold MAX_INODE_COUNT; cbn; lia))). by mstep Hrun. }
    by mstep Hin2.
  - destruct Hd as [? ? ? Hoth ? Himg]. split; try done.
    + intros k Hk. rewrite Hoth by done. cbn. by rewrite upd_ne.
    + intros a. rewrite Himg. unfold dino. by rewrite Hs1.
Qed.

End cache.

(** ** Witnesses: a directory with an empty slot and a file called "ab" *)
Definition sample_dir : sfs_disk_inode :=
  mkDin 512 SFS_TYPE_DIR 1 2 (fun i => if i =? 0 then 4 else if i =? 1 then 5 else 0) 0.
Definition sample_leaf : sfs_disk_inode := mkDin 0 SFS_TYPE_FILE 1 0 (fun _ => 0) 0.
Definition sample_image : mem :=
  let m := copy (fun _ => 0) 4096 (put_din (fun _ => 0) sample_leaf) 0 64 in
  upd (upd (put32 m (5 * 4096) 1) (5 * 4096 + 4) 97) (5 * 4096 + 5) 98.
Definition sample_cache : sfs_fs disks :=
  mkSfs (mkSuper SFS_MAGIC 16 10 (fun _ => 0))
    (mkDisks (fun _ => mkIde 1 128 sample_image) (fun _ => 0) 1 16 4096)
    (mkBitmap 32 1 (fun a => if a =? 0 then 0xC0 else if a =? 1 then 0xFF else 0))
    false (fun _ => 0) 1 1 1 (fun _ => mkSin sample_dir 3 true 1 1 1 0) [7]
    (fun h => if h =? sin_hashfn 3 then [7] else []).

Lemma sample_cache_wf : fs_wf sample_cache.
Proof.
  split; try done.
  - split; try done; cbn; try lia. intros a. cbn. destruct (a =? 0); [lia|]. destruct (a =? 1); lia.
  - cbn. intros i Hi. apply negb_true_iff.
    apply (forall_range (fun i => negb (bit (freemap sample_cache) i)) 16 16); [done|lia].
Qed.

Lemma sample_cache_ok : cache_ok sample_cache.
Proof.
  split; cbn -[sin_hashfn].
  - repeat constructor. by intros ?%elem_of_nil.
  - intros n h. rewrite list_elem_of_singleton. destruct (Z.eqb_spec h (sin_hashfn 3)).
    + rewrite list_elem_of_singleton. naive_solver.
    + rewrite elem_of_nil. naive_solver.
  - intros n m ->%list_elem_of_singleton ->%list_elem_of_singleton. done.
Qed.

Lemma sample_dir_ok : dir_ok sample_cache 7.
Proof.
  split; [|done]. unfold fmap, max_blocks. split; cbn.
  - unfold max_blocks. lia.
  - intros i Hi. unfold fmap. cbn. destruct (Z.ltb_spec i 12); [|lia].
    destruct (Z.eqb_spec i 0); [split; cbn; [lia|done]|]. destruct (Z.eqb_spec i 1); [|lia].
    split; cbn; [lia|done].
  - unfold max_blocks, fmap. cbn. intros i Hi. destruct (Z.ltb_spec i 12); [|done].
    destruct (Z.eqb_spec i 0); [lia|]. destruct (Z.eqb_spec i 1); [lia|done].
  - intros i j Hi Hj. unfold fmap. cbn. destruct (Z.ltb_spec i 12); [|lia].
    destruct (Z.ltb_spec j 12); [|lia].
    destruct (Z.eqb_spec i 0), (Z.eqb_spec i 1), (Z.eqb_spec j 0), (Z.eqb_spec j 1); lia.
  - done.
Qed.

Lemma sfs_dirent_search_witness :
  exists st' r, sfs_dirent_search_nolock true 7 [97; 98] sample_cache = Done (r, st') /\
    disk_upd sample_cache st' (img sample_cache) /\
    search_result sample_cache 7 [97; 98] 0 2 2 r.
Proof.
  apply (sfs_dirent_search_finds sample_cache 7 [97; 98] sample_cache_wf sample_dir_ok).
  unfold SFS_MAX_FNAME_LEN, FS_MAX_FNAME_LEN. cbn. lia.
Defined.

Lemma sfs_load_inode_witness :
  exists n st', sfs_load_inode (mkKalloc true (Some 8)) 1 sample_cache = Done ((0, Some n), st') /\
    loaded sample_cache (mkKalloc true (Some 8)) 1 n st' /\ fs_sem st' = fs_sem sample_cache.
Proof.
  apply (sfs_load_inode_unique sample_cache 1 8 sample_cache_wf sample_cache_ok); [cbn; lia| |].
  - split; [split; [cbn; lia|done]|]. split; [by vm_compute|right; by vm_compute].
  - cbn. by rewrite list_elem_of_singleton.
Defined.

Lemma sfs_fsync_witness :
  exists st', sfs_fsync 7 sample_cache = Done (0, st') /\ flushed sample_cache 7 st' /\
    disk_din st' 3 ≡ dino sample_cache 7.
Proof.
  apply (sfs_fsync_roundtrip sample_cache 7 sample_cache_wf);
    [cbn; lia|split; [cbn; lia|done]|done|].
  split; cbn; unfold SFS_TYPE_DIR; try lia. intros i _. destruct (i =? 0); [lia|]. destruct (i =? 1); lia.
Defined.

Lemma inode_ref_dec_witness :
  exists st', inode_ref_dec 7 sample_cache = Done (0, st') /\ dropped sample_cache 7 st'.
Proof.
  apply (inode_ref_dec_evicts sample_cache 7 sample_cache_wf sample_cache_ok); [cbn; lia|].
  split; [by apply list_elem_of_singleton|done|done|cbn; lia|split; [cbn; lia|done]].
Defined.
