(* ===== verification/SfsFs.v ===== *)
(** * The simple file system: mounting, syncing, unmounting

    kern/fs/sfs/sfs_fs.c over any [BlockDevice].  What [kmalloc] returns is an
    argument; the messages printed are left out. *)
From S2P Require Import Prelude Libs Mem Disk Bitmap SfsIo SfsInode SfsDir.

(** Results of the allocations of [sfs_do_mount], with the former contents of
    the memory they return. *)
Record mount_alloc := mkMountAlloc {
  ma_fs : bool; ma_buffer : option mem; ma_hash : bool; ma_desc : bool; ma_words : option mem;
  ma_sins : Z -> sfs_inode }.    (* the heap where inodes will live *)

Section sfs_fs_ops.
  Context {D : Type} `{BlockDevice D}.

(** [vop_fsync] of the inodes of the list, whatever it returns. *)
Fixpoint sync_inodes (l : list Z) : ST (sfs_fs D) unit :=
  match l with
  | [] => mret tt
  | n :: l' => vop_fsync n ;; sync_inodes l'
  end.

Definition sfs_sync : ST (sfs_fs D) Z :=
  lock_sfs_fs ;;
  l ← get (fun s => inode_list s);
  sync_inodes l ;;
  unlock_sfs_fs ;;
  b ← get (fun s : sfs_fs D => super_dirty s);
  if (b : bool) then
    modify (set_super_dirty false) ;;
    ret ← sfs_sync_super;
    if negb (ret =? 0) then modify (set_super_dirty true) ;; mret ret
    else
      ret ← sfs_sync_freemap;
      if negb (ret =? 0) then modify (set_super_dirty true) ;; mret ret
      else mret 0
  else mret 0.

Definition sfs_get_root (al : kalloc) : ST (sfs_fs D) Z :=
  '(ret, node) ← sfs_load_inode al SFS_BLKN_ROOT;
  match node with
  | Some n => if negb (ret =? 0) then panic else mret n
  | None => panic
  end.

Definition sfs_unmount : ST (sfs_fs D) Z :=
  l ← get (fun s : sfs_fs D => inode_list s);
  match (l : list Z) with
  | _ :: _ => mret (- E_BUSY)
  | [] =>
      b ← get (fun s : sfs_fs D => super_dirty s);
      assert (negb b) ;;
      mret 0
  end.

(** At most 32 attempts; the code of the last one. *)
Fixpoint cleanup_loop (k : nat) (ret : Z) : ST (sfs_fs D) Z :=
  match k with
  | O => mret ret
  | S k' =>
      ret ← sfs_sync;
      if ret =? 0 then mret ret else cleanup_loop k' ret
  end.
Definition sfs_cleanup : ST (sfs_fs D) Z := cleanup_loop 32 0.

Definition sfs_init_read (blkno : Z) (buf : mem) (base : Z) : ST D (Z * mem) :=
  '(ret, iob) ← dop_io (iobuf_init buf base SFS_BLKSIZE (u32 (blkno * SFS_BLKSIZE))) false;
  mret (ret, io_mem iob).

Fixpoint freemap_loop (nblks : nat) (blkno : Z) (data : mem) (base : Z) : ST D (Z * mem) :=
  match nblks with
  | O => mret (0, data)
  | S nblks' =>
      '(ret, data) ← sfs_init_read blkno data base;
      if negb (ret =? 0) then mret (ret, data)
      else freemap_loop nblks' (u32 (blkno + 1)) data (base + SFS_BLKSIZE)
  end.

Definition sfs_init_freemap (bm : bitmap) (blkno nblks : Z) : ST D (Z * bitmap) :=
  let '(data, len) := bitmap_getdata bm in
  assert (len =? u32 (nblks * SFS_BLKSIZE)) ;;
  '(ret, data) ← freemap_loop (Z.to_nat nblks) blkno data 0;
  mret (ret, mkBitmap (nbits bm) (nwords bm) data).

(** Bits [i], [i+1], ... ([k] of them). *)
Fixpoint count_unused (k : nat) (i unused : Z) : ST bitmap Z :=
  match k with
  | O => mret unused
  | S k' =>
      b ← bitmap_test i;
      count_unused k' (i + 1) (if (b : bool) then u32 (unused + 1) else unused)
  end.

(** The superblock in [sfs_buffer], its text terminated. *)
Definition read_super (buf : mem) : sfs_super :=
  let sb := get_super buf in
  mkSuper (magic sb) (blocks sb) (unused_blocks sb) (upd (info sb) SFS_MAX_INFO_LEN 0).

(** From the allocation of the bitmap on. *)
Definition mount_freemap (al : mount_alloc) (buf : mem) (sb : sfs_super) : ST D (Z * option (sfs_fs D)) :=
  let nb := sfs_freemap_bits sb in
  match bitmap_create nb (ma_desc al) (ma_words al) with
  | Done (Some bm) =>
      '(ret, bm) ← sfs_init_freemap bm SFS_BLKN_FREEMAP (sfs_freemap_blocks sb);
      if negb (ret =? 0) then mret (ret, None)
      else
        '(unused, bm) ← on_local bm (count_unused (Z.to_nat nb) 0 0);
        assert (unused =? unused_blocks sb) ;;
        d ← get id;
        mret (0, Some (mkSfs sb d bm false buf 1 1 1 (ma_sins al) [] (fun _ => [])))
  | Done None => mret (- E_NO_MEM, None)
  | Panicked => panic
  | NoFuel => no_fuel
  end.

Definition sfs_do_mount (al : mount_alloc) : ST D (Z * option (sfs_fs D)) :=
  bs ← get dev_blocksize;
  if negb (bs =? SFS_BLKSIZE) then mret (- E_NA_DEV, None)
  else if negb (ma_fs al) then mret (- E_NO_MEM, None)
  else
    match ma_buffer al with
    | None => mret (- E_NO_MEM, None)
    | Some buf =>
        '(ret, buf) ← sfs_init_read SFS_BLKN_SUPER buf 0;
        if negb (ret =? 0) then mret (ret, None)
        else
          nblocks ← get dev_blocks;
          if negb (magic (get_super buf) =? SFS_MAGIC) then mret (- E_INVAL, None)
          else if nblocks <? blocks (get_super buf) then mret (- E_INVAL, None)
          else if negb (ma_hash al) then mret (- E_NO_MEM, None)
          else mount_freemap al (upd buf (12 + SFS_MAX_INFO_LEN) 0) (read_super buf)
    end.
End sfs_fs_ops.
