(* ===== verification/SfsFsSpec.v ===== *)
(** * The simple file system: mounting and syncing, specified

    Mounting a well-formed image gives a well-formed file system in memory;
    what [sfs_sync] writes is an image that mounts to the same superblock and
    free map. *)
From S2P Require Import Prelude Libs Mem Disk Bitmap SfsIo SfsInode SfsAlloc SfsMap SfsFile.
From S2P Require Import SfsDir SfsDirSpec SfsCache SfsFs.

(** ** Sizes of the free map *)
Definition map_blocks (n : Z) : Z := (n + 32767) / 32768.

Lemma map_blocks_range n : 0 < n <= 2 ^ 20 -> 1 <= map_blocks n <= 32 /\ n <= 32768 * map_blocks n.
Proof.
  intros Hn. unfold map_blocks. pose proof (Z.div_mod (n + 32767) 32768 ltac:(lia)).
  pose proof (Z.mod_pos_bound (n + 32767) 32768 ltac:(lia)). lia.
Qed.

Lemma freemap_sizes sb :
  0 < blocks sb <= 2 ^ 20 ->
  sfs_freemap_bits sb = 32768 * map_blocks (blocks sb) /\ sfs_freemap_blocks sb = map_blocks (blocks sb).
Proof.
  intros Hn. destruct (map_blocks_range _ Hn) as [Hq _].
  unfold sfs_freemap_bits, sfs_freemap_blocks, ROUNDUP, ROUNDUP_DIV, ROUNDDOWN.
  change SFS_BLKBITS with 32768. rewrite u64_small by lia. unfold map_blocks in *.
  replace (blocks sb + 32768 - 1) with (blocks sb + 32767) by lia.
  pose proof (Z.div_mod (blocks sb + 32767) 32768 ltac:(lia)).
  split; rewrite u32_small; lia.
Qed.

(** ** The file system on disk *)
Definition disk_freemap (m : mem) : bitmap :=
  let q := map_blocks (get32 m 4) in mkBitmap (32768 * q) (1024 * q) (fun a => m (8192 + a)).

(** A mountable image on a device of [n] blocks: the free map fits on it,
    counts right, and marks block 0 and all beyond the end as used. *)
Record image_ok (m : mem) (n : Z) : Prop := mkImageOk {
  im_magic : get32 m 0 = SFS_MAGIC;
  im_blocks : 0 < get32 m 4 <= n;
  im_fits : 2 + map_blocks (get32 m 4) <= n;
  im_bytes : bytes_ok m;
  im_count : get32 m 8 = count_free (disk_freemap m) (Z.to_nat (nbits (disk_freemap m)));
  im_bit0 : bit (disk_freemap m) 0 = false;
  im_outside i : get32 m 4 <= i < nbits (disk_freemap m) -> bit (disk_freemap m) i = false }.

Lemma bit_ext bm bm' i :
  0 <= i -> (forall a, 4 * (i / 32) <= a < 4 * (i / 32) + 4 -> map bm a = map bm' a) ->
  bit bm i = bit bm' i.
Proof.
  intros Hi Hm. unfold bit, word. f_equal. apply le_get_ext. intros k Hk. apply Hm. lia.
Qed.

Lemma count_free_ext bm bm' k :
  (forall i, 0 <= i < Z.of_nat k -> bit bm i = bit bm' i) -> count_free bm k = count_free bm' k.
Proof.
  induction k as [|k IH]; intros Hb; [done|]. cbn [count_free]. rewrite Hb, IH by (intros; try apply Hb; lia).
  done.
Qed.

Lemma count_unused_spec bm k : forall i,
  0 <= i -> i + Z.of_nat k <= nbits bm -> nbits bm < 2 ^ 32 ->
  count_unused k i (count_free bm (Z.to_nat i)) bm = Done (count_free bm (Z.to_nat i + k)%nat, bm).
Proof.
  induction k as [|k IH]; intros i Hi Hk Hn.
  - by rewrite Nat.add_0_r.
  - cbn [count_unused]. rewrite (bind_Done _ _ _ _ _ (bitmap_test_spec bm i ltac:(lia))).
    pose proof (count_free_le bm (Z.to_nat i)). pose proof (count_free_nonneg bm (Z.to_nat i)).
    replace (if bit bm i then u32 (count_free bm (Z.to_nat i) + 1) else count_free bm (Z.to_nat i))
      with (count_free bm (Z.to_nat (i + 1))).
    + rewrite IH by lia. do 3 f_equal. lia.
    + replace (Z.to_nat (i + 1)) with (S (Z.to_nat i)) by lia. cbn [count_free].
      rewrite Z2Nat.id by lia. destruct (bit bm i); [rewrite u32_small by lia|]; lia.
Qed.

(** A bitmap of whole words is all set; nothing is cleared. *)
Lemma bitmap_create_words q m :
  1 <= q <= 32 ->
  bitmap_create (32768 * q) true (Some m)
  = Done (Some (mkBitmap (32768 * q) (1024 * q) (fill m 0 (4 * (1024 * q)) 0xFF))).
Proof.
  intros Hq. unfold bitmap_create, WORD_BITS, ROUNDUP_DIV.
  rewrite !u64_small by lia.
  assert (Hw : (32768 * q + 32 - 1) / 32 = 1024 * q).
  { symmetry. apply Z.div_unique with 31; lia. }
  rewrite Hw. rewrite u32_small by lia.
  destruct (Z.eqb_spec (32768 * q) 0); [lia|]. destruct (Z.ltb_spec (32768 * q) (32768 * q + 32)); [|lia].
  cbn [negb andb]. destruct (Z.eqb_spec (32768 * q) (1024 * q * 32)); [done|lia].
Qed.

Section mount.
  Context {D : Type} `{BlockDevice D}.
  Implicit Types (st : sfs_fs D) (d : D).

(** The device does its work and its bytes are the same. *)
Definition same_bytes d d' : Prop :=
  dev_ok d' /\ dev_blocks d' = dev_blocks d /\ forall a, dev_byte d' a = dev_byte d a.

Lemma same_bytes_trans d1 d2 d3 : same_bytes d1 d2 -> same_bytes d2 d3 -> same_bytes d1 d3.
Proof.
  intros (_ & Hb & Hm) (Hok & Hb' & Hm'). split; [done|]. split; [congruence|]. intros a. by rewrite Hm'.
Qed.

Lemma sfs_init_read_spec d b buf base :
  dev_ok d -> 0 <= b < dev_blocks d ->
  exists d' m, sfs_init_read b buf base d = Done ((0, m), d') /\ same_bytes d d' /\
    forall a, m a = copy buf base (dev_byte d) (b * 4096) 4096 a.
Proof.
  intros Hd Hb. pose proof (dev_blocks_bound _ Hd).
  unfold sfs_init_read. change (b * SFS_BLKSIZE) with (b * 4096). rewrite u32_small by lia.
  set (iob := iobuf_init buf base SFS_BLKSIZE (b * 4096)).
  destruct (dop_io_moves d iob false b 1 Hd) as (d' & iob' & Hrun & Hd' & Hbl & Hm).
  { split_and!; cbn; lia || done. }
  { lia. }
  destruct Hm as (_ & _ & _ & _ & Hm1 & Hm2).
  exists d', (io_mem iob'). split; [by mstep Hrun|]. split; [done|exact Hm2].
Qed.

Lemma freemap_loop_spec k : forall d b data base,
  dev_ok d -> 0 <= b -> b + Z.of_nat k <= dev_blocks d ->
  exists d' m, freemap_loop k b data base d = Done ((0, m), d') /\ same_bytes d d' /\
    forall a, m a = copy data base (dev_byte d) (b * 4096) (Z.of_nat k * 4096) a.
Proof.
  induction k as [|k IH]; intros d b data base Hd Hb Hk.
  { exists d, data. split; [done|]. split; [by split|]. intros a. by rewrite copy_out by lia. }
  pose proof (dev_blocks_bound _ Hd).
  destruct (sfs_init_read_spec d b data base Hd ltac:(lia)) as (d1 & m1 & Hrun & Hs1 & Hm1).
  pose proof Hs1 as (Hd1 & Hb1 & Hby1).
  destruct (IH d1 (b + 1) m1 (base + 4096) Hd1 ltac:(lia) ltac:(lia)) as (d2 & m2 & Hrun2 & Hs2 & Hm2).
  exists d2, m2. split; [|split; [by eapply same_bytes_trans|]].
  - cbn [freemap_loop]. mstep Hrun. cbn [Z.eqb negb]. rewrite u32_small by lia. exact Hrun2.
  - intros a. rewrite Hm2. destruct (decide (base <= a < base + Z.of_nat (S k) * 4096)).
    + destruct (decide (a < base + 4096)).
      * rewrite copy_out, Hm1, !copy_in by lia. done.
      * rewrite !copy_in by lia. rewrite Hby1. f_equal. lia.
    + rewrite !copy_out by lia. rewrite Hm1. by rewrite copy_out by lia.
Qed.

(** [st] is the file system that the image [m] describes. *)
Record mounted (m : mem) st : Prop := mkMounted {
  mt_wf : fs_wf st;
  mt_cache : cache_ok st;
  mt_empty : inode_list st = [] /\ super_dirty st = false;
  mt_super : magic (super st) = get32 m 0 /\ blocks (super st) = get32 m 4 /\
             unused_blocks (super st) = get32 m 8 /\
             (forall i, 0 <= i < 31 -> info (super st) i = m (12 + i)) /\ info (super st) 31 = 0;
  mt_map : nbits (freemap st) = nbits (disk_freemap m) /\
           forall i, 0 <= i < nbits (freemap st) -> bit (freemap st) i = bit (disk_freemap m) i;
  mt_img a : img st a = m a;
  mt_sem : fs_sem st = 1 }.

Lemma sfs_init_freemap_spec d q bm :
  dev_ok d -> 1 <= q <= 32 -> 2 + q <= dev_blocks d -> nwords bm = 1024 * q ->
  exists d' m, sfs_init_freemap bm 2 q d = Done ((0, mkBitmap (nbits bm) (nwords bm) m), d') /\
    same_bytes d d' /\ forall a, m a = copy (map bm) 0 (dev_byte d) 8192 (q * 4096) a.
Proof.
  intros Hd Hq Hfit Hw. destruct (freemap_loop_spec (Z.to_nat q) d 2 (map bm) 0 Hd) as (d' & m & Hrun & Hs & Hm);
    [lia|lia|].
  exists d', m. split; [|split; [done|]].
  - unfold sfs_init_freemap, bitmap_getdata. rewrite Hw. change (q * SFS_BLKSIZE) with (q * 4096).
    rewrite u32_small by lia. destruct (Z.eqb_spec (4 * (1024 * q)) (q * 4096)); [|lia].
    mstep (assert_true true d eq_refl). by mstep Hrun.
  - intros a. rewrite Hm. by rewrite Z2Nat.id by lia.
Qed.

Lemma mount_freemap_spec d m sb al buf w :
  dev_ok d -> image_ok m (dev_blocks d) -> (forall a, dev_byte d a = m a) ->
  ma_desc al = true -> ma_words al = Some w -> bytes_ok w ->
  magic sb = get32 m 0 -> blocks sb = get32 m 4 -> unused_blocks sb = get32 m 8 ->
  (forall i, 0 <= i < 31 -> info sb i = m (12 + i)) -> info sb 31 = 0 ->
  exists st d', mount_freemap al buf sb d = Done ((0, Some st), d') /\ mounted m st /\ d' = dev st.
Proof.
  intros Hd [Hmag Hbl Hfit Hby Hcnt Hb0 Hout] Himg Hdesc Hw Hwok Hsm Hsb Hsu Hsi Hs31.
  pose proof (dev_blocks_bound _ Hd) as Hbound.
  assert (HB : 0 < blocks sb <= 2 ^ 20) by lia. destruct (freemap_sizes sb HB) as [Hbits Hblks].
  rewrite Hsb in Hbits, Hblks, HB. destruct (map_blocks_range _ HB) as [Hq Hcover].
  set (q := map_blocks (get32 m 4)) in *.
  assert (Hnb : nbits (disk_freemap m) = 32768 * q) by done.
  set (bm0 := mkBitmap (32768 * q) (1024 * q) (fill w 0 (4 * (1024 * q)) 0xFF)).
  destruct (sfs_init_freemap_spec d q bm0 Hd Hq Hfit eq_refl) as (d' & mm & Hrun & (Hd' & Hdb & Hdi) & Hmm).
  set (bm := mkBitmap (32768 * q) (1024 * q) mm).
  assert (Hbit : forall i, 0 <= i < 32768 * q -> bit bm i = bit (disk_freemap m) i).
  { intros i Hi. apply bit_ext; [lia|]. intros a Ha. cbn. pose proof (Z.div_mod i 32 ltac:(lia)).
    pose proof (Z.mod_pos_bound i 32 ltac:(lia)). rewrite Hmm, copy_in, Himg by lia. f_equal. lia. }
  assert (Hok : bitmap_ok bm).
  { split; cbn.
    - intros a. rewrite Hmm. apply copy_ok; [cbn; apply fill_ok; [done|lia]|]. intros x. rewrite Himg. apply Hby.
    - apply Z.div_unique with 31; lia.
    - lia.
    - intros i Hi. lia. }
  assert (Hc : count_free bm (Z.to_nat (32768 * q)) = get32 m 8).
  { rewrite Hcnt. rewrite Hnb. apply count_free_ext. intros i Hi. apply Hbit. lia. }
  pose proof (count_unused_spec bm (Z.to_nat (32768 * q)) 0 ltac:(lia) ltac:(cbn; lia) ltac:(cbn; lia)) as Hcu.
  change (Z.to_nat 0 + Z.to_nat (32768 * q))%nat with (Z.to_nat (32768 * q)) in Hcu.
  change (count_free bm (Z.to_nat 0)) with 0 in Hcu. rewrite Hc in Hcu.
  set (st := mkSfs sb d' bm false buf 1 1 1 (ma_sins al) [] (fun _ => [])).
  exists st, d'. split; [|split; [|done]].
  - unfold mount_freemap. rewrite Hbits, Hblks, Hdesc, Hw, bitmap_create_words by done.
    fold bm0. mstep Hrun. cbn [Z.eqb negb]. change (mkBitmap (nbits bm0) (nwords bm0) mm) with bm.
    assert (Hl : on_local bm (count_unused (Z.to_nat (32768 * q)) 0 0) d' = Done ((get32 m 8, bm), d')).
    { unfold on_local. by rewrite Hcu. }
    mstep Hl. rewrite Hsu, Z.eqb_refl, (bind_Done _ _ _ _ _ (assert_true true d' eq_refl)). done.
  - split.
    + split.
      * split; [split; [done|cbn; lia]|cbn; lia].
      * done.
      * cbn. lia.
      * cbn. rewrite Hbit by lia. done.
      * cbn. intros i Hi. rewrite Hbit by lia. apply Hout. rewrite Hnb. lia.
      * cbn. rewrite Hsu. done.
    + split; cbn; [constructor| |by intros n m' ?%elem_of_nil].
      intros n h. by split; [intros ?%elem_of_nil|intros [?%elem_of_nil _]].
    + done.
    + cbn. done.
    + cbn. split; [done|]. intros i Hi. by apply Hbit.
    + intros a. cbn. by rewrite <- Himg, <- Hdi.
    + done.
Qed.

Lemma get32_ext m m' a b :
  (forall k, 0 <= k < 4 -> m (a + k) = m' (b + k)) -> get32 m a = get32 m' b.
Proof. intros Hm. by apply le_get_shift. Qed.

Lemma sfs_do_mount_correct d m al buf w :
  dev_ok d -> image_ok m (dev_blocks d) -> (forall a, dev_byte d a = m a) ->
  ma_fs al = true -> ma_buffer al = Some buf -> ma_hash al = true -> ma_desc al = true ->
  ma_words al = Some w -> bytes_ok w ->
  exists st, sfs_do_mount al d = Done ((0, Some st), dev st) /\ mounted m st.
Proof.
  intros Hd Him Himg Hfs Hbuf Hhash Hdesc Hw Hwok. pose proof (im_blocks _ _ Him) as Hbl.
  destruct (sfs_init_read_spec d 0 buf 0 Hd ltac:(lia)) as (d1 & b1 & Hrun & (Hd1 & Hdb1 & Hdi1) & Hb1).
  assert (Hread : forall a, 0 <= a < 4096 -> b1 a = m a).
  { intros a Ha. rewrite Hb1, copy_in, Himg by lia. f_equal. lia. }
  assert (Hg : forall a, 0 <= a <= 8 -> get32 b1 a = get32 m a).
  { intros a Ha. apply get32_ext. intros k Hk. apply Hread. lia. }
  destruct (mount_freemap_spec d1 m (read_super b1) al (upd b1 43 0) w Hd1)
    as (st & d' & Hmt & Hmo & ->); try done.
  { by rewrite Hdb1. }
  { intros a. by rewrite Hdi1. }
  { cbn -[get32]. by apply Hg. }
  { cbn -[get32]. by apply Hg. }
  { cbn -[get32]. by apply Hg. }
  { intros i Hi. cbn. change SFS_MAX_INFO_LEN with 31. rewrite upd_ne by lia. apply Hread. lia. }
  exists st. split; [|done]. unfold sfs_do_mount.
  mstep (eq_refl : get dev_blocksize d = Done (dev_blocksize d, d)). rewrite (dev_blocksize_ok _ Hd).
  change (negb (4096 =? SFS_BLKSIZE)) with false. cbv iota. rewrite Hfs. cbn [negb]. rewrite Hbuf.
  change SFS_BLKN_SUPER with 0. mstep Hrun. change (negb (0 =? 0)) with false. cbv iota.
  mstep (eq_refl : get dev_blocks d1 = Done (dev_blocks d1, d1)).
  change (magic (get_super b1)) with (get32 b1 0). rewrite Hg, (im_magic _ _ Him) by lia.
  rewrite Z.eqb_refl. cbn [negb]. change (blocks (get_super b1)) with (get32 b1 4). rewrite Hg by lia.
  destruct (Z.ltb_spec (dev_blocks d1) (get32 m 4)); [lia|]. rewrite Hhash. cbn [negb]. exact Hmt.
Qed.

(** Mounting a device that holds a well-formed image succeeds, leaves the
    device's bytes alone and gives a file system whose superblock and free map
    are those of the image, with an empty inode cache, in which the allocator's
    and the cache's invariants hold. *)
Theorem sfs_do_mount_establishes d al buf w :
  dev_ok d -> image_ok (dev_byte d) (dev_blocks d) ->
  ma_fs al = true -> ma_buffer al = Some buf -> ma_hash al = true -> ma_desc al = true ->
  ma_words al = Some w -> bytes_ok w ->
  exists st, sfs_do_mount al d = Done ((0, Some st), dev st) /\ mounted (dev_byte d) st.
Proof. intros. by eapply sfs_do_mount_correct. Qed.

(** ** Syncing *)
Definition syncable st (n : Z) : Prop :=
  0 < sem (sins st n) /\ inuse st (ino (sins st n)) /\
  0 <= open_count (sins st n) <= ref_count (sins st n) /\ ref_count (sins st n) < MAX_INODE_COUNT.

(** What syncing the inodes keeps. *)
Definition sync_frame st st' : Prop :=
  fs_wf st' /\ super st' = super st /\ freemap st' = freemap st /\ super_dirty st' = super_dirty st /\
  inode_list st' = inode_list st /\ fs_sem st' = fs_sem st /\ (bytes_ok (img st) -> bytes_ok (img st')).

Lemma put_words_ok k : forall m a f i, bytes_ok m -> bytes_ok (put_words m a f i k).
Proof. induction k as [|k IH]; intros m a f i Hm; [done|]. cbn [put_words].
  apply IH. by apply (le_put_ok 4).
Qed.

Lemma put_din_ok m (i : sfs_disk_inode) : bytes_ok m -> bytes_ok (put_din m i).
Proof. intros Hm. unfold put_din, put32, put16. 
  apply (le_put_ok 4), put_words_ok, (le_put_ok 4), (le_put_ok 2), (le_put_ok 2), (le_put_ok 4), Hm.
Qed.

Lemma flushed_frame st n st' : flushed st n st' -> sync_frame st st'.
Proof.
  intros [Hwf Hn Ho [Hl Hh] (Hs & Hf & Hsd) [Hfs Hio] Hi]. split_and!; try done.
  intros Hb a. rewrite Hi. destruct (dirty (sins st n)); [|done].
  apply copy_ok; [done|]. apply put_din_ok. intros x. lia.
Qed.

Lemma flushed_syncable st n st' k : flushed st n st' -> syncable st k -> syncable st' k.
Proof.
  intros Hf (Hs & Hi & Hc). destruct (fl_super _ _ _ Hf) as (Hsu & Hfm & _).
  assert (Hk : sem (sins st' k) = sem (sins st k) /\ ino (sins st' k) = ino (sins st k) /\
               open_count (sins st' k) = open_count (sins st k) /\
               ref_count (sins st' k) = ref_count (sins st k)).
  { destruct (decide (k = n)) as [->|Hne]; [by rewrite (fl_sin _ _ _ Hf)|by rewrite (fl_others _ _ _ Hf)]. }
  destruct Hk as (Hk1 & Hk2 & Hk3 & Hk4). unfold syncable. rewrite Hk1, Hk2, Hk3, Hk4. split; [done|].
  unfold inuse in *. by rewrite Hsu, Hfm.
Qed.

Lemma sync_inodes_spec l : forall st,
  fs_wf st -> Forall (syncable st) l ->
  exists st', sync_inodes l st = Done (tt, st') /\ sync_frame st st'.
Proof.
  induction l as [|n l IH]; intros st Hwf Hl.
  { exists st. split; [done|]. by split_and!. }
  inversion Hl as [|? ? Hn Hl']; subst. destruct Hn as (Hs & Hi & Ho & Hr).
  destruct (sfs_fsync_flushes st n Hwf Hs Hi) as (s1 & Hrun & Hf).
  destruct (flushed_frame _ _ _ Hf) as (Hwf1 & H1 & H2 & H3 & H4 & H5 & H6).
  destruct (IH s1 Hwf1) as (s2 & Hrun2 & (Hwf2 & G1 & G2 & G3 & G4 & G5 & G6)).
  { eapply Forall_impl; [exact Hl'|]. intros k. by apply (flushed_syncable _ _ _ _ Hf). }
  exists s2. split.
  - cbn [sync_inodes]. unfold vop_fsync.
    assert (Hv : (inode_check n ;; sfs_fsync n) st = Done (0, s1)).
    { by rewrite (bind_Done _ _ _ _ _ (inode_check_run st n Ho Hr)). }
    by mstep Hv.
  - split_and!; try congruence; auto.
Qed.

Lemma sfs_sync_super_spec st :
  fs_ready st -> 0 < blocks (super st) ->
  exists st' b, sfs_sync_super st = Done (0, st') /\
    disk_upd st st' (copy (img st) 0 (put_super (fill b 0 4096 0) (super st)) 0 4096).
Proof.
  intros Hr Hb. set (buf := put_super (fill (sfs_buffer st) 0 SFS_BLKSIZE 0) (super st)).
  set (st1 := set_sfs_buffer buf (set_io_sem (io_sem st - 1) st)).
  destruct (rw_sfs_buffer_write st1 0 false (ready_dev _ Hr)) as (d & m & Hrun & Hd & Hbl & Hm & Hi);
    [cbn; lia|by right|].
  exists (set_sfs_buffer m (set_dev d st)), (sfs_buffer st). split.
  - unfold sfs_sync_super. mstep (lock_io_run st Hr).
    mstep (eq_refl : modify (fun s => set_sfs_buffer (put_super (fill (sfs_buffer s) 0 SFS_BLKSIZE 0) (super s)) s)
             (set_io_sem (io_sem st - 1) st) = Done (tt, st1)).
    change SFS_BLKN_SUPER with 0. mstep Hrun. mrun.
    replace (io_sem st - 1 + 1) with (io_sem st) by lia. by destruct st.
  - exists d, m. split_and!; try done.
Qed.

Lemma rwblock_write_spec k : forall st buf base b,
  fs_dev st -> 0 < b -> b + Z.of_nat k <= blocks (super st) ->
  exists d m, rwblock_loop k buf base b true st = Done ((0, m), set_dev d st) /\ dev_ok d /\
    dev_blocks d = dev_blocks (dev st) /\ (forall a, m a = buf a) /\
    forall a, dev_byte d a = copy (img st) (b * 4096) buf base (Z.of_nat k * 4096) a.
Proof.
  induction k as [|k IH]; intros st buf base b Hdev Hb Hk.
  { exists (dev st), buf. split_and!; try done; [by destruct st|apply Hdev|].
    intros a. by rewrite copy_out by lia. }
  pose proof (dev_blocks_bound _ (proj1 Hdev)) as Hbound.
  assert (Hbl : blocks (super st) <= dev_blocks (dev st)) by apply Hdev.
  destruct (sfs_rwblock_nolock_spec st buf base b true true Hdev) as (d1 & m1 & Hrun & Hd1 & Hb1 & Hm1 & Hi1);
    [lia|left; lia|].
  destruct (IH (set_dev d1 st) m1 (base + SFS_BLKSIZE) (b + 1)) as (d2 & m2 & Hrun2 & Hd2 & Hb2 & Hm2 & Hi2).
  { split; cbn; [done|by rewrite Hb1]. }
  { lia. }
  { cbn. lia. }
  exists d2, m2. split_and!; try done.
  - cbn [rwblock_loop]. mstep Hrun. cbn [Z.eqb]. rewrite u32_small by lia. exact Hrun2.
  - cbn in Hb2. congruence.
  - intros a. by rewrite Hm2, Hm1.
  - intros a. rewrite Hi2. change (img (set_dev d1 st)) with (dev_byte d1). change SFS_BLKSIZE with 4096.
    destruct (decide (b * 4096 <= a < b * 4096 + Z.of_nat (S k) * 4096)).
    + destruct (decide (a < b * 4096 + 4096)).
      * rewrite copy_out, Hi1, !copy_in by lia. done.
      * rewrite !copy_in, Hm1 by lia. f_equal. lia.
    + rewrite !copy_out by lia. rewrite Hi1. by rewrite copy_out by lia.
Qed.

Lemma sfs_sync_freemap_spec st :
  fs_ready st -> 0 < blocks (super st) <= 2 ^ 20 -> 2 + map_blocks (blocks (super st)) <= blocks (super st) ->
  exists st', sfs_sync_freemap st = Done (0, st') /\
    disk_upd st st' (copy (img st) 8192 (map (freemap st)) 0 (map_blocks (blocks (super st)) * 4096)).
Proof.
  intros Hr Hb Hfit. destruct (freemap_sizes _ Hb) as [_ Hblks]. destruct (map_blocks_range _ Hb) as [Hq _].
  set (q := map_blocks (blocks (super st))) in *. set (st0 := set_io_sem (io_sem st - 1) st).
  destruct (rwblock_write_spec (Z.to_nat q) st0 (map (freemap st)) 0 2 (ready_dev _ Hr))
    as (d & m & Hrun & Hd & Hbl & _ & Hi); [lia|cbn; lia|].
  exists (set_dev d st). split.
  - unfold sfs_sync_freemap.
    mstep (eq_refl : get (fun s => sfs_freemap_blocks (super s)) st = Done (sfs_freemap_blocks (super st), st)).
    mstep (eq_refl : get (fun s => fst (bitmap_getdata (freemap s))) st = Done (map (freemap st), st)).
    assert (Hw : sfs_wblock (map (freemap st)) 0 SFS_BLKN_FREEMAP (sfs_freemap_blocks (super st)) st
                 = Done ((0, m), set_dev d st)).
    { unfold sfs_wblock, sfs_rwblock. mstep (lock_io_run st Hr). fold st0. rewrite Hblks.
      change SFS_BLKN_FREEMAP with 2. mstep Hrun. mrun.
      replace (io_sem st - 1 + 1) with (io_sem st) by lia. by destruct st. }
    by mstep Hw.
  - exists d, (sfs_buffer st). split; [by destruct st|]. split; [done|]. split; [done|].
    intros a. rewrite Hi. by rewrite Z2Nat.id by lia.
Qed.

(** ** The image a sync writes *)

(** The superblock says what it must, and the free map fits on the disk. *)
Record layout_ok st : Prop := mkLayoutOk {
  ly_magic : magic (super st) = SFS_MAGIC;
  ly_info i : 0 <= i < 32 -> 0 <= info (super st) i < 256;
  ly_info31 : info (super st) 31 = 0;
  ly_bits : nbits (freemap st) = 32768 * map_blocks (blocks (super st));
  ly_fits : 0 < blocks (super st) /\ 2 + map_blocks (blocks (super st)) <= blocks (super st) }.

Lemma get_put_super m sb :
  0 <= magic sb < 2 ^ 32 -> 0 <= blocks sb < 2 ^ 32 -> 0 <= unused_blocks sb < 2 ^ 32 ->
  get32 (put_super m sb) 0 = magic sb /\ get32 (put_super m sb) 4 = blocks sb /\
  get32 (put_super m sb) 8 = unused_blocks sb /\
  forall i, 0 <= i < 32 -> put_super m sb (12 + i) = info sb i.
Proof.
  intros Hm Hb Hu. unfold put_super.
  assert (Hlow : forall m' a, a <= 8 -> get32 (copy m' 12 (info sb) 0 32) a = get32 m' a).
  { intros m' a Ha. apply le_get_ext. intros k Hk. by rewrite copy_out by lia. }
  rewrite !Hlow by lia. unfold get32, put32. split_and!.
  - rewrite !le_get_put_other by lia. by apply le_get_put.
  - rewrite le_get_put_other by lia. by apply le_get_put.
  - by apply le_get_put.
  - intros i Hi. rewrite copy_in by lia. f_equal. lia.
Qed.

Lemma put_super_ok m sb :
  bytes_ok m -> (forall i, 0 <= i < 32 -> 0 <= info sb i < 256) -> bytes_ok (put_super m sb).
Proof.
  intros Hm Hi a. unfold put_super.
  destruct (decide (12 <= a < 12 + 32)); [rewrite copy_in by lia; apply Hi; lia|].
  rewrite copy_out by lia. by apply (le_put_ok 4), (le_put_ok 4), (le_put_ok 4).
Qed.

Lemma le_put_pw n : forall m m' a v x, m x = m' x -> le_put m a n v x = le_put m' a n v x.
Proof.
  induction n as [|n IH]; intros m m' a v x Hx; [done|]. cbn [le_put]. apply IH.
  unfold upd. by case_decide.
Qed.

Lemma put_super_fill b sb a :
  0 <= a < 4096 -> put_super (fill (fun _ => 0) 0 4096 0) sb a = put_super (fill b 0 4096 0) sb a.
Proof.
  intros Ha. unfold put_super. destruct (decide (12 <= a < 12 + 32)); [by rewrite !copy_in by lia|].
  rewrite !copy_out by lia. do 3 apply (le_put_pw 4). by rewrite !fill_in by lia.
Qed.

Lemma copy_pw (m m' : mem) o src s n a :
  (forall x, m x = m' x) -> copy m o src s n a = copy m' o src s n a.
Proof. intros Hm. unfold copy. by destruct (_ && _). Qed.

(** A disk that holds the superblock and the free map of [st]. *)
Lemma written_image_ok st m b m' :
  fs_wf st -> layout_ok st -> bytes_ok m ->
  (forall a, m' a = copy (copy m 0 (put_super (fill b 0 4096 0) (super st)) 0 4096)
                         8192 (map (freemap st)) 0 (map_blocks (blocks (super st)) * 4096) a) ->
  image_ok m' (dev_blocks (dev st)) /\
  (get32 m' 0 = magic (super st) /\ get32 m' 4 = blocks (super st) /\
   get32 m' 8 = unused_blocks (super st) /\ forall i, 0 <= i < 32 -> m' (12 + i) = info (super st) i) /\
  forall i, 0 <= i < nbits (freemap st) -> bit (disk_freemap m') i = bit (freemap st) i.
Proof.
  intros Hwf [Hmag Hinfo H31 Hbits [Hb0 Hfit]] Hby Hm'.
  pose proof (blocks_bound _ Hwf) as Hbound. pose proof (ready_dev _ (wf_ready _ Hwf)) as [_ Hdev].
  destruct (map_blocks_range (blocks (super st)) ltac:(lia)) as [Hq Hcover].
  set (q := map_blocks (blocks (super st))) in *.
  pose proof (wf_count _ Hwf) as Hcnt. pose proof (count_free_nonneg (freemap st) (Z.to_nat (nbits (freemap st)))).
  pose proof (count_free_le (freemap st) (Z.to_nat (nbits (freemap st)))).
  destruct (get_put_super (fill b 0 4096 0) (super st)) as (G0 & G4 & G8 & Gi);
    [rewrite Hmag; unfold SFS_MAGIC; lia|lia|lia|].
  assert (Hlow : forall a, 0 <= a < 4096 -> m' a = put_super (fill b 0 4096 0) (super st) a).
  { intros a Ha. rewrite Hm', copy_out, copy_in by lia. f_equal. lia. }
  assert (Hg : forall a, 0 <= a <= 8 -> get32 m' a = get32 (put_super (fill b 0 4096 0) (super st)) a).
  { intros a Ha. apply get32_ext. intros k Hk. apply Hlow. lia. }
  assert (Hsup : get32 m' 0 = magic (super st) /\ get32 m' 4 = blocks (super st) /\
    get32 m' 8 = unused_blocks (super st) /\ forall i, 0 <= i < 32 -> m' (12 + i) = info (super st) i).
  { rewrite !Hg by lia. split_and!; try done. intros i Hi. rewrite Hlow by lia. by apply Gi. }
  destruct Hsup as (S0 & S4 & S8 & Si).
  assert (Hq' : nbits (disk_freemap m') = 32768 * q) by (cbn -[get32 Z.mul]; by rewrite S4).
  assert (Hbit : forall i, 0 <= i < nbits (freemap st) -> bit (disk_freemap m') i = bit (freemap st) i).
  { intros i Hi. apply bit_ext; [lia|]. intros a Ha. cbn. pose proof (Z.div_mod i 32 ltac:(lia)).
    pose proof (Z.mod_pos_bound i 32 ltac:(lia)). rewrite Hm', copy_in by lia. f_equal. lia. }
  split; [|done]. split.
  - by rewrite S0.
  - rewrite S4. lia.
  - rewrite S4. fold q. lia.
  - intros a. rewrite Hm'. destruct (decide (8192 <= a < 8192 + q * 4096)).
    + rewrite copy_in by lia. apply (bm_bytes _ (wf_bitmap _ Hwf)).
    + rewrite copy_out by lia. destruct (decide (0 <= a < 4096)); [|rewrite copy_out by lia; apply Hby].
      rewrite copy_in by lia. replace (0 + (a - 0)) with a by lia.
      assert (Hp : bytes_ok (put_super (fill (fun _ => 0) 0 4096 0) (super st))).
      { apply put_super_ok; [apply fill_ok; [intros x|]|done]; lia. }
      rewrite <- (put_super_fill b); [apply Hp|lia].
  - rewrite S8, Hcnt, Hq', <- Hbits. symmetry. apply count_free_ext. intros i Hi. apply Hbit. lia.
  - rewrite Hbit by lia. apply (wf_super _ Hwf).
  - intros i Hi. rewrite S4, Hq' in Hi. rewrite Hbit by lia. apply (wf_outside _ Hwf). lia.
Qed.

(** C31 What [sfs_sync] writes can be mounted again: after a sync of a modified
    file system the superblock is clean, and mounting the device gives a well
    formed file system with the same superblock and the same free map. *)
Theorem sfs_sync_mount_roundtrip st al buf w :
  fs_wf st -> layout_ok st -> bytes_ok (img st) -> 0 < fs_sem st -> super_dirty st = true ->
  Forall (syncable st) (inode_list st) ->
  ma_fs al = true -> ma_buffer al = Some buf -> ma_hash al = true -> ma_desc al = true ->
  ma_words al = Some w -> bytes_ok w ->
  exists st1 st2, sfs_sync st = Done (0, st1) /\ super_dirty st1 = false /\
    sfs_do_mount al (dev st1) = Done ((0, Some st2), dev st2) /\ fs_wf st2 /\ cache_ok st2 /\
    magic (super st2) = magic (super st) /\ blocks (super st2) = blocks (super st) /\
    unused_blocks (super st2) = unused_blocks (super st) /\
    (forall i, 0 <= i < 32 -> info (super st2) i = info (super st) i) /\
    nbits (freemap st2) = nbits (freemap st) /\
    forall i, 0 <= i < nbits (freemap st) -> bit (freemap st2) i = bit (freemap st) i.
Proof.
  intros Hwf Hly Hby Hsem Hsd Hl Hfs Hbuf Hhash Hdesc Hw Hwok.
  pose proof (blocks_bound _ Hwf) as Hbound. destruct (ly_fits _ Hly) as [Hb0 Hfit].
  set (s0 := set_fs_sem (fs_sem st - 1) st).
  destruct (sync_inodes_spec (inode_list st) s0 (fs_wf_fs_sem _ _ Hwf) Hl)
    as (s1 & Hrun & (Hwf1 & Hsu1 & Hfm1 & Hsd1 & Hl1 & Hfs1 & Hby1)).
  set (s2 := set_super_dirty false (set_fs_sem (fs_sem s1 + 1) s1)).
  assert (Hwf2 : fs_wf s2) by (apply (fs_wf_fs_sem (fs_sem s1 + 1)) in Hwf1; by destruct Hwf1 as [[[] ] ]).
  destruct (sfs_sync_super_spec s2 (wf_ready _ Hwf2)) as (s3 & b & Hsup & Hu3).
  { cbn. rewrite Hsu1. done. }
  pose proof (disk_upd_wf _ _ _ Hu3 Hwf2) as Hwf3.
  assert (Hs3 : super s3 = super st /\ freemap s3 = freemap st).
  { destruct Hu3 as (d & b' & -> & _). cbn. by rewrite Hsu1, Hfm1. }
  destruct Hs3 as [Hsu3 Hfm3].
  destruct (sfs_sync_freemap_spec s3 (wf_ready _ Hwf3)) as (s4 & Hfm & Hu4); [by rewrite Hsu3; lia|by rewrite Hsu3|].
  pose proof (disk_upd_wf _ _ _ Hu4 Hwf3) as Hwf4.
  assert (Hs4 : super s4 = super st /\ freemap s4 = freemap st /\ super_dirty s4 = false).
  { destruct Hu4 as (d & b' & -> & _). cbn. split_and!; [done|done|]. by destruct Hu3 as (d' & b'' & -> & _). }
  destruct Hs4 as (Hsu4 & Hfm4 & Hsd4).
  assert (Hly4 : layout_ok s4) by (destruct Hly; split; by rewrite ?Hsu4, ?Hfm4).
  destruct (written_image_ok s4 (img s1) b (img s4) Hwf4 Hly4 (Hby1 Hby)) as (Him & (S0 & S4 & S8 & Si) & Hbits).
  { intros a. rewrite (disk_upd_img _ _ _ Hu4), Hsu3, Hsu4, Hfm3, Hfm4. apply copy_pw.
    intros x. rewrite (disk_upd_img _ _ _ Hu3). change (img s2) with (img s1). cbn. by rewrite Hsu1. }
  destruct (sfs_do_mount_correct (dev s4) (img s4) al buf w (proj1 (ready_dev _ (wf_ready _ Hwf4))) Him)
    as (st2 & Hmt & [Hwf5 Hc5 _ (M0 & M4 & M8 & Mi & M31) (Hnb5 & Hbit5) _]); try done.
  exists s4, st2. rewrite Hsu4 in *. rewrite Hfm4 in *.
  assert (Hnb : nbits (freemap st2) = nbits (freemap st)).
  { rewrite Hnb5. cbn -[get32 Z.mul]. rewrite S4. symmetry. rewrite <- Hfm4. rewrite (ly_bits _ Hly4). by rewrite Hsu4. }
  split_and!; try done; try congruence.
  - unfold sfs_sync. mstep (lock_fs_run st Hsem). fold s0.
    mstep (eq_refl : get (fun s => inode_list s) s0 = Done (inode_list st, s0)). mstep Hrun.
    mstep (eq_refl : unlock_sfs_fs s1 = Done (tt, set_fs_sem (fs_sem s1 + 1) s1)).
    mstep (eq_refl : get (fun s : sfs_fs D => super_dirty s) (set_fs_sem (fs_sem s1 + 1) s1)
                     = Done (super_dirty s1, set_fs_sem (fs_sem s1 + 1) s1)).
    rewrite Hsd1. change (super_dirty s0) with (super_dirty st). rewrite Hsd.
    mstep (eq_refl : modify (set_super_dirty false) (set_fs_sem (fs_sem s1 + 1) s1) = Done (tt, s2)).
    mstep Hsup. cbn [Z.eqb negb]. mstep Hfm. done.
  - intros i Hi. destruct (decide (i = 31)) as [->|]; [by rewrite M31, (ly_info31 _ Hly)|].
    rewrite Mi by lia. apply Si. lia.
  - intros i Hi. rewrite Hbit5 by (rewrite Hnb; lia). by apply Hbits.
Qed.
End mount.

(** ** Witnesses: sixteen blocks, ten of them free *)
Definition sample_map : bitmap :=
  mkBitmap 32768 1024 (fun a => if a =? 0 then 0xC0 else if a =? 1 then 0xFF else 0).
Definition sample_super : sfs_super := mkSuper SFS_MAGIC 16 10 (fun i => if i =? 0 then 83 else 0).
Definition sample_fs_image : mem :=
  copy (copy (fun _ => 0) 0 (put_super (fill (fun _ => 0) 0 4096 0) sample_super) 0 4096)
       8192 (map sample_map) 0 4096.
Definition sample_device : disks :=
  mkDisks (fun _ => mkIde 1 128 sample_fs_image) (fun _ => 0) 1 16 4096.
(** One modified directory is cached. *)
Definition sample_mounted : sfs_fs disks :=
  mkSfs sample_super sample_device sample_map true (fun _ => 0) 1 1 1
    (fun _ => mkSin sample_dir 3 true 1 1 1 0) [7] (fun h => if h =? sin_hashfn 3 then [7] else []).

Lemma count_free_tail bm k j :
  (forall i, Z.of_nat k <= i < Z.of_nat (k + j) -> bit bm i = false) ->
  count_free bm (k + j) = count_free bm k.
Proof.
  induction j as [|j IH]; intros Hb; [by rewrite Nat.add_0_r|]. rewrite Nat.add_succ_r. cbn [count_free].
  rewrite Hb, IH by (intros; try apply Hb; lia). lia.
Qed.

Lemma sample_map_outside i : 16 <= i < 32768 -> bit sample_map i = false.
Proof.
  intros Hi. destruct (decide (i < 32)).
  - apply negb_true_iff, (forall_range (fun i => negb (bit sample_map i)) 16 16); [done|lia].
  - unfold bit, word. pose proof (Z.div_le_lower_bound i 32 1 ltac:(lia) ltac:(lia)).
    unfold get32. rewrite le_get_zero; [apply Z.testbit_0_l|]. intros k Hk. cbn.
    destruct (Z.eqb_spec (4 * (i / 32) + k) 0); [lia|]. destruct (Z.eqb_spec (4 * (i / 32) + k) 1); [lia|done].
Qed.

Lemma sample_mounted_wf : fs_wf sample_mounted.
Proof.
  constructor.
  - by repeat constructor.
  - split; [|done|cbn; lia|cbn; intros; lia].
    intros a. cbn. destruct (a =? 0); [lia|]. destruct (a =? 1); lia.
  - done.
  - by vm_compute.
  - exact sample_map_outside.
  - change (10 = count_free sample_map (Z.to_nat 32768)).
    replace (Z.to_nat 32768) with (16 + Z.to_nat 32752)%nat by lia.
    rewrite count_free_tail; [by vm_compute|]. intros i Hi. apply sample_map_outside. lia.
Qed.

Lemma sample_layout_ok : layout_ok sample_mounted.
Proof. split; try done. intros i _. cbn. destruct (i =? 0); lia. Qed.

Lemma sample_bytes_ok : bytes_ok sample_fs_image.
Proof.
  apply copy_ok; [apply copy_ok|]; [intros a; lia| |].
  - apply put_super_ok; [apply fill_ok; [intros a|]; lia|]. intros i _. cbn. destruct (i =? 0); lia.
  - apply (bm_bytes _ (wf_bitmap _ sample_mounted_wf)).
Qed.

Lemma sample_image_ok : image_ok sample_fs_image 16.
Proof.
  by destruct (written_image_ok sample_mounted (fun _ => 0) (fun _ => 0) sample_fs_image
                 sample_mounted_wf sample_layout_ok ltac:(intros a; lia) ltac:(done)).
Qed.

Definition sample_mount_alloc : mount_alloc :=
  mkMountAlloc true (Some (fun _ => 0)) true true (Some (fun _ => 0)) (sins sample_mounted).

Lemma sample_device_ok : dev_ok sample_device.
Proof. exact (proj1 (ready_dev _ (wf_ready _ sample_mounted_wf))). Qed.

Lemma sfs_do_mount_witness :
  exists st, sfs_do_mount sample_mount_alloc sample_device = Done ((0, Some st), dev st) /\
             mounted (dev_byte sample_device) st.
Proof.
  apply (sfs_do_mount_establishes sample_device sample_mount_alloc (fun _ => 0) (fun _ => 0));
    [exact (sample_device_ok)|exact sample_image_ok|exact eq_refl..|intros a; lia].
Defined.

Lemma sfs_sync_mount_witness :
  exists st1 st2, sfs_sync sample_mounted = Done (0, st1) /\ super_dirty st1 = false /\
    sfs_do_mount sample_mount_alloc (dev st1) = Done ((0, Some st2), dev st2) /\ fs_wf st2 /\
    cache_ok st2 /\ magic (super st2) = SFS_MAGIC /\ blocks (super st2) = 16 /\
    unused_blocks (super st2) = 10 /\
    (forall i, 0 <= i < 32 -> info (super st2) i = info sample_super i) /\
    nbits (freemap st2) = 32768 /\
    forall i, 0 <= i < 32768 -> bit (freemap st2) i = bit sample_map i.
Proof.
  apply (sfs_sync_mount_roundtrip sample_mounted sample_mount_alloc (fun _ => 0) (fun _ => 0)
           sample_mounted_wf sample_layout_ok sample_bytes_ok);
    [cbn; lia|exact eq_refl| |exact eq_refl..|intros a; lia].
  repeat constructor; cbn; try lia; unfold MAX_INODE_COUNT; lia.
Defined.
