(* ===== verification/Mksfs.v ===== *)
(** * The tool that makes the disk image (tools/mksfs.c)

    The tool walks a directory of the host and writes an image of the simple
    file system: data blocks at once, the inodes and the blocks of block numbers
    when it closes.  The host's directory is an argument: the listing of each
    directory in the order of [readdir], what [read] and [readlink] return.  The
    allocations of the tool succeed, its writes to the image are complete; where
    the tool gives up ([bug], a failed [assert]) the outcome is [Panicked].
    Messages are left out. *)
From Stdlib Require Import String.
From S2P Require Import Prelude Libs Mem Printfmt Disk Bitmap SfsIo.

Definition HASH_SHIFT : Z := 10.
Definition HASH_LIST_SIZE : Z := Z.shiftl 1 HASH_SHIFT.
Definition hash64 (val : Z) : Z := hash32 (u32 val) HASH_SHIFT.
Definition SFS_MAX_NBLKS : Z := 1024 * 512.
Definition SFS_L0_NBLKS : Z := SFS_NDIRECT.
Definition SFS_L1_NBLKS : Z := SFS_BLK_NENTRY + SFS_L0_NBLKS.
Definition SFS_L2_NBLKS : Z := SFS_BLK_NENTRY * SFS_BLK_NENTRY + SFS_L1_NBLKS.
Definition SFS_LN_NBLKS : Z := SFS_MAX_FILE_SIZE / SFS_BLKSIZE.

(** ** The host's directory *)

(** A listing.  [DReg] is a regular file with its inode number on the host and
    what the successive calls of [read] return before one returns 0 ([None] is
    an error); [DLnk] a symbolic link with what [readlink] returns; [DDir] a
    directory with its own listing; [DOther] any other kind of file; [DFail] an
    entry on which [lstat], [open] or [opendir] fails. *)
Inductive dirlist :=
| DEnd
| DReg (name : list Z) (real : Z) (reads : list (option (list Z))) (rest : dirlist)
| DLnk (name : list Z) (real : Z) (target : option (list Z)) (rest : dirlist)
| DDir (name : list Z) (real : Z) (sub rest : dirlist)
| DOther (name : list Z) (rest : dirlist)
| DFail (name : list Z) (rest : dirlist).

(** ** The state of the tool *)
Record host_inode := mkHin {
  hi_size : Z; hi_type : Z; hi_nlinks : Z; hi_blocks : Z; hi_direct : Z -> Z;
  hi_indirect : Z; db_indirect : Z }.
Record cache_block := mkCb { cb_ino : Z; cache : mem }.
Record cache_inode := mkCi {
  ci_inode : host_inode; real : Z; ci_ino : Z; nblks : Z; l1 : option Z; l2 : option Z }.

(** The objects of [malloc] are numbered: inodes below [nci], blocks below [ncb].
    [inodes_of h] and [blocks_of h] are the chains of the hash tables, [img_file]
    the bytes of the image, [entry_buf] the static buffer of [add_entry]. *)
Record mksfs := mkMksfs {
  mk_super : sfs_super; subpath : list (list Z); img_file : mem; ninos : Z; next_ino : Z;
  root : Z; inodes_of : Z -> list Z; blocks_of : Z -> list Z;
  cis : Z -> cache_inode; nci : Z; cbs : Z -> cache_block; ncb : Z; entry_buf : mem }.

Definition set_mk_super x (s : mksfs) : mksfs := mkMksfs x (subpath s) (img_file s) (ninos s) (next_ino s)
  (root s) (inodes_of s) (blocks_of s) (cis s) (nci s) (cbs s) (ncb s) (entry_buf s).
Definition set_subpath x (s : mksfs) : mksfs := mkMksfs (mk_super s) x (img_file s) (ninos s) (next_ino s)
  (root s) (inodes_of s) (blocks_of s) (cis s) (nci s) (cbs s) (ncb s) (entry_buf s).
Definition set_img_file x (s : mksfs) : mksfs := mkMksfs (mk_super s) (subpath s) x (ninos s) (next_ino s)
  (root s) (inodes_of s) (blocks_of s) (cis s) (nci s) (cbs s) (ncb s) (entry_buf s).
Definition set_next_ino x (s : mksfs) : mksfs := mkMksfs (mk_super s) (subpath s) (img_file s) (ninos s) x
  (root s) (inodes_of s) (blocks_of s) (cis s) (nci s) (cbs s) (ncb s) (entry_buf s).
Definition set_root x (s : mksfs) : mksfs := mkMksfs (mk_super s) (subpath s) (img_file s) (ninos s) (next_ino s)
  x (inodes_of s) (blocks_of s) (cis s) (nci s) (cbs s) (ncb s) (entry_buf s).
Definition set_inodes_of x (s : mksfs) : mksfs := mkMksfs (mk_super s) (subpath s) (img_file s) (ninos s)
  (next_ino s) (root s) x (blocks_of s) (cis s) (nci s) (cbs s) (ncb s) (entry_buf s).
Definition set_blocks_of x (s : mksfs) : mksfs := mkMksfs (mk_super s) (subpath s) (img_file s) (ninos s)
  (next_ino s) (root s) (inodes_of s) x (cis s) (nci s) (cbs s) (ncb s) (entry_buf s).
Definition set_cis x n (s : mksfs) : mksfs := mkMksfs (mk_super s) (subpath s) (img_file s) (ninos s)
  (next_ino s) (root s) (inodes_of s) (blocks_of s) x n (cbs s) (ncb s) (entry_buf s).
Definition set_cbs x n (s : mksfs) : mksfs := mkMksfs (mk_super s) (subpath s) (img_file s) (ninos s)
  (next_ino s) (root s) (inodes_of s) (blocks_of s) (cis s) (nci s) x n (entry_buf s).
Definition set_entry_buf x (s : mksfs) : mksfs := mkMksfs (mk_super s) (subpath s) (img_file s) (ninos s)
  (next_ino s) (root s) (inodes_of s) (blocks_of s) (cis s) (nci s) (cbs s) (ncb s) x.
Definition on_ci (a : Z) (f : cache_inode -> cache_inode) (s : mksfs) : mksfs :=
  set_cis (upd (cis s) a (f (cis s a))) (nci s) s.
Definition on_cb (c : Z) (f : mem -> mem) (s : mksfs) : mksfs :=
  set_cbs (upd (cbs s) c (mkCb (cb_ino (cbs s c)) (f (cache (cbs s c))))) (ncb s) s.

Definition set_hi_direct (i v : Z) (h : host_inode) : host_inode :=
  mkHin (hi_size h) (hi_type h) (hi_nlinks h) (hi_blocks h) (upd (hi_direct h) i v) (hi_indirect h) (db_indirect h).
Definition set_hi_indirect (v : Z) (h : host_inode) : host_inode :=
  mkHin (hi_size h) (hi_type h) (hi_nlinks h) (hi_blocks h) (hi_direct h) v (db_indirect h).
Definition set_db_indirect (v : Z) (h : host_inode) : host_inode :=
  mkHin (hi_size h) (hi_type h) (hi_nlinks h) (hi_blocks h) (hi_direct h) (hi_indirect h) v.
Definition inc_nlinks (h : host_inode) : host_inode :=
  mkHin (hi_size h) (hi_type h) ((hi_nlinks h + 1) mod 2 ^ 16) (hi_blocks h) (hi_direct h) (hi_indirect h)
        (db_indirect h).
Definition on_inode (f : host_inode -> host_inode) (c : cache_inode) : cache_inode :=
  mkCi (f (ci_inode c)) (real c) (ci_ino c) (nblks c) (l1 c) (l2 c).
Definition set_l1 (x : option Z) (c : cache_inode) : cache_inode :=
  mkCi (ci_inode c) (real c) (ci_ino c) (nblks c) x (l2 c).
Definition set_l2 (x : option Z) (c : cache_inode) : cache_inode :=
  mkCi (ci_inode c) (real c) (ci_ino c) (nblks c) (l1 c) x.
(** The end of [append_block]: one more block, [size] more bytes. *)
Definition grow (size : Z) (c : cache_inode) : cache_inode :=
  let h := ci_inode c in
  mkCi (mkHin (u32 (hi_size h + size)) (hi_type h) (hi_nlinks h) (u32 (hi_blocks h + 1)) (hi_direct h)
              (hi_indirect h) (db_indirect h))
       (real c) (ci_ino c) (u32 (nblks c + 1)) (l1 c) (l2 c).

(** [exit(-1)] after a message. *)
Definition bug {A} : ST mksfs A := panic.

(** ** Inode numbers, the caches *)
Definition sfs_alloc_ino : ST mksfs Z :=
  n ← get next_ino;
  m ← get ninos;
  if n <? m then
    modify (fun s => set_mk_super (set_unused (fun u => u - 1) (mk_super s)) s) ;;
    modify (set_next_ino (u32 (n + 1))) ;;
    mret n
  else bug.

(** The chain is that of the argument, not of the number the block gets. *)
Definition alloc_cache_block (ino : Z) : ST mksfs Z :=
  n ← (if negb (ino =? 0) then mret ino else sfs_alloc_ino);
  c ← get ncb;
  modify (fun s => set_cbs (upd (cbs s) c (mkCb n (fun _ => 0))) (c + 1) s) ;;
  let h := hash32 ino HASH_SHIFT in
  modify (fun s => set_blocks_of (upd (blocks_of s) h (c :: blocks_of s h)) s) ;;
  mret c.

Fixpoint find_cb (f : Z -> cache_block) (l : list Z) (ino : Z) : option Z :=
  match l with
  | [] => None
  | c :: l' => if negb (cb_ino (f c) =? ino) then find_cb f l' ino else Some c
  end.
Definition search_cache_block (ino : Z) : ST mksfs (option Z) :=
  get (fun s => find_cb (cbs s) (blocks_of s (hash32 ino HASH_SHIFT)) ino).

Definition new_inode (type : Z) : host_inode := mkHin 0 type 0 0 (fun _ => 0) 0 0.
Definition alloc_cache_inode (rl ino type : Z) : ST mksfs Z :=
  n ← (if negb (ino =? 0) then mret ino else sfs_alloc_ino);
  a ← get nci;
  modify (fun s => set_cis (upd (cis s) a (mkCi (new_inode type) rl n 0 None None)) (a + 1) s) ;;
  let h := hash64 rl in
  modify (fun s => set_inodes_of (upd (inodes_of s) h (a :: inodes_of s h)) s) ;;
  mret a.

Fixpoint find_ci (f : Z -> cache_inode) (l : list Z) (rl : Z) : option Z :=
  match l with
  | [] => None
  | a :: l' => if negb (real (f a) =? rl) then find_ci f l' rl else Some a
  end.
Definition search_cache_inode (rl : Z) : ST mksfs (option Z) :=
  get (fun s => find_ci (cis s) (inodes_of s (hash64 rl)) rl).

(** ** Writing the image *)
Definition write_block (data : mem) (len ino : Z) : ST mksfs unit :=
  n ← get ninos;
  assert ((len <=? SFS_BLKSIZE) && (ino <? n)) ;;
  let buffer := if len =? SFS_BLKSIZE then data else copy (fun _ => 0) 0 data 0 len in
  modify (fun s => set_img_file (copy (img_file s) (ino * SFS_BLKSIZE) buffer 0 SFS_BLKSIZE) s).

Definition flush_cache_block (c : Z) : ST mksfs unit :=
  cb ← get (fun s => cbs s c);
  write_block (cache cb) SFS_BLKSIZE (cb_ino cb).

Definition sizeof_host_inode : Z := 68.
Definition put_hin (m : mem) (h : host_inode) : mem :=
  put32 (put_din m (mkDin (hi_size h) (hi_type h) (hi_nlinks h) (hi_blocks h) (hi_direct h) (hi_indirect h)))
        64 (db_indirect h).
Definition flush_cache_inode (a : Z) : ST mksfs unit :=
  ci ← get (fun s => cis s a);
  write_block (put_hin (fun _ => 0) (ci_inode ci)) sizeof_host_inode (ci_ino ci).

Fixpoint flush_blocks (l : list Z) : ST mksfs unit :=
  match l with [] => mret tt | c :: l' => flush_cache_block c ;; flush_blocks l' end.
Fixpoint flush_inodes (l : list Z) : ST mksfs unit :=
  match l with [] => mret tt | a :: l' => flush_cache_inode a ;; flush_inodes l' end.
Fixpoint flush_chains (k : nat) (i : Z) : ST mksfs unit :=
  match k with
  | O => mret tt
  | S k' =>
      l ← get (fun s => blocks_of s i);
      flush_blocks l ;;
      l ← get (fun s => inodes_of s i);
      flush_inodes l ;;
      flush_chains k' (i + 1)
  end.

(** Bits [j], [j + 1], ... ([k] of them) of the free map. *)
Fixpoint set_bits (k : nat) (j : Z) (data : mem) : mem :=
  match k with
  | O => data
  | S k' => set_bits k' (j + 1) (put32 data (4 * (j / 32)) (Z.lor (get32 data (4 * (j / 32))) (Z.shiftl 1 (j mod 32))))
  end.

(** The block of the free map for the blocks from [i] on. *)
Definition freemap_block (i next n : Z) : mem :=
  let buffer : mem := fun _ => 0 in
  if next <? u32 (i + SFS_BLKBITS) then
    let start := if i <? next then next - i else 0 in
    let end_ := if n <? u32 (i + SFS_BLKBITS) then n - i else SFS_BLKBITS in
    set_bits (Z.to_nat (end_ - start)) start buffer
  else buffer.

Fixpoint freemap_out (fuel : nat) (i ino : Z) : ST mksfs unit :=
  n ← get ninos;
  next ← get next_ino;
  if i <? n then
    match fuel with
    | O => no_fuel
    | S fuel' =>
        write_block (freemap_block i next n) SFS_BLKSIZE ino ;;
        freemap_out fuel' (u32 (i + SFS_BLKBITS)) (u32 (ino + 1))
    end
  else mret tt.

Definition sizeof_super : Z := 44.
Definition close_sfs : ST mksfs unit :=
  n ← get ninos;
  freemap_out (S (Z.to_nat (n / SFS_BLKBITS))) 0 SFS_BLKN_FREEMAP ;;
  sb ← get mk_super;
  write_block (put_super (fun _ => 0) sb) sizeof_super SFS_BLKN_SUPER ;;
  flush_chains (Z.to_nat HASH_LIST_SIZE) 0.

(** ** [create_sfs]: [st_size] is the size of the image file, [image] its bytes,
    [mem0] what [malloc] leaves in the text of the superblock. *)
Fixpoint put_bytes (m : mem) (a : Z) (l : list Z) : mem :=
  match l with
  | [] => m
  | b :: l' => put_bytes (upd m a b) (a + 1) l'
  end.
Definition put_string (m : mem) (a : Z) (l : list Z) : mem := put_bytes m a (l ++ [0]).

Definition create_sfs (st_size : Z) (image mem0 : mem) : outcome (unit * mksfs) :=
  let n := u32 (Z.quot st_size SFS_BLKSIZE) in
  let n := if SFS_MAX_NBLKS <? n then SFS_MAX_NBLKS else n in
  let next := u32 (SFS_BLKN_FREEMAP + u32 (n + SFS_BLKBITS - 1) / SFS_BLKBITS) in
  if n <=? next then Panicked
  else
    (root ← alloc_cache_inode 0 SFS_BLKN_ROOT SFS_TYPE_DIR;
     modify (set_root root))
    (mkMksfs (mkSuper SFS_MAGIC n (n - next) (put_string mem0 0 (text "simple file system"))) [] image n next
       0 (fun _ => []) (fun _ => [])
       (fun _ => mkCi (new_inode 0) 0 0 0 None None) 0 (fun _ => mkCb 0 (fun _ => 0)) 0 (fun _ => 0)).

(** [imgname] must end in ".img". *)
Definition img_name (imgname : list Z) : bool :=
  let n := Z.of_nat (length imgname) in
  (4 <? n) && bool_decide (drop (Z.to_nat (n - 4)) imgname = text ".img").
Definition open_img (imgname : list Z) (st_size : Z) (image mem0 : mem) : outcome (unit * mksfs) :=
  if img_name imgname then create_sfs st_size image mem0 else Panicked.

(** ** Appending blocks *)

(** Returns the new values of [*cbp] and [*inop]. *)
Definition update_cache (cbp : option Z) (inop : Z) : ST mksfs (Z * Z) :=
  if inop =? 0 then
    c ← alloc_cache_block 0;
    n ← get (fun s => cb_ino (cbs s c));
    mret (c, n)
  else
    found ← (match cbp with
             | Some c =>
                 n ← get (fun s => cb_ino (cbs s c));
                 if negb (n =? inop) then search_cache_block inop else mret (Some c)
             | None => search_cache_block inop
             end);
    match found with
    | Some c =>
        n ← get (fun s => cb_ino (cbs s c));
        assert (n =? inop) ;;
        mret (c, inop)
    | None => panic
    end.

Definition append_block (file size ino : Z) : ST mksfs unit :=
  assert (size <=? SFS_BLKSIZE) ;;
  ci ← get (fun s => cis s file);
  let n := nblks ci in
  if SFS_LN_NBLKS <=? n then bug
  else
    (if n <? SFS_L0_NBLKS then modify (on_ci file (on_inode (set_hi_direct n ino)))
     else if n <? SFS_L1_NBLKS then
       '(c, v) ← update_cache (l1 ci) (hi_indirect (ci_inode ci));
       modify (on_ci file (fun f => set_l1 (Some c) (on_inode (set_hi_indirect v) f))) ;;
       modify (on_cb c (fun data => put32 data (4 * (n - SFS_L0_NBLKS)) ino))
     else if n <? SFS_L2_NBLKS then
       let k := n - SFS_L1_NBLKS in
       '(c2, v2) ← update_cache (l2 ci) (db_indirect (ci_inode ci));
       modify (on_ci file (fun f => set_l2 (Some c2) (on_inode (set_db_indirect v2) f))) ;;
       e ← get (fun s => get32 (cache (cbs s c2)) (4 * (k / SFS_BLK_NENTRY)));
       '(c1, v1) ← update_cache (l1 ci) e;
       modify (on_cb c2 (fun data => put32 data (4 * (k / SFS_BLK_NENTRY)) v1)) ;;
       modify (on_ci file (set_l1 (Some c1))) ;;
       modify (on_cb c1 (fun data => put32 data (4 * (k mod SFS_BLK_NENTRY)) ino))
     else mret tt) ;;
    modify (on_ci file (grow size)).

(** The write is as long as the name, not as the entry. *)
Definition add_entry (current file : Z) (name : list Z) : ST mksfs unit :=
  t ← get (fun s => hi_type (ci_inode (cis s current)));
  assert ((t =? SFS_TYPE_DIR) && (Z.of_nat (length name) <=? SFS_MAX_FNAME_LEN)) ;;
  n ← get (fun s => ci_ino (cis s file));
  modify (fun s => set_entry_buf (put_string (put32 (entry_buf s) 0 n) 4 name) s) ;;
  entry_ino ← sfs_alloc_ino;
  e ← get entry_buf;
  write_block e (SFS_MAX_FNAME_LEN + 1) entry_ino ;;
  append_block current (SFS_MAX_FNAME_LEN + 1) entry_ino ;;
  modify (on_ci file (on_inode inc_nlinks)).

(** ** Files, links, directories *)

(** The bytes [read] or [readlink] put into the buffer. *)
Definition filled_with (l : list Z) : mem := put_bytes (fun _ => 0) 0 l.

Fixpoint open_file (file : Z) (reads : list (option (list Z))) (last : Z) : ST mksfs unit :=
  match reads with
  | [] => mret tt
  | r :: reads' =>
      assert (last =? SFS_BLKSIZE) ;;
      ino ← sfs_alloc_ino;
      match r with
      | None => panic      (* the length -1 fails the assertion of [write_block] *)
      | Some data =>
          let ret := Z.of_nat (length data) in
          write_block (filled_with data) ret ino ;;
          append_block file ret ino ;;
          open_file file reads' ret
      end
  end.

Definition open_link (file : Z) (target : option (list Z)) : ST mksfs unit :=
  ino ← sfs_alloc_ino;
  match target with
  | None => bug
  | Some data =>
      let ret := Z.of_nat (length data) in
      if ret =? SFS_BLKSIZE then bug
      else
        write_block (filled_with data) ret ino ;;
        append_block file ret ino
  end.

Definition subpath_push (name : list Z) : ST mksfs unit :=
  modify (fun s => set_subpath (subpath s ++ [name]) s).
Definition subpath_pop : ST mksfs unit :=
  p ← get subpath;
  assert (bool_decide (p <> [])) ;;
  modify (set_subpath (removelast p)).

Definition add_file (current : Z) (name : list Z) (rl : Z) (reads : list (option (list Z))) : ST mksfs unit :=
  found ← search_cache_inode rl;
  file ← (match found with
          | Some file => mret file
          | None =>
              file ← alloc_cache_inode rl 0 SFS_TYPE_FILE;
              open_file file reads SFS_BLKSIZE ;;
              mret file
          end);
  add_entry current file name.

Definition add_link (current : Z) (name : list Z) (rl : Z) (target : option (list Z)) : ST mksfs unit :=
  file ← alloc_cache_inode rl 0 SFS_TYPE_LINK;
  open_link file target ;;
  add_entry current file name.

(** [.], [..] and every other name that starts with a dot is passed over. *)
Definition skipped (name : list Z) : bool :=
  bool_decide (name = text ".") || bool_decide (name = text "..") ||
  match name with c :: _ => c =? 46 | [] => false end.

(** [open_sub] is [open_dir] on the new directory. *)
Definition add_dir (open_sub : Z -> ST mksfs unit) (parent : Z) (name : list Z) (rl : Z) : ST mksfs unit :=
  found ← search_cache_inode rl;
  assert (bool_decide (found = None)) ;;
  current ← alloc_cache_inode rl 0 SFS_TYPE_DIR;
  subpath_push name ;;
  open_sub current ;;
  subpath_pop ;;
  add_entry parent current name.

Definition too_long (name : list Z) : bool := SFS_MAX_FNAME_LEN <? Z.of_nat (length name).

(** The loop of [readdir] and, before it, the entries of the directory itself. *)
Fixpoint open_entries (es : dirlist) (current : Z) : ST mksfs unit :=
  match es with
  | DEnd => mret tt
  | DReg name rl reads rest =>
      (if skipped name then mret tt
       else if too_long name then bug
       else add_file current name rl reads) ;;
      open_entries rest current
  | DLnk name rl target rest =>
      (if skipped name then mret tt
       else if too_long name then bug
       else add_link current name rl target) ;;
      open_entries rest current
  | DDir name rl sub rest =>
      (if skipped name then mret tt
       else if too_long name then bug
       else add_dir (fun dir => add_entry dir dir (text ".") ;;
                                add_entry dir current (text "..") ;;
                                open_entries sub dir) current name rl) ;;
      open_entries rest current
  | DOther name rest =>
      (if skipped name then mret tt else if too_long name then bug else mret tt) ;;
      open_entries rest current
  | DFail name rest =>
      (if skipped name then mret tt else bug) ;;
      open_entries rest current
  end.

Definition open_dir (es : dirlist) (current parent : Z) : ST mksfs unit :=
  add_entry current current (text ".") ;;
  add_entry current parent (text "..") ;;
  open_entries es current.

Definition create_img (home : dirlist) : ST mksfs unit :=
  r ← get root;
  open_dir home r r ;;
  close_sfs.

(** The image after a run of the tool on an image file of [st_size] bytes. *)
Definition mksfs_main (imgname : list Z) (st_size : Z) (image mem0 : mem) (home : dirlist)
  : outcome (unit * mksfs) :=
  match open_img imgname st_size image mem0 with
  | Done (_, s) => create_img home s
  | Panicked => Panicked
  | NoFuel => NoFuel
  end.
