(* ===== verification/MksfsInv.v ===== *)
(** * The disk image tool: its invariant and its block operations

    [mk_ok own s]: every block number given out has one use, [own] says which.
    That alone keeps the blocks of files, their tables and the inodes apart.
    [ext c s s'] is what later steps keep of earlier ones when at most inode [c]
    grows. *)
From S2P Require Import Prelude Libs Mem Disk Bitmap SfsIo SfsInode SfsAlloc SfsMap SfsFile.
From S2P Require Import SfsDir SfsDirSpec SfsCache SfsFs SfsFsSpec Mksfs.

(** ** What a block number is used for *)
Inductive use := UInode (a : Z) | UTable (a c : Z) | UData (a k : Z).

(** The first block behind the free map. *)
Definition first_ino (n : Z) : Z := 2 + map_blocks n.

(** Block [k] of inode [a]. *)
Definition bn (s : mksfs) (a k : Z) : Z :=
  if k <? 12 then hi_direct (ci_inode (cis s a)) k
  else match l1 (cis s a) with
       | Some t => get32 (cache (cbs s t)) (4 * (k - 12))
       | None => 0
       end.

Record inode_fine (own : Z -> use) (s : mksfs) (a : Z) : Prop := mkInodeFine {
  if_own : own (ci_ino (cis s a)) = UInode a;
  if_ino : if a =? 0 then ci_ino (cis s a) = 1 else first_ino (ninos s) <= ci_ino (cis s a) < next_ino s;
  if_nblks : 0 <= nblks (cis s a) <= max_blocks /\ hi_blocks (ci_inode (cis s a)) = nblks (cis s a);
  if_size : 0 <= hi_size (ci_inode (cis s a)) <= 4096 * nblks (cis s a);
  if_type : 1 <= hi_type (ci_inode (cis s a)) <= 3;
  if_links : 0 <= hi_nlinks (ci_inode (cis s a)) < next_ino s;
  if_table : match l1 (cis s a) with
             | None => hi_indirect (ci_inode (cis s a)) = 0 /\ nblks (cis s a) <= 12
             | Some t => 0 <= t < ncb s /\ hi_indirect (ci_inode (cis s a)) = cb_ino (cbs s t) /\
                         own (cb_ino (cbs s t)) = UTable a t /\ 12 < nblks (cis s a)
             end;
  if_double : db_indirect (ci_inode (cis s a)) = 0;
  if_used k : 0 <= k < nblks (cis s a) ->
    own (bn s a k) = UData a k /\ first_ino (ninos s) <= bn s a k < next_ino s;
  if_rest k : nblks (cis s a) <= k < max_blocks -> bn s a k = 0 }.

Record table_fine (own : Z -> use) (s : mksfs) (c : Z) : Prop := mkTableFine {
  tf_ino : first_ino (ninos s) <= cb_ino (cbs s c) < next_ino s;
  tf_own : exists a, 0 <= a < nci s /\ own (cb_ino (cbs s c)) = UTable a c;
  tf_bytes : bytes_ok (cache (cbs s c)) }.

Record mk_ok (own : Z -> use) (s : mksfs) : Prop := mkMkOk {
  mo_ninos : 0 < ninos s <= 2 ^ 16;
  mo_next : first_ino (ninos s) <= next_ino s <= ninos s;
  mo_super : magic (mk_super s) = SFS_MAGIC /\ blocks (mk_super s) = ninos s /\
             unused_blocks (mk_super s) = ninos s - next_ino s /\ bytes_ok (info (mk_super s));
  mo_root : root s = 0 /\ 0 < nci s /\ 0 <= ncb s;
  mo_inodes a : 0 <= a < nci s -> inode_fine own s a;
  mo_tables c : 0 <= c < ncb s -> table_fine own s c;
  mo_chain_i h a : a ∈ inodes_of s h <-> 0 <= a < nci s /\ hash64 (real (cis s a)) = h;
  mo_chain_b h c : c ∈ blocks_of s h <-> 0 <= c < ncb s /\ h = 0;
  mo_mono a b : 0 <= a -> a < b -> b < nci s -> ci_ino (cis s a) < ci_ino (cis s b);
  mo_bytes : bytes_ok (img_file s) /\ bytes_ok (entry_buf s) }.

(** ** What later steps keep *)
Record ext (c : Z) (s s' : mksfs) : Prop := mkExt {
  ex_count : ninos s' = ninos s /\ next_ino s <= next_ino s' /\ nci s <= nci s';
  ex_img a : a < next_ino s * 4096 -> img_file s' a = img_file s a;
  ex_same a : 0 <= a < nci s ->
    ci_ino (cis s' a) = ci_ino (cis s a) /\ real (cis s' a) = real (cis s a) /\
    hi_type (ci_inode (cis s' a)) = hi_type (ci_inode (cis s a)) /\
    hi_nlinks (ci_inode (cis s a)) <= hi_nlinks (ci_inode (cis s' a)) /\
    nblks (cis s a) <= nblks (cis s' a) /\
    forall k, 0 <= k < nblks (cis s a) -> bn s' a k = bn s a k;
  ex_keep a : 0 <= a < nci s -> a <> c ->
    nblks (cis s' a) = nblks (cis s a) /\ hi_size (ci_inode (cis s' a)) = hi_size (ci_inode (cis s a)) }.

Lemma ext_refl c s : ext c s s.
Proof. split; intros; try done; split_and!; try done; lia. Qed.

Lemma ext_trans c c' s1 s2 s3 :
  ext c s1 s2 -> ext c' s2 s3 -> c' = c \/ nci s1 <= c' -> ext c s1 s3.
Proof.
  intros [(N1 & N2 & N3) I1 S1 K1] [(M1 & M2 & M3) I2 S2 K2] Hc. split.
  - split_and!; congruence || lia.
  - intros a Ha. rewrite I2, I1 by lia. done.
  - intros a Ha. destruct (S1 a Ha) as (? & ? & ? & ? & ? & Hb1).
    destruct (S2 a ltac:(lia)) as (? & ? & ? & ? & ? & Hb2).
    split_and!; try congruence; try lia. intros k Hk. rewrite Hb2, Hb1 by lia. done.
  - intros a Ha Hne. destruct (K1 a Ha Hne), (K2 a ltac:(lia) ltac:(lia)). split; congruence.
Qed.

(** Naming the use of a block number not given out yet. *)
Lemma map_blocks_pos n : 0 < n <= 2 ^ 16 -> 1 <= map_blocks n <= 2.
Proof.
  intros Hn. unfold map_blocks. split; [apply Z.div_le_lower_bound; lia|].
  apply Z.lt_succ_r, Z.div_lt_upper_bound; lia.
Qed.

Lemma mk_first own s : mk_ok own s -> 3 <= first_ino (ninos s) <= 4.
Proof. intros Hok. pose proof (map_blocks_pos _ (mo_ninos _ _ Hok)). unfold first_ino. lia. Qed.

Lemma inode_ino_lt own s a : mk_ok own s -> 0 <= a < nci s -> 0 < ci_ino (cis s a) < next_ino s.
Proof.
  intros Hok Ha. pose proof (if_ino _ _ _ (mo_inodes _ _ Hok a Ha)) as Hi. pose proof (mk_first _ _ Hok).
  pose proof (mo_next _ _ Hok). destruct (a =? 0); lia.
Qed.

Lemma name_use own s b u : mk_ok own s -> next_ino s <= b -> mk_ok (upd own b u) s.
Proof.
  intros Hok Hb. pose proof (mk_first _ _ Hok). pose proof (mo_next _ _ Hok).
  assert (Hlt : forall x, x < next_ino s -> upd own b u x = own x) by (intros x Hx; apply upd_ne; lia).
  destruct Hok as [Hn Hx Hs Hr Hi Ht Hci Hcb Hm Hby]. split; try done.
  - intros a Ha. destruct (Hi a Ha) as [Ho Hino Hbk Hsz Hty Hl Htab Hd Hu Hre].
    split; try done.
    + rewrite Hlt; [done|]. destruct (a =? 0); lia.
    + destruct (l1 (cis s a)) as [t|]; [|done]. destruct Htab as (Htr & ? & ? & ?).
      split_and!; try done; try lia. rewrite Hlt; [done|]. apply (tf_ino _ _ _ (Ht t Htr)).
    + intros k Hk. destruct (Hu k Hk). rewrite Hlt by lia. done.
  - intros c Hc. destruct (Ht c Hc) as [Hino (a & Ha & Hoa) Hbc]. split; try done.
    exists a. by rewrite Hlt by lia.
Qed.

(** ** A new block number *)
Definition numbered (s : mksfs) : mksfs :=
  set_next_ino (u32 (next_ino s + 1)) (set_mk_super (set_unused (fun u => u - 1) (mk_super s)) s).

Lemma sfs_alloc_ino_run s : next_ino s < ninos s -> sfs_alloc_ino s = Done (next_ino s, numbered s).
Proof. intros Hn. unfold sfs_alloc_ino. mrun. by destruct (Z.ltb_spec (next_ino s) (ninos s)); [|lia]. Qed.

(** Steps that only use up numbers, write to the image at or behind [lo] or
    change the buffer of entries. *)
Record advance (lo : Z) (s s' : mksfs) : Prop := mkAdvance {
  av_next : ninos s' = ninos s /\ root s' = root s /\ next_ino s <= next_ino s' <= ninos s;
  av_super : magic (mk_super s') = magic (mk_super s) /\ blocks (mk_super s') = blocks (mk_super s) /\
             unused_blocks (mk_super s') = unused_blocks (mk_super s) - (next_ino s' - next_ino s) /\
             info (mk_super s') = info (mk_super s);
  av_heap : cis s' = cis s /\ nci s' = nci s /\ cbs s' = cbs s /\ ncb s' = ncb s;
  av_chains : inodes_of s' = inodes_of s /\ blocks_of s' = blocks_of s;
  av_img a : a < lo * 4096 -> img_file s' a = img_file s a;
  av_bytes : bytes_ok (img_file s') /\ bytes_ok (entry_buf s') }.

Lemma advance_bn lo s s' a k : advance lo s s' -> bn s' a k = bn s a k.
Proof. intros [_ _ (Hc & _ & Hb & _) _ _ _]. unfold bn. by rewrite Hc, Hb. Qed.

Lemma advance_ok own lo s s' : advance lo s s' -> mk_ok own s -> mk_ok own s'.
Proof.
  intros Hav [Hn Hx Hs Hr Hi Ht Hci Hcb Hm Hby]. pose proof (fun a k => advance_bn lo s s' a k Hav) as Hbn.
  destruct Hav as [(N1 & N2 & N3) (U1 & U2 & U3 & U4) (C1 & C2 & C3 & C4) (D1 & D2) _ B].
  split; rewrite ?N1, ?N2, ?C1, ?C2, ?C3, ?C4, ?D1, ?D2; try done.
  - lia.
  - rewrite U1, U2, U3, U4. split_and!; try apply Hs. destruct Hs as (_ & _ & -> & _). lia.
  - intros a Ha. destruct (Hi a Ha) as [Ho Hino Hbk Hsz Hty Hl Htab Hd Hu Hre].
    split; rewrite ?N1, ?C1, ?C3, ?C4; try done.
    + destruct (a =? 0); [done|lia].
    + lia.
    + intros k Hk. rewrite Hbn. destruct (Hu k Hk). split; [done|lia].
    + intros k Hk. rewrite Hbn. by apply Hre.
  - intros c Hc. destruct (Ht c Hc) as [Hino Hown Hbc]. split; rewrite ?N1, ?C2, ?C3; try done. lia.
Qed.

Lemma advance_ext c lo s s' : advance lo s s' -> next_ino s <= lo -> ext c s s'.
Proof.
  intros Hav Hlo. pose proof (fun a k => advance_bn lo s s' a k Hav) as Hbn.
  destruct Hav as [(N1 & N2 & N3) _ (C1 & C2 & C3 & C4) _ I _]. split; rewrite ?C1.
  - split_and!; lia.
  - intros a Ha. apply I. lia.
  - intros a Ha. split_and!; try done; try lia.
  - done.
Qed.

Lemma advance_trans lo s1 s2 s3 : advance lo s1 s2 -> advance lo s2 s3 -> advance lo s1 s3.
Proof.
  intros [(N1 & N2 & N3) (U1 & U2 & U3 & U4) (C1 & C2 & C3 & C4) (D1 & D2) I B]
         [(N1' & N2' & N3') (U1' & U2' & U3' & U4') (C1' & C2' & C3' & C4') (D1' & D2') I' B'].
  split; try done.
  - split_and!; congruence || lia.
  - split_and!; congruence || lia.
  - split_and!; congruence.
  - split; congruence.
  - intros a Ha. by rewrite I', I.
Qed.

Lemma numbered_advance own s : mk_ok own s -> next_ino s < ninos s -> advance (next_ino s) s (numbered s).
Proof.
  intros Hok Hn. pose proof (mo_ninos _ _ Hok). pose proof (mk_first _ _ Hok). pose proof (mo_next _ _ Hok).
  destruct (mo_super _ _ Hok) as (_ & _ & Hu & _).
  split; cbn; try done.
  - rewrite u32_small by lia. lia.
  - rewrite !u32_small by lia. split_and!; try done. lia.
  - apply (mo_bytes _ _ Hok).
Qed.

Lemma numbered_next own s : mk_ok own s -> next_ino s < ninos s -> next_ino (numbered s) = next_ino s + 1.
Proof.
  intros Hok Hn. pose proof (mo_ninos _ _ Hok). pose proof (mk_first _ _ Hok). pose proof (mo_next _ _ Hok).
  cbn. apply u32_small. lia.
Qed.

(** ** Writing a block *)
Definition padded (data : mem) (len : Z) : mem :=
  if len =? SFS_BLKSIZE then data else copy (fun _ => 0) 0 data 0 len.
Definition block_written (data : mem) (len b : Z) (s : mksfs) : mksfs :=
  set_img_file (copy (img_file s) (b * SFS_BLKSIZE) (padded data len) 0 SFS_BLKSIZE) s.

Lemma write_block_run s data len b :
  len <= 4096 -> b < ninos s -> write_block data len b s = Done (tt, block_written data len b s).
Proof.
  intros Hl Hb. unfold write_block. mrun. change SFS_BLKSIZE with 4096.
  destruct (Z.leb_spec len 4096); [|lia]. destruct (Z.ltb_spec b (ninos s)); [|lia]. done.
Qed.

Lemma padded_ok data len : bytes_ok data -> bytes_ok (padded data len).
Proof. intros Hd. unfold padded. destruct (_ =? _); [done|]. apply copy_ok; [intros a; lia|done]. Qed.

Lemma padded_in data len o : 0 <= o < len -> len <= 4096 -> padded data len o = data o.
Proof. intros Ho Hl. unfold padded. destruct (_ =? _); [done|]. rewrite copy_in by lia. f_equal. lia. Qed.

Lemma block_written_at data len b s o : 0 <= o < 4096 ->
  img_file (block_written data len b s) (b * 4096 + o) = padded data len o.
Proof. intros Ho. cbn. change SFS_BLKSIZE with 4096. rewrite copy_in by lia. f_equal. lia. Qed.

Lemma block_written_advance own s data len b :
  mk_ok own s -> bytes_ok data -> advance b s (block_written data len b s).
Proof.
  intros Hok Hd. pose proof (mo_next _ _ Hok). destruct (mo_bytes _ _ Hok) as [Hi He].
  split; cbn; try done.
  - lia.
  - split_and!; try done. lia.
  - intros a Ha. change SFS_BLKSIZE with 4096. by rewrite copy_out by lia.
  - split; [|done]. by apply copy_ok; [|apply padded_ok].
Qed.

(** ** One inode grows *)
Record grown (own : Z -> use) (f : Z) (s s' : mksfs) : Prop := mkGrown {
  gr_next : ninos s' = ninos s /\ root s' = root s /\ next_ino s <= next_ino s' <= ninos s;
  gr_super : magic (mk_super s') = magic (mk_super s) /\ blocks (mk_super s') = blocks (mk_super s) /\
             unused_blocks (mk_super s') = unused_blocks (mk_super s) - (next_ino s' - next_ino s) /\
             info (mk_super s') = info (mk_super s);
  gr_heap : nci s' = nci s /\ ncb s <= ncb s' /\ inodes_of s' = inodes_of s;
  gr_chain h c : c ∈ blocks_of s' h <-> 0 <= c < ncb s' /\ h = 0;
  gr_others a : a <> f -> cis s' a = cis s a;
  gr_self : ci_ino (cis s' f) = ci_ino (cis s f) /\ real (cis s' f) = real (cis s f) /\
            hi_type (ci_inode (cis s' f)) = hi_type (ci_inode (cis s f)) /\
            hi_nlinks (ci_inode (cis s' f)) = hi_nlinks (ci_inode (cis s f)) /\
            nblks (cis s f) <= nblks (cis s' f);
  gr_bn k : 0 <= k < nblks (cis s f) -> bn s' f k = bn s f k;
  gr_old c : 0 <= c < ncb s -> cb_ino (cbs s' c) = cb_ino (cbs s c) /\
    (own (cb_ino (cbs s c)) <> UTable f c -> cbs s' c = cbs s c);
  gr_tables c : 0 <= c < ncb s' -> table_fine own s' c;
  gr_fine : inode_fine own s' f;
  gr_img : img_file s' = img_file s /\ entry_buf s' = entry_buf s }.

Section grown.
  Context own f s s' (Hok : mk_ok own s) (Hf : 0 <= f < nci s) (Hg : grown own f s s').

Lemma grown_table a t : 0 <= a < nci s -> a <> f -> l1 (cis s a) = Some t -> cbs s' t = cbs s t.
Proof.
  intros Ha Hne Hl. pose proof (if_table _ _ _ (mo_inodes _ _ Hok a Ha)) as Ht. rewrite Hl in Ht.
  destruct Ht as (Ht & _ & Ho & _). apply (gr_old _ _ _ _ Hg t Ht). rewrite Ho. intros E. by injection E.
Qed.

Lemma grown_bn a k : 0 <= a < nci s -> a <> f -> bn s' a k = bn s a k.
Proof.
  intros Ha Hne. unfold bn. rewrite (gr_others _ _ _ _ Hg a Hne).
  destruct (l1 (cis s a)) as [t|] eqn:Hl; [|done]. by rewrite (grown_table a t Ha Hne Hl).
Qed.

Lemma grown_links a : hi_nlinks (ci_inode (cis s' a)) = hi_nlinks (ci_inode (cis s a)).
Proof.
  destruct (decide (a = f)) as [->|Hne]; [apply (gr_self _ _ _ _ Hg)|by rewrite (gr_others _ _ _ _ Hg)].
Qed.

Lemma grown_ok : mk_ok own s'.
Proof.
  destruct Hok as [Hn Hx Hs Hr Hi Ht Hci Hcb Hm Hby].
  destruct Hg as [(N1 & N2 & N3) (U1 & U2 & U3 & U4) (C1 & C2 & C3) Hch Hoth (S1 & S2 & S3 & S4 & S5) Hbn Hold
                  Htab Hfine (I1 & I2)].
  assert (Hino : forall a, ci_ino (cis s' a) = ci_ino (cis s a) /\ real (cis s' a) = real (cis s a)).
  { intros a. destruct (decide (a = f)) as [->|Hne]; [done|]. by rewrite Hoth. }
  split; rewrite ?N1, ?N2, ?C1, ?C3, ?I1, ?I2; try done.
  - lia.
  - rewrite U1, U2, U3, U4. split_and!; try apply Hs. destruct Hs as (_ & _ & -> & _). lia.
  - split_and!; try done; lia.
  - intros a Ha. destruct (decide (a = f)) as [->|Hne]; [done|].
    destruct (Hi a Ha) as [Ho Hin Hbk Hsz Hty Hl Hta Hd Hu Hre].
    split; rewrite ?N1, ?(Hoth a Hne); try done.
    + destruct (a =? 0); [done|lia].
    + lia.
    + destruct (l1 (cis s a)) as [t|] eqn:El; [|done]. destruct Hta as (? & ? & ? & ?).
      rewrite (grown_table a t Ha Hne El). split_and!; try done; lia.
    + intros k Hk. rewrite grown_bn by done. destruct (Hu k Hk). split; [done|lia].
    + intros k Hk. rewrite grown_bn by done. by apply Hre.
  - intros h a. destruct (Hino a) as [_ ->]. apply Hci.
  - intros a b ? ? ?. destruct (Hino a) as [-> _], (Hino b) as [-> _]. by apply Hm.
Qed.

Lemma grown_ext : ext f s s'.
Proof.
  pose proof Hg as [(N1 & N2 & N3) _ (C1 & C2 & C3) _ Hoth (S1 & S2 & S3 & S4 & S5) Hbn _ _ _ (I1 & I2)].
  split; rewrite ?I1.
  - split_and!; lia.
  - done.
  - intros a Ha. destruct (decide (a = f)) as [->|Hne].
    + split_and!; try done. lia.
    + rewrite (Hoth a Hne). split_and!; try done; try lia. intros k Hk. by apply grown_bn.
  - intros a Ha Hne. by rewrite (Hoth a Hne).
Qed.
End grown.

(** ** [append_block] *)
Definition table_cost (n : Z) : Z := if n =? 12 then 1 else 0.

Record appended (f size b : Z) (s s' : mksfs) : Prop := mkAppended {
  ap_nblks : nblks (cis s' f) = nblks (cis s f) + 1;
  ap_size : hi_size (ci_inode (cis s' f)) = hi_size (ci_inode (cis s f)) + size;
  ap_bn : bn s' f (nblks (cis s f)) = b;
  ap_next : next_ino s' = next_ino s + table_cost (nblks (cis s f));
  ap_links a : hi_nlinks (ci_inode (cis s' a)) = hi_nlinks (ci_inode (cis s a));
  ap_rest : img_file s' = img_file s /\ nci s' = nci s /\ subpath s' = subpath s }.

(** The inode after one more block; [c] says how its block numbers change. *)
Lemma grow_fine own s s' f c size b :
  mk_ok own s -> 0 <= f < nci s -> nblks (cis s f) < max_blocks -> 0 <= size <= 4096 ->
  cis s' f = grow size c ->
  ci_ino c = ci_ino (cis s f) -> nblks c = nblks (cis s f) ->
  hi_size (ci_inode c) = hi_size (ci_inode (cis s f)) -> hi_type (ci_inode c) = hi_type (ci_inode (cis s f)) ->
  hi_blocks (ci_inode c) = hi_blocks (ci_inode (cis s f)) ->
  hi_nlinks (ci_inode c) = hi_nlinks (ci_inode (cis s f)) -> db_indirect (ci_inode c) = 0 ->
  ninos s' = ninos s -> next_ino s <= next_ino s' ->
  (forall k, 0 <= k < max_blocks -> bn s' f k = if decide (k = nblks (cis s f)) then b else bn s f k) ->
  own b = UData f (nblks (cis s f)) -> first_ino (ninos s) <= b < next_ino s ->
  match l1 c with
  | None => hi_indirect (ci_inode c) = 0 /\ nblks c < 12
  | Some t => 0 <= t < ncb s' /\ hi_indirect (ci_inode c) = cb_ino (cbs s' t) /\
              own (cb_ino (cbs s' t)) = UTable f t /\ 12 <= nblks c
  end ->
  inode_fine own s' f.
Proof.
  intros Hok Hf Hlt Hsize Hc Hino Hnb Hsz Hty Hbl Hln Hdb Hni Hnx Hbn Hob Hb Htab.
  destruct (mo_inodes _ _ Hok f Hf) as [Ho Hin [Hbk Hbk'] Hs Ht Hl _ Hd Hu Hre]. unfold max_blocks in *.
  assert (Hgn : nblks (grow size c) = nblks (cis s f) + 1) by (cbn; rewrite Hnb; apply u32_small; lia).
  assert (Hgs : hi_size (ci_inode (grow size c)) = hi_size (ci_inode (cis s f)) + size)
    by (cbn; rewrite Hsz; apply u32_small; lia).
  assert (Hgb : hi_blocks (ci_inode (grow size c)) = nblks (cis s f) + 1)
    by (cbn; rewrite Hbl, Hbk'; apply u32_small; lia).
  split; rewrite Hc, ?Hgn, ?Hgs, ?Hgb; cbn [grow ci_ino ci_inode real hi_type hi_nlinks db_indirect l1];
    rewrite ?Hino, ?Hty, ?Hln, ?Hni; try done; try lia.
  - destruct (f =? 0); [done|lia].
  - unfold max_blocks. lia.
  - cbn [hi_indirect]. destruct (l1 c) as [t|]; [|lia]. destruct Htab as (? & ? & ? & ?). split_and!; try done; lia.
  - intros k Hk. rewrite Hbn by lia. case_decide as Hd'; [subst k|].
    + split; [done|lia].
    + destruct (Hu k ltac:(lia)). split; [done|lia].
  - intros k Hk. unfold max_blocks in Hk. rewrite Hbn by lia. rewrite decide_False by lia. apply Hre. lia.
Qed.

Lemma on_ci_same f g s : cis (on_ci f g s) f = g (cis s f).
Proof. apply upd_eq. Qed.

Lemma on_ci_other f g s a : a <> f -> cis (on_ci f g s) a = cis s a.
Proof. intros. by apply upd_ne. Qed.

Lemma grow_facts own s f c size :
  mk_ok own s -> 0 <= f < nci s -> nblks (cis s f) < max_blocks -> 0 <= size <= 4096 ->
  nblks c = nblks (cis s f) -> hi_size (ci_inode c) = hi_size (ci_inode (cis s f)) ->
  nblks (grow size c) = nblks (cis s f) + 1 /\
  hi_size (ci_inode (grow size c)) = hi_size (ci_inode (cis s f)) + size.
Proof.
  intros Hok Hf Hlt Hsize Hnb Hsz. destruct (mo_inodes _ _ Hok f Hf) as [_ _ [Hbk _] Hs _ _ _ _ _ _].
  unfold max_blocks in *. cbn. rewrite Hnb, Hsz. split; apply u32_small; lia.
Qed.

Lemma append_direct own s f size b :
  mk_ok own s -> 0 <= f < nci s -> nblks (cis s f) < 12 -> 0 <= size <= 4096 ->
  own b = UData f (nblks (cis s f)) -> first_ino (ninos s) <= b < next_ino s ->
  let s' := on_ci f (grow size) (on_ci f (on_inode (set_hi_direct (nblks (cis s f)) b)) s) in
  grown own f s s' /\ appended f size b s s'.
Proof.
  intros Hok Hf Hlt Hsize Hob Hb s'. set (c := on_inode (set_hi_direct (nblks (cis s f)) b) (cis s f)).
  assert (Hc : cis s' f = grow size c) by (unfold s'; by rewrite !on_ci_same).
  assert (Hmax : nblks (cis s f) < max_blocks) by (unfold max_blocks; lia).
  destruct (grow_facts own s f c size Hok Hf Hmax Hsize eq_refl eq_refl) as [Hgn Hgs].
  pose proof (mo_inodes _ _ Hok f Hf) as Hfi. pose proof (mo_next _ _ Hok).
  pose proof (if_table _ _ _ Hfi) as Htab.
  assert (Hl : l1 (cis s f) = None).
  { destruct (l1 (cis s f)); [lia|done]. }
  assert (Hbn : forall k, 0 <= k < max_blocks -> bn s' f k = if decide (k = nblks (cis s f)) then b else bn s f k).
  { intros k Hk. unfold bn. rewrite Hc. cbn [grow ci_inode l1 hi_direct c on_inode set_hi_direct]. rewrite Hl.
    unfold upd. case_decide; [|done]. subst k. by destruct (Z.ltb_spec (nblks (cis s f)) 12); [|lia]. }
  pose proof (if_nblks _ _ _ Hfi) as [Hbk _]. split.
  - split; try done.
    + split_and!; try done; cbn; lia.
    + split_and!; try done. cbn. lia.
    + apply (mo_chain_b _ _ Hok).
    + intros a Ha. unfold s'. by rewrite !on_ci_other.
    + rewrite Hc, Hgn. split_and!; try done. lia.
    + intros k Hk. rewrite Hbn, decide_False by (unfold max_blocks; lia). done.
    + intros t Ht. destruct (mo_tables _ _ Hok t Ht) as [? ? ?]. by split.
    + rewrite Hl in Htab. eapply (grow_fine own s s' f c size b); try done; [apply (if_double _ _ _ Hfi)|].
      cbn. rewrite Hl. cbn. lia.
  - split; rewrite ?Hc; try done.
    + rewrite Hbn, decide_True by (unfold max_blocks; lia || done). done.
    + unfold table_cost. destruct (Z.eqb_spec (nblks (cis s f)) 12); [lia|]. cbn. lia.
    + intros a. destruct (decide (a = f)) as [->|Hne]; [by rewrite Hc|]. unfold s'. by rewrite !on_ci_other.
Qed.

(** The state after [update_cache] handed out table [t] of inode [f]. *)
Record table_ready (own : Z -> use) (f t : Z) (s s1 : mksfs) : Prop := mkTableReady {
  tr_next : ninos s1 = ninos s /\ root s1 = root s /\ next_ino s <= next_ino s1 <= ninos s;
  tr_super : magic (mk_super s1) = magic (mk_super s) /\ blocks (mk_super s1) = blocks (mk_super s) /\
             unused_blocks (mk_super s1) = unused_blocks (mk_super s) - (next_ino s1 - next_ino s) /\
             info (mk_super s1) = info (mk_super s);
  tr_heap : cis s1 = cis s /\ nci s1 = nci s /\ ncb s <= ncb s1 /\ inodes_of s1 = inodes_of s /\
            subpath s1 = subpath s;
  tr_chain h c : c ∈ blocks_of s1 h <-> 0 <= c < ncb s1 /\ h = 0;
  tr_old c : 0 <= c < ncb s -> cbs s1 c = cbs s c;
  tr_tables c : 0 <= c < ncb s1 -> table_fine own s1 c;
  tr_self : 0 <= t < ncb s1 /\ own (cb_ino (cbs s1 t)) = UTable f t;
  tr_entry k : 12 <= k < max_blocks -> get32 (cache (cbs s1 t)) (4 * (k - 12)) = bn s f k;
  tr_img : img_file s1 = img_file s /\ entry_buf s1 = entry_buf s }.

Definition table_appended (f t n size b : Z) (s1 : mksfs) : mksfs :=
  on_ci f (grow size) (on_cb t (fun data => put32 data (4 * (n - SFS_L0_NBLKS)) b)
    (on_ci f (fun c => set_l1 (Some t) (on_inode (set_hi_indirect (cb_ino (cbs s1 t))) c)) s1)).

Lemma append_table own s s1 f t size b :
  mk_ok own s -> 0 <= f < nci s -> 12 <= nblks (cis s f) < max_blocks -> 0 <= size <= 4096 ->
  own b = UData f (nblks (cis s f)) -> first_ino (ninos s) <= b < next_ino s ->
  table_ready own f t s s1 ->
  let s' := table_appended f t (nblks (cis s f)) size b s1 in
  grown own f s s' /\ nblks (cis s' f) = nblks (cis s f) + 1 /\
  hi_size (ci_inode (cis s' f)) = hi_size (ci_inode (cis s f)) + size /\ bn s' f (nblks (cis s f)) = b.
Proof.
  intros Hok Hf Hlt Hsize Hob Hb [(N1 & N2 & N3) U (C1 & C2 & C3 & C4 & _) Hch Hold Htabs (Ht & Hot) Hent (I1 & I2)] s'.
  set (n := nblks (cis s f)) in *.
  set (c := set_l1 (Some t) (on_inode (set_hi_indirect (cb_ino (cbs s1 t))) (cis s f))).
  assert (Hc : cis s' f = grow size c).
  { unfold s', table_appended. rewrite on_ci_same. cbn [on_cb set_cbs cis]. rewrite on_ci_same. by rewrite C1. }
  destruct (grow_facts own s f c size Hok Hf ltac:(unfold n in *; lia) Hsize eq_refl eq_refl) as [Hgn Hgs].
  pose proof (mo_inodes _ _ Hok f Hf) as Hfi. pose proof (mo_next _ _ Hok). pose proof (mo_ninos _ _ Hok).
  pose proof (mk_first _ _ Hok).
  assert (Hcb : cbs s' = upd (cbs s1) t (mkCb (cb_ino (cbs s1 t)) (put32 (cache (cbs s1 t)) (4 * (n - 12)) b))) by done.
  assert (Hci : forall x, cb_ino (cbs s' x) = cb_ino (cbs s1 x)).
  { intros x. rewrite Hcb. unfold upd. case_decide; by subst. }
  assert (Hbn : forall k, 0 <= k < max_blocks -> bn s' f k = if decide (k = n) then b else bn s f k).
  { intros k Hk. unfold bn at 1. rewrite Hc. cbn [grow c set_l1 on_inode set_hi_indirect ci_inode l1 hi_direct].
    destruct (Z.ltb_spec k 12) as [Hk12|Hk12].
    - rewrite decide_False by lia. unfold bn. by destruct (Z.ltb_spec k 12); [|lia].
    - rewrite Hcb, upd_eq. cbn [cache]. case_decide as Hkn.
      + subst k. unfold get32, put32. apply le_get_put. cbn. lia.
      + unfold get32, put32. rewrite le_get_put_other by lia. apply Hent. lia. }
  split; [|by rewrite Hc, Hbn, decide_True by (done || lia)].
  split; try done.
  - intros a Ha. unfold s', table_appended. rewrite on_ci_other by done. cbn [on_cb set_cbs cis].
    by rewrite on_ci_other, C1 by done.
  - rewrite Hc, Hgn. split_and!; try done. fold n. lia.
  - intros k Hk. rewrite Hbn, decide_False by (fold n in Hk; lia). done.
  - intros x Hx. split; [by rewrite Hci, Hold|]. intros Ho. rewrite Hcb, upd_ne; [by apply Hold|].
    intros ->. apply Ho. by rewrite <- Hold.
  - intros x Hx. destruct (Htabs x Hx) as [Hin Hown Hby]. split; rewrite ?Hci; try done.
    rewrite Hcb. unfold upd. case_decide; [subst; by apply le_put_ok|done].
  - eapply (grow_fine own s s' f c size b); try done; [lia|apply (if_double _ _ _ Hfi)|cbn; lia|].
    cbn [c set_l1 l1]. split_and!; rewrite ?Hci; try done; cbn; lia.
Qed.

Lemma update_cache_old own s f t :
  mk_ok own s -> 0 <= f < nci s -> l1 (cis s f) = Some t ->
  update_cache (Some t) (hi_indirect (ci_inode (cis s f))) s = Done ((t, cb_ino (cbs s t)), s) /\
  table_ready own f t s s.
Proof.
  intros Hok Hf Hl. pose proof (mo_inodes _ _ Hok f Hf) as Hfi. pose proof (if_table _ _ _ Hfi) as Ht.
  rewrite Hl in Ht. destruct Ht as (Htr & Hi & Ho & Hn). pose proof (tf_ino _ _ _ (mo_tables _ _ Hok t Htr)).
  pose proof (mk_first _ _ Hok). pose proof (mo_next _ _ Hok). split.
  - unfold update_cache. rewrite Hi. destruct (Z.eqb_spec (cb_ino (cbs s t)) 0); [lia|].
    mrun. rewrite Z.eqb_refl. mrun. by rewrite Z.eqb_refl.
  - split; try done; [split_and!; done || lia|split_and!; done || lia|apply (mo_chain_b _ _ Hok)| |].
    + intros c Hc. apply (mo_tables _ _ Hok c Hc).
    + intros k Hk. unfold bn. rewrite Hl. by destruct (Z.ltb_spec k 12); [lia|].
Qed.

Lemma hash_zero : hash32 0 HASH_SHIFT = 0.
Proof. done. Qed.

Lemma update_cache_new own s f :
  mk_ok own s -> 0 <= f < nci s -> nblks (cis s f) = 12 -> next_ino s < ninos s ->
  exists s1, update_cache (l1 (cis s f)) (hi_indirect (ci_inode (cis s f))) s
             = Done ((ncb s, next_ino s), s1) /\
    cb_ino (cbs s1 (ncb s)) = next_ino s /\ next_ino s1 = next_ino s + 1 /\
    table_ready (upd own (next_ino s) (UTable f (ncb s))) f (ncb s) s s1.
Proof.
  intros Hok Hf Hn Hroom. pose proof (mo_inodes _ _ Hok f Hf) as Hfi. pose proof (if_table _ _ _ Hfi) as Ht.
  destruct (l1 (cis s f)) as [t|] eqn:Hl; [lia|]. destruct Ht as [Hi _].
  set (own' := upd own (next_ino s) (UTable f (ncb s))).
  pose proof (name_use own s (next_ino s) (UTable f (ncb s)) Hok ltac:(lia)) as Hok'. fold own' in Hok'.
  pose proof (numbered_advance own s Hok Hroom) as Hav. pose proof (numbered_next own s Hok Hroom) as Hnx.
  pose proof (advance_ok _ _ _ _ Hav Hok') as Hokn. destruct Hav as [N U (C1 & C2 & C3 & C4) (D1 & D2) I B].
  destruct (mo_root _ _ Hok) as (_ & _ & Hcb0).
  set (s1 := set_blocks_of (upd (blocks_of s) 0 (ncb s :: blocks_of s 0))
               (set_cbs (upd (cbs s) (ncb s) (mkCb (next_ino s) (fun _ => 0))) (ncb s + 1) (numbered s))).
  assert (Hrun : alloc_cache_block 0 s = Done (ncb s, s1)).
  { unfold alloc_cache_block. cbn [Z.eqb negb]. mstep (sfs_alloc_ino_run s Hroom). mrun. by rewrite hash_zero. }
  assert (Hnew : cbs s1 (ncb s) = mkCb (next_ino s) (fun _ => 0)) by apply upd_eq.
  exists s1. split; [|split_and!; [by rewrite Hnew|exact Hnx|]].
  - unfold update_cache. rewrite Hi. cbn [Z.eqb]. mstep Hrun.
    mstep (eq_refl : get (fun x => cb_ino (cbs x (ncb s))) s1 = Done (cb_ino (cbs s1 (ncb s)), s1)).
    by rewrite Hnew.
  - split; try done.
    + split_and!; try done. cbn. lia.
    + intros h c. pose proof (mo_chain_b _ _ Hok h c) as Hc. cbn. unfold upd. case_decide as Hh.
      * subst h. rewrite elem_of_cons, (mo_chain_b _ _ Hok). split; [intros [->|[? _]]|]; lia.
      * rewrite Hc. split; [|lia]. intros [? ?]. lia.
    + intros c Hc. cbn. rewrite upd_ne by lia. done.
    + intros c Hc. destruct (decide (c = ncb s)) as [->|Hne].
      * pose proof (mo_next _ _ Hok). split; rewrite ?Hnew; cbn [cb_ino cache].
        -- change (ninos s1) with (ninos s). change (next_ino s1) with (next_ino (numbered s)). lia.
        -- exists f. split; [done|]. apply upd_eq.
        -- intros a. lia.
      * assert (Hc' : 0 <= c < ncb s) by (cbn in Hc; lia).
        assert (E : cbs s1 c = cbs (numbered s) c) by (cbn; apply upd_ne; lia).
        destruct (mo_tables _ _ Hokn c) as [? ? ?]; [cbn; lia|]. by split; rewrite ?E.
    + split; [cbn; lia|]. rewrite Hnew. apply upd_eq.
    + intros k Hk. rewrite Hnew. rewrite (if_rest _ _ _ Hfi) by lia. apply le_get_zero. done.
Qed.

(** One more block: the inode has it at its end, the rest is as it was. *)
Lemma append_block_spec own s f size b :
  mk_ok own s -> 0 <= f < nci s -> nblks (cis s f) < max_blocks -> 0 <= size <= 4096 ->
  own b = UData f (nblks (cis s f)) -> first_ino (ninos s) <= b < next_ino s ->
  next_ino s + table_cost (nblks (cis s f)) <= ninos s ->
  exists own' s', append_block f size b s = Done (tt, s') /\ mk_ok own' s' /\ ext f s s' /\
    appended f size b s s'.
Proof.
  intros Hok Hf Hmax Hsize Hob Hb Hroom. pose proof (mo_inodes _ _ Hok f Hf) as Hfi.
  pose proof (if_nblks _ _ _ Hfi) as [Hnb _]. unfold max_blocks in Hmax.
  assert (Hrun : append_block f size b s
    = ((if nblks (cis s f) <? 12 then modify (on_ci f (on_inode (set_hi_direct (nblks (cis s f)) b)))
        else '(c, v) ← update_cache (l1 (cis s f)) (hi_indirect (ci_inode (cis s f)));
          modify (on_ci f (fun x => set_l1 (Some c) (on_inode (set_hi_indirect v) x))) ;;
          modify (on_cb c (fun data => put32 data (4 * (nblks (cis s f) - SFS_L0_NBLKS)) b))) ;;
       modify (on_ci f (grow size))) s).
  { unfold append_block. change SFS_BLKSIZE with 4096. destruct (Z.leb_spec size 4096); [|lia].
    mstep (assert_true true s eq_refl). mstep (eq_refl : get (fun s => cis s f) s = Done (cis s f, s)).
    change SFS_LN_NBLKS with 32768. destruct (Z.leb_spec 32768 (nblks (cis s f))); [lia|].
    change SFS_L0_NBLKS with 12. change SFS_L1_NBLKS with 1036.
    destruct (Z.ltb_spec (nblks (cis s f)) 1036); [|lia]. by destruct (nblks (cis s f) <? 12). }
  destruct (Z.ltb_spec (nblks (cis s f)) 12) as [Hd|Hd].
  - destruct (append_direct own s f size b Hok Hf Hd Hsize Hob Hb) as [Hg Ha].
    eexists own, _. split; [rewrite Hrun; reflexivity|]. split; [|split; [|exact Ha]].
    + by eapply grown_ok.
    + by eapply grown_ext.
  - destruct (decide (nblks (cis s f) = 12)) as [He|He]; unfold table_cost in Hroom.
    + rewrite He in Hroom. cbn in Hroom.
      destruct (update_cache_new own s f Hok Hf He ltac:(lia)) as (s1 & Hu & Hci & Hnx & Htr).
      set (own' := upd own (next_ino s) (UTable f (ncb s))) in *.
      pose proof (name_use own s (next_ino s) (UTable f (ncb s)) Hok ltac:(lia)) as Hok'.
      destruct (append_table own' s s1 f (ncb s) size b Hok' Hf ltac:(unfold max_blocks; lia) Hsize) as (Hg & Ha);
        [unfold own'; by rewrite upd_ne by lia|done|done|].
      exists own', (table_appended f (ncb s) (nblks (cis s f)) size b s1). split.
      { rewrite Hrun. cbv iota. unfold mbind, ST_bind. rewrite Hu. unfold table_appended. by rewrite Hci. }
      split; [by eapply grown_ok|]. split; [by eapply grown_ext|].
      destruct Htr as [_ _ (_ & C2 & _ & _ & C5) _ _ _ _ _ (I1 & _)]. destruct Ha as (A1 & A2 & A3).
      split; try done; [|by eapply grown_links]. rewrite He. unfold table_cost. cbn. lia.
    + destruct (Z.eqb_spec (nblks (cis s f)) 12); [done|].
      pose proof (if_table _ _ _ Hfi) as Ht. destruct (l1 (cis s f)) as [t|] eqn:Hl; [|lia].
      destruct (update_cache_old own s f t Hok Hf Hl) as [Hu Htr].
      destruct (append_table own s s f t size b Hok Hf ltac:(unfold max_blocks; lia) Hsize Hob Hb Htr)
        as (Hg & A1 & A2 & A3).
      exists own, (table_appended f t (nblks (cis s f)) size b s). split.
      { rewrite Hrun. cbv iota. unfold mbind, ST_bind. rewrite Hu. done. }
      split; [by eapply grown_ok|]. split; [by eapply grown_ext|].
      split; try done; [|by eapply grown_links]. unfold table_cost.
      destruct (Z.eqb_spec (nblks (cis s f)) 12); [done|]. cbn. lia.
Qed.

(** ** A block number, the block, its place in the file *)
Record emitted (f : Z) (data : mem) (len : Z) (s s' : mksfs) : Prop := mkEmitted {
  em_nblks : nblks (cis s' f) = nblks (cis s f) + 1;
  em_size : hi_size (ci_inode (cis s' f)) = hi_size (ci_inode (cis s f)) + len;
  em_bn : bn s' f (nblks (cis s f)) = next_ino s;
  em_next : next_ino s' = next_ino s + 1 + table_cost (nblks (cis s f));
  em_img o : 0 <= o < 4096 -> img_file s' (next_ino s * 4096 + o) = padded data len o;
  em_links a : hi_nlinks (ci_inode (cis s' a)) = hi_nlinks (ci_inode (cis s a));
  em_rest : nci s' = nci s /\ subpath s' = subpath s }.

Lemma emit_spec own s f data len :
  mk_ok own s -> 0 <= f < nci s -> nblks (cis s f) < max_blocks -> 0 <= len <= 4096 -> bytes_ok data ->
  next_ino s + 1 + table_cost (nblks (cis s f)) <= ninos s ->
  sfs_alloc_ino s = Done (next_ino s, numbered s) /\
  write_block data len (next_ino s) (numbered s) = Done (tt, block_written data len (next_ino s) (numbered s)) /\
  exists own' s', append_block f len (next_ino s) (block_written data len (next_ino s) (numbered s)) = Done (tt, s') /\
    mk_ok own' s' /\ ext f s s' /\ emitted f data len s s'.
Proof.
  intros Hok Hf Hmax Hlen Hd Hroom.
  assert (Hr : next_ino s < ninos s) by (unfold table_cost in Hroom; destruct (_ =? 12); lia).
  split; [by apply sfs_alloc_ino_run|]. split; [apply write_block_run; [lia|done]|].
  set (own1 := upd own (next_ino s) (UData f (nblks (cis s f)))).
  pose proof (name_use own s (next_ino s) (UData f (nblks (cis s f))) Hok ltac:(lia)) as Hok1. fold own1 in Hok1.
  pose proof (numbered_advance own1 s Hok1 Hr) as Hav1. pose proof (numbered_next own1 s Hok1 Hr) as Hnx.
  pose proof (advance_ok _ _ _ _ Hav1 Hok1) as Hok2.
  pose proof (block_written_advance own1 (numbered s) data len (next_ino s) Hok2 Hd) as Hav2.
  pose proof (advance_trans _ _ _ _ Hav1 Hav2) as Hav. pose proof (advance_ok _ _ _ _ Hav Hok1) as Hok3.
  set (s2 := block_written data len (next_ino s) (numbered s)) in *.
  pose proof (mo_next _ _ Hok).
  destruct (append_block_spec own1 s2 f len (next_ino s) Hok3) as (own' & s' & Hrun & Hok' & Hext & Hap);
    [done|done|done|apply upd_eq| | |].
  { change (ninos s2) with (ninos s). change (next_ino s2) with (next_ino (numbered s)). lia. }
  { change (ninos s2) with (ninos s). change (next_ino s2) with (next_ino (numbered s)).
    change (cis s2 f) with (cis s f). lia. }
  exists own', s'. split; [done|]. split; [done|]. split.
  { eapply ext_trans; [by eapply advance_ext|exact Hext|by left]. }
  destruct Hap as [A1 A2 A3 A4 AL (A5 & A6 & A7)]. split; try done.
  - rewrite A4. change (next_ino s2) with (next_ino (numbered s)). rewrite Hnx. change (cis s2 f) with (cis s f). lia.
  - intros o Ho. rewrite A5. by apply block_written_at.
Qed.

(** ** One more link *)
Lemma inc_links_spec own s f c :
  mk_ok own s -> 0 <= f < nci s -> hi_nlinks (ci_inode (cis s f)) + 1 < next_ino s ->
  let s' := on_ci f (on_inode inc_nlinks) s in
  mk_ok own s' /\ ext c s s' /\ hi_nlinks (ci_inode (cis s' f)) = hi_nlinks (ci_inode (cis s f)) + 1.
Proof.
  intros Hok Hf Hl s'. pose proof (mo_inodes _ _ Hok f Hf) as Hfi. pose proof (if_links _ _ _ Hfi).
  pose proof (mo_ninos _ _ Hok). pose proof (mo_next _ _ Hok).
  assert (Hc : cis s' f = on_inode inc_nlinks (cis s f)) by apply on_ci_same.
  assert (Hnl : hi_nlinks (ci_inode (cis s' f)) = hi_nlinks (ci_inode (cis s f)) + 1).
  { rewrite Hc. cbn. apply Z.mod_small. lia. }
  assert (Hbn : forall a k, bn s' a k = bn s a k).
  { intros a k. unfold bn. destruct (decide (a = f)) as [->|Hne]; [by rewrite Hc|].
    unfold s'. by rewrite on_ci_other by done. }
  assert (Hsame : forall a, ci_ino (cis s' a) = ci_ino (cis s a) /\ real (cis s' a) = real (cis s a) /\
    hi_type (ci_inode (cis s' a)) = hi_type (ci_inode (cis s a)) /\ nblks (cis s' a) = nblks (cis s a) /\
    hi_size (ci_inode (cis s' a)) = hi_size (ci_inode (cis s a)) /\ l1 (cis s' a) = l1 (cis s a) /\
    hi_blocks (ci_inode (cis s' a)) = hi_blocks (ci_inode (cis s a)) /\
    hi_indirect (ci_inode (cis s' a)) = hi_indirect (ci_inode (cis s a)) /\
    db_indirect (ci_inode (cis s' a)) = db_indirect (ci_inode (cis s a)) /\
    (a <> f -> hi_nlinks (ci_inode (cis s' a)) = hi_nlinks (ci_inode (cis s a)))).
  { intros a. destruct (decide (a = f)) as [->|Hne]; [by rewrite Hc|].
    unfold s'. by rewrite on_ci_other by done. }
  split; [|split; [|done]].
  - destruct Hok as [Hn Hx Hs Hr Hi Ht Hci Hcb Hm Hby]. split; try done.
    + intros a Ha. destruct (Hsame a) as (E1 & E2 & E3 & E4 & E5 & E6 & E7 & E8 & E9 & E10).
      destruct (Hi a Ha) as [? ? ? ? ? Hla ? ? Hu Hre].
      split; rewrite ?E1, ?E3, ?E4, ?E5, ?E6, ?E7, ?E8, ?E9; try done.
      * destruct (decide (a = f)) as [->|Hne]; [change (next_ino s') with (next_ino s); lia|by rewrite E10].
      * intros k Hk. rewrite Hbn. by apply Hu.
      * intros k Hk. rewrite Hbn. by apply Hre.
    + intros x Hx'. destruct (Ht x Hx') as [? ? ?]. by split.
    + intros h a. destruct (Hsame a) as (_ & -> & _). apply Hci.
    + intros a b ? ? ?. destruct (Hsame a) as (-> & _), (Hsame b) as (-> & _). by apply Hm.
  - split; try done.
    + intros a Ha. destruct (Hsame a) as (E1 & E2 & E3 & E4 & E5 & E6 & E7 & E8 & E9 & E10).
      split_and!; try done; [|lia].
      destruct (decide (a = f)) as [->|Hne]; [lia|by rewrite E10].
    + intros a Ha Hne. destruct (Hsame a) as (_ & _ & _ & -> & -> & _). done.
Qed.

(** ** Bytes and names in a buffer *)
Lemma put_bytes_out l : forall m a x, x < a \/ a + Z.of_nat (length l) <= x -> put_bytes m a l x = m x.
Proof.
  induction l as [|b l IH]; intros m a x Hx; [done|]. cbn in *. rewrite IH by lia. apply upd_ne. lia.
Qed.

Lemma put_bytes_in l : forall m a i, 0 <= i < Z.of_nat (length l) ->
  put_bytes m a l (a + i) = nth (Z.to_nat i) l 0.
Proof.
  induction l as [|b l IH]; intros m a i Hi; [cbn in Hi; lia|]. cbn [length] in Hi. cbn [put_bytes].
  destruct (decide (i = 0)) as [->|Hne].
  - rewrite put_bytes_out by lia. rewrite Z.add_0_r. apply upd_eq.
  - replace (a + i) with (a + 1 + (i - 1)) by lia. rewrite IH by lia.
    replace (Z.to_nat i) with (S (Z.to_nat (i - 1))) by lia. done.
Qed.

Definition bytes (l : list Z) : Prop := Forall (fun b => 0 <= b < 256) l.

Lemma put_bytes_ok l : forall m a, bytes_ok m -> bytes l -> bytes_ok (put_bytes m a l).
Proof.
  induction l as [|b l IH]; intros m a Hm Hl; [done|]. apply Forall_cons in Hl as [? ?].
  apply IH; [by apply upd_ok|done].
Qed.

Lemma nth_bytes l i : bytes l -> 0 <= nth i l 0 < 256.
Proof.
  intros Hl. destruct (decide (i < length l)%nat) as [Hi|Hi].
  - unfold bytes in Hl. rewrite Forall_forall in Hl. apply Hl, list_elem_of_In, nth_In. done.
  - rewrite nth_overflow by lia. lia.
Qed.

Lemma cstr_of l : forall m a k, (length l <= k)%nat -> Forall (fun b => b <> 0) l ->
  (forall i, 0 <= i < Z.of_nat (length l) -> m (a + i) = nth (Z.to_nat i) l 0) ->
  ((length l < k)%nat -> m (a + Z.of_nat (length l)) = 0) -> cstr m a k = l.
Proof.
  induction l as [|b l IH]; intros m a k Hk Hnz Hm Hend.
  - destruct k as [|k]; [done|]. cbn. specialize (Hend ltac:(cbn; lia)). cbn in Hend.
    rewrite Z.add_0_r in Hend. by rewrite Hend.
  - destruct k as [|k]; [cbn in Hk; lia|]. apply Forall_cons in Hnz as [Hb Hnz]. cbn [length] in *.
    assert (H0 : m a = b) by (rewrite <- (Z.add_0_r a); exact (Hm 0 ltac:(lia))). cbn [cstr]. rewrite H0.
    destruct (Z.eqb_spec b 0); [done|]. f_equal. apply IH; [lia|done| |].
    + intros i Hi. replace (a + 1 + i) with (a + (i + 1)) by lia. rewrite Hm by lia.
      by replace (Z.to_nat (i + 1)) with (S (Z.to_nat i)) by lia.
    + intros ?. replace (a + 1 + Z.of_nat (length l)) with (a + Z.of_nat (S (length l))) by lia. apply Hend. lia.
Qed.
