(* ===== verification/MksfsTree.v ===== *)
(** * The disk image tool: the tree it builds

    A [view] is a set of inodes with their blocks, as the tool has them in memory
    or as the image has them; [tree_in] says that a listing of the host is found
    under a directory of a view.  The walk of the tool builds it. *)
From Stdlib Require Import String.
From S2P Require Import Prelude Libs Mem Printfmt Disk Bitmap SfsIo SfsInode SfsAlloc SfsMap SfsFile.
From S2P Require Import SfsDir SfsDirSpec SfsCache SfsFs SfsFsSpec Mksfs MksfsInv.

(** ** Directories and files in a view *)
Record view := mkView {
  v_good : Z -> Prop; v_ino : Z -> Z; v_type : Z -> Z; v_size : Z -> Z; v_nblks : Z -> Z; v_nlinks : Z -> Z;
  v_block : Z -> Z -> Z; v_img : mem }.

Definition state_view (s : mksfs) : view :=
  mkView (fun a => 0 <= a < nci s) (fun a => ci_ino (cis s a)) (fun a => hi_type (ci_inode (cis s a)))
         (fun a => hi_size (ci_inode (cis s a))) (fun a => nblks (cis s a))
         (fun a => hi_nlinks (ci_inode (cis s a))) (bn s) (img_file s).

Ltac view := cbn [v_good v_ino v_type v_size v_nblks v_nlinks v_block v_img state_view] in *.

(** Slot [k] of directory [dir] names node [a]. *)
Definition slot_in (v : view) (dir k : Z) (name : list Z) (a : Z) : Prop :=
  0 <= k < v_nblks v dir /\ v_good v a /\ 1 <= v_nlinks v a /\
  get32 (v_img v) (v_block v dir k * 4096) = v_ino v a /\
  cstr (v_img v) (v_block v dir k * 4096 + 4) 255 = name.

(** Node [a] is a file, or a link, with these bytes. *)
Definition data_in (v : view) (a type : Z) (data : list Z) : Prop :=
  v_type v a = type /\ v_size v a = Z.of_nat (length data) /\
  v_nblks v a = ceil_blocks (Z.of_nat (length data)) /\
  forall p, 0 <= p < Z.of_nat (length data) ->
    v_img v (v_block v a (p / 4096) * 4096 + p mod 4096) = nth (Z.to_nat p) data 0.

(** What the reads of a file give. *)
Definition read_data (reads : list (option (list Z))) : list Z :=
  concat (List.map (fun r => match r with Some chunk => chunk | None => [] end) reads).

(** The visible entries of the listing are the slots of [dir] from [k] on, up to
    its end. *)
Fixpoint tree_in (v : view) (dir k : Z) (es : dirlist) : Prop :=
  match es with
  | DEnd => v_nblks v dir = k /\ v_size v dir = 256 * k
  | DReg name _ reads rest =>
      if skipped name then tree_in v dir k rest
      else (exists a, slot_in v dir k name a /\ data_in v a SFS_TYPE_FILE (read_data reads)) /\
           tree_in v dir (k + 1) rest
  | DLnk name _ target rest =>
      if skipped name then tree_in v dir k rest
      else (exists a, slot_in v dir k name a /\ data_in v a SFS_TYPE_LINK (read_data [target])) /\
           tree_in v dir (k + 1) rest
  | DDir name _ sub rest =>
      if skipped name then tree_in v dir k rest
      else (exists a, slot_in v dir k name a /\ dir < a /\ v_type v a = SFS_TYPE_DIR /\
              slot_in v a 0 (text ".") a /\ slot_in v a 1 (text "..") dir /\ tree_in v a 2 sub) /\
           tree_in v dir (k + 1) rest
  | DOther _ rest | DFail _ rest => tree_in v dir k rest
  end.

Definition home_in (v : view) (a : Z) (home : dirlist) : Prop :=
  v_type v a = SFS_TYPE_DIR /\ slot_in v a 0 (text ".") a /\ slot_in v a 1 (text "..") a /\ tree_in v a 2 home.

(** ** What later steps keep *)
Section keep.
  Context own c s s' (Hok : mk_ok own s) (He : ext c s s').

Lemma good_ext a : v_good (state_view s) a -> v_good (state_view s') a.
Proof. pose proof (ex_count _ _ _ He). cbn. lia. Qed.

Lemma block_bytes a k o : 0 <= a < nci s -> 0 <= k < nblks (cis s a) -> 0 <= o < 4096 ->
  bn s' a k = bn s a k /\ img_file s' (bn s a k * 4096 + o) = img_file s (bn s a k * 4096 + o).
Proof.
  intros Ha Hk Ho. destruct (ex_same _ _ _ He a Ha) as (_ & _ & _ & _ & _ & Hb). split; [by apply Hb|].
  apply (ex_img _ _ _ He). destruct (if_used _ _ _ (mo_inodes _ _ Hok a Ha) k Hk). lia.
Qed.

Lemma slot_ext dir k name a : 0 <= dir < nci s ->
  slot_in (state_view s) dir k name a -> slot_in (state_view s') dir k name a.
Proof.
  intros Hdir (Hk & Ha & Hl & Hi & Hn). view.
  destruct (ex_same _ _ _ He dir Hdir) as (_ & _ & _ & _ & Hnb & Hb).
  destruct (ex_same _ _ _ He a Ha) as (Eino & _ & _ & Hnl & _ & _).
  pose proof (ex_count _ _ _ He). unfold slot_in. view. rewrite Hb by lia. split_and!; try lia.
  - rewrite Eino, <- Hi. apply get32_ext. intros o Ho. by apply block_bytes; [|lia..].
  - rewrite <- Hn. apply cstr_ext. intros o Ho. rewrite <- !Z.add_assoc. by apply block_bytes; [|lia..].
Qed.

Lemma data_ext a type data : 0 <= a < nci s -> a <> c ->
  data_in (state_view s) a type data -> data_in (state_view s') a type data.
Proof.
  intros Ha Hne (Ht & Hs & Hn & Hd). view.
  destruct (ex_same _ _ _ He a Ha) as (_ & _ & Et & _). destruct (ex_keep _ _ _ He a Ha Hne) as [En Es].
  unfold data_in. view. rewrite Et, En, Es. split_and!; try done. intros p Hp. rewrite <- Hd by done.
  pose proof (block_of p ltac:(lia)) as (H1 & H2 & H3).
  assert (p / 4096 < nblks (cis s a)).
  { rewrite Hn. unfold ceil_blocks. apply Z.div_lt_upper_bound; [lia|].
    pose proof (Z.mul_div_le (Z.of_nat (length data) + 4095) 4096 ltac:(lia)).
    pose proof (Z.mod_pos_bound (Z.of_nat (length data) + 4095) 4096 ltac:(lia)).
    pose proof (Z.div_mod (Z.of_nat (length data) + 4095) 4096 ltac:(lia)). lia. }
  destruct (block_bytes a (p / 4096) (p mod 4096) Ha) as [E1 E2]; [lia..|]. by rewrite E1, E2.
Qed.

(** Trees below nodes that [c] is not among. *)
Lemma tree_ext es : (0 <= c < nci s -> hi_type (ci_inode (cis s c)) = SFS_TYPE_DIR) ->
  forall dir k, c < dir -> 0 <= dir < nci s -> tree_in (state_view s) dir k es -> tree_in (state_view s') dir k es.
Proof.
  intros Hc. assert (Hnc : forall a type data, type <> SFS_TYPE_DIR -> 0 <= a < nci s ->
    data_in (state_view s) a type data -> data_in (state_view s') a type data).
  { intros a type data Hty Ha Hd. apply data_ext; [done| |done]. intros ->. destruct Hd as [Ht _]. cbn in Ht.
    apply Hty. by rewrite <- Ht, Hc. }
  induction es as [|name rl reads rest IH|name rl target rest IH|name rl sub IHs rest IH|name rest IH|name rest IH];
    intros dir k Hlt Hdir; cbn [tree_in]; try (by apply IH).
  - cbn. destruct (ex_keep _ _ _ He dir Hdir ltac:(lia)) as [-> ->]. done.
  - destruct (skipped name); [by apply IH|]. intros [(a & Hs & Hd) Hr]. split; [|by apply IH].
    exists a. split; [by apply slot_ext|]. apply Hnc; [done|apply Hs|done].
  - destruct (skipped name); [by apply IH|]. intros [(a & Hs & Hd) Hr]. split; [|by apply IH].
    exists a. split; [by apply slot_ext|]. apply Hnc; [done|apply Hs|done].
  - destruct (skipped name); [by apply IH|]. intros [(a & Hs & Hda & Ht & Hs0 & Hs1 & Hsub) Hr].
    split; [|by apply IH]. pose proof Hs as (_ & Ha & _). cbn in Ha.
    destruct (ex_same _ _ _ He a Ha) as (_ & _ & Et & _).
    exists a. split_and!; [by apply slot_ext|done|cbn; by rewrite Et|by apply slot_ext|by apply slot_ext|].
    apply IHs; [lia|done|done].
Qed.
End keep.

(** ** The entry of a file in a directory *)
Definition name_ok (name : list Z) : Prop :=
  Z.of_nat (length name) <= 252 /\ bytes name /\ Forall (fun b => b <> 0) name.

Lemma entry_bytes eb n name :
  0 <= n < 2 ^ 32 -> name_ok name -> forall m b, (forall o, 0 <= o < 4096 -> m (b + o)
    = padded (put_string (put32 eb 0 n) 4 name) 256 o) ->
  get32 m b = n /\ cstr m (b + 4) 255 = name.
Proof.
  intros Hn (Hl & Hby & Hnz) m b Hm. unfold put_string in Hm. set (e := put_bytes (put32 eb 0 n) 4 (name ++ [0])) in *.
  assert (Hlen : Z.of_nat (length (name ++ [0])) = Z.of_nat (length name) + 1) by (rewrite length_app; cbn; lia).
  split.
  - assert (Hg : get32 m b = get32 (put32 eb 0 n) 0).
    { apply get32_ext. intros o Ho. rewrite Hm, padded_in by lia. unfold e. by rewrite put_bytes_out by lia. }
    rewrite Hg. unfold get32, put32. by apply le_get_put.
  - apply cstr_of; [lia|done| |].
    + intros i Hi. rewrite <- Z.add_assoc, Hm, padded_in by lia. unfold e. rewrite put_bytes_in by lia.
      by rewrite app_nth1 by lia.
    + intros _. rewrite <- Z.add_assoc, Hm by lia. destruct (decide (4 + Z.of_nat (length name) < 256)).
      * rewrite padded_in by lia. unfold e. rewrite put_bytes_in by lia.
        rewrite app_nth2 by lia. by replace (Z.to_nat (Z.of_nat (length name)) - length name)%nat with 0%nat by lia.
      * unfold padded. change (256 =? SFS_BLKSIZE) with false. cbv iota. by rewrite copy_out by lia.
Qed.

Record entered (cur file : Z) (name : list Z) (s s' : mksfs) : Prop := mkEntered {
  en_slot : slot_in (state_view s') cur (nblks (cis s cur)) name file;
  en_nblks : nblks (cis s' cur) = nblks (cis s cur) + 1;
  en_size : hi_size (ci_inode (cis s' cur)) = hi_size (ci_inode (cis s cur)) + 256;
  en_next : next_ino s' = next_ino s + 1 + table_cost (nblks (cis s cur));
  en_rest : nci s' = nci s /\ subpath s' = subpath s }.

Lemma add_entry_spec own s cur file name :
  mk_ok own s -> 0 <= cur < nci s -> 0 <= file < nci s -> name_ok name ->
  hi_type (ci_inode (cis s cur)) = SFS_TYPE_DIR -> nblks (cis s cur) < max_blocks ->
  next_ino s + 1 + table_cost (nblks (cis s cur)) <= ninos s ->
  exists own' s', add_entry cur file name s = Done (tt, s') /\ mk_ok own' s' /\ ext cur s s' /\
    entered cur file name s s'.
Proof.
  intros Hok Hcur Hfile Hname Hty Hmax Hroom. pose proof Hname as (Hlen & Hby & Hnz).
  set (eb := put_string (put32 (entry_buf s) 0 (ci_ino (cis s file))) 4 name).
  assert (Heb : bytes_ok eb).
  { apply put_bytes_ok; [apply le_put_ok, (mo_bytes _ _ Hok)|]. apply Forall_app. split; [done|].
    apply Forall_singleton. lia. }
  set (s0 := set_entry_buf eb s). pose proof (mo_next _ _ Hok).
  assert (Hav : advance (next_ino s) s s0).
  { split; try done; [split_and!; cbn; lia || done|split_and!; cbn; lia || done|].
    split; [apply (mo_bytes _ _ Hok)|done]. }
  pose proof (advance_ok _ _ _ _ Hav Hok) as Hok0.
  destruct (emit_spec own s0 cur eb 256 Hok0 Hcur Hmax ltac:(lia) Heb Hroom)
    as (R1 & R2 & own' & s3 & R3 & Hok3 & He3 & [A1 A2 A3 A4 A5 AL (A6 & A7)]).
  assert (He : ext cur s s3) by (eapply ext_trans; [by eapply advance_ext|exact He3|by left]).
  destruct (ex_same _ _ _ He file Hfile) as (Eino & _ & _ & _ & _ & _).
  change (next_ino s0) with (next_ino s) in *. change (cis s0) with (cis s) in *. change (nci s0) with (nci s) in *.
  assert (Hlk : hi_nlinks (ci_inode (cis s3 file)) + 1 < next_ino s3).
  { pose proof (if_links _ _ _ (mo_inodes _ _ Hok file Hfile)). rewrite AL, A4. change (cis s0) with (cis s).
    unfold table_cost. destruct (_ =? 12); lia. }
  destruct (inc_links_spec own' s3 file cur Hok3 ltac:(lia) Hlk) as (Hok4 & He4 & Hnl4).
  set (s4 := on_ci file (on_inode inc_nlinks) s3) in *.
  exists own', s4. split; [|split; [done|split; [by eapply ext_trans; [exact He|exact He4|left]|]]].
  - unfold add_entry. mstep (eq_refl : get (fun s => hi_type (ci_inode (cis s cur))) s = Done (hi_type (ci_inode (cis s cur)), s)).
    rewrite Hty. assert (Hl : (SFS_TYPE_DIR =? SFS_TYPE_DIR) && (Z.of_nat (length name) <=? SFS_MAX_FNAME_LEN) = true).
    { rewrite Z.eqb_refl. apply Z.leb_le. change SFS_MAX_FNAME_LEN with 255. lia. }
    mstep (assert_true _ s Hl). mstep (eq_refl : get (fun s => ci_ino (cis s file)) s = Done (ci_ino (cis s file), s)).
    mstep (eq_refl : modify (fun x => set_entry_buf (put_string (put32 (entry_buf x) 0 (ci_ino (cis s file))) 4 name) x) s = Done (tt, s0)).
    mstep R1. mstep (eq_refl : get entry_buf (numbered s0) = Done (eb, numbered s0)). mstep R2. mstep R3. done.
  - assert (Hcur4 : nblks (cis s4 cur) = nblks (cis s3 cur)).
    { unfold s4. destruct (decide (cur = file)) as [->|Hne]; [by rewrite on_ci_same|by rewrite on_ci_other]. }
    assert (Hsz4 : hi_size (ci_inode (cis s4 cur)) = hi_size (ci_inode (cis s3 cur))).
    { unfold s4. destruct (decide (cur = file)) as [->|Hne]; [by rewrite on_ci_same|by rewrite on_ci_other]. }
    assert (Hnb : 0 <= nblks (cis s cur)) by apply (if_nblks _ _ _ (mo_inodes _ _ Hok cur Hcur)).
    destruct (ex_same _ _ _ He4 cur ltac:(lia)) as (_ & _ & _ & _ & _ & Hb4).
    destruct (ex_same _ _ _ He4 file ltac:(lia)) as (Eino4 & _).
    destruct (inode_ino_lt own s file Hok Hfile). pose proof (mo_ninos _ _ Hok).
    destruct (entry_bytes (entry_buf s) (ci_ino (cis s file)) name ltac:(lia) Hname (img_file s4) (next_ino s * 4096))
      as [G1 G2].
    { intros o Ho. change (img_file s4) with (img_file s3). exact (A5 o Ho). }
    split; [|congruence|congruence|exact A4|exact (conj A6 A7)].
    pose proof (if_links _ _ _ (mo_inodes _ _ Hok3 file ltac:(lia))).
    unfold slot_in. view. rewrite Hb4, A3 by lia. split_and!; try lia; [|exact G2].
    change (nci s4) with (nci s3). lia.
Qed.

(** ** The cache of inodes *)
Lemma alloc_cache_inode_spec own s rl ty c :
  mk_ok own s -> 1 <= ty <= 3 -> next_ino s < ninos s ->
  exists own' s', alloc_cache_inode rl 0 ty s = Done (nci s, s') /\ mk_ok own' s' /\ ext c s s' /\
    cis s' (nci s) = mkCi (new_inode ty) rl (next_ino s) 0 None None /\
    nci s' = nci s + 1 /\ next_ino s' = next_ino s + 1 /\ subpath s' = subpath s.
Proof.
  intros Hok Hty Hroom. set (own' := upd own (next_ino s) (UInode (nci s))).
  pose proof (name_use own s (next_ino s) (UInode (nci s)) Hok ltac:(lia)) as Hok'. fold own' in Hok'.
  pose proof (numbered_advance own' s Hok' Hroom) as Hav. pose proof (numbered_next own' s Hok' Hroom) as Hnx.
  pose proof (advance_ok _ _ _ _ Hav Hok') as Hokn.
  set (ci := mkCi (new_inode ty) rl (next_ino s) 0 None None).
  set (s' := set_inodes_of (upd (inodes_of s) (hash64 rl) (nci s :: inodes_of s (hash64 rl)))
               (set_cis (upd (cis s) (nci s) ci) (nci s + 1) (numbered s))).
  assert (Hnew : cis s' (nci s) = ci) by apply upd_eq.
  assert (Hold : forall a, a <> nci s -> cis s' a = cis s a) by (intros; by apply upd_ne).
  assert (Hbn : forall a k, a <> nci s -> bn s' a k = bn s a k).
  { intros a k Ha. unfold bn. by rewrite Hold. }
  assert (Hbn0 : forall k, bn s' (nci s) k = 0).
  { intros k. unfold bn. rewrite Hnew. cbn. by destruct (k <? 12). }
  assert (Hrun : alloc_cache_inode rl 0 ty s = Done (nci s, s')).
  { unfold alloc_cache_inode. cbn [Z.eqb negb]. mstep (sfs_alloc_ino_run s Hroom). done. }
  exists own', s'. split; [done|]. pose proof (mo_next _ _ Hok). pose proof (mo_root _ _ Hok) as (R1 & R2 & R3).
  split; [|split; [|split_and!; try done]].
  - destruct Hokn as [Hn Hx Hs Hr Hi Ht Hci Hcb Hm Hby]. split; try done.
    + cbn. lia.
    + intros a Ha. destruct (decide (a = nci s)) as [->|Hne].
      * split; rewrite ?Hnew; cbn [ci new_inode ci_inode ci_ino nblks hi_blocks hi_size hi_type hi_nlinks l1 hi_indirect db_indirect].
        -- apply upd_eq.
        -- change (ninos s') with (ninos s). change (next_ino s') with (next_ino (numbered s)).
           destruct (Z.eqb_spec (nci s) 0); lia.
        -- unfold max_blocks. lia.
        -- lia.
        -- done.
        -- change (next_ino s') with (next_ino (numbered s)). pose proof (mk_first _ _ Hok). lia.
        -- lia.
        -- done.
        -- intros k Hk. lia.
        -- intros k Hk. apply Hbn0.
      * assert (Ha' : 0 <= a < nci s) by (cbn in Ha; lia). destruct (Hi a Ha') as [? ? ? ? ? ? ? ? Hu Hre].
        split; rewrite ?Hold by done; try done.
        -- intros k Hk. rewrite Hbn by done. apply (Hu k Hk).
        -- intros k Hk. rewrite Hbn by done. apply (Hre k Hk).
    + intros x Hx'. destruct (Ht x Hx') as [T1 (a & Ha & T2) T3]. split; try done.
      exists a. split; [cbn in *; lia|done].
    + intros h a. assert (Hca := Hci h a). cbn [numbered set_mk_super set_next_ino inodes_of nci cis] in Hca.
      cbn [s' set_inodes_of inodes_of nci set_cis cis]. unfold upd at 1. case_decide as Hh.
      * subst h. rewrite elem_of_cons. rewrite (Hci (hash64 rl) a). change (nci (numbered s)) with (nci s).
        change (cis (numbered s)) with (cis s). unfold upd. case_decide as Hd; [subst a; cbn [real ci]|].
        -- split; [intros _; split; [lia|done]|by left].
        -- split; [intros [->|[? ?]]; [done|split; [lia|done]]|intros [? ?]; right; split; [lia|done]].
      * rewrite (Hci h a). change (nci (numbered s)) with (nci s). change (cis (numbered s)) with (cis s).
        unfold upd. case_decide as Hd; [subst a; cbn [real ci]|].
        -- split; [lia|intros [_ E]; by destruct Hh].
        -- split; intros [? ?]; (split; [lia|done]).
    + intros a b Ha Hab Hb. change (nci s') with (nci s + 1) in Hb. rewrite (Hold a) by lia. destruct (decide (b = nci s)) as [->|Hne].
      * rewrite Hnew. apply (inode_ino_lt own s a Hok). lia.
      * rewrite Hold by done. apply Hm; [done|done|cbn; lia].
  - split; try done.
    + split; [done|]. change (next_ino s') with (next_ino (numbered s)). change (nci s') with (nci s + 1). lia.
    + intros a Ha. rewrite Hold by lia. split_and!; try done; try lia. intros k Hk. rewrite Hbn by lia. done.
    + intros a Ha Hne. by rewrite Hold by lia.
Qed.

Lemma find_ci_spec f l rl :
  match find_ci f l rl with
  | Some a => a ∈ l /\ real (f a) = rl
  | None => forall a, a ∈ l -> real (f a) <> rl
  end.
Proof.
  induction l as [|a l IH]; cbn; [by intros a ?%elem_of_nil|].
  destruct (Z.eqb_spec (real (f a)) rl) as [He|Hne]; cbn.
  - split; [apply elem_of_cons; by left|done].
  - destruct (find_ci f l rl).
    + destruct IH. split; [apply elem_of_cons; by right|done].
    + intros x [->|Hx]%elem_of_cons; [done|by apply IH].
Qed.

Lemma search_cache_inode_spec own s rl :
  mk_ok own s ->
  exists found, search_cache_inode rl s = Done (found, s) /\
    match found with
    | Some a => 0 <= a < nci s /\ real (cis s a) = rl
    | None => forall a, 0 <= a < nci s -> real (cis s a) <> rl
    end.
Proof.
  intros Hok. eexists. split; [reflexivity|]. pose proof (find_ci_spec (cis s) (inodes_of s (hash64 rl)) rl) as Hf.
  destruct (find_ci _ _ _) as [a|].
  - destruct Hf as [Ha Hr]. apply (mo_chain_i _ _ Hok) in Ha as [Ha _]. done.
  - intros a Ha Hr. apply (Hf a); [|done]. apply (mo_chain_i _ _ Hok). by rewrite Hr.
Qed.

(** ** The contents of files and links *)
Definition append_cost (q n : Z) : Z := n + (if (q <=? 12) && (12 <? q + n) then 1 else 0).

Lemma append_cost_step q n : 0 <= n -> append_cost q (n + 1) = 1 + table_cost q + append_cost (q + 1) n.
Proof.
  intros Hn. unfold append_cost, table_cost.
  destruct (Z.leb_spec q 12), (Z.ltb_spec 12 (q + (n + 1))), (Z.eqb_spec q 12), (Z.leb_spec (q + 1) 12),
    (Z.ltb_spec 12 (q + 1 + n)); cbn; lia.
Qed.

Lemma append_cost_nonneg q n : 0 <= n -> 0 <= append_cost q n.
Proof. intros. unfold append_cost. destruct (_ && _); lia. Qed.

(** Every read but the last fills the buffer. *)
Fixpoint reads_full (reads : list (option (list Z))) : Prop :=
  match reads with
  | [] => True
  | Some chunk :: rest =>
      0 < Z.of_nat (length chunk) <= 4096 /\ bytes chunk /\ (rest = [] \/ Z.of_nat (length chunk) = 4096) /\
      reads_full rest
  | None :: _ => False
  end.

Lemma data_append own s s' f ty pre chunk q :
  mk_ok own s -> 0 <= f < nci s -> ext f s s' -> emitted f (filled_with chunk) (Z.of_nat (length chunk)) s s' ->
  data_in (state_view s) f ty pre -> Z.of_nat (length pre) = 4096 * q -> 0 < Z.of_nat (length chunk) <= 4096 ->
  data_in (state_view s') f ty (pre ++ chunk).
Proof.
  intros Hok Hf He [A1 A2 A3 A4 A5 AL (A6 & A7)] (Ht & Hs & Hn & Hd) Hq Hl. view.
  assert (Hcq : nblks (cis s f) = q) by (rewrite Hn, Hq, Z.mul_comm; apply ceil_blocks_mul).
  destruct (ex_same _ _ _ He f Hf) as (_ & _ & Et & _ & _ & Hb).
  unfold data_in. view. rewrite length_app, Nat2Z.inj_add. split_and!; [congruence|congruence| |].
  - rewrite A1, Hcq, Hq. symmetry. apply ceil_blocks_spec. lia.
  - intros p Hp. pose proof (block_of p ltac:(lia)) as (H1 & H2 & H3).
    destruct (Z.lt_ge_cases p (Z.of_nat (length pre))) as [Hlt|Hge].
    + assert (p / 4096 < q) by lia.
      destruct (block_bytes own f s s' Hok He f (p / 4096) (p mod 4096) Hf) as [E1 E2]; [lia..|].
      rewrite E1, E2, Hd, app_nth1 by lia. done.
    + assert (Hpq : p / 4096 = q) by (symmetry; apply Z.div_unique with (p - 4096 * q); lia).
      rewrite Hpq, <- Hcq, A3, A5 by lia. rewrite padded_in by lia. unfold filled_with.
      rewrite <- (Z.add_0_l (p mod 4096)), put_bytes_in by lia. rewrite app_nth2 by lia. f_equal. lia.
Qed.

Lemma filled_ok chunk : bytes chunk -> bytes_ok (filled_with chunk).
Proof. intros. apply put_bytes_ok; [intros a; lia|done]. Qed.

Lemma open_file_spec f ty reads : forall own s pre last,
  mk_ok own s -> 0 <= f < nci s -> reads_full reads -> data_in (state_view s) f ty pre ->
  (reads <> [] -> last = 4096 /\ exists q, Z.of_nat (length pre) = 4096 * q) ->
  nblks (cis s f) + Z.of_nat (length reads) <= max_blocks ->
  next_ino s + append_cost (nblks (cis s f)) (Z.of_nat (length reads)) <= ninos s ->
  exists own' s', open_file f reads last s = Done (tt, s') /\ mk_ok own' s' /\ ext f s s' /\
    data_in (state_view s') f ty (pre ++ read_data reads) /\
    next_ino s' <= next_ino s + append_cost (nblks (cis s f)) (Z.of_nat (length reads)) /\
    nci s' = nci s /\ subpath s' = subpath s.
Proof.
  induction reads as [|[chunk|] reads IH]; intros own s pre last Hok Hf Hfull Hd Hlast Hmax Hroom; [| |done].
  - exists own, s. cbn in *. rewrite app_nil_r. split_and!; try done. 
    pose proof (append_cost_nonneg (nblks (cis s f)) (Z.of_nat 0) ltac:(lia)). lia.
  - destruct Hfull as (Hl & Hby & Hor & Hfull). destruct (Hlast ltac:(done)) as [-> [q Hq]].
    cbn [length] in *. rewrite Nat2Z.inj_succ in *. unfold Z.succ in *.
    rewrite append_cost_step in * by lia.
    pose proof (append_cost_nonneg (nblks (cis s f) + 1) (Z.of_nat (length reads)) ltac:(lia)).
    destruct (emit_spec own s f (filled_with chunk) (Z.of_nat (length chunk)) Hok Hf ltac:(lia) ltac:(lia)
                (filled_ok _ Hby) ltac:(lia)) as (R1 & R2 & own1 & s1 & R3 & Hok1 & He1 & Hem).
    pose proof (data_append own s s1 f ty pre chunk q Hok Hf He1 Hem Hd Hq Hl) as Hd1.
    destruct Hem as [A1 A2 A3 A4 A5 AL (A6 & A7)]. pose proof (ex_count _ _ _ He1) as (N1 & _ & _).
    destruct (IH own1 s1 (pre ++ chunk) (Z.of_nat (length chunk)) Hok1 ltac:(lia) Hfull Hd1)
      as (own2 & s2 & R4 & Hok2 & He2 & Hd2 & Hn2 & Hc2 & Hp2).
    { intros Hne. destruct Hor as [->|Hor]; [done|]. split; [done|]. exists (q + 1).
      rewrite length_app, Nat2Z.inj_add. lia. }
    { lia. }
    { rewrite A1, A4, N1. lia. }
    exists own2, s2. split; [|split; [done|split; [by eapply ext_trans; [done|done|left]|]]].
    + cbn [open_file]. change (4096 =? SFS_BLKSIZE) with true. mstep (assert_true true s eq_refl).
      mstep R1. mstep R2. mstep R3. exact R4.
    + unfold read_data in *. cbn [List.map concat]. rewrite app_assoc. split_and!; [done| |lia|congruence].
      rewrite A1, A4 in Hn2. lia.
Qed.

Lemma open_link_spec f ty chunk own s :
  mk_ok own s -> 0 <= f < nci s -> 0 < Z.of_nat (length chunk) < 4096 -> bytes chunk ->
  data_in (state_view s) f ty [] -> next_ino s + 1 <= ninos s ->
  exists own' s', open_link f (Some chunk) s = Done (tt, s') /\ mk_ok own' s' /\ ext f s s' /\
    data_in (state_view s') f ty chunk /\ next_ino s' <= next_ino s + 1 /\
    nci s' = nci s /\ subpath s' = subpath s.
Proof.
  intros Hok Hf Hl Hby Hd Hroom. pose proof Hd as (_ & _ & Hn & _). view. change (nblks (cis s f) = 0) in Hn.
  destruct (emit_spec own s f (filled_with chunk) (Z.of_nat (length chunk)) Hok Hf
              ltac:(rewrite Hn; unfold max_blocks; lia) ltac:(lia) (filled_ok _ Hby) ltac:(rewrite Hn; cbn; lia))
    as (R1 & R2 & own1 & s1 & R3 & Hok1 & He1 & Hem).
  pose proof (data_append own s s1 f ty [] chunk 0 Hok Hf He1 Hem Hd eq_refl ltac:(lia)) as Hd1.
  destruct Hem as [A1 A2 A3 A4 A5 AL (A6 & A7)]. exists own1, s1. split; [|split_and!; try done].
  - unfold open_link. mstep R1. destruct (Z.eqb_spec (Z.of_nat (length chunk)) SFS_BLKSIZE) as [E|_].
    { change SFS_BLKSIZE with 4096 in E. lia. }
    mstep R2. exact R3.
  - rewrite A4, Hn. cbn. lia.
Qed.

(** ** The walk *)

(** What an inode number of the host stands for. *)
Inductive node_kind := KFile (data : list Z) | KLink | KDir.

(** A listing the tool takes: names fit an entry's block, reads fill the buffer,
    files and directories fit what the kernel can map, and links of one file
    have one inode number. *)
Fixpoint visible (es : dirlist) : Z :=
  match es with
  | DEnd => 0
  | DReg name _ _ rest | DLnk name _ _ rest | DDir name _ _ rest =>
      if skipped name then visible rest else 1 + visible rest
  | DOther _ rest | DFail _ rest => visible rest
  end.

Fixpoint listing_ok (host : Z -> node_kind) (es : dirlist) : Prop :=
  match es with
  | DEnd => True
  | DReg name rl reads rest =>
      (skipped name = true \/
       name_ok name /\ rl <> 0 /\ host rl = KFile (read_data reads) /\ reads_full reads /\
       Z.of_nat (length reads) <= max_blocks) /\ listing_ok host rest
  | DLnk name rl target rest =>
      (skipped name = true \/
       name_ok name /\ host rl = KLink /\
       exists chunk, target = Some chunk /\ 0 < Z.of_nat (length chunk) < 4096 /\ bytes chunk) /\
      listing_ok host rest
  | DDir name rl sub rest =>
      (skipped name = true \/
       name_ok name /\ host rl = KDir /\ 2 + visible sub <= max_blocks /\ listing_ok host sub) /\
      listing_ok host rest
  | DOther name rest => (skipped name = true \/ too_long name = false) /\ listing_ok host rest
  | DFail name rest => skipped name = true /\ listing_ok host rest
  end.

(** The directories below, by their inode numbers on the host. *)
Fixpoint dir_reals (es : dirlist) : list Z :=
  match es with
  | DEnd => []
  | DDir name rl sub rest => if skipped name then dir_reals rest else rl :: dir_reals sub ++ dir_reals rest
  | DReg _ _ _ rest | DLnk _ _ _ rest | DOther _ rest | DFail _ rest => dir_reals rest
  end.

(** The blocks a listing takes at most, from slot [k] of its directory on. *)
Fixpoint cost (k : Z) (es : dirlist) : Z :=
  match es with
  | DEnd => 0
  | DReg name _ reads rest =>
      if skipped name then cost k rest
      else 1 + append_cost 0 (Z.of_nat (length reads)) + (1 + table_cost k) + cost (k + 1) rest
  | DLnk name _ _ rest => if skipped name then cost k rest else 2 + (1 + table_cost k) + cost (k + 1) rest
  | DDir name _ sub rest =>
      if skipped name then cost k rest else 3 + cost 2 sub + (1 + table_cost k) + cost (k + 1) rest
  | DOther _ rest | DFail _ rest => cost k rest
  end.

Lemma table_cost_nonneg k : 0 <= table_cost k.
Proof. unfold table_cost. destruct (_ =? _); lia. Qed.

Lemma cost_nonneg es : forall k, 0 <= cost k es.
Proof.
  induction es as [|name rl reads rest IH|name rl target rest IH|name rl sub IHs rest IH|name rest IH|name rest IH];
    intros k; cbn [cost]; try done; try (by apply IH); destruct (skipped name); try apply IH;
    pose proof (table_cost_nonneg k); pose proof (IH (k + 1)).
  - pose proof (append_cost_nonneg 0 (Z.of_nat (length reads)) ltac:(lia)). lia.
  - lia.
  - pose proof (IHs 2). lia.
Qed.

Lemma visible_nonneg es : 0 <= visible es.
Proof. induction es; cbn; try destruct (skipped _); lia. Qed.

Section walk.
  Context (host : Z -> node_kind).
  Implicit Types (s : mksfs).

Lemma dir_reals_kind es : listing_ok host es -> forall r, r ∈ dir_reals es -> host r = KDir.
Proof.
  induction es as [|name rl reads rest IH|name rl target rest IH|name rl sub IHs rest IH|name rest IH|name rest IH];
    cbn; intros Hl r Hr; try (apply IH; tauto).
  - by apply elem_of_nil in Hr.
  - destruct Hl as [Hl Hrest]. destruct (skipped name); [by apply IH|].
    destruct Hl as [?|(_ & Hk & _ & Hsub)]; [done|].
    apply elem_of_cons in Hr as [->|Hr]; [done|]. apply elem_of_app in Hr as [Hr|Hr]; [by apply IHs|by apply IH].
Qed.

(** Every file in the cache is there whole. *)
Definition files_done s : Prop :=
  real (cis s 0) = 0 /\
  forall a, 0 < a < nci s -> forall d, host (real (cis s a)) = KFile d -> data_in (state_view s) a SFS_TYPE_FILE d.

Lemma files_done_ext own c s s' :
  mk_ok own s -> ext c s s' -> files_done s ->
  (0 <= c < nci s -> hi_type (ci_inode (cis s c)) = SFS_TYPE_DIR) ->
  (forall a, nci s <= a < nci s' -> forall d, host (real (cis s' a)) = KFile d ->
     data_in (state_view s') a SFS_TYPE_FILE d) ->
  files_done s'.
Proof.
  intros Hok He [H0 Hd] Hc Hnew. pose proof (mo_root _ _ Hok) as (_ & Hn0 & _). split.
  - destruct (ex_same _ _ _ He 0 ltac:(lia)) as (_ & -> & _). done.
  - intros a Ha d Hk. destruct (Z.lt_ge_cases a (nci s)) as [Hlt|Hge]; [|apply Hnew; [lia|done]].
    destruct (ex_same _ _ _ He a ltac:(lia)) as (_ & Er & _). rewrite Er in Hk.
    pose proof (Hd a ltac:(lia) d Hk) as Hda. apply (data_ext own c s s'); [done|done|lia| |done].
    intros ->. destruct Hda as [Ht _]. cbn in Ht. rewrite Hc in Ht by lia. done.
Qed.

(** A stretch of the walk inside directory [cur]: it enters the directories [D]
    into the cache and takes at most [c] blocks. *)
Record run_ok (cur : Z) (D : list Z) (c : Z) s (own' : Z -> use) s' : Prop := mkRunOk {
  ro_ok : mk_ok own' s';
  ro_done : files_done s';
  ro_ext : ext cur s s';
  ro_subpath : subpath s' = subpath s;
  ro_next : next_ino s' <= next_ino s + c;
  ro_reals a : nci s <= a < nci s' -> host (real (cis s' a)) = KDir -> real (cis s' a) ∈ D }.

Lemma run_ok_trans cur D1 D2 c1 c2 s own1 s1 own2 s2 :
  0 <= nci s -> run_ok cur D1 c1 s own1 s1 -> run_ok cur D2 c2 s1 own2 s2 ->
  run_ok cur (D1 ++ D2) (c1 + c2) s own2 s2.
Proof.
  intros H0 [O1 F1 E1 P1 N1 R1] [O2 F2 E2 P2 N2 R2]. split; try done.
  - eapply ext_trans; [exact E1|exact E2|by left].
  - congruence.
  - lia.
  - intros a Ha Hk. apply elem_of_app. destruct (Z.lt_ge_cases a (nci s1)) as [Hlt|Hge].
    + left. destruct (ex_same _ _ _ E2 a ltac:(lia)) as (_ & Er & _). rewrite Er in Hk |- *. apply R1; [lia|done].
    + right. apply R2; [lia|done].
Qed.

(** Entry [name] of [cur] was added, for node [a]. *)
Record added (cur : Z) (name : list Z) (D : list Z) (c : Z) s (own' : Z -> use) s' (a : Z) : Prop := mkAdded {
  ad_run : run_ok cur D c s own' s';
  ad_slot : slot_in (state_view s') cur (nblks (cis s cur)) name a;
  ad_nblks : nblks (cis s' cur) = nblks (cis s cur) + 1;
  ad_size : hi_size (ci_inode (cis s' cur)) = hi_size (ci_inode (cis s cur)) + 256 }.

(** The conditions on the state in which [cur] gets one more entry. *)
Record dir_ready (own : Z -> use) s (cur : Z) : Prop := mkDirReady {
  dr_ok : mk_ok own s;
  dr_done : files_done s;
  dr_cur : 0 <= cur < nci s;
  dr_type : hi_type (ci_inode (cis s cur)) = SFS_TYPE_DIR }.

Lemma dir_ready_run own s cur D c own' s' : dir_ready own s cur -> run_ok cur D c s own' s' -> dir_ready own' s' cur.
Proof.
  intros [Hok Hd Hc Ht] [O F E _ _ _]. destruct (ex_same _ _ _ E cur Hc) as (_ & _ & Et & _).
  pose proof (ex_count _ _ _ E). split; try done; [lia|congruence].
Qed.

Lemma enter own s cur file name :
  dir_ready own s cur -> 0 <= file < nci s -> name_ok name -> nblks (cis s cur) < max_blocks ->
  next_ino s + (1 + table_cost (nblks (cis s cur))) <= ninos s ->
  exists own' s', add_entry cur file name s = Done (tt, s') /\
    added cur name [] (1 + table_cost (nblks (cis s cur))) s own' s' file.
Proof.
  intros [Hok Hd Hc Ht] Hf Hn Hmax Hroom.
  destruct (add_entry_spec own s cur file name Hok Hc Hf Hn Ht Hmax ltac:(lia)) as (own' & s' & Hrun & Hok' & He & Hen).
  destruct Hen as [E1 E2 E3 E4 (E5 & E6)]. exists own', s'. split; [done|]. split; [|done..].
  split; try done; [|lia|lia]. apply (files_done_ext own cur s s'); try done. lia.
Qed.

Lemma ext_any c c' s s' : ext c s s' -> nci s <= c -> ext c' s s'.
Proof. intros [N I S K] Hc. split; try done. intros a Ha _. apply K; [done|lia]. Qed.

(** A new inode and its contents, before it is entered: [cur] is as it was. *)
Lemma added_after own s cur name own1 s1 D c1 a :
  dir_ready own s cur -> run_ok cur D c1 s own1 s1 -> ext (nci s) s s1 -> 0 <= a < nci s1 -> name_ok name ->
  nblks (cis s cur) < max_blocks -> next_ino s + (c1 + (1 + table_cost (nblks (cis s cur)))) <= ninos s ->
  exists own' s', add_entry cur a name s1 = Done (tt, s') /\ ext cur s1 s' /\
    added cur name D (c1 + (1 + table_cost (nblks (cis s cur)))) s own' s' a.
Proof.
  intros Hdr Hr1 He Ha Hn Hmax Hroom. pose proof (dir_ready_run _ _ _ _ _ _ _ Hdr Hr1) as Hdr1.
  destruct (ex_keep _ _ _ He cur (dr_cur _ _ _ Hdr) ltac:(pose proof (dr_cur _ _ _ Hdr); lia)) as [En Es].
  pose proof (ex_count _ _ _ He) as (N1 & _ & _). pose proof (ro_next _ _ _ _ _ _ Hr1).
  destruct (enter own1 s1 cur a name Hdr1 Ha Hn) as (own2 & s2 & Hrun & [R2 S2 B2 Z2]);
    [by rewrite En|rewrite En, N1; lia|].
  rewrite En in R2, S2, B2. rewrite Es in Z2.
  exists own2, s2. split; [done|]. split; [apply R2|]. split; try done.
  rewrite <- (app_nil_r D). eapply run_ok_trans; [|done|done]. pose proof (dr_cur _ _ _ Hdr). lia.
Qed.

Lemma new_data own s a ty : cis s a = mkCi (new_inode ty) own (ci_ino (cis s a)) 0 None None ->
  data_in (state_view s) a ty [].
Proof. intros Ha. unfold data_in. view. rewrite Ha. cbn. split_and!; try done. intros p Hp. lia. Qed.

Lemma add_file_spec own s cur name rl reads :
  dir_ready own s cur -> name_ok name -> rl <> 0 -> host rl = KFile (read_data reads) -> reads_full reads ->
  Z.of_nat (length reads) <= max_blocks -> nblks (cis s cur) < max_blocks ->
  next_ino s + (1 + append_cost 0 (Z.of_nat (length reads)) + (1 + table_cost (nblks (cis s cur)))) <= ninos s ->
  exists own' s' a, add_file cur name rl reads s = Done (tt, s') /\
    added cur name [] (1 + append_cost 0 (Z.of_nat (length reads)) + (1 + table_cost (nblks (cis s cur)))) s own' s' a /\
    data_in (state_view s') a SFS_TYPE_FILE (read_data reads).
Proof.
  intros Hdr Hn Hrl Hk Hfull Hlen Hmax Hroom. pose proof Hdr as [Hok Hd Hc Ht].
  pose proof (append_cost_nonneg 0 (Z.of_nat (length reads)) ltac:(lia)).
  pose proof (table_cost_nonneg (nblks (cis s cur))). pose proof (mo_root _ _ Hok) as (_ & Hn0 & _).
  destruct (search_cache_inode_spec own s rl Hok) as (found & Hs & Hf). unfold add_file. mstep Hs.
  destruct found as [a|].
  - destruct Hf as [Ha Hra]. destruct Hd as [Hd0 Hd]. assert (a <> 0) by (intros ->; congruence).
    pose proof (Hd a ltac:(lia) _ ltac:(by rewrite Hra)) as Hda.
    destruct (enter own s cur a name Hdr Ha Hn Hmax ltac:(lia)) as (own' & s' & Hrun & [R S B Z]).
    exists own', s', a. rewrite ret_bind. split; [done|]. split.
    + split; try done. destruct R as [O F E P N R']. split; try done. lia.
    + apply (data_ext own cur s s'); [done|apply R|done| |done]. intros ->. destruct Hda as [Hda _]. cbn in Hda.
      rewrite Ht in Hda. done.
  - destruct (alloc_cache_inode_spec own s rl SFS_TYPE_FILE (nci s) Hok ltac:(unfold SFS_TYPE_FILE; lia) ltac:(lia))
      as (own1 & s1 & R1 & Hok1 & He1 & Hnew & Hn1 & Hx1 & Hp1).
    assert (Hi1 : ci_ino (cis s1 (nci s)) = next_ino s) by (by rewrite Hnew).
    pose proof (new_data rl s1 (nci s) SFS_TYPE_FILE ltac:(by rewrite Hi1)) as Hd1.
    assert (Hb1 : nblks (cis s1 (nci s)) = 0) by (by rewrite Hnew). pose proof (ex_count _ _ _ He1) as (N1 & _ & _).
    destruct (open_file_spec (nci s) SFS_TYPE_FILE reads own1 s1 [] 4096 Hok1 ltac:(lia) Hfull Hd1)
      as (own2 & s2 & R2 & Hok2 & He2 & Hd2 & Hx2 & Hn2 & Hp2).
    { intros _. split; [done|]. by exists 0. }
    { rewrite Hb1. lia. }
    { rewrite Hb1, Hx1, N1. lia. }
    rewrite Hb1 in Hx2.
    assert (He : ext (nci s) s s2) by (eapply ext_trans; [exact He1|exact He2|by left]).
    assert (Hreal : real (cis s2 (nci s)) = rl).
    { destruct (ex_same _ _ _ He2 (nci s) ltac:(lia)) as (_ & -> & _). by rewrite Hnew. }
    assert (Hrun2 : run_ok cur [] (1 + append_cost 0 (Z.of_nat (length reads))) s own2 s2).
    { split; try done; [|by apply (ext_any (nci s))|congruence|lia|].
      - apply (files_done_ext own (nci s) s s2); try done; [lia|]. intros a Ha d Hka.
        assert (a = nci s) as -> by lia. rewrite Hreal, Hk in Hka. by injection Hka as <-.
      - intros a Ha Hka. assert (a = nci s) as -> by lia. rewrite Hreal, Hk in Hka. done. }
    destruct (added_after own s cur name own2 s2 [] _ (nci s) Hdr Hrun2 He ltac:(lia) Hn Hmax ltac:(lia))
      as (own3 & s3 & R3 & He3 & Had).
    exists own3, s3, (nci s). split; [|split; [done|]].
    + unfold mbind, ST_bind. rewrite R1. change SFS_BLKSIZE with 4096. rewrite R2. exact R3.
    + apply (data_ext own2 cur s2 s3); [done|done|lia|lia|done].
Qed.

Lemma add_link_spec own s cur name rl chunk :
  dir_ready own s cur -> name_ok name -> host rl = KLink -> 0 < Z.of_nat (length chunk) < 4096 -> bytes chunk ->
  nblks (cis s cur) < max_blocks ->
  next_ino s + (2 + (1 + table_cost (nblks (cis s cur)))) <= ninos s ->
  exists own' s' a, add_link cur name rl (Some chunk) s = Done (tt, s') /\
    added cur name [] (2 + (1 + table_cost (nblks (cis s cur)))) s own' s' a /\
    data_in (state_view s') a SFS_TYPE_LINK chunk.
Proof.
  intros Hdr Hn Hk Hlen Hby Hmax Hroom. pose proof Hdr as [Hok Hd Hc Ht].
  pose proof (table_cost_nonneg (nblks (cis s cur))).
  destruct (alloc_cache_inode_spec own s rl SFS_TYPE_LINK (nci s) Hok ltac:(unfold SFS_TYPE_LINK; lia) ltac:(lia))
    as (own1 & s1 & R1 & Hok1 & He1 & Hnew & Hn1 & Hx1 & Hp1).
  assert (Hi1 : ci_ino (cis s1 (nci s)) = next_ino s) by (by rewrite Hnew).
  pose proof (new_data rl s1 (nci s) SFS_TYPE_LINK ltac:(by rewrite Hi1)) as Hd1.
  pose proof (ex_count _ _ _ He1) as (N1 & _ & _).
  destruct (open_link_spec (nci s) SFS_TYPE_LINK chunk own1 s1 Hok1 ltac:(lia) Hlen Hby Hd1 ltac:(lia))
    as (own2 & s2 & R2 & Hok2 & He2 & Hd2 & Hx2 & Hn2 & Hp2).
  assert (He : ext (nci s) s s2) by (eapply ext_trans; [exact He1|exact He2|by left]).
  assert (Hreal : real (cis s2 (nci s)) = rl).
  { destruct (ex_same _ _ _ He2 (nci s) ltac:(lia)) as (_ & -> & _). by rewrite Hnew. }
  assert (Hrun2 : run_ok cur [] 2 s own2 s2).
  { split; try done; [|by apply (ext_any (nci s))|congruence|lia|].
    - apply (files_done_ext own (nci s) s s2); try done; [lia|]. intros a Ha d Hka.
      assert (a = nci s) as -> by lia. by rewrite Hreal, Hk in Hka.
    - intros a Ha Hka. assert (a = nci s) as -> by lia. by rewrite Hreal, Hk in Hka. }
  destruct (added_after own s cur name own2 s2 [] _ (nci s) Hdr Hrun2 He ltac:(lia) Hn Hmax ltac:(lia))
    as (own3 & s3 & R3 & He3 & Had).
  exists own3, s3, (nci s). split; [|split; [done|]].
  - unfold add_link. mstep R1. mstep R2. exact R3.
  - apply (data_ext own2 cur s2 s3); [done|done|lia|lia|done].
Qed.

(** [subpath] is only for messages. *)
Lemma subpath_ok own x s : mk_ok own s -> mk_ok own (set_subpath x s).
Proof.
  intros [Hn Hx Hs Hr Hi Ht Hci Hcb Hm Hby]. split; try done.
  - intros a Ha. destruct (Hi a Ha). by split.
  - intros c Hc. destruct (Ht c Hc). by split.
Qed.

Lemma subpath_ext c x s s' : ext c s s' -> ext c s (set_subpath x s').
Proof. intros [N I S K]. by split. Qed.

Lemma dot_ok : name_ok (text ".") /\ name_ok (text "..").
Proof. split; (split; [cbn; lia|]); split; repeat constructor; cbn; lia. Qed.

Definition fresh (D : list Z) s : Prop := forall r, r ∈ D -> forall a, 0 <= a < nci s -> real (cis s a) <> r.

(** What reading a listing into directory [cur] does. *)
Definition walk_ok (es : dirlist) : Prop :=
  forall own s cur, listing_ok host es -> NoDup (dir_reals es) -> dir_ready own s cur ->
    hi_size (ci_inode (cis s cur)) = 256 * nblks (cis s cur) ->
    nblks (cis s cur) + visible es <= max_blocks -> fresh (dir_reals es) s ->
    next_ino s + cost (nblks (cis s cur)) es <= ninos s ->
    exists own' s', open_entries es cur s = Done (tt, s') /\
      run_ok cur (dir_reals es) (cost (nblks (cis s cur)) es) s own' s' /\
      tree_in (state_view s') cur (nblks (cis s cur)) es.

(** A directory that was just made gets its "." and ".." and its listing. *)
Lemma open_sub_spec own s dir up sub :
  walk_ok sub -> listing_ok host sub -> NoDup (dir_reals sub) -> dir_ready own s dir -> 0 <= up < nci s ->
  nblks (cis s dir) = 0 -> hi_size (ci_inode (cis s dir)) = 0 -> 2 + visible sub <= max_blocks ->
  fresh (dir_reals sub) s -> next_ino s + (2 + cost 2 sub) <= ninos s ->
  exists own' s', (add_entry dir dir (text ".") ;; add_entry dir up (text "..") ;; open_entries sub dir) s
                  = Done (tt, s') /\
    run_ok dir (dir_reals sub) (2 + cost 2 sub) s own' s' /\
    slot_in (state_view s') dir 0 (text ".") dir /\ slot_in (state_view s') dir 1 (text "..") up /\
    tree_in (state_view s') dir 2 sub.
Proof.
  intros Hw Hl Hnd Hdr Hup Hb Hsz Hvis Hfr Hroom. destruct dot_ok as [Hdot Hdots]. pose proof (cost_nonneg sub 2).
  pose proof (dr_cur _ _ _ Hdr) as Hdir. pose proof (visible_nonneg sub).
  destruct (enter own s dir dir (text ".") Hdr Hdir Hdot) as (own1 & s1 & R1 & [O1 S1 B1 Z1]);
    [rewrite Hb; unfold max_blocks; lia|rewrite Hb; cbn; lia|].
  pose proof (dir_ready_run _ _ _ _ _ _ _ Hdr O1) as Hdr1.
  pose proof (ex_count _ _ _ (ro_ext _ _ _ _ _ _ O1)) as (N1 & _ & C1). pose proof (ro_next _ _ _ _ _ _ O1) as X1.
  rewrite Hb in *. change (0 + 1) with 1 in B1. change (table_cost 0) with 0 in *.
  destruct (enter own1 s1 dir up (text "..") Hdr1 ltac:(lia) Hdots) as (own2 & s2 & R2 & [O2 S2 B2 Z2]);
    [rewrite B1; unfold max_blocks; lia|rewrite B1, N1; change (table_cost 1) with 0; lia|].
  pose proof (dir_ready_run _ _ _ _ _ _ _ Hdr1 O2) as Hdr2.
  pose proof (ex_count _ _ _ (ro_ext _ _ _ _ _ _ O2)) as (N2 & _ & C2). pose proof (ro_next _ _ _ _ _ _ O2) as X2.
  rewrite B1 in *. change (1 + 1) with 2 in B2. change (table_cost 1) with 0 in *.
  pose proof (run_ok_trans dir _ _ _ _ s _ _ _ _ ltac:(lia) O1 O2) as O12.
  assert (Hfr2 : fresh (dir_reals sub) s2).
  { intros r Hr a Ha Hra. pose proof (dir_reals_kind sub Hl r Hr) as Hk.
    destruct (Z.lt_ge_cases a (nci s)) as [Hlt|Hge].
    - apply (Hfr r Hr a ltac:(lia)).
      by destruct (ex_same _ _ _ (ro_ext _ _ _ _ _ _ O12) a ltac:(lia)) as (_ & <- & _).
    - pose proof (ro_reals _ _ _ _ _ _ O12 a ltac:(lia) ltac:(by rewrite Hra)) as Hin. by apply elem_of_nil in Hin. }
  destruct (Hw own2 s2 dir Hl Hnd Hdr2) as (own3 & s3 & R3 & O3 & T3); [lia|lia|done|rewrite B2, N2, N1; lia|].
  rewrite B2 in *. pose proof (run_ok_trans dir _ _ _ _ s _ _ _ _ ltac:(lia) O12 O3) as O123.
  exists own3, s3. split; [by mstep R1; mstep R2|]. split; [exact O123|].
  pose proof (slot_ext _ _ _ _ (dr_ok _ _ _ Hdr1) (ro_ext _ _ _ _ _ _ O2) _ _ _ _ (dr_cur _ _ _ Hdr1) S1) as S1'.
  split; [|split; [|exact T3]].
  - exact (slot_ext _ _ _ _ (dr_ok _ _ _ Hdr2) (ro_ext _ _ _ _ _ _ O3) _ _ _ _ (dr_cur _ _ _ Hdr2) S1').
  - exact (slot_ext _ _ _ _ (dr_ok _ _ _ Hdr2) (ro_ext _ _ _ _ _ _ O3) _ _ _ _ (dr_cur _ _ _ Hdr2) S2).
Qed.

Lemma add_dir_spec own s cur name rl sub :
  walk_ok sub -> listing_ok host sub -> NoDup (rl :: dir_reals sub) -> host rl = KDir ->
  dir_ready own s cur -> name_ok name -> 2 + visible sub <= max_blocks -> nblks (cis s cur) < max_blocks ->
  fresh (rl :: dir_reals sub) s ->
  next_ino s + (3 + cost 2 sub + (1 + table_cost (nblks (cis s cur)))) <= ninos s ->
  exists own' s' a,
    add_dir (fun dir => add_entry dir dir (text ".") ;; add_entry dir cur (text "..") ;; open_entries sub dir)
            cur name rl s = Done (tt, s') /\
    added cur name (rl :: dir_reals sub) (3 + cost 2 sub + (1 + table_cost (nblks (cis s cur)))) s own' s' a /\
    cur < a /\ hi_type (ci_inode (cis s' a)) = SFS_TYPE_DIR /\
    slot_in (state_view s') a 0 (text ".") a /\ slot_in (state_view s') a 1 (text "..") cur /\
    tree_in (state_view s') a 2 sub.
Proof.
  intros Hw Hl Hnd Hk Hdr Hn Hvis Hmax Hfr Hroom. pose proof Hdr as [Hok Hd Hc Ht]. pose proof (cost_nonneg sub 2).
  pose proof (table_cost_nonneg (nblks (cis s cur))). apply NoDup_cons in Hnd as [Hnin Hnd].
  assert (Hs : search_cache_inode rl s = Done (None, s)).
  { destruct (search_cache_inode_spec own s rl Hok) as (found & Hs & Hf). destruct found as [a|]; [|done].
    destruct Hf as [Ha Hra]. exfalso. apply (Hfr rl) with a; [apply elem_of_cons; by left|done|done]. }
  destruct (alloc_cache_inode_spec own s rl SFS_TYPE_DIR (nci s) Hok ltac:(unfold SFS_TYPE_DIR; lia) ltac:(lia))
    as (own1 & s1 & R1 & Hok1 & He1 & Hnew & Hn1 & Hx1 & Hp1). pose proof (ex_count _ _ _ He1) as (N1 & _ & _).
  set (s1p := set_subpath (subpath s1 ++ [name]) s1). set (a := nci s) in *.
  assert (Hd1 : files_done s1p).
  { apply (files_done_ext own a s s1p); try done; [by apply subpath_ext|unfold a; lia|].
    intros b Hb d Hkb. assert (b = a) as -> by (unfold a in *; cbn in Hb; lia). cbn in Hkb. rewrite Hnew in Hkb.
    cbn in Hkb. by rewrite Hk in Hkb. }
  assert (Hdr1 : dir_ready own1 s1p a).
  { split; [by apply subpath_ok|done|cbn; unfold a in *; lia|cbn; by rewrite Hnew]. }
  assert (Hfr1 : fresh (dir_reals sub) s1p).
  { intros r Hr b Hb Hrb. cbn in Hb, Hrb. destruct (decide (b = a)) as [->|Hne].
    - rewrite Hnew in Hrb. cbn in Hrb. by subst r.
    - destruct (ex_same _ _ _ He1 b ltac:(unfold a in *; lia)) as (_ & Er & _). rewrite Er in Hrb.
      apply (Hfr r) with b; [apply elem_of_cons; by right|unfold a in *; lia|done]. }
  destruct (open_sub_spec own1 s1p a cur sub Hw Hl Hnd Hdr1) as (own2 & s2 & R2 & O2 & S0 & S1 & T2);
    [cbn; lia|cbn; by rewrite Hnew|cbn; by rewrite Hnew|done|done|cbn; lia|].
  pose proof O2 as [Ok2 Fd2 E2 P2 X2 Q2].
  assert (E12 : ext a s s2) by (eapply ext_trans; [by apply subpath_ext|exact E2|by left]).
  destruct (ex_same _ _ _ E2 a (dr_cur _ _ _ Hdr1)) as (_ & Er2 & Et2 & _).
  cbn in Er2, Et2. rewrite Hnew in Er2, Et2. cbn in Er2, Et2.
  set (s3 := set_subpath (subpath s) s2).
  assert (Hpop : subpath_pop s2 = Done (tt, s3)).
  { unfold subpath_pop. mstep (eq_refl : get subpath s2 = Done (subpath s2, s2)). rewrite P2.
    cbn [s1p set_subpath subpath]. rewrite Hp1.
    assert (Hne : bool_decide (subpath s ++ [name] <> []) = true) by (apply bool_decide_eq_true; by destruct (subpath s)).
    mstep (assert_true _ s2 Hne). rewrite removelast_last. done. }
  assert (Hrun3 : run_ok cur (rl :: dir_reals sub) (3 + cost 2 sub) s own2 s3).
  { split; [by apply subpath_ok|exact Fd2| |done|cbn in *; lia|].
    - apply subpath_ext. by apply (ext_any a).
    - intros b Hb Hkb. cbn in Hb, Hkb |- *. apply elem_of_cons. destruct (decide (b = a)) as [->|Hne]; [by left|].
      right. apply Q2; [cbn; unfold a in *; lia|done]. }
  pose proof (ex_count _ _ _ E12) as (_ & _ & N12). pose proof (ex_count _ _ _ E2) as (_ & _ & N2). cbn in N2.
  destruct (added_after own s cur name own2 s3 _ _ a Hdr Hrun3) as (own4 & s4 & R4 & E4 & Had);
    [by apply subpath_ext|unfold a in *; cbn in *; lia|done|done|lia|].
  pose proof (subpath_ok own2 (subpath s) s2 Ok2) as Ok3. fold s3 in Ok3.
  assert (Ha3 : 0 <= a < nci s3) by (unfold a in *; cbn in *; lia).
  exists own4, s4, a. split; [|split; [done|split_and!]].
  - unfold add_dir. mstep Hs. mstep (assert_true _ s (bool_decide_eq_true_2 (@None Z = None) eq_refl)).
    mstep R1. mstep (eq_refl : subpath_push name s1 = Done (tt, s1p)). mstep R2. mstep Hpop. exact R4.
  - unfold a. lia.
  - destruct (ex_same _ _ _ E4 a Ha3) as (_ & _ & -> & _). exact Et2.
  - exact (slot_ext own2 cur s3 s4 Ok3 E4 a 0 _ a Ha3 S0).
  - exact (slot_ext own2 cur s3 s4 Ok3 E4 a 1 _ cur Ha3 S1).
  - apply (tree_ext own2 cur s3 s4 Ok3 E4); [|unfold a; lia|done|exact T2].
    intros _. destruct (ex_same _ _ _ E12 cur Hc) as (_ & _ & Etc & _). cbn. by rewrite Etc.
Qed.

(** The first entry is in; the rest of the listing follows. *)
Lemma walk_rest own s cur name D c own1 s1 a rest :
  walk_ok rest -> listing_ok host rest -> NoDup (D ++ dir_reals rest) -> dir_ready own s cur ->
  hi_size (ci_inode (cis s cur)) = 256 * nblks (cis s cur) ->
  nblks (cis s cur) + (1 + visible rest) <= max_blocks ->
  fresh (dir_reals rest) s -> added cur name D c s own1 s1 a ->
  next_ino s + (c + cost (nblks (cis s cur) + 1) rest) <= ninos s ->
  exists own' s', open_entries rest cur s1 = Done (tt, s') /\
    run_ok cur (D ++ dir_reals rest) (c + cost (nblks (cis s cur) + 1) rest) s own' s' /\
    ext cur s1 s' /\ mk_ok own1 s1 /\ hi_type (ci_inode (cis s1 cur)) = SFS_TYPE_DIR /\
    0 <= cur < nci s1 /\ 0 <= a < nci s1 /\
    slot_in (state_view s') cur (nblks (cis s cur)) name a /\
    tree_in (state_view s') cur (nblks (cis s cur) + 1) rest.
Proof.
  intros Hw Hl Hnd Hdr Hsz Hvis Hfr [R1 S1 B1 Z1] Hroom. pose proof (dir_ready_run _ _ _ _ _ _ _ Hdr R1) as Hdr1.
  pose proof (ex_count _ _ _ (ro_ext _ _ _ _ _ _ R1)) as (N1 & _ & C1). pose proof (ro_next _ _ _ _ _ _ R1) as X1.
  apply NoDup_app in Hnd as (_ & Hdis & Hnd).
  assert (Hfr1 : fresh (dir_reals rest) s1).
  { intros r Hr b Hb Hrb. destruct (Z.lt_ge_cases b (nci s)) as [Hlt|Hge].
    - destruct (ex_same _ _ _ (ro_ext _ _ _ _ _ _ R1) b ltac:(lia)) as (_ & Er & _). rewrite Er in Hrb.
      by apply (Hfr r Hr b ltac:(lia)).
    - apply (Hdis r); [|done]. rewrite <- Hrb. apply (ro_reals _ _ _ _ _ _ R1 b ltac:(lia)).
      rewrite Hrb. by apply (dir_reals_kind rest). }
  destruct (Hw own1 s1 cur Hl Hnd Hdr1) as (own2 & s2 & R2 & O2 & T2); [lia|lia|done|rewrite B1, N1; lia|].
  rewrite B1 in *. exists own2, s2. pose proof (dr_cur _ _ _ Hdr). pose proof S1 as (_ & Ha & _). cbn in Ha.
  split_and!; try done; try apply Hdr1; try apply Ha; try apply O2.
  - eapply (run_ok_trans cur D (dir_reals rest) _ _ s); [lia|exact R1|exact O2].
  - exact (slot_ext _ _ _ _ (dr_ok _ _ _ Hdr1) (ro_ext _ _ _ _ _ _ O2) _ _ _ _ (dr_cur _ _ _ Hdr1) S1).
Qed.

Lemma not_dir cur s a ty data :
  hi_type (ci_inode (cis s cur)) = SFS_TYPE_DIR -> ty <> SFS_TYPE_DIR -> data_in (state_view s) a ty data -> a <> cur.
Proof. intros Ht Hne [Hd _] ->. cbn in Hd. congruence. Qed.

Lemma run_ok_refl own s cur : dir_ready own s cur -> run_ok cur [] 0 s own s.
Proof.
  intros [Hok Hd Hc Ht]. split; try done; [lia|]. intros a Ha. lia.
Qed.

Lemma shown name : skipped name = false -> too_long name = false -> forall (m : ST mksfs unit),
  (if skipped name then mret tt else if too_long name then bug else m) = m.
Proof. intros H1 H2 m. by rewrite H1, H2. Qed.

Lemma name_short name : name_ok name -> too_long name = false.
Proof. intros (Hl & _). unfold too_long. apply Z.ltb_ge. change SFS_MAX_FNAME_LEN with 255. lia. Qed.

Lemma open_entries_walks es : walk_ok es.
Proof.
  induction es as [|name rl reads rest IH|name rl target rest IH|name rl sub IHs rest IH|name rest IH|name rest IH];
    intros own s cur Hl Hnd Hdr Hsz Hvis Hfr Hroom; cbn [open_entries listing_ok dir_reals visible cost tree_in] in *.
  - exists own, s. split; [done|]. split; [by apply run_ok_refl|]. done.
  - destruct Hl as [Hh Hl]. destruct (skipped name) eqn:Hsk; [exact (IH own s cur Hl Hnd Hdr Hsz Hvis Hfr Hroom)|].
    destruct Hh as [?|(Hn & Hrl & Hk & Hfull & Hlen)]; [done|]. pose proof (visible_nonneg rest).
    pose proof (cost_nonneg rest (nblks (cis s cur) + 1)). rewrite (name_short _ Hn).
    destruct (add_file_spec own s cur name rl reads Hdr Hn Hrl Hk Hfull Hlen) as (own1 & s1 & a & R1 & A1 & D1);
      [lia|lia|].
    destruct (walk_rest own s cur name [] _ own1 s1 a rest IH Hl Hnd Hdr Hsz Hvis Hfr A1)
      as (own2 & s2 & R2 & O2 & E2 & Ok1 & Ht1 & Hc1 & Ha1 & S2 & T2); [lia|].
    exists own2, s2. split; [by mstep R1|]. split; [exact O2|]. split; [|exact T2]. exists a. split; [done|].
    exact (data_ext own1 cur s1 s2 Ok1 E2 a _ _ Ha1 (not_dir cur s1 a SFS_TYPE_FILE _ Ht1 ltac:(done) D1) D1).
  - destruct Hl as [Hh Hl]. destruct (skipped name) eqn:Hsk; [exact (IH own s cur Hl Hnd Hdr Hsz Hvis Hfr Hroom)|].
    destruct Hh as [?|(Hn & Hk & chunk & -> & Hlen & Hby)]; [done|]. pose proof (visible_nonneg rest).
    pose proof (cost_nonneg rest (nblks (cis s cur) + 1)). rewrite (name_short _ Hn).
    destruct (add_link_spec own s cur name rl chunk Hdr Hn Hk Hlen Hby) as (own1 & s1 & a & R1 & A1 & D1);
      [lia|lia|].
    destruct (walk_rest own s cur name [] _ own1 s1 a rest IH Hl Hnd Hdr Hsz Hvis Hfr A1)
      as (own2 & s2 & R2 & O2 & E2 & Ok1 & Ht1 & Hc1 & Ha1 & S2 & T2); [lia|].
    exists own2, s2. split; [by mstep R1|]. split; [exact O2|]. split; [|exact T2]. exists a. split; [done|].
    unfold read_data. cbn. rewrite app_nil_r.
    exact (data_ext own1 cur s1 s2 Ok1 E2 a _ _ Ha1 (not_dir cur s1 a SFS_TYPE_LINK _ Ht1 ltac:(done) D1) D1).
  - destruct Hl as [Hh Hl]. destruct (skipped name) eqn:Hsk; [exact (IH own s cur Hl Hnd Hdr Hsz Hvis Hfr Hroom)|].
    destruct Hh as [?|(Hn & Hk & Hvs & Hls)]; [done|]. pose proof (visible_nonneg rest).
    pose proof (cost_nonneg rest (nblks (cis s cur) + 1)). rewrite (name_short _ Hn).
    assert (Hnd' : NoDup ((rl :: dir_reals sub) ++ dir_reals rest)) by done.
    assert (Hfr' : fresh (rl :: dir_reals sub) s /\ fresh (dir_reals rest) s).
    { split; intros r Hr; apply Hfr; apply (elem_of_app (rl :: dir_reals sub) (dir_reals rest)); [left; exact Hr|right; exact Hr]. }
    destruct Hfr' as [Hfr1 Hfr2]. pose proof (proj1 (proj1 (NoDup_app _ _) Hnd')) as Hnd1.
    destruct (add_dir_spec own s cur name rl sub IHs Hls Hnd1 Hk Hdr Hn Hvs)
      as (own1 & s1 & a & R1 & A1 & Hlt & Ht & S0 & S1 & T1); [lia|done|lia|].
    destruct (walk_rest own s cur name _ _ own1 s1 a rest IH Hl Hnd' Hdr Hsz Hvis Hfr2 A1)
      as (own2 & s2 & R2 & O2 & E2 & Ok1 & Ht1 & Hc1 & Ha1 & S2 & T2); [lia|].
    exists own2, s2. split; [by mstep R1|]. split; [exact O2|]. split; [|exact T2]. exists a.
    destruct (ex_same _ _ _ E2 a Ha1) as (_ & _ & Et & _).
    split_and!; [done|done|cbn; congruence| | |].
    + by apply (slot_ext own1 cur s1 s2).
    + by apply (slot_ext own1 cur s1 s2).
    + by apply (tree_ext own1 cur s1 s2).
  - destruct Hl as [Hh Hl]. destruct (IH own s cur Hl Hnd Hdr Hsz Hvis Hfr Hroom) as (own1 & s1 & R1 & O1 & T1).
    exists own1, s1. split; [|done]. destruct (skipped name); [done|]. destruct Hh as [?|Hh]; [done|]. by rewrite Hh.
  - destruct Hl as [Hh Hl]. destruct (IH own s cur Hl Hnd Hdr Hsz Hvis Hfr Hroom) as (own1 & s1 & R1 & O1 & T1).
    exists own1, s1. split; [|done]. by rewrite Hh.
Qed.
End walk.
