(* ===== verification/MksfsClose.v ===== *)
(** * The disk image tool: what closing writes

    [close_sfs] writes the free map, the superblock and the cached inodes and
    tables.  As every block number has one use, the order of the hash chains
    does not matter: [closed] gives the contents of each block of the image. *)
From S2P Require Import Prelude Libs Mem Disk Bitmap SfsIo SfsInode SfsAlloc SfsMap SfsFile.
From S2P Require Import SfsDir SfsDirSpec SfsCache SfsFs SfsFsSpec Mksfs MksfsInv.

(** ** Sequences of block writes *)
Fixpoint put_blocks (ws : list (Z * mem)) (m : mem) : mem :=
  match ws with
  | [] => m
  | (b, d) :: ws' => put_blocks ws' (copy m (b * SFS_BLKSIZE) d 0 SFS_BLKSIZE)
  end.

Lemma put_blocks_app ws1 ws2 m : put_blocks (ws1 ++ ws2) m = put_blocks ws2 (put_blocks ws1 m).
Proof. revert m. induction ws1 as [|[b d] ws IH]; intros m; [done|]. apply IH. Qed.

Lemma put_blocks_other ws : forall m b o, 0 <= o < 4096 -> (forall d, (b, d) ∉ ws) ->
  put_blocks ws m (b * 4096 + o) = m (b * 4096 + o).
Proof.
  induction ws as [|[b' d'] ws IH]; intros m b o Ho Hno; [done|]. cbn [put_blocks].
  assert (b <> b') by (intros ->; apply (Hno d'), elem_of_cons; by left).
  rewrite IH; [|done|]. 2: { intros d Hd. apply (Hno d), elem_of_cons. by right. }
  change SFS_BLKSIZE with 4096. by rewrite copy_out by lia.
Qed.

Lemma put_blocks_hit ws : forall m b d o, 0 <= o < 4096 -> (b, d) ∈ ws -> (forall d', (b, d') ∈ ws -> d' = d) ->
  put_blocks ws m (b * 4096 + o) = d o.
Proof.
  induction ws as [|[b' d'] ws IH]; intros m b d o Ho Hin Hu; [by apply elem_of_nil in Hin|]. cbn [put_blocks].
  destruct (decide (Exists (fun p => p.1 = b) ws)) as [Hex|Hno].
  - apply Exists_exists in Hex as ([b2 d2] & Hin2 & Hb). cbn in Hb. subst b2.
    apply IH; [done| |].
    + rewrite <- (Hu d2); [done|]. apply elem_of_cons. by right.
    + intros d3 Hd3. apply Hu, elem_of_cons. by right.
  - apply elem_of_cons in Hin as [Heq|Hin].
    2: { exfalso. apply Hno, Exists_exists. by exists (b, d). }
    injection Heq as <- <-. rewrite put_blocks_other; [|done|].
    2: { intros d2 Hd2. apply Hno, Exists_exists. by exists (b, d2). }
    change SFS_BLKSIZE with 4096. rewrite copy_in by lia. f_equal. lia.
Qed.

Lemma put_blocks_ok ws : forall m, bytes_ok m -> (forall b d, (b, d) ∈ ws -> bytes_ok d) -> bytes_ok (put_blocks ws m).
Proof.
  induction ws as [|[b d] ws IH]; intros m Hm Hd; [done|]. apply IH.
  - apply copy_ok; [done|]. apply (Hd b), elem_of_cons. by left.
  - intros b' d' Hin. apply (Hd b'), elem_of_cons. by right.
Qed.

(** ** The chains *)
Definition table_image (s : mksfs) (c : Z) : Z * mem := (cb_ino (cbs s c), cache (cbs s c)).
Definition inode_image (s : mksfs) (a : Z) : Z * mem :=
  (ci_ino (cis s a), padded (put_hin (fun _ => 0) (ci_inode (cis s a))) sizeof_host_inode).

Fixpoint chain_writes (s : mksfs) (k : nat) (i : Z) : list (Z * mem) :=
  match k with
  | O => []
  | S k' => (List.map (table_image s) (blocks_of s i) ++ List.map (inode_image s) (inodes_of s i)) ++
            chain_writes s k' (i + 1)
  end.

Lemma chain_writes_elem s p k : forall i, p ∈ chain_writes s k i <->
  exists h, i <= h < i + Z.of_nat k /\
    ((exists c, c ∈ blocks_of s h /\ p = table_image s c) \/ (exists a, a ∈ inodes_of s h /\ p = inode_image s a)).
Proof.
  induction k as [|k IH]; intros i; cbn [chain_writes].
  - rewrite elem_of_nil. split; [done|]. intros (h & Hh & _). lia.
  - rewrite !elem_of_app, IH, !list_elem_of_fmap. split.
    + intros [[(c & Hp & Hc)|(a & Hp & Ha)]|(h & Hh & Hr)].
      * exists i. split; [lia|]. left. by exists c.
      * exists i. split; [lia|]. right. by exists a.
      * exists h. split; [lia|done].
    + intros (h & Hh & Hr). destruct (decide (h = i)) as [->|Hne].
      * left. destruct Hr as [(c & ? & ?)|(a & ? & ?)]; [left; by exists c|right; by exists a].
      * right. exists h. split; [lia|done].
Qed.

(** Runs that only change the image. *)
Definition writes_run (m : ST mksfs unit) (ws : list (Z * mem)) (s : mksfs) : Prop :=
  forall im, m (set_img_file im s) = Done (tt, set_img_file (put_blocks ws im) s).

Lemma writes_bind m1 m2 ws1 ws2 s :
  writes_run m1 ws1 s -> writes_run m2 ws2 s -> writes_run (m1 ;; m2) (ws1 ++ ws2) s.
Proof. intros H1 H2 im. mstep (H1 im). rewrite put_blocks_app. apply H2. Qed.

Lemma write_block_writes s data len b :
  len <= 4096 -> b < ninos s -> writes_run (write_block data len b) [(b, padded data len)] s.
Proof. intros Hl Hb im. rewrite write_block_run by done. done. Qed.

Lemma flush_blocks_writes s l :
  (forall c, c ∈ l -> cb_ino (cbs s c) < ninos s) -> writes_run (flush_blocks l) (List.map (table_image s) l) s.
Proof.
  induction l as [|c l IH]; intros Hl; [done|]. cbn [flush_blocks List.map].
  apply (writes_bind _ _ [_]); [|apply IH; intros; apply Hl, elem_of_cons; by right].
  intros im. unfold flush_cache_block.
  mstep (eq_refl : get (fun s => cbs s c) (set_img_file im s) = Done (cbs s c, set_img_file im s)).
  refine (write_block_writes s _ 4096 _ _ _ im); [lia|]. apply Hl, elem_of_cons. by left.
Qed.

Lemma flush_inodes_writes s l :
  (forall a, a ∈ l -> ci_ino (cis s a) < ninos s) -> writes_run (flush_inodes l) (List.map (inode_image s) l) s.
Proof.
  induction l as [|a l IH]; intros Hl; [done|]. cbn [flush_inodes List.map].
  apply (writes_bind _ _ [_]); [|apply IH; intros; apply Hl, elem_of_cons; by right].
  intros im. unfold flush_cache_inode.
  mstep (eq_refl : get (fun s => cis s a) (set_img_file im s) = Done (cis s a, set_img_file im s)).
  refine (write_block_writes s _ 68 _ _ _ im); [lia|]. apply Hl, elem_of_cons. by left.
Qed.

Lemma flush_chains_writes s k : forall i,
  (forall h c, c ∈ blocks_of s h -> cb_ino (cbs s c) < ninos s) ->
  (forall h a, a ∈ inodes_of s h -> ci_ino (cis s a) < ninos s) ->
  writes_run (flush_chains k i) (chain_writes s k i) s.
Proof.
  induction k as [|k IH]; intros i Hb Hi; [done|]. cbn [flush_chains chain_writes]. intros im.
  mstep (eq_refl : get (fun s => blocks_of s i) (set_img_file im s) = Done (blocks_of s i, set_img_file im s)).
  rewrite <- app_assoc.
  refine (writes_bind (flush_blocks (blocks_of s i)) _ _ _ s (flush_blocks_writes s _ (Hb i)) _ im).
  intros im'.
  mstep (eq_refl : get (fun s => inodes_of s i) (set_img_file im' s) = Done (inodes_of s i, set_img_file im' s)).
  exact (writes_bind (flush_inodes (inodes_of s i)) _ _ _ s (flush_inodes_writes s _ (Hi i)) (IH (i + 1) Hb Hi) im').
Qed.

(** ** The free map *)
Fixpoint map_writes (k : nat) (q next n : Z) : list (Z * mem) :=
  match k with
  | O => []
  | S k' => (2 + q, freemap_block (32768 * q) next n) :: map_writes k' (q + 1) next n
  end.

Lemma map_writes_elem k next n p : forall q, p ∈ map_writes k q next n <->
  exists r, q <= r < q + Z.of_nat k /\ p = (2 + r, freemap_block (32768 * r) next n).
Proof.
  induction k as [|k IH]; intros q; cbn [map_writes].
  - rewrite elem_of_nil. split; [done|]. intros (r & Hr & _). lia.
  - rewrite elem_of_cons, IH. split.
    + intros [->|(r & Hr & ->)]; [exists q; split; [lia|done]|exists r; split; [lia|done]].
    + intros (r & Hr & ->). destruct (decide (r = q)) as [->|]; [by left|right; exists r; split; [lia|done]].
Qed.

Lemma freemap_out_writes s k : forall fuel q,
  0 <= q -> (k <= fuel)%nat -> q + Z.of_nat k = map_blocks (ninos s) -> 0 < ninos s <= 2 ^ 16 ->
  2 + map_blocks (ninos s) <= ninos s ->
  writes_run (freemap_out fuel (32768 * q) (2 + q)) (map_writes k q (next_ino s) (ninos s)) s.
Proof.
  induction k as [|k IH]; intros fuel q Hq Hfuel Hk Hn Hfit im; pose proof (map_blocks_range (ninos s) ltac:(lia)) as [_ Hcov];
    cbn [map_writes].
  - destruct fuel as [|fuel]; cbn [freemap_out];
      mstep (eq_refl : get ninos (set_img_file im s) = Done (ninos s, set_img_file im s));
      mstep (eq_refl : get next_ino (set_img_file im s) = Done (next_ino s, set_img_file im s));
      destruct (Z.ltb_spec (32768 * q) (ninos s)); done || lia.
  - destruct fuel as [|fuel]; [lia|]. cbn [freemap_out].
    mstep (eq_refl : get ninos (set_img_file im s) = Done (ninos s, set_img_file im s)).
    mstep (eq_refl : get next_ino (set_img_file im s) = Done (next_ino s, set_img_file im s)).
    pose proof (map_blocks_pos _ Hn).
    assert (32768 * q < ninos s).
    { unfold map_blocks in Hk. pose proof (Z.mul_div_le (ninos s + 32767) 32768 ltac:(lia)). lia. }
    destruct (Z.ltb_spec (32768 * q) (ninos s)); [|lia].
    change SFS_BLKSIZE with 4096. change SFS_BLKBITS with 32768. rewrite !u32_small by lia.
    replace (32768 * q + 32768) with (32768 * (q + 1)) by lia. replace (2 + q + 1) with (2 + (q + 1)) by lia.
    apply (writes_bind _ _ [_] _ s); [|apply IH; lia]. apply (write_block_writes s _ 4096); lia.
Qed.

(** The bits of one of its blocks. *)
Definition bits_of (m : mem) : bitmap := mkBitmap 32768 1024 m.

Lemma set_bits_spec k : forall j m, bytes_ok m -> 0 <= j ->
  bytes_ok (set_bits k j m) /\
  forall i, 0 <= i -> bit (bits_of (set_bits k j m)) i = ((j <=? i) && (i <? j + Z.of_nat k)) || bit (bits_of m) i.
Proof.
  induction k as [|k IH]; intros j m Hm Hj; cbn [set_bits].
  - split; [done|]. intros i Hi. destruct (Z.leb_spec j i), (Z.ltb_spec i (j + Z.of_nat 0)); cbn; done || lia.
  - set (m' := put32 m (4 * (j / 32)) (Z.lor (get32 m (4 * (j / 32))) (Z.shiftl 1 (j mod 32)))).
    assert (Hb : forall i, 0 <= i -> bit (bits_of m') i = bool_decide (i = j) || bit (bits_of m) i).
    { intros i Hi. exact (bit_set (bits_of m) j i Hm Hj Hi). }
    destruct (IH (j + 1) m' (le_put_ok _ _ _ _ Hm) ltac:(lia)) as [Hok Hs]. split; [done|].
    intros i Hi. rewrite Hs, Hb, orb_assoc by done. f_equal.
    destruct (Z.leb_spec (j + 1) i), (Z.ltb_spec i (j + 1 + Z.of_nat k)), (Z.leb_spec j i),
      (Z.ltb_spec i (j + Z.of_nat (S k))); case_bool_decide; cbn; done || lia.
Qed.

Lemma freemap_block_spec q next n :
  0 <= q < 2 -> 0 < n <= 2 ^ 16 -> 0 <= next <= n ->
  bytes_ok (freemap_block (32768 * q) next n) /\
  forall i, 0 <= i < 32768 -> bit (bits_of (freemap_block (32768 * q) next n)) i
    = (next <=? 32768 * q + i) && (32768 * q + i <? n).
Proof.
  intros Hq Hn Hx. unfold freemap_block. change SFS_BLKBITS with 32768. rewrite u32_small by lia.
  assert (Hz : bytes_ok (fun _ => 0)) by (intros a; lia).
  assert (Hz0 : forall i, bit (bits_of (fun _ => 0)) i = false) by (intros i; apply Z.testbit_0_l).
  destruct (Z.ltb_spec next (32768 * q + 32768)) as [Hlt|Hge].
  - set (start := if 32768 * q <? next then next - 32768 * q else 0).
    set (end_ := if n <? 32768 * q + 32768 then n - 32768 * q else 32768).
    assert (Hst : 0 <= start /\ start = Z.max 0 (next - 32768 * q))
      by (unfold start; destruct (Z.ltb_spec (32768 * q) next); lia).
    assert (Hen : end_ = Z.min 32768 (n - 32768 * q))
      by (unfold end_; destruct (Z.ltb_spec n (32768 * q + 32768)); lia).
    destruct (set_bits_spec (Z.to_nat (end_ - start)) start _ Hz (proj1 Hst)) as [Hok Hb].
    split; [done|]. intros i Hi. rewrite Hb, Hz0, orb_false_r by lia.
    replace (Z.of_nat (Z.to_nat (end_ - start))) with (Z.max 0 (end_ - start)) by lia.
    destruct (Z.leb_spec start i), (Z.ltb_spec i (start + Z.max 0 (end_ - start))),
      (Z.leb_spec next (32768 * q + i)), (Z.ltb_spec (32768 * q + i) n); cbn; done || lia.
  - split; [done|]. intros i Hi. rewrite Hz0. destruct (Z.leb_spec next (32768 * q + i)); [lia|done].
Qed.

(** ** The image after closing *)
Definition all_writes (s : mksfs) : list (Z * mem) :=
  map_writes (Z.to_nat (map_blocks (ninos s))) 0 (next_ino s) (ninos s) ++
  [(SFS_BLKN_SUPER, padded (put_super (fun _ => 0) (mk_super s)) sizeof_super)] ++
  chain_writes s (Z.to_nat HASH_LIST_SIZE) 0.

Lemma close_sfs_run own s :
  mk_ok own s -> close_sfs s = Done (tt, set_img_file (put_blocks (all_writes s) (img_file s)) s).
Proof.
  intros Hok. pose proof (mo_ninos _ _ Hok) as Hn. pose proof (mk_first _ _ Hok). pose proof (mo_next _ _ Hok).
  pose proof (map_blocks_pos _ Hn). unfold first_ino in *.
  assert (Hw : writes_run close_sfs (all_writes s) s).
  { intros im. unfold close_sfs.
    mstep (eq_refl : get ninos (set_img_file im s) = Done (ninos s, set_img_file im s)).
    refine (writes_bind (freemap_out (S (Z.to_nat (ninos s / SFS_BLKBITS))) 0 SFS_BLKN_FREEMAP) _ _ _ s _ _ im).
    - apply (freemap_out_writes s (Z.to_nat (map_blocks (ninos s))) _ 0); try lia.
      change SFS_BLKBITS with 32768. unfold map_blocks.
      assert ((ninos s + 32767) / 32768 <= ninos s / 32768 + 1).
      { apply Z.lt_succ_r, Z.div_lt_upper_bound; [lia|]. pose proof (Z.div_mod (ninos s) 32768 ltac:(lia)).
        pose proof (Z.mod_pos_bound (ninos s) 32768 ltac:(lia)). lia. }
      pose proof (Z.div_pos (ninos s) 32768 ltac:(lia) ltac:(lia)).
      pose proof (Z.div_pos (ninos s + 32767) 32768 ltac:(lia) ltac:(lia)). lia.
    - intros im1. mstep (eq_refl : get mk_super (set_img_file im1 s) = Done (mk_super s, set_img_file im1 s)).
      refine (writes_bind (write_block (put_super (fun _ => 0) (mk_super s)) sizeof_super SFS_BLKN_SUPER) _ [_] _ s _ _ im1).
      + apply write_block_writes; [unfold sizeof_super|unfold SFS_BLKN_SUPER]; lia.
      + apply flush_chains_writes.
        * intros h c Hc. apply (mo_chain_b _ _ Hok) in Hc as [Hc _].
          pose proof (tf_ino _ _ _ (mo_tables _ _ Hok c Hc)). lia.
        * intros h a Ha. apply (mo_chain_i _ _ Hok) in Ha as [Ha _]. pose proof (inode_ino_lt own s a Hok Ha). lia. }
  rewrite <- (Hw (img_file s)). by destruct s.
Qed.

(** Contents of the blocks: free map, superblock, inodes, tables, and the blocks
    of files as they were. *)
Record closed (s : mksfs) (m : mem) : Prop := mkClosed {
  cl_super o : 0 <= o < 4096 -> m o = padded (put_super (fun _ => 0) (mk_super s)) sizeof_super o;
  cl_map q o : 0 <= q < map_blocks (ninos s) -> 0 <= o < 4096 ->
    m ((2 + q) * 4096 + o) = freemap_block (32768 * q) (next_ino s) (ninos s) o;
  cl_inode a o : 0 <= a < nci s -> 0 <= o < 4096 ->
    m (ci_ino (cis s a) * 4096 + o) = padded (put_hin (fun _ => 0) (ci_inode (cis s a))) sizeof_host_inode o;
  cl_table c o : 0 <= c < ncb s -> 0 <= o < 4096 -> m (cb_ino (cbs s c) * 4096 + o) = cache (cbs s c) o;
  cl_data b o : first_ino (ninos s) <= b -> (forall a, 0 <= a < nci s -> ci_ino (cis s a) <> b) ->
    (forall c, 0 <= c < ncb s -> cb_ino (cbs s c) <> b) -> 0 <= o < 4096 ->
    m (b * 4096 + o) = img_file s (b * 4096 + o);
  cl_bytes : bytes_ok m }.

Section closed.
  Context own s (Hok : mk_ok own s).

Lemma all_writes_elem p : p ∈ all_writes s <->
  (exists q, 0 <= q < map_blocks (ninos s) /\ p = (2 + q, freemap_block (32768 * q) (next_ino s) (ninos s))) \/
  p = (0, padded (put_super (fun _ => 0) (mk_super s)) sizeof_super) \/
  (exists c, 0 <= c < ncb s /\ p = table_image s c) \/ (exists a, 0 <= a < nci s /\ p = inode_image s a).
Proof.
  pose proof (map_blocks_pos _ (mo_ninos _ _ Hok)). unfold all_writes.
  rewrite !elem_of_app, elem_of_cons, elem_of_nil, map_writes_elem, chain_writes_elem.
  change (Z.of_nat (Z.to_nat HASH_LIST_SIZE)) with 1024. split.
  - intros [(q & Hq & ->)|[[->|[]]|(h & Hh & [(c & Hc & ->)|(a & Ha & ->)])]].
    + left. exists q. split; [lia|done].
    + by right; left.
    + right; right; left. exists c. apply (mo_chain_b _ _ Hok) in Hc as [? _]. done.
    + right; right; right. exists a. apply (mo_chain_i _ _ Hok) in Ha as [? _]. done.
  - intros [(q & Hq & ->)|[->|[(c & Hc & ->)|(a & Ha & ->)]]].
    + left. exists q. split; [lia|done].
    + right; left; by left.
    + right; right. exists 0. split; [lia|]. left. exists c. split; [|done]. by apply (mo_chain_b _ _ Hok).
    + right; right. exists (hash64 (real (cis s a))). split.
      * pose proof (hash32_range (u32 (real (cis s a))) HASH_SHIFT ltac:(unfold HASH_SHIFT; lia)) as Hr.
        change (2 ^ HASH_SHIFT) with 1024 in Hr. unfold hash64. lia.
      * right. exists a. split; [|done]. by apply (mo_chain_i _ _ Hok).
Qed.

(** What a block number tells about what is written there. *)
Lemma writes_class b d : (b, d) ∈ all_writes s ->
  (2 <= b < first_ino (ninos s) /\ d = freemap_block (32768 * (b - 2)) (next_ino s) (ninos s)) \/
  (b = 0 /\ d = padded (put_super (fun _ => 0) (mk_super s)) sizeof_super) \/
  ((b = 1 \/ first_ino (ninos s) <= b) /\
   ((exists a c, own b = UTable a c /\ d = cache (cbs s c)) \/
    (exists a, own b = UInode a /\ d = snd (inode_image s a)))).
Proof.
  rewrite all_writes_elem. unfold first_ino.
  intros [(q & Hq & E)|[E|[(c & Hc & E)|(a & Ha & E)]]]; apply pair_equal_spec in E as [-> ->].
  - left. split; [lia|]. do 2 f_equal. lia.
  - by right; left.
  - right; right. destruct (mo_tables _ _ Hok c Hc) as [Hi (a & _ & Ho) _]. unfold first_ino in Hi.
    split; [right; lia|]. left. by exists a, c.
  - right; right. pose proof (if_ino _ _ _ (mo_inodes _ _ Hok a Ha)) as Hi. unfold first_ino in Hi.
    split; [destruct (a =? 0); [by left|right; lia]|]. right. exists a. split; [|done].
    apply (if_own _ _ _ (mo_inodes _ _ Hok a Ha)).
Qed.

(** No two writes go to one block. *)
Lemma writes_unique b d d' : (b, d) ∈ all_writes s -> (b, d') ∈ all_writes s -> d' = d.
Proof.
  pose proof (mk_first _ _ Hok) as Hf.
  intros [[H1 ->]|[[H1 ->]|[H1 H1']]]%writes_class [[H2 ->]|[[H2 ->]|[H2 H2']]]%writes_class;
    try (exfalso; lia); try reflexivity.
  destruct H1' as [(a & c & Ho & ->)|(a & Ho & ->)], H2' as [(a' & c' & Ho' & ->)|(a' & Ho' & ->)];
    rewrite Ho in Ho'; try discriminate Ho'.
  - injection Ho' as _ <-. reflexivity.
  - injection Ho' as <-. reflexivity.
Qed.

Lemma put_super_bytes : bytes_ok (put_super (fun _ => 0) (mk_super s)).
Proof.
  apply copy_ok; [|apply (mo_super _ _ Hok)]. do 3 apply le_put_ok. intros a. lia.
Qed.

Lemma put_hin_bytes h : bytes_ok (put_hin (fun _ => 0) h).
Proof. apply le_put_ok, put_din_ok. intros a. lia. Qed.

Lemma close_sfs_closed : closed s (put_blocks (all_writes s) (img_file s)).
Proof.
  pose proof (mo_ninos _ _ Hok) as Hn. pose proof (map_blocks_pos _ Hn). pose proof (mo_next _ _ Hok).
  pose proof (mk_first _ _ Hok) as Hf. unfold first_ino in *.
  assert (Hhit : forall b d o, 0 <= o < 4096 -> (b, d) ∈ all_writes s ->
    put_blocks (all_writes s) (img_file s) (b * 4096 + o) = d o).
  { intros b d o Ho Hin. apply put_blocks_hit; [done|done|]. intros d' Hd'. by apply (writes_unique b). }
  split.
  - intros o Ho. replace o with (0 * 4096 + o) at 1 by lia. apply Hhit; [done|]. apply all_writes_elem. by right; left.
  - intros q o Hq Ho. apply Hhit; [done|]. apply all_writes_elem. left. by exists q.
  - intros a o Ha Ho. apply Hhit; [done|]. apply all_writes_elem. right; right; right. by exists a.
  - intros c o Hc Ho. apply Hhit; [done|]. apply all_writes_elem. right; right; left. by exists c.
  - intros b o Hb Hi Ht Ho. apply put_blocks_other; [done|]. intros d.
    rewrite all_writes_elem. unfold table_image, inode_image, first_ino in *.
    intros [(q & Hq & E)|[E|[(c & Hc & E)|(a & Ha & E)]]]; injection E as Eb Ed; try lia.
    + by apply (Ht c).
    + by apply (Hi a).
  - apply put_blocks_ok; [apply (mo_bytes _ _ Hok)|]. intros b d. rewrite all_writes_elem.
    intros [(q & Hq & E)|[E|[(c & Hc & E)|(a & Ha & E)]]]; injection E as Eb Ed; subst d.
    + apply freemap_block_spec; lia.
    + apply padded_ok, put_super_bytes.
    + apply (tf_bytes _ _ _ (mo_tables _ _ Hok c Hc)).
    + apply padded_ok, put_hin_bytes.
Qed.
End closed.
