(* ===== verification/MksfsSpec.v ===== *)
(** * The disk image tool: the image it writes

    The image mounts, and the tree of the host is found in it by the inodes and
    blocks that the kernel's file system reads. *)
From Stdlib Require Import String.
From S2P Require Import Prelude Libs Mem Printfmt Disk Bitmap SfsIo SfsInode SfsAlloc SfsMap SfsFile.
From S2P Require Import SfsDir SfsDirSpec SfsCache SfsFs SfsFsSpec Mksfs MksfsInv MksfsTree MksfsClose.

(** ** Inodes and blocks of an image *)
Definition img_din (m : mem) (i : Z) : sfs_disk_inode := get_din (fun o => m (i * 4096 + o)).
Definition img_block (m : mem) (i k : Z) : Z :=
  if k <? 12 then direct (img_din m i) k
  else if indirect (img_din m i) =? 0 then 0
  else get32 m (indirect (img_din m i) * 4096 + 4 * (k - 12)).
Definition img_used (m : mem) (b : Z) : Prop := 0 < b < get32 m 4 /\ bit (disk_freemap m) b = false.

(** Inode [i] with its block and the blocks of its data: used, distinct, and no
    more of them than it says. *)
Record img_node (m : mem) (i : Z) : Prop := mkImgNode {
  in_used : img_used m i;
  in_blocks : 0 <= iblocks (img_din m i) <= max_blocks;
  in_map k : 0 <= k < iblocks (img_din m i) -> img_used m (img_block m i k);
  in_rest k : iblocks (img_din m i) <= k < max_blocks -> img_block m i k = 0;
  in_inj k l : 0 <= k < iblocks (img_din m i) -> 0 <= l < iblocks (img_din m i) ->
    img_block m i k = img_block m i l -> k = l;
  in_ind : indirect (img_din m i) <> 0 ->
    img_used m (indirect (img_din m i)) /\
    forall k, 0 <= k < iblocks (img_din m i) -> img_block m i k <> indirect (img_din m i) }.

Definition image_view (m : mem) : view :=
  mkView (img_node m) (fun i => i) (fun i => type (img_din m i)) (fun i => size (img_din m i))
         (fun i => iblocks (img_din m i)) (fun i => nlinks (img_din m i)) (img_block m) m.

(** ** From the memory of the tool to the image *)
Section image.
  Context own s m (Hok : mk_ok own s) (Hcl : closed s m).

Lemma mk_bounds : 0 < ninos s <= 2 ^ 16 /\ 1 <= map_blocks (ninos s) <= 2 /\
  2 + map_blocks (ninos s) <= next_ino s <= ninos s.
Proof.
  pose proof (mo_ninos _ _ Hok). pose proof (map_blocks_pos _ (mo_ninos _ _ Hok)).
  pose proof (mo_next _ _ Hok). unfold first_ino in *. lia.
Qed.

Lemma image_super : get32 m 0 = SFS_MAGIC /\ get32 m 4 = ninos s /\ get32 m 8 = ninos s - next_ino s.
Proof.
  pose proof mk_bounds as (H1 & H2 & H3). destruct (mo_super _ _ Hok) as (Hm & Hb & Hu & _).
  destruct (get_put_super (fun _ => 0) (mk_super s)) as (G0 & G4 & G8 & _);
    [rewrite Hm; unfold SFS_MAGIC; lia|rewrite Hb; lia|rewrite Hu; lia|].
  assert (Hg : forall a, 0 <= a <= 8 -> get32 m a = get32 (put_super (fun _ => 0) (mk_super s)) a).
  { intros a Ha. apply get32_ext. intros k Hk. rewrite (cl_super _ _ Hcl) by lia.
    change sizeof_super with 44. by rewrite padded_in by lia. }
  rewrite !Hg by lia. rewrite G0, G4, G8. done.
Qed.

Lemma image_nbits : nbits (disk_freemap m) = 32768 * map_blocks (ninos s).
Proof. unfold disk_freemap. cbn [nbits]. by rewrite (proj1 (proj2 image_super)). Qed.

Lemma image_bit i : 0 <= i < 32768 * map_blocks (ninos s) ->
  bit (disk_freemap m) i = (next_ino s <=? i) && (i <? ninos s).
Proof.
  intros Hi. pose proof mk_bounds as (H1 & H2 & H3). set (q := i / 32768). set (r := i mod 32768).
  assert (Hq : 0 <= q < map_blocks (ninos s)) by (unfold q; split; [apply Z.div_pos|apply Z.div_lt_upper_bound]; lia).
  pose proof (Z.div_mod i 32768 ltac:(lia)) as Hqr. fold q r in Hqr.
  pose proof (Z.mod_pos_bound i 32768 ltac:(lia)) as Hr. fold r in Hr.
  destruct (freemap_block_spec q (next_ino s) (ninos s) ltac:(lia) H1 ltac:(lia)) as [_ Hb].
  specialize (Hb r Hr). rewrite <- Hqr in Hb. rewrite <- Hb.
  assert (E1 : i / 32 = 1024 * q + r / 32).
  { rewrite Hqr. replace (32768 * q + r) with (r + 1024 * q * 32) by lia. rewrite Z.div_add by lia. lia. }
  assert (E2 : i mod 32 = r mod 32).
  { rewrite Hqr. replace (32768 * q + r) with (r + 1024 * q * 32) by lia. by rewrite Z.mod_add by lia. }
  pose proof (Z.div_pos r 32 ltac:(lia) ltac:(lia)). pose proof (Z.div_lt_upper_bound r 32 1024 ltac:(lia) ltac:(lia)).
  unfold bit. rewrite E2. f_equal. unfold word, disk_freemap, bits_of. cbn [map].
  apply le_get_shift. intros k Hk. rewrite E1.
  replace (8192 + (4 * (1024 * q + r / 32) + k)) with ((2 + q) * 4096 + (4 * (r / 32) + k)) by lia.
  apply (cl_map _ _ Hcl); lia.
Qed.

(** The blocks given out are those marked as used. *)
Lemma image_used b : 0 < b < next_ino s -> img_used m b.
Proof.
  intros Hb. pose proof mk_bounds as (H1 & H2 & H3). pose proof (map_blocks_range (ninos s) ltac:(lia)) as [_ Hc].
  split; [rewrite (proj1 (proj2 image_super)); lia|]. rewrite image_bit by lia.
  by destruct (Z.leb_spec (next_ino s) b); [lia|].
Qed.

(** The free bits of an interval. *)
Lemma count_free_interval bm lo hi k :
  0 <= lo <= hi -> (forall i, 0 <= i < Z.of_nat k -> bit bm i = (lo <=? i) && (i <? hi)) ->
  count_free bm k = Z.max 0 (Z.min (Z.of_nat k) hi - lo).
Proof.
  intros Hlh. induction k as [|k IH]; intros Hb; [cbn; lia|]. cbn [count_free].
  rewrite IH by (intros; apply Hb; lia). rewrite Hb by lia.
  destruct (Z.leb_spec lo (Z.of_nat k)), (Z.ltb_spec (Z.of_nat k) hi); cbn; lia.
Qed.

Lemma closed_image_ok : image_ok m (ninos s).
Proof.
  pose proof mk_bounds as (H1 & H2 & H3). destruct image_super as (G0 & G4 & G8).
  pose proof (map_blocks_range (ninos s) ltac:(lia)) as [_ Hc]. pose proof image_nbits as Hnb.
  split; rewrite ?G4, ?Hnb; try lia; try done.
  - apply (cl_bytes _ _ Hcl).
  - rewrite G8. rewrite (count_free_interval _ (next_ino s) (ninos s)); [lia|lia|].
    intros i Hi. apply image_bit. lia.
  - rewrite image_bit by lia. by destruct (Z.leb_spec (next_ino s) 0); [lia|].
  - intros i Hi. rewrite image_bit by lia. destruct (Z.ltb_spec i (ninos s)); [lia|apply andb_false_r].
Qed.

(** Inodes. *)
Definition disk_fields (h : host_inode) : sfs_disk_inode :=
  mkDin (hi_size h) (hi_type h) (hi_nlinks h) (hi_blocks h) (hi_direct h) (hi_indirect h).

Lemma table_ino a t : 0 <= a < nci s -> l1 (cis s a) = Some t ->
  0 <= t < ncb s /\ hi_indirect (ci_inode (cis s a)) = cb_ino (cbs s t) /\
  own (cb_ino (cbs s t)) = UTable a t /\ 0 < cb_ino (cbs s t) < next_ino s.
Proof.
  intros Ha Hl. pose proof (if_table _ _ _ (mo_inodes _ _ Hok a Ha)) as Ht. rewrite Hl in Ht.
  destruct Ht as (Ht & Hi & Ho & _). pose proof (tf_ino _ _ _ (mo_tables _ _ Hok t Ht)).
  pose proof (mk_first _ _ Hok). split_and!; try done; lia.
Qed.

Lemma disk_fields_ok a : 0 <= a < nci s -> din_ok (disk_fields (ci_inode (cis s a))).
Proof.
  intros Ha. pose proof mk_bounds as (H1 & H2 & H3). pose proof (mk_first _ _ Hok).
  pose proof (mo_inodes _ _ Hok a Ha) as [Ho Hin [Hbk Hbk'] Hs Ht Hl Htab Hd Hu Hre]. unfold max_blocks in Hbk.
  split; cbn [disk_fields size type nlinks iblocks direct indirect]; try lia.
  - intros i Hi. assert (Hbn : bn s a i = hi_direct (ci_inode (cis s a)) i).
    { unfold bn. by destruct (Z.ltb_spec i 12); [|lia]. }
    rewrite <- Hbn. destruct (Z.lt_ge_cases i (nblks (cis s a))).
    + destruct (Hu i ltac:(lia)). lia.
    + rewrite Hre by (unfold max_blocks; lia). lia.
  - destruct (l1 (cis s a)) as [t|] eqn:El; [|lia].
    destruct (table_ino a t Ha El) as (_ & -> & _ & ?). lia.
Qed.

Lemma image_din a : 0 <= a < nci s -> img_din m (ci_ino (cis s a)) ≡ disk_fields (ci_inode (cis s a)).
Proof.
  intros Ha. rewrite <- (get_put_din (fun _ => 0) _ (disk_fields_ok a Ha)). apply get_din_ext. intros o Ho.
  rewrite (cl_inode _ _ Hcl) by lia. change sizeof_host_inode with 68. rewrite padded_in by lia.
  unfold put_hin. apply le_put_out. lia.
Qed.

Lemma image_block a k : 0 <= a < nci s -> 0 <= k < max_blocks -> img_block m (ci_ino (cis s a)) k = bn s a k.
Proof.
  intros Ha Hk. pose proof (mk_first _ _ Hok). destruct (image_din a Ha) as (_ & _ & _ & _ & Hd & Hi).
  cbn [disk_fields direct indirect] in Hd, Hi. unfold img_block. rewrite Hi. unfold bn.
  destruct (Z.ltb_spec k 12) as [Hlt|Hge]; [apply Hd; lia|].
  destruct (l1 (cis s a)) as [t|] eqn:El.
  - destruct (table_ino a t Ha El) as (Ht & -> & _ & Hp).
    destruct (Z.eqb_spec (cb_ino (cbs s t)) 0); [lia|]. unfold max_blocks in Hk.
    apply le_get_shift. intros o Ho. rewrite <- Z.add_assoc. apply (cl_table _ _ Hcl); lia.
  - pose proof (if_table _ _ _ (mo_inodes _ _ Hok a Ha)) as Ht. rewrite El in Ht. by destruct Ht as [-> _].
Qed.

Lemma image_data a k o : 0 <= a < nci s -> 0 <= k < nblks (cis s a) -> 0 <= o < 4096 ->
  m (bn s a k * 4096 + o) = img_file s (bn s a k * 4096 + o).
Proof.
  intros Ha Hk Ho. destruct (if_used _ _ _ (mo_inodes _ _ Hok a Ha) k Hk) as [Hu Hb].
  apply (cl_data _ _ Hcl); [lia| | |done].
  - intros a' Ha' E. pose proof (if_own _ _ _ (mo_inodes _ _ Hok a' Ha')) as Ho'. rewrite E in Ho'. congruence.
  - intros c Hc E. destruct (tf_own _ _ _ (mo_tables _ _ Hok c Hc)) as (a' & _ & Ho'). rewrite E in Ho'. congruence.
Qed.

Lemma image_node a : 0 <= a < nci s -> img_node m (ci_ino (cis s a)).
Proof.
  intros Ha. pose proof (mk_first _ _ Hok). pose proof (mo_inodes _ _ Hok a Ha) as Hf.
  destruct (image_din a Ha) as (_ & _ & _ & Hb & _ & Hi). cbn [disk_fields iblocks indirect] in Hb, Hi.
  pose proof (if_nblks _ _ _ Hf) as [Hnb Hbk]. rewrite Hbk in Hb.
  split; rewrite ?Hb, ?Hi.
  - apply image_used. by apply (inode_ino_lt own).
  - done.
  - intros k Hk. rewrite image_block by lia. apply image_used. destruct (if_used _ _ _ Hf k Hk). lia.
  - intros k Hk. rewrite image_block by lia. by apply (if_rest _ _ _ Hf).
  - intros k l Hk Hl. rewrite !image_block by lia. intros E. destruct (if_used _ _ _ Hf k Hk) as [Hk' _].
    destruct (if_used _ _ _ Hf l Hl) as [Hl' _]. congruence.
  - intros Hnz. destruct (l1 (cis s a)) as [t|] eqn:El.
    + destruct (table_ino a t Ha El) as (Ht & Hit & Ho & Hp). rewrite Hit.
      split; [by apply image_used|]. intros k Hk. rewrite image_block by lia.
      destruct (if_used _ _ _ Hf k Hk) as [Hu _]. intros E. rewrite E in Hu. congruence.
    + pose proof (if_table _ _ _ Hf) as Ht. rewrite El in Ht. by destruct Ht.
Qed.

(** ** The tree *)
Lemma image_slot dir k name a : 0 <= dir < nci s -> slot_in (state_view s) dir k name a ->
  slot_in (image_view m) (ci_ino (cis s dir)) k name (ci_ino (cis s a)).
Proof.
  intros Hd (Hk & Ha & Hl & Hi & Hn). view. pose proof (mo_inodes _ _ Hok dir Hd) as Hf.
  destruct (image_din dir Hd) as (_ & _ & _ & Hb & _). destruct (image_din a Ha) as (_ & _ & Hnl & _).
  cbn [disk_fields iblocks nlinks] in Hb, Hnl. pose proof (if_nblks _ _ _ Hf) as [Hnb Hbk]. rewrite Hbk in Hb.
  unfold slot_in. cbn [image_view v_good v_ino v_nblks v_nlinks v_block v_img].
  rewrite Hb, Hnl, image_block by lia. split; [done|]. split; [by apply image_node|]. split; [done|]. split.
  - rewrite <- Hi. apply get32_ext. intros o Ho. apply image_data; lia.
  - rewrite <- Hn. apply cstr_ext. intros o Ho. rewrite <- !Z.add_assoc. apply image_data; lia.
Qed.

Lemma image_data_in a ty data : 0 <= a < nci s -> data_in (state_view s) a ty data ->
  data_in (image_view m) (ci_ino (cis s a)) ty data.
Proof.
  intros Ha (Ht & Hs & Hn & Hd). view. destruct (image_din a Ha) as (Es & Et & _ & Eb & _).
  cbn [disk_fields size type iblocks] in Es, Et, Eb.
  pose proof (if_nblks _ _ _ (mo_inodes _ _ Hok a Ha)) as [Hnb Hbk]. rewrite Hbk in Eb.
  unfold data_in. cbn [image_view v_type v_size v_nblks v_block v_img]. rewrite Es, Et, Eb.
  split; [done|]. split; [done|]. split; [done|]. intros p Hp. rewrite <- Hd by done.
  pose proof (block_of p ltac:(lia)) as (P1 & P2 & P3).
  assert (Hq : p / 4096 < nblks (cis s a)).
  { rewrite Hn. unfold ceil_blocks. pose proof (Z.div_mod (Z.of_nat (length data) + 4095) 4096 ltac:(lia)).
    pose proof (Z.mod_pos_bound (Z.of_nat (length data) + 4095) 4096 ltac:(lia)).
    apply Z.div_lt_upper_bound; lia. }
  rewrite image_block by lia. by apply image_data.
Qed.

Lemma image_tree es : forall dir k, 0 <= dir < nci s -> tree_in (state_view s) dir k es ->
  tree_in (image_view m) (ci_ino (cis s dir)) k es.
Proof.
  assert (Hty : forall a, 0 <= a < nci s -> type (img_din m (ci_ino (cis s a))) = hi_type (ci_inode (cis s a))).
  { intros a Ha. by destruct (image_din a Ha) as (_ & -> & _). }
  induction es as [|name rl reads rest IH|name rl target rest IH|name rl sub IHs rest IH|name rest IH|name rest IH];
    intros dir k Hdir; cbn [tree_in]; try (by apply IH).
  - intros [Hn Hs]. view. destruct (image_din dir Hdir) as (Es & _ & _ & Eb & _). cbn [disk_fields size iblocks] in Es, Eb.
    pose proof (if_nblks _ _ _ (mo_inodes _ _ Hok dir Hdir)) as [_ Hbk].
    cbn [image_view v_nblks v_size]. split; congruence.
  - destruct (skipped name); [by apply IH|]. intros [(a & Hs & Hd) Hr]. pose proof Hs as (_ & Ha & _).
    split; [|by apply IH]. exists (ci_ino (cis s a)). split; [by apply image_slot|by apply image_data_in].
  - destruct (skipped name); [by apply IH|]. intros [(a & Hs & Hd) Hr]. pose proof Hs as (_ & Ha & _).
    split; [|by apply IH]. exists (ci_ino (cis s a)). split; [by apply image_slot|by apply image_data_in].
  - destruct (skipped name); [by apply IH|]. intros [(a & Hs & Hlt & Ht & S0 & S1 & Hsub) Hr].
    pose proof Hs as (_ & Ha & _). view. split; [|by apply IH]. exists (ci_ino (cis s a)).
    split; [by apply image_slot|]. split; [apply (mo_mono _ _ Hok); lia|].
    split; [cbn [image_view v_type]; rewrite Hty by done; exact Ht|].
    split; [by apply image_slot|]. split; [by apply image_slot|by apply IHs].
Qed.
End image.

(** ** The whole run *)
Lemma put_string_ok m a l : bytes_ok m -> bytes l -> bytes_ok (put_string m a l).
Proof.
  intros Hm Hl. apply put_bytes_ok; [done|]. apply Forall_app. split; [done|]. apply Forall_singleton. lia.
Qed.

Lemma text_ok l : bytes (text l).
Proof.
  apply Forall_forall. intros b Hb. unfold text in Hb. apply list_elem_of_fmap in Hb as (c & -> & _).
  pose proof (Ascii.N_ascii_bounded c). lia.
Qed.

(** The state [create_sfs] starts from: the root and nothing else. *)
Definition start_state (n : Z) (image mem0 : mem) : mksfs :=
  mkMksfs (mkSuper SFS_MAGIC n (n - first_ino n) (put_string mem0 0 (text "simple file system"))) [] image n
    (first_ino n) 0 (upd (fun _ => []) 0 [0]) (fun _ => [])
    (upd (fun _ => mkCi (new_inode 0) 0 0 0 None None) 0 (mkCi (new_inode SFS_TYPE_DIR) 0 1 0 None None)) 1
    (fun _ => mkCb 0 (fun _ => 0)) 0 (fun _ => 0).

Lemma create_sfs_run st_size n image mem0 :
  Z.quot st_size 4096 = n -> 0 < n <= 2 ^ 16 -> first_ino n < n ->
  create_sfs st_size image mem0 = Done (tt, start_state n image mem0).
Proof.
  intros Hq Hn Hf. pose proof (map_blocks_pos n Hn). unfold create_sfs.
  change SFS_BLKSIZE with 4096. change SFS_MAX_NBLKS with 524288. change SFS_BLKBITS with 32768.
  change SFS_BLKN_FREEMAP with 2. rewrite Hq. rewrite (u32_small n) by lia.
  destruct (Z.ltb_spec 524288 n); [lia|]. rewrite (u32_small (n + 32768 - 1)) by lia.
  replace (n + 32768 - 1) with (n + 32767) by lia. fold (map_blocks n). rewrite u32_small by lia.
  fold (first_ino n). destruct (Z.leb_spec n (first_ino n)); [lia|]. reflexivity.
Qed.

Lemma start_ok n image mem0 :
  0 < n <= 2 ^ 16 -> first_ino n < n -> bytes_ok image -> bytes_ok mem0 ->
  mk_ok (fun _ => UInode 0) (start_state n image mem0).
Proof.
  intros Hn Hf Hi Hm. pose proof (map_blocks_pos n Hn) as Hmb.
  assert (Hroot : cis (start_state n image mem0) 0 = mkCi (new_inode SFS_TYPE_DIR) 0 1 0 None None) by apply upd_eq.
  assert (Hbn : forall k, bn (start_state n image mem0) 0 k = 0).
  { intros k. unfold bn. rewrite Hroot. cbn. by destruct (k <? 12). }
  assert (Hf3 : 3 <= first_ino n) by (unfold first_ino; lia).
  split; cbn [start_state ninos next_ino mk_super magic blocks unused_blocks info root nci ncb].
  - done.
  - lia.
  - split_and!; try done. apply put_string_ok; [done|apply text_ok].
  - lia.
  - intros a Ha. assert (a = 0) as -> by lia. split; rewrite ?Hroot; cbn -[max_blocks first_ino bn];
      try (unfold max_blocks; lia || done).
  - lia.
  - intros h a. change (inodes_of (start_state n image mem0) h) with (upd (fun _ => ([] : list Z)) 0 [0] h).
    unfold upd. case_decide as Hh.
    + subst h. rewrite list_elem_of_singleton. split; [intros ->; split; [lia|done]|lia].
    + rewrite elem_of_nil. split; [done|]. intros [Ha Hr]. apply Hh. assert (a = 0) as -> by lia. by rewrite <- Hr.
  - intros h c. rewrite elem_of_nil. lia.
  - lia.
  - split; [done|]. intros a. cbn. lia.
Qed.

(** What the host's directory must be for the tool to take it, and for the image
    file of [n] blocks to hold it. *)
Record home_ok (host : Z -> node_kind) (home : dirlist) (n : Z) : Prop := mkHomeOk {
  ho_listing : listing_ok host home;
  ho_dirs : NoDup (0 :: dir_reals home);
  ho_slots : 2 + visible home <= max_blocks;
  ho_size : 0 < n <= 2 ^ 16;
  ho_fits : first_ino n + (2 + cost 2 home) <= n }.

Lemma mksfs_main_run host imgname st_size n image mem0 home :
  img_name imgname = true -> Z.quot st_size 4096 = n -> bytes_ok image -> bytes_ok mem0 -> home_ok host home n ->
  exists own s, mksfs_main imgname st_size image mem0 home = Done (tt, set_img_file (put_blocks (all_writes s) (img_file s)) s) /\
    mk_ok own s /\ ninos s = n /\ ci_ino (cis s 0) = 1 /\ home_in (state_view s) 0 home.
Proof.
  intros Hname Hq Him Hm0 [Hl Hnd Hsl Hn Hfits]. pose proof (cost_nonneg home 2).
  assert (Hf : first_ino n < n) by lia. pose proof (start_ok n image mem0 Hn Hf Him Hm0) as Hok.
  pose proof (create_sfs_run st_size n image mem0 Hq Hn Hf) as Hc. set (s0 := start_state n image mem0) in *.
  assert (Hroot : cis s0 0 = mkCi (new_inode SFS_TYPE_DIR) 0 1 0 None None) by apply upd_eq.
  apply NoDup_cons in Hnd as [Hnin Hnd].
  assert (Hdr : dir_ready host (fun _ => UInode 0) s0 0).
  { split; [done| |cbn; lia|by rewrite Hroot]. split; [by rewrite Hroot|]. intros a Ha. cbn in Ha. lia. }
  destruct (open_sub_spec host (fun _ => UInode 0) s0 0 0 home (open_entries_walks host home) Hl Hnd Hdr)
    as (own & s & Hrun & Hr & S0 & S1 & T); [cbn; lia|by rewrite Hroot|by rewrite Hroot|done| |exact Hfits|].
  { intros r Hr a Ha Hra. cbn in Ha. assert (a = 0) as -> by lia. rewrite Hroot in Hra. cbn in Hra. by subst r. }
  destruct (ex_same _ _ _ (ro_ext _ _ _ _ _ _ _ Hr) 0 (dr_cur _ _ _ _ Hdr)) as (Ei & _ & Et & _).
  pose proof (ex_count _ _ _ (ro_ext _ _ _ _ _ _ _ Hr)) as (En & _ & _).
  exists own, s. split; [|split; [apply Hr|]].
  - unfold mksfs_main, open_img. rewrite Hname, Hc. unfold create_img, open_dir.
    mstep (eq_refl : get root s0 = Done (0, s0)). change (root s0) with 0 in *.
    pose proof (close_sfs_run own s (ro_ok _ _ _ _ _ _ _ Hr)) as Hclose.
    unfold mbind, ST_bind in *. by rewrite Hrun.
  - rewrite En, Ei. split; [done|]. split; [by rewrite Hroot|]. split; [|done].
    cbn [state_view v_type]. rewrite Et, Hroot. done.
Qed.

Lemma mksfs_image_run host imgname st_size n image mem0 home :
  img_name imgname = true -> Z.quot st_size 4096 = n -> bytes_ok image -> bytes_ok mem0 -> home_ok host home n ->
  exists s, mksfs_main imgname st_size image mem0 home = Done (tt, s) /\
    image_ok (img_file s) n /\ img_node (img_file s) 1 /\ home_in (image_view (img_file s)) 1 home.
Proof.
  intros Hname Hq Him Hm0 Hh.
  destruct (mksfs_main_run host imgname st_size n image mem0 home Hname Hq Him Hm0 Hh) as (own & s & Hrun & Hok & Hn & Hi & Ht & S0 & S1 & T).
  eexists. split; [exact Hrun|]. set (m := put_blocks (all_writes s) (img_file s)).
  change (img_file (set_img_file m s)) with m. pose proof (close_sfs_closed own s Hok) as Hcl. fold m in Hcl.
  pose proof (mo_root _ _ Hok) as (_ & Hnc & _). assert (H0 : 0 <= 0 < nci s) by lia.
  split; [rewrite <- Hn; by eapply closed_image_ok|]. rewrite <- Hi. split; [by eapply image_node|].
  split; [|split; [by eapply image_slot|split; [by eapply image_slot|by eapply image_tree]]].
  cbn [image_view v_type]. destruct (image_din own s m Hok Hcl 0 H0) as (_ & -> & _). exact Ht.
Qed.

(** C13 The tool ends without giving up on every directory that fits its
    formats and the image file, and what it writes is an image that the kernel
    can mount, with the free blocks counted right, in which every directory, file
    and link of the host is found under its name, with its bytes, in blocks that
    are marked as used and used once. *)
Theorem mksfs_image host imgname st_size n image mem0 home :
  img_name imgname = true -> Z.quot st_size 4096 = n -> bytes_ok image -> bytes_ok mem0 -> home_ok host home n ->
  exists s, mksfs_main imgname st_size image mem0 home = Done (tt, s) /\
    image_ok (img_file s) n /\ img_node (img_file s) 1 /\ home_in (image_view (img_file s)) 1 home.
Proof. apply mksfs_image_run. Qed.

(** ** Witness: a file with two names, a directory, a link, on 32 blocks *)
Definition sample_home : dirlist :=
  DReg (text "hello") 11 [Some [1; 2; 3]]
    (DDir (text "d") 12 (DReg (text "x") 13 [] (DReg (text "again") 11 [Some [1; 2; 3]] DEnd))
      (DOther (text ".") (DLnk (text "l") 14 (Some [47]) DEnd))).
Definition sample_host (r : Z) : node_kind :=
  if r =? 11 then KFile [1; 2; 3] else if r =? 13 then KFile [] else if r =? 14 then KLink else KDir.

Lemma sample_name_ok l : (Z.of_nat (length (text l)) <=? 252) && forallb (fun b => negb (b =? 0)) (text l) = true ->
  name_ok (text l).
Proof.
  intros [H1 H2]%andb_true_iff. split; [by apply Z.leb_le|]. split; [apply text_ok|].
  apply Forall_forall. intros b Hb. rewrite forallb_forall in H2.
  specialize (H2 b (proj1 (list_elem_of_In _ b) Hb)). by destruct (Z.eqb_spec b 0).
Qed.

Lemma sample_home_ok : home_ok sample_host sample_home 32.
Proof.
  assert (Hby : forall l, Forall (fun b => 0 <= b < 256) l -> bytes l) by done.
  assert (H3 : reads_full [Some [1; 2; 3]]).
  { cbn. split_and!; [lia|lia|apply Hby; repeat constructor; lia|by left|done]. }
  split.
  - cbn [listing_ok sample_home].
    refine (conj (or_intror _) (conj (or_intror _) (conj (or_introl eq_refl) (conj (or_intror _) I)))).
    + by split; [apply sample_name_ok|].
    + split; [by apply sample_name_ok|]. split; [done|]. split; [done|].
      refine (conj (or_intror _) (conj (or_intror _) I)); (split; [by apply sample_name_ok|done]).
    + split; [by apply sample_name_ok|]. split; [done|]. exists [47]. split; [done|].
      split; [cbn; lia|]. apply Hby. repeat constructor; lia.
  - apply NoDup_cons. split; [by intros [?|?%elem_of_nil]%elem_of_cons|]. apply NoDup_singleton.
  - vm_compute. done.
  - lia.
  - vm_compute. done.
Qed.

Lemma mksfs_image_witness :
  exists s, mksfs_main (text "sfs.img") 131072 (fun _ => 0) (fun _ => 0) sample_home = Done (tt, s) /\
    image_ok (img_file s) 32 /\ img_node (img_file s) 1 /\ home_in (image_view (img_file s)) 1 sample_home.
Proof.
  exact (mksfs_image sample_host (text "sfs.img") 131072 32 (fun _ => 0) (fun _ => 0) sample_home eq_refl eq_refl
           ltac:(intros a; lia) ltac:(intros a; lia) sample_home_ok).
Defined.
