(* ===== verification/MksfsMount.v ===== *)
(** * The disk image tool and the kernel: files of the host, read back

    A mounted file system whose bytes are those of an image reads the files that
    the image holds: looking up a name in a directory finds the inode of the
    entry, and reading it gives the bytes of the host's file. *)
From Stdlib Require Import String.
From S2P Require Import Prelude Libs Mem Printfmt Disk Bitmap SfsIo SfsInode SfsAlloc SfsMap SfsFile.
From S2P Require Import SfsDir SfsDirSpec SfsCache SfsFs SfsFsSpec Mksfs MksfsInv MksfsTree MksfsClose MksfsSpec.

(** The bytes of the first visible entry of that name, if it is a regular file. *)
Fixpoint file_at (es : dirlist) (name : list Z) : option (list Z) :=
  match es with
  | DEnd => None
  | DReg nm _ reads rest =>
      if skipped nm then file_at rest name
      else if decide (nm = name) then Some (read_data reads) else file_at rest name
  | DLnk nm _ _ rest | DDir nm _ _ rest =>
      if skipped nm then file_at rest name else if decide (nm = name) then None else file_at rest name
  | DOther _ rest | DFail _ rest => file_at rest name
  end.

Definition slot_text (v : view) (dir k : Z) : list Z := cstr (v_img v) (v_block v dir k * 4096 + 4) 255.

Lemma file_slot v dir name data es : forall k,
  tree_in v dir k es -> file_at es name = Some data ->
  skipped name = false /\ exists j a, k <= j /\ slot_in v dir j name a /\ data_in v a SFS_TYPE_FILE data /\
    forall l, k <= l < j -> slot_text v dir l <> name.
Proof.
  assert (Hnext : forall k nm (a : Z) (P : Prop), nm <> name -> slot_in v dir k nm a ->
    (P /\ exists j a, k + 1 <= j /\ slot_in v dir j name a /\ data_in v a SFS_TYPE_FILE data /\
       forall l, k + 1 <= l < j -> slot_text v dir l <> name) ->
    P /\ exists j a, k <= j /\ slot_in v dir j name a /\ data_in v a SFS_TYPE_FILE data /\
      forall l, k <= l < j -> slot_text v dir l <> name).
  { intros k nm a P Hne (_ & _ & _ & _ & Hs) [HP (j & b & Hj & Hsl & Hd & Hl)]. split; [done|].
    exists j, b. split; [lia|]. split; [done|]. split; [done|]. intros l Hlr.
    destruct (decide (l = k)) as [->|]; [unfold slot_text; by rewrite Hs|apply Hl; lia]. }
  induction es as [|nm rl reads rest IH|nm rl target rest IH|nm rl sub IHs rest IH|nm rest IH|nm rest IH];
    intros k; cbn [tree_in file_at]; try done; try apply IH; destruct (skipped nm) eqn:Hsk; try apply IH.
  - intros [(a & Hs & Hd) Hr]. destruct (decide (nm = name)) as [->|Hne].
    + intros [= <-]. split; [done|]. exists k, a. split; [lia|]. split; [done|]. split; [done|]. lia.
    + intros Hf. by eapply (Hnext k nm a _ Hne Hs), IH.
  - intros [(a & Hs & Hd) Hr]. destruct (decide (nm = name)) as [->|Hne]; [done|].
    intros Hf. by eapply (Hnext k nm a _ Hne Hs), IH.
  - intros [(a & Hs & Hd) Hr]. destruct (decide (nm = name)) as [->|Hne]; [done|].
    intros Hf. by eapply (Hnext k nm a _ Hne Hs), IH.
Qed.

Section kernel.
  Context {D : Type} `{BlockDevice D} (m : mem).
  Implicit Types (st : sfs_fs D) (d : D).

(** The mounted file system has the bytes and the free map of the image, and its
    cached inodes are those of the image. *)
Record holds st : Prop := mkHolds {
  hd_wf : fs_wf st;
  hd_cache : cache_ok st;
  hd_lock : 0 < fs_sem st;
  hd_img a : img st a = m a;
  hd_blocks : blocks (super st) = get32 m 4;
  hd_bits b : 0 < b < get32 m 4 -> bit (freemap st) b = bit (disk_freemap m) b;
  hd_sins n : n ∈ inode_list st -> din (sins st n) ≡ img_din m (ino (sins st n)) }.

(** No inode in memory is locked. *)
Definition unlocked st : Prop := forall n, n ∈ inode_list st -> 0 < sem (sins st n).

Lemma mounted_holds st : 0 < get32 m 4 -> mounted m st -> holds st.
Proof.
  intros Hpos [Hwf Hc [He Hs] (_ & Hb & _) [Hn Hbit] Hi Hsem]. split; try done; [lia| |].
  - intros b Hb'. apply Hbit. rewrite Hn. unfold disk_freemap. cbn [nbits].
    pose proof (ready_dev _ (wf_ready _ Hwf)) as [Hd Hle]. pose proof (dev_blocks_bound _ Hd).
    destruct (map_blocks_range (get32 m 4) ltac:(lia)). lia.
  - rewrite He. by intros n ?%elem_of_nil.
Qed.

Lemma holds_used st b : holds st -> img_used m b -> inuse st b.
Proof.
  intros Hh [Hb Hbit]. split; [by rewrite (hd_blocks _ Hh)|]. by rewrite (hd_bits _ Hh).
Qed.

(** Steps that only move the bounce buffer. *)
Lemma kernel_holds_upd st st' : holds st -> disk_upd st st' (img st) -> holds st'.
Proof.
  intros [Hwf Hc Hl Hi Hb Hbit Hs] Hu. pose proof (disk_upd_wf _ _ _ Hu Hwf) as Hwf'.
  pose proof (disk_upd_img _ _ _ Hu) as Hi'. destruct Hu as (d & b & -> & _).
  split; try done; [by apply (cache_ok_ext st)|]. intros a. by rewrite Hi', Hi.
Qed.

Section node.
  Context st n (Hh : holds st) (Hn : n ∈ inode_list st) (Hnode : img_node m (ino (sins st n))).
  Notation i := (ino (sins st n)).

Lemma node_fmap k : 0 <= k < max_blocks -> fmap st n k = img_block m i k.
Proof.
  intros Hk. destruct (hd_sins _ Hh n Hn) as (_ & _ & _ & _ & Hd & Hind).
  unfold fmap, img_block, dino. rewrite Hind. destruct (Z.ltb_spec k 12); [apply Hd; lia|].
  destruct (_ =? 0); [done|]. unfold entry. apply get32_ext. intros o Ho. rewrite (hd_img _ Hh). f_equal. lia.
Qed.

Lemma node_map_ok : map_ok st n.
Proof.
  destruct (hd_sins _ Hh n Hn) as (_ & _ & _ & Hb & _ & Hind). destruct Hnode as [Hu Hbl Hm Hr Hi Hin].
  assert (Hr' : forall k, 0 <= k < iblocks (img_din m i) -> 0 <= k < max_blocks) by lia.
  split; unfold dino; rewrite ?Hb, ?Hind; try done.
  - intros k Hk. rewrite node_fmap by auto. apply holds_used; [done|]. by apply Hm.
  - intros k Hk. rewrite node_fmap by lia. by apply Hr.
  - intros k l Hk Hl. rewrite !node_fmap by auto. by apply Hi.
  - intros Hne. destruct (Hin Hne) as [H1 H2]. split; [by apply holds_used|]. intros k Hk.
    rewrite node_fmap by auto. by apply H2.
Qed.

Lemma node_dir_ok : type (img_din m i) = SFS_TYPE_DIR -> dir_ok st n.
Proof.
  intros Ht. split; [apply node_map_ok|]. destruct (hd_sins _ Hh n Hn) as (_ & Hty & _).
  unfold dino. by rewrite Hty.
Qed.

Lemma node_file_ok data : data_in (image_view m) i SFS_TYPE_FILE data ->
  file_ok st n /\ size (dino st n) = Z.of_nat (length data) /\
  forall p, 0 <= p < Z.of_nat (length data) -> fbyte st n p = nth (Z.to_nat p) data 0.
Proof.
  intros (Ht & Hs & Hb & Hd). cbn [image_view v_type v_size v_nblks v_block v_img] in *.
  destruct (hd_sins _ Hh n Hn) as (Es & Et & _ & Eb & _).
  assert (Hsz : size (dino st n) = Z.of_nat (length data)) by (unfold dino; congruence).
  split; [|split; [done|]].
  - split; [apply node_map_ok|unfold dino; congruence|lia|]. rewrite Hsz. unfold dino. congruence.
  - intros p Hp. rewrite <- Hd by done. pose proof (block_of p ltac:(lia)) as (P1 & P2 & P3).
    pose proof (in_blocks _ _ Hnode) as Hbl.
    assert (p / 4096 < iblocks (img_din m i)).
    { rewrite Hb. unfold ceil_blocks. pose proof (Z.div_mod (Z.of_nat (length data) + 4095) 4096 ltac:(lia)).
      pose proof (Z.mod_pos_bound (Z.of_nat (length data) + 4095) 4096 ltac:(lia)).
      apply Z.div_lt_upper_bound; lia. }
    unfold fbyte, byte. rewrite node_fmap by lia. by rewrite (hd_img _ Hh).
Qed.
End node.

Lemma img_node_ext i k : k = i -> img_node m i -> img_node m k.
Proof. by intros ->. Qed.

(** ** Loading an inode of the image *)
Lemma holds_load st i x : holds st -> unlocked st -> img_node m i -> 1 <= nlinks (img_din m i) ->
  type (img_din m i) = SFS_TYPE_DIR \/ type (img_din m i) = SFS_TYPE_FILE -> x ∉ inode_list st ->
  exists n st', sfs_load_inode (mkKalloc true (Some x)) i st = Done ((0, Some n), st') /\
    holds st' /\ unlocked st' /\ n ∈ inode_list st' /\ ino (sins st' n) = i /\
    (forall k, k ∈ inode_list st' -> k = x \/ k ∈ inode_list st).
Proof.
  intros Hh Hul Hnode Hnl Hty Hx. pose proof Hh as [Hwf Hc Hl Hi Hb Hbit Hs].
  assert (Hdd : disk_din st i ≡ img_din m i).
  { apply get_din_ext. intros a Ha. unfold byte. by rewrite Hi. }
  pose proof Hdd as (_ & Et & En & _).
  assert (Hib : inode_block st i).
  { split; [apply holds_used; [done|apply Hnode]|]. rewrite Et, En. split; [lia|done]. }
  destruct (load_inode_run st i x Hwf Hc Hl Hib Hx) as (n & st' & Hrun & Hld & Hfs).
  exists n, st'. split; [done|]. destruct Hld as [Hwf' Hc' [Hin Hino] Hoth Himg [Hsu Hfm] Hhow].
  assert (Hdin : forall k, k ∈ inode_list st' -> din (sins st' k) ≡ img_din m (ino (sins st' k)) /\ 0 < sem (sins st' k)).
  { intros k Hk. destruct (decide (k = n)) as [->|Hne].
    - rewrite Hino. destruct Hhow as [(Hin0 & _ & E)|(_ & _ & _ & dd & Hdd' & E)]; rewrite E.
      + pose proof (Hs n Hin0) as H1. pose proof (Hul n Hin0) as H2. rewrite E in Hino. unfold referenced in *.
        destruct (_ =? 1); cbn in *; rewrite Hino in H1; done.
      + cbn. split; [by rewrite Hdd'|lia].
    - rewrite Hoth by done. assert (Hk0 : k ∈ inode_list st).
      { destruct Hhow as [(_ & El & _)|(_ & _ & El & _)]; rewrite El in Hk; [done|].
        by apply elem_of_cons in Hk as [?|?]. }
      split; [by apply Hs|by apply Hul]. }
  split; [|split; [|split; [done|split; [done|]]]].
  3: { intros k Hk. destruct Hhow as [(_ & El & _)|(_ & Eal & El & _)]; rewrite El in Hk; [by right|].
       injection Eal as <-. apply elem_of_cons in Hk as [->|?]; [by left|by right]. }
  - split; try done; [by rewrite Hfs|intros a; by rewrite Himg|by rewrite Hsu| |].
    + intros b Hb'. rewrite Hfm. by apply Hbit.
    + intros k Hk. by apply Hdin.
  - intros k Hk. by apply Hdin.
Qed.

(** ** Looking a name up *)
Lemma holds_sins st f : holds st -> (forall k, ino (f k) = ino (sins st k) /\ din (f k) = din (sins st k)) ->
  holds (set_sins f st).
Proof.
  intros [Hwf Hc Hl Hi Hb Hbit Hs] Hf. split; try done.
  - by apply fs_wf_sins.
  - apply (cache_ok_ext st); try done. intros k _. cbn. apply Hf.
  - intros k Hk. cbn. destruct (Hf k) as [-> ->]. by apply Hs.
Qed.

Lemma cstr_length (b : mem) a k : Z.of_nat (length (cstr b a k)) <= Z.of_nat k.
Proof.
  revert a; induction k as [|k IH]; intros a; [done|]. cbn [cstr]. destruct (_ =? 0); cbn [length]; [lia|].
  specialize (IH (a + 1)). lia.
Qed.

Section lookup.
  Context st n (es : dirlist) (name data : list Z) (Hh : holds st) (Hul : unlocked st) (Hn : n ∈ inode_list st).
  Notation i := (ino (sins st n)).
  Context (Hnode : img_node m i) (Hhome : type (img_din m i) = SFS_TYPE_DIR /\ slot_in (image_view m) i 0 (text ".") i /\
    (exists up, slot_in (image_view m) i 1 (text "..") up) /\ tree_in (image_view m) i 2 es).
  Context (Hfile : file_at es name = Some data).

(** Searching the directory finds the entry of the file. *)
Lemma search_file st1 : holds st1 -> n ∈ inode_list st1 -> ino (sins st1 n) = i ->
  exists st2 a slot e, sfs_dirent_search_nolock true n name st1 = Done ((0, a, slot, e), st2) /\
    disk_upd st1 st2 (img st1) /\ img_node m a /\ 1 <= nlinks (img_din m a) /\
    data_in (image_view m) a SFS_TYPE_FILE data.
Proof.
  intros Hh1 Hn1 Hi1. assert (Hdir : type (img_din m i) = SFS_TYPE_DIR /\ slot_text (image_view m) i 0 = text "." /\
    slot_text (image_view m) i 1 = text ".." /\ tree_in (image_view m) i 2 es).
  { destruct Hhome as (Ht & S0 & (up & S1) & T).
    split; [exact Ht|]. split; [apply S0|]. split; [apply S1|exact T]. }
  destruct Hdir as (Ht & S0 & S1 & T).
  destruct (file_slot _ _ _ _ _ _ T Hfile) as (Hsk & j & a & Hj & Hs & Hd & Hfirst).
  pose proof Hs as (Hjr & Ha & Hnl & Hino & Hname). cbn [image_view v_good v_ino v_nblks v_nlinks v_block v_img] in *.
  assert (Hnode1 : img_node m (ino (sins st1 n))) by (by rewrite Hi1).
  assert (Hdok : dir_ok st1 n) by (apply (node_dir_ok st1 n Hh1 Hn1 Hnode1); by rewrite Hi1).
  assert (Hlen : Z.of_nat (length name) <= SFS_MAX_FNAME_LEN) by (rewrite <- Hname; apply cstr_length).
  assert (Hib : iblocks (dino st1 n) = iblocks (img_din m i)).
  { destruct (hd_sins _ Hh1 n Hn1) as (_ & _ & _ & Eb & _). unfold dino. by rewrite Eb, Hi1. }
  pose proof (in_blocks _ _ Hnode) as Hbl.
  assert (Hslot : forall l, 0 <= l < max_blocks -> slot_ino st1 n l = get32 m (img_block m i l * 4096) /\
    slot_name st1 n l = slot_text (image_view m) i l).
  { intros l Hl. unfold slot_ino, slot_name, slot_text. cbn [image_view v_block v_img].
    rewrite (node_fmap st1 n Hh1 Hn1) by done. rewrite Hi1. split.
    - apply get32_ext. intros o Ho. apply (hd_img _ Hh1).
    - apply cstr_ext. intros o Ho. apply (hd_img _ Hh1). }
  assert (Ha0 : a <> 0) by (destruct (in_used _ _ Ha) as [? _]; lia).
  assert (Hent : entry_of st1 n name j).
  { destruct (Hslot j ltac:(lia)) as [E1 E2]. unfold entry_of. rewrite E1, E2, Hino. done. }
  assert (Hbefore : forall l, 0 <= l < j -> ~ entry_of st1 n name l).
  { intros l Hl [_ He]. destruct (Hslot l ltac:(lia)) as [_ E2]. rewrite E2 in He.
    destruct (decide (l = 0)) as [->|]; [rewrite S0 in He; rewrite <- He in Hsk; discriminate Hsk|].
    destruct (decide (l = 1)) as [->|]; [rewrite S1 in He; rewrite <- He in Hsk; discriminate Hsk|].
    apply (Hfirst l); [lia|done]. }
  destruct (dirent_search_run st1 n name (hd_wf _ Hh1) Hdok Hlen) as (st2 & [[[ret b] sl] e] & Hrun & Hu & Hr).
  rewrite Hib in Hr. destruct Hr as [(-> & Hsl & Hen & -> & Hno & _)|(_ & Hno & _)].
  - assert (sl = j) as ->.
    { destruct (Z.lt_trichotomy sl j) as [Hlt|[?|Hgt]]; [|done|].
      - exfalso. exact (Hbefore sl ltac:(lia) Hen).
      - exfalso. exact (Hno j ltac:(lia) Hent). }
    destruct (Hslot j ltac:(lia)) as [E1 _]. rewrite E1, Hino in Hrun.
    exists st2, a, j, e. split; [exact Hrun|]. done.
  - exfalso. exact (Hno j ltac:(lia) Hent).
Qed.

Lemma lookup_file x : x ∉ inode_list st ->
  exists n' st', sfs_lookup_once true (mkKalloc true (Some x)) n name st = Done ((0, Some n'), st') /\
    holds st' /\ file_ok st' n' /\ size (dino st' n') = Z.of_nat (length data) /\
    forall p, 0 <= p < Z.of_nat (length data) -> fbyte st' n' p = nth (Z.to_nat p) data 0.
Proof.
  intros Hx. pose proof (Hul n Hn) as Hsem.
  set (st1 := set_sins (upd (sins st) n (set_sem (sem (sins st n) - 1) (sins st n))) st).
  assert (Hlock : lock_sin n st = Done (tt, st1)).
  { unfold lock_sin, lock. by destruct (Z.ltb_spec 0 (sem (sins st n))); [|lia]. }
  assert (Hh1 : holds st1).
  { apply holds_sins; [done|]. intros k. unfold upd. by case_decide; subst. }
  destruct (search_file st1 Hh1 Hn) as (st2 & a & slot & e & Hrun & Hu & Ha & Hnl & Hd); [cbn; by rewrite upd_eq|].
  pose proof (kernel_holds_upd _ _ Hh1 Hu) as Hh2.
  assert (Hs2 : sins st2 = sins st1 /\ inode_list st2 = inode_list st) by (by destruct Hu as (dd & b & -> & _)).
  destruct Hs2 as [Es2 El2].
  set (st3 := set_sins (upd (sins st2) n (set_sem (sem (sins st2 n) + 1) (sins st2 n))) st2).
  assert (Hunlock : unlock_sin n st2 = Done (tt, st3)) by done.
  assert (Hh3 : holds st3).
  { apply holds_sins; [done|]. intros k. unfold upd. by case_decide; subst. }
  assert (Hul3 : unlocked st3).
  { intros k Hk. cbn in Hk |- *. rewrite El2 in Hk. rewrite Es2. cbn. unfold upd.
    repeat case_decide; subst; cbn; try (by apply Hul); lia. }
  destruct (holds_load st3 a x Hh3 Hul3 Ha Hnl) as (n' & st' & Hload & Hh' & Hul' & Hn' & Hi' & _).
  { right. apply Hd. }
  { cbn. by rewrite El2. }
  exists n', st'. split; [|split; [done|]].
  - unfold sfs_lookup_once. mstep Hlock. mstep Hrun. mstep Hunlock. cbn [Z.eqb]. exact Hload.
  - apply (node_file_ok st' n' Hh' Hn'); rewrite Hi'; done.
Qed.
End lookup.
End kernel.

(** ** The tool and the kernel together *)
Section read_back.
  Context {D : Type} `{BlockDevice D}.

Lemma image_ok_more m n n' : n <= n' -> image_ok m n -> image_ok m n'.
Proof. intros Hn [? ? ? ? ? ? ?]. split; try done; lia. Qed.

(** The root of a mounted image, then a file in it. *)
Lemma mounted_file m (st : sfs_fs D) home name data x y :
  0 < get32 m 4 -> img_node m 1 -> home_in (image_view m) 1 home -> mounted m st ->
  file_at home name = Some data -> x <> y ->
  exists r st1 f st2, sfs_get_root (mkKalloc true (Some x)) st = Done (r, st1) /\
    sfs_lookup_once true (mkKalloc true (Some y)) r name st1 = Done ((0, Some f), st2) /\
    fs_wf st2 /\ file_ok st2 f /\ size (dino st2 f) = Z.of_nat (length data) /\
    forall p, 0 <= p < Z.of_nat (length data) -> fbyte st2 f p = nth (Z.to_nat p) data 0.
Proof.
  intros Hpos Hnode (Ht & S0 & S1 & T) Hm Hfile Hxy. pose proof (mt_empty _ _ Hm) as [Hempty _].
  pose proof (mounted_holds m st Hpos Hm) as Hh. pose proof S0 as (_ & _ & Hnl & _).
  destruct (holds_load m st 1 x Hh) as (r & st1 & Hload & Hh1 & Hul1 & Hr1 & Hi1 & Hl1);
    [intros k Hk; rewrite Hempty in Hk; by apply elem_of_nil in Hk|exact Hnode|exact Hnl|left; exact Ht|
     rewrite Hempty; by intros ?%elem_of_nil|].
  assert (Hx : y ∉ inode_list st1).
  { intros [?|Hy]%Hl1; [congruence|]. rewrite Hempty in Hy. by apply elem_of_nil in Hy. }
  destruct (lookup_file m st1 r home name data Hh1 Hul1 Hr1) with (x := y) as (f & st2 & Hlook & Hh2 & Hf);
    [rewrite Hi1; exact Hnode| |exact Hfile|exact Hx|].
  { rewrite Hi1. split; [exact Ht|]. split; [exact S0|]. split; [exists 1; exact S1|exact T]. }
  exists r, st1, f, st2. split; [|split; [exact Hlook|split; [apply Hh2|exact Hf]]].
  unfold sfs_get_root. change SFS_BLKN_ROOT with 1. mstep Hload. done.
Qed.

(** C14 What the tool packs, the kernel reads back: on any device that holds
    the image, mounting succeeds, and for every regular file of the host's
    directory the root has an entry with its name, whose inode is read to the
    bytes of the file, as many as asked for and there are. *)
Theorem host_file_read_back host imgname st_size n image mem0 home name data :
  img_name imgname = true -> Z.quot st_size 4096 = n -> bytes_ok image -> bytes_ok mem0 -> home_ok host home n ->
  file_at home name = Some data ->
  exists s, mksfs_main imgname st_size image mem0 home = Done (tt, s) /\
  forall (d : D) al sbuf w x y buf base len,
    dev_ok d -> n <= dev_blocks d -> (forall a, dev_byte d a = img_file s a) ->
    ma_fs al = true -> ma_buffer al = Some sbuf -> ma_hash al = true -> ma_desc al = true ->
    ma_words al = Some w -> bytes_ok w -> x <> y -> 0 <= len < 2 ^ 62 ->
    exists st r st1 f st2 m' st3,
      sfs_do_mount al d = Done ((0, Some st), dev st) /\
      sfs_get_root (mkKalloc true (Some x)) st = Done (r, st1) /\
      sfs_lookup_once true (mkKalloc true (Some y)) r name st1 = Done ((0, Some f), st2) /\
      sfs_io_nolock f buf base 0 len false st2 = Done ((0, Z.min len (Z.of_nat (length data)), m'), st3) /\
      forall p, 0 <= p < Z.min len (Z.of_nat (length data)) -> m' (base + p) = nth (Z.to_nat p) data 0.
Proof.
  intros Hname Hq Him Hm0 Hh Hfile.
  destruct (mksfs_image_run host imgname st_size n image mem0 home Hname Hq Him Hm0 Hh) as (s & Hrun & Hok & Hnode & Hhome).
  exists s. split; [exact Hrun|]. intros d al sbuf w x y buf base len Hd Hn Hbytes A1 A2 A3 A4 A5 A6 Hxy Hlen.
  destruct (sfs_do_mount_correct d (img_file s) al sbuf w Hd (image_ok_more _ _ _ Hn Hok) Hbytes A1 A2 A3 A4 A5 A6)
    as (st & Hmount & Hm).
  destruct (mounted_file (img_file s) st home name data x y (proj1 (im_blocks _ _ Hok)) Hnode Hhome Hm Hfile Hxy)
    as (r & st1 & f & st2 & Hroot & Hlook & Hwf & Hf & Hsz & Hdata).
  destruct (io_nolock_read_run st2 f buf base 0 len Hwf Hf) as (m' & st3 & Hread & _ & Hm');
    [unfold SFS_MAX_FILE_SIZE; lia|done|].
  rewrite Z.sub_0_r, Hsz in *. replace (Z.max 0 (Z.min len (Z.of_nat (length data)))) with (Z.min len (Z.of_nat (length data))) in * by lia.
  exists st, r, st1, f, st2, m', st3. do 4 (split; [done|]). intros p Hp. rewrite Hm'.
  rewrite copy_in by lia. replace (0 + (base + p - base)) with p by lia. apply Hdata. lia.
Qed.
End read_back.

(** ** Witness: the file "hello" of [sample_home] *)
Definition image_device (m : mem) : disks := mkDisks (fun _ => mkIde 1 256 m) (fun _ => 0) 1 32 4096.

Lemma image_device_ok m : dev_ok (image_device m).
Proof. split; [|done]. by split; cbn; try lia. Qed.

Lemma host_file_read_back_witness :
  exists s, mksfs_main (text "sfs.img") 131072 (fun _ => 0) (fun _ => 0) sample_home = Done (tt, s) /\
  exists st r st1 f st2 m' st3,
    sfs_do_mount sample_mount_alloc (image_device (img_file s)) = Done ((0, Some st), dev st) /\
    sfs_get_root (mkKalloc true (Some 7)) st = Done (r, st1) /\
    sfs_lookup_once true (mkKalloc true (Some 8)) r (text "hello") st1 = Done ((0, Some f), st2) /\
    sfs_io_nolock f (fun _ => 0) 0 0 100 false st2 = Done ((0, 3, m'), st3) /\
    m' 0 = 1 /\ m' 1 = 2 /\ m' 2 = 3.
Proof.
  destruct (host_file_read_back (D := disks) sample_host (text "sfs.img") 131072 32 (fun _ => 0) (fun _ => 0) sample_home
              (text "hello") [1; 2; 3] eq_refl eq_refl ltac:(intros a; lia) ltac:(intros a; lia) sample_home_ok eq_refl)
    as (s & Hrun & Hall).
  exists s. split; [exact Hrun|].
  destruct (Hall (image_device (img_file s)) sample_mount_alloc (fun _ => 0) (fun _ => 0) 7 8 (fun _ => 0) 0 100
              (image_device_ok _) ltac:(cbn; lia) ltac:(intros a; exact eq_refl) eq_refl eq_refl eq_refl eq_refl eq_refl
              ltac:(intros a; lia) ltac:(lia) ltac:(lia))
    as (st & r & st1 & f & st2 & m' & st3 & R1 & R2 & R3 & R4 & Hm).
  exists st, r, st1, f, st2, m', st3. split; [exact R1|]. split; [exact R2|]. split; [exact R3|]. split; [exact R4|].
  split; [exact (Hm 0 ltac:(cbn; lia))|]. split; [exact (Hm 1 ltac:(cbn; lia))|exact (Hm 2 ltac:(cbn; lia))].
Defined.
