(* ===== verification/Inode.v ===== *)
(** * The interface of inodes (kern/fs/vfs/inode.h, vfs.h)

    What the virtual file system and the file table use of the inodes below
    them: the operations reached through [vop_*] and [fsop_*], the reference
    and open counts, and the laws that tie the two together.  Inodes and
    mounted file systems are named by their addresses. *)
From S2P Require Import Prelude Mem Disk SfsDir.

(** The same counts up to what a caller can see of them. *)
Class Inodes (W : Type) := {
  vop_ref_inc : Z -> ST W Z;
  vop_ref_dec : Z -> ST W Z;
  vop_open_inc : Z -> ST W Z;
  vop_open_dec : Z -> ST W Z;
  vop_open : Z -> Z -> ST W Z;
  vop_read : Z -> iobuf -> ST W (Z * iobuf);
  vop_write : Z -> iobuf -> ST W (Z * iobuf);
  vop_fstat : Z -> ST W (Z * stat);
  vop_fsync : Z -> ST W Z;
  vop_namefile : Z -> iobuf -> ST W (Z * iobuf);
  vop_getdirentry : Z -> iobuf -> ST W (Z * iobuf);
  vop_gettype : Z -> ST W (Z * Z);
  vop_tryseek : Z -> Z -> ST W Z;
  vop_truncate : Z -> Z -> ST W Z;
  vop_create : Z -> list Z -> bool -> ST W (Z * option Z);
  vop_lookup : Z -> list Z -> ST W (Z * option Z);
  in_fs : W -> Z -> option Z;
  is_device : W -> Z -> bool;
  fsop_get_root : Z -> ST W Z;
  fsop_sync : Z -> ST W Z;
  fsop_unmount : Z -> ST W Z;
  fsop_cleanup : Z -> ST W unit;

  inodes_ok : W -> Prop;
  refs : W -> Z -> Z;
  opens : W -> Z -> Z;

  (** Taking a reference, dropping one that someone holds. *)
  vop_ref_inc_run w n : inodes_ok w -> 0 < refs w n < 2 ^ 31 - 1 ->
    exists r w', vop_ref_inc n w = Done (r, w');
  vop_ref_inc_law w n r w' : inodes_ok w -> refs w n < 2 ^ 31 - 1 -> vop_ref_inc n w = Done (r, w') ->
    inodes_ok w' /\
    (forall k, refs w' k = upd (refs w) n (refs w n + 1) k) /\ (forall k, opens w' k = opens w k);
  vop_open_inc_law w n : inodes_ok w -> opens w n < refs w n < 2 ^ 31 - 1 -> exists w',
    vop_open_inc n w = Done (opens w n + 1, w') /\ inodes_ok w' /\
    (forall k, refs w' k = refs w k) /\ (forall k, opens w' k = upd (opens w) n (opens w n + 1) k);
  vop_ref_dec_law w n : inodes_ok w -> opens w n < refs w n -> exists w',
    vop_ref_dec n w = Done (refs w n - 1, w') /\ inodes_ok w' /\
    (forall k, refs w' k = upd (refs w) n (refs w n - 1) k) /\ (forall k, opens w' k = opens w k);
  vop_open_dec_law w n : inodes_ok w -> 0 < opens w n -> exists w',
    vop_open_dec n w = Done (opens w n - 1, w') /\ inodes_ok w' /\
    (forall k, refs w' k = refs w k) /\ (forall k, opens w' k = upd (opens w) n (opens w n - 1) k);
  counts_nonneg w n : inodes_ok w -> 0 <= opens w n <= refs w n;

  (** The other operations leave the counts alone... *)
  vop_open_law n flags w r w' : inodes_ok w -> vop_open n flags w = Done (r, w') ->
    inodes_ok w' /\ (forall k, refs w' k = refs w k) /\ (forall k, opens w' k = opens w k);
  vop_fstat_law n w r w' : inodes_ok w -> vop_fstat n w = Done (r, w') ->
    inodes_ok w' /\ (forall k, refs w' k = refs w k) /\ (forall k, opens w' k = opens w k);
  vop_truncate_law n len w r w' : inodes_ok w -> vop_truncate n len w = Done (r, w') ->
    inodes_ok w' /\ (forall k, refs w' k = refs w k) /\ (forall k, opens w' k = opens w k);
  vop_read_law n iob w r w' : inodes_ok w -> vop_read n iob w = Done (r, w') ->
    inodes_ok w' /\ (forall k, refs w' k = refs w k) /\ (forall k, opens w' k = opens w k);
  (** A read that returns has taken no more from the request than it asked for (for
      files of the disk see [SfsFile.sfs_read_takes]); it need not return: a directory
      has no [vop_read], and the standard input waits. *)
  vop_read_takes n iob w r iob' w' : inodes_ok w -> io_resid iob = io_len iob -> 0 <= io_len iob < 2 ^ 31 ->
    vop_read n iob w = Done ((r, iob'), w') -> io_len iob' = io_len iob /\ 0 <= io_resid iob' <= io_len iob;

  (** ... and those that hand out an inode hand out a reference with it. *)
  vop_lookup_law n path w r node w' : inodes_ok w -> vop_lookup n path w = Done ((r, node), w') ->
    inodes_ok w' /\ (forall k, opens w' k = opens w k) /\
    match node with
    | Some m => r = 0 /\ forall k, refs w' k = upd (refs w) m (refs w m + 1) k
    | None => r <> 0 /\ forall k, refs w' k = refs w k
    end;
  vop_create_law n path excl w r node w' : inodes_ok w -> vop_create n path excl w = Done ((r, node), w') ->
    inodes_ok w' /\ (forall k, opens w' k = opens w k) /\
    match node with
    | Some m => r = 0 /\ forall k, refs w' k = upd (refs w) m (refs w m + 1) k
    | None => r <> 0 /\ forall k, refs w' k = refs w k
    end;
  fsop_get_root_law fs w m w' : inodes_ok w -> fsop_get_root fs w = Done (m, w') ->
    inodes_ok w' /\ (forall k, opens w' k = opens w k) /\
    forall k, refs w' k = upd (refs w) m (refs w m + 1) k }.
