(* ===== verification/Vfs.v ===== *)
(** * The virtual file system

    kern/fs/vfs: the device table (vfsdev.c), path lookup (vfslookup.c), the
    boot file system and the current directory (vfs.c, vfspath.c), opening and
    closing (vfsfile.c), over any [Inodes].  Path and device names are lists of
    characters; results of [kmalloc] are arguments. *)
From S2P Require Import Prelude Libs Mem Disk SfsIo SfsDir Inode.

Definition FS_MAX_DNAME_LEN : Z := 31.
Definition NO_FD : Z := - 0x9527.

Inductive file_status := FD_NONE | FD_INIT | FD_OPENED | FD_CLOSED.
#[export] Instance file_status_eq_dec : EqDecision file_status.
Proof. solve_decision. Defined.

Record file := mkFile {
  status : file_status; readable : bool; writable : bool; fd : Z; pos : Z; node : option Z;
  fopen_count : Z }.
Record files_struct := mkFiles {
  pwd : option Z; fd_array : Z -> file; files_count : Z; files_sem : Z }.
Definition set_pwd (d : option Z) (f : files_struct) : files_struct :=
  mkFiles d (fd_array f) (files_count f) (files_sem f).
Definition set_files_sem (v : Z) (f : files_struct) : files_struct :=
  mkFiles (pwd f) (fd_array f) (files_count f) v.

Record vfs_dev_t := mkVdev {
  devname : list Z; devnode : option Z; vdev_fs : option Z; mountable : bool }.
Definition set_vdev_fs (fs : option Z) (v : vfs_dev_t) : vfs_dev_t :=
  mkVdev (devname v) (devnode v) fs (mountable v).

(** The state of the layer in one process: the inodes below, the boot
    directory, the device table and the files of the current process. *)
Record vfs (W : Type) := mkVfs {
  inodes : W; bootfs_node : option Z; bootfs_sem : Z; vdev_list : list vfs_dev_t; vdev_list_sem : Z;
  filesp : files_struct }.
Arguments mkVfs {W} _ _ _ _ _ _.
Arguments inodes {W} _. Arguments bootfs_node {W} _. Arguments bootfs_sem {W} _.
Arguments vdev_list {W} _. Arguments vdev_list_sem {W} _. Arguments filesp {W} _.

Section vfs_ops.
  Context {W : Type} `{Inodes W}.
  Implicit Types (s : vfs W).

Definition set_inodes (w : W) s := mkVfs w (bootfs_node s) (bootfs_sem s) (vdev_list s) (vdev_list_sem s) (filesp s).
Definition set_bootfs_node b s := mkVfs (inodes s) b (bootfs_sem s) (vdev_list s) (vdev_list_sem s) (filesp s).
Definition set_bootfs_sem v s := mkVfs (inodes s) (bootfs_node s) v (vdev_list s) (vdev_list_sem s) (filesp s).
Definition set_vdev_list l s := mkVfs (inodes s) (bootfs_node s) (bootfs_sem s) l (vdev_list_sem s) (filesp s).
Definition set_vdev_list_sem v s := mkVfs (inodes s) (bootfs_node s) (bootfs_sem s) (vdev_list s) v (filesp s).
Definition set_filesp f s := mkVfs (inodes s) (bootfs_node s) (bootfs_sem s) (vdev_list s) (vdev_list_sem s) f.

Definition on_inodes {A} (m : ST W A) : ST (vfs W) A :=
  fun s => match m (inodes s) with
           | Done (a, w) => Done (a, set_inodes w s)
           | Panicked => Panicked
           | NoFuel => NoFuel
           end.

(** ** vfsdev.c *)
Definition lock_vdev_list : ST (vfs W) unit := lock vdev_list_sem set_vdev_list_sem.
Definition unlock_vdev_list : ST (vfs W) unit := unlock vdev_list_sem set_vdev_list_sem.
Definition vfs_devlist_init : ST (vfs W) unit :=
  modify (set_vdev_list []) ;; modify (set_vdev_list_sem 1).

Fixpoint cleanup_devs (l : list vfs_dev_t) : ST (vfs W) unit :=
  match l with
  | [] => mret tt
  | v :: l' =>
      match vdev_fs v with
      | Some fs => on_inodes (fsop_cleanup fs)
      | None => mret tt
      end ;;
      cleanup_devs l'
  end.
Definition vfs_cleanup : ST (vfs W) unit :=
  l ← get (fun s => vdev_list s);
  match (l : list vfs_dev_t) with
  | [] => mret tt
  | _ :: _ => lock_vdev_list ;; cleanup_devs l ;; unlock_vdev_list
  end.

Fixpoint find_dev (name : list Z) (l : list vfs_dev_t) : option vfs_dev_t :=
  match l with
  | [] => None
  | v :: l' => if decide (devname v = name) then Some v else find_dev name l'
  end.

(** The root of the file system on device [v], or its raw inode. *)
Definition dev_root (v : vfs_dev_t) : ST (vfs W) (Z * option Z) :=
  match vdev_fs v with
  | Some fs => root ← on_inodes (fsop_get_root fs); mret (0, Some root)
  | None =>
      if mountable v then mret (- E_NA_DEV, None)
      else match devnode v with
           | Some n => on_inodes (vop_ref_inc n) ;; mret (0, Some n)
           | None => panic
           end
  end.

Definition vfs_get_root (name : list Z) : ST (vfs W) (Z * option Z) :=
  l ← get (fun s => vdev_list s);
  match (l : list vfs_dev_t) with
  | [] => mret (- E_NO_DEV, None)
  | _ :: _ =>
      lock_vdev_list ;;
      r ← match find_dev name l with
          | Some v => dev_root v
          | None => mret (- E_NO_DEV, None)
          end;
      unlock_vdev_list ;;
      mret r
  end.

Fixpoint vfs_get_devname (fs : Z) (l : list vfs_dev_t) : option (list Z) :=
  match l with
  | [] => None
  | v :: l' => if decide (vdev_fs v = Some fs) then Some (devname v) else vfs_get_devname fs l'
  end.

Definition check_devname_conflict (name : list Z) (l : list vfs_dev_t) : bool :=
  match find_dev name l with Some _ => false | None => true end.

(** [name_mem] and [vdev_mem]: the two allocations succeed. *)
Definition vfs_do_add (name_mem vdev_mem : bool) (name : list Z) (dnode fs : option Z) (mountable : bool)
  : ST (vfs W) Z :=
  w ← get (fun s => inodes s);
  assert (match dnode with None => negb mountable | Some n => is_device w n end) ;;
  if FS_MAX_DNAME_LEN <? Z.of_nat (length name) then mret (- E_TOO_BIG)
  else if negb name_mem || negb vdev_mem then mret (- E_NO_MEM)
  else
    lock_vdev_list ;;
    l ← get (fun s => vdev_list s);
    if negb (check_devname_conflict name l) then unlock_vdev_list ;; mret (- E_EXISTS)
    else
      modify (set_vdev_list (mkVdev name dnode fs mountable :: l)) ;;
      unlock_vdev_list ;;
      mret 0.

Definition vfs_add_fs (name_mem vdev_mem : bool) (name : list Z) (fs : option Z) : ST (vfs W) Z :=
  vfs_do_add name_mem vdev_mem name None fs false.
Definition vfs_add_dev (name_mem vdev_mem : bool) (name : list Z) (dnode : option Z) (mountable : bool)
  : ST (vfs W) Z :=
  vfs_do_add name_mem vdev_mem name dnode None mountable.

(** The index of the entry, which the caller then updates. *)
Fixpoint find_mount (name : list Z) (l : list vfs_dev_t) : option nat :=
  match l with
  | [] => None
  | v :: l' => if mountable v && bool_decide (devname v = name) then Some O
               else S <$> find_mount name l'
  end.
Definition set_dev_fs (i : nat) (fs : option Z) : ST (vfs W) unit :=
  modify (fun s => set_vdev_list (alter (set_vdev_fs fs) i (vdev_list s)) s).

(** [mountfunc] gets the device inode. *)
Definition vfs_mount (name : list Z) (mountfunc : Z -> ST W (Z * option Z)) : ST (vfs W) Z :=
  lock_vdev_list ;;
  l ← get (fun s => vdev_list s);
  ret ← match find_mount name l with
        | None => mret (- E_NO_DEV)
        | Some i =>
            match l !! i with
            | Some (mkVdev _ (Some dev) None _) =>
                '(ret, fs) ← on_inodes (mountfunc dev);
                if ret =? 0 then
                  assert (bool_decide (fs <> None)) ;;
                  set_dev_fs i fs ;;
                  mret 0
                else mret ret
            | Some (mkVdev _ _ (Some _) _) => mret (- E_BUSY)
            | _ => panic
            end
        end;
  unlock_vdev_list ;;
  mret ret.

(** [fsop_sync], then [fsop_unmount]; the code and whether [fs] is gone. *)
Definition unmount_fs (fs : Z) : ST (vfs W) Z :=
  ret ← on_inodes (fsop_sync fs);
  if negb (ret =? 0) then mret ret else on_inodes (fsop_unmount fs).

Definition vfs_unmount (name : list Z) : ST (vfs W) Z :=
  lock_vdev_list ;;
  l ← get (fun s => vdev_list s);
  ret ← match find_mount name l with
        | None => mret (- E_NO_DEV)
        | Some i =>
            match l !! i with
            | Some (mkVdev _ _ (Some fs) _) =>
                ret ← unmount_fs fs;
                (if ret =? 0 then set_dev_fs i None else mret tt) ;;
                mret ret
            | _ => mret (- E_INVAL)
            end
        end;
  unlock_vdev_list ;;
  mret ret.

Fixpoint unmount_devs (i : nat) (l : list vfs_dev_t) : ST (vfs W) unit :=
  match l with
  | [] => mret tt
  | v :: l' =>
      match vdev_fs v with
      | Some fs =>
          if mountable v then
            ret ← unmount_fs fs;
            if ret =? 0 then set_dev_fs i None else mret tt
          else mret tt
      | None => mret tt
      end ;;
      unmount_devs (S i) l'
  end.
Definition vfs_unmount_all : ST (vfs W) Z :=
  l ← get (fun s => vdev_list s);
  match (l : list vfs_dev_t) with
  | [] => mret 0
  | _ :: _ => lock_vdev_list ;; unmount_devs 0 l ;; unlock_vdev_list ;; mret 0
  end.

(** ** vfspath.c and vfs.c: the current directory and the boot file system *)
Definition lock_cfs : ST (vfs W) unit :=
  lock (fun s => files_sem (filesp s)) (fun v s => set_filesp (set_files_sem v (filesp s)) s).
Definition unlock_cfs : ST (vfs W) unit :=
  unlock (fun s => files_sem (filesp s)) (fun v s => set_filesp (set_files_sem v (filesp s)) s).
Definition get_cwd_nolock : ST (vfs W) (option Z) := get (fun s => pwd (filesp s)).
Definition set_cwd_nolock (d : option Z) : ST (vfs W) unit :=
  modify (fun s => set_filesp (set_pwd d (filesp s)) s).

Definition vfs_get_curdir : ST (vfs W) (Z * option Z) :=
  d ← get_cwd_nolock;
  match d with
  | Some n => on_inodes (vop_ref_inc n) ;; mret (0, Some n)
  | None => mret (- E_NOENT, None)
  end.

Definition drop_old (old : option Z) : ST (vfs W) unit :=
  match old with
  | Some o => on_inodes (vop_ref_dec o) ;; mret tt
  | None => mret tt
  end.

Definition vfs_set_curdir (dir : option Z) : ST (vfs W) Z :=
  lock_cfs ;;
  old ← get_cwd_nolock;
  ret ← (if decide (old = dir) then mret 0
         else match dir with
              | Some d =>
                  '(ret, type) ← on_inodes (vop_gettype d);
                  if negb (ret =? 0) then mret ret
                  else if negb (Z.land type 28672 =? S_IFDIR) then mret (- E_NOTDIR)
                  else
                    on_inodes (vop_ref_inc d) ;;
                    set_cwd_nolock dir ;;
                    drop_old old ;;
                    mret 0
              | None => set_cwd_nolock None ;; drop_old old ;; mret 0
              end);
  unlock_cfs ;;
  mret ret.

Definition lock_bootfs : ST (vfs W) unit := lock bootfs_sem set_bootfs_sem.
Definition unlock_bootfs : ST (vfs W) unit := unlock bootfs_sem set_bootfs_sem.
Definition vfs_init : ST (vfs W) unit := modify (set_bootfs_sem 1) ;; vfs_devlist_init.

Definition change_bootfs (n : option Z) : ST (vfs W) unit :=
  lock_bootfs ;;
  old ← get (fun s => bootfs_node s);
  modify (set_bootfs_node n) ;;
  unlock_bootfs ;;
  drop_old old.

Definition vfs_get_bootfs : ST (vfs W) (Z * option Z) :=
  b ← get (fun s => bootfs_node s);
  match (b : option Z) with
  | Some n =>
      lock_bootfs ;;
      on_inodes (vop_ref_inc n) ;;
      unlock_bootfs ;;
      mret (0, Some n)
  | None => mret (- E_NOENT, None)
  end.

(** ** vfslookup.c

    The first [:] or [/] of the path: which one, and its index. *)
Fixpoint scan_path (path : list Z) (i : Z) : option (bool * Z) :=
  match path with
  | [] => None
  | c :: path' => if c =? 58 then Some (true, i) else if c =? 47 then Some (false, i)
                  else scan_path path' (i + 1)
  end.
Fixpoint skip_slashes (path : list Z) : list Z :=
  match path with
  | c :: path' => if c =? 47 then skip_slashes path' else path
  | [] => []
  end.

(** The root of the file system of the current directory. *)
Definition current_root : ST (vfs W) (Z * option Z) :=
  '(ret, cur) ← vfs_get_curdir;
  match cur with
  | None => mret (ret, None)
  | Some n =>
      f ← get (fun s => in_fs (inodes s) n);
      match (f : option Z) with
      | None => panic
      | Some fs =>
          root ← on_inodes (fsop_get_root fs);
          on_inodes (vop_ref_dec n) ;;
          mret (0, Some root)
      end
  end.

(** The code, the node to start from and the rest of the path. *)
Definition get_device (path : list Z) : ST (vfs W) (Z * option Z * list Z) :=
  match scan_path path 0 with
  | Some (true, Zpos colon) =>
      '(ret, root) ← vfs_get_root (take (Pos.to_nat colon) path);
      mret (ret, root, skip_slashes (drop (S (Pos.to_nat colon)) path))
  | Some (colon, Z0) =>
      '(ret, start) ← (if (colon : bool) then current_root else vfs_get_bootfs);
      mret (ret, start, skip_slashes (drop 1 path))
  | _ =>
      '(ret, cur) ← vfs_get_curdir;
      mret (ret, cur, path)
  end.

Definition vfs_lookup (path : list Z) : ST (vfs W) (Z * option Z) :=
  '(ret, start, rest) ← get_device path;
  match start with
  | None => mret (ret, None)
  | Some n =>
      match rest with
      | _ :: _ =>
          r ← on_inodes (vop_lookup n rest);
          on_inodes (vop_ref_dec n) ;;
          mret r
      | [] => mret (0, Some n)
      end
  end.

Definition vfs_lookup_parent (path : list Z) : ST (vfs W) (Z * option Z * list Z) := get_device path.

Definition vfs_chdir (path : list Z) : ST (vfs W) Z :=
  '(ret, n) ← vfs_lookup path;
  match n with
  | Some d =>
      ret ← vfs_set_curdir (Some d);
      on_inodes (vop_ref_dec d) ;;
      mret ret
  | None => mret ret
  end.

Definition vfs_set_bootfs (fsname : option (list Z)) : ST (vfs W) Z :=
  match fsname with
  | None => change_bootfs None ;; mret 0
  | Some name =>
      match list_find (fun c => c = 58) name with
      | Some (i, _) =>
          if negb (Nat.eqb (S i) (length name)) then mret (- E_INVAL)
          else
            ret ← vfs_chdir name;
            if negb (ret =? 0) then mret ret
            else
              '(ret, n) ← vfs_get_curdir;
              if negb (ret =? 0) then mret ret else change_bootfs n ;; mret 0
      | None => mret (- E_INVAL)
      end
  end.

(** The memory of the characters of [l]. *)
Definition mem_of (l : list Z) : mem := fun a => nth (Z.to_nat a) l 0.

Definition vfs_getcwd (iob : iobuf) : ST (vfs W) (Z * iobuf) :=
  '(ret, cur) ← vfs_get_curdir;
  match cur with
  | None => mret (ret, iob)
  | Some n =>
      f ← get (fun s => in_fs (inodes s) n);
      assert (bool_decide (f <> None)) ;;
      l ← get (fun s => vdev_list s);
      r ← match f ≫= fun fs => vfs_get_devname fs l with
          | None => panic       (* [strlen] of a null pointer *)
          | Some name =>
              '((ret, _, _), iob) ← on_local iob (iobuf_move (mem_of name) 0 (Z.of_nat (length name)) true);
              if negb (ret =? 0) then mret (ret, iob)
              else
                '((ret, _, _), iob) ← on_local iob (iobuf_move (mem_of [58]) 0 1 true);
                if negb (ret =? 0) then mret (ret, iob) else on_inodes (vop_namefile n iob)
          end;
      on_inodes (vop_ref_dec n) ;;
      mret r
  end.

(** ** vfsfile.c *)
Definition acc_ok (open_flags : Z) : bool := Z.land open_flags O_ACCMODE <? 3.
Definition can_write (open_flags : Z) : bool := 1 <=? Z.land open_flags O_ACCMODE.
Definition flag (open_flags f : Z) : bool := negb (Z.land open_flags f =? 0).

(** From [vop_open] on. *)
Definition open_node (n open_flags : Z) : ST (vfs W) (Z * option Z) :=
  ret ← on_inodes (vop_open n open_flags);
  if negb (ret =? 0) then on_inodes (vop_ref_dec n) ;; mret (ret, None)
  else
    on_inodes (vop_open_inc n) ;;
    if flag open_flags O_TRUNC || flag open_flags O_CREAT then
      ret ← on_inodes (vop_truncate n 0);
      if negb (ret =? 0) then
        on_inodes (vop_open_dec n) ;;
        on_inodes (vop_ref_dec n) ;;
        mret (ret, None)
      else mret (0, Some n)
    else mret (0, Some n).

(** [vop_create] whose code is not looked at. *)
Definition create_node (path : list Z) (excl : bool) : ST (vfs W) (Z * option Z) :=
  '(ret, dir, name) ← vfs_lookup_parent path;
  match dir with
  | None => mret (ret, None)
  | Some d =>
      '(_, n) ← on_inodes (vop_create d name excl);
      match n with
      | Some n => mret (0, Some n)
      | None => panic           (* [node] is not set *)
      end
  end.

Definition vfs_open (path : list Z) (open_flags : Z) : ST (vfs W) (Z * option Z) :=
  if negb (acc_ok open_flags) then mret (- E_INVAL, None)
  else if flag open_flags O_TRUNC && negb (can_write open_flags) then mret (- E_INVAL, None)
  else
    let excl := flag open_flags O_EXCL in
    let create := flag open_flags O_CREAT in
    '(ret, n) ← vfs_lookup path;
    match n with
    | Some n => if excl && create then mret (- E_EXISTS, None) else open_node n open_flags
    | None =>
        if (ret =? -16) && create then
          '(ret, n) ← create_node path excl;
          match n with
          | Some n => open_node n open_flags
          | None => mret (ret, None)
          end
        else mret (ret, None)
    end.

Definition vfs_close (n : Z) : ST (vfs W) Z :=
  on_inodes (vop_open_dec n) ;;
  on_inodes (vop_ref_dec n) ;;
  mret 0.

(** Not implemented. *)
Definition vfs_unlink (path : list Z) : Z := - E_UNIMP.
Definition vfs_rename (old_path new_path : list Z) : Z := - E_UNIMP.
Definition vfs_link (old_path new_path : list Z) : Z := - E_UNIMP.
Definition vfs_symlink (old_path new_path : list Z) : Z := - E_UNIMP.
Definition vfs_readlink (path : list Z) (iob : iobuf) : Z := - E_UNIMP.
Definition vfs_mkdir (path : list Z) : Z := - E_UNIMP.
End vfs_ops.
