(* ===== verification/VfsSpec.v ===== *)
(** * The virtual file system, specified

    How lookups hand out references, what opening and closing do to the counts
    of the inode, how a path is split, and the table of devices. *)
From S2P Require Import Prelude Libs Mem Disk SfsIo SfsDir Inode Vfs.

Section vfs_spec.
  Context {W : Type} `{Inodes W}.
  Implicit Types (s : vfs W).

Definition vok s : Prop := inodes_ok (inodes s).
Definition srefs s (k : Z) : Z := refs (inodes s) k.
Definition sopens s (k : Z) : Z := opens (inodes s) k.

(** [k] more references to any inode do not overflow its count. *)
Definition room (k : Z) s : Prop := forall n, srefs s n + k < 2 ^ 31 - 1.

(** From [s] to [s'] exactly one reference to the inode [node] was handed
    out, if there is one, and no open count changed. *)
Record hands s (node : option Z) s' : Prop := mkHands {
  hd_ok : vok s';
  hd_files : filesp s' = filesp s;
  hd_opens k : sopens s' k = sopens s k;
  hd_refs k : srefs s' k = match node with
                           | Some m => upd (srefs s) m (srefs s m + 1) k
                           | None => srefs s k
                           end }.

Lemma hands_room s node s' k : hands s node s' -> room (k + 1) s -> room k s'.
Proof.
  intros Hh Hr n. rewrite (hd_refs _ _ _ Hh). specialize (Hr n). destruct node as [m|]; [|lia].
  unfold upd. case_decide; subst; lia.
Qed.

Lemma hands_pos s m s' : vok s -> hands s (Some m) s' -> sopens s' m < srefs s' m.
Proof.
  intros Hok Hh. rewrite (hd_refs _ _ _ Hh), (hd_opens _ _ _ Hh), upd_eq.
  pose proof (counts_nonneg (inodes s) m Hok). unfold sopens, srefs. lia.
Qed.

Lemma hands_none s : vok s -> hands s None s.
Proof. by split. Qed.

(** Changes of the other fields of the state do not matter. *)
Lemma hands_frame s0 s node s1 s2 :
  inodes s0 = inodes s -> filesp s0 = filesp s -> hands s0 node s1 ->
  inodes s2 = inodes s1 -> filesp s2 = filesp s1 -> hands s node s2.
Proof.
  intros Hi Hf [Ho Hfi Hop Hre] Hi2 Hf2. unfold vok, sopens, srefs in *. split; unfold vok, sopens, srefs.
  - by rewrite Hi2.
  - congruence.
  - intros k. by rewrite Hi2, Hop, Hi.
  - intros k. by rewrite Hi2, Hre, Hi.
Qed.

(** A node that was handed out is dropped again. *)
Lemma drop_handed s n node s1 s2 :
  vok s -> hands s (Some n) s1 -> hands s1 node s2 ->
  exists r s3, on_inodes (vop_ref_dec n) s2 = Done (r, s3) /\ hands s node s3.
Proof.
  intros Hok H1 H2. pose proof (hands_pos _ _ _ Hok H1) as Hpos.
  assert (Hlt : opens (inodes s2) n < refs (inodes s2) n).
  { change (sopens s2 n < srefs s2 n). rewrite (hd_opens _ _ _ H2), (hd_refs _ _ _ H2).
    destruct node as [m|]; [|done]. unfold upd. case_decide; subst; lia. }
  destruct (vop_ref_dec_law (inodes s2) n (hd_ok _ _ _ H2) Hlt) as (w & Hrun & Hw & Hre & Hop).
  eexists _, (set_inodes w s2). split; [unfold on_inodes; by rewrite Hrun|].
  assert (Hr : forall k, srefs (set_inodes w s2) k = upd (srefs s2) n (srefs s2 n - 1) k) by apply Hre.
  split.
  - exact Hw.
  - cbn. by rewrite (hd_files _ _ _ H2), (hd_files _ _ _ H1).
  - intros k. change (opens w k = sopens s k). rewrite Hop. change (sopens s2 k = sopens s k).
    by rewrite (hd_opens _ _ _ H2), (hd_opens _ _ _ H1).
  - intros k. rewrite Hr. unfold upd. pose proof (hd_refs _ _ _ H1) as R1. pose proof (hd_refs _ _ _ H2) as R2.
    destruct node as [m|]; rewrite ?R2, ?R1; unfold upd; repeat case_decide; subst;
      rewrite ?R2, ?R1; unfold upd; repeat case_decide; subst; try done; lia.
Qed.

Lemma ref_inc_hands s n r s' :
  vok s -> room 1 s -> on_inodes (vop_ref_inc n) s = Done (r, s') -> hands s (Some n) s'.
Proof.
  unfold on_inodes. intros Hok Hroom Hrun. destruct (vop_ref_inc n (inodes s)) as [[a w]| |] eqn:Hr; try done.
  injection Hrun as <- <-. specialize (Hroom n). unfold srefs in Hroom.
  destruct (vop_ref_inc_law _ n a w Hok ltac:(lia) Hr) as (Hw & Hre & Hop). by split.
Qed.

Lemma curdir_hands s ret node s' :
  vok s -> room 1 s -> vfs_get_curdir s = Done ((ret, node), s') ->
  hands s node s' /\ (ret = 0 <-> node <> None).
Proof.
  intros Hok Hroom. unfold vfs_get_curdir, get_cwd_nolock.
  mstep (eq_refl : get (fun s => pwd (filesp s)) s = Done (pwd (filesp s), s)).
  destruct (pwd (filesp s)) as [n|].
  - intros (a & s1 & Hrun & Hret)%bind_Done_inv. injection Hret as <- <- <-.
    split; [by eapply ref_inc_hands|done].
  - intros Hret. injection Hret as <- <- <-. split; [by apply hands_none|]. split; done.
Qed.

Lemma get_root_hands s fs root s' :
  vok s -> on_inodes (fsop_get_root fs) s = Done (root, s') -> hands s (Some root) s'.
Proof.
  unfold on_inodes. intros Hok Hrun. destruct (fsop_get_root fs (inodes s)) as [[a w]| |] eqn:Hr; try done.
  injection Hrun as <- <-. destruct (fsop_get_root_law _ _ _ _ Hok Hr) as (Hw & Hop & Hre). by split.
Qed.

Lemma bootfs_hands s ret node s' :
  vok s -> room 1 s -> vfs_get_bootfs s = Done ((ret, node), s') ->
  hands s node s' /\ (ret = 0 <-> node <> None).
Proof.
  intros Hok Hroom. unfold vfs_get_bootfs.
  mstep (eq_refl : get (fun s => bootfs_node s) s = Done (bootfs_node s, s)).
  destruct (bootfs_node s) as [n|].
  - intros (u & s1 & Hl & (a & s2 & Hrun & (u2 & s3 & Hul & Hret)%bind_Done_inv)%bind_Done_inv)%bind_Done_inv.
    injection Hret as <- <- <-. unfold lock_bootfs, lock in Hl. destruct (0 <? bootfs_sem s); [|done].
    injection Hl as ? <-. injection Hul as ? <-. split; [|done].
    apply (hands_frame (set_bootfs_sem (bootfs_sem s - 1) s) s (Some n) s2); [done|done| |done|done].
    by eapply ref_inc_hands.
  - intros Hret. injection Hret as <- <- <-. split; [by apply hands_none|]. split; done.
Qed.

Lemma dev_root_hands s v ret node s' :
  vok s -> room 1 s -> dev_root v s = Done ((ret, node), s') ->
  hands s node s' /\ (ret = 0 <-> node <> None).
Proof.
  intros Hok Hroom. unfold dev_root. destruct (vdev_fs v) as [fs|].
  - intros (root & s1 & Hrun & Hret)%bind_Done_inv. injection Hret as <- <- <-.
    split; [by eapply get_root_hands|done].
  - destruct (mountable v).
    + intros Hret. injection Hret as <- <- <-. split; [by apply hands_none|]. split; done.
    + destruct (devnode v) as [n|]; [|done].
      intros (a & s1 & Hrun & Hret)%bind_Done_inv. injection Hret as <- <- <-.
      split; [by eapply ref_inc_hands|done].
Qed.

Lemma root_hands s name ret node s' :
  vok s -> room 1 s -> vfs_get_root name s = Done ((ret, node), s') ->
  hands s node s' /\ (ret = 0 <-> node <> None).
Proof.
  intros Hok Hroom. unfold vfs_get_root.
  mstep (eq_refl : get (fun s => vdev_list s) s = Done (vdev_list s, s)).
  destruct (vdev_list s) as [|v l] eqn:Hl.
  { intros Hret. injection Hret as <- <- <-. split; [by apply hands_none|]. split; done. }
  intros (u & s1 & Hlk & ([a b] & s2 & Hrun & (u2 & s3 & Hul & Hret)%bind_Done_inv)%bind_Done_inv)%bind_Done_inv.
  injection Hret as <- <- <-. unfold lock_vdev_list, lock in Hlk. destruct (0 <? vdev_list_sem s); [|done].
  injection Hlk as ? <-. injection Hul as ? <-.
  assert (Hh : hands (set_vdev_list_sem (vdev_list_sem s - 1) s) b s2 /\ (a = 0 <-> b <> None)).
  { destruct (find_dev name (v :: l)); [by eapply dev_root_hands|].
    injection Hrun as <- <- <-. split; [by apply hands_none|]. split; done. }
  destruct Hh as [Hh Hz]. split; [|done]. by eapply (hands_frame _ s); [..|exact Hh|done|done].
Qed.

Lemma current_root_hands s ret node s' :
  vok s -> room 2 s -> current_root s = Done ((ret, node), s') ->
  hands s node s' /\ (ret = 0 <-> node <> None).
Proof.
  intros Hok Hroom. unfold current_root.
  intros ([r cur] & s1 & Hcur & Hrest)%bind_Done_inv.
  destruct (curdir_hands s r cur s1 Hok) as [Hh Hz]; [intros n; specialize (Hroom n); lia|done|].
  destruct cur as [n|].
  - revert Hrest. mstep (eq_refl : get (fun s => in_fs (inodes s) n) s1 = Done (in_fs (inodes s1) n, s1)).
    destruct (in_fs (inodes s1) n) as [fs|]; [|done].
    intros (root & s2 & Hroot & (a & s3 & Hdec & Hret)%bind_Done_inv)%bind_Done_inv.
    injection Hret as <- <- <-.
    pose proof (get_root_hands _ _ _ _ (hd_ok _ _ _ Hh) Hroot) as Hh2.
    destruct (drop_handed _ _ _ _ _ Hok Hh Hh2) as (r' & s3' & Hdec' & Hh3).
    rewrite Hdec in Hdec'. injection Hdec' as ? <-. done.
  - injection Hrest as <- <- <-. split; [done|]. split; [|done]. intros ->. by destruct Hz as [Hz _]; apply Hz.
Qed.

Lemma get_device_hands s path ret node rest s' :
  vok s -> room 2 s -> get_device path s = Done ((ret, node, rest), s') ->
  hands s node s' /\ (ret = 0 <-> node <> None).
Proof.
  intros Hok Hroom. assert (Hroom1 : room 1 s) by (intros n; specialize (Hroom n); lia).
  unfold get_device.
  assert (Hcwd : (('(ret, cur) ← vfs_get_curdir; mret (ret, cur, path)) : ST (vfs W) _) s
                 = Done ((ret, node, rest), s') ->
          hands s node s' /\ (ret = 0 <-> node <> None)).
  { intros ([r cur] & s1 & Hcur & Hret)%bind_Done_inv. injection Hret as <- <- <- <-. by eapply curdir_hands. }
  destruct (scan_path path 0) as [[colon i]|]; [|exact Hcwd]. destruct i as [|p|p].
  - assert (Hgen : forall m : ST (vfs W) (Z * option Z),
      (forall r n s1, m s = Done ((r, n), s1) -> hands s n s1 /\ (r = 0 <-> n <> None)) ->
      ('(ret, start) ← m; mret (ret, start, skip_slashes (drop 1 path))) s = Done ((ret, node, rest), s') ->
      hands s node s' /\ (ret = 0 <-> node <> None)).
    { intros m Hm ([r n] & s1 & Hrun & Hret)%bind_Done_inv. injection Hret as <- <- <- <-. by apply Hm. }
    destruct colon; apply Hgen; intros r n s1 Hrun; [by eapply current_root_hands|by eapply bootfs_hands].
  - destruct colon; [|exact Hcwd].
    intros ([r root] & s1 & Hroot & Hret)%bind_Done_inv. injection Hret as <- <- <- <-. by eapply root_hands.
  - destruct colon; exact Hcwd.
Qed.

Lemma lookup_hands s path ret node s' :
  vok s -> room 3 s -> vfs_lookup path s = Done ((ret, node), s') ->
  hands s node s' /\ (ret = 0 <-> node <> None).
Proof.
  intros Hok Hroom. unfold vfs_lookup. intros ([[r start] rest] & s1 & Hdev & Hrest)%bind_Done_inv.
  destruct (get_device_hands s path r start rest s1 Hok) as [Hh Hz]; [intros n; specialize (Hroom n); lia|done|].
  destruct start as [n|].
  - destruct rest as [|c rest].
    + injection Hrest as <- <- <-. split; [done|]. split; done.
    + revert Hrest. intros ([a b] & s2 & Hlk & (u & s3 & Hdec & Hret)%bind_Done_inv)%bind_Done_inv.
      injection Hret as <- <- <-.
      assert (Hh2 : hands s1 b s2 /\ (a = 0 <-> b <> None)).
      { unfold on_inodes in Hlk. destruct (vop_lookup n (c :: rest) (inodes s1)) as [[[a' b'] w]| |] eqn:Hl; try done.
        injection Hlk as -> -> <-. destruct (vop_lookup_law _ _ _ _ _ _ (hd_ok _ _ _ Hh) Hl) as (Hw & Hop & Hre).
        destruct b as [m|]; destruct Hre as [Ha Hre]; (split; [by split|]); naive_solver. }
      destruct Hh2 as [Hh2 Hz2].
      destruct (drop_handed _ _ _ _ _ Hok Hh Hh2) as (r' & s3' & Hdec' & Hh3).
      rewrite Hdec in Hdec'. injection Hdec' as ? <-. done.
  - injection Hrest as <- <- <-. split; [done|]. split; [|done]. intros ->. by apply Hz.
Qed.

(** ** Opening and closing *)

(** [n] was opened once more, with one reference. *)
Record opened s (n : Z) s' : Prop := mkOpened {
  op_ok : vok s';
  op_files : filesp s' = filesp s;
  op_opens k : sopens s' k = upd (sopens s) n (sopens s n + 1) k;
  op_refs k : srefs s k <= srefs s' k }.

(** No open count changed, and no reference was lost. *)
Record untouched s s' : Prop := mkUntouched {
  un_ok : vok s';
  un_files : filesp s' = filesp s;
  un_opens k : sopens s' k = sopens s k;
  un_refs k : srefs s k <= srefs s' k }.

Lemma on_inodes_Done {A} (m : ST W A) s a s' :
  on_inodes m s = Done (a, s') -> exists w, m (inodes s) = Done (a, w) /\ s' = set_inodes w s.
Proof.
  unfold on_inodes. destruct (m (inodes s)) as [[b w]| |]; try done.
  intros Hr. injection Hr as <- <-. by exists w.
Qed.

Lemma open_inc_run s n :
  vok s -> sopens s n < srefs s n -> room 0 s ->
  exists r s', on_inodes (vop_open_inc n) s = Done (r, s') /\ vok s' /\ filesp s' = filesp s /\
    (forall k, srefs s' k = srefs s k) /\ (forall k, sopens s' k = upd (sopens s) n (sopens s n + 1) k).
Proof.
  intros Hok Hlt Hroom. specialize (Hroom n). unfold srefs, sopens in *.
  destruct (vop_open_inc_law (inodes s) n Hok ltac:(lia)) as (w & Hrun & Hw & Hre & Hop).
  eexists _, (set_inodes w s). split; [unfold on_inodes; by rewrite Hrun|]. done.
Qed.

Lemma close_run s n :
  vok s -> 0 < sopens s n ->
  exists s', vfs_close n s = Done (0, s') /\ vok s' /\ filesp s' = filesp s /\
    (forall k, srefs s' k = upd (srefs s) n (srefs s n - 1) k) /\
    (forall k, sopens s' k = upd (sopens s) n (sopens s n - 1) k).
Proof.
  intros Hok Hpos. pose proof (counts_nonneg (inodes s) n Hok) as Hc. unfold sopens, srefs in *.
  destruct (vop_open_dec_law (inodes s) n Hok Hpos) as (w & Hrun & Hw & Hre & Hop).
  destruct (vop_ref_dec_law w n Hw) as (w' & Hrun' & Hw' & Hre' & Hop').
  { rewrite Hre, Hop, upd_eq. lia. }
  exists (set_inodes w' s). split; [|split; [done|split; [done|]]].
  - unfold vfs_close.
    assert (H1 : on_inodes (vop_open_dec n) s = Done (opens (inodes s) n - 1, set_inodes w s))
      by (unfold on_inodes; by rewrite Hrun).
    assert (H2 : on_inodes (vop_ref_dec n) (set_inodes w s) = Done (refs w n - 1, set_inodes w' s))
      by (unfold on_inodes; cbn; by rewrite Hrun').
    mstep H1. by mstep H2.
  - split; intros k.
    + rewrite <- (Hre n). cbn. rewrite Hre'. unfold upd. case_decide; [done|]. apply Hre.
    + cbn. by rewrite Hop', Hop.
Qed.

(** The end of an open that failed after the count went up. *)
Lemma open_undo s n s1 s2 ret :
  vok s -> sopens s n < srefs s n -> vok s1 -> filesp s1 = filesp s ->
  (forall k, srefs s1 k = srefs s k) -> (forall k, sopens s1 k = upd (sopens s) n (sopens s n + 1) k) ->
  ((on_inodes (vop_open_dec n) ;; on_inodes (vop_ref_dec n) ;; mret (ret, None))
     : ST (vfs W) (Z * option Z)) s1 = Done ((ret, None), s2) ->
  vok s2 /\ filesp s2 = filesp s /\ (forall k, sopens s2 k = sopens s k) /\
  (forall k, srefs s2 k = upd (srefs s) n (srefs s n - 1) k).
Proof.
  intros Hok Hlt Hok1 Hf1 Hr1 Ho1 Hrun. pose proof (counts_nonneg (inodes s) n Hok) as Hc.
  destruct (close_run s1 n Hok1) as (s3 & Hcl & Hok3 & Hf3 & Hr3 & Ho3).
  { rewrite Ho1, upd_eq. unfold sopens. lia. }
  unfold vfs_close in Hcl. apply bind_Done_inv in Hcl as (a & t1 & H1 & Hcl).
  apply bind_Done_inv in Hcl as (b & t2 & H2 & Hcl). injection Hcl as <-.
  revert Hrun. mstep H1. mstep H2. intros Hret. injection Hret as <-. split_and!; [done|congruence| |].
  - intros k. rewrite Ho3. unfold upd. rewrite !Ho1. unfold upd. repeat case_decide; subst; try done; lia.
  - intros k. rewrite Hr3. unfold upd. by rewrite !Hr1.
Qed.

Lemma open_node_counts s n flags ret node s' :
  vok s -> sopens s n < srefs s n -> room 0 s -> open_node n flags s = Done ((ret, node), s') ->
  match node with
  | Some m => m = n /\ ret = 0 /\ vok s' /\ filesp s' = filesp s /\ (forall k, srefs s' k = srefs s k) /\
              (forall k, sopens s' k = upd (sopens s) n (sopens s n + 1) k)
  | None => ret <> 0 /\ vok s' /\ filesp s' = filesp s /\ (forall k, sopens s' k = sopens s k) /\
            (forall k, srefs s' k = upd (srefs s) n (srefs s n - 1) k)
  end.
Proof.
  intros Hok Hlt Hroom. unfold open_node. intros (r & s1 & Hop & Hrest)%bind_Done_inv.
  apply on_inodes_Done in Hop as (w & Hop & ->).
  destruct (vop_open_law _ _ _ _ _ Hok Hop) as (Hw & Hre & Hopn). set (s1 := set_inodes w s) in *.
  assert (Hlt1 : sopens s1 n < srefs s1 n) by (unfold sopens, srefs in *; cbn; by rewrite Hre, Hopn).
  destruct (Z.eqb_spec r 0) as [->|Hr]; cbn [negb] in Hrest.
  - assert (Hroom1 : room 0 s1) by (intros k; specialize (Hroom k); unfold srefs in *; cbn; rewrite Hre; lia).
    destruct (open_inc_run s1 n Hw Hlt1 Hroom1) as (a & s2 & Hinc & Hok2 & Hf2 & Hr2 & Ho2).
    revert Hrest. mstep Hinc.
    assert (HR2 : forall k, srefs s2 k = srefs s k) by (intros k; rewrite Hr2; apply Hre).
    assert (HO2 : forall k, sopens s2 k = upd (sopens s) n (sopens s n + 1) k).
    { intros k. rewrite Ho2. unfold upd, sopens. cbn. by rewrite !Hopn. }
    destruct (flag flags O_TRUNC || flag flags O_CREAT).
    + intros (r2 & s3 & Htr & Hrest)%bind_Done_inv. apply on_inodes_Done in Htr as (w3 & Htr & ->).
      destruct (vop_truncate_law _ _ _ _ _ Hok2 Htr) as (Hw3 & Hre3 & Hop3).
      destruct (Z.eqb_spec r2 0) as [->|Hr2']; cbn [negb] in Hrest.
      * injection Hrest as <- <- <-. split_and!; try done.
        -- intros k. unfold srefs. cbn. rewrite Hre3. apply HR2.
        -- intros k. unfold sopens. cbn. rewrite Hop3. apply HO2.
      * assert (Hshape : ret = r2 /\ node = None).
        { apply bind_Done_inv in Hrest as (x & t1 & _ & Hrest).
          apply bind_Done_inv in Hrest as (y & t2 & _ & Hrest). by injection Hrest as <- <- <-. }
        destruct Hshape as [-> ->].
        destruct (open_undo s n (set_inodes w3 s2) s' r2 Hok Hlt Hw3) as (G1 & G2 & G3 & G4); [done| | |done|].
        -- intros k. unfold srefs. cbn. rewrite Hre3. apply HR2.
        -- intros k. unfold sopens. cbn. rewrite Hop3. apply HO2.
        -- split_and!; done.
    + intros Hret. injection Hret as <- <- <-. split_and!; try done.
  - apply bind_Done_inv in Hrest as (x & t1 & Hdec & Hret). injection Hret as <- <- <-.
    destruct (vop_ref_dec_law w n Hw Hlt1) as (w' & Hdec' & Hw' & Hre' & Hop').
    apply on_inodes_Done in Hdec as (w2 & Hdec & ->). cbn in Hdec. rewrite Hdec' in Hdec.
    injection Hdec as _ <-. split_and!; try done.
    + intros k. unfold sopens. cbn. rewrite Hop'. apply Hopn.
    + intros k. unfold srefs. cbn. rewrite Hre'. unfold upd. by rewrite !Hre.
Qed.

(** From [s] to [s1] the caller got a reference to [m], and none was lost. *)
Record offered s (m : Z) s1 : Prop := mkOffered {
  of_un : untouched s s1;
  of_ref : srefs s m < srefs s1 m }.

Lemma hands_offered s m s1 : hands s (Some m) s1 -> offered s m s1.
Proof.
  intros Hh. split; [split|].
  - apply Hh.
  - apply Hh.
  - apply Hh.
  - intros k. rewrite (hd_refs _ _ _ Hh). unfold upd. case_decide; subst; lia.
  - rewrite (hd_refs _ _ _ Hh), upd_eq. lia.
Qed.

Lemma hands_untouched s s1 node : hands s node s1 -> untouched s s1.
Proof.
  destruct node as [m|]; [intros Hh; apply (hands_offered _ _ _ Hh)|].
  intros [Hok Hf Ho Hr]. split; [done..|]. intros k. rewrite Hr. lia.
Qed.

Lemma untouched_trans s1 s2 s3 : untouched s1 s2 -> untouched s2 s3 -> untouched s1 s3.
Proof.
  intros [Hok Hf Ho Hr] [Hok' Hf' Ho' Hr']. split; [done|congruence|congruence|].
  intros k. specialize (Hr k). specialize (Hr' k). lia.
Qed.

(** What an open gives: the inode opened once more, or an error. *)
Definition open_result s (ret : Z) (node : option Z) s' : Prop :=
  match node with
  | Some n => ret = 0 /\ opened s n s'
  | None => ret <> 0 /\ untouched s s'
  end.

Lemma open_offered s s1 m flags ret node s' :
  vok s -> offered s m s1 -> room 0 s1 -> open_node m flags s1 = Done ((ret, node), s') ->
  open_result s ret node s'.
Proof.
  intros Hok [[Hok1 Hf1 Ho1 Hr1] Hlt] Hroom Hrun. pose proof (counts_nonneg (inodes s) m Hok) as Hc.
  assert (Hpos : sopens s1 m < srefs s1 m) by (rewrite Ho1; unfold sopens, srefs in *; lia).
  pose proof (open_node_counts s1 m flags ret node s' Hok1 Hpos Hroom Hrun) as Hn.
  destruct node as [m'|].
  - destruct Hn as (-> & -> & Hok' & Hf & Hr & Ho). split; [done|]. split; [done|congruence| |].
    + intros k. rewrite Ho. unfold upd. by rewrite !Ho1.
    + intros k. by rewrite Hr.
  - destruct Hn as (Hne & Hok' & Hf & Ho & Hr). split; [done|]. split; [done|congruence| |].
    + intros k. by rewrite Ho.
    + intros k. rewrite Hr. unfold upd. case_decide; [subst k; lia|apply Hr1].
Qed.

Lemma create_node_offers s path excl ret node s' :
  vok s -> room 3 s -> create_node path excl s = Done ((ret, node), s') ->
  room 0 s' /\ match node with
               | Some m => offered s m s'
               | None => ret <> 0 /\ untouched s s'
               end.
Proof.
  intros Hok Hroom. unfold create_node, vfs_lookup_parent.
  intros ([[r dir] name] & s1 & Hdev & Hrest)%bind_Done_inv.
  destruct (get_device_hands s path r dir name s1 Hok) as [Hh Hz]; [intros k; specialize (Hroom k); lia|done|].
  assert (Hroom1 : room 1 s1) by (eapply hands_room; [exact Hh|intros k; specialize (Hroom k); lia]).
  destruct dir as [d|].
  - apply bind_Done_inv in Hrest as ([r4 n4] & s4 & Hcreate & Hrest).
    destruct n4 as [m|]; [|done]. injection Hrest as <- <- <-.
    apply on_inodes_Done in Hcreate as (w & Hcreate & ->).
    destruct (vop_create_law _ _ _ _ _ _ _ (hd_ok _ _ _ Hh) Hcreate) as (Hw & Hop & _ & Hre).
    assert (Hm : hands s1 (Some m) (set_inodes w s1)) by (by split).
    split; [by eapply hands_room|]. split.
    + eapply untouched_trans; by eapply hands_untouched.
    + pose proof (of_ref _ _ _ (hands_offered _ _ _ Hm)).
      pose proof (un_refs _ _ (hands_untouched _ _ _ Hh) m). lia.
  - injection Hrest as <- <- <-. split; [intros k; specialize (Hroom1 k); lia|].
    split; [intros ->; by apply Hz|]. by eapply hands_untouched.
Qed.

Lemma vfs_open_counted s path flags ret node s' :
  vok s -> room 4 s -> vfs_open path flags s = Done ((ret, node), s') -> open_result s ret node s'.
Proof.
  intros Hok Hroom. unfold vfs_open.
  assert (Hfail : forall r, r <> 0 -> open_result s r None s) by (by split).
  destruct (acc_ok flags); cbn [negb].
  2:{ intros Hret. injection Hret as <- <- <-. by apply Hfail. }
  destruct (flag flags O_TRUNC && negb (can_write flags)).
  { intros Hret. injection Hret as <- <- <-. by apply Hfail. }
  intros ([r n] & s1 & Hlk & Hrest)%bind_Done_inv.
  destruct (lookup_hands s path r n s1 Hok) as [Hh Hz]; [intros k; specialize (Hroom k); lia|done|].
  assert (Hroom1 : room 3 s1) by (eapply hands_room; [exact Hh|intros k; specialize (Hroom k); lia]).
  pose proof (hands_untouched _ _ _ Hh) as Hun. destruct n as [m|].
  - destruct (flag flags O_EXCL && flag flags O_CREAT).
    + injection Hrest as <- <- <-. by split.
    + eapply open_offered; [done|by apply hands_offered| |done]. intros k. specialize (Hroom1 k). lia.
  - assert (Hr0 : r <> 0) by (intros ->; by apply Hz).
    destruct ((r =? -16) && flag flags O_CREAT).
    + apply bind_Done_inv in Hrest as ([r2 n2] & s2 & Hcr & Hrest).
      destruct (create_node_offers _ _ _ _ _ _ (hd_ok _ _ _ Hh) Hroom1 Hcr) as [Hroom2 Hn2].
      destruct n2 as [m|].
      * eapply open_offered; [done| |done|done]. destruct Hn2 as [Hun2 Hlt].
        split; [by eapply untouched_trans|]. pose proof (un_refs _ _ Hun m). lia.
      * injection Hrest as <- <- <-. destruct Hn2. split; [done|]. by eapply untouched_trans.
    + injection Hrest as <- <- <-. by split.
Qed.

(** Opening a path either returns an inode whose open count went up by
    one, every other open count unchanged, or an error with every open count
    unchanged; no reference is lost either way. *)
Theorem vfs_open_counts s path flags ret node s' :
  vok s -> room 4 s -> vfs_open path flags s = Done ((ret, node), s') -> open_result s ret node s'.
Proof. apply vfs_open_counted. Qed.

(** With [O_CREAT] and [O_EXCL], a path that exists is refused with
    [-E_EXISTS], but the reference that the lookup took is never dropped: the
    reference count of the inode stays one too high. *)
Theorem vfs_open_excl_leaks s path flags m s1 :
  vok s -> room 4 s -> acc_ok flags = true -> flag flags O_TRUNC && negb (can_write flags) = false ->
  flag flags O_EXCL = true -> flag flags O_CREAT = true ->
  vfs_lookup path s = Done ((0, Some m), s1) ->
  vfs_open path flags s = Done ((- E_EXISTS, None), s1) /\ srefs s1 m = srefs s m + 1.
Proof.
  intros Hok Hroom Hacc Htr Hex Hcr Hlk. split.
  - unfold vfs_open. rewrite Hacc, Htr. cbn [negb]. mstep Hlk. by rewrite Hex, Hcr.
  - destruct (lookup_hands s path 0 (Some m) s1 Hok) as [Hh _]; [intros k; specialize (Hroom k); lia|done|].
    by rewrite (hd_refs _ _ _ Hh), upd_eq.
Qed.

(** ** Splitting a path *)
Definition plain (name : list Z) : Prop := Forall (fun c => c <> 58 /\ c <> 47) name.

Lemma scan_plain name : forall rest i, plain name ->
  scan_path (name ++ rest) i = scan_path rest (i + Z.of_nat (length name)).
Proof.
  induction name as [|c name IH]; intros rest i Hp; [by rewrite Z.add_0_r|].
  inversion Hp as [|? ? [H1 H2] Hp']; subst. cbn [app scan_path].
  rewrite (proj2 (Z.eqb_neq _ _) H1), (proj2 (Z.eqb_neq _ _) H2), IH by done. f_equal. cbn [length]. lia.
Qed.

Lemma scan_plain_nil name i : plain name -> scan_path name i = None.
Proof. intros Hp. rewrite <- (app_nil_r name) at 1. by rewrite scan_plain. Qed.

(** Which directory a path starts from, and what is left of it. *)
Inductive path_start : list Z -> (option (option (list Z)) * bool) * list Z -> Prop :=
| start_device name rest : plain name -> name <> [] ->
    path_start (name ++ 58 :: rest) ((Some (Some name), false), skip_slashes rest)
| start_root rest : path_start (47 :: rest) ((Some None, false), skip_slashes rest)
| start_fs rest : path_start (58 :: rest) ((None, true), skip_slashes rest)
| start_cwd path name rest : path = name ++ rest -> plain name ->
    (rest = [] \/ name <> [] /\ exists r, rest = 47 :: r) -> path_start path ((None, false), path).

(** The lookup that the case stands for. *)
Definition start_lookup (c : option (option (list Z)) * bool) : ST (vfs W) (Z * option Z) :=
  match c with
  | (Some (Some name), _) => vfs_get_root name
  | (Some None, _) => vfs_get_bootfs
  | (None, true) => current_root
  | (None, false) => vfs_get_curdir
  end.

(** A path "dev:rest" starts at the root of device dev, "/rest" at the boot
    file system, ":/rest" at the root of the current file system, and any other
    path at the current directory; leading slashes of the rest are skipped. *)
Theorem get_device_splits path c rest s :
  path_start path (c, rest) ->
  get_device path s = ('(ret, start) ← start_lookup c; mret (ret, start, rest)) s.
Proof.
  inversion 1 as [name r Hp Hne| r | r | p name r -> Hp Hr]; subst; unfold get_device.
  - rewrite scan_plain by done. cbn [scan_path]. rewrite Z.add_0_l. change (58 =? 58) with true. cbv iota.
    destruct (Z.of_nat (length name)) as [|p|p] eqn:Hl; [destruct name; [done|cbn in Hl; lia]| |lia].
    assert (Hlen : Pos.to_nat p = length name) by lia. rewrite Hlen.
    replace (take (length name) (name ++ 58 :: r)) with name by (symmetry; apply take_app_length).
    replace (drop (S (length name)) (name ++ 58 :: r)) with r; [done|].
    rewrite <- Nat.add_1_r, <- drop_drop, drop_app_length. done.
  - done.
  - done.
  - rewrite scan_plain by done. destruct Hr as [->|(Hne & r' & ->)]; [done|].
    cbn [scan_path]. rewrite Z.add_0_l. change (47 =? 58) with false. change (47 =? 47) with true. cbv iota.
    destruct (Z.of_nat (length name)) as [|p|p] eqn:Hl; [destruct name; [done|cbn in Hl; lia]|done|done].
Qed.

(** ** The table of devices *)
Lemma find_dev_None name l : find_dev name l = None <-> name ∉ devname <$> l.
Proof.
  induction l as [|v l IH]; cbn; [split; [by intros _ ?%elem_of_nil|done]|].
  rewrite not_elem_of_cons. destruct (decide (devname v = name)) as [<-|Hne]; [naive_solver|].
  rewrite IH. naive_solver.
Qed.

(** Device names stay unique: a new name of at most 31 characters is
    entered at the head of the table and found there, other names are found as
    before; a name in the table is refused with [-E_EXISTS] and nothing changes. *)
Theorem vfs_do_add_registers s name dn fs mnt :
  0 < vdev_list_sem s -> Z.of_nat (length name) <= FS_MAX_DNAME_LEN ->
  (match dn with None => negb mnt | Some n => is_device (inodes s) n end) = true ->
  NoDup (devname <$> vdev_list s) ->
  if decide (name ∈ devname <$> vdev_list s) then vfs_do_add true true name dn fs mnt s = Done (- E_EXISTS, s)
  else exists s', vfs_do_add true true name dn fs mnt s = Done (0, s') /\
    s' = set_vdev_list (mkVdev name dn fs mnt :: vdev_list s) s /\
    NoDup (devname <$> vdev_list s') /\
    find_dev name (vdev_list s') = Some (mkVdev name dn fs mnt) /\
    forall name', name' <> name -> find_dev name' (vdev_list s') = find_dev name' (vdev_list s).
Proof.
  intros Hsem Hlen Has Hnd. set (s1 := set_vdev_list_sem (vdev_list_sem s - 1) s).
  assert (Hlock : lock_vdev_list s = Done (tt, s1)).
  { unfold lock_vdev_list, lock. by destruct (Z.ltb_spec 0 (vdev_list_sem s)); [|lia]. }
  assert (Hrun : vfs_do_add true true name dn fs mnt s =
    (if negb (check_devname_conflict name (vdev_list s))
     then unlock_vdev_list ;; mret (- E_EXISTS)
     else modify (set_vdev_list (mkVdev name dn fs mnt :: vdev_list s)) ;; unlock_vdev_list ;; mret 0) s1).
  { unfold vfs_do_add. mstep (eq_refl : get (fun s => inodes s) s = Done (inodes s, s)).
    mstep (assert_true _ s Has). destruct (Z.ltb_spec FS_MAX_DNAME_LEN (Z.of_nat (length name))); [lia|].
    cbn [negb orb]. mstep Hlock. mstep (eq_refl : get (fun s => vdev_list s) s1 = Done (vdev_list s, s1)).
    by destruct (check_devname_conflict _ _). }
  assert (Hsem' : vdev_list_sem s - 1 + 1 = vdev_list_sem s) by lia.
  rewrite Hrun. unfold check_devname_conflict. destruct (decide (name ∈ devname <$> vdev_list s)) as [Hin|Hni].
  - destruct (find_dev name (vdev_list s)) as [v|] eqn:Hf; [|by apply find_dev_None in Hf].
    cbn. unfold unlock_vdev_list, unlock. mrun. rewrite Hsem'. by destruct s.
  - rewrite (proj2 (find_dev_None _ _) Hni). cbn [negb].
    exists (set_vdev_list (mkVdev name dn fs mnt :: vdev_list s) s). split_and!; try done.
    + unfold unlock_vdev_list, unlock. mrun. rewrite Hsem'. by destruct s.
    + cbn. by constructor.
    + cbn. by destruct (decide (name = name)).
    + intros name' Hne. cbn. by destruct (decide (name = name')).
Qed.
End vfs_spec.

(** ** A concrete instance

    Inodes whose lookups always find inode 2 and that hold the same bytes: a small
    program, of one segment.  The counts are all that changes. *)
Definition plain_size : Z := 136.
Definition plain_file : mem :=
  let m : mem := fun a => if (120 <=? a) && (a <? plain_size) then a - 119 else 0 in
  let m := put32 m 0 0x464C457F in
  let m := le_put (le_put (put16 m 56 1) 24 8 0x800018) 32 8 64 in
  let m := put32 (put32 m 64 1) 68 5 in
  le_put (le_put (le_put (le_put m 72 8 120) 80 8 0x800018) 96 8 16) 104 8 40.
Definition plain_read (iob : iobuf) : iobuf :=
  let k := Z.max 0 (Z.min (io_resid iob) (plain_size - io_offset iob)) in
  mkIob (copy (io_mem iob) (io_base iob) plain_file (io_offset iob) k) (io_base iob) (io_offset iob) (io_len iob) (io_resid iob - k).
Record plain_inodes := mkPlain { p_refs : Z -> Z; p_opens : Z -> Z }.
Definition plain_ok (w : plain_inodes) : Prop := forall n, 0 <= p_opens w n <= p_refs w n.
Definition add_ref (n d : Z) (w : plain_inodes) : plain_inodes :=
  mkPlain (upd (p_refs w) n (p_refs w n + d)) (p_opens w).
Definition add_open (n d : Z) (w : plain_inodes) : plain_inodes :=
  mkPlain (p_refs w) (upd (p_opens w) n (p_opens w n + d)).

Lemma add_ref_ok n d w : plain_ok w -> 0 <= d \/ p_opens w n <= p_refs w n + d -> plain_ok (add_ref n d w).
Proof. intros Hw Hd k. specialize (Hw k). cbn. unfold upd. case_decide; subst; lia. Qed.

Lemma add_open_ok n d w : plain_ok w -> 0 <= p_opens w n + d <= p_refs w n -> plain_ok (add_open n d w).
Proof. intros Hw Hd k. specialize (Hw k). cbn. unfold upd. case_decide; subst; lia. Qed.

Definition hand_out (m : Z) : ST plain_inodes (Z * option Z) :=
  fun w => Done ((0, Some m), add_ref m 1 w).

#[export] Program Instance plain_inodes_ops : Inodes plain_inodes := {|
  vop_ref_inc n := fun w => Done (p_refs w n + 1, add_ref n 1 w);
  vop_ref_dec n := fun w => Done (p_refs w n - 1, add_ref n (-1) w);
  vop_open_inc n := fun w => Done (p_opens w n + 1, add_open n 1 w);
  vop_open_dec n := fun w => Done (p_opens w n - 1, add_open n (-1) w);
  vop_open n flags := mret 0;
  vop_read n iob := mret (0, plain_read iob);
  vop_write n iob := mret (0, mkIob (io_mem iob) (io_base iob) (io_offset iob) (io_len iob) 0);
  vop_fstat n := mret (0, mkStat S_IFREG 1 0 0);
  vop_fsync n := mret 0;
  vop_namefile n iob := mret (0, iob);
  vop_getdirentry n iob := mret (- E_NOENT, iob);
  vop_gettype n := mret (0, S_IFDIR);
  vop_tryseek n p := mret 0;
  vop_truncate n len := mret 0;
  vop_create n name excl := hand_out 3;
  vop_lookup n path := hand_out 2;
  in_fs w n := Some 0;
  is_device w n := true;
  fsop_get_root fs := fun w => Done (1, add_ref 1 1 w);
  fsop_sync fs := mret 0;
  fsop_unmount fs := mret 0;
  fsop_cleanup fs := mret tt;
  inodes_ok := plain_ok; refs := p_refs; opens := p_opens |}.
Next Obligation. cbn. intros. by eexists _, _. Qed.
Next Obligation.
  cbn. intros w n r w' Hw Hb Hrun. injection Hrun as <- <-. split; [apply add_ref_ok; [done|lia]|done].
Qed.
Next Obligation. cbn. intros w n Hw Hb. eexists. split; [done|]. split; [|done]. apply add_open_ok; [done|]. specialize (Hw n). lia. Qed.
Next Obligation. cbn. intros w n Hw Hb. eexists. split; [done|]. split; [|done]. apply add_ref_ok; [done|lia]. Qed.
Next Obligation. cbn. intros w n Hw Hb. eexists. split; [done|]. split; [|done]. apply add_open_ok; [done|]. specialize (Hw n). lia. Qed.
Next Obligation. cbn. intros w n Hw. apply Hw. Qed.
Next Obligation. cbn. intros n fl w r w' Hw Hrun. by injection Hrun as <- <-. Qed.
Next Obligation. cbn. intros n w r w' Hw Hrun. by injection Hrun as <- <-. Qed.
Next Obligation. cbn. intros n len w r w' Hw Hrun. by injection Hrun as <- <-. Qed.
Next Obligation. cbn. intros n iob w r w' Hw Hrun. by injection Hrun as <- <-. Qed.
Next Obligation. cbn. intros n iob w r iob' w' Hw Hl Hb Hrun. injection Hrun as <- <- <-. cbn. lia. Qed.
Next Obligation.
  cbn. intros n path w r node w' Hw Hrun. injection Hrun as <- <- <-.
  split; [apply add_ref_ok; [done|lia]|done].
Qed.
Next Obligation.
  cbn. intros n path excl w r node w' Hw Hrun. injection Hrun as <- <- <-.
  split; [apply add_ref_ok; [done|lia]|done].
Qed.
Next Obligation.
  cbn. intros fs w m w' Hw Hrun. injection Hrun as <- <-. split; [apply add_ref_ok; [done|lia]|done].
Qed.

(** ** Witnesses *)
Definition sample_file : file := mkFile FD_NONE false false 0 0 None 0.
Definition sample_files : files_struct := mkFiles (Some 1) (fun i => mkFile FD_NONE false false i 0 None 0) 1 1.
Definition sample_vfs : vfs plain_inodes :=
  mkVfs (mkPlain (fun n => if n =? 1 then 5 else 1) (fun _ => 0)) (Some 1) 1
        [mkVdev [100; 48] (Some 7) (Some 0) true] 1 sample_files.

Lemma sample_vfs_ok : vok sample_vfs.
Proof. intros n. cbn. destruct (n =? 1); lia. Qed.
Lemma sample_vfs_room k : k <= 1000 -> room k sample_vfs.
Proof. intros Hk n. unfold srefs. cbn. destruct (n =? 1); lia. Qed.

(** "d0:/a" opened for reading. *)
Lemma vfs_open_counts_witness :
  exists s', vfs_open [100; 48; 58; 47; 97] 0 sample_vfs = Done ((0, Some 2), s') /\
    open_result sample_vfs 0 (Some 2) s'.
Proof.
  destruct (result_Done (vfs_open [100; 48; 58; 47; 97] 0 sample_vfs) (0, Some 2)) as [s' Hrun];
    [by vm_compute|].
  exists s'. split; [exact Hrun|].
  exact (vfs_open_counts sample_vfs [100; 48; 58; 47; 97] 0 0 (Some 2) s' sample_vfs_ok
           (sample_vfs_room 4 ltac:(lia)) Hrun).
Defined.

Lemma vfs_open_excl_leaks_witness :
  exists s1, vfs_open [47; 97] 13 sample_vfs = Done ((- E_EXISTS, None), s1) /\
    srefs s1 2 = srefs sample_vfs 2 + 1.
Proof.
  destruct (result_Done (vfs_lookup [47; 97] sample_vfs) (0, Some 2)) as [s1 Hrun]; [by vm_compute|].
  exists s1.
  exact (vfs_open_excl_leaks sample_vfs [47; 97] 13 2 s1 sample_vfs_ok (sample_vfs_room 4 ltac:(lia))
           eq_refl eq_refl eq_refl eq_refl Hrun).
Defined.

Lemma get_device_splits_witness :
  path_start [100; 48; 58; 47; 97] ((Some (Some [100; 48]), false), [97]) /\
  get_device [100; 48; 58; 47; 97] sample_vfs
  = ('(ret, start) ← start_lookup (Some (Some [100; 48]), false); mret (ret, start, [97])) sample_vfs.
Proof.
  assert (Hp : path_start [100; 48; 58; 47; 97] ((Some (Some [100; 48]), false), [97])).
  { apply (start_device [100; 48] [47; 97]); [repeat constructor|]; done. }
  split; [exact Hp|]. apply (get_device_splits _ _ _ sample_vfs Hp).
Defined.

Lemma vfs_do_add_registers_witness :
  exists s', vfs_do_add true true [110] (Some 9) None false sample_vfs = Done (0, s') /\
    s' = set_vdev_list (mkVdev [110] (Some 9) None false :: vdev_list sample_vfs) sample_vfs /\
    NoDup (devname <$> vdev_list s') /\
    find_dev [110] (vdev_list s') = Some (mkVdev [110] (Some 9) None false) /\
    forall name', name' <> [110] -> find_dev name' (vdev_list s') = find_dev name' (vdev_list sample_vfs).
Proof.
  apply (vfs_do_add_registers sample_vfs [110] (Some 9) None false);
    [cbn; lia|cbn; unfold FS_MAX_DNAME_LEN; lia|reflexivity|].
  repeat constructor. by intros ?%elem_of_nil.
Defined.
