(* ===== verification/File.v ===== *)
(** * Open files (kern/fs/file.c, kern/fs/fs.c)

    The table of open files of a process over the virtual file system.  A
    [struct file] is handed around by value and stored back: nothing that runs
    in between looks at the table. *)
From S2P Require Import Prelude Libs Mem Disk SfsIo SfsDir Inode Vfs.

Definition FILES_STRUCT_BUFSIZE : Z := 4096 - 48.
Definition FILES_STRUCT_NENTRY : Z := FILES_STRUCT_BUFSIZE / 56.
Definition LSEEK_SET : Z := 0.
Definition LSEEK_CUR : Z := 1.
Definition LSEEK_END : Z := 2.

Definition testfd (fd : Z) : bool := (0 <=? fd) && (fd <? FILES_STRUCT_NENTRY).

Definition set_status (x : file_status) (f : file) : file :=
  mkFile x (readable f) (writable f) (fd f) (pos f) (node f) (fopen_count f).
Definition set_pos (x : Z) (f : file) : file :=
  mkFile (status f) (readable f) (writable f) (fd f) x (node f) (fopen_count f).
Definition set_node (x : option Z) (f : file) : file :=
  mkFile (status f) (readable f) (writable f) (fd f) (pos f) x (fopen_count f).
Definition set_modes (r w : bool) (f : file) : file :=
  mkFile (status f) r w (fd f) (pos f) (node f) (fopen_count f).
Definition set_count (x : Z) (f : file) : file :=
  mkFile (status f) (readable f) (writable f) (fd f) (pos f) (node f) x.
Definition set_array (a : Z -> file) (fs : files_struct) : files_struct :=
  mkFiles (pwd fs) a (files_count fs) (files_sem fs).

(** Only the status, the count and [fd] are set; the rest of the memory of a
    file is left as it was. *)
Definition fd_array_init (a : Z -> file) : Z -> file :=
  fun i => if testfd i then mkFile FD_NONE (readable (a i)) (writable (a i)) i (pos (a i)) (node (a i)) 0
           else a i.

(** [raw]: what [kmalloc] returned. *)
Definition files_create (raw : option (Z -> file)) : option files_struct :=
  match raw with
  | Some a => Some (mkFiles None (fd_array_init a) 0 1)
  | None => None
  end.

Section file_ops.
  Context {W : Type} `{Inodes W}.

Definition get_fd_array : ST (vfs W) (Z -> file) :=
  fs ← get (fun s => filesp s);
  assert (0 <? files_count fs) ;;
  mret (fd_array fs).

(** Storing [struct file] number [i]. *)
Definition put_file (i : Z) (f : file) : ST (vfs W) unit :=
  modify (fun s => set_filesp (set_array (upd (fd_array (filesp s)) i f) (filesp s)) s).

(** The first index from [i] on whose file is not in use. *)
Fixpoint first_free (k : nat) (a : Z -> file) (i : Z) : option Z :=
  match k with
  | O => None
  | S k' => if decide (status (a i) = FD_NONE) then Some i else first_free k' a (i + 1)
  end.

(** The label [found]: the index stored. *)
Definition fd_found (a : Z -> file) (i : Z) : ST (vfs W) (Z * Z) :=
  assert (fopen_count (a i) =? 0) ;;
  put_file i (set_node None (set_status FD_INIT (a i))) ;;
  mret (0, i).

Definition fd_array_alloc (fd : Z) : ST (vfs W) (Z * Z) :=
  a ← get_fd_array;
  if fd =? NO_FD then
    match first_free (Z.to_nat FILES_STRUCT_NENTRY) a 0 with
    | Some i => fd_found a i
    | None => mret (- E_MAX_OPEN, 0)
    end
  else if testfd fd then
    if decide (status (a fd) = FD_NONE) then fd_found a fd else mret (- E_BUSY, 0)
  else mret (- E_INVAL, 0).

Definition fd_array_free (f : file) : ST (vfs W) file :=
  assert (bool_decide (status f = FD_INIT \/ status f = FD_CLOSED)) ;;
  assert (fopen_count f =? 0) ;;
  (if decide (status f = FD_CLOSED) then
     match node f with
     | Some n => vfs_close n ;; mret tt
     | None => panic
     end
   else mret tt) ;;
  mret (set_status FD_NONE f).

Definition fd_array_acquire (f : file) : ST (vfs W) file :=
  assert (bool_decide (status f = FD_OPENED)) ;;
  mret (set_count (s32 (fopen_count f + 1)) f).

Definition fd_array_release (f : file) : ST (vfs W) file :=
  assert (bool_decide (status f = FD_OPENED \/ status f = FD_CLOSED)) ;;
  assert (0 <? fopen_count f) ;;
  let f := set_count (fopen_count f - 1) f in
  if fopen_count f =? 0 then fd_array_free f else mret f.

Definition fd_array_open (f : file) : ST (vfs W) file :=
  assert (bool_decide (status f = FD_INIT /\ node f <> None)) ;;
  mret (set_count (s32 (fopen_count f + 1)) (set_status FD_OPENED f)).

Definition fd_array_close (f : file) : ST (vfs W) file :=
  assert (bool_decide (status f = FD_OPENED)) ;;
  assert (0 <? fopen_count f) ;;
  let f := set_count (fopen_count f - 1) (set_status FD_CLOSED f) in
  if fopen_count f =? 0 then fd_array_free f else mret f.

(** The new [to]. *)
Definition fd_array_dup (to from : file) : ST (vfs W) file :=
  assert (bool_decide (status to = FD_INIT /\ status from = FD_OPENED)) ;;
  match node from with
  | Some n =>
      on_inodes (vop_ref_inc n) ;;
      on_inodes (vop_open_inc n) ;;
      fd_array_open (set_node (Some n) (set_modes (readable from) (writable from) (set_pos (pos from) to)))
  | None => panic
  end.

(** The code and the index of the file. *)
Definition fd2file (fd0 : Z) : ST (vfs W) (Z * file) :=
  if testfd fd0 then
    a ← get_fd_array;
    if bool_decide (status (a fd0) = FD_OPENED) && (fd (a fd0) =? fd0) then mret (0, a fd0)
    else mret (- E_INVAL, a fd0)
  else mret (- E_INVAL, mkFile FD_NONE false false 0 0 None 0).

Definition file_testfd (fd : Z) (r w : bool) : ST (vfs W) bool :=
  '(ret, f) ← fd2file fd;
  mret (if negb (ret =? 0) then false
        else if r && negb (readable f) then false
        else if w && negb (writable f) then false else true).

(** Giving the file back after a failure. *)
Definition free_slot (i : Z) : ST (vfs W) unit :=
  a ← get (fun s => fd_array (filesp s));
  f ← fd_array_free (a i);
  put_file i f.

(** From the opened inode on. *)
Definition install (i n open_flags : Z) : ST (vfs W) Z :=
  a ← get (fun s => fd_array (filesp s));
  put_file i (set_pos 0 (a i)) ;;
  a ← get (fun s => fd_array (filesp s));
  let acc := Z.land open_flags O_ACCMODE in
  let f := set_modes ((acc =? O_RDONLY) || (acc =? O_RDWR)) ((acc =? O_WRONLY) || (acc =? O_RDWR))
                     (set_node (Some n) (a i)) in
  if flag open_flags O_APPEND then
    '(ret, st) ← on_inodes (vop_fstat n);
    if negb (ret =? 0) then vfs_close n ;; free_slot i ;; mret ret
    else
      f ← fd_array_open (set_pos (st_size st) f);
      put_file i f ;;
      mret (fd f)
  else
    f ← fd_array_open f;
    put_file i f ;;
    mret (fd f).

Definition file_open (path : list Z) (open_flags : Z) : ST (vfs W) Z :=
  if negb (acc_ok open_flags) then mret (- E_INVAL)
  else
    '(ret, i) ← fd_array_alloc NO_FD;
    if negb (ret =? 0) then mret ret
    else
      '(ret, n) ← vfs_open path open_flags;
      match n with
      | Some n => install i n open_flags
      | None => free_slot i ;; mret ret
      end.

Definition file_close (fd : Z) : ST (vfs W) Z :=
  '(ret, f) ← fd2file fd;
  if negb (ret =? 0) then mret ret
  else
    f ← fd_array_close f;
    put_file fd f ;;
    mret 0.

(** [acquire], an operation on the inode, and [release]: the operation gives
    its result and the new file. *)
Definition with_file {A} (fd : Z) (f : file) (op : Z -> file -> ST (vfs W) (A * file)) : ST (vfs W) A :=
  f ← fd_array_acquire f;
  match node f with
  | Some n =>
      '(r, f) ← op n f;
      f ← fd_array_release f;
      put_file fd f ;;
      mret r
  | None => panic
  end.

(** Moving [len] bytes between [base] in [m] and the file; the code, the
    number of bytes and the memory. *)
Definition file_io (write : bool) (m : mem) (base len : Z) (n : Z) (f : file)
  : ST (vfs W) (Z * Z * mem * file) :=
  '(ret, iob) ← on_inodes ((if write then vop_write else vop_read) n (iobuf_init m base len (pos f)));
  let copied := iobuf_used iob in
  mret (ret, copied, io_mem iob,
        if decide (status f = FD_OPENED) then set_pos (s64 (pos f + copied)) f else f).

Definition file_read (fd : Z) (m : mem) (base len : Z) : ST (vfs W) (Z * Z * mem) :=
  '(ret, f) ← fd2file fd;
  if negb (ret =? 0) then mret (ret, 0, m)
  else if negb (readable f) then mret (- E_INVAL, 0, m)
  else with_file fd f (file_io false m base len).

Definition file_write (fd : Z) (m : mem) (base len : Z) : ST (vfs W) (Z * Z * mem) :=
  '(ret, f) ← fd2file fd;
  if negb (ret =? 0) then mret (ret, 0, m)
  else if negb (writable f) then mret (- E_INVAL, 0, m)
  else with_file fd f (file_io true m base len).

(** The position that [whence] names; the code is 0 before the switch. *)
Definition seek_pos (n : Z) (f : file) (p whence : Z) : ST (vfs W) (Z * Z) :=
  if whence =? LSEEK_SET then mret (0, p)
  else if whence =? LSEEK_CUR then mret (0, s64 (p + pos f))
  else if whence =? LSEEK_END then
    '(ret, st) ← on_inodes (vop_fstat n);
    mret (ret, if ret =? 0 then s64 (p + st_size st) else p)
  else mret (- E_INVAL, p).

Definition file_seek (fd p whence : Z) : ST (vfs W) Z :=
  '(ret, f) ← fd2file fd;
  if negb (ret =? 0) then mret ret
  else
    with_file fd f (fun n f =>
      '(ret, p) ← seek_pos n f p whence;
      if ret =? 0 then
        ret ← on_inodes (vop_tryseek n p);
        mret (ret, if ret =? 0 then set_pos p f else f)
      else mret (ret, f)).

Definition file_fstat (fd : Z) : ST (vfs W) (Z * stat) :=
  '(ret, f) ← fd2file fd;
  if negb (ret =? 0) then mret (ret, mkStat 0 0 0 0)
  else with_file fd f (fun n f => r ← on_inodes (vop_fstat n); mret (r, f)).

Definition file_fsync (fd : Z) : ST (vfs W) Z :=
  '(ret, f) ← fd2file fd;
  if negb (ret =? 0) then mret ret
  else with_file fd f (fun n f => r ← on_inodes (vop_fsync n); mret (r, f)).

(** The directory entry is its offset and the memory of its name. *)
Definition file_getdirentry (fd offset : Z) (name : mem) : ST (vfs W) (Z * Z * mem) :=
  '(ret, f) ← fd2file fd;
  if negb (ret =? 0) then mret (ret, offset, name)
  else
    with_file fd f (fun n f =>
      '(ret, iob) ← on_inodes (vop_getdirentry n (iobuf_init name 0 256 offset));
      mret (ret, if ret =? 0 then s64 (offset + iobuf_used iob) else offset, io_mem iob, f)).

Definition file_dup (fd1 fd2 : Z) : ST (vfs W) Z :=
  '(ret, f1) ← fd2file fd1;
  if negb (ret =? 0) then mret ret
  else
    '(ret, i) ← fd_array_alloc fd2;
    if negb (ret =? 0) then mret ret
    else
      a ← get (fun s => fd_array (filesp s));
      f2 ← fd_array_dup (a i) f1;
      put_file i f2 ;;
      mret (fd f2).

(** ** fs.c: the files of a process, which need not be the current one *)
Definition close_opened (f : file) : ST (vfs W) file :=
  if decide (status f = FD_OPENED) then fd_array_close f else mret f.

(** Entries [i], [i+1], ... ([k] of them) of [a]; [all] requires that none is
    left in use. *)
Fixpoint close_loop (all : bool) (k : nat) (i : Z) (a : Z -> file) : ST (vfs W) (Z -> file) :=
  match k with
  | O => mret a
  | S k' =>
      f ← close_opened (a i);
      (if all then assert (bool_decide (status f = FD_NONE)) else mret tt) ;;
      close_loop all k' (i + 1) (upd a i f)
  end.

(** [fs] is released. *)
Definition files_destroy (fs : files_struct) : ST (vfs W) unit :=
  assert (files_count fs =? 0) ;;
  drop_old (pwd fs) ;;
  _ ← close_loop true (Z.to_nat FILES_STRUCT_NENTRY) 0 (fd_array fs);
  mret tt.

(** stdin and stdout are skipped. *)
Definition files_closeall (fs : files_struct) : ST (vfs W) files_struct :=
  assert (0 <? files_count fs) ;;
  a ← close_loop false (Z.to_nat (FILES_STRUCT_NENTRY - 2)) 2 (fd_array fs);
  mret (set_array a fs).

Fixpoint dup_loop (k : nat) (i : Z) (to from : Z -> file) : ST (vfs W) (Z -> file) :=
  match k with
  | O => mret to
  | S k' =>
      f ← (if decide (status (from i) = FD_OPENED) then
             fd_array_dup (set_status FD_INIT (to i)) (from i)
           else mret (to i));
      dup_loop k' (i + 1) (upd to i f) from
  end.

(** The new [to]. *)
Definition dup_files (to from : files_struct) : ST (vfs W) files_struct :=
  assert ((files_count to =? 0) && (0 <? files_count from)) ;;
  (match pwd from with
   | Some d => on_inodes (vop_ref_inc d) ;; mret tt
   | None => mret tt
   end) ;;
  a ← dup_loop (Z.to_nat FILES_STRUCT_NENTRY) 0 (fd_array to) (fd_array from);
  mret (set_array a (set_pwd (pwd from) to)).
End file_ops.
