(* ===== verification/FileSpec.v ===== *)
(** * Open files, specified

    Every opened entry of the table holds one open count and one reference of
    its inode, through opening, closing, duplicating, forking and exiting. *)
From S2P Require Import Prelude Libs Mem Disk SfsIo SfsDir Inode Vfs VfsSpec File.

Definition NENTRY : Z := FILES_STRUCT_NENTRY.
Lemma NENTRY_val : NENTRY = 72. Proof. done. Qed.

Definition opened_on (a : Z -> file) (i n : Z) : bool :=
  bool_decide (status (a i) = FD_OPENED /\ node (a i) = Some n).

(** The number of the first [k] entries that hold inode [n] open. *)
Fixpoint held (k : nat) (a : Z -> file) (n : Z) : Z :=
  match k with
  | O => 0
  | S k' => (if opened_on a (Z.of_nat k') n then 1 else 0) + held k' a n
  end.
Definition holds (a : Z -> file) (n : Z) : Z := held (Z.to_nat NENTRY) a n.

Lemma held_nonneg k a n : 0 <= held k a n.
Proof. induction k; cbn; [lia|]. destruct (opened_on a (Z.of_nat k) n); lia. Qed.

Lemma held_pos k a n i : 0 <= i < Z.of_nat k -> opened_on a i n = true -> 0 < held k a n.
Proof.
  intros Hi Ho. induction k as [|k IH]; [lia|]. cbn. pose proof (held_nonneg k a n).
  destruct (decide (i = Z.of_nat k)) as [->|]; [rewrite Ho; lia|].
  specialize (IH ltac:(lia)). destruct (opened_on a (Z.of_nat k) n); lia.
Qed.

Lemma held_ext k a a' n :
  (forall i, 0 <= i < Z.of_nat k -> opened_on a i n = opened_on a' i n) -> held k a n = held k a' n.
Proof.
  induction k as [|k IH]; intros He; [done|]. cbn. rewrite He, IH by (intros; try apply He; lia). done.
Qed.

Lemma held_upd k a i f n :
  0 <= i ->
  held k (upd a i f) n = held k a n +
    if decide (i < Z.of_nat k) then (if opened_on (upd a i f) i n then 1 else 0)
                                    - (if opened_on a i n then 1 else 0) else 0.
Proof.
  intros Hi. induction k as [|k IH]; [cbn; rewrite decide_False by lia; lia|].
  cbn [held]. rewrite IH. destruct (decide (Z.of_nat k = i)) as [Hki|Hne].
  - rewrite decide_False, decide_True by lia. rewrite Hki. lia.
  - assert (Hs : opened_on (upd a i f) (Z.of_nat k) n = opened_on a (Z.of_nat k) n)
      by (unfold opened_on; by rewrite upd_ne by done).
    rewrite Hs. destruct (decide (i < Z.of_nat k)); [rewrite decide_True by lia|rewrite decide_False by lia]; lia.
Qed.

Lemma holds_upd a i f n :
  0 <= i < NENTRY ->
  holds (upd a i f) n = holds a n
    + (if bool_decide (status f = FD_OPENED /\ node f = Some n) then 1 else 0)
    - (if opened_on a i n then 1 else 0).
Proof.
  intros Hi. unfold holds. rewrite held_upd by lia.
  rewrite decide_True by (rewrite Z2Nat.id by (rewrite NENTRY_val; lia); lia).
  assert (He : opened_on (upd a i f) i n = bool_decide (status f = FD_OPENED /\ node f = Some n))
    by (unfold opened_on; by rewrite upd_eq).
  rewrite He. lia.
Qed.

(** Between operations an entry is free, or opened with one user. *)
Definition entry_ok (a : Z -> file) (i : Z) : Prop :=
  fd (a i) = i /\
  (status (a i) = FD_NONE /\ fopen_count (a i) = 0 \/
   status (a i) = FD_OPENED /\ fopen_count (a i) = 1 /\ exists n, node (a i) = Some n).
Definition table_ok (a : Z -> file) : Prop := forall i, 0 <= i < NENTRY -> entry_ok a i.

Lemma table_ok_upd a i f : table_ok a -> entry_ok (upd a i f) i -> table_ok (upd a i f).
Proof.
  intros Ht Hf j Hj. destruct (decide (j = i)) as [->|]; [done|].
  unfold entry_ok. rewrite upd_ne by done. by apply Ht.
Qed.

Section file_spec.
  Context {W : Type} `{Inodes W}.
  Implicit Types (s : vfs W) (f : file) (a : Z -> file).

Definition arr s : Z -> file := fd_array (filesp s).

(** The process owns its table; [ext n] opens of inode [n] are due to others. *)
Record owns (ext : Z -> Z) s : Prop := mkOwns {
  ow_ok : vok s;
  ow_count : 0 < files_count (filesp s);
  ow_table : table_ok (arr s);
  ow_ext n : 0 <= ext n;
  ow_opens n : sopens s n = ext n + holds (arr s) n }.

Lemma testfd_spec i : testfd i = true <-> 0 <= i < NENTRY.
Proof. unfold testfd. fold NENTRY. rewrite andb_true_iff, Z.leb_le, Z.ltb_lt. done. Qed.

Lemma get_array_run s : 0 < files_count (filesp s) -> get_fd_array s = Done (arr s, s).
Proof.
  intros Hc. unfold get_fd_array. mstep (eq_refl : get (fun s => filesp s) s = Done (filesp s, s)).
  by rewrite (bind_Done _ _ _ _ _ (assert_true _ s (proj2 (Z.ltb_lt _ _) Hc))).
Qed.

Lemma opened_pos ext s i n :
  owns ext s -> 0 <= i < NENTRY -> opened_on (arr s) i n = true -> 0 < sopens s n.
Proof.
  intros Ho Hi Hop. rewrite (ow_opens _ _ Ho). pose proof (ow_ext _ _ Ho n).
  assert (0 < holds (arr s) n); [|lia]. apply (held_pos _ _ _ i); [|done].
  rewrite Z2Nat.id by (rewrite NENTRY_val; lia). lia.
Qed.

(** Closing a file that holds inode [n] drops it. *)
Definition closed f : file := set_status FD_NONE (set_count 0 (set_status FD_CLOSED f)).

Lemma fd_array_close_run s f n :
  vok s -> status f = FD_OPENED -> fopen_count f = 1 -> node f = Some n -> 0 < sopens s n ->
  exists s', fd_array_close f s = Done (closed f, s') /\ vok s' /\ filesp s' = filesp s /\
    (forall k, srefs s' k = upd (srefs s) n (srefs s n - 1) k) /\
    (forall k, sopens s' k = upd (sopens s) n (sopens s n - 1) k).
Proof.
  intros Hok Hst Hc Hn Hpos. destruct (close_run s n Hok Hpos) as (s' & Hrun & Hok' & Hf & Hr & Ho).
  exists s'. split; [|done]. unfold fd_array_close. rewrite Hst, Hc.
  rewrite (bind_Done _ _ _ _ _ (assert_true _ s eq_refl)).
  rewrite (bind_Done _ _ _ _ _ (assert_true _ s eq_refl)).
  change (fopen_count (set_count (1 - 1) (set_status FD_CLOSED f)) =? 0) with true. cbv iota.
  unfold fd_array_free.
  rewrite (bind_Done _ _ _ _ _ (assert_true _ s (bool_decide_eq_true_2 _ (or_intror eq_refl)))).
  rewrite (bind_Done _ _ _ _ _ (assert_true _ s eq_refl)).
  cbn [node set_count set_status status]. rewrite Hn.
  assert (Hcl : ((if decide (FD_CLOSED = FD_CLOSED) then vfs_close n ;; mret tt else mret tt)
                  : ST (vfs W) unit) s = Done (tt, s')).
  { rewrite decide_True by done. by mstep Hrun. }
  by mstep Hcl.
Qed.

Lemma fd2file_run s i :
  0 < files_count (filesp s) -> table_ok (arr s) ->
  fd2file i s = Done (if decide (0 <= i < NENTRY /\ status (arr s i) = FD_OPENED) then (0, arr s i)
                      else (- E_INVAL, if testfd i then arr s i else mkFile FD_NONE false false 0 0 None 0), s).
Proof.
  intros Hc Ht. unfold fd2file. destruct (testfd i) eqn:Hi.
  - apply testfd_spec in Hi. mstep (get_array_run s Hc). destruct (Ht i Hi) as [Hfd _].
    rewrite Hfd, Z.eqb_refl, andb_true_r. destruct (decide (status (arr s i) = FD_OPENED)) as [He|Hne].
    + rewrite bool_decide_eq_true_2, decide_True by done. done.
    + rewrite bool_decide_eq_false_2, decide_False by naive_solver. done.
  - rewrite decide_False; [done|]. intros [Hr _]. apply testfd_spec in Hr. congruence.
Qed.

(** Storing an entry after the inodes below changed by [d] opens of [n]. *)
Lemma owns_put ext s s1 i f n d :
  owns ext s -> 0 <= i < NENTRY -> vok s1 -> filesp s1 = filesp s ->
  (forall k, sopens s1 k = upd (sopens s) n (sopens s n + d) k) ->
  entry_ok (upd (arr s) i f) i ->
  (forall k, (if bool_decide (status f = FD_OPENED /\ node f = Some k) then 1 else 0)
             - (if opened_on (arr s) i k then 1 else 0) = if decide (k = n) then d else 0) ->
  owns ext (set_filesp (set_array (upd (arr s) i f) (filesp s1)) s1).
Proof.
  intros [Hok Hc Ht He Ho] Hi Hok1 Hf Hop Hent Hd. split.
  - done.
  - cbn. by rewrite Hf.
  - unfold arr. cbn. by apply table_ok_upd.
  - done.
  - intros k. unfold arr. cbn. change (sopens _ k) with (sopens s1 k). rewrite Hop.
    unfold arr in *. rewrite holds_upd by done. specialize (Hd k). specialize (Ho k).
    unfold upd. case_decide; subst; lia.
Qed.

Lemma opened_entry ext s i :
  owns ext s -> 0 <= i < NENTRY -> status (arr s i) = FD_OPENED ->
  exists n, node (arr s i) = Some n /\ fopen_count (arr s i) = 1 /\ fd (arr s i) = i /\
            opened_on (arr s) i n = true /\ 0 < sopens s n.
Proof.
  intros Ho Hi Hst. destruct (ow_table _ _ Ho i Hi) as [Hfd [[Hs _]|(_ & Hc & n & Hn)]]; [congruence|].
  exists n. assert (Hop : opened_on (arr s) i n = true) by (by apply bool_decide_eq_true_2).
  split_and!; try done. by eapply opened_pos.
Qed.

(** [s'] is [s] but for entry [i] of the table. *)
Definition only_entry s (i : Z) s' : Prop := forall j, j <> i -> arr s' j = arr s j.

(** Closing an open descriptor frees its entry of the table and gives back
    exactly one open count and one reference of its inode; any other
    descriptor is refused with [-E_INVAL] and nothing changes. *)
Theorem file_close_releases ext s i :
  owns ext s ->
  if decide (0 <= i < NENTRY /\ status (arr s i) = FD_OPENED) then
    exists n s', node (arr s i) = Some n /\ file_close i s = Done (0, s') /\ owns ext s' /\
      status (arr s' i) = FD_NONE /\ only_entry s i s' /\
      (forall k, srefs s' k = upd (srefs s) n (srefs s n - 1) k) /\
      (forall k, sopens s' k = upd (sopens s) n (sopens s n - 1) k)
  else file_close i s = Done (- E_INVAL, s).
Proof.
  intros Ho. pose proof (fd2file_run s i (ow_count _ _ Ho) (ow_table _ _ Ho)) as Hfd.
  destruct (decide (0 <= i < NENTRY /\ status (arr s i) = FD_OPENED)) as [[Hi Hst]|Hn].
  - destruct (opened_entry ext s i Ho Hi Hst) as (n & Hnode & Hc & Hfdi & Hon & Hpos).
    destruct (fd_array_close_run s (arr s i) n (ow_ok _ _ Ho) Hst Hc Hnode Hpos)
      as (s1 & Hcl & Hok1 & Hf1 & Hr1 & Ho1).
    exists n, (set_filesp (set_array (upd (arr s) i (closed (arr s i))) (filesp s1)) s1).
    split_and!; try done.
    + unfold file_close. mstep Hfd. cbn [Z.eqb negb]. mstep Hcl.
      unfold put_file. rewrite Hf1. mrun. by rewrite Hf1.
    + apply (owns_put ext s s1 i _ n (-1)); try done.
      * split; rewrite upd_eq; [done|left; done].
      * intros k. rewrite bool_decide_eq_false_2 by (by intros [? _]).
        unfold opened_on. rewrite Hst, Hnode. case_decide as Hk.
        -- subst. by rewrite bool_decide_eq_true_2.
        -- rewrite bool_decide_eq_false_2; [lia|]. intros [_ Hk']. congruence.
    + unfold arr. cbn. by rewrite upd_eq.
    + intros j Hj. unfold arr. cbn. by rewrite upd_ne.
  - unfold file_close. mstep Hfd. done.
Qed.

(** ** Taking a free entry *)
Lemma first_free_spec k a : forall i,
  match first_free k a i with
  | Some j => i <= j < i + Z.of_nat k /\ status (a j) = FD_NONE /\ forall l, i <= l < j -> status (a l) <> FD_NONE
  | None => forall l, i <= l < i + Z.of_nat k -> status (a l) <> FD_NONE
  end.
Proof.
  induction k as [|k IH]; intros i; cbn [first_free]; [lia|].
  destruct (decide (status (a i) = FD_NONE)) as [He|Hne]; [split_and!; try done; lia|].
  specialize (IH (i + 1)). destruct (first_free k a (i + 1)) as [j|].
  - destruct IH as (? & ? & Hl). split_and!; [lia|lia|done|]. intros l Hr.
    destruct (decide (l = i)) as [->|]; [done|apply Hl; lia].
  - intros l Hr. destruct (decide (l = i)) as [->|]; [done|apply IH; lia].
Qed.

(** The state with entry [i] reserved. *)
Definition reserved s (i : Z) : vfs W :=
  set_filesp (set_array (upd (arr s) i (set_node None (set_status FD_INIT (arr s i)))) (filesp s)) s.
Definition lowest_free s : option Z := first_free (Z.to_nat NENTRY) (arr s) 0.

Lemma lowest_free_range s i : lowest_free s = Some i -> 0 <= i < NENTRY /\ status (arr s i) = FD_NONE.
Proof.
  unfold lowest_free. pose proof (first_free_spec (Z.to_nat NENTRY) (arr s) 0) as Hf. intros Hi.
  rewrite Hi in Hf. rewrite NENTRY_val in *. split; [lia|apply Hf].
Qed.

Lemma alloc_run ext s :
  owns ext s ->
  fd_array_alloc NO_FD s = match lowest_free s with
                           | Some i => Done ((0, i), reserved s i)
                           | None => Done ((- E_MAX_OPEN, 0), s)
                           end.
Proof.
  intros Ho. unfold fd_array_alloc. mstep (get_array_run s (ow_count _ _ Ho)).
  change (NO_FD =? NO_FD) with true. cbv iota. fold NENTRY. fold (lowest_free s).
  destruct (lowest_free s) as [i|] eqn:Hi; [|done]. apply lowest_free_range in Hi as [Hi Hst].
  destruct (ow_table _ _ Ho i Hi) as [_ [[_ Hc]|[Hst' _]]]; [|congruence].
  unfold fd_found. rewrite Hc. by rewrite (bind_Done _ _ _ _ _ (assert_true _ s eq_refl)).
Qed.

Lemma free_not_opened s i n : status (arr s i) = FD_NONE -> opened_on (arr s) i n = false.
Proof. intros Hst. apply bool_decide_eq_false_2. intros [Hst' _]. congruence. Qed.

(** Entry [i] becomes an open file [f] on inode [n]. *)
Lemma owns_install ext s s1 i f n :
  owns ext s -> 0 <= i < NENTRY -> status (arr s i) = FD_NONE -> vok s1 ->
  (exists a0, filesp s1 = set_array a0 (filesp s) /\ forall j, j <> i -> a0 j = arr s j) ->
  (forall k, sopens s1 k = upd (sopens s) n (sopens s n + 1) k) ->
  fd f = i -> status f = FD_OPENED -> fopen_count f = 1 -> node f = Some n ->
  owns ext (set_filesp (set_array (upd (arr s1) i f) (filesp s1)) s1) /\
  arr (set_filesp (set_array (upd (arr s1) i f) (filesp s1)) s1) i = f /\
  only_entry s i (set_filesp (set_array (upd (arr s1) i f) (filesp s1)) s1).
Proof.
  intros Ho Hi Hst Hok1 (a0 & Hf1 & Ha0) Hop Hfd Hs Hc Hn.
  assert (Hothers : forall j, j <> i -> arr s1 j = arr s j).
  { intros j Hj. unfold arr. rewrite Hf1. cbn. by apply Ha0. }
  split; [|split].
  - split.
    + done.
    + cbn. rewrite Hf1. apply (ow_count _ _ Ho).
    + unfold arr at 1. cbn. intros j Hj. destruct (decide (j = i)) as [->|Hne].
      * split; rewrite upd_eq; [done|]. right. split_and!; try done. by exists n.
      * unfold entry_ok. rewrite upd_ne, Hothers by done. by apply (ow_table _ _ Ho).
    + apply (ow_ext _ _ Ho).
    + intros k. unfold arr at 1. cbn. change (sopens _ k) with (sopens s1 k). rewrite Hop.
      assert (Hh : holds (upd (arr s1) i f) k = holds (upd (arr s) i f) k).
      { apply held_ext. intros j _. unfold opened_on, upd. case_decide; [done|]. by rewrite Hothers. }
      rewrite Hh, holds_upd, (free_not_opened s i k Hst) by done. pose proof (ow_opens _ _ Ho k) as Hk.
      unfold upd. case_decide as He.
      * subst k. rewrite bool_decide_eq_true_2 by done. lia.
      * rewrite bool_decide_eq_false_2; [lia|]. intros [_ Hk']. congruence.
  - unfold arr at 1. cbn. by rewrite upd_eq.
  - intros j Hj. unfold arr at 1. cbn. rewrite upd_ne by done. by apply Hothers.
Qed.

Lemma fd_array_open_run s f : status f = FD_INIT -> node f <> None -> fopen_count f = 0 ->
  fd_array_open f s = Done (set_count 1 (set_status FD_OPENED f), s).
Proof.
  intros Hs Hn Hc. unfold fd_array_open.
  rewrite (bind_Done _ _ _ _ _ (assert_true _ s (bool_decide_eq_true_2 _ (conj Hs Hn)))).
  by rewrite Hc.
Qed.

Lemma dup_run s to from n :
  vok s -> room 1 s -> status to = FD_INIT -> fopen_count to = 0 -> status from = FD_OPENED ->
  node from = Some n -> 0 < sopens s n ->
  exists s', fd_array_dup to from s
    = Done (mkFile FD_OPENED (readable from) (writable from) (fd to) (pos from) (Some n) 1, s') /\
    vok s' /\ filesp s' = filesp s /\
    (forall k, srefs s' k = upd (srefs s) n (srefs s n + 1) k) /\
    (forall k, sopens s' k = upd (sopens s) n (sopens s n + 1) k).
Proof.
  intros Hok Hroom Hst Hc Hfrom Hn Hpos. pose proof (counts_nonneg (inodes s) n Hok) as Hcn.
  pose proof (Hroom n) as Hrn. unfold sopens, srefs in Hpos, Hrn.
  destruct (vop_ref_inc_run (inodes s) n Hok ltac:(lia)) as (r & w & Hinc).
  assert (Hri : on_inodes (vop_ref_inc n) s = Done (r, set_inodes w s))
    by (unfold on_inodes; by rewrite Hinc).
  pose proof (ref_inc_hands s n r _ Hok Hroom Hri) as Hh.
  destruct (open_inc_run (set_inodes w s) n (hd_ok _ _ _ Hh) (hands_pos _ _ _ Hok Hh)
              (hands_room _ _ _ 0 Hh Hroom)) as (r2 & s2 & Hoi & Hok2 & Hf2 & Hr2 & Ho2).
  exists s2. split; [|split; [done|split; [done|split]]].
  - unfold fd_array_dup.
    rewrite (bind_Done _ _ _ _ _ (assert_true _ s (bool_decide_eq_true_2 _ (conj Hst Hfrom)))).
    rewrite Hn. mstep Hri. mstep Hoi. by rewrite fd_array_open_run.
  - intros k. rewrite Hr2. apply (hd_refs _ _ _ Hh).
  - intros k. rewrite Ho2. unfold upd. by rewrite !(hd_opens _ _ _ Hh).
Qed.

(** Duplicating an open descriptor takes the lowest free entry, or fails
    with [-E_MAX_OPEN] when there is none; the copy has the same inode, position
    and modes, and the inode one more open count and reference. *)
Theorem file_dup_shares ext s i n :
  owns ext s -> room 1 s -> 0 <= i < NENTRY -> status (arr s i) = FD_OPENED -> node (arr s i) = Some n ->
  match lowest_free s with
  | None => file_dup i NO_FD s = Done (- E_MAX_OPEN, s)
  | Some j => exists s', file_dup i NO_FD s = Done (j, s') /\ owns ext s' /\ only_entry s j s' /\
      arr s' j = mkFile FD_OPENED (readable (arr s i)) (writable (arr s i)) j (pos (arr s i)) (Some n) 1
  end.
Proof.
  intros Ho Hroom Hi Hst Hn. pose proof (fd2file_run s i (ow_count _ _ Ho) (ow_table _ _ Ho)) as Hfd.
  rewrite decide_True in Hfd by done. pose proof (alloc_run ext s Ho) as Hal.
  destruct (opened_entry ext s i Ho Hi Hst) as (n' & Hn' & _ & _ & _ & Hpos).
  assert (n' = n) as -> by congruence.
  destruct (lowest_free s) as [j|] eqn:Hj.
  - pose proof (lowest_free_range s j Hj) as [Hjr Hjst].
    destruct (ow_table _ _ Ho j Hjr) as [Hjfd [[_ Hjc]|[Hst' _]]]; [|congruence].
    assert (Haj : arr (reserved s j) j = set_node None (set_status FD_INIT (arr s j)))
      by (unfold arr at 1; cbn; apply upd_eq).
    destruct (dup_run (reserved s j) (arr (reserved s j) j) (arr s i) n) as (s1 & Hd & Hok1 & Hf1 & _ & Ho1);
      try (rewrite Haj; done); try done; [apply (ow_ok _ _ Ho)|].
    exists (set_filesp (set_array (upd (arr s1) j
       (mkFile FD_OPENED (readable (arr s i)) (writable (arr s i)) j (pos (arr s i)) (Some n) 1)) (filesp s1)) s1).
    assert (Hfdj : fd (arr (reserved s j) j) = j) by (by rewrite Haj).
    rewrite Hfdj in Hd. split.
    + unfold file_dup. mstep Hfd. cbn [Z.eqb negb]. mstep Hal. cbn [Z.eqb negb].
      mstep (eq_refl : get (fun s => fd_array (filesp s)) (reserved s j)
                       = Done (arr (reserved s j), reserved s j)).
      mstep Hd. done.
    + destruct (owns_install ext s s1 j
        (mkFile FD_OPENED (readable (arr s i)) (writable (arr s i)) j (pos (arr s i)) (Some n) 1) n)
        as (G1 & G2 & G3); try done.
      exists (upd (arr s) j (set_node None (set_status FD_INIT (arr s j)))). split; [by rewrite Hf1|].
      intros k Hk. by apply upd_ne.
  - unfold file_dup. mstep Hfd. cbn [Z.eqb negb]. by mstep Hal.
Qed.

(** ** Opening *)
Definition new_file (i n open_flags : Z) : file :=
  let acc := Z.land open_flags O_ACCMODE in
  mkFile FD_OPENED ((acc =? O_RDONLY) || (acc =? O_RDWR)) ((acc =? O_WRONLY) || (acc =? O_RDWR)) i 0 (Some n) 1.

Lemma reserved_room s i k : room k s -> room k (reserved s i).
Proof. done. Qed.

Lemma reserved_array s s1 i :
  filesp s1 = filesp (reserved s i) ->
  exists a0, filesp s1 = set_array a0 (filesp s) /\ forall j, j <> i -> a0 j = arr s j.
Proof. intros Hf. eexists. split; [exact Hf|]. intros j Hj. by apply upd_ne. Qed.

(** Giving back a reserved entry. *)
Lemma owns_release ext s s1 i f :
  owns ext s -> 0 <= i < NENTRY -> status (arr s i) = FD_NONE -> vok s1 ->
  (exists a0, filesp s1 = set_array a0 (filesp s) /\ forall j, j <> i -> a0 j = arr s j) ->
  (forall k, sopens s1 k = sopens s k) -> fd f = i -> status f = FD_NONE -> fopen_count f = 0 ->
  owns ext (set_filesp (set_array (upd (arr s1) i f) (filesp s1)) s1) /\
  only_entry s i (set_filesp (set_array (upd (arr s1) i f) (filesp s1)) s1).
Proof.
  intros Ho Hi Hst Hok1 (a0 & Hf1 & Ha0) Hop Hfd Hs Hc.
  assert (Hothers : forall j, j <> i -> arr s1 j = arr s j).
  { intros j Hj. unfold arr. rewrite Hf1. cbn. by apply Ha0. }
  split.
  - split.
    + done.
    + cbn. rewrite Hf1. apply (ow_count _ _ Ho).
    + unfold arr at 1. cbn. intros j Hj. destruct (decide (j = i)) as [->|Hne].
      * split; rewrite upd_eq; [done|by left].
      * unfold entry_ok. rewrite upd_ne, Hothers by done. by apply (ow_table _ _ Ho).
    + apply (ow_ext _ _ Ho).
    + intros k. unfold arr at 1. cbn. change (sopens _ k) with (sopens s1 k). rewrite Hop.
      assert (Hh : holds (upd (arr s1) i f) k = holds (upd (arr s) i f) k).
      { apply held_ext. intros j _. unfold opened_on, upd. case_decide; [done|]. by rewrite Hothers. }
      rewrite Hh, holds_upd, (free_not_opened s i k Hst) by done. rewrite (ow_opens _ _ Ho k).
      rewrite bool_decide_eq_false_2; [lia|]. intros [Hs' _]. congruence.
  - intros j Hj. unfold arr at 1. cbn. rewrite upd_ne by done. by apply Hothers.
Qed.

(** Opening a path (without [O_APPEND]) takes the lowest free entry, if there
    is one, and does what [vfs_open] does: an inode gives an open file at
    position 0 with the access modes asked for and its number as the
    descriptor, an error frees the entry again; every inode keeps one open
    count per open entry. *)
Theorem file_open_installs ext s path flags i :
  owns ext s -> room 4 s -> acc_ok flags = true -> flag flags O_APPEND = false ->
  lowest_free s = Some i ->
  match vfs_open path flags (reserved s i) with
  | Done ((ret, Some n), _) => exists s', file_open path flags s = Done (i, s') /\ owns ext s' /\
      arr s' i = new_file i n flags /\ only_entry s i s'
  | Done ((ret, None), _) => exists s', file_open path flags s = Done (ret, s') /\ ret <> 0 /\ owns ext s' /\
      status (arr s' i) = FD_NONE /\ only_entry s i s'
  | Panicked => file_open path flags s = Panicked
  | NoFuel => file_open path flags s = NoFuel
  end.
Proof.
  intros Ho Hroom Hacc Happ Hi. pose proof (alloc_run ext s Ho) as Hal. rewrite Hi in Hal.
  pose proof (lowest_free_range s i Hi) as [Hir Hst].
  destruct (ow_table _ _ Ho i Hir) as [Hfd [[_ Hc]|[Hst' _]]]; [|congruence].
  assert (Hrun : file_open path flags s = ('(ret, n) ← vfs_open path flags;
      match n with Some n => install i n flags | None => free_slot i ;; mret ret end) (reserved s i)).
  { unfold file_open. rewrite Hacc. cbn [negb]. mstep Hal. done. }
  rewrite Hrun. destruct (vfs_open path flags (reserved s i)) as [[[ret n] s1]| |] eqn:Hopen;
    [|unfold mbind, ST_bind; by rewrite Hopen..].
  pose proof (vfs_open_counted (reserved s i) path flags ret n s1 (ow_ok _ _ Ho) Hroom Hopen) as Hres.
  rewrite (bind_Done _ _ _ _ _ Hopen).
  assert (Harr1 : filesp s1 = filesp (reserved s i) -> arr s1 i = set_node None (set_status FD_INIT (arr s i))).
  { intros Hf. unfold arr at 1. rewrite Hf. cbn. apply upd_eq. }
  destruct n as [n|].
  - destruct Hres as (_ & [Hok1 Hf1 Ho1 _]). specialize (Harr1 Hf1).
    set (s2 := set_filesp (set_array (upd (arr s1) i (set_pos 0 (arr s1 i))) (filesp s1)) s1).
    destruct (owns_install ext s s2 i (new_file i n flags) n) as (G1 & G2 & G3); try done.
    { destruct (reserved_array s s1 i Hf1) as (a0 & Ha0 & Hj). eexists. split; [cbn; by rewrite Ha0|].
      intros j Hne. cbn. rewrite upd_ne by done. unfold arr at 1. rewrite Ha0. cbn. by apply Hj. }
    eexists. split; [|split; [exact G1|split; [exact G2|exact G3]]].
    unfold install. rewrite Happ.
    mstep (eq_refl : get (fun s => fd_array (filesp s)) s1 = Done (arr s1, s1)).
    mstep (eq_refl : put_file i (set_pos 0 (arr s1 i)) s1 = Done (tt, s2)).
    mstep (eq_refl : get (fun s => fd_array (filesp s)) s2 = Done (arr s2, s2)).
    assert (Ha2 : arr s2 i = set_pos 0 (set_node None (set_status FD_INIT (arr s i))))
      by (unfold arr at 1; cbn; rewrite upd_eq; by rewrite Harr1).
    rewrite Ha2. erewrite bind_Done; [|apply fd_array_open_run; [done|done|exact Hc]].
    match goal with |- context [set_count 1 ?f] =>
      replace (set_count 1 f) with (new_file i n flags)
        by (unfold new_file, set_count; cbn -[Z.land]; by rewrite Hfd) end.
    done.
  - destruct Hres as (Hne & [Hok1 Hf1 Ho1 _]). specialize (Harr1 Hf1).
    destruct (owns_release ext s s1 i (set_status FD_NONE (arr s1 i))) as (G1 & G2); try done;
      try (rewrite Harr1; done); [by apply reserved_array|].
    eexists. split; [|split; [done|split; [exact G1|split; [|exact G2]]]].
    + assert (Hfree : fd_array_free (arr s1 i) s1 = Done (set_status FD_NONE (arr s1 i), s1)).
      { rewrite Harr1. unfold fd_array_free. cbn [status set_node set_status fopen_count]. rewrite Hc.
        rewrite (bind_Done _ _ _ _ _ (assert_true _ s1 (bool_decide_eq_true_2 _ (or_introl eq_refl)))).
        rewrite (bind_Done _ _ _ _ _ (assert_true _ s1 eq_refl)). done. }
      assert (Hslot : free_slot i s1 = Done (tt, set_filesp (set_array
                        (upd (arr s1) i (set_status FD_NONE (arr s1 i))) (filesp s1)) s1)).
      { unfold free_slot. mstep (eq_refl : get (fun s => fd_array (filesp s)) s1 = Done (arr s1, s1)).
        by mstep Hfree. }
      by mstep Hslot.
    + unfold arr at 1. cbn. by rewrite upd_eq.
Qed.

(** ** Forking *)

(** What the child gets for entry [i] of the parent. *)
Definition inherited (from : file) (i : Z) (f0 f : file) : Prop :=
  if decide (status from = FD_OPENED) then
    f = mkFile FD_OPENED (readable from) (writable from) i (pos from) (node from) 1
  else f = f0.

Definition fresh a (i : Z) : Prop :=
  forall j, i <= j < NENTRY -> fd (a j) = j /\ status (a j) = FD_NONE /\ fopen_count (a j) = 0.

Lemma dup_loop_spec from k : forall i to s,
  0 <= i -> i + Z.of_nat k = NENTRY -> fresh to i -> vok s -> room (Z.of_nat k) s ->
  (forall j, i <= j < NENTRY -> status (from j) = FD_OPENED ->
     exists n, node (from j) = Some n /\ 0 < sopens s n) ->
  exists to' s', dup_loop k i to from s = Done (to', s') /\ vok s' /\ filesp s' = filesp s /\
    (forall j, 0 <= j < i -> to' j = to j) /\
    (forall j, i <= j < NENTRY -> inherited (from j) j (to j) (to' j)) /\
    (forall n, sopens s' n = sopens s n + holds to' n - holds to n).
Proof.
  induction k as [|k IH]; intros i to s Hi Hk Hfr Hok Hroom Hlive.
  { exists to, s. split_and!; try done; [intros j Hj; lia|intros n; lia]. }
  destruct (Hfr i ltac:(lia)) as (Hfd & Hst & Hc).
  assert (Hcont : forall f s1,
    ((if decide (status (from i) = FD_OPENED) then fd_array_dup (set_status FD_INIT (to i)) (from i)
      else mret (to i)) : ST (vfs W) file) s = Done (f, s1) ->
    vok s1 -> room (Z.of_nat k) s1 -> filesp s1 = filesp s -> inherited (from i) i (to i) f ->
    (forall n, sopens s n <= sopens s1 n) ->
    (forall n, sopens s1 n = sopens s n + holds (upd to i f) n - holds to n) ->
    exists to' s', dup_loop (S k) i to from s = Done (to', s') /\ vok s' /\ filesp s' = filesp s /\
      (forall j, 0 <= j < i -> to' j = to j) /\
      (forall j, i <= j < NENTRY -> inherited (from j) j (to j) (to' j)) /\
      (forall n, sopens s' n = sopens s n + holds to' n - holds to n)).
  { intros f s1 Hrun Hok1 Hroom1 Hf1 Hinh Hmono Hop1.
    destruct (IH (i + 1) (upd to i f) s1) as (to' & s' & Hrun' & Hok' & Hf' & Hlo & Hhi & Hop');
      [lia|lia| |done|done| |].
    { intros j Hj. rewrite upd_ne by lia. apply Hfr. lia. }
    { intros j Hj Hsj. destruct (Hlive j ltac:(lia) Hsj) as (n & Hn & Hp). exists n. split; [done|].
      specialize (Hmono n). lia. }
    exists to', s'. split_and!; try done.
    - cbn [dup_loop]. by mstep Hrun.
    - congruence.
    - intros j Hj. rewrite Hlo, upd_ne by lia. done.
    - intros j Hj. destruct (decide (j = i)) as [->|].
      + rewrite Hlo, upd_eq by lia. done.
      + specialize (Hhi j ltac:(lia)). by rewrite upd_ne in Hhi by lia.
    - intros n. rewrite Hop', Hop1. lia. }
  assert (Hopi : forall n, opened_on to i n = false).
  { intros n. apply bool_decide_eq_false_2. intros [? _]. congruence. }
  destruct (decide (status (from i) = FD_OPENED)) as [Hfo|Hfo].
  - destruct (Hlive i ltac:(lia) Hfo) as (n & Hn & Hpos).
    destruct (dup_run s (set_status FD_INIT (to i)) (from i) n Hok) as (s1 & Hrun & Hok1 & Hf1 & Hr1 & Ho1);
      try done; [intros m; specialize (Hroom m); lia|].
    apply (Hcont _ s1 Hrun); try done.
    + intros m. rewrite Hr1. pose proof (Hroom m). pose proof (Hroom n). unfold upd. case_decide; subst; lia.
    + unfold inherited. rewrite decide_True, Hn by done. cbn. by rewrite Hfd.
    + intros m. rewrite Ho1. unfold upd. case_decide; subst; lia.
    + intros m. rewrite Ho1, holds_upd, Hopi by lia. unfold upd. cbn [status node]. case_decide as Hm.
      * subst. rewrite bool_decide_eq_true_2 by done. lia.
      * rewrite bool_decide_eq_false_2; [lia|]. intros [_ Hm']. congruence.
  - apply (Hcont (to i) s eq_refl); try done.
    + intros m. specialize (Hroom m). lia.
    + unfold inherited. by rewrite decide_False by done.
    + intros m. rewrite holds_upd, Hopi by lia. rewrite bool_decide_eq_false_2; [lia|].
      intros [? _]. congruence.
Qed.

Lemma fresh_holds a n : fresh a 0 -> holds a n = 0.
Proof.
  intros Hf. unfold holds. assert (Hz : forall k, Z.of_nat k <= NENTRY -> held k a n = 0).
  { induction k as [|k IH]; intros Hk; [done|]. cbn. rewrite IH by lia.
    destruct (Hf (Z.of_nat k) ltac:(lia)) as (_ & Hs & _). unfold opened_on.
    rewrite bool_decide_eq_false_2; [done|]. intros [? _]. congruence. }
  apply Hz. rewrite Z2Nat.id by (rewrite NENTRY_val; lia). lia.
Qed.

(** Forking copies the table: the child has every open entry of the parent
    with its position and modes (and nothing else), the parent's table is
    unchanged, and each inode gains one open count per copied entry. *)
Theorem dup_files_copies ext s to :
  owns ext s -> room 73 s -> fresh (fd_array to) 0 -> files_count to = 0 -> pwd (filesp s) = None ->
  exists to' s', dup_files to (filesp s) s = Done (to', s') /\ filesp s' = filesp s /\
    table_ok (fd_array to') /\
    (forall j, 0 <= j < NENTRY -> inherited (arr s j) j (fd_array to j) (fd_array to' j)) /\
    (forall n, sopens s' n = sopens s n + holds (fd_array to') n) /\
    owns (fun n => ext n + holds (fd_array to') n) s'.
Proof.
  intros Ho Hroom Hfr Hc Hpwd.
  destruct (dup_loop_spec (arr s) (Z.to_nat NENTRY) 0 (fd_array to) s)
    as (a & s' & Hrun & Hok' & Hf' & _ & Hinh & Hop); try done.
  { apply (ow_ok _ _ Ho). }
  { intros m. specialize (Hroom m). rewrite NENTRY_val. lia. }
  { intros j Hj Hst. destruct (opened_entry ext s j Ho Hj Hst) as (n & Hn & _ & _ & _ & Hp). by exists n. }
  exists (set_array a (set_pwd None to)), s'.
  assert (Hopens : forall n, sopens s' n = sopens s n + holds a n).
  { intros n. rewrite Hop, (fresh_holds (fd_array to)) by done. lia. }
  assert (Ht : table_ok a).
  { intros j Hj. specialize (Hinh j Hj). unfold inherited in Hinh. destruct (decide (status (arr s j) = FD_OPENED)) as [Hst|].
    - destruct (opened_entry ext s j Ho Hj Hst) as (n & Hn & _). unfold entry_ok. rewrite Hinh. cbn.
      split; [done|]. right. split_and!; try done. by exists n.
    - unfold entry_ok. rewrite Hinh. destruct (Hfr j ltac:(lia)) as (? & ? & ?). by split; [|left]. }
  split_and!; try done.
  - unfold dup_files. rewrite Hc.
    assert (Hcnt : (0 =? 0) && (0 <? files_count (filesp s)) = true)
      by (apply Z.ltb_lt, (ow_count _ _ Ho)).
    mstep (assert_true _ s Hcnt). rewrite Hpwd, ret_bind. by mstep Hrun.
  - split.
    + done.
    + rewrite Hf'. apply (ow_count _ _ Ho).
    + unfold arr. rewrite Hf'. apply (ow_table _ _ Ho).
    + intros n. pose proof (ow_ext _ _ Ho n). pose proof (held_nonneg (Z.to_nat NENTRY) a n).
      change (held (Z.to_nat NENTRY) a n) with (holds a n) in *. cbn. lia.
    + intros n. rewrite Hopens, (ow_opens _ _ Ho). unfold arr. rewrite Hf'. cbn. lia.
Qed.

(** ** Exiting *)
Lemma close_loop_spec ext k : forall i a s,
  0 <= i -> i + Z.of_nat k = NENTRY -> table_ok a -> vok s -> (forall n, 0 <= ext n) ->
  (forall n, sopens s n = ext n + holds a n) ->
  exists a' s', close_loop true k i a s = Done (a', s') /\ vok s' /\ filesp s' = filesp s /\ table_ok a' /\
    (forall j, 0 <= j < i -> a' j = a j) /\ (forall j, i <= j < NENTRY -> status (a' j) = FD_NONE) /\
    (forall n, sopens s' n = ext n + holds a' n).
Proof.
  induction k as [|k IH]; intros i a s Hi Hk Ht Hok Hext Hop.
  { exists a, s. split_and!; try done. intros j Hj. lia. }
  assert (Hir : 0 <= i < NENTRY) by lia. destruct (Ht i Hir) as [Hfd Hcase].
  assert (Hstep : exists f s1, close_opened (a i) s = Done (f, s1) /\ vok s1 /\ filesp s1 = filesp s /\
    status f = FD_NONE /\ fopen_count f = 0 /\ fd f = i /\
    (forall n, sopens s1 n = ext n + holds (upd a i f) n)).
  { unfold close_opened. destruct Hcase as [[Hst Hc]|(Hst & Hc & n & Hn)].
    - exists (a i), s. rewrite decide_False by (by rewrite Hst). split_and!; try done.
      intros n. rewrite Hop. f_equal. apply held_ext. intros j _. unfold opened_on, upd. by case_decide; subst.
    - assert (Hon : opened_on a i n = true) by (by apply bool_decide_eq_true_2).
      assert (Hpos : 0 < sopens s n).
      { rewrite Hop. specialize (Hext n). assert (0 < holds a n); [|lia].
        apply (held_pos _ _ _ i); [|done]. rewrite Z2Nat.id by (rewrite NENTRY_val; lia). lia. }
      destruct (fd_array_close_run s (a i) n Hok Hst Hc Hn Hpos) as (s1 & Hrun & Hok1 & Hf1 & _ & Ho1).
      exists (closed (a i)), s1. rewrite decide_True by done. split_and!; try done.
      intros m. rewrite Ho1, holds_upd by done. cbn [status closed set_status].
      rewrite bool_decide_eq_false_2 by (by intros [? _]). unfold upd. rewrite !Hop. case_decide as Hm.
      + subst m. rewrite Hon. lia.
      + unfold opened_on. rewrite Hn, bool_decide_eq_false_2; [lia|]. intros [_ Hm']. congruence. }
  destruct Hstep as (f & s1 & Hrun & Hok1 & Hf1 & Hst & Hc & Hfdf & Hop1).
  destruct (IH (i + 1) (upd a i f) s1) as (a' & s' & Hrun' & Hok' & Hf' & Ht' & Hlo & Hhi & Hop');
    try done; [lia|lia| |].
  { apply table_ok_upd; [done|]. split; rewrite upd_eq; [done|by left]. }
  exists a', s'. split_and!; try done.
  - cbn [close_loop]. mstep Hrun.
    mstep (assert_true _ s1 (bool_decide_eq_true_2 _ Hst)). exact Hrun'.
  - congruence.
  - intros j Hj. rewrite Hlo, upd_ne by lia. done.
  - intros j Hj. destruct (decide (j = i)) as [->|]; [|apply Hhi; lia].
    rewrite Hlo, upd_eq by lia. done.
Qed.

(** Destroying the files of a process whose table is well formed never
    panics and gives back everything the process held: each inode is left with
    the open counts that others have. *)
Theorem files_destroy_releases ext s fs :
  vok s -> table_ok (fd_array fs) -> files_count fs = 0 -> pwd fs = None -> (forall n, 0 <= ext n) ->
  (forall n, sopens s n = ext n + holds (fd_array fs) n) ->
  exists s', files_destroy fs s = Done (tt, s') /\ vok s' /\ forall n, sopens s' n = ext n.
Proof.
  intros Hok Ht Hc Hpwd Hext Hop.
  destruct (close_loop_spec ext (Z.to_nat NENTRY) 0 (fd_array fs) s) as
    (a & s' & Hrun & Hok' & _ & Ht' & _ & Hhi & Hop'); try done.
  exists s'. split; [|split; [done|]].
  - unfold files_destroy. rewrite Hc, Hpwd, (bind_Done _ _ _ _ _ (assert_true _ s eq_refl)).
    unfold drop_old. rewrite ret_bind. fold NENTRY. by mstep Hrun.
  - intros n. rewrite Hop', fresh_holds; [lia|]. intros j Hj. destruct (Ht' j Hj) as [Hfd Hcase].
    specialize (Hhi j Hj). destruct Hcase as [[_ Hc']|[Hst' _]]; [done|congruence].
Qed.
End file_spec.

(** ** Witnesses: descriptor 0 open on inode 2 *)
Definition sample_table (i : Z) : file :=
  if i =? 0 then mkFile FD_OPENED true false 0 10 (Some 2) 1 else mkFile FD_NONE false false i 0 None 0.
Definition sample_process : vfs plain_inodes :=
  mkVfs (mkPlain (fun n => if n =? 1 then 5 else if n =? 2 then 3 else 1) (fun n => if n =? 2 then 3 else 0))
        (Some 1) 1 [mkVdev [100; 48] (Some 7) (Some 0) true] 1 (mkFiles None sample_table 1 1).
(** Two other processes have inode 2 open. *)
Definition sample_ext (n : Z) : Z := if n =? 2 then 2 else 0.

Lemma sample_table_ok : table_ok sample_table.
Proof.
  intros i Hi. unfold entry_ok, sample_table. destruct (Z.eqb_spec i 0) as [->|]; cbn.
  - split; [done|]. right. split_and!; try done. by exists 2.
  - by split; [|left].
Qed.

Lemma sample_opened_on j n : 0 <= j -> opened_on sample_table j n = (j =? 0) && (n =? 2).
Proof.
  intros Hj. unfold opened_on. destruct (Z.eqb_spec j 0) as [->|Hne].
  - change (sample_table 0) with (mkFile FD_OPENED true false 0 10 (Some 2) 1). cbn [andb].
    destruct (Z.eqb_spec n 2) as [->|Hn].
    + by apply bool_decide_eq_true_2.
    + apply bool_decide_eq_false_2. intros [_ Hn']. cbn in Hn'. congruence.
  - apply bool_decide_eq_false_2. unfold sample_table. rewrite (proj2 (Z.eqb_neq _ _) Hne). by intros [? _].
Qed.

Lemma sample_holds n : holds sample_table n = if n =? 2 then 1 else 0.
Proof.
  unfold holds. assert (Hk : forall k, held (S k) sample_table n = if n =? 2 then 1 else 0).
  { induction k as [|k IH].
    - cbn [held]. rewrite sample_opened_on by lia. change (Z.of_nat 0 =? 0) with true. cbn [andb]. destruct (n =? 2); lia.
    - change (held (S (S k)) sample_table n)
        with ((if opened_on sample_table (Z.of_nat (S k)) n then 1 else 0) + held (S k) sample_table n).
      rewrite IH, sample_opened_on by lia.
      by rewrite (proj2 (Z.eqb_neq (Z.of_nat (S k)) 0) ltac:(lia)). }
  rewrite NENTRY_val. change (Z.to_nat 72) with (S 71). apply Hk.
Qed.

Lemma sample_owns : owns sample_ext sample_process.
Proof.
  split.
  - intros n. cbn. destruct (n =? 1) eqn:?, (n =? 2) eqn:?; lia.
  - cbn. lia.
  - exact sample_table_ok.
  - intros n. unfold sample_ext. destruct (n =? 2); lia.
  - intros n. change (arr sample_process) with sample_table. rewrite sample_holds.
    unfold sopens, sample_ext. cbn. destruct (n =? 2); lia.
Qed.

Lemma sample_process_room k : k <= 1000 -> room k sample_process.
Proof. intros Hk n. unfold srefs. cbn. destruct (n =? 1); [lia|]. destruct (n =? 2); lia. Qed.

Lemma file_close_releases_witness :
  exists n s', node (sample_table 0) = Some n /\ file_close 0 sample_process = Done (0, s') /\
    owns sample_ext s' /\ status (arr s' 0) = FD_NONE /\ only_entry sample_process 0 s' /\
    (forall k, srefs s' k = upd (srefs sample_process) n (srefs sample_process n - 1) k) /\
    (forall k, sopens s' k = upd (sopens sample_process) n (sopens sample_process n - 1) k).
Proof. exact (file_close_releases sample_ext sample_process 0 sample_owns). Defined.

Lemma file_dup_shares_witness :
  exists s', file_dup 0 NO_FD sample_process = Done (1, s') /\ owns sample_ext s' /\
    only_entry sample_process 1 s' /\ arr s' 1 = mkFile FD_OPENED true false 1 10 (Some 2) 1.
Proof.
  apply (file_dup_shares sample_ext sample_process 0 2 sample_owns (sample_process_room 1 ltac:(lia)));
    [rewrite NENTRY_val; lia|done|done].
Defined.

(** "/a" opened for reading and writing. *)
Lemma file_open_installs_witness :
  exists s', file_open [47; 97] 2 sample_process = Done (1, s') /\ owns sample_ext s' /\
    arr s' 1 = new_file 1 2 2 /\ only_entry sample_process 1 s'.
Proof.
  apply (file_open_installs sample_ext sample_process [47; 97] 2 1 sample_owns
           (sample_process_room 4 ltac:(lia)) eq_refl eq_refl eq_refl).
Defined.

Lemma dup_files_copies_witness :
  exists to' s', dup_files (mkFiles None (fd_array_init (fun _ => sample_file)) 0 1) (filesp sample_process)
                           sample_process = Done (to', s') /\
    filesp s' = filesp sample_process /\ table_ok (fd_array to') /\
    (forall j, 0 <= j < NENTRY ->
       inherited (sample_table j) j (fd_array_init (fun _ => sample_file) j) (fd_array to' j)) /\
    (forall n, sopens s' n = sopens sample_process n + holds (fd_array to') n) /\
    owns (fun n => sample_ext n + holds (fd_array to') n) s'.
Proof.
  apply (dup_files_copies sample_ext sample_process
           (mkFiles None (fd_array_init (fun _ => sample_file)) 0 1) sample_owns
           (sample_process_room 73 ltac:(lia))); try done.
  intros j Hj. cbn. unfold fd_array_init. by rewrite (proj2 (testfd_spec j) Hj).
Defined.

Lemma files_destroy_releases_witness :
  exists s', files_destroy (mkFiles None sample_table 0 1) sample_process = Done (tt, s') /\ vok s' /\
    forall n, sopens s' n = sample_ext n.
Proof.
  apply (files_destroy_releases sample_ext sample_process (mkFiles None sample_table 0 1)
           (ow_ok _ _ sample_owns) sample_table_ok eq_refl eq_refl (ow_ext _ _ sample_owns)).
  exact (ow_opens _ _ sample_owns).
Defined.
