(* ===== verification/Vmm.v ===== *)
(** * Virtual memory areas (kern/mm/vmm.c)

    The areas of a process as a list sorted by start address, with the cache of
    the last area found; checking and copying user memory.  An area does not
    change once it is in the list, so areas are values; the page tables below
    are reached through two routines, arguments of the operations that use
    them. *)
From S2P Require Import Prelude Libs Mem.

Definition PGSIZE : Z := 4096.
Definition USERBASE : Z := 0x00200000.
Definition USERTOP : Z := 0x80000000.
Definition KERNBASE : Z := 0xFFFFFFFFC0200000.
Definition KMEMSIZE : Z := 0x7E00000.
Definition KERNTOP : Z := KERNBASE + KMEMSIZE.
Definition VM_READ : Z := 1.
Definition VM_WRITE : Z := 2.
Definition VM_EXEC : Z := 4.
Definition VM_STACK : Z := 8.

Definition USER_ACCESS (start end_ : Z) : bool :=
  (USERBASE <=? start) && (start <? end_) && (end_ <=? USERTOP).
Definition KERN_ACCESS (start end_ : Z) : bool :=
  (KERNBASE <=? start) && (start <? end_) && (end_ <=? KERNTOP).

Record vma_struct := mkVma { vm_start : Z; vm_end : Z; vm_flags : Z }.
#[export] Instance vma_eq_dec : EqDecision vma_struct.
Proof. solve_decision. Defined.

Record mm_struct := mkMm {
  mmap_list : list vma_struct; mmap_cache : option vma_struct; map_count : Z; mm_count : Z;
  mm_sem : Z; locked_by : Z }.
Definition set_list (l : list vma_struct) (mm : mm_struct) : mm_struct :=
  mkMm l (mmap_cache mm) (map_count mm) (mm_count mm) (mm_sem mm) (locked_by mm).
Definition set_cache (c : option vma_struct) (mm : mm_struct) : mm_struct :=
  mkMm (mmap_list mm) c (map_count mm) (mm_count mm) (mm_sem mm) (locked_by mm).
Definition set_map_count (n : Z) (mm : mm_struct) : mm_struct :=
  mkMm (mmap_list mm) (mmap_cache mm) n (mm_count mm) (mm_sem mm) (locked_by mm).

(** The argument says whether [kmalloc] succeeds; [locked_by] is not set. *)
Definition mm_create (ok : bool) (junk : Z) : option mm_struct :=
  if ok then Some (mkMm [] None 0 0 1 junk) else None.
Definition vma_create (ok : bool) (start end_ flags : Z) : option vma_struct :=
  if ok then Some (mkVma start end_ flags) else None.

Definition contains (v : vma_struct) (addr : Z) : bool := (vm_start v <=? addr) && (addr <? vm_end v).

Fixpoint search_vma (l : list vma_struct) (addr : Z) : option vma_struct :=
  match l with
  | [] => None
  | v :: l' => if contains v addr then Some v else search_vma l' addr
  end.

Definition find_vma (addr : Z) : ST mm_struct (option vma_struct) :=
  c ← get mmap_cache;
  l ← get mmap_list;
  let r := match c with
           | Some v => if contains v addr then Some v else search_vma l addr
           | None => search_vma l addr
           end in
  (match r with
   | Some v => modify (set_cache (Some v))
   | None => mret tt
   end) ;;
  mret r.

Definition check_vma_overlap (prev next : vma_struct) : ST mm_struct unit :=
  assert (vm_start prev <? vm_end prev) ;;
  assert (vm_end prev <=? vm_start next) ;;
  assert (vm_start next <? vm_end next).

(** The areas that start at or before [v], and the others. *)
Fixpoint split_at (start : Z) (l : list vma_struct) : list vma_struct * list vma_struct :=
  match l with
  | [] => ([], [])
  | w :: l' => if start <? vm_start w then ([], l)
               else let '(a, b) := split_at start l' in (w :: a, b)
  end.

Definition insert_vma_struct (v : vma_struct) : ST mm_struct unit :=
  assert (vm_start v <? vm_end v) ;;
  l ← get mmap_list;
  let '(before, after) := split_at (vm_start v) l in
  (match last before with
   | Some p => check_vma_overlap p v
   | None => mret tt
   end) ;;
  (match after with
   | n :: _ => check_vma_overlap v n
   | [] => mret tt
   end) ;;
  modify (set_list (before ++ v :: after)) ;;
  modify (fun mm => set_map_count (s32 (map_count mm + 1)) mm).

(** Frees the areas and [mm]; what is left of [mm] before it is freed. *)
Definition mm_destroy : ST mm_struct unit :=
  n ← get mm_count;
  assert (n =? 0) ;;
  modify (set_list []).

(** [ok]: the area can be allocated.  The code and the area stored. *)
Definition mm_map (ok : bool) (addr len flags : Z) : ST mm_struct (Z * option vma_struct) :=
  let start := ROUNDDOWN addr PGSIZE in
  let end_ := ROUNDUP (u64 (addr + len)) PGSIZE in
  if negb (USER_ACCESS start end_) then mret (- E_INVAL, None)
  else
    v ← find_vma start;
    if match v with Some v => vm_start v <? end_ | None => false end then mret (- E_INVAL, None)
    else
      match vma_create ok start end_ flags with
      | None => mret (- E_NO_MEM, None)
      | Some v => insert_vma_struct v ;; mret (0, Some v)
      end.

Section mmap.
  Context {P : Type}.
  (** [copy_range], [unmap_range] and [exit_range] of kern/mm/pmm.c on the page
      tables, from one address to another. *)
  Context (copy_range unmap_range exit_range : Z -> Z -> P -> outcome (Z * P)).

Definition on_mm {A} (m : ST mm_struct A) : ST (mm_struct * P) A :=
  fun s => match m (fst s) with
           | Done (a, mm) => Done (a, (mm, snd s))
           | Panicked => Panicked
           | NoFuel => NoFuel
           end.
Definition on_pgdir {A} (m : ST P A) : ST (mm_struct * P) A :=
  fun s => match m (snd s) with
           | Done (a, p) => Done (a, (fst s, p))
           | Panicked => Panicked
           | NoFuel => NoFuel
           end.

(** The areas of the parent from the last one to the first; [ok] gives the
    results of the allocations. *)
Fixpoint dup_areas (ok : nat -> bool) (i : nat) (l : list vma_struct) : ST (mm_struct * P) Z :=
  match l with
  | [] => mret 0
  | v :: l' =>
      match vma_create (ok i) (vm_start v) (vm_end v) (vm_flags v) with
      | None => mret (- E_NO_MEM)
      | Some nv =>
          on_mm (insert_vma_struct nv) ;;
          ret ← on_pgdir (copy_range (vm_start v) (vm_end v));
          if negb (ret =? 0) then mret (- E_NO_MEM) else dup_areas ok (S i) l'
      end
  end.
Definition dup_mmap (ok : nat -> bool) (from : mm_struct) : ST (mm_struct * P) Z :=
  dup_areas ok 0 (rev (mmap_list from)).

Fixpoint each_area (f : Z -> Z -> P -> outcome (Z * P)) (l : list vma_struct) : ST P unit :=
  match l with
  | [] => mret tt
  | v :: l' => f (vm_start v) (vm_end v) ≫= (fun _ => each_area f l' : ST P unit)
  end.
Definition exit_mmap (mm : mm_struct) : ST P unit :=
  assert (mm_count mm =? 0) ;;
  each_area unmap_range (mmap_list mm) ;;
  each_area exit_range (mmap_list mm).
End mmap.

(** ** User memory *)

(** The loop over the areas from [start] on. *)
Fixpoint check_loop (fuel : nat) (start end_ : Z) (write : bool) : ST mm_struct bool :=
  if start <? end_ then
    match fuel with
    | O => no_fuel
    | S fuel' =>
        v ← find_vma start;
        match v with
        | None => mret false
        | Some v =>
            if start <? vm_start v then mret false
            else if Z.land (vm_flags v) (if write then VM_WRITE else VM_READ) =? 0 then mret false
            else if write && negb (Z.land (vm_flags v) VM_STACK =? 0) && (start <? u64 (vm_start v + PGSIZE))
            then mret false
            else check_loop fuel' (vm_end v) end_ write
        end
    end
  else mret true.

(** One turn per area is enough. *)
Definition user_mem_check (addr len : Z) (write : bool) : ST mm_struct bool :=
  let end_ := u64 (addr + len) in
  if negb (USER_ACCESS addr end_) then mret false
  else
    l ← get mmap_list;
    check_loop (S (length l)) addr end_ write.

(** With a null [mm]. *)
Definition kern_mem_check (addr len : Z) : bool := KERN_ACCESS addr (u64 (addr + len)).

Section copying.
  (** [user_mem_check] on the areas of the process. *)
  Context {S : Type} (check : Z -> Z -> bool -> ST S bool).

(** [user] is the memory of the process.  Whether the copy was done, and the
    destination. *)
Definition copy_from_user (dst : mem) (d : Z) (user : mem) (src len : Z) (writable : bool)
  : ST S (bool * mem) :=
  b ← check src len writable;
  mret (if (b : bool) then (true, copy dst d user src len) else (false, dst)).
Definition copy_to_user (user : mem) (dst : Z) (src : mem) (s len : Z) : ST S (bool * mem) :=
  b ← check dst len true;
  mret (if (b : bool) then (true, copy user dst src s len) else (false, user)).

(** [strnlen] of libs/string.c. *)
Fixpoint strnlen (m : mem) (a : Z) (len : nat) : Z :=
  match len with
  | O => 0
  | Datatypes.S len' => if m a =? 0 then 0 else 1 + strnlen m (a + 1) len'
  end.

Fixpoint copy_string_loop (fuel : nat) (dst : mem) (d : Z) (user : mem) (src maxn part : Z)
  : ST S (bool * mem) :=
  match fuel with
  | O => no_fuel
  | Datatypes.S fuel' =>
      let part := if maxn <? part then maxn else part in
      b ← check src part false;
      if negb b then mret (false, dst)
      else
        let alen := strnlen user src (Z.to_nat part) in
        if alen <? part then mret (true, copy dst d user src (alen + 1))
        else if part =? maxn then mret (false, dst)
        else copy_string_loop fuel' (copy dst d user src part) (d + part) user (u64 (src + part))
               (maxn - part) PGSIZE
  end.

(** One turn per page of [maxn] bytes. *)
Definition copy_string (dst : mem) (d : Z) (user : mem) (src maxn : Z) : ST S (bool * mem) :=
  copy_string_loop (Z.to_nat (maxn / PGSIZE) + 2) dst d user src maxn
    (u64 (ROUNDDOWN (u64 (src + PGSIZE)) PGSIZE - src)).
End copying.

(** ** The self-test run at boot *)
Fixpoint insert_each (l : list Z) : ST mm_struct unit :=
  match l with
  | [] => mret tt
  | i :: l' => insert_vma_struct (mkVma (i * 5) (i * 5 + 2) 0) ;; insert_each l'
  end.

Fixpoint check_order (i : Z) (l : list vma_struct) : bool :=
  match l with
  | [] => true
  | v :: l' => (vm_start v =? i * 5) && (vm_end v =? i * 5 + 2) && check_order (i + 1) l'
  end.

Definition found_at (i : Z) (o : option vma_struct) : bool :=
  match o with Some v => (vm_start v =? i) && (vm_end v =? i + 2) | None => false end.
Definition not_found (o : option vma_struct) : bool := match o with Some _ => false | None => true end.

Fixpoint check_finds (l : list Z) : ST mm_struct unit :=
  match l with
  | [] => mret tt
  | i :: l' =>
      v1 ← find_vma i; assert (found_at i v1) ;;
      v2 ← find_vma (i + 1); assert (found_at i v2) ;;
      v3 ← find_vma (i + 2); assert (not_found v3) ;;
      v4 ← find_vma (i + 3); assert (not_found v4) ;;
      v5 ← find_vma (i + 4); assert (not_found v5) ;;
      check_finds l'
  end.

Fixpoint check_below (l : list Z) : ST mm_struct unit :=
  match l with
  | [] => mret tt
  | i :: l' => v ← find_vma i; assert (not_found v) ;; check_below l'
  end.

Definition check_vma_struct : ST mm_struct unit :=
  insert_each (rev (seqZ 1 10)) ;;
  insert_each (seqZ 11 90) ;;
  l ← get mmap_list;
  assert ((100 <=? Z.of_nat (length l)) && check_order 1 (take 100 l)) ;;
  check_finds ((fun k => 5 * k) <$> seqZ 1 100) ;;
  check_below [4; 3; 2; 1; 0] ;;
  mm_destroy.
