(* ===== verification/VmmSpec.v ===== *)
(** * Virtual memory areas, specified

    The areas stay sorted and disjoint, the cache does not change what is
    found, and a user range is accepted exactly when every byte of it lies in
    an area with the right permissions. *)
From S2P Require Import Prelude Libs Mem Vmm.

(** ** The invariant *)
Fixpoint areas_from (lo : Z) (l : list vma_struct) : Prop :=
  match l with
  | [] => True
  | v :: l' => lo <= vm_start v < vm_end v /\ vm_end v <= USERTOP /\ areas_from (vm_end v) l'
  end.

Record mm_ok (mm : mm_struct) : Prop := mkMmOk {
  mm_areas : areas_from 0 (mmap_list mm);
  mm_cache v : mmap_cache mm = Some v -> v ∈ mmap_list mm;
  mm_number : map_count mm = Z.of_nat (length (mmap_list mm)) }.

Lemma areas_weaken lo lo' l : lo' <= lo -> areas_from lo l -> areas_from lo' l.
Proof. destruct l; cbn; [done|]. intros ? (? & ?). split; [lia|done]. Qed.

Lemma areas_elem lo l v : areas_from lo l -> v ∈ l -> lo <= vm_start v < vm_end v /\ vm_end v <= USERTOP.
Proof.
  revert lo; induction l as [|w l IH]; intros lo; cbn; [by intros _ ?%elem_of_nil|].
  intros (Hw & He & Hl) [->|Hv]%elem_of_cons; [done|].
  destruct (IH _ Hl Hv). lia.
Qed.

(** Two areas of the list are the same or apart. *)
Definition apart (v w : vma_struct) : Prop := vm_end v <= vm_start w \/ vm_end w <= vm_start v.

Lemma areas_apart lo l v w : areas_from lo l -> v ∈ l -> w ∈ l -> v = w \/ apart v w.
Proof.
  revert lo; induction l as [|u l IH]; intros lo; cbn; [by intros _ ?%elem_of_nil|].
  intros (Hu & He & Hl) [->|Hv]%elem_of_cons [->|Hw]%elem_of_cons.
  - by left.
  - right. left. destruct (areas_elem _ _ _ Hl Hw). lia.
  - right. right. destruct (areas_elem _ _ _ Hl Hv). lia.
  - by eapply IH.
Qed.

Lemma contains_spec v a : contains v a = true <-> vm_start v <= a < vm_end v.
Proof. unfold contains. rewrite andb_true_iff, Z.leb_le, Z.ltb_lt. done. Qed.

Lemma contains_unique lo l v w a :
  areas_from lo l -> v ∈ l -> w ∈ l -> contains v a = true -> contains w a = true -> v = w.
Proof.
  rewrite !contains_spec. intros Hl Hv Hw Ha Hb.
  destruct (areas_apart lo l v w Hl Hv Hw) as [?|[?|?]]; [done|lia|lia].
Qed.

(** ** Finding *)
Lemma search_vma_spec l a :
  match search_vma l a with
  | Some v => v ∈ l /\ contains v a = true
  | None => forall v, v ∈ l -> contains v a = false
  end.
Proof.
  induction l as [|w l IH]; cbn; [by intros v ?%elem_of_nil|].
  destruct (contains w a) eqn:Hw; [split; [apply elem_of_cons; by left|done]|].
  destruct (search_vma l a) as [v|].
  - destruct IH. split; [apply elem_of_cons; by right|done].
  - intros v [->|Hv]%elem_of_cons; [done|by apply IH].
Qed.

(** The area that holds [a], if there is one. *)
Definition area_of (mm : mm_struct) (a : Z) : option vma_struct := search_vma (mmap_list mm) a.

Lemma find_vma_run a mm :
  mm_ok mm -> exists mm', find_vma a mm = Done (area_of mm a, mm') /\ mm_ok mm' /\
    mmap_list mm' = mmap_list mm /\ map_count mm' = map_count mm.
Proof.
  intros [Hl Hc Hn]. pose proof (search_vma_spec (mmap_list mm) a) as Hs. unfold area_of.
  assert (Hr : (match mmap_cache mm with
                | Some v => if contains v a then Some v else search_vma (mmap_list mm) a
                | None => search_vma (mmap_list mm) a
                end) = search_vma (mmap_list mm) a).
  { destruct (mmap_cache mm) as [v|]; [|done]. destruct (contains v a) eqn:Hv; [|done].
    specialize (Hc v eq_refl). destruct (search_vma (mmap_list mm) a) as [w|].
    - f_equal. destruct Hs. by eapply contains_unique.
    - rewrite Hs in Hv by done. done. }
  unfold find_vma. mstep (eq_refl : get mmap_cache mm = Done (mmap_cache mm, mm)).
  mstep (eq_refl : get mmap_list mm = Done (mmap_list mm, mm)). cbv zeta. rewrite Hr.
  destruct (search_vma (mmap_list mm) a) as [v|].
  - eexists. split; [reflexivity|]. split; [|done]. destruct Hs as [Hv _]. split; [done| |done].
    cbn. by intros w [= <-].
  - exists mm. by rewrite ret_bind.
Qed.

(** ** Inserting *)
Lemma split_at_spec start l : forall lo, areas_from lo l ->
  let '(b, a) := split_at start l in
  l = b ++ a /\ (forall w, w ∈ b -> vm_start w <= start) /\ (forall w, w ∈ a -> start < vm_start w).
Proof.
  induction l as [|w l IH]; intros lo Hl; cbn.
  { split; [done|]. split; by intros ? ?%elem_of_nil. }
  destruct Hl as (Hw & He & Hl). destruct (Z.ltb_spec start (vm_start w)).
  - split; [done|]. split; [by intros ? ?%elem_of_nil|].
    intros u [->|Hu]%elem_of_cons; [done|]. destruct (areas_elem _ _ _ Hl Hu). lia.
  - specialize (IH _ Hl). destruct (split_at start l) as [b a]. destruct IH as (-> & Hb & Ha).
    split; [done|]. split; [|done]. intros u [->|Hu]%elem_of_cons; [done|by apply Hb].
Qed.

Lemma areas_app lo l1 l2 :
  areas_from lo (l1 ++ l2) <->
  areas_from lo l1 /\ areas_from (match last l1 with Some v => vm_end v | None => lo end) l2.
Proof.
  revert lo; induction l1 as [|v l1 IH]; intros lo; [cbn; tauto|].
  rewrite last_cons. cbn [app areas_from]. rewrite IH. destruct (last l1); tauto.
Qed.

Lemma areas_ordered lo l1 l2 w u : areas_from lo (l1 ++ l2) -> w ∈ l1 -> u ∈ l2 -> vm_end w <= vm_start u.
Proof.
  revert lo; induction l1 as [|v l1 IH]; intros lo; cbn; [by intros _ ?%elem_of_nil|].
  intros (Hv & He & Hl) [->|Hw]%elem_of_cons Hu; [|by eapply IH].
  destruct (areas_elem _ _ u Hl ltac:(apply elem_of_app; by right)). lia.
Qed.

Lemma last_elem {A} (l : list A) x : last l = Some x -> x ∈ l.
Proof. intros Hl. apply last_Some in Hl as [l' ->]. apply elem_of_app. right. by apply elem_of_cons; left. Qed.

(** The overlap check passes exactly when the two are in order. *)
Lemma overlap_run p n mm :
  vm_start p < vm_end p -> vm_start n < vm_end n ->
  check_vma_overlap p n mm = if vm_end p <=? vm_start n then Done (tt, mm) else Panicked.
Proof.
  intros Hp Hn. unfold check_vma_overlap.
  rewrite (bind_Done _ _ _ _ _ (assert_true _ mm (proj2 (Z.ltb_lt _ _) Hp))).
  destruct (vm_end p <=? vm_start n); [|done].
  rewrite (bind_Done _ _ _ _ _ (assert_true _ mm eq_refl)). apply assert_true. by apply Z.ltb_lt.
Qed.

(** [v] overlaps no area. *)
Definition disjoint_area (mm : mm_struct) (v : vma_struct) : Prop := forall w, w ∈ mmap_list mm -> apart v w.

Definition inserted (mm : mm_struct) (v : vma_struct) (mm' : mm_struct) : Prop :=
  mm_ok mm' /\ (forall w, w ∈ mmap_list mm' <-> w = v \/ w ∈ mmap_list mm) /\
  map_count mm' = map_count mm + 1.

Lemma split_sorted (b a : list vma_struct) v :
  areas_from 0 (b ++ a) -> 0 <= vm_start v < vm_end v -> vm_end v <= USERTOP ->
  (forall w, w ∈ b -> vm_end w <= vm_start v) -> (forall w, w ∈ a -> vm_end v <= vm_start w) ->
  areas_from 0 (b ++ v :: a).
Proof.
  intros Hl Hv He Hb Ha. apply areas_app in Hl as [Hl1 Hl2]. apply areas_app. split; [done|].
  cbn. split; [|split; [done|]].
  - destruct (last b) as [w|] eqn:Hlast; [|lia]. apply last_elem in Hlast. specialize (Hb w Hlast). lia.
  - destruct a as [|n a]; [done|]. cbn in *. destruct Hl2 as (H1 & H2 & H3).
    split; [|done]. specialize (Ha n ltac:(apply elem_of_cons; by left)). lia.
Qed.

(** The neighbours are the only areas that can be in the way. *)
Lemma neighbours_apart mm v b a :
  mm_ok mm -> vm_start v < vm_end v -> mmap_list mm = b ++ a ->
  (forall w, w ∈ b -> vm_start w <= vm_start v) -> (forall w, w ∈ a -> vm_start v < vm_start w) ->
  disjoint_area mm v <->
  (match last b with Some p => vm_end p <= vm_start v | None => True end) /\
  (match a with n :: _ => vm_end v <= vm_start n | [] => True end).
Proof.
  intros [Hl _ _] Hv Heq Hb Ha. unfold disjoint_area. rewrite Heq in Hl |- *. split.
  - intros Hd. split.
    + destruct (last b) as [p|] eqn:Hlast; [|done]. apply last_elem in Hlast.
      specialize (Hb p Hlast). specialize (Hd p ltac:(apply elem_of_app; by left)).
      assert (vm_start p < vm_end p) by (eapply areas_elem; [exact Hl|apply elem_of_app; by left]).
      destruct Hd; lia.
    + destruct a as [|n a]; [done|]. assert (Hn : n ∈ n :: a) by (apply elem_of_cons; by left).
      specialize (Ha n Hn). specialize (Hd n ltac:(apply elem_of_app; by right)).
      assert (vm_start n < vm_end n) by (eapply areas_elem; [exact Hl|apply elem_of_app; by right]).
      destruct Hd; lia.
  - intros [Hp Hn] w [Hw|Hw]%elem_of_app.
    + right. destruct (last b) as [p|] eqn:Hlast; [|apply last_None in Hlast; subst; by apply elem_of_nil in Hw].
      assert (Hpb : p ∈ b ++ a) by (apply elem_of_app; left; by apply last_elem).
      assert (vm_start p < vm_end p) by (eapply areas_elem; [exact Hl|done]).
      destruct (areas_apart _ _ w p Hl ltac:(apply elem_of_app; by left) Hpb) as [->|[?|?]]; [lia|lia|].
      apply last_Some in Hlast as [b' ->]. apply elem_of_app in Hw as [Hw|Hw%list_elem_of_singleton]; [|by subst].
      rewrite <- app_assoc in Hl.
      pose proof (areas_ordered _ _ _ w p Hl Hw ltac:(apply elem_of_cons; by left)). lia.
    + left. destruct a as [|n a]; [by apply elem_of_nil in Hw|].
      apply elem_of_cons in Hw as [->|Hw]; [done|]. apply areas_app in Hl as [_ Hl]. cbn in Hl.
      destruct Hl as (H1 & _ & H3). destruct (areas_elem _ _ _ H3 Hw). lia.
Qed.

Lemma insert_run v mm :
  mm_ok mm -> 0 <= vm_start v < vm_end v -> vm_end v <= USERTOP -> map_count mm + 1 < 2 ^ 31 ->
  (disjoint_area mm v /\ exists mm', insert_vma_struct v mm = Done (tt, mm') /\ inserted mm v mm') \/
  (~ disjoint_area mm v /\ insert_vma_struct v mm = Panicked).
Proof.
  intros Hok Hv He Hcnt. pose proof Hok as [Hl Hc Hn].
  pose proof (split_at_spec (vm_start v) (mmap_list mm) 0 Hl) as Hs.
  unfold insert_vma_struct.
  rewrite (bind_Done _ _ _ _ _ (assert_true _ mm (proj2 (Z.ltb_lt _ _) (proj2 Hv)))).
  mstep (eq_refl : get mmap_list mm = Done (mmap_list mm, mm)).
  destruct (split_at (vm_start v) (mmap_list mm)) as [b a]. destruct Hs as (Heq & Hb & Ha).
  pose proof (neighbours_apart mm v b a Hok ltac:(lia) Heq Hb Ha) as Hnb.
  assert (Hel : forall w, w ∈ b ++ a -> vm_start w < vm_end w)
    by (intros w Hw; rewrite Heq in Hl; by eapply areas_elem).
  assert (Hprev : (match last b with Some p => check_vma_overlap p v | None => mret tt end) mm
    = if match last b with Some p => vm_end p <=? vm_start v | None => true end
      then Done (tt, mm) else Panicked).
  { destruct (last b) as [p|] eqn:Hlast; [|done]. apply overlap_run; [|lia].
    apply Hel, elem_of_app. left. by apply last_elem. }
  assert (Hnext : (match a with n :: _ => check_vma_overlap v n | [] => mret tt end) mm
    = if match a with n :: _ => vm_end v <=? vm_start n | [] => true end
      then Done (tt, mm) else Panicked).
  { destruct a as [|n a]; [done|]. apply overlap_run; [lia|].
    apply Hel, elem_of_app. right. apply elem_of_cons. by left. }
  destruct (match last b with Some p => vm_end p <=? vm_start v | None => true end) eqn:Hp.
  2:{ right. split; [|unfold mbind, ST_bind; by rewrite Hprev].
      rewrite Hnb. intros [Hp' _]. destruct (last b); [|done]. apply Z.leb_nle in Hp. lia. }
  mstep Hprev.
  destruct (match a with n :: _ => vm_end v <=? vm_start n | [] => true end) eqn:Hnx.
  2:{ right. split; [|unfold mbind, ST_bind; by rewrite Hnext].
      rewrite Hnb. intros [_ Hn']. destruct a; [done|]. apply Z.leb_nle in Hnx. lia. }
  mstep Hnext. left. split.
  { apply Hnb. split; [destruct (last b); [by apply Z.leb_le|done]|destruct a; [done|by apply Z.leb_le]]. }
  eexists. split; [reflexivity|]. cbn. rewrite s32_small by lia.
  assert (Hd : disjoint_area mm v).
  { apply Hnb. split; [destruct (last b); [by apply Z.leb_le|done]|destruct a; [done|by apply Z.leb_le]]. }
  assert (Hside : forall w, w ∈ mmap_list mm -> vm_start w < vm_end w) by (rewrite Heq; exact Hel).
  split_and!.
  - split; cbn.
    + apply split_sorted; [by rewrite <- Heq|done|done| |].
      * intros w Hw. assert (Hwm : w ∈ mmap_list mm) by (rewrite Heq; apply elem_of_app; by left).
        specialize (Hb w Hw). specialize (Hd w Hwm). specialize (Hside w Hwm). destruct Hd; lia.
      * intros w Hw. assert (Hwm : w ∈ mmap_list mm) by (rewrite Heq; apply elem_of_app; by right).
        specialize (Ha w Hw). specialize (Hd w Hwm). specialize (Hside w Hwm). destruct Hd; lia.
    + intros w Hw. specialize (Hc w Hw). rewrite Heq in Hc. rewrite elem_of_app, elem_of_cons.
      apply elem_of_app in Hc. tauto.
    + rewrite Hn, Heq, !length_app. cbn. lia.
  - intros w. cbn. rewrite Heq, !elem_of_app, elem_of_cons. tauto.
  - done.
Qed.

(** Inserting an area into a well-formed list either puts it in its place,
    so that the list is still sorted and disjoint and holds the old areas and
    the new one, or, exactly when it overlaps an area of the list, panics. *)
Theorem insert_vma_struct_inserts v mm :
  mm_ok mm -> 0 <= vm_start v < vm_end v -> vm_end v <= USERTOP -> map_count mm + 1 < 2 ^ 31 ->
  (disjoint_area mm v /\ exists mm', insert_vma_struct v mm = Done (tt, mm') /\ inserted mm v mm') \/
  (~ disjoint_area mm v /\ insert_vma_struct v mm = Panicked).
Proof. apply insert_run. Qed.

(** ** Mapping *)
Lemma page_bounds addr len :
  0 <= addr -> 0 <= len -> addr + len < 2 ^ 63 ->
  let start := ROUNDDOWN addr PGSIZE in
  let end_ := ROUNDUP (u64 (addr + len)) PGSIZE in
  0 <= start <= addr /\ addr < start + 4096 /\ start mod 4096 = 0 /\
  addr + len <= end_ < addr + len + 4096 /\ end_ mod 4096 = 0.
Proof.
  intros Ha Hl Hb. cbv zeta. unfold ROUNDUP, ROUNDDOWN. change PGSIZE with 4096.
  rewrite !u64_small by (rewrite ?u64_small; lia).
  pose proof (Z.mod_pos_bound addr 4096 ltac:(lia)). pose proof (Z.div_mod addr 4096 ltac:(lia)).
  set (t := addr + len + 4096 - 1). pose proof (Z.mod_pos_bound t 4096 ltac:(lia)).
  pose proof (Z.div_mod t 4096 ltac:(lia)).
  split_and!; try lia.
  - replace (addr - addr mod 4096) with (addr / 4096 * 4096) by lia. apply Z.mod_mul. lia.
  - replace (t - t mod 4096) with (t / 4096 * 4096) by lia. apply Z.mod_mul. lia.
Qed.

Lemma mm_map_run addr len flags mm :
  mm_ok mm -> 0 <= addr -> 0 <= len -> addr + len < 2 ^ 63 -> map_count mm + 1 < 2 ^ 31 ->
  let start := ROUNDDOWN addr PGSIZE in
  let end_ := ROUNDUP (u64 (addr + len)) PGSIZE in
  let v := mkVma start end_ flags in
  if negb (USER_ACCESS start end_) then mm_map true addr len flags mm = Done ((- E_INVAL, None), mm)
  else if decide (area_of mm start = None) then
    (disjoint_area mm v /\ exists mm', mm_map true addr len flags mm = Done ((0, Some v), mm') /\
                                       inserted mm v mm') \/
    (~ disjoint_area mm v /\ mm_map true addr len flags mm = Panicked)
  else exists mm', mm_map true addr len flags mm = Done ((- E_INVAL, None), mm') /\ mm_ok mm' /\
                   mmap_list mm' = mmap_list mm.
Proof.
  intros Hok Ha Hl Hb Hcnt. cbv zeta. destruct (page_bounds addr len Ha Hl Hb) as (Hs & _ & _ & He & _).
  unfold mm_map. cbv zeta. set (start := ROUNDDOWN addr PGSIZE) in *.
  set (end_ := ROUNDUP (u64 (addr + len)) PGSIZE) in *.
  destruct (USER_ACCESS start end_) eqn:Hua; cbn [negb]; [|done].
  unfold USER_ACCESS in Hua. apply andb_true_iff in Hua as [Hua Hu3]. apply andb_true_iff in Hua as [Hu1 Hu2].
  apply Z.leb_le in Hu1, Hu3. apply Z.ltb_lt in Hu2.
  destruct (find_vma_run start mm Hok) as (m1 & Hf & Hok1 & Hl1 & Hn1).
  destruct (decide (area_of mm start = None)) as [Hnone|Hsome].
  - rewrite Hnone in Hf. assert (Hd : forall w, disjoint_area m1 w <-> disjoint_area mm w)
      by (intros w; unfold disjoint_area; by rewrite Hl1).
    destruct (insert_run (mkVma start end_ flags) m1 Hok1) as [[Hdj (m2 & Hi & Hok2 & Hin & Hc2)]|[Hdj Hi]];
      [cbn; lia|cbn; lia|lia| |].
    + left. split; [by apply Hd|]. exists m2. split; [mstep Hf; cbn [vma_create]; by mstep Hi|].
      split; [done|]. split; [|lia]. intros w. rewrite Hin, Hl1. done.
    + right. split; [by rewrite <- Hd|]. mstep Hf. cbn [vma_create]. unfold mbind, ST_bind. by rewrite Hi.
  - destruct (area_of mm start) as [w|] eqn:Hw; [|done].
    pose proof (search_vma_spec (mmap_list mm) start) as Hsp. unfold area_of in Hw. rewrite Hw in Hsp.
    destruct Hsp as [_ Hcw]. apply contains_spec in Hcw.
    exists m1. split; [|done]. mstep Hf. rewrite (proj2 (Z.ltb_lt _ _)) by lia. done.
Qed.

(** A range no area overlaps is mapped, unless it is outside user space or there is no room. *)
Lemma mm_map_disjoint ok addr len flags mm :
  mm_ok mm -> 0 <= addr -> 0 <= len -> addr + len < 2 ^ 63 -> map_count mm + 1 < 2 ^ 31 ->
  let start := ROUNDDOWN addr PGSIZE in
  let end_ := ROUNDUP (u64 (addr + len)) PGSIZE in
  let v := mkVma start end_ flags in
  disjoint_area mm v ->
  exists ret o mm', mm_map ok addr len flags mm = Done ((ret, o), mm') /\
    (ret = 0 /\ USER_ACCESS start end_ = true /\ inserted mm v mm' \/
     (ret = - E_INVAL /\ USER_ACCESS start end_ = false \/ ret = - E_NO_MEM) /\ mm_ok mm' /\ mmap_list mm' = mmap_list mm).
Proof.
  intros Hok Ha Hl Hb Hcnt. pose proof (mm_map_run addr len flags mm Hok Ha Hl Hb Hcnt) as Hrun.
  cbv zeta in *. set (start := ROUNDDOWN addr PGSIZE) in *. set (end_ := ROUNDUP (u64 (addr + len)) PGSIZE) in *. intros Hd.
  destruct (USER_ACCESS start end_) eqn:Hua; cbn [negb] in Hrun.
  2: { exists (- E_INVAL), None, mm. split; [|right; auto]. unfold mm_map. cbv zeta. fold start end_. by rewrite Hua. }
  assert (Hlt : start < end_).
  { unfold USER_ACCESS in Hua. apply andb_true_iff in Hua as [Hua _]. apply andb_true_iff in Hua as [_ Hua]. by apply Z.ltb_lt. }
  assert (Hnone : area_of mm start = None).
  { pose proof (search_vma_spec (mmap_list mm) start) as Hsp. unfold area_of. destruct (search_vma (mmap_list mm) start) as [w|]; [|done].
    destruct Hsp as [Hin Hcw]. apply contains_spec in Hcw. destruct (Hd w Hin) as [Hx|Hx]; cbn in Hx; lia. }
  rewrite decide_True in Hrun by done. destruct Hrun as [(_ & mm' & Hr & Hi)|[Hn _]]; [|done]. destruct ok.
  - exists 0, (Some (mkVma start end_ flags)), mm'. split; [done|by left].
  - destruct (find_vma_run start mm Hok) as (m1 & Hf & Hok1 & Hl1 & _). rewrite Hnone in Hf.
    exists (- E_NO_MEM), None, m1. split; [|by right; auto]. unfold mm_map. cbv zeta. fold start end_. rewrite Hua. cbn [negb]. by mstep Hf.
Qed.

(** Mapping a range refuses what is outside user space or whose first page
    is mapped with [-E_INVAL]; a range whose pages are free becomes an area of
    exactly these pages; but a range whose first page is free and that runs into
    a later area makes the kernel panic. *)
Theorem mm_map_maps addr len flags mm :
  mm_ok mm -> 0 <= addr -> 0 <= len -> addr + len < 2 ^ 63 -> map_count mm + 1 < 2 ^ 31 ->
  let start := ROUNDDOWN addr PGSIZE in
  let end_ := ROUNDUP (u64 (addr + len)) PGSIZE in
  let v := mkVma start end_ flags in
  if negb (USER_ACCESS start end_) then mm_map true addr len flags mm = Done ((- E_INVAL, None), mm)
  else if decide (area_of mm start = None) then
    (disjoint_area mm v /\ exists mm', mm_map true addr len flags mm = Done ((0, Some v), mm') /\
                                       inserted mm v mm') \/
    (~ disjoint_area mm v /\ mm_map true addr len flags mm = Panicked)
  else exists mm', mm_map true addr len flags mm = Done ((- E_INVAL, None), mm') /\ mm_ok mm' /\
                   mmap_list mm' = mmap_list mm.
Proof. apply mm_map_run. Qed.

(** ** Checking user memory *)

(** Byte [a] of a range that starts at [addr] may be accessed: it lies in an
    area with the permission, and a write to a stack area does not start in
    its first page. *)
Definition accessible (mm : mm_struct) (addr : Z) (write : bool) (a : Z) : Prop :=
  exists v, v ∈ mmap_list mm /\ contains v a = true /\
    Z.land (vm_flags v) (if write then VM_WRITE else VM_READ) <> 0 /\
    (write = true -> Z.land (vm_flags v) VM_STACK <> 0 -> vm_start v + PGSIZE <= Z.max addr (vm_start v)).

(** The number of areas that end after [start]. *)
Definition areas_after (start : Z) (l : list vma_struct) : nat :=
  length (filter (fun v => start < vm_end v) l).

Lemma areas_after_step (v : vma_struct) l start :
  v ∈ l -> start < vm_end v -> (areas_after (vm_end v) l < areas_after start l)%nat.
Proof.
  unfold areas_after. intros Hv Hlt. induction l as [|w l IH]; [by apply elem_of_nil in Hv|].
  assert (Hmono : (length (filter (fun u => (vm_end v < vm_end u)%Z) l)
                   <= length (filter (fun u => (start < vm_end u)%Z) l))%nat).
  { clear -Hlt. induction l as [|u l IH]; [done|]. rewrite !filter_cons.
    repeat case_decide; cbn; lia. }
  rewrite !filter_cons. apply elem_of_cons in Hv as [<-|Hv].
  - rewrite decide_False, decide_True by lia. cbn. lia.
  - specialize (IH Hv). repeat case_decide; cbn; lia.
Qed.

(** What one turn decides about the area [v] that holds [start]. *)
Definition turn_ok (v : vma_struct) (start : Z) (write : bool) : bool :=
  negb (Z.land (vm_flags v) (if write then VM_WRITE else VM_READ) =? 0) &&
  negb (write && negb (Z.land (vm_flags v) VM_STACK =? 0) && (start <? u64 (vm_start v + PGSIZE))).

Lemma turn_accessible mm addr v start write a :
  mm_ok mm -> v ∈ mmap_list mm -> contains v start = true -> contains v a = true ->
  (start = addr \/ exists w, w ∈ mmap_list mm /\ vm_end w = start) -> addr <= start ->
  turn_ok v start write = true <-> accessible mm addr write a.
Proof.
  intros Hok Hv Hcs Hca Hst Hle. pose proof (areas_elem _ _ _ (mm_areas _ Hok) Hv) as Hr.
  pose proof (proj1 (contains_spec _ _) Hcs) as Hs.
  assert (Hmax : Z.max addr (vm_start v) = start).
  { destruct Hst as [->|(w & Hw & He)]; [lia|].
    pose proof (areas_elem _ _ _ (mm_areas _ Hok) Hw).
    destruct (areas_apart _ _ v w (mm_areas _ Hok) Hv Hw) as [->|[?|?]]; lia. }
  assert (Hu : u64 (vm_start v + PGSIZE) = vm_start v + PGSIZE)
    by (apply u64_small; unfold USERTOP, PGSIZE in *; lia).
  unfold turn_ok. rewrite Hu, andb_true_iff, !negb_true_iff, Z.eqb_neq. split.
  - intros [Hp Hstk]. exists v. split; [done|]. split; [done|]. split; [done|]. intros -> Hsv.
    rewrite (proj2 (Z.eqb_neq _ _) Hsv) in Hstk. apply Z.ltb_ge in Hstk. lia.
  - intros (w & Hw & Hcw & Hp & Hstk).
    assert (w = v) as -> by (eapply contains_unique; [apply (mm_areas _ Hok)|done|done|exact Hcw|done]).
    split; [done|]. destruct write; [|done]. destruct (Z.eqb_spec (Z.land (vm_flags v) VM_STACK) 0); [done|].
    cbn. specialize (Hstk eq_refl ltac:(done)). apply Z.ltb_ge. lia.
Qed.

Lemma check_loop_spec addr end_ write : forall fuel start mm,
  mm_ok mm -> addr <= start -> (start = addr \/ exists w, w ∈ mmap_list mm /\ vm_end w = start) ->
  (areas_after start (mmap_list mm) < fuel)%nat ->
  exists b mm', check_loop fuel start end_ write mm = Done (b, mm') /\ mm_ok mm' /\
    mmap_list mm' = mmap_list mm /\
    (b = true <-> forall a, start <= a < end_ -> accessible mm addr write a).
Proof.
  induction fuel as [|fuel IH]; intros start mm Hok Hle Hst Hfuel; [lia|]. cbn [check_loop].
  destruct (Z.ltb_spec start end_) as [Hlt|Hge].
  2:{ exists true, mm. split_and!; try done. split; [intros _ a Ha; lia|done]. }
  destruct (find_vma_run start mm Hok) as (m1 & Hf & Hok1 & Hl1 & _).
  mstep Hf. pose proof (search_vma_spec (mmap_list mm) start) as Hsp. unfold area_of.
  destruct (search_vma (mmap_list mm) start) as [v|].
  2:{ exists false, m1. split_and!; try done. split; [done|]. intros Hall.
      destruct (Hall start ltac:(lia)) as (w & Hw & Hcw & _). by rewrite Hsp in Hcw. }
  destruct Hsp as [Hv Hcv]. pose proof (proj1 (contains_spec _ _) Hcv) as Hrv.
  rewrite (proj2 (Z.ltb_ge start (vm_start v))) by lia.
  pose proof (fun a Ha => turn_accessible mm addr v start write a Hok Hv Hcv Ha Hst Hle) as Hturn.
  assert (Hfalse : turn_ok v start write = false ->
            ~ forall a, start <= a < end_ -> accessible mm addr write a).
  { intros Hto Hall. specialize (Hall start ltac:(lia)). apply (Hturn start Hcv) in Hall. congruence. }
  unfold turn_ok in Hturn, Hfalse.
  destruct (Z.land (vm_flags v) (if write then VM_WRITE else VM_READ) =? 0); cbn [negb andb] in *.
  { exists false, m1. split_and!; try done. split; [done|]. intros Hall. by destruct (Hfalse eq_refl). }
  destruct (write && negb (Z.land (vm_flags v) VM_STACK =? 0) && (start <? u64 (vm_start v + PGSIZE)));
    cbn [negb] in *.
  { exists false, m1. split_and!; try done. split; [done|]. intros Hall. by destruct (Hfalse eq_refl). }
  destruct (IH (vm_end v) m1 Hok1) as (b & m2 & Hrun & Hok2 & Hl2 & Hb).
  { lia. }
  { right. exists v. by rewrite Hl1. }
  { rewrite Hl1. pose proof (areas_after_step v (mmap_list mm) start Hv ltac:(lia)). lia. }
  exists b, m2. split_and!; try done; [congruence|]. rewrite Hb. unfold accessible. rewrite Hl1. split.
  - intros Hall a Ha. destruct (decide (a < vm_end v)); [|apply Hall; lia].
    apply Hturn; [|done]. apply contains_spec. lia.
  - intros Hall a Ha. apply Hall. lia.
Qed.

Lemma user_mem_check_run addr len write mm :
  mm_ok mm -> 0 <= addr < 2 ^ 64 -> 0 <= len < 2 ^ 64 ->
  exists b mm', user_mem_check addr len write mm = Done (b, mm') /\ mm_ok mm' /\
    mmap_list mm' = mmap_list mm /\
    (b = true <-> USERBASE <= addr /\ 0 < len /\ addr + len <= USERTOP /\
                  forall a, addr <= a < addr + len -> accessible mm addr write a).
Proof.
  intros Hok Ha Hl. unfold user_mem_check.
  destruct (decide (addr + len < 2 ^ 64)) as [Hb|Hb].
  2: { assert (Hw : u64 (addr + len) = addr + len - 2 ^ 64).
       { symmetry. apply (Z.mod_unique_pos _ _ 1); lia. }
       assert (Hua : USER_ACCESS addr (u64 (addr + len)) = false).
       { unfold USER_ACCESS. rewrite Hw, (proj2 (Z.ltb_ge addr _)) by lia. by rewrite andb_false_r. }
       rewrite Hua. exists false, mm. split_and!; try done. split; [done|]. unfold USERTOP. lia. }
  rewrite u64_small by lia.
  destruct (USER_ACCESS addr (addr + len)) eqn:Hu; cbn [negb].
  - unfold USER_ACCESS in Hu. apply andb_true_iff in Hu as [Hu Hu3]. apply andb_true_iff in Hu as [Hu1 Hu2].
    apply Z.leb_le in Hu1, Hu3. apply Z.ltb_lt in Hu2.
    mstep (eq_refl : get mmap_list mm = Done (mmap_list mm, mm)).
    destruct (check_loop_spec addr (addr + len) write (S (length (mmap_list mm))) addr mm Hok) as (b & m' & Hrun & Hr);
      [lia|by left|unfold areas_after; pose proof (length_filter (fun v => addr < vm_end v) (mmap_list mm)); lia|].
    exists b, m'. split; [done|]. destruct Hr as (Hok' & Hl' & Hb'). split_and!; try done.
    rewrite Hb'. split; [intros Hall; split_and!; try done; lia|tauto].
  - exists false, mm. split_and!; try done. split; [done|]. intros (H1 & H2 & H3 & _). exfalso.
    assert (Ht : USER_ACCESS addr (addr + len) = true); [|congruence].
    unfold USER_ACCESS. rewrite !andb_true_iff, !Z.leb_le, Z.ltb_lt. lia.
Qed.

(** C32 A check of user memory always ends, and accepts a range exactly when it
    is not empty, lies in user space, and each of its bytes lies in an area with
    the permission asked for (a write must also leave the first page of a stack
    area alone). *)
Theorem user_mem_check_exact addr len write mm :
  mm_ok mm -> 0 <= addr < 2 ^ 64 -> 0 <= len < 2 ^ 64 ->
  exists b mm', user_mem_check addr len write mm = Done (b, mm') /\ mm_ok mm' /\
    mmap_list mm' = mmap_list mm /\
    (b = true <-> USERBASE <= addr /\ 0 < len /\ addr + len <= USERTOP /\
                  forall a, addr <= a < addr + len -> accessible mm addr write a).
Proof. apply user_mem_check_run. Qed.

(** Nothing in a check touches the semaphore. *)
Lemma find_vma_sem a mm r mm' : find_vma a mm = Done (r, mm') -> mm_sem mm' = mm_sem mm.
Proof.
  unfold find_vma, get, modify, mbind, ST_bind, mret, ST_ret. cbn.
  destruct (match mmap_cache mm with
            | Some v => if contains v a then Some v else search_vma (mmap_list mm) a
            | None => search_vma (mmap_list mm) a
            end); intros [= <- <-]; done.
Qed.

Lemma check_loop_sem end_ write fuel : forall start mm b mm',
  check_loop fuel start end_ write mm = Done (b, mm') -> mm_sem mm' = mm_sem mm.
Proof.
  induction fuel as [|fuel IH]; intros start mm b mm'; cbn [check_loop];
    destruct (start <? end_); try (intros [= <- <-]; done); try done.
  intros Hr. apply bind_Done_inv in Hr as (o & m1 & Hf & Hr). apply find_vma_sem in Hf. rewrite <- Hf.
  destruct o as [v|]; [|by injection Hr as <- <-].
  destruct (start <? vm_start v); [by injection Hr as <- <-|].
  destruct (Z.land _ _ =? 0); [by injection Hr as <- <-|].
  destruct (write && _ && _); [by injection Hr as <- <-|]. by eapply IH.
Qed.

Lemma user_mem_check_sem addr len write mm b mm' :
  user_mem_check addr len write mm = Done (b, mm') -> mm_sem mm' = mm_sem mm.
Proof.
  unfold user_mem_check. destruct (negb _); [intros [= <- <-]; done|].
  intros Hr. apply bind_Done_inv in Hr as (l & m1 & [= <- <-] & Hr). by eapply check_loop_sem.
Qed.

(** ** Copying strings from user memory *)
Lemma strnlen_spec m k : forall a,
  let n := strnlen m a k in
  0 <= n <= Z.of_nat k /\ (forall i, 0 <= i < n -> m (a + i) <> 0) /\ (n < Z.of_nat k -> m (a + n) = 0).
Proof.
  induction k as [|k IH]; intros a; cbn -[Z.of_nat Z.add].
  { split; [lia|]. split; [lia|lia]. }
  destruct (Z.eqb_spec (m a) 0) as [Hz|Hnz].
  - split; [lia|]. split; [lia|]. intros _. by rewrite Z.add_0_r.
  - destruct (IH (a + 1)) as (H1 & H2 & H3). split; [lia|]. split.
    + intros i Hi. destruct (decide (i = 0)) as [->|]; [by rewrite Z.add_0_r|].
      replace (a + i) with (a + 1 + (i - 1)) by lia. apply H2. lia.
    + intros Hlt. replace (a + (1 + strnlen m (a + 1) k)) with (a + 1 + strnlen m (a + 1) k) by lia.
      apply H3. lia.
Qed.

(** The string at [src] has [n] characters, can be read, and was copied. *)
Definition string_copied (mm : mm_struct) (user : mem) (src n : Z) (dst : mem) (d : Z) (dst' : mem) : Prop :=
  (forall i, 0 <= i < n -> user (src + i) <> 0) /\ user (src + n) = 0 /\
  (forall i, 0 <= i <= n -> exists v, v ∈ mmap_list mm /\ contains v (src + i) = true /\
     Z.land (vm_flags v) VM_READ <> 0) /\
  forall a, dst' a = copy dst d user src (n + 1) a.

Lemma accessible_read mm addr a : accessible mm addr false a ->
  exists v, v ∈ mmap_list mm /\ contains v a = true /\ Z.land (vm_flags v) VM_READ <> 0.
Proof. intros (v & H1 & H2 & H3 & _). by exists v. Qed.

Lemma string_extend mm user src part n dst d dst' :
  0 <= part -> 0 <= n ->
  (forall i, 0 <= i < part -> user (src + i) <> 0) ->
  (forall i, 0 <= i < part -> exists v, v ∈ mmap_list mm /\ contains v (src + i) = true /\
     Z.land (vm_flags v) VM_READ <> 0) ->
  string_copied mm user (src + part) n (copy dst d user src part) (d + part) dst' ->
  string_copied mm user src (part + n) dst d dst'.
Proof.
  intros Hp Hn Hnz Hrd (H1 & H2 & H3 & H4). split_and!.
  - intros i Hi. destruct (decide (i < part)); [apply Hnz; lia|].
    replace (src + i) with (src + part + (i - part)) by lia. apply H1. lia.
  - by rewrite Z.add_assoc.
  - intros i Hi. destruct (decide (i < part)); [apply Hrd; lia|].
    replace (src + i) with (src + part + (i - part)) by lia. apply H3. lia.
  - intros a. rewrite H4. destruct (decide (d + part <= a < d + part + (n + 1))).
    + rewrite !copy_in by lia. f_equal. lia.
    + rewrite copy_out by lia. destruct (decide (d <= a < d + part)); [by rewrite !copy_in by lia|].
      by rewrite !copy_out by lia.
Qed.

Lemma accessible_any mm addr addr' a : accessible mm addr false a -> accessible mm addr' false a.
Proof. intros (v & H1 & H2 & H3 & _). by exists v. Qed.

Lemma accessible_list mm mm' addr a :
  mmap_list mm' = mmap_list mm -> accessible mm addr false a -> accessible mm' addr false a.
Proof. intros Hl. unfold accessible. by rewrite Hl. Qed.

(** The [n] bytes at [src] and the zero byte after them are user memory that can be
    read: a string of fewer than [maxn] characters ends there. *)
Definition good_string (mm : mm_struct) (user : mem) (src maxn n : Z) : Prop :=
  0 <= n < maxn /\ user (src + n) = 0 /\ USERBASE <= src /\ src + n < USERTOP /\
  forall a, src <= a <= src + n -> accessible mm src false a.

(** What a copy of at most [maxn] bytes from [src] owes its caller: it says no to no
    good string. *)
Definition copy_result (mm : mm_struct) (user : mem) (src maxn : Z) (dst : mem) (d : Z)
    (b : bool) (dst' : mem) : Prop :=
  (b = true -> exists n, 0 <= n < maxn /\ string_copied mm user src n dst d dst') /\
  (b = false -> forall n, ~ good_string mm user src maxn n).

(** Areas are made of whole pages. *)
Definition whole_pages (mm : mm_struct) : Prop :=
  Forall (fun v => vm_start v mod PGSIZE = 0 /\ vm_end v mod PGSIZE = 0) (mmap_list mm).

(** What can be read of a page can be read to its end. *)
Lemma accessible_page mm src p a : whole_pages mm ->
  (src + p) mod PGSIZE = 0 -> 0 < p <= PGSIZE -> accessible mm src false src ->
  src <= a < src + p -> accessible mm src false a.
Proof.
  intros Hw Hal Hp (v & Hv & Hc & Hf & _) Ha. exists v. split; [done|]. split; [|split; [done|by intros [=]]].
  unfold whole_pages in Hw. rewrite Forall_forall in Hw. destruct (Hw v Hv) as [_ He].
  unfold contains in *. apply andb_true_iff in Hc as [H1%Z.leb_le H2%Z.ltb_lt]. unfold PGSIZE in *.
  apply andb_true_iff. split; [apply Z.leb_le; lia|apply Z.ltb_lt].
  Z.to_euclidean_division_equations. lia.
Qed.

Lemma page_below_top src p : (src + p) mod PGSIZE = 0 -> 0 < p <= PGSIZE -> src < USERTOP -> src + p <= USERTOP.
Proof. unfold PGSIZE, USERTOP. intros. Z.to_euclidean_division_equations. lia. Qed.

(** [mm_map] makes areas of whole pages. *)
Lemma mm_map_whole_pages addr len flags mm r mm' :
  mm_ok mm -> 0 <= addr -> 0 <= len -> addr + len < 2 ^ 63 -> map_count mm + 1 < 2 ^ 31 ->
  whole_pages mm -> mm_map true addr len flags mm = Done (r, mm') -> whole_pages mm'.
Proof.
  intros Hok Ha Hl Hb Hc Hw Hr. pose proof (mm_map_run addr len flags mm Hok Ha Hl Hb Hc) as Hrun. cbv zeta in Hrun.
  destruct (page_bounds addr len Ha Hl Hb) as (_ & _ & Hs & _ & He). change 4096 with PGSIZE in Hs, He.
  unfold whole_pages in *. rewrite Forall_forall in Hw |- *.
  destruct (negb _); [rewrite Hr in Hrun; injection Hrun as _ <-; done|].
  destruct (decide _).
  - destruct Hrun as [(_ & m1 & Hr1 & (_ & Hin & _))|[_ Hp]]; [|by rewrite Hr in Hp].
    rewrite Hr in Hr1. injection Hr1 as _ <-. intros v [->|Hv]%Hin; [done|by apply Hw].
  - destruct Hrun as (m1 & Hr1 & _ & Hl1). rewrite Hr in Hr1. injection Hr1 as _ <-. by rewrite Hl1.
Qed.

Lemma first_part src : 0 <= src < 2 ^ 64 ->
  let part := u64 (ROUNDDOWN (u64 (src + PGSIZE)) PGSIZE - src) in
  0 < part <= 4096 /\ (src + part) mod PGSIZE = 0.
Proof.
  intros Hs. cbv zeta. unfold PGSIZE, ROUNDDOWN, u64. change (2 ^ 64) with 18446744073709551616 in *. Z.to_euclidean_division_equations. lia.
Qed.

Section copy_string_spec.
  (** Any check that decides on the areas of [mm] and keeps [I]. *)
  Context {S : Type} (check : Z -> Z -> bool -> ST S bool) (I : S -> Prop) (mm : mm_struct).
  Hypothesis Hcheck : forall addr len s, I s -> 0 <= addr < 2 ^ 64 -> 0 <= len < 2 ^ 64 ->
    exists b s', check addr len false s = Done (b, s') /\ I s' /\
      (b = true <-> USERBASE <= addr /\ 0 < len /\ addr + len <= USERTOP /\
                    forall a, addr <= a < addr + len -> accessible mm addr false a).
  Hypothesis Hpages : whole_pages mm.

Lemma copy_string_loop_run fuel : forall dst d user src maxn part s,
  I s -> 0 <= src < 2 ^ 64 -> 0 < part <= 4096 -> (src + part) mod PGSIZE = 0 -> 0 <= maxn < 2 ^ 64 ->
  (1 <= fuel)%nat -> (maxn - part) / 4096 + 2 <= Z.of_nat fuel ->
  exists b dst' s', copy_string_loop check fuel dst d user src maxn part s = Done ((b, dst'), s') /\
    I s' /\ copy_result mm user src maxn dst d b dst'.
Proof.
  induction fuel as [|fuel IH]; intros dst d user src maxn part s Hok Hs Hp Hal Hm Hf1 Hf; [lia|].
  cbn [copy_string_loop]. cbv zeta.
  set (p := if maxn <? part then maxn else part).
  assert (Hpm : 0 <= p <= maxn /\ (p < maxn -> p = part)) by (unfold p; destruct (Z.ltb_spec maxn part); lia).
  destruct Hpm as [Hpm Hpp].
  destruct (Hcheck src p s Hok Hs ltac:(lia)) as (b & s1 & Hc & Hok1 & Hb1).
  mstep Hc. destruct b; cbn [negb].
  2: { exists false, dst, s1. split; [done|]. split; [done|]. split; [done|].
       intros _ n (Hn & _ & Hu1 & Hu2 & Hall).
       assert (0 < p <= part) by (unfold p; destruct (Z.ltb_spec maxn part); lia).
       pose proof (page_below_top src part Hal) as Htop. unfold PGSIZE in Htop at 1.
       enough (false = true) by done. apply Hb1. split; [done|]. split; [lia|]. split; [lia|].
       intros a Ha. apply (accessible_page mm src part a Hpages Hal); [unfold PGSIZE; lia| |lia]. apply Hall. lia. }
  destruct (proj1 Hb1 eq_refl) as (_ & Hp0 & Htop & Hacc). unfold USERTOP in Htop.
  destruct (strnlen_spec user (Z.to_nat p) src) as (Hn1 & Hn2 & Hn3).
  set (alen := strnlen user src (Z.to_nat p)) in *. rewrite Z2Nat.id in Hn1, Hn3 by lia.
  destruct (Z.ltb_spec alen p) as [Hlt|Hge].
  { eexists true, _, s1. split; [done|]. split; [done|]. split; [|done].
    intros _. exists alen. split; [lia|]. split_and!; [done|by apply Hn3| |done].
    intros i Hi. apply (accessible_read mm src), Hacc. lia. }
  destruct (Z.eqb_spec p maxn) as [He|Hne].
  { exists false, dst, s1. split; [done|]. split; [done|]. split; [done|].
    intros _ n (Hn & Hz & _). apply (Hn2 n); [lia|done]. }
  assert (p = part) as Hpe by (apply Hpp; lia). clearbody p. subst p.
  rewrite u64_small by lia.
  pose proof (Z.div_pos (maxn - part) 4096) as Hdiv.
  destruct (IH (copy dst d user src part) (d + part) user (src + part) (maxn - part) PGSIZE s1)
    as (b & dst' & s2 & Hr & Hok2 & Ht & Hfl); [done|lia|done| |lia|lia| |].
  { replace (src + part + PGSIZE) with (src + part + 1 * PGSIZE) by lia. rewrite Z.mod_add by done. done. }
  { replace (maxn - part - PGSIZE) with (maxn - part + -1 * 4096) by (unfold PGSIZE; lia).
    rewrite Z.div_add by lia. lia. }
  exists b, dst', s2. split; [done|]. split; [done|].
  split.
  - intros ->. destruct (Ht eq_refl) as (n & Hn & Hc'). exists (part + n). split; [lia|].
    apply string_extend; [lia|lia|intros; apply Hn2; lia| |exact Hc'].
    intros i Hi. apply (accessible_read mm src), Hacc. lia.
  - intros -> n (Hn & Hz & Hu1 & Hu2 & Hall). assert (~ n < part) by (intros ?; apply (Hn2 n); [lia|done]).
    apply (Hfl eq_refl (n - part)). split; [lia|]. split; [|split; [lia|split; [lia|]]].
    + by replace (src + part + (n - part)) with (src + n) by lia.
    + intros a Ha. apply (accessible_any _ src). apply Hall. lia.
Qed.

Lemma copy_string_run dst d user src maxn s : I s -> 0 <= src < 2 ^ 64 -> 0 <= maxn < 2 ^ 64 ->
  exists b dst' s', copy_string check dst d user src maxn s = Done ((b, dst'), s') /\
    I s' /\ copy_result mm user src maxn dst d b dst'.
Proof.
  intros Hok Hs Hm. destruct (first_part src Hs) as [Hp Hal].
  apply copy_string_loop_run; [done|lia|done|done|lia|lia|].
  rewrite Nat2Z.inj_add, Z2Nat.id by (apply Z.div_pos; unfold PGSIZE; lia).
  enough ((maxn - u64 (ROUNDDOWN (u64 (src + PGSIZE)) PGSIZE - src)) / 4096 <= maxn / PGSIZE) by lia.
  unfold PGSIZE at 3. apply Z.div_le_mono; lia.
Qed.
End copy_string_spec.

(** Copying a string from user memory always ends.  When it says yes, a
    string of fewer than [maxn] characters that the process may read was copied
    with its zero byte and nothing else of the destination changed; when it says
    no, there is no string of fewer than [maxn] characters with its zero byte in
    readable user memory. *)
Lemma copy_string_copies dst d user src maxn mm :
  mm_ok mm -> whole_pages mm -> 0 <= src < 2 ^ 64 -> 0 <= maxn < 2 ^ 64 ->
  exists b dst' mm', copy_string user_mem_check dst d user src maxn mm = Done ((b, dst'), mm') /\
    mm_ok mm' /\ mmap_list mm' = mmap_list mm /\ copy_result mm user src maxn dst d b dst'.
Proof.
  intros Hok Hw Hs Hm.
  destruct (copy_string_run user_mem_check (fun mm' => mm_ok mm' /\ mmap_list mm' = mmap_list mm) mm) with (dst := dst) (d := d) (user := user) (src := src) (maxn := maxn) (s := mm)
    as (b & dst' & mm' & Hr & [Hok' Hl'] & Hc); try done; [|by exists b, dst', mm'].
  intros addr len m1 [Hok1 Hl1] Ha Hl. destruct (user_mem_check_run addr len false m1 Hok1 Ha Hl) as (b & m2 & Hr & Hok2 & Hl2 & Hb).
  exists b, m2. split; [done|]. split; [split; [done|congruence]|]. rewrite Hb. unfold accessible. by rewrite Hl1.
Qed.

(** ** The self-test and the witnesses *)
Definition empty_mm : mm_struct := mkMm [] None 0 0 1 0.
Example check_vma_struct_passes : result (check_vma_struct empty_mm) = Some tt.
Proof. vm_compute. reflexivity. Qed.

(** A process with its program, its data and its stack. *)
Definition sample_vmas : list vma_struct :=
  [mkVma 0x800000 0x803000 5; mkVma 0x803000 0x805000 3; mkVma 0x7ff00000 0x80000000 11].
Definition sample_mm : mm_struct := mkMm sample_vmas None 3 0 1 0.
Lemma sample_mm_ok : mm_ok sample_mm.
Proof. split; [|done|done]. cbn. unfold USERTOP. lia. Qed.

Lemma insert_vma_struct_inserts_witness :
  result (insert_vma_struct (mkVma 0x805000 0x806000 3) sample_mm) = Some tt /\
  ((disjoint_area sample_mm (mkVma 0x805000 0x806000 3) /\
    exists mm', insert_vma_struct (mkVma 0x805000 0x806000 3) sample_mm = Done (tt, mm') /\
                inserted sample_mm (mkVma 0x805000 0x806000 3) mm') \/
   (~ disjoint_area sample_mm (mkVma 0x805000 0x806000 3) /\
    insert_vma_struct (mkVma 0x805000 0x806000 3) sample_mm = Panicked)).
Proof.
  split; [done|].
  apply (insert_vma_struct_inserts (mkVma 0x805000 0x806000 3) sample_mm sample_mm_ok).
  - cbn. lia.
  - unfold USERTOP. cbn. lia.
  - cbn. lia.
Defined.

(** A range below the program that runs into it: the code of the program is
    there, and the kernel stops. *)
Lemma mm_map_maps_witness :
  let v := mkVma 0x7ff000 0x801000 3 in
  mm_map true 0x7ff010 0x1000 3 sample_mm = Panicked /\
  ((disjoint_area sample_mm v /\
    exists mm', mm_map true 0x7ff010 0x1000 3 sample_mm = Done ((0, Some v), mm') /\
                inserted sample_mm v mm') \/
   (~ disjoint_area sample_mm v /\ mm_map true 0x7ff010 0x1000 3 sample_mm = Panicked)).
Proof.
  split; [vm_compute; reflexivity|].
  exact (mm_map_maps 0x7ff010 0x1000 3 sample_mm sample_mm_ok ltac:(lia) ltac:(lia) ltac:(lia) ltac:(cbn; lia)).
Defined.

Lemma user_mem_check_exact_witness :
  result (user_mem_check 0x802ff0 0x20 false sample_mm) = Some true /\
  exists b mm', user_mem_check 0x802ff0 0x20 false sample_mm = Done (b, mm') /\ mm_ok mm' /\
    mmap_list mm' = mmap_list sample_mm /\
    (b = true <-> USERBASE <= 0x802ff0 /\ 0 < 0x20 /\ 0x802ff0 + 0x20 <= USERTOP /\
                  forall a, 0x802ff0 <= a < 0x802ff0 + 0x20 -> accessible sample_mm 0x802ff0 false a).
Proof.
  split; [vm_compute; reflexivity|].
  apply (user_mem_check_exact 0x802ff0 0x20 false sample_mm sample_mm_ok); lia.
Defined.

(** "ab" across two pages. *)
Definition sample_string : mem := fun a => if decide (a = 0x802fff) then 97 else if decide (a = 0x803000) then 98 else 0.
Lemma copy_string_copies_witness :
  (result (copy_string user_mem_check (fun _ => 0) 64 sample_string 0x802fff 10 sample_mm) ≫= fun r => Some (fst r)) = Some true /\
  exists b dst' mm', copy_string user_mem_check (fun _ => 0) 64 sample_string 0x802fff 10 sample_mm = Done ((b, dst'), mm') /\
    mm_ok mm' /\ mmap_list mm' = mmap_list sample_mm /\
    copy_result sample_mm sample_string 0x802fff 10 (fun _ => 0) 64 b dst'.
Proof.
  split; [vm_compute; reflexivity|].
  apply (copy_string_copies (fun _ => 0) 64 sample_string 0x802fff 10 sample_mm sample_mm_ok); [repeat constructor|lia|lia].
Defined.
