(* ===== verification/Sysfile.v ===== *)
(** * The file system calls (kern/fs/sysfile.c)

    What stands between a process and its files: paths and buffers are copied
    between the memory of the process and the kernel's, with the areas of the
    process checked and its [mm] locked meanwhile.  [kmalloc] is an argument of
    each call: whether it succeeds and what the memory it gives holds. *)
From S2P Require Import Prelude Libs Mem Disk SfsDir Inode Vfs VfsSpec File FileSpec Vmm VmmSpec.

Definition IOBUF_SIZE : Z := 4096.

(** The files and directories of the process, its memory areas (a kernel
    thread has none), the memory, and the pid. *)
Record sys (W : Type) := mkSys { vfs_of : vfs W; cur_mm : option mm_struct; ram : mem; cur_pid : Z }.
Arguments mkSys {W} _ _ _ _.
Arguments vfs_of {W} _.
Arguments cur_mm {W} _.
Arguments ram {W} _ _.
Arguments cur_pid {W} _.

Section sysfile.
  Context {W : Type} `{Inodes W}.
  Implicit Types s : sys W.

Definition set_vfs v s : sys W := mkSys v (cur_mm s) (ram s) (cur_pid s).
Definition set_mm m s : sys W := mkSys (vfs_of s) m (ram s) (cur_pid s).
Definition set_ram r s : sys W := mkSys (vfs_of s) (cur_mm s) r (cur_pid s).

Definition on_vfs {A} (m : ST (vfs W) A) : ST (sys W) A :=
  fun s => match m (vfs_of s) with
           | Done (a, v) => Done (a, set_vfs v s)
           | Panicked => Panicked
           | NoFuel => NoFuel
           end.

Definition set_mm_sem (v owner : Z) (mm : mm_struct) : mm_struct :=
  mkMm (mmap_list mm) (mmap_cache mm) (map_count mm) (mm_count mm) v owner.

(** A [down] on 0 would sleep for ever. *)
Definition lock_mm : ST (sys W) unit :=
  fun s => match cur_mm s with
           | None => Done (tt, s)
           | Some mm => if 0 <? mm_sem mm then Done (tt, set_mm (Some (set_mm_sem (mm_sem mm - 1) (cur_pid s) mm)) s)
                        else Panicked
           end.
Definition unlock_mm : ST (sys W) unit :=
  fun s => match cur_mm s with
           | None => Done (tt, s)
           | Some mm => Done (tt, set_mm (Some (set_mm_sem (mm_sem mm + 1) 0 mm)) s)
           end.

(** [user_mem_check] on [current->mm]. *)
Definition mem_check (addr len : Z) (write : bool) : ST (sys W) bool :=
  fun s => match cur_mm s with
           | None => Done (kern_mem_check addr len, s)
           | Some mm => match user_mem_check addr len write mm with
                        | Done (b, mm') => Done (b, set_mm (Some mm') s)
                        | Panicked => Panicked
                        | NoFuel => NoFuel
                        end
           end.

(** The C string at [a], of at most [k] characters. *)
Definition read_str (m : mem) (a : Z) (k : nat) : list Z :=
  (fun i => m (a + i)) <$> seqZ 0 (strnlen m a k).

(** [buffer]: the memory [kmalloc] gives, if it does.  The code and the path. *)
Definition copy_path (buffer : option mem) (from : Z) : ST (sys W) (Z * list Z) :=
  match buffer with
  | None => mret (- E_NO_MEM, [])
  | Some buf =>
      lock_mm ;;
      m ← get ram;
      '(b, buf) ← copy_string mem_check buf 0 m from (FS_MAX_FPATH_LEN + 1);
      unlock_mm ;;
      mret (if (b : bool) then (0, read_str buf 0 (Z.to_nat (FS_MAX_FPATH_LEN + 1))) else (- E_INVAL, []))
  end.

Definition with_path (buffer : option mem) (from : Z) (op : list Z -> ST (sys W) Z) : ST (sys W) Z :=
  '(ret, path) ← copy_path buffer from;
  if negb (ret =? 0) then mret ret else op path.

Definition sysfile_open (buffer : option mem) (path open_flags : Z) : ST (sys W) Z :=
  with_path buffer path (fun path => on_vfs (file_open path open_flags)).
Definition sysfile_close (fd : Z) : ST (sys W) Z := on_vfs (file_close fd).

(** [lock_mm], a copy to or from the memory of the process, and [unlock_mm]. *)
Definition copy_out (base : Z) (buf : mem) (len : Z) : ST (sys W) bool :=
  lock_mm ;;
  user ← get ram;
  '(b, user) ← copy_to_user mem_check user base buf 0 len;
  modify (set_ram user) ;;
  unlock_mm ;;
  mret b.
Definition copy_in (buf : mem) (base len : Z) (writable : bool) : ST (sys W) (bool * mem) :=
  lock_mm ;;
  user ← get ram;
  '(b, buf) ← copy_from_user mem_check buf 0 user base len writable;
  unlock_mm ;;
  mret (b, buf).

(** The loop of [sysfile_read]: the code and the number of bytes copied; [buf]
    is the kernel's buffer. *)
Fixpoint read_loop (fuel : nat) (fd base len copied : Z) (buf : mem) : ST (sys W) (Z * Z) :=
  if len =? 0 then mret (0, copied)
  else
    match fuel with
    | O => no_fuel
    | S fuel' =>
        let alen := if len <? IOBUF_SIZE then len else IOBUF_SIZE in
        '(ret, alen, buf) ← on_vfs (file_read fd buf 0 alen);
        if alen =? 0 then mret (ret, copied)
        else
          b ← copy_out base buf alen;
          if (b : bool) then
            assert (alen <=? len) ;;
            if negb (ret =? 0) then mret (ret, u64 (copied + alen))
            else read_loop fuel' fd (u64 (base + alen)) (len - alen) (u64 (copied + alen)) buf
          else mret (if ret =? 0 then - E_INVAL else ret, copied)
    end.

(** Every turn that goes on moves a byte at least. *)
Definition sysfile_read (buffer : option mem) (fd base len : Z) : ST (sys W) Z :=
  if len =? 0 then mret 0
  else
    b ← on_vfs (file_testfd fd true false);
    if negb b then mret (- E_INVAL)
    else
      match buffer with
      | None => mret (- E_NO_MEM)
      | Some buf =>
          '(ret, copied) ← read_loop (S (Z.to_nat len)) fd base len 0 buf;
          mret (if negb (copied =? 0) then s32 copied else ret)
      end.

Fixpoint write_loop (fuel : nat) (fd base len copied : Z) (buf : mem) : ST (sys W) (Z * Z) :=
  if len =? 0 then mret (0, copied)
  else
    match fuel with
    | O => no_fuel
    | S fuel' =>
        let alen := if len <? IOBUF_SIZE then len else IOBUF_SIZE in
        '(b, buf) ← copy_in buf base alen false;
        if negb b then mret (- E_INVAL, copied)
        else
          '(ret, alen, buf) ← on_vfs (file_write fd buf 0 alen);
          if alen =? 0 then mret (ret, copied)
          else
            assert (alen <=? len) ;;
            if negb (ret =? 0) then mret (ret, u64 (copied + alen))
            else write_loop fuel' fd (u64 (base + alen)) (len - alen) (u64 (copied + alen)) buf
    end.

Definition sysfile_write (buffer : option mem) (fd base len : Z) : ST (sys W) Z :=
  if len =? 0 then mret 0
  else
    b ← on_vfs (file_testfd fd false true);
    if negb b then mret (- E_INVAL)
    else
      match buffer with
      | None => mret (- E_NO_MEM)
      | Some buf =>
          '(ret, copied) ← write_loop (S (Z.to_nat len)) fd base len 0 buf;
          mret (if negb (copied =? 0) then s32 copied else ret)
      end.

Definition sysfile_seek (fd pos whence : Z) : ST (sys W) Z := on_vfs (file_seek fd pos whence).

(** [struct stat] in memory: [junk] is what the local variable held. *)
Definition stat_bytes (junk : mem) (st : stat) : mem :=
  le_put (le_put (le_put (put32 junk 0 (st_mode st)) 8 8 (st_nlinks st)) 16 8 (st_blocks st)) 24 8 (st_size st).

Definition sysfile_fstat (junk : mem) (fd stat : Z) : ST (sys W) Z :=
  '(ret, st) ← on_vfs (file_fstat fd);
  if negb (ret =? 0) then mret ret
  else
    b ← copy_out stat (stat_bytes junk st) 32;
    mret (if (b : bool) then ret else - E_INVAL).

Definition sysfile_fsync (fd : Z) : ST (sys W) Z := on_vfs (file_fsync fd).
Definition sysfile_chdir (buffer : option mem) (path : Z) : ST (sys W) Z :=
  with_path buffer path (fun path => on_vfs (vfs_chdir path)).
Definition sysfile_link (buffer1 buffer2 : option mem) (path1 path2 : Z) : ST (sys W) Z :=
  with_path buffer1 path1 (fun p1 => with_path buffer2 path2 (fun p2 => mret (vfs_link p1 p2))).
Definition sysfile_rename (buffer1 buffer2 : option mem) (path1 path2 : Z) : ST (sys W) Z :=
  with_path buffer1 path1 (fun p1 => with_path buffer2 path2 (fun p2 => mret (vfs_rename p1 p2))).
Definition sysfile_unlink (buffer : option mem) (path : Z) : ST (sys W) Z :=
  with_path buffer path (fun path => mret (vfs_unlink path)).

(** The name goes straight to the memory of the process. *)
Definition sysfile_getcwd (buf len : Z) : ST (sys W) Z :=
  if len =? 0 then mret (- E_INVAL)
  else
    lock_mm ;;
    b ← mem_check buf len true;
    ret ← (if (b : bool) then
             m ← get ram;
             '(ret, iob) ← on_vfs (vfs_getcwd (iobuf_init m buf len 0));
             modify (set_ram (io_mem iob)) ;;
             mret ret
           else mret (- E_INVAL));
    unlock_mm ;;
    mret ret.

(** [struct dirent]: the offset, then the name. *)
Definition dirent_bytes (offset : Z) (name : mem) : mem := le_put (fun a => name (a - 8)) 0 8 offset.

Definition sysfile_getdirentry (buffer : option mem) (fd direntp : Z) : ST (sys W) Z :=
  match buffer with
  | None => mret (- E_NO_MEM)
  | Some buf =>
      '(b, buf) ← copy_in buf direntp 8 true;
      if negb b then mret (- E_INVAL)
      else
        '(ret, offset, name) ← on_vfs (file_getdirentry fd (s64 (le_get buf 0 8)) (fun a => buf (a + 8)));
        if negb (ret =? 0) then mret ret
        else
          b ← copy_out direntp (dirent_bytes offset name) 264;
          mret (if (b : bool) then ret else - E_INVAL)
  end.

Definition sysfile_dup (fd1 fd2 : Z) : ST (sys W) Z := on_vfs (file_dup fd1 fd2).
Definition sysfile_pipe (fd_store : Z) : ST (sys W) Z := mret (- E_UNIMP).
Definition sysfile_mkfifo (name open_flags : Z) : ST (sys W) Z := mret (- E_UNIMP).
End sysfile.

(** ** The file system calls, specified

    Reading into the memory of a process: unless the read of the inode itself does not
    return, it ends, changes nothing but the bytes it says it read, and only where the
    process may write. *)

Section sysfile_spec.
  Context {W : Type} `{Inodes W}.
  Implicit Types s : sys W.

(** [o] has no result, for the reason [o'] has none. *)
Definition same_failure {A B} (o : outcome A) (o' : outcome B) : Prop :=
  o = Panicked /\ o' = Panicked \/ o = NoFuel /\ o' = NoFuel.

Lemma failure_bind {A B X T} (o : outcome X) (c : ST T A) (k : A -> ST T B) t :
  same_failure (c t) o -> same_failure ((c ≫= k) t) o.
Proof. unfold mbind, ST_bind. intros [[-> ->]|[-> ->]]; [by left|by right]. Qed.

Lemma failure_after {A B X T} (o : outcome X) (c : ST T A) (k : A -> ST T B) t a t' :
  c t = Done (a, t') -> same_failure (k a t') o -> same_failure ((c ≫= k) t) o.
Proof. intros Hc. by rewrite (bind_Done _ _ _ _ _ Hc). Qed.

Lemma failure_on_vfs {A X} (o : outcome X) (m : ST (vfs W) A) s : same_failure (m (vfs_of s)) o -> same_failure (on_vfs m s) o.
Proof. unfold on_vfs. intros [[-> ->]|[-> ->]]; [by left|by right]. Qed.

Lemma failure_not_done {A X} (o : outcome X) (o' : outcome A) x : same_failure o' o -> o' <> Done x.
Proof. by intros [[-> _]|[-> _]]. Qed.

Lemma entry_busy_ok (a : Z -> file) (i : Z) f n :
  fd f = i -> status f = FD_OPENED -> fopen_count f = 1 -> node f = Some n -> entry_ok (upd a i f) i.
Proof. intros H1 H2 H3 H4. split; rewrite upd_eq; [done|]. right. by eauto. Qed.

(** Entry [i] after an operation on its inode. *)
Definition stored (i : Z) f (w' : W) (v : vfs W) : vfs W :=
  set_filesp (set_array (upd (arr v) i f) (filesp v)) (set_inodes w' v).

Lemma with_file_run {A} ext (v : vfs W) i n (op : Z -> file -> ST (vfs W) (A * file)) r g w' :
  owns ext v -> 0 <= i < NENTRY -> status (arr v i) = FD_OPENED -> node (arr v i) = Some n ->
  status g = FD_OPENED -> fopen_count g = 1 -> fd g = i -> node g = Some n ->
  op n (set_count 2 (arr v i)) v = Done ((r, set_count 2 g), set_inodes w' v) ->
  inodes_ok w' -> (forall k, opens w' k = opens (inodes v) k) ->
  with_file i (arr v i) op v = Done (r, stored i g w' v) /\ owns ext (stored i g w' v).
Proof.
  intros Ho Hi Hst Hn Hgs Hgc Hgf Hgn Hop Hok' Hop'.
  destruct (opened_entry ext v i Ho Hi Hst) as (n' & Hn' & Hc & Hfd & Hon & Hpos).
  assert (n' = n) as -> by congruence. split.
  - unfold with_file.
    assert (Hacq : fd_array_acquire (arr v i) v = Done (set_count 2 (arr v i), v)).
    { unfold fd_array_acquire. rewrite Hst, Hc. by rewrite (bind_Done _ _ _ _ _ (assert_true _ v eq_refl)). }
    mstep Hacq. cbn [node set_count]. rewrite Hn. mstep Hop.
    assert (Hrel : fd_array_release (set_count 2 g) (set_inodes w' v) = Done (g, set_inodes w' v)).
    { unfold fd_array_release.
      assert (Hs1 : status (set_count 2 g) = FD_OPENED) by done. rewrite Hs1.
      rewrite (bind_Done _ _ _ _ _ (assert_true _ (set_inodes w' v) (bool_decide_eq_true_2 _ (or_introl eq_refl)))).
      rewrite (bind_Done _ _ _ _ _ (assert_true _ (set_inodes w' v) eq_refl)).
      change (fopen_count (set_count (fopen_count (set_count 2 g) - 1) (set_count 2 g)) =? 0) with false.
      cbv iota. destruct g; cbn in *. by subst. }
    mstep Hrel. done.
  - apply (owns_put ext v (set_inodes w' v) i g n 0); try done.
    + intros k. change (sopens (set_inodes w' v) k) with (opens w' k). rewrite Hop'.
      change (opens (inodes v) k) with (sopens v k). unfold upd. case_decide; subst; lia.
    + by apply (entry_busy_ok _ _ _ n).
    + intros k. rewrite Hgs, Hgn. unfold opened_on. rewrite Hst, Hn. case_decide; lia.
Qed.

Lemma file_read_run ext (v : vfs W) i m b len n r iob w' :
  owns ext v -> 0 <= i < NENTRY -> status (arr v i) = FD_OPENED -> readable (arr v i) = true ->
  node (arr v i) = Some n ->
  vop_read n (iobuf_init m b len (pos (arr v i))) (inodes v) = Done ((r, iob), w') ->
  let v' := stored i (set_pos (s64 (pos (arr v i) + iobuf_used iob)) (arr v i)) w' v in
  file_read i m b len v = Done ((r, iobuf_used iob, io_mem iob), v') /\ owns ext v'.
Proof.
  intros Ho Hi Hst Hrd Hn Hv. destruct (opened_entry ext v i Ho Hi Hst) as (n' & Hn' & Hc & Hfd & _ & _).
  destruct (vop_read_law _ _ _ _ _ (ow_ok _ _ Ho) Hv) as (Hok' & Hr' & Hop').
  cbv zeta. set (f' := set_pos _ _).
  destruct (with_file_run ext v i n (file_io false m b len) (r, iobuf_used iob, io_mem iob) f' w') as [Hw Ho']; try done.
  - unfold file_io, on_inodes. cbv zeta. change (pos (set_count 2 (arr v i))) with (pos (arr v i)).
    erewrite bind_Done; [|rewrite Hv; reflexivity]. cbn beta iota.
    change (status (set_count 2 (arr v i))) with (status (arr v i)). by rewrite decide_True.
  - split; [|done]. unfold file_read. mstep (fd2file_run v i (ow_count _ _ Ho) (ow_table _ _ Ho)).
    rewrite decide_True by done. cbn [Z.eqb negb]. by rewrite Hrd.
Qed.

(** A read of the inode without a result is a read of the file without one. *)
Lemma file_read_fails ext (v : vfs W) i m b len n :
  owns ext v -> 0 <= i < NENTRY -> status (arr v i) = FD_OPENED -> readable (arr v i) = true -> node (arr v i) = Some n ->
  (forall x, vop_read n (iobuf_init m b len (pos (arr v i))) (inodes v) <> Done x) ->
  same_failure (file_read i m b len v) (vop_read n (iobuf_init m b len (pos (arr v i))) (inodes v)).
Proof.
  intros Ho Hi Hst Hrd Hn Hv. destruct (opened_entry ext v i Ho Hi Hst) as (n' & Hn' & Hc & _).
  unfold file_read. apply (failure_after _ _ _ v _ _ (fd2file_run v i (ow_count _ _ Ho) (ow_table _ _ Ho))).
  rewrite decide_True by done. cbn [Z.eqb negb]. rewrite Hrd. cbn [negb]. unfold with_file.
  assert (Hacq : fd_array_acquire (arr v i) v = Done (set_count 2 (arr v i), v)).
  { unfold fd_array_acquire. rewrite Hst, Hc. by rewrite (bind_Done _ _ _ _ _ (assert_true _ v eq_refl)). }
  apply (failure_after _ _ _ v _ _ Hacq). cbn [node set_count]. rewrite Hn. apply failure_bind, failure_bind.
  unfold on_inodes. change (pos (set_count 2 (arr v i))) with (pos (arr v i)).
  destruct (vop_read n _ (inodes v)) as [x| |]; [by destruct (Hv x)|by left|by right].
Qed.

(** ** The memory of the process *)
Definition mm_fine s : Prop := match cur_mm s with None => True | Some mm => mm_ok mm end.
Definition sem s : option Z := mm_sem <$> cur_mm s.
Definition mm_ready s : Prop := mm_fine s /\ forall k, sem s = Some k -> 0 < k.
Definition areas s : option (list vma_struct) := mmap_list <$> cur_mm s.

(** The process (or the kernel thread) may write byte [a]. *)
Definition may_write s (a : Z) : Prop :=
  match areas s with
  | None => KERNBASE <= a < KERNTOP
  | Some l => exists v, v ∈ l /\ contains v a = true /\ Z.land (vm_flags v) VM_WRITE <> 0
  end.

Lemma mem_check_run addr len s :
  mm_fine s -> 0 <= addr -> 0 <= len -> addr + len < 2 ^ 64 ->
  exists b s', mem_check addr len true s = Done (b, s') /\ vfs_of s' = vfs_of s /\ ram s' = ram s /\
    areas s' = areas s /\ mm_fine s' /\ sem s' = sem s /\
    (b = true -> forall a, addr <= a < addr + len -> may_write s a).
Proof.
  unfold mm_fine, sem, mem_check, may_write, areas. intros Hm Ha Hl Hb. destruct (cur_mm s) as [mm|] eqn:Hmm.
  - destruct (user_mem_check_run addr len true mm Hm ltac:(lia) ltac:(lia)) as (b & mm' & Hr & Hok' & Hl' & Hbt).
    assert (Hs : mm_sem mm' = mm_sem mm) by (eapply user_mem_check_sem; exact Hr).
    rewrite Hr. exists b, (set_mm (Some mm') s). cbn. rewrite Hl', Hs.
    do 5 (split; [done|]). split; [done|].
    intros ->. destruct (proj1 Hbt eq_refl) as (_ & _ & _ & Hall). intros a Haa.
    destruct (Hall a Haa) as (v & H1 & H2 & H3 & _). by exists v.
  - exists (kern_mem_check addr len), s. rewrite Hmm. do 5 (split; [done|]). split; [done|].
    cbn. unfold kern_mem_check, KERN_ACCESS.
    rewrite u64_small by lia. rewrite !andb_true_iff, !Z.leb_le. intros Hk a Haa. lia.
Qed.

Lemma lock_mm_run s : mm_ready s ->
  exists s', lock_mm s = Done (tt, s') /\ vfs_of s' = vfs_of s /\ ram s' = ram s /\
    areas s' = areas s /\ mm_fine s' /\ sem s' = (fun k => k - 1) <$> sem s.
Proof.
  unfold mm_ready, mm_fine, sem, lock_mm, areas. intros [Hf Hs]. destruct (cur_mm s) as [mm|] eqn:Hmm.
  - rewrite (proj2 (Z.ltb_lt _ _) (Hs _ eq_refl)). eexists. split; [reflexivity|]. cbn.
    do 3 (split; [done|]). split; [|done]. by destruct Hf.
  - exists s. by rewrite Hmm.
Qed.

Lemma unlock_mm_run s : mm_fine s ->
  exists s', unlock_mm s = Done (tt, s') /\ vfs_of s' = vfs_of s /\ ram s' = ram s /\
    areas s' = areas s /\ mm_fine s' /\ sem s' = (fun k => k + 1) <$> sem s.
Proof.
  unfold mm_fine, sem, unlock_mm, areas. intros Hf. destruct (cur_mm s) as [mm|] eqn:Hmm.
  - eexists. split; [reflexivity|]. cbn. do 3 (split; [done|]). split; [|done]. by destruct Hf.
  - exists s. by rewrite Hmm.
Qed.

(** What may have changed between [s] and [s']: the [n] bytes from [base] on,
    where the process may write. *)
Definition confined (base n : Z) s s' : Prop :=
  areas s' = areas s /\ forall a, ram s' a <> ram s a -> base <= a < base + n /\ may_write s a.

Lemma confined_refl base n s s' : areas s' = areas s -> ram s' = ram s -> confined base n s s'.
Proof. intros Ha Hr. split; [done|]. by rewrite Hr. Qed.

Lemma may_write_areas s s' a : areas s' = areas s -> may_write s' a -> may_write s a.
Proof. unfold may_write. by intros ->. Qed.

Lemma confined_trans base n1 n2 s s1 s2 :
  0 <= n1 -> 0 <= n2 -> confined base n1 s s1 -> confined (base + n1) n2 s1 s2 -> confined base (n1 + n2) s s2.
Proof.
  intros H1 H2 [Ha1 Hc1] [Ha2 Hc2]. split; [congruence|]. intros a Hne.
  destruct (decide (ram s2 a = ram s1 a)) as [He|Hn].
  - rewrite He in Hne. destruct (Hc1 a Hne). split; [lia|done].
  - destruct (Hc2 a Hn). split; [lia|]. by apply (may_write_areas s s1).
Qed.

Lemma copy_out_run base buf n s :
  mm_ready s -> 0 <= base -> 0 <= n -> base + n < 2 ^ 64 ->
  exists b s', copy_out base buf n s = Done (b, s') /\ vfs_of s' = vfs_of s /\ mm_ready s' /\
    confined base (if b : bool then n else 0) s s'.
Proof.
  intros Hm Hb Hn Hlt. unfold copy_out.
  destruct (lock_mm_run s Hm) as (s1 & Hl & Hv1 & Hr1 & Ha1 & Hf1 & Hs1). mstep Hl.
  mstep (eq_refl : get ram s1 = Done (ram s1, s1)). unfold copy_to_user.
  destruct (mem_check_run base n s1 Hf1 Hb Hn Hlt) as (b & s2 & Hc & Hv2 & Hr2 & Ha2 & Hf2 & Hs2 & Hw).
  set (r := if b then copy (ram s1) base buf 0 n else ram s1).
  destruct (unlock_mm_run (set_ram r s2) Hf2) as (s3 & Hu & Hv3 & Hr3 & Ha3 & Hf3 & Hs3).
  exists b, s3.
  assert (Hcopy : (b0 ← mem_check base n true;
                   mret (if (b0 : bool) then (true, copy (ram s1) base buf 0 n) else (false, ram s1))) s1
                  = Done ((b, r), s2)) by (mstep Hc; by destruct b).
  split; [mstep Hcopy; mstep (eq_refl : modify (set_ram r) s2 = Done (tt, set_ram r s2)); by mstep Hu|].
  change (sem (set_ram r s2)) with (sem s2) in Hs3. change (areas (set_ram r s2)) with (areas s2) in Ha3.
  split; [by rewrite Hv3; cbn; rewrite Hv2, Hv1|]. split.
  - split; [done|]. intros k Hk. rewrite Hs3, Hs2, Hs1 in Hk. destruct Hm as [_ Hpos].
    destruct (sem s) as [k0|]; [|done]. cbn in Hk. injection Hk as <-. specialize (Hpos k0 eq_refl). lia.
  - split; [congruence|]. intros a. rewrite Hr3. cbn. unfold r. destruct b; [|by rewrite Hr1].
    destruct (decide (base <= a < base + n)) as [Hin|Hout].
    + intros _. split; [done|]. apply (may_write_areas s s1); [done|]. by apply Hw.
    + rewrite Mem.copy_out by lia. by rewrite Hr1.
Qed.

(** ** Reading *)

(** Descriptor [i] is open for reading, on inode [p], and the process owns its table. *)
Definition readable_file (ext : Z -> Z) (i p : Z) (v : vfs W) : Prop :=
  owns ext v /\ 0 <= i < NENTRY /\ status (arr v i) = FD_OPENED /\ readable (arr v i) = true /\ node (arr v i) = Some p.

(** Computation [o] has no result because a read of inode [p], held open, for at most
    [len] bytes and a buffer, has none. *)
Definition read_fails {A} (p len : Z) (o : outcome A) : Prop :=
  exists m n off w, inodes_ok w /\ 0 < opens w p /\ 0 < n <= len /\ n <= IOBUF_SIZE /\
    (forall x, vop_read p (iobuf_init m 0 n off) w <> Done x) /\ same_failure o (vop_read p (iobuf_init m 0 n off) w).

Lemma read_fails_le {A} p len len' (o : outcome A) : len <= len' -> read_fails p len o -> read_fails p len' o.
Proof. intros Hl (m & n & off & w & Hw & Hp & Hn & Hb & Hf). exists m, n, off, w. do 2 (split; [done|]). split; [lia|done]. Qed.

Lemma read_fails_bind {A B T} p len (c : ST T A) (k : A -> ST T B) t : read_fails p len (c t) -> read_fails p len ((c ≫= k) t).
Proof.
  intros (m & n & off & w & Hw & Hp & Hn & Hb & Hv & Hf). exists m, n, off, w. do 5 (split; [done|]). by apply failure_bind.
Qed.

Lemma read_fails_on_vfs {A} p len (c : ST (vfs W) A) s : read_fails p len (c (vfs_of s)) -> read_fails p len (on_vfs c s).
Proof.
  intros (m & n & off & w & Hw & Hp & Hn & Hb & Hv & Hf). exists m, n, off, w. do 5 (split; [done|]). by apply failure_on_vfs.
Qed.

Lemma file_read_cases ext (v : vfs W) i p b len :
  readable_file ext i p v -> 0 < len <= IOBUF_SIZE ->
  (exists r n m' v', file_read i b 0 len v = Done ((r, n, m'), v') /\ readable_file ext i p v' /\ 0 <= n <= len) \/
  read_fails p len (file_read i b 0 len v).
Proof.
  unfold IOBUF_SIZE. intros (Ho & Hi & Hst & Hrd & Hn) Hlen.
  destruct (opened_entry ext v i Ho Hi Hst) as (n & Hn' & _ & _ & _ & Hpos). assert (n = p) as -> by congruence.
  destruct (vop_read p (iobuf_init b 0 len (pos (arr v i))) (inodes v)) as [[[r iob] w']| |] eqn:Hr.
  2,3: right; exists b, len, (pos (arr v i)), (inodes v); unfold IOBUF_SIZE; split; [apply (ow_ok _ _ Ho)|];
       split; [done|]; split; [lia|]; split; [lia|]; split; [by rewrite Hr|]; apply (file_read_fails ext); try done; by rewrite Hr.
  destruct (vop_read_takes p (iobuf_init b 0 len (pos (arr v i))) _ r iob w' (ow_ok _ _ Ho) eq_refl ltac:(cbn; lia) Hr) as [Hlen' Hres]. cbn in Hlen', Hres.
  destruct (file_read_run ext v i b 0 len p r iob w' Ho Hi Hst Hrd Hn Hr) as [Hv Ho'].
  left. eexists r, (iobuf_used iob), (io_mem iob), _. split; [exact Hv|].
  split; [split; [done|]; unfold stored, arr; cbn; by rewrite upd_eq|].
  unfold iobuf_used. rewrite Hlen', u64_small by lia. lia.
Qed.

Lemma file_testfd_run ext (v : vfs W) i p : readable_file ext i p v -> file_testfd i true false v = Done (true, v).
Proof.
  intros (Ho & Hi & Hst & Hrd & _). unfold file_testfd.
  mstep (fd2file_run v i (ow_count _ _ Ho) (ow_table _ _ Ho)). rewrite decide_True by done. by rewrite Hrd.
Qed.

Lemma on_vfs_run {A} (m : ST (vfs W) A) s a v :
  m (vfs_of s) = Done (a, v) -> on_vfs m s = Done (a, set_vfs v s).
Proof. unfold on_vfs. by intros ->. Qed.

Lemma read_loop_run ext fd p fuel : forall base len copied buf s,
  readable_file ext fd p (vfs_of s) -> mm_ready s -> 0 <= base -> 0 <= len -> base + len < 2 ^ 64 ->
  0 <= copied -> copied + len < 2 ^ 64 -> len < Z.of_nat fuel ->
  (exists ret n s', read_loop fuel fd base len copied buf s = Done ((ret, copied + n), s') /\
     readable_file ext fd p (vfs_of s') /\ mm_ready s' /\ 0 <= n <= len /\ confined base n s s') \/
  read_fails p len (read_loop fuel fd base len copied buf s).
Proof.
  induction fuel as [|fuel IH]; intros base len copied buf s Hrd Hm Hb Hl Hbl Hc Hcl Hf; [lia|].
  cbn [read_loop]. destruct (Z.eqb_spec len 0) as [->|Hnz].
  { left. exists 0, 0, s. rewrite Z.add_0_r. split; [done|]. do 2 (split; [done|]). split; [lia|]. by apply confined_refl. }
  cbv zeta. set (want := if len <? IOBUF_SIZE then len else IOBUF_SIZE).
  assert (Hw : 0 < want <= len /\ want <= IOBUF_SIZE) by (unfold want, IOBUF_SIZE; destruct (Z.ltb_spec len 4096); lia).
  destruct (file_read_cases ext (vfs_of s) fd p buf want Hrd ltac:(lia)) as [(r & n & m' & v1 & Hr & Hrd1 & Hn)|Hfail].
  2: { right. apply read_fails_bind, read_fails_on_vfs. apply (read_fails_le p want); [lia|done]. }
  mstep (on_vfs_run _ s _ _ Hr). destruct (Z.eqb_spec n 0) as [->|Hn0].
  { left. exists r, 0, (set_vfs v1 s). rewrite Z.add_0_r. split; [done|]. do 2 (split; [done|]). split; [lia|].
    by apply confined_refl. }
  destruct (copy_out_run base m' n (set_vfs v1 s) Hm Hb ltac:(lia) ltac:(lia)) as (b & s2 & Hco & Hv2 & Hm2 & Hc2).
  mstep Hco. cbn in Hv2. destruct b.
  2: { left. exists (if r =? 0 then - E_INVAL else r), 0, s2. rewrite Z.add_0_r, Hv2. split; [done|].
       do 2 (split; [done|]). split; [lia|done]. }
  rewrite (bind_Done _ _ _ _ _ (assert_true _ s2 (proj2 (Z.leb_le n len) ltac:(lia)))).
  rewrite (u64_small (copied + n)) by lia. destruct (Z.eqb_spec r 0) as [->|Hr0]; cbn [negb].
  - rewrite (u64_small (base + n)) by lia.
    destruct (IH (base + n) (len - n) (copied + n) m' s2) as [(ret & k & s3 & Hl3 & Hrd3 & Hm3 & Hk & Hc3)|Hfail];
      try done; [by rewrite Hv2|lia|lia|lia|lia|lia|lia| |].
    + left. exists ret, (n + k), s3. rewrite Z.add_assoc. split; [done|]. do 2 (split; [done|]). split; [lia|].
      apply (confined_trans base n k s s2 s3); [lia|lia|exact Hc2|exact Hc3].
    + right. apply (read_fails_le p (len - n)); [lia|done].
  - left. exists r, n, s2. rewrite Hv2. split; [done|]. do 2 (split; [done|]). split; [lia|exact Hc2].
Qed.

(** C34 Reading from an open file into the memory of the process.  Either the call
    ends: it has changed at most the first [n] bytes of the buffer, where [n] is the
    number it returns (0 when it returns an error), and of those only bytes the process
    may write; its descriptor, on the same inode, its areas and its lock are as before.
    Or a read of the inode of the descriptor, for at most a buffer of the bytes asked
    for, has no result, and the call has none for the same reason: a read of a
    directory of the disk stops the kernel, the standard input waits for characters.
    Every other step of the call ends. *)
Theorem sysfile_read_confined ext fd p base len buf s :
  readable_file ext fd p (vfs_of s) -> mm_ready s ->
  0 <= base -> 0 <= len < 2 ^ 31 -> base + len < 2 ^ 64 ->
  (exists r n s', sysfile_read (Some buf) fd base len s = Done (r, s') /\ 0 <= n <= len /\ (n <> 0 -> r = n) /\
     confined base n s s' /\ readable_file ext fd p (vfs_of s') /\ mm_ready s') \/
  read_fails p len (sysfile_read (Some buf) fd base len s).
Proof.
  intros Hrd Hm Hb Hl Hbl. unfold sysfile_read. destruct (Z.eqb_spec len 0) as [->|Hnz].
  { left. exists 0, 0, s. split; [done|]. split; [lia|]. split; [done|]. split; [by apply confined_refl|done]. }
  mstep (on_vfs_run _ s _ _ (file_testfd_run ext (vfs_of s) fd p Hrd)). cbn [negb].
  destruct (read_loop_run ext fd p (S (Z.to_nat len)) base len 0 buf (set_vfs (vfs_of s) s))
    as [(ret & n & s' & Hr & Hrd' & Hm' & Hn & Hc)|Hfail]; [done|done|lia|lia|lia|lia|lia|lia| |].
  2: { right. by apply read_fails_bind. }
  left. mstep Hr. rewrite Z.add_0_l. destruct (Z.eqb_spec n 0) as [->|Hn0]; cbn [negb].
  - exists ret, 0, s'. split; [done|]. split; [lia|]. split; [done|]. split; [exact Hc|done].
  - exists n, n, s'. rewrite s32_small by lia. split; [done|]. split; [lia|]. split; [done|]. split; [exact Hc|done].
Qed.
End sysfile_spec.

(** ** Witness: ten bytes read into the data of the sample process *)
Definition sample_sys : sys plain_inodes := mkSys sample_process (Some sample_mm) (fun _ => 0) 7.
Lemma sample_readable : exists p, readable_file sample_ext 0 p (vfs_of sample_sys).
Proof. eexists. split; [exact sample_owns|]. split; [rewrite NENTRY_val; lia|done]. Qed.
Lemma sample_mm_ready : mm_ready sample_sys.
Proof. split; [exact sample_mm_ok|]. intros k [= <-]. lia. Qed.

Lemma sysfile_read_confined_witness :
  result (sysfile_read (Some (fun a => a)) 0 0x804000 10 sample_sys) = Some 10 /\ exists p,
  ((exists r n s', sysfile_read (Some (fun a => a)) 0 0x804000 10 sample_sys = Done (r, s') /\ 0 <= n <= 10 /\
     (n <> 0 -> r = n) /\ confined 0x804000 n sample_sys s' /\
     readable_file sample_ext 0 p (vfs_of s') /\ mm_ready s') \/
   read_fails p 10 (sysfile_read (Some (fun a => a)) 0 0x804000 10 sample_sys)).
Proof.
  split; [vm_compute; reflexivity|]. destruct sample_readable as [p Hp]. exists p.
  apply (sysfile_read_confined sample_ext 0 p 0x804000 10 (fun a => a) sample_sys Hp sample_mm_ready); lia.
Defined.
