(* ===== verification/SkewHeap.v ===== *)
(** * Skew heaps (libs/skew_heap.h)

    A heap of nodes linked by their addresses: merging, inserting and removing
    a node through its parent pointer, and the tree a node is the root of. *)
From S2P Require Import Prelude.

Record skew_heap_entry := mkNode { nparent : option Z; nleft : option Z; nright : option Z }.
Definition heap : Type := Z -> skew_heap_entry.

Section skew_heap.
  (** The comparison function that the caller gives. *)
  Context (comp : Z -> Z -> Z).

Definition set_parent (x : Z) (p : option Z) (h : heap) : heap :=
  upd h x (mkNode p (nleft (h x)) (nright (h x))).
Definition set_left (x : Z) (l : option Z) (h : heap) : heap :=
  upd h x (mkNode (nparent (h x)) l (nright (h x))).
Definition set_right (x : Z) (r : option Z) (h : heap) : heap :=
  upd h x (mkNode (nparent (h x)) (nleft (h x)) r).

Definition skew_heap_init (a : Z) : ST heap unit := fun h => Done (tt, upd h a (mkNode None None None)).

(** [if (l) l->parent = a]. *)
Definition adopt (l : option Z) (a : option Z) : ST heap unit :=
  match l with Some y => modify (set_parent y a) | None => mret tt end.

(** The recursion goes down the right spines: the number of nodes is enough. *)
Fixpoint skew_heap_merge (fuel : nat) (a b : option Z) : ST heap (option Z) :=
  match a, b with
  | None, _ => mret b
  | _, None => mret a
  | Some a, Some b =>
      match fuel with
      | O => no_fuel
      | S fuel' =>
          if comp a b =? -1 then
            r ← get (fun h : heap => nleft (h a));
            ar ← get (fun h : heap => nright (h a));
            l ← skew_heap_merge fuel' ar (Some b);
            modify (set_left a l) ;;
            modify (set_right a r) ;;
            adopt l (Some a) ;;
            mret (Some a)
          else
            r ← get (fun h : heap => nleft (h b));
            br ← get (fun h : heap => nright (h b));
            l ← skew_heap_merge fuel' (Some a) br;
            modify (set_left b l) ;;
            modify (set_right b r) ;;
            adopt l (Some b) ;;
            mret (Some b)
      end
  end.

Definition skew_heap_insert (fuel : nat) (a : option Z) (b : Z) : ST heap (option Z) :=
  skew_heap_init b ;;
  skew_heap_merge fuel a (Some b).

Definition skew_heap_remove (fuel : nat) (a : option Z) (b : Z) : ST heap (option Z) :=
  p ← get (fun h : heap => nparent (h b));
  l ← get (fun h : heap => nleft (h b));
  r ← get (fun h : heap => nright (h b));
  rep ← skew_heap_merge fuel l r;
  adopt rep p ;;
  match p with
  | Some x =>
      pl ← get (fun h : heap => nleft (h x));
      (if decide (pl = Some b) then modify (set_left x rep) else modify (set_right x rep)) ;;
      mret a
  | None => mret rep
  end.

(** ** The tree at a node *)
Inductive tree := Leaf | Node (l : tree) (x : Z) (r : tree).

Fixpoint elements (t : tree) : list Z :=
  match t with Leaf => [] | Node l x r => x :: elements l ++ elements r end.

Definition root (t : tree) : option Z := match t with Leaf => None | Node _ x _ => Some x end.

(** The links of [h] from the root of [t] on spell [t]; the parent of the root
    is anything. *)
Fixpoint rep (h : heap) (t : tree) : Prop :=
  match t with
  | Leaf => True
  | Node l x r =>
      nleft (h x) = root l /\ nright (h x) = root r /\
      (forall y, root l = Some y \/ root r = Some y -> nparent (h y) = Some x) /\
      rep h l /\ rep h r
  end.

Lemma root_elem t y : root t = Some y -> y ∈ elements t.
Proof. destruct t; cbn; [done|]. intros [= ->]. left. Qed.

Lemma root_none t : root t = None -> t = Leaf.
Proof. by destruct t. Qed.

Lemma rep_ext h h' t : (forall x, x ∈ elements t -> h' x = h x) -> rep h t -> rep h' t.
Proof.
  induction t as [|l IHl x r IHr]; intros He; cbn; [done|]. intros (Hl & Hr & Hp & Hrl & Hrr).
  assert (Hx : forall y, y ∈ elements l \/ y ∈ elements r -> h' y = h y)
    by (intros y Hy; apply He; right; by apply elem_of_app).
  rewrite (He x) by left. split; [done|]. split; [done|]. split; [|split].
  - intros y Hy. rewrite Hx by (destruct Hy; [left|right]; by apply root_elem). by apply Hp.
  - apply IHl; [|done]. intros y Hy. apply Hx. by left.
  - apply IHr; [|done]. intros y Hy. apply Hx. by right.
Qed.

(** Changing the parent of the root only. *)
Lemma rep_root_parent h t x p :
  NoDup (elements t) -> root t = Some x -> rep h t -> rep (set_parent x p h) t.
Proof.
  destruct t as [|l y r]; [done|]. cbn. intros Hnd [= ->]. apply NoDup_cons in Hnd as [Hx Hnd].
  intros (Hl & Hr & Hp & Hrl & Hrr). unfold set_parent. rewrite upd_eq. cbn.
  assert (Hne : forall z, z ∈ elements l \/ z ∈ elements r -> z <> x)
    by (intros z Hz ->; apply Hx, elem_of_app; done).
  split; [done|]. split; [done|]. split; [|split].
  - intros z Hz. rewrite upd_ne by (apply Hne; destruct Hz; [left|right]; by apply root_elem). by apply Hp.
  - apply (rep_ext h); [|done]. intros z Hz. rewrite upd_ne; [done|]. apply Hne. by left.
  - apply (rep_ext h); [|done]. intros z Hz. rewrite upd_ne; [done|]. apply Hne. by right.
Qed.

(** Putting [l] and [r] below [a], as the code does after a merge. *)
Definition hook (a : Z) (l r : option Z) : ST heap (option Z) :=
  modify (set_left a l) ;;
  modify (set_right a r) ;;
  adopt l (Some a) ;;
  mret (Some a).

Lemma hook_run h a l r :
  NoDup (a :: elements l ++ elements r) -> rep h l -> rep h r ->
  (forall y, root r = Some y -> nparent (h y) = Some a) ->
  exists h', hook a (root l) (root r) h = Done (Some a, h') /\ rep h' (Node l a r) /\
    nparent (h' a) = nparent (h a) /\ forall z, z <> a -> z ∉ elements l -> h' z = h z.
Proof.
  intros Hnd Hl Hr Hp. set (h2 := set_right a (root r) (set_left a (root l) h)).
  set (h' := match root l with Some y => set_parent y (Some a) h2 | None => h2 end).
  apply NoDup_cons in Hnd as [Ha Hnd]. apply NoDup_app in Hnd as (Hndl & Hd & Hndr).
  assert (Hne : forall z, z ∈ elements l \/ z ∈ elements r -> z <> a)
    by (intros z Hz ->; apply Ha, elem_of_app; done).
  assert (H2 : forall z, z <> a -> h2 z = h z) by (intros z Hz; unfold h2, set_right, set_left; by rewrite !upd_ne).
  assert (H2a : h2 a = mkNode (nparent (h a)) (root l) (root r))
    by (unfold h2, set_right, set_left; by rewrite !upd_eq).
  assert (Hout : forall z, root l <> Some z -> h' z = h2 z).
  { intros z Hz. unfold h'. destruct (root l) as [y|]; [|done]. unfold set_parent. rewrite upd_ne; [done|congruence]. }
  assert (Hla : root l <> Some a) by (intros Hroot; apply (Hne a); [left; by apply root_elem|done]).
  assert (Hrl : rep h' l).
  { assert (rep h2 l) by (apply (rep_ext h); [intros; apply H2, Hne; by left|done]).
    unfold h'. destruct (root l) as [y|] eqn:Hy; [|done]. by apply rep_root_parent. }
  exists h'. split; [unfold h'; by destruct (root l)|]. split; [|split].
  - cbn. rewrite Hout, H2a by done. split; [done|]. split; [done|]. split; [|split; [done|]].
    + intros y [Hy|Hy].
      * unfold h'. rewrite Hy. unfold set_parent. by rewrite upd_eq.
      * rewrite Hout, H2; [by apply Hp|apply Hne; right; by apply root_elem|].
        intros Hy'. apply (Hd y); by apply root_elem.
    + apply (rep_ext h); [|done]. intros z Hz. rewrite Hout, H2; [done|apply Hne; by right|].
      intros Hz'. apply (Hd z); [by apply root_elem|done].
  - by rewrite Hout, H2a.
  - intros z Hz Hzl. rewrite Hout; [by apply H2|]. intros Hz'. apply Hzl. by apply root_elem.
Qed.

(** [le] orders the nodes that satisfy [D] the way [comp] compares them. *)
Record comparison (D : Z -> Prop) (le : Z -> Z -> Prop) : Prop := mkComparison {
  comp_le x y : D x -> D y -> if comp x y =? -1 then le x y else le y x;
  le_transitive x y z : D x -> D y -> D z -> le x y -> le y z -> le x z }.

(** No node is above its parent. *)
Fixpoint ordered (le : Z -> Z -> Prop) (t : tree) : Prop :=
  match t with
  | Leaf => True
  | Node l x r => (forall y, y ∈ elements l ++ elements r -> le x y) /\ ordered le l /\ ordered le r
  end.

Definition merged (h : heap) (ta tb : tree) (h' : heap) (t : tree) : Prop :=
  rep h' t /\ elements t ≡ₚ elements ta ++ elements tb /\
  (forall z, z ∉ elements ta ++ elements tb -> h' z = h z) /\
  (forall y, root t = Some y -> nparent (h' y) = nparent (h y)) /\
  (root t = root ta \/ root t = root tb) /\
  forall (D : Z -> Prop) le, comparison D le -> (forall x, x ∈ elements ta ++ elements tb -> D x) ->
    ordered le ta -> ordered le tb -> ordered le t.

Lemma merged_comm h ta tb h' t : merged h ta tb h' t -> merged h tb ta h' t.
Proof.
  intros (H1 & H2 & H3 & H4 & H6 & H5). split; [done|]. split; [by rewrite H2, Permutation_app_comm|].
  split; [intros z Hz; apply H3; rewrite elem_of_app in *; tauto|]. split; [done|]. split; [tauto|].
  intros D le Hc HD Ha Hb. apply (H5 D); [done| |done|done]. intros x Hx. apply HD. rewrite elem_of_app in *. tauto.
Qed.

Lemma merged_leaf h tb : rep h tb -> merged h Leaf tb h tb.
Proof. intros Hr. repeat (split; [done|]). split; [by right|done]. Qed.

(** The root of [t1] is above the whole of it. *)
Lemma ordered_above (D : Z -> Prop) le a (t : tree) :
  comparison D le -> D a -> (forall x, x ∈ elements t -> D x) -> ordered le t ->
  (forall y, root t = Some y -> le a y) -> forall y, y ∈ elements t -> le a y.
Proof.
  destruct t as [|l b r]; intros Hc Ha HD Ho Hroot y Hy; cbn in Hy; [by apply elem_of_nil in Hy|].
  assert (Hb : le a b) by (by apply Hroot). apply elem_of_cons in Hy as [->|Hy]; [done|].
  apply (le_transitive D le Hc a b y); [done|apply HD; left|apply HD; by right|done|by apply (proj1 Ho)].
Qed.

(** One turn: [a] stays on top, and what was merged goes to its left. *)
Lemma merge_turn h la a ra tb h1 t1 :
  NoDup (elements (Node la a ra) ++ elements tb) -> rep h (Node la a ra) -> merged h ra tb h1 t1 ->
  (forall (D : Z -> Prop) le, comparison D le -> (forall x, x ∈ elements (Node la a ra) ++ elements tb -> D x) ->
     forall y, root tb = Some y -> le a y) ->
  exists h', hook a (root t1) (root la) h1 = Done (Some a, h') /\
    merged h (Node la a ra) tb h' (Node t1 a la).
Proof.
  intros Hnd (Hl & Hr & Hp & Hrla & Hrra) (Hr1 & Hel & Hout & Hpar & _ & Hord) Habove.
  cbn in Hnd. rewrite <- app_assoc in Hnd. apply NoDup_cons in Hnd as [Ha Hnd].
  apply NoDup_app in Hnd as (Hndl & Hd & Hndr). rewrite elem_of_app in Ha.
  assert (Hla : forall z, z ∈ elements la -> h1 z = h z) by (intros z Hz; apply Hout; by apply Hd).
  assert (Hah : h1 a = h a) by (apply Hout; tauto).
  destruct (hook_run h1 a t1 la) as (h' & Hrun & Hrep & Hpa & Hfr).
  - rewrite Hel. apply NoDup_cons. split; [rewrite elem_of_app; tauto|]. apply NoDup_app.
    split; [done|]. split; [|done]. intros z Hz Hz'. by apply (Hd z).
  - done.
  - by apply (rep_ext h).
  - intros y Hy. rewrite Hla by (by apply root_elem). apply Hp. by left.
  - exists h'. split; [done|]. split; [done|]. split; [|split; [|split; [|split; [by left|]]]].
    + cbn. rewrite Hel. cbn. apply Permutation_skip. solve_Permutation.
    + cbn. intros z Hz. rewrite elem_of_cons, !elem_of_app in Hz.
      rewrite Hfr; [apply Hout; rewrite elem_of_app; tauto|naive_solver|].
      rewrite Hel, elem_of_app. tauto.
    + intros y [= <-]. by rewrite Hpa, Hah.
    + intros D le Hc HD (Hta & Hol & Hor) Hob.
      assert (HD' : forall x, x ∈ elements ra ++ elements tb -> D x).
      { intros x Hx. apply HD. rewrite elem_of_app in Hx |- *. cbn. rewrite elem_of_cons, elem_of_app. tauto. }
      split; [|split; [by apply (Hord D)|done]].
      intros y. rewrite Hel, !elem_of_app.
      intros [[Hy|Hy]|Hy]; [apply Hta, elem_of_app; by right| |apply Hta, elem_of_app; by left].
      apply (ordered_above D le a tb); [done|apply HD; left|intros; apply HD', elem_of_app; by right|done| |done].
      by apply (Habove D).
Qed.

Lemma nodup_tail (l1 l2 : list Z) : NoDup (l1 ++ l2) -> NoDup l2.
Proof. intros H%NoDup_app. tauto. Qed.

Lemma merge_run fuel : forall ta tb h,
  (length (elements ta ++ elements tb) <= fuel)%nat -> NoDup (elements ta ++ elements tb) ->
  rep h ta -> rep h tb ->
  exists h' t, skew_heap_merge fuel (root ta) (root tb) h = Done (root t, h') /\ merged h ta tb h' t.
Proof.
  induction fuel as [|fuel IH]; intros ta tb h Hf Hnd Hta Htb.
  { destruct ta, tb; cbn in Hf; try lia. exists h, Leaf. split; [done|]. by apply merged_leaf. }
  destruct ta as [|la a ra].
  { exists h, tb. split; [by destruct tb|]. by apply merged_leaf. }
  destruct tb as [|lb b rb].
  { exists h, (Node la a ra). split; [done|]. by apply merged_comm, merged_leaf. }
  pose proof Hta as (Hla & Hra & _ & _ & Hrra). pose proof Htb as (Hlb & Hrb & _ & _ & Hrrb).
  assert (Hlen : forall l x r t, (length (elements r ++ elements t) < length (elements (Node l x r) ++ elements t))%nat)
    by (intros; cbn; rewrite !length_app; lia).
  cbn [skew_heap_merge root]. destruct (comp a b =? -1) eqn:Hcmp.
  - destruct (IH ra (Node lb b rb) h) as (h1 & t1 & Hrun & Hm); [| |done|done|].
    { specialize (Hlen la a ra (Node lb b rb)). lia. }
    { cbn [elements] in Hnd. rewrite <- app_comm_cons, <- app_assoc in Hnd. by apply (nodup_tail (a :: elements la)). }
    destruct (merge_turn h la a ra (Node lb b rb) h1 t1 Hnd Hta Hm) as (h' & Hh & Hmm).
    { intros D le Hc HD y [= <-].
      pose proof (comp_le D le Hc a b (HD a ltac:(left)) (HD b ltac:(apply elem_of_app; right; left))) as Hab.
      by rewrite Hcmp in Hab. }
    exists h', (Node t1 a la). split; [|done].
    mstep (eq_refl : get (fun h : heap => nleft (h a)) h = Done (nleft (h a), h)).
    mstep (eq_refl : get (fun h : heap => nright (h a)) h = Done (nright (h a), h)).
    rewrite Hla, Hra. mstep Hrun. exact Hh.
  - rewrite Permutation_app_comm in Hnd.
    destruct (IH (Node la a ra) rb h) as (h1 & t1 & Hrun & Hm); [| |done|done|].
    { specialize (Hlen lb b rb (Node la a ra)). rewrite !length_app in *. lia. }
    { rewrite Permutation_app_comm. cbn [elements] in Hnd. rewrite <- app_comm_cons, <- app_assoc in Hnd.
      by apply (nodup_tail (b :: elements lb)). }
    destruct (merge_turn h lb b rb (Node la a ra) h1 t1 Hnd Htb (merged_comm _ _ _ _ _ Hm)) as (h' & Hh & Hmm).
    { intros D le Hc HD y [= <-].
      pose proof (comp_le D le Hc a b (HD a ltac:(apply elem_of_app; right; left)) (HD b ltac:(left))) as Hab.
      by rewrite Hcmp in Hab. }
    exists h', (Node t1 b lb). split; [|by apply merged_comm].
    mstep (eq_refl : get (fun h : heap => nleft (h b)) h = Done (nleft (h b), h)).
    mstep (eq_refl : get (fun h : heap => nright (h b)) h = Done (nright (h b), h)).
    rewrite Hlb, Hrb. mstep Hrun. exact Hh.
Qed.

Lemma adopt_run h t p :
  NoDup (elements t) -> rep h t ->
  exists h1, adopt (root t) p h = Done (tt, h1) /\ rep h1 t /\ (forall y, root t = Some y -> nparent (h1 y) = p) /\
    forall z, root t <> Some z -> h1 z = h z.
Proof.
  intros Hnd Hr. destruct (root t) as [y|] eqn:Hy.
  - exists (set_parent y p h). split; [done|]. split; [by apply rep_root_parent|]. unfold set_parent. split.
    + intros z [= <-]. by rewrite upd_eq.
    + intros z Hz. rewrite upd_ne; [done|congruence].
  - exists h. by split_and!.
Qed.

(** A heap: a tree whose root has no parent. *)
Record is_heap (h : heap) (t : tree) : Prop := mkHeap {
  hp_rep : rep h t;
  hp_top y : root t = Some y -> nparent (h y) = None;
  hp_nodup : NoDup (elements t) }.

Lemma heap_insert_run fuel h t b :
  is_heap h t -> b ∉ elements t -> (length (elements t) < fuel)%nat ->
  exists h' t', skew_heap_insert fuel (root t) b h = Done (root t', h') /\ is_heap h' t' /\
    elements t' ≡ₚ b :: elements t /\
    forall (D : Z -> Prop) le, comparison D le -> (forall x, x ∈ b :: elements t -> D x) -> ordered le t -> ordered le t'.
Proof.
  intros [Hr Ht Hnd] Hb Hf. set (h0 := upd h b (mkNode None None None)).
  assert (Hnd' : NoDup (elements t ++ elements (Node Leaf b Leaf))).
  { cbn. rewrite Permutation_app_comm. by apply NoDup_cons. }
  destruct (merge_run fuel t (Node Leaf b Leaf) h0) as (h' & t' & Hrun & Hrep & Hel & Hfr & Hpar & Hroot & Hord).
  - rewrite length_app. cbn. lia.
  - done.
  - apply (rep_ext h); [|done]. intros x Hx. unfold h0. rewrite upd_ne; [done|congruence].
  - cbn. unfold h0. rewrite upd_eq. cbn. do 2 (split; [done|]). split; [|done]. intros y [?|?]; done.
  - assert (Hel' : elements t' ≡ₚ b :: elements t) by (rewrite Hel, Permutation_app_comm; done).
    exists h', t'. split; [done|]. split; [split; [done| |by rewrite Hel]|].
    + intros y Hy. rewrite (Hpar y Hy). unfold h0. destruct (decide (y = b)) as [->|Hne]; [by rewrite upd_eq|].
      rewrite upd_ne by done. apply Ht. destruct Hroot as [<-|Hroot]; [done|]. cbn in Hroot. congruence.
    + split; [done|].
      intros D le Hc HD Ho. apply (Hord D); [done| |done|].
      * intros x Hx. apply HD. rewrite elem_of_app in Hx. cbn in Hx. rewrite elem_of_cons.
        destruct Hx as [?|Hx%list_elem_of_singleton]; tauto.
      * cbn. split; [|done]. intros y Hy. by apply elem_of_nil in Hy.
Qed.

(** The subtree at [b] gives its place to the merge of its children. *)
Lemma replace_run fuel a bl b br x h :
  rep h (Node bl b br) -> NoDup (elements (Node bl b br)) -> (length (elements (Node bl b br)) <= fuel)%nat ->
  nparent (h b) = Some x -> x ∉ elements (Node bl b br) ->
  exists h1 t1, skew_heap_remove fuel a b h =
      Done (a, if decide (nleft (h x) = Some b) then set_left x (root t1) h1 else set_right x (root t1) h1) /\
    rep h1 t1 /\ elements t1 ≡ₚ elements bl ++ elements br /\
    (forall y, root t1 = Some y -> nparent (h1 y) = Some x) /\
    (forall z, z ∉ elements bl ++ elements br -> h1 z = h z) /\
    forall (D : Z -> Prop) le, comparison D le -> (forall y, y ∈ elements bl ++ elements br -> D y) ->
      ordered le bl -> ordered le br -> ordered le t1.
Proof.
  intros (Hl & Hr & _ & Hrl & Hrr) Hnd Hf Hpx Hx. cbn in Hnd, Hf, Hx. apply NoDup_cons in Hnd as [Hb Hnd].
  destruct (merge_run fuel bl br h) as (h0 & t1 & Hrun & Hrep & Hel & Hfr & _ & _ & Hord); [lia|done|done|done|].
  destruct (adopt_run h0 t1 (Some x)) as (h1 & Had & Hrep1 & Hp1 & Hfr1); [by rewrite Hel|done|].
  assert (Hout : forall z, z ∉ elements bl ++ elements br -> h1 z = h z).
  { intros z Hz. rewrite Hfr1; [by apply Hfr|]. intros Hroot. apply Hz. rewrite <- Hel. by apply root_elem. }
  exists h1, t1. split; [|done]. unfold skew_heap_remove.
  mstep (eq_refl : get (fun h : heap => nparent (h b)) h = Done (nparent (h b), h)).
  mstep (eq_refl : get (fun h : heap => nleft (h b)) h = Done (nleft (h b), h)).
  mstep (eq_refl : get (fun h : heap => nright (h b)) h = Done (nright (h b), h)).
  rewrite Hl, Hr, Hpx. mstep Hrun. mstep Had.
  mstep (eq_refl : get (fun h : heap => nleft (h x)) h1 = Done (nleft (h1 x), h1)).
  rewrite Hout by (intros ?; apply Hx; by right). by destruct (decide (nleft (h x) = Some b)).
Qed.

(** What removing [b] from the tree [t] below the top leaves. *)
Definition removed (h : heap) (t : tree) (b : Z) (h' : heap) (t' : tree) : Prop :=
  rep h' t' /\ elements t ≡ₚ b :: elements t' /\ root t' = root t /\
  (forall z, z ∉ elements t -> h' z = h z) /\ (forall y, root t = Some y -> nparent (h' y) = nparent (h y)) /\
  forall (D : Z -> Prop) le, comparison D le -> (forall x, x ∈ elements t -> D x) -> ordered le t -> ordered le t'.

Lemma remove_left h l x r b h' l' :
  NoDup (elements (Node l x r)) -> rep h (Node l x r) -> removed h l b h' l' ->
  removed h (Node l x r) b h' (Node l' x r).
Proof.
  intros Hnd (Hl & Hr & Hp & Hrl & Hrr) (H1 & H2 & H3 & H4 & H5 & H6).
  cbn in Hnd. apply NoDup_cons in Hnd as [Hx Hnd]. apply NoDup_app in Hnd as (_ & Hd & _).
  assert (Hx' : h' x = h x) by (apply H4; intros ?; apply Hx, elem_of_app; by left).
  assert (Hr' : forall z, z ∈ elements r -> h' z = h z) by (intros z Hz; apply H4; intros ?; by apply (Hd z)).
  split; [|split; [|split; [done|split; [|split]]]].
  - cbn. rewrite Hx', H3. do 2 (split; [done|]). split; [|split; [done|by apply (rep_ext h)]].
    intros y [Hy|Hy].
    + rewrite H5 by done. apply Hp. by left.
    + rewrite Hr' by (by apply root_elem). apply Hp. by right.
  - cbn. rewrite H2. solve_Permutation.
  - intros z Hz. cbn in Hz. apply H4. intros ?. apply Hz. right. apply elem_of_app. by left.
  - intros y [= <-]. by rewrite Hx'.
  - intros D le Hc HD (Ho & Hol & Hor). split; [|split; [|done]].
    + intros y Hy. apply Ho. rewrite elem_of_app in *. rewrite H2, elem_of_cons. tauto.
    + apply (H6 D); [done| |done]. intros y Hy. apply HD. right. apply elem_of_app. by left.
Qed.

Lemma remove_right h l x r b h' r' :
  NoDup (elements (Node l x r)) -> rep h (Node l x r) -> removed h r b h' r' ->
  removed h (Node l x r) b h' (Node l x r').
Proof.
  intros Hnd (Hl & Hr & Hp & Hrl & Hrr) (H1 & H2 & H3 & H4 & H5 & H6).
  cbn in Hnd. apply NoDup_cons in Hnd as [Hx Hnd]. apply NoDup_app in Hnd as (_ & Hd & _).
  assert (Hx' : h' x = h x) by (apply H4; intros ?; apply Hx, elem_of_app; by right).
  assert (Hl' : forall z, z ∈ elements l -> h' z = h z) by (intros z Hz; apply H4; by apply Hd).
  split; [|split; [|split; [done|split; [|split]]]].
  - cbn. rewrite Hx', H3. do 2 (split; [done|]). split; [|split; [by apply (rep_ext h)|done]].
    intros y [Hy|Hy].
    + rewrite Hl' by (by apply root_elem). apply Hp. by left.
    + rewrite H5 by done. apply Hp. by right.
  - cbn. rewrite H2. solve_Permutation.
  - intros z Hz. cbn in Hz. apply H4. intros ?. apply Hz. right. apply elem_of_app. by right.
  - intros y [= <-]. by rewrite Hx'.
  - intros D le Hc HD (Ho & Hol & Hor). split; [|split; [done|]].
    + intros y Hy. apply Ho. rewrite elem_of_app in *. rewrite H2, elem_of_cons. tauto.
    + apply (H6 D); [done| |done]. intros y Hy. apply HD. right. apply elem_of_app. by right.
Qed.

(** [x] after one of its children was replaced by [t1]. *)
Lemma attach_run h h1 l x r t1 (left : bool) :
  let c := if left then l else r in
  let h' := (if left then set_left x (root t1) else set_right x (root t1)) h1 in
  NoDup (elements (Node l x r)) -> rep h (Node l x r) -> rep h1 t1 ->
  (forall y, y ∈ elements t1 -> y ∈ elements c) ->
  (forall y, root t1 = Some y -> nparent (h1 y) = Some x) ->
  (forall z, z ∉ elements c -> h1 z = h z) ->
  rep h' (if left then Node t1 x r else Node l x t1) /\ nparent (h' x) = nparent (h x) /\
  (forall z, z ∉ elements (Node l x r) -> h' z = h z).
Proof.
  intros c h' Hnd (Hl & Hr & Hp & Hrl & Hrr) Ht1 Hsub Hp1 Hfr. cbn in Hnd.
  apply NoDup_cons in Hnd as [Hx Hnd]. apply NoDup_app in Hnd as (_ & Hd & _). rewrite elem_of_app in Hx.
  assert (Hxc : h1 x = h x) by (apply Hfr; unfold c; destruct left; tauto).
  assert (Hx1 : x ∉ elements t1) by (intros Hin%Hsub; unfold c in Hin; destruct left; tauto).
  assert (Hh' : forall z, z <> x -> h' z = h1 z) by (intros z Hz; unfold h', set_left, set_right; destruct left; by rewrite upd_ne).
  assert (Hh'x : h' x = if left then mkNode (nparent (h x)) (root t1) (nright (h x))
                        else mkNode (nparent (h x)) (nleft (h x)) (root t1))
    by (unfold h', set_left, set_right; destruct left; by rewrite upd_eq, Hxc).
  assert (Ht1' : rep h' t1) by (apply (rep_ext h1); [intros z Hz; apply Hh'; congruence|done]).
  assert (Hp1' : forall y, root t1 = Some y -> nparent (h' y) = Some x)
    by (intros y Hy; rewrite Hh' by (intros ->; by apply Hx1, root_elem); by apply Hp1).
  assert (Ho : forall z, (if left then z ∈ elements r else z ∈ elements l) -> h' z = h z).
  { intros z Hz. rewrite Hh' by (intros ->; destruct left; tauto). apply Hfr.
    unfold c. destruct left; [intros ?; by apply (Hd z)|by apply Hd]. }
  split; [|split].
  - destruct left; cbn; rewrite Hh'x; (split; [done|]); (split; [done|]); split.
    + intros y [Hy|Hy]; [by apply Hp1'|]. rewrite Ho by (by apply root_elem). apply Hp. by right.
    + split; [done|]. by apply (rep_ext h).
    + intros y [Hy|Hy]; [|by apply Hp1']. rewrite Ho by (by apply root_elem). apply Hp. by left.
    + split; [|done]. by apply (rep_ext h).
  - rewrite Hh'x. by destruct left.
  - intros z Hz. cbn in Hz. rewrite elem_of_cons, elem_of_app in Hz. rewrite Hh' by tauto. apply Hfr.
    unfold c. destruct left; tauto.
Qed.

Lemma remove_child fuel a h l x r b (left : bool) :
  let c := if left then l else r in
  NoDup (elements (Node l x r)) -> rep h (Node l x r) -> root c = Some b -> (length (elements c) <= fuel)%nat ->
  exists h' t', skew_heap_remove fuel a b h = Done (a, h') /\ removed h (Node l x r) b h' t'.
Proof.
  intros c Hnd Hrep Hb Hf. destruct c as [|bl b' br] eqn:Hc; [done|]. injection Hb as ->.
  pose proof Hrep as (Hl & Hr & Hp & Hrl & Hrr). pose proof Hnd as Hnd0. cbn in Hnd0.
  apply NoDup_cons in Hnd0 as [Hx Hnd0]. rewrite elem_of_app in Hx. apply NoDup_app in Hnd0 as (Hndl & Hd & Hndr).
  assert (Hrc : rep h (Node bl b br)) by (rewrite <- Hc; unfold c; by destruct left).
  assert (Hndc : NoDup (elements (Node bl b br))) by (rewrite <- Hc; unfold c; by destruct left).
  assert (Hxc : x ∉ elements (Node bl b br)) by (rewrite <- Hc; unfold c; destruct left; tauto).
  assert (Hpb : nparent (h b) = Some x) by (apply Hp; unfold c in Hc; destruct left; rewrite Hc; cbn; tauto).
  destruct (replace_run fuel a bl b br x h Hrc Hndc Hf Hpb Hxc) as (h1 & t1 & Hrun & Ht1 & Hel & Hp1 & Hfr & Hord).
  assert (Hdec : (nleft (h x) = Some b) <-> left = true).
  { rewrite Hl. unfold c in Hc. destruct left; [by rewrite Hc|]. split; [|done]. intros Hlb. exfalso.
    apply (Hd b); [by apply root_elem|]. rewrite Hc. apply elem_of_cons. by left. }
  destruct (attach_run h h1 l x r t1 left Hnd Hrep Ht1) as (Hrep' & Hpx & Hfr').
  - intros y. fold c. rewrite Hc, Hel. intros Hy. by right.
  - done.
  - intros z. fold c. rewrite Hc. intros Hz. apply Hfr. intros ?. apply Hz. by right.
  - exists ((if left then set_left x (root t1) else set_right x (root t1)) h1). eexists. split.
    { rewrite Hrun. destruct left; [by rewrite decide_True by tauto|rewrite decide_False by (intros ?%Hdec; done); done]. }
    split; [exact Hrep'|]. split; [|split; [by destruct left|split; [done|split]]].
    + unfold c in Hc. destruct left; cbn; rewrite Hc, Hel; cbn; solve_Permutation.
    + intros y [= <-]. done.
    + intros D le Hcm HD (Ho & Hol & Hor).
      assert (Hoc : ordered le (Node bl b br)) by (rewrite <- Hc; unfold c; by destruct left).
      assert (Hsub : forall y, y ∈ elements bl ++ elements br -> y ∈ elements (if left then l else r))
        by (intros y Hy; fold c; rewrite Hc; by right).
      assert (Ho1 : ordered le t1).
      { apply (Hord D); [done| |by destruct Hoc as (_ & ? & _)|by destruct Hoc as (_ & _ & ?)].
        intros y Hy%Hsub. apply HD. right. apply elem_of_app. destruct left; tauto. }
      destruct left; (split; [|by split]); intros y Hy; apply Ho; rewrite elem_of_app, Hel in *;
        destruct Hy as [Hy|Hy]; auto.
Qed.

Lemma remove_below fuel a b t : forall h,
  rep h t -> NoDup (elements t) -> b ∈ elements t -> root t <> Some b -> (length (elements t) <= fuel)%nat ->
  exists h' t', skew_heap_remove fuel a b h = Done (a, h') /\ removed h t b h' t'.
Proof.
  induction t as [|l IHl x r IHr]; intros h Hrep Hnd Hb Hroot Hf; [by apply elem_of_nil in Hb|].
  pose proof Hrep as (Hl & Hr & Hp & Hrl & Hrr). pose proof Hnd as Hnd0. cbn in Hnd0, Hf.
  apply NoDup_cons in Hnd0 as [Hx Hnd0]. apply NoDup_app in Hnd0 as (Hndl & Hd & Hndr). rewrite length_app in Hf.
  cbn in Hb. apply elem_of_cons in Hb as [->|Hb]; [done|]. apply elem_of_app in Hb as [Hb|Hb].
  - destruct (decide (root l = Some b)) as [Heq|Hne].
    + apply (remove_child fuel a h l x r b true); [done|done|done|cbn; lia].
    + destruct (IHl h Hrl Hndl Hb Hne ltac:(lia)) as (h' & l' & Hrun & Hrem).
      exists h', (Node l' x r). split; [done|]. by apply remove_left.
  - destruct (decide (root r = Some b)) as [Heq|Hne].
    + apply (remove_child fuel a h l x r b false); [done|done|done|cbn; lia].
    + destruct (IHr h Hrr Hndr Hb Hne ltac:(lia)) as (h' & r' & Hrun & Hrem).
      exists h', (Node l x r'). split; [done|]. by apply remove_right.
Qed.

Lemma remove_top fuel a b l r h :
  is_heap h (Node l b r) -> (length (elements (Node l b r)) <= fuel)%nat ->
  exists h' t', skew_heap_remove fuel a b h = Done (root t', h') /\ is_heap h' t' /\
    elements t' ≡ₚ elements l ++ elements r /\
    forall (D : Z -> Prop) le, comparison D le -> (forall y, y ∈ elements l ++ elements r -> D y) ->
      ordered le l -> ordered le r -> ordered le t'.
Proof.
  intros [(Hl & Hr & _ & Hrl & Hrr) Htop Hnd] Hf. cbn in Hnd, Hf. apply NoDup_cons in Hnd as [Hb Hnd].
  destruct (merge_run fuel l r h) as (h0 & t1 & Hrun & Hrep & Hel & Hfr & _ & _ & Hord); [lia|done|done|done|].
  destruct (adopt_run h0 t1 None) as (h1 & Had & Hrep1 & Hp1 & _); [by rewrite Hel|done|].
  exists h1, t1. split; [|split; [split; [done|done|by rewrite Hel]|done]]. unfold skew_heap_remove.
  mstep (eq_refl : get (fun h : heap => nparent (h b)) h = Done (nparent (h b), h)).
  mstep (eq_refl : get (fun h : heap => nleft (h b)) h = Done (nleft (h b), h)).
  mstep (eq_refl : get (fun h : heap => nright (h b)) h = Done (nright (h b), h)).
  rewrite Hl, Hr, (Htop b eq_refl). mstep Hrun. by mstep Had.
Qed.

(** Inserting a node into a skew heap always ends and gives a well-linked
    heap with exactly that node more; if the comparison orders the nodes, no node
    ends up above its parent. *)
Theorem skew_heap_insert_adds fuel h t b :
  is_heap h t -> b ∉ elements t -> (length (elements t) < fuel)%nat ->
  exists h' t', skew_heap_insert fuel (root t) b h = Done (root t', h') /\ is_heap h' t' /\
    elements t' ≡ₚ b :: elements t /\
    forall (D : Z -> Prop) le, comparison D le -> (forall x, x ∈ b :: elements t -> D x) -> ordered le t -> ordered le t'.
Proof. apply heap_insert_run. Qed.

(** Removing any node of a skew heap, through its parent pointer, always
    ends and gives a well-linked heap with exactly that node less, still ordered
    if it was. *)
Theorem skew_heap_remove_deletes fuel h t b :
  is_heap h t -> b ∈ elements t -> (length (elements t) <= fuel)%nat ->
  exists h' t', skew_heap_remove fuel (root t) b h = Done (root t', h') /\ is_heap h' t' /\
    elements t ≡ₚ b :: elements t' /\
    forall (D : Z -> Prop) le, comparison D le -> (forall x, x ∈ elements t -> D x) -> ordered le t -> ordered le t'.
Proof.
  intros Hh Hb Hf. destruct (decide (root t = Some b)) as [Hroot|Hroot].
  - destruct t as [|l x r]; [done|]. injection Hroot as ->.
    destruct (remove_top fuel (root (Node l b r)) b l r h Hh Hf) as (h' & t' & Hrun & Hh' & Hel & Hord).
    exists h', t'. split; [done|]. split; [done|]. split; [cbn; by rewrite Hel|].
    intros D le Hc HD (_ & Hol & Hor). apply (Hord D); [done| |done|done]. intros y Hy. apply HD. by right.
  - destruct Hh as [Hrep Htop Hnd].
    destruct (remove_below fuel (root t) b t h Hrep Hnd Hb Hroot Hf) as (h' & t' & Hrun & Hr & Hel & Hrt & Hfr & Hpar & Hord).
    exists h', t'. rewrite Hrt. split; [done|]. split; [split; [done| |]|done].
    + intros y Hy. rewrite Hrt in Hy. rewrite Hpar by done. by apply Htop.
    + rewrite Hel in Hnd. by apply NoDup_cons in Hnd as [_ ?].
Qed.
End skew_heap.

(** Nodes 3 above 5 and 4, compared as numbers. *)
Definition sample_comp (x y : Z) : Z := if x <? y then -1 else if x =? y then 0 else 1.
Definition sample_heap : heap := fun x =>
  if x =? 3 then mkNode None (Some 5) (Some 4) else mkNode (Some 3) None None.
Definition sample_tree : tree := Node (Node Leaf 5 Leaf) 3 (Node Leaf 4 Leaf).
Lemma sample_is_heap : is_heap sample_heap sample_tree.
Proof.
  assert (Hnd : bool_decide (NoDup (elements sample_tree)) = true) by (vm_compute; reflexivity).
  apply bool_decide_eq_true in Hnd. refine (mkHeap _ _ _ _ Hnd); [|by intros y [= <-]].
  cbn. do 2 (split; [done|]). split; [by intros y [[= <-]|[= <-]]|].
  split; (do 2 (split; [done|]); split; [by intros y [?|?]|done]).
Qed.

Lemma skew_heap_insert_adds_witness :
  result (skew_heap_insert sample_comp 4 (Some 3) 1 sample_heap) = Some (Some 1) /\
  exists h' t', skew_heap_insert sample_comp 4 (root sample_tree) 1 sample_heap = Done (root t', h') /\ is_heap h' t' /\
    elements t' ≡ₚ 1 :: elements sample_tree /\
    forall (D : Z -> Prop) le, comparison sample_comp D le -> (forall x, x ∈ 1 :: elements sample_tree -> D x) ->
      ordered le sample_tree -> ordered le t'.
Proof.
  split; [vm_compute; reflexivity|].
  apply (skew_heap_insert_adds sample_comp 4 sample_heap sample_tree 1 sample_is_heap); [cbn; set_solver|cbn; lia].
Defined.

Lemma skew_heap_remove_deletes_witness :
  result (skew_heap_remove sample_comp 3 (Some 3) 4 sample_heap) = Some (Some 3) /\
  exists h' t', skew_heap_remove sample_comp 3 (root sample_tree) 4 sample_heap = Done (root t', h') /\ is_heap h' t' /\
    elements sample_tree ≡ₚ 4 :: elements t' /\
    forall (D : Z -> Prop) le, comparison sample_comp D le -> (forall x, x ∈ elements sample_tree -> D x) ->
      ordered le sample_tree -> ordered le t'.
Proof.
  split; [vm_compute; reflexivity|].
  apply (skew_heap_remove_deletes sample_comp 3 sample_heap sample_tree 4 sample_is_heap); [cbn; set_solver|cbn; lia].
Defined.
