(* ===== verification/Proc.v ===== *)
(** * Processes as data (kern/process/proc.h, alloc_proc of proc.c)

    A [struct proc_struct] without the saved registers; the part that the
    scheduling classes keep in it is [sched_entity] of [RunQueue].  Processes,
    address spaces, files and stacks are named by their addresses. *)
From S2P Require Import Prelude.

Inductive proc_state := PROC_UNINIT | PROC_SLEEPING | PROC_RUNNABLE | PROC_ZOMBIE.
#[export] Instance proc_state_eq_dec : EqDecision proc_state.
Proof. solve_decision. Defined.

Definition PROC_NAME_LEN : Z := 15.
Definition MAX_PROCESS : Z := 4096.
Definition MAX_PID : Z := MAX_PROCESS * 2.
Definition PF_EXITING : Z := 1.
Definition WT_INTERRUPTED : Z := 0x80000000.
Definition WT_CHILD : Z := Z.lor 1 WT_INTERRUPTED.
Definition WT_KSEM : Z := 0x100.
Definition WT_TIMER : Z := Z.lor 2 WT_INTERRUPTED.
Definition WT_KBD : Z := Z.lor 4 WT_INTERRUPTED.

Record proc_struct := mkProc {
  state : proc_state; pid : Z; runs : Z; kstack : Z; parent : option Z; mm : option Z;
  pgdir : Z; flags : Z; name : list Z; exit_code : Z; wait_state : Z;
  cptr : option Z; yptr : option Z; optr : option Z; filesp : option Z }.

Definition set_state (x : proc_state) (p : proc_struct) : proc_struct :=
  mkProc x (pid p) (runs p) (kstack p) (parent p) (mm p) (pgdir p) (flags p) (name p) (exit_code p)
         (wait_state p) (cptr p) (yptr p) (optr p) (filesp p).
Definition set_pid (x : Z) (p : proc_struct) : proc_struct :=
  mkProc (state p) x (runs p) (kstack p) (parent p) (mm p) (pgdir p) (flags p) (name p) (exit_code p)
         (wait_state p) (cptr p) (yptr p) (optr p) (filesp p).
Definition set_runs (x : Z) (p : proc_struct) : proc_struct :=
  mkProc (state p) (pid p) x (kstack p) (parent p) (mm p) (pgdir p) (flags p) (name p) (exit_code p)
         (wait_state p) (cptr p) (yptr p) (optr p) (filesp p).
Definition set_parent (x : option Z) (p : proc_struct) : proc_struct :=
  mkProc (state p) (pid p) (runs p) (kstack p) x (mm p) (pgdir p) (flags p) (name p) (exit_code p)
         (wait_state p) (cptr p) (yptr p) (optr p) (filesp p).
Definition set_flags (x : Z) (p : proc_struct) : proc_struct :=
  mkProc (state p) (pid p) (runs p) (kstack p) (parent p) (mm p) (pgdir p) x (name p) (exit_code p)
         (wait_state p) (cptr p) (yptr p) (optr p) (filesp p).
Definition set_exit_code (x : Z) (p : proc_struct) : proc_struct :=
  mkProc (state p) (pid p) (runs p) (kstack p) (parent p) (mm p) (pgdir p) (flags p) (name p) x
         (wait_state p) (cptr p) (yptr p) (optr p) (filesp p).
Definition set_wait_state (x : Z) (p : proc_struct) : proc_struct :=
  mkProc (state p) (pid p) (runs p) (kstack p) (parent p) (mm p) (pgdir p) (flags p) (name p) (exit_code p)
         x (cptr p) (yptr p) (optr p) (filesp p).
Definition set_cptr (x : option Z) (p : proc_struct) : proc_struct :=
  mkProc (state p) (pid p) (runs p) (kstack p) (parent p) (mm p) (pgdir p) (flags p) (name p) (exit_code p)
         (wait_state p) x (yptr p) (optr p) (filesp p).
Definition set_yptr (x : option Z) (p : proc_struct) : proc_struct :=
  mkProc (state p) (pid p) (runs p) (kstack p) (parent p) (mm p) (pgdir p) (flags p) (name p) (exit_code p)
         (wait_state p) (cptr p) x (optr p) (filesp p).
Definition set_optr (x : option Z) (p : proc_struct) : proc_struct :=
  mkProc (state p) (pid p) (runs p) (kstack p) (parent p) (mm p) (pgdir p) (flags p) (name p) (exit_code p)
         (wait_state p) (cptr p) (yptr p) x (filesp p).

Definition set_kstack (x : Z) (p : proc_struct) : proc_struct :=
  mkProc (state p) (pid p) (runs p) x (parent p) (mm p) (pgdir p) (flags p) (name p) (exit_code p)
         (wait_state p) (cptr p) (yptr p) (optr p) (filesp p).
Definition set_mm (x : option Z) (p : proc_struct) : proc_struct :=
  mkProc (state p) (pid p) (runs p) (kstack p) (parent p) x (pgdir p) (flags p) (name p) (exit_code p)
         (wait_state p) (cptr p) (yptr p) (optr p) (filesp p).
Definition set_pgdir (x : Z) (p : proc_struct) : proc_struct :=
  mkProc (state p) (pid p) (runs p) (kstack p) (parent p) (mm p) x (flags p) (name p) (exit_code p)
         (wait_state p) (cptr p) (yptr p) (optr p) (filesp p).
Definition set_name (x : list Z) (p : proc_struct) : proc_struct :=
  mkProc (state p) (pid p) (runs p) (kstack p) (parent p) (mm p) (pgdir p) (flags p) x (exit_code p)
         (wait_state p) (cptr p) (yptr p) (optr p) (filesp p).
Definition set_filesp (x : option Z) (p : proc_struct) : proc_struct :=
  mkProc (state p) (pid p) (runs p) (kstack p) (parent p) (mm p) (pgdir p) (flags p) (name p) (exit_code p)
         (wait_state p) (cptr p) (yptr p) (optr p) x.

(** What [alloc_proc] makes of the memory it gets; [boot_pgdir_pa] is the page
    directory of the kernel. *)
Definition fresh_proc (boot_pgdir_pa : Z) : proc_struct :=
  mkProc PROC_UNINIT (-1) 0 0 None None boot_pgdir_pa 0 (repeat 0 15) 0 0 None None None None.
