(* ===== verification/RunQueue.v ===== *)
(** * Scheduling classes (kern/schedule/sched.h, default_sched.c, default_sched_stride.c)

    The run queue, what a scheduling class promises of it ([SchedClass]), and
    the two classes: round robin on a list, stride on a skew heap. *)
From S2P Require Import Prelude SkewHeap.

Definition MAX_TIME_SLICE : Z := 5.

(** The fields of [struct proc_struct] that belong to the scheduling class;
    [on_rq] says that [proc->rq] is the run queue. *)
Record sched_entity := mkSe {
  need_resched : bool; time_slice : Z; on_rq : bool; lab6_stride : Z; lab6_priority : Z }.
Definition set_need_resched (b : bool) (e : sched_entity) : sched_entity :=
  mkSe b (time_slice e) (on_rq e) (lab6_stride e) (lab6_priority e).
Definition set_time_slice (t : Z) (e : sched_entity) : sched_entity :=
  mkSe (need_resched e) t (on_rq e) (lab6_stride e) (lab6_priority e).
Definition set_on_rq (b : bool) (e : sched_entity) : sched_entity :=
  mkSe (need_resched e) (time_slice e) b (lab6_stride e) (lab6_priority e).
Definition set_stride (x : Z) (e : sched_entity) : sched_entity :=
  mkSe (need_resched e) (time_slice e) (on_rq e) x (lab6_priority e).

(** [run_list] holds processes, linked by [run_link]: a process whose link is
    not in the list has an empty one. *)
Record run_queue := mkRq {
  run_list : list Z; proc_num : Z; max_time_slice : Z; lab6_run_pool : option Z }.

(** The run queue, the entities by process, and the nodes [lab6_run_pool]. *)
Record rqs := mkRqs { rq : run_queue; ents : Z -> sched_entity; nodes : heap }.
Definition set_run_list l (q : rqs) : rqs :=
  mkRqs (mkRq l (proc_num (rq q)) (max_time_slice (rq q)) (lab6_run_pool (rq q))) (ents q) (nodes q).
Definition set_proc_num n (q : rqs) : rqs :=
  mkRqs (mkRq (run_list (rq q)) n (max_time_slice (rq q)) (lab6_run_pool (rq q))) (ents q) (nodes q).
Definition set_max_slice n (q : rqs) : rqs :=
  mkRqs (mkRq (run_list (rq q)) (proc_num (rq q)) n (lab6_run_pool (rq q))) (ents q) (nodes q).
Definition set_pool r (q : rqs) : rqs :=
  mkRqs (mkRq (run_list (rq q)) (proc_num (rq q)) (max_time_slice (rq q)) r) (ents q) (nodes q).
Definition set_nodes h (q : rqs) : rqs := mkRqs (rq q) (ents q) h.
Definition on_ent (p : Z) (f : sched_entity -> sched_entity) : ST rqs unit :=
  modify (fun q => mkRqs (rq q) (upd (ents q) p (f (ents q p))) (nodes q)).

(** [list_del_init]. *)
Definition unlink (p : Z) (l : list Z) : list Z := filter (fun x => x <> p) l.

(** What is the same for both classes: the time slice of a process that is
    queued again, and the tick. *)
Definition refill (p : Z) : ST rqs unit :=
  t ← get (fun q => time_slice (ents q p));
  m ← get (fun q => max_time_slice (rq q));
  if (t =? 0) || (m <? t) then on_ent p (set_time_slice m) else mret tt.
Definition tick (p : Z) : ST rqs unit :=
  t ← get (fun q => time_slice (ents q p));
  (if 0 <? t then on_ent p (set_time_slice (t - 1)) else mret tt) ;;
  t ← get (fun q => time_slice (ents q p));
  if t =? 0 then on_ent p (set_need_resched true) else mret tt.

(** ** Round robin *)
Definition RR_init : ST rqs unit := modify (set_run_list []) ;; modify (set_proc_num 0).
Definition RR_enqueue (p : Z) : ST rqs unit :=
  l ← get (fun q => run_list (rq q));
  assert (bool_decide (p ∉ l)) ;;
  modify (set_run_list (l ++ [p])) ;;
  refill p ;;
  on_ent p (set_on_rq true) ;;
  modify (fun q => set_proc_num (u32 (proc_num (rq q) + 1)) q).
Definition RR_dequeue (p : Z) : ST rqs unit :=
  l ← get (fun q => run_list (rq q));
  b ← get (fun q => on_rq (ents q p));
  assert (bool_decide (p ∈ l) && b) ;;
  modify (set_run_list (unlink p l)) ;;
  modify (fun q => set_proc_num (u32 (proc_num (rq q) - 1)) q).
Definition RR_pick_next : ST rqs (option Z) := get (fun q => head (run_list (rq q))).
Definition RR_proc_tick (p : Z) : ST rqs unit := tick p.

(** ** Stride *)
Definition BIG_STRIDE : Z := 2 ^ 30.
Definition proc_stride_comp_f (e : Z -> sched_entity) (a b : Z) : Z :=
  let c := s32 (lab6_stride (e a) - lab6_stride (e b)) in
  if 0 <? c then 1 else if c =? 0 then 0 else -1.

Definition on_nodes (m : ST heap (option Z)) : ST rqs unit :=
  fun q => match m (nodes q) with
           | Done (r, h) => Done (tt, set_pool r (set_nodes h q))
           | Panicked => Panicked
           | NoFuel => NoFuel
           end.

Definition stride_init : ST rqs unit :=
  modify (set_run_list []) ;; modify (set_pool None) ;; modify (set_proc_num 0).
Definition stride_enqueue (p : Z) : ST rqs unit :=
  e ← get ents;
  r ← get (fun q => lab6_run_pool (rq q));
  n ← get (fun q => proc_num (rq q));
  on_nodes (skew_heap_insert (proc_stride_comp_f e) (S (Z.to_nat n)) r p) ;;
  refill p ;;
  on_ent p (set_on_rq true) ;;
  modify (fun q => set_proc_num (u32 (proc_num (rq q) + 1)) q).
Definition stride_dequeue (p : Z) : ST rqs unit :=
  b ← get (fun q => on_rq (ents q p));
  n ← get (fun q => proc_num (rq q));
  assert (b && (0 <? n)) ;;
  e ← get ents;
  r ← get (fun q => lab6_run_pool (rq q));
  on_nodes (skew_heap_remove (proc_stride_comp_f e) (S (Z.to_nat n)) r p) ;;
  modify (fun q => set_proc_num (u32 (proc_num (rq q) - 1)) q).

(** A division by 0 is not defined. *)
Definition stride_pick_next : ST rqs (option Z) :=
  r ← get (fun q => lab6_run_pool (rq q));
  match r with
  | None => mret None
  | Some p =>
      pr ← get (fun q => lab6_priority (ents q p));
      assert (negb (pr =? 0)) ;;
      on_ent p (fun e => set_stride (u32 (lab6_stride e + BIG_STRIDE / lab6_priority e)) e) ;;
      mret (Some p)
  end.
Definition stride_proc_tick (p : Z) : ST rqs unit := tick p.

(** ** The interface *)

(** [sc_queue q l]: the processes of [l] are queued in [q]; [sc_fit]: what a
    process needs to be queued. *)
Class SchedClass := {
  sc_init : ST rqs unit;
  sc_enqueue : Z -> ST rqs unit;
  sc_dequeue : Z -> ST rqs unit;
  sc_pick_next : ST rqs (option Z);
  sc_proc_tick : Z -> ST rqs unit;
  sc_queue : rqs -> list Z -> Prop;
  sc_fit : sched_entity -> Prop;

  sc_fit_resched b e : sc_fit e -> sc_fit (set_need_resched b e);
  sc_queue_resched q l p b : sc_queue q l ->
    sc_queue (mkRqs (rq q) (upd (ents q) p (set_need_resched b (ents q p))) (nodes q)) l;
  (** The entity and the node of a process that is not queued are its own. *)
  sc_queue_new q l p e n : sc_queue q l -> p ∉ l ->
    sc_queue (mkRqs (rq q) (upd (ents q) p e) (upd (nodes q) p n)) l;
  sc_queue_perm q l l' : l ≡ₚ l' -> sc_queue q l -> sc_queue q l';
  sc_queue_nodup q l : sc_queue q l -> NoDup l;
  sc_init_law q : exists q', sc_init q = Done (tt, q') /\ sc_queue q' [] /\ ents q' = ents q;
  sc_enqueue_law q l p : sc_queue q l -> p ∉ l -> Z.of_nat (length l) < 2 ^ 32 - 1 -> sc_fit (ents q p) ->
    exists q', sc_enqueue p q = Done (tt, q') /\ sc_queue q' (p :: l) /\
      forall k, sc_fit (ents q k) -> sc_fit (ents q' k);
  (** A process that was queued is picked and taken out, if there is one. *)
  sc_next_law q l : sc_queue q l -> Z.of_nat (length l) < 2 ^ 32 ->
    match l with
    | [] => sc_pick_next q = Done (None, q)
    | _ => exists p l' q1 q2, sc_pick_next q = Done (Some p, q1) /\ sc_dequeue p q1 = Done (tt, q2) /\
             l ≡ₚ p :: l' /\ sc_queue q2 l' /\ forall k, sc_fit (ents q k) -> sc_fit (ents q2 k)
    end;
  sc_tick_law q l p : sc_queue q l -> exists q', sc_proc_tick p q = Done (tt, q') /\ sc_queue q' l /\
    forall k, sc_fit (ents q k) -> sc_fit (ents q' k) }.
