(* ===== verification/RunQueueSpec.v ===== *)
(** * The scheduling classes keep their promises

    Round robin and stride implement [SchedClass]; stride picks a process with
    the least stride as long as the strides stay within one round. *)
From S2P Require Import Prelude SkewHeap RunQueue.

(** ** Entities *)
Lemma on_ent_run p f q : on_ent p f q = Done (tt, mkRqs (rq q) (upd (ents q) p (f (ents q p))) (nodes q)).
Proof. done. Qed.

(** [q'] is [q] but for the time slice of [p]. *)
Definition same_but_slice (p : Z) (q q' : rqs) : Prop :=
  rq q' = rq q /\ nodes q' = nodes q /\
  exists t, forall k, ents q' k = upd (ents q) p (set_time_slice t (ents q p)) k.

Lemma refill_run p q : exists q', refill p q = Done (tt, q') /\ same_but_slice p q q'.
Proof.
  unfold refill. mstep (eq_refl : get (fun q => time_slice (ents q p)) q = Done (time_slice (ents q p), q)).
  mstep (eq_refl : get (fun q => max_time_slice (rq q)) q = Done (max_time_slice (rq q), q)).
  destruct (_ || _).
  - rewrite on_ent_run. eexists. split; [done|]. split; [done|]. split; [done|]. by eexists.
  - exists q. split; [done|]. split; [done|]. split; [done|]. exists (time_slice (ents q p)). intros k.
    unfold upd. case_decide; [subst; by destruct (ents q p)|done].
Qed.

(** What a tick may change. *)
Definition ticked (p : Z) (q q' : rqs) : Prop :=
  rq q' = rq q /\ nodes q' = nodes q /\
  forall k, on_rq (ents q' k) = on_rq (ents q k) /\ lab6_stride (ents q' k) = lab6_stride (ents q k) /\
            lab6_priority (ents q' k) = lab6_priority (ents q k).

Lemma tick_run p q : exists q', tick p q = Done (tt, q') /\ ticked p q q'.
Proof.
  unfold tick. mstep (eq_refl : get (fun q => time_slice (ents q p)) q = Done (time_slice (ents q p), q)).
  set (q1 := if 0 <? time_slice (ents q p)
             then mkRqs (rq q) (upd (ents q) p (set_time_slice (time_slice (ents q p) - 1) (ents q p))) (nodes q) else q).
  assert (H1 : (if 0 <? time_slice (ents q p) then on_ent p (set_time_slice (time_slice (ents q p) - 1)) else mret tt) q
               = Done (tt, q1)) by (unfold q1; by destruct (0 <? time_slice (ents q p))).
  assert (Ht : ticked p q q1).
  { unfold q1. destruct (0 <? time_slice (ents q p)); [|done]. split; [done|]. split; [done|]. intros k. cbn.
    unfold upd. case_decide; by subst. }
  mstep H1. mstep (eq_refl : get (fun q => time_slice (ents q p)) q1 = Done (time_slice (ents q1 p), q1)).
  destruct (time_slice (ents q1 p) =? 0).
  - rewrite on_ent_run. eexists. split; [done|]. destruct Ht as (Ha & Hb & Hc). split; [done|]. split; [done|].
    intros k. rewrite <- (proj1 (Hc k)), <- (proj1 (proj2 (Hc k))), <- (proj2 (proj2 (Hc k))). cbn.
    unfold upd. case_decide; by subst.
  - by exists q1.
Qed.

(** ** Round robin *)
Record rr_queue (q : rqs) (l : list Z) : Prop := mkRr {
  rr_list : run_list (rq q) ≡ₚ l;
  rr_nodup : NoDup l;
  rr_num : proc_num (rq q) = Z.of_nat (length l);
  rr_on p : p ∈ l -> on_rq (ents q p) = true }.

Lemma unlink_head p l : p ∉ l -> unlink p (p :: l) = l.
Proof.
  intros Hp. unfold unlink. rewrite filter_cons_False by (intros H; by apply H).
  induction l as [|x l IH]; [done|]. apply not_elem_of_cons in Hp as [Hx Hp].
  rewrite filter_cons_True by congruence. by rewrite IH.
Qed.

Lemma unlink_app t a b : t ∉ a -> t ∉ b -> unlink t (a ++ t :: b) = a ++ b.
Proof.
  assert (Hid : forall l, t ∉ l -> unlink t l = l).
  { intros l. induction l as [|x l IH]; [done|]. intros [Hx Hl]%not_elem_of_cons. unfold unlink.
    rewrite filter_cons_True by congruence. f_equal. by apply IH. }
  intros Ha Hb. unfold unlink. rewrite filter_app, filter_cons_False by (intros Hn; by apply Hn).
  f_equal; by apply Hid.
Qed.

Lemma elem_of_unlink x p l : x ∈ unlink p l <-> x ∈ l /\ x <> p.
Proof. unfold unlink. rewrite list_elem_of_filter. tauto. Qed.

Lemma length_unlink p l : NoDup l -> p ∈ l -> S (length (unlink p l)) = length l.
Proof.
  intros Hnd (a & b & ->)%list_elem_of_split. apply NoDup_app in Hnd as (_ & Hd & Hnb). apply NoDup_cons in Hnb as [Hb _].
  assert (Ha : p ∉ a) by (intros Hin; apply (Hd p Hin); left).
  rewrite unlink_app by done. rewrite !length_app. cbn. lia.
Qed.

Lemma NoDup_fmap_unlink {B} (f : Z -> B) p l : NoDup (f <$> l) -> NoDup (f <$> unlink p l).
Proof.
  induction l as [|x l IH]; [done|]. cbn [fmap list_fmap]. intros [Hx Hnd]%NoDup_cons. unfold unlink. rewrite filter_cons.
  case_decide; [|by apply IH]. cbn [fmap list_fmap]. apply NoDup_cons. split; [|by apply IH]. intros (y & Hy & Hin)%list_elem_of_fmap.
  apply Hx. rewrite Hy. apply list_elem_of_fmap_2. by apply list_elem_of_filter in Hin as [_ ?].
Qed.

Lemma RR_enqueue_run q l p :
  rr_queue q l -> p ∉ l -> Z.of_nat (length l) < 2 ^ 32 - 1 ->
  exists q', RR_enqueue p q = Done (tt, q') /\ rr_queue q' (p :: l) /\
    run_list (rq q') = run_list (rq q) ++ [p] /\
    (forall k, need_resched (ents q' k) = need_resched (ents q k)).
Proof.
  intros [Hl Hnd Hn Ho] Hp Hlen. unfold RR_enqueue.
  mstep (eq_refl : get (fun q => run_list (rq q)) q = Done (run_list (rq q), q)).
  rewrite (bind_Done _ _ _ _ _ (assert_true _ q (bool_decide_eq_true_2 (p ∉ run_list (rq q)) ltac:(by rewrite Hl)))).
  set (q1 := set_run_list (run_list (rq q) ++ [p]) q).
  mstep (eq_refl : modify (set_run_list (run_list (rq q) ++ [p])) q = Done (tt, q1)).
  destruct (refill_run p q1) as (q2 & Hr & Hrq & Hno & t & Ht). mstep Hr.
  set (q3 := mkRqs (rq q2) (upd (ents q2) p (set_on_rq true (ents q2 p))) (nodes q2)).
  mstep (eq_refl : on_ent p (set_on_rq true) q2 = Done (tt, q3)).
  exists (set_proc_num (u32 (proc_num (rq q3) + 1)) q3). split; [done|].
  assert (Hents : forall k, ents q3 k = upd (ents q) p (set_on_rq true (set_time_slice t (ents q p))) k).
  { intros k. unfold q3. cbn. unfold upd at 1 2. case_decide as Hk; [by rewrite Ht, upd_eq|].
    rewrite Ht, upd_ne by done. done. }
  split; [split|split].
  - cbn. rewrite Hrq. cbn. rewrite Hl, Permutation_app_comm. done.
  - by apply NoDup_cons.
  - cbn. rewrite Hrq. cbn. rewrite Hn, u32_small by lia. lia.
  - intros k Hk. cbn [set_proc_num ents]. rewrite Hents. unfold upd. case_decide as Hd; [done|].
    apply Ho. apply elem_of_cons in Hk as [|]; [done|done].
  - cbn. by rewrite Hrq.
  - intros k. cbn [set_proc_num ents]. rewrite Hents. unfold upd. case_decide; by subst.
Qed.

Lemma RR_dequeue_run q l p l' :
  rr_queue q l -> run_list (rq q) = p :: l' -> Z.of_nat (length l) < 2 ^ 32 ->
  exists q', RR_dequeue p q = Done (tt, q') /\ rr_queue q' l' /\ run_list (rq q') = l' /\
    ents q' = ents q /\ l ≡ₚ p :: l'.
Proof.
  intros [Hl Hnd Hn Ho] Heq Hlen. unfold RR_dequeue. rewrite Heq in Hl.
  assert (Hnd' : NoDup (p :: l')) by (by rewrite Hl). apply NoDup_cons in Hnd' as [Hp Hnd'].
  mstep (eq_refl : get (fun q => run_list (rq q)) q = Done (run_list (rq q), q)).
  mstep (eq_refl : get (fun q => on_rq (ents q p)) q = Done (on_rq (ents q p), q)).
  rewrite Heq, Ho by (rewrite <- Hl; left).
  assert (Has : bool_decide (p ∈ p :: l') && true = true) by (rewrite bool_decide_eq_true_2; [done|left]).
  rewrite (bind_Done _ _ _ _ _ (assert_true _ q Has)).
  rewrite unlink_head by done. eexists. split; [reflexivity|]. apply Permutation_length in Hl as Hlen'. cbn in Hlen'.
  split; [split|split; [done|split; [done|by symmetry]]].
  - done.
  - done.
  - cbn. rewrite Hn, u32_small by lia. lia.
  - intros k Hk. apply Ho. rewrite <- Hl. by right.
Qed.

#[export] Program Instance RR_class : SchedClass := {|
  sc_init := RR_init; sc_enqueue := RR_enqueue; sc_dequeue := RR_dequeue;
  sc_pick_next := RR_pick_next; sc_proc_tick := RR_proc_tick; sc_queue := rr_queue; sc_fit e := True |}.
Next Obligation. done. Qed.
Next Obligation.
  intros q l p b [Hl Hnd Hn Ho]. split; try done. intros k Hk. cbn. unfold upd. case_decide; subst; by apply Ho.
Qed.
Next Obligation.
  intros q l p e n [Hl Hnd Hn Ho] Hp. split; try done. intros k Hk. cbn. rewrite upd_ne; [by apply Ho|by intros ->].
Qed.
Next Obligation.
  intros q l l' Hp [Hl Hnd Hn Ho]. split; [by rewrite Hl|by rewrite <- Hp| |intros k Hk; apply Ho; by rewrite Hp].
  rewrite Hn. by rewrite Hp.
Qed.
Next Obligation. by intros q l []. Qed.
Next Obligation.
  intros q. eexists. split; [reflexivity|]. split; [|done]. split; cbn; try done; [constructor|].
  intros p Hp. by apply elem_of_nil in Hp.
Qed.
Next Obligation.
  intros q l p Hq Hp Hlen _. destruct (RR_enqueue_run q l p Hq Hp Hlen) as (q' & Hr & Hq' & _). by exists q'.
Qed.
Next Obligation.
  intros q l Hq Hlen. pose proof Hq as [Hl _ _ _]. unfold RR_pick_next. destruct l as [|x l].
  - symmetry in Hl. apply Permutation_nil in Hl. cbv [get]. by rewrite Hl.
  - destruct (run_list (rq q)) as [|p l'] eqn:Heq; [by apply Permutation_nil in Hl|].
    destruct (RR_dequeue_run q (x :: l) p l' Hq Heq Hlen) as (q' & Hr & Hq' & _ & _ & Hp).
    exists p, l', q, q'. split; [cbv [get]; by rewrite Heq|]. by split_and!.
Qed.
Next Obligation.
  intros q l p [Hl Hnd Hn Ho]. destruct (tick_run p q) as (q' & Hr & Hrq & Hno & He).
  exists q'. split; [done|]. split; [|done]. split; [by rewrite Hrq|done|by rewrite Hrq|].
  intros k Hk. destruct (He k) as [-> _]. by apply Ho.
Qed.

(** ** Stride *)
Definition stride_heap (q : rqs) (l : list Z) (t : tree) : Prop :=
  is_heap (nodes q) t /\ lab6_run_pool (rq q) = root t /\ elements t ≡ₚ l /\
  proc_num (rq q) = Z.of_nat (length l) /\
  forall p, p ∈ l -> on_rq (ents q p) = true /\ 0 < lab6_priority (ents q p).
Definition stride_queue (q : rqs) (l : list Z) : Prop := exists t, stride_heap q l t.

Lemma stride_enqueue_run q l t p :
  stride_heap q l t -> p ∉ l -> Z.of_nat (length l) < 2 ^ 32 - 1 -> 0 < lab6_priority (ents q p) ->
  exists q' t', stride_enqueue p q = Done (tt, q') /\ stride_heap q' (p :: l) t' /\
    (forall k, lab6_stride (ents q' k) = lab6_stride (ents q k) /\
               lab6_priority (ents q' k) = lab6_priority (ents q k)) /\
    forall D le, comparison (proc_stride_comp_f (ents q)) D le -> (forall x, x ∈ p :: l -> D x) ->
      ordered le t -> ordered le t'.
Proof.
  intros (Hh & Hroot & Hel & Hn & Ho) Hp Hlen Hpr. unfold stride_enqueue.
  mstep (eq_refl : get ents q = Done (ents q, q)).
  mstep (eq_refl : get (fun q => lab6_run_pool (rq q)) q = Done (lab6_run_pool (rq q), q)).
  mstep (eq_refl : get (fun q => proc_num (rq q)) q = Done (proc_num (rq q), q)).
  destruct (heap_insert_run (proc_stride_comp_f (ents q)) (S (Z.to_nat (proc_num (rq q)))) (nodes q) t p)
    as (h' & t' & Hrun & Hh' & Hel' & Hord); [done|by rewrite Hel|rewrite Hn, Hel; lia|].
  set (q1 := set_pool (root t') (set_nodes h' q)).
  assert (Hon : on_nodes (skew_heap_insert (proc_stride_comp_f (ents q)) (S (Z.to_nat (proc_num (rq q))))
                            (lab6_run_pool (rq q)) p) q = Done (tt, q1)) by (unfold on_nodes; by rewrite Hroot, Hrun).
  mstep Hon. destruct (refill_run p q1) as (q2 & Hr & Hrq & Hno & s & Ht). mstep Hr.
  set (q3 := mkRqs (rq q2) (upd (ents q2) p (set_on_rq true (ents q2 p))) (nodes q2)).
  mstep (eq_refl : on_ent p (set_on_rq true) q2 = Done (tt, q3)).
  assert (Hents : forall k, ents q3 k = upd (ents q) p (set_on_rq true (set_time_slice s (ents q p))) k).
  { intros k. unfold q3. cbn. unfold upd at 1 2. case_decide as Hk; [by rewrite Ht, upd_eq|].
    rewrite Ht, upd_ne by done. done. }
  exists (set_proc_num (u32 (proc_num (rq q3) + 1)) q3), t'. split; [done|]. split; [|split].
  - split; [cbn; by rewrite Hno|]. split; [cbn; by rewrite Hrq|]. split; [by rewrite Hel', Hel|].
    split; [cbn; rewrite Hrq; cbn; rewrite Hn, u32_small by lia; lia|].
    intros k Hk. cbn [set_proc_num ents]. rewrite Hents. unfold upd. destruct (decide (k = p)) as [->|Hd]; [done|].
    apply Ho. by apply elem_of_cons in Hk as [|].
  - intros k. cbn [set_proc_num ents]. rewrite Hents. unfold upd. case_decide; by subst.
  - intros D le Hc HD Hot. apply (Hord D); [done| |done]. intros x Hx. apply HD.
    by rewrite elem_of_cons, Hel, <- elem_of_cons in Hx.
Qed.

(** [p] is picked and taken out. *)
Lemma stride_next_run q l lt p rt :
  stride_heap q l (Node lt p rt) -> Z.of_nat (length l) < 2 ^ 32 ->
  exists q1 q2 t', stride_pick_next q = Done (Some p, q1) /\ stride_dequeue p q1 = Done (tt, q2) /\
    stride_heap q2 (elements lt ++ elements rt) t' /\
    lab6_stride (ents q2 p) = u32 (lab6_stride (ents q p) + BIG_STRIDE / lab6_priority (ents q p)) /\
    (forall k, k <> p -> lab6_stride (ents q2 k) = lab6_stride (ents q k)) /\
    (forall k, lab6_priority (ents q2 k) = lab6_priority (ents q k)) /\
    forall D le, comparison (proc_stride_comp_f (ents q1)) D le ->
      (forall y, y ∈ elements lt ++ elements rt -> D y) -> ordered le lt -> ordered le rt -> ordered le t'.
Proof.
  intros (Hh & Hroot & Hel & Hn & Ho) Hlen.
  assert (Hp : p ∈ l) by (rewrite <- Hel; left). destruct (Ho p Hp) as [Hon Hpr].
  set (q1 := mkRqs (rq q) (upd (ents q) p (set_stride
    (u32 (lab6_stride (ents q p) + BIG_STRIDE / lab6_priority (ents q p))) (ents q p))) (nodes q)).
  assert (Hon1 : forall k, on_rq (ents q1 k) = on_rq (ents q k) /\ lab6_priority (ents q1 k) = lab6_priority (ents q k))
    by (intros k; cbn; unfold upd; case_decide; by subst).
  destruct (remove_top (proc_stride_comp_f (ents q1)) (S (Z.to_nat (proc_num (rq q)))) (Some p) p lt rt (nodes q) Hh)
    as (h' & t' & Hrun & Hh' & Hel' & Hord); [rewrite Hel, Hn; lia|].
  set (q2 := set_proc_num (u32 (proc_num (rq q) - 1)) (set_pool (root t') (set_nodes h' q1))).
  assert (Hlenl : length l = S (length (elements lt ++ elements rt))) by (rewrite <- Hel; done).
  exists q1, q2, t'. split; [|split; [|split; [|split; [|split; [|split; [|done]]]]]].
  - unfold stride_pick_next.
    mstep (eq_refl : get (fun q => lab6_run_pool (rq q)) q = Done (lab6_run_pool (rq q), q)). rewrite Hroot. cbn [root].
    mstep (eq_refl : get (fun q => lab6_priority (ents q p)) q = Done (lab6_priority (ents q p), q)).
    assert (Hnz : negb (lab6_priority (ents q p) =? 0) = true) by (destruct (Z.eqb_spec (lab6_priority (ents q p)) 0); [lia|done]).
    by rewrite (bind_Done _ _ _ _ _ (assert_true _ q Hnz)).
  - unfold stride_dequeue.
    mstep (eq_refl : get (fun q => on_rq (ents q p)) q1 = Done (on_rq (ents q1 p), q1)).
    mstep (eq_refl : get (fun q => proc_num (rq q)) q1 = Done (proc_num (rq q), q1)).
    destruct (Hon1 p) as [-> _]. rewrite Hon.
    assert (Hpos : true && (0 <? proc_num (rq q)) = true) by (rewrite Hn; apply Z.ltb_lt; lia).
    rewrite (bind_Done _ _ _ _ _ (assert_true _ q1 Hpos)).
    mstep (eq_refl : get ents q1 = Done (ents q1, q1)).
    mstep (eq_refl : get (fun q => lab6_run_pool (rq q)) q1 = Done (lab6_run_pool (rq q), q1)). rewrite Hroot. cbn [root].
    assert (Hon2 : on_nodes (skew_heap_remove (proc_stride_comp_f (ents q1)) (S (Z.to_nat (proc_num (rq q)))) (Some p) p) q1
                   = Done (tt, set_pool (root t') (set_nodes h' q1))).
    { unfold on_nodes. change (nodes q1) with (nodes q). by rewrite Hrun. }
    by mstep Hon2.
  - split; [done|]. split; [done|]. split; [done|]. split; [cbn; rewrite Hn, Hlenl, u32_small by lia; lia|].
    intros k Hk. cbn [q2 set_proc_num set_pool set_nodes ents]. destruct (Hon1 k) as [-> ->]. apply Ho. rewrite <- Hel. by right.
  - cbn. by rewrite upd_eq.
  - intros k Hk. cbn. by rewrite upd_ne.
  - intros k. cbn [q2 set_proc_num set_pool set_nodes ents]. by destruct (Hon1 k).
Qed.

Program Definition Stride_class : SchedClass := {|
  sc_init := stride_init; sc_enqueue := stride_enqueue; sc_dequeue := stride_dequeue;
  sc_pick_next := stride_pick_next; sc_proc_tick := stride_proc_tick; sc_queue := stride_queue;
  sc_fit e := 0 < lab6_priority e |}.
Next Obligation. done. Qed.
Next Obligation.
  intros q l p b (t & Hh & Hroot & Hel & Hn & Ho). exists t. do 4 (split; [done|]). intros k Hk. cbn.
  unfold upd. case_decide; subst; by apply Ho.
Qed.
Next Obligation.
  intros q l p e n (t & [Hr Htop Hnd] & Hroot & Hel & Hn & Ho) Hp. exists t.
  assert (Hne : forall x, x ∈ elements t -> x <> p) by (intros x Hx ->; apply Hp; by rewrite <- Hel).
  split; [|split; [done|split; [done|split; [done|]]]].
  - split; cbn; [|intros y Hy; rewrite upd_ne; [by apply Htop|apply Hne; by apply root_elem]|done].
    apply (rep_ext (nodes q)); [|done]. intros x Hx. apply upd_ne. by apply Hne.
  - intros k Hk. cbn. rewrite upd_ne; [by apply Ho|by intros ->].
Qed.
Next Obligation.
  intros q l l' Hp (t & Hh & Hroot & Hel & Hn & Ho). exists t. do 2 (split; [done|]). split; [by rewrite Hel|].
  split; [by rewrite Hn, Hp|]. intros k Hk. apply Ho. by rewrite Hp.
Qed.
Next Obligation. intros q l (t & [_ _ Hnd] & _ & Hel & _). by rewrite <- Hel. Qed.
Next Obligation.
  intros q. eexists. split; [reflexivity|]. split; [|done]. exists Leaf. split; [split; [done|done|constructor]|].
  do 3 (split; [done|]). intros p Hp. by apply elem_of_nil in Hp.
Qed.
Next Obligation.
  intros q l p (t & Ht) Hp Hlen Hf. destruct (stride_enqueue_run q l t p Ht Hp Hlen Hf) as (q' & t' & Hr & Hq' & Hk & _).
  exists q'. split; [done|]. split; [by exists t'|]. intros k. by destruct (Hk k) as [_ ->].
Qed.
Next Obligation.
  intros q l (t & Ht) Hlen. destruct t as [|lt p rt].
  - destruct Ht as (_ & Hroot & Hel & _). symmetry in Hel. apply Permutation_nil_r in Hel. subst l.
    unfold stride_pick_next.
    mstep (eq_refl : get (fun q => lab6_run_pool (rq q)) q = Done (lab6_run_pool (rq q), q)). by rewrite Hroot.
  - destruct (stride_next_run q l lt p rt Ht Hlen) as (q1 & q2 & t' & H1 & H2 & H3 & _ & _ & Hpr & _).
    destruct Ht as (_ & _ & Hel & _). destruct l as [|x l]; [apply Permutation_nil_r in Hel; done|].
    exists p, (elements lt ++ elements rt), q1, q2. do 2 (split; [done|]). split; [by rewrite <- Hel|].
    split; [by exists t'|]. intros k. by rewrite Hpr.
Qed.
Next Obligation.
  intros q l p (t & Hh & Hroot & Hel & Hn & Ho). destruct (tick_run p q) as (q' & Hr & Hrq & Hno & He).
  exists q'. split; [done|]. split.
  - exists t. unfold stride_heap. rewrite Hno, Hrq. do 4 (split; [done|]). intros k Hk. destruct (He k) as (-> & _ & ->). by apply Ho.
  - intros k. by destruct (He k) as (_ & _ & ->).
Qed.

(** How far the stride of [p] is ahead of [base], around the end of 32 bits. *)
Definition ahead (base : Z) (e : Z -> sched_entity) (p : Z) : Z := u32 (lab6_stride (e p) - base).

Lemma s32_minus a b base :
  u32 (a - base) <= 2 ^ 30 -> u32 (b - base) <= 2 ^ 30 -> s32 (a - b) = u32 (a - base) - u32 (b - base).
Proof.
  intros Ha Hb. pose proof (u32_range (a - base)). pose proof (u32_range (b - base)). unfold s32.
  replace (a - b + 2 ^ 31) with ((a - base) - (b - base) + 2 ^ 31) by lia.
  rewrite <- Zplus_mod_idemp_l, Zminus_mod. change ((a - base) mod 2 ^ 32) with (u32 (a - base)).
  change ((b - base) mod 2 ^ 32) with (u32 (b - base)). rewrite Zplus_mod_idemp_l, Z.mod_small; lia.
Qed.

Lemma comp_ahead base e a b :
  ahead base e a <= BIG_STRIDE -> ahead base e b <= BIG_STRIDE ->
  proc_stride_comp_f e a b = if ahead base e b <? ahead base e a then 1
                             else if ahead base e a =? ahead base e b then 0 else -1.
Proof.
  unfold ahead, BIG_STRIDE, proc_stride_comp_f. intros Ha Hb. rewrite (s32_minus _ _ base Ha Hb).
  destruct (Z.ltb_spec 0 (u32 (lab6_stride (e a) - base) - u32 (lab6_stride (e b) - base)));
    destruct (Z.ltb_spec (u32 (lab6_stride (e b) - base)) (u32 (lab6_stride (e a) - base))); try lia; try done.
  destruct (Z.eqb_spec (u32 (lab6_stride (e a) - base) - u32 (lab6_stride (e b) - base)) 0);
    destruct (Z.eqb_spec (u32 (lab6_stride (e a) - base)) (u32 (lab6_stride (e b) - base))); done || lia.
Qed.

Lemma stride_comparison base e (D : Z -> Prop) :
  (forall p, D p -> ahead base e p <= BIG_STRIDE) ->
  comparison (proc_stride_comp_f e) D (fun a b => ahead base e a <= ahead base e b).
Proof.
  intros HD. split; [|intros; lia]. intros x y Hx Hy. rewrite (comp_ahead base e x y) by auto.
  destruct (Z.ltb_spec (ahead base e y) (ahead base e x)); [cbn; lia|].
  destruct (Z.eqb_spec (ahead base e x) (ahead base e y)); cbn; lia.
Qed.

Lemma comparison_ext comp (comp' : Z -> Z -> Z) D le :
  (forall x y, D x -> D y -> comp' x y = comp x y) -> comparison comp D le -> comparison comp' D le.
Proof. intros He [H1 H2]. split; [|done]. intros x y Hx Hy. rewrite He by done. by apply H1. Qed.

Lemma ordered_mono (le le' : Z -> Z -> Prop) t :
  (forall x y, x ∈ elements t -> y ∈ elements t -> le x y -> le' x y) -> ordered le t -> ordered le' t.
Proof.
  induction t as [|l IHl x r IHr]; [done|]. cbn. intros Hi (Hx & Hl & Hr).
  assert (Hsub : forall y, y ∈ elements l \/ y ∈ elements r -> y ∈ x :: elements l ++ elements r)
    by (intros y Hy; right; by apply elem_of_app).
  split; [intros y Hy; apply Hi; [left|right; done|by apply Hx]|]. split.
  - apply IHl; [|done]. intros; apply Hi; auto.
  - apply IHr; [|done]. intros; apply Hi; auto.
Qed.

(** The strides of the processes queued are at most one [BIG_STRIDE] ahead of
    [base], and the pool is ordered by them. *)
Definition stride_order (base : Z) (q : rqs) (l : list Z) : Prop := exists t,
  stride_heap q l t /\ (forall p, p ∈ l -> ahead base (ents q) p <= BIG_STRIDE) /\
  ordered (fun a b => ahead base (ents q) a <= ahead base (ents q) b) t.

Lemma ahead_shift base e p k :
  ahead base e p <= ahead base e k ->
  ahead (lab6_stride (e p)) e k = ahead base e k - ahead base e p.
Proof.
  unfold ahead. pose proof (u32_range (lab6_stride (e p) - base)). pose proof (u32_range (lab6_stride (e k) - base)).
  intros Hle. unfold u32 at 1.
  replace (lab6_stride (e k) - lab6_stride (e p)) with ((lab6_stride (e k) - base) - (lab6_stride (e p) - base)) by lia.
  rewrite Zminus_mod. apply Z.mod_small. unfold u32 in *. lia.
Qed.

(** The strides in the pool after [p] was taken out, seen from the stride that
    [p] had. *)
Lemma stride_next_order base q l :
  stride_order base q l -> l <> [] -> Z.of_nat (length l) < 2 ^ 32 ->
  exists p l' q1 q2, stride_pick_next q = Done (Some p, q1) /\ stride_dequeue p q1 = Done (tt, q2) /\
    l ≡ₚ p :: l' /\ (forall k, k ∈ l -> ahead base (ents q) p <= ahead base (ents q) k) /\
    stride_order (lab6_stride (ents q p)) q2 l' /\
    lab6_stride (ents q2 p) = u32 (lab6_stride (ents q p) + BIG_STRIDE / lab6_priority (ents q p)) /\
    (forall k, lab6_priority (ents q2 k) = lab6_priority (ents q k)) /\
    0 < lab6_priority (ents q p).
Proof.
  intros (t & Ht & Hwin & Hord) Hne Hlen. pose proof Ht as (Hh & Hroot & Hel & _ & Hon).
  destruct t as [|lt p rt]; [apply Permutation_nil_l in Hel; done|].
  destruct (stride_next_run q l lt p rt Ht Hlen) as (q1 & q2 & t' & Hpick & Hdeq & Ht' & Hsp & Hso & Hpr & Hord').
  assert (Hp : p ∈ l) by (rewrite <- Hel; left).
  assert (Hmin : forall k, k ∈ l -> ahead base (ents q) p <= ahead base (ents q) k).
  { intros k Hk. rewrite <- Hel in Hk. cbn in Hk. apply elem_of_cons in Hk as [->|Hk]; [lia|]. by apply (proj1 Hord). }
  assert (Hsub : forall k, k ∈ elements lt ++ elements rt -> k ∈ l) by (intros k Hk; rewrite <- Hel; by right).
  assert (Hnp : forall k, k ∈ elements lt ++ elements rt -> k <> p).
  { intros k Hk ->. destruct Hh as [_ _ Hnd]. cbn in Hnd. by apply NoDup_cons in Hnd as [? _]. }
  assert (Hahead : forall k, k ∈ elements lt ++ elements rt ->
            ahead (lab6_stride (ents q p)) (ents q2) k = ahead base (ents q) k - ahead base (ents q) p).
  { intros k Hk. unfold ahead at 1. rewrite Hso by auto. fold (ahead (lab6_stride (ents q p)) (ents q) k).
    apply ahead_shift. auto. }
  exists p, (elements lt ++ elements rt), q1, q2. split; [done|]. split; [done|]. split; [by rewrite <- Hel|].
  split; [done|]. split; [|split; [done|split; [done|by apply Hon]]].
  exists t'. split; [done|]. split.
  - intros k Hk. rewrite Hahead by done. specialize (Hwin k (Hsub k Hk)).
    pose proof (u32_range (lab6_stride (ents q p) - base)). unfold ahead in *. lia.
  - destruct Hord as (_ & Hol & Hor).
    assert (Hq1 : forall k, k <> p -> ents q1 k = ents q k).
    { intros k Hk. clear - Hpick Hk Hroot. unfold stride_pick_next in Hpick.
      apply bind_Done_inv in Hpick as (r & s1 & [= <- <-] & Hpick). rewrite Hroot in Hpick. cbn [root] in Hpick.
      apply bind_Done_inv in Hpick as (r & s1 & [= <- <-] & Hpick).
      apply bind_Done_inv in Hpick as (r1 & s1 & Has & Hpick).
      apply assert_Done_inv in Has as [_ [= -> ->]]. injection Hpick as <-. cbn. by rewrite upd_ne. }
    apply (ordered_mono (fun a b => ahead base (ents q) a <= ahead base (ents q) b)).
    { intros x y Hx Hy Hle. destruct Ht' as (_ & _ & Hel' & _). rewrite !Hahead by (by rewrite <- Hel'). lia. }
    apply (Hord' (fun k => k ∈ elements lt ++ elements rt)); [|done|done|done].
    apply (comparison_ext (proc_stride_comp_f (ents q))).
    + intros x y Hx Hy. unfold proc_stride_comp_f. by rewrite !Hq1 by auto.
    + apply stride_comparison. intros k Hk. apply Hwin. auto.
Qed.

(** C29 Stride scheduling: as long as the strides of the queued processes stay
    within one [BIG_STRIDE] of each other (around the end of 32 bits), the
    process picked is one with the least stride; its stride grows by
    [BIG_STRIDE] over its priority; and when it is queued again the strides
    again stay within one [BIG_STRIDE], counted from the stride just served. *)
Theorem stride_round_keeps_order base q l :
  stride_order base q l -> l <> [] -> Z.of_nat (length l) < 2 ^ 32 - 1 ->
  exists p l' q1 q2 q3, stride_pick_next q = Done (Some p, q1) /\ stride_dequeue p q1 = Done (tt, q2) /\
    stride_enqueue p q2 = Done (tt, q3) /\ l ≡ₚ p :: l' /\
    (forall k, k ∈ l -> ahead base (ents q) p <= ahead base (ents q) k) /\
    stride_order (lab6_stride (ents q p)) q3 (p :: l') /\
    lab6_stride (ents q3 p) = u32 (lab6_stride (ents q p) + BIG_STRIDE / lab6_priority (ents q p)).
Proof.
  intros Ho Hne Hlen.
  destruct (stride_next_order base q l Ho Hne ltac:(lia)) as (p & l' & q1 & q2 & Hpick & Hdeq & Hl & Hmin & Ho2 & Hs & Hpr & Hpos).
  destruct Ho2 as (t2 & Ht2 & Hwin2 & Hord2).
  assert (Hnd : NoDup (p :: l')).
  { destruct Ho as (t & (Hh & _ & Hel & _) & _). rewrite <- Hl, <- Hel. by destruct Hh. }
  apply NoDup_cons in Hnd as [Hp Hnd].
  assert (Hlen' : length l = S (length l')) by (by rewrite Hl).
  destruct (stride_enqueue_run q2 l' t2 p Ht2 Hp ltac:(lia) ltac:(rewrite Hpr; lia)) as (q3 & t3 & Henq & Ht3 & Hk3 & Hord3).
  set (b := lab6_stride (ents q p)) in *.
  assert (Ha3 : forall k, ahead b (ents q3) k = ahead b (ents q2) k) by (intros k; unfold ahead; by destruct (Hk3 k) as [-> _]).
  assert (Hap : ahead b (ents q2) p <= BIG_STRIDE).
  { unfold ahead. rewrite Hs. unfold u32. rewrite Zminus_mod_idemp_l.
    replace (b + BIG_STRIDE / lab6_priority (ents q p) - b) with (BIG_STRIDE / lab6_priority (ents q p)) by lia.
    assert (0 <= BIG_STRIDE / lab6_priority (ents q p) <= BIG_STRIDE).
    { split; [apply Z.div_pos; unfold BIG_STRIDE; lia|]. apply Z.div_le_upper_bound; [lia|]. unfold BIG_STRIDE. nia. }
    rewrite Z.mod_small; unfold BIG_STRIDE in *; lia. }
  assert (Hall : forall k, k ∈ p :: l' -> ahead b (ents q2) k <= BIG_STRIDE)
    by (intros k Hk; apply elem_of_cons in Hk as [->|Hk]; [done|by apply Hwin2]).
  exists p, l', q1, q2, q3. do 4 (split; [done|]). split; [done|]. split; [|by destruct (Hk3 p) as [-> _]].
  exists t3. split; [done|]. split; [intros k Hk; rewrite Ha3; by apply Hall|].
  apply (ordered_mono (fun x y => ahead b (ents q2) x <= ahead b (ents q2) y)); [intros x y _ _; by rewrite !Ha3|].
  apply (Hord3 (fun k => k ∈ p :: l')); [|done|done]. by apply stride_comparison.
Qed.

(** Three processes around the end of 32 bits: 2 is next although its stride is
    the largest number. *)
Definition sample_ents (p : Z) : sched_entity :=
  mkSe false 5 true (if p =? 2 then 2 ^ 32 - 100 else p) (if p =? 2 then 2 else 1).
Definition sample_nodes : heap := fun p =>
  if p =? 2 then mkNode None (Some 3) (Some 4) else mkNode (Some 2) None None.
Definition sample_rqs : rqs := mkRqs (mkRq [] 3 5 (Some 2)) sample_ents sample_nodes.
Lemma sample_stride_order : stride_order (2 ^ 32 - 100) sample_rqs [2; 3; 4].
Proof.
  set (t := Node (Node Leaf 3 Leaf) 2 (Node Leaf 4 Leaf)).
  assert (Hnd : bool_decide (NoDup (elements t)) = true) by (vm_compute; reflexivity).
  apply bool_decide_eq_true in Hnd. exists t. split; [split|split].
  - refine (mkHeap _ _ _ _ Hnd); [|by intros y [= <-]]. cbn. do 2 (split; [done|]).
    split; [by intros y [[= <-]|[= <-]]|]. split; (do 2 (split; [done|]); split; [by intros y [?|?]|done]).
  - do 3 (split; [done|]). intros p _. cbn. split; [done|]. destruct (p =? 2); lia.
  - intros p Hp. apply Z.leb_le. revert p Hp. apply Forall_forall.
    repeat (constructor; [vm_compute; reflexivity|]). constructor.
  - assert (Hle : forall y, y ∈ [3; 4] -> ahead (2 ^ 32 - 100) sample_ents 2 <= ahead (2 ^ 32 - 100) sample_ents y).
    { intros y Hy. apply Z.leb_le. revert y Hy. apply Forall_forall.
      repeat (constructor; [vm_compute; reflexivity|]). constructor. }
    cbn [ordered elements app]. split; [exact Hle|]. split; (split; [|done]); intros y Hy; by apply elem_of_nil in Hy.
Qed.

Lemma stride_round_keeps_order_witness :
  (result (stride_pick_next sample_rqs)) = Some (Some 2) /\
  exists p l' q1 q2 q3, stride_pick_next sample_rqs = Done (Some p, q1) /\ stride_dequeue p q1 = Done (tt, q2) /\
    stride_enqueue p q2 = Done (tt, q3) /\ [2; 3; 4] ≡ₚ p :: l' /\
    (forall k, k ∈ [2; 3; 4] -> ahead (2 ^ 32 - 100) (ents sample_rqs) p <= ahead (2 ^ 32 - 100) (ents sample_rqs) k) /\
    stride_order (lab6_stride (ents sample_rqs p)) q3 (p :: l') /\
    lab6_stride (ents q3 p) = u32 (lab6_stride (ents sample_rqs p) + BIG_STRIDE / lab6_priority (ents sample_rqs p)).
Proof.
  split; [vm_compute; reflexivity|].
  apply (stride_round_keeps_order (2 ^ 32 - 100) sample_rqs [2; 3; 4] sample_stride_order); [done|cbn; lia].
Defined.
