(* ===== verification/Sched.v ===== *)
(** * The scheduler (kern/schedule/sched.c)

    Waking, switching and timers over any scheduling class.  [schedule] is one
    transfer of the processor: what the process that called it does next
    happens when it is picked again. *)
From S2P Require Import Prelude RunQueue Proc.

(** A timer; it is linked when its address is in the list of timers. *)
Record timer_t := mkTimer { expires : Z; tproc : Z }.

Record sched := mkSched {
  queues : rqs; procs : Z -> proc_struct; current : Z; idleproc : Z;
  timer : Z -> timer_t; timer_list : list Z }.
Definition set_queues q (s : sched) : sched := mkSched q (procs s) (current s) (idleproc s) (timer s) (timer_list s).
Definition set_procs f (s : sched) : sched := mkSched (queues s) f (current s) (idleproc s) (timer s) (timer_list s).
Definition set_current c (s : sched) : sched := mkSched (queues s) (procs s) c (idleproc s) (timer s) (timer_list s).
Definition set_timer f (s : sched) : sched := mkSched (queues s) (procs s) (current s) (idleproc s) f (timer_list s).
Definition set_timer_list l (s : sched) : sched := mkSched (queues s) (procs s) (current s) (idleproc s) (timer s) l.

Definition on_queues {A} (m : ST rqs A) : ST sched A :=
  fun s => match m (queues s) with
           | Done (a, q) => Done (a, set_queues q s)
           | Panicked => Panicked
           | NoFuel => NoFuel
           end.
Definition on_proc (p : Z) (f : proc_struct -> proc_struct) : ST sched unit :=
  modify (fun s => set_procs (upd (procs s) p (f (procs s p))) s).

Section sched_ops.
  Context `{SchedClass}.

Definition sched_class_enqueue (p : Z) : ST sched unit :=
  idle ← get idleproc;
  if p =? idle then mret tt else on_queues (sc_enqueue p).
Definition sched_class_dequeue (p : Z) : ST sched unit := on_queues (sc_dequeue p).
Definition sched_class_pick_next : ST sched (option Z) := on_queues sc_pick_next.
Definition sched_class_proc_tick (p : Z) : ST sched unit :=
  idle ← get idleproc;
  if p =? idle then on_queues (on_ent p (set_need_resched true)) else on_queues (sc_proc_tick p).

Definition sched_init : ST sched unit :=
  modify (set_timer_list []) ;;
  on_queues (modify (set_max_slice MAX_TIME_SLICE)) ;;
  on_queues sc_init.

Definition wakeup_proc (p : Z) : ST sched unit :=
  st ← get (fun s => state (procs s p));
  assert (bool_decide (st <> PROC_ZOMBIE)) ;;
  if decide (st <> PROC_RUNNABLE) then
    on_proc p (set_state PROC_RUNNABLE) ;;
    on_proc p (set_wait_state 0) ;;
    cur ← get current;
    if p =? cur then mret tt else sched_class_enqueue p
  else mret tt.

(** The process, whose page table and registers the processor gets. *)
Definition proc_run (p : Z) : ST sched unit := modify (set_current p).

Definition schedule : ST sched unit :=
  cur ← get current;
  on_queues (on_ent cur (set_need_resched false)) ;;
  st ← get (fun s => state (procs s cur));
  (if decide (st = PROC_RUNNABLE) then sched_class_enqueue cur else mret tt) ;;
  next ← sched_class_pick_next;
  (match next with Some n => sched_class_dequeue n | None => mret tt end) ;;
  idle ← get idleproc;
  let next := match next with Some n => n | None => idle end in
  on_proc next (fun p => set_runs (s32 (runs p + 1)) p) ;;
  if next =? cur then mret tt else proc_run next.

(** ** Timers: each counts from the one before it *)
Definition timer_init (t p e : Z) : ST sched unit :=
  modify (fun s => set_timer (upd (timer s) t (mkTimer e p)) s).
Definition set_expires (t e : Z) : ST sched unit :=
  modify (fun s => set_timer (upd (timer s) t (mkTimer e (tproc (timer s t)))) s).

(** The timers that [t] passes, and the rest; [expires] of [t] and of the timer
    it stops at are adjusted. *)
Fixpoint pass_timers (t : Z) (l : list Z) : ST sched (list Z * list Z) :=
  match l with
  | [] => mret ([], [])
  | n :: l' =>
      e ← get (fun s => expires (timer s t));
      ne ← get (fun s => expires (timer s n));
      if e <? ne then set_expires n (ne - e) ;; mret ([], l)
      else
        set_expires t (e - ne) ;;
        '(a, b) ← pass_timers t l';
        mret (n :: a, b)
  end.

Definition add_timer (t : Z) : ST sched unit :=
  e ← get (fun s => expires (timer s t));
  assert (0 <? e) ;;
  l ← get timer_list;
  assert (bool_decide (t ∉ l)) ;;
  '(a, b) ← pass_timers t l;
  modify (set_timer_list (a ++ t :: b)).

(** The timer after [t]. *)
Fixpoint next_timer (t : Z) (l : list Z) : option Z :=
  match l with
  | [] => None
  | x :: l' => if x =? t then head l' else next_timer t l'
  end.

Definition del_timer (t : Z) : ST sched unit :=
  l ← get timer_list;
  if decide (t ∈ l) then
    e ← get (fun s => expires (timer s t));
    (match next_timer t l with
     | Some n =>
         if e =? 0 then mret tt
         else ne ← get (fun s => expires (timer s n)); set_expires n (u32 (ne + e))
     | None => mret tt
     end) ;;
    modify (set_timer_list (unlink t l))
  else mret tt.

(** The timers at the front that expire. *)
Fixpoint expire_timers (l : list Z) : ST sched unit :=
  match l with
  | [] => mret tt
  | t :: l' =>
      e ← get (fun s => expires (timer s t));
      if e =? 0 then
        p ← get (fun s => tproc (timer s t));
        w ← get (fun s => wait_state (procs s p));
        (if w =? 0 then mret tt else assert (negb (Z.land w WT_INTERRUPTED =? 0))) ;;
        wakeup_proc p ;;
        del_timer t ;;
        expire_timers l'
      else mret tt
  end.

Definition run_timer_list : ST sched unit :=
  l ← get timer_list;
  (match l with
   | t :: _ =>
       e ← get (fun s => expires (timer s t));
       assert (negb (e =? 0)) ;;
       set_expires t (e - 1) ;;
       expire_timers l
   | [] => mret tt
   end) ;;
  cur ← get current;
  sched_class_proc_tick cur.
End sched_ops.
