(* ===== verification/SchedSpec.v ===== *)
(** * The scheduler, specified

    What waking and switching keep true whatever the scheduling class, the
    order in which round robin serves processes, and the deadlines of timers. *)
From S2P Require Import Prelude SkewHeap RunQueue RunQueueSpec Proc Sched.

Definition runnable (s : sched) (p : Z) : Prop := state (procs s p) = PROC_RUNNABLE.
#[export] Instance runnable_dec s p : Decision (runnable s p).
Proof. unfold runnable. apply _. Defined.

Section sched_spec.
  Context `{SchedClass}.

(** Exactly the runnable processes wait in the queue, but for the one that has
    the processor and the idle process, which is always runnable. *)
Record sched_ok (n : Z) (s : sched) (l : list Z) : Prop := mkSchedOk {
  so_queue : sc_queue (queues s) l;
  so_elem p : p ∈ l <-> runnable s p /\ p <> current s /\ p <> idleproc s;
  so_idle : runnable s (idleproc s);
  so_fit p : runnable s p -> p <> idleproc s -> sc_fit (ents (queues s) p);
  so_len : Z.of_nat (length l) <= n < 2 ^ 32 - 2 }.

Lemma on_queues_run {A} (m : ST rqs A) s a q :
  m (queues s) = Done (a, q) -> on_queues m s = Done (a, set_queues q s).
Proof. unfold on_queues. by intros ->. Qed.

(** [s'] has the processes of [s] up to the counts of their runs. *)
Definition same_procs (s s' : sched) : Prop :=
  idleproc s' = idleproc s /\ timer s' = timer s /\ timer_list s' = timer_list s /\
  forall p, procs s' p = set_runs (runs (procs s' p)) (procs s p).

Lemma runnable_same s s' p : same_procs s s' -> runnable s' p <-> runnable s p.
Proof. intros (_ & _ & _ & Hp). unfold runnable. by rewrite Hp. Qed.

(** Queueing the process that gives up the processor, if it can run. *)
Lemma requeue_run n s l :
  sched_ok n s l ->
  exists q l1, ((if decide (state (procs s (current s)) = PROC_RUNNABLE) then sched_class_enqueue (current s)
                 else mret tt) : ST sched unit) s = Done (tt, set_queues q s) /\
    sc_queue q l1 /\ (forall k, sc_fit (ents (queues s) k) -> sc_fit (ents q k)) /\
    (length l1 <= S (length l))%nat /\
    (length l1 = S (length l) -> runnable s (current s) /\ current s <> idleproc s) /\
    forall p, p ∈ l1 <-> runnable s p /\ p <> idleproc s.
Proof.
  intros [Hq Hel Hi Hf Hlen].
  destruct (decide (state (procs s (current s)) = PROC_RUNNABLE)) as [Hr|Hr];
    [destruct (Z.eqb_spec (current s) (idleproc s)) as [He|He]|].
  - exists (queues s), l. unfold sched_class_enqueue.
    rewrite (bind_Done _ _ _ _ _ (eq_refl : get idleproc s = Done (idleproc s, s))), He, Z.eqb_refl.
    split; [by destruct s|]. split; [done|]. split; [done|]. split; [lia|]. split; [lia|].
    intros p. rewrite Hel, He. tauto.
  - assert (Hc : current s ∉ l) by (rewrite Hel; tauto).
    destruct (sc_enqueue_law (queues s) l (current s) Hq Hc ltac:(lia) (Hf _ Hr He)) as (q & Hrun & Hq' & Hfit).
    exists q, (current s :: l). unfold sched_class_enqueue.
    rewrite (bind_Done _ _ _ _ _ (eq_refl : get idleproc s = Done (idleproc s, s))), (proj2 (Z.eqb_neq _ _) He).
    split; [by apply on_queues_run|]. split; [done|]. split; [done|]. split; [done|]. split; [done|].
    intros p. rewrite elem_of_cons, Hel. unfold runnable.
    destruct (decide (p = current s)) as [->|]; tauto.
  - exists (queues s), l. split; [by destruct s|]. split; [done|]. split; [done|]. split; [lia|]. split; [lia|].
    intros p. rewrite Hel. unfold runnable. destruct (decide (p = current s)) as [->|]; tauto.
Qed.

(** What the class picks and takes out of its queue; the idle process if there
    is nothing. *)
Lemma pick_run s q l1 :
  sc_queue q l1 -> Z.of_nat (length l1) < 2 ^ 32 ->
  exists next q' l2, (next ← sched_class_pick_next;
      (match next with Some n => sched_class_dequeue n | None => mret tt end) ;;
      idle ← get idleproc;
      mret (match next with Some n => n | None => idle end)) (set_queues q s) = Done (next, set_queues q' s) /\
    sc_queue q' l2 /\ (forall k, sc_fit (ents q k) -> sc_fit (ents q' k)) /\
    (l1 = [] /\ l2 = [] /\ next = idleproc s \/ l1 ≡ₚ next :: l2).
Proof.
  intros Hq Hlen. pose proof (sc_next_law q l1 Hq Hlen) as Hnext. destruct l1 as [|x l1].
  - exists (idleproc s), q, []. split; [|split; [done|split; [done|by left]]].
    mstep (on_queues_run _ (set_queues q s) _ _ Hnext). done.
  - destruct Hnext as (p & l' & q1 & q2 & H1 & H2 & Hp & Hq2 & Hfit). exists p, q2, l'.
    split; [|split; [done|split; [done|by right]]].
    mstep (on_queues_run _ (set_queues q s) _ _ H1).
    mstep (on_queues_run (sc_dequeue p) (set_queues q1 (set_queues q s)) _ _ H2). done.
Qed.

Lemma schedule_fit n s l :
  sched_ok n s l ->
  exists s' l', schedule s = Done (tt, s') /\ sched_ok n s' l' /\ same_procs s s' /\
    runnable s (current s') /\
    (current s' = idleproc s <-> forall p, runnable s p -> p = idleproc s) /\
    runs (procs s' (current s')) = s32 (runs (procs s (current s')) + 1) /\
    (forall p, p <> current s' -> procs s' p = procs s p) /\
    forall k, sc_fit (ents (queues s) k) -> sc_fit (ents (queues s') k).
Proof.
  intros Hok. pose proof Hok as [Hq0 Hel0 Hi0 Hf0 Hlen0].
  set (s1 := set_queues (mkRqs (rq (queues s)) (upd (ents (queues s)) (current s)
               (set_need_resched false (ents (queues s) (current s)))) (nodes (queues s))) s).
  assert (Hok1 : sched_ok n s1 l).
  { split; [by apply sc_queue_resched|exact Hel0|exact Hi0| |exact Hlen0]. intros p Hp Hpi. cbn. unfold upd.
    case_decide; subst; [apply sc_fit_resched|]; by apply Hf0. }
  destruct (requeue_run n s1 l Hok1) as (q & l1 & Hreq & Hq1 & Hfit1 & Hlen1 & Hlen1' & Hel1).
  destruct (pick_run s1 q l1 Hq1 ltac:(lia)) as (next & q' & l2 & Hpick & Hq2 & Hfit2 & Hnext).
  set (s2 := set_procs (upd (procs s) next (set_runs (s32 (runs (procs s next) + 1)) (procs s next))) (set_queues q' s1)).
  set (s' := set_current next s2).
  exists s', l2.
  assert (Hrun : schedule s = Done (tt, s')).
  { unfold schedule. mstep (eq_refl : get current s = Done (current s, s)).
    mstep (eq_refl : on_queues (on_ent (current s) (set_need_resched false)) s = Done (tt, s1)).
    mstep (eq_refl : get (fun s0 => state (procs s0 (current s))) s1 = Done (state (procs s (current s)), s1)).
    mstep Hreq. clear - Hpick.
    apply bind_Done_inv in Hpick as (o & sa & Ha & Hpick). mstep Ha.
    apply bind_Done_inv in Hpick as (u & sb & Hb & Hpick). mstep Hb.
    apply bind_Done_inv in Hpick as (i & sc & [= <- <-] & Hpick). injection Hpick as Hn ->.
    mstep (eq_refl : get idleproc (set_queues q' s1) = Done (idleproc s1, set_queues q' s1)). cbv zeta.
    change (match o with Some n => n | None => idleproc s1 end = next) in Hn. rewrite Hn.
    mstep (eq_refl : on_proc next (fun p => set_runs (s32 (runs p + 1)) p) (set_queues q' s1) = Done (tt, s2)).
    destruct (Z.eqb_spec next (current s)) as [He|He]; [|done]. unfold s'. rewrite He. done. }
  split; [done|].
  assert (Hsame : same_procs s s').
  { split; [done|]. split; [done|]. split; [done|]. intros p.
    change (procs s') with (upd (procs s) next (set_runs (s32 (runs (procs s next) + 1)) (procs s next))).
    destruct (decide (p = next)) as [->|Hne]; [by rewrite upd_eq|rewrite upd_ne by done; by destruct (procs s p)]. }
  assert (Hnr : runnable s next).
  { destruct Hnext as [(_ & _ & ->)|Hperm]; [done|].
    apply (Hel1 next). rewrite Hperm. left. }
  assert (Hidle : next = idleproc s <-> forall p, runnable s p -> p = idleproc s).
  { split.
    - intros ->. destruct Hnext as [(-> & _)|Hperm].
      + intros p Hp. destruct (decide (p = idleproc s)) as [|Hne]; [done|]. exfalso.
        apply (not_elem_of_nil p). by apply Hel1.
      + exfalso. apply (Hel1 (idleproc s)); [|done]. rewrite Hperm. left.
    - intros Hall. by apply Hall. }
  split; [|split; [done|split; [done|split; [done|split; [|split]]]]].
  - split.
    + done.
    + intros p. cbn. rewrite (runnable_same s s' p Hsame). destruct Hnext as [(-> & -> & ->)|Hperm].
      * rewrite elem_of_nil. split; [done|]. intros (Hp & _ & Hpi). apply (not_elem_of_nil p). by apply Hel1.
      * assert (Hnd : NoDup (next :: l2)) by (rewrite <- Hperm; by eapply sc_queue_nodup).
        apply NoDup_cons in Hnd as [Hnin _]. specialize (Hel1 p). rewrite Hperm, elem_of_cons in Hel1.
        change (runnable s1 p) with (runnable s p) in Hel1. change (idleproc s1) with (idleproc s) in Hel1.
        destruct (decide (p = next)) as [->|Hpn]; [tauto|]. tauto.
    + apply (runnable_same s s'); done.
    + intros p Hp Hpi. cbn. apply Hfit2, Hfit1. apply (so_fit _ _ _ Hok1); [|done].
      by apply (runnable_same s s') in Hp.
    + split; [|lia]. destruct Hnext as [(-> & -> & _)|Hperm]; [cbn; lia|].
      apply Permutation_length in Hperm. cbn in Hperm. lia.
  - cbn. by rewrite upd_eq.
  - intros p Hp. cbn. rewrite upd_ne; done.
  - intros k Hk. cbn. apply Hfit2, Hfit1. cbn. unfold upd. destruct (decide (k = current s)) as [->|]; [by apply sc_fit_resched|done].
Qed.

Lemma schedule_run n s l :
  sched_ok n s l ->
  exists s' l', schedule s = Done (tt, s') /\ sched_ok n s' l' /\ same_procs s s' /\
    runnable s (current s') /\
    (current s' = idleproc s <-> forall p, runnable s p -> p = idleproc s) /\
    runs (procs s' (current s')) = s32 (runs (procs s (current s')) + 1) /\
    forall p, p <> current s' -> procs s' p = procs s p.
Proof.
  intros Hok. destruct (schedule_fit n s l Hok) as (s' & l' & Hr & A & B & C & D & E & F & _). by exists s', l'.
Qed.

(** C25 Giving up the processor, whatever the scheduling class, always works:
    the processor goes to a runnable process, to the idle process only when
    nothing else can run; the queue again holds exactly the other runnable
    processes, and no process changes but for its count of runs. *)
Theorem schedule_picks_runnable n s l :
  sched_ok n s l ->
  exists s' l', schedule s = Done (tt, s') /\ sched_ok n s' l' /\ same_procs s s' /\
    runnable s (current s') /\
    (current s' = idleproc s <-> forall p, runnable s p -> p = idleproc s) /\
    runs (procs s' (current s')) = s32 (runs (procs s (current s')) + 1) /\
    forall p, p <> current s' -> procs s' p = procs s p.
Proof. apply schedule_run. Qed.

(** ** Waking *)
Definition woken (p : Z) (s s' : sched) : Prop :=
  current s' = current s /\ idleproc s' = idleproc s /\ timer s' = timer s /\ timer_list s' = timer_list s /\
  forall k, procs s' k = if decide (k = p /\ ~ runnable s p)
                         then set_wait_state 0 (set_state PROC_RUNNABLE (procs s k)) else procs s k.

Lemma wakeup_run n s l p :
  sched_ok n s l -> n + 1 < 2 ^ 32 - 2 -> state (procs s p) <> PROC_ZOMBIE -> sc_fit (ents (queues s) p) ->
  exists s' l', wakeup_proc p s = Done (tt, s') /\ sched_ok (n + 1) s' l' /\ woken p s s' /\
    forall k, sc_fit (ents (queues s) k) -> sc_fit (ents (queues s') k).
Proof.
  intros [Hq Hel Hi Hf Hlen] Hn Hz Hfit. unfold wakeup_proc.
  mstep (eq_refl : get (fun s => state (procs s p)) s = Done (state (procs s p), s)).
  rewrite (bind_Done _ _ _ _ _ (assert_true _ s (bool_decide_eq_true_2 _ Hz))).
  destruct (decide (state (procs s p) <> PROC_RUNNABLE)) as [Hnr|Hr].
  2: { exists s, l. split; [done|]. split; [split; try done; lia|]. split; [|done].
       do 4 (split; [done|]). intros k. rewrite decide_False; [done|]. unfold runnable. tauto. }
  set (f := upd (upd (procs s) p (set_state PROC_RUNNABLE (procs s p))) p
                (set_wait_state 0 (set_state PROC_RUNNABLE (procs s p)))).
  set (s1 := set_procs f s).
  assert (Hs1 : forall k, procs s1 k = if decide (k = p /\ ~ runnable s p)
            then set_wait_state 0 (set_state PROC_RUNNABLE (procs s k)) else procs s k).
  { intros k. change (procs s1) with f. unfold f. destruct (decide (k = p)) as [->|Hk].
    - rewrite upd_eq, decide_True; [done|]. done.
    - rewrite !upd_ne by done. rewrite decide_False; [done|]. tauto. }
  assert (Hrun1 : forall k, runnable s1 k <-> runnable s k \/ k = p).
  { intros k. unfold runnable. rewrite Hs1. case_decide as Hd.
    - destruct Hd as [-> _]. cbn. tauto.
    - unfold runnable in Hd. split; [tauto|]. intros [?| ->]; [done|]. tauto. }
  assert (Hpi : p <> idleproc s) by (intros ->; by apply Hnr).
  mstep (eq_refl : on_proc p (set_state PROC_RUNNABLE) s = Done (tt, set_procs (upd (procs s) p (set_state PROC_RUNNABLE (procs s p))) s)).
  assert (H1 : on_proc p (set_wait_state 0) (set_procs (upd (procs s) p (set_state PROC_RUNNABLE (procs s p))) s) = Done (tt, s1)).
  { unfold on_proc, modify. cbn. by rewrite upd_eq. }
  mstep H1. mstep (eq_refl : get current s1 = Done (current s, s1)).
  destruct (Z.eqb_spec p (current s)) as [Hc|Hc].
  - exists s1, l. split; [done|]. split; [|split; [done|done]]. split; [done| | | |lia].
    + intros k. rewrite Hel. rewrite Hrun1. change (current s1) with (current s). change (idleproc s1) with (idleproc s).
      split; [tauto|]. intros ([?| ->] & ? & ?); done.
    + apply Hrun1. by left.
    + intros k Hk Hki. apply Hrun1 in Hk as [Hk| ->]; [by apply Hf|done].
  - assert (Hpl : p ∉ l) by (rewrite Hel; intros [? _]; by apply Hnr).
    destruct (sc_enqueue_law (queues s) l p Hq Hpl ltac:(lia) Hfit) as (q & Hrun & Hq' & Hfit').
    exists (set_queues q s1), (p :: l). split; [|split; [split|split; [done|done]]].
    + unfold sched_class_enqueue. mstep (eq_refl : get idleproc s1 = Done (idleproc s, s1)).
      rewrite (proj2 (Z.eqb_neq _ _) Hpi). by apply on_queues_run.
    + done.
    + intros k. rewrite elem_of_cons, Hel. change (runnable (set_queues q s1) k) with (runnable s1 k). rewrite Hrun1.
      cbn. destruct (decide (k = p)) as [->|]; [tauto|tauto].
    + apply Hrun1. by left.
    + intros k Hk Hki. apply Hfit'. apply (Hrun1 k) in Hk as [Hk| ->]; [by apply Hf|done].
    + cbn [length]. lia.
Qed.
End sched_spec.

(** ** Round robin *)
Definition ready (s : sched) : list Z := run_list (rq (queues s)).
(** [k] times the processor is given up. *)
Fixpoint turns (k : nat) : ST sched unit :=
  match k with O => mret tt | S k' => schedule (H := RR_class) ;; turns k' end.

Lemma rr_turn n s l :
  sched_ok (H := RR_class) n s l -> runnable s (current s) -> current s <> idleproc s ->
  exists s' l', schedule (H := RR_class) s = Done (tt, s') /\ sched_ok (H := RR_class) n s' l' /\
    runnable s' (current s') /\ current s' <> idleproc s' /\
    current s' :: ready s' = ready s ++ [current s].
Proof.
  intros Hok Hr Hi. destruct (schedule_run n s l Hok) as (s' & l' & Hrun & Hok' & Hsame & Hrc & Hidle & _).
  exists s', l'. split; [done|]. split; [done|]. split; [by apply (runnable_same s s')|].
  assert (Hci : current s' <> idleproc s') by (rewrite (proj1 Hsame); intros Hc; apply Hi; by apply Hidle).
  split; [done|]. destruct Hok as [Hq Hel _ _ Hlen].
  set (c := current s) in *.
  set (q0 := mkRqs (rq (queues s)) (upd (ents (queues s)) c (set_need_resched false (ents (queues s) c))) (nodes (queues s))).
  assert (Hq0 : rr_queue q0 l) by (by apply (sc_queue_resched (SchedClass := RR_class))).
  assert (Hcl : c ∉ l) by (rewrite Hel; tauto).
  destruct (RR_enqueue_run q0 l c Hq0 Hcl ltac:(lia)) as (q1 & He & Hq1 & Hl1 & _).
  destruct (ready s ++ [c]) as [|p r] eqn:Hpr; [by destruct (ready s)|].
  change (run_list (rq q0)) with (ready s) in Hl1. rewrite Hpr in Hl1.
  destruct (RR_dequeue_run q1 (c :: l) p r Hq1 Hl1 ltac:(cbn [length]; lia)) as (q2 & Hd & _ & Hl2 & _).
  revert Hrun. unfold schedule. fold c. mstep (eq_refl : get current s = Done (c, s)).
  mstep (eq_refl : on_queues (on_ent c (set_need_resched false)) s = Done (tt, set_queues q0 s)).
  mstep (eq_refl : get (fun s => state (procs s c)) (set_queues q0 s) = Done (state (procs s c), set_queues q0 s)).
  unfold runnable in Hr. rewrite decide_True by done. unfold sched_class_enqueue, sched_class_pick_next, sched_class_dequeue.
  assert (Henq : (idle ← get idleproc; if c =? idle then mret tt else on_queues (RR_enqueue c)) (set_queues q0 s)
                 = Done (tt, set_queues q1 (set_queues q0 s))).
  { mstep (eq_refl : get idleproc (set_queues q0 s) = Done (idleproc s, set_queues q0 s)).
    rewrite (proj2 (Z.eqb_neq _ _) Hi). by apply on_queues_run. }
  mstep Henq.
  assert (Hpick : on_queues (sc_pick_next (SchedClass := RR_class)) (set_queues q1 (set_queues q0 s))
                  = Done (Some p, set_queues q1 (set_queues q0 s))).
  { unfold on_queues. cbn. unfold RR_pick_next, get. by rewrite Hl1. }
  mstep Hpick. mstep (on_queues_run (sc_dequeue (SchedClass := RR_class) p) (set_queues q1 (set_queues q0 s)) _ _ Hd).
  mstep (eq_refl : get idleproc (set_queues q2 (set_queues q1 (set_queues q0 s))) = Done (idleproc s, set_queues q2 s)).
  cbv zeta. intros Hrun. apply bind_Done_inv in Hrun as (u & sa & [= <- <-] & Hrun).
  destruct (Z.eqb_spec p c) as [->|Hpc]; injection Hrun as <-; unfold ready; cbn; by rewrite Hl2.
Qed.

Lemma turns_run k : forall n s l a b,
  sched_ok (H := RR_class) n s l -> runnable s (current s) -> current s <> idleproc s ->
  current s :: ready s = a ++ b -> length a = k ->
  exists s', turns k s = Done (tt, s') /\ current s' :: ready s' = b ++ a.
Proof.
  induction k as [|k IH]; intros n s l a b Hok Hr Hi Hab Hk.
  - destruct a; [|done]. exists s. split; [done|]. by rewrite app_nil_r.
  - destruct a as [|x a]; [done|]. injection Hab as Hx Hrest. subst x.
    destruct (rr_turn n s l Hok Hr Hi) as (s1 & l1 & Hrun & Hok1 & Hr1 & Hi1 & Hq).
    destruct (IH n s1 l1 a (b ++ [current s]) Hok1 Hr1 Hi1) as (s2 & Ht & Hq2).
    + by rewrite Hq, Hrest, app_assoc.
    + by injection Hk.
    + exists s2. split; [cbn [turns]; by mstep Hrun|]. rewrite Hq2. by rewrite <- app_assoc.
Qed.

(** C26 Round robin is fair: while the processes stay runnable, the one at
    position [i] of the queue has the processor after [i + 1] switches, and the
    others wait in the order in which they will be served. *)
Theorem round_robin_serves n s l i p :
  sched_ok (H := RR_class) n s l -> runnable s (current s) -> current s <> idleproc s ->
  ready s !! i = Some p ->
  exists s', turns (S i) s = Done (tt, s') /\ current s' = p /\
    ready s' = drop (S i) (ready s) ++ current s :: take i (ready s).
Proof.
  intros Hok Hr Hi Hp. pose proof (take_drop_middle (ready s) i p Hp) as Hmid.
  destruct (turns_run (S i) n s l (current s :: take i (ready s)) (p :: drop (S i) (ready s)) Hok Hr Hi)
    as (s' & Ht & Hq).
  - cbn [app]. by rewrite Hmid.
  - cbn. f_equal. apply lookup_lt_Some in Hp. rewrite length_take. lia.
  - exists s'. cbn in Hq. injection Hq as Hc Hrd. by split_and!.
Qed.

(** ** Witnesses: process 1 runs, 2 and 3 wait, 0 is idle *)
Definition sample_proc (st : proc_state) : proc_struct := set_state st (fresh_proc 0).
Definition sample_sched : sched :=
  mkSched (mkRqs (mkRq [2; 3] 2 5 None) (fun _ => mkSe false 5 true 0 1) (fun _ => mkNode None None None))
          (fun p => sample_proc (if (0 <=? p) && (p <=? 3) then PROC_RUNNABLE else
                                 if p =? 4 then PROC_SLEEPING else PROC_UNINIT))
          1 0 (fun t => mkTimer (if t =? 100 then 1 else 4) (if t =? 100 then 4 else 5)) [100].

Lemma sample_runnable p : runnable sample_sched p <-> 0 <= p <= 3.
Proof.
  unfold runnable. cbn. destruct (Z.leb_spec 0 p), (Z.leb_spec p 3); cbn; try (split; [lia|done]).
  all: destruct (p =? 4); split; done || lia.
Qed.

Lemma sample_sched_ok : sched_ok (H := RR_class) 2 sample_sched [2; 3].
Proof.
  assert (Hnd : bool_decide (NoDup [2; 3]) = true) by (vm_compute; reflexivity).
  apply bool_decide_eq_true in Hnd. split.
  - split; [done|exact Hnd|done|done].
  - intros p. rewrite sample_runnable, !elem_of_cons. cbn. pose proof (not_elem_of_nil p). split; [|lia].
    intros [->|[->|?]]; [lia|lia|done].
  - apply sample_runnable. cbn. lia.
  - done.
  - cbn. lia.
Qed.

Lemma schedule_picks_runnable_witness :
  exists s' l', schedule (H := RR_class) sample_sched = Done (tt, s') /\ sched_ok (H := RR_class) 2 s' l' /\
    same_procs sample_sched s' /\ runnable sample_sched (current s') /\
    (current s' = idleproc sample_sched <-> forall p, runnable sample_sched p -> p = idleproc sample_sched) /\
    runs (procs s' (current s')) = s32 (runs (procs sample_sched (current s')) + 1) /\
    forall p, p <> current s' -> procs s' p = procs sample_sched p.
Proof. exact (schedule_picks_runnable (H := RR_class) 2 sample_sched [2; 3] sample_sched_ok). Defined.

Lemma round_robin_serves_witness :
  exists s', turns 2 sample_sched = Done (tt, s') /\ current s' = 3 /\ ready s' = [1; 2].
Proof.
  apply (round_robin_serves 2 sample_sched [2; 3] 1 3 sample_sched_ok); [apply sample_runnable; cbn; lia|done|done].
Defined.
