(* ===== verification/TimerSpec.v ===== *)
(** * Timers, specified

    The list of timers holds the differences between deadlines; what it means
    is the list of deadlines.  Adding, deleting and a tick of the clock are what
    they should be on the deadlines. *)
From S2P Require Import Prelude SkewHeap RunQueue RunQueueSpec Proc Sched SchedSpec.

(** The deadline of each timer, counted from [base]. *)
Fixpoint deadlines_from (e : Z -> Z) (base : Z) (l : list Z) : list (Z * Z) :=
  match l with
  | [] => []
  | t :: l' => (t, base + e t) :: deadlines_from e (base + e t) l'
  end.
Definition exps (s : sched) (t : Z) : Z := expires (timer s t).
Definition deadlines (s : sched) : list (Z * Z) := deadlines_from (exps s) 0 (timer_list s).

Fixpoint total (e : Z -> Z) (l : list Z) : Z := match l with [] => 0 | t :: l' => e t + total e l' end.

Lemma deadlines_app e a b : forall base,
  deadlines_from e base (a ++ b) = deadlines_from e base a ++ deadlines_from e (base + total e a) b.
Proof.
  induction a as [|t a IH]; intros base; cbn; [by rewrite Z.add_0_r|]. by rewrite IH, Z.add_assoc.
Qed.

Lemma deadlines_ext e e' l : forall base, (forall x, x ∈ l -> e' x = e x) ->
  deadlines_from e' base l = deadlines_from e base l.
Proof.
  induction l as [|t l IH]; intros base He; [done|]. cbn. rewrite He by left. f_equal. apply IH.
  intros x Hx. apply He. by right.
Qed.

Lemma deadlines_fst e l : forall base, (deadlines_from e base l).*1 = l.
Proof. induction l as [|t l IH]; intros base; [done|]. cbn. by rewrite IH. Qed.

Lemma deadlines_ge e l : forall base, (forall x, x ∈ l -> 0 <= e x) ->
  forall d, d ∈ deadlines_from e base l -> base <= d.2.
Proof.
  induction l as [|t l IH]; intros base He d Hd; cbn in Hd; [by apply elem_of_nil in Hd|].
  pose proof (He t ltac:(left)). apply elem_of_cons in Hd as [->|Hd]; [cbn; lia|].
  assert (base + e t <= d.2); [|lia]. apply IH; [|done]. intros x Hx. apply He. by right.
Qed.

Record timers_wf (s : sched) : Prop := mkTimersWf {
  tm_nodup : NoDup (timer_list s);
  tm_nonneg t : t ∈ timer_list s -> 0 <= exps s t;
  tm_range d : d ∈ deadlines s -> d.2 < 2 ^ 32 }.
(** Between two ticks every timer of the list is still to come. *)
Definition timers_ok (s : sched) : Prop := timers_wf s /\ forall d, d ∈ deadlines s -> 0 < d.2.

(** Nothing but the timers changed. *)
Definition only_timers (s s' : sched) : Prop :=
  queues s' = queues s /\ procs s' = procs s /\ current s' = current s /\ idleproc s' = idleproc s /\
  forall t, tproc (timer s' t) = tproc (timer s t).

Lemma only_timers_trans s1 s2 s3 : only_timers s1 s2 -> only_timers s2 s3 -> only_timers s1 s3.
Proof. unfold only_timers. intros (Ha & Hb & Hc & Hd & He) (Ha' & Hb' & Hc' & Hd' & He'). split_and!; congruence. Qed.

Lemma set_expires_run t e s : exists s', set_expires t e s = Done (tt, s') /\ only_timers s s' /\
  timer_list s' = timer_list s /\ forall k, exps s' k = if decide (k = t) then e else exps s k.
Proof.
  eexists. split; [reflexivity|]. split.
  - do 4 (split; [done|]). intros k. cbn. unfold upd. case_decide; by subst.
  - split; [done|]. intros k. unfold exps. cbn. unfold upd. by case_decide.
Qed.

Lemma pass_timers_run t l : forall base s,
  t ∉ l -> NoDup l -> (forall x, x ∈ l -> 0 <= exps s x) -> 0 <= exps s t ->
  exists a b s', pass_timers t l s = Done ((a, b), s') /\ l = a ++ b /\
    only_timers s s' /\ timer_list s' = timer_list s /\
    (forall k, k <> t -> k ∉ l -> exps s' k = exps s k) /\
    (forall x, x ∈ a ++ t :: b -> 0 <= exps s' x) /\
    deadlines_from (exps s') base (a ++ t :: b) =
      deadlines_from (exps s) base a ++ (t, base + exps s t) :: deadlines_from (exps s) (base + total (exps s) a) b /\
    (forall d, d ∈ deadlines_from (exps s) base a -> d.2 <= base + exps s t) /\
    (forall d, d ∈ deadlines_from (exps s) (base + total (exps s) a) b -> base + exps s t < d.2).
Proof.
  induction l as [|n l IH]; intros base s Ht Hnd Hnn Het; cbn [pass_timers].
  { exists [], [], s. do 5 (split; [done|]). split.
    { intros x Hx. by apply list_elem_of_singleton in Hx as ->. }
    split; [done|]. split; intros d Hd; by apply elem_of_nil in Hd. }
  apply not_elem_of_cons in Ht as [Htn Ht]. apply NoDup_cons in Hnd as [Hn Hnd].
  mstep (eq_refl : get (fun s => expires (timer s t)) s = Done (exps s t, s)).
  mstep (eq_refl : get (fun s => expires (timer s n)) s = Done (exps s n, s)).
  pose proof (Hnn n ltac:(left)) as Hen.
  destruct (Z.ltb_spec (exps s t) (exps s n)) as [Hlt|Hge].
  - destruct (set_expires_run n (exps s n - exps s t) s) as (s1 & Hr & Ho & Hl & He). mstep Hr.
    assert (He' : forall k, k <> n -> exps s1 k = exps s k) by (intros k Hk; rewrite He; by rewrite decide_False).
    exists [], (n :: l), s1. do 4 (split; [done|]). split; [|split; [|split; [|split]]].
    + intros k Hk Hkl. apply not_elem_of_cons in Hkl as [? _]. by apply He'.
    + intros x Hx. cbn in Hx. rewrite He. case_decide as Hxn; [lia|]. rewrite !elem_of_cons in Hx.
      destruct Hx as [->|[?|Hx]]; [done|done|]. apply Hnn. by right.
    + cbn. rewrite He' by done. rewrite Z.add_0_r. rewrite He, decide_True by done.
      replace (base + exps s t + (exps s n - exps s t)) with (base + exps s n) by lia. do 2 f_equal.
      apply deadlines_ext. intros x Hx. apply He'. congruence.
    + intros d Hd. by apply elem_of_nil in Hd.
    + cbn [total]. rewrite Z.add_0_r. intros d Hd. cbn in Hd. apply elem_of_cons in Hd as [->|Hd]; [cbn; lia|].
      apply deadlines_ge in Hd; [lia|]. intros x Hx. apply Hnn. by right.
  - destruct (set_expires_run t (exps s t - exps s n) s) as (s1 & Hr & Ho & Hl & He). mstep Hr.
    assert (He' : forall k, k <> t -> exps s1 k = exps s k) by (intros k Hk; rewrite He; by rewrite decide_False).
    assert (Het1 : exps s1 t = exps s t - exps s n) by (rewrite He; by rewrite decide_True).
    destruct (IH (base + exps s n) s1 Ht Hnd) as (a & b & s2 & Hp & Hab & Ho2 & Hl2 & Hfr & Hnn2 & Hd & Hda & Hdb).
    { intros x Hx. rewrite He' by congruence. apply Hnn. by right. }
    { lia. }
    assert (Hea : forall x, x ∈ l -> exps s1 x = exps s x) by (intros x Hx; apply He'; congruence).
    assert (Hsub : forall x, x ∈ a \/ x ∈ b -> x ∈ l) by (intros x Hx; rewrite Hab; by apply elem_of_app).
    assert (Hda' : forall bs, deadlines_from (exps s1) bs a = deadlines_from (exps s) bs a)
      by (intros bs; apply deadlines_ext; auto).
    assert (Hdb' : forall bs, deadlines_from (exps s1) bs b = deadlines_from (exps s) bs b)
      by (intros bs; apply deadlines_ext; auto).
    assert (Hta : total (exps s1) a = total (exps s) a).
    { clear - Hea Hsub. induction a as [|x a IHa]; [done|]. cbn. rewrite Hea by (apply Hsub; left; left).
      rewrite IHa; [done|]. intros y Hy. apply Hsub. destruct Hy; [left; by right|by right]. }
    assert (Hen2 : exps s2 n = exps s n) by (rewrite Hfr by congruence; by apply He').
    rewrite Hda', Hdb', Hta, Het1 in Hd. rewrite Hda', Het1 in Hda. rewrite Hdb', Hta, Het1 in Hdb.
    exists (n :: a), b, s2. split; [by mstep Hp|]. split; [cbn; by rewrite Hab|].
    split; [by eapply only_timers_trans|]. split; [congruence|]. split; [|split; [|split; [|split]]].
    + intros k Hk Hkl. apply not_elem_of_cons in Hkl as [? ?]. rewrite Hfr by done. by apply He'.
    + intros x Hx. cbn in Hx. apply elem_of_cons in Hx as [->|Hx]; [lia|by apply Hnn2].
    + cbn. rewrite Hen2, Hd. replace (base + exps s n + (exps s t - exps s n)) with (base + exps s t) by lia.
      by rewrite Z.add_assoc.
    + cbn. intros d Hdd. apply elem_of_cons in Hdd as [->|Hdd]; [cbn; lia|]. specialize (Hda d Hdd). lia.
    + cbn. rewrite Z.add_assoc. intros d Hdd. specialize (Hdb d Hdd). lia.
Qed.

(** Adding a timer puts it among the others in the order of the deadlines,
    after those that expire with it, with the delay it was given; no other
    deadline changes. *)
Theorem add_timer_inserts t s :
  timers_ok s -> t ∉ timer_list s -> 0 < exps s t < 2 ^ 32 ->
  exists s' a b, add_timer t s = Done (tt, s') /\ timers_ok s' /\ only_timers s s' /\
    deadlines s = a ++ b /\ deadlines s' = a ++ (t, exps s t) :: b /\
    (forall d, d ∈ a -> d.2 <= exps s t) /\ (forall d, d ∈ b -> exps s t < d.2).
Proof.
  intros [[Hnd Hnn Hr] Hpos] Ht He.
  destruct (pass_timers_run t (timer_list s) 0 s Ht Hnd Hnn ltac:(lia))
    as (a & b & s1 & Hp & Hab & Ho & Hl & Hfr & Hnn1 & Hd & Hda & Hdb).
  set (s2 := set_timer_list (a ++ t :: b) s1).
  assert (Hds : deadlines s = deadlines_from (exps s) 0 a ++ deadlines_from (exps s) (0 + total (exps s) a) b)
    by (unfold deadlines; rewrite Hab; apply deadlines_app).
  exists s2, (deadlines_from (exps s) 0 a), (deadlines_from (exps s) (0 + total (exps s) a) b).
  assert (Hall : forall d, d ∈ deadlines s2 -> d ∈ deadlines s \/ d = (t, exps s t)).
  { intros d Hdd. unfold deadlines in Hdd. cbn [s2 set_timer_list timer_list] in Hdd.
    change (exps s2) with (exps s1) in Hdd. rewrite Hd, elem_of_app, elem_of_cons in Hdd.
    rewrite Hds, elem_of_app. tauto. }
  split; [|split; [split; [split|]|split; [done|split; [done|split; [exact Hd|split; [exact Hda|exact Hdb]]]]]].
  - unfold add_timer. mstep (eq_refl : get (fun s => expires (timer s t)) s = Done (exps s t, s)).
    rewrite (bind_Done _ _ _ _ _ (assert_true _ s (proj2 (Z.ltb_lt 0 _) (proj1 He)))).
    mstep (eq_refl : get timer_list s = Done (timer_list s, s)).
    rewrite (bind_Done _ _ _ _ _ (assert_true _ s (bool_decide_eq_true_2 _ Ht))). by mstep Hp.
  - cbn. rewrite Permutation_app_comm. cbn. rewrite Permutation_app_comm, <- Hab. by apply NoDup_cons.
  - exact Hnn1.
  - intros d [Hdd| ->]%Hall; [by apply Hr|cbn; lia].
  - intros d [Hdd| ->]%Hall; [by apply Hpos|cbn; lia].
Qed.

(** ** Deleting *)
Lemma next_timer_app t a b : t ∉ a -> next_timer t (a ++ t :: b) = head b.
Proof.
  induction a as [|x a IH]; cbn; intros Ht; [by rewrite Z.eqb_refl|].
  apply not_elem_of_cons in Ht as [Hx Ht]. rewrite (proj2 (Z.eqb_neq x t)) by congruence. by apply IH.
Qed.

(** What a list of deadlines is without [t]. *)
Definition without (t : Z) (l : list (Z * Z)) : list (Z * Z) := filter (fun d => d.1 <> t) l.

Lemma without_id t e l base : t ∉ l -> without t (deadlines_from e base l) = deadlines_from e base l.
Proof.
  revert base. induction l as [|x l IH]; intros base Ht; [done|]. apply not_elem_of_cons in Ht as [Hx Ht].
  cbn [deadlines_from]. unfold without. rewrite filter_cons_True by (cbn; congruence). f_equal. by apply IH.
Qed.

Lemma without_split t e a b base :
  t ∉ a -> t ∉ b ->
  without t (deadlines_from e base (a ++ t :: b)) =
  deadlines_from e base a ++ deadlines_from e (base + total e a + e t) b.
Proof.
  intros Ha Hb. rewrite deadlines_app. unfold without. rewrite filter_app. cbn [deadlines_from].
  rewrite filter_cons_False by (cbn; intros Hn; by apply Hn).
  f_equal; by apply without_id.
Qed.

Lemma del_timer_run t s :
  timers_wf s -> t ∈ timer_list s ->
  exists s', del_timer t s = Done (tt, s') /\ only_timers s s' /\ timer_list s' = unlink t (timer_list s) /\
    timers_wf s' /\ deadlines s' = without t (deadlines s) /\
    (exps s t = 0 -> forall k, exps s' k = exps s k).
Proof.
  intros [Hnd Hnn Hr] Ht. destruct (list_elem_of_split _ _ Ht) as (a & b & Hab).
  pose proof Hnd as Hnd0. rewrite Hab in Hnd0. apply NoDup_app in Hnd0 as (Hnda & Hdis & Hndb).
  apply NoDup_cons in Hndb as [Htb Hndb].
  assert (Hta : t ∉ a) by (intros Hin; by apply (Hdis t Hin); left).
  assert (Hdl : without t (deadlines s) = deadlines_from (exps s) 0 a ++ deadlines_from (exps s) (total (exps s) a + exps s t) b)
    by (unfold deadlines; rewrite Hab, without_split by done; done).
  assert (Hfin : exists s1, (match next_timer t (timer_list s) with
       | Some n => if exps s t =? 0 then mret tt
                   else ne ← get (fun s => expires (timer s n)); set_expires n (u32 (ne + exps s t))
       | None => mret tt end : ST sched unit) s = Done (tt, s1) /\ only_timers s s1 /\ timer_list s1 = timer_list s /\
      (forall x, x ∈ a ++ b -> 0 <= exps s1 x) /\ (exps s t = 0 -> forall k, exps s1 k = exps s k) /\
      deadlines_from (exps s1) 0 (a ++ b) = without t (deadlines s)).
  { rewrite Hdl, Hab, next_timer_app by done.
    assert (Hn0 : forall x, x ∈ a ++ b -> 0 <= exps s x).
    { intros x Hx. apply Hnn. rewrite Hab. rewrite elem_of_app in *. rewrite elem_of_cons. tauto. }
    destruct b as [|n b]; cbn [head].
    - exists s. rewrite !app_nil_r in *. split_and!; try done.
    - destruct (Z.eqb_spec (exps s t) 0) as [Hz|Hnz].
      + exists s. do 5 (split; [done|]). rewrite deadlines_app, Hz. by rewrite Z.add_0_r.
      + assert (Hetn : 0 <= exps s t) by (by apply Hnn).
        assert (Hun : u32 (exps s n + exps s t) = exps s n + exps s t).
        { assert (Hin : (n, total (exps s) a + exps s t + exps s n) ∈ deadlines s).
          { unfold deadlines. rewrite Hab, deadlines_app. apply elem_of_app. right. right. cbn. left. }
          apply Hr in Hin. cbn in Hin. apply u32_small.
          assert (0 <= total (exps s) a).
          { clear - Hn0. induction a as [|x a IHa]; [cbn; lia|]. cbn. pose proof (Hn0 x ltac:(left)).
            assert (0 <= total (exps s) a) by (apply IHa; intros y Hy; apply Hn0; by right). lia. }
          pose proof (Hn0 n ltac:(apply elem_of_app; right; left)). lia. }
        destruct (set_expires_run n (u32 (exps s n + exps s t)) s) as (s1 & Hrun & Ho & Hl & He).
        apply NoDup_cons in Hndb as [Hnb _].
        assert (Hna : n ∉ a) by (intros Hin; apply (Hdis n Hin); right; left).
        exists s1. split; [by mstep (eq_refl : get (fun s => expires (timer s n)) s = Done (exps s n, s))|].
        split; [done|]. split; [congruence|]. split; [|split; [intros ?; lia|]].
        * intros x Hx. rewrite He. case_decide; [apply u32_range|]. by apply Hn0.
        * rewrite deadlines_app. rewrite (deadlines_ext (exps s) (exps s1) a)
            by (intros x Hx; rewrite He, decide_False; [done|congruence]).
          f_equal. assert (Htot : total (exps s1) a = total (exps s) a).
          { clear - He Hna. induction a as [|x a IHa]; [done|]. apply not_elem_of_cons in Hna as [? ?]. cbn.
            rewrite He, decide_False by congruence. by rewrite IHa. }
          cbn [deadlines_from]. rewrite Htot, He, decide_True, Hun by done.
          replace (0 + total (exps s) a + (exps s n + exps s t)) with (total (exps s) a + exps s t + exps s n) by lia.
          f_equal. apply deadlines_ext. intros x Hx. rewrite He, decide_False; [done|congruence]. }
  destruct Hfin as (s1 & Hrun & Ho & Hl & Hnn1 & Hz1 & Hd1).
  exists (set_timer_list (unlink t (timer_list s)) s1).
  assert (Hul : unlink t (timer_list s) = a ++ b) by (rewrite Hab; by apply unlink_app).
  split; [|split; [done|split; [done|split; [|split; [|exact Hz1]]]]].
  - unfold del_timer. mstep (eq_refl : get timer_list s = Done (timer_list s, s)). rewrite decide_True by done.
    mstep (eq_refl : get (fun s => expires (timer s t)) s = Done (exps s t, s)). by mstep Hrun.
  - split; cbn; rewrite Hul.
    + rewrite Hab in Hnd. apply NoDup_app. split; [done|]. split; [|done]. intros x Hx Hxb. apply (Hdis x Hx). by right.
    + exact Hnn1.
    + intros d Hd. unfold deadlines in Hd. cbn in Hd. change (exps (set_timer_list (a ++ b) s1)) with (exps s1) in Hd.
      assert (Hd' : d ∈ without t (deadlines s)) by (rewrite <- Hd1; exact Hd).
      apply Hr. unfold without in Hd'. by apply list_elem_of_filter in Hd' as [_ ?].
  - unfold deadlines at 1. cbn. rewrite Hul. exact Hd1.
Qed.

(** ** The clock *)
Section clock.
Context `{SchedClass}.

(** What the code asserts of a process whose timer expires. *)
Definition wakeable (s : sched) (p : Z) : Prop :=
  state (procs s p) <> PROC_ZOMBIE /\
  (wait_state (procs s p) = 0 \/ Z.land (wait_state (procs s p)) WT_INTERRUPTED <> 0) /\
  sc_fit (ents (queues s) p).

(** The processes whose timers have deadline [d]. *)
Definition due (d : Z) (s : sched) : list Z :=
  (fun x => tproc (timer s x.1)) <$> filter (fun x => x.2 = d) (deadlines s).
Definition wake (p : proc_struct) : proc_struct := set_wait_state 0 (set_state PROC_RUNNABLE p).
Definition later (d : Z) (l : list (Z * Z)) : list (Z * Z) := filter (fun x => d < x.2) l.

Lemma later_all d l : (forall x, x ∈ l -> d < x.2) -> later d l = l.
Proof.
  induction l as [|x l IH]; intros Hl; [done|]. unfold later. rewrite filter_cons_True by (apply Hl; left).
  f_equal. apply IH. intros y Hy. apply Hl. by right.
Qed.

Lemma due_none d s : (forall x, x ∈ deadlines s -> d < x.2) -> due d s = [].
Proof.
  intros Hl. unfold due. replace (filter (fun x => x.2 = d) (deadlines s)) with (@nil (Z * Z)); [done|].
  symmetry. destruct (filter _ _) as [|x l] eqn:He; [done|]. exfalso.
  assert (Hx : x ∈ filter (fun x => x.2 = d) (deadlines s)) by (rewrite He; left).
  apply list_elem_of_filter in Hx as [Hx Hin]. specialize (Hl x Hin). lia.
Qed.

Lemma expire_run l : forall n s q,
  sched_ok n s q -> timers_wf s -> timer_list s = l -> n + Z.of_nat (length l) < 2 ^ 32 - 2 ->
  (forall p, p ∈ due 0 s -> wakeable s p) ->
  exists s' q', expire_timers l s = Done (tt, s') /\ sched_ok (n + Z.of_nat (length l)) s' q' /\ timers_wf s' /\
    deadlines s' = later 0 (deadlines s) /\ current s' = current s /\ idleproc s' = idleproc s /\
    (forall k, procs s' k = if decide (k ∈ due 0 s /\ ~ runnable s k) then wake (procs s k) else procs s k) /\
    forall k, sc_fit (ents (queues s) k) -> sc_fit (ents (queues s') k).
Proof.
  induction l as [|t l IH]; intros n s q Hok Hwf Hl Hn Hw; cbn [expire_timers].
  { exists s, q. rewrite Z.add_0_r. split; [done|]. split; [done|]. split; [done|]. unfold due, deadlines. rewrite Hl.
    do 3 (split; [done|]). split; [|done]. intros k. rewrite decide_False; [done|]. intros [Hk _]. by apply elem_of_nil in Hk. }
  mstep (eq_refl : get (fun s => expires (timer s t)) s = Done (exps s t, s)).
  assert (Hds : deadlines s = (t, exps s t) :: deadlines_from (exps s) (exps s t) l) by (unfold deadlines; by rewrite Hl).
  pose proof Hwf as [Hnd Hnn _]. rewrite Hl in Hnd, Hnn. apply NoDup_cons in Hnd as [Htl Hnd].
  pose proof (Hnn t ltac:(left)) as Het.
  assert (Hok' : forall m, n <= m -> m < 2 ^ 32 - 2 -> sched_ok m s q) by (intros m ? ?; destruct Hok; split; try done; lia).
  destruct (Z.eqb_spec (exps s t) 0) as [Hz|Hnz].
  - set (p := tproc (timer s t)).
    assert (Hdue : due 0 s = p :: ((fun x => tproc (timer s x.1)) <$> filter (fun x => x.2 = 0) (deadlines_from (exps s) 0 l)))
      by (unfold due; rewrite Hds, Hz, filter_cons_True by done; done).
    destruct (Hw p ltac:(rewrite Hdue; left)) as (Hzo & Hws & Hfit).
    mstep (eq_refl : get (fun s => tproc (timer s t)) s = Done (p, s)).
    mstep (eq_refl : get (fun s => wait_state (procs s p)) s = Done (wait_state (procs s p), s)).
    assert (Has : (if wait_state (procs s p) =? 0 then mret tt
                   else assert (negb (Z.land (wait_state (procs s p)) WT_INTERRUPTED =? 0)) : ST sched unit) s = Done (tt, s)).
    { destruct (Z.eqb_spec (wait_state (procs s p)) 0); [done|]. apply assert_true.
      destruct (Z.eqb_spec (Z.land (wait_state (procs s p)) WT_INTERRUPTED) 0); [tauto|done]. }
    mstep Has. cbn [length] in Hn.
    destruct (wakeup_run n s q p Hok ltac:(lia) Hzo Hfit) as (s1 & q1 & Hr1 & Hok1 & (Hc1 & Hi1 & Ht1 & Htl1 & Hp1) & Hf1).
    mstep Hr1.
    assert (Hwf1 : timers_wf s1) by (destruct Hwf; split; unfold deadlines, exps in *; rewrite ?Ht1, ?Htl1; done).
    destruct (del_timer_run t s1 Hwf1 ltac:(rewrite Htl1, Hl; left)) as (s2 & Hr2 & (Hq2 & Hp2 & Hc2 & Hi2 & Ht2) & Htl2 & Hwf2 & Hd2 & _).
    mstep Hr2.
    assert (Hl2 : timer_list s2 = l) by (rewrite Htl2, Htl1, Hl; by apply unlink_head).
    assert (Hd2' : deadlines s2 = deadlines_from (exps s) 0 l).
    { rewrite Hd2. unfold deadlines, exps. rewrite Ht1, Htl1. fold (exps s). rewrite Hl. cbn [deadlines_from].
      fold (exps s). unfold without. rewrite filter_cons_False by (cbn; intros Hne; by apply Hne). rewrite Hz.
      by apply without_id. }
    assert (Hdue2 : forall k, k ∈ due 0 s <-> k = p \/ k ∈ due 0 s2).
    { intros k. rewrite Hdue, elem_of_cons. unfold due. rewrite Hd2'.
      assert (Hex : ((fun x => tproc (timer s2 x.1)) <$> filter (fun x => x.2 = 0) (deadlines_from (exps s) 0 l))
              = ((fun x => tproc (timer s x.1)) <$> filter (fun x => x.2 = 0) (deadlines_from (exps s) 0 l)))
        by (apply list_fmap_ext; intros i x _; cbn; by rewrite Ht2, Ht1).
      by rewrite Hex. }
    assert (Hok2 : sched_ok (n + 1) s2 q1).
    { destruct Hok1 as [A B C D E]. unfold runnable in *. split; unfold runnable; rewrite ?Hq2, ?Hp2, ?Hc2, ?Hi2; done. }
    assert (Hrun2 : forall k, runnable s2 k <-> runnable s k \/ k = p).
    { intros k. unfold runnable. rewrite Hp2, Hp1. case_decide as Hd; [destruct Hd as [-> _]; cbn; tauto|].
      split; [tauto|]. intros [?| ->]; [done|]. destruct (decide (runnable s p)) as [|Hn0]; [done|]. exfalso. by apply Hd. }
    destruct (IH (n + 1) s2 q1 Hok2 Hwf2 Hl2 ltac:(lia)) as (s3 & q3 & Hr3 & Hok3 & Hwf3 & Hd3 & Hc3 & Hi3 & Hp3 & Hf3).
    { intros k Hk. destruct (Hw k ltac:(by apply Hdue2; right)) as (Ha & Hb & Hc). unfold wakeable.
      rewrite Hq2, Hp2, Hp1. split_and!; [by case_decide|case_decide; [by left|done]|by apply Hf1]. }
    exists s3, q3. split; [done|].
    replace (n + Z.of_nat (length (t :: l))) with (n + 1 + Z.of_nat (length l)) by (cbn [length]; lia).
    split; [done|]. split; [done|]. split; [|split; [congruence|split; [congruence|split]]].
    + rewrite Hd3, Hd2', Hds, Hz. unfold later. by rewrite filter_cons_False.
    + intros k. rewrite Hp3, Hp2, Hp1. specialize (Hrun2 k). specialize (Hdue2 k).
      destruct (decide (k = p)) as [->|];
        [destruct (decide (runnable s p)), (decide (runnable s2 p))|destruct (decide (runnable s k)), (decide (runnable s2 k))];
        repeat case_decide; tauto || done.
    + intros k Hk. apply Hf3. rewrite Hq2. by apply Hf1.
  - assert (Hpos : forall x, x ∈ deadlines s -> 0 < x.2).
    { intros x Hx. rewrite Hds in Hx. apply elem_of_cons in Hx as [->|Hx]; [cbn; lia|].
      apply deadlines_ge in Hx; [lia|]. intros y Hy. apply Hnn. by right. }
    exists s, q. split; [done|]. split; [apply Hok'; lia|]. split; [done|]. split; [by rewrite later_all|].
    do 2 (split; [done|]). split; [|done]. intros k. rewrite decide_False; [done|]. rewrite due_none by done.
    intros [Hk _]. by apply elem_of_nil in Hk.
Qed.

(** One tick off the first timer is one tick off every deadline. *)
Definition earlier (l : list (Z * Z)) : list (Z * Z) := (fun x => (x.1, x.2 - 1)) <$> l.

Lemma deadlines_shift e l : forall base, deadlines_from e (base - 1) l = earlier (deadlines_from e base l).
Proof.
  induction l as [|t l IH]; intros base; [done|]. cbn. replace (base - 1 + e t) with (base + e t - 1) by lia.
  f_equal. apply IH.
Qed.

Lemma filter_earlier (P Q : Z * Z -> Prop) `{!forall x, Decision (P x)} `{!forall x, Decision (Q x)} l :
  (forall x, P (x.1, x.2 - 1) <-> Q x) -> filter P (earlier l) = earlier (filter Q l).
Proof.
  intros Hpq. induction l as [|x l IH]; [done|]. unfold earlier. cbn [fmap list_fmap].
  destruct (decide (Q x)).
  - rewrite filter_cons_True by (by apply Hpq). rewrite (filter_cons_True Q) by done. cbn. f_equal. apply IH.
  - rewrite filter_cons_False by (by rewrite Hpq). rewrite (filter_cons_False Q) by done. apply IH.
Qed.

Lemma tick_current_run n s q : sched_ok n s q ->
  exists s', sched_class_proc_tick (current s) s = Done (tt, s') /\ sched_ok n s' q /\
    procs s' = procs s /\ timer s' = timer s /\ timer_list s' = timer_list s /\ current s' = current s /\
    idleproc s' = idleproc s /\ forall k, sc_fit (ents (queues s) k) -> sc_fit (ents (queues s') k).
Proof.
  intros [Hq Hel Hi Hf Hlen]. unfold sched_class_proc_tick. mstep (eq_refl : get idleproc s = Done (idleproc s, s)).
  destruct (Z.eqb_spec (current s) (idleproc s)) as [He|He].
  - assert (Hfit : forall k, sc_fit (ents (queues s) k) ->
                   sc_fit (upd (ents (queues s)) (current s) (set_need_resched true (ents (queues s) (current s))) k)).
    { intros k Hk. unfold upd. case_decide; subst; [by apply sc_fit_resched|done]. }
    eexists. split; [reflexivity|]. split; [|by repeat (split; [done|])]. split; try done; [by apply sc_queue_resched|].
    intros p Hp Hpi. cbn. apply Hfit. by apply Hf.
  - destruct (sc_tick_law (queues s) q (current s) Hq) as (q' & Hr & Hq' & Hf').
    exists (set_queues q' s). split; [by apply on_queues_run|]. split; [|by repeat (split; [done|])]. split; try done.
    intros p Hp Hpi. apply Hf'. by apply Hf.
Qed.

Lemma run_timer_list_run n s q :
  sched_ok n s q -> timers_ok s -> n + Z.of_nat (length (timer_list s)) < 2 ^ 32 - 2 ->
  (forall p, p ∈ due 1 s -> wakeable s p) ->
  exists s' q', run_timer_list s = Done (tt, s') /\
    sched_ok (n + Z.of_nat (length (timer_list s))) s' q' /\ timers_ok s' /\
    deadlines s' = earlier (later 1 (deadlines s)) /\ current s' = current s /\
    (forall k, procs s' k = if decide (k ∈ due 1 s /\ ~ runnable s k) then wake (procs s k) else procs s k) /\
    forall k, sc_fit (ents (queues s) k) -> sc_fit (ents (queues s') k).
Proof.
  intros Hok [Hwf Hpos] Hn Hw.
  assert (Hmid : exists s1 q1, (match timer_list s with
      | t :: _ => e ← get (fun s => expires (timer s t)); assert (negb (e =? 0)) ;; set_expires t (e - 1) ;;
                  expire_timers (timer_list s)
      | [] => mret tt end) s = Done (tt, s1) /\ sched_ok (n + Z.of_nat (length (timer_list s))) s1 q1 /\ timers_wf s1 /\
      deadlines s1 = earlier (later 1 (deadlines s)) /\ current s1 = current s /\
      (forall k, procs s1 k = if decide (k ∈ due 1 s /\ ~ runnable s k) then wake (procs s k) else procs s k) /\
      forall k, sc_fit (ents (queues s) k) -> sc_fit (ents (queues s1) k)).
  { destruct (timer_list s) as [|t l] eqn:Hl.
    - exists s, q. rewrite Z.add_0_r. unfold due, deadlines. rewrite Hl. do 5 (split; [done|]). split; [|done]. intros k.
      rewrite decide_False; [done|]. intros [Hk _]. by apply elem_of_nil in Hk.
    - assert (Hds : deadlines s = deadlines_from (exps s) 0 (t :: l)) by (unfold deadlines; by rewrite Hl).
      assert (Hin : (t, exps s t) ∈ deadlines s) by (rewrite Hds; left).
      pose proof (Hpos _ Hin) as Hep. cbn in Hep.
      destruct (set_expires_run t (exps s t - 1) s) as (s0 & Hr0 & (Hq0 & Hp0 & Hc0 & Hi0 & Ht0) & Hl0 & He0).
      pose proof Hwf as [Hnd Hnn Hrg]. rewrite Hl in Hnd. apply NoDup_cons in Hnd as [Htl Hnd].
      assert (Hd0 : deadlines s0 = earlier (deadlines s)).
      { rewrite Hds. unfold deadlines. rewrite Hl0, Hl. cbn [deadlines_from]. rewrite He0, decide_True by done.
        cbn. f_equal. rewrite <- deadlines_shift. apply deadlines_ext.
        intros x Hx. rewrite He0, decide_False; [done|congruence]. }
      assert (Hwf0 : timers_wf s0).
      { split; rewrite ?Hl0, ?Hl; [by apply NoDup_cons| |].
        - intros x Hx. rewrite He0. case_decide; [lia|]. apply Hnn. by rewrite Hl.
        - rewrite Hd0. intros d Hd. apply list_elem_of_fmap in Hd as (x & -> & Hx). cbn. specialize (Hrg x Hx). lia. }
      assert (Hok0 : sched_ok n s0 q).
      { destruct Hok as [A B C D E]. unfold runnable in *. split; unfold runnable; rewrite ?Hq0, ?Hp0, ?Hc0, ?Hi0; done. }
      assert (Hdue : due 0 s0 = due 1 s).
      { unfold due. rewrite Hd0, (filter_earlier _ (fun x => x.2 = 1)) by (intros x; cbn; lia).
        unfold earlier. rewrite <- list_fmap_compose. apply list_fmap_ext. intros i x _. cbn. by rewrite Ht0. }
      destruct (expire_run (t :: l) n s0 q Hok0 Hwf0 ltac:(congruence) Hn) as (s1 & q1 & Hr1 & Hok1 & Hwf1 & Hd1 & Hc1 & Hi1 & Hp1 & Hf1).
      { rewrite Hdue. intros p Hp. unfold wakeable. rewrite Hp0, Hq0. by apply Hw. }
      exists s1, q1. split; [|split; [done|split; [done|split; [|split; [congruence|split; [|intros k; rewrite <- Hq0; apply Hf1]]]]]].
      + mstep (eq_refl : get (fun s => expires (timer s t)) s = Done (exps s t, s)).
        assert (Has : negb (exps s t =? 0) = true) by (destruct (Z.eqb_spec (exps s t) 0); [lia|done]).
        rewrite (bind_Done _ _ _ _ _ (assert_true _ s Has)). by mstep Hr0.
      + rewrite Hd1, Hd0. unfold later. by rewrite (filter_earlier _ (fun x => 1 < x.2)) by (intros x; cbn; lia).
      + intros k. rewrite Hp1, Hdue, Hp0. assert (Hrs : runnable s0 k <-> runnable s k) by (unfold runnable; by rewrite Hp0).
        destruct (decide (runnable s k)); repeat case_decide; tauto || done. }
  destruct Hmid as (s1 & q1 & Hr1 & Hok1 & Hwf1 & Hd1 & Hc1 & Hp1 & Hf1).
  destruct (tick_current_run _ s1 q1 Hok1) as (s' & Hr2 & Hok2 & Hp2 & Ht2 & Hl2 & Hc2 & _ & Hf2).
  assert (Hd2 : deadlines s' = deadlines s1) by (unfold deadlines, exps; by rewrite Ht2, Hl2).
  exists s', q1. split; [|split; [done|split; [split|split; [congruence|split; [congruence|split; [by rewrite Hp2|by auto]]]]]].
  - unfold run_timer_list. mstep (eq_refl : get timer_list s = Done (timer_list s, s)). mstep Hr1.
    by mstep (eq_refl : get current s1 = Done (current s1, s1)).
  - destruct Hwf1 as [A B C]. split; rewrite ?Hl2, ?Hd2; [done| |done]. intros t Ht. unfold exps. rewrite Ht2. by apply B.
  - rewrite Hd2, Hd1. intros d Hd. apply list_elem_of_fmap in Hd as (x & -> & Hx). cbn.
    apply list_elem_of_filter in Hx as [? _]. lia.
Qed.

(** At every tick of the clock each timer comes one tick closer; those
    whose deadline this is leave the list and their processes become runnable,
    and no other process changes.  The tick never fails, whatever the scheduling
    class, when the processes that sleep on a timer may be woken. *)
Theorem run_timer_list_wakes n s q :
  sched_ok n s q -> timers_ok s -> n + Z.of_nat (length (timer_list s)) < 2 ^ 32 - 2 ->
  (forall p, p ∈ due 1 s -> wakeable s p) ->
  exists s' q', run_timer_list s = Done (tt, s') /\
    sched_ok (n + Z.of_nat (length (timer_list s))) s' q' /\ timers_ok s' /\
    deadlines s' = earlier (later 1 (deadlines s)) /\ current s' = current s /\
    forall k, procs s' k = if decide (k ∈ due 1 s /\ ~ runnable s k) then wake (procs s k) else procs s k.
Proof.
  intros Hok Ht Hn Hw. destruct (run_timer_list_run n s q Hok Ht Hn Hw) as (s' & q' & ? & ? & ? & ? & ? & ? & _).
  by exists s', q'.
Qed.
End clock.

(** ** Witnesses: timer 100 of process 4 is due at the next tick *)
Lemma sample_timers_ok : timers_ok sample_sched.
Proof.
  split; [split|].
  - cbn. apply NoDup_singleton.
  - intros t Ht. cbn in Ht. apply list_elem_of_singleton in Ht as ->. unfold exps. cbn. lia.
  - intros d Hd. cbn in Hd. apply list_elem_of_singleton in Hd as ->. cbn. lia.
  - intros d Hd. cbn in Hd. apply list_elem_of_singleton in Hd as ->. cbn. lia.
Qed.

Lemma add_timer_inserts_witness :
  exps sample_sched 101 = 4 /\
  exists s' a b, add_timer 101 sample_sched = Done (tt, s') /\ timers_ok s' /\ only_timers sample_sched s' /\
    deadlines sample_sched = a ++ b /\ deadlines s' = a ++ (101, exps sample_sched 101) :: b /\
    (forall d, d ∈ a -> d.2 <= exps sample_sched 101) /\ (forall d, d ∈ b -> exps sample_sched 101 < d.2).
Proof.
  split; [reflexivity|]. apply (add_timer_inserts 101 sample_sched sample_timers_ok).
  - cbn. intros Hin. by apply list_elem_of_singleton in Hin.
  - unfold exps. cbn. lia.
Defined.

Lemma run_timer_list_wakes_witness :
  due 1 sample_sched = [4] /\
  exists s' q', run_timer_list (H := RR_class) sample_sched = Done (tt, s') /\
    sched_ok (H := RR_class) (2 + Z.of_nat (length (timer_list sample_sched))) s' q' /\ timers_ok s' /\
    deadlines s' = earlier (later 1 (deadlines sample_sched)) /\ current s' = current sample_sched /\
    forall k, procs s' k = if decide (k ∈ due 1 sample_sched /\ ~ runnable sample_sched k)
                           then wake (procs sample_sched k) else procs sample_sched k.
Proof.
  split; [vm_compute; reflexivity|].
  apply (run_timer_list_wakes (H := RR_class) 2 sample_sched [2; 3] sample_sched_ok sample_timers_ok); [cbn; lia|].
  intros p Hp. replace (due 1 sample_sched) with [4] in Hp by (vm_compute; reflexivity).
  apply list_elem_of_singleton in Hp as ->. split; [done|]. split; [by left|done].
Defined.
