(* ===== verification/Pid.v ===== *)
(** * Process identifiers ([get_pid] of kern/process/proc.c)

    The next identifier, the range known to be free above it, and the scan of
    the processes when the range is used up. *)
From S2P Require Import Prelude Proc.

(** The two static variables. *)
Record pid_state := mkPids { next_safe : Z; last_pid : Z }.
Definition pid_init : pid_state := mkPids MAX_PID MAX_PID.

(** One pass over the pids of [proc_list].  [None]: the pass ended; [Some]: the
    value of [last_pid] when it met [next_safe]. *)
Fixpoint scan (l : list Z) (last safe : Z) : option Z * Z * Z :=
  match l with
  | [] => (None, last, safe)
  | p :: l' =>
      if p =? last then
        if safe <=? last + 1 then (Some (last + 1), last + 1, safe) else scan l' (last + 1) safe
      else if (last <? p) && (p <? safe) then scan l' last p
      else scan l' last safe
  end.

(** The label [repeat]. *)
Fixpoint repeat_scan (fuel : nat) (l : list Z) (last : Z) : ST pid_state Z :=
  match fuel with
  | O => no_fuel
  | S fuel' =>
      let '(again, last, safe) := scan l last MAX_PID in
      match again with
      | Some last => repeat_scan fuel' l (if MAX_PID <=? last then 1 else last)
      | None => modify (fun _ => mkPids safe last) ;; mret last
      end
  end.

(** Every pass but the last moves [last_pid] on, and it wraps around once. *)
Definition get_pid (l : list Z) : ST pid_state Z :=
  last ← get last_pid;
  safe ← get next_safe;
  let last := last + 1 in
  if MAX_PID <=? last then repeat_scan (Z.to_nat (2 * MAX_PID)) l 1
  else if safe <=? last then repeat_scan (Z.to_nat (2 * MAX_PID)) l last
  else modify (fun _ => mkPids safe last) ;; mret last.

(** ** What [get_pid] promises *)

(** No process has a pid between the last one given and [next_safe]. *)
Record window (l : list Z) (s : pid_state) : Prop := mkWindow {
  win_last : 1 <= last_pid s <= MAX_PID;
  win_safe : next_safe s <= MAX_PID;
  win_free p : p ∈ l -> ~ (last_pid s < p < next_safe s) }.

(** What is known half-way through a pass, after the pids of [pre]. *)
Definition passed (pre : list Z) (last safe : Z) : Prop :=
  last < safe <= MAX_PID /\ forall p, p ∈ pre -> p <> last /\ ~ (last < p < safe).

Lemma scan_spec l : forall pre last safe again last' safe',
  passed pre last safe -> scan l last safe = (again, last', safe') ->
  last <= last' /\ (forall k, last <= k < last' -> k ∈ l) /\
  match again with
  | None => passed (pre ++ l) last' safe'
  | Some r => r = last' /\ last < last' <= MAX_PID
  end.
Proof.
  induction l as [|p l IH]; intros pre last safe again last' safe' [Hls Hpre]; cbn [scan].
  { intros [= <- <- <-]. split; [lia|]. split; [lia|]. rewrite app_nil_r. done. }
  destruct (Z.eqb_spec p last) as [->|Hne].
  - destruct (Z.leb_spec safe (last + 1)) as [Hle|Hlt].
    + intros [= <- <- <-]. split; [lia|]. split; [|lia]. intros k Hk. replace k with last by lia. left.
    + intros Hs. assert (Hp : passed (pre ++ [last]) (last + 1) safe).
      { split; [lia|]. intros q Hq. apply elem_of_app in Hq as [Hq|Hq].
        - destruct (Hpre q Hq). lia.
        - apply list_elem_of_singleton in Hq as ->. lia. }
      destruct (IH _ _ _ _ _ _ Hp Hs) as (H1 & H2 & H3). split; [lia|]. split.
      * intros k Hk. destruct (decide (k = last)) as [->|]; [left|right]. apply H2. lia.
      * destruct again; [lia|]. by rewrite <- app_assoc in H3.
  - intros Hs.
    assert (Hex : exists safe1, scan l last safe1 = (again, last', safe') /\ passed (pre ++ [p]) last safe1).
    { destruct (Z.ltb_spec last p), (Z.ltb_spec p safe); cbn [andb] in Hs; eexists; (split; [exact Hs|]);
        (split; [lia|]); intros q Hq; apply elem_of_app in Hq as [Hq|Hq];
        try (apply list_elem_of_singleton in Hq as ->); try (destruct (Hpre q Hq)); lia. }
    destruct Hex as (safe1 & Hs1 & Hp). destruct (IH _ _ _ _ _ _ Hp Hs1) as (H1 & H2 & H3).
    split; [lia|]. split; [intros k Hk; right; by apply H2|]. destruct again; [lia|]. by rewrite <- app_assoc in H3.
Qed.

(** A pid that is free is never passed over. *)
Lemma repeat_scan_reaches l f fuel : 1 <= f < MAX_PID -> f ∉ l ->
  forall last s, 1 <= last <= f -> (Z.to_nat (f - last) < fuel)%nat ->
  exists p s', repeat_scan fuel l last s = Done (p, s') /\ last <= p <= f /\ p ∉ l /\ last_pid s' = p /\ window l s'.
Proof.
  intros Hf Hfl. induction fuel as [|fuel IH]; intros last s Hl Hfu; [lia|]. cbn [repeat_scan].
  destruct (scan l last MAX_PID) as [[again last'] safe'] eqn:Hs.
  assert (Hp0 : passed [] last MAX_PID) by (split; [lia|]; intros p Hp; by apply elem_of_nil in Hp).
  destruct (scan_spec l [] last MAX_PID again last' safe' Hp0 Hs) as (H1 & H2 & H3).
  assert (Hlf : last' <= f). { destruct (decide (last' <= f)); [done|]. exfalso. apply Hfl, H2. lia. }
  destruct again as [r|].
  - destruct H3 as [-> H3]. rewrite (proj2 (Z.leb_gt _ _)) by lia.
    destruct (IH last' s ltac:(lia) ltac:(lia)) as (p & s' & Hr & Hp & Hrest). exists p, s'. split; [done|]. split; [lia|done].
  - destruct H3 as [Hsafe H3]. eexists last', _. split; [reflexivity|]. split; [lia|].
    split; [intros Hin; by destruct (H3 last' Hin)|]. split; [done|]. split; cbn; [lia|lia|].
    intros p Hp. by destruct (H3 p Hp).
Qed.

(** From above the free pids the search wraps around to 1. *)
Lemma repeat_scan_wraps l f fuel : 1 <= f < MAX_PID -> f ∉ l ->
  forall last s, f < last < MAX_PID -> (Z.to_nat (MAX_PID - last) + Z.to_nat f < fuel)%nat ->
  exists p s', repeat_scan fuel l last s = Done (p, s') /\ 1 <= p < MAX_PID /\ p ∉ l /\ last_pid s' = p /\ window l s'.
Proof.
  intros Hf Hfl. induction fuel as [|fuel IH]; intros last s Hl Hfu; [lia|]. cbn [repeat_scan].
  destruct (scan l last MAX_PID) as [[again last'] safe'] eqn:Hs.
  assert (Hp0 : passed [] last MAX_PID) by (split; [lia|]; intros p Hp; by apply elem_of_nil in Hp).
  destruct (scan_spec l [] last MAX_PID again last' safe' Hp0 Hs) as (H1 & H2 & H3).
  destruct again as [r|].
  - destruct H3 as [-> H3]. destruct (Z.leb_spec MAX_PID last') as [Hm|Hm].
    + destruct (repeat_scan_reaches l f fuel Hf Hfl 1 s ltac:(lia) ltac:(lia)) as (p & s' & Hr & Hp & Hrest).
      exists p, s'. split; [done|]. split; [lia|done].
    + apply IH; lia.
  - destruct H3 as [Hsafe H3]. eexists last', _. split; [reflexivity|]. split; [lia|].
    split; [intros Hin; by destruct (H3 last' Hin)|]. split; [done|]. split; cbn; [lia|lia|].
    intros p Hp. by destruct (H3 p Hp).
Qed.

(** Some pid is free. *)
Lemma free_pid l : Z.of_nat (length l) < MAX_PID - 1 -> exists f, 1 <= f < MAX_PID /\ f ∉ l.
Proof.
  intros Hl. destruct (decide (Forall (fun k => k ∈ l) (seqZ 1 (MAX_PID - 1)))) as [Hall|Hn].
  - exfalso. rewrite Forall_forall in Hall.
    pose proof (submseteq_length (seqZ 1 (MAX_PID - 1)) l (NoDup_submseteq _ _ (NoDup_seqZ _ _) Hall)) as Hle.
    rewrite length_seqZ in Hle. lia.
  - apply not_Forall_Exists in Hn; [|apply _]. apply Exists_exists in Hn as (f & Hf & Hfl).
    apply elem_of_seqZ in Hf. exists f. split; [lia|done].
Qed.

Lemma get_pid_run l s :
  window l s -> Z.of_nat (length l) < MAX_PID - 1 ->
  exists p s', get_pid l s = Done (p, s') /\ 1 <= p < MAX_PID /\ p ∉ l /\ last_pid s' = p /\ window (p :: l) s'.
Proof.
  intros [Hlast Hsafe Hfree] Hlen. destruct (free_pid l Hlen) as (f & Hf & Hfl).
  assert (Hmain : exists p s', get_pid l s = Done (p, s') /\ 1 <= p < MAX_PID /\ p ∉ l /\ last_pid s' = p /\ window l s').
  { unfold get_pid. mstep (eq_refl : get last_pid s = Done (last_pid s, s)).
    mstep (eq_refl : get next_safe s = Done (next_safe s, s)). cbv zeta.
    destruct (Z.leb_spec MAX_PID (last_pid s + 1)) as [Hm|Hm].
    - destruct (repeat_scan_reaches l f (Z.to_nat (2 * MAX_PID)) Hf Hfl 1 s ltac:(lia) ltac:(lia))
        as (p & s' & Hr & Hp & Hrest). exists p, s'. split; [done|]. split; [lia|done].
    - destruct (Z.leb_spec (next_safe s) (last_pid s + 1)) as [Hn|Hn].
      + destruct (decide (last_pid s + 1 <= f)) as [Hlf|Hlf].
        * destruct (repeat_scan_reaches l f (Z.to_nat (2 * MAX_PID)) Hf Hfl (last_pid s + 1) s ltac:(lia) ltac:(lia))
            as (p & s' & Hr & Hp & Hrest). exists p, s'. split; [done|]. split; [lia|done].
        * apply (repeat_scan_wraps l f); [done|done|lia|lia].
      + exists (last_pid s + 1). eexists. split; [reflexivity|]. split; [lia|].
        split; [intros Hin; apply (Hfree _ Hin); lia|]. split; [done|]. split; cbn; [lia|lia|].
        intros p Hp Hw. apply (Hfree p Hp). lia. }
  destruct Hmain as (p & s' & Hr & Hp & Hpl & Hlp & [H1 H2 H3]). exists p, s'. do 4 (split; [done|]).
  split; [done|done|]. intros q [->|Hq]%elem_of_cons; [lia|by apply H3].
Qed.

(** C30 As long as there are fewer processes than identifiers, [get_pid] ends
    and gives an identifier between 1 and [MAX_PID - 1] that no process has, and
    what it remembers stays true with the new process. *)
Theorem get_pid_fresh l s :
  window l s -> Z.of_nat (length l) < MAX_PID - 1 ->
  exists p s', get_pid l s = Done (p, s') /\ 1 <= p < MAX_PID /\ p ∉ l /\ last_pid s' = p /\ window (p :: l) s'.
Proof. apply get_pid_run. Qed.

(** The first identifiers, and the search when 3 and 5 are taken. *)
Example get_pid_first : result (get_pid [] pid_init) = Some 1.
Proof. vm_compute. reflexivity. Qed.
Lemma get_pid_fresh_witness :
  result (get_pid [5; 3; 2] (mkPids 2 1)) = Some 4 /\
  exists p s', get_pid [5; 3; 2] (mkPids 2 1) = Done (p, s') /\ 1 <= p < MAX_PID /\ p ∉ [5; 3; 2] /\
    last_pid s' = p /\ window (p :: [5; 3; 2]) s'.
Proof.
  split; [vm_compute; reflexivity|]. apply get_pid_fresh; [|cbn; unfold MAX_PID, MAX_PROCESS; lia].
  split; cbn; [unfold MAX_PID, MAX_PROCESS; lia|unfold MAX_PID, MAX_PROCESS; lia|lia].
Defined.
