(* ===== verification/Process.v ===== *)
(** * Processes (kern/process/proc.c)

    The lists of processes, the tree of parents and children, and the life of a
    process: [do_fork], [do_exit], [do_wait], [do_kill], [do_sleep].  What
    [kmalloc] and [alloc_pages] give is an argument of each call, and what is
    given back goes to [freed].  An operation that gives up the processor for
    good ends with [schedule]; [do_wait] is cut where it sleeps. *)
From S2P Require Import Prelude Libs Mem SfsDir Inode Vfs File Vmm SkewHeap RunQueue Proc Sched Pid.

Definition HASH_SHIFT : Z := 10.
Definition HASH_LIST_SIZE : Z := 2 ^ HASH_SHIFT.
Definition pid_hashfn (x : Z) : Z := hash32 x HASH_SHIFT.
Definition CLONE_VM : Z := 0x100.
Definition CLONE_FS : Z := 0x800.

(** What may be allocated or given back. *)
Inductive object := Proc_mem (p : Z) | Stack_pages (a : Z) | Pgdir_page (a : Z) | Mm_mem (m : Z).

(** The page tables of all address spaces, by the address of their root. *)
Class PageTables (P : Type) := {
  copy_boot_pgdir : Z -> P -> outcome (unit * P);
  copy_range : Z -> Z -> Z -> Z -> P -> outcome (Z * P);   (* to, from, start, end *)
  unmap_range : Z -> Z -> Z -> P -> outcome (Z * P);
  exit_range : Z -> Z -> Z -> P -> outcome (Z * P) }.

Record kernel (W P : Type) := mkKernel {
  sch : sched; proc_list : list Z; hash_list : Z -> list Z; nr_process : Z; initproc : Z; pids : pid_state;
  mms : Z -> mm_struct; mm_pgdir : Z -> Z; tables : P; fs : vfs W; files : Z -> files_struct;
  ram : mem; freed : list object }.
Arguments mkKernel {W P}.
Arguments sch {W P} _. Arguments proc_list {W P} _. Arguments hash_list {W P} _ _.
Arguments nr_process {W P} _. Arguments initproc {W P} _. Arguments pids {W P} _.
Arguments mms {W P} _ _. Arguments mm_pgdir {W P} _ _. Arguments tables {W P} _.
Arguments fs {W P} _. Arguments files {W P} _ _. Arguments ram {W P} _ _. Arguments freed {W P} _.

Section process.
  Context {W P : Type} `{Inodes W} `{PageTables P} `{SchedClass}.
  (** The page directory of the kernel. *)
  Context (boot_pgdir_pa : Z).
  Notation kern := (kernel W P).
  Implicit Types s : kern.

Definition set_sch x s : kern := mkKernel x (proc_list s) (hash_list s) (nr_process s) (initproc s) (pids s)
  (mms s) (mm_pgdir s) (tables s) (fs s) (files s) (ram s) (freed s).
Definition set_proc_list x s : kern := mkKernel (sch s) x (hash_list s) (nr_process s) (initproc s) (pids s)
  (mms s) (mm_pgdir s) (tables s) (fs s) (files s) (ram s) (freed s).
Definition set_hash_list x s : kern := mkKernel (sch s) (proc_list s) x (nr_process s) (initproc s) (pids s)
  (mms s) (mm_pgdir s) (tables s) (fs s) (files s) (ram s) (freed s).
Definition set_nr_process x s : kern := mkKernel (sch s) (proc_list s) (hash_list s) x (initproc s) (pids s)
  (mms s) (mm_pgdir s) (tables s) (fs s) (files s) (ram s) (freed s).
Definition set_pids x s : kern := mkKernel (sch s) (proc_list s) (hash_list s) (nr_process s) (initproc s) x
  (mms s) (mm_pgdir s) (tables s) (fs s) (files s) (ram s) (freed s).
Definition set_mms x s : kern := mkKernel (sch s) (proc_list s) (hash_list s) (nr_process s) (initproc s) (pids s)
  x (mm_pgdir s) (tables s) (fs s) (files s) (ram s) (freed s).
Definition set_mm_pgdir x s : kern := mkKernel (sch s) (proc_list s) (hash_list s) (nr_process s) (initproc s) (pids s)
  (mms s) x (tables s) (fs s) (files s) (ram s) (freed s).
Definition set_tables x s : kern := mkKernel (sch s) (proc_list s) (hash_list s) (nr_process s) (initproc s) (pids s)
  (mms s) (mm_pgdir s) x (fs s) (files s) (ram s) (freed s).
Definition set_fs x s : kern := mkKernel (sch s) (proc_list s) (hash_list s) (nr_process s) (initproc s) (pids s)
  (mms s) (mm_pgdir s) (tables s) x (files s) (ram s) (freed s).
Definition set_files x s : kern := mkKernel (sch s) (proc_list s) (hash_list s) (nr_process s) (initproc s) (pids s)
  (mms s) (mm_pgdir s) (tables s) (fs s) x (ram s) (freed s).
Definition set_ram x s : kern := mkKernel (sch s) (proc_list s) (hash_list s) (nr_process s) (initproc s) (pids s)
  (mms s) (mm_pgdir s) (tables s) (fs s) (files s) x (freed s).
Definition set_freed x s : kern := mkKernel (sch s) (proc_list s) (hash_list s) (nr_process s) (initproc s) (pids s)
  (mms s) (mm_pgdir s) (tables s) (fs s) (files s) (ram s) x.

(** Running a part of the kernel on its part of the state. *)
Definition on_part {X A} (part : kern -> X) (set : X -> kern -> kern) (m : ST X A) : ST kern A :=
  fun s => match m (part s) with
           | Done (a, x) => Done (a, set x s)
           | Panicked => Panicked
           | NoFuel => NoFuel
           end.
Definition on_sched {A} : ST sched A -> ST kern A := on_part sch set_sch.
Definition on_fs {A} : ST (vfs W) A -> ST kern A := on_part fs set_fs.
Definition on_tables {A} : ST P A -> ST kern A := on_part tables set_tables.
Definition on_pids {A} : ST pid_state A -> ST kern A := on_part pids set_pids.
Definition on_mm_at {A} (m : Z) : ST mm_struct A -> ST kern A :=
  on_part (fun s => mms s m) (fun x s => set_mms (upd (mms s) m x) s).

Definition proc_at (p : Z) s : proc_struct := procs (sch s) p.
Definition on_process (p : Z) (f : proc_struct -> proc_struct) : ST kern unit := on_sched (on_proc p f).
Definition get_current : ST kern Z := get (fun s => current (sch s)).
Definition free (o : object) : ST kern unit := modify (fun s => set_freed (o :: freed s) s).

(** ** The lists of processes *)
Definition alloc_proc (room : option Z) : ST kern (option Z) :=
  match room with
  | None => mret None
  | Some p =>
      on_process p (fun _ => fresh_proc boot_pgdir_pa) ;;
      on_sched (on_queues (modify (fun q =>
        mkRqs (rq q) (upd (ents q) p (mkSe false 0 false 0 0)) (upd (nodes q) p (mkNode None None None))))) ;;
      mret (Some p)
  end.

(** [name] is the memory at the given name, of which 15 bytes are copied. *)
Definition set_proc_name (p : Z) (new : list Z) : ST kern unit :=
  on_process p (set_name (take 15 new ++ [0])).
Definition get_proc_name (p : Z) s : list Z := take 15 (name (proc_at p s)) ++ [0].

Definition set_links (p : Z) : ST kern unit :=
  modify (fun s => set_proc_list (p :: proc_list s) s) ;;
  on_process p (set_yptr None) ;;
  par ← get (fun s => parent (proc_at p s));
  match par with
  | None => panic
  | Some par =>
      o ← get (fun s => cptr (proc_at par s));
      on_process p (set_optr o) ;;
      (match o with Some o => on_process o (set_yptr (Some p)) | None => mret tt end) ;;
      on_process par (set_cptr (Some p)) ;;
      modify (fun s => set_nr_process (s32 (nr_process s + 1)) s)
  end.

Definition remove_links (p : Z) : ST kern unit :=
  modify (fun s => set_proc_list (unlink p (proc_list s)) s) ;;
  o ← get (fun s => optr (proc_at p s));
  y ← get (fun s => yptr (proc_at p s));
  (match o with Some o => on_process o (set_yptr y) | None => mret tt end) ;;
  (match y with
   | Some y => on_process y (set_optr o)
   | None =>
       par ← get (fun s => parent (proc_at p s));
       match par with Some par => on_process par (set_cptr o) | None => panic end
   end) ;;
  modify (fun s => set_nr_process (s32 (nr_process s - 1)) s).

Definition new_pid : ST kern Z :=
  l ← get (fun s => (fun p => pid (proc_at p s)) <$> proc_list s);
  on_pids (get_pid l).

Definition hash_proc (p : Z) : ST kern unit :=
  modify (fun s => let h := pid_hashfn (pid (proc_at p s)) in
                   set_hash_list (upd (hash_list s) h (p :: hash_list s h)) s).
(** The process is in the list of its pid. *)
Definition unhash_proc (p : Z) : ST kern unit :=
  modify (fun s => let h := pid_hashfn (pid (proc_at p s)) in
                   set_hash_list (upd (hash_list s) h (unlink p (hash_list s h))) s).

Fixpoint find_pid (n : Z) (l : list Z) s : option Z :=
  match l with
  | [] => None
  | p :: l' => if pid (proc_at p s) =? n then Some p else find_pid n l' s
  end.
Definition find_proc (n : Z) s : option Z :=
  if (0 <? n) && (n <? MAX_PID) then find_pid n (hash_list s (pid_hashfn n)) s else None.

(** ** Address spaces of processes *)
Definition PHYSICAL_MEMORY_OFFSET : Z := 0xFFFFFFFF40000000.
Definition PADDR (kva : Z) : ST kern Z := assert (KERNBASE <=? kva) ;; mret (u64 (kva - PHYSICAL_MEMORY_OFFSET)).

Definition on_mm_tables {A} (m : Z) (op : ST (mm_struct * P) A) : ST kern A :=
  on_part (fun s => (mms s m, tables s)) (fun x s => set_tables (snd x) (set_mms (upd (mms s) m (fst x)) s)) op.

Definition add_mm_count (m d : Z) : ST kern Z :=
  on_mm_at m (modify (fun x => mkMm (mmap_list x) (mmap_cache x) (map_count x) (s32 (mm_count x + d)) (mm_sem x) (locked_by x)) ;;
              get mm_count).
Definition lock_mm_at (m : Z) : ST kern unit :=
  cur ← get_current;
  n ← get (fun s => pid (proc_at cur s));
  on_mm_at m (lock mm_sem (fun v x => mkMm (mmap_list x) (mmap_cache x) (map_count x) (mm_count x) v n)).
Definition unlock_mm_at (m : Z) : ST kern unit :=
  on_mm_at m (modify (fun x => mkMm (mmap_list x) (mmap_cache x) (map_count x) (mm_count x) (mm_sem x + 1) 0)).

Definition setup_kstack (p : Z) (pages : option Z) : ST kern Z :=
  match pages with
  | Some a => on_process p (set_kstack a) ;; mret 0
  | None => mret (- E_NO_MEM)
  end.
Definition put_kstack (p : Z) : ST kern unit := a ← get (fun s => kstack (proc_at p s)); free (Stack_pages a).

Definition setup_pgdir (m : Z) (page : option Z) : ST kern Z :=
  match page with
  | None => mret (- E_NO_MEM)
  | Some a => on_tables (copy_boot_pgdir a) ;; modify (fun s => set_mm_pgdir (upd (mm_pgdir s) m a) s) ;; mret 0
  end.
Definition put_pgdir (m : Z) : ST kern unit := a ← get (fun s => mm_pgdir s m); free (Pgdir_page a).
Definition destroy_mm (m : Z) : ST kern unit := on_mm_at m mm_destroy ;; free (Mm_mem m).
Definition exit_mm (m : Z) : ST kern unit :=
  d ← get (fun s => mm_pgdir s m);
  x ← get (fun s => mms s m);
  on_tables (exit_mmap (unmap_range d) (exit_range d) x).

(** What the allocations of one [do_fork] give, and what [locked_by] held. *)
Record fork_room := mkRoom {
  room_proc : option Z; room_stack : option Z; room_mm : option Z; room_pgdir : option Z;
  room_vma : nat -> bool; room_files : option (Z * (Z -> file)); junk : Z }.

(** The label [good_mm]. *)
Definition good_mm (p m : Z) : ST kern Z :=
  add_mm_count m 1 ;;
  on_process p (set_mm (Some m)) ;;
  d ← get (fun s => mm_pgdir s m);
  a ← PADDR d;
  on_process p (set_pgdir a) ;;
  mret 0.

Definition copy_mm (r : fork_room) (clone_flags p : Z) : ST kern Z :=
  cur ← get_current;
  old ← get (fun s => mm (proc_at cur s));
  match old with
  | None => mret 0
  | Some oldmm =>
      if negb (Z.land clone_flags CLONE_VM =? 0) then good_mm p oldmm
      else
        match room_mm r with
        | None => mret (- E_NO_MEM)
        | Some m =>
            modify (fun s => set_mms (upd (mms s) m (mkMm [] None 0 0 1 (junk r))) s) ;;
            ret ← setup_pgdir m (room_pgdir r);
            if negb (ret =? 0) then destroy_mm m ;; mret (- E_NO_MEM)
            else
              lock_mm_at oldmm ;;
              from ← get (fun s => mms s oldmm);
              dto ← get (fun s => mm_pgdir s m);
              dfrom ← get (fun s => mm_pgdir s oldmm);
              ret ← on_mm_tables m (dup_mmap (copy_range dto dfrom) (room_vma r) from);
              unlock_mm_at oldmm ;;
              if negb (ret =? 0) then exit_mm m ;; put_pgdir m ;; destroy_mm m ;; mret ret
              else good_mm p m
        end
  end.

(** ** Files of processes *)
Definition add_files_count (f d : Z) : ST kern Z :=
  modify (fun s => let x := files s f in
    set_files (upd (files s) f (mkFiles (pwd x) (fd_array x) (s32 (files_count x + d)) (files_sem x))) s) ;;
  get (fun s => files_count (files s f)).

Definition good_files (p f : Z) : ST kern Z :=
  add_files_count f 1 ;; on_process p (set_filesp (Some f)) ;; mret 0.

(** [dup_files] returns 0. *)
Definition copy_files (r : fork_room) (clone_flags p : Z) : ST kern Z :=
  cur ← get_current;
  old ← get (fun s => filesp (proc_at cur s));
  match old with
  | None => panic
  | Some old =>
      if negb (Z.land clone_flags CLONE_FS =? 0) then good_files p old
      else
        match room_files r with
        | None => mret (- E_NO_MEM)
        | Some (f, raw) =>
            (match files_create (Some raw) with
             | Some x => modify (fun s => set_files (upd (files s) f x) s)
             | None => mret tt
             end) ;;
            to ← get (fun s => files s f);
            from ← get (fun s => files s old);
            x ← on_fs (dup_files to from);
            modify (fun s => set_files (upd (files s) f x) s) ;;
            good_files p f
        end
  end.

Definition put_files (p : Z) : ST kern unit :=
  f ← get (fun s => filesp (proc_at p s));
  match f with
  | None => mret tt
  | Some f =>
      c ← add_files_count f (-1);
      if c =? 0 then x ← get (fun s => files s f); on_fs (files_destroy x) else mret tt
  end.

(** ** The life of a process *)
Definition wakeup (p : Z) : ST kern unit := on_sched (wakeup_proc p).

(** From [copy_mm] on, which the registers of the child follow. *)
Definition start_child (r : fork_room) (clone_flags p : Z) : ST kern Z :=
  n ← new_pid;
  on_process p (set_pid n) ;;
  hash_proc p ;;
  set_links p ;;
  wakeup p ;;
  ret ← copy_files r clone_flags p;
  if negb (ret =? 0) then put_kstack p ;; free (Proc_mem p) ;; mret n else mret n.

Definition do_fork (r : fork_room) (clone_flags : Z) : ST kern Z :=
  k ← get nr_process;
  if MAX_PROCESS <=? k then mret (- E_NO_FREE_PROC)
  else
    o ← alloc_proc (room_proc r);
    match o with
    | None => mret (- E_NO_MEM)
    | Some p =>
        cur ← get_current;
        on_process p (set_parent (Some cur)) ;;
        w ← get (fun s => wait_state (proc_at cur s));
        assert (w =? 0) ;;
        ret ← setup_kstack p (room_stack r);
        if negb (ret =? 0) then free (Proc_mem p) ;; mret (- E_NO_MEM)
        else
          ret ← copy_mm r clone_flags p;
          if negb (ret =? 0) then put_kstack p ;; free (Proc_mem p) ;; mret (- E_NO_MEM)
          else start_child r clone_flags p
    end.
Definition kernel_thread (r : fork_room) (clone_flags : Z) : ST kern Z := do_fork r (Z.lor clone_flags CLONE_VM).

(** A parent that waits for a child. *)
Definition notify (p : Z) : ST kern unit :=
  w ← get (fun s => wait_state (proc_at p s));
  if w =? WT_CHILD then wakeup p else mret tt.

(** One child of [cur] goes to [init]. *)
Definition adopt_child (cur init c : Z) : ST kern unit :=
  next ← get (fun s => optr (proc_at c s));
  on_process cur (set_cptr next) ;;
  on_process c (set_yptr None) ;;
  first ← get (fun s => cptr (proc_at init s));
  on_process c (set_optr first) ;;
  (match first with Some f => on_process f (set_yptr (Some c)) | None => mret tt end) ;;
  on_process c (set_parent (Some init)) ;;
  on_process init (set_cptr (Some c)) ;;
  st ← get (fun s => state (proc_at c s));
  if decide (st = PROC_ZOMBIE) then notify init else mret tt.

(** A turn per child. *)
Fixpoint adopt_children (fuel : nat) (cur init : Z) : ST kern unit :=
  c ← get (fun s => cptr (proc_at cur s));
  match c with
  | None => mret tt
  | Some c => match fuel with
              | O => no_fuel
              | S fuel' => adopt_child cur init c ;; adopt_children fuel' cur init
              end
  end.

Definition release_mm (m : Z) : ST kern unit :=
  c ← add_mm_count m (-1);
  if c =? 0 then exit_mm m ;; put_pgdir m ;; destroy_mm m else mret tt.

(** What [do_exit] does once the memory and the files are given back: the end of
    the process for its family, then the switch. *)
Definition orphan (cur init error_code : Z) : ST kern unit :=
  on_process cur (set_state PROC_ZOMBIE) ;;
  on_process cur (set_exit_code error_code) ;;
  par ← get (fun s => parent (proc_at cur s));
  (match par with Some par => notify par | None => panic end) ;;
  l ← get proc_list;
  adopt_children (length l) cur init.
Definition leave (cur init error_code : Z) : ST kern unit := orphan cur init error_code ;; on_sched schedule.

(** Does not come back: the process is never picked again. *)
Definition do_exit (error_code : Z) : ST kern unit :=
  cur ← get_current;
  idle ← get (fun s => idleproc (sch s));
  init ← get initproc;
  assert (negb (cur =? idle)) ;;
  assert (negb (cur =? init)) ;;
  m ← get (fun s => mm (proc_at cur s));
  (match m with
   | Some m => release_mm m ;; on_process cur (set_mm None) ;; put_files cur
   | None => mret tt
   end) ;;
  leave cur init error_code.

Definition do_yield : ST kern Z :=
  cur ← get_current;
  on_sched (on_queues (on_ent cur (set_need_resched true))) ;;
  mret 0.

(** The children from [c] on: whether there is one, and the first zombie. *)
Fixpoint find_zombie (fuel : nat) (c : option Z) : ST kern (option Z) :=
  match c with
  | None => mret None
  | Some c =>
      st ← get (fun s => state (proc_at c s));
      if decide (st = PROC_ZOMBIE) then mret (Some c)
      else match fuel with
           | O => no_fuel
           | S fuel' => o ← get (fun s => optr (proc_at c s)); find_zombie fuel' o
           end
  end.

(** The search of [do_wait]: whether there is a child, and a zombie one. *)
Definition search_child (n : Z) : ST kern (bool * option Z) :=
  cur ← get_current;
  if negb (n =? 0) then
    o ← get (find_proc n);
    match o with
    | None => mret (false, None)
    | Some p =>
        par ← get (fun s => parent (proc_at p s));
        if decide (par = Some cur) then
          st ← get (fun s => state (proc_at p s));
          mret (true, if decide (st = PROC_ZOMBIE) then Some p else None)
        else mret (false, None)
    end
  else
    c ← get (fun s => cptr (proc_at cur s));
    l ← get proc_list;
    z ← find_zombie (length l) c;
    mret (bool_decide (c <> None), z).

(** The label [found]. *)
Definition reap (p code_store : Z) : ST kern Z :=
  idle ← get (fun s => idleproc (sch s));
  init ← get initproc;
  assert (negb ((p =? idle) || (p =? init))) ;;
  (if code_store =? 0 then mret tt
   else modify (fun s => set_ram (put32 (ram s) code_store (u32 (exit_code (proc_at p s)))) s)) ;;
  unhash_proc p ;;
  remove_links p ;;
  put_kstack p ;;
  free (Proc_mem p) ;;
  mret 0.

(** One turn of the loop of [do_wait]: its result, or [None] when the process
    went to sleep; it goes on with [wait_again]. *)
Definition wait_turn (n code_store : Z) : ST kern (option Z) :=
  '(haskid, z) ← search_child n;
  match z with
  | Some p => ret ← reap p code_store; mret (Some ret)
  | None =>
      if (haskid : bool) then
        cur ← get_current;
        on_process cur (set_state PROC_SLEEPING) ;;
        on_process cur (set_wait_state WT_CHILD) ;;
        on_sched schedule ;;
        mret None
      else mret (Some (- E_BAD_PROC))
  end.
Definition wait_again (n code_store : Z) : ST kern (option Z) :=
  cur ← get_current;
  f ← get (fun s => flags (proc_at cur s));
  if negb (Z.land f PF_EXITING =? 0) then do_exit (- E_KILLED) ;; mret None else wait_turn n code_store.

Definition do_wait (n code_store : Z) : ST kern (option Z) :=
  cur ← get_current;
  m ← get (fun s => mm (proc_at cur s));
  ok ← (if code_store =? 0 then mret true
        else match m with
             | Some m => on_mm_at m (user_mem_check code_store 4 true)
             | None => mret (kern_mem_check code_store 4)
             end : ST kern bool);
  if negb (ok : bool) then mret (Some (- E_INVAL)) else wait_turn n code_store.

Definition do_kill (n : Z) : ST kern Z :=
  o ← get (find_proc n);
  match o with
  | None => mret (- E_INVAL)
  | Some p =>
      f ← get (fun s => flags (proc_at p s));
      if Z.land f PF_EXITING =? 0 then
        on_process p (fun x => set_flags (Z.lor (flags x) PF_EXITING) x) ;;
        w ← get (fun s => wait_state (proc_at p s));
        (if negb (Z.land w WT_INTERRUPTED =? 0) then wakeup p else mret tt) ;;
        mret 0
      else mret (- E_KILLED)
  end.

Definition lab6_set_priority (priority : Z) : ST kern unit :=
  cur ← get_current;
  on_sched (on_queues (on_ent cur (fun e =>
    mkSe (need_resched e) (time_slice e) (on_rq e) (lab6_stride e) (if priority =? 0 then 1 else priority)))).

(** The timer is on the stack of the process at [t]; [del_timer] is what it does
    when it runs again. *)
Definition do_sleep (t time : Z) : ST kern Z :=
  if time =? 0 then mret 0
  else
    cur ← get_current;
    on_sched (timer_init t cur time) ;;
    on_process cur (set_state PROC_SLEEPING) ;;
    on_process cur (set_wait_state WT_TIMER) ;;
    on_sched (add_timer t) ;;
    on_sched schedule ;;
    mret 0.
Definition end_sleep (t : Z) : ST kern Z := on_sched (del_timer t) ;; mret 0.
End process.
