(* ===== verification/ProcessSpec.v ===== *)
(** * Processes, specified

    The children of a process as a list, through linking, unlinking and the
    death of their parent. *)
From S2P Require Import Prelude Libs Mem SfsDir Inode Vfs VfsSpec File Vmm SkewHeap RunQueue RunQueueSpec Proc Sched SchedSpec Pid Process.

(** ** Families, on the map of processes *)

(** [l] is linked by [optr] and [yptr] and has parent [par]; [y] is before it. *)
Fixpoint siblings (g : Z -> proc_struct) (par : Z) (y : option Z) (l : list Z) : Prop :=
  match l with
  | [] => True
  | x :: l' => parent (g x) = Some par /\ yptr (g x) = y /\ optr (g x) = head l' /\ siblings g par (Some x) l'
  end.

(** The children of [par], the youngest first. *)
Record family (g : Z -> proc_struct) (par : Z) (l : list Z) : Prop := mkFamily {
  fa_first : cptr (g par) = head l;
  fa_links : siblings g par None l;
  fa_nodup : NoDup l;
  fa_self : par ∉ l }.

(** The links of [x] are the same in both maps. *)
Definition same_links (g g' : Z -> proc_struct) (x : Z) : Prop :=
  parent (g' x) = parent (g x) /\ cptr (g' x) = cptr (g x) /\ yptr (g' x) = yptr (g x) /\ optr (g' x) = optr (g x).

(** [x] has the same place among its siblings. *)
Definition same_place (g g' : Z -> proc_struct) (x : Z) : Prop :=
  parent (g' x) = parent (g x) /\ yptr (g' x) = yptr (g x) /\ optr (g' x) = optr (g x).

Lemma links_place g g' x : same_links g g' x -> same_place g g' x.
Proof. intros (? & _ & ? & ?). by split_and!. Qed.
Lemma place_trans g1 g2 g3 x : same_place g1 g2 x -> same_place g2 g3 x -> same_place g1 g3 x.
Proof. unfold same_place. intros (-> & -> & ->) (-> & -> & ->). done. Qed.

Lemma siblings_place g g' par l : forall y, (forall x, x ∈ l -> same_place g g' x) ->
  siblings g par y l -> siblings g' par y l.
Proof.
  induction l as [|x l IH]; intros y He; [done|]. cbn. destruct (He x ltac:(left)) as (-> & -> & ->).
  intros (? & ? & ? & ?). do 3 (split; [done|]). apply IH; [|done]. intros z Hz. apply He. by right.
Qed.
Lemma siblings_ext g g' par l y : (forall x, x ∈ l -> same_links g g' x) -> siblings g par y l -> siblings g' par y l.
Proof. intros He. apply siblings_place. intros x Hx. by apply links_place, He. Qed.

Lemma siblings_parent g par l : forall y x, siblings g par y l -> x ∈ l -> parent (g x) = Some par.
Proof.
  induction l as [|z l IH]; intros y x Hs Hx; [by apply elem_of_nil in Hx|]. destruct Hs as (Hp & _ & _ & Hs).
  apply elem_of_cons in Hx as [->|Hx]; [done|]. by eapply IH.
Qed.

(** Everything but the links is the same. *)
Definition same_life (g g' : Z -> proc_struct) : Prop := forall x,
  state (g' x) = state (g x) /\ wait_state (g' x) = wait_state (g x) /\ exit_code (g' x) = exit_code (g x) /\
  pid (g' x) = pid (g x) /\ flags (g' x) = flags (g x) /\ runs (g' x) = runs (g x).

Lemma same_life_refl g : same_life g g.
Proof. by intros x. Qed.
Lemma same_life_trans g1 g2 g3 : same_life g1 g2 -> same_life g2 g3 -> same_life g1 g3.
Proof.
  intros H1 H2 x. destruct (H1 x) as (A & B & C & D & E & F), (H2 x) as (A' & B' & C' & D' & E' & F').
  split_and!; congruence.
Qed.

(** One change of a link. *)
Definition link_change (f : proc_struct -> proc_struct) : Prop := forall x,
  state (f x) = state x /\ wait_state (f x) = wait_state x /\ exit_code (f x) = exit_code x /\
  pid (f x) = pid x /\ flags (f x) = flags x /\ runs (f x) = runs x.
Lemma same_life_upd g p f : link_change f -> same_life g (upd g p (f (g p))).
Proof. intros Hf x. unfold upd. case_decide; subst; [apply Hf|done]. Qed.

Section process_spec.
  Context {W P : Type} `{Inodes W} `{PageTables P} `{SchedClass}.
  Notation kern := (kernel W P).
  Implicit Types s : kern.

Definition gp s : Z -> proc_struct := procs (sch s).
Definition with_procs g s : kern := set_sch (set_procs g (sch s)) s.

Lemma on_process_run p f s : on_process p f s = Done (tt, with_procs (upd (gp s) p (f (gp s p))) s).
Proof. done. Qed.

Lemma gp_with g s : gp (with_procs g s) = g. Proof. done. Qed.

(** Nothing but processes and the queues changed. *)
Definition only_procs s s' : Prop :=
  proc_list s' = proc_list s /\ hash_list s' = hash_list s /\ nr_process s' = nr_process s /\
  initproc s' = initproc s /\ pids s' = pids s /\ mms s' = mms s /\ files s' = files s /\ fs s' = fs s /\
  tables s' = tables s /\ freed s' = freed s /\ idleproc (sch s') = idleproc (sch s).

Lemma only_procs_refl s : only_procs s s. Proof. by split_and!. Qed.
Lemma only_procs_trans s1 s2 s3 : only_procs s1 s2 -> only_procs s2 s3 -> only_procs s1 s3.
Proof.
  unfold only_procs. intros (?&?&?&?&?&?&?&?&?&?&?) (?&?&?&?&?&?&?&?&?&?&?). split_and!; congruence.
Qed.
Lemma only_procs_with g s : only_procs s (with_procs g s). Proof. by split_and!. Qed.

(** Changing links leaves the scheduler alone. *)
Lemma sched_ok_life n s g q : sched_ok n (sch s) q -> same_life (gp s) g -> sched_ok n (sch (with_procs g s)) q.
Proof.
  intros [A B C D E] Hl.
  assert (Hr : forall p, runnable (sch (with_procs g s)) p <-> runnable (sch s) p).
  { intros p. unfold runnable. cbn. destruct (Hl p) as (Hst & _). unfold gp in Hst. by rewrite Hst. }
  split; [done| | | |done].
  - intros p. rewrite Hr. apply B.
  - by apply Hr.
  - intros p Hp. apply D. by apply Hr.
Qed.

(** The moves of [adopt_child] before the woken parent. *)
Definition moved (g : Z -> proc_struct) (cur init c : Z) : Z -> proc_struct :=
  let g1 := upd g cur (set_cptr (optr (g c)) (g cur)) in
  let g2 := upd g1 c (set_yptr None (g1 c)) in
  let first := cptr (g2 init) in
  let g3 := upd g2 c (set_optr first (g2 c)) in
  let g4 := match first with Some f => upd g3 f (set_yptr (Some c) (g3 f)) | None => g3 end in
  let g5 := upd g4 c (set_parent (Some init) (g4 c)) in
  upd g5 init (set_cptr (Some c) (g5 init)).

Lemma moved_life g cur init c : same_life g (moved g cur init c).
Proof.
  unfold moved. cbv zeta. repeat first
    [ apply same_life_refl
    | match goal with
      | |- same_life _ (upd ?h ?p (?f ?x)) =>
          eapply (same_life_trans _ h); [|apply (same_life_upd h p f); by intros ?]
      | |- context [match ?x with _ => _ end] => destruct x
      end ].
Qed.

Lemma moved_spec g cur init c l li y :
  siblings g cur y (c :: l) -> cptr (g cur) = Some c -> family g init li ->
  NoDup (c :: l ++ li) -> cur ∉ c :: l -> init ∉ c :: l ++ li -> cur <> init ->
  let g' := moved g cur init c in
  siblings g' cur (Some c) l /\ cptr (g' cur) = head l /\ family g' init (c :: li) /\
  (forall x, x ∉ c :: li -> same_place g g' x) /\
  (forall x, x <> cur -> x <> init -> cptr (g' x) = cptr (g x)).
Proof.
  intros (Hpar & Hy & Ho & Hsib) Hcp [Hfi Hli Hndi _] Hnd Hcur Hinit Hci g'.
  apply NoDup_cons in Hnd as [Hc Hnd]. apply NoDup_app in Hnd as (Hndl & Hdis & _).
  apply not_elem_of_cons in Hcur as [Hcc Hcur]. apply not_elem_of_cons in Hinit as [Hic Hinit].
  rewrite elem_of_app in Hc, Hinit.
  assert (Hfirst : cptr (upd (upd g cur (set_cptr (optr (g c)) (g cur))) c
            (set_yptr None (upd g cur (set_cptr (optr (g c)) (g cur)) c)) init) = head li)
    by (rewrite !upd_ne by congruence; done).
  assert (Hhl : forall f, head li = Some f -> f ∈ li) by (intros f Hf; destruct li; [done|]; injection Hf as ->; left).
  assert (Hg' : forall x, g' x =
     if decide (x = c) then set_parent (Some init) (set_optr (head li) (set_yptr None (g c)))
     else if decide (x = init) then set_cptr (Some c) (g init)
     else let k := if decide (x = cur) then set_cptr (head l) (g cur) else g x in
          if decide (head li = Some x) then set_yptr (Some c) k else k).
  { intros x. unfold g', moved. cbv zeta. rewrite Hfirst, Ho.
    destruct (head li) as [f|] eqn:Hf.
    - assert (Hfl : f ∈ li) by (by apply Hhl).
      assert (f <> c /\ f <> init) as (Hf2 & Hf3) by (split; intros ->; tauto).
      unfold upd. repeat (case_decide; subst; try congruence; try done).
    - unfold upd. repeat (case_decide; subst; try congruence; try done). }
  assert (Hc' : g' c = set_parent (Some init) (set_optr (head li) (set_yptr None (g c))))
    by (rewrite Hg'; by rewrite decide_True).
  assert (Hi' : g' init = set_cptr (Some c) (g init))
    by (rewrite Hg'; rewrite decide_False by congruence; by rewrite decide_True).
  assert (Hrest : forall x, x <> init -> x <> c ->
            parent (g' x) = parent (g x) /\ cptr (g' x) = (if decide (x = cur) then head l else cptr (g x)) /\
            optr (g' x) = optr (g x) /\ yptr (g' x) = if decide (head li = Some x) then Some c else yptr (g x)).
  { intros x H1x H2x. rewrite Hg', !decide_False by done. cbv zeta.
    destruct (decide (x = cur)) as [->|]; case_decide; done. }
  assert (Hout : forall x, x ∉ c :: li -> same_place g g' x).
  { intros x Hx. apply not_elem_of_cons in Hx as [H3x H4x]. destruct (decide (x = init)) as [->|H2x]; [unfold same_place; by rewrite Hi'|].
    destruct (Hrest x H2x H3x) as (A & _ & C & D). rewrite decide_False in D; [done|]. intros Hf. by apply H4x, Hhl. }
  split; [|split; [|split; [split|split; [done|]]]].
  - apply (siblings_place g); [|done]. intros x Hx. apply Hout.
    apply not_elem_of_cons. split; [intros ->; tauto|]. intros Hin. by apply (Hdis x).
  - destruct (Hrest cur Hci Hcc) as (_ & -> & _). by rewrite decide_True.
  - by rewrite Hi'.
  - cbn. rewrite Hc'. cbn. do 3 (split; [done|]). destruct li as [|f li]; [done|].
    cbn in Hli. destruct Hli as (Hpf & Hyf & Hof & Hli). cbn.
    assert (Hff : f ∈ f :: li) by left.
    assert (f <> c /\ f <> init) as (Hf2 & Hf3) by (split; intros ->; tauto).
    destruct (Hrest f Hf3 Hf2) as (-> & _ & -> & ->). cbn. rewrite decide_True by done. do 3 (split; [done|]).
    apply (siblings_place g); [|done]. intros x Hx.
    apply NoDup_cons in Hndi as [Hfn _].
    assert (x <> init /\ x <> c) as [H1x H2x] by (split; intros ->; [apply Hinit|apply Hc]; right; by right).
    unfold same_place. destruct (Hrest x H1x H2x) as (-> & _ & -> & ->). cbn. rewrite decide_False; [done|]. by intros [= ->].
  - apply NoDup_cons. split; [tauto|done].
  - apply not_elem_of_cons. split; [congruence|tauto].
  - intros x H1x H2x. rewrite Hg'. repeat (case_decide; subst; try congruence; try done).
Qed.

(** ** Waking a parent *)
Definition asleep g (p : Z) : Prop := wait_state (g p) = WT_CHILD /\ state (g p) <> PROC_RUNNABLE.
#[local] Instance asleep_dec g p : Decision (asleep g p).
Proof. unfold asleep. apply _. Defined.

(** [g'] is [g] but that [p] may have been woken. *)
Definition woken_only (p : Z) g g' : Prop :=
  forall x, same_links g g' x /\ exit_code (g' x) = exit_code (g x) /\ pid (g' x) = pid (g x) /\
    (state (g' x) = state (g x) /\ wait_state (g' x) = wait_state (g x) \/
     x = p /\ asleep g p /\ state (g' x) = PROC_RUNNABLE /\ wait_state (g' x) = 0).

Lemma sched_ok_mono n n' (x : sched) q : sched_ok n x q -> n <= n' -> n' < 2 ^ 32 - 2 -> sched_ok n' x q.
Proof. intros [A B C D E] ? ?. split; try done. lia. Qed.

Lemma notify_run n p s q :
  sched_ok n (sch s) q -> (asleep (gp s) p -> n + 1 < 2 ^ 32 - 2) -> state (gp s p) <> PROC_ZOMBIE -> sc_fit (ents (queues (sch s)) p) ->
  exists s' q', notify p s = Done (tt, s') /\ only_procs s s' /\ current (sch s') = current (sch s) /\
    woken_only p (gp s) (gp s') /\ (asleep (gp s) p -> state (gp s' p) = PROC_RUNNABLE) /\
    sched_ok (if decide (asleep (gp s) p) then n + 1 else n) (sch s') q' /\
    forall k, sc_fit (ents (queues (sch s)) k) -> sc_fit (ents (queues (sch s')) k).
Proof.
  intros Hok Hn Hz Hfit. unfold notify.
  mstep (eq_refl : get (fun s => wait_state (proc_at p s)) s = Done (wait_state (gp s p), s)).
  assert (Hnone : exists s' q', Done (tt, s) = Done (tt, s') /\ only_procs s s' /\ current (sch s') = current (sch s) /\
    woken_only p (gp s) (gp s') /\ sched_ok n (sch s') q' /\
    forall k, sc_fit (ents (queues (sch s)) k) -> sc_fit (ents (queues (sch s')) k)).
  { exists s, q. split; [done|]. split; [apply only_procs_refl|]. split; [done|]. split; [|done].
    intros k. unfold same_links. do 3 (split; [done|]). by left. }
  destruct (decide (asleep (gp s) p)) as [Ha|Ha].
  - destruct Ha as [Hw Hnr]. rewrite Hw, Z.eqb_refl.
    destruct (wakeup_run n (sch s) q p Hok (Hn (conj Hw Hnr)) Hz Hfit) as (x & q' & Hr & Hok' & (Hc & Hi & Ht & Hl & Hp) & Hf).
    exists (set_sch x s), q'. split; [unfold wakeup, on_sched, on_part; by rewrite Hr|].
    split; [by split_and!|]. split; [done|]. split; [|split; [|done]].
    + intros k. change (gp (set_sch x s)) with (procs x). unfold same_links. rewrite Hp. case_decide as Hd.
      * destruct Hd as [-> _]. do 3 (split; [done|]). right. by split_and!.
      * do 3 (split; [done|]). by left.
    + intros _. change (gp (set_sch x s) p) with (procs x p). rewrite Hp. by rewrite decide_True.
  - destruct Hnone as (s' & q' & [= <-] & H1' & H2' & H3' & H4' & H5'). exists s, q'.
    split; [|do 3 (split; [done|]); split; [done|split; [done|done]]].
    destruct (Z.eqb_spec (wait_state (gp s p)) WT_CHILD) as [Hw|Hw]; [|done].
    assert (Hrun : state (procs (sch s) p) = PROC_RUNNABLE).
    { destruct (decide (state (procs (sch s) p) = PROC_RUNNABLE)); [done|]. exfalso. by apply Ha. }
    unfold wakeup, on_sched, on_part, wakeup_proc.
    rewrite (bind_Done _ _ _ _ _ (eq_refl : get (fun x => state (procs x p)) (sch s) = Done (state (procs (sch s) p), sch s))).
    rewrite (bind_Done _ _ _ _ _ (assert_true _ (sch s) (bool_decide_eq_true_2 _ Hz))).
    rewrite decide_False by tauto. by destruct s.
Qed.

(** ** The children of a process that exits *)

(** [p] may have been woken; otherwise only links changed. *)
Definition lived (p : Z) g g' : Prop := forall x,
  exit_code (g' x) = exit_code (g x) /\ pid (g' x) = pid (g x) /\
  (state (g' x) = state (g x) /\ wait_state (g' x) = wait_state (g x) \/
   x = p /\ asleep g p /\ state (g' x) = PROC_RUNNABLE /\ wait_state (g' x) = 0).

Lemma lived_life p g g' : same_life g g' -> lived p g g'.
Proof. intros Hl x. destruct (Hl x) as (?&?&?&?&_). split_and!; try done. by left. Qed.
Lemma lived_woken p g g' : woken_only p g g' -> lived p g g'.
Proof. intros Hl x. by destruct (Hl x) as (_&?&?&?). Qed.
Lemma lived_trans p g1 g2 g3 : lived p g1 g2 -> lived p g2 g3 -> lived p g1 g3.
Proof.
  intros Hl1 Hl2 x. destruct (Hl1 x) as (A1 & B1 & C1), (Hl2 x) as (A2 & B2 & C2).
  split; [congruence|]. split; [congruence|]. destruct C1 as [[D1 E1]|(-> & Ha & D1 & E1)].
  - destruct C2 as [[D2 E2]|(-> & Ha & D2 & E2)]; [left; split; congruence|]. right.
    split; [done|]. split; [|done]. destruct Ha. unfold asleep. by rewrite <- D1, <- E1.
  - destruct C2 as [[D2 E2]|(_ & [Ha2 _] & _)]; [|rewrite E1 in Ha2; done]. right.
    split; [done|]. split; [done|]. split; congruence.
Qed.

Lemma adopt_child_eq cur init c s :
  adopt_child cur init c s =
  (if decide (state (moved (gp s) cur init c c) = PROC_ZOMBIE) then notify init else mret tt)
    (with_procs (moved (gp s) cur init c) s).
Proof.
  unfold adopt_child, moved. cbv zeta.
  set (g1 := upd (gp s) cur (set_cptr (optr (gp s c)) (gp s cur))).
  set (g2 := upd g1 c (set_yptr None (g1 c))).
  mstep (eq_refl : get (fun s => optr (proc_at c s)) s = Done (optr (gp s c), s)).
  mstep (on_process_run cur (set_cptr (optr (gp s c))) s).
  mstep (on_process_run c (set_yptr None) (with_procs g1 s)).
  mstep (eq_refl : get (fun s => cptr (proc_at init s)) (with_procs g2 s) = Done (cptr (g2 init), with_procs g2 s)).
  destruct (cptr (g2 init)) as [f|]; done.
Qed.

(** The family of [init] and the scheduler, between two children. *)
Record adopting (n : Z) s (cur init : Z) (l li : list Z) : Prop := mkAdopting {
  ad_sib : exists y, siblings (gp s) cur y l;
  ad_first : cptr (gp s cur) = head l;
  ad_init : family (gp s) init li;
  ad_nodup : NoDup (l ++ li);
  ad_cur : cur ∉ l;
  ad_init_out : init ∉ l ++ li;
  ad_ne : cur <> init;
  ad_sched : exists q, sched_ok (if decide (asleep (gp s) init) then n else n + 1) (sch s) q;
  ad_alive : state (gp s init) <> PROC_ZOMBIE;
  ad_fit : sc_fit (ents (queues (sch s)) init) }.

Lemma adopting_step n s cur init c l li :
  adopting n s cur init (c :: l) li -> n + 1 < 2 ^ 32 - 2 ->
  exists s', adopt_child cur init c s = Done (tt, s') /\ adopting n s' cur init l (c :: li) /\
    only_procs s s' /\ current (sch s') = current (sch s) /\ lived init (gp s) (gp s') /\
    (forall x, x ∉ c :: li -> same_place (gp s) (gp s') x) /\
    (state (gp s c) = PROC_ZOMBIE -> asleep (gp s) init -> state (gp s' init) = PROC_RUNNABLE) /\
    (forall x, x <> cur -> x <> init -> cptr (gp s' x) = cptr (gp s x)) /\
    (forall k, sc_fit (ents (queues (sch s)) k) -> sc_fit (ents (queues (sch s')) k)).
Proof.
  intros [[y Hsib] Hf Hfam Hnd Hcur Hinit Hci [q Hq] Hal Hfit] Hn. cbn [app] in *.
  destruct (moved_spec (gp s) cur init c l li y Hsib Hf Hfam Hnd Hcur Hinit Hci) as (M1 & M2 & M3 & M4 & M5).
  pose proof (moved_life (gp s) cur init c) as Hlife. set (g1 := moved (gp s) cur init c) in *.
  set (s1 := with_procs g1 s).
  assert (Has : asleep g1 init <-> asleep (gp s) init)
    by (unfold asleep; destruct (Hlife init) as (-> & -> & _); done).
  assert (Hnd' : NoDup (l ++ c :: li)) by (rewrite <- Permutation_middle; done).
  assert (Hcur' : cur ∉ l) by (by apply not_elem_of_cons in Hcur as [_ ?]).
  assert (Hinit' : init ∉ l ++ c :: li) by (rewrite <- Permutation_middle; done).
  rewrite adopt_child_eq. fold g1 s1. destruct (Hlife c) as (Hcst & _). rewrite Hcst.
  pose proof (sched_ok_life _ s g1 q Hq Hlife) as Hq1. fold s1 in Hq1.
  destruct (decide (state (gp s c) = PROC_ZOMBIE)) as [Hz|Hz].
  - set (m := if decide (asleep (gp s) init) then n else n + 1) in *.
    destruct (notify_run m init s1 q Hq1) as (s2 & q2 & Hr & Hop & Hcc & Hw & Hwk & Hq2 & Hf2).
    + intros Ha. change (gp s1) with g1 in Ha. rewrite Has in Ha. unfold m. by rewrite decide_True.
    + change (gp s1) with g1. destruct (Hlife init) as (-> & _). done.
    + done.
    + change (gp s1) with g1 in Hw, Hwk.
      assert (Hsl : forall x, same_links g1 (gp s2) x) by (intros x; by destruct (Hw x) as (? & _)).
      assert (Hliv : lived init (gp s) (gp s2)) by (eapply lived_trans; [by apply lived_life|by apply lived_woken]).
      exists s2. split; [done|]. split; [|split; [by eapply only_procs_trans; [apply only_procs_with|]|]].
      * destruct M3 as [N1 N2 N3 N4]. split; try done.
        -- exists (Some c). apply (siblings_ext g1); [intros; apply Hsl|done].
        -- destruct (Hsl cur) as (_ & -> & _). done.
        -- destruct (Hsl init) as (_ & Hci2 & _). split; [by rewrite Hci2| |done|done].
           apply (siblings_ext g1); [intros; apply Hsl|done].
        -- exists q2. assert (Hq2' : sched_ok (n + 1) (sch s2) q2 /\ ~ asleep (gp s2) init).
           { change (gp s1) with g1 in Hq2. destruct (Hw init) as (_ & _ & _ & Hst). unfold m in Hq2.
             destruct (decide (asleep g1 init)) as [Ha|Ha].
             - rewrite decide_True in Hq2 by tauto. split; [done|]. intros [_ Hns]. by apply Hns, Hwk.
             - rewrite decide_False in Hq2 by tauto. split; [done|]. intros Ha2. apply Ha.
               destruct Hst as [[A B]|(_ & ? & _)]; [|done]. unfold asleep in *. by rewrite <- A, <- B. }
           destruct Hq2' as [Hq2a Hq2b]. by rewrite decide_False.
        -- destruct (Hw init) as (_ & _ & _ & [[-> _]|(_ & _ & -> & _)]); [|done]. by destruct (Hlife init) as (-> & _).
        -- apply Hf2. exact Hfit.
      * split; [done|]. split; [done|]. split.
        -- intros x C. apply (place_trans _ g1); [by apply M4|by apply links_place].
        -- split; [intros _ Ha; apply Hwk; by apply Has|]. split; [|exact Hf2].
           intros x A B. destruct (Hsl x) as (_ & -> & _). by apply M5.
  - exists s1. split; [done|]. split; [|split; [apply only_procs_with|split; [done|split; [by apply lived_life|split; [done|split; [done|split; [done|done]]]]]]].
    destruct (Hlife init) as (Hst & Hws & _). change (gp s1) with g1. split; try done.
    + by exists (Some c).
    + exists q. change (gp s1) with g1. destruct (decide (asleep (gp s) init)) as [Ha|Ha].
      * rewrite decide_True by tauto. done.
      * rewrite decide_False by tauto. done.
    + change (gp s1) with g1. by rewrite Hst.
Qed.

Lemma adopt_children_run n cur init l : forall fuel s li,
  adopting n s cur init l li -> n + 1 < 2 ^ 32 - 2 -> (length l <= fuel)%nat ->
  exists s', adopt_children fuel cur init s = Done (tt, s') /\ adopting n s' cur init [] (rev l ++ li) /\
    only_procs s s' /\ current (sch s') = current (sch s) /\ lived init (gp s) (gp s') /\
    (forall x, x ∉ l ++ li -> same_place (gp s) (gp s') x) /\
    ((exists c, c ∈ l /\ state (gp s c) = PROC_ZOMBIE) -> asleep (gp s) init -> state (gp s' init) = PROC_RUNNABLE) /\
    (forall x, x <> cur -> x <> init -> cptr (gp s' x) = cptr (gp s x)) /\
    (forall k, sc_fit (ents (queues (sch s)) k) -> sc_fit (ents (queues (sch s')) k)).
Proof.
  induction l as [|c l IH]; intros fuel s li Ha Hn Hf.
  - exists s. split.
    { destruct fuel; cbn [adopt_children];
        rewrite (bind_Done _ _ _ _ _ (eq_refl : get (fun s => cptr (proc_at cur s)) s = Done (cptr (gp s cur), s)));
        by rewrite (ad_first _ _ _ _ _ _ Ha). }
    split; [done|]. split; [apply only_procs_refl|]. split; [done|]. split; [apply lived_life, same_life_refl|].
    split; [done|]. split; [|done]. intros (c & Hc & _). by apply elem_of_nil in Hc.
  - destruct fuel as [|fuel]; [cbn in Hf; lia|].
    destruct (adopting_step n s cur init c l li Ha Hn) as (s1 & Hr1 & Ha1 & Ho1 & Hc1 & Hl1 & Hs1 & Hw1 & Hp1 & Hf1).
    destruct (IH fuel s1 (c :: li) Ha1 Hn ltac:(cbn in Hf; lia)) as (s2 & Hr2 & Ha2 & Ho2 & Hc2 & Hl2 & Hs2 & Hw2 & Hp2 & Hf2).
    exists s2. split; [|split; [|split; [|split; [|split; [|split; [|split; [|split; [|by auto]]]]]]]].
    + cbn [adopt_children]. mstep (eq_refl : get (fun s => cptr (proc_at cur s)) s = Done (cptr (gp s cur), s)).
      rewrite (ad_first _ _ _ _ _ _ Ha). cbn [head]. by mstep Hr1.
    + cbn [rev]. by rewrite <- app_assoc.
    + by eapply only_procs_trans.
    + congruence.
    + by eapply lived_trans.
    + intros x C. assert (C1 : x ∉ c :: li) by (intros Hx; apply C; cbn; rewrite elem_of_cons, elem_of_app in *; tauto).
      assert (C2 : x ∉ l ++ c :: li) by (rewrite <- Permutation_middle; exact C).
      apply (place_trans _ (gp s1)); auto.
    + intros (z & Hz & Hzz) Has. destruct (Hl2 init) as (_ & _ & [[Hst _]|(_ & _ & Hst & _)]); [|done].
      apply elem_of_cons in Hz as [->|Hz]; [rewrite Hst; by apply Hw1|].
      destruct (Hl1 init) as (_ & _ & [[Hst1 Hws1]|(_ & _ & Hst1 & _)]); [|by rewrite Hst].
      apply Hw2; [|unfold asleep in *; by rewrite Hst1, Hws1]. exists z. split; [done|].
      destruct (Hl1 z) as (_ & _ & [[Hsz _]|(-> & _)]); [by rewrite Hsz|].
      exfalso. apply (ad_init_out _ _ _ _ _ _ Ha). cbn. rewrite elem_of_cons, elem_of_app. tauto.
    + intros x A B. by rewrite Hp2, Hp1.
Qed.

Lemma family_place g g' p l : family g p l -> cptr (g' p) = cptr (g p) ->
  (forall x, x ∈ l -> same_place g g' x) -> family g' p l.
Proof. intros [A B C D] Hc Hl. split; [by rewrite Hc| |done|done]. by apply (siblings_place g). Qed.
Lemma family_ext g g' p l : family g p l -> cptr (g' p) = cptr (g p) ->
  (forall x, x ∈ l -> same_links g g' x) -> family g' p l.
Proof. intros Hf Hc Hl. apply (family_place g); [done|done|]. intros x Hx. by apply links_place, Hl. Qed.

(** The process that exits marks itself. *)
Lemma mark_run n s q cur e :
  sched_ok n (sch s) q -> current (sch s) = cur -> cur <> idleproc (sch s) ->
  exists s', (on_process cur (set_state PROC_ZOMBIE) ;; on_process cur (set_exit_code e)) s = Done (tt, s') /\
    only_procs s s' /\ current (sch s') = cur /\ sched_ok n (sch s') q /\
    ents (queues (sch s')) = ents (queues (sch s)) /\
    forall x, gp s' x = if decide (x = cur) then set_exit_code e (set_state PROC_ZOMBIE (gp s x)) else gp s x.
Proof.
  intros [A B C D E] Hc Hi. eexists. split; [reflexivity|]. split; [by split_and!|]. split; [done|].
  match goal with |- sched_ok _ (sch ?s1) _ /\ _ => set (s' := s1) end.
  assert (Hg : forall x, gp s' x = if decide (x = cur) then set_exit_code e (set_state PROC_ZOMBIE (gp s x)) else gp s x).
  { intros x. cbn. unfold gp. rewrite upd_eq. unfold upd. repeat case_decide; subst; done. }
  assert (Hr : forall x, runnable (sch s') x <-> runnable (sch s) x /\ x <> cur).
  { intros x. unfold runnable. change (procs (sch s') x) with (gp s' x). rewrite Hg. case_decide; cbn.
    - split; [done|tauto].
    - unfold gp. tauto. }
  split; [|done]. split; [done| | | |done].
  - intros x. rewrite Hr, B. change (current (sch s')) with (current (sch s)). rewrite Hc. 
    change (idleproc (sch s')) with (idleproc (sch s)). tauto.
  - apply Hr. split; [done|]. intros Heq. by apply Hi.
  - intros x Hx. apply D. by apply Hr.
Qed.

(** What the end of [cur] leaves of everyone else; [l] are the children that are
    moved and those of [init]. *)
Record orphaned s s' (cur par init : Z) (l : list Z) : Prop := mkOrphaned {
  or_current : current (sch s') = current (sch s);
  or_pid x : pid (gp s' x) = pid (gp s x);
  or_cptr x : x <> cur -> x <> init -> cptr (gp s' x) = cptr (gp s x);
  or_place x : x ∉ l -> same_place (gp s) (gp s') x;
  or_waits x : wait_state (gp s' x) = wait_state (gp s x) /\ (x <> cur -> state (gp s' x) = state (gp s x)) \/
               (x = par \/ x = init) /\ state (gp s' x) = PROC_RUNNABLE /\ wait_state (gp s' x) = 0;
  or_fit k : sc_fit (ents (queues (sch s)) k) -> sc_fit (ents (queues (sch s')) k) }.

Lemma orphan_run n s q cur init par l li e :
  sched_ok n (sch s) q -> n + 2 < 2 ^ 32 - 2 -> current (sch s) = cur -> cur <> idleproc (sch s) -> cur <> init ->
  parent (gp s cur) = Some par -> par <> cur -> state (gp s par) <> PROC_ZOMBIE -> state (gp s init) <> PROC_ZOMBIE ->
  sc_fit (ents (queues (sch s)) par) -> sc_fit (ents (queues (sch s)) init) ->
  family (gp s) cur l -> family (gp s) init li -> NoDup (l ++ li) -> init ∉ l ->
  (length l <= length (proc_list s))%nat ->
  exists s' q', orphan cur init e s = Done (tt, s') /\ only_procs s s' /\ sched_ok (n + 2) (sch s') q' /\
    state (gp s' cur) = PROC_ZOMBIE /\ exit_code (gp s' cur) = e /\
    cptr (gp s' cur) = None /\ family (gp s') init (rev l ++ li) /\
    (wait_state (gp s par) = WT_CHILD -> state (gp s' par) = PROC_RUNNABLE) /\
    ((exists c, c ∈ l /\ state (gp s c) = PROC_ZOMBIE) -> wait_state (gp s init) = WT_CHILD ->
       state (gp s' init) = PROC_RUNNABLE) /\
    (forall x, x <> cur -> x <> par -> x <> init -> state (gp s' x) = state (gp s x) /\ exit_code (gp s' x) = exit_code (gp s x)) /\
    orphaned s s' cur par init (l ++ li).
Proof.
  intros Hok Hn Hc Hci Hcin Hpar Hpc Hpz Hiz Hfp Hfi Hfl Hfli Hnd Hil Hlen.
  destruct (mark_run n s q cur e Hok Hc Hci) as (s1 & Hr1 & Ho1 & Hc1 & Hok1 & He1 & Hg1).
  assert (Hg1ne : forall x, x <> cur -> gp s1 x = gp s x) by (intros x Hx; rewrite Hg1; by rewrite decide_False).
  assert (Hsl1 : forall x, same_links (gp s) (gp s1) x) by (intros x; unfold same_links; rewrite Hg1; by case_decide).
  destruct (notify_run n par s1 q Hok1) as (s2 & q2 & Hr2 & Ho2 & Hc2 & Hw2 & Hwk2 & Hok2 & Hf2);
    [lia|by rewrite Hg1ne|by rewrite He1|].
  assert (Hok2' : sched_ok (n + 1) (sch s2) q2)
    by (destruct (decide (asleep (gp s1) par)); [done|apply (sched_ok_mono n); [done|lia|lia]]).
  assert (Hsl2 : forall x, same_links (gp s) (gp s2) x).
  { intros x. destruct (Hsl1 x) as (A1 & A2 & A3 & A4), (Hw2 x) as ((B1 & B2 & B3 & B4) & _).
    unfold same_links. split_and!; congruence. }
  assert (Had : adopting (n + 1) s2 cur init l li).
  { split.
    - exists None. apply (siblings_ext (gp s)); [done|by apply fa_links].
    - destruct (Hsl2 cur) as (_ & -> & _). by apply fa_first.
    - apply (family_ext (gp s)); [done|by destruct (Hsl2 init) as (_ & ? & _)|done].
    - done.
    - by destruct Hfl as [_ _ _ ?].
    - rewrite elem_of_app. destruct Hfli as [_ _ _ ?]. tauto.
    - done.
    - exists q2. apply (sched_ok_mono (n + 1)); [done| |]; destruct (decide (asleep (gp s2) init)); lia.
    - destruct (Hw2 init) as (_ & _ & _ & [[-> _]|(_ & _ & -> & _)]); [|done]. by rewrite Hg1ne by congruence.
    - apply Hf2. by rewrite He1. }
  destruct (adopt_children_run (n + 1) cur init l (length (proc_list s2)) s2 li Had ltac:(lia))
    as (s3 & Hr3 & Ha3 & Ho3 & Hc3 & Hl3 & Hs3 & Hw3 & Hp3 & Hf3).
  { destruct Ho2 as (Hpl2 & _), Ho1 as (Hpl1 & _). congruence. }
  destruct (ad_sched _ _ _ _ _ _ Ha3) as [q3 Hok3].
  (* what happened to the state of each process before the switch *)
  assert (Hst3 : forall x, x <> cur -> exit_code (gp s3 x) = exit_code (gp s x) /\
     (state (gp s3 x) = state (gp s x) \/ (x = par \/ x = init) /\ state (gp s3 x) = PROC_RUNNABLE)).
  { intros x Hx. destruct (Hl3 x) as (Ea & _ & Sa), (Hw2 x) as (_ & Eb & _ & Sb). rewrite Hg1ne in Eb, Sb by done.
    split; [congruence|]. destruct Sa as [[Sa _]|(-> & _ & Sa & _)]; [|by right; split; [right|]]. rewrite Sa.
    destruct Sb as [[Sb _]|(-> & _ & Sb & _)]; [by left|]. right. by split; [left|]. }
  assert (Hz3 : state (gp s3 cur) = PROC_ZOMBIE /\ exit_code (gp s3 cur) = e).
  { destruct (Hl3 cur) as (Ea & _ & [[Sa _]|(Hx & _)]); [|done].
    destruct (Hw2 cur) as (_ & Eb & _ & [[Sb _]|(Hx & _)]); [|by destruct Hpc].
    rewrite Hg1, decide_True in Eb, Sb by done. cbn in Eb, Sb; split; congruence. }
  exists s3, q3. split; [|split; [|split; [|split; [tauto|split; [tauto|split; [|split; [|split; [|split; [|split]]]]]]]]].
  - unfold orphan. apply bind_Done_inv in Hr1 as (u & sa & Ha & Hb). mstep Ha. mstep Hb.
    mstep (eq_refl : get (fun s => parent (proc_at cur s)) s1 = Done (parent (gp s1 cur), s1)).
    destruct (Hsl1 cur) as (-> & _). rewrite Hpar. mstep Hr2.
    mstep (eq_refl : get proc_list s2 = Done (proc_list s2, s2)). exact Hr3.
  - apply (only_procs_trans _ s1); [done|]. by apply (only_procs_trans _ s2).
  - apply (sched_ok_mono (n + 1 + 1)); [|lia|lia]. apply (sched_ok_mono _ _ _ _ Hok3); [|lia].
    destruct (decide (asleep (gp s3) init)); lia.
  - apply (ad_first _ _ _ _ _ _ Ha3).
  - apply (ad_init _ _ _ _ _ _ Ha3).
  - intros Hw. destruct (Hst3 par Hpc) as (_ & [Hs|[_ Hs]]); [|done].
    destruct (decide (state (gp s par) = PROC_RUNNABLE)) as [Hr|Hnr]; [congruence|].
    assert (Hap : asleep (gp s1) par) by (unfold asleep; by rewrite Hg1ne).
    specialize (Hwk2 Hap). destruct (Hl3 par) as (_ & _ & [[Sa _]|(_ & _ & Sa & _)]); congruence.
  - intros (c & Hcl & Hcz) Hw.
    destruct (Hst3 init ltac:(congruence)) as (_ & [Hs|[_ Hs]]); [|done].
    destruct (decide (state (gp s init) = PROC_RUNNABLE)) as [Hr|Hnr]; [congruence|].
    destruct (Hw2 init) as (_ & _ & _ & [[Sb Wb]|(_ & _ & Sb & _)]).
    + rewrite Hg1ne in Sb, Wb by congruence. apply Hw3; [|unfold asleep; by rewrite Sb, Wb].
      exists c. split; [done|]. assert (Hccur : c <> cur) by (intros ->; destruct Hfl as [_ _ _ ?]; done).
      destruct (Hw2 c) as (_ & _ & _ & [[Sc _]|(-> & _)]); [by rewrite Sc, Hg1ne|done].
    + destruct (Hl3 init) as (_ & _ & [[Sa _]|(_ & _ & Sa & _)]); congruence.
  - intros x A B C. destruct (Hst3 x A) as [-> [->|[[?|?] _]]]; done.
  - split.
    + congruence.
    + intros x. destruct (Hl3 x) as (_ & -> & _), (Hw2 x) as (_ & _ & -> & _). rewrite Hg1. by destruct (decide (x = cur)) as [->|].
    + intros x A B. rewrite Hp3 by done. by destruct (Hsl2 x) as (_ & -> & _).
    + intros x C. apply (place_trans _ (gp s2)); [by apply links_place|by apply Hs3].
    + intros x. assert (Hg1x : wait_state (gp s1 x) = wait_state (gp s x) /\ (x <> cur -> state (gp s1 x) = state (gp s x)))
        by (rewrite Hg1; destruct (decide (x = cur)) as [->|]; done). destruct Hg1x as [Wg Sg].
      destruct (Hl3 x) as (_ & _ & [[Sa Wa]|(-> & _ & Sa & Wa)]); [|by right; split; [right|]].
      destruct (Hw2 x) as (_ & _ & _ & [[Sb Wb]|(-> & _ & Sb & Wb)]).
      * left. split; [congruence|]. intros A. rewrite Sa, Sb. by apply Sg.
      * right. split; [by left|]. split; congruence.
    + intros k Hk. apply Hf3, Hf2. by rewrite He1.
Qed.

(** The switch leaves links, states and codes alone. *)
Lemma switch_run n s q : sched_ok n (sch s) q ->
  exists s', on_sched schedule s = Done (tt, s') /\ only_procs s s' /\ runnable (sch s) (current (sch s')) /\
    forall x, same_links (gp s) (gp s') x /\ state (gp s' x) = state (gp s x) /\ exit_code (gp s' x) = exit_code (gp s x).
Proof.
  intros Hok. destruct (schedule_run _ _ _ Hok) as (x & q' & Hr & _ & (Hi & _ & _ & Hp) & Hrc & _).
  exists (set_sch x s). split; [unfold on_sched, on_part; by rewrite Hr|]. split; [by split_and!|]. split; [done|].
  intros k. unfold same_links. change (gp (set_sch x s) k) with (procs x k). by rewrite Hp.
Qed.

(** C16 A process that exits is a zombie with its code and never has the
    processor again; all its children, in reverse order, become the first
    children of [init], linked both ways; its parent is woken if it waits for a
    child, and so is [init] if it waits and was given a zombie; nothing else
    changes state. *)
Theorem leave_orphans n s q cur init par l li e :
  sched_ok n (sch s) q -> n + 2 < 2 ^ 32 - 2 -> current (sch s) = cur -> cur <> idleproc (sch s) -> cur <> init ->
  parent (gp s cur) = Some par -> par <> cur -> state (gp s par) <> PROC_ZOMBIE -> state (gp s init) <> PROC_ZOMBIE ->
  sc_fit (ents (queues (sch s)) par) -> sc_fit (ents (queues (sch s)) init) ->
  family (gp s) cur l -> family (gp s) init li -> NoDup (l ++ li) -> init ∉ l ->
  (length l <= length (proc_list s))%nat ->
  exists s', leave cur init e s = Done (tt, s') /\ only_procs s s' /\
    state (gp s' cur) = PROC_ZOMBIE /\ exit_code (gp s' cur) = e /\ current (sch s') <> cur /\
    cptr (gp s' cur) = None /\ family (gp s') init (rev l ++ li) /\
    (wait_state (gp s par) = WT_CHILD -> state (gp s' par) = PROC_RUNNABLE) /\
    ((exists c, c ∈ l /\ state (gp s c) = PROC_ZOMBIE) -> wait_state (gp s init) = WT_CHILD ->
       state (gp s' init) = PROC_RUNNABLE) /\
    forall x, x <> cur -> x <> par -> x <> init -> state (gp s' x) = state (gp s x) /\ exit_code (gp s' x) = exit_code (gp s x).
Proof.
  intros Hok Hn Hc Hci Hcin Hpar Hpc Hpz Hiz Hfp Hfi Hfl Hfli Hnd Hil Hlen.
  destruct (orphan_run n s q cur init par l li e) as (s1 & q1 & Hr1 & Ho1 & Hok1 & Hz & He & Hcp & Hfam & Hwp & Hwi & Hrest & _);
    try done.
  destruct (switch_run _ s1 q1 Hok1) as (s2 & Hr2 & Ho2 & Hrc & Hs2).
  assert (Hst : forall x, state (gp s2 x) = state (gp s1 x)) by (intros x; by destruct (Hs2 x) as (_ & ? & _)).
  exists s2. split; [unfold leave; by mstep Hr1|]. split; [by eapply only_procs_trans|]. split; [by rewrite Hst|].
  split; [destruct (Hs2 cur) as (_ & _ & ->); done|]. split; [|split; [|split; [|split; [|split]]]].
  - intros Heq. unfold runnable in Hrc. unfold gp in Hz. rewrite Heq in Hrc. congruence.
  - destruct (Hs2 cur) as ((_ & -> & _) & _). done.
  - apply (family_ext (gp s1)); [done|by destruct (Hs2 init) as ((_ & ? & _) & _)|]. intros x _. by destruct (Hs2 x).
  - rewrite Hst. exact Hwp.
  - rewrite Hst. exact Hwi.
  - intros x A B C. destruct (Hs2 x) as (_ & -> & ->). by apply Hrest.
Qed.

(** ** Taking a child out of its family *)
Definition before (y : option Z) (a : list Z) : option Z := match last a with Some z => Some z | None => y end.

Lemma before_cons y x a : before y (x :: a) = before (Some x) a.
Proof. unfold before. rewrite last_cons. by destruct (last a). Qed.

Lemma siblings_at g par p b : forall a y, siblings g par y (a ++ p :: b) ->
  yptr (g p) = before y a /\ optr (g p) = head b /\ parent (g p) = Some par.
Proof.
  induction a as [|x a IH]; intros y; cbn [app siblings]; [by intros (?&?&?&_)|].
  intros (_ & _ & _ & Hs). rewrite before_cons. by apply IH.
Qed.

Lemma siblings_remove g g' par p b : forall a y,
  siblings g par y (a ++ p :: b) -> NoDup (a ++ p :: b) ->
  (forall x, x ∈ a ++ b -> parent (g' x) = parent (g x) /\
     yptr (g' x) = (if decide (head b = Some x) then before y a else yptr (g x)) /\
     optr (g' x) = (if decide (last a = Some x) then head b else optr (g x))) ->
  siblings g' par y (a ++ b).
Proof.
  induction a as [|x a IH]; intros y; cbn [app].
  - intros (Hp & Hy & Ho & Hs) Hnd Hg. destruct b as [|z b]; [done|]. cbn in Hs. destruct Hs as (Hpz & Hyz & Hoz & Hs).
    destruct (Hg z ltac:(left)) as (A & B & C). cbn in B, C. rewrite decide_True in B by done.
    rewrite decide_False in C by done.
    cbn. split; [congruence|]. split; [done|]. split; [congruence|].
    apply (siblings_place g); [|done]. intros k Hk. destruct (Hg k ltac:(by right)) as (Ak & Bk & Ck).
    cbn in Bk, Ck. apply NoDup_cons in Hnd as [_ Hnd]. apply NoDup_cons in Hnd as [Hz _].
    rewrite decide_False in Ck by done. rewrite decide_False in Bk by (intros [= ->]; done). done.
  - intros (Hp & Hy & Ho & Hs) Hnd Hg. apply NoDup_cons in Hnd as [Hx Hnd].
    rewrite elem_of_app, elem_of_cons in Hx. destruct (Hg x ltac:(left)) as (A & B & C).
    rewrite decide_False in B by (intros Hb; apply Hx; right; right; destruct b; [done|]; injection Hb as ->; left).
    cbn. split; [congruence|]. split; [congruence|]. split.
    + rewrite C. destruct a as [|w a]; [by cbn; rewrite decide_True|]. cbn [last app head]. cbn in Ho.
      rewrite decide_False; [done|]. intros Hl. change (last (w :: a) = Some x) in Hl. apply Hx. left.
      by apply last_Some_elem_of.
    + apply IH; [done|done|]. intros k Hk. destruct (Hg k ltac:(by right)) as (Ak & Bk & Ck).
      rewrite before_cons in Bk. split; [done|]. split; [done|]. rewrite Ck. rewrite last_cons.
      destruct (last a) as [w|] eqn:Hla; [done|]. rewrite decide_False; [by rewrite decide_False by done|].
      intros [= ->]. apply Hx. rewrite elem_of_app in Hk. tauto.
Qed.

(** The queue, the process that runs and the identifiers are the same. *)
Definition same_machine s s' : Prop :=
  queues (sch s') = queues (sch s) /\ current (sch s') = current (sch s) /\ idleproc (sch s') = idleproc (sch s) /\
  initproc s' = initproc s /\ pids s' = pids s.

Lemma remove_links_run s cur a p b :
  family (gp s) cur (a ++ p :: b) ->
  exists s', remove_links p s = Done (tt, s') /\ family (gp s') cur (a ++ b) /\ same_life (gp s) (gp s') /\
    proc_list s' = unlink p (proc_list s) /\ nr_process s' = s32 (nr_process s - 1) /\ hash_list s' = hash_list s /\
    freed s' = freed s /\ ram s' = ram s /\ kstack (gp s' p) = kstack (gp s p) /\ same_machine s s' /\
    (forall x, x ∉ a ++ b -> same_place (gp s) (gp s') x) /\
    (forall x, x <> cur -> cptr (gp s' x) = cptr (gp s x)).
Proof.
  intros [Hf Hs Hnd Hself]. destruct (siblings_at (gp s) cur p b a None Hs) as (Hy & Ho & Hp).
  set (g1 := match head b with Some o => upd (gp s) o (set_yptr (last a) (gp s o)) | None => gp s end).
  set (g2 := match last a with
             | Some y => upd g1 y (set_optr (head b) (g1 y))
             | None => upd g1 cur (set_cptr (head b) (g1 cur))
             end).
  assert (Hbl : before None a = last a) by (unfold before; by destruct (last a)). rewrite Hbl in Hy.
  assert (Hd : forall x, x ∈ a -> x ∈ b -> False).
  { intros x Ha Hb. apply NoDup_app in Hnd as (_ & Hd & _). apply (Hd x Ha). by right. }
  assert (Hla : forall x, last a = Some x -> x ∈ a) by (intros x; apply last_Some_elem_of).
  assert (Hhb : forall x, head b = Some x -> x ∈ b) by (intros x Hx; destruct b; [done|]; injection Hx as ->; left).
  rewrite elem_of_app, elem_of_cons in Hself.
  assert (Hpa : p ∉ a /\ p ∉ b).
  { apply NoDup_app in Hnd as (_ & Hdd & Hnb). apply NoDup_cons in Hnb as [? _]. split; [|done].
    intros Hin. apply (Hdd p Hin). left. }
  assert (Hg1 : forall x, g1 x = if decide (head b = Some x) then set_yptr (last a) (gp s x) else gp s x).
  { intros x. unfold g1. destruct (head b) as [o|]; [|done]. unfold upd. repeat case_decide; subst; congruence || done. }
  assert (Hg2 : forall x, x <> cur -> g2 x = if decide (last a = Some x) then set_optr (head b) (gp s x) else g1 x).
  { intros x Hx. unfold g2. destruct (last a) as [y|] eqn:Hl.
    - unfold upd. destruct (decide (x = y)) as [->|Hxy]; [|by rewrite decide_False by congruence].
      rewrite decide_True by done. rewrite Hg1, decide_False; [done|]. intros Hb. apply (Hd y); auto.
    - by rewrite upd_ne. }
  exists (set_nr_process (s32 (nr_process s - 1)) (with_procs g2 (set_proc_list (unlink p (proc_list s)) s))).
  split; [|split; [split|split; [|do 5 (split; [done|])]]].
  - unfold remove_links. set (s1 := set_proc_list (unlink p (proc_list s)) s).
    mstep (eq_refl : modify (fun s => set_proc_list (unlink p (proc_list s)) s) s = Done (tt, s1)).
    mstep (eq_refl : get (fun s => optr (proc_at p s)) s1 = Done (optr (gp s p), s1)).
    mstep (eq_refl : get (fun s => yptr (proc_at p s)) s1 = Done (yptr (gp s p), s1)). rewrite Ho, Hy.
    assert (H1' : (match head b with Some o => on_process o (set_yptr (last a)) | None => mret tt end : ST kern unit) s1
                  = Done (tt, with_procs g1 s1)) by (unfold g1; destruct (head b) as [o|]; [apply (on_process_run o (set_yptr (last a)) s1)|by destruct s as [[]]]).
    mstep H1'.
    assert (H2' : (match last a with
                   | Some y => on_process y (set_optr (head b))
                   | None => par ← get (fun s => parent (proc_at p s));
                             match par with Some par => on_process par (set_cptr (head b)) | None => panic end
                   end : ST kern unit) (with_procs g1 s1) = Done (tt, with_procs g2 s1)).
    { unfold g2. destruct (last a) as [y|]; [done|].
      mstep (eq_refl : get (fun s => parent (proc_at p s)) (with_procs g1 s1) = Done (parent (g1 p), with_procs g1 s1)).
      rewrite Hg1, decide_False by (intros Hb; apply Hhb in Hb; tauto). by rewrite Hp. }
    by mstep H2'.
  - change (gp _) with g2. unfold g2. destruct (last a) as [y|] eqn:Hl.
    + rewrite upd_ne by (intros ->; specialize (Hla y eq_refl); tauto). rewrite Hg1.
      assert (Hc : cptr (gp s cur) = head (a ++ b)) by (rewrite Hf; destruct a; [done|done]). by case_decide.
    + rewrite upd_eq. cbn. destruct a; [done|]. by rewrite last_cons in Hl; destruct (last a).
  - change (gp _) with g2. apply (siblings_remove (gp s) g2 cur p b a None Hs Hnd). intros x Hx.
    assert (Hxc : x <> cur) by (intros ->; rewrite elem_of_app in Hx; tauto).
    rewrite Hbl, Hg2, Hg1 by done. repeat case_decide; try (split_and!; done).
    exfalso. apply (Hd x); auto.
  - rewrite NoDup_app. apply NoDup_app in Hnd as (? & Hdd & Hnb). apply NoDup_cons in Hnb as [_ ?].
    split; [done|]. split; [|done]. intros x Hx Hb. by apply (Hd x).
  - rewrite elem_of_app. tauto.
  - change (same_life (gp s) g2). apply (same_life_trans _ g1).
    + unfold g1. destruct (head b); [apply same_life_upd; by intros ?|done].
    + unfold g2. destruct (last a); apply (same_life_upd g1); by intros ?.
  - split; [|split; [by repeat split|split]].
    + change (kstack (g2 p) = kstack (gp s p)).
      assert (Hpc : p <> cur) by (intros ->; tauto). rewrite Hg2 by done.
      rewrite decide_False by (intros Hl; apply Hla in Hl; tauto). rewrite Hg1. by case_decide.
    + intros x Hx. unfold same_place. change (gp (set_nr_process _ _)) with g2. rewrite elem_of_app in Hx.
      assert (Hg1x : g1 x = gp s x) by (rewrite Hg1, decide_False; [done|]; intros Hb; apply Hhb in Hb; tauto).
      destruct (decide (x = cur)) as [->|Hxc].
      * unfold g2. destruct (last a) as [y|] eqn:Hl.
        -- rewrite upd_ne by (intros ->; specialize (Hla y eq_refl); tauto). by rewrite Hg1x.
        -- rewrite upd_eq. cbn. by rewrite Hg1x.
      * rewrite Hg2, Hg1x by done. by rewrite decide_False by (intros Ha; apply Hla in Ha; tauto).
    + intros x Hx. change (gp (set_nr_process _ _)) with g2. rewrite Hg2, Hg1 by done. by repeat case_decide.
Qed.

(** The search stops at the first zombie. *)
Lemma find_zombie_run p b cur s : state (gp s p) = PROC_ZOMBIE -> forall a y fuel, (length a <= fuel)%nat ->
  siblings (gp s) cur y (a ++ p :: b) -> (forall x, x ∈ a -> state (gp s x) <> PROC_ZOMBIE) ->
  find_zombie fuel (head (a ++ p :: b)) s = Done (Some p, s).
Proof.
  intros Hp a. induction a as [|x a IH]; intros y fuel Hf Hs Ha.
  - destruct fuel as [|fuel]; cbn [app head find_zombie];
      mstep (eq_refl : get (fun s => state (proc_at p s)) s = Done (state (gp s p), s));
      by rewrite decide_True.
  - cbn in Hf. destruct fuel as [|fuel]; [lia|]. cbn [app head find_zombie].
    mstep (eq_refl : get (fun s => state (proc_at x s)) s = Done (state (gp s x), s)).
    rewrite decide_False by (apply Ha; left).
    mstep (eq_refl : get (fun s => optr (proc_at x s)) s = Done (optr (gp s x), s)).
    cbn [app siblings] in Hs. destruct Hs as (_ & _ & -> & Hs).
    apply (IH (Some x) fuel ltac:(lia) Hs). intros z Hz. apply Ha. by right.
Qed.

(** What [reap] leaves of the zombie [p]: its exit code where the parent asked
    for it, and the order of the frees. *)
Record reaped s s' (cur p store : Z) (l : list Z) : Prop := mkReaped {
  re_code : store <> 0 -> get32 (ram s') store = u32 (exit_code (gp s p));
  re_family : family (gp s') cur l;
  re_list : proc_list s' = unlink p (proc_list s);
  re_hash h : hash_list s' h = if decide (h = pid_hashfn (pid (gp s p))) then unlink p (hash_list s h) else hash_list s h;
  re_count : nr_process s' = s32 (nr_process s - 1);
  re_freed : freed s' = Proc_mem p :: Stack_pages (kstack (gp s p)) :: freed s;
  re_life : same_life (gp s) (gp s');
  re_place x : x ∉ l -> same_place (gp s) (gp s') x;
  re_cptr x : x <> cur -> cptr (gp s' x) = cptr (gp s x);
  re_machine : same_machine s s' }.

Lemma stored_code m a v : get32 (put32 m a (u32 v)) a = u32 v.
Proof. apply le_get_put. apply (u32_range v). Qed.

Lemma reap_run s cur p store a b :
  p <> idleproc (sch s) -> p <> initproc s -> family (gp s) cur (a ++ p :: b) ->
  exists s', reap p store s = Done (0, s') /\ reaped s s' cur p store (a ++ b).
Proof.
  intros Hi Hn Hf. unfold reap.
  set (s1 := if store =? 0 then s else set_ram (put32 (ram s) store (u32 (exit_code (gp s p)))) s).
  set (s2 := set_hash_list (upd (hash_list s) (pid_hashfn (pid (gp s p)))
                                (unlink p (hash_list s (pid_hashfn (pid (gp s p)))))) s1).
  assert (Hs2 : gp s2 = gp s /\ proc_list s2 = proc_list s /\ nr_process s2 = nr_process s /\ freed s2 = freed s)
    by (unfold s2, s1; by destruct (store =? 0)). destruct Hs2 as (Hg & Hl & Hc & Hfr).
  rewrite <- Hg in Hf. destruct (remove_links_run s2 cur a p b Hf) as (s3 & Hr & Hf3 & Hsl & Hl3 & Hc3 & Hh3 & Hfr3 & Hra3 & Hk3 & Hm3 & Hx3 & Hy3).
  exists (set_freed (Proc_mem p :: Stack_pages (kstack (gp s p)) :: freed s) s3). split.
  - mstep (eq_refl : get (fun s => idleproc (sch s)) s = Done (idleproc (sch s), s)).
    mstep (eq_refl : get initproc s = Done (initproc s, s)).
    assert (Hne : negb ((p =? idleproc (sch s)) || (p =? initproc s)) = true)
      by (rewrite negb_true_iff, orb_false_iff, !Z.eqb_neq; done).
    rewrite Hne. rewrite (bind_Done _ _ _ _ _ (assert_true true s eq_refl)).
    assert (H1' : (if store =? 0 then mret tt
                   else modify (fun s => set_ram (put32 (ram s) store (u32 (exit_code (proc_at p s)))) s) : ST kern unit) s
                  = Done (tt, s1)) by (unfold s1; by destruct (store =? 0)). mstep H1'.
    assert (H2' : unhash_proc p s1 = Done (tt, s2)) by (unfold s2, s1; by destruct (store =? 0)). mstep H2'.
    mstep Hr. unfold put_kstack, free.
    mstep (eq_refl : (a ← get (fun s => kstack (proc_at p s)); modify (fun s => set_freed (Stack_pages a :: freed s) s)) s3
                     = Done (tt, set_freed (Stack_pages (kstack (gp s3 p)) :: freed s3) s3)).
    by rewrite Hk3, Hg, Hfr3, Hfr.
  - split.
    + intros Hs. change (ram _) with (ram s3). rewrite Hra3. unfold s2, s1. rewrite (proj2 (Z.eqb_neq _ _)) by done.
      apply stored_code.
    + done.
    + change (proc_list s3 = unlink p (proc_list s)). by rewrite Hl3, Hl.
    + intros h. change (hash_list (set_freed _ _)) with (hash_list s3). rewrite Hh3. unfold s2. cbn.
      destruct (decide (h = pid_hashfn (pid (gp s p)))) as [->|Hh]; [by rewrite upd_eq|]. rewrite upd_ne by done.
      unfold s1. by destruct (store =? 0).
    + change (nr_process s3 = s32 (nr_process s - 1)). by rewrite Hc3, Hc.
    + done.
    + by rewrite <- Hg.
    + intros x Hx. rewrite <- Hg. by apply Hx3.
    + intros x Hx. rewrite <- Hg. by apply Hy3.
    + assert (Hm : same_machine s s2) by (unfold s2, s1; by destruct (store =? 0); repeat split).
      destruct Hm as (A & B & C & D & E), Hm3 as (A' & B' & C' & D' & E').
      unfold same_machine. cbn. split_and!; congruence.
Qed.

(** C27 [wait_turn] with the pid 0 looks through the children in the order
    youngest to oldest and reaps the first zombie among them: the call of
    [do_wait] is over with 0, the exit code of the zombie is stored where the
    caller asked for it, the other children are the family in the same order,
    the zombie is off the list of processes and off its hash list, one process
    fewer is counted and its kernel stack and its [proc_struct] are freed. *)
Theorem wait_turn_reaps s cur a p b store :
  current (sch s) = cur -> p <> idleproc (sch s) -> p <> initproc s ->
  family (gp s) cur (a ++ p :: b) -> (length a <= length (proc_list s))%nat ->
  state (gp s p) = PROC_ZOMBIE -> (forall x, x ∈ a -> state (gp s x) <> PROC_ZOMBIE) ->
  exists s', wait_turn 0 store s = Done (Some 0, s') /\ reaped s s' cur p store (a ++ b).
Proof.
  intros Hc Hi Hn Hf Hl Hz Ha. destruct (reap_run s cur p store a b Hi Hn Hf) as (s' & Hr & Hre).
  exists s'. split; [|done]. unfold wait_turn.
  assert (Hsearch : search_child 0 s = Done ((true, Some p), s)).
  { unfold search_child. mstep (eq_refl : get_current s = Done (current (sch s), s)). rewrite Hc. cbn [negb Z.eqb].
    mstep (eq_refl : get (fun s => cptr (proc_at cur s)) s = Done (cptr (gp s cur), s)).
    mstep (eq_refl : get proc_list s = Done (proc_list s, s)). rewrite (fa_first _ _ _ Hf).
    mstep (find_zombie_run p b cur s Hz a None (length (proc_list s)) Hl (fa_links _ _ _ Hf) Ha).
    by destruct a. }
  mstep Hsearch. by mstep Hr.
Qed.
End process_spec.

(** ** Witness: init 1 waits for its child 2, which waits for its child 3; 3
    leaves 6 and the zombie 5 behind *)
#[export] Instance no_tables : PageTables unit := {|
  copy_boot_pgdir _ p := Done (tt, p); copy_range _ _ _ _ p := Done (0, p);
  unmap_range _ _ _ p := Done (0, p); exit_range _ _ _ p := Done (0, p) |}.

Definition family_proc (st : proc_state) (w : Z) (par c y o : option Z) : proc_struct :=
  set_state st (set_wait_state w (set_parent par (set_cptr c (set_yptr y (set_optr o (fresh_proc 0)))))).
Definition family_procs (p : Z) : proc_struct :=
  if p =? 0 then family_proc PROC_RUNNABLE 0 None None None None
  else if p =? 1 then family_proc PROC_SLEEPING WT_CHILD (Some 0) (Some 2) None None
  else if p =? 2 then family_proc PROC_SLEEPING WT_CHILD (Some 1) (Some 3) None None
  else if p =? 3 then family_proc PROC_RUNNABLE 0 (Some 2) (Some 6) None None
  else if p =? 6 then family_proc PROC_SLEEPING 0 (Some 3) None None (Some 5)
  else if p =? 5 then family_proc PROC_ZOMBIE 0 (Some 3) None (Some 6) None
  else fresh_proc 0.
Definition family_kernel : kernel plain_inodes unit :=
  mkKernel (mkSched (mkRqs (mkRq [] 0 5 None) (fun _ => mkSe false 5 true 0 1) (fun _ => mkNode None None None))
                    family_procs 3 0 (fun _ => mkTimer 0 0) [])
           [6; 5; 3; 2; 1] (fun _ => []) 5 1 pid_init (fun _ => mkMm [] None 0 0 1 0) (fun _ => 0) tt
           (mkVfs (mkPlain (fun _ => 1) (fun _ => 0)) None 1 [] 1 (mkFiles None (fun _ => mkFile FD_NONE false false 0 0 None 0) 0 1))
           (fun _ => mkFiles None (fun _ => mkFile FD_NONE false false 0 0 None 0) 0 1) (fun _ => 0) [].

Lemma family_runnable p : runnable (sch family_kernel) p <-> p = 0 \/ p = 3.
Proof.
  unfold runnable. cbn. unfold family_procs.
  repeat match goal with
         | |- context [?a =? ?b] => destruct (Z.eqb_spec a b); [subst; cbn; split; [tauto || done|intros [?|?]; done]|]
         end.
  cbn. split; [done|]. intros [?|?]; done.
Qed.

Lemma family_sched_ok : sched_ok (H := RR_class) 0 (sch family_kernel) [].
Proof.
  split.
  - split; [done|constructor|done|]. intros p Hp. by apply elem_of_nil in Hp.
  - intros p. rewrite family_runnable. cbn. split; [intros Hp; by apply elem_of_nil in Hp|]. lia.
  - apply family_runnable. by left.
  - done.
  - cbn. lia.
Qed.

Lemma leave_orphans_witness :
  exists s', leave (H1 := RR_class) 3 1 7 family_kernel = Done (tt, s') /\ only_procs family_kernel s' /\
    state (gp s' 3) = PROC_ZOMBIE /\ exit_code (gp s' 3) = 7 /\ current (sch s') <> 3 /\
    cptr (gp s' 3) = None /\ family (gp s') 1 [5; 6; 2] /\
    (wait_state (gp family_kernel 2) = WT_CHILD -> state (gp s' 2) = PROC_RUNNABLE) /\
    ((exists c, c ∈ [6; 5] /\ state (gp family_kernel c) = PROC_ZOMBIE) ->
       wait_state (gp family_kernel 1) = WT_CHILD -> state (gp s' 1) = PROC_RUNNABLE) /\
    forall x, x <> 3 -> x <> 2 -> x <> 1 ->
      state (gp s' x) = state (gp family_kernel x) /\ exit_code (gp s' x) = exit_code (gp family_kernel x).
Proof.
  assert (Hnd : bool_decide (NoDup [6; 5; 2]) = true) by (vm_compute; reflexivity).
  apply bool_decide_eq_true in Hnd.
  assert (Hnd2 : NoDup [6; 5]) by (by apply (NoDup_app [6; 5] [2])).
  assert (Hout : forall x l, bool_decide (x ∈ l) = false -> x ∉ (l : list Z))
    by (intros x l Hb; by apply bool_decide_eq_false in Hb).
  apply (leave_orphans (H1 := RR_class) 0 family_kernel [] 3 1 2 [6; 5] [2] 7 family_sched_ok);
    try done; try (apply Hout; vm_compute; reflexivity).
  - split; [done| |done|apply Hout; vm_compute; reflexivity]. cbn. by split_and!.
  - split; [done| |apply NoDup_singleton|apply Hout; vm_compute; reflexivity]. cbn. by split_and!.
  - cbn. lia.
Defined.

(** 3 waits for any child: 6 is asleep, 5 is the zombie. *)
Lemma wait_turn_reaps_witness :
  exists s', wait_turn (H1 := RR_class) 0 4096 family_kernel = Done (Some 0, s') /\
    reaped family_kernel s' 3 5 4096 [6].
Proof.
  apply (wait_turn_reaps (H1 := RR_class) family_kernel 3 [6] 5 [] 4096); try done.
  - split; [done| | |].
    + cbn. by split_and!.
    + assert (Hnd : bool_decide (NoDup [6; 5]) = true) by (vm_compute; reflexivity). by apply bool_decide_eq_true in Hnd.
    + assert (Hni : bool_decide (3 ∈ [6; 5]) = false) by (vm_compute; reflexivity). by apply bool_decide_eq_false in Hni.
  - cbn. lia.
  - intros x Hx. apply list_elem_of_singleton in Hx as ->. done.
Defined.
