(* ===== verification/PageTable.v ===== *)
(** * Page tables (kern/mm/mmu.h, kern/mm/pmm.h, kern/mm/pmm.c)

    The three-level page tables of Sv39 in physical memory, over an interface
    to the allocator of physical pages.  Memory is indexed by the kernel virtual
    addresses the code uses; a [struct Page *] is its index in [pages].  The TLB
    is not modelled, so [tlb_invalidate] does nothing. *)
From S2P Require Import Prelude Libs Mem Vmm Process.

Definition PDX1SHIFT : Z := 30.
Definition PDX0SHIFT : Z := 21.
Definition PTXSHIFT : Z := 12.
Definition PGSHIFT : Z := 12.
Definition PTE_PPN_SHIFT : Z := 10.
Definition PDX1 (la : Z) : Z := Z.land (Z.shiftr la PDX1SHIFT) 0x1FF.
Definition PDX0 (la : Z) : Z := Z.land (Z.shiftr la PDX0SHIFT) 0x1FF.
Definition PTX (la : Z) : Z := Z.land (Z.shiftr la PTXSHIFT) 0x1FF.
Definition PPN (la : Z) : Z := Z.shiftr la PTXSHIFT.
Definition PGOFF (la : Z) : Z := Z.land la 0xFFF.
Definition PGADDR (d1 d0 t o : Z) : Z :=
  u64 (Z.lor (Z.shiftl d1 PDX1SHIFT) (Z.lor (Z.shiftl d0 PDX0SHIFT) (Z.lor (Z.shiftl t PTXSHIFT) o))).
(** [~0x3FF] is widened to 64 bits. *)
Definition PTE_ADDR (pte : Z) : Z := u64 (Z.shiftl (Z.ldiff pte 0x3FF) (PTXSHIFT - PTE_PPN_SHIFT)).
Definition NPTEENTRY : Z := 512.
Definition NPDEENTRY : Z := 512.
Definition PTSIZE : Z := PGSIZE * NPTEENTRY.
Definition PDSIZE : Z := PTSIZE * NPDEENTRY.
Definition PTE_V : Z := 0x001.
Definition PTE_R : Z := 0x002.
Definition PTE_W : Z := 0x004.
Definition PTE_X : Z := 0x008.
Definition PTE_U : Z := 0x010.
Definition PTE_USER : Z := Z.lor (Z.lor (Z.lor (Z.lor PTE_R PTE_W) PTE_X) PTE_U) PTE_V.
Definition pte_create (ppn type : Z) : Z := Z.lor (Z.lor (u64 (Z.shiftl ppn PTE_PPN_SHIFT)) PTE_V) type.
Definition present (pte : Z) : bool := negb (Z.land pte PTE_V =? 0).

Definition DRAM_BASE : Z := 0x80000000.
Definition nbase : Z := DRAM_BASE / PGSIZE.

(** [struct pmm_manager], and the field [ref] of the pages it manages. *)
Class PmmManager (A : Type) := {
  pm_alloc_pages : Z -> ST A (option Z);
  pm_free_pages : Z -> Z -> ST A unit;
  pm_ref : A -> Z -> Z;
  pm_set_ref : Z -> Z -> A -> A }.

Record machine (A : Type) := mkMachine { words : mem; phys : A }.
Arguments mkMachine {A}. Arguments words {A}. Arguments phys {A}.

Section page_table.
  Context {A : Type} `{PmmManager A} (npage : Z).
  Implicit Types s : machine A.

(** ** Pages, their addresses and entries *)
Definition alloc_pages (n : Z) : ST (machine A) (option Z) := fun s =>
  match pm_alloc_pages n (phys s) with
  | Done (o, a) => Done (o, mkMachine (words s) a)
  | Panicked => Panicked
  | NoFuel => NoFuel
  end.
Definition free_pages (p n : Z) : ST (machine A) unit := fun s =>
  match pm_free_pages p n (phys s) with
  | Done (o, a) => Done (o, mkMachine (words s) a)
  | Panicked => Panicked
  | NoFuel => NoFuel
  end.
Definition alloc_page : ST (machine A) (option Z) := alloc_pages 1.
Definition free_page (p : Z) : ST (machine A) unit := free_pages p 1.

Definition page_ref (p : Z) s : Z := pm_ref (phys s) p.
Definition set_page_ref (p v : Z) : ST (machine A) unit :=
  modify (fun s => mkMachine (words s) (pm_set_ref p v (phys s))).
Definition page_ref_inc (p : Z) : ST (machine A) Z :=
  r ← get (page_ref p); set_page_ref p (s32 (r + 1)) ;; get (page_ref p).
Definition page_ref_dec (p : Z) : ST (machine A) Z :=
  r ← get (page_ref p); set_page_ref p (s32 (r - 1)) ;; get (page_ref p).

Definition page2ppn (p : Z) : Z := p + nbase.
Definition page2pa (p : Z) : Z := u64 (Z.shiftl (page2ppn p) PGSHIFT).
Definition KADDR (pa : Z) : ST (machine A) Z :=
  assert (PPN pa <? npage) ;; mret (u64 (pa + PHYSICAL_MEMORY_OFFSET)).
Definition page2kva (p : Z) : ST (machine A) Z := KADDR (page2pa p).
Definition pa2page (pa : Z) : ST (machine A) Z := assert (PPN pa <? npage) ;; mret (PPN pa - nbase).
Definition pte2page (pte : Z) : ST (machine A) Z := assert (present pte) ;; pa2page (PTE_ADDR pte).
Definition pde2page (pde : Z) : ST (machine A) Z := pa2page (PTE_ADDR pde).

(** [p[i]] for a pointer [p] to entries. *)
Definition slot (p i : Z) : Z := p + 8 * i.
Definition load (p : Z) : ST (machine A) Z := get (fun s => le_get (words s) p 8).
Definition store (p v : Z) : ST (machine A) unit :=
  modify (fun s => mkMachine (le_put (words s) p 8 v) (phys s)).
Definition tlb_invalidate (pgdir la : Z) : ST (machine A) unit := mret tt.

(** ** Walking the tables *)

(** The part [get_pte] has for each of the two directories: a valid entry in
    [pdep], made if it is missing and [create] is set. *)
Definition ensure_entry (create : bool) (pdep : Z) : ST (machine A) bool :=
  e ← load pdep;
  if present e then mret true
  else if negb create then mret false
  else
    o ← alloc_page;
    match o with
    | None => mret false
    | Some page =>
        set_page_ref page 1 ;;
        k ← KADDR (page2pa page);
        modify (fun s => mkMachine (fill (words s) k PGSIZE 0) (phys s)) ;;
        store pdep (pte_create (page2ppn page) (Z.lor PTE_U PTE_V)) ;;
        mret true
    end.
(** [(pde_t * )KADDR(PDE_ADDR( *pdep))]. *)
Definition next_table (pdep : Z) : ST (machine A) Z := e ← load pdep; KADDR (PTE_ADDR e).

Definition get_pte (pgdir la : Z) (create : bool) : ST (machine A) (option Z) :=
  let pdep1 := slot pgdir (PDX1 la) in
  ok ← ensure_entry create pdep1;
  if negb (ok : bool) then mret None
  else
    pd0 ← next_table pdep1;
    let pdep0 := slot pd0 (PDX0 la) in
    ok ← ensure_entry create pdep0;
    if negb (ok : bool) then mret None
    else pt ← next_table pdep0; mret (Some (slot pt (PTX la))).

(** The page and what goes to [*ptep_store]. *)
Definition get_page (pgdir la : Z) : ST (machine A) (option Z * option Z) :=
  ptep ← get_pte pgdir la false;
  match ptep with
  | None => mret (None, None)
  | Some p => e ← load p; if present e then page ← pte2page e; mret (Some page, ptep) else mret (None, ptep)
  end.

(** ** Mapping and unmapping one page *)
Definition page_remove_pte (pgdir la ptep : Z) : ST (machine A) unit :=
  e ← load ptep;
  if present e then
    page ← pte2page e;
    page_ref_dec page ;;
    r ← get (page_ref page);
    (if r =? 0 then free_page page else mret tt) ;;
    store ptep 0 ;;
    tlb_invalidate pgdir la
  else mret tt.

Definition page_remove (pgdir la : Z) : ST (machine A) unit :=
  ptep ← get_pte pgdir la false;
  match ptep with Some p => page_remove_pte pgdir la p | None => mret tt end.

Definition page_insert (pgdir page la perm : Z) : ST (machine A) Z :=
  ptep ← get_pte pgdir la true;
  match ptep with
  | None => mret (- E_NO_MEM)
  | Some ptep =>
      page_ref_inc page ;;
      e ← load ptep;
      (if present e then
         p ← pte2page e;
         if p =? page then page_ref_dec page ;; mret tt else page_remove_pte pgdir la ptep
       else mret tt) ;;
      store ptep (pte_create (page2ppn page) (Z.lor PTE_V perm)) ;;
      tlb_invalidate pgdir la ;;
      mret 0
  end.

(** [pra_vaddr] of the page is not kept. *)
Definition pgdir_alloc_page (pgdir la perm : Z) : ST (machine A) (option Z) :=
  o ← alloc_page;
  match o with
  | None => mret None
  | Some page =>
      ret ← page_insert pgdir page la perm;
      if negb (ret =? 0) then free_page page ;; mret None
      else r ← get (page_ref page); assert (r =? 1) ;; mret (Some page)
  end.

(** ** Ranges *)
Definition range_ok (start end_ : Z) : ST (machine A) unit :=
  assert ((start mod PGSIZE =? 0) && (end_ mod PGSIZE =? 0)) ;; assert (USER_ACCESS start end_).
(** The start of the next page table. *)
Definition next_pt (start : Z) : Z := ROUNDDOWN (u64 (start + PTSIZE)) PTSIZE.
(** [while (start != 0 && start < end)]. *)
Definition more (start end_ : Z) : bool := negb (start =? 0) && (start <? end_).

Fixpoint unmap_loop (fuel : nat) (pgdir start end_ : Z) : ST (machine A) unit :=
  match fuel with
  | O => no_fuel
  | S fuel' =>
      ptep ← get_pte pgdir start false;
      start ← (match ptep with
               | None => mret (next_pt start)
               | Some p =>
                   e ← load p;
                   (if negb (e =? 0) then page_remove_pte pgdir start p else mret tt) ;;
                   mret (u64 (start + PGSIZE))
               end : ST (machine A) Z);
      if more start end_ then unmap_loop fuel' pgdir start end_ else mret tt
  end.
(** A turn per page is enough. *)
Definition turns (start end_ : Z) : nat := S (Z.to_nat ((end_ - start) / PGSIZE)).
Definition unmap_range (pgdir start end_ : Z) : ST (machine A) unit :=
  range_ok start end_ ;; unmap_loop (turns start end_) pgdir start end_.

(** [ptep] is read again once the table of [to] is there. *)
Definition copy_page (to start ptep : Z) : ST (machine A) bool :=
  nptep ← get_pte to start true;
  match nptep with
  | None => mret false
  | Some _ =>
      pte ← load ptep;
      let perm := Z.land pte PTE_USER in
      page ← pte2page pte;
      npage ← alloc_page;
      match npage with
      | None => panic
      | Some np =>
          src ← page2kva page;
          dst ← page2kva np;
          modify (fun s => mkMachine (copy (words s) dst (words s) src PGSIZE) (phys s)) ;;
          ret ← page_insert to np start perm;
          assert (ret =? 0) ;;
          mret true
      end
  end.

Fixpoint copy_loop (fuel : nat) (to from start end_ : Z) : ST (machine A) Z :=
  match fuel with
  | O => no_fuel
  | S fuel' =>
      ptep ← get_pte from start false;
      r ← (match ptep with
           | None => mret (Some (next_pt start))
           | Some p =>
               e ← load p;
               ok ← (if present e then copy_page to start p else mret true);
               mret (if (ok : bool) then Some (u64 (start + PGSIZE)) else None)
           end : ST (machine A) (option Z));
      match r with
      | None => mret (- E_NO_MEM)
      | Some start => if more start end_ then copy_loop fuel' to from start end_ else mret 0
      end
  end.
Definition copy_range (to from start end_ : Z) : ST (machine A) Z :=
  range_ok start end_ ;; copy_loop (turns start end_) to from start end_.

(** The scan of a page table for a valid entry, from [i] on. *)
Fixpoint pt_free (k : nat) (pt i : Z) : ST (machine A) bool :=
  match k with
  | O => mret true
  | S k' => e ← load (slot pt i); if present e then mret false else pt_free k' pt (i + 1)
  end.

(** The inner loop of [exit_range]; its results are [free_pd0] and [d0start]. *)
Fixpoint exit_inner (fuel : nat) (pd0 d1start d0start end_ : Z) (free_pd0 : bool) : ST (machine A) (bool * Z) :=
  match fuel with
  | O => no_fuel
  | S fuel' =>
      let pdep := slot pd0 (PDX0 d0start) in
      pde0 ← load pdep;
      free_pd0 ← (if present pde0 then
                    p ← pde2page pde0;
                    pt ← page2kva p;
                    free_pt ← pt_free 512 pt 0;
                    (if (free_pt : bool) then free_page p ;; store pdep 0 else mret tt) ;;
                    mret free_pd0
                  else mret false : ST (machine A) bool);
      let d0start := u64 (d0start + PTSIZE) in
      if negb (d0start =? 0) && (d0start <? u64 (d1start + PDSIZE)) && (d0start <? end_)
      then exit_inner fuel' pd0 d1start d0start end_ free_pd0
      else mret (free_pd0, d0start)
  end.

Fixpoint exit_outer (fuel : nat) (pgdir d1start d0start end_ : Z) : ST (machine A) unit :=
  match fuel with
  | O => no_fuel
  | S fuel' =>
      let pdep := slot pgdir (PDX1 d1start) in
      pde1 ← load pdep;
      (if present pde1 then
         p ← pde2page pde1;
         pd0 ← page2kva p;
         '(free_pd0, _) ← exit_inner 512 pd0 d1start d0start end_ true;
         if (free_pd0 : bool) then free_page p ;; store pdep 0 else mret tt
       else mret tt) ;;
      let d1start := u64 (d1start + PDSIZE) in
      if more d1start end_ then exit_outer fuel' pgdir d1start d1start end_ else mret tt
  end.
(** User addresses are below [2 * PDSIZE]. *)
Definition exit_range (pgdir start end_ : Z) : ST (machine A) unit :=
  range_ok start end_ ;; exit_outer 3 pgdir (ROUNDDOWN start PDSIZE) (ROUNDDOWN start PTSIZE) end_.

(** ** The tables of the kernel *)
Fixpoint map_loop (k : nat) (pgdir la pa perm : Z) : ST (machine A) unit :=
  match k with
  | O => mret tt
  | S k' =>
      ptep ← get_pte pgdir la true;
      match ptep with
      | None => panic
      | Some p =>
          store p (pte_create (Z.shiftr pa PGSHIFT) (Z.lor PTE_V perm)) ;;
          map_loop k' pgdir (u64 (la + PGSIZE)) (u64 (pa + PGSIZE)) perm
      end
  end.
Definition boot_map_segment (pgdir la size pa perm : Z) : ST (machine A) unit :=
  assert (PGOFF la =? PGOFF pa) ;;
  map_loop (Z.to_nat (ROUNDUP (u64 (size + PGOFF la)) PGSIZE / PGSIZE)) pgdir
    (ROUNDDOWN la PGSIZE) (ROUNDDOWN pa PGSIZE) perm.

Definition boot_alloc_page : ST (machine A) Z :=
  o ← alloc_page; match o with Some p => page2kva p | None => panic end.

(** What a process uses of this file; [boot_pgdir] is [boot_pgdir_va]. *)
#[export] Program Instance machine_tables (boot_pgdir : Z) : PageTables (machine A) := {|
  Process.copy_boot_pgdir a s := Done (tt, mkMachine (copy (words s) a (words s) boot_pgdir PGSIZE) (phys s));
  Process.copy_range to from start end_ := copy_range to from start end_;
  Process.unmap_range pgdir start end_ := unmap_range pgdir start end_ ;; mret 0;
  Process.exit_range pgdir start end_ := exit_range pgdir start end_ ;; mret 0 |}.
End page_table.
