(* ===== verification/PageTableSpec.v ===== *)
(** * Page tables, specified

    What the allocator promises to the page tables, the tables of an address
    space as a tree of distinct pages, and the map from virtual pages to entries
    that [get_pte] and [page_insert] read and change. *)
From S2P Require Import Prelude Libs CList Mem DefaultPmm Vmm Process PageTable.

(** ** Entries and addresses *)

Lemma PTE_ADDR_eq e : PTE_ADDR e = (e / 1024) mod 2 ^ 52 * 4096.
Proof.
  unfold PTE_ADDR, u64. change (Z.ldiff e 0x3FF) with (Z.ldiff e (Z.ones 10)).
  rewrite Z.ldiff_ones_r, !Z.shiftl_mul_pow2, Z.shiftr_div_pow2 by done.
  change (PTXSHIFT - PTE_PPN_SHIFT) with 2. change (2 ^ 10) with 1024.
  replace (e / 1024 * 1024 * 2 ^ 2) with (4096 * (e / 1024)) by lia.
  change (2 ^ 64) with (4096 * 2 ^ 52). rewrite Z.mul_mod_distr_l by lia. lia.
Qed.

(** The page an entry points to. *)
Definition page_of (e : Z) : Z := (e / 1024) mod 2 ^ 52 - nbase.

Lemma PPN_PTE_ADDR e : PPN (PTE_ADDR e) = page_of e + nbase.
Proof.
  unfold PPN, page_of. rewrite PTE_ADDR_eq, Z.shiftr_div_pow2 by done. change (2 ^ PTXSHIFT) with 4096.
  rewrite Z.div_mul by lia. lia.
Qed.

(** [pte_create] is a sum when the flags fit below the page number. *)
Lemma pte_create_eq n f : 0 <= n < 2 ^ 52 -> 0 <= f < 1024 -> pte_create n f = n * 1024 + Z.lor 1 f.
Proof.
  intros Hn Hf. unfold pte_create. rewrite Z.shiftl_mul_pow2 by done. change (2 ^ PTE_PPN_SHIFT) with 1024.
  rewrite u64_small by lia. rewrite <- Z.lor_assoc. symmetry. apply Z.add_nocarry_lor.
  apply Z.bits_inj'. intros i Hi. rewrite Z.land_spec, Z.bits_0.
  change 1024 with (2 ^ 10). destruct (Z.ltb_spec i 10).
  - by rewrite Z.mul_pow2_bits_low by lia.
  - change PTE_V with 1. rewrite Z.lor_spec.
    assert (Hb : Z.testbit f i = false).
    { destruct (decide (f = 0)) as [->|]; [apply Z.bits_0|]. apply Z.bits_above_log2; [lia|].
      apply Z.log2_lt_pow2; [lia|]. apply (Z.lt_le_trans _ (2 ^ 10)); [lia|]. apply Z.pow_le_mono_r; lia. }
    assert (H1 : Z.testbit 1 i = false) by (apply Z.bits_above_log2; cbn; lia).
    by rewrite Hb, H1, andb_false_r.
Qed.

Lemma lor_1_range f : 0 <= f < 1024 -> 0 <= Z.lor 1 f < 1024.
Proof.
  intros Hf. assert (0 <= Z.lor 1 f) by (apply Z.lor_nonneg; lia). split; [done|].
  assert (Hl : Z.log2 (Z.lor 1 f) < 10).
  { rewrite Z.log2_lor by lia. apply Z.max_lub_lt; [cbn; lia|].
    destruct (decide (f = 0)) as [->|]; [cbn; lia|]. apply (Z.log2_lt_pow2 f 10); lia. }
  destruct (decide (Z.lor 1 f = 0)); [lia|]. apply Z.log2_lt_pow2 in Hl; lia.
Qed.

Lemma present_create n f : 0 <= n < 2 ^ 52 -> 0 <= f < 1024 -> present (pte_create n f) = true.
Proof.
  intros Hn Hf. unfold present. rewrite negb_true_iff, Z.eqb_neq. intros H0.
  apply (f_equal (fun z => Z.testbit z 0)) in H0. revert H0.
  unfold pte_create. rewrite Z.land_spec, !Z.lor_spec, Z.bits_0. change (Z.testbit PTE_V 0) with true.
  by rewrite orb_true_r.
Qed.

Lemma page_of_create n f : 0 <= n < 2 ^ 52 -> 0 <= f < 1024 -> page_of (pte_create n f) = n - nbase.
Proof.
  intros Hn Hf. unfold page_of. rewrite pte_create_eq by done. pose proof (lor_1_range f Hf).
  rewrite Z.div_add_l, (Z.div_small (Z.lor 1 f)), Z.add_0_r, Z.mod_small by lia. done.
Qed.

Lemma create_range n f : 0 <= n < 2 ^ 52 -> 0 <= f < 1024 -> 0 <= pte_create n f < 2 ^ 64.
Proof. intros Hn Hf. rewrite pte_create_eq by done. pose proof (lor_1_range f Hf). lia. Qed.

Definition index (i : Z) : Prop := 0 <= i < 512.
Lemma land_index a : index (Z.land a 0x1FF).
Proof. unfold index. change 0x1FF with (Z.ones 9). rewrite Z.land_ones by lia. apply Z.mod_pos_bound. lia. Qed.
Lemma PDX1_index la : index (PDX1 la). Proof. apply land_index. Qed.
Lemma PDX0_index la : index (PDX0 la). Proof. apply land_index. Qed.
Lemma PTX_index la : index (PTX la). Proof. apply land_index. Qed.
#[local] Hint Resolve PDX1_index PDX0_index PTX_index : core.

(** An Sv39 address is its three indices and its offset. *)
Lemma PGADDR_split la : 0 <= la < 2 ^ 39 -> PGADDR (PDX1 la) (PDX0 la) (PTX la) (PGOFF la) = la.
Proof.
  intros Hla. unfold PGADDR, PDX1, PDX0, PTX, PGOFF, u64. rewrite <- Z.land_ones by lia.
  change 0x1FF with (Z.ones 9). change 0xFFF with (Z.ones 12).
  apply Z.bits_inj'. intros i Hi. rewrite Z.land_spec, !Z.lor_spec, !Z.shiftl_spec by done.
  unfold PDX1SHIFT, PDX0SHIFT, PTXSHIFT. rewrite !Z.land_spec, !Z.testbit_ones by lia.
  assert (Hhi : 39 <= i -> Z.testbit la i = false).
  { intros H39. rewrite <- (Z.mod_small la (2 ^ 39)) by lia. by apply Z.mod_pow2_bits_high. }
  destruct (Z.ltb_spec i 12); [|destruct (Z.ltb_spec i 21); [|destruct (Z.ltb_spec i 30); [|destruct (Z.ltb_spec i 39)]]].
  all: repeat match goal with
    | |- context [?a <=? ?b] => destruct (Z.leb_spec a b); try lia
    | |- context [?a <? ?b] => destruct (Z.ltb_spec a b); try lia
    end; cbn [andb]; rewrite ?andb_true_r, ?andb_false_r, ?orb_false_r, ?orb_false_l.
  all: rewrite ?Z.shiftr_spec by lia; rewrite ?Z.sub_add; try done; try (by apply eq_sym, Hhi).
Qed.

(** ** Pages of memory *)
#[local] Arguments le_get _ _ _ : simpl never.
#[local] Arguments le_put _ _ _ _ : simpl never.

Definition kva (p : Z) : Z := (p + nbase) * PGSIZE + PHYSICAL_MEMORY_OFFSET.
(** Entry [k] of the table in page [p]. *)
Definition entry (m : mem) (p k : Z) : Z := le_get m (slot (kva p) k) 8.

Lemma entry_put m p k q j v : 0 <= v < 2 ^ 64 -> index k -> index j ->
  entry (le_put m (slot (kva p) k) 8 v) q j = if decide (q = p /\ j = k) then v else entry m q j.
Proof.
  unfold entry, index, slot, kva, PGSIZE. intros Hv Hk Hj. case_decide as Hd.
  - destruct Hd as [-> ->]. by apply le_get_put.
  - apply le_get_put_other. change (Z.of_nat 8) with 8. destruct (decide (q = p)) as [->|]; [|lia].
    assert (j <> k) by naive_solver. lia.
Qed.

Lemma entry_fill m p q j : index j ->
  entry (fill m (kva p) PGSIZE 0) q j = if decide (q = p) then 0 else entry m q j.
Proof.
  unfold entry, index, slot. intros Hj. case_decide as Hd.
  - subst. apply le_get_zero. change (Z.of_nat 8) with 8. intros i Hi. apply fill_in. unfold PGSIZE. lia.
  - apply le_get_ext. change (Z.of_nat 8) with 8. intros i Hi. apply fill_out. unfold kva, PGSIZE. lia.
Qed.

(** The tables below the root [R] for the lower half of the addresses, which is the
    process's own: the directory of [i], the table of [i], [j].  The upper half is the
    kernel's and the same in every address space. *)
Definition child (m : mem) (p k : Z) : option Z :=
  let e := entry m p k in if present e then Some (page_of e) else None.
Definition lower (i : Z) : Prop := 0 <= i < 256.
Definition dir (m : mem) (R i : Z) : option Z := if i <? 256 then child m R i else None.
Lemma lower_index i : lower i -> index i. Proof. unfold lower, index. lia. Qed.
Lemma dir_lower m R i : lower i -> dir m R i = child m R i.
Proof. unfold lower, dir. intros Hi. by rewrite (proj2 (Z.ltb_lt _ _)) by lia. Qed.
Lemma dir_Some m R i D : dir m R i = Some D -> i < 256 /\ child m R i = Some D.
Proof. unfold dir. destruct (Z.ltb_spec i 256); [done|]. done. Qed.
Lemma dir_ext m m' R R' i : child m R i = child m' R' i -> dir m R i = dir m' R' i.
Proof. unfold dir. by intros ->. Qed.
Lemma PDX1_lower la : 0 <= la < 2 ^ 38 -> lower (PDX1 la).
Proof.
  intros Hla. unfold lower, PDX1, PDX1SHIFT. change 0x1FF with (Z.ones 9). rewrite Z.land_ones, Z.shiftr_div_pow2 by lia.
  change (2 ^ 38) with 274877906944 in Hla. change (2 ^ 30) with 1073741824. change (2 ^ 9) with 512. Z.to_euclidean_division_equations. lia.
Qed.
#[local] Hint Resolve lower_index : core.
Definition table_of (m : mem) (R i j : Z) : option Z :=
  match dir m R i with Some D => child m D j | None => None end.
(** The entry of a virtual page, 0 when there is no table for it. *)
Definition mapping (m : mem) (R la : Z) : Z :=
  match table_of m R (PDX1 la) (PDX0 la) with Some T => entry m T (PTX la) | None => 0 end.

(** ** What the allocator promises *)
Class PmmLaws (A : Type) `{PmmManager A} := {
  pm_ok : A -> Prop;
  pm_avail : A -> Z -> Prop;
  pm_may_free : A -> Z -> Prop;
  pm_alloc_law a : pm_ok a ->
    pm_alloc_pages 1 a = Done (None, a) \/
    exists p a', pm_alloc_pages 1 a = Done (Some p, a') /\ pm_ok a' /\ pm_avail a p /\
      (forall q, pm_avail a' q <-> pm_avail a q /\ q <> p) /\ (forall q, ~ pm_avail a q -> pm_ref a' q = pm_ref a q);
  pm_set_ref_law a p v : pm_ok a -> ~ pm_avail a p ->
    pm_ok (pm_set_ref p v a) /\ (forall q, pm_avail (pm_set_ref p v a) q <-> pm_avail a q) /\
    (forall q, pm_may_free a q -> pm_may_free (pm_set_ref p v a) q);
  pm_ref_law a p v q : pm_ref (pm_set_ref p v a) q = if decide (q = p) then v else pm_ref a q;
  pm_free_law a p : pm_ok a -> ~ pm_avail a p -> pm_may_free a p ->
    exists a', pm_free_pages p 1 a = Done (tt, a') /\ pm_ok a' /\
      (forall q, pm_avail a' q <-> pm_avail a q \/ q = p) /\
      (forall q, ~ pm_avail a' q -> pm_ref a' q = pm_ref a q) }.

Section page_table_spec.
  Context {A : Type} `{PmmManager A} `{!PmmLaws A} (npage : Z).
  (** The memory is mapped without wrap-around. *)
  Hypothesis Hram : nbase < npage /\ npage * PGSIZE + PHYSICAL_MEMORY_OFFSET <= 2 ^ 64.
  Implicit Types s : machine A.

Definition in_ram (p : Z) : Prop := 0 <= p < npage - nbase.
(** A page that is neither free nor the root may be a directory or a table. *)
Definition in_use (a : A) (p : Z) : Prop := in_ram p /\ ~ pm_avail a p.

Record tree_ok (m : mem) (a : A) (R : Z) : Prop := mkTree {
  tr_root : in_use a R;
  tr_dir i D : index i -> dir m R i = Some D -> in_use a D /\ D <> R;
  tr_tab i j T : index i -> index j -> table_of m R i j = Some T ->
    in_use a T /\ T <> R /\ forall i', index i' -> dir m R i' <> Some T;
  tr_inj1 i i' D : index i -> index i' -> dir m R i = Some D -> dir m R i' = Some D -> i = i';
  tr_inj2 i j i' j' T : index i -> index j -> index i' -> index j' ->
    table_of m R i j = Some T -> table_of m R i' j' = Some T -> i = i' /\ j = j' }.

(** A state: the allocator is well formed and gives pages of the memory. *)
Record machine_ok s (R : Z) : Prop := mkMachineOk {
  mo_pmm : pm_ok (phys s);
  mo_ram p : pm_avail (phys s) p -> in_ram p;
  mo_tree : tree_ok (words s) (phys s) R }.

(** The half of the kernel. *)
Definition same_kernel s s' (R : Z) : Prop := forall i, 256 <= i < 512 -> entry (words s') R i = entry (words s) R i.

(** The map is what it was, and pages in use are as they were. *)
Record grown s s' (R : Z) : Prop := mkGrown {
  gr_kernel : same_kernel s s' R;
  gr_map la : mapping (words s') R la = mapping (words s) R la;
  gr_avail p : pm_avail (phys s') p -> pm_avail (phys s) p;
  gr_ref p : ~ pm_avail (phys s) p -> pm_ref (phys s') p = pm_ref (phys s) p }.

Lemma KADDR_run pa s : PPN pa < npage -> 0 <= pa -> KADDR npage pa s = Done (pa + PHYSICAL_MEMORY_OFFSET, s).
Proof.
  intros Hp H0. unfold KADDR. mstep (assert_true (PPN pa <? npage) s ltac:(by apply Z.ltb_lt)).
  rewrite u64_small; [done|]. unfold PPN in Hp. rewrite Z.shiftr_div_pow2 in Hp by done.
  change (2 ^ PTXSHIFT) with 4096 in Hp. unfold PGSIZE, PHYSICAL_MEMORY_OFFSET in *.
  pose proof (Z.div_mod pa 4096 ltac:(done)). pose proof (Z.mod_pos_bound pa 4096 eq_refl). lia.
Qed.

Lemma page2pa_eq p : in_ram p -> page2pa p = (p + nbase) * PGSIZE.
Proof.
  unfold in_ram, page2pa, page2ppn, PGSIZE, PHYSICAL_MEMORY_OFFSET in *. intros Hp.
  rewrite Z.shiftl_mul_pow2 by done. change (2 ^ PGSHIFT) with 4096. apply u64_small.
  change nbase with 524288 in *. lia.
Qed.

Lemma page2kva_run p s : in_ram p -> page2kva npage p s = Done (kva p, s).
Proof.
  intros Hp. unfold page2kva. rewrite page2pa_eq by done. unfold in_ram in Hp. change nbase with 524288 in *.
  apply KADDR_run; unfold PPN, PGSIZE; [|lia]. rewrite Z.shiftr_div_pow2 by done.
  change (2 ^ PTXSHIFT) with 4096. rewrite Z.div_mul; lia.
Qed.

Lemma pte2page_run e s : present e = true -> in_ram (page_of e) -> pte2page npage e s = Done (page_of e, s).
Proof.
  intros He Hp. unfold pte2page. rewrite He. mstep (assert_true true s eq_refl). unfold pa2page.
  rewrite PPN_PTE_ADDR. unfold in_ram in Hp.
  mstep (assert_true (page_of e + nbase <? npage) s ltac:(apply Z.ltb_lt; lia)).
  by replace (page_of e + nbase - nbase) with (page_of e) by lia.
Qed.

Lemma next_table_run s p k D : child (words s) p k = Some D -> in_ram D ->
  next_table npage (slot (kva p) k) s = Done (kva D, s).
Proof.
  unfold child. intros Hc HD. destruct (present (entry (words s) p k)) eqn:He; [|done]. injection Hc as <-.
  unfold next_table. mstep (eq_refl : load (slot (kva p) k) s = Done (entry (words s) p k, s)).
  assert (HP : PTE_ADDR (entry (words s) p k) = (page_of (entry (words s) p k) + nbase) * PGSIZE).
  { rewrite PTE_ADDR_eq. unfold page_of. unfold PGSIZE. lia. }
  rewrite KADDR_run; [by rewrite HP| |].
  - rewrite PPN_PTE_ADDR. unfold in_ram in HD. lia.
  - rewrite HP. unfold in_ram, PGSIZE in *. change nbase with 524288 in *. lia.
Qed.

(** ** A new directory or table *)

(** What [ensure_entry] leaves in memory: the zeroed page [P], entered at [p], [k]. *)
Definition attached (m : mem) (p k P : Z) : mem :=
  le_put (fill m (kva P) PGSIZE 0) (slot (kva p) k) 8 (pte_create (page2ppn P) (Z.lor PTE_U PTE_V)).

Lemma ppn_range P : in_ram P -> 0 <= page2ppn P < 2 ^ 52.
Proof. unfold in_ram, page2ppn, PGSIZE, PHYSICAL_MEMORY_OFFSET in *. change nbase with 524288 in *. lia. Qed.

Lemma entry_attached m p k P q j : in_ram P -> index k -> index j ->
  entry (attached m p k P) q j =
  if decide (q = p /\ j = k) then pte_create (page2ppn P) (Z.lor PTE_U PTE_V)
  else if decide (q = P) then 0 else entry m q j.
Proof.
  intros HP Hk Hj. unfold attached. rewrite entry_put, entry_fill; [done|done| |done|done].
  apply create_range; [by apply ppn_range|done].
Qed.

Lemma child_attached m p k P q j : in_ram P -> index k -> index j ->
  child (attached m p k P) q j =
  if decide (q = p /\ j = k) then Some P else if decide (q = P) then None else child m q j.
Proof.
  intros HP Hk Hj. unfold child. rewrite entry_attached by done. repeat case_decide; try done.
  rewrite present_create, page_of_create by (done || by apply ppn_range). unfold page2ppn. f_equal. lia.
Qed.

(** The pages the allocator has after giving [P]. *)
Definition took (a a' : A) (P : Z) : Prop := forall q, pm_avail a' q <-> pm_avail a q /\ q <> P.

Lemma in_use_took a a' P p : took a a' P -> in_use a p -> in_use a' p.
Proof. intros Ht [Hr Ha]. split; [done|]. intros Hq%Ht. tauto. Qed.

Lemma in_use_new a a' P : took a a' P -> in_ram P -> in_use a' P.
Proof. intros Ht HP. split; [done|]. intros Hq%Ht. tauto. Qed.

Lemma fresh_ne a P p : pm_avail a P -> in_use a p -> p <> P.
Proof. by intros Ha [_ Hp] ->. Qed.

Lemma attach_root m a a' R k P : tree_ok m a R -> lower k -> child m R k = None ->
  in_ram P -> pm_avail a P -> took a a' P ->
  tree_ok (attached m R k P) a' R /\ (forall la, mapping (attached m R k P) R la = mapping m R la).
Proof.
  intros [Hroot Hdir Htab Hi1 Hi2] Hk Hc HP Ha Ht.
  assert (HR : R <> P) by (by apply (fresh_ne a)).
  assert (Hch : forall i, index i -> dir (attached m R k P) R i = if decide (i = k) then Some P else dir m R i).
  { intros i Hi. unfold dir. destruct (Z.ltb_spec i 256); [|rewrite decide_False; [done|unfold lower in Hk; lia]].
    rewrite child_attached by auto. rewrite (decide_False (P := R = P)) by done. repeat case_decide; tauto || done. }
  assert (Hta : forall i j, index i -> index j -> table_of (attached m R k P) R i j = table_of m R i j).
  { intros i j Hi Hj. unfold table_of. rewrite Hch by done. case_decide as Hik.
    - subst. rewrite dir_lower, Hc, child_attached by auto. rewrite decide_False, decide_True by naive_solver. done.
    - destruct (dir m R i) as [D|] eqn:HD; [|done]. destruct (Hdir i D Hi HD) as [Hu Hne].
      rewrite child_attached, decide_False, decide_False; auto; [by apply (fresh_ne a)|tauto]. }
  split; [split|].
  - by eapply in_use_took.
  - intros i D Hi. rewrite Hch by done. case_decide; [|intros HD; split; [|by apply (Hdir i)]; eapply in_use_took; [done|by eapply Hdir]].
    intros [= <-]. split; [by eapply in_use_new|done].
  - intros i j T Hi Hj. rewrite Hta by done. intros HT. destruct (Htab i j T Hi Hj HT) as (Hu & Hne & Hd).
    split; [by eapply in_use_took|]. split; [done|]. intros i' Hi'. rewrite Hch by done. case_decide; [|by apply Hd].
    intros [= ->]. by apply (fresh_ne a T T).
  - intros i i' D Hi Hi'. rewrite !Hch by done. repeat case_decide; try congruence; [| |by apply Hi1].
    + intros [= <-] HD. destruct (Hdir i' P Hi' HD) as [[_ Hu] _]. done.
    + intros HD [= <-]. destruct (Hdir i P Hi HD) as [[_ Hu] _]. done.
  - intros i j i' j' T Hi Hj Hi' Hj'. rewrite !Hta by done. by apply Hi2.
  - intros la. unfold mapping. rewrite Hta by auto.
    destruct (table_of m R (PDX1 la) (PDX0 la)) as [T|] eqn:HT; [|done].
    destruct (Htab _ _ T ltac:(auto) ltac:(auto) HT) as (Hu & Hne & _).
    rewrite entry_attached, decide_False, decide_False; auto; [|tauto]. by apply (fresh_ne a).
Qed.

Lemma attach_dir m a a' R i0 D0 k P : tree_ok m a R -> index i0 -> index k -> dir m R i0 = Some D0 ->
  child m D0 k = None -> in_ram P -> pm_avail a P -> took a a' P ->
  tree_ok (attached m D0 k P) a' R /\ (forall la, mapping (attached m D0 k P) R la = mapping m R la) /\
  dir (attached m D0 k P) R i0 = Some D0 /\ child (attached m D0 k P) D0 k = Some P.
Proof.
  intros [Hroot Hdir Htab Hi1 Hi2] Hi0 Hk Hc0 Hc HP Ha Ht.
  destruct (Hdir i0 D0 Hi0 Hc0) as [HuD HDR].
  assert (HR : R <> P) by (by apply (fresh_ne a)). assert (HD0 : D0 <> P) by (by apply (fresh_ne a)).
  assert (Hch : forall i, index i -> dir (attached m D0 k P) R i = dir m R i).
  { intros i Hi. apply dir_ext. rewrite child_attached, decide_False, decide_False; auto. naive_solver. }
  assert (Hta : forall i j, index i -> index j ->
            table_of (attached m D0 k P) R i j = if decide (i = i0 /\ j = k) then Some P else table_of m R i j).
  { intros i j Hi Hj. unfold table_of. rewrite Hch by done. destruct (dir m R i) as [D|] eqn:HD.
    - rewrite child_attached by done. destruct (Hdir i D Hi HD) as [Hu _].
      rewrite (decide_False (P := D = P)) by (by apply (fresh_ne a)).
      destruct (decide (D = D0)) as [->|Hne].
      + assert (i = i0) as -> by (by apply (Hi1 _ _ D0)). repeat case_decide; tauto || done.
      + rewrite decide_False by tauto. rewrite decide_False; [done|]. intros [-> _]. congruence.
    - rewrite decide_False; [done|]. intros [-> _]. congruence. }
  assert (Hold : table_of m R i0 k = None) by (unfold table_of; by rewrite Hc0).
  split; [split|split; [|split]].
  - by eapply in_use_took.
  - intros i D Hi. rewrite Hch by done. intros HD. split; [|by apply (Hdir i)]. eapply in_use_took; [done|by eapply Hdir].
  - intros i j T Hi Hj. rewrite Hta by done. case_decide.
    + intros [= <-]. split; [by eapply in_use_new|]. split; [done|]. intros i' Hi'. rewrite Hch by done.
      intros HD. destruct (Hdir i' P Hi' HD) as [[_ Hu] _]. done.
    + intros HT. destruct (Htab i j T Hi Hj HT) as (Hu & Hne & Hd). split; [by eapply in_use_took|]. split; [done|].
      intros i' Hi'. rewrite Hch by done. by apply Hd.
  - intros i i' D Hi Hi'. rewrite !Hch by done. by apply Hi1.
  - intros i j i' j' T Hi Hj Hi' Hj'. rewrite !Hta by done.
    destruct (decide (i = i0 /\ j = k)) as [[-> ->]|], (decide (i' = i0 /\ j' = k)) as [[-> ->]|];
      [done| | |by apply Hi2].
    + intros [= <-] HT. destruct (Htab _ _ P Hi' Hj' HT) as [[_ Hu] _]. done.
    + intros HT [= <-]. destruct (Htab _ _ P Hi Hj HT) as [[_ Hu] _]. done.
  - intros la. unfold mapping. rewrite Hta by auto. case_decide as Hla.
    + destruct Hla as [-> ->]. rewrite Hold, entry_attached by auto. by rewrite decide_False, decide_True by naive_solver.
    + destruct (table_of m R (PDX1 la) (PDX0 la)) as [T|] eqn:HT; [|done].
      destruct (Htab _ _ T ltac:(auto) ltac:(auto) HT) as (Hu & _ & Hd).
      rewrite entry_attached, decide_False, decide_False; auto; [by apply (fresh_ne a)|].
      intros [-> _]. by apply (Hd i0 Hi0).
  - by rewrite Hch.
  - rewrite child_attached by done. by rewrite decide_True.
Qed.

(** ** [get_pte] *)

Lemma present_child m p k : present (entry m p k) = bool_decide (child m p k <> None).
Proof. unfold child. by destruct (present (entry m p k)). Qed.

Lemma ensure_present create s p k : child (words s) p k <> None ->
  ensure_entry npage create (slot (kva p) k) s = Done (true, s).
Proof.
  intros Hc. unfold ensure_entry. mstep (eq_refl : load (slot (kva p) k) s = Done (entry (words s) p k, s)).
  by rewrite present_child, bool_decide_eq_true_2.
Qed.

Lemma ensure_absent s p k : child (words s) p k = None -> ensure_entry npage false (slot (kva p) k) s = Done (false, s).
Proof.
  intros Hc. unfold ensure_entry. mstep (eq_refl : load (slot (kva p) k) s = Done (entry (words s) p k, s)).
  by rewrite present_child, Hc.
Qed.

Lemma alloc_page_run s : pm_ok (phys s) ->
  alloc_page s = Done (None, s) \/
  exists P a', alloc_page s = Done (Some P, mkMachine (words s) a') /\ pm_ok a' /\ pm_avail (phys s) P /\
    took (phys s) a' P /\ (forall q, ~ pm_avail (phys s) q -> pm_ref a' q = pm_ref (phys s) q).
Proof.
  intros Hok. destruct (pm_alloc_law (phys s) Hok) as [Hn|(P & a' & Hr & Hok' & Ha & Ht & Href)].
  - left. unfold alloc_page, alloc_pages. rewrite Hn. by destruct s.
  - right. exists P, a'. unfold alloc_page, alloc_pages. by rewrite Hr.
Qed.

Lemma ensure_create s p k : pm_ok (phys s) -> (forall q, pm_avail (phys s) q -> in_ram q) ->
  child (words s) p k = None ->
  ensure_entry npage true (slot (kva p) k) s = Done (false, s) \/
  exists P s', ensure_entry npage true (slot (kva p) k) s = Done (true, s') /\ pm_ok (phys s') /\
    pm_avail (phys s) P /\ took (phys s) (phys s') P /\ words s' = attached (words s) p k P /\
    (forall q, ~ pm_avail (phys s) q -> pm_ref (phys s') q = pm_ref (phys s) q).
Proof.
  intros Hok Hram' Hc. unfold ensure_entry. mstep (eq_refl : load (slot (kva p) k) s = Done (entry (words s) p k, s)).
  rewrite present_child, Hc, bool_decide_eq_false_2 by tauto. cbn [negb].
  destruct (alloc_page_run s Hok) as [Hr|(P & a' & Hr & Hok' & Ha & Ht & Href)]; [left; by mstep Hr|right].
  assert (HnP : ~ pm_avail a' P) by (intros Hq%Ht; tauto).
  destruct (pm_set_ref_law a' P 1 Hok' HnP) as (Hok2 & Hav2 & _).
  exists P, (mkMachine (attached (words s) p k P) (pm_set_ref P 1 a')). split; [|split; [|split; [|split; [|split]]]].
  - mstep Hr. mstep (eq_refl : set_page_ref P 1 (mkMachine (words s) a') = Done (tt, mkMachine (words s) (pm_set_ref P 1 a'))).
    by mstep (page2kva_run P (mkMachine (words s) (pm_set_ref P 1 a')) (Hram' P Ha)).
  - done.
  - done.
  - intros q. cbn. rewrite Hav2. apply Ht.
  - done.
  - intros q Hq. cbn. rewrite pm_ref_law, decide_False by (by intros ->). by apply Href.
Qed.

(** Without [create] the walk is the lookup. *)
Lemma get_pte_lookup s R la : lower (PDX1 la) -> machine_ok s R ->
  get_pte npage (kva R) la false s =
  Done ((fun T => slot (kva T) (PTX la)) <$> table_of (words s) R (PDX1 la) (PDX0 la), s).
Proof.
  intros Hla [Hok Hr [Hroot Hdir Htab _ _]]. unfold get_pte, table_of. rewrite dir_lower by done.
  destruct (child (words s) R (PDX1 la)) as [D|] eqn:HD.
  - mstep (ensure_present false s R (PDX1 la) ltac:(congruence)).
    assert (HD' : dir (words s) R (PDX1 la) = Some D) by (by rewrite dir_lower).
    destruct (Hdir _ D ltac:(auto) HD') as [[HDr _] _]. cbn [negb]. mstep (next_table_run s R _ D HD HDr).
    destruct (child (words s) D (PDX0 la)) as [T|] eqn:HT.
    + mstep (ensure_present false s D (PDX0 la) ltac:(congruence)).
      destruct (Htab (PDX1 la) (PDX0 la) T ltac:(auto) ltac:(auto)) as [[HTr _] _]; [unfold table_of; by rewrite HD'|].
      cbn [negb]. by mstep (next_table_run s D _ T HT HTr).
    + by mstep (ensure_absent s D (PDX0 la) HT).
  - by mstep (ensure_absent s R (PDX1 la) HD).
Qed.

Lemma grown_refl s R : grown s s R.
Proof. by split. Qed.

Lemma grown_trans s1 s2 s3 R : grown s1 s2 R -> grown s2 s3 R -> grown s1 s3 R.
Proof.
  intros [K1 M1 A1 F1] [K2 M2 A2 F2]. split; [intros i Hi; by rewrite K2, K1|intros; by rewrite M2|auto|].
  intros p Hp. rewrite F2; [by apply F1|]. auto.
Qed.

(** One directory is there, or could not be allocated. *)
Lemma ensure_root s R k : machine_ok s R -> lower k ->
  exists ok s', ensure_entry npage true (slot (kva R) k) s = Done (ok, s') /\ machine_ok s' R /\ grown s s' R /\
    (ok = true -> exists D, dir (words s') R k = Some D) /\
    (forall D, dir (words s) R k = Some D -> ok = true /\ s' = s).
Proof.
  intros Hm Hk. setoid_rewrite dir_lower; [|done|done]. destruct (child (words s) R k) as [D|] eqn:HD.
  - exists true, s. split; [apply ensure_present; congruence|]. split; [done|]. split; [apply grown_refl|].
    split; [intros _; by exists D|by intros].
  - destruct Hm as [Hok Hr Htr]. destruct (ensure_create s R k Hok Hr HD) as [Hf|(P & s' & Hrun & Hok' & Ha & Ht & Hw & Href)].
    { exists false, s. split; [done|]. split; [done|]. split; [apply grown_refl|done]. }
    destruct (attach_root (words s) (phys s) (phys s') R k P Htr Hk HD (Hr P Ha) Ha Ht) as [Htr' Hmap].
    exists true, s'. split; [done|]. rewrite <- Hw in Htr', Hmap. split; [split; [done| |done]|].
    + intros q [Hq _]%Ht. by apply Hr.
    + split; [split; [|done| |done]|].
      * intros i Hi. rewrite Hw, entry_attached by (auto; unfold index; lia).
        rewrite decide_False by (unfold lower in Hk; lia). rewrite decide_False; [done|]. intros ->. by apply (tr_root _ _ _ Htr).
      * intros q Hq%Ht. tauto.
      * split; [|done]. intros _. exists P. rewrite Hw, child_attached by auto. by rewrite decide_True.
Qed.

Lemma ensure_dir s R i D k : machine_ok s R -> index i -> index k -> dir (words s) R i = Some D ->
  exists ok s', ensure_entry npage true (slot (kva D) k) s = Done (ok, s') /\ machine_ok s' R /\ grown s s' R /\
    (ok = true -> dir (words s') R i = Some D /\ exists T, child (words s') D k = Some T) /\
    (forall T, child (words s) D k = Some T -> ok = true /\ s' = s).
Proof.
  intros Hm Hi Hk HD. destruct (child (words s) D k) as [T|] eqn:HT.
  - exists true, s. split; [apply ensure_present; congruence|]. split; [done|]. split; [apply grown_refl|].
    split; [|by intros]. intros _. split; [done|by exists T].
  - destruct Hm as [Hok Hr Htr]. destruct (ensure_create s D k Hok Hr HT) as [Hf|(P & s' & Hrun & Hok' & Ha & Ht & Hw & Href)].
    { exists false, s. split; [done|]. split; [done|]. split; [apply grown_refl|done]. }
    destruct (attach_dir (words s) (phys s) (phys s') R i D k P Htr Hi Hk HD HT (Hr P Ha) Ha Ht) as (Htr' & Hmap & H1 & H2).
    rewrite <- Hw in Htr', Hmap, H1, H2.
    exists true, s'. split; [done|]. split; [split; [done| |done]|].
    + intros q [Hq _]%Ht. by apply Hr.
    + split; [split; [|done| |done]|].
      * intros j Hj. rewrite Hw, entry_attached by (auto; unfold index; lia).
        rewrite decide_False by (intros [-> _]; by destruct (tr_dir _ _ _ Htr i D Hi HD)). rewrite decide_False; [done|]. intros ->. by apply (tr_root _ _ _ Htr).
      * intros q Hq%Ht. tauto.
      * split; [|done]. intros _. split; [done|by exists P].
Qed.

(** With [create] it gives the entry, or fails; the map is what it was. *)
Lemma get_pte_create s R la : lower (PDX1 la) -> machine_ok s R ->
  exists o s', get_pte npage (kva R) la true s = Done (o, s') /\ machine_ok s' R /\ grown s s' R /\
    match o with
    | None => True
    | Some p => exists T, table_of (words s') R (PDX1 la) (PDX0 la) = Some T /\ p = slot (kva T) (PTX la)
    end /\
    (forall T, table_of (words s) R (PDX1 la) (PDX0 la) = Some T -> o = Some (slot (kva T) (PTX la)) /\ s' = s).
Proof.
  intros Hla Hm. unfold get_pte.
  destruct (ensure_root s R (PDX1 la) Hm ltac:(auto)) as (ok1 & s1 & Hr1 & Hm1 & Hg1 & Hd1 & Hs1).
  mstep Hr1. destruct ok1; cbn [negb].
  2:{ exists None, s1. split; [done|]. split; [done|]. split; [done|]. split; [done|].
      intros T HT. unfold table_of in HT. destruct (dir (words s) R (PDX1 la)) as [D|] eqn:HD; [|done].
      by destruct (Hs1 D eq_refl). }
  destruct (Hd1 eq_refl) as [D HD]. destruct (tr_dir _ _ _ (mo_tree _ _ Hm1) _ D ltac:(auto) HD) as [[HDr _] _].
  mstep (next_table_run s1 R _ D (proj2 (dir_Some _ _ _ _ HD)) HDr).
  destruct (ensure_dir s1 R (PDX1 la) D (PDX0 la) Hm1 ltac:(auto) ltac:(auto) HD)
    as (ok2 & s2 & Hr2 & Hm2 & Hg2 & Hd2 & Hs2).
  mstep Hr2. destruct ok2; cbn [negb].
  - destruct (Hd2 eq_refl) as (HD2 & T & HT).
    assert (HTab : table_of (words s2) R (PDX1 la) (PDX0 la) = Some T) by (unfold table_of; by rewrite HD2).
    destruct (tr_tab _ _ _ (mo_tree _ _ Hm2) _ _ T ltac:(auto) ltac:(auto) HTab) as [[HTr _] _].
    mstep (next_table_run s2 D _ T HT HTr). exists (Some (slot (kva T) (PTX la))), s2. split; [done|]. split; [done|].
    split; [by eapply grown_trans|]. split; [by exists T|]. intros T' HT'. unfold table_of in HT'.
    destruct (dir (words s) R (PDX1 la)) as [D'|] eqn:HD'; [|done]. destruct (Hs1 D' eq_refl) as [_ ->].
    assert (D' = D) as -> by congruence. destruct (Hs2 T' HT') as [_ ->]. split; [|done]. congruence.
  - exists None, s2. split; [done|]. split; [done|]. split; [by eapply grown_trans|]. split; [done|].
    intros T' HT'. unfold table_of in HT'.
    destruct (dir (words s) R (PDX1 la)) as [D'|] eqn:HD'; [|done]. destruct (Hs1 D' eq_refl) as [_ ->].
    assert (D' = D) as -> by congruence. by destruct (Hs2 T' HT').
Qed.

(** ** Changing one entry *)

(** [la'] is in the page of [la]. *)
Definition same_page (la la' : Z) : Prop := PDX1 la' = PDX1 la /\ PDX0 la' = PDX0 la /\ PTX la' = PTX la.
#[global] Instance same_page_dec la la' : Decision (same_page la la').
Proof. unfold same_page. apply _. Defined.

Definition put_entry (m : mem) (T k v : Z) : mem := le_put m (slot (kva T) k) 8 v.

(** Directories and tables stay: [T] is a table, not one of them. *)
Lemma put_entry_dirs m a R i0 j0 T k v : tree_ok m a R -> index i0 -> index j0 -> table_of m R i0 j0 = Some T ->
  index k -> 0 <= v < 2 ^ 64 ->
  (forall i, index i -> dir (put_entry m T k v) R i = dir m R i) /\
  (forall i j, index i -> index j -> table_of (put_entry m T k v) R i j = table_of m R i j).
Proof.
  intros Htr Hi0 Hj0 HT Hk Hv. destruct (tr_tab _ _ _ Htr i0 j0 T Hi0 Hj0 HT) as (_ & HTR & HTd).
  assert (Hch : forall p i, index i -> p <> T -> child (put_entry m T k v) p i = child m p i).
  { intros p i Hi Hp. unfold child, put_entry. rewrite entry_put, decide_False; auto. tauto. }
  assert (Hdi : forall i, index i -> dir (put_entry m T k v) R i = dir m R i) by (intros; apply dir_ext, Hch; auto).
  split; [done|]. intros i j Hi Hj. unfold table_of. rewrite Hdi by done. destruct (dir m R i) as [D|] eqn:HD; [|done].
  apply Hch; [done|]. intros ->. by apply (HTd i).
Qed.

Lemma put_entry_tree m a R la T v : tree_ok m a R -> table_of m R (PDX1 la) (PDX0 la) = Some T -> 0 <= v < 2 ^ 64 ->
  tree_ok (put_entry m T (PTX la) v) a R /\
  forall la', mapping (put_entry m T (PTX la) v) R la' = if decide (same_page la la') then v else mapping m R la'.
Proof.
  intros Htr HT Hv. destruct (put_entry_dirs m a R _ _ T (PTX la) v Htr (PDX1_index la) (PDX0_index la) HT (PTX_index la) Hv) as [Hdi Hta].
  destruct Htr as [Hroot Hdir Htab Hi1 Hi2].
  split; [split|].
  - done.
  - intros i D Hi. rewrite Hdi by done. by apply Hdir.
  - intros i j T' Hi Hj. rewrite Hta by done. intros HT'. destruct (Htab i j T' Hi Hj HT') as (? & ? & Hd).
    split; [done|]. split; [done|]. intros i' Hi'. rewrite Hdi by done. by apply Hd.
  - intros i i' D Hi Hi'. rewrite !Hdi by done. by apply Hi1.
  - intros i j i' j' T' ????. rewrite !Hta by done. by apply Hi2.
  - intros la'. unfold mapping. rewrite Hta by auto.
    destruct (table_of m R (PDX1 la') (PDX0 la')) as [T'|] eqn:HT'.
    + unfold put_entry. rewrite entry_put by auto. destruct (decide (T' = T)) as [->|Hne].
      * destruct (Hi2 (PDX1 la') (PDX0 la') (PDX1 la) (PDX0 la) T ltac:(auto) ltac:(auto) ltac:(auto) ltac:(auto) HT' HT)
          as [H1 H2].
        destruct (decide (T = T /\ PTX la' = PTX la)), (decide (same_page la la')); unfold same_page in *; tauto || done.
      * rewrite decide_False by tauto. rewrite decide_False; [done|]. intros (H1 & H2 & _). congruence.
    + rewrite decide_False; [done|]. intros (H1 & H2 & _). congruence.
Qed.

(** ** Reference counts *)

(** [q] is no page of the tables. *)
Definition data_page (m : mem) (R q : Z) : Prop :=
  q <> R /\ (forall i, index i -> dir m R i <> Some q) /\
  forall i j, index i -> index j -> table_of m R i j <> Some q.

Lemma tree_more m a a' R q : tree_ok m a R -> data_page m R q ->
  (forall p, pm_avail a' p -> pm_avail a p \/ p = q) -> tree_ok m a' R.
Proof.
  intros [[HrR HaR] Hdir Htab Hi1 Hi2] (HqR & Hqd & Hqt) Hav. split; [| | |done|done].
  - split; [done|]. intros Ha. destruct (Hav _ Ha); congruence.
  - intros i D Hi HD. destruct (Hdir i D Hi HD) as [[Hr Ha] Hne]. split; [|done]. split; [done|].
    intros Ha'. destruct (Hav _ Ha') as [| ->]; [done|]. by apply (Hqd i).
  - intros i j T Hi Hj HT. destruct (Htab i j T Hi Hj HT) as ([Hr Ha] & Hne & Hd). split; [|done]. split; [done|].
    intros Ha'. destruct (Hav _ Ha') as [| ->]; [done|]. by apply (Hqt i j).
Qed.

Lemma tree_same m a a' R : tree_ok m a R -> (forall p, pm_avail a' p <-> pm_avail a p) -> tree_ok m a' R.
Proof.
  intros [[HrR HaR] Hdir Htab Hi1 Hi2] Hav.
  assert (Hu : forall p, in_use a p -> in_use a' p) by (intros p [? Hp]; split; [done|by rewrite Hav]).
  split; [by apply Hu| | |done|done].
  - intros i D Hi HD. destruct (Hdir i D Hi HD). split; auto.
  - intros i j T Hi Hj HT. destruct (Htab i j T Hi Hj HT). split; auto.
Qed.

(** A page that the count of another address space may still hold. *)
Definition droppable s (R q : Z) : Prop :=
  in_use (phys s) q /\ 0 < pm_ref (phys s) q < 2 ^ 31 /\
  (pm_ref (phys s) q = 1 -> pm_may_free (phys s) q /\ data_page (words s) R q).

(** What [page_ref_dec] and the [free_page] after it do to the allocator. *)
Record dropped (a a' : A) (q : Z) : Prop := mkDropped {
  dr_ok : pm_ok a';
  dr_avail p : pm_avail a' p <-> pm_avail a p \/ (p = q /\ pm_ref a q = 1);
  dr_ref p : ~ pm_avail a' p -> pm_ref a' p = if decide (p = q) then pm_ref a q - 1 else pm_ref a p }.

Lemma remove_pte_run s R pgdir la T k : pm_ok (phys s) ->
  present (entry (words s) T k) = true -> droppable s R (page_of (entry (words s) T k)) ->
  exists a', page_remove_pte npage pgdir la (slot (kva T) k) s = Done (tt, mkMachine (put_entry (words s) T k 0) a') /\
    dropped (phys s) a' (page_of (entry (words s) T k)).
Proof.
  intros Hok He. set (q := page_of (entry (words s) T k)). intros ([Hqr Hqa] & Href & Hfree). unfold page_remove_pte.
  mstep (eq_refl : load (slot (kva T) k) s = Done (entry (words s) T k, s)). rewrite He.
  mstep (pte2page_run (entry (words s) T k) s He Hqr). fold q.
  set (a1 := pm_set_ref q (pm_ref (phys s) q - 1) (phys s)).
  assert (H1 : page_ref_dec q s = Done (pm_ref a1 q, mkMachine (words s) a1)).
  { unfold page_ref_dec. mstep (eq_refl : get (page_ref q) s = Done (pm_ref (phys s) q, s)).
    by rewrite s32_small by lia. }
  mstep H1. mstep (eq_refl : get (page_ref q) (mkMachine (words s) a1) = Done (pm_ref a1 q, mkMachine (words s) a1)).
  destruct (pm_set_ref_law (phys s) q (pm_ref (phys s) q - 1) Hok Hqa) as (Hok1 & Hav1 & Hmf1). fold a1 in Hok1, Hav1, Hmf1.
  assert (Hr1 : forall p, pm_ref a1 p = if decide (p = q) then pm_ref (phys s) q - 1 else pm_ref (phys s) p)
    by (intros p; apply pm_ref_law).
  rewrite Hr1, decide_True by done. destruct (Z.eqb_spec (pm_ref (phys s) q - 1) 0) as [H0|H0].
  - destruct (Hfree ltac:(lia)) as [Hmay _].
    destruct (pm_free_law a1 q Hok1 ltac:(by rewrite Hav1) (Hmf1 q Hmay)) as (a2 & Hr2 & Hok2 & Hav2 & Hrf2).
    exists a2. split.
    + assert (Hfr : free_page q (mkMachine (words s) a1) = Done (tt, mkMachine (words s) a2))
        by (unfold free_page, free_pages; cbn; by rewrite Hr2). by mstep Hfr.
    + split; [done| |].
      * intros p. rewrite Hav2, Hav1. intuition lia.
      * intros p Hp. rewrite Hrf2 by done. apply Hr1.
  - exists a1. split; [done|]. split; [done| |].
    + intros p. rewrite Hav1. intuition lia.
    + intros p _. apply Hr1.
Qed.

(** ** [page_insert] *)

(** The page mapped at [la] before, if any. *)
Definition old_page (m : mem) (R la : Z) : option Z :=
  let e := mapping m R la in if present e then Some (page_of e) else None.

Record inserted s s' (R page la perm : Z) : Prop := mkInserted {
  in_kernel : same_kernel s s' R;
  in_map la' : mapping (words s') R la' =
               if decide (same_page la la') then pte_create (page2ppn page) (Z.lor PTE_V perm)
               else mapping (words s) R la';
  in_freed p : ~ pm_avail (phys s) p -> pm_avail (phys s') p <->
               old_page (words s) R la = Some p /\ p <> page /\ pm_ref (phys s) p = 1;
  in_ref p : ~ pm_avail (phys s) p -> ~ pm_avail (phys s') p ->
             pm_ref (phys s') p = pm_ref (phys s) p + (if decide (p = page) then 1 else 0)
                                  - (if decide (old_page (words s) R la = Some p) then 1 else 0) }.

Lemma inc_run s p : 0 <= pm_ref (phys s) p < 2 ^ 31 - 1 ->
  page_ref_inc p s = Done (pm_ref (phys s) p + 1, mkMachine (words s) (pm_set_ref p (pm_ref (phys s) p + 1) (phys s))).
Proof.
  intros Hr. unfold page_ref_inc. mstep (eq_refl : get (page_ref p) s = Done (pm_ref (phys s) p, s)).
  rewrite s32_small by lia. unfold get, mbind, ST_bind. cbn. unfold page_ref. cbn. by rewrite pm_ref_law, decide_True.
Qed.

Lemma put_entry_twice m T k v w : index k -> 0 <= v < 2 ^ 64 -> 0 <= w < 2 ^ 64 -> forall q j, index j ->
  entry (put_entry (put_entry m T k v) T k w) q j = entry (put_entry m T k w) q j.
Proof.
  intros Hk Hv Hw q j Hj. unfold put_entry. rewrite !entry_put by done. repeat case_decide; done.
Qed.

(** The state after the entry of [la] is written over [a']. *)
Lemma insert_final s a' R page la perm T : machine_ok s R -> pm_ok a' ->
  table_of (words s) R (PDX1 la) (PDX0 la) = Some T -> in_ram page -> 0 <= perm < 1024 ->
  (forall p, pm_avail a' p <-> pm_avail (phys s) p \/
     (old_page (words s) R la = Some p /\ p <> page /\ pm_ref (phys s) p = 1)) ->
  (forall p, old_page (words s) R la = Some p -> p <> page -> pm_ref (phys s) p = 1 -> in_ram p /\ data_page (words s) R p) ->
  forall m', (forall q j, index j -> entry m' q j =
     entry (put_entry (words s) T (PTX la) (pte_create (page2ppn page) (Z.lor PTE_V perm))) q j) ->
  machine_ok (mkMachine m' a') R /\
  forall la', mapping m' R la' = if decide (same_page la la') then pte_create (page2ppn page) (Z.lor PTE_V perm)
                                 else mapping (words s) R la'.
Proof.
  intros [Hok Hr Htr] Hok' HT Hpr Hperm Hav Hold m' Hm'.
  assert (Hv : 0 <= pte_create (page2ppn page) (Z.lor PTE_V perm) < 2 ^ 64)
    by (apply create_range; [by apply ppn_range|by apply lor_1_range]).
  destruct (put_entry_tree (words s) (phys s) R la T _ Htr HT Hv) as [Htr1 Hmap1].
  set (m1 := put_entry (words s) T (PTX la) (pte_create (page2ppn page) (Z.lor PTE_V perm))) in *.
  assert (Hch : forall p i, index i -> child m' p i = child m1 p i) by (intros p i Hi; unfold child; by rewrite Hm').
  assert (Hdi : forall i, index i -> dir m' R i = dir m1 R i) by (intros; by apply dir_ext, Hch).
  assert (Hta : forall i j, index i -> index j -> table_of m' R i j = table_of m1 R i j).
  { intros i j Hi Hj. unfold table_of. rewrite Hdi by done. destruct (dir m1 R i); [by apply Hch|done]. }
  assert (Htr2 : tree_ok m1 a' R).
  { destruct (old_page (words s) R la) as [q|] eqn:Hq.
    - destruct (decide (q <> page /\ pm_ref (phys s) q = 1)) as [[Hqp Hq1]|Hn].
      + apply (tree_more m1 (phys s) a' R q Htr1); [|intros p Hp; apply Hav in Hp as [|[[= ->] _]]; tauto].
        destruct (Hold q eq_refl Hqp Hq1) as [_ (Hd1 & Hd2 & Hd3)].
        destruct (put_entry_dirs (words s) (phys s) R _ _ T (PTX la) _ Htr (PDX1_index la) (PDX0_index la) HT (PTX_index la) Hv) as [Hd1' Ht1'].
        split; [done|]. split; [intros i Hi; unfold m1; rewrite Hd1' by done; by apply Hd2|].
        intros i j Hi Hj. unfold m1. rewrite Ht1' by done. by apply Hd3.
      + apply (tree_same m1 (phys s)); [done|]. intros p. rewrite Hav. split; [|tauto].
        intros [|([= ->] & H1 & H2)]; [done|]. exfalso. tauto.
    - apply (tree_same m1 (phys s)); [done|]. intros p. rewrite Hav. split; [|tauto]. intros [|(? & _)]; done. }
  split; [split|].
  - done.
  - intros p Hp. apply Hav in Hp as [Hp|(H1 & H2 & H3)]; [by apply Hr|by apply Hold].
  - destruct Htr2 as [A1 A2 A3 A4 A5]. split; [done| | | |].
    + intros i D Hi. rewrite Hdi by done. by apply A2.
    + intros i j T' Hi Hj. cbn. rewrite Hta by done. intros HT'. destruct (A3 i j T' Hi Hj HT') as (? & ? & Hd).
      split; [done|]. split; [done|]. intros i' Hi'. rewrite Hdi by done. by apply Hd.
    + intros i i' D Hi Hi'. cbn. rewrite !Hdi by done. by apply A4.
    + intros i j i' j' T' ????. cbn. rewrite !Hta by done. by apply A5.
  - intros la'. rewrite <- Hmap1. unfold mapping. rewrite Hta by auto.
    destruct (table_of m1 R (PDX1 la') (PDX0 la')); [|done]. by apply Hm'.
Qed.

(** What the middle of [page_insert] does to the allocator, [old] being the page mapped before. *)
Record swapped (a a' : A) (page : Z) (old : option Z) : Prop := mkSwapped {
  sw_ok : pm_ok a';
  sw_avail p : pm_avail a' p <-> pm_avail a p \/ (old = Some p /\ p <> page /\ pm_ref a p = 1);
  sw_ref p : ~ pm_avail a' p ->
    pm_ref a' p = pm_ref a p + (if decide (p = page) then 1 else 0) - (if decide (old = Some p) then 1 else 0) }.

Lemma swap_run s R pgdir la T page : machine_ok s R -> in_use (phys s) page -> 0 <= pm_ref (phys s) page < 2 ^ 31 - 1 ->
  table_of (words s) R (PDX1 la) (PDX0 la) = Some T ->
  (forall q, old_page (words s) R la = Some q -> q <> page -> droppable s R q) ->
  exists a' m', (page_ref_inc page ;;
    e ← load (slot (kva T) (PTX la));
    (if present e then
       p ← pte2page npage e;
       if p =? page then page_ref_dec page ;; mret tt else page_remove_pte npage pgdir la (slot (kva T) (PTX la))
     else mret tt)) s = Done (tt, mkMachine m' a') /\
    swapped (phys s) a' page (old_page (words s) R la) /\ (m' = words s \/ m' = put_entry (words s) T (PTX la) 0).
Proof.
  intros Hm [Hpr Hpa] Href HT Hold. destruct (Hm) as [Hok Hr Htr].
  set (r := pm_ref (phys s) page) in *. set (a1 := pm_set_ref page (r + 1) (phys s)).
  destruct (pm_set_ref_law (phys s) page (r + 1) Hok Hpa) as (Hok1 & Hav1 & Hmf1). fold a1 in Hok1, Hav1, Hmf1.
  assert (Hr1 : forall p, pm_ref a1 p = if decide (p = page) then r + 1 else pm_ref (phys s) p)
    by (intros p; apply pm_ref_law).
  assert (He : mapping (words s) R la = entry (words s) T (PTX la)) by (unfold mapping; by rewrite HT).
  assert (Hinc : page_ref_inc page s = Done (r + 1, mkMachine (words s) a1)) by (by apply inc_run).
  set (s1 := mkMachine (words s) a1) in *. mstep Hinc.
  mstep (eq_refl : load (slot (kva T) (PTX la)) s1 = Done (entry (words s) T (PTX la), s1)). unfold old_page in *.
  rewrite He in Hold |- *. destruct (present (entry (words s) T (PTX la))) eqn:Hp.
  - set (q := page_of (entry (words s) T (PTX la))) in *. specialize (Hold q eq_refl).
    assert (Hqr : in_ram q) by (destruct (decide (q = page)) as [->|Hne]; [done|by destruct (Hold Hne) as [[? _] _]]).
    mstep (pte2page_run (entry (words s) T (PTX la)) s1 Hp Hqr). fold q. destruct (Z.eqb_spec q page) as [Hqp|Hqp].
    + set (a2 := pm_set_ref page r a1). exists a2, (words s).
      assert (Hdec : page_ref_dec page s1 = Done (pm_ref a2 page, mkMachine (words s) a2)).
      { unfold page_ref_dec. mstep (eq_refl : get (page_ref page) s1 = Done (pm_ref a1 page, s1)).
        rewrite Hr1, decide_True, s32_small by (done || lia). unfold a2. by replace (r + 1 - 1) with r by lia. }
      mstep Hdec. split; [done|]. split; [|by left].
      destruct (pm_set_ref_law a1 page r Hok1 ltac:(by rewrite Hav1)) as (Hok2 & Hav2 & _). fold a2 in Hok2, Hav2.
      split; [done| |].
      * intros p. rewrite Hav2, Hav1. intuition congruence.
      * intros p _. unfold a2. rewrite pm_ref_law, Hr1. rewrite Hqp. repeat case_decide; subst; try lia; try congruence.
    + destruct (Hold Hqp) as (Hqu & Hqref & Hqf).
      assert (Hdr : droppable s1 R q).
      { unfold droppable. cbn. rewrite Hr1, decide_False by done. split; [|split; [done|]].
        - destruct Hqu as [? Hqa]. split; [done|by rewrite Hav1].
        - intros H1. destruct (Hqf H1) as [Hmay Hd]. split; [by apply Hmf1|done]. }
      destruct (remove_pte_run s1 R pgdir la T (PTX la) Hok1 Hp Hdr) as (a2 & Hrun & [Dok Dav Dref]). fold q in Dav, Dref.
      exists a2, (put_entry (words s) T (PTX la) 0). split; [exact Hrun|]. split; [|by right]. cbn in Dav, Dref. fold q in Dav, Dref.
      split; [done| |].
      * intros p. rewrite Dav, Hav1, Hr1, (decide_False (P := q = page)) by done.
        split; (intros [|H0]; [by left|right]).
        -- destruct H0 as [-> H0]. by split_and!.
        -- destruct H0 as (Hqp' & _ & H0). assert (q = p) as <- by congruence. done.
      * intros p Hp'. rewrite Dref, !Hr1 by done. rewrite (decide_False (P := q = page)) by done.
        destruct (decide (p = q)) as [->|Hpq].
        -- rewrite !(decide_False (P := q = page)), !decide_True by done. lia.
        -- rewrite (decide_False (P := Some q = Some p)) by congruence. case_decide; [subst; fold r; lia|lia].
  - exists a1, (words s). split; [done|]. split; [|by left]. split; [done| |].
    + intros p. rewrite Hav1. intuition congruence.
    + intros p _. rewrite Hr1. repeat case_decide; subst; try lia; try congruence.
Qed.

Lemma page_insert_run s R page la perm : 0 <= la < 2 ^ 38 ->
  machine_ok s R -> in_use (phys s) page -> 0 <= pm_ref (phys s) page < 2 ^ 31 - 1 -> 0 <= perm < 1024 ->
  (forall q, old_page (words s) R la = Some q -> q <> page -> droppable s R q) ->
  exists ret s', page_insert npage (kva R) page la perm s = Done (ret, s') /\ machine_ok s' R /\
    (ret = - E_NO_MEM /\ grown s s' R \/ ret = 0 /\ inserted s s' R page la perm).
Proof.
  intros Hla%PDX1_lower Hm [Hpr Hpa] Href Hperm Hold. unfold page_insert.
  destruct (get_pte_create s R la Hla Hm) as (o & s1 & Hrun & Hm1 & Hg & Ho & Hsame). mstep Hrun.
  destruct o as [p|]; [|exists (- E_NO_MEM), s1; split; [done|]; split; [done|by left]].
  destruct Ho as (T & HT & ->). destruct Hg as [Gk Gm Ga Gr].
  assert (Hold1 : old_page (words s1) R la = old_page (words s) R la) by (unfold old_page; by rewrite Gm).
  assert (Hdr : forall q, old_page (words s1) R la = Some q -> q <> page -> droppable s1 R q).
  { rewrite Hold1. intros q Hq Hne. pose proof (Hold q Hq Hne) as Hd.
    assert (Hs1 : s1 = s); [|by rewrite Hs1]. unfold old_page in Hq.
    destruct (table_of (words s) R (PDX1 la) (PDX0 la)) as [T'|] eqn:HT'; [by destruct (Hsame T' eq_refl)|].
    unfold mapping in Hq. by rewrite HT' in Hq. }
  destruct (swap_run s1 R (kva R) la T page Hm1) as (a2 & m2 & Hsw & [Sok Sav Sref] & Hw);
    [by split; auto|by rewrite Gr|done|done|].
  set (v := pte_create (page2ppn page) (Z.lor PTE_V perm)).
  assert (Hfin : forall q j, index j -> entry (put_entry m2 T (PTX la) v) q j = entry (put_entry (words s1) T (PTX la) v) q j).
  { intros q j Hj. destruct Hw as [->| ->]; [done|]. apply put_entry_twice; auto; [lia|].
    apply create_range; [by apply ppn_range|by apply lor_1_range]. }
  assert (Hdata : forall p, old_page (words s1) R la = Some p -> p <> page -> pm_ref (phys s1) p = 1 ->
            in_ram p /\ data_page (words s1) R p).
  { intros p Hp Hne H1. destruct (Hdr p Hp Hne) as ([? _] & _ & Hf). by destruct (Hf H1). }
  destruct (insert_final s1 a2 R page la perm T Hm1 Sok HT Hpr Hperm Sav Hdata _ Hfin) as [Hm' Hmap'].
  exists 0, (mkMachine (put_entry m2 T (PTX la) v) a2). split; [|split; [done|right; split; [done|]]].
  - apply bind_Done_inv in Hsw as (x & sx & Hx & Hsw). mstep Hx.
    apply bind_Done_inv in Hsw as (e & se & He & Hsw). mstep He. by mstep Hsw.
  - rewrite Hold1 in Sav, Sref. split; cbn.
    + intros i Hi. cbn. destruct (tr_tab _ _ _ (mo_tree _ _ Hm1) _ _ T ltac:(auto) ltac:(auto) HT) as (_ & HTR & _).
      assert (Hix : index i) by (unfold index; lia). rewrite Hfin by done. unfold put_entry.
      assert (Hv : 0 <= v < 2 ^ 64) by (apply create_range; [by apply ppn_range|by apply lor_1_range]).
      rewrite entry_put by auto. rewrite decide_False by (by intros [-> _]). by apply Gk.
    + intros la'. rewrite Hmap'. case_decide; [done|apply Gm].
    + intros p Hp. rewrite Sav, Gr by done. split; [intros [Hp'|]; [|done]|auto]. by apply Ga in Hp'.
    + intros p Hp Hp'. by rewrite Sref, Gr.
Qed.

(** C9 [page_insert] changes the map of an address space in one place: below
    2^38, on well-formed tables, it either fails with [-E_NO_MEM] and leaves the map and
    every page in use as they were, or returns 0, and then the page of [la] has
    the new entry and every other page the entry it had, in the half of the kernel too; the
    tables are well formed again, the new page counts one reference more, the page that was
    mapped one less, and it is given back exactly when that was its last. *)
Theorem page_insert_maps s R page la perm : 0 <= la < 2 ^ 38 ->
  machine_ok s R -> in_use (phys s) page -> 0 <= pm_ref (phys s) page < 2 ^ 31 - 1 -> 0 <= perm < 1024 ->
  (forall q, old_page (words s) R la = Some q -> q <> page -> droppable s R q) ->
  exists ret s', page_insert npage (kva R) page la perm s = Done (ret, s') /\ machine_ok s' R /\
    (ret = - E_NO_MEM /\ grown s s' R \/ ret = 0 /\ inserted s s' R page la perm).
Proof. apply page_insert_run. Qed.
End page_table_spec.
