(* ===== verification/PagePmm.v ===== *)
(** * The first-fit allocator behind the page tables

    [default_pmm_manager] as an instance of the interface of [PageTable]: it
    keeps the promises of [PmmLaws] as long as a page that is given back does
    not lie above every free block. *)
From S2P Require Import Prelude Libs CList Mem DefaultPmm Vmm Process PageTable PageTableSpec.

(** The fuel is one more than the number of free pages. *)
Definition pmm_fuel (a : pmm) : nat := S (Z.to_nat (nr_free a)).
#[export] Instance default_pmm_manager : PmmManager pmm := {|
  pm_alloc_pages n a := default_alloc_pages (pmm_fuel a) n a;
  pm_free_pages p n a := default_free_pages (pmm_fuel a) p n a;
  pm_ref a p := DefaultPmm.page_ref (pages a p);
  pm_set_ref p v a := mkPmm (upd (pages a) p (mkPage v (flags (pages a p)) (property (pages a p)))) (lnk a) (nr_free a) |}.

Lemma dseg_unique (s : links lnode) (h : lnode) : forall a xs ys, h ∉ xs -> h ∉ ys -> dseg s a xs h -> dseg s a ys h -> xs = ys.
Proof.
  intros a xs. revert a. induction xs as [|x xs IH]; intros a [|y ys] Hx Hy; cbn.
  - done.
  - intros [H1 _] (H2 & _). apply not_elem_of_cons in Hy as [Hy _]. congruence.
  - intros (H1 & _) [H2 _]. apply not_elem_of_cons in Hx as [Hx _]. congruence.
  - apply not_elem_of_cons in Hx as [_ Hx], Hy as [_ Hy]. intros (H1 & _ & H1') (H2 & _ & H2').
    assert (x = y) as -> by congruence. f_equal. by apply (IH y).
Qed.

Lemma is_dlist_unique (s : links lnode) h xs ys : is_dlist s h xs -> is_dlist s h ys -> xs = ys.
Proof.
  intros [Hx%NoDup_cons H1] [Hy%NoDup_cons H2]. destruct Hx, Hy. by apply (dseg_unique s h h).
Qed.

Lemma wf_unique a xs ys : wf a xs -> wf a ys -> xs = ys.
Proof.
  intros Hx Hy. pose proof (is_dlist_unique _ _ _ _ (wf_list _ _ Hx) (wf_list _ _ Hy)) as Hl.
  pose proof (wf_block _ _ Hx) as Bx. pose proof (wf_block _ _ Hy) as By. clear Hx Hy.
  revert ys Hl By. induction xs as [|[s k] xs IH]; intros [|[s' k'] ys] Hl By; try done.
  unfold links_of in Hl. cbn in Hl. injection Hl as -> Hl.
  destruct (Bx (s', k) ltac:(left)) as [H1 _], (By (s', k') ltac:(left)) as [H2 _]. cbn in H1, H2.
  f_equal; [congruence|]. apply IH; [intros b Hb; apply Bx; by right|done|intros b Hb; apply By; by right].
Qed.

Lemma length_total lo xs : blocks_from lo xs -> Z.of_nat (length xs) <= free_total xs.
Proof.
  revert lo. induction xs as [|[s k] xs IH]; intros lo; [done|]. cbn. intros (_ & Hk & Hr).
  rewrite free_total_cons. cbn. specialize (IH _ Hr). lia.
Qed.

Lemma pmm_fuel_enough a xs : wf a xs -> (length xs < pmm_fuel a)%nat.
Proof.
  intros Hwf. pose proof (length_total _ _ (wf_sorted _ _ Hwf)). unfold pmm_fuel. rewrite (wf_free _ _ Hwf). lia.
Qed.

(** ** Giving back a page leaves the counts of others *)

(** The counts of the pages in [P] are kept. *)
Definition keeps {X} (P : Z -> Prop) (m : ST pmm X) : Prop :=
  forall a x a', m a = Done (x, a') -> forall i, P i -> DefaultPmm.page_ref (pages a' i) = DefaultPmm.page_ref (pages a i).

Lemma keeps_ret {X} P (x : X) : keeps P (mret x). Proof. by intros a y a' [= <- <-]. Qed.
Lemma keeps_get {X} P (f : pmm -> X) : keeps P (get f). Proof. by intros a y a' [= <- <-]. Qed.
Lemma keeps_panic {X} P : keeps P (@panic pmm X). Proof. done. Qed.
Lemma keeps_fuel {X} P : keeps P (@no_fuel pmm X). Proof. done. Qed.
Lemma keeps_bind {X Y} P (m : ST pmm X) (k : X -> ST pmm Y) :
  keeps P m -> (forall x, keeps P (k x)) -> keeps P (m ≫= k).
Proof.
  intros Hm Hk a y a' Hr i Hi. apply bind_Done_inv in Hr as (x & b & H1 & H2).
  rewrite (Hk x b y a' H2 i Hi). by apply (Hm a x b H1).
Qed.
Lemma keeps_list P f : keeps P (on_list f). Proof. by intros a y a' [= <- <-]. Qed.
Lemma keeps_nr P f : keeps P (set_nr_free f). Proof. by intros a y a' [= <- <-]. Qed.
Lemma keeps_page (P : Z -> Prop) p f :
  (forall g, DefaultPmm.page_ref (f g) = DefaultPmm.page_ref g) \/ ~ P p -> keeps P (on_page p f).
Proof.
  intros Hf a y a' [= <- <-] i Hi. cbn. unfold upd. case_decide; [|done]. subst. destruct Hf as [Hf|Hf]; [apply Hf|done].
Qed.
Lemma keeps_if {X} P (b : bool) (m m' : ST pmm X) : keeps P m -> keeps P m' -> keeps P (if b then m else m').
Proof. by destruct b. Qed.
Lemma keeps_assert P b : keeps P (@assert pmm b).
Proof. destruct b; [apply keeps_ret|apply keeps_panic]. Qed.

Ltac keeps := repeat first
  [ apply keeps_ret | apply keeps_get | apply keeps_panic | apply keeps_fuel | apply keeps_list | apply keeps_nr
  | apply keeps_assert | apply keeps_page; by left | apply keeps_bind; [|intros ?] | apply keeps_if ].

Lemma keeps_release P k : forall p, (forall i, P i -> ~ (p <= i < p + Z.of_nat k)) -> keeps P (release_pages k p).
Proof.
  induction k as [|k IH]; intros p HP; cbn [release_pages]; [apply keeps_ret|].
  apply keeps_bind; [apply keeps_get|intros ?]. apply keeps_bind; [apply keeps_assert|intros ?].
  apply keeps_bind; [apply keeps_page; right|intros _; apply IH].
  - intros Hp. apply (HP p Hp). lia.
  - intros i Hi H'. apply (HP i Hi). lia.
Qed.

Lemma keeps_link P : forall fuel le base, keeps P (link_loop fuel le base).
Proof. induction fuel as [|fuel IH]; intros; cbn [link_loop]; keeps. apply IH. Qed.

Lemma keeps_free P fuel p : ~ P p -> keeps P (default_free_pages fuel p 1).
Proof.
  intros Hp. unfold default_free_pages, link_block, merge_prev, merge_next, absorb, page_at, le_next, le_prev.
  apply keeps_bind; [apply keeps_assert|intros ?]. apply keeps_bind; [apply keeps_release|intros ?].
  { intros i Hi ?. assert (i = p) as -> by lia. done. }
  keeps. apply keeps_link.
Qed.

(** ** The instance *)
Definition free_set (a : pmm) (p : Z) : Prop := exists xs, wf a xs /\ covers xs p.
(** [default_free_pages] loses a page that lies above every free block. *)
Definition free_below (a : pmm) (p : Z) : Prop :=
  exists xs, wf a xs /\ releasable a xs p 1 /\ (xs = [] \/ exists s k, (s, k) ∈ xs /\ p < s).

Lemma free_set_wf a xs p : wf a xs -> free_set a p <-> covers xs p.
Proof.
  intros Hwf. split; [|by exists xs]. intros (ys & Hy & Hc). by rewrite (wf_unique _ _ _ Hwf Hy).
Qed.

(** Only the page [p] has changed, in a field the lists do not use. *)
Lemma wf_set_ref a xs p v : wf a xs -> ~ covers xs p -> wf (pm_set_ref p v a) xs.
Proof.
  intros Hwf Hp. destruct (Hwf) as [Hl Hs Hb Hf Hbd]. split; [done|done| |done|done].
  intros [s k] Hin. pose proof (wf_size_bound _ _ _ _ Hwf Hin). apply (block_ok_ext (pages a)); [|cbn; lia|by apply Hb].
  intros i Hi. cbn in *. apply upd_ne. intros ->. apply Hp. by exists s, k.
Qed.

Lemma alloc_law a xs : wf a xs ->
  default_alloc_pages (pmm_fuel a) 1 a = Done (None, a) \/
  exists p a', default_alloc_pages (pmm_fuel a) 1 a = Done (Some p, a') /\ (exists ys, wf a' ys) /\ free_set a p /\
    (forall q, free_set a' q <-> free_set a q /\ q <> p) /\
    (forall q, ~ free_set a q -> DefaultPmm.page_ref (pages a' q) = DefaultPmm.page_ref (pages a q)).
Proof.
  intros Hwf. pose proof (default_alloc_run a xs 1 _ Hwf eq_refl (pmm_fuel_enough a xs Hwf)) as Hr.
  destruct (abs_alloc 1 xs) as [[p ys]|]; [right|by left].
  destruct Hr as (a' & Hrun & Hwf' & _ & Hcov & _ & Hsame). exists p, a'. split; [done|]. split; [by exists ys|].
  assert (Hc : forall q, covers xs q <-> covers ys q \/ q = p).
  { intros q. destruct (Hcov q) as [-> _]. assert (in_range p 1 q <-> q = p) by (unfold in_range; lia). tauto. }
  split; [apply (free_set_wf a xs p Hwf), Hc; by right|]. split.
  - intros q. rewrite (free_set_wf a' ys q Hwf'), (free_set_wf a xs q Hwf), Hc. split.
    + intros Hq. split; [by left|]. intros ->. destruct (Hcov p) as [_ Hd]. apply (Hd Hq). unfold in_range. lia.
    + tauto.
  - intros q Hq. rewrite (free_set_wf a xs q Hwf) in Hq. by rewrite (Hsame q Hq).
Qed.

Lemma free_law a p : free_below a p -> ~ free_set a p ->
  exists a', default_free_pages (pmm_fuel a) p 1 a = Done (tt, a') /\ (exists ys, wf a' ys) /\
    (forall q, free_set a' q <-> free_set a q \/ q = p) /\
    (forall q, ~ free_set a' q -> DefaultPmm.page_ref (pages a' q) = DefaultPmm.page_ref (pages a q)).
Proof.
  intros (xs & Hwf & Hrel & Hlast) Hp.
  destruct (release_spec a xs p 1 _ Hwf Hrel (pmm_fuel_enough a xs Hwf) Hlast) as (a' & Hrun & Hwf').
  exists a'. split; [done|]. split; [by eexists|].
  assert (Hf : forall q, free_set a' q <-> free_set a q \/ q = p).
  { intros q. rewrite (free_set_wf a' _ q Hwf'), (free_set_wf a xs q Hwf).
    rewrite abs_free_covers; [|done|].
    { assert (in_range p 1 q <-> q = p) by (unfold in_range; lia). tauto. }
    eapply blocks_from_pos, (wf_sorted _ _ Hwf). }
  split; [done|]. intros q Hq.
  apply (keeps_free (fun q => q <> p) (pmm_fuel a) p ltac:(intros Hne; by apply Hne) a tt a' Hrun).
  intros ->. apply Hq, Hf. by right.
Qed.

#[export] Program Instance default_pmm_laws : PmmLaws pmm := {|
  pm_ok a := exists xs, wf a xs; pm_avail := free_set; pm_may_free := free_below |}.
Next Obligation. intros a [xs Hwf]. by apply (alloc_law a xs). Qed.
Next Obligation.
  intros a p v [xs Hwf] Hp. cbn. assert (Hp' : ~ covers xs p) by (by rewrite <- (free_set_wf a xs p Hwf)).
  pose proof (wf_set_ref a xs p v Hwf Hp') as Hwf'. split; [by exists xs|]. split.
  - intros q. by rewrite (free_set_wf _ xs q Hwf'), (free_set_wf a xs q Hwf).
  - intros q (ys & Hy & (Hb & Hn & Ht & Hpg & Hd) & Hlast). rewrite (wf_unique _ _ _ Hy Hwf) in *. exists xs. split; [done|].
    split; [|done]. split; [done|]. split; [done|]. split; [done|]. split; [|done]. intros i Hi.
    destruct (Hpg i Hi) as [H1 H2]. cbn. unfold upd. case_decide; [by subst|done].
Qed.
Next Obligation. intros a p v q. cbn. unfold upd. by case_decide. Qed.
Next Obligation. intros a p _ Hp Hb. exact (free_law a p Hb Hp). Qed.

(** ** Inserting a page over empty tables: pages 4 to 7 are free *)
Definition sample_machine : machine pmm := mkMachine (fun _ => 0) sample.
Definition sample_npage : Z := nbase + 16.

Lemma no_child p k : child (fun _ => 0) p k = None.
Proof. unfold child, entry. by rewrite le_get_zero by done. Qed.
Lemma no_dir R i : dir (fun _ => 0) R i = None.
Proof. unfold dir. rewrite no_child. by destruct (i <? 256). Qed.

Lemma sample_machine_ok R : 0 <= R < 4 -> machine_ok sample_npage sample_machine R.
Proof.
  intros HR.
  assert (Hfree : forall p, free_set sample p -> 4 <= p < 8).
  { intros p Hp. apply (free_set_wf sample [(4, 4)] p sample_wf) in Hp as (s & k & Hin & Hp).
    apply list_elem_of_singleton in Hin as [= -> ->]. lia. }
  split.
  - exists [(4, 4)]. exact sample_wf.
  - intros p Hp. specialize (Hfree p Hp). unfold in_ram, sample_npage. lia.
  - split.
    + split; [unfold in_ram, sample_npage; lia|]. intros Hp. specialize (Hfree R Hp). lia.
    + intros i D _. by rewrite no_dir.
    + intros i j T _ _. unfold table_of. by rewrite no_dir.
    + intros i i' D _ _. by rewrite no_dir.
    + intros i j i' j' T _ _ _ _. unfold table_of. by rewrite no_dir.
Qed.

Lemma page_insert_maps_witness :
  exists ret s', page_insert sample_npage (kva 2) 3 0x800000 0x16 sample_machine = Done (ret, s') /\
    machine_ok sample_npage s' 2 /\
    (ret = - E_NO_MEM /\ grown sample_machine s' 2 \/ ret = 0 /\ inserted sample_machine s' 2 3 0x800000 0x16).
Proof.
  apply (page_insert_maps sample_npage).
  - split; [done|]. unfold sample_npage. vm_compute. discriminate.
  - lia.
  - apply sample_machine_ok. lia.
  - apply (tr_root _ _ _ _ (mo_tree _ _ _ (sample_machine_ok 3 ltac:(lia)))).
  - cbn. lia.
  - lia.
  - intros q. unfold old_page, mapping, table_of. by rewrite no_dir.
Defined.

(** It is the second case: the entry can be read back. *)
Example page_insert_runs :
  result ((page_insert sample_npage (kva 2) 3 0x800000 0x16 ;; page_insert sample_npage (kva 2) 1 0x801000 0x16 ;;
           p ← get_page sample_npage (kva 2) 0x800000; n ← get (fun s => nr_free (phys s)); mret (fst p, n)) sample_machine)
  = Some (Some 3, 2).
Proof. vm_compute. reflexivity. Qed.

(** ** What [exit_range] leaves behind *)

(** Pages 8 to 15 are free; the root is page 2 and pages 3 and 4 are mapped in two
    areas of one directory; both areas are unmapped and given to [exit_range], as
    [exit_mmap] does. *)
Definition two_areas : ST (machine pmm) Z :=
  let insert page la := page_insert (nbase + 16) (kva 2) page la 0x16 ;; mret tt in
  insert 3 0x800000 ;; insert 4 0xA00000 ;;
  unmap_range (nbase + 16) (kva 2) 0x800000 0x801000 ;; unmap_range (nbase + 16) (kva 2) 0xA00000 0xA01000 ;;
  exit_range (nbase + 16) (kva 2) 0x800000 0x801000 ;; exit_range (nbase + 16) (kva 2) 0xA00000 0xA01000 ;;
  get (fun s => nr_free (phys s)).
Definition exit_machine : machine pmm :=
  mkMachine (fun _ => 0)
    (mkPmm (fun i => if i =? 8 then mkPage 0 2 8 else mkPage 0 0 0)
           (list_add (list_init (mkLinks (fun l => l) (fun l => l)) Head) Head (Link 8)) 8).

(** Three tables were taken and two pages given back: 10 pages should be free.
    The first call frees the directory as soon as every entry it visited was
    valid, so the second finds no directory and its table is lost. *)
Example exit_range_loses_a_table : result (two_areas exit_machine) = Some 9.
Proof. vm_compute. reflexivity. Qed.

(** With the second area still mapped, the same call takes its mapping away. *)
Example exit_range_drops_a_mapping :
  result ((let insert page la := page_insert (nbase + 16) (kva 2) page la 0x16 ;; mret tt in
           insert 3 0x800000 ;; insert 4 0xA00000 ;;
           unmap_range (nbase + 16) (kva 2) 0x800000 0x801000 ;; exit_range (nbase + 16) (kva 2) 0x800000 0x801000 ;;
           p ← get_page (nbase + 16) (kva 2) 0xA00000; mret (fst p)) exit_machine) = Some None.
Proof. vm_compute. reflexivity. Qed.
