(* ===== verification/PageData.v ===== *)
(** * Pages of data under changes of the page tables

    Inserting a page leaves the contents of all pages alone that are in use and are no
    tables; [pgdir_alloc_page] maps a fresh one or gives it back. *)
From S2P Require Import Prelude Libs CList Mem DefaultPmm Vmm Process PageTable PageTableSpec PagePmm.

(** What the allocator promises of the counts and flags of the pages it gives. *)
Class PmmGives (A : Type) `{PmmLaws A} := {
  pm_given : A -> Z -> Prop;
  pm_given_law a p a' : pm_ok a -> pm_alloc_pages 1 a = Done (Some p, a') ->
    pm_given a' p /\ forall q, pm_given a q -> pm_given a' q;
  pm_given_ref_law a p v q : pm_ok a -> ~ pm_avail a p -> pm_given a q -> pm_given (pm_set_ref p v a) q;
  pm_alloc_ref_law a o a' : pm_ok a -> pm_alloc_pages 1 a = Done (o, a') -> forall q, pm_ref a' q = pm_ref a q;
  pm_full_law a p : pm_ok a -> pm_alloc_pages 1 a = Done (None, a) -> pm_given a p -> pm_may_free a p }.

Section data.
  Context {A : Type} `{PmmManager A} `{!PmmLaws A} `{!PmmGives A} (npage : Z).
  Hypothesis Hram : nbase < npage /\ npage * PGSIZE + PHYSICAL_MEMORY_OFFSET <= 2 ^ 64.
  Implicit Types s : machine A.

#[local] Arguments le_get _ _ _ : simpl never.
#[local] Arguments le_put _ _ _ _ : simpl never.

(** A page in use that is no table of [R]. *)
Definition owned s (R q : Z) : Prop := in_use npage (phys s) q /\ data_page (words s) R q.
Definition in_page (q a : Z) : Prop := kva q <= a < kva q + PGSIZE.

(** The pages of data are still there, with their contents. *)
Definition same_data s s' (R : Z) : Prop :=
  forall q, owned s R q -> owned s' R q /\ forall a, in_page q a -> words s' a = words s a.

Lemma same_data_refl s R : same_data s s R.
Proof. by intros q Hq. Qed.
Lemma same_data_trans s1 s2 s3 R : same_data s1 s2 R -> same_data s2 s3 R -> same_data s1 s3 R.
Proof.
  intros H1 H2 q Hq. destruct (H1 q Hq) as [Hq2 E1]. destruct (H2 q Hq2) as [Hq3 E2]. split; [done|].
  intros a Ha. by rewrite E2, E1.
Qed.

Lemma in_page_ne p q a : in_page p a -> in_page q a -> p = q.
Proof. unfold in_page, kva, PGSIZE. lia. Qed.

(** Memory outside the table and the new page. *)
Lemma attached_out m p k P a : index k -> ~ in_page p a -> ~ in_page P a -> attached m p k P a = m a.
Proof.
  unfold in_page, attached, slot, PGSIZE, index. intros Hk Hp HP. rewrite le_put_out by lia. apply fill_out. unfold PGSIZE. lia.
Qed.

Lemma put_entry_out m T k v a : index k -> ~ in_page T a -> put_entry m T k v a = m a.
Proof. unfold in_page, put_entry, slot, PGSIZE, index. intros Hk Hp. apply le_put_out. lia. Qed.

(** [q] stays a page of data when the fresh page [P] becomes a table under [p]. *)
Lemma attached_data m (a : A) R p k P q : tree_ok npage m a R -> index k ->
  (p = R /\ lower k \/ exists i, index i /\ dir m R i = Some p) -> child m p k = None ->
  in_ram npage P -> pm_avail a P -> q <> P -> data_page m R q -> data_page (attached m p k P) R q.
Proof.
  intros [[HRr HRa] Hdir Htab _ _] Hk Hp Hc HP Ha HqP (HqR & Hq1 & Hq2).
  assert (HRP : R <> P) by (by intros ->).
  assert (Hch : forall i, index i -> dir (attached m p k P) R i = dir m R i \/ dir (attached m p k P) R i = Some P).
  { intros i Hi. unfold dir. destruct (i <? 256); [|by left].
    rewrite (child_attached npage Hram) by done. case_decide; [by right|]. rewrite decide_False by done. by left. }
  split; [done|]. split.
  - intros i Hi. destruct (Hch i Hi) as [-> | ->]; [by apply Hq1|congruence].
  - intros i j Hi Hj. unfold table_of. destruct (Hch i Hi) as [-> | ->].
    + destruct (dir m R i) as [D|] eqn:HD; [|done]. destruct (Hdir i D Hi HD) as [[_ HDa] _].
      rewrite (child_attached npage Hram) by done. case_decide; [congruence|]. rewrite decide_False by (by intros ->).
      specialize (Hq2 i j Hi Hj). unfold table_of in Hq2. by rewrite HD in Hq2.
    + rewrite (child_attached npage Hram) by done. case_decide as Hd; [congruence|]. by rewrite decide_True.
Qed.

(** The allocator has nothing left. *)
Definition full s : Prop := pm_alloc_pages 1 (phys s) = Done (None, phys s).

(** Counts of free pages are 0, and what was given may be given back once nothing is left. *)
Definition zero_free s : Prop := forall q, pm_avail (phys s) q -> pm_ref (phys s) q = 0.
Definition keeps_given s s' : Prop := forall q, in_use npage (phys s) q -> pm_given (phys s) q -> pm_given (phys s') q.

Record quiet s s' (R : Z) : Prop := mkQuiet {
  qu_data : same_data s s' R;
  qu_kernel : same_kernel s s' R;
  qu_zero : zero_free s -> zero_free s';
  qu_given : keeps_given s s';
  qu_avail q : pm_avail (phys s') q -> pm_avail (phys s) q }.

Lemma quiet_refl s R : quiet s s R.
Proof. split; [apply same_data_refl|done|done|by intros q|done]. Qed.
Lemma quiet_trans s1 s2 s3 R : quiet s1 s2 R -> quiet s2 s3 R -> quiet s1 s3 R.
Proof.
  intros [A1 K1 B1 C1 D1] [A2 K2 B2 C2 D2]. split; [by eapply same_data_trans|intros i Hi; by rewrite K2, K1|auto| |auto].
  intros q [Hr Hq] Hg. apply C2; [split; [done|auto]|]. by apply C1.
Qed.

Lemma alloc_page_inv s o s' : pm_ok (phys s) -> alloc_page s = Done (o, s') ->
  words s' = words s /\ pm_alloc_pages 1 (phys s) = Done (o, phys s') /\ (o = None -> s' = s /\ full s).
Proof.
  intros Hok. unfold alloc_page, alloc_pages, full.
  destruct (pm_alloc_law (phys s) Hok) as [Hn|(p & a' & Hr & _)]; [rewrite Hn|rewrite Hr]; intros [= <- <-]; cbn.
  - split; [done|]. split; [done|]. intros _. by destruct s.
  - done.
Qed.

(** A new directory or table. *)
Lemma ensure_quiet s R p k ok s' : machine_ok npage s R -> index k ->
  (p = R /\ lower k \/ exists i, index i /\ dir (words s) R i = Some p) ->
  ensure_entry npage true (slot (kva p) k) s = Done (ok, s') -> quiet s s' R /\ (ok = false -> full s').
Proof.
  intros [Hok Hr Htr] Hk Hp Hrun. destruct (child (words s) p k) as [c|] eqn:Hc.
  { rewrite ensure_present in Hrun by congruence. injection Hrun as <- <-. split; [apply quiet_refl|done]. }
  unfold ensure_entry in Hrun. rewrite (bind_Done _ _ _ _ _ (eq_refl : load (slot (kva p) k) s = Done (entry (words s) p k, s))) in Hrun.
  rewrite present_child, Hc, bool_decide_eq_false_2 in Hrun by tauto. cbn [negb] in Hrun.
  destruct (alloc_page_run s Hok) as [Ha|(P & a' & Ha & Hok' & Hav & Ht & Href)].
  { rewrite (bind_Done _ _ _ _ _ Ha) in Hrun. injection Hrun as <- <-. split; [apply quiet_refl|]. intros _. by apply alloc_page_inv in Ha as (_ & _ & [_ ?]). }
  destruct (alloc_page_inv _ _ _ Hok Ha) as (_ & Hpm & _). cbn in Hpm.
  rewrite (bind_Done _ _ _ _ _ Ha) in Hrun.
  rewrite (bind_Done _ _ _ _ _ (eq_refl : set_page_ref P 1 (mkMachine (words s) a') = Done (tt, mkMachine (words s) (pm_set_ref P 1 a')))) in Hrun.
  rewrite (bind_Done _ _ _ _ _ (page2kva_run npage Hram P (mkMachine (words s) (pm_set_ref P 1 a')) (Hr P Hav))) in Hrun.
  injection Hrun as <- <-. change (mkMachine _ _) with (mkMachine (attached (words s) p k P) (pm_set_ref P 1 a')).
  assert (HnP : ~ pm_avail a' P) by (intros Hq%Ht; tauto).
  destruct (pm_set_ref_law a' P 1 Hok' HnP) as (Hok2 & Hav2 & _). destruct (pm_given_law _ _ _ Hok Hpm) as [_ Hgiv].
  split; [split; cbn|done].
  - intros q [[Hqr Hqa] Hd]. assert (HqP : q <> P) by (by intros ->). split.
    + split; [split; [done|]|]; cbn; [intros Hx%Hav2%Ht; tauto|]. by apply (attached_data (words s) (phys s)); auto.
    + intros x Hx. apply attached_out; [done| |]; intros Hy; [|by apply HqP, (in_page_ne _ _ x)].
      assert (q = p) as -> by (by apply (in_page_ne _ _ x)). destruct Hd as (HqR & Hd & _).
      destruct Hp as [[-> _]|(i & Hi & HD)]; [done|]. by apply (Hd i).
  - intros i Hi. cbn. rewrite (entry_attached npage Hram) by (auto; unfold index; lia). destruct (tr_root _ _ _ _ Htr) as [_ HRa].
    rewrite decide_False; [rewrite decide_False; [done|by intros ->]|].
    intros [-> Hki]. destruct Hp as [[_ Hl]|(j & Hj & HD)]; [unfold lower in Hl; lia|by destruct (tr_dir _ _ _ _ Htr j p Hj HD)].
  - intros Hz q Hq. cbn in *. apply Hav2, Ht in Hq as [Hq Hne]. rewrite pm_ref_law, decide_False by done.
    rewrite (pm_alloc_ref_law _ _ _ Hok Hpm). by apply Hz.
  - intros q _ Hg. cbn. apply pm_given_ref_law; [done|done|by apply Hgiv].
  - intros q Hq. apply Hav2, Ht in Hq. tauto.
Qed.

Lemma get_pte_quiet s R la o s' : lower (PDX1 la) -> machine_ok npage s R -> get_pte npage (kva R) la true s = Done (o, s') ->
  quiet s s' R /\ (o = None -> full s').
Proof.
  intros Hla Hm Hrun. unfold get_pte in Hrun.
  destruct (ensure_root npage Hram s R (PDX1 la) Hm Hla) as (ok1 & s1 & Hr1 & Hm1 & _ & Hd1 & _).
  destruct (ensure_quiet s R R (PDX1 la) ok1 s1 Hm (PDX1_index la) (or_introl (conj eq_refl Hla)) Hr1) as [Hq1 Hf1].
  rewrite (bind_Done _ _ _ _ _ Hr1) in Hrun. destruct ok1; cbn [negb] in Hrun.
  2: { injection Hrun as <- <-. auto. }
  destruct (Hd1 eq_refl) as [D HD]. destruct (tr_dir _ _ _ _ (mo_tree _ _ _ Hm1) _ D (PDX1_index la) HD) as [[HDr _] _].
  rewrite (bind_Done _ _ _ _ _ (next_table_run npage Hram s1 R _ D (proj2 (dir_Some _ _ _ _ HD)) HDr)) in Hrun.
  destruct (ensure_dir npage Hram s1 R (PDX1 la) D (PDX0 la) Hm1 (PDX1_index la) (PDX0_index la) HD)
    as (ok2 & s2 & Hr2 & Hm2 & _ & Hd2 & _).
  destruct (ensure_quiet s1 R D (PDX0 la) ok2 s2 Hm1 (PDX0_index la)) as [Hq2 Hf2]; [right; exists (PDX1 la); split; [apply PDX1_index|done]|done|].
  rewrite (bind_Done _ _ _ _ _ Hr2) in Hrun. destruct ok2; cbn [negb] in Hrun.
  - destruct (Hd2 eq_refl) as (HD2 & T & HT).
    assert (HTab : table_of (words s2) R (PDX1 la) (PDX0 la) = Some T) by (unfold table_of; by rewrite HD2).
    destruct (tr_tab _ _ _ _ (mo_tree _ _ _ Hm2) _ _ T (PDX1_index la) (PDX0_index la) HTab) as [[HTr _] _].
    rewrite (bind_Done _ _ _ _ _ (next_table_run npage Hram s2 D _ T HT HTr)) in Hrun. injection Hrun as <- <-.
    split; [by eapply quiet_trans|done].
  - injection Hrun as <- <-. split; [by eapply quiet_trans|auto].
Qed.

(** A page of data is no entry's table; the new page is mapped where nothing was. *)
Lemma insert_fresh s R page la perm : 0 <= la < 2 ^ 38 -> machine_ok npage s R -> owned s R page -> pm_ref (phys s) page = 0 ->
  0 <= perm < 1024 -> old_page (words s) R la = None ->
  exists ret s', page_insert npage (kva R) page la perm s = Done (ret, s') /\ machine_ok npage s' R /\ quiet s s' R /\
    (ret = - E_NO_MEM /\ full s' /\ (forall la', mapping (words s') R la' = mapping (words s) R la') \/
     ret = 0 /\ pm_ref (phys s') page = 1 /\
     forall la', mapping (words s') R la' =
       if decide (same_page la la') then pte_create (page2ppn page) (Z.lor PTE_V perm) else mapping (words s) R la').
Proof.
  intros Hla Hm [Hu Hd] Href Hperm Hold.
  destruct (page_insert_run npage Hram s R page la perm Hla Hm Hu) as (ret & s' & Hrun & Hm' & Hcase); [lia|done|by rewrite Hold|].
  exists ret, s'. split; [done|]. split; [done|]. unfold page_insert in Hrun.
  destruct (get_pte_create npage Hram s R la (PDX1_lower la Hla) Hm) as (o & s1 & Hrun1 & Hm1 & Hg & Ho & _).
  destruct (get_pte_quiet s R la o s1 (PDX1_lower la Hla) Hm Hrun1) as [Hq1 Hf1]. rewrite (bind_Done _ _ _ _ _ Hrun1) in Hrun.
  destruct o as [slt|].
  2: { injection Hrun as <- <-. split; [done|]. left. split; [done|]. split; [by apply Hf1|]. apply (gr_map _ _ _ Hg). }
  destruct Ho as (T & HT & ->).
  destruct (qu_data _ _ _ Hq1 page (conj Hu Hd)) as [[Hu1 Hd1] _].
  assert (Href1 : pm_ref (phys s1) page = 0) by (rewrite (gr_ref _ _ _ Hg); [done|apply Hu]).
  assert (Hlt : 0 <= pm_ref (phys s1) page < 2 ^ 31 - 1) by (rewrite Href1; lia).
  rewrite (bind_Done _ _ _ _ _ (inc_run s1 page Hlt)) in Hrun. rewrite Href1 in Hrun. change (0 + 1) with 1 in Hrun.
  set (a2 := pm_set_ref page 1 (phys s1)) in *.
  rewrite (bind_Done _ _ _ _ _ (eq_refl : load (slot (kva T) (PTX la)) (mkMachine (words s1) a2)
     = Done (entry (words s1) T (PTX la), mkMachine (words s1) a2))) in Hrun.
  assert (Hmap : mapping (words s1) R la = entry (words s1) T (PTX la)) by (unfold mapping; by rewrite HT).
  assert (Hnp : present (entry (words s1) T (PTX la)) = false).
  { rewrite <- Hmap, (gr_map _ _ _ Hg). unfold old_page in Hold. by destruct (present (mapping (words s) R la)). }
  rewrite Hnp in Hrun. injection Hrun as <- <-.
  change (mkMachine _ _) with (mkMachine (put_entry (words s1) T (PTX la) (pte_create (page2ppn page) (Z.lor PTE_V perm))) a2) in *.
  destruct (pm_set_ref_law (phys s1) page 1 (mo_pmm _ _ _ Hm1) (proj2 Hu1)) as (Hok2 & Hav2 & _). fold a2 in Hok2, Hav2.
  destruct (tr_tab _ _ _ _ (mo_tree _ _ _ Hm1) _ _ T (PDX1_index la) (PDX0_index la) HT) as (HuT & HTR & HTd).
  assert (Hq2 : quiet s1 (mkMachine (put_entry (words s1) T (PTX la) (pte_create (page2ppn page) (Z.lor PTE_V perm))) a2) R).
  { assert (Hv : 0 <= pte_create (page2ppn page) (Z.lor PTE_V perm) < 2 ^ 64)
      by (apply create_range; [apply (ppn_range npage Hram), Hu|by apply lor_1_range]).
    split; cbn.
    - intros q [[Hqr Hqa] (HqR & Hq1' & Hq2')]. assert (HqT : q <> T) by (intros ->; by apply (Hq2' _ _ (PDX1_index la) (PDX0_index la))).
      split; [split; [split; [done|]|]|]; cbn.
      + by rewrite Hav2.
      + destruct (put_entry_dirs npage Hram (words s1) (phys s1) R _ _ T (PTX la) _ (mo_tree _ _ _ Hm1) (PDX1_index la) (PDX0_index la) HT (PTX_index la) Hv) as [Hdi Hta].
        split; [done|]. split; [intros i Hi; rewrite Hdi by done; by apply Hq1'|].
        intros i j Hi Hj. rewrite Hta by done. by apply Hq2'.
      + intros x Hx. apply put_entry_out; [apply PTX_index|]. intros Hy. by apply HqT, (in_page_ne _ _ x).
    - intros i Hi. cbn. assert (Hix : index i) by (unfold index; lia). unfold put_entry. rewrite entry_put by (auto using PTX_index).
      by rewrite decide_False by (by intros [-> _]).
    - intros Hz q Hq. cbn in *. unfold a2. rewrite pm_ref_law, decide_False; [by apply Hz, Hav2|].
      intros ->. apply Hav2 in Hq. by apply Hu1.
    - intros q _ Hgq. cbn. apply pm_given_ref_law; [apply Hm1|apply Hu1|done].
    - intros q Hq. by apply Hav2. }
  split; [by eapply quiet_trans|]. right. split; [done|]. split; [cbn; unfold a2; by rewrite pm_ref_law, decide_True|].
  destruct Hcase as [[? _]|[_ Hin]]; [done|]. apply Hin.
Qed.

(** Writing into pages of data: the tables are not touched. *)
Lemma data_written s R (D : Z -> Prop) m' : machine_ok npage s R -> (forall q, D q -> owned s R q) ->
  (forall a, (forall q, D q -> ~ in_page q a) -> m' a = words s a) ->
  machine_ok npage (mkMachine m' (phys s)) R /\
  (forall la, mapping m' R la = mapping (words s) R la) /\
  (forall q, owned s R q -> owned (mkMachine m' (phys s)) R q) /\ same_kernel s (mkMachine m' (phys s)) R.
Proof.
  intros [Hok Hr Htr] HD Hout.
  assert (He : forall p k, ~ D p -> index k -> entry m' p k = entry (words s) p k).
  { intros p k Hne Hk. apply le_get_ext. intros i Hi. apply Hout. intros q Hq Hin. apply Hne.
    replace p with q; [done|]. apply (in_page_ne _ _ (slot (kva p) k + i)); [done|].
    unfold in_page, slot, PGSIZE, index in *. lia. }
  assert (HDR : ~ D R) by (intros Hx; by destruct (HD R Hx) as (_ & ? & _)).
  assert (Hc : forall p k, ~ D p -> index k -> child m' p k = child (words s) p k) by (intros; unfold child; by rewrite He).
  assert (Hc1 : forall i, index i -> dir m' R i = dir (words s) R i) by (intros; by apply dir_ext, Hc).
  assert (Ht : forall i j, index i -> index j -> table_of m' R i j = table_of (words s) R i j).
  { intros i j Hi Hj. unfold table_of. rewrite Hc1 by done. destruct (dir (words s) R i) as [p|] eqn:Hp; [|done].
    apply Hc; [|done]. intros Hx. destruct (HD p Hx) as (_ & _ & H1 & _). by apply (H1 i). }
  split; [split; [done|done|]|split; [|split]].
  - destruct Htr as [Hroot Hdir Htab Hi1 Hi2]. split; [done| | | |].
    + intros i p Hi. rewrite Hc1 by done. by apply Hdir.
    + intros i j T Hi Hj. rewrite Ht by done. intros HT. destruct (Htab i j T Hi Hj HT) as (H1 & H2 & H3).
      split; [done|]. split; [done|]. intros i' Hi'. rewrite Hc1 by done. by apply H3.
    + intros i i' p Hi Hi'. rewrite !Hc1 by done. by apply Hi1.
    + intros i j i' j' T Hi Hj Hi' Hj'. rewrite !Ht by done. by apply Hi2.
  - intros la. unfold mapping. rewrite (Ht _ _ (PDX1_index la) (PDX0_index la)).
    destruct (table_of (words s) R (PDX1 la) (PDX0 la)) as [T|] eqn:HT; [|done].
    apply He; [|apply PTX_index]. intros Hx. destruct (HD T Hx) as (_ & _ & _ & H2).
    by apply (H2 (PDX1 la) (PDX0 la) (PDX1_index la) (PDX0_index la)).
  - intros q [Hqu (HqR & Hq1 & Hq2)]. split; [done|]. split; [done|]. split.
    + intros i Hi. cbn. rewrite Hc1 by done. by apply Hq1.
    + intros i j Hi Hj. cbn. rewrite Ht by done. by apply Hq2.
  - intros i Hi. apply He; [done|unfold index; lia].
Qed.

(** Below 2^39 a page is its number. *)
Lemma index_div la k : 0 <= k -> Z.land (Z.shiftr la k) 0x1FF = la / 2 ^ k mod 512.
Proof. intros Hk. change 0x1FF with (Z.ones 9). rewrite Z.land_ones by lia. by rewrite Z.shiftr_div_pow2. Qed.
Lemma same_page_eq a b : 0 <= a < 2 ^ 39 -> 0 <= b < 2 ^ 39 -> same_page a b <-> a / 4096 = b / 4096.
Proof.
  intros Ha Hb. unfold same_page, PDX1, PDX0, PTX, PDX1SHIFT, PDX0SHIFT, PTXSHIFT. rewrite !index_div by lia.
  change (2 ^ 30) with 1073741824. change (2 ^ 21) with 2097152. change (2 ^ 12) with 4096. change (2 ^ 39) with 549755813888 in *.
  split; [|intros; Z.to_euclidean_division_equations; lia]. intros (H1 & H2 & H3). Z.to_euclidean_division_equations. lia.
Qed.

(** A fresh page at [la], or nothing. *)
Record fresh_page s s' (R page la perm : Z) : Prop := mkFresh {
  fp_ok : machine_ok npage s' R;
  fp_quiet : quiet s s' R;
  fp_new : pm_avail (phys s) page;
  fp_owned : owned s' R page;
  fp_map la' : mapping (words s') R la' =
    if decide (same_page la la') then pte_create (page2ppn page) (Z.lor PTE_V perm) else mapping (words s) R la' }.

(** Or no memory: the map and the pages of data are as they were. *)
Record no_page s s' (R : Z) : Prop := mkNoPage {
  np_ok : machine_ok npage s' R;
  np_data : same_data s s' R;
  np_kernel : same_kernel s s' R;
  np_avail q : pm_avail (phys s') q -> pm_avail (phys s) q;
  np_map la' : mapping (words s') R la' = mapping (words s) R la' }.

Lemma pgdir_alloc_fresh s R la perm : 0 <= la < 2 ^ 38 -> machine_ok npage s R -> zero_free s -> 0 <= perm < 1024 ->
  old_page (words s) R la = None ->
  exists o s', pgdir_alloc_page npage (kva R) la perm s = Done (o, s') /\
    match o with None => no_page s s' R | Some page => fresh_page s s' R page la perm /\ zero_free s' end.
Proof.
  intros Hla Hm Hz Hperm Hold. unfold pgdir_alloc_page. destruct (Hm) as [Hok Hr Htr].
  destruct (alloc_page_run s Hok) as [Ha|(p & a1 & Ha & Hok1 & Hav & Ht & Href)]; [exists None, s; split; [by mstep Ha|by split]|].
  destruct (alloc_page_inv _ _ _ Hok Ha) as (_ & Hpm & _). cbn in Hpm. destruct (pm_given_law _ _ _ Hok Hpm) as [Hgp Hgiv].
  mstep Ha. set (s1 := mkMachine (words s) a1).
  assert (Hdp : data_page (words s) R p).
  { destruct Htr as [[_ HR] Hdir Htab _ _]. split; [by intros ->|]. split.
    - intros i Hi HD. destruct (Hdir i p Hi HD) as [[_ HDa] _]. done.
    - intros i j Hi Hj HT. destruct (Htab i j p Hi Hj HT) as [[_ HTa] _]. done. }
  assert (Hm1 : machine_ok npage s1 R).
  { split; cbn; [done|intros q [Hq _]%Ht; by apply Hr|].
    apply (tree_more npage (words s) (phys s) a1 R p Htr Hdp). intros q [Hq _]%Ht. by left. }
  assert (Hup : in_use npage a1 p) by (split; [by apply Hr|]; intros Hx%Ht; tauto).
  assert (Hq1 : quiet s s1 R).
  { split; cbn.
    - intros q [[Hqr Hqa] Hd]. split; [|done]. split; [|done]. split; [done|]. cbn. intros [? _]%Ht. done.
    - done.
    - intros Hz' q [Hq _]%Ht. cbn. rewrite (pm_alloc_ref_law _ _ _ Hok Hpm). by apply Hz'.
    - intros q _ Hg. by apply Hgiv.
    - intros q [Hq _]%Ht. done. }
  assert (Hr1 : pm_ref (phys s1) p = 0) by (cbn; rewrite (pm_alloc_ref_law _ _ _ Hok Hpm); by apply Hz).
  destruct (insert_fresh s1 R p la perm Hla Hm1 (conj Hup Hdp) Hr1 Hperm Hold) as (ret & s2 & Hrun & Hm2 & Hq2 & Hcase).
  mstep Hrun. destruct Hcase as [(-> & Hfull & Hsame)|(-> & Hr2 & Hmap)].
  - change (negb (- E_NO_MEM =? 0)) with true. cbv iota.
    destruct (qu_data _ _ _ Hq2 p (conj Hup Hdp)) as [[[Hp2 Ha2] _] _].
    destruct (qu_data _ _ _ Hq2 p (conj Hup Hdp)) as [[_ Hdp2] _].
    destruct (pm_free_law (phys s2) p (mo_pmm _ _ _ Hm2) Ha2) as (a3 & Hfr & Hok3 & Hav3 & _).
    { apply pm_full_law; [apply Hm2|done|]. by apply (qu_given _ _ _ Hq2). }
    assert (Hfree : free_page p s2 = Done (tt, mkMachine (words s2) a3)) by (unfold free_page, free_pages; by rewrite Hfr).
    mstep Hfree. exists None. eexists. split; [done|]. pose proof (quiet_trans _ _ _ _ Hq1 Hq2) as [Qd Qk _ _ Qa].
    assert (Ha3 : forall q, pm_avail a3 q -> pm_avail (phys s) q) by (intros q [Hq| ->]%Hav3; [by apply Qa|done]).
    split; cbn; [|intros q Hq|exact Qk|done|exact Hsame].
    + split; cbn; [done|intros q Hq%Ha3; by apply Hr|]. apply (tree_more npage _ _ _ _ p (mo_tree _ _ _ Hm2) Hdp2). intros q. apply Hav3.
    + destruct (Qd q Hq) as [[[Hq1r Hq1a] Hq1d] Heq]. split; [|done]. split; [|done]. split; [done|]. cbn.
      intros [Hq'| ->]%Hav3; [done|]. by destruct Hq as [[_ Hq] _].
  - change (negb (0 =? 0)) with false. cbv iota. mstep (eq_refl : get (page_ref p) s2 = Done (pm_ref (phys s2) p, s2)).
    rewrite Hr2. mstep (assert_true true s2 eq_refl). exists (Some p), s2. split; [done|]. split.
    + split; [done|by eapply quiet_trans|done| |done]. by apply (qu_data _ _ _ Hq2).
    + apply (qu_zero _ _ _ Hq2). cbn. intros q [Hq _]%Ht. rewrite (pm_alloc_ref_law _ _ _ Hok Hpm). by apply Hz.
Qed.
End data.

(** ** First fit keeps these promises *)
Definition handed_out (a : pmm) (p : Z) : Prop :=
  0 <= p /\ PageReserved (pages a p) = false /\ PageProperty (pages a p) = false /\ ~ free_set a p.

Lemma flags_clear (pg : Page) : DefaultPmm.flags pg = 0 -> PageReserved pg = false /\ PageProperty pg = false.
Proof. unfold PageReserved, PageProperty. intros ->. done. Qed.

#[local] Instance covers_dec xs i : Decision (covers xs i).
Proof.
  destruct (decide (Exists (fun b => b.1 <= i < b.1 + b.2) xs)) as [He|Hn]; [left|right].
  - apply list.Exists_exists in He as ([s k] & Hin & Hi). by exists s, k.
  - intros (s & k & Hin & Hi). apply Hn, list.Exists_exists. by exists (s, k).
Defined.

(** The whole of what one page taken changes. *)
Lemma alloc_one a xs o a' : wf a xs -> default_alloc_pages (pmm_fuel a) 1 a = Done (o, a') ->
  match o with
  | None => xs = [] /\ a' = a
  | Some p => exists ys, wf a' ys /\ covers xs p /\ ~ covers ys p /\ (forall q, covers xs q <-> covers ys q \/ q = p) /\
      DefaultPmm.flags (pages a' p) = 0 /\ DefaultPmm.page_ref (pages a' p) = 0 /\
      forall q, ~ covers xs q -> pages a' q = pages a q
  end.
Proof.
  intros Hwf Hrun. pose proof (default_alloc_run a xs 1 _ Hwf eq_refl (pmm_fuel_enough a xs Hwf)) as Hr.
  destruct (abs_alloc 1 xs) as [[p ys]|] eqn:Ha.
  - destruct Hr as (a2 & Hr & Hwf' & _ & Hcov & Hfl & Hsame). rewrite Hr in Hrun. injection Hrun as <- <-.
    exists ys. split; [done|]. destruct (Hcov p) as [Hp1 Hp2]. assert (Hp : in_range p 1 p) by (unfold in_range; lia).
    split; [by apply Hp1; right|]. split; [intros Hc; by apply (Hp2 Hc)|]. split; [intros q; destruct (Hcov q) as [-> _]; unfold in_range; assert (p <= q < p + 1 <-> q = p) by lia; tauto|].
    destruct (Hfl p Hp). split; [done|]. split; [done|]. exact Hsame.
  - rewrite Hr in Hrun. injection Hrun as <- <-. split; [|done]. destruct xs as [|[s k] xs]; [done|].
    cbn in Ha. pose proof (wf_sorted _ _ Hwf) as Hs. cbn in Hs. destruct (Z.leb_spec 1 k); [done|lia].
Qed.

Lemma free_ref a xs q : wf a xs -> covers xs q -> DefaultPmm.page_ref (pages a q) = 0.
Proof. intros Hwf (s & k & Hin & Hq). destruct (wf_block _ _ Hwf _ Hin) as (_ & _ & _ & Hr). by apply Hr. Qed.

#[export] Program Instance default_pmm_gives : PmmGives pmm := {| pm_given := handed_out |}.
Next Obligation.
  intros a p a' [xs Hwf] Hrun. destruct (alloc_one a xs _ _ Hwf Hrun) as (ys & Hwf' & Hp & Hnp & Hsub & Hfl & _ & Hsame).
  split.
  - destruct (flags_clear _ Hfl) as [H1 H2]. split; [|split; [done|split; [done|]]].
    + destruct Hp as (s & k & Hin & Hp). destruct (blocks_from_elem _ _ _ _ (wf_sorted _ _ Hwf) Hin). lia.
    + by rewrite (free_set_wf a' ys p Hwf').
  - intros q (H0 & H1 & H2 & H3). rewrite (free_set_wf a xs q Hwf) in H3. unfold handed_out. rewrite (Hsame q H3).
    split; [done|]. split; [done|]. split; [done|]. rewrite (free_set_wf a' ys q Hwf'). intros Hq. apply H3, Hsub. by left.
Qed.
Next Obligation.
  intros a p v q [xs Hwf] Hp (H0 & H1 & H2 & H3). cbn in Hp. pose proof Hp as Hp'. rewrite (free_set_wf a xs p Hwf) in Hp'.
  pose proof (wf_set_ref a xs p v Hwf Hp') as Hwf'. unfold handed_out. rewrite (free_set_wf _ xs q Hwf'), <- (free_set_wf a xs q Hwf).
  split; [done|]. cbn. unfold upd. case_decide; [by subst|done].
Qed.
Next Obligation.
  intros a o a' [xs Hwf] Hrun q. cbn. pose proof (alloc_one a xs o a' Hwf Hrun) as Ho. destruct o as [p|].
  - destruct Ho as (ys & Hwf' & Hp & Hnp & Hsub & _ & Hr & Hsame).
    destruct (decide (covers xs q)) as [Hc|Hc]; [|by rewrite Hsame]. rewrite (free_ref a xs q Hwf Hc).
    apply Hsub in Hc as [Hc| ->]; [by apply (free_ref a' ys q Hwf')|done].
  - by destruct Ho as [_ ->].
Qed.
Next Obligation.
  intros a p [xs Hwf] Hrun (H0 & H1 & H2 & H3). destruct (alloc_one a xs _ _ Hwf Hrun) as [-> _].
  exists []. split; [done|]. split; [|by left]. split; [done|]. split; [done|]. split; [done|]. split.
  - intros i Hi. assert (i = p) as -> by (unfold in_range in Hi; lia). done.
  - by intros s k ?%elem_of_nil.
Qed.
