(* ===== verification/Dtb.v ===== *)
(** * The device tree (kern/driver/dtb.c)

    The firmware leaves a flattened device tree in memory; [dtb_init] looks for the
    node that describes the physical memory.  The format is that of the device
    tree specification: [dtb_at] says when a memory holds a tree.  Memory is indexed by
    the kernel's virtual addresses; ["memory"] and ["reg"], the two literals the
    code compares with, lie at addresses the linker chose. *)
From Stdlib Require Import String.
From S2P Require Import Prelude Libs Mem Strings Printfmt StringsSpec Vmm Process.

(** [struct fdt_header]: the offsets of the fields the code reads. *)
Definition off_magic : Z := 0.
Definition off_dt_struct : Z := 8.
Definition off_dt_strings : Z := 12.

Definition FDT_BEGIN_NODE : Z := 0x1.
Definition FDT_END_NODE : Z := 0x2.
Definition FDT_PROP : Z := 0x3.
Definition FDT_NOP : Z := 0x4.
Definition FDT_END : Z := 0x9.

Definition fdt32_to_cpu (x : Z) : Z :=
  Z.lor (Z.lor (Z.lor (u32 (Z.shiftl (Z.land x 0xff) 24)) (Z.shiftl (Z.land (Z.shiftr x 8) 0xff) 16))
               (Z.shiftl (Z.land (Z.shiftr x 16) 0xff) 8))
        (Z.land (Z.shiftr x 24) 0xff).
Definition fdt64_to_cpu (x : Z) : Z :=
  Z.lor (u64 (Z.shiftl (fdt32_to_cpu (Z.land x 0xffffffff)) 32)) (fdt32_to_cpu (u32 (Z.shiftr x 32))).

(** [& ~3] on a pointer. *)
Definition align4 (a : Z) : Z := Z.land a (u64 (Z.lnot 3)).

Section dtb.
  Context (fuel : nat) (memory_str reg_str : Z).

(** [fdt32_to_cpu] of the word at a pointer. *)
Definition be32 (p : Z) : ST mem Z := get (fun m => fdt32_to_cpu (le_get m p 4)).
Definition be64 (p : Z) : ST mem Z := get (fun m => fdt64_to_cpu (le_get m p 8)).

(** One property, whose length is at [p]: the values found, or where the next token is. *)
Definition read_prop (strings_base p : Z) (in_memory_node : bool) : ST mem (Z * Z + Z) :=
  prop_len ← be32 p;
  prop_nameoff ← be32 (p + 4);
  let prop_name := u64 (strings_base + prop_nameoff) in
  let prop_data := p + 8 in
  hit ← (if in_memory_node then c ← strcmp fuel prop_name reg_str; mret ((c =? 0) && (16 <=? prop_len))
         else mret false : ST mem bool);
  if (hit : bool) then
    mem_base ← be64 prop_data;
    mem_size ← be64 (prop_data + 8);
    mret (inl (mem_base, mem_size))
  else mret (inr (align4 (u64 (u64 (prop_data + prop_len) + 3)))).

Fixpoint tokens (k : nat) (strings_base p : Z) (in_memory_node : bool) : ST mem (option (Z * Z)) :=
  match k with
  | O => no_fuel
  | S k' =>
      token ← be32 p;
      let p := p + 4 in
      if token =? FDT_BEGIN_NODE then
        n ← strlen fuel p;
        let name_len := s32 n in
        c ← strncmp p memory_str 6;
        tokens k' strings_base (align4 (u64 (u64 (p + name_len) + 4))) (if c =? 0 then true else in_memory_node)
      else if token =? FDT_END_NODE then tokens k' strings_base p false
      else if token =? FDT_PROP then
        r ← read_prop strings_base p in_memory_node;
        match r with
        | inl found => mret (Some found)
        | inr p => tokens k' strings_base p in_memory_node
        end
      else if token =? FDT_NOP then tokens k' strings_base p in_memory_node
      else mret None
  end.

(** The base and the size, [None] for -1. *)
Definition extract_memory_info (dtb_vaddr header : Z) : ST mem (option (Z * Z)) :=
  struct_offset ← be32 (header + off_dt_struct);
  strings_offset ← be32 (header + off_dt_strings);
  tokens fuel (u64 (dtb_vaddr + strings_offset)) (u64 (dtb_vaddr + struct_offset)) false.

(** [boot_dtb] is set by entry.S; [dt_ram] is the memory. *)
Record dt_state := mkDt { boot_dtb : Z; memory_base : Z; memory_size : Z; dt_ram : mem }.
Definition on_ram {X} (f : ST mem X) : ST dt_state X := fun s =>
  match f (dt_ram s) with
  | Done (x, m) => Done (x, mkDt (boot_dtb s) (memory_base s) (memory_size s) m)
  | Panicked => Panicked
  | NoFuel => NoFuel
  end.

Definition dtb_init : ST dt_state unit :=
  boot ← get boot_dtb;
  if boot =? 0 then mret tt
  else
    let dtb_vaddr := u64 (boot + PHYSICAL_MEMORY_OFFSET) in
    magic ← on_ram (be32 (dtb_vaddr + off_magic));
    if negb (magic =? 0xd00dfeed) then mret tt
    else
      o ← on_ram (extract_memory_info dtb_vaddr dtb_vaddr);
      match o with
      | Some (b, n) => modify (fun s => mkDt (boot_dtb s) b n (dt_ram s))
      | None => mret tt
      end.
End dtb.

(** ** Big-endian values *)
Definition be_get (m : mem) (a : Z) (n : nat) : Z :=
  fold_left (fun v i => v * 256 + m (a + Z.of_nat i)) (seq 0 n) 0.

Lemma lor_shift a b n : 0 <= n -> 0 <= b < 2 ^ n -> Z.lor (Z.shiftl a n) b = a * 2 ^ n + b.
Proof.
  intros Hn Hb. rewrite Z.shiftl_mul_pow2 by done. symmetry. apply Z.add_nocarry_lor.
  apply Z.bits_inj'. intros i Hi. rewrite Z.land_spec, Z.bits_0. destruct (Z.ltb_spec i n).
  - by rewrite Z.mul_pow2_bits_low.
  - replace b with (b mod 2 ^ n) by (by apply Z.mod_small). rewrite Z.mod_pow2_bits_high by lia. apply andb_false_r.
Qed.

Lemma byte_of x k : 0 <= k -> Z.land (Z.shiftr x k) 0xff = x / 2 ^ k mod 256.
Proof. intros Hk. change 0xff with (Z.ones 8). by rewrite Z.land_ones, Z.shiftr_div_pow2 by lia. Qed.

Lemma fdt32_eq x : 0 <= x < 2 ^ 32 ->
  fdt32_to_cpu x = x mod 256 * 2 ^ 24 + x / 256 mod 256 * 2 ^ 16 + x / 2 ^ 16 mod 256 * 2 ^ 8 + x / 2 ^ 24.
Proof.
  intros Hx. unfold fdt32_to_cpu. rewrite <- (Z.shiftr_0_r x) at 1. rewrite !byte_of by lia.
  rewrite u32_small by (rewrite Z.shiftl_mul_pow2 by lia; pose proof (Z.mod_pos_bound (x / 2 ^ 0) 256 eq_refl); lia).
  rewrite <- !Z.lor_assoc. change (2 ^ 0) with 1. change (2 ^ 8) with 256. rewrite Z.div_1_r.
  change (2 ^ 16) with 65536. change (2 ^ 24) with 16777216.
  pose proof (Z.mod_pos_bound x 256 eq_refl). pose proof (Z.mod_pos_bound (x / 256) 256 eq_refl).
  pose proof (Z.mod_pos_bound (x / 65536) 256 eq_refl).
  assert (Ht : x / 16777216 mod 256 = x / 16777216) by (apply Z.mod_small; Z.to_euclidean_division_equations; lia).
  assert (0 <= x / 16777216 < 256) by (rewrite <- Ht; by apply Z.mod_pos_bound).
  rewrite Ht, (lor_shift (x / 65536 mod 256) _ 8), (lor_shift (x / 256 mod 256) _ 16), lor_shift
    by (change (2 ^ 24) with 16777216; change (2 ^ 16) with 65536; change (2 ^ 8) with 256; lia).
  change (2 ^ 24) with 16777216. change (2 ^ 16) with 65536. change (2 ^ 8) with 256. lia.
Qed.

Lemma low_byte b r : 0 <= b < 256 -> (b + 256 * r) mod 256 = b /\ (b + 256 * r) / 256 = r.
Proof. intros Hb. Z.to_euclidean_division_equations. lia. Qed.

Lemma fdt32_be m a : bytes_ok m -> fdt32_to_cpu (le_get m a 4) = be_get m a 4.
Proof.
  intros Hm. rewrite fdt32_eq by (apply le_get_range, Hm).
  change (2 ^ 24) with (256 * (256 * 256)). change (2 ^ 16) with (256 * 256). change (2 ^ 8) with 256.
  rewrite <- !Z.div_div by lia. cbn -[Z.mul Z.add]. rewrite Z.add_0_r, Z.mul_0_l, Z.add_0_l.
  replace (a + 1 + 1) with (a + 2) by lia. replace (a + 2 + 1) with (a + 3) by lia.
  repeat match goal with |- context [(m ?x + 256 * ?r) mod 256] =>
    rewrite (proj1 (low_byte (m x) r (Hm x))), ?(proj2 (low_byte (m x) r (Hm x))) end.
  change (Z.of_nat 0) with 0. change (Z.of_nat 1) with 1. change (Z.of_nat 2) with 2. change (Z.of_nat 3) with 3. rewrite Z.add_0_r. lia.
Qed.

Lemma le_get_8 m a : le_get m a 8 = le_get m a 4 + 2 ^ 32 * le_get m (a + 4) 4.
Proof.
  cbn -[Z.mul Z.add Z.pow]. rewrite !Z.add_0_r.
  repeat match goal with |- context [?x + ?k + 1] =>
    let k' := eval compute in (k + 1) in replace (x + k + 1) with (x + k') by lia end.
  change (2 ^ 32) with (256 * (256 * (256 * 256))). ring.
Qed.

Lemma be_get_8 m a : be_get m a 8 = be_get m a 4 * 2 ^ 32 + be_get m (a + 4) 4.
Proof.
  unfold be_get. cbn [seq fold_left].
  replace (a + 4 + Z.of_nat 0) with (a + Z.of_nat 4) by lia. replace (a + 4 + Z.of_nat 1) with (a + Z.of_nat 5) by lia.
  replace (a + 4 + Z.of_nat 2) with (a + Z.of_nat 6) by lia. replace (a + 4 + Z.of_nat 3) with (a + Z.of_nat 7) by lia.
  change (2 ^ 32) with (256 * (256 * (256 * 256))). ring.
Qed.

Lemma fdt64_be m a : bytes_ok m -> fdt64_to_cpu (le_get m a 8) = be_get m a 8.
Proof.
  intros Hm. pose proof (le_get_range m a 4 Hm) as Hl. pose proof (le_get_range m (a + 4) 4 Hm) as Hh.
  change (256 ^ Z.of_nat 4) with (2 ^ 32) in *. unfold fdt64_to_cpu. change 0xffffffff with (Z.ones 32).
  rewrite Z.land_ones, Z.shiftr_div_pow2, le_get_8 by lia.
  replace ((le_get m a 4 + 2 ^ 32 * le_get m (a + 4) 4) mod 2 ^ 32) with (le_get m a 4) by (Z.to_euclidean_division_equations; lia).
  replace ((le_get m a 4 + 2 ^ 32 * le_get m (a + 4) 4) / 2 ^ 32) with (le_get m (a + 4) 4) by (Z.to_euclidean_division_equations; lia).
  rewrite u32_small, !fdt32_be, be_get_8 by done.
  assert (Hb : forall x, 0 <= be_get m x 4 < 2 ^ 32).
  { intros x. unfold be_get. cbn [seq fold_left]. pose proof (Hm (x + Z.of_nat 0)). pose proof (Hm (x + Z.of_nat 1)).
    pose proof (Hm (x + Z.of_nat 2)). pose proof (Hm (x + Z.of_nat 3)). change (2 ^ 32) with 4294967296. lia. }
  pose proof (Hb a). pose proof (Hb (a + 4)). rewrite u64_small by (rewrite Z.shiftl_mul_pow2 by lia; lia).
  by apply lor_shift.
Qed.

(** ** The comparisons of strings *)
Definition nonzero (l : list Z) : Prop := Forall (fun c => 0 < c < 256) l.
Definition string_at (m : mem) (a : Z) (l : list Z) : Prop := nonzero l /\ bytes_at m a (l ++ [0]).

Lemma string_cons m a c l : string_at m a (c :: l) -> m a = c /\ 0 < c < 256 /\ string_at m (a + 1) l.
Proof. intros [Hn [Hc Hb]]. apply Forall_cons in Hn as [Hc' Hn]. done. Qed.
Lemma string_nil m a : string_at m a [] -> m a = 0.
Proof. by intros [_ [H _]]. Qed.
Lemma string_end m a l : string_at m a l -> (m a = 0 <-> l = []).
Proof.
  destruct l as [|c l]; intros Hs; [by rewrite (string_nil _ _ Hs)|].
  destruct (string_cons _ _ _ _ Hs) as (-> & Hc & _). split; [lia|done].
Qed.

Lemma strlen_run (m : mem) : forall l k a cnt, string_at m a l -> (length l < k)%nat ->
  0 <= cnt -> cnt + Z.of_nat (length l) < 2 ^ 64 -> strlen_loop k a cnt m = Done (cnt + Z.of_nat (length l), m).
Proof.
  induction l as [|c l IH]; intros [|k] a cnt Hs Hk Hc Hb; try (cbn in Hk; lia); cbn [strlen_loop];
    mstep (eq_refl : peek a m = Done (m a, m)).
  - rewrite (string_nil _ _ Hs). cbn. by rewrite Z.add_0_r.
  - destruct (string_cons _ _ _ _ Hs) as (-> & Hcr & Hs'). rewrite (proj2 (Z.eqb_neq c 0)) by lia. cbn [negb].
    cbn [length] in *. rewrite u64_small by lia. rewrite IH by (done || lia). do 2 f_equal. lia.
Qed.

Lemma strcmp_run (m : mem) : forall l2 l1 k a b, string_at m a l1 -> string_at m b l2 -> (length l2 < k)%nat ->
  exists z, strcmp_loop k a b m = Done (z, m) /\ (z = 0 <-> l1 = l2).
Proof.
  induction l2 as [|y l2 IH]; intros l1 [|k] a b H1 H2 Hk; try (cbn in Hk; lia); cbn [strcmp_loop];
    mstep (eq_refl : peek a m = Done (m a, m)); mstep (eq_refl : peek b m = Done (m b, m)).
  - rewrite (string_nil _ _ H2). exists (m a). split.
    + rewrite andb_comm. destruct (Z.eqb_spec (m a) 0) as [E|E]; cbn; by rewrite Z.sub_0_r.
    + by apply string_end.
  - destruct (string_cons _ _ _ _ H2) as (-> & Hy & H2'). destruct l1 as [|x l1].
    + rewrite (string_nil _ _ H1). cbn. eexists. split; [done|]. split; [lia|done].
    + destruct (string_cons _ _ _ _ H1) as (-> & Hx & H1'). rewrite (proj2 (Z.eqb_neq x 0)) by lia. cbn [negb andb].
      destruct (Z.eqb_spec x y) as [->|Hne].
      * cbn [length] in Hk. destruct (IH l1 k (a + 1) (b + 1) H1' H2' ltac:(lia)) as (z & Hz & Hiff). exists z.
        split; [done|]. rewrite Hiff. split; [by intros ->|by intros [= ->]].
      * eexists. split; [done|]. split; [lia|by intros [= -> _]].
Qed.

Lemma strncmp_run (m : mem) : forall l2 l1 a b, string_at m a l1 -> nonzero l2 -> bytes_at m b l2 ->
  exists z, strncmp_loop (length l2) a b m = Done (z, m) /\ (z = 0 <-> l2 `prefix_of` l1).
Proof.
  induction l2 as [|y l2 IH]; intros l1 a b H1 Hn H2; cbn [strncmp_loop length].
  { exists 0. split; [done|]. split; [intros _; apply prefix_nil|done]. }
  mstep (eq_refl : peek a m = Done (m a, m)); mstep (eq_refl : peek b m = Done (m b, m)).
  destruct H2 as [-> H2]. apply Forall_cons in Hn as [Hy Hn]. destruct l1 as [|x l1].
  - rewrite (string_nil _ _ H1). cbn. eexists. split; [done|]. split; [lia|by intros ?%prefix_nil_not].
  - destruct (string_cons _ _ _ _ H1) as (-> & Hx & H1'). rewrite (proj2 (Z.eqb_neq x 0)) by lia. cbn [negb andb].
    destruct (Z.eqb_spec x y) as [->|Hne].
    + destruct (IH l1 (a + 1) (b + 1) H1' Hn H2) as (z & Hz & Hiff). exists z. split; [done|]. rewrite Hiff.
      split; [apply prefix_cons|by intros ?%prefix_cons_inv_2].
    + eexists. split; [done|]. split; [lia|by intros ?%prefix_cons_inv_1].
Qed.

(** ** The format *)
Inductive node := Node (name : list Z) (props : list (list Z * list Z)) (subs : list node).
(** What the structure block is made of. *)
Inductive item := INode (name : list Z) | IEnd | IProp (name data : list Z) | INop.

Fixpoint flatten (t : node) : list item :=
  match t with
  | Node name props subs => INode name :: map (fun p => IProp p.1 p.2) props ++ flat_map flatten subs ++ [IEnd]
  end.

Definition pad (n : Z) : Z := (n + 3) / 4 * 4.
Definition item_size (i : item) : Z :=
  match i with
  | INode name => 4 + pad (Z.of_nat (length name) + 1)
  | IProp _ data => 12 + pad (Z.of_nat (length data))
  | IEnd | INop => 4
  end.
Definition item_at (m : mem) (strs p : Z) (i : item) : Prop :=
  match i with
  | INode name => be_get m p 4 = FDT_BEGIN_NODE /\ string_at m (p + 4) name /\ Z.of_nat (length name) < 2 ^ 31
  | IEnd => be_get m p 4 = FDT_END_NODE
  | IProp name data =>
      be_get m p 4 = FDT_PROP /\ be_get m (p + 4) 4 = Z.of_nat (length data) /\
      (strs + be_get m (p + 8) 4 < 2 ^ 64 /\ string_at m (strs + be_get m (p + 8) 4) name) /\ bytes_at m (p + 12) data
  | INop => be_get m p 4 = FDT_NOP
  end.
Fixpoint items_at (m : mem) (strs p : Z) (l : list item) : Prop :=
  match l with
  | [] => be_get m p 4 = FDT_END /\ p + 4 < 2 ^ 64
  | i :: l' => item_at m strs p i /\ items_at m strs (p + item_size i) l'
  end.

(** ** What the code looks for *)
Definition memory_name : list Z := text "memory".
Definition reg_name : list Z := text "reg".
Definition be_bytes (l : list Z) : Z := fold_left (fun v b => v * 256 + b) l 0.
Definition is_reg (p : list Z * list Z) : bool := bool_decide (p.1 = reg_name) && (16 <=? Z.of_nat (length p.2)).
Definition reg_values (data : list Z) : Z * Z := (be_bytes (take 8 data), be_bytes (take 8 (drop 8 data))).
Definition reg_of (props : list (list Z * list Z)) : option (Z * Z) :=
  (fun p => reg_values p.2) <$> List.find is_reg props.

(** The first node in order that is a memory node with such a property. *)
Fixpoint memory_of (t : node) : option (Z * Z) :=
  match t with
  | Node name props subs =>
      match (if bool_decide (memory_name `prefix_of` name) then reg_of props else None) with
      | Some r => Some r
      | None => (fix first l := match l with [] => None | x :: l' => match memory_of x with Some r => Some r | None => first l' end end) subs
      end
  end.
(** Memory nodes have no nodes below them. *)
Fixpoint memory_leaves (t : node) : bool :=
  match t with
  | Node name _ subs =>
      (negb (bool_decide (memory_name `prefix_of` name)) || match subs with [] => true | _ => false end) &&
      forallb memory_leaves subs
  end.

(** The walk over the tokens, with the flag of the code. *)
Fixpoint scan (inside : bool) (l : list item) : option (Z * Z) :=
  match l with
  | [] => None
  | INode name :: l' => scan (if bool_decide (memory_name `prefix_of` name) then true else inside) l'
  | IEnd :: l' => scan false l'
  | IProp name data :: l' => if inside && is_reg (name, data) then Some (reg_values data) else scan inside l'
  | INop :: l' => scan inside l'
  end.

Lemma bytes_at_nth m : forall l a i, bytes_at m a l -> (i < length l)%nat -> m (a + Z.of_nat i) = nth i l 0.
Proof.
  induction l as [|c l IH]; intros a i Hb Hi; [cbn in Hi; lia|]. destruct Hb as [Hc Hb]. destruct i as [|i]; cbn [nth].
  - by rewrite Z.add_0_r.
  - cbn [length] in Hi. replace (a + Z.of_nat (S i)) with (a + 1 + Z.of_nat i) by lia. apply IH; [done|lia].
Qed.

Lemma be_get_bytes m a l n : bytes_at m a l -> (n <= length l)%nat -> be_get m a n = be_bytes (take n l).
Proof.
  intros Hb. unfold be_get, be_bytes. induction n as [|n IH]; intros Hn; [done|].
  destruct (lookup_lt_is_Some_2 l n ltac:(lia)) as [c Hc].
  rewrite (take_S_r _ _ _ Hc), seq_S, !fold_left_app, <- IH by lia. cbn [fold_left].
  rewrite (bytes_at_nth m l a _ Hb) by lia. by rewrite (nth_lookup_Some _ _ _ _ Hc).
Qed.

Lemma bytes_at_drop m : forall n l a, (n <= length l)%nat -> bytes_at m a l -> bytes_at m (a + Z.of_nat n) (drop n l).
Proof.
  induction n as [|n IH]; intros l a Hn Hb; [by rewrite Z.add_0_r|]. destruct l as [|c l]; [cbn in Hn; lia|].
  destruct Hb as [_ Hb]. cbn [length] in Hn. cbn [drop]. replace (a + Z.of_nat (S n)) with (a + 1 + Z.of_nat n) by lia.
  apply IH; [lia|done].
Qed.

Lemma align4_eq a : 0 <= a < 2 ^ 64 -> align4 a = a / 4 * 4.
Proof.
  intros Ha. unfold align4. change (u64 (Z.lnot 3)) with (Z.shiftl (Z.ones 62) 2).
  apply Z.bits_inj'. intros i Hi. rewrite Z.land_spec, Z.shiftl_spec by done. change 4 with (2 ^ 2). destruct (Z.ltb_spec i 2).
  - rewrite Z.mul_pow2_bits_low, (Z.testbit_neg_r (Z.ones 62)) by lia. apply andb_false_r.
  - rewrite Z.mul_pow2_bits, Z.div_pow2_bits, Z.testbit_ones by lia. replace (i - 2 + 2) with i by lia.
    rewrite (proj2 (Z.leb_le 0 (i - 2))) by lia. destruct (Z.ltb_spec (i - 2) 62); cbn [andb]; [apply andb_true_r|].
    rewrite andb_false_r. symmetry. destruct (decide (a = 0)) as [->|]; [apply Z.bits_0|].
    apply Z.bits_above_log2; [lia|]. apply Z.log2_lt_pow2; [lia|]. assert (2 ^ 64 <= 2 ^ i) by (apply Z.pow_le_mono_r; lia). lia.
Qed.

Lemma pad_range n : 0 <= n -> n <= pad n < n + 4 /\ pad n mod 4 = 0.
Proof. intros Hn. unfold pad. Z.to_euclidean_division_equations. lia. Qed.

Lemma align_pad p n : p mod 4 = 0 -> 0 <= p -> 0 <= n -> p + n + 3 < 2 ^ 64 -> align4 (p + n + 3) = p + pad n.
Proof. intros Hp H0 Hn Hb. rewrite align4_eq by lia. unfold pad. Z.to_euclidean_division_equations. lia. Qed.

Lemma items_top m strs : forall l p, items_at m strs p l -> p + 4 < 2 ^ 64.
Proof.
  induction l as [|i l IH]; intros p; [by intros [_ H]|]. cbn [items_at]. intros [_ H%IH].
  enough (0 <= item_size i) by lia. destruct i as [nm| |nm d|]; cbn; try lia.
  - pose proof (pad_range (Z.of_nat (length nm) + 1)). lia.
  - pose proof (pad_range (Z.of_nat (length d))). lia.
Qed.

Section reading.
  Context (fuel : nat) (memory_str reg_str : Z) (m : mem).
  Hypothesis Hm : bytes_ok m.
  Hypothesis Hmemory : string_at m memory_str memory_name.
  Hypothesis Hreg : string_at m reg_str reg_name.
  Hypothesis Hfuel : (3 < fuel)%nat.
#[local] Arguments pad : simpl never.
#[local] Arguments be_get : simpl never.

Lemma be32_run p : be32 p m = Done (be_get m p 4, m).
Proof. unfold be32, get. by rewrite fdt32_be. Qed.
Lemma be64_run p : be64 p m = Done (be_get m p 8, m).
Proof. unfold be64, get. by rewrite fdt64_be. Qed.

Lemma read_prop_run strs p name data inside : item_at m strs p (IProp name data) ->
  p mod 4 = 0 -> 0 <= p -> 0 <= strs -> p + item_size (IProp name data) + 4 < 2 ^ 64 ->
  read_prop fuel reg_str strs (p + 4) inside m =
  Done (if inside && is_reg (name, data) then inl (reg_values data) else inr (p + item_size (IProp name data)), m).
Proof.
  intros (_ & Hlen & [Hstr Hname] & Hdata) Hp H0 Hs0 Hb. cbn [item_size] in *.
  pose proof (pad_range (Z.of_nat (length data)) ltac:(lia)) as [Hpad _].
  assert (Hoff : 0 <= be_get m (p + 8) 4).
  { rewrite <- fdt32_be by done. rewrite fdt32_eq by (apply le_get_range, Hm). pose proof (le_get_range m (p + 8) 4 Hm) as Hr.
    change (256 ^ Z.of_nat 4) with (2 ^ 32) in Hr. Z.to_euclidean_division_equations. lia. }
  unfold read_prop. mstep (be32_run (p + 4)). replace (p + 4 + 4) with (p + 8) by lia. mstep (be32_run (p + 8)).
  rewrite (u64_small (strs + _)), Hlen by lia.
  assert (Hgo : align4 (u64 (u64 (p + 4 + 8 + Z.of_nat (length data)) + 3)) = p + (12 + pad (Z.of_nat (length data)))).
  { rewrite (u64_small (p + 4 + 8 + _)), u64_small by lia. replace (p + 4 + 8) with (p + 12) by lia.
    rewrite align_pad; [lia| |lia..]. Z.to_euclidean_division_equations. lia. }
  destruct inside; cbn [andb].
  2: { rewrite (bind_Done _ _ m false m eq_refl). cbn. by rewrite Hgo. }
  destruct (strcmp_run m reg_name name fuel _ reg_str Hname Hreg) as (z & Hz & Hiff); [done|].
  fold (strcmp fuel (strs + be_get m (p + 8) 4) reg_str) in Hz.
  rewrite (bind_Done _ _ m ((z =? 0) && (16 <=? Z.of_nat (length data))) m) by (mstep Hz; done).
  assert (E : (z =? 0) = bool_decide (name = reg_name)) by (case_bool_decide; [apply Z.eqb_eq|apply Z.eqb_neq]; tauto).
  unfold is_reg. cbn [fst snd]. rewrite E. destruct (bool_decide (name = reg_name)) eqn:En; cbn [andb]; [|by rewrite Hgo].
  destruct (Z.leb_spec 16 (Z.of_nat (length data))); [|by rewrite Hgo].
  mstep (be64_run (p + 4 + 8)). mstep (be64_run (p + 4 + 8 + 8)). replace (p + 4 + 8) with (p + 12) by lia.
  rewrite (be_get_bytes m (p + 12) data 8 Hdata) by lia.
  rewrite (be_get_bytes m (p + 12 + 8) (drop 8 data) 8 (bytes_at_drop m 8 data (p + 12) ltac:(lia) Hdata)) by (rewrite length_drop; lia).
  done.
Qed.

Lemma node_name_run p name inside : string_at m p name -> Z.of_nat (length name) < 2 ^ 31 -> (length name < fuel)%nat ->
  exists c, (n ← strlen fuel p; c ← strncmp p memory_str 6; mret (s32 n, c)) m = Done ((Z.of_nat (length name), c), m) /\
    (if c =? 0 then true else inside) = (if bool_decide (memory_name `prefix_of` name) then true else inside).
Proof.
  intros Hs Hl Hf.
  destruct (strncmp_run m memory_name name p memory_str Hs (proj1 Hmemory)) as (c & Hc & Hiff).
  { destruct Hmemory as [_ Hb]. revert Hb. generalize memory_str. generalize memory_name. clear. intros l. induction l as [|x l IH]; [done|].
    intros a [Ha Hb]. split; [done|by apply IH]. }
  exists c. split.
  - mstep (strlen_run m name fuel p 0 Hs Hf ltac:(lia) ltac:(lia)).
    change (strncmp p memory_str 6) with (strncmp_loop (length memory_name) p memory_str). mstep Hc.
    cbn. by rewrite s32_small by lia.
  - destruct (Z.eqb_spec c 0) as [E|E]; [rewrite bool_decide_eq_true_2 by tauto|rewrite bool_decide_eq_false_2 by tauto]; done.
Qed.

Definition name_fits (i : item) : Prop := match i with INode name => (length name < fuel)%nat | _ => True end.

Lemma tokens_run strs : 0 <= strs -> forall l k p inside, items_at m strs p l -> p mod 4 = 0 -> 0 <= p ->
  Forall name_fits l -> (length l < k)%nat ->
  tokens fuel memory_str reg_str k strs p inside m = Done (scan inside l, m).
Proof.
  intros Hs0. induction l as [|i l IH]; intros [|k] p inside Hi Hp H0 Hn Hk; try (cbn in Hk; lia); cbn [tokens]; mstep (be32_run p).
  { destruct Hi as [-> _]. done. }
  destruct Hi as [Hi Hl]. pose proof (items_top _ _ _ _ Hl) as Htop. apply Forall_cons in Hn as [Hf Hn]. cbn [length] in Hk.
  destruct i as [name| |name data|].
  - destruct Hi as (Htok & Hname & Hlen). rewrite Htok. cbn [Z.eqb Pos.eqb FDT_BEGIN_NODE]. cbn [item_size scan] in *.
    pose proof (pad_range (Z.of_nat (length name) + 1) ltac:(lia)) as [Hpad Hpm].
    destruct (node_name_run (p + 4) name inside Hname Hlen Hf) as (c & Hc & Hflag).
    apply bind_Done_inv in Hc as (n & m1 & H1 & H2). apply bind_Done_inv in H2 as (c' & m2 & H2 & H3). injection H3 as Hn32 -> ->.
    rewrite (bind_Done _ _ _ _ _ H1). cbv zeta. rewrite (bind_Done _ _ _ _ _ H2), Hn32, Hflag.
    assert (Hm1 : m1 = m). { pose proof (strlen_run m name fuel (p + 4) 0 Hname Hf ltac:(lia) ltac:(lia)) as Hs. unfold strlen in H1. congruence. }
    rewrite (u64_small (p + 4 + _)), u64_small by lia.
    replace (p + 4 + Z.of_nat (length name) + 4) with (p + 4 + (Z.of_nat (length name) + 1) + 3) by lia.
    rewrite align_pad by (Z.to_euclidean_division_equations; lia).
    replace (p + 4 + pad (Z.of_nat (length name) + 1)) with (p + (4 + pad (Z.of_nat (length name) + 1))) by lia.
    apply IH; [done|Z.to_euclidean_division_equations; lia|lia|done|lia].
  - rewrite Hi. cbn [Z.eqb Pos.eqb FDT_BEGIN_NODE FDT_END_NODE]. cbn [item_size scan] in *. apply IH; [done|Z.to_euclidean_division_equations; lia|lia|done|lia].
  - rewrite (proj1 Hi). cbn [Z.eqb Pos.eqb FDT_BEGIN_NODE FDT_END_NODE FDT_PROP].
    rewrite (bind_Done _ _ _ _ _ (read_prop_run strs p name data inside Hi Hp H0 Hs0 Htop)).
    cbn [scan]. destruct (inside && is_reg (name, data)); [done|].
    cbn [item_size] in *. pose proof (pad_range (Z.of_nat (length data)) ltac:(lia)) as [Hpad Hpm].
    apply IH; [done|Z.to_euclidean_division_equations; lia|lia|done|lia].
  - rewrite Hi. cbn [Z.eqb Pos.eqb FDT_BEGIN_NODE FDT_END_NODE FDT_PROP FDT_NOP]. cbn [item_size scan] in *. apply IH; [done|Z.to_euclidean_division_equations; lia|lia|done|lia].
Qed.
End reading.

(** ** The walk and the tree *)
Definition kept (i : item) : bool := match i with INop => false | _ => true end.
Lemma scan_nops : forall l inside, scan inside (List.filter kept l) = scan inside l.
Proof.
  induction l as [|[name| |name data|] l IH]; intros inside; cbn; try apply IH; [done|].
  destruct (inside && is_reg (name, data)); [done|apply IH].
Qed.

Lemma scan_props inside rest : forall props, scan inside (map (fun p => IProp p.1 p.2) props ++ rest) =
  match (if inside then reg_of props else None) with Some r => Some r | None => scan inside rest end.
Proof.
  induction props as [|[n d] props IH]; [by destruct inside|]. cbn [map app scan fst snd]. rewrite IH. unfold reg_of.
  destruct inside; cbn [andb List.find]; [|done]. by destruct (is_reg (n, d)).
Qed.

Lemma scan_tree : forall t rest, memory_leaves t = true ->
  scan false (flatten t ++ rest) = match memory_of t with Some r => Some r | None => scan false rest end.
Proof.
  fix IH 1. intros [name props subs] rest Hl. cbn [memory_leaves] in Hl. apply andb_true_iff in Hl as [Hleaf Hsubs].
  assert (Hgo : forall rest, scan false (flat_map flatten subs ++ rest) =
    match (fix first l := match l with [] => None | x :: l' => match memory_of x with Some r => Some r | None => first l' end end) subs with
    | Some r => Some r | None => scan false rest end).
  { clear Hleaf. revert Hsubs. generalize subs. fix IHl 1. intros [|x l] Hl rest'; [done|]. cbn [forallb] in Hl. apply andb_true_iff in Hl as [Hx Hl].
    cbn [flat_map]. rewrite <- app_assoc, (IH x _ Hx). destruct (memory_of x); [done|]. by apply (IHl l). }
  cbn [flatten memory_of app scan]. rewrite <- app_assoc, scan_props. rewrite <- app_assoc.
  destruct (bool_decide (memory_name `prefix_of` name)).
  - cbn [negb orb] in Hleaf. destruct subs; [|done]. by destruct (reg_of props).
  - rewrite Hgo. done.
Qed.

(** [m] holds the tree [t] at [a], with the tokens [l]. *)
Record dtb_at (m : mem) (a : Z) (t : node) (l : list item) : Prop := mkDtbAt {
  da_magic : be_get m (a + off_magic) 4 = 0xd00dfeed;
  da_align : (a + be_get m (a + off_dt_struct) 4) mod 4 = 0;
  da_strings : a + be_get m (a + off_dt_strings) 4 < 2 ^ 64;
  da_items : items_at m (a + be_get m (a + off_dt_strings) 4) (a + be_get m (a + off_dt_struct) 4) l;
  da_tree : List.filter kept l = flatten t }.

Lemma be_get_nonneg m p : bytes_ok m -> 0 <= be_get m p 4.
Proof.
  intros Hm. unfold be_get. cbn [seq fold_left]. pose proof (Hm (p + Z.of_nat 0)). pose proof (Hm (p + Z.of_nat 1)).
  pose proof (Hm (p + Z.of_nat 2)). pose proof (Hm (p + Z.of_nat 3)). lia.
Qed.

Lemma on_ram_run {X} (f : ST mem X) x s : f (dt_ram s) = Done (x, dt_ram s) -> on_ram f s = Done (x, s).
Proof. unfold on_ram. intros ->. by destruct s. Qed.

Section init.
  Context (fuel : nat) (memory_str reg_str : Z) (s : dt_state).
  Hypothesis Hm : bytes_ok (dt_ram s).
  Hypothesis Hmemory : string_at (dt_ram s) memory_str memory_name.
  Hypothesis Hreg : string_at (dt_ram s) reg_str reg_name.
  Hypothesis Hfuel : (3 < fuel)%nat.
#[local] Arguments be_get : simpl never.

Lemma dtb_init_run t l : 0 < boot_dtb s -> dtb_at (dt_ram s) (boot_dtb s + PHYSICAL_MEMORY_OFFSET) t l -> memory_leaves t = true ->
  Forall (name_fits fuel) l -> (length l < fuel)%nat ->
  dtb_init fuel memory_str reg_str s =
  Done (tt, match memory_of t with Some (b, n) => mkDt (boot_dtb s) b n (dt_ram s) | None => s end).
Proof.
  intros Hboot [Hmagic Halign Hstrs Hitems Htree] Hleaves Hfits Hlen. set (a := boot_dtb s + PHYSICAL_MEMORY_OFFSET) in *.
  pose proof (be_get_nonneg (dt_ram s) (a + off_dt_struct) Hm) as H1. pose proof (be_get_nonneg (dt_ram s) (a + off_dt_strings) Hm) as H2.
  pose proof (items_top _ _ _ _ Hitems) as Htop. assert (Ha : 0 <= a) by (unfold a, PHYSICAL_MEMORY_OFFSET; lia).
  unfold dtb_init. mstep (eq_refl : get boot_dtb s = Done (boot_dtb s, s)). rewrite (proj2 (Z.eqb_neq _ _)) by lia. cbv zeta.
  fold a. rewrite (u64_small a) by lia.
  mstep (on_ram_run _ _ s (be32_run (dt_ram s) Hm (a + off_magic))). rewrite Hmagic. cbn [Z.eqb Pos.eqb negb].
  assert (Hex : extract_memory_info fuel memory_str reg_str a a (dt_ram s) = Done (memory_of t, dt_ram s)).
  { unfold extract_memory_info. mstep (be32_run (dt_ram s) Hm (a + off_dt_struct)). mstep (be32_run (dt_ram s) Hm (a + off_dt_strings)).
    rewrite !u64_small by lia.
    rewrite (tokens_run fuel memory_str reg_str (dt_ram s) Hm Hmemory Hreg Hfuel _ (Z.add_nonneg_nonneg _ _ Ha H2) l fuel _ false Hitems Halign
      (Z.add_nonneg_nonneg _ _ Ha H1) Hfits Hlen).
    do 2 f_equal. rewrite <- scan_nops, Htree, <- (app_nil_r (flatten t)), scan_tree by done. by destruct (memory_of t). }
  mstep (on_ram_run _ _ s Hex). by destruct (memory_of t) as [[b n]|].
Qed.
End init.

(** C23 On a memory that holds a device tree in the flattened format, [dtb_init] ends and
    saves the base and the size of the first memory node that has a [reg] property with both (a
    node counts as one when its name starts with "memory"), whatever the other
    nodes, properties and padding tokens are, as long as memory nodes have no
    nodes below them; when the tree has none, or there is no tree, nothing is saved.  Enough fuel
    is more than the number of tokens and the length of every name. *)
Theorem dtb_init_finds_memory fuel memory_str reg_str (s : dt_state) : bytes_ok (dt_ram s) ->
  string_at (dt_ram s) memory_str memory_name -> string_at (dt_ram s) reg_str reg_name -> (3 < fuel)%nat -> 0 <= boot_dtb s ->
  (forall t l, 0 < boot_dtb s -> dtb_at (dt_ram s) (boot_dtb s + PHYSICAL_MEMORY_OFFSET) t l -> memory_leaves t = true ->
     Forall (name_fits fuel) l -> (length l < fuel)%nat ->
     dtb_init fuel memory_str reg_str s =
     Done (tt, match memory_of t with Some (b, n) => mkDt (boot_dtb s) b n (dt_ram s) | None => s end)) /\
  (boot_dtb s + PHYSICAL_MEMORY_OFFSET < 2 ^ 64 ->
   boot_dtb s = 0 \/ be_get (dt_ram s) (boot_dtb s + PHYSICAL_MEMORY_OFFSET + off_magic) 4 <> 0xd00dfeed ->
   dtb_init fuel memory_str reg_str s = Done (tt, s)).
Proof.
  intros Hm Hmemory Hreg Hfuel Hboot. split.
  - intros t l H0 Hat Hl Hn Hlen. by apply dtb_init_run with l.
  - intros Hb Hbad. unfold dtb_init. mstep (eq_refl : get boot_dtb s = Done (boot_dtb s, s)).
    destruct (Z.eqb_spec (boot_dtb s) 0) as [|Hne]; [done|]. destruct Hbad as [|Hbad]; [done|]. cbv zeta.
    rewrite u64_small by (unfold PHYSICAL_MEMORY_OFFSET in *; lia).
    mstep (on_ram_run _ _ s (be32_run (dt_ram s) Hm (boot_dtb s + PHYSICAL_MEMORY_OFFSET + off_magic))).
    by rewrite (proj2 (Z.eqb_neq _ _) Hbad).
Qed.

(** ** A tree with 128 MB of memory at 0x80000000 *)
Definition be_put (n : nat) (v : Z) : list Z := map (fun i => v / 2 ^ (8 * Z.of_nat i) mod 256) (rev (seq 0 n)).
Definition words_of (l : list Z) : list Z := flat_map (be_put 4) l.
Definition qemu_tree : node :=
  Node [] [(text "compatible", [118; 105; 114; 116; 0])]
    [Node (text "memory@80000000") [(text "device_type", text "memory" ++ [0]); (reg_name, be_put 8 0x80000000 ++ be_put 8 0x8000000)] [];
     Node (text "chosen") [] []].
Definition qemu_struct : list Z :=
  words_of [1; 0; 3; 5; 0] ++ [118; 105; 114; 116; 0; 0; 0; 0] ++ words_of [4; 1] ++ text "memory@80000000" ++ [0] ++
  words_of [3; 7; 11] ++ text "memory" ++ [0; 0] ++ words_of [3; 16; 23] ++ be_put 8 0x80000000 ++ be_put 8 0x8000000 ++
  words_of [2; 1] ++ text "chosen" ++ [0; 0] ++ words_of [2; 2; 9].
Definition qemu_strings : list Z := text "compatible" ++ [0] ++ text "device_type" ++ [0] ++ reg_name ++ [0].
(** The blob and, behind it, the two literals. *)
Definition qemu_blob : list Z :=
  words_of [0xd00dfeed; 300; 40; 200; 16; 17; 16; 0; 28; 160] ++ qemu_struct ++ repeat 0 (160 - length qemu_struct) ++ qemu_strings ++
  memory_name ++ [0] ++ reg_name ++ [0].
Definition qemu_dtb : Z := 0x82200000.
Definition qemu_mem : mem := fun a => nth (Z.to_nat (a - (qemu_dtb + PHYSICAL_MEMORY_OFFSET))) qemu_blob 0.
Definition qemu_state : dt_state := mkDt qemu_dtb 0 0 qemu_mem.
Definition qemu_items : list item :=
  match flatten qemu_tree with r :: p :: l => r :: p :: INop :: l | l => l end.
Definition qemu_literal (i : Z) : Z := qemu_dtb + PHYSICAL_MEMORY_OFFSET + 200 + Z.of_nat (length qemu_strings) + i.

Ltac compute_layout := vm_compute; repeat (split || constructor || (intros; discriminate)).
Lemma qemu_ok : bytes_ok qemu_mem.
Proof.
  intros a. unfold qemu_mem. assert (Hb : Forall (fun c => 0 <= c < 256) qemu_blob).
  { apply (Forall_impl (fun c => Is_true ((0 <=? c) && (c <? 256)))); [|intros c H%Is_true_eq_true%andb_true_iff; lia].
    apply forallb_True. vm_compute. exact I. }
  destruct (nth_in_or_default (Z.to_nat (a - (qemu_dtb + PHYSICAL_MEMORY_OFFSET))) qemu_blob 0) as [Hin| ->]; [|lia].
  apply list_elem_of_In in Hin. by apply (proj1 (Forall_forall _ _) Hb).
Qed.
Lemma qemu_literals : string_at qemu_mem (qemu_literal 0) memory_name /\ string_at qemu_mem (qemu_literal 7) reg_name.
Proof. compute_layout. Qed.
Lemma qemu_at : dtb_at qemu_mem (qemu_dtb + PHYSICAL_MEMORY_OFFSET) qemu_tree qemu_items.
Proof. split; [by vm_compute..| |by vm_compute]. compute_layout. Qed.

Lemma dtb_init_finds_memory_witness :
  dtb_init 20 (qemu_literal 0) (qemu_literal 7) qemu_state = Done (tt, mkDt qemu_dtb 0x80000000 0x8000000 qemu_mem).
Proof.
  apply (proj1 (dtb_init_finds_memory 20 (qemu_literal 0) (qemu_literal 7) qemu_state qemu_ok
    (proj1 qemu_literals) (proj2 qemu_literals) ltac:(lia) ltac:(done)) qemu_tree qemu_items).
  - reflexivity.
  - exact qemu_at.
  - reflexivity.
  - compute_layout.
  - vm_compute. lia.
Defined.

(** A name that only starts with "memory" is enough, and the numbers of cells are not read:
    the registers of a memory controller are taken for the memory. *)
Example memory_controller :
  memory_of (Node [] [] [Node (text "memory-controller@1000") [(reg_name, be_put 8 0x1000 ++ be_put 8 0x100)] [];
                         Node (text "memory@80000000") [(reg_name, be_put 8 0x80000000 ++ be_put 8 0x8000000)] []])
  = Some (0x1000, 0x100).
Proof. vm_compute. reflexivity. Qed.
