(* ===== verification/PageInit.v ===== *)
(** * The start of memory management ([page_init], [switch_kernel_memorylayout] and
      [pmm_init] of kern/mm/pmm.c, and what kern/init/init.c does before them)

    From the memory the device tree describes to the free pages of the first-fit
    allocator and the page tables the kernel runs on.  Where the linker put the parts
    of the kernel is an argument; the self-checks of [pmm_init] are left out. *)
From S2P Require Import Prelude Libs CList Mem DefaultPmm Vmm Process PageTable PageTableSpec PagePmm PageData Dtb.

(** The symbols of the linker the code uses. *)
Record image := mkImage { im_end : Z; etext : Z; bootstackguard : Z; bootstack : Z; bootstacktop : Z; boot_page_table_sv39 : Z }.

(** The variables of dtb.c and pmm.c, over the memory and the allocator. *)
Record boot_state := mkBoot {
  bt_dtb : Z; bt_base : Z; bt_size : Z; npage : Z; boot_pgdir_va : Z; boot_pgdir_pa : Z; bt_mach : machine pmm }.
Definition set_npage (n : Z) (s : boot_state) : boot_state :=
  mkBoot (bt_dtb s) (bt_base s) (bt_size s) n (boot_pgdir_va s) (boot_pgdir_pa s) (bt_mach s).
Definition set_boot_pgdir (va pa : Z) (s : boot_state) : boot_state :=
  mkBoot (bt_dtb s) (bt_base s) (bt_size s) (npage s) va pa (bt_mach s).
Definition set_mach (m : machine pmm) (s : boot_state) : boot_state :=
  mkBoot (bt_dtb s) (bt_base s) (bt_size s) (npage s) (boot_pgdir_va s) (boot_pgdir_pa s) m.

(** Running a part on its share of the state. *)
Definition on_mach {X} (f : ST (machine pmm) X) : ST boot_state X := fun s =>
  match f (bt_mach s) with Done (x, m) => Done (x, set_mach m s) | Panicked => Panicked | NoFuel => NoFuel end.
Definition on_pmm {X} (f : ST pmm X) : ST boot_state X := on_mach (fun m =>
  match f (phys m) with Done (x, a) => Done (x, mkMachine (words m) a) | Panicked => Panicked | NoFuel => NoFuel end).
Definition on_dt {X} (f : ST dt_state X) : ST boot_state X := fun s =>
  match f (mkDt (bt_dtb s) (bt_base s) (bt_size s) (words (bt_mach s))) with
  | Done (x, d) => Done (x, mkBoot (boot_dtb d) (memory_base d) (memory_size d) (npage s) (boot_pgdir_va s) (boot_pgdir_pa s)
                                   (mkMachine (dt_ram d) (phys (bt_mach s))))
  | Panicked => Panicked
  | NoFuel => NoFuel
  end.
Definition on_words (f : mem -> mem) : ST boot_state unit := on_mach (modify (fun m => mkMachine (f (words m)) (phys m))).

Definition SetPageReserved (p : Page) : Page := mkPage (DefaultPmm.page_ref p) (set_bit PG_reserved (flags p)) (property p).
Definition sizeof_Page : Z := 64.
Definition PADDR (kva : Z) : ST boot_state Z := assert (KERNBASE <=? kva) ;; mret (u64 (kva - PHYSICAL_MEMORY_OFFSET)).
Definition get_memory_base : ST boot_state Z := get bt_base.
Definition get_memory_size : ST boot_state Z := get bt_size.

Definition init_pmm_manager : ST boot_state unit := on_pmm default_init.
Definition init_memmap (base n : Z) : ST boot_state unit := on_pmm (fun a => default_init_memmap (pmm_fuel a) base n a).

(** [for (i = 0; i < npage - nbase; i ++) SetPageReserved(pages + i)]. *)
Fixpoint mark_reserved (k : nat) (i : Z) : ST boot_state unit :=
  match k with
  | O => mret tt
  | S k' => on_pmm (on_page i SetPageReserved) ;; mark_reserved k' (i + 1)
  end.

Definition page_init (im : image) : ST boot_state unit :=
  mem_begin ← get_memory_base;
  mem_size ← get_memory_size;
  assert (negb (mem_size =? 0)) ;;
  let mem_end := u64 (mem_begin + mem_size) in
  let maxpa := if KERNTOP <? mem_end then KERNTOP else mem_end in
  modify (set_npage (maxpa / PGSIZE)) ;;
  let pages := ROUNDUP (im_end im) PGSIZE in
  np ← get npage;
  mark_reserved (Z.to_nat (u64 (np - nbase))) 0 ;;
  freemem ← PADDR (u64 (pages + sizeof_Page * u64 (np - nbase)));
  let mem_begin := ROUNDUP freemem PGSIZE in
  let mem_end := ROUNDDOWN mem_end PGSIZE in
  if freemem <? mem_end then
    p ← on_mach (pa2page np mem_begin);
    init_memmap p ((mem_end - mem_begin) / PGSIZE)
  else mret tt.

(** The stack of the boot with a page that is not mapped below and one above it. *)
Definition stack_guards (im : image) : ST boot_state unit :=
  if (bootstackguard im + PGSIZE =? bootstack im) && (bootstacktop im =? boot_page_table_sv39 im) then
    on_words (fun m => fill m (boot_page_table_sv39 im) PGSIZE 0) ;;
    on_words (fun m => upd m (bootstack im - 1) 0) ;;
    on_words (fun m => upd m (bootstack im - PGSIZE) 0) ;;
    np ← get npage;
    pgdir ← get boot_pgdir_va;
    pa ← PADDR (bootstackguard im);
    on_mach (boot_map_segment np pgdir (bootstackguard im) PGSIZE pa 0) ;;
    pa ← PADDR (boot_page_table_sv39 im);
    on_mach (boot_map_segment np pgdir (boot_page_table_sv39 im) PGSIZE pa 0)
  else mret tt.

Definition switch_kernel_memorylayout (im : image) : ST boot_state unit :=
  np ← get npage;
  kern_pgdir ← on_mach (boot_alloc_page np);
  on_words (fun m => fill m kern_pgdir PGSIZE 0) ;;
  let retext := ROUNDUP (etext im) PGSIZE in
  pa ← PADDR KERNBASE;
  on_mach (boot_map_segment np kern_pgdir KERNBASE (u64 (retext - KERNBASE)) pa (Z.lor PTE_R PTE_X)) ;;
  pa ← PADDR retext;
  on_mach (boot_map_segment np kern_pgdir retext (u64 (KERNTOP - retext)) pa (Z.lor PTE_R PTE_W)) ;;
  pa ← PADDR kern_pgdir;
  modify (set_boot_pgdir kern_pgdir pa) ;;
  stack_guards im.

Definition pmm_init (im : image) : ST boot_state unit :=
  init_pmm_manager ;;
  page_init im ;;
  switch_kernel_memorylayout im.

(** [dtb_init(); pmm_init();] of [kern_init]. *)
Definition memory_start (im : image) (fuel : nat) (memory_str reg_str : Z) : ST boot_state unit :=
  on_dt (dtb_init fuel memory_str reg_str) ;; pmm_init im.

(** ** The free pages *)
Lemma on_machine_run {X} (f : ST (machine pmm) X) x m s : f (bt_mach s) = Done (x, m) -> on_mach f s = Done (x, set_mach m s).
Proof. unfold on_mach. by intros ->. Qed.
Lemma on_pmm_run {X} (f : ST pmm X) x a s : f (phys (bt_mach s)) = Done (x, a) ->
  on_pmm f s = Done (x, set_mach (mkMachine (words (bt_mach s)) a) s).
Proof. intros Hf. apply on_machine_run. by rewrite Hf. Qed.

Lemma reserved_set p : PageReserved (SetPageReserved p) = true.
Proof. unfold PageReserved, SetPageReserved. cbn [flags]. by rewrite set_bit_spec, bool_decide_eq_true_2 by done. Qed.

Lemma mark_reserved_run : forall k i s, exists a, mark_reserved k i s = Done (tt, set_mach (mkMachine (words (bt_mach s)) a) s) /\
  lnk a = lnk (phys (bt_mach s)) /\ nr_free a = nr_free (phys (bt_mach s)) /\
  (forall j, i <= j < i + Z.of_nat k -> PageReserved (pages a j) = true) /\
  (forall j, j < i -> pages a j = pages (phys (bt_mach s)) j).
Proof.
  induction k as [|k IH]; intros i s; cbn [mark_reserved].
  { exists (phys (bt_mach s)). split; [by destruct s as [? ? ? ? ? ? []]|]. split; [done|]. split; [done|]. split; [lia|done]. }
  rewrite (bind_Done _ _ _ _ _ (on_pmm_run (on_page i SetPageReserved) _ _ s eq_refl)).
  set (s1 := set_mach _ s). destruct (IH (i + 1) s1) as (a & Hrun & Hl & Hn & Hr & Hlow). exists a.
  split; [by rewrite Hrun|]. split; [done|]. split; [done|]. split.
  - intros j Hj. destruct (decide (j = i)) as [->|]; [|apply Hr; lia]. rewrite Hlow by lia. cbn. rewrite upd_eq. apply reserved_set.
  - intros j Hj. rewrite Hlow by lia. cbn. apply upd_ne. lia.
Qed.

(** The kernel ends at [im_end], the memory at [e]: the number of pages of the memory, the address after
    their descriptors, and the first page behind them. *)
Definition all_pages (e : Z) : Z := e / PGSIZE - nbase.
Definition descriptors_end (im : image) (e : Z) : Z := ROUNDUP (im_end im) PGSIZE - PHYSICAL_MEMORY_OFFSET + sizeof_Page * all_pages e.
Definition first_free (im : image) (e : Z) : Z := ROUNDUP (descriptors_end im e) PGSIZE / PGSIZE - nbase.

(** The kernel is mapped in the kernel's window, and the memory ends below what can be addressed
    at the offset. *)
Record placed (im : image) (e : Z) : Prop := mkPlaced {
  pl_end : KERNBASE <= im_end im /\ im_end im < KERNTOP;
  pl_top : DRAM_BASE < e /\ e + PHYSICAL_MEMORY_OFFSET <= 2 ^ 64 }.

(** What [page_init] leaves: one free block from the first page behind the descriptors to the end. *)
Record page_inited (im : image) (e : Z) (s s' : boot_state) : Prop := mkPageInited {
  pi_npage : npage s' = e / PGSIZE;
  pi_words : words (bt_mach s') = words (bt_mach s);
  pi_wf : wf (phys (bt_mach s')) (if first_free im e <? all_pages e then [(first_free im e, all_pages e - first_free im e)] else []);
  pi_reserved i : 0 <= i < all_pages e -> ~ first_free im e <= i -> PageReserved (pages (phys (bt_mach s')) i) = true }.

Lemma ROUNDUP_eq a : 0 <= a -> a + 4095 < 2 ^ 64 -> ROUNDUP a PGSIZE = (a + 4095) / 4096 * 4096.
Proof. intros H0 Hb. unfold ROUNDUP, ROUNDDOWN, PGSIZE. rewrite u64_small by lia. Z.to_euclidean_division_equations. lia. Qed.

Section frees.
  Context (im : image) (s : boot_state).
  Notation e := (bt_base s + bt_size s).
  Hypothesis Hsize : 0 <= bt_base s /\ 0 < bt_size s.
  Hypothesis Hplaced : placed im e.
  Hypothesis Hempty : wf (phys (bt_mach s)) [].

Lemma layout : 0 <= all_pages e /\ all_pages e <= 0x40000 /\ KERNBASE - PHYSICAL_MEMORY_OFFSET <= descriptors_end im e < 2 ^ 63 /\
  first_free im e = (descriptors_end im e + 4095) / 4096 - nbase /\ 0 <= first_free im e.
Proof.
  destruct Hplaced as [[He1 He2] [Ht1 Ht2]].
  assert (Hall : 0 <= all_pages e <= 0x40000).
  { unfold all_pages, PGSIZE. change nbase with 524288. unfold DRAM_BASE, PHYSICAL_MEMORY_OFFSET in *. Z.to_euclidean_division_equations. lia. }
  assert (Hd : KERNBASE - PHYSICAL_MEMORY_OFFSET <= descriptors_end im e < 2 ^ 63).
  { unfold descriptors_end, sizeof_Page. unfold KERNTOP, KMEMSIZE, KERNBASE, PHYSICAL_MEMORY_OFFSET in *. rewrite ROUNDUP_eq by lia.
    Z.to_euclidean_division_equations. lia. }
  assert (Hf : first_free im e = (descriptors_end im e + 4095) / 4096 - nbase).
  { unfold first_free. rewrite ROUNDUP_eq by (unfold KERNBASE, PHYSICAL_MEMORY_OFFSET in *; lia). unfold PGSIZE. by rewrite Z.div_mul. }
  split; [lia|]. split; [lia|]. split; [done|]. split; [done|]. rewrite Hf. change nbase with 524288.
  unfold KERNBASE, PHYSICAL_MEMORY_OFFSET in *. Z.to_euclidean_division_equations. lia.
Qed.

Lemma page_init_run :
  (first_free im e < all_pages e \/ e / PGSIZE * PGSIZE <= descriptors_end im e ->
   exists s', page_init im s = Done (tt, s') /\ page_inited im e s s') /\
  (first_free im e = all_pages e -> descriptors_end im e < e / PGSIZE * PGSIZE -> page_init im s = Panicked).
Proof.
  destruct layout as (Ha0 & Ha1 & Hd & Hff & Hff0). destruct Hplaced as [[He1 He2] [Ht1 Ht2]].
  assert (Hu : u64 e = e) by (apply u64_small; unfold PHYSICAL_MEMORY_OFFSET in *; lia).
  set (s1 := set_npage (e / PGSIZE) s).
  destruct (mark_reserved_run (Z.to_nat (all_pages e)) 0 s1) as (a & Hmark & Hl & Hn & Hres & _).
  set (s2 := set_mach (mkMachine (words (bt_mach s1)) a) s1) in *. rewrite Z2Nat.id in Hres by done.
  assert (Hnp : npage s2 = e / PGSIZE) by done.
  assert (Hwf : wf a []). { destruct Hempty as [W1 W2 _ W4 W5]. split; [by rewrite Hl|done|by intros b ?%elem_of_nil|by rewrite Hn|done]. }
  assert (Hto : page_init im s = (if descriptors_end im e <? ROUNDDOWN e PGSIZE then
      p ← on_mach (pa2page (e / PGSIZE) (ROUNDUP (descriptors_end im e) PGSIZE));
      init_memmap p ((ROUNDDOWN e PGSIZE - ROUNDUP (descriptors_end im e) PGSIZE) / PGSIZE) else mret tt) s2).
  { unfold page_init. mstep (eq_refl : get_memory_base s = Done (bt_base s, s)). mstep (eq_refl : get_memory_size s = Done (bt_size s, s)).
    rewrite (bind_Done _ _ _ _ _ (assert_true (negb (bt_size s =? 0)) s ltac:(destruct (Z.eqb_spec (bt_size s) 0); [lia|done]))).
    cbv zeta. rewrite Hu. rewrite (proj2 (Z.ltb_ge KERNTOP e)) by (unfold KERNTOP, KERNBASE, KMEMSIZE, PHYSICAL_MEMORY_OFFSET in *; lia).
    mstep (eq_refl : modify (set_npage (e / PGSIZE)) s = Done (tt, s1)). mstep (eq_refl : get npage s1 = Done (e / PGSIZE, s1)).
    fold (all_pages e). rewrite (u64_small (all_pages e)) by lia. mstep Hmark.
    assert (Hva : u64 (ROUNDUP (im_end im) PGSIZE + sizeof_Page * all_pages e) = descriptors_end im e + PHYSICAL_MEMORY_OFFSET).
    { unfold descriptors_end, sizeof_Page in *. rewrite u64_small; [lia|]. unfold KERNTOP, KERNBASE, KMEMSIZE, PHYSICAL_MEMORY_OFFSET in *.
      rewrite ROUNDUP_eq in * by lia. Z.to_euclidean_division_equations. lia. }
    assert (Hp : PADDR (u64 (ROUNDUP (im_end im) PGSIZE + sizeof_Page * all_pages e)) s2 = Done (descriptors_end im e, s2)).
    { rewrite Hva. unfold PADDR. mstep (assert_true (KERNBASE <=? descriptors_end im e + PHYSICAL_MEMORY_OFFSET) s2
        ltac:(apply Z.leb_le; unfold KERNBASE, PHYSICAL_MEMORY_OFFSET in *; lia)).
      rewrite Z.add_simpl_r, u64_small by (unfold KERNBASE, PHYSICAL_MEMORY_OFFSET in Hd; lia). done. }
    mstep Hp. done. }
  rewrite Hto. clear Hto.
  assert (Hdn : ROUNDDOWN e PGSIZE = e / PGSIZE * PGSIZE) by (unfold ROUNDDOWN, PGSIZE; Z.to_euclidean_division_equations; lia).
  rewrite Hdn. set (E := e / PGSIZE) in *.
  assert (HE : all_pages e = E - nbase) by done. unfold PGSIZE in *.
  rewrite ROUNDUP_eq by (unfold KERNBASE, PHYSICAL_MEMORY_OFFSET in *; lia). set (F := (descriptors_end im e + 4095) / 4096) in *.
  assert (HF : descriptors_end im e <= F * 4096 < descriptors_end im e + 4096) by (unfold F; Z.to_euclidean_division_equations; lia).
  assert (HPPN : PPN (F * 4096) = F) by (unfold PPN; rewrite Z.shiftr_div_pow2 by done; change (2 ^ PTXSHIFT) with 4096; by apply Z.div_mul).
  split.
  - intros Hroom. destruct (Z.ltb_spec (descriptors_end im e) (E * 4096)) as [Hlt|Hge].
    + assert (HFE : F < E) by lia.
      mstep (on_machine_run (pa2page E (F * 4096)) (F - nbase) (bt_mach s2) s2
        ltac:(unfold pa2page; rewrite HPPN; by mstep (assert_true (F <? E) (bt_mach s2) ltac:(apply Z.ltb_lt; lia)))).
      replace ((E * 4096 - F * 4096) / 4096) with (E - F) by (Z.to_euclidean_division_equations; lia).
      destruct (default_init_memmap_spec a [] (F - nbase) (E - F) (pmm_fuel a) Hwf ltac:(lia) ltac:(lia)) as (a' & Hrun & Hwf' & Hsame).
      { change (free_total []) with 0. unfold DRAM_BASE, PHYSICAL_MEMORY_OFFSET in *. change nbase with 524288 in *. lia. }
      { intros i Hi. apply Hres. unfold in_range in Hi. lia. }
      { by intros ? ? ?%elem_of_nil. }
      { unfold pmm_fuel. cbn. lia. }
      { by left. }
      unfold init_memmap. rewrite (on_pmm_run (fun a => default_init_memmap (pmm_fuel a) (F - nbase) (E - F) a) tt a' (set_mach (bt_mach s2) s2) Hrun). eexists. split; [done|].
      split; [done|done|rewrite Hff, HE|rewrite Hff].
      * rewrite (proj2 (Z.ltb_lt _ _)) by lia. cbn. replace (E - nbase - (F - nbase)) with (E - F) by lia. exact Hwf'.
      * intros i Hi Hnf. cbn. rewrite Hsame; [apply Hres; lia|]. unfold in_range. lia.
    + exists s2. split; [done|]. split; [done|done| |].
      * rewrite Hff. rewrite (proj2 (Z.ltb_ge _ _)) by lia. done.
      * intros i Hi _. apply Hres. lia.
  - intros Heq Hlt. rewrite (proj2 (Z.ltb_lt _ _) Hlt). unfold mbind, ST_bind, on_mach, pa2page. rewrite HPPN.
    unfold assert. rewrite (proj2 (Z.ltb_ge F E)) by lia. done.
Qed.
End frees.

(** ** The tables of the kernel *)

(** Page [i] of the window of the kernel. *)
Definition kpage (i : Z) : Z := KERNBASE + i * PGSIZE.
Definition KPAGES : Z := KMEMSIZE / PGSIZE.
Definition dir_pte (P : Z) : Z := pte_create (page2ppn P) (Z.lor PTE_U PTE_V).

Lemma kpage_indices i : 0 <= i < KPAGES -> PDX1 (kpage i) = 511 /\ PDX0 (kpage i) = 1 + i / 512 /\ PTX (kpage i) = i mod 512.
Proof.
  intros Hi. change KPAGES with 32256 in Hi. unfold PDX1, PDX0, PTX, kpage, KERNBASE, PGSIZE. change 0x1FF with (Z.ones 9).
  rewrite !Z.land_ones, !Z.shiftr_div_pow2 by done. change (2 ^ 9) with 512. change (2 ^ PDX1SHIFT) with 1073741824.
  change (2 ^ PDX0SHIFT) with 2097152. change (2 ^ PTXSHIFT) with 4096.
  pose proof (Z.div_mod i 512 ltac:(done)) as Hd. pose proof (Z.mod_pos_bound i 512 eq_refl) as Hm.
  set (q := i / 512) in *. set (r := i mod 512) in *.
  rewrite <- (Z.div_unique (0xFFFFFFFFC0200000 + i * 4096) 1073741824 0x3FFFFFFFF (0x200000 + i * 4096)) by lia.
  rewrite <- (Z.div_unique (0xFFFFFFFFC0200000 + i * 4096) 2097152 (0x7FFFFFFFE00 + (1 + q)) (r * 4096)) by lia.
  rewrite <- (Z.div_unique (0xFFFFFFFFC0200000 + i * 4096) 4096 (0xFFFFFFFFC0200 + i) 0) by lia.
  split; [done|]. split.
  - symmetry. apply (Z.mod_unique _ _ 0x3FFFFFFFF); lia.
  - symmetry. apply (Z.mod_unique _ _ (0x7FFFFFFFE01 + q)); lia.
Qed.

Lemma block_index i : 0 <= i -> index (i mod 512).
Proof. intros Hi. unfold index. Z.to_euclidean_division_equations. lia. Qed.

Lemma alloc_front s p k : wf (phys s) [(p, k)] -> 1 < k ->
  exists a, alloc_page s = Done (Some p, mkMachine (words s) a) /\ wf a [(p + 1, k - 1)].
Proof.
  intros Hwf Hk. pose proof (default_alloc_run (phys s) _ 1 _ Hwf eq_refl (pmm_fuel_enough _ _ Hwf)) as Hr.
  cbn [abs_alloc] in Hr. destruct (Z.leb_spec 1 k); [|lia]. destruct Hr as (a & Hrun & Hwf' & _).
  exists a. split; [|].
  - unfold alloc_page, alloc_pages. cbn [pm_alloc_pages default_pmm_manager]. by rewrite Hrun.
  - revert Hwf'. unfold split_block. destruct (Z.ltb_spec 1 k); [done|lia].
Qed.

Section kernel_map.
  Context (np R n : Z).
  Hypothesis Hram : nbase < np /\ np * PGSIZE + PHYSICAL_MEMORY_OFFSET <= 2 ^ 64.
  Hypothesis Hblock : 0 <= R /\ R + n <= np - nbase /\ 65 < n.
  Implicit Types s : machine pmm.
#[local] Arguments le_get _ _ _ : simpl never.
#[local] Arguments le_put _ _ _ _ : simpl never.

Lemma block_in_ram p : R <= p < R + n -> in_ram np p.
Proof. unfold in_ram. lia. Qed.

(** A directory or a table taken from the front of the free block. *)
Lemma ensure_next s p k q r : wf (phys s) [(q, r)] -> 1 < r -> in_ram np q -> child (words s) p k = None ->
  exists a, ensure_entry np true (slot (kva p) k) s = Done (true, mkMachine (attached (words s) p k q) a) /\ wf a [(q + 1, r - 1)].
Proof.
  intros Hwf Hr Hq Hc. destruct (alloc_front s q r Hwf Hr) as (a & Ha & Hwf').
  exists (pm_set_ref q 1 a). split.
  - unfold ensure_entry. mstep (eq_refl : load (slot (kva p) k) s = Done (entry (words s) p k, s)).
    rewrite present_child, Hc, bool_decide_eq_false_2 by tauto. cbn [negb]. mstep Ha.
    mstep (eq_refl : set_page_ref q 1 (mkMachine (words s) a) = Done (tt, mkMachine (words s) (pm_set_ref q 1 a))).
    by mstep (page2kva_run np Hram q (mkMachine (words s) (pm_set_ref q 1 a)) Hq).
  - apply wf_set_ref; [done|]. intros (x & y & Hin & Hx). apply list_elem_of_singleton in Hin as [= -> ->]. lia.
Qed.

(** The first [i] pages of the window are mapped, page [j] by the entry [f j]: the root is page
    [R], the directory follows it if [d] is 1, and then the [t] tables. *)
Record kmap s (d t i : Z) (f : Z -> Z) : Prop := mkKmap {
  km_range : 0 <= d <= 1 /\ 0 <= t <= 63 /\ (0 < t -> d = 1) /\ 0 <= i <= 512 * t;
  km_free : wf (phys s) [(R + 1 + d + t, n - 1 - d - t)];
  km_root k : index k -> entry (words s) R k = if decide (k = 511 /\ d = 1) then dir_pte (R + 1) else 0;
  km_dir k : d = 1 -> index k -> entry (words s) (R + 1) k = if decide (1 <= k <= t) then dir_pte (R + 1 + k) else 0;
  km_map j : 0 <= j < i -> entry (words s) (R + 2 + j / 512) (j mod 512) = f j;
  km_rest j : i <= j < 512 * t -> entry (words s) (R + 2 + j / 512) (j mod 512) = 0 }.

Lemma child_entry m p k e : entry m p k = e -> child m p k = if present e then Some (page_of e) else None.
Proof. unfold child. by intros ->. Qed.
Lemma child_dir m p k P : in_ram np P -> entry m p k = dir_pte P -> child m p k = Some P.
Proof.
  intros HP He. rewrite (child_entry _ _ _ _ He). unfold dir_pte. rewrite present_create, page_of_create by (done || by apply (ppn_range np)).
  unfold page2ppn. f_equal. lia.
Qed.
Lemma child_zero m p k : entry m p k = 0 -> child m p k = None.
Proof. intros He. by rewrite (child_entry _ _ _ _ He). Qed.

Lemma kmap_child_root s d t i f : kmap s d t i f -> child (words s) R 511 = if decide (d = 1) then Some (R + 1) else None.
Proof.
  intros [Hr _ Hroot _ _ _]. pose proof (Hroot 511 ltac:(unfold index; lia)) as H511. case_decide as Hd; [|case_decide; [naive_solver|]].
  - rewrite decide_True by tauto. apply child_dir; [apply block_in_ram; lia|done].
  - by apply child_zero.
Qed.
Lemma kmap_child_dir s t i f k : kmap s 1 t i f -> index k ->
  child (words s) (R + 1) k = if decide (1 <= k <= t) then Some (R + 1 + k) else None.
Proof.
  intros [Hr _ _ Hdir _ _] Hk. pose proof (Hdir k eq_refl Hk) as He. case_decide.
  - apply child_dir; [apply block_in_ram; lia|done].
  - by apply child_zero.
Qed.

Lemma index_511 : index 511. Proof. unfold index. lia. Qed.
#[local] Hint Resolve index_511 : core.

(** The directory is taken. *)
Lemma kmap_take_dir s f : kmap s 0 0 0 f ->
  exists s', ensure_entry np true (slot (kva R) 511) s = Done (true, s') /\ kmap s' 1 0 0 f.
Proof.
  intros Hk. pose proof (kmap_child_root _ _ _ _ _ Hk) as Hc. destruct Hk as [_ Hf Hroot _ _ _].
  replace (R + 1 + 0 + 0) with (R + 1) in Hf by lia.
  destruct (ensure_next s R 511 (R + 1) (n - 1 - 0 - 0) Hf ltac:(lia) (block_in_ram (R + 1) ltac:(lia)) Hc) as (a & Hrun & Hwf).
  eexists. split; [exact Hrun|].
  assert (He : forall q j, index j -> entry (attached (words s) R 511 (R + 1)) q j =
    if decide (q = R /\ j = 511) then dir_pte (R + 1) else if decide (q = R + 1) then 0 else entry (words s) q j)
    by (intros q j Hj; by apply (entry_attached np Hram); [apply block_in_ram; lia|..]).
  split; cbn [words phys]; [lia| | | |lia|lia].
  - replace (R + 1 + 1 + 0) with (R + 1 + 1) by lia. by replace (n - 1 - 1 - 0) with (n - 1 - 0 - 0 - 1) by lia.
  - intros k Hk. rewrite He by done. destruct (decide (k = 511)) as [->|Hne].
    + by rewrite !decide_True by tauto.
    + rewrite !(decide_False (P := _ /\ _)) by tauto. rewrite decide_False by lia. rewrite Hroot by done. by rewrite decide_False by lia.
  - intros k _ Hk. rewrite He by done. rewrite (decide_False (P := _ /\ _)) by lia. rewrite decide_True by done. by rewrite decide_False by lia.
Qed.

(** A table is taken. *)
Lemma kmap_take_table s t i f : t < 63 -> kmap s 1 t i f ->
  exists s', ensure_entry np true (slot (kva (R + 1)) (1 + t)) s = Done (true, s') /\ kmap s' 1 (t + 1) i f.
Proof.
  intros Ht Hk. destruct (km_range _ _ _ _ _ Hk) as (_ & Ht0 & _ & Hi). assert (Hix : index (1 + t)) by (unfold index; lia).
  pose proof (kmap_child_dir _ _ _ _ _ Hk Hix) as Hc. rewrite decide_False in Hc by lia.
  destruct Hk as [_ Hf Hroot Hdir Hmap Hrest]. replace (R + 1 + 1 + t) with (R + 2 + t) in Hf by lia.
  destruct (ensure_next s (R + 1) (1 + t) (R + 2 + t) (n - 1 - 1 - t) Hf ltac:(lia) (block_in_ram (R + 2 + t) ltac:(lia)) Hc) as (a & Hrun & Hwf).
  eexists. split; [exact Hrun|].
  assert (He : forall q j, index j -> entry (attached (words s) (R + 1) (1 + t) (R + 2 + t)) q j =
    if decide (q = R + 1 /\ j = 1 + t) then dir_pte (R + 2 + t) else if decide (q = R + 2 + t) then 0 else entry (words s) q j)
    by (intros q j Hj; by apply (entry_attached np Hram); [apply block_in_ram; lia|..]).
  assert (Hbelow : forall j, 0 <= j < 512 * t -> entry (attached (words s) (R + 1) (1 + t) (R + 2 + t)) (R + 2 + j / 512) (j mod 512) =
    entry (words s) (R + 2 + j / 512) (j mod 512)).
  { intros j Hj. assert (j / 512 < t) by (apply Z.div_lt_upper_bound; lia). assert (0 <= j / 512) by (apply Z.div_pos; lia).
    rewrite He by (apply block_index; lia). rewrite (decide_False (P := _ /\ _)) by lia. by rewrite decide_False by lia. }
  split; cbn [words phys]; [lia| | | | |].
  - replace (R + 1 + 1 + (t + 1)) with (R + 2 + t + 1) by lia. by replace (n - 1 - 1 - (t + 1)) with (n - 1 - 1 - t - 1) by lia.
  - intros k Hk. rewrite He by done. rewrite (decide_False (P := R = R + 1 /\ _)) by lia. rewrite (decide_False (P := R = _)) by lia. by apply Hroot.
  - intros k _ Hk. rewrite He by done. destruct (decide (k = 1 + t)) as [->|Hne].
    + rewrite !decide_True by lia. f_equal. lia.
    + rewrite (decide_False (P := R + 1 = R + 1 /\ _)) by lia. rewrite (decide_False (P := R + 1 = _)) by lia. rewrite Hdir by done.
      destruct (decide (1 <= k <= t)); [by rewrite decide_True by lia|by rewrite decide_False by lia].
  - intros j Hj. rewrite Hbelow by lia. by apply Hmap.
  - intros j Hj. destruct (decide (j < 512 * t)); [rewrite Hbelow by lia; apply Hrest; lia|].
    assert (Hq : j / 512 = t) by (symmetry; apply (Z.div_unique _ _ _ (j - 512 * t)); lia).
    rewrite He by (apply block_index; lia). rewrite (decide_False (P := _ /\ _)) by lia. by rewrite decide_True by lia.
Qed.

Lemma table_bounds j t : 0 <= j < 512 * t -> t <= 63 -> 0 <= j / 512 < t /\ 0 <= j < KPAGES.
Proof. intros Hj Ht. change KPAGES with 32256. Z.to_euclidean_division_equations. lia. Qed.

(** Walking down where the table is there. *)
Lemma kmap_walk s t i j f : kmap s 1 t i f -> 0 <= j < 512 * t ->
  get_pte np (kva R) (kpage j) true s = Done (Some (slot (kva (R + 2 + j / 512)) (j mod 512)), s).
Proof.
  intros Hk Hj. destruct (km_range _ _ _ _ _ Hk) as (_ & Ht & _). destruct (table_bounds j t Hj ltac:(lia)) as [Hq Hj'].
  destruct (kpage_indices j Hj') as (H1 & H2 & H3). unfold get_pte. rewrite H1, H2, H3.
  pose proof (kmap_child_root _ _ _ _ _ Hk) as Hc. rewrite decide_True in Hc by done.
  mstep (ensure_present np true s R 511 ltac:(congruence)). cbn [negb].
  mstep (next_table_run np Hram s R 511 (R + 1) Hc (block_in_ram (R + 1) ltac:(lia))).
  pose proof (kmap_child_dir _ _ _ _ (1 + j / 512) Hk ltac:(unfold index; lia)) as Hd. rewrite decide_True in Hd by lia.
  mstep (ensure_present np true s (R + 1) (1 + j / 512) ltac:(congruence)). cbn [negb].
  mstep (next_table_run np Hram s (R + 1) (1 + j / 512) (R + 1 + (1 + j / 512)) Hd (block_in_ram (R + 1 + (1 + j / 512)) ltac:(lia))).
  by replace (R + 1 + (1 + j / 512)) with (R + 2 + j / 512) by lia.
Qed.

(** Walking down to the next page of the window, and making what is missing. *)
Lemma kmap_walk_next s d t i f : kmap s d t i f -> i < KPAGES ->
  exists s' t', get_pte np (kva R) (kpage i) true s = Done (Some (slot (kva (R + 2 + i / 512)) (i mod 512)), s') /\
    kmap s' 1 t' i f /\ i < 512 * t'.
Proof.
  intros Hk Hi. change KPAGES with 32256 in Hi. destruct (km_range _ _ _ _ _ Hk) as (Hd & Ht & Htd & Hi0).
  assert (Hroot : exists s1, ensure_entry np true (slot (kva R) 511) s = Done (true, s1) /\ kmap s1 1 t i f).
  { destruct (decide (d = 1)) as [->|Hne].
    - exists s. split; [|done]. apply ensure_present. rewrite (kmap_child_root _ _ _ _ _ Hk). by rewrite decide_True.
    - assert (d = 0) as -> by lia. assert (t = 0) as -> by lia. assert (i = 0) as -> by lia. by apply kmap_take_dir. }
  destruct Hroot as (s1 & Hrun1 & Hk1).
  assert (Htab : exists s2 t', ensure_entry np true (slot (kva (R + 1)) (1 + i / 512)) s1 = Done (true, s2) /\ kmap s2 1 t' i f /\ i < 512 * t').
  { destruct (decide (i < 512 * t)) as [Hlt|Hge].
    - destruct (table_bounds i t ltac:(lia) ltac:(lia)) as [Hq _]. exists s1, t. split; [|done]. apply ensure_present.
      rewrite (kmap_child_dir _ _ _ _ _ Hk1) by (unfold index; lia). by rewrite decide_True by lia.
    - assert (i = 512 * t) as -> by lia. rewrite (Z.mul_comm 512), Z.div_mul by lia.
      rewrite (Z.mul_comm t) in *. destruct (kmap_take_table s1 t (512 * t) f ltac:(lia) Hk1) as (s2 & Hrun & Hk2).
      exists s2, (t + 1). split; [done|]. split; [done|lia]. }
  destruct Htab as (s2 & t' & Hrun2 & Hk2 & Hlt). exists s2, t'. split; [|done].
  pose proof (kmap_walk s2 t' i i f Hk2 ltac:(lia)) as Hw. unfold get_pte in *.
  destruct (kpage_indices i ltac:(change KPAGES with 32256; lia)) as (H1 & H2 & H3). rewrite H1, H2, H3 in *.
  pose proof (kmap_child_root _ _ _ _ _ Hk1) as Hc. rewrite decide_True in Hc by done.
  mstep Hrun1. cbn [negb]. mstep (next_table_run np Hram s1 R 511 (R + 1) Hc (block_in_ram (R + 1) ltac:(lia))). mstep Hrun2. cbn [negb].
  pose proof (kmap_child_root _ _ _ _ _ Hk2) as Hc2. rewrite decide_True in Hc2 by done.
  rewrite (bind_Done _ _ _ _ _ (ensure_present np true s2 R 511 ltac:(congruence))) in Hw. cbn [negb] in Hw.
  rewrite (bind_Done _ _ _ _ _ (next_table_run np Hram s2 R 511 (R + 1) Hc2 (block_in_ram (R + 1) ltac:(lia)))) in Hw.
  destruct (table_bounds i t' ltac:(lia) ltac:(pose proof (km_range _ _ _ _ _ Hk2); lia)) as [Hq _].
  pose proof (kmap_child_dir _ _ _ _ (1 + i / 512) Hk2 ltac:(pose proof (km_range _ _ _ _ _ Hk2); unfold index; lia)) as Hd2.
  rewrite decide_True in Hd2 by lia.
  rewrite (bind_Done _ _ _ _ _ (ensure_present np true s2 (R + 1) (1 + i / 512) ltac:(congruence))) in Hw. exact Hw.
Qed.

(** Writing the entry of page [j]. *)
Lemma kmap_store s t i j f v : kmap s 1 t i f -> 0 <= j <= i -> j < 512 * t -> 0 <= v < 2 ^ 64 ->
  exists s', store (slot (kva (R + 2 + j / 512)) (j mod 512)) v s = Done (tt, s') /\ kmap s' 1 t (Z.max i (j + 1)) (upd f j v).
Proof.
  intros Hk Hji Hj Hv. destruct (km_range _ _ _ _ _ Hk) as (_ & Ht & _ & Hi).
  assert (Hix : index (j mod 512)) by (apply block_index; lia). destruct (table_bounds j t ltac:(lia) ltac:(lia)) as [Hq _].
  eexists. split; [done|]. destruct Hk as [_ Hf Hroot Hdir Hmap Hrest].
  assert (He : forall q k, index k -> entry (put_entry (words s) (R + 2 + j / 512) (j mod 512) v) q k =
    if decide (q = R + 2 + j / 512 /\ k = j mod 512) then v else entry (words s) q k)
    by (intros; by apply entry_put).
  assert (Hother : forall j', 0 <= j' -> j' <> j -> entry (put_entry (words s) (R + 2 + j / 512) (j mod 512) v) (R + 2 + j' / 512) (j' mod 512) =
    entry (words s) (R + 2 + j' / 512) (j' mod 512)).
  { intros j' H0 Hne. rewrite He by (by apply block_index). rewrite decide_False; [done|]. intros [H1 H2]. apply Hne.
    rewrite (Z.div_mod j 512), (Z.div_mod j' 512) by done. lia. }
  split; cbn [words phys]; fold (put_entry (words s) (R + 2 + j / 512) (j mod 512) v); [lia|done| | | |].
  - intros k Hk. rewrite He by done. rewrite (decide_False (P := R = _ /\ _)) by lia. by apply Hroot.
  - intros k _ Hk. rewrite He by done. rewrite (decide_False (P := _ = _ + 2 + _ /\ _)) by lia. by apply Hdir.
  - intros j' Hj'. destruct (decide (j' = j)) as [->|Hne].
    + rewrite He by done. by rewrite decide_True, upd_eq.
    + rewrite Hother, upd_ne by lia. apply Hmap. lia.
  - intros j' Hj'. rewrite Hother by lia. apply Hrest. lia.
Qed.

Lemma kmap_ext s d t i f g : kmap s d t i f -> (forall j, 0 <= j < i -> f j = g j) -> kmap s d t i g.
Proof. intros [H1 H2 H3 H4 H5 H6] He. split; [done|done|done|done| |done]. intros j Hj. rewrite H5 by done. by apply He. Qed.

(** The entry that maps page [j] of the window to where it lies in memory. *)
Definition kpte (perm j : Z) : Z := pte_create ((kpage j - PHYSICAL_MEMORY_OFFSET) / PGSIZE) (Z.lor PTE_V perm).
Definition flags_ok (perm : Z) : Prop := 0 <= Z.lor PTE_V perm < 1024.

Lemma kpage_pa j : 0 <= j <= KPAGES -> (kpage j - PHYSICAL_MEMORY_OFFSET) / PGSIZE = 0x80200 + j /\
  kpage j - PHYSICAL_MEMORY_OFFSET = (0x80200 + j) * PGSIZE /\ 0 <= kpage j < 2 ^ 64 - PGSIZE.
Proof.
  intros Hj. change KPAGES with 32256 in Hj. unfold kpage, KERNBASE, PHYSICAL_MEMORY_OFFSET, PGSIZE. split; [|lia].
  symmetry. apply (Z.div_unique _ _ _ 0); lia.
Qed.

Lemma map_append perm : flags_ok perm -> forall k s d t i f, kmap s d t i f -> i + Z.of_nat k <= KPAGES ->
  (forall j, i <= j < i + Z.of_nat k -> f j = kpte perm j) ->
  exists s' d' t', map_loop np k (kva R) (kpage i) (kpage i - PHYSICAL_MEMORY_OFFSET) perm s = Done (tt, s') /\
    kmap s' d' t' (i + Z.of_nat k) f.
Proof.
  intros Hperm. induction k as [|k IH]; intros s d t i f Hk Hb Hf; cbn [map_loop].
  { exists s, d, t. split; [done|]. by rewrite Z.add_0_r. }
  pose proof (km_range _ _ _ _ _ Hk) as (_ & _ & _ & Hi0).
  destruct (kmap_walk_next s d t i f Hk ltac:(lia)) as (s1 & t1 & Hw & Hk1 & Hlt). mstep Hw.
  destruct (kpage_pa i ltac:(lia)) as (Hpa & Hpa' & Hkb). destruct (kpage_pa (i + 1) ltac:(lia)) as (_ & Hpa1 & Hkb1).
  assert (Hv : pte_create (Z.shiftr (kpage i - PHYSICAL_MEMORY_OFFSET) PGSHIFT) (Z.lor PTE_V perm) = kpte perm i)
    by (unfold kpte; by rewrite Z.shiftr_div_pow2 by done). rewrite Hv.
  change KPAGES with 32256 in *.
  destruct (kmap_store s1 t1 i i f (kpte perm i) Hk1 ltac:(lia) ltac:(lia)) as (s2 & Hst & Hk2).
  { unfold kpte. rewrite Hpa. apply create_range; [lia|done]. }
  mstep Hst. rewrite Z.max_r in Hk2 by lia. apply (kmap_ext _ _ _ _ _ f) in Hk2.
  2: { intros j Hj. unfold upd. case_decide; [subst; rewrite Hf; [done|lia]|done]. }
  assert (Hla : u64 (kpage i + PGSIZE) = kpage (i + 1)) by (rewrite u64_small by lia; unfold kpage; lia).
  assert (Hpn : u64 (kpage i - PHYSICAL_MEMORY_OFFSET + PGSIZE) = kpage (i + 1) - PHYSICAL_MEMORY_OFFSET)
    by (rewrite Hpa', Hpa1, u64_small by (unfold PGSIZE in *; lia); lia).
  rewrite Hla, Hpn. destruct (IH s2 1 t1 (i + 1) f Hk2 ltac:(lia)) as (s' & d' & t' & Hrun & Hk').
  { intros j Hj. apply Hf. lia. }
  exists s', d', t'. split; [done|]. replace (i + Z.of_nat (S k)) with (i + 1 + Z.of_nat k) by lia. done.
Qed.

Lemma PGOFF_page a k : a = k * PGSIZE -> PGOFF a = 0 /\ ROUNDDOWN a PGSIZE = a.
Proof.
  intros ->. unfold PGOFF, ROUNDDOWN, PGSIZE. change 0xFFF with (Z.ones 12). rewrite Z.land_ones by lia. change (2 ^ 12) with 4096.
  rewrite Z.mod_mul by done. lia.
Qed.

Lemma segment_loop pgdir i k perm s : 0 <= i -> 0 <= k -> i + k <= KPAGES ->
  boot_map_segment np pgdir (kpage i) (k * PGSIZE) (kpage i - PHYSICAL_MEMORY_OFFSET) perm s =
  map_loop np (Z.to_nat k) pgdir (kpage i) (kpage i - PHYSICAL_MEMORY_OFFSET) perm s.
Proof.
  intros Hi Hk Hb. change KPAGES with 32256 in Hb. unfold boot_map_segment.
  destruct (PGOFF_page (kpage i) (0xFFFFFFFFC0200 + i)) as [H1 H2]; [unfold kpage, KERNBASE, PGSIZE; lia|].
  destruct (PGOFF_page (kpage i - PHYSICAL_MEMORY_OFFSET) (0x80200 + i)) as [H3 H4]; [unfold kpage, KERNBASE, PHYSICAL_MEMORY_OFFSET, PGSIZE; lia|].
  rewrite H1, H2, H3, H4. mstep (assert_true (0 =? 0) s eq_refl). rewrite Z.add_0_r. unfold PGSIZE.
  rewrite (u64_small (k * 4096)) by lia. fold PGSIZE. rewrite ROUNDUP_eq by (unfold PGSIZE; lia). do 3 f_equal. unfold PGSIZE.
  rewrite Z.div_mul by done. symmetry. apply (Z.div_unique _ _ _ 4095); lia.
Qed.

Lemma segment_run perm k s d t i f : flags_ok perm -> kmap s d t i f -> 0 <= k -> i + k <= KPAGES ->
  (forall j, i <= j < i + k -> f j = kpte perm j) ->
  exists s' d' t', boot_map_segment np (kva R) (kpage i) (k * PGSIZE) (kpage i - PHYSICAL_MEMORY_OFFSET) perm s = Done (tt, s') /\
    kmap s' d' t' (i + k) f.
Proof.
  intros Hp Hk H0 Hb Hf. pose proof (km_range _ _ _ _ _ Hk) as (_ & _ & _ & Hi0). rewrite segment_loop by lia.
  destruct (map_append perm Hp (Z.to_nat k) s d t i f Hk) as (s' & d' & t' & Hrun & Hk'); rewrite ?Z2Nat.id by lia; [done|done|].
  rewrite Z2Nat.id in Hk' by lia. by exists s', d', t'.
Qed.

(** Once the whole window is mapped, an entry can be replaced. *)
Lemma guard_run j s f : kmap s 1 63 KPAGES f -> 0 <= j < KPAGES ->
  exists s', boot_map_segment np (kva R) (kpage j) PGSIZE (kpage j - PHYSICAL_MEMORY_OFFSET) 0 s = Done (tt, s') /\
    kmap s' 1 63 KPAGES (upd f j (kpte 0 j)).
Proof.
  intros Hk Hj. change PGSIZE with (1 * PGSIZE). rewrite segment_loop by lia. change (Z.to_nat 1) with 1%nat. cbn [map_loop].
  change KPAGES with 32256 in *. mstep (kmap_walk s 63 32256 j f Hk ltac:(lia)).
  destruct (kpage_pa j ltac:(change KPAGES with 32256; lia)) as (Hpa & _ & _).
  destruct (kmap_store s 63 32256 j f (kpte 0 j) Hk ltac:(lia) ltac:(lia)) as (s' & Hst & Hk').
  { unfold kpte. rewrite Hpa. apply create_range; [lia|done]. }
  exists s'. rewrite Z.max_l in Hk' by lia. split; [|done]. unfold kpte in Hst. rewrite Z.shiftr_div_pow2 by done.
  change (2 ^ PGSHIFT) with PGSIZE. mstep Hst. done.
Qed.

(** Only the memory from the root on matters. *)
Lemma kmap_words s d t i f m : kmap s d t i f -> (forall a, kva R <= a -> m a = words s a) -> kmap (mkMachine m (phys s)) d t i f.
Proof.
  intros [H1 H2 H3 H4 H5 H6] Hm.
  assert (He : forall q k, R <= q -> index k -> entry m q k = entry (words s) q k).
  { intros q k Hq Hk. apply le_get_ext. intros b Hb. apply Hm. unfold slot, kva, index, PGSIZE in *. lia. }
  split; cbn [words phys]; [done|done| | | |].
  - intros k Hk. rewrite He by (done || lia). by apply H3.
  - intros k Hd Hk. rewrite He by (done || lia). by apply H4.
  - intros j Hj. destruct (table_bounds j t ltac:(lia) ltac:(lia)). rewrite He by (lia || (apply block_index; lia)). by apply H5.
  - intros j Hj. destruct (table_bounds j t ltac:(lia) ltac:(lia)). rewrite He by (lia || (apply block_index; lia)). by apply H6.
Qed.

(** The root, cleared. *)
Lemma root_taken s : wf (phys s) [(R, n)] ->
  exists s', boot_alloc_page np s = Done (kva R, s') /\ words s' = words s /\
    forall f, kmap (mkMachine (fill (words s') (kva R) PGSIZE 0) (phys s')) 0 0 0 f.
Proof.
  intros Hwf. destruct (alloc_front s R n Hwf ltac:(lia)) as (a & Ha & Hwf'). exists (mkMachine (words s) a). split; [|split; [done|]].
  - unfold boot_alloc_page. mstep Ha. apply (page2kva_run np Hram). apply block_in_ram. lia.
  - intros f. split; cbn [words phys]; [lia| | |lia|lia|lia].
    + replace (R + 1 + 0 + 0) with (R + 1) by lia. by replace (n - 1 - 0 - 0) with (n - 1) by lia.
    + intros k Hk. rewrite entry_fill by done. rewrite (decide_True (P := R = R)) by done. by rewrite decide_False by lia.
Qed.
End kernel_map.

(** The entry that the hardware finds for an address, 0 when there is none. *)
Definition walk (m : mem) (R la : Z) : Z :=
  match child m R (PDX1 la) with
  | Some D => match child m D (PDX0 la) with Some T => entry m T (PTX la) | None => 0 end
  | None => 0
  end.
(** Addresses whose upper bits repeat bit 38. *)
Definition canonical (la : Z) : Prop := 0 <= la < 2 ^ 38 \/ 2 ^ 64 - 2 ^ 38 <= la < 2 ^ 64.

Lemma window_indices la : canonical la -> PDX1 la = 511 -> 1 <= PDX0 la <= 63 -> KERNBASE <= la < KERNTOP.
Proof.
  intros Hc H1 H2. unfold PDX1, PDX0, KERNTOP, KERNBASE, KMEMSIZE, canonical in *. change 0x1FF with (Z.ones 9) in *.
  rewrite !Z.land_ones, !Z.shiftr_div_pow2 in * by done. change (2 ^ 9) with 512 in *. change (2 ^ PDX1SHIFT) with 1073741824 in *.
  change (2 ^ PDX0SHIFT) with 2097152 in *. change (2 ^ 38) with 274877906944 in *. change (2 ^ 64) with 18446744073709551616 in *.
  pose proof (Z.div_mod (la / 2097152) 512 ltac:(done)) as Hd. rewrite Z.div_div in Hd by done. change (2097152 * 512) with 1073741824 in Hd.
  pose proof (Z.div_mod (la / 1073741824) 512 ltac:(done)) as Hq.
  pose proof (Z.div_mod la 2097152 ltac:(done)) as Hl. pose proof (Z.mod_pos_bound la 2097152 eq_refl).
  pose proof (Z.div_mod la 1073741824 ltac:(done)) as Hl1. pose proof (Z.mod_pos_bound la 1073741824 eq_refl).
  rewrite H1 in Hq. set (q1 := la / 1073741824) in *. set (q0 := la / 2097152) in *. set (q2 := q1 / 512) in *. clearbody q0 q1 q2. change (Z.ones 9) with 511 in *. lia.
Qed.

Lemma kmap_final np R n s f : nbase < np /\ np * PGSIZE + PHYSICAL_MEMORY_OFFSET <= 2 ^ 64 -> 0 <= R /\ R + n <= np - nbase /\ 65 < n ->
  kmap R n s 1 63 KPAGES f ->
  (forall i, 0 <= i < KPAGES -> walk (words s) R (kpage i) = f i) /\
  (forall la, canonical la -> ~ KERNBASE <= la < KERNTOP -> walk (words s) R la = 0).
Proof.
  intros Hram Hblock Hk. pose proof (kmap_child_root np R n Hram Hblock _ _ _ _ _ Hk) as Hc. rewrite decide_True in Hc by done. split.
  - intros i Hi. destruct (kpage_indices i Hi) as (H1 & H2 & H3). unfold walk. rewrite H1, H2, H3, Hc. change KPAGES with 32256 in *.
    destruct (table_bounds i 63 ltac:(lia) ltac:(lia)) as [Hq _].
    rewrite (kmap_child_dir np R n Hram Hblock _ _ _ _ _ Hk) by (unfold index; lia). rewrite decide_True by lia.
    replace (R + 1 + (1 + i / 512)) with (R + 2 + i / 512) by lia. by apply (km_map _ _ _ _ _ _ _ Hk).
  - intros la Hla Hout. unfold walk. destruct (decide (PDX1 la = 511)) as [E|E].
    + rewrite E, Hc. rewrite (kmap_child_dir np R n Hram Hblock _ _ _ _ _ Hk) by apply PDX0_index.
      rewrite decide_False; [done|]. intros H0. apply Hout. by apply window_indices.
    + rewrite child_zero; [done|]. rewrite (km_root _ _ _ _ _ _ _ Hk) by apply PDX1_index. by rewrite decide_False by tauto.
Qed.

(** Where the linker put the code and the stack of the boot. *)
Definition guarded (im : image) : bool := (bootstackguard im + PGSIZE =? bootstack im) && (bootstacktop im =? boot_page_table_sv39 im).
Record linked (im : image) : Prop := mkLinked {
  lk_text : KERNBASE <= etext im <= im_end im;
  lk_guard : guarded im = true -> exists g t, 0 <= g < KPAGES /\ 0 <= t < KPAGES /\ bootstackguard im = kpage g /\
    boot_page_table_sv39 im = kpage t /\ bootstack im <= im_end im /\ boot_page_table_sv39 im + PGSIZE <= im_end im }.

(** What page [i] of the window is mapped by: the code can be run and not written, the rest
    written and not run, the two pages around the stack neither. *)
Definition kernel_pte (im : image) (i : Z) : Z :=
  if guarded im && ((kpage i =? bootstackguard im) || (kpage i =? boot_page_table_sv39 im)) then kpte 0 i
  else if kpage i <? ROUNDUP (etext im) PGSIZE then kpte (Z.lor PTE_R PTE_X) i
  else kpte (Z.lor PTE_R PTE_W) i.

Lemma PADDR_run a s : KERNBASE <= a < 2 ^ 64 -> PADDR a s = Done (a - PHYSICAL_MEMORY_OFFSET, s).
Proof.
  intros Ha. unfold PADDR. mstep (assert_true (KERNBASE <=? a) s ltac:(apply Z.leb_le; lia)).
  rewrite u64_small by (unfold KERNBASE, PHYSICAL_MEMORY_OFFSET in *; lia). done.
Qed.

Lemma kpage_inj i j : kpage i = kpage j -> i = j.
Proof. unfold kpage, PGSIZE. lia. Qed.

Section switch.
  Context (im : image) (np R n : Z).
  Hypothesis Hram : nbase < np /\ np * PGSIZE + PHYSICAL_MEMORY_OFFSET <= 2 ^ 64.
  Hypothesis Hblock : 0 <= R /\ R + n <= np - nbase /\ 65 < n.
  Hypothesis Hlinked : linked im.
  Hypothesis Hend : im_end im < KERNTOP.
  Hypothesis Habove : im_end im <= kva R < 2 ^ 64.
  Implicit Types s : boot_state.

(** The page after the code. *)
Definition text_pages : Z := (ROUNDUP (etext im) PGSIZE - KERNBASE) / PGSIZE.
Lemma text_pages_eq : ROUNDUP (etext im) PGSIZE = kpage text_pages /\ 0 <= text_pages <= KPAGES.
Proof.
  destruct (lk_text _ Hlinked) as [H1 H2]. unfold text_pages. change KPAGES with 32256. unfold kpage, KERNTOP, KERNBASE, KMEMSIZE in *.
  rewrite ROUNDUP_eq by lia. unfold PGSIZE. Z.to_euclidean_division_equations. lia.
Qed.

(** The entries before the guards. *)
Definition plain_pte (i : Z) : Z := if i <? text_pages then kpte (Z.lor PTE_R PTE_X) i else kpte (Z.lor PTE_R PTE_W) i.

Lemma kernel_pte_plain i : kernel_pte im i =
  if guarded im && ((kpage i =? bootstackguard im) || (kpage i =? boot_page_table_sv39 im)) then kpte 0 i else plain_pte i.
Proof.
  unfold kernel_pte, plain_pte. destruct text_pages_eq as [-> _]. replace (kpage i <? kpage text_pages) with (i <? text_pages); [done|].
  unfold kpage, PGSIZE. destruct (Z.ltb_spec i text_pages); symmetry; [apply Z.ltb_lt|apply Z.ltb_ge]; lia.
Qed.

Lemma stack_guards_run s : npage s = np -> boot_pgdir_va s = kva R -> kmap R n (bt_mach s) 1 63 KPAGES plain_pte ->
  exists m, stack_guards im s = Done (tt, set_mach m s) /\ kmap R n m 1 63 KPAGES (kernel_pte im).
Proof.
  intros Hnp Hva Hk. unfold stack_guards. fold (guarded im). pose proof kernel_pte_plain as Hpl. pose proof (lk_guard _ Hlinked) as Hg.
  destruct (guarded im); cbn [andb] in Hpl.
  2: { exists (bt_mach s). split; [by destruct s|]. apply (kmap_ext _ _ _ _ _ _ _ _ Hk). intros j _. by rewrite Hpl. }
  destruct (Hg eq_refl) as (g & t & Hgr & Htr & Hgp & Htp & Hbs & Hbt).
  set (m0 := words (bt_mach s)). set (m1 := fill m0 (boot_page_table_sv39 im) PGSIZE 0).
  set (m2 := upd m1 (bootstack im - 1) 0). set (m3 := upd m2 (bootstack im - PGSIZE) 0).
  set (s3 := set_mach (mkMachine m3 (phys (bt_mach s))) s).
  assert (Hm3 : forall a, kva R <= a -> m3 a = m0 a).
  { intros a Ha. unfold m3, m2, m1. rewrite !upd_ne by (unfold PGSIZE; lia). apply fill_out. lia. }
  pose proof (kmap_words R n _ _ _ _ _ m3 Hk Hm3) as Hk3.
  assert (Hw : forall {X} (k : ST boot_state X), (on_words (fun m => fill m (boot_page_table_sv39 im) PGSIZE 0) ;;
    on_words (fun m => upd m (bootstack im - 1) 0) ;; on_words (fun m => upd m (bootstack im - PGSIZE) 0) ;; k) s = k s3) by done.
  rewrite Hw. mstep (eq_refl : get npage s3 = Done (npage s, s3)). mstep (eq_refl : get boot_pgdir_va s3 = Done (boot_pgdir_va s, s3)).
  rewrite Hnp, Hva, Hgp, Htp. destruct (kpage_pa g ltac:(lia)) as (_ & _ & Hgb). destruct (kpage_pa t ltac:(lia)) as (_ & _ & Htb).
  mstep (PADDR_run (kpage g) s3 ltac:(unfold kpage, KERNBASE, PGSIZE in *; lia)).
  destruct (guard_run np R n Hram Hblock g _ _ Hk3 Hgr) as (x1 & Hr1 & Hk4). fold (bt_mach s3) in Hr1.
  mstep (on_machine_run _ tt x1 s3 Hr1). mstep (PADDR_run (kpage t) (set_mach x1 s3) ltac:(unfold kpage, KERNBASE, PGSIZE in *; lia)).
  destruct (guard_run np R n Hram Hblock t _ _ Hk4 Htr) as (x2 & Hr2 & Hk5).
  exists x2. split; [by rewrite (on_machine_run _ tt x2 (set_mach x1 s3) Hr2)|].
  apply (kmap_ext _ _ _ _ _ _ _ _ Hk5). intros j _. rewrite Hpl, Hgp, Htp. unfold upd.
  destruct (decide (j = t)) as [->|Hjt]; [by rewrite Z.eqb_refl, orb_true_r|].
  rewrite (proj2 (Z.eqb_neq (kpage j) (kpage t))) by (by intros ?%kpage_inj). rewrite orb_false_r.
  destruct (decide (j = g)) as [->|Hjg]; [by rewrite Z.eqb_refl|]. by rewrite (proj2 (Z.eqb_neq (kpage j) (kpage g))) by (by intros ?%kpage_inj).
Qed.

Lemma switch_layout_run s : npage s = np -> wf (phys (bt_mach s)) [(R, n)] ->
  exists s', switch_kernel_memorylayout im s = Done (tt, s') /\ npage s' = np /\ boot_pgdir_va s' = kva R /\
    boot_pgdir_pa s' = (R + nbase) * PGSIZE /\ kmap R n (bt_mach s') 1 63 KPAGES (kernel_pte im).
Proof.
  intros Hnp Hwf. unfold switch_kernel_memorylayout. mstep (eq_refl : get npage s = Done (npage s, s)). rewrite Hnp.
  destruct (root_taken np R n Hram Hblock (bt_mach s) Hwf) as (x1 & Hr1 & Hw1 & Hk1). mstep (on_machine_run _ _ x1 s Hr1).
  set (s1 := set_mach x1 s). set (x2 := mkMachine (fill (words x1) (kva R) PGSIZE 0) (phys x1)). specialize (Hk1 plain_pte).
  mstep (eq_refl : on_words (fun m => fill m (kva R) PGSIZE 0) s1 = Done (tt, set_mach x2 s1)). cbv zeta.
  destruct text_pages_eq as [Htext Htp]. rewrite Htext. destruct (kpage_pa text_pages Htp) as (_ & _ & Hkb).
  assert (HK : KERNBASE = kpage 0) by done. assert (HT : KERNTOP = kpage KPAGES) by done.
  mstep (PADDR_run KERNBASE (set_mach x2 s1) ltac:(unfold KERNBASE; lia)).
  assert (Hs1 : u64 (kpage text_pages - KERNBASE) = text_pages * PGSIZE).
  { rewrite u64_small; [unfold kpage; lia|]. unfold kpage, KERNBASE, PGSIZE in *. change KPAGES with 32256 in *. lia. }
  assert (Hs2 : u64 (KERNTOP - kpage text_pages) = (KPAGES - text_pages) * PGSIZE).
  { rewrite HT, u64_small; [unfold kpage; lia|]. unfold kpage, KERNBASE, PGSIZE in *. change KPAGES with 32256 in *. lia. }
  rewrite Hs1, Hs2, HK.
  assert (Hf1 : forall j, 0 <= j < 0 + text_pages -> plain_pte j = kpte (Z.lor PTE_R PTE_X) j)
    by (intros j Hj; unfold plain_pte; by rewrite (proj2 (Z.ltb_lt _ _)) by lia).
  destruct (segment_run np R n Hram Hblock (Z.lor PTE_R PTE_X) text_pages x2 0 0 0 plain_pte ltac:(split; vm_compute; done)
    Hk1 (proj1 Htp) (proj2 Htp) Hf1) as (x3 & d3 & t3 & Hr3 & Hk3).
  mstep (on_machine_run _ _ x3 (set_mach x2 s1) Hr3).
  mstep (PADDR_run (kpage text_pages) (set_mach x3 (set_mach x2 s1)) ltac:(unfold kpage, KERNBASE, PGSIZE in *; lia)).
  rewrite Z.add_0_l in Hk3.
  assert (Hf2 : forall j, text_pages <= j < text_pages + (KPAGES - text_pages) -> plain_pte j = kpte (Z.lor PTE_R PTE_W) j)
    by (intros j Hj; unfold plain_pte; by rewrite (proj2 (Z.ltb_ge _ _)) by lia).
  destruct (segment_run np R n Hram Hblock (Z.lor PTE_R PTE_W) (KPAGES - text_pages) x3 d3 t3 text_pages plain_pte ltac:(split; vm_compute; done)
    Hk3 ltac:(lia) ltac:(lia) Hf2) as (x4 & d4 & t4 & Hr4 & Hk4).
  mstep (on_machine_run _ _ x4 (set_mach x3 (set_mach x2 s1)) Hr4).
  set (s4 := set_mach x4 (set_mach x3 (set_mach x2 s1))).
  mstep (PADDR_run (kva R) s4 ltac:(destruct (lk_text _ Hlinked); lia)).
  set (s5 := set_boot_pgdir (kva R) (kva R - PHYSICAL_MEMORY_OFFSET) s4).
  mstep (eq_refl : modify (set_boot_pgdir (kva R) (kva R - PHYSICAL_MEMORY_OFFSET)) s4 = Done (tt, s5)).
  replace (text_pages + (KPAGES - text_pages)) with KPAGES in Hk4 by lia.
  destruct (km_range _ _ _ _ _ _ _ Hk4) as (Hd4 & Ht4 & Hdt & Hi4). change KPAGES with 32256 in Hi4.
  assert (t4 = 63) as -> by lia. assert (d4 = 1) as -> by lia.
  destruct (stack_guards_run s5 Hnp eq_refl Hk4) as (x6 & Hr6 & Hk6). rewrite Hr6.
  eexists. split; [done|]. split; [done|]. split; [done|]. split; [cbn; unfold kva; lia|done].
Qed.
End switch.

(** ** The whole start *)

Lemma init_empty a : exists a', default_init a = Done (tt, a') /\ wf a' [].
Proof.
  eexists. split; [done|]. split; cbn; [apply list_init_dlist|done|by intros b ?%elem_of_nil|done|done].
Qed.

Lemma root_above im e : placed im e -> 0 <= first_free im e -> first_free im e < all_pages e ->
  im_end im <= kva (first_free im e) < 2 ^ 64 /\ nbase < e / PGSIZE /\ e / PGSIZE * PGSIZE + PHYSICAL_MEMORY_OFFSET <= 2 ^ 64.
Proof.
  intros [[He1 He2] [Ht1 Ht2]] H0 Hlt. unfold kva, all_pages in *. unfold KERNTOP, KERNBASE, KMEMSIZE, PHYSICAL_MEMORY_OFFSET in *. change nbase with 524288 in *.
  assert (Hb : im_end im <= (first_free im e + 524288) * PGSIZE + 0xFFFFFFFF40000000).
  { assert (Hd : im_end im - 0xFFFFFFFF40000000 <= descriptors_end im e < 2 ^ 63).
    { unfold descriptors_end, sizeof_Page, all_pages, PHYSICAL_MEMORY_OFFSET. change nbase with 524288. rewrite ROUNDUP_eq by lia. unfold PGSIZE in *.
      Z.to_euclidean_division_equations. lia. }
    unfold first_free. rewrite ROUNDUP_eq by lia. change nbase with 524288. unfold PGSIZE. rewrite Z.sub_add, Z.div_mul by done.
    Z.to_euclidean_division_equations. lia. }
  unfold PGSIZE in *. split; [split; [exact Hb|]|]; Z.to_euclidean_division_equations; lia.
Qed.

(** What the kernel runs on when [pmm_init] returns, with [e] the end of the memory. *)
Record started (im : image) (e : Z) (s' : boot_state) : Prop := mkStarted {
  st_npage : npage s' = e / PGSIZE;
  st_root : boot_pgdir_va s' = kva (first_free im e) /\ boot_pgdir_pa s' = (first_free im e + nbase) * PGSIZE;
  st_free : wf (phys (bt_mach s')) [(first_free im e + 65, all_pages e - first_free im e - 65)];
  st_window i : 0 <= i < KPAGES -> walk (words (bt_mach s')) (first_free im e) (kpage i) = kernel_pte im i;
  st_outside la : canonical la -> ~ KERNBASE <= la < KERNTOP -> walk (words (bt_mach s')) (first_free im e) la = 0 }.

Lemma pmm_init_run im s : 0 <= bt_base s -> 0 < bt_size s -> placed im (bt_base s + bt_size s) -> linked im ->
  first_free im (bt_base s + bt_size s) + 65 < all_pages (bt_base s + bt_size s) ->
  exists s', pmm_init im s = Done (tt, s') /\ started im (bt_base s + bt_size s) s'.
Proof.
  intros Hb Hn Hpl Hl Hroom. set (e := bt_base s + bt_size s) in *. unfold pmm_init.
  destruct (init_empty (phys (bt_mach s))) as (a & Ha & Hwf). mstep (on_pmm_run default_init tt a s Ha).
  set (s1 := set_mach (mkMachine (words (bt_mach s)) a) s).
  destruct (layout im s1 Hpl) as (_ & Ha1 & _ & _ & H0). change (bt_base s1 + bt_size s1) with e in *.
  destruct (page_init_run im s1 (conj Hb Hn) Hpl Hwf) as [Hok _]. change (bt_base s1 + bt_size s1) with e in *.
  destruct (Hok ltac:(lia)) as (s2 & Hrun2 & [Hnp Hw Hf _]). mstep Hrun2. rewrite (proj2 (Z.ltb_lt _ _)) in Hf by lia.
  destruct (root_above im e Hpl H0 ltac:(lia)) as (Habove & Hr1 & Hr2).
  assert (Hblock : 0 <= first_free im e /\ first_free im e + (all_pages e - first_free im e) <= e / PGSIZE - nbase /\ 65 < all_pages e - first_free im e)
    by (split; [done|]; unfold all_pages in *; lia).
  destruct (switch_layout_run im (e / PGSIZE) (first_free im e) (all_pages e - first_free im e) (conj Hr1 Hr2) Hblock Hl (proj2 (pl_end _ _ Hpl)) Habove s2 Hnp Hf)
    as (s3 & Hrun3 & Hnp3 & Hva & Hpa & Hk).
  exists s3. split; [done|].
  destruct (kmap_final _ _ _ _ _ (conj Hr1 Hr2) Hblock Hk) as [Hin Hout].
  split; [done|done| |done|done]. pose proof (km_free _ _ _ _ _ _ _ Hk) as Hfree.
  replace (first_free im e + 1 + 1 + 63) with (first_free im e + 65) in Hfree by lia.
  by replace (all_pages e - first_free im e - 1 - 1 - 63) with (all_pages e - first_free im e - 65) in Hfree by lia.
Qed.

(** [page_init] gives the allocator exactly the pages between the descriptors and the end
    of the memory, as one block, and marks all pages below as reserved; nothing is given when
    the descriptors reach the end.  In between there is one layout for which the start of
    the kernel panics: when the descriptors end inside the last page, the test lets them pass and
    the page behind the memory is looked up. *)
Theorem page_init_frees im s : 0 <= bt_base s -> 0 < bt_size s -> placed im (bt_base s + bt_size s) ->
  wf (phys (bt_mach s)) [] ->
  let e := bt_base s + bt_size s in
  (first_free im e < all_pages e \/ e / PGSIZE * PGSIZE <= descriptors_end im e ->
   exists s', page_init im s = Done (tt, s') /\ page_inited im e s s') /\
  (first_free im e = all_pages e -> descriptors_end im e < e / PGSIZE * PGSIZE -> page_init im s = Panicked).
Proof. intros Hb Hn Hpl Hwf. by apply page_init_run. Qed.

(** C15 From the device tree in memory to the tables the kernel runs on: the memory the tree
    describes is found, and every page of the window of the kernel is mapped to where it lies
    in memory, the code to be run and not written, everything else to be written and not run, and the
    two pages around the boot stack not at all; no other address is mapped, and the pages from the
    66th behind the descriptors on are free.  Enough memory is 66 pages behind the descriptors. *)
Theorem memory_start_maps_kernel im fuel memory_str reg_str s t l b n :
  bytes_ok (words (bt_mach s)) ->
  string_at (words (bt_mach s)) memory_str memory_name -> string_at (words (bt_mach s)) reg_str reg_name ->
  0 < bt_dtb s -> dtb_at (words (bt_mach s)) (bt_dtb s + PHYSICAL_MEMORY_OFFSET) t l -> memory_leaves t = true ->
  Forall (name_fits fuel) l -> (length l < fuel)%nat -> (3 < fuel)%nat ->
  memory_of t = Some (b, n) -> 0 <= b -> 0 < n -> placed im (b + n) -> linked im -> first_free im (b + n) + 65 < all_pages (b + n) ->
  exists s', memory_start im fuel memory_str reg_str s = Done (tt, s') /\ started im (b + n) s'.
Proof.
  intros Hm Hmemory Hreg Hd Hat Hleaves Hfits Hlen Hfuel Hmem Hb Hn Hpl Hl Hroom. unfold memory_start.
  set (d := mkDt (bt_dtb s) (bt_base s) (bt_size s) (words (bt_mach s))).
  pose proof (dtb_init_run fuel memory_str reg_str d Hm Hmemory Hreg Hfuel t l Hd Hat Hleaves Hfits Hlen) as Hrun. rewrite Hmem in Hrun.
  set (s1 := mkBoot (bt_dtb s) b n (npage s) (boot_pgdir_va s) (boot_pgdir_pa s) (mkMachine (words (bt_mach s)) (phys (bt_mach s)))).
  assert (Hdt : on_dt (dtb_init fuel memory_str reg_str) s = Done (tt, s1)) by (unfold on_dt; fold d; by rewrite Hrun).
  mstep Hdt. apply (pmm_init_run im s1 Hb Hn Hpl Hl Hroom).
Qed.

(** ** A kernel of 2 MB in the memory of the sample tree *)
Definition sample_image : image :=
  mkImage (KERNBASE + 0x200000) (KERNBASE + 0x18000) (KERNBASE + 0x20000) (KERNBASE + 0x21000) (KERNBASE + 0x23000) (KERNBASE + 0x23000).
Definition sample_boot : boot_state := mkBoot qemu_dtb 0 0 0 0 0 (mkMachine qemu_mem boot).

Lemma sample_placed : placed sample_image (0x80000000 + 0x8000000).
Proof. split; vm_compute; split; (done || discriminate). Qed.
Lemma sample_linked : linked sample_image.
Proof. split; [vm_compute; split; discriminate|]. intros _. exists 32, 35. vm_compute. repeat split; discriminate. Qed.

Lemma page_init_frees_witness :
  exists s', page_init sample_image (mkBoot 0 0x80000000 0x8000000 0 0 0 (mkMachine qemu_mem boot)) = Done (tt, s') /\
    page_inited sample_image (0x80000000 + 0x8000000) (mkBoot 0 0x80000000 0x8000000 0 0 0 (mkMachine qemu_mem boot)) s'.
Proof.
  apply (page_init_frees sample_image (mkBoot 0 0x80000000 0x8000000 0 0 0 (mkMachine qemu_mem boot))).
  - done.
  - done.
  - exact sample_placed.
  - split; [split; [apply NoDup_singleton|done]|done|by intros b ?%elem_of_nil|done|done].
  - left. vm_compute. reflexivity.
Defined.

Lemma memory_start_maps_kernel_witness :
  exists s', memory_start sample_image 20 (qemu_literal 0) (qemu_literal 7) sample_boot = Done (tt, s') /\
    started sample_image (0x80000000 + 0x8000000) s'.
Proof.
  apply (memory_start_maps_kernel sample_image 20 (qemu_literal 0) (qemu_literal 7) sample_boot qemu_tree qemu_items 0x80000000 0x8000000).
  - exact qemu_ok.
  - exact (proj1 qemu_literals).
  - exact (proj2 qemu_literals).
  - reflexivity.
  - exact qemu_at.
  - reflexivity.
  - compute_layout.
  - vm_compute. lia.
  - lia.
  - reflexivity.
  - done.
  - done.
  - exact sample_placed.
  - exact sample_linked.
  - vm_compute. reflexivity.
Defined.
