(* ===== verification/Slob.v ===== *)
(** * The small-object allocator (kern/mm/kmalloc.c)

    The free blocks are a ring linked through the blocks themselves, in address
    order; large requests take pages and are remembered in a list.  The fields of
    a block are kept by its address; a pointer to [slob_t] moves by 16 bytes. *)
From S2P Require Import Prelude Libs Mem Vmm Process PageTable.

Record slob_t := mkSlob { units : Z; next : Z }.
(** [order] and [pages]. *)
Record bigblock_t := mkBig { border : Z; bpages : Z }.

Definition SLOB_UNIT : Z := 16.
Definition SLOB_UNITS (size : Z) : Z := (size + SLOB_UNIT - 1) / SLOB_UNIT.
Definition sizeof_bigblock : Z := 24.
Definition ALIGN (addr size : Z) : Z := Z.land (u64 (addr + size - 1)) (u64 (Z.lnot (size - 1))).

Record kheap (A : Type) := mkHeap {
  slobs : Z -> slob_t; slobfree : Z; bigblocks : list Z; bigs : Z -> bigblock_t; pagemem : machine A }.
Arguments mkHeap {A}. Arguments slobs {A}. Arguments slobfree {A}. Arguments bigblocks {A}.
Arguments bigs {A}. Arguments pagemem {A}.

Section slob.
  Context {A : Type} `{PmmManager A} (npage : Z).
  (** More than the number of free blocks. *)
  Context (fuel : nat).
  Notation M := (ST (kheap A)).

Definition set_slob (p : Z) (b : slob_t) : M unit :=
  modify (fun h => mkHeap (upd (slobs h) p b) (slobfree h) (bigblocks h) (bigs h) (pagemem h)).
Definition set_units (p u : Z) : M unit := b ← get (fun h => slobs h p); set_slob p (mkSlob u (next b)).
Definition set_next (p n : Z) : M unit := b ← get (fun h => slobs h p); set_slob p (mkSlob (units b) n).
Definition get_units (p : Z) : M Z := get (fun h => units (slobs h p)).
Definition get_next (p : Z) : M Z := get (fun h => next (slobs h p)).
Definition set_slobfree (p : Z) : M unit :=
  modify (fun h => mkHeap (slobs h) p (bigblocks h) (bigs h) (pagemem h)).
(** [p + n] for a pointer to [slob_t]. *)
Definition plus (p n : Z) : Z := p + SLOB_UNIT * n.

Definition on_pages {X} (m : ST (machine A) X) : M X := fun h =>
  match m (pagemem h) with
  | Done (x, mm) => Done (x, mkHeap (slobs h) (slobfree h) (bigblocks h) (bigs h) mm)
  | Panicked => Panicked
  | NoFuel => NoFuel
  end.

(** 0 stands for [NULL]. *)
Definition __slob_get_free_pages (order : Z) : M Z :=
  o ← on_pages (alloc_pages (Z.shiftl 1 order));
  match o with None => mret 0 | Some p => on_pages (page2kva npage p) end.
Definition __slob_free_pages (kva order : Z) : M unit :=
  pa ← on_pages (assert (KERNBASE <=? kva) ;; mret (u64 (kva - PHYSICAL_MEMORY_OFFSET)));
  p ← on_pages (pa2page npage pa);
  on_pages (free_pages p (Z.shiftl 1 order)).

(** ** Giving back a block *)

(** [for (cur = slobfree; !(b > cur && b < cur->next); cur = cur->next)]. *)
Fixpoint find_place (fuel : nat) (b cur : Z) : M Z :=
  match fuel with
  | O => no_fuel
  | S fuel' =>
      n ← get_next cur;
      if (cur <? b) && (b <? n) then mret cur
      else if (n <=? cur) && ((cur <? b) || (b <? n)) then mret cur
      else find_place fuel' b n
  end.

Definition slob_free (block size : Z) : M unit :=
  if block =? 0 then mret tt
  else
    (if negb (size =? 0) then set_units block (SLOB_UNITS size) else mret tt) ;;
    start ← get slobfree;
    cur ← find_place fuel block start;
    n ← get_next cur;
    bu ← get_units block;
    (if plus block bu =? n then
       nu ← get_units n;
       set_units block (s32 (bu + nu)) ;;
       nn ← get_next n;
       set_next block nn
     else set_next block n) ;;
    cu ← get_units cur;
    bu ← get_units block;
    bn ← get_next block;
    (if plus cur cu =? block then set_units cur (s32 (cu + bu)) ;; set_next cur bn
     else set_next cur block) ;;
    set_slobfree cur.

(** ** Taking a block *)

(** Room for alignment at the head of [cur]. *)
Definition split_head (cur aligned delta : Z) : M unit :=
  u ← get_units cur;
  n ← get_next cur;
  set_slob aligned (mkSlob (s32 (u - delta)) n) ;;
  set_next cur aligned ;;
  set_units cur delta.

Definition take (prev cur un : Z) : M unit :=
  u ← get_units cur;
  if u =? un then n ← get_next cur; set_next prev n
  else
    let rest := plus cur un in
    set_next prev rest ;;
    u ← get_units cur;
    set_units rest (s32 (u - un)) ;;
    n ← get_next cur;
    set_next rest n ;;
    set_units cur un.

Fixpoint slob_loop (k : nat) (prev cur size align : Z) : M Z :=
  match k with
  | O => no_fuel
  | S k' =>
      let un := SLOB_UNITS size in
      let aligned := if align =? 0 then 0 else ALIGN cur align in
      let delta := if align =? 0 then 0 else (aligned - cur) / SLOB_UNIT in
      u ← get_units cur;
      if un + delta <=? u then
        '(prev, cur) ← (if negb (delta =? 0) then split_head cur aligned delta ;; mret (cur, aligned)
                        else mret (prev, cur) : M (Z * Z));
        take prev cur un ;;
        set_slobfree prev ;;
        mret cur
      else
        f ← get slobfree;
        if cur =? f then
          if size =? PGSIZE then mret 0
          else
            page ← __slob_get_free_pages 0;
            if page =? 0 then mret 0
            else
              slob_free page PGSIZE ;;
              cur ← get slobfree;
              n ← get_next cur;
              slob_loop k' cur n size align
        else
          n ← get_next cur;
          slob_loop k' cur n size align
  end.
Definition slob_alloc (size align : Z) : M Z :=
  assert (size + SLOB_UNIT <? PGSIZE) ;;
  prev ← get slobfree;
  cur ← get_next prev;
  slob_loop (2 * fuel) prev cur size align.

(** ** kmalloc and kfree *)
Fixpoint find_order_loop (k : nat) (size : Z) : Z :=
  match k with
  | O => 0
  | S k' => if 4096 <? size then 1 + find_order_loop k' (Z.shiftr size 1) else 0
  end.
(** An [int] has 31 bits above its sign. *)
Definition find_order (size : Z) : Z := find_order_loop 31 size.

Definition __kmalloc (size : Z) : M Z :=
  if size <? PGSIZE - SLOB_UNIT then
    m ← slob_alloc (size + SLOB_UNIT) 0;
    mret (if m =? 0 then 0 else plus m 1)
  else
    bb ← slob_alloc sizeof_bigblock 0;
    if bb =? 0 then mret 0
    else
      let o := find_order (s32 size) in
      pages ← __slob_get_free_pages o;
      if negb (pages =? 0) then
        modify (fun h => mkHeap (slobs h) (slobfree h) (bb :: bigblocks h) (upd (bigs h) bb (mkBig o pages)) (pagemem h)) ;;
        mret pages
      else slob_free bb sizeof_bigblock ;; mret 0.
Definition kmalloc (size : Z) : M Z := __kmalloc size.

(** The block of [bigblocks] whose pages are [block]. *)
Definition find_big (block : Z) (h : kheap A) : option Z :=
  find (fun bb => bpages (bigs h bb) =? block) (bigblocks h).
Definition page_aligned (block : Z) : bool := Z.land block (PGSIZE - 1) =? 0.

Definition kfree (block : Z) : M unit :=
  if block =? 0 then mret tt
  else
    o ← get (fun h => if page_aligned block then find_big block h else None);
    match o with
    | Some bb =>
        modify (fun h => mkHeap (slobs h) (slobfree h) (filter (fun x => x <> bb) (bigblocks h)) (bigs h) (pagemem h)) ;;
        ord ← get (fun h => border (bigs h bb));
        __slob_free_pages block ord ;;
        slob_free bb sizeof_bigblock
    | None => slob_free (plus block (-1)) 0
    end.

Definition ksize (block : Z) (h : kheap A) : Z :=
  if block =? 0 then 0
  else match (if page_aligned block then find_big block h else None) with
  | Some bb => u32 (Z.shiftl PGSIZE (border (bigs h bb)))
  | None => u32 (units (slobs h (plus block (-1))) * SLOB_UNIT)
  end.
Definition slob_allocated : Z := 0.
Definition kallocated : Z := slob_allocated.
End slob.
