(* ===== verification/SlobSpec.v ===== *)
(** * The small-object allocator, specified

    The ring of free blocks as a list sorted by address, in units of 16 bytes;
    giving back and taking a block refine the same abstract operations as the page
    allocator's. *)
From S2P Require Import Prelude Libs CList Mem DefaultPmm Vmm Process PageTable PageTableSpec PagePmm Slob.

Definition addr (s : Z) : Z := SLOB_UNIT * s.
Definition head_or (e : Z) (xs : list block) : Z := match xs with [] => e | (s, _) :: _ => s end.

(** The blocks [xs] are linked in order; the last one leads to [e]. *)
Fixpoint chain (sl : Z -> slob_t) (xs : list block) (e : Z) : Prop :=
  match xs with
  | [] => True
  | (s, k) :: r => sl (addr s) = mkSlob k (addr (head_or e r)) /\ chain sl r e
  end.

Lemma chain_app sl xs ys e : chain sl (xs ++ ys) e <-> chain sl xs (head_or e ys) /\ chain sl ys e.
Proof.
  induction xs as [|[s k] xs IH]; cbn [app chain]; [tauto|]. rewrite IH.
  assert (Hh : head_or e (xs ++ ys) = head_or (head_or e ys) xs) by (by destruct xs as [|[? ?] ?]). rewrite Hh. tauto.
Qed.

(** Blocks whose own records are unchanged stay linked. *)
Lemma chain_ext sl sl' xs e : (forall s k, (s, k) ∈ xs -> sl' (addr s) = sl (addr s)) -> chain sl xs e -> chain sl' xs e.
Proof.
  induction xs as [|[s k] xs IH]; intros Hs; [done|]. cbn. intros [H1 H2]. split; [rewrite (Hs s k); [done|left]|].
  apply IH; [|done]. intros s' k' Hin. apply (Hs s' k'). by right.
Qed.

Lemma addr_inj a b : addr a = addr b -> a = b. Proof. unfold addr, SLOB_UNIT. lia. Qed.
Lemma addr_lt a b : (addr a <? addr b) = (a <? b).
Proof. unfold addr, SLOB_UNIT. destruct (Z.ltb_spec a b), (Z.ltb_spec (16 * a) (16 * b)); lia || done. Qed.
Lemma addr_le a b : (addr a <=? addr b) = (a <=? b).
Proof. unfold addr, SLOB_UNIT. destruct (Z.leb_spec a b), (Z.leb_spec (16 * a) (16 * b)); lia || done. Qed.
Lemma plus_addr s k : plus (addr s) k = addr (s + k). Proof. unfold plus, addr, SLOB_UNIT. lia. Qed.
Lemma addr_eqb a b : (addr a =? addr b) = (a =? b).
Proof. unfold addr, SLOB_UNIT. destruct (Z.eqb_spec a b), (Z.eqb_spec (16 * a) (16 * b)); lia || done. Qed.

Section slob_spec.
  Context {A : Type} `{PmmManager A} (npage : Z).
  (** The arena lies below every other block and touches none. *)
  Context (a0 : Z).
  Implicit Types h : kheap A.

Record heap_ok h (xs : list block) : Prop := mkHeapOk {
  he_arena : exists ys, xs = (a0, 1) :: ys /\ forall s k, (s, k) ∈ ys -> a0 + 1 < s;
  he_chain : chain (slobs h) xs a0;
  he_sorted : blocks_from 1 xs;
  he_bound : free_total xs < 2 ^ 31;
  he_start : exists f k, slobfree h = addr f /\ (f, k) ∈ xs }.

(** The large blocks and the page allocator are untouched. *)
Definition kept h h' : Prop := bigblocks h' = bigblocks h /\ bigs h' = bigs h /\ pagemem h' = pagemem h.

Lemma get_next_run p h : get_next p h = Done (next (slobs h p), h). Proof. done. Qed.
Lemma get_units_run p h : get_units p h = Done (units (slobs h p), h). Proof. done. Qed.

Lemma blocks_from_suffix lo pre ys : blocks_from lo (pre ++ ys) -> blocks_from lo ys.
Proof.
  revert lo. induction pre as [|[s k] pre IH]; intros lo; [done|]. cbn. intros (? & ? & Hs%IH).
  eapply blocks_from_weaken; [|exact Hs]. lia.
Qed.

(** ** The place of a block *)
Lemma walk_below b e p pk p2 h : forall seg m, chain (slobs h) (seg ++ (p, pk) :: p2) e ->
  blocks_from 0 (seg ++ (p, pk) :: p2) -> p < b ->
  find_place (length seg + m) (addr b) (addr (head_or p seg)) h = find_place m (addr b) (addr p) h.
Proof.
  induction seg as [|[c ck] seg IH]; intros m Hc Hs Hb; [done|]. cbn [length Nat.add find_place head_or app].
  cbn [app chain blocks_from] in Hc, Hs. destruct Hc as [Hc1 Hc2], Hs as (Hs0 & Hk & Hs).
  mstep (get_next_run (addr c) h). rewrite Hc1. cbn [next].
  assert (Hn : head_or e (seg ++ (p, pk) :: p2) = head_or p seg) by (by destruct seg as [|[? ?] ?]). rewrite Hn.
  assert (Hcn : c < head_or p seg /\ head_or p seg <= p).
  { destruct seg as [|[d dk] seg]; cbn in Hs |- *; [lia|].
    destruct Hs as (? & ? & Hs). apply blocks_from_app in Hs as (_ & _ & ? & _). lia. }
  rewrite !addr_lt, addr_le. destruct (Z.ltb_spec b (head_or p seg)); [lia|]. rewrite andb_false_r, orb_false_r.
  destruct (Z.leb_spec (head_or p seg) c); [lia|]. cbn [andb]. apply IH; [done| |done].
  eapply blocks_from_weaken; [|exact Hs]. lia.
Qed.

Lemma walk_above b h : forall seg m, chain (slobs h) seg a0 -> blocks_from 0 seg ->
  (forall s k, (s, k) ∈ seg -> b < s) -> a0 < b ->
  find_place (length seg + m) (addr b) (addr (head_or a0 seg)) h = find_place m (addr b) (addr a0) h.
Proof.
  induction seg as [|[c ck] seg IH]; intros m Hc Hs Hall Hb; [done|]. cbn [length Nat.add find_place head_or].
  cbn [chain blocks_from] in Hc, Hs. destruct Hc as [Hc1 Hc2], Hs as (Hs0 & Hk & Hs).
  mstep (get_next_run (addr c) h). rewrite Hc1. cbn [next]. pose proof (Hall c ck ltac:(left)) as Hbc.
  rewrite !addr_lt, addr_le. destruct (Z.ltb_spec c b); [lia|]. cbn [andb orb].
  assert (Hn : (head_or a0 seg <=? c) && (b <? head_or a0 seg) = false).
  { destruct seg as [|[d dk] seg]; cbn in Hs |- *.
    - destruct (Z.ltb_spec b a0); [lia|]. apply andb_false_r.
    - destruct (Z.leb_spec d c); [lia|done]. }
  rewrite Hn. apply IH; [done| | |done].
  - eapply blocks_from_weaken; [|exact Hs]. lia.
  - intros s k Hin. apply (Hall s k). by right.
Qed.

Lemma find_place_stop b p pk p2 h m : chain (slobs h) ((p, pk) :: p2) a0 -> a0 < b -> a0 <= p -> p < b ->
  (forall s k, (s, k) ∈ p2 -> b < s) -> find_place (S m) (addr b) (addr p) h = Done (addr p, h).
Proof.
  intros [Hc _] Hb Hap Hp Hall. cbn [find_place]. mstep (get_next_run (addr p) h). rewrite Hc. cbn [next].
  rewrite !addr_lt, addr_le. destruct (Z.ltb_spec p b); [|lia]. cbn [andb orb]. rewrite andb_true_r.
  destruct p2 as [|[s k] p2]; cbn [head_or].
  - destruct (Z.ltb_spec b a0); [lia|]. destruct (Z.leb_spec a0 p); [done|lia].
  - pose proof (Hall s k ltac:(left)). destruct (Z.ltb_spec b s); [done|lia].
Qed.

(** From any block of the ring the block below [b] is found in one round. *)
Lemma find_place_run h xs b p1 p pk p2 f fk fuel : heap_ok h xs -> xs = p1 ++ (p, pk) :: p2 -> p < b -> a0 < b ->
  (forall s k, (s, k) ∈ p2 -> b < s) -> (f, fk) ∈ xs -> (length xs < fuel)%nat ->
  find_place fuel (addr b) (addr f) h = Done (addr p, h).
Proof.
  intros [(ys & Hys & Hlow) Hc Hs _ _] Hxs Hp Hb Hall Hf Hfuel.
  assert (Hs0 : blocks_from 0 xs) by (by eapply blocks_from_weaken; [|exact Hs]).
  assert (Hap : a0 <= p).
  { assert ((p, pk) ∈ xs) as Hin by (rewrite Hxs; apply elem_of_app; right; left). rewrite Hys in Hin.
    apply elem_of_cons in Hin as [[= -> ->]|Hin]; [lia|]. specialize (Hlow _ _ Hin). lia. }
  assert (Hrun : forall seg pre m, p1 = pre ++ seg ->
            find_place (length seg + S m) (addr b) (addr (head_or p seg)) h = Done (addr p, h)).
  { intros seg pre m Hseg. rewrite Hxs, Hseg, <- app_assoc in Hc, Hs0. apply chain_app in Hc as [_ Hc].
    apply blocks_from_suffix in Hs0. rewrite (walk_below b a0 p pk p2) by done.
    apply (find_place_stop b p pk p2); try done. by apply chain_app in Hc as [_ Hc]. }
  rewrite Hxs, length_app in Hfuel. cbn in Hfuel. rewrite Hxs in Hf. apply elem_of_app in Hf as [Hf|Hf].
  - apply list_elem_of_split in Hf as (pre & rest & Hp1). specialize (Hrun ((f, fk) :: rest) pre).
    rewrite Hp1, length_app in Hfuel. cbn in Hfuel.
    replace fuel with (length ((f, fk) :: rest) + S (fuel - length rest - 2))%nat by (cbn; lia). by apply Hrun.
  - apply elem_of_cons in Hf as [[= -> ->]|Hf].
    + specialize (Hrun [] p1). replace fuel with (length (@nil block) + S (fuel - 1))%nat by (cbn; lia).
      apply Hrun. by rewrite app_nil_r.
    + apply list_elem_of_split in Hf as (q1 & q2 & Hp2).
      assert (Hx2 : xs = (p1 ++ (p, pk) :: q1) ++ (f, fk) :: q2) by (rewrite Hxs, Hp2, <- app_assoc; done).
      rewrite Hp2, length_app in Hfuel. cbn in Hfuel.
      replace fuel with (length ((f, fk) :: q2) + (length p1 + S (fuel - length q2 - length p1 - 2)))%nat by (cbn; lia).
      assert (Hw := walk_above b h ((f, fk) :: q2) (length p1 + S (fuel - length q2 - length p1 - 2))). cbn [head_or] in Hw.
      rewrite Hw; [|rewrite Hx2 in Hc; by apply chain_app in Hc as [_ Hc]
                   |rewrite Hx2 in Hs0; by apply blocks_from_suffix in Hs0
                   |intros s k Hin; apply (Hall s k); rewrite Hp2; apply elem_of_app; by right|done].
      assert (Ha0 : head_or p p1 = a0) by (rewrite Hys in Hxs; destruct p1 as [|[? ?] ?]; cbn in *; congruence).
      rewrite <- Ha0. by apply (Hrun p1 []).
Qed.

(** ** Giving back a block *)

(** The records of [b] and of the block [p] below it once [b] is linked, [n] being
    the block above. *)
Definition linked_b (b k n : Z) (bn : slob_t) : slob_t :=
  if b + k =? n then mkSlob (s32 (k + units bn)) (next bn) else mkSlob k (addr n).
Definition linked_p (p pk b : Z) (nb : slob_t) : slob_t :=
  if p + pk =? b then mkSlob (s32 (pk + units nb)) (next nb) else mkSlob pk (addr b).

(** What changed in the heap: two records and the start of the search. *)
Record relinked h h' (b p : Z) (nb np : slob_t) : Prop := mkRelinked {
  rl_b : slobs h' (addr b) = nb;
  rl_p : slobs h' (addr p) = np;
  rl_other q : q <> addr b -> q <> addr p -> slobs h' q = slobs h q;
  rl_free : slobfree h' = addr p;
  rl_rest : kept h h' }.

Lemma set_units_run q u h : set_units q u h =
  Done (tt, mkHeap (upd (slobs h) q (mkSlob u (next (slobs h q)))) (slobfree h) (bigblocks h) (bigs h) (pagemem h)).
Proof. done. Qed.
Lemma set_next_run q n h : set_next q n h =
  Done (tt, mkHeap (upd (slobs h) q (mkSlob (units (slobs h q)) n)) (slobfree h) (bigblocks h) (bigs h) (pagemem h)).
Proof. done. Qed.

Lemma slob_free_run h b k size p pk n fuel : b <> p -> n <> b -> b <> 0 ->
  (size = 0 /\ units (slobs h (addr b)) = k \/ size <> 0 /\ SLOB_UNITS size = k) ->
  slobs h (addr p) = mkSlob pk (addr n) ->
  (forall h', slobfree h' = slobfree h -> (forall q, q <> addr b -> slobs h' q = slobs h q) ->
     find_place fuel (addr b) (slobfree h') h' = Done (addr p, h')) ->
  exists h', slob_free fuel (addr b) size h = Done (tt, h') /\
    relinked h h' b p (linked_b b k n (slobs h (addr n))) (linked_p p pk b (linked_b b k n (slobs h (addr n)))).
Proof.
  intros Hbp Hnb Hb0 Hk Hp Hfind. unfold slob_free.
  assert (Hab : addr b <> addr p) by (intros ?%addr_inj; done).
  assert (Hna : addr n <> addr b) by (intros ?%addr_inj; done).
  rewrite (proj2 (Z.eqb_neq _ _)) by (unfold addr, SLOB_UNIT; lia).
  assert (H1 : exists h1, ((if negb (size =? 0) then set_units (addr b) (SLOB_UNITS size) else mret tt) : ST (kheap A) unit) h = Done (tt, h1) /\
            units (slobs h1 (addr b)) = k /\ (forall q, q <> addr b -> slobs h1 q = slobs h q) /\
            slobfree h1 = slobfree h /\ bigblocks h1 = bigblocks h /\ bigs h1 = bigs h /\ pagemem h1 = pagemem h).
  { destruct Hk as [[-> Hk]|[Hs Hk]].
    - exists h. done.
    - rewrite (proj2 (Z.eqb_neq _ _)) by done. cbn [negb]. rewrite set_units_run. eexists. split; [done|]. cbn.
      rewrite upd_eq. split; [done|]. split; [|done]. intros q Hq. by apply upd_ne. }
  destruct H1 as (h1 & Hr1 & Hu1 & Ho1 & Hf1 & Hx1). mstep Hr1.
  mstep (eq_refl : get slobfree h1 = Done (slobfree h1, h1)). mstep (Hfind h1 Hf1 Ho1).
  mstep (get_next_run (addr p) h1). rewrite (Ho1 (addr p)), Hp by done. cbn [next].
  mstep (get_units_run (addr b) h1). rewrite Hu1, plus_addr, addr_eqb.
  set (nb := linked_b b k n (slobs h (addr n))).
  assert (H2 : exists h2, ((if b + k =? n then
       nu ← get_units (addr n);
       set_units (addr b) (s32 (k + nu)) ;;
       nn ← get_next (addr n);
       set_next (addr b) nn
     else set_next (addr b) (addr n)) : ST (kheap A) unit) h1 = Done (tt, h2) /\
     slobs h2 (addr b) = nb /\ (forall q, q <> addr b -> slobs h2 q = slobs h q) /\
     bigblocks h2 = bigblocks h /\ bigs h2 = bigs h /\ pagemem h2 = pagemem h).
  { unfold nb, linked_b. destruct (b + k =? n).
    - mstep (get_units_run (addr n) h1). rewrite (Ho1 (addr n)) by done.
      eexists. split; [done|]. cbn. rewrite !upd_eq, upd_ne by done. rewrite (Ho1 (addr n)) by done. cbn.
      split; [done|]. split; [|done]. intros q Hq. rewrite !upd_ne by done. by apply Ho1.
    - rewrite set_next_run, Hu1. eexists. split; [done|]. cbn. rewrite upd_eq. split; [done|]. split; [|done].
      intros q Hq. rewrite upd_ne by done. by apply Ho1. }
  destruct H2 as (h2 & Hr2 & Hb2 & Ho2 & Hx2). mstep Hr2.
  mstep (get_units_run (addr p) h2). rewrite (Ho2 (addr p)), Hp by done. cbn [units].
  mstep (get_units_run (addr b) h2). mstep (get_next_run (addr b) h2). rewrite Hb2, plus_addr, addr_eqb.
  unfold linked_p. destruct (p + pk =? b); eexists; (split; [done|]); (split; [| | |done|done]); cbn;
    rewrite ?upd_eq, ?upd_ne, ?Hb2, ?upd_eq by congruence; try done.
  - intros q Hqb Hqp. rewrite !upd_ne by done. by apply Ho2.
  - rewrite (Ho2 (addr p)), Hp by done. done.
  - intros q Hqb Hqp. rewrite !upd_ne by done. by apply Ho2.
Qed.

(** The list with [b] linked between [p] and [p2], merged where it touches. *)
Lemma free_total_abs b k xs : free_total (abs_free b k xs) = free_total xs + k.
Proof.
  assert (Hm : forall s j r, free_total (abs_merge_next (s, j) r) = free_total r + j).
  { intros s j [|[s' k'] r]; cbn; [by rewrite free_total_cons; cbn; unfold free_total; cbn; lia|].
    destruct (s + j =? s'); rewrite !free_total_cons; cbn; lia. }
  induction xs as [|[s j] r IH]; cbn [abs_free]; [by rewrite free_total_cons; cbn; lia|].
  destruct (b <? s); [rewrite Hm, !free_total_cons; cbn; lia|].
  destruct (s + j =? b); [rewrite Hm|]; rewrite ?free_total_cons, ?IH; cbn; lia.
Qed.

Lemma chain_merged sl b k p2 nb : chain sl p2 a0 -> (forall s j, (s, j) ∈ p2 -> b < s) -> a0 < b -> free_total p2 + k < 2 ^ 31 ->
  blocks_from 0 p2 -> 0 < k -> sl (addr b) = nb -> nb = linked_b b k (head_or a0 p2) (sl (addr (head_or a0 p2))) ->
  exists j r, abs_merge_next (b, k) p2 = (b, j) :: r /\ nb = mkSlob j (addr (head_or a0 r)) /\
    chain sl ((b, j) :: r) a0 /\ (forall s j, (s, j) ∈ r -> (s, j) ∈ p2).
Proof.
  intros Hc Hall Hb Ht Hs Hk Hsb Hnb. unfold linked_b in Hnb. destruct p2 as [|[s j] r]; cbn [head_or abs_merge_next fst snd] in *.
  - destruct (Z.eqb_spec (b + k) a0); [lia|]. exists k, []. split; [done|]. split; [done|]. split; [|done].
    split; [by rewrite Hsb, Hnb|done].
  - destruct Hc as [Hc1 Hc2]. rewrite Hc1 in Hnb. cbn [units next] in Hnb. rewrite free_total_cons in Ht. cbn in Ht, Hs.
    destruct Hs as (? & ? & Hs). pose proof (free_total_nonneg _ _ Hs).
    destruct (Z.eqb_spec (b + k) s).
    + rewrite s32_small in Hnb by lia. exists (k + j), r. split; [done|]. split; [done|].
      split; [split; [by rewrite Hsb, Hnb|done]|]. intros s' j' Hin. by right.
    + exists k, ((s, j) :: r). split; [done|]. split; [done|]. split; [|done].
      split; [by rewrite Hsb, Hnb|done].
Qed.

Definition separate (xs : list block) (b k : Z) : Prop := forall s j, (s, j) ∈ xs -> s + j <= b \/ b + k <= s.

Lemma slob_free_spec h xs b k size fuel : heap_ok h xs -> a0 + 1 < b -> b <> 0 -> 0 < k -> free_total xs + k < 2 ^ 31 ->
  separate xs b k -> (size = 0 /\ units (slobs h (addr b)) = k \/ size <> 0 /\ SLOB_UNITS size = k) ->
  (length xs < fuel)%nat ->
  exists h', slob_free fuel (addr b) size h = Done (tt, h') /\ heap_ok h' (abs_free b k xs) /\ kept h h'.
Proof.
  intros Hok Hb Hb0 Hk Ht Hsep Hsize Hfuel. pose proof Hok as [(ys & Hys & Hlow) Hc Hs Hbd (f & fk & Hsf & Hf)].
  destruct (DefaultPmm.split_at 1 xs b k Hs Hk Hsep) as (pre & p2 & Hxs & Hpre & Hpost).
  assert (Hlast : exists p1 p pk, pre = p1 ++ [(p, pk)]).
  { destruct (last pre) as [[p pk]|] eqn:Hl.
    - apply last_Some in Hl as (p1 & ->). by exists p1, p, pk.
    - apply last_None in Hl as ->. rewrite Hys in Hxs. cbn in Hxs. specialize (Hpost a0 1). rewrite <- Hxs in Hpost.
      specialize (Hpost ltac:(left)). lia. }
  destruct Hlast as (p1 & p & pk & ->). rewrite <- app_assoc in Hxs. cbn in Hxs.
  pose proof (Hpre p pk ltac:(apply elem_of_app; right; left)) as Hpk. rewrite Hxs in Hs.
  pose proof Hs as Hsx. apply blocks_from_app in Hsx as (Hs1 & Hd1 & Hp0 & Hpk0 & Hs2).
  assert (Hb2 : forall s j, (s, j) ∈ p2 -> b < s) by (intros s j Hin; specialize (Hpost s j Hin); lia).
  assert (Hc2 := Hc). rewrite Hxs in Hc2. apply chain_app in Hc2 as [Hcp1 [Hcp Hcp2]]. cbn [head_or] in Hcp1.
  set (n := head_or a0 p2) in *.
  assert (Hnb : n <> b) by (unfold n; destruct p2 as [|[s j] ?]; cbn; [lia|pose proof (Hb2 s j ltac:(left)); lia]).
  destruct (slob_free_run h b k size p pk n fuel) as (h' & Hrun & [Rb Rp Ro Rf Rm]); try done; [lia| |].
  { intros h1 Hf1 Ho1. rewrite Hf1, Hsf. apply (find_place_run h1 xs b p1 p pk p2 f fk); try done; try lia.
    split; [by exists ys| |by rewrite Hxs|done|rewrite Hf1; by exists f, fk].
    apply (chain_ext (slobs h)); [|done]. intros s j Hin. apply Ho1. intros ->%addr_inj. destruct (Hsep b j Hin); [|lia].
    destruct (blocks_from_elem 1 xs b j); [by rewrite Hxs|done|lia]. }
  exists h'. split; [done|]. split; [|done].
  set (nb := linked_b b k n (slobs h (addr n))) in *.
  assert (Hext : forall s j, (s, j) ∈ p1 ++ p2 -> slobs h' (addr s) = slobs h (addr s)).
  { intros s j Hin. apply Ro; intros ->%addr_inj; apply elem_of_app in Hin as [Hin|Hin].
    - specialize (Hpre b j ltac:(apply elem_of_app; by left)). destruct (blocks_from_elem _ _ _ _ Hs1 Hin). lia.
    - specialize (Hb2 b j Hin). lia.
    - specialize (Hd1 p j Hin). destruct (blocks_from_elem _ _ _ _ Hs1 Hin). lia.
    - destruct (blocks_from_elem _ _ _ _ Hs2 Hin). lia. }
  assert (Hn' : nb = linked_b b k n (slobs h' (addr n))).
  { unfold nb, linked_b. destruct (Z.eqb_spec (b + k) n) as [He|]; [|done].
    rewrite Ro; [done|by intros ?%addr_inj|]. intros He2%addr_inj. lia. }
  assert (Htot : free_total xs = free_total p1 + (pk + free_total p2))
    by (rewrite Hxs, free_total_app, free_total_cons; done).
  pose proof (free_total_nonneg _ _ Hs1). pose proof (free_total_nonneg _ _ Hs2).
  destruct (chain_merged (slobs h') b k p2 nb) as (j & r & Hm & Hnbj & Hcm & Hr); try done; try lia.
  { apply (chain_ext (slobs h)); [|done]. intros s i Hin. apply (Hext s i). apply elem_of_app. by right. }
  { eapply blocks_from_weaken; [|exact Hs2]. lia. }
  assert (Hcp1' : chain (slobs h') p1 p).
  { apply (chain_ext (slobs h)); [|done]. intros s i Hin. apply (Hext s i). apply elem_of_app. by left. }
  assert (Hj : free_total ((b, j) :: r) = free_total p2 + k).
  { rewrite <- Hm. pose proof (free_total_abs b k p2) as Ha. rewrite abs_free_nil in Ha; [done|]. intros [s i] Hin. by apply (Hb2 s i). }
  rewrite free_total_cons in Hj. cbn in Hj.
  assert (Hsm : blocks_from 1 (p1 ++ (p, pk) :: abs_merge_next (b, k) p2)).
  { assert (Hsb : blocks_from 1 (p1 ++ (p, pk) :: (b, k) :: p2)).
    { replace (p1 ++ (p, pk) :: (b, k) :: p2) with ((p1 ++ [(p, pk)]) ++ (b, k) :: p2) by (rewrite <- app_assoc; done).
      apply DefaultPmm.insert_sorted; try done; try lia. rewrite <- app_assoc. done. }
    destruct p2 as [|[s i] p2]; [done|]. cbn [abs_merge_next fst snd]. destruct (Z.eqb_spec (b + k) s) as [He|]; [|done].
    replace (p1 ++ (p, pk) :: (b, k + i) :: p2) with ((p1 ++ [(p, pk)]) ++ (b, k + i) :: p2) by (rewrite <- app_assoc; done).
    eapply blocks_from_absorb; [|exact He]. by rewrite <- app_assoc. }
  assert (Habs : abs_free b k xs = p1 ++ (if p + pk =? b then abs_merge_next (p, pk + k) p2
                                         else (p, pk) :: abs_merge_next (b, k) p2)).
  { rewrite Hxs. replace (p1 ++ (p, pk) :: p2) with ((p1 ++ [(p, pk)]) ++ p2) by (rewrite <- app_assoc; done).
    apply abs_free_snoc; [| |lia|by intros [s i] Hin; apply (Hb2 s i)].
    - intros [s i] Hin. specialize (Hd1 s i Hin). cbn. lia.
    - intros [s i] Hin. by destruct (blocks_from_elem _ _ _ _ Hs1 Hin). }
  rewrite Habs. clear Habs. rewrite Hxs in Hys.
  assert (Hlowr : forall s i, (s, i) ∈ r -> a0 + 1 < s) by (intros s i Hin; specialize (Hb2 s i (Hr s i Hin)); lia).
  assert (Hp1 : p1 = [] /\ p = a0 /\ pk = 1 \/ exists p1', p1 = (a0, 1) :: p1' /\ a0 + 1 < p /\
            forall s i, (s, i) ∈ p1' -> a0 + 1 < s).
  { destruct p1 as [|x p1']; cbn in Hys; [left; injection Hys as ? ? _; done|right; injection Hys as Hx Hys'].
    exists p1'. rewrite Hx. split; [done|]. split.
    - apply (Hlow p pk). rewrite <- Hys'. apply elem_of_app. right. left.
    - intros s i Hin. apply (Hlow s i). rewrite <- Hys'. apply elem_of_app. by left. }
  destruct (Z.eqb_spec (p + pk) b) as [Hpb|Hpb].
  - assert (Hmp : abs_merge_next (p, pk + k) p2 = (p, pk + j) :: r).
    { destruct p2 as [|[s i] p2]; cbn in Hm |- *; [congruence|].
      replace (p + (pk + k)) with (b + k) by lia. destruct (b + k =? s); [|congruence].
      assert (j = k + i /\ r = p2) as [-> ->] by (split; congruence). f_equal. f_equal. lia. }
    rewrite Hmp. destruct Hp1 as [(-> & -> & ->)|(p1' & Hp1 & Hap & Hlp)]; [lia|].
    rewrite Hm in Hsm. split.
    + exists (p1' ++ (p, pk + j) :: r). rewrite Hp1. split; [done|]. intros s i [Hin|[[= -> ->]|Hin]%elem_of_cons]%elem_of_app;
        [by apply (Hlp s i)|done|by apply (Hlowr s i)].
    + apply chain_app. split; [done|]. split; [|by destruct Hcm].
      rewrite Rp. unfold linked_p. rewrite (proj2 (Z.eqb_eq _ _) Hpb), Hnbj. cbn [units next].
      assert (0 <= free_total r).
      { apply (free_total_nonneg (b + j)). apply blocks_from_app in Hsm as (_ & _ & _ & _ & Hx). by destruct Hx as (_ & _ & Hx). }
      assert (0 < j).
      { apply blocks_from_app in Hsm as (_ & _ & _ & _ & Hx). by destruct Hx as (_ & Hx & _). }
      by rewrite s32_small by lia.
    + eapply blocks_from_absorb; [exact Hsm|done].
    + rewrite free_total_app, free_total_cons. cbn. lia.
    + exists p, (pk + j). split; [done|]. apply elem_of_app. right. left.
  - rewrite Hm in Hsm |- *. split.
    + destruct Hp1 as [(-> & -> & ->)|(p1' & -> & Hap & Hlp)].
      * exists ((b, j) :: r). split; [done|]. intros s i [[= -> ->]|Hin]%elem_of_cons; [lia|by apply (Hlowr s i)].
      * exists (p1' ++ (p, pk) :: (b, j) :: r). split; [done|].
        intros s i [Hin|[[= -> ->]|[[= -> ->]|Hin]%elem_of_cons]%elem_of_cons]%elem_of_app;
          [by apply (Hlp s i)|done|lia|by apply (Hlowr s i)].
    + apply chain_app. split; [done|]. split; [|done]. rewrite Rp. unfold linked_p. by rewrite (proj2 (Z.eqb_neq _ _) Hpb).
    + done.
    + rewrite free_total_app, !free_total_cons. cbn. lia.
    + exists p, pk. split; [done|]. apply elem_of_app. right. left.
Qed.

(** ** Taking a block *)

(** What [take] writes. *)
Record took h h' (p pk s k nx n : Z) : Prop := mkTook {
  tk_p : slobs h' (addr p) = mkSlob pk (if n <? k then addr (s + n) else nx);
  tk_rest : n < k -> slobs h' (addr (s + n)) = mkSlob (k - n) nx;
  tk_s : slobs h' (addr s) = mkSlob n nx;
  tk_other : forall q, q <> addr p -> q <> addr s -> (n < k -> q <> addr (s + n)) -> slobs h' q = slobs h q;
  tk_same : kept h h' }.

Lemma take_run h p pk s k nx n : slobs h (addr p) = mkSlob pk (addr s) -> slobs h (addr s) = mkSlob k nx ->
  p < s -> 0 < n <= k -> k < 2 ^ 31 ->
  exists h', take (addr p) (addr s) n h = Done (tt, h') /\ took h h' p pk s k nx n.
Proof.
  intros Hp Hs Hps Hn Hk. unfold take.
  assert (addr p <> addr s) by (intros ?%addr_inj; lia).
  mstep (get_units_run (addr s) h). rewrite Hs. cbn [units]. destruct (Z.eqb_spec k n) as [->|He].
  - mstep (get_next_run (addr s) h). rewrite Hs, set_next_run, Hp. cbn [next units]. eexists. split; [done|].
    split; cbn; rewrite ?Z.ltb_irrefl; [by rewrite upd_eq|lia|by rewrite upd_ne|intros q Hq _ _; by rewrite upd_ne|done].
  - assert (addr (s + n) <> addr p /\ addr (s + n) <> addr s) as [Hr1 Hr2] by (split; intros ?%addr_inj; lia).
    rewrite plus_addr. mstep (set_next_run (addr p) (addr (s + n)) h). rewrite Hp. cbn [units].
    rewrite (bind_Done _ _ _ _ _ (get_units_run (addr s) _)). cbn [slobs slobfree bigblocks bigs pagemem].
    rewrite (upd_ne _ _ _ (addr s)), Hs by done. cbn [units]. rewrite s32_small by lia.
    rewrite (bind_Done _ _ _ _ _ (set_units_run (addr (s + n)) _ _)). cbn [slobs slobfree bigblocks bigs pagemem].
    rewrite (bind_Done _ _ _ _ _ (get_next_run (addr s) _)). cbn [slobs]. rewrite !(upd_ne _ _ _ (addr s)), Hs by done. cbn [next].
    rewrite (bind_Done _ _ _ _ _ (set_next_run (addr (s + n)) _ _)). cbn [slobs slobfree bigblocks bigs pagemem]. rewrite upd_eq. cbn [units].
    rewrite set_units_run. cbn [slobs slobfree bigblocks bigs pagemem]. rewrite !(upd_ne _ _ _ (addr s)), Hs by done. cbn [next].
    eexists. split; [done|]. split; cbn; [|intros _| |intros q Hq1 Hq2 Hq3|done].
    + rewrite !upd_ne by done. rewrite upd_eq. destruct (Z.ltb_spec n k); [done|lia].
    + rewrite upd_ne by done. by rewrite upd_eq.
    + by rewrite upd_eq.
    + rewrite !upd_ne by (done || apply Hq3; lia). done.
Qed.

Lemma take_spec h x1 p pk s k x2 n : heap_ok h (x1 ++ (p, pk) :: (s, k) :: x2) -> 0 < n <= k -> s <> a0 ->
  exists h', (take (addr p) (addr s) n ;; set_slobfree (addr p) ;; mret (addr s) : ST (kheap A) Z) h = Done (addr s, h') /\
    heap_ok h' (x1 ++ (p, pk) :: split_block s k n ++ x2) /\ kept h h' /\ units (slobs h' (addr s)) = n.
Proof.
  intros [(ys & Hys & Hlow) Hc Hs Hbd _] Hn Hsa.
  pose proof Hc as Hcx. apply chain_app in Hcx as [Hc1 (Hcp & Hcs & Hc2)]. cbn [head_or] in Hc1, Hcp.
  pose proof Hs as Hsx. apply blocks_from_app in Hsx as (Hs1 & Hd1 & Hp0 & Hpk & Hsx). cbn [blocks_from] in Hsx.
  destruct Hsx as (Hps & Hk & Hs2).
  assert (Htot : free_total (x1 ++ (p, pk) :: (s, k) :: x2) = free_total x1 + (pk + (k + free_total x2)))
    by (rewrite free_total_app, !free_total_cons; done).
  pose proof (free_total_nonneg _ _ Hs1). pose proof (free_total_nonneg _ _ Hs2).
  destruct (take_run h p pk s k (addr (head_or a0 x2)) n) as (h1 & Hrun & [Tp Tr Ts To Tm]); try done; try lia.
  rewrite (bind_Done _ _ _ _ _ Hrun). eexists. split; [done|]. split; [|split; [done|cbn; by rewrite Ts]].
  assert (Hsplit : free_total (x1 ++ (p, pk) :: split_block s k n ++ x2) = free_total (x1 ++ (p, pk) :: (s, k) :: x2) - n).
    { pose proof (free_total_split (x1 ++ [(p, pk)]) s k n x2 ltac:(lia)) as Ht. rewrite <- !(app_assoc x1) in Ht. exact Ht. }
    assert (Hns : a0 + 1 < s).
    { destruct x1 as [|x x1]; cbn in Hys; [injection Hys as _ _ Hy|injection Hys as Hx Hy].
      - apply (Hlow s k). rewrite <- Hy. left.
      - apply (Hlow s k). rewrite <- Hy. apply elem_of_app. right. right. left. }
    assert (Hmid : forall t j, (t, j) ∈ split_block s k n ++ x2 -> s <= t).
    { intros t j. unfold split_block. destruct (n <? k); cbn; [intros [[= -> ->]|Hin]%elem_of_cons; [lia|]|intros Hin];
        destruct (blocks_from_elem _ _ _ _ Hs2 Hin); lia. }
    assert (Hkeep : forall t j, (t, j) ∈ x1 ++ x2 -> slobs h1 (addr t) = slobs h (addr t)).
    { intros t j Hin. assert (t <> p /\ t <> s /\ (k <> n -> t <> s + n)) as (Ht1 & Ht2 & Ht3).
      { apply elem_of_app in Hin as [Hin|Hin].
        - specialize (Hd1 t j Hin). destruct (blocks_from_elem _ _ _ _ Hs1 Hin). split_and!; lia.
        - destruct (blocks_from_elem _ _ _ _ Hs2 Hin). split_and!; lia. }
      apply To; [by intros ?%addr_inj..|]. intros Hnk ->%addr_inj. apply Ht3; lia. }
    assert (Hc1' : chain (slobs h1) x1 p).
    { apply (chain_ext (slobs h)); [|done]. intros t j Hin. apply (Hkeep t j). apply elem_of_app. by left. }
    assert (Hc2' : chain (slobs h1) x2 a0).
    { apply (chain_ext (slobs h)); [|done]. intros t j Hin. apply (Hkeep t j). apply elem_of_app. by right. }
    split.
    + destruct x1 as [|x x1]; cbn in Hys |- *; [injection Hys as -> -> Hy|injection Hys as Hx Hy].
      * eexists. split; [done|]. intros t j Hin. pose proof (Hmid t j Hin). lia.
      * rewrite Hx. eexists. split; [done|]. intros t j [Hin|[[= -> ->]|Hin]%elem_of_cons]%elem_of_app.
        -- apply (Hlow t j). rewrite <- Hy. apply elem_of_app. by left.
        -- apply (Hlow p pk). rewrite <- Hy. apply elem_of_app. right. left.
        -- pose proof (Hmid t j Hin). lia.
    + apply chain_app. split; [done|]. unfold split_block. cbn [chain slobs]. rewrite Tp.
      destruct (Z.ltb_spec n k); cbn [app chain head_or]; [|done]. by rewrite Tr.
    + apply blocks_from_app. split_and!; try done. unfold split_block. destruct (Z.ltb_spec n k); cbn [app blocks_from].
      * replace (s + n + (k - n)) with (s + k) by lia. split_and!; try done; lia.
      * eapply blocks_from_weaken; [|exact Hs2]. lia.
    + lia.
    + exists p, pk. split; [done|]. apply elem_of_app. right. left.
Qed.

(** ** Looking for a block *)
Definition last_or (d : Z) (xs : list block) : Z := default d (fst <$> last xs).

Lemma last_or_snoc d xs p pk : last_or d (xs ++ [(p, pk)]) = p.
Proof. unfold last_or. by rewrite last_snoc. Qed.

Lemma last_or_cons d s k xs : last_or d ((s, k) :: xs) = last_or s xs.
Proof. unfold last_or. rewrite last_cons. by destruct (last xs). Qed.

Lemma head_app e xs ys : head_or e (xs ++ ys) = head_or (head_or e ys) xs.
Proof. by destruct xs as [|[? ?] ?]. Qed.

Context (fuel : nat).
Notation loop m p c size := (slob_loop npage fuel m (addr p) (addr c) size 0).

(** One turn of the loop on a block that is too small and is not where the search
    started, and on one that fits. *)
Lemma loop_small h m p c ck nx size f : slobs h (addr c) = mkSlob ck (addr nx) -> ck < SLOB_UNITS size ->
  slobfree h = addr f -> c <> f -> loop (S m) p c size h = loop m c nx size h.
Proof.
  intros Hc Hk Hf Hcf. cbn [slob_loop]. rewrite Z.eqb_refl. mstep (get_units_run (addr c) h). rewrite Hc. cbn [units].
  destruct (Z.leb_spec (SLOB_UNITS size + 0) ck); [lia|].
  mstep (eq_refl : get slobfree h = Done (slobfree h, h)). rewrite Hf, addr_eqb.
  destruct (Z.eqb_spec c f); [done|]. mstep (get_next_run (addr c) h). by rewrite Hc.
Qed.

Lemma loop_fits h m p c ck nx size : slobs h (addr c) = mkSlob ck nx -> SLOB_UNITS size <= ck ->
  loop (S m) p c size h =
  (take (addr p) (addr c) (SLOB_UNITS size) ;; set_slobfree (addr p) ;; mret (addr c) : ST (kheap A) Z) h.
Proof.
  intros Hc Hk. cbn [slob_loop]. rewrite Z.eqb_refl. mstep (get_units_run (addr c) h). rewrite Hc. cbn [units].
  destruct (Z.leb_spec (SLOB_UNITS size + 0) ck); [done|lia].
Qed.

Lemma loop_walk h size f e tl : slobfree h = addr f -> forall seg m p, chain (slobs h) (seg ++ tl) e ->
  (forall s k, (s, k) ∈ seg -> k < SLOB_UNITS size /\ s <> f) ->
  loop (length seg + m) p (head_or e (seg ++ tl)) size h = loop m (last_or p seg) (head_or e tl) size h.
Proof.
  intros Hf. induction seg as [|[s k] seg IH]; intros m p Hc Hall; [done|]. destruct Hc as [Hc1 Hc2].
  destruct (Hall s k ltac:(left)) as [Hk Hs]. cbn [app head_or length Nat.add].
  rewrite (loop_small h _ p s k _ size f Hc1 Hk Hf Hs), last_or_cons. apply IH; [done|].
  intros s' k' Hin. apply (Hall s' k'). by right.
Qed.

(** The ring as it is walked from [f]. *)
Lemma ring_chain h xs pre f fk rest : heap_ok h xs -> xs = pre ++ (f, fk) :: rest ->
  chain (slobs h) ((rest ++ pre) ++ [(f, fk)]) (head_or a0 rest) /\
  head_or (head_or a0 rest) ((rest ++ pre) ++ [(f, fk)]) = head_or a0 rest /\
  (forall s k, (s, k) ∈ rest ++ pre -> s <> f).
Proof.
  intros [(ys & Hys & _) Hc Hs _ _] Hxs. rewrite Hxs in Hc, Hs.
  assert (Ha : head_or (head_or a0 rest) (pre ++ [(f, fk)]) = a0).
  { rewrite Hxs in Hys. destruct pre as [|x pre]; cbn in Hys; injection Hys; [by intros _ _ ->|by intros _ ->]. }
  apply chain_app in Hc as [Hc1 [Hcf Hc2]]. rewrite <- app_assoc. split; [|split].
  - apply chain_app. rewrite Ha. split; [done|]. apply chain_app. by split.
  - rewrite head_app, Ha. by destruct rest as [|[? ?] ?].
  - apply blocks_from_app in Hs as (Hs1 & Hd1 & _ & Hfk & Hs2). intros s k [Hin|Hin]%elem_of_app ->.
    + destruct (blocks_from_elem _ _ _ _ Hs2 Hin). lia.
    + specialize (Hd1 f k Hin). destruct (blocks_from_elem _ _ _ _ Hs1 Hin). lia.
Qed.

Definition small (n : Z) (b : block) : Prop := b.2 < n.

Lemma first_fit n (l : list block) : Forall (small n) l \/
  exists q1 s k q2, l = q1 ++ (s, k) :: q2 /\ Forall (small n) q1 /\ n <= k.
Proof.
  induction l as [|[s k] l IH]; [by left; constructor|]. destruct (Z.lt_ge_cases k n) as [Hk|Hk].
  - destruct IH as [Hl|(q1 & s' & k' & q2 & -> & Hq & Hk')]; [left; by constructor|right].
    exists ((s, k) :: q1), s', k', q2. split; [done|]. split; [by constructor|done].
  - right. exists [], s, k, l. split; [done|]. by split; [constructor|].
Qed.

(** Where the loop stops, its second pointer is the block before in the list. *)
Lemma ring_pred h xs pre f fk rest q1 s k q2 : heap_ok h xs -> xs = pre ++ (f, fk) :: rest -> 1 < k ->
  (rest ++ pre) ++ [(f, fk)] = q1 ++ (s, k) :: q2 ->
  exists x1 p pk x2, xs = x1 ++ (p, pk) :: (s, k) :: x2 /\ last_or f q1 = p.
Proof.
  intros [(ys & Hys & _) _ _ _ _] Hxs Hk Hr.
  assert (Hcase : (exists r2, rest = q1 ++ (s, k) :: r2) \/ (exists r1 r2, pre = r1 ++ (s, k) :: r2 /\ q1 = rest ++ r1) \/
                  (s = f /\ k = fk /\ q1 = rest ++ pre)).
  { apply app_eq_app in Hr as (l & [[H1 H2]|[H1 H2]]).
    - destruct l as [|y l]; [|].
      + rewrite app_nil_r in H1. cbn in H2. right. right. by injection H2 as -> -> _.
      + injection H2 as <- H2. apply app_eq_app in H1 as (l' & [[H1 H3]|[H1 H3]]).
        * destruct l' as [|y l']; [cbn in H3; right; left; exists [], l; by rewrite app_nil_r, <- H3, H1, app_nil_r|].
          injection H3 as <- H3. left. by exists l'.
        * right. left. by exists l', l.
    - destruct l as [|y l]; [rewrite app_nil_r in H1; cbn in H2; right; right; by injection H2 as -> -> _|].
      exfalso. injection H2 as _ H2. by destruct l. }
  destruct Hcase as [(r2 & ->)|[(r1 & r2 & -> & ->)|(-> & -> & ->)]].
  - destruct (exists_last (l := (f, fk) :: q1)) as (p0 & [p pk] & Hl); [done|].
    exists (pre ++ p0), p, pk, r2. rewrite Hxs.
    replace (pre ++ (f, fk) :: q1 ++ (s, k) :: r2) with (pre ++ ((f, fk) :: q1) ++ (s, k) :: r2) by done.
    split; [by rewrite Hl, <- !app_assoc|]. by rewrite <- (last_or_cons f f fk), Hl, last_or_snoc.
  - destruct (exists_last (l := r1)) as (p0 & [p pk] & ->); [intros ->; rewrite Hxs in Hys; cbn in Hys; injection Hys; lia|].
    exists p0, p, pk, (r2 ++ (f, fk) :: rest). split; [by rewrite Hxs, <- !app_assoc|]. by rewrite app_assoc, last_or_snoc.
  - destruct (exists_last (l := pre)) as (p0 & [p pk] & ->); [intros ->; rewrite Hxs in Hys; cbn in Hys; injection Hys; lia|].
    exists p0, p, pk, rest. split; [by rewrite Hxs, <- !app_assoc|]. by rewrite app_assoc, last_or_snoc.
Qed.

(** A block of [n] units was cut from the list [xs]. *)
Definition cut (xs : list block) (n s : Z) (xs' : list block) : Prop :=
  exists x1 p pk k x2, xs = x1 ++ (p, pk) :: (s, k) :: x2 /\ n <= k /\ xs' = x1 ++ (p, pk) :: split_block s k n ++ x2.

Lemma search_found h xs size m : heap_ok h xs -> 1 < SLOB_UNITS size -> ~ Forall (small (SLOB_UNITS size)) xs -> (length xs <= m)%nat ->
  exists f, slobfree h = addr f /\ exists s xs' h',
    (cur ← get_next (addr f); slob_loop npage fuel m (addr f) cur size 0) h = Done (addr s, h') /\
    cut xs (SLOB_UNITS size) s xs' /\ heap_ok h' xs' /\ kept h h' /\ units (slobs h' (addr s)) = SLOB_UNITS size.
Proof.
  intros Hok Hn Hall Hm. pose proof Hok as [(ys & Hys & Hlow) Hc Hs _ (f & fk & Hf & Hin)]. exists f. split; [done|].
  apply list_elem_of_split in Hin as (pre & rest & Hxs).
  destruct (ring_chain _ _ _ _ _ _ Hok Hxs) as (Hrc & Hhd & Hnf).
  assert (Hnext : next (slobs h (addr f)) = addr (head_or a0 rest)).
  { rewrite Hxs in Hc. apply chain_app in Hc as [_ [Hcf _]]. by rewrite Hcf. }
  destruct (first_fit (SLOB_UNITS size) ((rest ++ pre) ++ [(f, fk)])) as [Hsm|(q1 & s & k & q2 & Hq & Hq1 & Hk)].
  { exfalso. apply Hall. rewrite Hxs. apply Forall_app in Hsm as [[? ?]%Forall_app Hsf]. apply Forall_cons in Hsf as [? _].
    apply Forall_app. split; [done|]. by constructor. }
  assert (Hk1 : 1 < k) by lia.
  destruct (ring_pred _ _ _ _ _ _ _ _ _ _ Hok Hxs Hk1 Hq) as (x1 & p & pk & x2 & Hx & Hp).
  mstep (get_next_run (addr f) h). rewrite Hnext, <- Hhd, Hq. rewrite Hq in Hrc.
  assert (Hlen : length xs = S (length q1 + length q2)).
  { assert (length ((rest ++ pre) ++ [(f, fk)]) = length xs) as <- by (rewrite Hxs, !length_app; cbn; lia).
    rewrite Hq, length_app. cbn. lia. }
  replace m with (length q1 + S (m - S (length q1)))%nat by lia.
  rewrite (loop_walk h size f (head_or a0 rest)); [|done|done|].
  2:{ intros t j Hin. split; [by apply (proj1 (Forall_forall _ _) Hq1 (t, j))|].
      assert (exists r, q1 ++ r = rest ++ pre) as (r & Hr).
      { destruct (exists_last (l := (s, k) :: q2)) as (r & y & Hy); [done|]. exists r. rewrite Hy, app_assoc in Hq.
        by apply app_inj_tail in Hq as [<- _]. }
      apply (Hnf t j). rewrite <- Hr. apply elem_of_app. by left. }
  rewrite Hp. cbn [head_or].
  apply chain_app in Hrc as [_ [Hcs _]].
  rewrite (loop_fits h _ p s k _ size Hcs Hk).
  assert (s <> a0).
  { intros ->. rewrite Hx in Hys, Hs. destruct x1 as [|[? ?] x1]; cbn in Hys; injection Hys as -> -> Hy.
    - specialize (Hlow a0 k). rewrite <- Hy in Hlow. specialize (Hlow ltac:(left)). lia.
    - specialize (Hlow a0 k). rewrite <- Hy in Hlow. specialize (Hlow ltac:(apply elem_of_app; right; right; left)). lia. }
  rewrite Hx in Hok. destruct (take_spec h x1 p pk s k x2 (SLOB_UNITS size) Hok ltac:(lia)) as (h' & Hrun & Hok' & Hpm & Hu); [done|].
  exists s, (x1 ++ (p, pk) :: split_block s k (SLOB_UNITS size) ++ x2), h'. split; [done|]. split; [|done].
  by exists x1, p, pk, k, x2.
Qed.

(** When every block is too small the loop comes back to where it started and asks
    for a page. *)
Lemma search_none h xs size m : heap_ok h xs -> Forall (small (SLOB_UNITS size)) xs -> size <> PGSIZE ->
  (f ← get slobfree; cur ← get_next f; slob_loop npage fuel (length xs + m) f cur size 0) h =
  (page ← __slob_get_free_pages npage 0;
   if page =? 0 then mret 0
   else slob_free fuel page PGSIZE ;; f ← get slobfree; cur ← get_next f; slob_loop npage fuel m f cur size 0) h.
Proof.
  intros Hok Hall Hsz. pose proof Hok as [_ Hc _ _ (f & fk & Hf & Hin)].
  apply list_elem_of_split in Hin as (pre & rest & Hxs).
  destruct (ring_chain _ _ _ _ _ _ Hok Hxs) as (Hrc & Hhd & Hnf).
  mstep (eq_refl : get slobfree h = Done (slobfree h, h)). rewrite Hf. mstep (get_next_run (addr f) h).
  assert (Hnext : slobs h (addr f) = mkSlob fk (addr (head_or a0 rest))).
  { rewrite Hxs in Hc. by apply chain_app in Hc as [_ [Hcf _]]. }
  rewrite Hnext. cbn [next]. rewrite <- Hhd.
  replace (length xs + m)%nat with (length (rest ++ pre) + S m)%nat by (rewrite Hxs, !length_app; cbn; lia).
  rewrite Hxs in Hall. apply Forall_app in Hall as [Hpre [Hfk Hrest]%Forall_cons].
  rewrite (loop_walk h size f (head_or a0 rest)); [|done|done|].
  2:{ intros s k Hin. split; [|by apply (Hnf s k)]. apply elem_of_app in Hin as [Hin|Hin];
        [apply (proj1 (Forall_forall _ _) Hrest _ Hin)|apply (proj1 (Forall_forall _ _) Hpre _ Hin)]. }
  cbn [head_or slob_loop]. rewrite Z.eqb_refl. mstep (get_units_run (addr f) h). rewrite Hnext. cbn [units].
  unfold small in Hfk. cbn in Hfk. destruct (Z.leb_spec (SLOB_UNITS size + 0) fk); [lia|].
  mstep (eq_refl : get slobfree h = Done (slobfree h, h)). rewrite Hf, Z.eqb_refl.
  by rewrite (proj2 (Z.eqb_neq _ _) Hsz).
Qed.

Lemma abs_free_large b k xs : 0 <= k -> blocks_from 0 xs -> exists c, c ∈ abs_free b k xs /\ k <= c.2.
Proof.
  intros Hk. assert (Hm : forall s j r, k <= j -> blocks_from 0 r -> exists c, c ∈ abs_merge_next (s, j) r /\ k <= c.2).
  { intros s j [|[t i] r] Hj Hs; cbn [abs_merge_next fst snd]; [by exists (s, j); split; [left|]|].
    cbn in Hs. destruct (s + j =? t); [exists (s, j + i)|exists (s, j)]; (split; [left|cbn; lia]). }
  assert (Hg : forall lo, 0 <= lo -> blocks_from lo xs -> exists c, c ∈ abs_free b k xs /\ k <= c.2); [|by apply Hg].
  induction xs as [|[s j] r IH]; intros lo Hlo Hs; cbn [abs_free]; [by exists (b, k); split; [left|]|].
  cbn in Hs. destruct Hs as (? & ? & Hs). assert (blocks_from 0 r) by (eapply blocks_from_weaken; [|exact Hs]; lia).
  destruct (b <? s).
  - apply Hm; [lia|]. cbn. split_and!; [lia|lia|done].
  - destruct (s + j =? b); [by apply Hm; [lia|]|].
    destruct (IH (s + j)) as (c & Hc & ?); [lia|done|]. exists c. split; [by right|done].
Qed.

Lemma abs_free_length b k xs : (length (abs_free b k xs) <= S (length xs))%nat.
Proof.
  assert (Hm : forall c r, (length (abs_merge_next c r) <= S (length r))%nat).
  { intros [s j] [|[t i] r]; cbn; [lia|]. case_match; cbn; lia. }
  induction xs as [|[s j] r IH]; cbn [abs_free]; [done|].
  destruct (b <? s); [etrans; [apply Hm|done]|]. destruct (s + j =? b); [etrans; [apply Hm|cbn; lia]|cbn; lia].
Qed.

Lemma slob_alloc_found h xs size : heap_ok h xs -> size + SLOB_UNIT < PGSIZE -> 1 < SLOB_UNITS size ->
  ~ Forall (small (SLOB_UNITS size)) xs -> (length xs <= fuel)%nat ->
  exists s xs' h', slob_alloc npage fuel size 0 h = Done (addr s, h') /\ cut xs (SLOB_UNITS size) s xs' /\
    heap_ok h' xs' /\ kept h h' /\ units (slobs h' (addr s)) = SLOB_UNITS size.
Proof.
  intros Hok Hsz Hn Hall Hf. unfold slob_alloc. rewrite (bind_Done _ _ _ _ _ (assert_true _ h (proj2 (Z.ltb_lt _ _) Hsz))).
  destruct (search_found h xs size (2 * fuel) Hok Hn Hall ltac:(lia)) as (f & Hsf & Hrun).
  mstep (eq_refl : get slobfree h = Done (slobfree h, h)). by rewrite Hsf.
Qed.

Lemma slob_alloc_empty h xs size : heap_ok h xs -> size + SLOB_UNIT < PGSIZE ->
  Forall (small (SLOB_UNITS size)) xs -> (length xs <= fuel)%nat ->
  slob_alloc npage fuel size 0 h =
  (page ← __slob_get_free_pages npage 0;
   if page =? 0 then mret 0
   else slob_free fuel page PGSIZE ;; f ← get slobfree; cur ← get_next f;
        slob_loop npage fuel (2 * fuel - length xs) f cur size 0) h.
Proof.
  intros Hok Hsz Hall Hf. unfold slob_alloc. rewrite (bind_Done _ _ _ _ _ (assert_true _ h (proj2 (Z.ltb_lt _ _) Hsz))).
  rewrite <- (search_none h xs) by (done || (unfold SLOB_UNIT, PGSIZE in *; lia)).
  replace (length xs + (2 * fuel - length xs))%nat with (2 * fuel)%nat by lia. done.
Qed.

Lemma on_pages_kept {X} (m : ST (machine A) X) h x h1 : on_pages m h = Done (x, h1) ->
  slobs h1 = slobs h /\ slobfree h1 = slobfree h /\ bigblocks h1 = bigblocks h /\ bigs h1 = bigs h.
Proof. unfold on_pages. destruct (m (pagemem h)) as [[y mm]| |]; [|done..]. by intros [= _ <-]. Qed.

Lemma get_free_pages_kept o h pg h1 : __slob_get_free_pages npage o h = Done (pg, h1) ->
  slobs h1 = slobs h /\ slobfree h1 = slobfree h /\ bigblocks h1 = bigblocks h /\ bigs h1 = bigs h.
Proof.
  unfold __slob_get_free_pages. intros (r & h2 & H1%on_pages_kept & Hr)%bind_Done_inv. destruct r as [p|].
  - apply on_pages_kept in Hr. destruct H1 as (<- & <- & <- & <-). done.
  - by injection Hr as _ <-.
Qed.

Lemma heap_ok_ext h h1 xs : slobs h1 = slobs h -> slobfree h1 = slobfree h -> heap_ok h xs -> heap_ok h1 xs.
Proof. intros Hs Hf [? ? ? ? ?]. split; rewrite ?Hs, ?Hf; done. Qed.

Lemma slob_alloc_grown h xs size h1 b : heap_ok h xs -> size + SLOB_UNIT < PGSIZE -> 1 < SLOB_UNITS size ->
  Forall (small (SLOB_UNITS size)) xs -> (length xs < fuel)%nat ->
  __slob_get_free_pages npage 0 h = Done (addr b, h1) -> a0 + 1 < b -> b <> 0 -> separate xs b 256 ->
  free_total xs + 256 < 2 ^ 31 ->
  exists s xs' h', slob_alloc npage fuel size 0 h = Done (addr s, h') /\ cut (abs_free b 256 xs) (SLOB_UNITS size) s xs' /\
    heap_ok h' xs' /\ kept h1 h' /\ units (slobs h' (addr s)) = SLOB_UNITS size.
Proof.
  intros Hok Hsz Hn Hall Hf Hpg Hb Hb0 Hsep Htot. rewrite (slob_alloc_empty h xs) by (done || lia).
  rewrite (bind_Done _ _ _ _ _ Hpg). assert (addr b =? 0 = false) as -> by (apply Z.eqb_neq; unfold addr, SLOB_UNIT; lia).
  destruct (get_free_pages_kept _ _ _ _ Hpg) as (E1 & E2 & _ & _).
  assert (Hok1 : heap_ok h1 xs) by by apply (heap_ok_ext h).
  destruct (slob_free_spec h1 xs b 256 PGSIZE fuel) as (h2 & Hrun & Hok2 & Hk); try done; [by right|].
  rewrite (bind_Done _ _ _ _ _ Hrun). mstep (eq_refl : get slobfree h2 = Done (slobfree h2, h2)).
  pose proof (abs_free_length b 256 xs) as Hl.
  destruct (search_found h2 (abs_free b 256 xs) size (2 * fuel - length xs) Hok2 Hn) as (f & Hsf & s & xs' & h' & Hr & Hcut & Hok' & Hk' & Hu);
    [|lia|].
  - destruct (abs_free_large b 256 xs) as (c & Hc & Hc2); [done|by eapply blocks_from_weaken; [|apply Hok]|].
    intros Hsm. apply (proj1 (Forall_forall _ _) Hsm) in Hc. unfold small in Hc. revert Hc Hsz. unfold SLOB_UNITS, SLOB_UNIT, PGSIZE.
    intros Hc Hsz. Z.to_euclidean_division_equations. lia.
  - exists s, xs', h'. rewrite Hsf. split; [done|]. split; [done|]. split; [done|]. split; [|done].
    destruct Hk as (? & ? & ?), Hk' as (? & ? & ?). split_and!; congruence.
Qed.

(** ** Blocks that do not touch *)
Fixpoint coalesced (xs : list block) : Prop :=
  match xs with
  | (s, k) :: r => (match r with (t, _) :: _ => s + k <> t | [] => True end) /\ coalesced r
  | [] => True
  end.

Lemma coalesced_app xs s k ys :
  coalesced (xs ++ (s, k) :: ys) <-> coalesced (xs ++ [(s, k)]) /\ coalesced ((s, k) :: ys).
Proof. induction xs as [|[t j] xs IH]; [cbn; tauto|]. cbn [app coalesced]. rewrite IH. destruct xs as [|[? ?] xs]; cbn; tauto. Qed.

Lemma coalesced_last xs s k s' k' : s = s' -> coalesced (xs ++ [(s, k)]) -> coalesced (xs ++ [(s', k')]).
Proof.
  intros ->. induction xs as [|[t j] xs IH]; [done|]. cbn [app coalesced]. intros [H1 H2]. split; [|by apply IH].
  by destruct xs as [|[? ?] ?].
Qed.

Lemma coalesced_merge b n lo xs : blocks_from lo xs -> coalesced xs -> coalesced (abs_merge_next (b, n) xs).
Proof.
  intros Hs Hc. destruct xs as [|[s k] xs]; [done|]. cbn [abs_merge_next fst snd]. destruct (Z.eqb_spec (b + n) s) as [<-|]; [|by split].
  destruct Hc as [H1 H2]. split; [|done]. destruct xs as [|[t j] ?]; [done|]. lia.
Qed.

Lemma coalesced_free b n lo xs : blocks_from lo xs -> coalesced xs -> coalesced (abs_free b n xs).
Proof.
  revert lo. induction xs as [|[s k] xs IH]; intros lo Hs Hc; [done|]. cbn [abs_free].
  destruct (Z.ltb_spec b s); [by eapply coalesced_merge|].
  cbn in Hs. destruct Hs as (_ & _ & Hs), Hc as [Hc1 Hc2].
  destruct (Z.eqb_spec (s + k) b); [by eapply coalesced_merge|]. split; [|by eapply IH].
  destruct xs as [|[t j] xs]; cbn [abs_free]; [done|]. destruct (Z.ltb_spec b t).
  - cbn [abs_merge_next fst snd]. by destruct (b + n =? t).
  - destruct (t + j =? b); [|done]. destruct xs as [|[t' j'] ?]; cbn [abs_merge_next fst snd]; [done|]. by destruct (t + (j + n) =? t').
Qed.

(** Taking a block from a ring whose blocks do not touch leaves such a ring, and
    giving the block back restores the ring. *)
Lemma cut_coalesced xs n s xs' : 0 < n -> blocks_from 1 xs -> coalesced xs -> cut xs n s xs' ->
  coalesced xs' /\ abs_free s n xs' = xs /\ separate xs' s n.
Proof.
  intros Hn Hs Hc (x1 & p & pk & k & x2 & -> & Hnk & ->).
  pose proof Hs as Hsx. apply blocks_from_app in Hsx as (Hs1 & Hd1 & Hp0 & Hpk & Hsx). cbn [blocks_from] in Hsx.
  destruct Hsx as (Hps & Hk & Hs2). apply coalesced_app in Hc as [Hc1 [Hcp [Hcs Hc2]]].
  assert (Hge : forall t j, (t, j) ∈ x2 -> s + k <= t) by (intros t j Hin; by destruct (blocks_from_elem _ _ _ _ Hs2 Hin)).
  assert (Hsplit : forall t j, (t, j) ∈ split_block s k n ++ x2 -> s + n <= t).
  { intros t j. unfold split_block. destruct (Z.ltb_spec n k); cbn; [intros [[= -> ->]|Hin]%elem_of_cons; [lia|]|intros Hin];
      specialize (Hge t j Hin); lia. }
  split; [|split].
  - apply coalesced_app. split; [done|]. unfold split_block. destruct (Z.ltb_spec n k); cbn [app coalesced].
    + split; [lia|]. split; [|done]. destruct x2 as [|[t j] ?]; [done|]. lia.
    + split; [|done]. destruct x2 as [|[t j] ?]; [done|]. specialize (Hge t j ltac:(left)). lia.
  - replace (x1 ++ (p, pk) :: split_block s k n ++ x2) with ((x1 ++ [(p, pk)]) ++ split_block s k n ++ x2) by (rewrite <- app_assoc; done).
    rewrite abs_free_snoc; [| | |lia|].
    + destruct (Z.eqb_spec (p + pk) s); [lia|]. f_equal. f_equal. unfold split_block. destruct (Z.ltb_spec n k); cbn [app abs_merge_next fst snd].
      * rewrite Z.eqb_refl. f_equal. f_equal. lia.
      * replace n with k by lia. destruct x2 as [|[t j] x2]; [done|]. cbn [abs_merge_next fst snd]. destruct (Z.eqb_spec (s + k) t); [lia|done].
    + intros [t j] Hin. specialize (Hd1 t j Hin). cbn. lia.
    + intros [t j] Hin. by destruct (blocks_from_elem _ _ _ _ Hs1 Hin).
    + intros [t j] Hin. specialize (Hsplit t j Hin). cbn. lia.
  - intros t j [Hin|[[= -> ->]|Hin]%elem_of_cons]%elem_of_app.
    + specialize (Hd1 t j Hin). lia.
    + lia.
    + specialize (Hsplit t j Hin). lia.
Qed.

(** ** kmalloc and kfree *)
Lemma request_units size : 0 < size < 4064 ->
  1 < SLOB_UNITS (size + SLOB_UNIT) /\ size + SLOB_UNIT + SLOB_UNIT < PGSIZE.
Proof. unfold SLOB_UNITS, SLOB_UNIT, PGSIZE. intros. Z.to_euclidean_division_equations. lia. Qed.

Lemma kmalloc_small size h : 0 < size < 4080 -> kmalloc npage fuel size h =
  (m ← slob_alloc npage fuel (size + SLOB_UNIT) 0; mret (if m =? 0 then 0 else plus m 1)) h.
Proof. intros Hs. unfold kmalloc, __kmalloc. by destruct (Z.ltb_spec size (PGSIZE - SLOB_UNIT)) as [|Hge]; [|unfold PGSIZE, SLOB_UNIT in Hge; lia]. Qed.

Lemma heap_ok_elem h xs s k : heap_ok h xs -> (s, k) ∈ xs -> 0 < s.
Proof. intros [_ _ Hs _ _] Hin. destruct (blocks_from_elem _ _ _ _ Hs Hin). lia. Qed.

Lemma cut_elem xs n s xs' : cut xs n s xs' -> exists k, (s, k) ∈ xs.
Proof. intros (x1 & p & pk & k & x2 & -> & _). exists k. apply elem_of_app. right. right. left. Qed.

Lemma abs_free_starts b n xs s k : (s, k) ∈ abs_free b n xs -> s = b \/ exists j, (s, j) ∈ xs.
Proof.
  assert (Hm : forall t j r, (s, k) ∈ abs_merge_next (t, j) r -> s = t \/ (s, k) ∈ r).
  { intros t j [|[u i] r]; cbn [abs_merge_next fst snd]; [intros [[= -> ->]|[]%elem_of_nil]%elem_of_cons; by left|].
    destruct (t + j =? u); intros [[= -> ->]|Hin]%elem_of_cons; auto. right. by right. }
  induction xs as [|[t j] xs IH]; cbn [abs_free]; [intros [[= -> ->]|[]%elem_of_nil]%elem_of_cons; by left|].
  destruct (b <? t); [intros [->|Hin]%Hm; [by left|right; by exists k]|]. destruct (t + j =? b).
  - intros [->|Hin]%Hm; right; [exists j; left|exists k; by right].
  - intros [[= -> ->]|[->|(i & Hin)]%IH]%elem_of_cons; [right; exists j; left|by left|right; exists i; by right].
Qed.

(** The result of a request of [n] units from the free blocks [xs]. *)
Definition served h0 (r : outcome (Z * kheap A)) (n : Z) (xs : list block) : Prop :=
  exists s xs' h', r = Done (addr s + SLOB_UNIT, h') /\ cut xs n s xs' /\ heap_ok h' xs' /\ kept h0 h' /\
    units (slobs h' (addr s)) = n.

Lemma served_of h0 h size xs n : (forall s k, (s, k) ∈ xs -> 0 < s) -> 0 < size < 4080 ->
  (exists s xs' h', slob_alloc npage fuel (size + SLOB_UNIT) 0 h = Done (addr s, h') /\ cut xs n s xs' /\
    heap_ok h' xs' /\ kept h0 h' /\ units (slobs h' (addr s)) = n) ->
  served h0 (kmalloc npage fuel size h) n xs.
Proof.
  intros Hpos Hs (s & xs' & h' & Hrun & Hcut & Hx). exists s, xs', h'. rewrite kmalloc_small by done.
  rewrite (bind_Done _ _ _ _ _ Hrun). destruct (cut_elem _ _ _ _ Hcut) as (k & Hin%Hpos).
  assert (addr s =? 0 = false) as -> by (apply Z.eqb_neq; unfold addr, SLOB_UNIT; lia). by split; [unfold plus|].
Qed.

Lemma kmalloc_found h xs size : heap_ok h xs -> 0 < size < 4064 -> (length xs < fuel)%nat ->
  ~ Forall (small (SLOB_UNITS (size + SLOB_UNIT))) xs -> served h (kmalloc npage fuel size h) (SLOB_UNITS (size + SLOB_UNIT)) xs.
Proof.
  intros Hok Hsz Hf Hl. destruct (request_units size Hsz). apply served_of; [by intros s k; apply (heap_ok_elem h)|lia|].
  apply slob_alloc_found; done || lia.
Qed.

(** A request of [size] bytes takes [SLOB_UNITS (size + 16)] units from the free block that
    first has as many in the ring, and returns the address after the header that
    records them; when no block has, it adds one page to the ring and takes them from
    the ring so grown, or returns NULL when there is no page.  Requests of 4064 to 4079
    bytes, which are taken for small ones, stop the kernel. *)
Theorem kmalloc_spec h xs size : heap_ok h xs -> 0 < size -> (length xs < fuel)%nat ->
  let n := SLOB_UNITS (size + SLOB_UNIT) in
  (size < 4064 -> ~ Forall (small n) xs -> served h (kmalloc npage fuel size h) n xs) /\
  (size < 4064 -> Forall (small n) xs -> forall pg h1, __slob_get_free_pages npage 0 h = Done (pg, h1) ->
    (pg = 0 -> kmalloc npage fuel size h = Done (0, h1) /\ heap_ok h1 xs) /\
    (forall b, pg = addr b -> a0 + 1 < b -> b <> 0 -> separate xs b 256 -> free_total xs + 256 < 2 ^ 31 ->
      served h1 (kmalloc npage fuel size h) n (abs_free b 256 xs))) /\
  (4064 <= size < 4080 -> kmalloc npage fuel size h = Panicked).
Proof.
  intros Hok Hpos Hf n. split; [|split].
  - intros Hsz. by apply kmalloc_found.
  - intros Hsz Hsm pg h1 Hpg. destruct (request_units size) as [Hn Hp]; [lia|]. split.
    + intros ->. rewrite kmalloc_small by lia. rewrite (bind_Done _ _ _ 0 h1); [split; [done|]|].
      * destruct (get_free_pages_kept _ _ _ _ Hpg) as (E1 & E2 & _ & _). by apply (heap_ok_ext h).
      * rewrite (slob_alloc_empty h xs) by (done || lia). by rewrite (bind_Done _ _ _ _ _ Hpg).
    + intros b -> Hb Hb0 Hsep Htot. apply served_of; [|lia|by apply slob_alloc_grown].
      intros s k [->|(j & Hin)]%abs_free_starts; [|by eapply heap_ok_elem].
      destruct (he_arena _ _ Hok) as (ys & -> & _). pose proof (heap_ok_elem h _ a0 1 Hok ltac:(left)). lia.
  - intros Hsz. rewrite kmalloc_small by lia. unfold slob_alloc.
    assert (size + SLOB_UNIT + SLOB_UNIT <? PGSIZE = false) as -> by (apply Z.ltb_ge; unfold SLOB_UNIT, PGSIZE; lia). done.
Qed.

Lemma kfree_run h xs b k : heap_ok h xs -> a0 + 1 < b -> 0 < k -> separate xs b k -> free_total xs + k < 2 ^ 31 ->
  units (slobs h (addr b)) = k -> (length xs < fuel)%nat -> find_big (addr b + SLOB_UNIT) h = None ->
  exists h', kfree npage fuel (addr b + SLOB_UNIT) h = Done (tt, h') /\ heap_ok h' (abs_free b k xs) /\ kept h h'.
Proof.
  intros Hok Hb Hk Hsep Ht Hu Hf Hbig. destruct (he_arena _ _ Hok) as (ys & Hys & _).
  assert (0 < a0) by (apply (heap_ok_elem h xs a0 1); [done|rewrite Hys; left]).
  unfold kfree. assert (addr b + SLOB_UNIT =? 0 = false) as -> by (apply Z.eqb_neq; unfold addr, SLOB_UNIT; lia).
  mstep (eq_refl : get (fun h => if page_aligned (addr b + SLOB_UNIT) then find_big (addr b + SLOB_UNIT) h else None) h =
    Done (if page_aligned (addr b + SLOB_UNIT) then find_big (addr b + SLOB_UNIT) h else None, h)).
  rewrite Hbig. replace (if page_aligned _ then None else None) with (@None Z) by (by destruct (page_aligned _)).
  replace (plus (addr b + SLOB_UNIT) (-1)) with (addr b) by (unfold plus, addr, SLOB_UNIT; lia).
  apply slob_free_spec; try done; [lia|by left].
Qed.

(** Giving a block back puts its units into the free ring in address order, merged with
    the free blocks it touches, for the pointer that [kmalloc] returned; in a ring whose
    blocks do not touch none do afterwards. *)
Theorem kfree_refines h xs b k : heap_ok h xs -> a0 + 1 < b -> 0 < k -> separate xs b k -> free_total xs + k < 2 ^ 31 ->
  units (slobs h (addr b)) = k -> (length xs < fuel)%nat -> find_big (addr b + SLOB_UNIT) h = None ->
  exists h', kfree npage fuel (addr b + SLOB_UNIT) h = Done (tt, h') /\ heap_ok h' (abs_free b k xs) /\
    kept h h' /\ (coalesced xs -> coalesced (abs_free b k xs)).
Proof.
  intros Hok ? ? ? ? ? ? ?. edestruct (kfree_run h xs b k) as (h' & Hrun & Hok' & Hk); try done.
  exists h'. split_and!; try done. eapply coalesced_free, Hok.
Qed.

(** What [kmalloc] gives out of the free ring, [kfree] puts back so that the ring is as
    it was, when no large block has the same address. *)
Theorem kmalloc_kfree h xs size : heap_ok h xs -> coalesced xs -> 0 < size < 4064 -> (length xs < fuel)%nat ->
  ~ Forall (small (SLOB_UNITS (size + SLOB_UNIT))) xs ->
  (forall bb s k, bb ∈ bigblocks h -> (s, k) ∈ xs -> bpages (bigs h bb) <> addr s + SLOB_UNIT) ->
  exists p h1 h2, kmalloc npage fuel size h = Done (p, h1) /\ p <> 0 /\
    kfree npage fuel p h1 = Done (tt, h2) /\ heap_ok h2 xs /\ kept h h2.
Proof.
  intros Hok Hc Hsz Hf Hl Hbig. destruct (request_units size Hsz) as [Hn _].
  destruct (kmalloc_found h xs size Hok Hsz Hf Hl) as (s & xs' & h1 & Hrun & Hcut & Hok1 & Hk1 & Hu).
  destruct (cut_elem _ _ _ _ Hcut) as (k & Hin). pose proof (heap_ok_elem _ _ _ _ Hok Hin).
  destruct (cut_coalesced xs (SLOB_UNITS (size + SLOB_UNIT)) s xs') as (Hc' & Hback & Hsep); [lia|apply Hok|done|done|].
  set (n := SLOB_UNITS (size + SLOB_UNIT)) in *.
  assert (Hlen : (length xs' <= length xs)%nat /\ free_total xs' + n = free_total xs /\ a0 + 1 < s).
  { destruct (he_arena _ _ Hok) as (ys & Hys & Hlow). destruct Hcut as (x1 & p & pk & j & x2 & Hx & Hnj & ->).
    split; [rewrite Hx, !length_app; unfold split_block; case_match; cbn; rewrite ?length_app; lia|]. split.
    - rewrite Hx. replace (x1 ++ (p, pk) :: split_block s j n ++ x2) with ((x1 ++ [(p, pk)]) ++ split_block s j n ++ x2) by (rewrite <- app_assoc; done).
      rewrite free_total_split by done. rewrite <- app_assoc. cbn [app]. lia.
    - rewrite Hx in Hys. destruct x1 as [|x x1]; cbn in Hys; [injection Hys as _ _ Hy|injection Hys as _ Hy];
        apply (Hlow s j); rewrite <- Hy; [left|apply elem_of_app; right; right; left]. }
  destruct Hlen as (Hlen & Htot & Hs).
  destruct (kfree_run h1 xs' s n Hok1) as (h2 & Hrun2 & Hok2 & Hk2); try done; try lia.
  - pose proof (he_bound _ _ Hok). lia.
  - unfold find_big. destruct (find _ _) as [bb|] eqn:Hfind; [|done]. exfalso. apply find_some in Hfind as [Hbb Heq%Z.eqb_eq].
    destruct Hk1 as (E1 & E2 & _). rewrite E1 in Hbb. rewrite E2 in Heq. by apply (Hbig bb s k); [apply list_elem_of_In|..].
  - rewrite Hback in Hok2. exists (addr s + SLOB_UNIT), h1, h2. split; [done|]. split; [unfold addr, SLOB_UNIT; lia|].
    split; [done|]. split; [done|]. destruct Hk1 as (? & ? & ?), Hk2 as (? & ? & ?). split_and!; congruence.
Qed.
End slob_spec.

(** ** A ring with one free block of 100 units *)
Definition sample_ring : list block := [(1, 1); (10, 100)].
Definition sample_heap : kheap pmm :=
  mkHeap (fun p => if p =? 16 then mkSlob 1 160 else if p =? 160 then mkSlob 100 16 else mkSlob 5 0)
    160 [] (fun _ => mkBig 0 0) sample_machine.

Lemma sample_heap_ok : heap_ok 1 sample_heap sample_ring.
Proof.
  split.
  - eexists. split; [done|]. intros s k [[= -> ->]|[]%elem_of_nil]%elem_of_cons. lia.
  - vm_compute. done.
  - cbn. lia.
  - vm_compute. done.
  - exists 10, 100. split; [done|]. right. left.
Qed.

Lemma sample_not_small : ~ Forall (small (SLOB_UNITS (40 + SLOB_UNIT))) sample_ring.
Proof. intros [_ [H _]%Forall_cons]%Forall_cons. vm_compute in H. done. Qed.

Lemma kmalloc_spec_witness : served 1 sample_heap (kmalloc sample_npage 3 40 sample_heap) 4 sample_ring /\
  kmalloc sample_npage 3 4070 sample_heap = Panicked.
Proof.
  split.
  - destruct (kmalloc_spec sample_npage 1 3 sample_heap sample_ring 40) as [H _]; [exact sample_heap_ok|lia|cbn; lia|].
    apply H; [lia|exact sample_not_small].
  - destruct (kmalloc_spec sample_npage 1 3 sample_heap sample_ring 4070) as (_ & _ & H); [exact sample_heap_ok|lia|cbn; lia|].
    apply H. lia.
Defined.

Lemma kfree_refines_witness : exists h', kfree sample_npage 3 (addr 110 + SLOB_UNIT) sample_heap = Done (tt, h') /\
  heap_ok 1 h' [(1, 1); (10, 105)] /\ kept sample_heap h' /\ (coalesced sample_ring -> coalesced [(1, 1); (10, 105)]).
Proof.
  apply (kfree_refines sample_npage 1 3 sample_heap sample_ring 110 5); try done.
  - exact sample_heap_ok.
  - intros s k [[= -> ->]|[[= -> ->]|[]%elem_of_nil]%elem_of_cons]%elem_of_cons; lia.
  - cbn. lia.
Defined.

Lemma kmalloc_kfree_witness : exists p h1 h2, kmalloc sample_npage 3 40 sample_heap = Done (p, h1) /\ p <> 0 /\
  kfree sample_npage 3 p h1 = Done (tt, h2) /\ heap_ok 1 h2 sample_ring /\ kept sample_heap h2.
Proof.
  apply kmalloc_kfree; [exact sample_heap_ok|cbn; lia|lia|cbn; lia|exact sample_not_small|].
  intros bb s k []%elem_of_nil.
Defined.

(** From the arena alone: a page is taken, then blocks follow each other in it and
    come back.  The page is page 4 and [kva 4] its address. *)
Definition empty_heap : kheap pmm :=
  mkHeap (fun p => if p =? 16 then mkSlob 1 16 else mkSlob 0 0) 16 [] (fun _ => mkBig 0 0) sample_machine.
Example kmalloc_runs :
  result ((p ← kmalloc sample_npage 5 100; q ← kmalloc sample_npage 5 1; kfree sample_npage 5 p;;
           r ← kmalloc sample_npage 5 9000; kfree sample_npage 5 q ;; mret (p - kva 4, q - kva 4, r)) empty_heap)
  = Some (16, 144, 0).
Proof. vm_compute. reflexivity. Qed.
