(* ===== verification/Sync.v ===== *)
(** * Wait queues and semaphores (kern/sync/wait.c, kern/sync/sem.c)

    A [wait_t] and a wait queue are named by their addresses; a queue is the
    list of the waits linked in it, and a wait whose link is in no list has an
    empty link.  The queue of a semaphore is named by the semaphore.  Interrupts
    are off where the code turns them off, so each operation is one step; [down]
    is cut where the process gives up the processor. *)
From S2P Require Import Prelude Proc RunQueue RunQueueSpec Sched SchedSpec.

Record wait_t := mkWait { wproc : Z; wakeup_flags : Z; wait_queue : Z }.

Record syncs := mkSyncs { ksched : sched; waits : Z -> wait_t; wqueues : Z -> list Z; values : Z -> Z }.
Definition set_ksched x (s : syncs) : syncs := mkSyncs x (waits s) (wqueues s) (values s).
Definition set_wait w x (s : syncs) : syncs := mkSyncs (ksched s) (upd (waits s) w x) (wqueues s) (values s).
Definition set_wqueue q x (s : syncs) : syncs := mkSyncs (ksched s) (waits s) (upd (wqueues s) q x) (values s).
Definition set_value x v (s : syncs) : syncs := mkSyncs (ksched s) (waits s) (wqueues s) (upd (values s) x v).

Definition on_ksched {A} (m : ST sched A) : ST syncs A := fun s =>
  match m (ksched s) with
  | Done (a, x) => Done (a, set_ksched x s)
  | Panicked => Panicked
  | NoFuel => NoFuel
  end.

Section sync.
  Context `{SchedClass}.

(** ** wait.c *)
(** The link of the wait is in the queue it was last put in. *)
Definition wait_in_queue (w : Z) (s : syncs) : bool := bool_decide (w ∈ wqueues s (wait_queue (waits s w))).

Definition wait_init (w p : Z) : ST syncs unit :=
  modify (fun s => set_wait w (mkWait p WT_INTERRUPTED (wait_queue (waits s w))) s).
Definition wait_queue_init (q : Z) : ST syncs unit := modify (set_wqueue q []).

Definition wait_queue_add (q w : Z) : ST syncs unit :=
  linked ← get (wait_in_queue w);
  assert (negb linked) ;;
  modify (fun s => let x := waits s w in set_wait w (mkWait (wproc x) (wakeup_flags x) q) s) ;;
  modify (fun s => set_wqueue q (wqueues s q ++ [w]) s).

(** [assert(!list_empty(&(wait->wait_link)) && wait->wait_queue == queue)]. *)
Definition must_be_in (q w : Z) : ST syncs unit :=
  linked ← get (wait_in_queue w);
  q' ← get (fun s => wait_queue (waits s w));
  assert (linked && (q' =? q)).
Definition wait_queue_del (q w : Z) : ST syncs unit :=
  must_be_in q w ;; modify (fun s => set_wqueue q (unlink w (wqueues s q)) s).

Fixpoint after (w : Z) (l : list Z) : option Z :=
  match l with
  | [] => None
  | x :: l' => if x =? w then head l' else after w l'
  end.
Definition wait_queue_next (q w : Z) : ST syncs (option Z) := must_be_in q w ;; get (fun s => after w (wqueues s q)).
Definition wait_queue_prev (q w : Z) : ST syncs (option Z) := must_be_in q w ;; get (fun s => after w (rev (wqueues s q))).
Definition wait_queue_first (q : Z) (s : syncs) : option Z := head (wqueues s q).
Definition wait_queue_last (q : Z) (s : syncs) : option Z := last (wqueues s q).
Definition wait_queue_empty (q : Z) (s : syncs) : bool := bool_decide (wqueues s q = []).

Definition wakeup_wait (q w flags : Z) (del : bool) : ST syncs unit :=
  (if del then wait_queue_del q w else mret tt) ;;
  modify (fun s => let x := waits s w in set_wait w (mkWait (wproc x) flags (wait_queue x)) s) ;;
  p ← get (fun s => wproc (waits s w));
  on_ksched (wakeup_proc p).

Definition wakeup_first (q flags : Z) (del : bool) : ST syncs unit :=
  o ← get (wait_queue_first q);
  match o with Some w => wakeup_wait q w flags del | None => mret tt end.

(** The two loops of [wakeup_queue]. *)
Fixpoint wakeup_all (fuel : nat) (q flags : Z) : ST syncs unit :=
  o ← get (wait_queue_first q);
  match o, fuel with
  | None, _ => mret tt
  | Some _, O => no_fuel
  | Some w, S fuel' => wakeup_wait q w flags true ;; wakeup_all fuel' q flags
  end.
Fixpoint wakeup_from (fuel : nat) (q w flags : Z) : ST syncs unit :=
  match fuel with
  | O => no_fuel
  | S fuel' =>
      wakeup_wait q w flags false ;;
      o ← wait_queue_next q w;
      match o with Some w => wakeup_from fuel' q w flags | None => mret tt end
  end.
Definition wakeup_queue (q flags : Z) (del : bool) : ST syncs unit :=
  o ← get (wait_queue_first q);
  n ← get (fun s => length (wqueues s q));
  match o with
  | None => mret tt
  | Some w => if del then wakeup_all n q flags else wakeup_from n q w flags
  end.

Definition wait_current_set (q w wait_state : Z) : ST syncs unit :=
  cur ← get (fun s => current (ksched s));
  wait_init w cur ;;
  on_ksched (on_proc cur (set_state PROC_SLEEPING)) ;;
  on_ksched (on_proc cur (set_wait_state wait_state)) ;;
  wait_queue_add q w.
Definition wait_current_del (q w : Z) : ST syncs unit :=
  linked ← get (wait_in_queue w);
  if (linked : bool) then wait_queue_del q w else mret tt.

(** ** sem.c *)
Definition sem_init (x v : Z) : ST syncs unit := modify (set_value x v) ;; wait_queue_init x.

Definition sem_up (x wait_st : Z) : ST syncs unit :=
  o ← get (wait_queue_first x);
  match o with
  | None => modify (fun s => set_value x (s32 (values s x + 1)) s)
  | Some w =>
      ws ← get (fun s => wait_state (procs (ksched s) (wproc (waits s w))));
      assert (ws =? wait_st) ;;
      wakeup_wait x w wait_st true
  end.

(** [__down] up to [schedule]; [w] is the wait on the stack of the process. The
    result says whether it goes on at once. *)
Definition down_begin (x w wait_st : Z) : ST syncs bool :=
  v ← get (fun s => values s x);
  if 0 <? v then modify (fun s => set_value x (s32 (v - 1)) s) ;; mret true
  else wait_current_set x w wait_st ;; on_ksched schedule ;; mret false.
(** [__down] after [schedule]. *)
Definition down_end (x w wait_st : Z) : ST syncs Z :=
  wait_current_del x w ;;
  f ← get (fun s => wakeup_flags (waits s w));
  mret (if f =? wait_st then 0 else f).

Definition up (x : Z) : ST syncs unit := sem_up x WT_KSEM.
Definition down (x w : Z) : ST syncs bool := down_begin x w WT_KSEM.
(** What [down] does when the process runs again. *)
Definition down_return (x w : Z) : ST syncs unit := f ← down_end x w WT_KSEM; assert (f =? 0).
Definition try_down (x : Z) : ST syncs bool :=
  v ← get (fun s => values s x);
  if 0 <? v then modify (fun s => set_value x (s32 (v - 1)) s) ;; mret true else mret false.
End sync.

(** ** Semaphores, specified

    A semaphore as a count and a queue of processes: [up] gives to the process
    at the front, [down] takes or goes to the end. *)

Section sync_spec.
  Context `{SchedClass}.
  Implicit Types s : syncs.

Notation ks s := (ksched s).

(** The semaphore [x] has the value [v] and the processes [ps] wait for it. *)
Record sem_view s (x v : Z) (ps : list Z) : Prop := mkView {
  sv_value : values s x = v;
  sv_range : 0 <= v < 2 ^ 31 - 1;
  sv_empty : ps <> [] -> v = 0;
  sv_procs : ps = (fun w => wproc (waits s w)) <$> wqueues s x;
  sv_nodup : NoDup (wqueues s x);
  sv_in w : w ∈ wqueues s x -> wait_queue (waits s w) = x;
  sv_once : NoDup ps;
  sv_sleep p : p ∈ ps -> state (procs (ks s) p) = PROC_SLEEPING /\ wait_state (procs (ks s) p) = WT_KSEM /\
                         sc_fit (ents (queues (ks s)) p) }.

Lemma on_ksched_run {A} (m : ST sched A) s a k : m (ks s) = Done (a, k) -> on_ksched m s = Done (a, set_ksched k s).
Proof. unfold on_ksched. by intros ->. Qed.

Lemma up_empty s x v : sem_view s x v [] -> up x s = Done (tt, set_value x (v + 1) s) /\
  sem_view (set_value x (v + 1) s) x (v + 1) [] \/ v + 1 = 2 ^ 31 - 1.
Proof.
  intros [Hv Hr _ Hps Hnd Hin _ _]. destruct (decide (v + 1 = 2 ^ 31 - 1)); [by right|left].
  assert (Hq : wqueues s x = []) by (destruct (wqueues s x); done). split.
  - unfold up, sem_up. mstep (eq_refl : get (wait_queue_first x) s = Done (wait_queue_first x s, s)).
    unfold wait_queue_first. rewrite Hq. cbn. unfold modify. rewrite Hv, s32_small by lia. done.
  - split; cbn; rewrite ?upd_eq, ?Hq; try done;
      solve [lia|apply NoDup_nil_2|by intros ? ?%elem_of_nil].
Qed.

Lemma must_be_in_run s x w : wait_queue (waits s w) = x -> w ∈ wqueues s x -> must_be_in x w s = Done (tt, s).
Proof.
  intros Hx Hw. unfold must_be_in. mstep (eq_refl : get (wait_in_queue w) s = Done (wait_in_queue w s, s)).
  mstep (eq_refl : get (fun s => wait_queue (waits s w)) s = Done (wait_queue (waits s w), s)).
  unfold wait_in_queue. rewrite Hx, bool_decide_eq_true_2 by done. apply assert_true. by rewrite Z.eqb_refl.
Qed.

(** One waiter, [w] of the process [p], is served. *)
Lemma up_first s x v p ps n l : sem_view s x v (p :: ps) -> sched_ok n (ks s) l -> n + 1 < 2 ^ 32 - 2 ->
  exists w ws s' l', wqueues s x = w :: ws /\ wproc (waits s w) = p /\ up x s = Done (tt, s') /\
    sem_view s' x v ps /\ sched_ok (n + 1) (ks s') l' /\ woken p (ks s) (ks s') /\
    waits s' w = mkWait p WT_KSEM x /\ wqueues s' x = ws /\
    (forall k, k <> w -> waits s' k = waits s k) /\ (forall y, y <> x -> wqueues s' y = wqueues s y).
Proof.
  intros [Hv Hr He Hps Hnd Hin Hon Hsl] Hok Hn. destruct (wqueues s x) as [|w ws] eqn:Hq; [done|].
  cbn in Hps. injection Hps as Hpw Hps. destruct (Hsl p ltac:(left)) as (Hst & Hws & Hfit).
  apply NoDup_cons in Hnd as [Hw Hnd]. apply NoDup_cons in Hon as [Hp Hon].
  destruct (wakeup_run n (ks s) l p Hok Hn) as (k & l' & Hrun & Hok' & Hwk & Hfk); [congruence|done|].
  set (s1 := set_wqueue x ws s). set (s2 := set_wait w (mkWait p WT_KSEM x) s1).
  exists w, ws, (set_ksched k s2), l'. split; [done|]. split; [by rewrite Hpw|].
  assert (Hwx : wait_queue (waits s w) = x) by (apply Hin; left).
  assert (Hunl : unlink w (w :: ws) = ws) by (by apply unlink_head). split; [|split; [|split; [|split; [done|]]]].
  - unfold up, sem_up. mstep (eq_refl : get (wait_queue_first x) s = Done (wait_queue_first x s, s)).
    unfold wait_queue_first. rewrite Hq. cbn [head].
    mstep (eq_refl : get (fun s => wait_state (procs (ks s) (wproc (waits s w)))) s
                     = Done (wait_state (procs (ks s) (wproc (waits s w))), s)).
    rewrite <- Hpw, Hws. mstep (assert_true (WT_KSEM =? WT_KSEM) s (Z.eqb_refl _)).
    unfold wakeup_wait. assert (Hdel : wait_queue_del x w s = Done (tt, s1)).
    { unfold wait_queue_del. rewrite (bind_Done _ _ _ _ _ (must_be_in_run s x w Hwx ltac:(rewrite Hq; left))).
      unfold modify. by rewrite Hq, Hunl. }
    mstep Hdel.
    assert (Hw1 : waits s1 w = waits s w) by done.
    mstep (eq_refl : modify (fun s => let x := waits s w in set_wait w (mkWait (wproc x) WT_KSEM (wait_queue x)) s) s1
                     = Done (tt, set_wait w (mkWait (wproc (waits s w)) WT_KSEM (wait_queue (waits s w))) s1)).
    rewrite Hwx, <- Hpw. fold s2.
    mstep (eq_refl : get (fun s => wproc (waits s w)) s2 = Done (wproc (waits s2 w), s2)).
    assert (Hp2 : wproc (waits s2 w) = p) by (unfold s2; cbn; by rewrite upd_eq). rewrite Hp2.
    by apply on_ksched_run.
  - split; cbn; rewrite ?upd_eq; try done.
    + by rewrite He.
    + rewrite Hps. apply list_fmap_ext. intros i y Hy. f_equal. symmetry. apply upd_ne. intros ->.
      apply Hw. by apply list_elem_of_lookup_2 in Hy.
    + intros y Hy. rewrite upd_ne by (by intros ->). apply Hin. by right.
    + intros y Hy. destruct (Hsl y ltac:(by right)) as (A & B & C). destruct Hwk as (_ & _ & _ & _ & Hwk).
      rewrite Hwk, decide_False; [|intros [-> _]; done]. split; [done|]. split; [done|]. by apply Hfk.
  - done.
  - split; [by cbn; rewrite upd_eq|]. split; [by cbn; rewrite upd_eq|]. split.
    + intros y Hy. cbn. by rewrite upd_ne.
    + intros y Hy. cbn. by rewrite upd_ne.
Qed.

(** The process that has the processor goes to sleep behind those that wait in
    the queue [x], on its wait [w]. *)
Record asleep n s x w st cur s' l' : Prop := mkAsleep {
  as_ok : sched_ok n (ks s') l';
  as_other : current (ks s') <> cur;
  as_idle : idleproc (ks s') = idleproc (ks s);
  as_queue : wqueues s' x = wqueues s x ++ [w];
  as_wait : waits s' w = mkWait cur WT_INTERRUPTED x;
  as_waits k : k <> w -> waits s' k = waits s k;
  as_queues y : y <> x -> wqueues s' y = wqueues s y;
  as_values : values s' = values s;
  as_self : state (procs (ks s') cur) = PROC_SLEEPING /\ wait_state (procs (ks s') cur) = st /\ sc_fit (ents (queues (ks s')) cur);
  as_procs p : p <> cur -> state (procs (ks s') p) = state (procs (ks s) p) /\
                           wait_state (procs (ks s') p) = wait_state (procs (ks s) p);
  as_fit p : sc_fit (ents (queues (ks s)) p) -> sc_fit (ents (queues (ks s')) p) }.

Lemma sleep_run s x w st n l cur : sched_ok n (ks s) l -> current (ks s) = cur ->
  runnable (ks s) cur -> cur <> idleproc (ks s) -> (forall y, w ∉ wqueues s y) ->
  exists s' l', (wait_current_set x w st ;; on_ksched schedule) s = Done (tt, s') /\ asleep n s x w st cur s' l'.
Proof.
  intros Hok Hc Hrun Hidle Hw. pose proof Hok as [Hq Hel Hi Hf Hlen].
  set (k0 := set_procs (upd (procs (ks s)) cur (set_state PROC_SLEEPING (procs (ks s) cur))) (ks s)).
  set (k1 := set_procs (upd (procs k0) cur (set_wait_state st (procs k0 cur))) k0).
  assert (Hcur : state (procs k1 cur) = PROC_SLEEPING /\ wait_state (procs k1 cur) = st)
    by (cbn; by rewrite !upd_eq).
  assert (Hnr : ~ runnable k1 cur) by (unfold runnable; destruct Hcur; congruence).
  assert (Hoth : forall p, p <> cur -> procs k1 p = procs (ks s) p) by (intros p Hp; cbn; by rewrite !upd_ne).
  assert (Hok1 : sched_ok n k1 l).
  { split; [done| | | |done].
    - intros p. cbn. rewrite Hc in Hel. destruct (decide (p = cur)) as [->|Hp].
      + rewrite Hel, Hc. tauto.
      + unfold runnable. rewrite Hoth, Hc by done. apply Hel.
    - unfold runnable. by rewrite Hoth by done.
    - intros p Hp Hpi. destruct (decide (p = cur)) as [->|Hpc]; [done|]. unfold runnable in Hp. rewrite Hoth in Hp by done.
      by apply Hf. }
  destruct (schedule_fit n k1 l Hok1) as (k2 & l' & Hsch & Hok2 & Hsame & Hrc & _ & _ & Hp2 & Hfit2).
  set (sa := set_wait w (mkWait cur WT_INTERRUPTED (wait_queue (waits s w))) s). set (sb := set_ksched k1 sa).
  set (sc := set_wqueue x (wqueues s x ++ [w]) (set_wait w (mkWait cur WT_INTERRUPTED x) sb)).
  assert (Hadd : wait_queue_add x w sb = Done (tt, sc)).
  { unfold wait_queue_add. mstep (eq_refl : get (wait_in_queue w) sb = Done (wait_in_queue w sb, sb)).
    unfold wait_in_queue. rewrite bool_decide_eq_false_2 by (apply Hw). mstep (assert_true true sb eq_refl).
    unfold modify, mbind, ST_bind, sc. unfold sb, sa. cbn. by rewrite upd_eq. }
  assert (Hset : wait_current_set x w st s = Done (tt, sc)).
  { unfold wait_current_set. mstep (eq_refl : get (fun s => current (ks s)) s = Done (current (ks s), s)). rewrite Hc.
    mstep (eq_refl : wait_init w cur s = Done (tt, sa)).
    mstep (eq_refl : on_ksched (on_proc cur (set_state PROC_SLEEPING)) sa = Done (tt, set_ksched k0 sa)).
    by mstep (eq_refl : on_ksched (on_proc cur (set_wait_state st)) (set_ksched k0 sa) = Done (tt, sb)). }
  assert (Hks : forall p, state (procs k2 p) = state (procs k1 p) /\ wait_state (procs k2 p) = wait_state (procs k1 p))
    by (intros p; destruct Hsame as (_ & _ & _ & ->); done).
  exists (set_ksched k2 sc), l'. split.
  - rewrite (bind_Done _ _ _ _ _ Hset). by apply on_ksched_run.
  - split; cbn; rewrite ?upd_eq; try done.
    + intros Hx. by rewrite Hx in Hrc.
    + apply Hsame.
    + intros k Hk. by rewrite !upd_ne.
    + intros y Hy. by rewrite upd_ne.
    + destruct (Hks cur) as [-> ->], Hcur as [-> ->]. split; [done|]. split; [done|]. apply Hfit2. by apply Hf.
    + intros p Hp. destruct (Hks p) as [-> ->]. by rewrite Hoth.
Qed.

(** A process that finds the value 0 waits behind those that wait already, and
    another process runs. *)
Lemma down_sleeps s x w ps n l cur : sem_view s x 0 ps -> sched_ok n (ks s) l -> current (ks s) = cur ->
  runnable (ks s) cur -> cur <> idleproc (ks s) -> (forall y, w ∉ wqueues s y) ->
  exists s' l', down x w s = Done (false, s') /\ sem_view s' x 0 (ps ++ [cur]) /\ sched_ok n (ks s') l' /\
    current (ks s') <> cur /\ wqueues s' x = wqueues s x ++ [w] /\ waits s' w = mkWait cur WT_INTERRUPTED x /\
    (forall k, k <> w -> waits s' k = waits s k) /\ (forall y, y <> x -> wqueues s' y = wqueues s y).
Proof.
  intros [Hv Hr He Hps Hnd Hin Hon Hsl] Hok Hc Hrun Hidle Hw.
  destruct (sleep_run s x w WT_KSEM n l cur Hok Hc Hrun Hidle Hw) as (s1 & l' & Hslp & [Hok1 Hne _ Hqx Hww Hwo Hyo Hvs Hself Hoth Hfit]).
  exists s1, l'. split; [|split; [|done]].
  - unfold down, down_begin. mstep (eq_refl : get (fun s => values s x) s = Done (values s x, s)).
    rewrite Hv. cbn [Z.ltb Z.compare]. apply bind_Done_inv in Hslp as ([] & s2 & Hset & Hsch).
    unfold mbind, ST_bind in *. by rewrite Hset, Hsch.
  - assert (Hcps : cur ∉ ps) by (intros Hcur'; destruct (Hsl cur Hcur') as [Hs _]; unfold runnable in Hrun; congruence).
    split.
    + congruence.
    + lia.
    + done.
    + rewrite Hqx, fmap_app. cbn [fmap list_fmap]. rewrite Hww, Hps. f_equal.
      apply list_fmap_ext. intros i y Hy. f_equal. symmetry. apply Hwo. intros ->. apply (Hw x).
      by apply list_elem_of_lookup_2 in Hy.
    + rewrite Hqx. apply NoDup_app. split; [done|]. split; [|apply NoDup_singleton].
      intros y Hy ->%list_elem_of_singleton. by apply (Hw x).
    + rewrite Hqx. intros y [Hy|Hy%list_elem_of_singleton]%elem_of_app; [|by rewrite Hy, Hww].
      rewrite Hwo; [by apply Hin|]. intros ->. by apply (Hw x).
    + apply NoDup_app. split; [done|]. split; [|apply NoDup_singleton]. by intros y Hy ->%list_elem_of_singleton.
    + intros p [Hp|Hp%list_elem_of_singleton]%elem_of_app; [|by subst p].
      destruct (Hsl p Hp) as (A & B & C). destruct (Hoth p) as [-> ->]; [by intros ->|]. by auto.
Qed.

(** Every process that waits in the queue is woken, with the flags [f]. *)
Lemma wakeup_all_run x f : forall ws s k n l, wqueues s x = ws -> NoDup ws -> (length ws <= k)%nat ->
  (forall w, w ∈ ws -> wait_queue (waits s w) = x /\ state (procs (ks s) (wproc (waits s w))) <> PROC_ZOMBIE /\
                       sc_fit (ents (queues (ks s)) (wproc (waits s w)))) ->
  sched_ok n (ks s) l -> n + Z.of_nat (length ws) < 2 ^ 32 - 2 ->
  exists s' l', wakeup_all k x f s = Done (tt, s') /\ sched_ok (n + Z.of_nat (length ws)) (ks s') l' /\
    wqueues s' x = [] /\ (forall y, y <> x -> wqueues s' y = wqueues s y) /\
    (forall w, waits s' w = if decide (w ∈ ws) then mkWait (wproc (waits s w)) f x else waits s w) /\
    (forall p, runnable (ks s') p <-> runnable (ks s) p \/ exists w, w ∈ ws /\ wproc (waits s w) = p) /\
    timer (ks s') = timer (ks s) /\ timer_list (ks s') = timer_list (ks s).
Proof.
  induction ws as [|w ws IH]; intros s k n l Hq Hnd Hk Hws Hok Hn.
  - exists s, l. cbn. rewrite Z.add_0_r. split.
    { destruct k; cbn [wakeup_all]; unfold mbind, ST_bind, get, wait_queue_first; by rewrite Hq. }
    do 2 (split; [done|]). split; [done|]. split.
    + intros w. rewrite decide_False; [done|apply not_elem_of_nil].
    + split; [|done]. intros p. split; [by left|]. by intros [?|(w & ?%elem_of_nil & _)].
  - destruct k as [|k]; [cbn in Hk; lia|]. apply NoDup_cons in Hnd as [Hw Hnd]. cbn in Hk, Hn.
    destruct (Hws w ltac:(left)) as (Hwx & Hz & Hfit). set (p := wproc (waits s w)) in *.
    destruct (wakeup_run n (ks s) l p Hok ltac:(lia) Hz Hfit) as (k1 & l1 & Hwk & Hok1 & Hwkn & Hfk).
    set (s1 := set_ksched k1 (set_wait w (mkWait p f x) (set_wqueue x ws s))).
    assert (Hstep : wakeup_wait x w f true s = Done (tt, s1)).
    { unfold wakeup_wait. assert (Hdel : wait_queue_del x w s = Done (tt, set_wqueue x ws s)).
      { unfold wait_queue_del. rewrite (bind_Done _ _ _ _ _ (must_be_in_run s x w Hwx ltac:(rewrite Hq; left))).
        unfold modify. by rewrite Hq, unlink_head. }
      mstep Hdel. set (s2 := set_wait w (mkWait p f x) (set_wqueue x ws s)).
      assert (Hset : modify (fun s => let y := waits s w in set_wait w (mkWait (wproc y) f (wait_queue y)) s) (set_wqueue x ws s)
                     = Done (tt, s2)) by (unfold modify; cbn; by rewrite Hwx).
      mstep Hset. mstep (eq_refl : get (fun s => wproc (waits s w)) s2 = Done (wproc (waits s2 w), s2)).
      unfold s2. cbn. rewrite upd_eq. by apply on_ksched_run. }
    assert (Hoth : forall y, y ∈ ws -> waits s1 y = waits s y) by (intros y Hy; cbn; rewrite upd_ne; [done|by intros ->]).
    assert (Hrun1 : forall q, runnable (ks s1) q <-> runnable (ks s) q \/ q = p).
    { intros q. unfold runnable at 1. cbn. destruct Hwkn as (_ & _ & _ & _ & ->). case_decide as Hd; cbn.
      - split; [intros _; right; apply Hd|done].
      - unfold runnable in *. split; [by left|]. intros [?| ->]; [done|].
        destruct (decide (state (procs (ks s) p) = PROC_RUNNABLE)); [done|tauto]. }
    destruct (IH s1 k (n + 1) l1) as (s' & l' & Hr & Hok' & Hq' & Hqo & Hwt & Hrn & Ht1 & Ht2); try done.
    + cbn. by rewrite upd_eq.
    + lia.
    + intros y Hy. rewrite (Hoth y Hy). destruct (Hws y ltac:(by right)) as (? & Hz' & ?). split; [done|]. split; [|by apply Hfk].
      destruct Hwkn as (_ & _ & _ & _ & Hp). cbn. rewrite Hp. by case_decide.
    + lia.
    + exists s', l'. split.
      { cbn [wakeup_all]. mstep (eq_refl : get (wait_queue_first x) s = Done (wait_queue_first x s, s)).
        unfold wait_queue_first. rewrite Hq. cbn [head]. by mstep Hstep. }
      split; [cbn [length]; by replace (n + Z.of_nat (S (length ws))) with (n + 1 + Z.of_nat (length ws)) by lia|].
      split; [done|]. destruct Hwkn as (_ & _ & Hw1 & Hw2 & _).
      split; [|split; [|split; [|by rewrite Ht1, Ht2]]].
      * intros y Hy. rewrite Hqo by done. cbn. by rewrite upd_ne.
      * intros y. rewrite Hwt. destruct (decide (y ∈ ws)) as [Hy|Hy].
        -- rewrite Hoth by done. by rewrite decide_True by (by right).
        -- cbn. destruct (decide (y = w)) as [->|Hne]; [rewrite upd_eq, decide_True by left; done|].
           rewrite upd_ne by done. rewrite decide_False; [done|]. by intros [?|?]%elem_of_cons.
      * intros q. rewrite Hrn, Hrun1. split.
        -- intros [[?| ->]|(y & Hy & Hp)]; [by left|right; exists w; split; [left|done]|].
           right. exists y. split; [by right|]. by rewrite <- (Hoth y Hy).
        -- intros [?|(y & [->|Hy]%elem_of_cons & Hp)]; [by left; left|by left; right|].
           right. exists y. split; [done|]. by rewrite (Hoth y Hy).
Qed.

Fixpoint ups (x : Z) (j : nat) : ST syncs unit :=
  match j with O => mret tt | S j' => up x ;; ups x j' end.

Lemma ups_run x v : forall j s ps n l, sem_view s x v ps -> sched_ok n (ks s) l -> (j <= length ps)%nat ->
  n + Z.of_nat j < 2 ^ 32 - 2 ->
  exists s' l', ups x j s = Done (tt, s') /\ sem_view s' x v (drop j ps) /\ sched_ok (n + Z.of_nat j) (ks s') l' /\
    (forall p, p ∈ take j ps -> runnable (ks s') p) /\ (forall p, runnable (ks s) p -> runnable (ks s') p) /\
    wqueues s' x = drop j (wqueues s x) /\
    (forall k, waits s' k = if decide (k ∈ take j (wqueues s x)) then mkWait (wproc (waits s k)) WT_KSEM x else waits s k).
Proof.
  induction j as [|j IH]; intros s ps n l Hv Hok Hj Hn.
  - exists s, l. replace (n + Z.of_nat 0) with n by lia. do 3 (split; [done|]).
    split; [by intros p ?%elem_of_nil|]. split; [done|]. split; [done|]. intros k. rewrite decide_False; [done|].
    by intros ?%elem_of_nil.
  - destruct ps as [|p ps]; [cbn in Hj; lia|]. cbn in Hj.
    destruct (up_first s x v p ps n l Hv Hok ltac:(lia))
      as (w & ws & s1 & l1 & Hq & Hwp & Hr1 & Hv1 & Hok1 & Hwk & Hww & Hq1 & Hwo & _).
    destruct (IH s1 ps (n + 1) l1 Hv1 Hok1 ltac:(lia) ltac:(lia)) as (s2 & l2 & Hr2 & Hv2 & Hok2 & Hrn & Hmono & Hq2 & Hw2).
    assert (Hrp : forall q, runnable (ks s) q -> runnable (ks s1) q).
    { intros q Hq'. unfold runnable. destruct Hwk as (_ & _ & _ & _ & ->). by case_decide. }
    exists s2, l2. split; [cbn [ups]; by mstep Hr1|]. split; [done|].
    split; [by replace (n + Z.of_nat (S j)) with (n + 1 + Z.of_nat j) by lia|].
    split; [|split; [by auto|split; [by rewrite Hq, Hq2, Hq1|]]].
    + cbn [take]. intros q [->|Hq']%elem_of_cons; [|by apply Hrn]. apply Hmono. unfold runnable.
      destruct Hwk as (_ & _ & _ & _ & ->). destruct (decide (runnable (ks s) p)) as [Hr|Hr].
      * rewrite decide_False by tauto. done.
      * by rewrite decide_True.
    + intros k. rewrite Hw2, Hq1, Hq. cbn [take]. destruct (decide (k = w)) as [->|Hk].
      * rewrite (decide_True (P := w ∈ w :: take j ws)) by left. rewrite Hww, Hwp. by case_decide.
      * rewrite Hwo by done. destruct (decide (k ∈ take j ws)) as [Hin|Hin].
        -- by rewrite decide_True by (by right).
        -- rewrite decide_False; [done|]. by intros [?|?]%elem_of_cons.
Qed.

(** C17 A semaphore is first come, first served, and loses no wake-up: a
    process that finds the value 0 in [down] sleeps behind those that wait
    already; [j] calls of [up] wake the first [j] of them, each of which keeps
    what the call gave it (the value stays 0); and once the process itself was
    woken, [down] returns without a failed assertion. *)
Theorem semaphore_fifo s x w ps n l cur j :
  sem_view s x 0 ps -> sched_ok n (ks s) l -> current (ks s) = cur -> runnable (ks s) cur ->
  cur <> idleproc (ks s) -> (forall y, w ∉ wqueues s y) ->
  (j <= S (length ps))%nat -> n + Z.of_nat j < 2 ^ 32 - 2 ->
  exists s1 s2, down x w s = Done (false, s1) /\ current (ks s1) <> cur /\ ups x j s1 = Done (tt, s2) /\
    sem_view s2 x 0 (drop j (ps ++ [cur])) /\ (forall p, p ∈ take j (ps ++ [cur]) -> runnable (ks s2) p) /\
    (j = S (length ps) -> down_return x w s2 = Done (tt, s2)).
Proof.
  intros Hv Hok Hc Hrun Hidle Hw Hj Hn.
  destruct (down_sleeps s x w ps n l cur Hv Hok Hc Hrun Hidle Hw) as (s1 & l1 & Hd & Hv1 & Hok1 & Hne & Hq1 & Hww & _).
  destruct (ups_run x 0 j s1 _ n l1 Hv1 Hok1) as (s2 & l2 & Hu & Hv2 & _ & Hr & _ & Hq2 & Hw2);
    [rewrite length_app; cbn; lia|done|].
  exists s1, s2. do 5 (split; [done|]). intros ->.
  assert (Hlen : length (wqueues s x) = length ps) by (rewrite (sv_procs _ _ _ _ Hv); by rewrite length_fmap).
  assert (Hall : take (S (length ps)) (wqueues s1 x) = wqueues s1 x)
    by (apply take_ge; rewrite Hq1, length_app, Hlen; cbn; lia).
  assert (Hw2' : waits s2 w = mkWait cur WT_KSEM x).
  { rewrite Hw2, Hall, decide_True by (rewrite Hq1, elem_of_app; right; left). by rewrite Hww. }
  assert (Hemp : wqueues s2 x = []) by (rewrite Hq2; apply drop_ge; rewrite Hq1, length_app, Hlen; cbn; lia).
  unfold down_return, down_end, wait_current_del.
  assert (Hde : (f ← (wait_current_del x w ;; f ← get (fun s => wakeup_flags (waits s w));
                      mret (if f =? WT_KSEM then 0 else f)); assert (f =? 0)) s2 = Done (tt, s2)); [|exact Hde].
  assert (Hdel : wait_current_del x w s2 = Done (tt, s2)).
  { unfold wait_current_del. mstep (eq_refl : get (wait_in_queue w) s2 = Done (wait_in_queue w s2, s2)).
    unfold wait_in_queue. rewrite Hw2'. cbn [wait_queue]. rewrite Hemp, bool_decide_eq_false_2 by apply not_elem_of_nil. done. }
  unfold mbind at 1, ST_bind at 1. mstep Hdel.
  mstep (eq_refl : get (fun s => wakeup_flags (waits s w)) s2 = Done (wakeup_flags (waits s2 w), s2)).
  by rewrite Hw2'.
Qed.
End sync_spec.

(** ** Witness: process 4 waits for the semaphore 7, process 1 joins it *)
Definition sync_sched : sched :=
  set_procs (upd (procs sample_sched) 4 (set_wait_state WT_KSEM (procs sample_sched 4))) sample_sched.
Definition sync_sample : syncs :=
  mkSyncs sync_sched (fun w => mkWait (if w =? 200 then 4 else 0) WT_INTERRUPTED 7)
          (fun q => if q =? 7 then [200] else []) (fun _ => 0).

Lemma sync_runnable p : runnable sync_sched p <-> runnable sample_sched p.
Proof. unfold runnable. cbn. unfold upd. case_decide; [by subst|done]. Qed.

Lemma sync_sched_ok : sched_ok (H := RR_class) 2 sync_sched [2; 3].
Proof.
  destruct sample_sched_ok as [Hq Hel Hi Hf Hl]. split; [done| |by apply sync_runnable| |done].
  - intros p. rewrite sync_runnable. apply Hel.
  - intros p Hp. apply Hf. by apply sync_runnable.
Qed.

Lemma semaphore_fifo_witness :
  exists s1 s2, down (H := RR_class) 7 300 sync_sample = Done (false, s1) /\ current (ksched s1) <> 1 /\
    ups (H := RR_class) 7 2 s1 = Done (tt, s2) /\ sem_view (H := RR_class) s2 7 0 (drop 2 ([4] ++ [1])) /\
    (forall p, p ∈ take 2 ([4] ++ [1]) -> runnable (ksched s2) p) /\
    (2%nat = S (length [4]) -> down_return 7 300 s2 = Done (tt, s2)).
Proof.
  apply (semaphore_fifo (H := RR_class) sync_sample 7 300 [4] 2 [2; 3] 1 2); try done.
  - split; try done; try apply NoDup_singleton.
    intros p Hp. apply list_elem_of_singleton in Hp as ->. done.
  - apply sync_sched_ok.
  - intros y Hy. cbn in Hy. destruct (y =? 7); [by apply list_elem_of_singleton in Hy|by apply elem_of_nil in Hy].
Defined.
