(* ===== verification/Threads.v ===== *)
(** * Threads over semaphores

    What the kernel threads of check_sync.c and monitor.c do, as programs of
    actions on shared variables and calls of [down] and [up], and their
    interleavings.  A semaphore is the pair of [Sync]: a value and the queue
    of the threads that wait.  A thread may be switched at any point, which is
    more than the kernel does. *)
From S2P Require Import Prelude.

(** ** Programs *)
Section programs.
  Context {Sem Store : Type}.

(** [Act] reads and writes the shared variables in one step; [Sleep] stands for a
    [do_sleep] and says what the thread has announced before it. *)
Inductive prog :=
  | Ret
  | Act (f : Store -> Store * prog)
  | Sleep (eating : bool) (k : prog)
  | Down (x : Sem) (k : prog)
  | Up (x : Sem) (k : prog).

Fixpoint seq (p q : prog) : prog :=
  match p with
  | Ret => q
  | Act f => Act (fun st => let '(st', p') := f st in (st', seq p' q))
  | Sleep b k => Sleep b (seq k q)
  | Down x k => Down x (seq k q)
  | Up x k => Up x (seq k q)
  end.

Definition act (f : Store -> Store) : prog := Act (fun st => (f st, Ret)).
Definition choose (b : Store -> bool) (p q : prog) : prog := Act (fun st => (st, if b st then p else q)).
End programs.
Arguments prog : clear implicits.
Declare Scope prog_scope.
Delimit Scope prog_scope with prog.
Infix ";>" := seq (at level 100, right associativity) : prog_scope.

(** ** Interleavings *)
Section steps.
  Context {Sem Store : Type} `{EqDecision Sem}.

Record config := mkConfig {
  store : Store; value : Sem -> Z; queue : Sem -> list Z; prg : Z -> prog Sem Store }.

(** The semaphores are finitely many. *)
Context (sems : list Sem).
Definition waiting (c : config) (t : Z) : bool := existsb (fun x => bool_decide (t ∈ queue c x)) sems.

(** One step of the thread [t]; there is none when it waits or has ended. *)
Definition step (t : Z) (c : config) : option config :=
  if waiting c t then None
  else match prg c t with
  | Ret => None
  | Act f => let '(st, p) := f (store c) in Some (mkConfig st (value c) (queue c) (upd (prg c) t p))
  | Sleep _ k => Some (mkConfig (store c) (value c) (queue c) (upd (prg c) t k))
  | Down x k =>
      if 0 <? value c x then Some (mkConfig (store c) (upd (value c) x (value c x - 1)) (queue c) (upd (prg c) t k))
      else Some (mkConfig (store c) (value c) (upd (queue c) x (queue c x ++ [t])) (upd (prg c) t k))
  | Up x k =>
      match queue c x with
      | [] => Some (mkConfig (store c) (upd (value c) x (value c x + 1)) (queue c) (upd (prg c) t k))
      | _ :: q => Some (mkConfig (store c) (value c) (upd (queue c) x q) (upd (prg c) t k))
      end
  end.

(** Some thread of [ts] makes a step. *)
Definition steps_to (ts : list Z) (c c' : config) : Prop := exists t, t ∈ ts /\ step t c = Some c'.

(** ** How long a run can be *)

(** [p] ends after at most [n] steps of its own, whatever the others do to the store. *)
Fixpoint short (n : nat) (p : prog Sem Store) : Prop :=
  match p, n with
  | Ret, _ => True
  | _, O => False
  | Act f, S n' => forall st, let '(_, p') := f st in short n' p'
  | Sleep _ k, S n' | Down _ k, S n' | Up _ k, S n' => short n' k
  end.

Lemma short_step t c c' n : step t c = Some c' -> short n (prg c t) ->
  exists n' p, n = S n' /\ prg c' = upd (prg c) t p /\ short n' p.
Proof.
  unfold step. destruct (waiting c t); [done|]. intros Hs Hn.
  destruct (prg c t) as [|f|e k|x k|x k], n as [|n']; try done; cbn in Hn; exists n'.
  - specialize (Hn (store c)). destruct (f (store c)) as [st p]. injection Hs as <-. by exists p.
  - injection Hs as <-. by exists k.
  - destruct (0 <? value c x); injection Hs as <-; by exists k.
  - destruct (queue c x); injection Hs as <-; by exists k.
Qed.

Definition total (bound : Z -> nat) (ts : list Z) : nat := sum_list_with bound ts.

Lemma total_steps_upd bound ts t n : NoDup ts -> t ∈ ts -> bound t = S n -> total bound ts = S (total (upd bound t n) ts).
Proof.
  unfold total. induction ts as [|u ts IH]; intros Hnd Hin Hb; [by apply elem_of_nil in Hin|].
  apply NoDup_cons in Hnd as [Hu Hnd]. cbn [sum_list_with]. destruct (decide (u = t)) as [->|Hne].
  - rewrite upd_eq, Hb. cbn. do 2 f_equal. clear IH Hin. induction ts as [|v ts IH]; [done|]. cbn [sum_list_with].
    apply not_elem_of_cons in Hu as [Hv Hu]. apply NoDup_cons in Hnd as [_ Hnd]. rewrite upd_ne by done. by rewrite <- IH.
  - rewrite upd_ne by done. rewrite IH; [lia|done| |done]. apply elem_of_cons in Hin as [->|]; done.
Qed.

Lemma steps_bounded ts n c c' bound : NoDup ts -> nsteps (steps_to ts) n c c' ->
  (forall t, t ∈ ts -> short (bound t) (prg c t)) -> (n <= total bound ts)%nat.
Proof.
  intros Hnd Hn. revert bound. induction Hn as [c|n c1 c2 c3 (t & Ht & Hs) _ IH]; intros bound Hb; [lia|].
  destruct (short_step t c1 c2 (bound t) Hs (Hb t Ht)) as (m & p & Hm & Hp & Hsh).
  rewrite (total_steps_upd bound ts t m) by done. apply le_n_S, IH. intros u Hu. rewrite Hp. unfold upd. case_decide; [done|by apply Hb].
Qed.

Lemma waiting_false c t : (forall x, x ∈ sems) -> waiting c t = false <-> forall x, t ∉ queue c x.
Proof.
  intros Hall. unfold waiting. split.
  - intros Hw x Hx. apply not_true_iff_false in Hw. apply Hw, existsb_exists. exists x.
    split; [by apply list_elem_of_In|by apply bool_decide_eq_true].
  - intros Hn. apply not_true_iff_false. intros (x & _ & Hx)%existsb_exists. apply bool_decide_eq_true in Hx. by apply (Hn x).
Qed.

(** An invariant of the steps holds in all reachable states. *)
Lemma invariant_rtc ts (I : config -> Prop) c c' :
  (forall d d', I d -> steps_to ts d d' -> I d') -> I c -> rtc (steps_to ts) c c' -> I c'.
Proof. intros Hs HI Hr. induction Hr; eauto. Qed.
End steps.
Arguments config : clear implicits.
