(* ===== verification/Philosophers.v ===== *)
(** * Dining philosophers with semaphores (kern/sync/check_sync.c)

    The threads of [philosopher_using_semaphore], and that whatever their
    interleaving neighbours never eat at the same time, no state is a deadlock
    and everyone ends after [TIMES] meals. *)
From S2P Require Import Prelude Threads.

Definition N : Z := 5.
Definition THINKING : Z := 0.
Definition HUNGRY : Z := 1.
Definition EATING : Z := 2.
Definition TIMES : nat := 4.
Definition LEFT (i : Z) : Z := (i - 1 + N) mod N.
Definition RIGHT (i : Z) : Z := (i + 1) mod N.

(** [mutex] and the array [s]. *)
Inductive sem := Mutex | S_ (i : Z).
#[export] Instance sem_eq_dec : EqDecision sem.
Proof. solve_decision. Defined.
Definition all_sems : list sem := Mutex :: (S_ <$> seqZ 0 N).

(** [state_sema]. *)
Abbreviation states := (Z -> Z).
Abbreviation program := (prog sem states).
Definition set_state (i v : Z) : program := act (fun st => upd st i v).
Definition down (x : sem) : program := Down x Ret.
Definition up (x : sem) : program := Up x Ret.
Definition do_sleep (eating : bool) : program := Sleep eating Ret.

Definition may_eat (i : Z) (st : states) : bool :=
  (st i =? HUNGRY) && negb (st (LEFT i) =? EATING) && negb (st (RIGHT i) =? EATING).
Definition phi_test_sema (i : Z) : program :=
  Act (fun st => if may_eat i st then (upd st i EATING, up (S_ i)) else (st, Ret)).

Definition phi_take_forks_sema (i : Z) : program :=
  (down Mutex ;>
   set_state i HUNGRY ;>
   phi_test_sema i ;>
   up Mutex ;>
   down (S_ i))%prog.

Definition phi_put_forks_sema (i : Z) : program :=
  (down Mutex ;>
   set_state i THINKING ;>
   phi_test_sema (LEFT i) ;>
   phi_test_sema (RIGHT i) ;>
   up Mutex)%prog.

Fixpoint philosopher_using_semaphore (n : nat) (i : Z) : program :=
  match n with
  | O => Ret
  | S n' =>
      (do_sleep false ;>
       phi_take_forks_sema i ;>
       do_sleep true ;>
       phi_put_forks_sema i ;>
       philosopher_using_semaphore n' i)%prog
  end.

(** [check_sync] before the threads run: the globals are 0. *)
Definition philosophers : list Z := seqZ 0 N.
Definition start : config sem states :=
  mkConfig (fun _ => THINKING) (fun x => match x with Mutex => 1 | S_ _ => 0 end) (fun _ => [])
           (philosopher_using_semaphore TIMES).

(** The thread is between taking and putting back the forks. *)
Definition eating (c : config sem states) (i : Z) : Prop :=
  waiting all_sems c i = false /\ exists k, prg c i = Sleep true k.
Definition finished (c : config sem states) : Prop := forall i, i ∈ philosophers -> prg c i = Ret.

(** ** Points of the program *)
Inductive point := T0 | TA | T1 | T2 | T3 | T4 | T5 | PE | P0 | P1 | P2 | P3 | P4 | P5 | P6.
#[export] Instance point_eq_dec : EqDecision point.
Proof. solve_decision. Defined.

(** The rest of the program of [i] at a point, [n] rounds being left after this one. *)
Definition code (i : Z) (n : nat) (p : point) : program :=
  let phi := philosopher_using_semaphore n i in
  let eat := (do_sleep true ;> phi_put_forks_sema i ;> phi)%prog in
  match p with
  | T0 => phi
  | TA => (phi_take_forks_sema i ;> eat)%prog
  | T1 => (set_state i HUNGRY ;> (phi_test_sema i ;> up Mutex ;> down (S_ i)) ;> eat)%prog
  | T2 => ((phi_test_sema i ;> up Mutex ;> down (S_ i)) ;> eat)%prog
  | T3 => ((up (S_ i) ;> up Mutex ;> down (S_ i)) ;> eat)%prog
  | T4 => ((up Mutex ;> down (S_ i)) ;> eat)%prog
  | T5 => (down (S_ i) ;> eat)%prog
  | PE => eat
  | P0 => (phi_put_forks_sema i ;> phi)%prog
  | P1 => ((set_state i THINKING ;> phi_test_sema (LEFT i) ;> phi_test_sema (RIGHT i) ;> up Mutex) ;> phi)%prog
  | P2 => ((phi_test_sema (LEFT i) ;> phi_test_sema (RIGHT i) ;> up Mutex) ;> phi)%prog
  | P3 => ((up (S_ (LEFT i)) ;> phi_test_sema (RIGHT i) ;> up Mutex) ;> phi)%prog
  | P4 => ((phi_test_sema (RIGHT i) ;> up Mutex) ;> phi)%prog
  | P5 => ((up (S_ (RIGHT i)) ;> up Mutex) ;> phi)%prog
  | P6 => (up Mutex ;> phi)%prog
  end.

(** Inside the critical section, once the thread has [mutex]. *)
Definition in_cs (p : point) : bool :=
  match p with T1 | T2 | T3 | T4 | P1 | P2 | P3 | P4 | P5 | P6 => true | _ => false end.

Definition weight (p : point) (n : nat) : nat :=
  15 * n + match p with
           | T0 => 0 | TA => 14 | T1 => 13 | T2 => 12 | T3 => 11 | T4 => 10 | T5 => 9 | PE => 8
           | P0 => 7 | P1 => 6 | P2 => 5 | P3 => 4 | P4 => 3 | P5 => 2 | P6 => 1
           end.

(** ** Dining philosophers, proved

    The invariant of all interleavings: who has the mutex, whom a [up] is owed
    to, and why a hungry philosopher waits. *)

Definition idx (i : Z) : Prop := 0 <= i < N.

Ltac around := unfold idx, LEFT, RIGHT, N in *; Z.to_euclidean_division_equations; lia.
Lemma LEFT_idx i : idx (LEFT i). Proof. around. Qed.
Lemma RIGHT_idx i : idx (RIGHT i). Proof. around. Qed.
Lemma LEFT_RIGHT i : idx i -> LEFT (RIGHT i) = i.
Proof. around. Qed.
Lemma RIGHT_LEFT i : idx i -> RIGHT (LEFT i) = i.
Proof. around. Qed.
Lemma sides_ne i : idx i -> LEFT i <> i /\ RIGHT i <> i /\ LEFT i <> RIGHT i.
Proof. around. Qed.
#[local] Hint Resolve LEFT_idx RIGHT_idx : core.

Lemma philosophers_idx i : i ∈ philosophers <-> idx i.
Proof. unfold philosophers, idx. rewrite elem_of_seqZ. lia. Qed.

(** ** The invariant *)

(** Some thread has set the state of [i] and is about to raise its semaphore. *)
Definition owed (pc : Z -> point) (i : Z) : Prop :=
  exists h, idx h /\ (pc h = P3 /\ LEFT h = i \/ pc h = P5 /\ RIGHT h = i).

(** What holds of the state [st], the semaphore [v], [q] of [i] at the point [p]. *)
Definition row (i : Z) (p : point) (st v : Z) (q : list Z) (owe : Prop) : Prop :=
  match p with
  | T2 => st = HUNGRY /\ v = 0 /\ q = [] /\ ~ owe
  | T3 | P0 | P1 => st = EATING /\ v = 0 /\ q = [] /\ ~ owe
  | T4 | T5 => q = [] /\ (st = HUNGRY /\ v = 0 /\ ~ owe \/ st = EATING /\ (v = 0 /\ owe \/ v = 1 /\ ~ owe))
  | PE => v = 0 /\ (q = [] /\ st = EATING /\ ~ owe \/ q = [i] /\ (st = HUNGRY /\ ~ owe \/ st = EATING /\ owe))
  | _ => st = THINKING /\ v = 0 /\ q = [] /\ ~ owe
  end.

(** Who has the mutex: nobody, or the one thread inside that does not wait for it. *)
Definition locked (v : Z) (q : list Z) (pc : Z -> point) : Prop :=
  v = 1 /\ q = [] /\ (forall i, idx i -> in_cs (pc i) = false) \/
  v = 0 /\ exists h, idx h /\ in_cs (pc h) = true /\ h ∉ q /\
    forall i, idx i -> in_cs (pc i) = true -> i = h \/ i ∈ q.

(** A hungry philosopher whose neighbours do not eat is about to be looked at. *)
Definition excused (pc : Z -> point) (k : Z) : Prop :=
  pc k = T2 \/ exists h, idx h /\
    (pc h = P2 /\ (k = LEFT h \/ k = RIGHT h) \/ (pc h = P3 \/ pc h = P4) /\ k = RIGHT h).

Record inv (c : config sem states) (pc : Z -> point) (rm : Z -> nat) : Prop := mkInv {
  in_prog i : idx i -> prg c i = code i (rm i) (pc i);
  in_lock : locked (value c Mutex) (queue c Mutex) pc;
  in_queue : NoDup (queue c Mutex) /\ forall t, t ∈ queue c Mutex -> idx t /\ (pc t = T1 \/ pc t = P1);
  in_row i : idx i -> row i (pc i) (store c i) (value c (S_ i)) (queue c (S_ i)) (owed pc i);
  in_apart i : idx i -> ~ (store c i = EATING /\ store c (RIGHT i) = EATING);
  in_hungry k : idx k -> store c k = HUNGRY ->
    store c (LEFT k) = EATING \/ store c (RIGHT k) = EATING \/ excused pc k;
  in_done i : idx i -> (rm i <= TIMES)%nat }.

(** ** Moving one thread *)

(** The points that [owed] and [excused] speak of. *)
Definition silent (p : point) : Prop := p <> P3 /\ p <> P5 /\ p <> P2 /\ p <> P4 /\ p <> T2.

Lemma owed_upd pc t p i : pc t <> P3 -> pc t <> P5 -> p <> P3 -> p <> P5 -> owed (upd pc t p) i <-> owed pc i.
Proof.
  intros H1 H2 H3 H4. unfold owed. split; intros (h & Hh & Hc); exists h; (split; [done|]); unfold upd in *;
    destruct (decide (h = t)) as [->|]; tauto.
Qed.

Lemma excused_upd pc t p k : silent (pc t) -> silent p -> excused (upd pc t p) k <-> excused pc k.
Proof.
  intros (A1 & A2 & A3 & A4 & A5) (B1 & B2 & B3 & B4 & B5). unfold excused, upd.
  assert (E1 : (if decide (k = t) then p else pc k) = T2 <-> pc k = T2) by (destruct (decide (k = t)) as [->|]; tauto).
  rewrite E1. split; (intros [H|(h & Hh & Hc)]; [by left|right; exists h; split; [done|]]);
    destruct (decide (h = t)) as [->|]; tauto.
Qed.

Lemma row_iff i p st v q o o' : (o <-> o') -> row i p st v q o -> row i p st v q o'.
Proof. intros Ho. destruct p; cbn; tauto. Qed.

Lemma locked_upd v q pc t p : idx t -> in_cs p = in_cs (pc t) -> locked v q pc -> locked v q (upd pc t p).
Proof.
  intros Ht Hp.
  assert (E : forall i, in_cs (upd pc t p i) = in_cs (pc i)) by (intros i; unfold upd; by destruct (decide (i = t)) as [->|]).
  intros [(A & B & Cn)|(A & h & Hh & Hc & Hq & Hall)]; [left|right].
  - split; [done|]. split; [done|]. intros i Hi. rewrite E. by apply Cn.
  - split; [done|]. exists h. split; [done|]. rewrite E. split; [done|]. split; [done|].
    intros i Hi. rewrite E. by apply Hall.
Qed.

(** The thread inside that does not wait is the only one. *)
Lemma locked_holder v q pc t : locked v q pc -> idx t -> in_cs (pc t) = true -> t ∉ q ->
  v = 0 /\ forall i, idx i -> in_cs (pc i) = true -> i = t \/ i ∈ q.
Proof.
  intros [(_ & _ & Hn)|(Hv & h & Hh & Hc & Hq & Hall)] Ht Hp Htq.
  - specialize (Hn t Ht). congruence.
  - destruct (Hall t Ht Hp) as [->|]; done.
Qed.

Lemma locked_take v q pc t p : idx t -> in_cs (pc t) = false -> in_cs p = true -> 0 < v -> locked v q pc ->
  locked (v - 1) q (upd pc t p).
Proof.
  intros Ht Hp Hp' Hv [(-> & -> & Hn)|(-> & _)]; [|lia]. right. split; [lia|]. exists t. split; [done|].
  rewrite upd_eq. split; [done|]. split; [apply not_elem_of_nil|]. intros i Hi. unfold upd.
  case_decide; [by left|]. by rewrite Hn.
Qed.

Lemma locked_queue v q pc t p : idx t -> in_cs (pc t) = false -> in_cs p = true -> ~ 0 < v -> locked v q pc ->
  locked v (q ++ [t]) (upd pc t p).
Proof.
  intros Ht Hp Hp' Hv [(-> & _)|(-> & h & Hh & Hc & Hq & Hall)]; [lia|]. right. split; [done|]. exists h.
  assert (h <> t) by congruence. split; [done|]. rewrite upd_ne by done. split; [done|].
  split; [rewrite elem_of_app, list_elem_of_singleton; tauto|]. intros i Hi. unfold upd.
  rewrite elem_of_app, list_elem_of_singleton. case_decide; [by right; right|]. intros Hci. destruct (Hall i Hi Hci); tauto.
Qed.

Lemma locked_free v pc t p : idx t -> in_cs (pc t) = true -> in_cs p = false -> locked v [] pc -> locked (v + 1) [] (upd pc t p).
Proof.
  intros Ht Hp Hp' Hl. destruct (locked_holder _ _ _ t Hl Ht Hp (not_elem_of_nil t)) as [-> Hall]. left.
  split; [done|]. split; [done|]. intros i Hi. unfold upd. case_decide as Hit; [done|].
  destruct (in_cs (pc i)) eqn:Hci; [|done]. destruct (Hall i Hi Hci) as [|?%elem_of_nil]; done.
Qed.

Lemma locked_hand v t' q pc t p : idx t -> in_cs (pc t) = true -> in_cs p = false -> t ∉ t' :: q -> NoDup (t' :: q) ->
  idx t' -> in_cs (pc t') = true -> locked v (t' :: q) pc -> locked v q (upd pc t p).
Proof.
  intros Ht Hp Hp' Htq Hnd Ht' Hc' Hl. destruct (locked_holder _ _ _ t Hl Ht Hp Htq) as [-> Hall]. right. split; [done|].
  apply not_elem_of_cons in Htq as [Hne Htq]. apply NoDup_cons in Hnd as [Hnq _].
  exists t'. split; [done|]. rewrite upd_ne by done. split; [done|]. split; [done|]. intros i Hi. unfold upd.
  case_decide as Hit; [congruence|]. intros Hci. destruct (Hall i Hi Hci) as [|[->|]%elem_of_cons]; [done|by left|by right].
Qed.

(** ** Steps that leave the states alone *)

Lemma waiting_idx (c : config sem states) t :
  waiting all_sems c t = false <-> t ∉ queue c Mutex /\ forall i, idx i -> t ∉ queue c (S_ i).
Proof.
  unfold waiting. rewrite <- not_true_iff_false, existsb_exists. unfold all_sems. split.
  - intros Hw. split; [intros Hx|intros i Hi Hx]; apply Hw.
    + exists Mutex. split; [by left|by apply bool_decide_eq_true].
    + exists (S_ i). split; [|by apply bool_decide_eq_true]. apply list_elem_of_In. right. apply list_elem_of_fmap.
      exists i. split; [done|]. apply elem_of_seqZ. unfold idx in Hi. lia.
  - intros [Hm Hs] (x & Hx & Hq). apply bool_decide_eq_true in Hq. apply list_elem_of_In, elem_of_cons in Hx as [->|Hx]; [done|].
    apply list_elem_of_fmap in Hx as (i & -> & Hi). apply elem_of_seqZ in Hi. apply (Hs i); [unfold idx; lia|done].
Qed.

Definition queue_ok (q : list Z) (pc : Z -> point) : Prop :=
  NoDup q /\ forall t, t ∈ q -> idx t /\ (pc t = T1 \/ pc t = P1).

Lemma queue_ok_upd q pc t p : t ∉ q -> queue_ok q pc -> queue_ok q (upd pc t p).
Proof.
  intros Ht [Hnd Hq]. split; [done|]. intros k Hk. rewrite upd_ne by (by intros ->). by apply Hq.
Qed.

(** The programs after a step of [t]. *)
Lemma prog_upd c pc rm t p r (g : Z -> program) i : (forall i, idx i -> prg c i = code i (rm i) (pc i)) ->
  g = upd (prg c) t (code t r p) -> idx i -> g i = code i (upd rm t r i) (upd pc t p i).
Proof.
  intros Hp -> Hi. unfold upd. destruct (decide (i = t)) as [->|]; [done|by apply Hp].
Qed.

Lemma inv_silent c c' pc rm t p r : inv c pc rm -> idx t -> silent (pc t) -> silent p -> (r <= TIMES)%nat ->
  store c' = store c -> prg c' = upd (prg c) t (code t r p) ->
  (forall i, i <> t -> value c' (S_ i) = value c (S_ i) /\ queue c' (S_ i) = queue c (S_ i)) ->
  row t p (store c t) (value c' (S_ t)) (queue c' (S_ t)) (owed pc t) ->
  locked (value c' Mutex) (queue c' Mutex) (upd pc t p) -> queue_ok (queue c' Mutex) (upd pc t p) ->
  inv c' (upd pc t p) (upd rm t r).
Proof.
  intros [Hprog _ _ Hrow Hap Hhun Hdone] Ht Hs1 Hs2 Hr Hst Hpr Hoth Hrt Hl Hq.
  assert (Howe : forall i, owed (upd pc t p) i <-> owed pc i)
    by (intros i; destruct Hs1 as (?&?&?&?&?), Hs2 as (?&?&?&?&?); by apply owed_upd).
  split; [|done|done| | | |].
  - intros i Hi. by apply (prog_upd c pc rm t p r).
  - intros i Hi. rewrite Hst. destruct (decide (i = t)) as [->|Hne].
    + rewrite upd_eq. eapply row_iff; [symmetry; apply Howe|done].
    + rewrite upd_ne by done. destruct (Hoth i Hne) as [-> ->]. eapply row_iff; [symmetry; apply Howe|by apply Hrow].
  - intros i Hi. rewrite Hst. by apply Hap.
  - intros k Hk. rewrite Hst. rewrite excused_upd by done. by apply Hhun.
  - intros i Hi. unfold upd. case_decide; [done|by apply Hdone].
Qed.

Ltac silent_points := unfold silent; repeat (split; [congruence|]); congruence.

(** [Sleep]: T0 and PE. *)
Lemma step_sleep c c' pc rm t b k p r : inv c pc rm -> idx t -> waiting all_sems c t = false ->
  prg c t = Sleep b k -> step all_sems t c = Some c' ->
  k = code t r p -> (r <= TIMES)%nat -> silent (pc t) -> silent p -> in_cs p = in_cs (pc t) ->
  row t p (store c t) (value c (S_ t)) (queue c (S_ t)) (owed pc t) -> inv c' (upd pc t p) (upd rm t r).
Proof.
  intros Hi Ht Hw Hk Hs -> Hr H1 H2 Hcs Hrow. unfold step in Hs. rewrite Hw, Hk in Hs. injection Hs as <-.
  apply waiting_idx in Hw as [Hm _].
  apply (inv_silent c _ pc rm t p r); try done; cbn.
  - apply locked_upd; [done|done|apply Hi].
  - apply queue_ok_upd; [done|apply Hi].
Qed.

(** [down(&mutex)]: TA and P0. *)
Lemma step_lock c c' pc rm t p k : inv c pc rm -> idx t -> waiting all_sems c t = false ->
  prg c t = Down Mutex k -> step all_sems t c = Some c' ->
  k = code t (rm t) p -> silent (pc t) -> p = T1 \/ p = P1 -> in_cs (pc t) = false ->
  row t p (store c t) (value c (S_ t)) (queue c (S_ t)) (owed pc t) -> inv c' (upd pc t p) (upd rm t (rm t)).
Proof.
  intros Hi Ht Hw Hk Hs -> H1 Hp Hcs Hrow. unfold step in Hs. rewrite Hw, Hk in Hs.
  apply waiting_idx in Hw as [Hm _].
  assert (Hsp : silent p) by (destruct Hp as [-> | ->]; silent_points).
  assert (Hcp : in_cs p = true) by (by destruct Hp as [-> | ->]).
  destruct (Z.ltb_spec 0 (value c Mutex)) as [Hv|Hv]; injection Hs as <-;
    (apply (inv_silent c _ pc rm t p (rm t)); try done; cbn; [by apply Hi|..]).
  - apply locked_take; try done. apply Hi.
  - apply queue_ok_upd; [done|apply Hi].
  - rewrite upd_eq. apply locked_queue; try done; [lia|apply Hi].
  - rewrite upd_eq. destruct (in_queue _ _ _ Hi) as [Hnd Hq]. split.
    + apply NoDup_app. split; [done|]. split; [by intros x Hx ->%list_elem_of_singleton|apply NoDup_singleton].
    + intros x [Hx|Hx%list_elem_of_singleton]%elem_of_app.
      * rewrite upd_ne by (by intros ->). by apply Hq.
      * subst. by rewrite upd_eq.
Qed.

(** [up(&mutex)]: T4 and P6. *)
Lemma step_unlock c c' pc rm t p k : inv c pc rm -> idx t -> waiting all_sems c t = false ->
  prg c t = Up Mutex k -> step all_sems t c = Some c' ->
  k = code t (rm t) p -> silent (pc t) -> silent p -> in_cs (pc t) = true -> in_cs p = false ->
  row t p (store c t) (value c (S_ t)) (queue c (S_ t)) (owed pc t) -> inv c' (upd pc t p) (upd rm t (rm t)).
Proof.
  intros Hi Ht Hw Hk Hs -> H1 Hp Hcs Hcp Hrow. unfold step in Hs. rewrite Hw, Hk in Hs.
  apply waiting_idx in Hw as [Hm _]. destruct (in_queue _ _ _ Hi) as [Hnd Hq]. pose proof (in_lock _ _ _ Hi) as Hl.
  destruct (queue c Mutex) as [|t' q] eqn:HQ; injection Hs as <-;
    (apply (inv_silent c _ pc rm t p (rm t)); try done; cbn; [by apply Hi|..]).
  - rewrite HQ, upd_eq. by apply locked_free.
  - rewrite HQ. apply queue_ok_upd; [apply not_elem_of_nil|done].
  - rewrite upd_eq. destruct (Hq t' ltac:(left)) as [Ht' Hc']. eapply locked_hand; try done.
    by destruct Hc' as [-> | ->].
  - rewrite upd_eq. apply not_elem_of_cons in Hm as [_ Hm]. apply NoDup_cons in Hnd as [_ Hnd].
    apply queue_ok_upd; [done|]. split; [done|]. intros x Hx. apply Hq. by right.
Qed.

(** [down(&s[i])] and the [up] that a philosopher gives itself. *)
Lemma step_T5 c c' pc rm t : inv c pc rm -> idx t -> waiting all_sems c t = false -> pc t = T5 ->
  step all_sems t c = Some c' -> inv c' (upd pc t PE) (upd rm t (rm t)).
Proof.
  intros Hi Ht Hw Hp Hs. unfold step in Hs. rewrite Hw, (in_prog _ _ _ Hi t Ht), Hp in Hs. cbn in Hs.
  apply waiting_idx in Hw as [Hm _]. pose proof (in_row _ _ _ Hi t Ht) as Hrow. rewrite Hp in Hrow.
  destruct Hrow as [Hq Hrow].
  destruct (Z.ltb_spec 0 (value c (S_ t))) as [Hv|Hv]; injection Hs as <-;
    (apply (inv_silent c _ pc rm t PE (rm t)); try done; try (rewrite Hp; silent_points); try silent_points; cbn;
     [by apply Hi|intros i Hne; by rewrite ?upd_ne by congruence| | |]).
  - rewrite upd_eq, Hq. destruct Hrow as [|(Hst & [|(-> & Ho)])]; [lia|lia|]. split; [done|]. by left.
  - rewrite upd_ne by done. apply locked_upd; [done|by rewrite Hp|apply Hi].
  - apply queue_ok_upd; [done|apply Hi].
  - rewrite upd_eq, Hq. destruct Hrow as [(Hst & -> & Ho)|(Hst & [(-> & Ho)|]) ]; [|split; [done|tauto]|lia].
    split; [done|]. tauto.
  - rewrite upd_ne by done. apply locked_upd; [done|by rewrite Hp|apply Hi].
  - rewrite upd_ne by done. apply queue_ok_upd; [done|apply Hi].
Qed.

Lemma step_T3 c c' pc rm t : inv c pc rm -> idx t -> waiting all_sems c t = false -> pc t = T3 ->
  step all_sems t c = Some c' -> inv c' (upd pc t T4) (upd rm t (rm t)).
Proof.
  intros Hi Ht Hw Hp Hs. unfold step in Hs. rewrite Hw, (in_prog _ _ _ Hi t Ht), Hp in Hs. cbn in Hs.
  apply waiting_idx in Hw as [Hm _]. pose proof (in_row _ _ _ Hi t Ht) as Hrow. rewrite Hp in Hrow.
  destruct Hrow as (Hst & Hv & Hq & Ho). rewrite Hq in Hs. injection Hs as <-.
  (apply (inv_silent c _ pc rm t T4 (rm t)); try done; try (rewrite Hp; silent_points); try silent_points; cbn;
     [by apply Hi|intros i Hne; by rewrite ?upd_ne by congruence| | |]).
  - rewrite upd_eq, Hq, Hv. split; [done|]. right. split; [done|]. by right.
  - rewrite upd_ne by done. apply locked_upd; [done|by rewrite Hp|apply Hi].
  - apply queue_ok_upd; [done|apply Hi].
Qed.

(** ** Steps that change the states *)

(** No other thread is inside past the lock. *)
Lemma alone c pc rm t h : inv c pc rm -> idx t -> in_cs (pc t) = true -> t ∉ queue c Mutex ->
  idx h -> in_cs (pc h) = true -> pc h <> T1 -> pc h <> P1 -> h = t.
Proof.
  intros Hi Ht Hc Hq Hh Hch H1 H2. destruct (locked_holder _ _ _ t (in_lock _ _ _ Hi) Ht Hc Hq) as [_ Hall].
  destruct (Hall h Hh Hch) as [|Hhq]; [done|]. destruct (in_queue _ _ _ Hi) as [_ Hqm]. destruct (Hqm h Hhq) as [_ [|]]; done.
Qed.

Lemma inv_act c c' pc rm t p : inv c pc rm -> idx t -> t ∉ queue c Mutex -> in_cs p = in_cs (pc t) ->
  value c' Mutex = value c Mutex -> queue c' Mutex = queue c Mutex -> prg c' = upd (prg c) t (code t (rm t) p) ->
  (forall i, idx i -> row i (upd pc t p i) (store c' i) (value c' (S_ i)) (queue c' (S_ i)) (owed (upd pc t p) i)) ->
  (forall i, idx i -> ~ (store c' i = EATING /\ store c' (RIGHT i) = EATING)) ->
  (forall k, idx k -> store c' k = HUNGRY ->
     store c' (LEFT k) = EATING \/ store c' (RIGHT k) = EATING \/ excused (upd pc t p) k) ->
  inv c' (upd pc t p) (upd rm t (rm t)).
Proof.
  intros Hi Ht Hm Hcs Hv Hq Hpr Hrow Hap Hhun. split; [|rewrite Hv, Hq| |done|done|done|].
  - intros i Hx. apply (prog_upd c pc rm t p (rm t)); try done. apply Hi.
  - apply locked_upd; [done|done|apply Hi].
  - rewrite Hq. apply queue_ok_upd; [done|apply Hi].
  - intros i Hx. unfold upd. case_decide; by apply Hi.
Qed.

(** [excused] for a philosopher that the moving thread did not excuse. *)
Lemma excused_keep pc t p k : excused pc k -> (k = t -> pc t <> T2) ->
  (pc t = P2 -> k <> LEFT t /\ k <> RIGHT t) -> (pc t = P3 \/ pc t = P4 -> k <> RIGHT t) -> excused (upd pc t p) k.
Proof.
  intros [H|(h & Hh & Hc)] H1 H2 H3.
  - left. rewrite upd_ne; [done|]. intros ->. by apply H1.
  - right. exists h. split; [done|]. rewrite upd_ne; [done|]. intros ->. destruct Hc as [(Hp & Hk)|(Hp & Hk)]; [|by apply H3 in Hp].
    destruct (H2 Hp). tauto.
Qed.

(** The same at a known point of the moving thread. *)
Ltac keep Hp := apply excused_keep; rewrite ?Hp; solve [done | by intros [|] | tauto].

Lemma step_T1 c c' pc rm t : inv c pc rm -> idx t -> waiting all_sems c t = false -> pc t = T1 ->
  step all_sems t c = Some c' -> inv c' (upd pc t T2) (upd rm t (rm t)).
Proof.
  intros Hi Ht Hw Hp Hs. unfold step in Hs. rewrite Hw, (in_prog _ _ _ Hi t Ht), Hp in Hs. cbn in Hs. injection Hs as <-.
  apply waiting_idx in Hw as [Hm _]. pose proof (in_row _ _ _ Hi t Ht) as Hrow. rewrite Hp in Hrow.
  destruct Hrow as (Hst & Hv & Hq & Ho).
  assert (Howe : forall i, owed (upd pc t T2) i <-> owed pc i) by (intros i; apply owed_upd; congruence).
  apply (inv_act c); try done; cbn; [by rewrite Hp| | |].
  - intros i Hx. eapply row_iff; [symmetry; apply Howe|]. destruct (decide (i = t)) as [->|Hne].
    + rewrite !upd_eq. done.
    + rewrite !upd_ne by done. by apply Hi.
  - intros i Hx [H1 H2]. apply (in_apart _ _ _ Hi i Hx). unfold upd in H1, H2. repeat case_decide; done.
  - intros k Hk Hkh. destruct (decide (k = t)) as [->|Hne]; [right; right; left; by rewrite upd_eq|].
    rewrite upd_ne in Hkh by done.
    assert (Hkeep : forall j, store c j = EATING -> upd (store c) t HUNGRY j = EATING).
    { intros j Hj. rewrite upd_ne; [done|]. intros ->. by rewrite Hst in Hj. }
    destruct (in_hungry _ _ _ Hi k Hk Hkh) as [|[|He]]; [left; auto|right; left; auto|right; right].
    keep Hp.
Qed.

Lemma step_P1 c c' pc rm t : inv c pc rm -> idx t -> waiting all_sems c t = false -> pc t = P1 ->
  step all_sems t c = Some c' -> inv c' (upd pc t P2) (upd rm t (rm t)).
Proof.
  intros Hi Ht Hw Hp Hs. unfold step in Hs. rewrite Hw, (in_prog _ _ _ Hi t Ht), Hp in Hs. cbn in Hs. injection Hs as <-.
  apply waiting_idx in Hw as [Hm _]. pose proof (in_row _ _ _ Hi t Ht) as Hrow. rewrite Hp in Hrow.
  destruct Hrow as (Hst & Hv & Hq & Ho).
  assert (Howe : forall i, owed (upd pc t P2) i <-> owed pc i) by (intros i; apply owed_upd; congruence).
  apply (inv_act c); try done; cbn; [by rewrite Hp| | |].
  - intros i Hx. eapply row_iff; [symmetry; apply Howe|]. destruct (decide (i = t)) as [->|Hne].
    + rewrite !upd_eq. done.
    + rewrite !upd_ne by done. by apply Hi.
  - intros i Hx [H1 H2]. apply (in_apart _ _ _ Hi i Hx). unfold upd in H1, H2. repeat case_decide; done.
  - intros k Hk Hkh. destruct (decide (k = t)) as [->|Hne]; [by rewrite upd_eq in Hkh|]. rewrite upd_ne in Hkh by done.
    destruct (decide (k = LEFT t \/ k = RIGHT t)) as [Hside|Hside].
    + right; right; right. exists t. split; [done|]. left. by rewrite upd_eq.
    + assert (Hlr : LEFT k <> t /\ RIGHT k <> t).
      { split; intros Hx; apply Hside; [right|left]; subst t; [by rewrite RIGHT_LEFT|by rewrite LEFT_RIGHT]. }
      rewrite !upd_ne by tauto. destruct (in_hungry _ _ _ Hi k Hk Hkh) as [|[|He]]; [by left|by right; left|right; right].
      keep Hp.
Qed.

Lemma may_eat_true i st : may_eat i st = true -> st i = HUNGRY /\ st (LEFT i) <> EATING /\ st (RIGHT i) <> EATING.
Proof. unfold may_eat. rewrite !andb_true_iff, !negb_true_iff, Z.eqb_eq, !Z.eqb_neq. tauto. Qed.

Lemma may_eat_false i st : may_eat i st = false -> st i = HUNGRY -> st (LEFT i) = EATING \/ st (RIGHT i) = EATING.
Proof.
  unfold may_eat. intros Hf Hh. rewrite Hh, Z.eqb_refl in Hf. cbn in Hf.
  apply andb_false_iff in Hf as [Hf|Hf]; apply negb_false_iff, Z.eqb_eq in Hf; auto.
Qed.

(** Letting [l] eat keeps neighbours apart. *)
Lemma apart_upd c pc rm l : inv c pc rm -> idx l -> may_eat l (store c) = true ->
  forall i, idx i -> ~ (upd (store c) l EATING i = EATING /\ upd (store c) l EATING (RIGHT i) = EATING).
Proof.
  intros Hi Hl Hm i Hx [H1 H2]. apply may_eat_true in Hm as (Hst & Hn1 & Hn2). unfold upd in H1, H2.
  destruct (decide (i = l)) as [->|Hil].
  - destruct (sides_ne l Hl) as (_ & Hne & _). rewrite decide_False in H2 by done. done.
  - destruct (decide (RIGHT i = l)) as [<-|Hrl]; [rewrite LEFT_RIGHT in Hn1 by done; done|].
    by apply (in_apart _ _ _ Hi i Hx).
Qed.

Lemma eating_upd (st : states) l j : st j = EATING -> upd st l EATING j = EATING.
Proof. intros Hj. unfold upd. by case_decide. Qed.

Lemma step_T2 c c' pc rm t : inv c pc rm -> idx t -> waiting all_sems c t = false -> pc t = T2 ->
  step all_sems t c = Some c' -> exists p, (p = T3 \/ p = T4) /\ inv c' (upd pc t p) (upd rm t (rm t)).
Proof.
  intros Hi Ht Hw Hp Hs. unfold step in Hs. rewrite Hw, (in_prog _ _ _ Hi t Ht), Hp in Hs. cbn in Hs.
  apply waiting_idx in Hw as [Hm _]. pose proof (in_row _ _ _ Hi t Ht) as Hrow. rewrite Hp in Hrow.
  destruct Hrow as (Hst & Hv & Hq & Ho).
  destruct (may_eat t (store c)) eqn:Hme; cbn in Hs; injection Hs as <-.
  - assert (Howe : forall i, owed (upd pc t T3) i <-> owed pc i) by (intros i; apply owed_upd; congruence).
    exists T3. split; [by left|]. apply (inv_act c); try done; cbn; [by rewrite Hp| |by apply (apart_upd c pc rm)|].
    + intros i Hx. eapply row_iff; [symmetry; apply Howe|]. destruct (decide (i = t)) as [->|Hne].
      * rewrite !upd_eq. done.
      * rewrite !upd_ne by done. by apply Hi.
    + intros k Hk Hkh. destruct (decide (k = t)) as [->|Hne]; [by rewrite upd_eq in Hkh|]. rewrite upd_ne in Hkh by done.
      destruct (in_hungry _ _ _ Hi k Hk Hkh) as [|[|He]]; [left; by apply eating_upd|right; left; by apply eating_upd|right; right].
      keep Hp.
  - assert (Howe : forall i, owed (upd pc t T4) i <-> owed pc i) by (intros i; apply owed_upd; congruence).
    exists T4. split; [by right|]. apply (inv_act c); try done; cbn; [by rewrite Hp| |by apply Hi|].
    + intros i Hx. eapply row_iff; [symmetry; apply Howe|]. destruct (decide (i = t)) as [->|Hne].
      * rewrite !upd_eq. cbn. tauto.
      * rewrite !upd_ne by done. by apply Hi.
    + intros k Hk Hkh. destruct (decide (k = t)) as [->|Hne].
      * destruct (may_eat_false t (store c) Hme Hst); auto.
      * destruct (in_hungry _ _ _ Hi k Hk Hkh) as [|[|He]]; [by left|by right; left|right; right].
        keep Hp.
Qed.

(** ** Letting a neighbour eat *)

(** The neighbour [l] that is let eat waits, or is about to, for its semaphore. *)
Lemma neighbour_row c pc rm t l : inv c pc rm -> idx t -> in_cs (pc t) = true -> t ∉ queue c Mutex -> idx l -> l <> t ->
  store c l = HUNGRY -> value c (S_ l) = 0 /\ ~ owed pc l /\
    (pc l = T5 /\ queue c (S_ l) = [] \/ pc l = PE /\ queue c (S_ l) = [l]).
Proof.
  intros Hi Ht Hc Hm Hl Hne Hst. pose proof (in_row _ _ _ Hi l Hl) as Hrow. rewrite Hst in Hrow.
  assert (Hal : in_cs (pc l) = true -> pc l <> T1 -> pc l <> P1 -> False)
    by (intros A B D; apply Hne; by apply (alone c pc rm t l)).
  destruct (pc l) eqn:Hp; cbn in Hrow; try (destruct Hrow as (Hx & _); discriminate Hx); try (by exfalso; apply Hal).
  - destruct Hrow as (Hq & [(_ & Hv & Ho)|(Hx & _)]); [|discriminate Hx]. split; [done|]. split; [done|]. by left.
  - destruct Hrow as (Hv & [(_ & Hx & _)|(Hq & [(_ & Ho)|(Hx & _)])]); try discriminate Hx. split; [done|].
    split; [done|]. by right.
Qed.

(** The state [T5] or [PE] of a neighbour once it is let eat. *)
Lemma owed_row l p v q (o o' : Prop) : ~ o -> o' -> v = 0 -> p = T5 /\ q = [] \/ p = PE /\ q = [l] -> row l p EATING v q o'.
Proof. intros Ho Ho' -> [[-> ->]|[-> ->]]; cbn; tauto. Qed.

(** A test of the neighbour [l]; [p] and [pf] are the points after it succeeds and fails. *)
Lemma step_test c c' pc rm t l p pf f k kf : inv c pc rm -> idx t -> waiting all_sems c t = false ->
  prg c t = Act f -> (forall st, f st = if may_eat l st then (upd st l EATING, k) else (st, kf)) ->
  pc t = P2 /\ l = LEFT t /\ p = P3 /\ pf = P4 \/ pc t = P4 /\ l = RIGHT t /\ p = P5 /\ pf = P6 ->
  k = code t (rm t) p -> kf = code t (rm t) pf ->
  step all_sems t c = Some c' -> exists q, (q = p \/ q = pf) /\ inv c' (upd pc t q) (upd rm t (rm t)).
Proof.
  intros Hi Ht Hw Hprg Hf Hpl -> -> Hs. unfold step in Hs. rewrite Hw, Hprg, Hf in Hs.
  apply waiting_idx in Hw as [Hm _]. pose proof (in_row _ _ _ Hi t Ht) as Hrow.
  destruct (sides_ne t Ht) as (Hlt & Hrt & Hlr).
  assert (Hl : idx l /\ l <> t) by (destruct Hpl as [(_ & -> & _)|(_ & -> & _)]; auto).
  assert (Hcs : in_cs (pc t) = true) by (destruct Hpl as [(-> & _)|(-> & _)]; done).
  assert (Hrt' : store c t = THINKING /\ value c (S_ t) = 0 /\ queue c (S_ t) = [] /\ ~ owed pc t)
    by (destruct Hpl as [(Hp & _)|(Hp & _)]; by rewrite Hp in Hrow).
  destruct Hl as [Hl Hne]. destruct (may_eat l (store c)) eqn:Hme; injection Hs as <-.
  - assert (Howe : forall i, owed (upd pc t p) i <-> owed pc i \/ i = l).
    { intros i. unfold owed, upd. split.
      - intros (h & Hh & Hc). destruct (decide (h = t)) as [->|Hht].
        + destruct Hpl as [(Hp & -> & -> & _)|(Hp & -> & -> & _)]; right; destruct Hc as [[Hx <-]|[Hx <-]]; try discriminate Hx; done.
        + left. by exists h.
      - intros [(h & Hh & Hc)| ->].
        + exists h. split; [done|]. rewrite decide_False; [done|]. intros ->. destruct Hpl as [(Hp & _)|(Hp & _)]; rewrite Hp in Hc; by destruct Hc as [[Hx _]|[Hx _]].
        + exists t. split; [done|]. rewrite decide_True by done. destruct Hpl as [(_ & -> & -> & _)|(_ & -> & -> & _)]; auto. }
    apply may_eat_true in Hme as Hst. destruct Hst as (Hst & _).
    destruct (neighbour_row c pc rm t l Hi Ht Hcs Hm Hl Hne Hst) as (Hvl & Hol & Hql).
    exists p. split; [by left|]. apply (inv_act c); try done; cbn.
    + destruct Hpl as [(-> & _ & -> & _)|(-> & _ & -> & _)]; done.
    + intros i Hx. destruct (decide (i = t)) as [->|Hit].
      * rewrite upd_eq, upd_ne by done. apply (row_iff t p _ _ _ (owed pc t)); [rewrite Howe; split; [by left|intros [|]; done]|].
        destruct Hpl as [(_ & _ & -> & _)|(_ & _ & -> & _)]; done.
      * rewrite upd_ne by done. destruct (decide (i = l)) as [->|Hil].
        -- rewrite upd_eq. apply (owed_row l _ _ _ (owed pc l)); try done. apply Howe. by right.
        -- rewrite upd_ne by done. apply (row_iff i _ _ _ _ (owed pc i)); [rewrite Howe; tauto|by apply Hi].
    + by apply (apart_upd c pc rm).
    + intros j Hj Hjh. destruct (decide (j = l)) as [->|Hjl]; [by rewrite upd_eq in Hjh|]. rewrite upd_ne in Hjh by done.
      destruct (in_hungry _ _ _ Hi j Hj Hjh) as [|[|He]]; [left; by apply eating_upd|right; left; by apply eating_upd|right; right].
      destruct Hpl as [(Hp & -> & -> & _)|(Hp & -> & -> & _)].
      * destruct (decide (j = RIGHT t)) as [->|Hjr].
        -- right. exists t. split; [done|]. right. rewrite upd_eq. tauto.
        -- keep Hp.
      * keep Hp.
  - assert (Howe : forall i, owed (upd pc t pf) i <-> owed pc i).
    { intros i. apply owed_upd; destruct Hpl as [(Hp & _ & _ & ->)|(Hp & _ & _ & ->)]; congruence. }
    exists pf. split; [by right|]. apply (inv_act c); try done; cbn.
    + destruct Hpl as [(-> & _ & _ & ->)|(-> & _ & _ & ->)]; done.
    + intros i Hx. eapply row_iff; [symmetry; apply Howe|]. destruct (decide (i = t)) as [->|Hit].
      * rewrite upd_eq. destruct Hpl as [(_ & _ & _ & ->)|(_ & _ & _ & ->)]; done.
      * rewrite upd_ne by done. by apply Hi.
    + apply Hi.
    + intros j Hj Hjh. destruct (decide (j = l)) as [->|Hjl]; [destruct (may_eat_false l (store c) Hme Hjh); auto|].
      destruct (in_hungry _ _ _ Hi j Hj Hjh) as [|[|He]]; [by left|by right; left|right; right].
      destruct Hpl as [(Hp & -> & _ & ->)|(Hp & -> & _ & ->)].
      * destruct (decide (j = RIGHT t)) as [->|Hjr].
        -- right. exists t. split; [done|]. right. rewrite upd_eq. tauto.
        -- keep Hp.
      * keep Hp.
Qed.

(** The [up] that lets the neighbour [l] go on. *)
Lemma step_give c c' pc rm t l p k : inv c pc rm -> idx t -> waiting all_sems c t = false ->
  prg c t = Up (S_ l) k -> pc t = P3 /\ l = LEFT t /\ p = P4 \/ pc t = P5 /\ l = RIGHT t /\ p = P6 ->
  k = code t (rm t) p -> step all_sems t c = Some c' -> inv c' (upd pc t p) (upd rm t (rm t)).
Proof.
  intros Hi Ht Hw Hprg Hpl -> Hs. unfold step in Hs. rewrite Hw, Hprg in Hs.
  apply waiting_idx in Hw as [Hm _]. pose proof (in_row _ _ _ Hi t Ht) as Hrow.
  destruct (sides_ne t Ht) as (Hlt & Hrt & Hlr).
  assert (Hl : idx l /\ l <> t) by (destruct Hpl as [(_ & -> & _)|(_ & -> & _)]; auto). destruct Hl as [Hl Hne].
  assert (Hcs : in_cs (pc t) = true) by (destruct Hpl as [(-> & _)|(-> & _)]; done).
  assert (Hrt' : store c t = THINKING /\ value c (S_ t) = 0 /\ queue c (S_ t) = [] /\ ~ owed pc t)
    by (destruct Hpl as [(Hp & _)|(Hp & _)]; by rewrite Hp in Hrow).
  assert (Hown : owed pc l) by (exists t; split; [done|]; destruct Hpl as [(-> & -> & _)|(-> & -> & _)]; auto).
  assert (Howe : forall i, owed (upd pc t p) i <-> owed pc i /\ i <> l).
  { intros i. unfold owed. split.
    - intros (h & Hh & Hc). unfold upd in Hc. destruct (decide (h = t)) as [->|Hht].
      + exfalso. destruct Hpl as [(_ & _ & ->)|(_ & _ & ->)]; destruct Hc as [[Hx _]|[Hx _]]; discriminate Hx.
      + exfalso. apply Hht. apply (alone c pc rm t h); try done; destruct Hc as [[-> _]|[-> _]]; done.
    - intros [(h & Hh & Hc) Hil]. exfalso. apply Hil. assert (h = t) as ->.
      { apply (alone c pc rm t h); try done; destruct Hc as [[-> _]|[-> _]]; done. }
      destruct Hpl as [(Hp & -> & _)|(Hp & -> & _)]; rewrite Hp in Hc; destruct Hc as [[Hx <-]|[Hx <-]]; done. }
  pose proof (in_row _ _ _ Hi l Hl) as Hrl.
  assert (Hl2 : store c l = EATING /\ value c (S_ l) = 0 /\
            (queue c (S_ l) = [] /\ (pc l = T4 \/ pc l = T5) \/ queue c (S_ l) = [l] /\ pc l = PE)).
  { destruct (pc l) eqn:Hp; cbn in Hrl; try tauto. }
  destruct Hl2 as (Hst & Hv & Hq).
  assert (Hfin : forall d, store d = store c -> prg d = upd (prg c) t (code t (rm t) p) ->
            (forall x, x <> S_ l -> value d x = value c x /\ queue d x = queue c x) ->
            queue d (S_ l) = [] /\ (value d (S_ l) = 1 /\ (pc l = T4 \/ pc l = T5) \/ value d (S_ l) = 0 /\ pc l = PE) ->
            inv d (upd pc t p) (upd rm t (rm t))).
  { intros d Hds Hdp Hdx [Hdq Hdv]. destruct (Hdx Mutex ltac:(done)) as [Hdm1 Hdm2].
    apply (inv_act c); try done; rewrite ?Hds.
    - destruct Hpl as [(-> & _ & ->)|(-> & _ & ->)]; done.
    - intros i Hx. destruct (decide (i = t)) as [->|Hit].
      + rewrite upd_eq. destruct (Hdx (S_ t) ltac:(congruence)) as [-> ->].
        apply (row_iff t p _ _ _ (owed pc t)); [rewrite Howe; intuition congruence|].
        destruct Hpl as [(_ & _ & ->)|(_ & _ & ->)]; done.
      + rewrite (upd_ne pc) by done. destruct (decide (i = l)) as [->|Hil].
        * rewrite Hdq. apply (row_iff l _ _ _ _ False); [rewrite Howe; tauto|]. rewrite Hst.
          destruct Hdv as [(-> & [-> | ->])|(-> & ->)]; cbn; tauto.
        * destruct (Hdx (S_ i) ltac:(congruence)) as [-> ->].
          apply (row_iff i _ _ _ _ (owed pc i)); [rewrite Howe; tauto|by apply Hi].
    - apply Hi.
    - intros j Hj Hjh. destruct (in_hungry _ _ _ Hi j Hj Hjh) as [|[|He]]; [by left|by right; left|right; right].
      destruct Hpl as [(Hp & -> & ->)|(Hp & -> & ->)].
      + destruct (decide (j = RIGHT t)) as [->|Hjr].
        * right. exists t. split; [done|]. right. rewrite upd_eq. tauto.
        * keep Hp.
      + keep Hp. }
  destruct Hq as [[Hq Hp]|[Hq Hp]]; rewrite Hq in Hs; injection Hs as <-; (apply Hfin; cbn; try done).
  - intros x Hx. by rewrite upd_ne.
  - rewrite upd_eq, Hv. split; [done|]. by left.
  - intros x Hx. by rewrite upd_ne.
  - rewrite upd_eq. split; [done|]. right. done.
Qed.

(** ** Every step *)
Lemma inv_step c c' pc rm t : inv c pc rm -> idx t -> step all_sems t c = Some c' ->
  exists p r, inv c' (upd pc t p) (upd rm t r) /\ (weight p r < weight (pc t) (rm t))%nat.
Proof.
  intros Hi Ht Hs. assert (Hw : waiting all_sems c t = false).
  { unfold step in Hs. by destruct (waiting all_sems c t). }
  pose proof (in_prog _ _ _ Hi t Ht) as Hprg. pose proof (in_row _ _ _ Hi t Ht) as Hrow.
  pose proof (in_done _ _ _ Hi t Ht) as Hd. pose proof Hw as Hw2. apply waiting_idx in Hw2 as [_ Hw2].
  specialize (Hw2 t Ht).
  destruct (pc t) eqn:Hp.
  - destruct (rm t) as [|n] eqn:Hn; [unfold step in Hs; rewrite Hw, Hprg in Hs; discriminate Hs|].
    exists TA, n. split; [|cbn; lia].
    eapply (step_sleep c c' pc rm t false _ TA n); try done; rewrite ?Hp; try silent_points; try lia; done.
  - exists T1, (rm t). split; [|cbn; lia].
    eapply (step_lock c c' pc rm t T1); try done; rewrite ?Hp; try silent_points; try done; by left.
  - exists T2, (rm t). split; [by apply (step_T1 c)|cbn; lia].
  - destruct (step_T2 c c' pc rm t Hi Ht Hw Hp Hs) as (p & Hpp & Hi'). exists p, (rm t). split; [done|].
    destruct Hpp as [-> | ->]; cbn; lia.
  - exists T4, (rm t). split; [by apply (step_T3 c)|cbn; lia].
  - exists T5, (rm t). split; [|cbn; lia].
    eapply (step_unlock c c' pc rm t T5); try done; rewrite ?Hp; try silent_points; done.
  - exists PE, (rm t). split; [by apply (step_T5 c)|cbn; lia].
  - exists P0, (rm t). split; [|cbn; lia].
    eapply (step_sleep c c' pc rm t true _ P0 (rm t)); try done; rewrite ?Hp; try silent_points; try done.
    destruct Hrow as (Hv & [(Hq & Hst & Ho)|(Hq & _)]); [done|]. exfalso. apply Hw2. rewrite Hq. left.
  - exists P1, (rm t). split; [|cbn; lia].
    eapply (step_lock c c' pc rm t P1); try done; rewrite ?Hp; try silent_points; try done; by right.
  - exists P2, (rm t). split; [by apply (step_P1 c)|cbn; lia].
  - edestruct (step_test c c' pc rm t (LEFT t) P3 P4 _ (code t (rm t) P3) (code t (rm t) P4) Hi Ht Hw Hprg)
      as (p & Hpp & Hi'); [intros st; by destruct (may_eat (LEFT t) st)|tauto|done|done|exact Hs|].
    exists p, (rm t). split; [done|]. destruct Hpp as [-> | ->]; cbn; lia.
  - exists P4, (rm t). split; [|cbn; lia]. by apply (step_give c c' pc rm t (LEFT t) P4 _ Hi Ht Hw Hprg ltac:(tauto) eq_refl Hs).
  - edestruct (step_test c c' pc rm t (RIGHT t) P5 P6 _ (code t (rm t) P5) (code t (rm t) P6) Hi Ht Hw Hprg)
      as (p & Hpp & Hi'); [intros st; by destruct (may_eat (RIGHT t) st)|tauto|done|done|exact Hs|].
    exists p, (rm t). split; [done|]. destruct Hpp as [-> | ->]; cbn; lia.
  - exists P6, (rm t). split; [|cbn; lia]. by apply (step_give c c' pc rm t (RIGHT t) P6 _ Hi Ht Hw Hprg ltac:(tauto) eq_refl Hs).
  - exists T0, (rm t). split; [|cbn; lia].
    eapply (step_unlock c c' pc rm t T0); try done; rewrite ?Hp; try silent_points; done.
Qed.

(** ** What the invariant says *)

Lemma start_inv : inv start (fun _ => T0) (fun _ => TIMES).
Proof.
  split; try done.
  - by left.
  - split; [apply NoDup_nil_2|by intros t ?%elem_of_nil].
  - intros i Hi. split; [done|]. split; [done|]. split; [done|]. intros (h & _ & [[Hx _]|[Hx _]]); done.
  - by intros i _ [Hx _].
Qed.

(** The total of the steps that are left. *)
Definition left_over (pc : Z -> point) (rm : Z -> nat) : nat := sum_list_with (fun i => weight (pc i) (rm i)) philosophers.

Lemma sum_ext (f g : Z -> nat) l : (forall x, x ∈ l -> f x = g x) -> sum_list_with f l = sum_list_with g l.
Proof.
  induction l as [|x l IH]; intros H; [done|]. cbn. rewrite (H x) by left. f_equal. apply IH. intros y Hy. apply H. by right.
Qed.

Lemma left_over_upd pc rm t p r : idx t -> (weight p r < weight (pc t) (rm t))%nat ->
  (left_over (upd pc t p) (upd rm t r) < left_over pc rm)%nat.
Proof.
  intros Ht Hw. unfold left_over. pose proof (proj2 (philosophers_idx t) Ht) as Hin.
  assert (Hnd : NoDup philosophers) by apply NoDup_seqZ. revert Hin Hnd. generalize philosophers. clear Ht.
  intros l. induction l as [|x l IH]; [by intros ?%elem_of_nil|]. intros Hin [Hx Hnd]%NoDup_cons. cbn [sum_list_with].
  apply elem_of_cons in Hin as [->|Hin].
  - rewrite !upd_eq, (sum_ext _ (fun i => weight (pc i) (rm i)) l); [lia|].
    intros y Hy. rewrite !upd_ne; [done| |]; by intros ->.
  - assert (x <> t) by (by intros ->). rewrite !(upd_ne _ t) by done. specialize (IH Hin Hnd). lia.
Qed.

Lemma inv_run n c c' pc rm : inv c pc rm -> nsteps (steps_to all_sems philosophers) n c c' ->
  exists pc' rm', inv c' pc' rm' /\ (n + left_over pc' rm' <= left_over pc rm)%nat.
Proof.
  intros Hi Hr. revert pc rm Hi. induction Hr as [c|n c1 c2 c3 (t & Ht & Hs) _ IH]; intros pc rm Hi.
  - exists pc, rm. split; [done|lia].
  - apply philosophers_idx in Ht. destruct (inv_step c1 c2 pc rm t Hi Ht Hs) as (p & r & Hi2 & Hw).
    destruct (IH _ _ Hi2) as (pc' & rm' & Hi3 & Hle). exists pc', rm'. split; [done|].
    pose proof (left_over_upd pc rm t p r Ht Hw). lia.
Qed.

Lemma reachable_inv c : rtc (steps_to all_sems philosophers) start c -> exists pc rm, inv c pc rm.
Proof.
  intros [n Hn]%rtc_nsteps. destruct (inv_run n _ _ _ _ start_inv Hn) as (pc & rm & Hi & _). by exists pc, rm.
Qed.

Lemma eating_state c pc rm i : inv c pc rm -> idx i -> eating c i -> store c i = EATING.
Proof.
  intros Hi Hx [Hw (k & Hk)]. rewrite (in_prog _ _ _ Hi i Hx) in Hk. apply waiting_idx in Hw as [_ Hw].
  pose proof (in_row _ _ _ Hi i Hx) as Hrow. destruct (pc i) eqn:Hp; try discriminate Hk.
  - destruct (rm i); discriminate Hk.
  - destruct Hrow as (_ & [(_ & Hst & _)|(Hq & _)]); [done|]. exfalso. apply (Hw i Hx). rewrite Hq. left.
Qed.

(** C2 Whatever the interleaving of the threads, two philosophers who sit next
    to each other are never both between taking and putting back their forks. *)
Theorem neighbours_never_eat c i :
  rtc (steps_to all_sems philosophers) start c -> i ∈ philosophers -> ~ (eating c i /\ eating c (RIGHT i)).
Proof.
  intros Hr Hx [H1 H2]. apply philosophers_idx in Hx. destruct (reachable_inv c Hr) as (pc & rm & Hi).
  apply (in_apart _ _ _ Hi i Hx). split; by eapply eating_state.
Qed.

(** A thread that cannot move has ended or waits for its own semaphore. *)
Lemma stuck_thread c pc rm t : inv c pc rm -> idx t -> step all_sems t c = None ->
  prg c t = Ret /\ store c t = THINKING \/ t ∈ queue c Mutex \/ pc t = PE /\ queue c (S_ t) = [t].
Proof.
  intros Hi Ht Hs. destruct (waiting all_sems c t) eqn:Hw.
  - right. destruct (decide (t ∈ queue c Mutex)) as [|Hm]; [by left|right].
    assert (Hq : exists i, idx i /\ t ∈ queue c (S_ i)).
    { destruct (decide (Exists (fun i => t ∈ queue c (S_ i)) philosophers)) as [He|Hn].
      - apply list.Exists_exists in He as (i & Hi' & He). exists i. by rewrite <- philosophers_idx.
      - exfalso. assert (Hf : waiting all_sems c t = false); [|congruence]. apply waiting_idx. split; [done|].
        intros i Hi' Hin. apply Hn, list.Exists_exists. exists i. by rewrite philosophers_idx. }
    destruct Hq as (i & Hi' & Hin). pose proof (in_row _ _ _ Hi i Hi') as Hrow.
    destruct (pc i) eqn:Hp; cbn in Hrow;
      try (destruct Hrow as (_ & _ & Hq & _); rewrite Hq in Hin; by apply elem_of_nil in Hin);
      try (destruct Hrow as (Hq & _); rewrite Hq in Hin; by apply elem_of_nil in Hin).
    destruct Hrow as (_ & [(Hq & _)|(Hq & _)]); rewrite Hq in Hin; [by apply elem_of_nil in Hin|].
    apply list_elem_of_singleton in Hin as ->. done.
  - left. unfold step in Hs. rewrite Hw, (in_prog _ _ _ Hi t Ht) in Hs.
    pose proof (in_row _ _ _ Hi t Ht) as Hrow. rewrite (in_prog _ _ _ Hi t Ht).
    destruct (pc t) eqn:Hp; [destruct (rm t); [split; [done|apply Hrow]|discriminate Hs]|..]; exfalso;
      cbn in Hs; repeat match goal with
      | Hs : context [match ?x with _ => _ end] |- _ => destruct x; try discriminate Hs
      end; discriminate Hs.
Qed.

(** With nobody able to move nobody is inside, and hunger would need a neighbour who eats. *)
Lemma no_deadlock c pc rm : inv c pc rm -> (forall t, idx t -> step all_sems t c = None) -> finished c.
Proof.
  intros Hi Hst. assert (Hstuck : forall t, idx t -> _) by (intros t Ht; exact (stuck_thread c pc rm t Hi Ht (Hst t Ht))).
  destruct (in_queue _ _ _ Hi) as [_ Hqm].
  assert (Hin : forall t, idx t -> t ∉ queue c Mutex -> in_cs (pc t) = false).
  { intros t Ht Hq. pose proof (Hstuck t Ht) as Hcase. cbn in Hcase. rewrite (in_prog _ _ _ Hi t Ht) in Hcase.
    destruct Hcase as [[Hr _]|[|(-> & _)]]; [|done|done]. destruct (pc t); done. }
  assert (Hfree : queue c Mutex = [] /\ forall t, idx t -> in_cs (pc t) = false).
  { destruct (in_lock _ _ _ Hi) as [(_ & Hq & Hn)|(_ & h & Hh & Hc & Hq & _)]; [done|].
    rewrite (Hin h Hh Hq) in Hc. discriminate Hc. }
  destruct Hfree as [Hq Hcs].
  assert (Howe : forall i, ~ owed pc i).
  { intros i (h & Hh & [[Hp _]|[Hp _]]); specialize (Hcs h Hh); by rewrite Hp in Hcs. }
  assert (Hne : forall i, idx i -> store c i <> EATING).
  { intros i Hx He. pose proof (Hstuck i Hx) as Hcase. cbn in Hcase. rewrite Hq in Hcase.
    destruct Hcase as [[_ Ht]|[Hn|(Hp & Hqi)]]; [by rewrite Ht in He|by apply elem_of_nil in Hn|].
    pose proof (in_row _ _ _ Hi i Hx) as Hrow. rewrite Hp, Hqi in Hrow.
    destruct Hrow as (_ & [(Hx1 & _)|(_ & [(Hh & _)|(_ & Ho)])]); [done|by rewrite Hh in He|by apply (Howe i)]. }
  intros i Hx. apply philosophers_idx in Hx. pose proof (Hstuck i Hx) as Hcase. cbn in Hcase. rewrite Hq in Hcase.
  destruct Hcase as [[Hr _]|[Hn|(Hp & Hqi)]]; [done|by apply elem_of_nil in Hn|]. exfalso.
  pose proof (in_row _ _ _ Hi i Hx) as Hrow. rewrite Hp, Hqi in Hrow.
  destruct Hrow as (_ & [(Hx1 & _)|(_ & [(Hh & _)|(_ & Ho)])]); [done| |by apply (Howe i)].
  destruct (in_hungry _ _ _ Hi i Hx Hh) as [He|[He|He]]; [apply (Hne (LEFT i)); auto|apply (Hne (RIGHT i)); auto|].
  destruct He as [He|(h & Hidx & [(Hp' & _)|([Hp'|Hp'] & _)])]; [congruence|..]; specialize (Hcs h Hidx); by rewrite Hp' in Hcs.
Qed.

(** C3 The dinner ends: no execution has more than 300 steps, whatever the
    interleaving, and where no thread can move every philosopher has had his
    [TIMES] meals and ended, so there is no deadlock. *)
Theorem dinner_ends n c :
  nsteps (steps_to all_sems philosophers) n start c ->
  (n <= 300)%nat /\ ((forall t, t ∈ philosophers -> step all_sems t c = None) -> finished c).
Proof.
  intros Hn. destruct (inv_run n _ _ _ _ start_inv Hn) as (pc & rm & Hi & Hle). split.
  { assert (left_over (fun _ => T0) (fun _ => TIMES) = 300)%nat by (vm_compute; reflexivity). lia. }
  intros Hst. apply (no_deadlock c pc rm Hi). intros t Ht. by apply Hst, philosophers_idx.
Qed.

(** ** Witness: a run in which the first thread that can move does *)
Fixpoint first_step (ts : list Z) (c : config sem states) : option (config sem states) :=
  match ts with
  | [] => None
  | t :: ts' => match step all_sems t c with Some c' => Some c' | None => first_step ts' c end
  end.
Fixpoint run (n : nat) (c : config sem states) : nat * config sem states :=
  match n with
  | O => (O, c)
  | S n' => match first_step philosophers c with Some c' => let '(k, d) := run n' c' in (S k, d) | None => (O, c) end
  end.

Lemma first_step_step ts c c' : first_step ts c = Some c' -> exists t, t ∈ ts /\ step all_sems t c = Some c'.
Proof.
  induction ts as [|t ts IH]; [done|]. cbn. destruct (step all_sems t c) as [d|] eqn:Hs.
  - intros [= <-]. exists t. split; [left|done].
  - intros Hf. destruct (IH Hf) as (u & Hu & Hc). exists u. split; [by right|done].
Qed.

Lemma run_steps n : forall c, nsteps (steps_to all_sems philosophers) (fst (run n c)) c (snd (run n c)).
Proof.
  induction n as [|n IH]; intros c; cbn [run]; [constructor|].
  destruct (first_step philosophers c) as [d|] eqn:Hf; [|constructor].
  specialize (IH d). destruct (run n d) as [k e]. cbn in *. econstructor; [|exact IH]. by apply first_step_step.
Qed.

Lemma dinner_ends_witness : let c := snd (run 400 start) in fst (run 400 start) = 260%nat /\ finished c.
Proof.
  cbv zeta. split; [vm_compute; reflexivity|]. apply (dinner_ends (fst (run 400 start))); [apply run_steps|].
  intros t Ht. unfold philosophers in Ht. apply elem_of_seqZ in Ht.
  assert (Hcase : t = 0 \/ t = 1 \/ t = 2 \/ t = 3 \/ t = 4) by (unfold N in Ht; lia).
  destruct Hcase as [->|[->|[->|[->| ->]]]]; vm_compute; reflexivity.
Defined.

(** After 7 steps of that run philosopher 0 is eating, so 1 is not. *)
Lemma neighbours_never_eat_witness : let c := snd (run 7 start) in eating c 0 /\ ~ (eating c 0 /\ eating c (RIGHT 0)).
Proof.
  cbv zeta. split.
  - split; [vm_compute; reflexivity|]. eexists. vm_compute. reflexivity.
  - apply neighbours_never_eat; [|apply philosophers_idx; unfold idx, N; lia].
    apply rtc_nsteps. eexists. exact (run_steps 7 start).
Defined.
