(* ===== verification/Monitor.v ===== *)
(** * Monitors (kern/sync/monitor.c, monitor.h)

    Condition variables over the semaphores of [Threads]: [cond_wait] and
    [cond_signal], the routines of a monitor, and the threads that call them.
    The data a monitor protects is arbitrary. *)
From Stdlib Require Import FunctionalExtensionality.
From S2P Require Import Prelude Threads.

(** The semaphores [mutex] and [next] of a monitor and those of its condition
    variables, [cv[x].sem]. *)
Inductive msem := M_mutex | M_next | M_cv (x : Z).
#[export] Instance msem_eq_dec : EqDecision msem.
Proof. solve_decision. Defined.
Definition monitor_sems (num_cv : Z) : list msem := M_mutex :: M_next :: (M_cv <$> seqZ 0 num_cv).

Section monitor.
Context {D : Type}.

(** [monitor_t] without its semaphores, and the data it protects. *)
Record monitor := mkMonitor { data : D; next_count : Z; count : Z -> Z }.
Abbreviation program := (prog msem monitor).
Definition set_next_count (g : Z -> Z) (m : monitor) : monitor := mkMonitor (data m) (s32 (g (next_count m))) (count m).
Definition set_count (x : Z) (g : Z -> Z) (m : monitor) : monitor :=
  mkMonitor (data m) (next_count m) (upd (count m) x (s32 (g (count m x)))).

Definition down (s : msem) : program := Down s Ret.
Definition up (s : msem) : program := Up s Ret.

(** Gives the monitor to a signaller that waits, or opens it. *)
Definition pass_on : program := choose (fun m => 0 <? next_count m) (up M_next) (up M_mutex).

Definition cond_signal (x : Z) : program :=
  choose (fun m => 0 <? count m x)
    (act (set_next_count (fun n => n + 1)) ;>
     up (M_cv x) ;>
     down M_next ;>
     act (set_next_count (fun n => n - 1)))%prog
    Ret.

Definition cond_wait (x : Z) : program :=
  (act (set_count x (fun n => n + 1)) ;>
   pass_on ;>
   down (M_cv x) ;>
   act (set_count x (fun n => n - 1)))%prog.

(** ** Routines and their callers

    The body of a routine reads and writes the data and calls [cond_wait] and
    [cond_signal]; a thread sleeps and calls routines. *)
Inductive body :=
  | BRet
  | BAct (f : D -> D * body)
  | BWait (x : Z) (k : body)
  | BSignal (x : Z) (k : body).

Fixpoint bseq (a b : body) : body :=
  match a with
  | BRet => b
  | BAct f => BAct (fun d => let '(d', a') := f d in (d', bseq a' b))
  | BWait x k => BWait x (bseq k b)
  | BSignal x k => BSignal x (bseq k b)
  end.

Definition bact (f : D -> D) : body := BAct (fun d => (f d, BRet)).
Definition bchoose (b : D -> bool) (p q : body) : body := BAct (fun d => (d, if b d then p else q)).

Definition set_data (d : D) (m : monitor) : monitor := mkMonitor d (next_count m) (count m).

Fixpoint compile (b : body) : program :=
  match b with
  | BRet => Ret
  | BAct f => Act (fun m => let '(d, b') := f (data m) in (set_data d m, compile b'))
  | BWait x k => (cond_wait x ;> compile k)%prog
  | BSignal x k => (cond_signal x ;> compile k)%prog
  end.

(** [down(&(mtp->mutex))], the body, and the way out that monitor.h prescribes. *)
Definition routine (b : body) : program := (down M_mutex ;> compile b ;> pass_on)%prog.

Inductive client :=
  | CEnd
  | CSleep (eating : bool) (k : client)
  | CCall (b : body) (k : client).

Fixpoint run_client (k : client) : program :=
  match k with
  | CEnd => Ret
  | CSleep e k' => Sleep e (run_client k')
  | CCall b k' => (routine b ;> run_client k')%prog
  end.

(** [monitor_init], once [kmalloc] has given the condition variables, and threads
    about to run. *)
Definition monitor_init (d : D) (clients : Z -> client) : config msem monitor :=
  mkConfig (mkMonitor d 0 (fun _ => 0)) (fun s => match s with M_mutex => 1 | _ => 0 end) (fun _ => [])
           (fun t => run_client (clients t)).
End monitor.
Arguments monitor : clear implicits.
Arguments body : clear implicits.
Arguments client : clear implicits.
Declare Scope body_scope.
Delimit Scope body_scope with body.
Infix ";;>" := bseq (at level 100, right associativity) : body_scope.

(** ** Monitors, specified

    Hoare's rules for monitors, sound for [cond_wait] and [cond_signal] as they are
    written: one thread at a time is inside, a signalled thread continues with what
    the signaller made true, and the monitor is never lost. *)

Lemma bseq_ret {D} (b : body D) : bseq b BRet = b.
Proof.
  revert b. fix IH 1. intros [|f|x b|x b]; cbn; [done| |by rewrite IH..].
  f_equal. apply functional_extensionality. intros d. destruct (f d) as [d' b']. by rewrite IH.
Qed.

Section spec.
Context {D : Type}.
Abbreviation program := (prog msem (monitor D)).
Abbreviation body := (body D).
Abbreviation client := (client D).
Implicit Types (b : body) (k : client) (t w : Z) (d : D).

(** What a thread is to the others: outside with [k] to run, waiting for [x], having
    signalled with [b] of its routine left, or inside. *)
Inductive status :=
  | Idle k
  | Waiting (x : Z) b k
  | Signalled b k
  | Inside.
Implicit Types L : Z -> status.

(** The part of [k] that is not about sleeping. *)
Fixpoint awake k : client :=
  match k with CSleep _ k' => awake k' | _ => k end.

(** A proof outline: the invariant of the data when nobody is inside, what a signal of
    [x] promises to the thread it wakes, what threads run, and what is true of the
    threads at all times. *)
Record outline := mkOutline {
  J : D -> (Z -> status) -> Prop;
  B : Z -> Z -> D -> (Z -> status) -> Prop;
  fit : Z -> client -> Prop;
  Q : (Z -> status) -> Prop }.

Context (num_cv : Z) (ts : list Z) (o : outline).

(** What has to hold for [b] to be run inside by [t], which then continues with [k]. *)
Fixpoint ok t k b d L : Prop :=
  match b with
  | BRet => J o d (upd L t (Idle (awake k)))
  | BAct f => let '(d', b') := f d in ok t k b' d' L
  | BWait x b' => 0 <= x < num_cv /\ J o d (upd L t (Waiting x b' k)) /\
      forall d' L', L' t = Inside -> B o x t d' L' -> ok t k b' d' L'
  | BSignal x b' => 0 <= x < num_cv /\
      ((forall w bw kw, L w <> Waiting x bw kw) -> ok t k b' d L) /\
      forall w bw kw, L w = Waiting x bw kw ->
        B o x w d (upd (upd L t (Signalled b' k)) w Inside) /\
        forall d' L', L' t = Inside -> J o d' (upd L' t (Signalled b' k)) -> ok t k b' d' L'
  end.

Record verified : Prop := mkVerified {
  fit_sleep t e k : fit o t (CSleep e k) -> fit o t k;
  fit_call t b k : fit o t (CCall b k) -> fit o t k /\
    forall d L, L t = Inside -> J o d (upd L t (Idle (CCall b k))) -> ok t k b d L;
  always_J d L : J o d L -> Q o L;
  always_inside L t : Q o L -> Q o (upd L t Inside);
  always_signal L t b k : Q o L -> L t = Inside -> Q o (upd L t (Signalled b k)) }.

(** ** Where a thread is *)
Inductive pos :=
  | Out k | Ent b k | Bod b k | Lv (n : bool) k
  | W2 (x : Z) b k | W3 (n : bool) (x : Z) b k | W4 (x : Z) b k | W5q (x : Z) b k | W5 (x : Z) b k
  | S2 (x : Z) b k | S3 (x : Z) b k | S4 b k | S5q b k | S5 b k.
Implicit Types (p : pos) (ps : Z -> pos).

Definition rest b k : program := ((compile b ;> pass_on) ;> run_client k)%prog.
Definition next_or_mutex (n : bool) : msem := if n then M_next else M_mutex.

Definition code p : program :=
  match p with
  | Out k => run_client k
  | Ent b k | Bod b k => rest b k
  | Lv n k => Up (next_or_mutex n) (run_client k)
  | W2 x b k => (((pass_on ;> down (M_cv x) ;> act (set_count x (fun n => n - 1))) ;> compile b) ;> pass_on) ;> run_client k
  | W3 n x b k => Up (next_or_mutex n) (Down (M_cv x) (((act (set_count x (fun n => n - 1)) ;> compile b) ;> pass_on) ;> run_client k))
  | W4 x b k => Down (M_cv x) (((act (set_count x (fun n => n - 1)) ;> compile b) ;> pass_on) ;> run_client k)
  | W5q x b k | W5 x b k => ((act (set_count x (fun n => n - 1)) ;> compile b) ;> pass_on) ;> run_client k
  | S2 x b k => (((act (set_next_count (fun n => n + 1)) ;> up (M_cv x) ;> down M_next ;>
                   act (set_next_count (fun n => n - 1))) ;> compile b) ;> pass_on) ;> run_client k
  | S3 x b k => Up (M_cv x) (Down M_next (((act (set_next_count (fun n => n - 1)) ;> compile b) ;> pass_on) ;> run_client k))
  | S4 b k => Down M_next (((act (set_next_count (fun n => n - 1)) ;> compile b) ;> pass_on) ;> run_client k)
  | S5q b k | S5 b k => ((act (set_next_count (fun n => n - 1)) ;> compile b) ;> pass_on) ;> run_client k
  end%prog.

Definition active p : bool :=
  match p with Bod _ _ | Lv _ _ | W2 _ _ _ | W3 _ _ _ _ | W5 _ _ _ | S2 _ _ _ | S3 _ _ _ | S5 _ _ => true | _ => false end.

Definition label p : status :=
  match p with
  | Out k => Idle (awake k)
  | Ent b k => Idle (CCall b k)
  | W4 x b k | W5q x b k => Waiting x b k
  | S4 b k | S5q b k => Signalled b k
  | _ => Inside
  end.

(** The semaphore a thread waits for, is about to lower, is about to raise. *)
Definition waits_on p : option msem :=
  match p with Ent _ _ => Some M_mutex | W5q x _ _ => Some (M_cv x) | S5q _ _ => Some M_next | _ => None end.
Definition at_down p : option msem :=
  match p with Out (CCall _ _) => Some M_mutex | W4 x _ _ => Some (M_cv x) | S4 _ _ => Some M_next | _ => None end.
Definition at_up p : option msem :=
  match p with Lv n _ | W3 n _ _ _ => Some (next_or_mutex n) | S3 x _ _ => Some (M_cv x) | _ => None end.

Definition parked p : pos :=
  match p with Out (CCall b k) => Ent b k | W4 x b k => W5q x b k | S4 b k => S5q b k | _ => p end.
Definition woken p : pos :=
  match p with Ent b k => Bod b k | W5q x b k => W5 x b k | S5q b k => S5 b k | _ => p end.
Definition released p : pos :=
  match p with Lv _ k => Out k | W3 _ x b k => W4 x b k | S3 x b k => S4 b k | _ => p end.

(** Counted in [next_count], and in the [count] of [x]. *)
Definition in_signal p : bool := match p with S3 _ _ _ | S4 _ _ | S5q _ _ | S5 _ _ => true | _ => false end.
Definition in_wait (x : Z) p : bool :=
  match p with W2 y _ _ | W3 _ y _ _ | W4 y _ _ | W5q y _ _ | W5 y _ _ => x =? y | _ => false end.

(** What lets a thread go on from where it is, whoever wakes it. *)
Definition sound t p : Prop :=
  match p with
  | Out k | Lv _ k => fit o t k
  | Ent b k => fit o t (CCall b k)
  | Bod _ k => fit o t k
  | W2 x b k | W3 _ x b k | W4 x b k | W5q x b k | W5 x b k => fit o t k /\ 0 <= x < num_cv /\
      forall d L, L t = Inside -> B o x t d L -> ok t k b d L
  | S2 _ b k | S3 _ b k | S4 b k | S5q b k | S5 b k => fit o t k /\
      forall d L, L t = Inside -> J o d (upd L t (Signalled b k)) -> ok t k b d L
  end.

(** What the thread inside knows of the data and the others, and of the counts. *)
Definition holds t p d L : Prop :=
  match p with
  | Bod b k => ok t k b d L
  | Lv _ k => J o d (upd L t (Idle (awake k)))
  | W2 x b k | W3 _ x b k => J o d (upd L t (Waiting x b k))
  | W5 x b k => B o x t d L
  | S2 x b k | S3 x b k => forall w bw kw, L w = Waiting x bw kw -> B o x w d (upd (upd L t (Signalled b k)) w Inside)
  | S5 b k => J o d (upd L t (Signalled b k))
  | _ => True
  end.
Definition guard p (m : monitor D) : Prop :=
  match p with
  | Lv n _ | W3 n _ _ _ => if n then 0 < next_count m else next_count m = 0
  | S2 x _ _ | S3 x _ _ => 0 < count m x
  | _ => True
  end.

(** What whoever takes the monitor from the semaphore [s] will know. *)
Definition pend (s : msem) d L : Prop :=
  match s with
  | M_cv x => forall w b k, L w = Waiting x b k -> B o x w d (upd L w Inside)
  | _ => J o d L
  end.

(** ** Counting positions *)
Fixpoint tally (f : pos -> bool) ps (l : list Z) : Z :=
  match l with [] => 0 | t :: l' => Z.b2z (f (ps t)) + tally f ps l' end.

Lemma tally_range f ps l : 0 <= tally f ps l <= Z.of_nat (length l).
Proof. induction l as [|t l IH]; cbn [tally length]; [lia|]. destruct (f (ps t)); cbn [Z.b2z]; lia. Qed.

Lemma tally_notin f ps l t p : t ∉ l -> tally f (upd ps t p) l = tally f ps l.
Proof.
  induction l as [|u l IH]; intros Hn; [done|]. apply not_elem_of_cons in Hn as [Hu Hn]. cbn [tally].
  rewrite upd_ne by done. by rewrite IH.
Qed.

Lemma tally_upd f ps l t p : NoDup l -> t ∈ l -> tally f (upd ps t p) l = tally f ps l - Z.b2z (f (ps t)) + Z.b2z (f p).
Proof.
  induction l as [|u l IH]; intros Hnd Hin; [by apply elem_of_nil in Hin|]. apply NoDup_cons in Hnd as [Hu Hnd].
  cbn [tally]. destruct (decide (u = t)) as [->|Hne].
  - rewrite upd_eq, tally_notin by done. lia.
  - rewrite upd_ne by done. rewrite IH; [lia|done|]. apply elem_of_cons in Hin as [->|]; done.
Qed.

Lemma tally_same f ps l t p : f p = f (ps t) -> tally f (upd ps t p) l = tally f ps l.
Proof.
  intros Hf. induction l as [|u l IH]; [done|]. cbn [tally]. rewrite IH. f_equal. unfold upd. case_decide; [|done]. subst. by rewrite Hf.
Qed.

Lemma tally_pos f ps l : 0 < tally f ps l -> exists t, t ∈ l /\ f (ps t) = true.
Proof.
  induction l as [|u l IH]; cbn [tally]; [lia|]. intros Hp. destruct (f (ps u)) eqn:Hf; [exists u; split; [left|done]|].
  cbn [Z.b2z] in Hp. destruct IH as (t & Ht & Hft); [lia|]. exists t. split; [by right|done].
Qed.

Lemma tally_ge f ps l t : t ∈ l -> f (ps t) = true -> 0 < tally f ps l.
Proof.
  induction l as [|u l IH]; intros Hin Hf; [by apply elem_of_nil in Hin|]. cbn [tally].
  pose proof (tally_range f ps l) as Hr. apply elem_of_cons in Hin as [->|Hin]; [rewrite Hf; cbn; lia|].
  specialize (IH Hin Hf). destruct (f (ps u)); cbn; lia.
Qed.

(** ** The invariant of the positions *)

(** Who may go on inside: whoever lowers a semaphore of value 1, or a thread. *)
Inductive baton := On (s : msem) | With (t : Z).
#[global] Instance baton_eq_dec : EqDecision baton.
Proof. solve_decision. Defined.

Definition labels ps : Z -> status := fun t => label (ps t).

Lemma labels_upd ps t p : labels (upd ps t p) = upd (labels ps) t (label p).
Proof. apply functional_extensionality. intros u. unfold labels, upd. by case_decide. Qed.

Hypothesis Hnd : NoDup ts.
Hypothesis Hlen : Z.of_nat (length ts) < 2 ^ 31.
Hypothesis Hver : verified.

Record pinv (m : monitor D) ps (h : baton) : Prop := mkPinv {
  pi_out t : t ∉ ts -> ps t = Out CEnd;
  pi_active t : active (ps t) = true <-> h = With t;
  pi_next : next_count m = tally in_signal ps ts;
  pi_count x : count m x = tally (in_wait x) ps ts;
  pi_sound t : t ∈ ts -> sound t (ps t);
  pi_always : Q o (labels ps);
  pi_holds : match h with
             | On s => pend s (data m) (labels ps) /\
                 (s = M_mutex -> next_count m = 0) /\
                 (s <> M_mutex -> exists t, t ∈ ts /\ (at_down (ps t) = Some s \/ waits_on (ps t) = Some s))
             | With t => t ∈ ts /\ holds t (ps t) (data m) (labels ps) /\ guard (ps t) m
             end }.

Lemma pinv_on_active m ps s t : pinv m ps (On s) -> active (ps t) = false.
Proof. intros Hp. destruct (active (ps t)) eqn:Ha; [|done]. by apply Hp in Ha. Qed.

Lemma pinv_other m ps t u : pinv m ps (With t) -> u <> t -> active (ps u) = false.
Proof. intros Hp Hne. destruct (active (ps u)) eqn:Ha; [|done]. apply Hp in Ha. congruence. Qed.

Lemma out_ts m ps h t : pinv m ps h -> ps t <> Out CEnd -> t ∈ ts.
Proof. intros Hp Hne. destruct (decide (t ∈ ts)) as [|Hn]; [done|]. by apply Hp in Hn. Qed.

(** A thread outside that moves without anyone noticing. *)
Lemma pinv_quiet m ps h t p : pinv m ps h -> t ∈ ts -> active (ps t) = false -> active p = false ->
  label p = label (ps t) -> in_signal p = in_signal (ps t) -> (forall x, in_wait x p = in_wait x (ps t)) ->
  sound t p -> (forall s, at_down (ps t) = Some s -> waits_on p = Some s) -> waits_on (ps t) = None ->
  pinv m (upd ps t p) h.
Proof.
  intros Hp Ht Ha Ha' Hl Hs Hw Hsd Hd Hq.
  assert (HL : labels (upd ps t p) = labels ps) by (rewrite labels_upd; by apply upd_same).
  split.
  - intros u Hu. rewrite upd_ne; [by apply Hp|]. intros ->. done.
  - intros u. unfold upd. case_decide as Hut; [|apply Hp]. subst. rewrite Ha'. split; [done|]. intros ->.
    assert (active (ps t) = true) by (by apply Hp). congruence.
  - rewrite tally_same by done. apply Hp.
  - intros x. rewrite tally_same by done. apply Hp.
  - intros u Hu. unfold upd. case_decide; [by subst|by apply Hp].
  - rewrite HL. apply Hp.
  - rewrite HL. pose proof (pi_holds _ _ _ Hp) as Hh. destruct h as [s|u].
    + destruct Hh as (H1 & H2 & H3). split; [done|]. split; [done|]. intros Hne. destruct (H3 Hne) as (u & Hu & Hc).
      exists u. split; [done|]. unfold upd. case_decide; [|done]. subst. destruct Hc as [Hc|Hc]; [right; by apply Hd|congruence].
    + destruct Hh as (H1 & H2 & H3). rewrite upd_ne; [done|]. intros ->.
      assert (active (ps t) = true) by (by apply Hp). congruence.
Qed.

Lemma pinv_park m ps h t s : pinv m ps h -> t ∈ ts -> at_down (ps t) = Some s -> pinv m (upd ps t (parked (ps t))) h.
Proof.
  intros Hp Ht Hd. pose proof (pi_sound _ _ _ Hp t Ht) as Hs.
  destruct (ps t) as [[| |]| | | | | | | | | | | | |] eqn:Hpt; try discriminate Hd;
    (apply pinv_quiet; rewrite ?Hpt; try done; intros s' Hs'; cbn in *; congruence).
Qed.

(** Taking the monitor from the semaphore waited for. *)
Lemma pinv_wake m ps s t : pinv m ps (On s) -> waits_on (ps t) = Some s -> pinv m (upd ps t (woken (ps t))) (With t).
Proof.
  intros Hp Hw. assert (Ht : t ∈ ts) by (eapply out_ts; [done|]; intros E; by rewrite E in Hw).
  pose proof (pi_sound _ _ _ Hp t Ht) as Hsd. pose proof (pi_holds _ _ _ Hp) as (Hh & _).
  assert (Hlt : labels ps t = label (ps t)) by done.
  assert (HLi : upd (labels ps) t Inside t = Inside) by apply upd_eq.
  split.
  - intros u Hu. rewrite upd_ne; [by apply Hp|]. intros ->. done.
  - intros u. unfold upd. case_decide as Hut.
    + subst. split; [done|]. intros _. destruct (ps t); try done.
    + rewrite (pinv_on_active m ps s u Hp). split; [done|]. intros [= ->]. done.
  - rewrite tally_same; [apply Hp|]. by destruct (ps t).
  - intros x. rewrite tally_same; [apply Hp|]. by destruct (ps t).
  - intros u Hu. unfold upd. case_decide; [subst|by apply Hp].
    destruct (ps t); try discriminate Hw; cbn in *; try done. by apply (fit_call Hver) in Hsd as [? _].
  - rewrite labels_upd. replace (label (woken (ps t))) with (@Inside) by (by destruct (ps t)). apply (always_inside Hver), Hp.
  - split; [done|]. rewrite upd_eq, labels_upd.
    destruct (ps t) as [| | | | | | |x b k| | | | |b k|]; try discriminate Hw; injection Hw as <-; cbn in *; (split; [|done]).
    + apply (fit_call Hver) in Hsd as [_ Hc]. apply Hc; [done|]. by rewrite upd_upd, upd_same.
    + by apply (Hh _ b k).
    + by rewrite upd_upd, upd_same.
Qed.

(** Raising a semaphore from inside. *)
Lemma pinv_release m ps s t : pinv m ps (With t) -> at_up (ps t) = Some s -> pinv m (upd ps t (released (ps t))) (On s).
Proof.
  intros Hp Hu. pose proof (pi_holds _ _ _ Hp) as (Ht & Hh & Hg). pose proof (pi_sound _ _ _ Hp t Ht) as Hsd.
  assert (Hsig : forall q, in_signal q = true -> active q = false -> at_down q = Some M_next \/ waits_on q = Some M_next)
    by (intros []; cbn; intros; try done; tauto).
  assert (Hwait : forall x q, in_wait x q = true -> active q = false -> at_down q = Some (M_cv x) \/ waits_on q = Some (M_cv x))
    by (intros x []; cbn; intros Hx; try discriminate; apply Z.eqb_eq in Hx; subst; tauto).
  split.
  - intros u Hn. rewrite upd_ne; [by apply Hp|]. intros ->. done.
  - intros u. unfold upd. case_decide as Hut.
    + destruct (ps t); done.
    + rewrite (pinv_other m ps t u Hp Hut). done.
  - rewrite tally_same; [apply Hp|]. by destruct (ps t).
  - intros x. rewrite tally_same; [apply Hp|]. by destruct (ps t).
  - intros u Hn. unfold upd. case_decide; [subst|by apply Hp]. by destruct (ps t).
  - rewrite labels_upd. assert (HLt : labels ps t = label (ps t)) by done.
    destruct (ps t) as [| | |n k| |n x b k| | | | |x b k| | |]; try discriminate Hu; cbn in *.
    + by apply (always_J Hver) in Hh.
    + by apply (always_J Hver) in Hh.
    + apply (always_signal Hver); [apply Hp|done].
  - rewrite labels_upd. assert (Hoth : forall f, f (ps t) = false -> 0 < tally f ps ts ->
      exists u, u ∈ ts /\ u <> t /\ f (ps u) = true /\ active (ps u) = false).
    { intros f Hf (u & Hin & Hfu)%tally_pos. exists u. assert (u <> t) by congruence. repeat split; try done.
      by apply (pinv_other m ps t). }
    pose proof (pi_next _ _ _ Hp) as Hnx. pose proof (pi_count _ _ _ Hp) as Hct.
    destruct (ps t) as [| | |n k| |n x b k| | | | |x b k| | |] eqn:Hpt; try discriminate Hu; injection Hu as <-; cbn in Hh, Hg;
      try destruct n; cbn [pend next_or_mutex released label];
      (split; [first [done|intros w bw kw Hw; unfold upd in Hw at 1; case_decide; [done|by apply (Hh w bw kw)]]|]);
      (split; [done|]); intros Hne; try done.
    + destruct (Hoth in_signal) as (u & Hin & Hut & Hf & Ha); [done|lia|]. exists u. rewrite upd_ne by done. auto.
    + destruct (Hoth in_signal) as (u & Hin & Hut & Hf & Ha); [done|lia|]. exists u. rewrite upd_ne by done. auto.
    + destruct (Hoth (in_wait x)) as (u & Hin & Hut & Hf & Ha); [done|rewrite <- Hct; done|]. exists u. rewrite upd_ne by done. auto.
Qed.

(** A step of the thread inside that keeps it there. *)
Lemma pinv_inside m m' ps t p : pinv m ps (With t) -> active p = true ->
  next_count m' = next_count m - Z.b2z (in_signal (ps t)) + Z.b2z (in_signal p) ->
  (forall x, count m' x = count m x - Z.b2z (in_wait x (ps t)) + Z.b2z (in_wait x p)) ->
  sound t p -> holds t p (data m') (labels ps) -> guard p m' -> pinv m' (upd ps t p) (With t).
Proof.
  intros Hp Ha Hn Hc Hs Hh Hg. pose proof (pi_holds _ _ _ Hp) as (Ht & _).
  assert (Hi : forall q, active q = true -> label q = Inside) by (by intros []).
  assert (Hat : active (ps t) = true) by (by apply Hp).
  assert (HL : labels (upd ps t p) = labels ps) by (rewrite labels_upd; apply upd_same; unfold labels; by rewrite !Hi).
  split.
  - intros u Hu. rewrite upd_ne; [by apply Hp|]. intros ->. done.
  - intros u. unfold upd. case_decide; [subst; tauto|apply Hp].
  - rewrite tally_upd by done. rewrite Hn. f_equal. f_equal. apply Hp.
  - intros x. rewrite tally_upd by done. rewrite Hc. f_equal. f_equal. apply Hp.
  - intros u Hu. unfold upd. case_decide; [by subst|by apply Hp].
  - rewrite HL. apply Hp.
  - rewrite HL, upd_eq. done.
Qed.

(** ** The invariant of the steps *)
Record minv (c : config msem (monitor D)) ps (h : baton) : Prop := mkMinv {
  mi_prog t : t ∈ ts -> prg c t = code (ps t);
  mi_value s : value c s = if decide (h = On s) then 1 else 0;
  mi_queue s : NoDup (queue c s) /\ forall t, t ∈ queue c s <-> waits_on (ps t) = Some s;
  mi_free s : h = On s -> queue c s = [];
  mi_pos : pinv (store c) ps h }.

Lemma in_sems s : s ∈ monitor_sems num_cv <-> match s with M_cv x => 0 <= x < num_cv | _ => True end.
Proof.
  unfold monitor_sems. rewrite !elem_of_cons, list_elem_of_fmap. destruct s as [| |x]; [tauto|tauto|].
  split; [intros [|[|(y & [= ->] & Hy)]]; [done|done|by apply elem_of_seqZ in Hy]|].
  intros Hx. right. right. exists x. split; [done|]. apply elem_of_seqZ. lia.
Qed.

Lemma waiting_pos c ps h t : minv c ps h -> t ∈ ts -> waiting (monitor_sems num_cv) c t = bool_decide (is_Some (waits_on (ps t))).
Proof.
  intros Hi Ht. apply eq_true_iff_eq. rewrite bool_decide_eq_true. unfold waiting. rewrite existsb_exists. split.
  - intros (s & _ & Hs%bool_decide_eq_true). apply Hi in Hs. by exists s.
  - intros [s Hs]. exists s. split; [|by apply bool_decide_eq_true, Hi]. apply list_elem_of_In, in_sems.
    pose proof (pi_sound _ _ _ (mi_pos _ _ _ Hi) t Ht) as Hsd. destruct (ps t); try discriminate Hs; injection Hs as <-; try done.
    apply Hsd.
Qed.

(** A step that only changes the program of [t] and the data. *)
Lemma minv_local c ps h t m' p g : minv c ps h -> g = upd (prg c) t (code p) -> waits_on (ps t) = None -> waits_on p = None ->
  pinv m' (upd ps t p) h -> minv (mkConfig m' (value c) (queue c) g) (upd ps t p) h.
Proof.
  intros Hi -> Hw Hw' Hp. split; cbn; [|apply Hi| |apply Hi|done].
  - intros u Hu. unfold upd. case_decide; [done|by apply Hi].
  - intros s. destruct (mi_queue _ _ _ Hi s) as [Hq1 Hq2]. split; [done|]. intros u. rewrite Hq2. unfold upd.
    case_decide; [|done]. subst. by rewrite Hw, Hw'.
Qed.

Definition next_config c t g s v q : config msem (monitor D) := mkConfig (store c) (upd (value c) s v) (upd (queue c) s q) (upd (prg c) t g).

Lemma parked_spec p s : at_down p = Some s ->
  waits_on p = None /\ waits_on (parked p) = Some s /\ active p = false /\ waits_on (woken (parked p)) = None /\
  (exists g, code p = Down s g /\ code (parked p) = g /\ code (woken (parked p)) = g).
Proof. destruct p as [[| |]| | | | | | | | | | | | |]; try done; intros [= <-]; repeat split; eexists; done. Qed.

Lemma woken_spec p s : waits_on p = Some s -> waits_on (woken p) = None /\ code (woken p) = code p /\ active p = false.
Proof. by destruct p. Qed.

Lemma released_spec p s : at_up p = Some s ->
  active p = true /\ waits_on p = None /\ waits_on (released p) = None /\ exists g, code p = Up s g /\ code (released p) = g.
Proof. destruct p; try done; intros [= <-]; repeat split; eexists; done. Qed.

(** [down] that takes. *)
Lemma minv_take c ps h t s g : minv c ps h -> t ∈ ts -> at_down (ps t) = Some s -> code (ps t) = Down s g -> 0 < value c s ->
  minv (mkConfig (store c) (upd (value c) s (value c s - 1)) (queue c) (upd (prg c) t g))
       (upd ps t (woken (parked (ps t)))) (With t).
Proof.
  intros Hi Ht Hd Hg Hv. destruct (parked_spec _ _ Hd) as (Hw & Hwp & Ha & Hww & g' & Hc1 & Hc2 & Hc3).
  assert (g' = g) by congruence. subst g'.
  assert (Hh : h = On s) by (rewrite (mi_value _ _ _ Hi) in Hv; case_decide; [done|lia]). subst h.
  split; cbn.
  - intros u Hu. unfold upd. case_decide; [subst; congruence|by apply Hi].
  - intros s'. rewrite decide_False by done. rewrite (mi_value _ _ _ Hi s), decide_True by done. unfold upd.
    case_decide as Hs; [lia|]. rewrite (mi_value _ _ _ Hi s'), decide_False; [done|congruence].
  - intros s'. destruct (mi_queue _ _ _ Hi s') as [Hq1 Hq2]. split; [done|]. intros u. rewrite Hq2. unfold upd.
    case_decide; [|done]. subst. by rewrite Hw, Hww.
  - done.
  - pose proof (pinv_park _ _ _ _ _ (mi_pos _ _ _ Hi) Ht Hd) as Hp.
    apply (pinv_wake _ _ s t) in Hp; [|by rewrite upd_eq]. rewrite upd_eq in Hp. by rewrite upd_upd in Hp.
Qed.

(** [down] that waits. *)
Lemma minv_park c ps h t s g : minv c ps h -> t ∈ ts -> at_down (ps t) = Some s -> code (ps t) = Down s g -> ~ 0 < value c s ->
  minv (mkConfig (store c) (value c) (upd (queue c) s (queue c s ++ [t])) (upd (prg c) t g)) (upd ps t (parked (ps t))) h.
Proof.
  intros Hi Ht Hd Hg Hv. destruct (parked_spec _ _ Hd) as (Hw & Hwp & Ha & Hww & g' & Hc1 & Hc2 & Hc3).
  assert (g' = g) by congruence. subst g'.
  assert (Hh : h <> On s) by (intros ->; rewrite (mi_value _ _ _ Hi) in Hv; rewrite decide_True in Hv by done; lia).
  split; cbn; [|apply Hi| | |].
  - intros u Hu. unfold upd. case_decide; [subst; congruence|by apply Hi].
  - intros s'. destruct (mi_queue _ _ _ Hi s') as [Hq1 Hq2]. unfold upd at 1 2. case_decide as Hs.
    + subst s'. split.
      * apply NoDup_app. split; [done|]. split; [|apply NoDup_singleton].
        intros u Hu Hu'%list_elem_of_singleton. subst. apply Hq2 in Hu. congruence.
      * intros u. rewrite elem_of_app, list_elem_of_singleton, Hq2. unfold upd. case_decide; [subst; tauto|tauto].
    + split; [done|]. intros u. rewrite Hq2. unfold upd. case_decide; [|done]. subst. rewrite Hw, Hwp. split; [done|congruence].
  - intros s' ->. rewrite upd_ne by congruence. by apply Hi.
  - apply (pinv_park _ _ _ _ s); [apply Hi|done|done].
Qed.

(** [up]. *)
Lemma minv_up c ps h t s g : minv c ps h -> t ∈ ts -> at_up (ps t) = Some s -> code (ps t) = Up s g -> queue c s = [] ->
  minv (mkConfig (store c) (upd (value c) s (value c s + 1)) (queue c) (upd (prg c) t g)) (upd ps t (released (ps t))) (On s).
Proof.
  intros Hi Ht Hu Hg Hq. destruct (released_spec _ _ Hu) as (Ha & Hw & Hwr & g' & Hc1 & Hc2).
  assert (g' = g) by congruence. subst g'. apply (mi_pos _ _ _ Hi) in Ha as ->.
  split; cbn.
  - intros u Hin. unfold upd. case_decide; [subst; congruence|by apply Hi].
  - intros s'. rewrite (mi_value _ _ _ Hi s), decide_False by done. unfold upd. case_decide as Hs; [subst; by rewrite decide_True|].
    rewrite (mi_value _ _ _ Hi s'), !decide_False; congruence.
  - intros s'. destruct (mi_queue _ _ _ Hi s') as [Hq1 Hq2]. split; [done|]. intros u. rewrite Hq2. unfold upd.
    case_decide; [|done]. subst. by rewrite Hw, Hwr.
  - by intros s' [= <-].
  - apply pinv_release; [apply Hi|done].
Qed.

Lemma minv_hand c ps h t s g w q : minv c ps h -> t ∈ ts -> at_up (ps t) = Some s -> code (ps t) = Up s g -> queue c s = w :: q ->
  minv (mkConfig (store c) (value c) (upd (queue c) s q) (upd (prg c) t g))
       (upd (upd ps t (released (ps t))) w (woken (ps w))) (With w).
Proof.
  intros Hi Ht Hu Hg Hq. destruct (released_spec _ _ Hu) as (Ha & Hw & Hwr & g' & Hc1 & Hc2).
  assert (g' = g) by congruence. subst g'. apply (mi_pos _ _ _ Hi) in Ha as ->.
  destruct (mi_queue _ _ _ Hi s) as [Hnq Hqs]. rewrite Hq in Hnq, Hqs. apply NoDup_cons in Hnq as [Hwq Hnq].
  assert (Hws : waits_on (ps w) = Some s) by (apply Hqs; left). assert (Hwt : w <> t) by congruence.
  destruct (woken_spec _ _ Hws) as (Hww & Hcw & _).
  split; cbn.
  - intros u Hin. destruct (decide (u = w)) as [->|Huw]; [rewrite upd_ne, upd_eq, Hcw by done; by apply Hi|].
    rewrite (upd_ne _ w) by done. unfold upd. case_decide; [congruence|by apply Hi].
  - intros s'. rewrite decide_False by done. rewrite (mi_value _ _ _ Hi s'), decide_False; done.
  - intros s'. destruct (mi_queue _ _ _ Hi s') as [Hq1 Hq2]. unfold upd at 1 2. case_decide as Hs.
    + subst s'. split; [done|]. intros u. unfold upd. case_decide as Huw; [subst; rewrite Hww; split; [tauto|done]|].
      case_decide as Hut; [subst u; rewrite Hwr; split; [intros Hin|done]; rewrite <- Hqs in *|].
      * assert (waits_on (ps t) = Some s) by (apply Hqs; by right). congruence.
      * rewrite <- Hqs, elem_of_cons. tauto.
    + split; [done|]. intros u. rewrite Hq2. unfold upd. case_decide as Huw; [subst; rewrite Hww, Hws; split; congruence|].
      case_decide; [subst; rewrite Hw, Hwr|]; done.
  - done.
  - pose proof (pinv_release _ _ s t (mi_pos _ _ _ Hi) Hu) as Hp. apply (pinv_wake _ _ s w) in Hp; rewrite ?upd_ne in * by done; done.
Qed.

(** The threads that [count] counts are waiting, unless they are inside. *)
Lemma waiters m ps h x : pinv m ps h -> 0 < count m x ->
  exists w, w ∈ ts /\ in_wait x (ps w) = true /\ (active (ps w) = false -> exists b k, labels ps w = Waiting x b k).
Proof.
  intros Hp Hc. rewrite (pi_count _ _ _ Hp) in Hc. apply tally_pos in Hc as (w & Hw & Hx). exists w. split; [done|].
  split; [done|]. unfold labels. destruct (ps w); try discriminate Hx; intros Ha; try discriminate Ha;
    apply Z.eqb_eq in Hx as ->; by do 2 eexists.
Qed.

Lemma no_waiters m ps h x : pinv m ps h -> count m x <= 0 -> forall w b k, labels ps w <> Waiting x b k.
Proof.
  intros Hp Hc w b k Hl. assert (Hx : in_wait x (ps w) = true).
  { unfold labels in Hl. destruct (ps w); try discriminate Hl; injection Hl as -> -> ->; apply Z.eqb_refl. }
  assert (Hw : w ∈ ts) by (eapply out_ts; [done|]; intros E; by rewrite E in Hx).
  pose proof (tally_ge (in_wait x) ps ts w Hw Hx). rewrite (pi_count _ _ _ Hp) in Hc. lia.
Qed.

(** The actions of the thread inside. *)
Lemma inside_act m ps t f g m' : pinv m ps (With t) -> at_up (ps t) = None -> waits_on (ps t) = None -> code (ps t) = Act f ->
  f m = (m', g) -> exists q, g = code q /\ active q = true /\ pinv m' (upd ps t q) (With t).
Proof.
  intros Hp Hu Hq Hc Hf. pose proof (pi_holds _ _ _ Hp) as (Ht & Hh & Hg). pose proof (pi_sound _ _ _ Hp t Ht) as Hs.
  assert (Ha : active (ps t) = true) by (by apply Hp). assert (HLt : labels ps t = Inside).
  { unfold labels. by destruct (ps t). }
  assert (Hrn : forall q, tally in_signal (upd ps t q) ts = next_count m - Z.b2z (in_signal (ps t)) + Z.b2z (in_signal q))
    by (intros q; rewrite tally_upd by done; rewrite (pi_next _ _ _ Hp); done).
  assert (Hrc : forall x q, tally (in_wait x) (upd ps t q) ts = count m x - Z.b2z (in_wait x (ps t)) + Z.b2z (in_wait x q))
    by (intros x q; rewrite tally_upd by done; rewrite (pi_count _ _ _ Hp); done).
  assert (Hs32 : forall z fn ps', z = tally fn ps' ts -> s32 z = z)
    by (intros z fn ps' ->; apply s32_small; pose proof (tally_range fn ps' ts); lia).
  assert (Hgo : forall q, g = code q -> active q = true ->
    next_count m' = next_count m - Z.b2z (in_signal (ps t)) + Z.b2z (in_signal q) ->
    (forall x, count m' x = count m x - Z.b2z (in_wait x (ps t)) + Z.b2z (in_wait x q)) ->
    sound t q -> holds t q (data m') (labels ps) -> guard q m' ->
    exists q, g = code q /\ active q = true /\ pinv m' (upd ps t q) (With t))
    by (intros q H1 H2 H3 H4 H5 H6 H7; exists q; split; [done|]; split; [done|]; by apply (pinv_inside m)).
  destruct (ps t) as [| |[|bf|x b|x b] k| |x b k| | | |x b k|x b k| | | |b k] eqn:Hpt; try discriminate Ha; try discriminate Hu;
    cbn in Hc; injection Hc as <-; cbn in Hf, Hh, Hg, Hs.
  - destruct (Z.ltb_spec 0 (next_count m)); injection Hf as <- <-; [apply (Hgo (Lv true k))|apply (Hgo (Lv false k))]; cbn; try done;
      try (intros; lia); try lia. pose proof (tally_range in_signal ps ts). rewrite <- (pi_next _ _ _ Hp) in *. lia.
  - destruct (bf (data m)) as [d b'] eqn:Hbf. injection Hf as <- <-. apply (Hgo (Bod b' k)); cbn; try done; try (intros; lia); lia.
  - injection Hf as <- <-. apply (Hgo (W2 x b k)); cbn; try done; try lia; [|tauto|tauto].
    intros y. unfold upd. case_decide as Hy; [subst; rewrite Z.eqb_refl|rewrite (proj2 (Z.eqb_neq y x)) by done; cbn; lia].
    cbn. rewrite (Hs32 _ (in_wait x) (upd ps t (W2 x b k))); [lia|]. rewrite Hrc. cbn. rewrite Z.eqb_refl. cbn. lia.
  - destruct Hh as (Hx & Hno & Hyes). destruct (Z.ltb_spec 0 (count m x)) as [Hc|Hc]; injection Hf as <- <-.
    + destruct (waiters m ps _ x Hp Hc) as (w & Hw & Hin & Hlab).
      destruct Hlab as (bw & kw & Hlab); [apply (pinv_other m ps t); [done|]; intros ->; by rewrite Hpt in Hin|].
      apply (Hgo (S2 x b k)); cbn; try done; try (intros; lia); try lia; [|apply Hyes].
      split; [done|]. by apply (Hyes w bw kw).
    + apply (Hgo (Bod b k)); cbn; try done; try (intros; lia); try lia. by apply Hno, (no_waiters m ps (With t)).
  - destruct (Z.ltb_spec 0 (next_count m)); injection Hf as <- <-; [apply (Hgo (W3 true x b k))|apply (Hgo (W3 false x b k))]; cbn; try done;
      try (intros; lia); try lia. pose proof (tally_range in_signal ps ts). rewrite <- (pi_next _ _ _ Hp) in *. lia.
  - injection Hf as <- <-. apply (Hgo (Bod b k)); cbn; try done; try lia; [|tauto|by apply Hs].
    intros y. unfold upd. case_decide as Hy; [subst; rewrite Z.eqb_refl|rewrite (proj2 (Z.eqb_neq y x)) by done; cbn; lia].
    cbn. rewrite (Hs32 _ (in_wait x) (upd ps t (Bod b k))); [lia|]. rewrite Hrc. cbn. rewrite Z.eqb_refl. cbn. lia.
  - injection Hf as <- <-. apply (Hgo (S3 x b k)); cbn; try done; try (intros; lia).
    rewrite (Hs32 _ in_signal (upd ps t (S3 x b k))); [lia|]. rewrite Hrn. cbn. lia.
  - injection Hf as <- <-. apply (Hgo (Bod b k)); cbn; try done; try (intros; lia); [|tauto|by apply Hs].
    rewrite (Hs32 _ in_signal (upd ps t (Bod b k))); [lia|]. rewrite Hrn. cbn. lia.
Qed.

(** ** Every step *)
Lemma minv_step c c' ps h t : minv c ps h -> t ∈ ts -> step (monitor_sems num_cv) t c = Some c' ->
  exists ps' h', minv c' ps' h'.
Proof.
  intros Hi Ht Hs. unfold step in Hs. rewrite (waiting_pos c ps h t Hi Ht) in Hs. case_bool_decide as Hw; [done|].
  assert (Hwn : waits_on (ps t) = None) by (destruct (waits_on (ps t)); [exfalso; by apply Hw|done]). clear Hw.
  rewrite (mi_prog _ _ _ Hi t Ht) in Hs.
  destruct (at_down (ps t)) as [s|] eqn:Hd.
  { destruct (parked_spec _ _ Hd) as (_ & _ & _ & _ & g & Hg & _). rewrite Hg in Hs.
    destruct (Z.ltb_spec 0 (value c s)); injection Hs as <-; do 2 eexists; [by apply (minv_take c ps h t s g)|].
    apply (minv_park c ps h t s g); try done. lia. }
  destruct (at_up (ps t)) as [s|] eqn:Hu.
  { destruct (released_spec _ _ Hu) as (_ & _ & _ & g & Hg & _). rewrite Hg in Hs.
    destruct (queue c s) as [|w q] eqn:Hq; injection Hs as <-; do 2 eexists; [by apply (minv_up c ps h t s g)|by eapply minv_hand]. }
  pose proof (pi_sound _ _ _ (mi_pos _ _ _ Hi) t Ht) as Hsd.
  destruct (ps t) as [[|e k|b k]| | | | | | | | | | | | |] eqn:Hpt; try discriminate Hd; try discriminate Hu; try discriminate Hwn.
  1: { cbn in Hs. discriminate Hs. }
  1: { cbn in Hs. injection Hs as <-. exists (upd ps t (Out k)), h. destruct k as [| |b k'] eqn:Hk;
       (eapply (minv_local c ps h t); rewrite ?Hpt; try done; apply pinv_quiet; rewrite ?Hpt; try done; [apply Hi|]; by apply (fit_sleep Hver) in Hsd). }
  all: assert (h = With t) as -> by (apply (pi_active _ _ _ (mi_pos _ _ _ Hi) t); by rewrite Hpt).
  all: match type of Hs with context [code ?p] =>
    assert (Hact : exists f, code p = Act f) by (cbn; by (destruct b; eexists) || by eexists) end.
  all: destruct Hact as [f Hf]; rewrite Hf in Hs; destruct (f (store c)) as [m' g] eqn:Hfg; injection Hs as <-.
  all: destruct (inside_act (store c) ps t f g m') as (q & -> & Hq1 & Hq2); rewrite ?Hpt; try done; try apply Hi.
  all: exists (upd ps t q), (With t); eapply (minv_local c ps (With t) t m' q); rewrite ?Hpt; try done; by destruct q.
Qed.

Lemma minv_start d (clients : Z -> client) : (forall t, t ∈ ts -> fit o t (clients t)) -> 
  J o d (fun t => Idle (if decide (t ∈ ts) then awake (clients t) else CEnd)) ->
  minv (monitor_init d clients) (fun t => if decide (t ∈ ts) then Out (clients t) else Out CEnd) (On M_mutex).
Proof.
  intros Hf HJ. assert (Hl : labels (fun t => if decide (t ∈ ts) then Out (clients t) else Out CEnd) =
    fun t => Idle (if decide (t ∈ ts) then awake (clients t) else CEnd)).
  { apply functional_extensionality. intros t. unfold labels. by case_decide. }
  assert (Hz : forall fn l, (forall k, fn (Out k) = false) -> tally fn (fun t => if decide (t ∈ ts) then Out (clients t) else Out CEnd) l = 0).
  { intros fn l Hfn. induction l as [|u l IH]; [done|]. cbn [tally]. rewrite IH. case_decide; by rewrite Hfn. }
  split; cbn.
  - intros t Ht. by rewrite decide_True.
  - intros s. destruct s; [by rewrite decide_True|by rewrite decide_False..].
  - intros s. split; [apply NoDup_nil_2|]. intros t. rewrite elem_of_nil. split; [done|]. by case_decide.
  - done.
  - split; cbn.
    + intros t Ht. by rewrite decide_False.
    + intros t. split; [by case_decide|done].
    + by rewrite Hz.
    + intros x. by rewrite Hz.
    + intros t Ht. rewrite decide_True by done. by apply Hf.
    + rewrite Hl. by apply (always_J Hver) in HJ.
    + rewrite Hl. done.
Qed.

Lemma minv_reach c c' : rtc (steps_to (monitor_sems num_cv) ts) c c' -> (exists ps h, minv c ps h) -> exists ps h, minv c' ps h.
Proof.
  intros Hr Hi. apply (invariant_rtc (monitor_sems num_cv) ts (fun c => exists ps h, minv c ps h) c c'); [|done|done].
  intros d d' (ps & h & Hd) (t & Ht & Hs). by apply (minv_step d d' ps h t).
Qed.

(** A thread that runs an action of a routine is the one inside. *)
Lemma minv_act c ps h t : minv c ps h -> t ∈ ts -> waiting (monitor_sems num_cv) c t = false ->
  (exists f, prg c t = Act f) -> h = With t.
Proof.
  intros Hi Ht Hw [f Hf]. rewrite (waiting_pos c ps h t Hi Ht) in Hw. apply bool_decide_eq_false in Hw.
  rewrite (mi_prog _ _ _ Hi t Ht) in Hf. apply (pi_active _ _ _ (mi_pos _ _ _ Hi) t).
  destruct (ps t) as [[]| | | | | | | | | | | | |]; try done; by (exfalso; apply Hw; eexists).
Qed.

(** When no thread can move, each has ended or waits for a condition variable, the
    monitor is open and the invariant holds. *)
Lemma minv_stuck c ps h : minv c ps h -> (forall t, t ∈ ts -> step (monitor_sems num_cv) t c = None) ->
  h = On M_mutex /\ J o (data (store c)) (labels ps) /\
  forall t, t ∈ ts -> ps t = Out CEnd \/ exists x b k, ps t = W5q x b k.
Proof.
  intros Hi Hst.
  assert (Hcan : forall t, t ∈ ts -> waits_on (ps t) = None -> prg c t = Ret).
  { intros t Ht Hw. specialize (Hst t Ht). unfold step in Hst. rewrite (waiting_pos c ps h t Hi Ht), Hw, bool_decide_false in Hst by (by intros []).
    destruct (prg c t) as [|f|e k|s k|s k]; try done; exfalso.
    - by destruct (f (store c)).
    - by destruct (0 <? value c s).
    - by destruct (queue c s). }
  pose proof (pi_holds _ _ _ (mi_pos _ _ _ Hi)) as Hh.
  assert (Hret : forall q, code q = Ret -> q = Out CEnd \/ waits_on q <> None).
  { intros q Hq. destruct q as [[]| |[] k|n k| |n x b k| | | | | | | |]; try done; try (by right); by left. }
  assert (Ho : h = On M_mutex).
  { destruct h as [s|t].
    - destruct Hh as (_ & _ & He). destruct (decide (s = M_mutex)) as [->|Hne]; [done|]. exfalso.
      destruct (He Hne) as (t & Ht & [Hd|Hw]).
      + destruct (parked_spec _ _ Hd) as (Hw & _ & _ & _ & g & Hg & _). specialize (Hcan t Ht Hw).
        rewrite (mi_prog _ _ _ Hi t Ht), Hg in Hcan. done.
      + apply Hi in Hw. rewrite (mi_free _ _ _ Hi s) in Hw by done. by apply elem_of_nil in Hw.
    - exfalso. destruct Hh as (Ht & _). assert (Ha : active (ps t) = true) by (by apply (mi_pos _ _ _ Hi)).
      assert (Hw : waits_on (ps t) = None) by (by destruct (ps t)). specialize (Hcan t Ht Hw).
      rewrite (mi_prog _ _ _ Hi t Ht) in Hcan. destruct (Hret _ Hcan) as [Hq|Hq]; [by rewrite Hq in Ha|done]. }
  split; [done|]. subst h. destruct Hh as (HJ & Hn & _). split; [done|]. intros t Ht.
  destruct (waits_on (ps t)) as [s|] eqn:Hw.
  - destruct (decide (s = M_mutex)) as [->|Hm]; [apply Hi in Hw; rewrite (mi_free _ _ _ Hi) in Hw by done; by apply elem_of_nil in Hw|].
    destruct (ps t) eqn:Hpt; try discriminate Hw; injection Hw as <-; try done.
    + right. by do 3 eexists.
    + exfalso. assert (Hp : 0 < tally in_signal ps ts) by (apply (tally_ge _ _ _ t); [done|by rewrite Hpt]).
      rewrite <- (pi_next _ _ _ (mi_pos _ _ _ Hi)) in Hp. rewrite Hn in Hp by done. lia.
  - left. specialize (Hcan t Ht Hw). rewrite (mi_prog _ _ _ Hi t Ht) in Hcan. destruct (Hret _ Hcan); [done|congruence].
Qed.
End spec.
Arguments outline : clear implicits.
Arguments pos : clear implicits.
Arguments status : clear implicits.

(** ** Any use of a monitor *)
Section any.
Context {D : Type} (num_cv : Z).

(** The condition variables that are named exist. *)
Fixpoint cv_in_range (b : body D) : Prop :=
  match b with
  | BRet => True
  | BAct f => forall d, let '(_, b') := f d in cv_in_range b'
  | BWait x k | BSignal x k => 0 <= x < num_cv /\ cv_in_range k
  end.
Fixpoint calls_in_range (k : client D) : Prop :=
  match k with
  | CEnd => True
  | CSleep _ k' => calls_in_range k'
  | CCall b k' => cv_in_range b /\ calls_in_range k'
  end.

Definition nothing : outline D :=
  mkOutline (fun _ _ => True) (fun _ _ _ _ => True) (fun _ k => calls_in_range k) (fun _ => True).

Lemma ok_nothing t k b : cv_in_range b -> forall d L, ok num_cv nothing t k b d L.
Proof.
  revert b. fix IH 1. intros [|f|x b|x b] Hr d L; cbn in Hr |- *; [done| | |].
  - specialize (Hr d). destruct (f d) as [d' b']. by apply IH.
  - destruct Hr as [Hx Hr]. split; [done|]. split; [done|]. intros d' L' _ _. by apply IH.
  - destruct Hr as [Hx Hr]. split; [done|]. split; [intros _; by apply IH|]. intros w bw kw _. split; [done|].
    intros d' L' _ _. by apply IH.
Qed.

Lemma nothing_verified : verified num_cv nothing.
Proof.
  split; try done. intros t b k [Hb Hk]. split; [done|]. intros d L _ _. by apply ok_nothing.
Qed.

(** The thread is about to run an action of a routine. *)
Definition inside (c : config msem (monitor D)) (t : Z) : Prop :=
  waiting (monitor_sems num_cv) c t = false /\ exists f, prg c t = Act f.

Definition calls_cond (c : config msem (monitor D)) (t : Z) : Prop := exists x, 0 <= x < num_cv /\ t ∈ queue c (M_cv x).

(** C4 A monitor is exclusive and never lost, whatever its routines do: of the
    threads that call them at most one is inside at any time, and where no thread can
    move every thread has ended or waits for a condition variable, and [mutex] is
    open. *)
Theorem monitor_exclusive ts d clients c : NoDup ts -> Z.of_nat (length ts) < 2 ^ 31 ->
  (forall t, t ∈ ts -> calls_in_range (clients t)) ->
  rtc (steps_to (monitor_sems num_cv) ts) (monitor_init d clients) c ->
  (forall t u, t ∈ ts -> u ∈ ts -> inside c t -> inside c u -> t = u) /\
  ((forall t, t ∈ ts -> step (monitor_sems num_cv) t c = None) ->
    value c M_mutex = 1 /\ forall t, t ∈ ts -> prg c t = Ret \/ calls_cond c t).
Proof.
  intros Hnd Hlen Hcl Hr.
  destruct (minv_reach num_cv ts nothing Hnd Hlen nothing_verified _ _ Hr) as (ps & h & Hi).
  { do 2 eexists. by apply (minv_start num_cv ts nothing nothing_verified). }
  split.
  - intros t u Ht Hu [Hw1 Ha1] [Hw2 Ha2].
    pose proof (minv_act num_cv ts nothing c ps h t Hi Ht Hw1 Ha1).
    pose proof (minv_act num_cv ts nothing c ps h u Hi Hu Hw2 Ha2). congruence.
  - intros Hst. destruct (minv_stuck num_cv ts nothing c ps h Hi Hst) as (-> & _ & Hall).
    split; [rewrite (mi_value _ _ _ _ _ _ Hi); by rewrite decide_True|]. intros t Ht.
    destruct (Hall t Ht) as [Hp|(x & b & k & Hp)].
    + left. rewrite (mi_prog _ _ _ _ _ _ Hi t Ht), Hp. done.
    + right. exists x. pose proof (pi_sound _ _ _ _ _ _ (mi_pos _ _ _ _ _ _ Hi) t Ht) as Hs. rewrite Hp in Hs.
      split; [apply Hs|]. apply Hi. by rewrite Hp.
Qed.
End any.
