(* ===== verification/PhilosophersCondvar.v ===== *)
(** * Dining philosophers with condition variables (kern/sync/check_sync.c)

    The threads of [philosopher_using_condvar] over the monitor [mt], by the rules of
    [Monitor]: neighbours never eat at the same time, no state is a deadlock and
    everyone ends after [TIMES] meals. *)
From S2P Require Import Prelude Threads Philosophers Monitor.

(** [state_condvar] is the data of the monitor, [self_cv[i]] its condition variables. *)
Definition set_state_condvar (i v : Z) : body states := bact (fun st => upd st i v).

Definition phi_test_condvar (i : Z) : body states :=
  bchoose (may_eat i) (set_state_condvar i EATING ;;> BSignal i BRet)%body BRet.

Definition phi_take_forks_condvar (i : Z) : body states :=
  (set_state_condvar i HUNGRY ;;>
   phi_test_condvar i ;;>
   bchoose (fun st => st i =? HUNGRY) (BWait i BRet) BRet)%body.

Definition phi_put_forks_condvar (i : Z) : body states :=
  (set_state_condvar i THINKING ;;>
   phi_test_condvar (LEFT i) ;;>
   phi_test_condvar (RIGHT i))%body.

Fixpoint philosopher_using_condvar (n : nat) (i : Z) : client states :=
  match n with
  | O => CEnd
  | S n' =>
      CSleep false (CCall (phi_take_forks_condvar i)
        (CSleep true (CCall (phi_put_forks_condvar i) (philosopher_using_condvar n' i))))
  end.

(** [check_sync] before these threads run. *)
Definition cv_sems : list msem := monitor_sems N.
Definition start_condvar : config msem (monitor states) :=
  monitor_init (fun _ => THINKING) (philosopher_using_condvar TIMES).

Definition eating_condvar (c : config msem (monitor states)) (i : Z) : Prop :=
  waiting cv_sems c i = false /\ exists k, prg c i = Sleep true k.
Definition finished_condvar (c : config msem (monitor states)) : Prop := forall i, i ∈ philosophers -> prg c i = Ret.

(** ** The proof outline *)
Abbreviation status := (status states).
Implicit Types (L : Z -> status) (d : states).

Definition ate (i : Z) (n : nat) : client states := CCall (phi_put_forks_condvar i) (philosopher_using_condvar n i).

(** What a philosopher outside the monitor is up to, and his state. *)
Definition row_cv (i st : Z) (l : status) : Prop :=
  match l with
  | Idle k => exists n, st = THINKING /\ k = awake (philosopher_using_condvar n i) \/ st = EATING /\ k = ate i n
  | Waiting x b k => exists n, st = HUNGRY /\ x = i /\ b = BRet /\ k = CSleep true (ate i n)
  | Signalled b k => exists n, st = THINKING /\ (b = phi_test_condvar (RIGHT i) \/ b = BRet) /\ k = philosopher_using_condvar n i
  | Inside => False
  end.

Definition apart d : Prop := forall i, idx i -> ~ (d i = EATING /\ d (RIGHT i) = EATING).

(** The hungry have a neighbour who eats, except [E] and those about to be looked at. *)
Definition fair (E : Z -> Prop) d L : Prop := forall i, idx i -> d i = HUNGRY ->
  d (LEFT i) = EATING \/ d (RIGHT i) = EATING \/ E i \/
  exists s k, idx s /\ i = RIGHT s /\ L s = Signalled (phi_test_condvar i) k.

(** All but [out] are outside, and there are no others. *)
Definition table (out : Z -> Prop) (E : Z -> Prop) d L : Prop :=
  (forall i, idx i -> ~ out i -> row_cv i (d i) (L i)) /\ apart d /\ fair E d L /\ forall i, ~ idx i -> L i = Idle CEnd.

Definition nobody (_ : Z) : Prop := False.

Definition eats (i : Z) (l : status) : Prop := exists n, l = Idle (ate i n).

Definition runs (i : Z) (k : client states) : Prop := idx i /\ exists n,
  k = philosopher_using_condvar n i \/ k = CCall (phi_take_forks_condvar i) (CSleep true (ate i n)) \/
  k = CSleep true (ate i n) \/ k = ate i n.

Definition dinner : outline states := mkOutline
  (table nobody nobody)
  (fun x w d L => x = w /\ d w = EATING /\ table (fun i => i = w) nobody d L)
  runs
  (fun L => forall i, idx i -> ~ (eats i (L i) /\ eats (RIGHT i) (L (RIGHT i)))).

(** ** Its verification *)
Lemma put_not_take i n m : ate i n <> awake (philosopher_using_condvar m i).
Proof.
  destruct m as [|m]; [done|]. intros H.
  apply (f_equal (fun k => match k with CCall (BAct f) _ => fst (f (fun _ => 0)) i | _ => 0 end)) in H. cbn in H.
  by rewrite !upd_eq in H.
Qed.

Lemma table_hungry out E d L i : table out E d L -> idx i -> ~ out i -> d i = HUNGRY ->
  exists n, L i = Waiting i BRet (CSleep true (ate i n)).
Proof.
  intros (Hr & _) Hi Ho Hh. specialize (Hr i Hi Ho). rewrite Hh in Hr. destruct (L i) as [k|x b k|b k|]; try done.
  - by destruct Hr as (n & [[? _]|[? _]]).
  - destruct Hr as (n & _ & -> & -> & ->). by exists n.
  - by destruct Hr as (n & ? & _).
Qed.

(** [t] goes outside. *)
Lemma table_out E d L t l : table (fun i => i = t) E d L -> row_cv t (d t) l -> (forall b k, L t <> Signalled b k) -> idx t ->
  (forall i, E i -> d i = HUNGRY -> exists k, i = RIGHT t /\ l = Signalled (phi_test_condvar i) k) ->
  table nobody nobody d (upd L t l).
Proof.
  intros (Hr & Ha & Hf & Hx) Hrow HL Ht HE. split; [|split; [done|split]].
  - intros i Hi _. unfold upd. case_decide; [by subst|]. by apply Hr.
  - intros i Hi Hh. destruct (Hf i Hi Hh) as [|[|[He|(s & k & Hs & -> & HLs)]]]; [tauto|tauto| |].
    + right; right; right. destruct (HE i He Hh) as (k & -> & Hl). exists t, k. by rewrite upd_eq.
    + right; right; right. exists s, k. split; [done|]. split; [done|]. rewrite upd_ne; [done|]. intros ->. by apply HL in HLs.
  - intros i Hi. rewrite upd_ne; [by apply Hx|]. by intros ->.
Qed.

(** [t] comes inside. *)
Lemma table_in (E : Z -> Prop) d L t l : table nobody nobody d (upd L t l) -> idx t ->
  (forall k, l = Signalled (phi_test_condvar (RIGHT t)) k -> E (RIGHT t)) -> table (fun i => i = t) E d L.
Proof.
  intros (Hr & Ha & Hf & Hx) Ht HE. split; [|split; [done|split]].
  - intros i Hi Hne. specialize (Hr i Hi (fun H => H)). by rewrite upd_ne in Hr.
  - intros i Hi Hh. destruct (Hf i Hi Hh) as [|[|[[]|(s & k & Hs & -> & HLs)]]]; [tauto|tauto|].
    right; right. unfold upd in HLs. case_decide; [subst; left; by eapply HE|]. right. by exists s, k.
  - intros i Hi. rewrite <- (Hx i Hi), upd_ne; [done|]. by intros ->.
Qed.

(** The state of [t], who is inside, changes. *)
Lemma table_self (E E' : Z -> Prop) d L t v : table (fun i => i = t) E d L -> idx t -> v <> EATING ->
  (d t = EATING -> E' (LEFT t) /\ E' (RIGHT t)) -> (forall i, E i -> E' i) -> (v = HUNGRY -> E' t) ->
  table (fun i => i = t) E' (upd d t v) L.
Proof.
  intros (Hr & Ha & Hf & Hx) Ht Hv Hd HE Hvt. split; [|split; [|split; [|done]]].
  - intros i Hi Hne. rewrite upd_ne by done. by apply Hr.
  - intros i Hi [H1 H2]. apply (Ha i Hi). unfold upd in H1, H2. repeat case_decide; done.
  - intros i Hi Hh. destruct (decide (i = t)) as [->|Hne]; [rewrite upd_eq in Hh; tauto|]. rewrite upd_ne in Hh by done.
    assert (Hk : forall j, d j = EATING -> upd d t v j = EATING \/ j = t).
    { intros j Hj. destruct (decide (j = t)); [by right|]. left. by rewrite upd_ne. }
    destruct (Hf i Hi Hh) as [He|[He|[He|He]]].
    + destruct (Hk _ He) as [|Hj]; [tauto|]. rewrite Hj in He. right; right; left.
      replace i with (RIGHT t) by (rewrite <- Hj; by apply RIGHT_LEFT). by apply Hd.
    + destruct (Hk _ He) as [|Hj]; [tauto|]. rewrite Hj in He. right; right; left.
      replace i with (LEFT t) by (rewrite <- Hj; by apply LEFT_RIGHT). by apply Hd.
    + right; right; left. auto.
    + tauto.
Qed.

(** [j] is let eat. *)
Lemma table_eat out E d L j : table out E d L -> idx j -> may_eat j d = true ->
  table (fun i => out i \/ i = j) (fun i => E i /\ i <> j) (upd d j EATING) L.
Proof.
  intros (Hr & Ha & Hf & Hx) Hj Hm. apply may_eat_true in Hm as (Hh & H1 & H2).
  assert (Hk : forall i, d i = EATING -> upd d j EATING i = EATING) by (intros i; apply eating_upd).
  split; [|split; [|split; [|done]]].
  - intros i Hi Hne. rewrite upd_ne by tauto. apply Hr; tauto.
  - intros i Hi [He1 He2]. unfold upd in He1, He2. destruct (decide (i = j)) as [->|].
    + rewrite decide_False in He2; [done|]. apply (sides_ne j Hj).
    + destruct (decide (RIGHT i = j)) as [<-|]; [by rewrite LEFT_RIGHT in H1|by apply (Ha i Hi)].
  - intros i Hi Hhi. destruct (decide (i = j)) as [->|Hne]; [by rewrite upd_eq in Hhi|]. rewrite upd_ne in Hhi by done.
    destruct (Hf i Hi Hhi) as [|[|[|]]]; auto.
Qed.

(** Nothing changes but what [E] has to excuse. *)
Lemma table_fair out (E E' : Z -> Prop) d L : table out E d L ->
  (forall i, idx i -> E i -> d i = HUNGRY -> d (LEFT i) = EATING \/ d (RIGHT i) = EATING \/ E' i) -> table out E' d L.
Proof.
  intros (Hr & Ha & Hf & Hx) HE. split; [done|]. split; [done|]. split; [|done]. intros i Hi Hh.
  destruct (Hf i Hi Hh) as [|[|[He|]]]; [tauto|tauto| |tauto]. destruct (HE i Hi He Hh); tauto.
Qed.

(** The monitor goes from [t], who signals, to [j]. *)
Lemma table_signal E d L t j l : table (fun i => i = t \/ i = j) E d L -> idx t -> idx j -> t <> j -> row_cv t (d t) l ->
  L t = Inside -> (forall b k, L j <> Signalled b k) ->
  (forall i, E i -> exists k, i = RIGHT t /\ l = Signalled (phi_test_condvar i) k) ->
  table (fun i => i = j) nobody d (upd (upd L t l) j Inside).
Proof.
  intros (Hr & Ha & Hf & Hx) Ht Hj Hne Hrow HLt HLj HE. split; [|split; [done|split]].
  - intros i Hi Hij. rewrite upd_ne by done. unfold upd. case_decide; [by subst|]. apply Hr; tauto.
  - intros i Hi Hh. destruct (Hf i Hi Hh) as [|[|[He|(s & k & Hs & -> & HLs)]]]; [tauto|tauto| |]; right; right; right.
    + destruct (HE i He) as (k & -> & Hl). exists t, k. by rewrite upd_ne, upd_eq.
    + exists s, k. split; [done|]. split; [done|]. rewrite !upd_ne; [done| |]; intros ->; [congruence|by apply HLj in HLs].
  - intros i Hi. rewrite !upd_ne; [by apply Hx| |]; by intros ->.
Qed.

Lemma idx_range i : idx i -> 0 <= i < N.
Proof. done. Qed.

Lemma ok_test (E E' : Z -> Prop) t k j b d L : idx t -> idx j -> j <> t -> d t = THINKING -> L t = Inside ->
  table (fun i => i = t) E d L -> row_cv t THINKING (Signalled b k) ->
  (forall i, E i -> i = j \/ E' i) -> (forall i, E' i -> i = RIGHT t /\ b = phi_test_condvar i) ->
  (forall d' L', L' t = Inside -> d' t = THINKING -> table (fun i => i = t) E' d' L' -> ok N dinner t k b d' L') ->
  (forall k', b = phi_test_condvar (RIGHT t) -> Signalled b k = Signalled (phi_test_condvar (RIGHT t)) k' -> E' (RIGHT t)) ->
  ok N dinner t k (phi_test_condvar j ;;> b)%body d L.
Proof.
  intros Ht Hj Hne Hd HL Htab Hrow HE HE' Hk Hback. cbn [phi_test_condvar bchoose bseq ok].
  destruct (may_eat j d) eqn:Hm; cbn.
  - destruct (may_eat_true j d Hm) as (Hh & _). destruct (table_hungry _ _ _ _ j Htab Hj Hne Hh) as [n HLj].
    split; [by apply idx_range|]. split; [intros Hno; by apply Hno in HLj|]. intros w bw kw HLw.
    assert (w = j) as ->.
    { destruct Htab as (Hr & _ & _ & Hx). destruct (decide (idx w)) as [Hw|Hw]; [|rewrite (Hx w Hw) in HLw; done].
      assert (Hwt : w <> t) by congruence. specialize (Hr w Hw Hwt). rewrite HLw in Hr. by destruct Hr as (? & _ & -> & _). }
    split.
    + split; [done|]. split; [by rewrite upd_eq|]. apply (table_signal (fun i => E i /\ i <> j)); try done; [by apply table_eat|..].
      * rewrite upd_ne by done. by rewrite Hd.
      * by rewrite HLj.
      * intros i [He Hij]. destruct (HE i He) as [|He']; [done|]. destruct (HE' i He') as [-> ->]. by eexists.
    + intros d' L' HL' HJ. apply Hk; [done| |].
      * destruct HJ as (Hr & _). specialize (Hr t Ht (fun H => H)). rewrite upd_eq in Hr. by destruct Hr as (? & ? & _).
      * eapply table_in; [done|done|]. intros k' Hs. eapply Hback; [|done]. by injection Hs.
  - apply Hk; [done|done|]. eapply table_fair; [done|]. intros i Hi He Hh. destruct (HE i He) as [->|]; [|tauto].
    destruct (may_eat_false j d Hm Hh); tauto.
Qed.

Lemma ok_take d L t n : idx t -> L t = Inside ->
  table nobody nobody d (upd L t (Idle (CCall (phi_take_forks_condvar t) (CSleep true (ate t n))))) ->
  ok N dinner t (CSleep true (ate t n)) (phi_take_forks_condvar t) d L.
Proof.
  intros Ht HL HJ. assert (Hd : d t = THINKING).
  { destruct HJ as (Hr & _). specialize (Hr t Ht (fun H => H)). rewrite upd_eq in Hr. destruct Hr as (m & [[? _]|[_ Hk]]); [done|].
    exfalso. by apply (put_not_take t m (S n)). }
  assert (Hin : table (fun i => i = t) (fun i => i = t) (upd d t HUNGRY) L).
  { apply (table_self nobody); try done; [by eapply table_in|by rewrite Hd]. }
  set (d1 := upd d t HUNGRY) in *. assert (H1 : d1 t = HUNGRY) by apply upd_eq.
  assert (HLs : forall b k, L t <> Signalled b k) by (by rewrite HL).
  assert (Hself : forall i, i = t -> idx i) by (by intros i ->).
  cbn [phi_take_forks_condvar set_state_condvar bact phi_test_condvar bchoose bseq ok]. fold d1.
  assert (Heats : forall d' L', L' t = Inside -> table (fun i => i = t) nobody d' L' -> d' t = EATING ->
    table nobody nobody d' (upd L' t (Idle (ate t n)))).
  { intros d' L' HL' Htab He. eapply table_out; try done; [|by rewrite HL']. exists n. right. done. }
  destruct (may_eat t d1) eqn:Hm; cbn.
  - set (d2 := upd d1 t EATING). assert (H2 : d2 t = EATING) by apply upd_eq. rewrite H2. cbn.
    split; [done|]. split; [|intros w bw kw HLw; exfalso].
    + intros _. apply Heats; [done| |done]. pose proof (table_eat _ _ _ _ t Hin Ht Hm) as (Hr & Ha & Hf & Hx).
      split; [intros i Hi Hne; apply Hr; tauto|]. split; [done|]. split; [|done]. intros i Hi Hh.
      destruct (Hf i Hi Hh) as [|[|[[? ?]|]]]; tauto.
    + destruct Hin as (Hr & _ & _ & Hx). destruct (decide (idx w)) as [Hw|Hw]; [|by rewrite (Hx w Hw) in HLw].
      destruct (decide (w = t)) as [->|Hne]; [by rewrite HL in HLw|]. specialize (Hr w Hw Hne). rewrite HLw in Hr.
      by destruct Hr as (? & _ & ? & _).
  - rewrite H1. cbn. split; [done|]. split.
    + apply (table_out nobody); try done; [|by exists n]. eapply table_fair; [done|]. intros i Hi -> Hh.
      destruct (may_eat_false t d1 Hm Hh); tauto.
    + intros d' L' HL' (_ & He & Htab). by apply Heats.
Qed.

Lemma ok_put d L t n : idx t -> L t = Inside -> table nobody nobody d (upd L t (Idle (ate t n))) ->
  ok N dinner t (philosopher_using_condvar n t) (phi_put_forks_condvar t) d L.
Proof.
  intros Ht HL HJ. set (E := fun i => i = LEFT t \/ i = RIGHT t).
  assert (Hin : table (fun i => i = t) E (upd d t THINKING) L).
  { apply (table_self nobody); unfold E; try done; [by eapply table_in|tauto]. }
  destruct (sides_ne t Ht) as (Hl & Hr & Hlr).
  change (ok N dinner t (philosopher_using_condvar n t)
    (phi_test_condvar (LEFT t) ;;> phi_test_condvar (RIGHT t))%body (upd d t THINKING) L).
  assert (Hrow : forall b, b = phi_test_condvar (RIGHT t) \/ b = BRet ->
    row_cv t THINKING (Signalled b (philosopher_using_condvar n t))) by (intros b Hb; by exists n).
  apply (ok_test E (fun i => i = RIGHT t)); auto using LEFT_idx, upd_eq; [by intros i ->|].
  intros d' L' HL' Hd' Htab.
  rewrite <- (bseq_ret (phi_test_condvar (RIGHT t))).
  apply (ok_test (fun i => i = RIGHT t) nobody); auto using RIGHT_idx; [done| |done].
  intros d'' L'' HL'' Hd'' Htab2. cbn. apply (table_out nobody); try done; [|by rewrite HL''].
  exists n. by left.
Qed.

Lemma dinner_verified : verified N dinner.
Proof.
  split.
  - intros t e k (Ht & n & Hk). split; [done|]. destruct Hk as [Hk|[Hk|[Hk|Hk]]]; try discriminate Hk.
    + destruct n as [|n]; [discriminate Hk|]. injection Hk as _ ->. exists n. tauto.
    + injection Hk as _ ->. exists n. tauto.
  - intros t b k (Ht & n & Hk). destruct Hk as [Hk|[Hk|[Hk|Hk]]]; try discriminate Hk.
    + by destruct n.
    + injection Hk as -> ->. split; [split; [done|exists n; tauto]|]. intros d L HL HJ. by apply ok_take.
    + injection Hk as -> ->. split; [split; [done|exists n; tauto]|]. intros d L HL HJ. by apply ok_put.
  - intros d L (Hr & Ha & _) i Hi [[n Hn] [m Hm]]. apply (Ha i Hi).
    assert (He : forall j k, idx j -> L j = Idle (ate j k) -> d j = EATING).
    { intros j k Hj Hjk. specialize (Hr j Hj (fun H => H)). rewrite Hjk in Hr. destruct Hr as (n' & [[_ Hq]|[? _]]); [|done].
      exfalso. by apply (put_not_take j k n'). }
    split; eapply He; try done. apply RIGHT_idx.
  - intros L t HQ i Hi [[n Hn] [m Hm]]. unfold upd in Hn, Hm. repeat case_decide; try done. apply (HQ i Hi). split; by eexists.
  - intros L t b k HQ _ i Hi [[n Hn] [m Hm]]. unfold upd in Hn, Hm. repeat case_decide; try done. apply (HQ i Hi). split; by eexists.
Qed.

(** ** What follows of every run *)
Lemma philosophers_short : Z.of_nat (length philosophers) < 2 ^ 31 /\ NoDup philosophers.
Proof. split; [done|apply NoDup_seqZ]. Qed.

Lemma dinner_reach c : rtc (steps_to cv_sems philosophers) start_condvar c -> exists ps h, minv N philosophers dinner c ps h.
Proof.
  destruct philosophers_short as [Hlen Hnd]. intros Hr. apply (minv_reach N philosophers dinner Hnd Hlen dinner_verified _ _ Hr).
  do 2 eexists. apply (minv_start N philosophers dinner dinner_verified).
  - intros t Ht%philosophers_idx. split; [done|]. exists TIMES. by left.
  - split; [|split; [|split]].
    + intros i Hi%philosophers_idx _. rewrite decide_True by done. exists TIMES. by left.
    + by intros i _ [? _].
    + by intros i _ ?.
    + intros i Hi. rewrite decide_False; [done|]. by rewrite philosophers_idx.
Qed.

Lemma eating_label c ps h i : minv N philosophers dinner c ps h -> idx i -> eating_condvar c i -> eats i (labels ps i).
Proof.
  intros Hi Hx [Hw (k & Hk)]. apply philosophers_idx in Hx. rewrite (mi_prog _ _ _ _ _ _ Hi i Hx) in Hk.
  pose proof (pi_sound _ _ _ _ _ _ (mi_pos _ _ _ _ _ _ Hi) i Hx) as Hs. unfold cv_sems in Hw.
  rewrite (waiting_pos _ _ _ _ _ _ _ Hi Hx) in Hw. apply bool_decide_eq_false in Hw. unfold labels.
  destruct (ps i) as [[|e k'|]| |[]| | | | | | | | | | |]; try discriminate Hk; try (exfalso; apply Hw; by eexists).
  injection Hk as -> _. destruct Hs as (_ & n & Hs). exists n. destruct Hs as [Hs|[Hs|[Hs|Hs]]]; try discriminate Hs.
  - by destruct n.
  - injection Hs as ->. done.
Qed.

(** C10 Whatever the interleaving of the threads of [philosopher_using_condvar], two
    philosophers who sit next to each other never eat at the same time. *)
Theorem neighbours_never_eat_condvar c i : rtc (steps_to cv_sems philosophers) start_condvar c -> i ∈ philosophers ->
  ~ (eating_condvar c i /\ eating_condvar c (RIGHT i)).
Proof.
  intros Hr Hx [H1 H2]. apply philosophers_idx in Hx. destruct (dinner_reach c Hr) as (ps & h & Hi).
  apply (pi_always _ _ _ _ _ _ (mi_pos _ _ _ _ _ _ Hi) i Hx). split; eapply eating_label; try done. apply RIGHT_idx.
Qed.

Lemma dinner_stuck c : rtc (steps_to cv_sems philosophers) start_condvar c ->
  (forall t, t ∈ philosophers -> step cv_sems t c = None) -> finished_condvar c.
Proof.
  intros Hr Hst. destruct (dinner_reach c Hr) as (ps & h & Hi). destruct (minv_stuck _ _ _ _ _ _ Hi Hst) as (_ & HJ & Hall).
  destruct HJ as (Hrow & _ & Hf & _).
  assert (Hlab : forall i, idx i -> data (store c) i <> EATING /\ (data (store c) i = HUNGRY -> ps i <> Out CEnd) /\ (forall b k, labels ps i <> Signalled b k)
    /\ (ps i <> Out CEnd -> data (store c) i = HUNGRY)).
  { intros i Hx. specialize (Hrow i Hx (fun H => H)). unfold labels in *. destruct (Hall i) as [Hp|(x & b & k & Hp)];
      [by apply philosophers_idx| |]; rewrite Hp in *; cbn in *.
    - destruct Hrow as (n & [[Hs Hq]|[_ Hq]]); [|discriminate Hq]. rewrite Hs. repeat split; try done; by intros [=].
    - destruct Hrow as (n & Hs & _). rewrite Hs. repeat split; try done; by intros [=]. }
  intros i Hx. rewrite (mi_prog _ _ _ _ _ _ Hi i Hx). apply philosophers_idx in Hx.
  destruct (Hall i) as [->|(x & b & k & Hp)]; [by apply philosophers_idx|done|]. exfalso.
  destruct (Hlab i Hx) as (_ & _ & _ & Hh). destruct (Hf i Hx) as [He|[He|[[]|(s & k' & Hs & _ & HL)]]].
  - apply Hh. by rewrite Hp.
  - by destruct (Hlab (LEFT i) (LEFT_idx i)) as [Hne _].
  - by destruct (Hlab (RIGHT i) (RIGHT_idx i)) as [Hne _].
  - destruct (Hlab s Hs) as (_ & _ & Hne & _). by apply Hne in HL.
Qed.

(** ** The length of a run *)
Definition round_length : nat := 37.

Lemma short_le {Sem Store} (p : prog Sem Store) : forall n m, short n p -> (n <= m)%nat -> short m p.
Proof.
  revert p. fix IH 1. intros [|f|e k|x k|x k] [|n] [|m] Hs Hle; cbn in Hs |- *; try done; try lia; try (eapply IH; [exact Hs|lia]).
  intros st. specialize (Hs st). destruct (f st) as [st' p']. eapply IH; [exact Hs|lia].
Qed.

Lemma short_seq {Sem Store} (p q : prog Sem Store) : forall n m, short n p -> short m q -> short (n + m) (seq p q).
Proof.
  revert p. fix IH 1. intros [|f|e k|x k|x k] n m Hp Hq; cbn [seq]; [eapply short_le; [exact Hq|lia]|..];
    (destruct n as [|n]; [done|]); cbn in Hp |- *; try by apply IH.
  intros st. specialize (Hp st). destruct (f st) as [st' p']. by apply IH.
Qed.

Ltac run_short := repeat first
  [ exact I
  | progress (intros; cbn)
  | match goal with |- context [if ?b then _ else _] => destruct b end ].

Lemma cond_signal_short x : short 5 (@cond_signal states x).
Proof. run_short. Qed.
Lemma cond_wait_short x : short 5 (@cond_wait states x).
Proof. run_short. Qed.
Lemma pass_on_short : short 2 (@pass_on states).
Proof. run_short. Qed.

Lemma routine_short n (b : body states) : short n (compile b) -> short (3 + n) (routine b).
Proof. intros Hb. change (short (2 + n) (compile b ;> pass_on)%prog). rewrite Nat.add_comm. by apply short_seq, pass_on_short. Qed.

Fixpoint body_short (n : nat) (b : body states) : Prop :=
  match b with
  | BRet => True
  | BAct f => match n with S n' => forall d, let '(_, b') := f d in body_short n' b' | O => False end
  | BWait _ k | BSignal _ k => (5 <= n)%nat /\ body_short (n - 5) k
  end.

Lemma compile_short b : forall n, body_short n b -> short n (compile b).
Proof.
  revert b. fix IH 1. intros [|f|x b|x b] n Hn; cbn [compile]; [by destruct n|..].
  - destruct n as [|n]; [done|]. intros m. specialize (Hn (data m)). destruct (f (data m)) as [d b']. by apply IH.
  - destruct Hn as [Hle Hn]. replace n with (5 + (n - 5))%nat by lia. apply short_seq; [apply cond_wait_short|by apply IH].
  - destruct Hn as [Hle Hn]. replace n with (5 + (n - 5))%nat by lia. apply short_seq; [apply cond_signal_short|by apply IH].
Qed.

Lemma test_short n i b : body_short n b -> body_short (7 + n) (phi_test_condvar i ;;> b)%body.
Proof.
  assert (Hle : forall b n m, body_short n b -> (n <= m)%nat -> body_short m b).
  { clear. fix IH 1. intros [|f|x b|x b] n m Hs Hle; cbn in Hs |- *; [done| |..].
    - destruct n as [|n], m as [|m]; try done; try lia. intros d. specialize (Hs d). destruct (f d). eapply IH; [done|lia].
    - destruct Hs as [? Hs]. split; [lia|]. eapply IH; [done|lia].
    - destruct Hs as [? Hs]. split; [lia|]. eapply IH; [done|lia]. }
  intros Hb d. destruct (may_eat i d); [|by apply (Hle _ n); [|lia]]. intros d'. split; [lia|]. by apply (Hle _ n); [|lia].
Qed.

Lemma take_short i : short 14 (compile (phi_take_forks_condvar i)).
Proof.
  apply compile_short. intros d. apply (test_short 6). intros d'. destruct (d' i =? HUNGRY); [|done]. split; [lia|done].
Qed.
Lemma put_short i : short 15 (compile (phi_put_forks_condvar i)).
Proof.
  apply compile_short. intros d. apply (test_short 7). rewrite <- (bseq_ret (phi_test_condvar (RIGHT i))). by apply (test_short 0).
Qed.

Lemma short_sleep {Sem Store} n e (k : prog Sem Store) : short n k -> short (S n) (Sleep e k).
Proof. done. Qed.

Lemma philosopher_short n i : short (n * round_length) (run_client (philosopher_using_condvar n i)).
Proof.
  induction n as [|n IH]; [done|]. replace (S n * round_length)%nat with (S (17 + S (18 + n * round_length))) by (unfold round_length; lia).
  cbn [philosopher_using_condvar run_client]. apply short_sleep, short_seq; [apply (routine_short 14), take_short|].
  apply short_sleep, short_seq; [apply (routine_short 15), put_short|done].
Qed.

(** C5 The dinner ends: no execution of the threads of
    [philosopher_using_condvar] has more than 740 steps, whatever the interleaving, and
    where no thread can move every philosopher has had his [TIMES] meals and ended: no
    signal is lost and nobody waits for ever. *)
Theorem dinner_condvar_ends n c : nsteps (steps_to cv_sems philosophers) n start_condvar c ->
  (n <= 740)%nat /\ ((forall t, t ∈ philosophers -> step cv_sems t c = None) -> finished_condvar c).
Proof.
  intros Hn. split.
  - apply (steps_bounded cv_sems philosophers n _ _ (fun _ => TIMES * round_length)%nat (proj2 philosophers_short) Hn).
    intros t _. apply philosopher_short.
  - apply dinner_stuck. apply rtc_nsteps. by exists n.
Qed.

(** ** Witnesses: a run in which the first thread that can move does *)
Fixpoint first_step_cv (ts : list Z) (c : config msem (monitor states)) : option (config msem (monitor states)) :=
  match ts with
  | [] => None
  | t :: ts' => match step cv_sems t c with Some c' => Some c' | None => first_step_cv ts' c end
  end.
Fixpoint run_cv (n : nat) (c : config msem (monitor states)) : nat * config msem (monitor states) :=
  match n with
  | O => (O, c)
  | S n' => match first_step_cv philosophers c with Some c' => let '(k, d) := run_cv n' c' in (S k, d) | None => (O, c) end
  end.

Lemma first_step_cv_step ts c c' : first_step_cv ts c = Some c' -> exists t, t ∈ ts /\ step cv_sems t c = Some c'.
Proof.
  induction ts as [|t ts IH]; [done|]. cbn. destruct (step cv_sems t c) as [d|] eqn:Hs.
  - intros [= <-]. exists t. split; [left|done].
  - intros Hf. destruct (IH Hf) as (u & Hu & Hc). exists u. split; [by right|done].
Qed.

Lemma run_cv_steps n : forall c, nsteps (steps_to cv_sems philosophers) (fst (run_cv n c)) c (snd (run_cv n c)).
Proof.
  induction n as [|n IH]; intros c; cbn [run_cv]; [constructor|].
  destruct (first_step_cv philosophers c) as [d|] eqn:Hf; [|constructor].
  specialize (IH d). destruct (run_cv n d) as [k e]. cbn in *. econstructor; [|exact IH]. by apply first_step_cv_step.
Qed.

Lemma dinner_condvar_ends_witness : let c := snd (run_cv 800 start_condvar) in
  fst (run_cv 800 start_condvar) = 320%nat /\ finished_condvar c.
Proof.
  cbv zeta. split; [vm_compute; reflexivity|]. apply (dinner_condvar_ends (fst (run_cv 800 start_condvar))); [apply run_cv_steps|].
  intros t Ht. unfold philosophers in Ht. apply elem_of_seqZ in Ht.
  assert (Hcase : t = 0 \/ t = 1 \/ t = 2 \/ t = 3 \/ t = 4) by (unfold N in Ht; lia).
  destruct Hcase as [->|[->|[->|[->| ->]]]]; vm_compute; reflexivity.
Defined.

Lemma sleeping {Sem Store} (p : prog Sem Store) : match p with Sleep true _ => true | _ => false end = true -> exists k, p = Sleep true k.
Proof. destruct p as [| |[] k| |]; try done. by exists k. Qed.
Lemma acting {Sem Store} (p : prog Sem Store) : match p with Act _ => true | _ => false end = true -> exists f, p = Act f.
Proof. destruct p as [|f| | |]; try done. by exists f. Qed.

(** After 9 steps of that run philosopher 0 is eating, so 1 is not. *)
Lemma neighbours_never_eat_condvar_witness : let c := snd (run_cv 9 start_condvar) in
  eating_condvar c 0 /\ ~ (eating_condvar c 0 /\ eating_condvar c (RIGHT 0)).
Proof.
  cbv zeta. split.
  - split; [|apply sleeping]; vm_compute; reflexivity.
  - apply neighbours_never_eat_condvar; [|apply philosophers_idx; unfold idx, N; lia].
    apply rtc_nsteps. eexists. exact (run_cv_steps 9 start_condvar).
Defined.

Lemma test_in_range i b : idx i -> cv_in_range N b -> cv_in_range N (phi_test_condvar i ;;> b)%body.
Proof. intros Hi Hb d. destruct (may_eat i d); [|done]. intros d'. split; done. Qed.

Lemma philosopher_in_range n i : idx i -> calls_in_range N (philosopher_using_condvar n i).
Proof.
  intros Hi. induction n as [|n IH]; [done|]. cbn [philosopher_using_condvar calls_in_range]. split; [|split; [|done]].
  - intros d. apply test_in_range; [done|]. intros d'. destruct (d' i =? HUNGRY); [split|]; done.
  - intros d. apply test_in_range; [apply LEFT_idx|]. rewrite <- (bseq_ret (phi_test_condvar (RIGHT i))).
    apply test_in_range; [apply RIGHT_idx|done].
Qed.

(** Philosopher 0 has entered the monitor, so 1 is not inside. *)
Lemma monitor_exclusive_witness : let c := snd (run_cv 2 start_condvar) in
  inside N c 0 /\ (inside N c 1 -> 0 = 1).
Proof.
  cbv zeta. assert (H0 : inside N (snd (run_cv 2 start_condvar)) 0) by (split; [|apply acting]; vm_compute; reflexivity).
  split; [done|]. intros H1.
  refine (proj1 (monitor_exclusive N philosophers (fun _ => THINKING) (philosopher_using_condvar TIMES) _
    (proj2 philosophers_short) (proj1 philosophers_short) _ _) 0 1 _ _ H0 H1).
  - intros t Ht%philosophers_idx. by apply philosopher_in_range.
  - apply rtc_nsteps. eexists. exact (run_cv_steps 2 start_condvar).
  - apply philosophers_idx. unfold idx, N. lia.
  - apply philosophers_idx. unfold idx, N. lia.
Defined.
