(* ===== verification/Exec.v ===== *)
(** * Loading programs ([load_icode] of kern/process/proc.c, libs/elf.h)

    From an open file to an address space: the ELF headers, the pages of the
    segments, the user stack with the arguments.  The kernel's memory is that of the
    page tables ([PageTable]); the headers lie on the kernel stack, at the addresses
    [elf] and [ph].  What [kmalloc] gives to each read, and whether it gives an area,
    are arguments, numbered in the order of the calls. *)
From S2P Require Import Prelude CList Libs Mem DefaultPmm Disk SfsDir Inode Vfs VfsSpec File FileSpec Vmm VmmSpec Sysfile Process PageTable PageTableSpec.

Definition USTACKTOP : Z := USERTOP.
Definition USTACKPAGE : Z := 256.
Definition USTACKSIZE : Z := USTACKPAGE * PGSIZE.
Definition EXEC_MAX_ARG_NUM : Z := 32.
Definition EXEC_MAX_ARG_LEN : Z := 4095.
Definition ELF_MAGIC : Z := 0x464C457F.
Definition ELF_PT_LOAD : Z := 1.
Definition ELF_PF_X : Z := 1.
Definition ELF_PF_W : Z := 2.
Definition ELF_PF_R : Z := 4.

(** [struct elfhdr] and [struct proghdr], the fields that are used. *)
Definition sizeof_elfhdr : Z := 64.
Definition sizeof_proghdr : Z := 56.
Record elfhdr := mkElf { e_magic : Z; e_entry : Z; e_phoff : Z; e_phnum : Z }.
Definition elf_at (m : mem) (a : Z) : elfhdr :=
  mkElf (get32 m a) (le_get m (a + 24) 8) (le_get m (a + 32) 8) (get16 m (a + 56)).
Record proghdr := mkPh { p_type : Z; p_flags : Z; p_offset : Z; p_va : Z; p_filesz : Z; p_memsz : Z }.
Definition ph_at (m : mem) (a : Z) : proghdr :=
  mkPh (get32 m a) (get32 m (a + 4)) (le_get m (a + 8) 8) (le_get m (a + 16) 8) (le_get m (a + 32) 8) (le_get m (a + 40) 8).

Definition bit (x f : Z) : bool := negb (Z.land x f =? 0).
Definition set_if (b : bool) (f x : Z) : Z := if b then Z.lor x f else x.
Definition segment_vm_flags (flags : Z) : Z :=
  set_if (bit flags ELF_PF_R) VM_READ (set_if (bit flags ELF_PF_W) VM_WRITE (set_if (bit flags ELF_PF_X) VM_EXEC 0)).
Definition segment_perm (vm_flags : Z) : Z :=
  set_if (bit vm_flags VM_EXEC) PTE_X (set_if (bit vm_flags VM_WRITE) PTE_W
    (set_if (bit vm_flags VM_READ) PTE_R (Z.lor PTE_U PTE_V))).

(** ** The arguments on the user stack *)

(** The strings from the top down: the new head and the address of each string. *)
Fixpoint push_strings (m : mem) (head : Z) (kargv : list mem) : mem * Z * list Z :=
  match kargv with
  | [] => (m, head, [])
  | k :: l =>
      let len := strnlen k 0 (Z.to_nat (EXEC_MAX_ARG_LEN + 1)) + 1 in
      let head := head - len in
      let '(m, h, ps) := push_strings (copy m head k 0 len) head l in
      (m, h, head :: ps)
  end.

Fixpoint store_argv (m : mem) (a : Z) (l : list Z) : mem :=
  match l with
  | [] => m
  | v :: l' => store_argv (le_put m a 8 v) (a + 8) l'
  end.

(** [kstacktop] is the end of the top page of the user stack, as the kernel sees it. *)
Definition user_address (kstacktop a : Z) : Z := USTACKTOP - (kstacktop - a).
Definition push_args (m : mem) (kstacktop : Z) (kargv : list mem) : mem * Z :=
  let argc := Z.of_nat (length kargv) in
  let '(m, head, ps) := push_strings m kstacktop kargv in
  let head := ROUNDDOWN head 8 in
  let argv_array := head - (argc + 1) * 8 in
  let m := store_argv m argv_array ((user_address kstacktop <$> ps) ++ [0]) in
  let head := argv_array - 4 in
  (put32 m head argc, user_address kstacktop head).

Section exec.
  Context {W A : Type} `{Inodes W} `{PmmManager A} (npage boot_pgdir : Z).
  Context (elf ph : Z) (buffers : nat -> option mem) (rooms : nat -> bool).

(** The files, the memory and its page tables, the new areas and their page
    directory, and the numbers of allocations done. *)
Record loading := mkLoading {
  l_fs : vfs W; l_mach : machine A; l_mm : mm_struct; l_pgdir : Z; l_reads : nat; l_rooms : nat }.
Implicit Types s : loading.

Definition on_mach {X} (op : ST (machine A) X) : ST loading X := fun s =>
  match op (l_mach s) with
  | Done (x, a) => Done (x, mkLoading (l_fs s) a (l_mm s) (l_pgdir s) (l_reads s) (l_rooms s))
  | Panicked => Panicked
  | NoFuel => NoFuel
  end.
Definition on_areas {X} (op : ST mm_struct X) : ST loading X := fun s =>
  match op (l_mm s) with
  | Done (x, a) => Done (x, mkLoading (l_fs s) (l_mach s) a (l_pgdir s) (l_reads s) (l_rooms s))
  | Panicked => Panicked
  | NoFuel => NoFuel
  end.
Definition set_l_pgdir a s : loading := mkLoading (l_fs s) (l_mach s) (l_mm s) a (l_reads s) (l_rooms s).
Definition set_words (m : mem) (x : machine A) : machine A := mkMachine m (phys x).

(** A file system call on kernel memory: the process has no areas yet. *)
Definition on_file {X} (op : ST (sys W) X) : ST loading X := fun s =>
  match op (mkSys (l_fs s) None (words (l_mach s)) 0) with
  | Done (x, y) => Done (x, mkLoading (vfs_of y) (set_words (Sysfile.ram y) (l_mach s)) (l_mm s) (l_pgdir s) (S (l_reads s)) (l_rooms s))
  | Panicked => Panicked
  | NoFuel => NoFuel
  end.

Definition load_icode_read (fd buf len offset : Z) : ST loading Z :=
  ret ← on_file (sysfile_seek fd offset LSEEK_SET);
  if negb (ret =? 0) then mret ret
  else
    n ← get l_reads;
    ret ← on_file (sysfile_read (buffers n) fd buf len);
    if negb (u64 ret =? len) then mret (if ret <? 0 then ret else -1) else mret 0.

Definition map_area (addr len flags : Z) : ST loading Z :=
  n ← get l_rooms;
  modify (fun s => mkLoading (l_fs s) (l_mach s) (l_mm s) (l_pgdir s) (l_reads s) (S (l_rooms s))) ;;
  '(ret, _) ← on_areas (mm_map (rooms n) addr len flags);
  mret ret.

(** ** Segments *)

(** The page at [la] of a segment that has [len] bytes of the file, from [offset] on, at [va]. *)
Definition load_page (fd va len offset la perm : Z) : ST loading Z :=
  pgdir ← get l_pgdir;
  o ← on_mach (pgdir_alloc_page npage pgdir la perm);
  match o with
  | None => mret (- E_NO_MEM)
  | Some page =>
      kva ← on_mach (page2kva npage page);
      let end_va := u64 (va + len) in
      let page_start := la in
      let page_end := u64 (la + PGSIZE) in
      let valid_start := if va <? page_start then page_start else va in
      let valid_end := if page_end <? end_va then page_end else end_va in
      let zero a n := on_mach (modify (fun x => set_words (fill (words x) a n 0) x)) in
      if valid_start <? valid_end then
        ret ← load_icode_read fd (u64 (kva + (valid_start - page_start))) (valid_end - valid_start)
                (s64 (offset + (valid_start - va)));
        if negb (ret =? 0) then mret ret
        else
          (if page_start <? valid_start then zero kva (valid_start - page_start) else mret tt) ;;
          (if valid_end <? page_end then zero (u64 (kva + (valid_end - page_start))) (page_end - valid_end) else mret tt) ;;
          mret 0
      else zero kva PGSIZE ;; mret 0
  end.

Fixpoint load_pages (fuel : nat) (fd va len offset la end_ perm : Z) : ST loading Z :=
  if la <? end_ then
    match fuel with
    | O => no_fuel
    | S fuel' =>
        ret ← load_page fd va len offset la perm;
        if negb (ret =? 0) then mret ret
        else load_pages fuel' fd va len offset (u64 (la + PGSIZE)) end_ perm
    end
  else mret 0.

(** One turn per page. *)
Definition load_segment (fd : Z) (p : proghdr) : ST loading Z :=
  if p_memsz p <? p_filesz p then mret (- E_INVAL_ELF)
  else
    let vm_flags := segment_vm_flags (p_flags p) in
    ret ← map_area (p_va p) (p_memsz p) vm_flags;
    if negb (ret =? 0) then mret ret
    else
      let start := ROUNDDOWN (p_va p) PGSIZE in
      let end_ := ROUNDUP (u64 (p_va p + p_memsz p)) PGSIZE in
      load_pages (turns start end_) fd (p_va p) (p_filesz p) (s64 (p_offset p)) start end_ (segment_perm vm_flags).

Fixpoint load_segments (k : nat) (fd i : Z) : ST loading Z :=
  match k with
  | O => mret 0
  | S k' =>
      e ← get (fun s => elf_at (words (l_mach s)) elf);
      ret ← load_icode_read fd ph sizeof_proghdr (s64 (e_phoff e + sizeof_proghdr * i));
      if negb (ret =? 0) then mret ret
      else
        p ← get (fun s => ph_at (words (l_mach s)) ph);
        ret ← (if negb (p_type p =? ELF_PT_LOAD) then mret 0 else load_segment fd p);
        if negb (ret =? 0) then mret ret else load_segments k' fd (i + 1)
  end.

(** ** The stack *)
Definition stack_page (la : Z) : ST loading unit :=
  pgdir ← get l_pgdir;
  o ← on_mach (pgdir_alloc_page npage pgdir la PTE_USER);
  match o with Some _ => mret tt | None => panic end.

(** The code and, once it is 0, the user's stack pointer. *)
Definition setup_stack (kargv : list mem) : ST loading (Z * Z) :=
  ret ← map_area (USTACKTOP - USTACKSIZE) USTACKSIZE (Z.lor (Z.lor VM_READ VM_WRITE) VM_STACK);
  if negb (ret =? 0) then mret (ret, 0)
  else
    stack_page (USTACKTOP - PGSIZE) ;;
    stack_page (USTACKTOP - 2 * PGSIZE) ;;
    stack_page (USTACKTOP - 3 * PGSIZE) ;;
    stack_page (USTACKTOP - 4 * PGSIZE) ;;
    pgdir ← get l_pgdir;
    '(page, _) ← on_mach (get_page npage pgdir (USTACKTOP - PGSIZE));
    match page with
    | None => panic
    | Some page =>
        kva ← on_mach (page2kva npage page);
        m ← get (fun s => words (l_mach s));
        let '(m, sp) := push_args m (kva + PGSIZE) kargv in
        on_mach (modify (set_words m)) ;;
        mret (0, sp)
    end.

(** ** The whole *)
Definition new_pgdir : ST loading Z :=
  o ← on_mach alloc_page;
  match o with
  | None => mret (- E_NO_MEM)
  | Some page =>
      pgdir ← on_mach (page2kva npage page);
      on_mach (modify (fun x => set_words (copy (words x) pgdir (words x) boot_pgdir PGSIZE) x)) ;;
      modify (set_l_pgdir pgdir) ;;
      mret 0
  end.
Definition kva2page (a : Z) : ST (machine A) Z := assert (KERNBASE <=? a) ;; pa2page npage (u64 (a - PHYSICAL_MEMORY_OFFSET)).
Definition drop_pgdir : ST loading unit :=
  pgdir ← get l_pgdir; page ← on_mach (kva2page pgdir); on_mach (free_page page).
Definition drop_mappings : ST loading unit :=
  pgdir ← get l_pgdir;
  x ← get l_mm;
  on_mach (exit_mmap (fun a b => unmap_range npage pgdir a b ;; mret 0) (fun a b => exit_range npage pgdir a b ;; mret 0) x).
Definition drop_areas : ST loading unit := on_areas mm_destroy.

(** [tf->gpr.sp] and [tf->epc] of the trap frame the program starts with. *)
Record start_frame := mkFrame { tf_sp : Z; tf_epc : Z }.

(** [mm]: whether there is room for it and what its [locked_by] held. *)
Definition load_icode (mm_room : bool) (junk fd : Z) (kargv : list mem) : ST loading (Z * option start_frame) :=
  assert (Z.of_nat (length kargv) <=? EXEC_MAX_ARG_NUM) ;;
  match mm_create mm_room junk with
  | None => mret (- E_NO_MEM, None)
  | Some x =>
      modify (fun s => mkLoading (l_fs s) (l_mach s) x (l_pgdir s) (l_reads s) (l_rooms s)) ;;
      ret ← new_pgdir;
      if negb (ret =? 0) then drop_areas ;; mret (- E_NO_MEM, None)
      else
        ret ← load_icode_read fd elf sizeof_elfhdr 0;
        if negb (ret =? 0) then drop_pgdir ;; drop_areas ;; mret (ret, None)
        else
          e ← get (fun s => elf_at (words (l_mach s)) elf);
          if negb (e_magic e =? ELF_MAGIC) then drop_pgdir ;; drop_areas ;; mret (- E_INVAL_ELF, None)
          else
            ret ← load_segments (Z.to_nat (e_phnum e)) fd 0;
            if negb (ret =? 0) then drop_mappings ;; drop_pgdir ;; drop_areas ;; mret (ret, None)
            else
              '(ret, sp) ← setup_stack kargv;
              if negb (ret =? 0) then drop_mappings ;; drop_pgdir ;; drop_areas ;; mret (ret, None)
              else
                on_areas (modify (fun x => mkMm (mmap_list x) (mmap_cache x) (map_count x) (s32 (mm_count x + 1)) (mm_sem x) (locked_by x))) ;;
                e ← get (fun s => elf_at (words (l_mach s)) elf);
                mret (0, Some (mkFrame sp (e_entry e)))
  end.
End exec.
Arguments loading : clear implicits.

(** ** Loading programs, specified

    What a program finds on its stack, and the contents of the pages of its segments. *)

(** ** The arguments *)

(** The bytes of an argument with its terminating 0. *)
Definition arg_len (k : mem) : Z := strnlen k 0 (Z.to_nat (EXEC_MAX_ARG_LEN + 1)) + 1.
Fixpoint args_len (l : list mem) : Z :=
  match l with [] => 0 | k :: l' => arg_len k + args_len l' end.

Lemma strnlen_range k n : forall a, 0 <= strnlen k a n <= Z.of_nat n.
Proof. induction n as [|n IH]; intros a; cbn [strnlen]; [lia|]. specialize (IH (a + 1)). destruct (k a =? 0); lia. Qed.

Lemma arg_len_range k : 1 <= arg_len k <= 4097.
Proof. unfold arg_len, EXEC_MAX_ARG_LEN. pose proof (strnlen_range k (Z.to_nat (4095 + 1)) 0). lia. Qed.

Lemma args_len_nonneg l : 0 <= args_len l.
Proof. induction l as [|k l IH]; cbn; [lia|]. pose proof (arg_len_range k). lia. Qed.

Record pushed (m : mem) (head : Z) (l : list mem) (m' : mem) (h : Z) (ps : list Z) : Prop := mkPushed {
  pu_head : h = head - args_len l;
  pu_len : length ps = length l;
  pu_arg i k p : l !! i = Some k -> ps !! i = Some p -> h <= p /\ p + arg_len k <= head /\
    forall j, 0 <= j < arg_len k -> m' (p + j) = k j;
  pu_out a : a < h \/ head <= a -> m' a = m a }.

Lemma push_strings_run l : forall m head, let '(m', h, ps) := push_strings m head l in pushed m head l m' h ps.
Proof.
  induction l as [|k l IH]; intros m head; cbn [push_strings].
  { split; cbn; [lia|done|done|done]. }
  change (strnlen k 0 (Z.to_nat (EXEC_MAX_ARG_LEN + 1)) + 1) with (arg_len k).
  pose proof (arg_len_range k) as Hk. pose proof (args_len_nonneg l) as Hl.
  specialize (IH (copy m (head - arg_len k) k 0 (arg_len k)) (head - arg_len k)).
  destruct (push_strings _ _ l) as [[m' h] ps]. destruct IH as [Hh Hlen Harg Hout]. split.
  - cbn [args_len]. lia.
  - cbn. by rewrite Hlen.
  - intros [|i] k' p Hk' Hp; cbn in Hk', Hp.
    + injection Hk' as <-. injection Hp as <-. split; [lia|]. split; [lia|]. intros j Hj. rewrite Hout by lia.
      rewrite Mem.copy_in by lia. f_equal. lia.
    + destruct (Harg i k' p Hk' Hp) as (H1 & H2 & H3). split; [lia|]. split; [lia|done].
  - intros a Ha. rewrite Hout by lia. apply Mem.copy_out. lia.
Qed.

Lemma store_argv_out l : forall m a x, x < a \/ a + 8 * Z.of_nat (length l) <= x -> store_argv m a l x = m x.
Proof.
  induction l as [|v l IH]; intros m a x Hx; [done|]. cbn [store_argv length] in *. rewrite IH by lia. apply le_put_out. lia.
Qed.

Lemma store_argv_get l : forall m a i v, l !! i = Some v -> 0 <= v < 2 ^ 64 -> le_get (store_argv m a l) (a + 8 * Z.of_nat i) 8 = v.
Proof.
  induction l as [|w l IH]; intros m a [|i] v Hi Hv; try done; cbn [store_argv].
  - injection Hi as ->. rewrite Z.mul_0_r, Z.add_0_r. rewrite (le_get_ext _ (le_put m a 8 v)); [by apply le_get_put|].
    intros j Hj. apply store_argv_out. lia.
  - replace (a + 8 * Z.of_nat (S i)) with (a + 8 + 8 * Z.of_nat i) by lia. by apply IH.
Qed.

(** The top page of the user's stack is the page that ends at [kstacktop] in the
    kernel's memory [m]; the pages below it lie elsewhere.  Of that page: byte [u] is
    [v]; the little-endian word of [n] bytes at [u] is [v]. *)
Definition in_top_page (u n : Z) : Prop := USTACKTOP - PGSIZE <= u /\ u + n <= USTACKTOP.
Definition stack_byte (m : mem) (kstacktop u v : Z) : Prop := in_top_page u 1 /\ m (kstacktop - (USTACKTOP - u)) = v.
Definition stack_word (m : mem) (kstacktop u : Z) (n : nat) (v : Z) : Prop :=
  in_top_page u (Z.of_nat n) /\ le_get m (kstacktop - (USTACKTOP - u)) n = v.

(** What is pushed: the strings, up to a multiple of 8, the array with its 0, and [argc]. *)
Definition pushed_size (l : list mem) : Z := (args_len l + 7) / 8 * 8 + 8 * (Z.of_nat (length l) + 1) + 4.

Lemma push_args_run (m : mem) top l : top mod 8 = 0 -> Z.of_nat (length l) <= EXEC_MAX_ARG_NUM ->
  exists m' ps, push_args m top l = (m', USTACKTOP - pushed_size l) /\ length ps = length l /\
    get32 m' (top - pushed_size l) = Z.of_nat (length l) /\
    (forall i p, ps !! i = Some p -> le_get m' (top - pushed_size l + 4 + 8 * Z.of_nat i) 8 = user_address top p) /\
    le_get m' (top - pushed_size l + 4 + 8 * Z.of_nat (length l)) 8 = 0 /\
    (forall i k p, l !! i = Some k -> ps !! i = Some p -> top - args_len l <= p /\ p + arg_len k <= top /\
       forall j, 0 <= j < arg_len k -> m' (p + j) = k j) /\
    (forall a, a < top - pushed_size l \/ top <= a -> m' a = m a).
Proof.
  unfold EXEC_MAX_ARG_NUM. intros Htop Hlen. unfold push_args. pose proof (push_strings_run l m top) as Hp. pose proof (args_len_nonneg l) as Hnn.
  assert (Hmax : args_len l <= 4097 * Z.of_nat (length l)).
  { clear. induction l as [|k l IH]; cbn [args_len length]; [lia|]. pose proof (arg_len_range k). lia. }
  destruct (push_strings m top l) as [[m1 h] ps]. destruct Hp as [Hh Hps Harg Hout].
  assert (Hround : ROUNDDOWN h 8 = top - (args_len l + 7) / 8 * 8).
  { unfold ROUNDDOWN. subst h. Z.to_euclidean_division_equations. lia. }
  assert (Hlow : ROUNDDOWN h 8 <= h) by (unfold ROUNDDOWN; pose proof (Z.mod_pos_bound h 8 eq_refl); lia).
  set (argv := ROUNDDOWN h 8 - (Z.of_nat (length l) + 1) * 8).
  assert (Hargv : argv = top - pushed_size l + 4) by (unfold argv, pushed_size; rewrite Hround; lia).
  set (words := (user_address top <$> ps) ++ [0]).
  assert (Hwl : Z.of_nat (length words) = Z.of_nat (length l) + 1) by (unfold words; rewrite length_app, length_fmap; cbn; lia).
  assert (Hend : argv + 8 * Z.of_nat (length words) <= h) by (rewrite Hwl; unfold argv; lia).
  assert (Hput : forall a, argv <= a -> put32 (store_argv m1 argv words) (argv - 4) (Z.of_nat (length l)) a = store_argv m1 argv words a).
  { intros a Ha. apply le_put_out. lia. }
  exists (put32 (store_argv m1 argv words) (argv - 4) (Z.of_nat (length l))), ps.
  assert (Hget : forall i v, words !! i = Some v -> 0 <= v < 2 ^ 64 ->
    le_get (put32 (store_argv m1 argv words) (argv - 4) (Z.of_nat (length l))) (argv + 8 * Z.of_nat i) 8 = v).
  { intros i v Hi Hv. rewrite (le_get_ext _ (store_argv m1 argv words)); [by apply store_argv_get|].
    intros j Hj. apply Hput. lia. }
  split; [|split; [done|split; [|split; [|split; [|split]]]]].
  - f_equal. unfold user_address. rewrite Hargv. lia.
  - replace (top - pushed_size l) with (argv - 4) by lia. apply le_get_put. cbn. lia.
  - intros i p Hi. rewrite <- Hargv. assert (Hil : (i < length ps)%nat) by (by eapply lookup_lt_Some). apply Hget.
    + unfold words. rewrite lookup_app_l by (by rewrite length_fmap). by rewrite list_lookup_fmap, Hi.
    + destruct (l !! i) as [k|] eqn:Hk; [|apply lookup_ge_None in Hk; lia].
      destruct (Harg i k p Hk Hi) as (H1 & H2 & _). pose proof (arg_len_range k). unfold user_address.
      change USTACKTOP with 0x80000000. lia.
  - rewrite <- Hargv. apply Hget; [|done]. unfold words. rewrite lookup_app_r by (rewrite length_fmap; lia).
    rewrite length_fmap, Hps. by rewrite Nat.sub_diag.
  - intros i k p Hk Hi. destruct (Harg i k p Hk Hi) as (H1 & H2 & H3). split; [lia|]. split; [done|]. intros j Hj.
    rewrite Hput by lia. rewrite store_argv_out by lia. by apply H3.
  - intros a Ha. unfold put32. rewrite le_put_out by lia. rewrite store_argv_out by lia. apply Hout. unfold pushed_size in Ha. lia.
Qed.

(** C18 What a program finds on its stack, when what is pushed fits in its top page.
    The user's stack pointer names the number of arguments; above it is the array of
    their addresses with a null pointer at its end; at each address, above the array
    and inside the page, are the bytes of the argument with its terminator.  Nothing
    outside the [pushed_size] bytes below the top is written.  The arguments are written
    through the kernel's address of the top page alone, and the pages of the stack are
    allocated one by one, so nothing is claimed beyond a page (see [push_args_overflow]). *)
Theorem push_args_readable (m : mem) top l :
  top mod PGSIZE = 0 -> Z.of_nat (length l) <= EXEC_MAX_ARG_NUM -> pushed_size l <= PGSIZE ->
  exists m' sp, push_args m top l = (m', sp) /\ sp = USTACKTOP - pushed_size l /\
    stack_word m' top sp 4 (Z.of_nat (length l)) /\
    stack_word m' top (sp + 4 + 8 * Z.of_nat (length l)) 8 0 /\
    (forall i k, l !! i = Some k -> exists p, stack_word m' top (sp + 4 + 8 * Z.of_nat i) 8 p /\
       sp + 12 + 8 * Z.of_nat (length l) <= p /\ forall j, 0 <= j < arg_len k -> stack_byte m' top (p + j) (k j)) /\
    (forall a, a < top - pushed_size l \/ top <= a -> m' a = m a).
Proof.
  intros Htop Hlen Hsize. assert (Htop8 : top mod 8 = 0) by (unfold PGSIZE in Htop; Z.to_euclidean_division_equations; lia).
  destruct (push_args_run m top l Htop8 Hlen) as (m' & ps & Hr & Hps & Hargc & Hptr & Hnull & Harg & Hout).
  exists m', (USTACKTOP - pushed_size l). do 2 (split; [done|]). pose proof (args_len_nonneg l) as Hnn.
  assert (Hbig : (args_len l + 7) / 8 * 8 >= args_len l) by (Z.to_euclidean_division_equations; lia).
  unfold stack_word, stack_byte, in_top_page, PGSIZE in *. split; [|split; [|split; [|done]]].
  - split; [unfold pushed_size in *; lia|]. by replace (top - (USTACKTOP - (USTACKTOP - pushed_size l))) with (top - pushed_size l) by lia.
  - split; [unfold pushed_size in *; lia|].
    by replace (top - _) with (top - pushed_size l + 4 + 8 * Z.of_nat (length l)) by lia.
  - intros i k Hk. assert (Hi := lookup_lt_Some _ _ _ Hk).
    destruct (ps !! i) as [p|] eqn:Hp; [|apply lookup_ge_None in Hp; lia].
    destruct (Harg i k p Hk Hp) as (H1 & H2 & H3). exists (user_address top p).
    split; [split; [unfold pushed_size in *; lia|]|].
    { replace (top - _) with (top - pushed_size l + 4 + 8 * Z.of_nat i) by lia. by apply Hptr. }
    unfold user_address. split; [unfold pushed_size; lia|]. intros j Hj. split; [unfold pushed_size in *; lia|].
    rewrite <- H3 by done. f_equal. lia.
Qed.

(** Arguments that need more than the page: [argc] goes below the page, over whatever
    is there. *)
Lemma push_args_overflow (m : mem) top l :
  top mod 8 = 0 -> Z.of_nat (length l) <= EXEC_MAX_ARG_NUM -> PGSIZE < pushed_size l ->
  exists m' sp a, push_args m top l = (m', sp) /\ a < top - PGSIZE /\ get32 m' a = Z.of_nat (length l).
Proof.
  intros Htop Hlen Hsize. destruct (push_args_run m top l Htop Hlen) as (m' & ps & Hr & _ & Hargc & _).
  exists m', (USTACKTOP - pushed_size l), (top - pushed_size l). split; [done|]. split; [lia|done].
Qed.

(** "sh" and "ab" below the end of a page. *)
Definition sample_arg (a b : Z) : mem := fun i => if i =? 0 then a else if i =? 1 then b else 0.
Definition sample_args : list mem := [sample_arg 115 104; sample_arg 97 98].
Definition sample_top : Z := 0xFFFFFFFFC0300000.
Lemma push_args_readable_witness :
  (let '(m', sp) := push_args (fun _ => 7) sample_top sample_args in
   (sp, le_get m' (sample_top - 0x20) 8, m' (sample_top - 3), m' (sample_top - 5))) = (0x7fffffdc, 0x7ffffffd, 115, 98) /\
  exists m' sp, push_args (fun _ => 7) sample_top sample_args = (m', sp) /\ sp = USTACKTOP - pushed_size sample_args /\
    stack_word m' sample_top sp 4 2 /\
    stack_word m' sample_top (sp + 4 + 8 * 2) 8 0 /\
    (forall i k, sample_args !! i = Some k -> exists p, stack_word m' sample_top (sp + 4 + 8 * Z.of_nat i) 8 p /\
       sp + 12 + 8 * 2 <= p /\ forall j, 0 <= j < arg_len k -> stack_byte m' sample_top (p + j) (k j)) /\
    (forall a, a < sample_top - pushed_size sample_args \/ sample_top <= a -> m' a = 7).
Proof.
  split; [vm_compute; reflexivity|].
  apply (push_args_readable (fun _ => 7) sample_top sample_args); [reflexivity|vm_compute; discriminate|vm_compute; discriminate].
Defined.
