(* ===== verification/KernelRead.v ===== *)
(** * Reading a file into the memory of the kernel

    What [load_icode_read] of kern/process/proc.c relies on: a kernel thread that seeks
    and reads in a file whose contents stay as they are gets these contents, through the
    descriptor, the buffer of [sysfile_read] and its loop. *)
From S2P Require Import Prelude Libs Mem Disk SfsDir Inode Vfs VfsSpec File FileSpec Vmm VmmSpec Process PageTable Exec Sysfile.

(** The [n] bytes from [a] on hold the bytes from [o] on of [byte]. *)
Definition holds_bytes (m : mem) (a : Z) (byte : Z -> Z) (o n : Z) : Prop := forall i, 0 <= i < n -> m (a + i) = byte (o + i).
(** And nothing else differs from [m]. *)
Definition bytes_written (m : mem) (a : Z) (byte : Z -> Z) (o n : Z) (m' : mem) : Prop :=
  holds_bytes m' a byte o n /\ forall x, x < a \/ a + n <= x -> m' x = m x.

Lemma bytes_written_0 m a byte o : bytes_written m a byte o 0 m.
Proof. split; [intros i Hi; lia|done]. Qed.
Lemma bytes_written_app m a byte o n k m1 m2 : 0 <= n -> 0 <= k ->
  bytes_written m a byte o n m1 -> bytes_written m1 (a + n) byte (o + n) k m2 -> bytes_written m a byte o (n + k) m2.
Proof.
  intros Hn Hk [H1 O1] [H2 O2]. split.
  - intros i Hi. destruct (decide (i < n)).
    + rewrite O2 by lia. apply H1. lia.
    + replace (a + i) with (a + n + (i - n)) by lia. replace (o + i) with (o + n + (i - n)) by lia. apply H2. lia.
  - intros x Hx. rewrite O2 by lia. apply O1. lia.
Qed.
Lemma bytes_written_copy m a byte o n buf : holds_bytes buf 0 byte o n -> bytes_written m a byte o n (copy m a buf 0 n).
Proof.
  intros Hb. split.
  - intros i Hi. rewrite Mem.copy_in by lia. rewrite <- Hb by lia. f_equal. lia.
  - intros x Hx. by rewrite Mem.copy_out by lia.
Qed.

Section kernel_read.
  Context {W A : Type} `{Inodes W} `{PmmManager A}.

(** Inode [n] is a file of the [size] bytes [byte] in the worlds of [K]: reading it in
    bounds succeeds and stays in [K], and so does seeking. *)
Record serves (K : W -> Prop) (n size : Z) (byte : Z -> Z) : Prop := mkServes {
  sv_read w m b len off : K w -> inodes_ok w -> 0 < opens w n -> 0 <= off -> 0 <= len -> off + len <= size ->
    exists iob w', vop_read n (iobuf_init m b len off) w = Done ((0, iob), w') /\ K w' /\
      iobuf_used iob = len /\ bytes_written m b byte off len (io_mem iob);
  sv_seek w p : K w -> inodes_ok w -> 0 < opens w n -> 0 <= p <= size ->
    exists w', vop_tryseek n p w = Done (0, w') /\ K w' /\ inodes_ok w' /\ forall k, opens w' k = opens w k }.

  Context (K : W -> Prop) (n size : Z) (byte : Z -> Z) (ext : Z -> Z) (fd : Z).
  Hypothesis Hserves : serves K n size byte.
  Hypothesis Hsize : size < 2 ^ 31.

(** Descriptor [fd] reads that file, from position [p] on. *)
Record reading (p : Z) (v : vfs W) : Prop := mkReading {
  rg_owns : owns ext v;
  rg_fd : 0 <= fd < NENTRY;
  rg_open : status (arr v fd) = FD_OPENED;
  rg_mode : readable (arr v fd) = true;
  rg_node : node (arr v fd) = Some n;
  rg_pos : pos (arr v fd) = p;
  rg_world : K (inodes v) }.

Lemma reading_stored p q v w' :
  reading p v -> owns ext (stored fd (set_pos q (arr v fd)) w' v) -> K w' -> reading q (stored fd (set_pos q (arr v fd)) w' v).
Proof. intros [? ? ? ? ? ? ?] Ho HK. split; try done; unfold stored, arr; cbn; by rewrite upd_eq. Qed.

Lemma reading_opens p v : reading p v -> 0 < opens (inodes v) n.
Proof.
  intros [Ho Hi Hst _ Hn _ _]. destruct (opened_entry ext v fd Ho Hi Hst) as (n' & Hn' & _ & _ & _ & Hp).
  assert (n' = n) as -> by congruence. exact Hp.
Qed.

Lemma file_seek_run p q v : reading p v -> 0 <= q <= size ->
  exists v', file_seek fd q LSEEK_SET v = Done (0, v') /\ reading q v'.
Proof.
  intros Hrg Hq. pose proof (reading_opens p v Hrg) as Hop. pose proof Hrg as [Ho Hi Hst _ Hn _ HK].
  destruct (sv_seek _ _ _ _ Hserves (inodes v) q HK (ow_ok _ _ Ho) Hop Hq) as (w' & Hs & HK' & Hok' & Hsame).
  destruct (opened_entry ext v fd Ho Hi Hst) as (_ & _ & Hc & Hfd & _).
  set (op := fun n f => '(ret, p) ← seek_pos n f q LSEEK_SET;
      if ret =? 0 then ret ← on_inodes (vop_tryseek n p); mret (ret, if ret =? 0 then set_pos p f else f) else mret (ret, f)).
  destruct (with_file_run ext v fd n op 0 (set_pos q (arr v fd)) w') as [Hw Ho']; try done.
  { change ((ret ← on_inodes (vop_tryseek n q); mret (ret, if ret =? 0 then set_pos q (set_count 2 (arr v fd)) else set_count 2 (arr v fd))) v
            = Done (0, set_count 2 (set_pos q (arr v fd)), set_inodes w' v)).
    erewrite bind_Done; [|unfold on_inodes; rewrite Hs; reflexivity]. done. }
  exists (stored fd (set_pos q (arr v fd)) w' v). split; [|by apply (reading_stored p)].
  unfold file_seek. mstep (fd2file_run v fd (ow_count _ _ Ho) (ow_table _ _ Ho)). by rewrite decide_True.
Qed.

Lemma file_read_bytes p m b len v : reading p v -> 0 <= p -> 0 <= len -> p + len <= size ->
  exists m' v', file_read fd m b len v = Done ((0, len, m'), v') /\ reading (p + len) v' /\ bytes_written m b byte p len m'.
Proof.
  intros Hrg Hp Hl Hpl. pose proof (reading_opens p v Hrg) as Hop. pose proof Hrg as [Ho Hi Hst Hrd Hn Hpos HK].
  destruct (sv_read _ _ _ _ Hserves (inodes v) m b len p HK (ow_ok _ _ Ho) Hop Hp Hl Hpl) as (iob & w' & Hr & HK' & Hu & Hb).
  rewrite <- Hpos in Hr. destruct (file_read_run ext v fd m b len n 0 iob w' Ho Hi Hst Hrd Hn Hr) as [Hrun Ho'].
  rewrite Hu, Hpos, s64_small in Hrun, Ho' by lia.
  exists (io_mem iob). eexists. split; [exact Hrun|]. split; [|done]. by apply (reading_stored p).
Qed.

Lemma kern_mem_check_true a len : KERNBASE <= a -> 0 < len -> a + len <= KERNTOP -> kern_mem_check a len = true.
Proof.
  unfold kern_mem_check, KERN_ACCESS, KERNTOP, KERNBASE, KMEMSIZE. intros Ha Hl Hb. rewrite u64_small by lia.
  rewrite !andb_true_iff, !Z.leb_le, Z.ltb_lt. lia.
Qed.

(** The process is a kernel thread. *)
Lemma copy_out_kernel base buf len (s : sys W) : cur_mm s = None -> KERNBASE <= base -> 0 < len -> base + len <= KERNTOP ->
  copy_out base buf len s = Done (true, set_ram (copy (ram s) base buf 0 len) s).
Proof.
  intros Hmm Ha Hl Hb. unfold copy_out.
  assert (Hlock : lock_mm s = Done (tt, s)) by (unfold lock_mm; by rewrite Hmm). mstep Hlock.
  mstep (eq_refl : get ram s = Done (ram s, s)). unfold copy_to_user.
  assert (Hc : mem_check base len true s = Done (true, s)).
  { unfold mem_check. rewrite Hmm. by rewrite kern_mem_check_true. }
  rewrite (bind_Done _ _ s (true, copy (ram s) base buf 0 len) s) by (by mstep Hc). cbn beta iota.
  mstep (eq_refl : modify (set_ram (copy (ram s) base buf 0 len)) s = Done (tt, set_ram (copy (ram s) base buf 0 len) s)).
  assert (Hun : unlock_mm (set_ram (copy (ram s) base buf 0 len) s) = Done (tt, set_ram (copy (ram s) base buf 0 len) s))
    by (unfold unlock_mm; cbn; by rewrite Hmm).
  by mstep Hun.
Qed.

Lemma read_loop_bytes fuel : forall base len copied p buf (s : sys W),
  cur_mm s = None -> reading p (vfs_of s) -> KERNBASE <= base -> 0 <= len -> base + len <= KERNTOP ->
  0 <= p -> p + len <= size -> 0 <= copied -> copied + len < 2 ^ 64 -> len < Z.of_nat fuel ->
  exists s', read_loop fuel fd base len copied buf s = Done ((0, copied + len), s') /\ cur_mm s' = None /\
    reading (p + len) (vfs_of s') /\ bytes_written (ram s) base byte p len (ram s').
Proof.
  induction fuel as [|fuel IH]; intros base len copied p buf s Hmm Hrg Hb Hl Hbl Hp Hpl Hc Hcl Hf; [lia|].
  cbn [read_loop]. destruct (Z.eqb_spec len 0) as [->|Hnz].
  { exists s. rewrite !Z.add_0_r. do 3 (split; [done|]). apply bytes_written_0. }
  cbv zeta. set (k := if len <? IOBUF_SIZE then len else IOBUF_SIZE).
  assert (Hk : 0 < k <= len) by (unfold k, IOBUF_SIZE; destruct (Z.ltb_spec len 4096); lia).
  destruct (file_read_bytes p buf 0 k (vfs_of s) Hrg Hp ltac:(lia) ltac:(lia)) as (m' & v' & Hr & Hrg' & Hw).
  mstep (on_vfs_run _ s _ _ Hr). rewrite (proj2 (Z.eqb_neq k 0)) by lia.
  mstep (copy_out_kernel base m' k (set_vfs v' s) Hmm Hb ltac:(lia) ltac:(lia)).
  set (s1 := set_ram _ _).
  rewrite (bind_Done _ _ _ _ _ (assert_true _ s1 (proj2 (Z.leb_le k len) ltac:(lia)))). cbn [Z.eqb negb].
  unfold KERNTOP, KERNBASE, KMEMSIZE in Hb, Hbl. rewrite (u64_small (base + k)), (u64_small (copied + k)) by lia.
  destruct (IH (base + k) (len - k) (copied + k) (p + k) m' s1) as (s' & Hrun & Hmm' & Hrg2 & Hw2);
    try done; unfold KERNTOP, KERNBASE, KMEMSIZE; try lia.
  exists s'. replace (copied + len) with (copied + k + (len - k)) by lia. replace (p + len) with (p + k + (len - k)) by lia.
  do 3 (split; [done|]). replace len with (k + (len - k)) by lia. eapply bytes_written_app; [lia|lia| |exact Hw2].
  apply bytes_written_copy, Hw.
Qed.

Lemma sysfile_read_bytes base len p (buf : option mem) (s : sys W) :
  cur_mm s = None -> reading p (vfs_of s) -> KERNBASE <= base -> 0 < len -> base + len <= KERNTOP -> 0 <= p -> p + len <= size ->
  exists ret s', sysfile_read buf fd base len s = Done (ret, s') /\ cur_mm s' = None /\ (exists q, reading q (vfs_of s')) /\
    match buf with
    | None => ret = - E_NO_MEM /\ ram s' = ram s
    | Some _ => ret = len /\ bytes_written (ram s) base byte p len (ram s')
    end.
Proof.
  intros Hmm Hrg Hb Hl Hbl Hp Hpl. unfold sysfile_read. rewrite (proj2 (Z.eqb_neq len 0)) by lia.
  assert (Hrf : readable_file ext fd n (vfs_of s)) by (by destruct Hrg).
  mstep (on_vfs_run _ s _ _ (file_testfd_run ext (vfs_of s) fd n Hrf)). cbn [negb]. destruct buf as [buf|].
  - destruct (read_loop_bytes (S (Z.to_nat len)) base len 0 p buf (set_vfs (vfs_of s) s)) as (s' & Hr & Hmm' & Hrg' & Hw);
      try done; try lia.
    mstep Hr. rewrite Z.add_0_l, (proj2 (Z.eqb_neq len 0)) by lia. exists len, s'. cbn [negb]. rewrite s32_small by lia.
    do 2 (split; [done|]). split; [by eexists|done].
  - exists (- E_NO_MEM), (set_vfs (vfs_of s) s). do 2 (split; [done|]). split; [by exists p|done].
Qed.

(** ** [load_icode_read] *)
Implicit Types s : loading W A.

(** Only the memory between [buf] and [buf + len] may have changed, and the files. *)
Record read_done s (buf len offset ret : Z) s' : Prop := mkRead {
  rd_files : exists q, reading q (l_fs s');
  rd_phys : phys (l_mach s') = phys (l_mach s);
  rd_mm : l_mm s' = l_mm s;
  rd_pgdir : l_pgdir s' = l_pgdir s;
  rd_case : ret = - E_NO_MEM /\ words (l_mach s') = words (l_mach s) \/
            ret = 0 /\ bytes_written (words (l_mach s)) buf byte offset len (words (l_mach s')) }.

Lemma load_icode_read_run buffers buf len offset s :
  (exists q, reading q (l_fs s)) -> KERNBASE <= buf -> 0 < len -> buf + len <= KERNTOP -> 0 <= offset -> offset + len <= size ->
  exists ret s', load_icode_read buffers fd buf len offset s = Done (ret, s') /\ read_done s buf len offset ret s'.
Proof.
  intros [q Hrg] Hb Hl Hbl Ho Hol. unfold load_icode_read.
  destruct (file_seek_run q offset (l_fs s) Hrg ltac:(lia)) as (v1 & Hseek & Hrg1).
  set (y0 := mkSys (l_fs s) None (words (l_mach s)) 0).
  assert (Hs1 : sysfile_seek fd offset LSEEK_SET y0 = Done (0, set_vfs v1 y0)) by (by apply on_vfs_run).
  set (s1 := mkLoading v1 (set_words (words (l_mach s)) (l_mach s)) (l_mm s) (l_pgdir s) (S (l_reads s)) (l_rooms s)).
  assert (Hf1 : on_file (sysfile_seek fd offset LSEEK_SET) s = Done (0, s1)) by (unfold on_file; fold y0; by rewrite Hs1).
  mstep Hf1. cbn [Z.eqb negb]. mstep (eq_refl : get l_reads s1 = Done (l_reads s1, s1)).
  destruct (sysfile_read_bytes buf len offset (buffers (l_reads s1)) (mkSys (l_fs s1) None (words (l_mach s1)) 0))
    as (ret & y2 & Hread & Hmm2 & Hrg2 & Hcase); try done.
  set (s2 := mkLoading (vfs_of y2) (set_words (ram y2) (l_mach s1)) (l_mm s) (l_pgdir s) (S (l_reads s1)) (l_rooms s)).
  assert (Hf2 : on_file (sysfile_read (buffers (l_reads s1)) fd buf len) s1 = Done (ret, s2)) by (unfold on_file; by rewrite Hread).
  mstep Hf2. destruct (buffers (l_reads s1)) as [m|].
  - destruct Hcase as [-> Hw]. rewrite u64_small, Z.eqb_refl by lia. cbn [negb]. exists 0, s2. split; [done|]. split; try done. by right.
  - destruct Hcase as [-> Hw]. exists (- E_NO_MEM), s2.
    rewrite (proj2 (Z.eqb_neq (u64 (- E_NO_MEM)) len)) by (change (u64 (- E_NO_MEM)) with (2 ^ 64 - 4); lia). cbn [negb].
    split; [done|]. split; try done. by left.
Qed.
End kernel_read.
