(* ===== verification/LoadSpec.v ===== *)
(** * Loading programs, specified: the segments

    Every page of a segment gets memory of its own that holds the bytes of the file and
    zeros; what was mapped before stays, and what was in use keeps its contents. *)
From S2P Require Import Prelude Libs CList Mem DefaultPmm Disk SfsDir Inode Vfs VfsSpec File FileSpec Process PageTable PageTableSpec PagePmm PageData Vmm VmmSpec Exec Sysfile KernelRead.

Section load.
  Context {W A : Type} `{Inodes W} `{PmmManager A} `{!PmmLaws A} `{!PmmGives A} (npage boot_pgdir : Z).
  Hypothesis Hram : nbase < npage /\ npage * PGSIZE + PHYSICAL_MEMORY_OFFSET <= 2 ^ 64.
  (** All memory is mapped where the kernel may read files to. *)
  Hypothesis Htop : npage * PGSIZE + PHYSICAL_MEMORY_OFFSET <= KERNTOP.
  Context (K : W -> Prop) (n size : Z) (byte : Z -> Z) (ext : Z -> Z) (fd : Z).
  Hypothesis Hserves : serves K n size byte.
  Hypothesis Hsize : size < 2 ^ 31.
  Context (R elf ph : Z) (buffers : nat -> option mem) (rooms : nat -> bool).
  (** The pages of the kernel stack, where the two headers lie. *)
  Context (stack : Z -> Prop).
Definition in_header (a : Z) : Prop := ph <= a < ph + sizeof_proghdr.
  Hypothesis Hph : forall a, in_header a -> exists q, stack q /\ in_page q a.
  Hypothesis Hphlow : KERNBASE <= ph.
  Hypothesis Helf : forall a, elf <= a < elf + sizeof_elfhdr -> ~ in_header a /\ exists q, stack q /\ in_page q a.
  Implicit Types s : loading W A.

#[local] Arguments le_get _ _ _ : simpl never.
#[local] Arguments le_put _ _ _ _ : simpl never.

(** The program header apart, pages in use and mappings stay. *)
Record kept s s' : Prop := mkKept {
  ke_own q : owned npage (l_mach s) R q -> owned npage (l_mach s') R q;
  ke_data q a : owned npage (l_mach s) R q -> in_page q a -> ~ in_header a -> words (l_mach s') a = words (l_mach s) a;
  ke_kernel : same_kernel (l_mach s) (l_mach s') R;
  ke_avail q : pm_avail (phys (l_mach s')) q -> pm_avail (phys (l_mach s)) q;
  ke_map la : old_page (words (l_mach s)) R la <> None -> mapping (words (l_mach s')) R la = mapping (words (l_mach s)) R la }.

Lemma kept_refl s : kept s s.
Proof. by split. Qed.
Lemma kept_trans s1 s2 s3 : kept s1 s2 -> kept s2 s3 -> kept s1 s3.
Proof.
  intros [O1 D1 K1 A1 M1] [O2 D2 K2 A2 M2]. split; [auto| |intros i Hi; by rewrite K2, K1|auto|].
  - intros q a Hq Ha Hh. rewrite (D2 q) by auto. by apply (D1 q).
  - intros la Hla. rewrite M2; [by apply M1|]. unfold old_page. by rewrite M1.
Qed.

(** The state between two steps of the loader. *)
Record loads s : Prop := mkLoads {
  ls_files : exists q, reading K n ext fd q (l_fs s);
  ls_pgdir : l_pgdir s = kva R;
  ls_mach : machine_ok npage (l_mach s) R;
  ls_low q : pm_avail (phys (l_mach s)) q -> KERNBASE <= kva q;
  ls_stack q : stack q -> owned npage (l_mach s) R q }.

Lemma kva_range p : in_ram npage p -> 0 <= kva p /\ kva p + PGSIZE <= KERNTOP.
Proof. clear -Htop. unfold in_ram, kva, PGSIZE, PHYSICAL_MEMORY_OFFSET in *. change nbase with 524288. lia. Qed.

Lemma on_mach_run {X} (op : ST (machine A) X) s x a : op (l_mach s) = Done (x, a) ->
  on_mach op s = Done (x, mkLoading (l_fs s) a (l_mm s) (l_pgdir s) (l_reads s) (l_rooms s)).
Proof. unfold on_mach. by intros ->. Qed.

(** ** One page *)

(** Byte [i] of the page at [la] of a segment of [len] bytes at [va]. *)
Definition image (va len offset la i : Z) : Z :=
  if decide (va <= la + i < va + len) then byte (offset + (la + i - va)) else 0.

Record page_loaded s (va len offset la perm page : Z) : Prop := mkLoaded {
  pl_owned : owned npage (l_mach s) R page;
  pl_user : ~ stack page;
  pl_map : mapping (words (l_mach s)) R la = pte_create (page2ppn page) (Z.lor PTE_V perm);
  pl_bytes i : 0 <= i < PGSIZE -> words (l_mach s) (kva page + i) = image va len offset la i }.

Lemma page_present s va len offset la perm page : 0 <= perm < 1024 -> page_loaded s va len offset la perm page ->
  old_page (words (l_mach s)) R la = Some page.
Proof.
  intros Hperm [[[Hr _] _] _ Hm _]. unfold old_page. rewrite Hm.
  pose proof (ppn_range npage Hram page Hr) as Hp. rewrite present_create by (auto using lor_1_range).
  rewrite page_of_create by (auto using lor_1_range). f_equal. unfold page2ppn. lia.
Qed.

Lemma page_kept s s' va len offset la perm page : 0 <= perm < 1024 -> kept s s' ->
  page_loaded s va len offset la perm page -> page_loaded s' va len offset la perm page.
Proof.
  intros Hperm Hk Hp. pose proof (page_present s va len offset la perm page Hperm Hp) as Hold. destruct Hp as [Ho Hs Hm Hb].
  split; [by apply (ke_own _ _ Hk)|done| |].
  - rewrite (ke_map _ _ Hk); [done|]. by rewrite Hold.
  - intros i Hi. assert (Hin : in_page page (kva page + i)) by (unfold in_page; lia).
    rewrite (ke_data _ _ Hk page); [by apply Hb|done|done|]. intros Hh. destruct (Hph _ Hh) as (q & Hq & Hqi).
    by rewrite (in_page_ne page q _ Hin Hqi) in Hs.
Qed.

(** Writing to a page that was free at [s0]: to the others nothing happens. *)
Lemma kept_write s0 s page m' : kept s0 s -> pm_avail (phys (l_mach s0)) page -> machine_ok npage (l_mach s) R ->
  owned npage (l_mach s) R page -> (forall a, ~ in_page page a -> m' a = words (l_mach s) a) ->
  forall s', l_mach s' = mkMachine m' (phys (l_mach s)) ->
  kept s0 s' /\ machine_ok npage (l_mach s') R /\ owned npage (l_mach s') R page /\
  (forall la, mapping (words (l_mach s')) R la = mapping (words (l_mach s)) R la) /\
  (forall q, stack q -> owned npage (l_mach s) R q -> owned npage (l_mach s') R q).
Proof.
  intros [O1 D1 K1 A1 M1] Hav Hm Ho Hout s' Hs'. rewrite Hs'.
  destruct (data_written npage (l_mach s) R (fun q => q = page) m' Hm) as (Hm' & Hmap & Hown & Hker).
  { by intros q ->. }
  { intros a Ha. apply Hout. by apply Ha. }
  split; [|auto]. split; rewrite ?Hs'; cbn.
  - auto.
  - intros q a Hq Ha Hh. rewrite Hout; [by apply (D1 q)|]. intros Hx.
    assert (q = page) as -> by (by eapply in_page_ne). by destruct Hq as [[_ Hq] _].
  - intros i Hi. rewrite Hker by done. by apply K1.
  - auto.
  - intros la Hla. rewrite Hmap. by apply M1.
Qed.

(** The bytes of the file between zeros. *)
Lemma page_image m k va len offset la m2 : let vs := if va <? la then la else va in
  let ve := if la + PGSIZE <? va + len then la + PGSIZE else va + len in vs < ve -> va < la + PGSIZE -> la < va + len ->
  bytes_written m (k + (vs - la)) byte (offset + (vs - va)) (ve - vs) m2 ->
  let m3 := if la <? vs then fill m2 k (vs - la) 0 else m2 in
  let m4 := if ve <? la + PGSIZE then fill m3 (k + (ve - la)) (la + PGSIZE - ve) 0 else m3 in
  (forall i, 0 <= i < PGSIZE -> m4 (k + i) = image va len offset la i) /\
  forall a, ~ k <= a < k + PGSIZE -> m4 a = m a.
Proof.
  intros vs ve Hlt H1 H2 [Hin Hout] m3 m4.
  assert (Hvs : vs = Z.max la va) by (unfold vs; destruct (Z.ltb_spec va la); lia).
  assert (Hve : ve = Z.min (la + PGSIZE) (va + len)) by (unfold ve; destruct (Z.ltb_spec (la + PGSIZE) (va + len)); lia).
  clearbody vs ve. change PGSIZE with 4096 in *. split.
  - intros i Hi. unfold image, m4, m3.
    destruct (Z.ltb_spec ve (la + 4096)); [destruct (decide (ve <= la + i)); [rewrite fill_in by lia; rewrite decide_False by lia; done|rewrite fill_out by lia]|].
    all: destruct (Z.ltb_spec la vs); [destruct (decide (la + i < vs)); [rewrite fill_in by lia; rewrite decide_False by lia; done|rewrite fill_out by lia]|].
    all: rewrite decide_True by lia; replace (k + i) with (k + (vs - la) + (la + i - vs)) by lia; rewrite Hin by lia; f_equal; lia.
  - intros a Ha. unfold m4, m3. destruct (Z.ltb_spec ve (la + 4096)); destruct (Z.ltb_spec la vs); rewrite ?fill_out by lia; apply Hout; lia.
Qed.

(** Writing the kernel's memory. *)
Definition poke s (m : mem) : loading W A :=
  mkLoading (l_fs s) (mkMachine m (phys (l_mach s))) (l_mm s) (l_pgdir s) (l_reads s) (l_rooms s).
Lemma zero_run (b : bool) a k s :
  (if b then on_mach (modify (fun x => set_words (fill (words x) a k 0) x)) else mret tt) s
  = Done (tt, poke s (if b then fill (words (l_mach s)) a k 0 else words (l_mach s))).
Proof. destruct s as [? [? ?] ? ? ? ?]. by destruct b. Qed.

Lemma load_page_run s va len offset la perm :
  loads s -> zero_free (l_mach s) -> la mod 4096 = 0 -> 0 <= la -> la + PGSIZE <= USERTOP ->
  0 <= va -> 0 <= len -> va + len <= USERTOP -> 0 <= offset -> offset + len <= size -> 0 <= perm < 1024 ->
  old_page (words (l_mach s)) R la = None ->
  exists ret s', load_page npage buffers fd va len offset la perm s = Done (ret, s') /\ loads s' /\ kept s s' /\ l_mm s' = l_mm s /\
    (forall la', ~ same_page la la' -> mapping (words (l_mach s')) R la' = mapping (words (l_mach s)) R la') /\
    (ret = - E_NO_MEM \/ ret = 0 /\ zero_free (l_mach s') /\ exists page, page_loaded s' va len offset la perm page).
Proof.
  intros Hls Hz Hal Hla Hlatop Hva Hlen Hvtop Hoff Hol Hperm Hold. destruct Hls as [Hfi Hpg Hm Hlow Hst].
  unfold load_page. mstep (eq_refl : get l_pgdir s = Done (l_pgdir s, s)). rewrite Hpg.
  assert (Hla38 : 0 <= la < 2 ^ 38) by (unfold USERTOP, PGSIZE in *; lia).
  destruct (pgdir_alloc_fresh npage Hram (l_mach s) R la perm Hla38 Hm Hz Hperm Hold) as (o & x1 & Hrun1 & Hfresh).
  mstep (on_mach_run _ s _ _ Hrun1). set (s1 := mkLoading (l_fs s) x1 _ _ _ _).
  destruct o as [page|].
  2: { destruct Hfresh as [Fm Fd Fk Fa Fmap]. exists (- E_NO_MEM), s1. split; [done|]. split; [split; auto; intros q Hq; by destruct (Fd q (Hst q Hq))|].
       split; [split; cbn; auto; [intros q Hq; by destruct (Fd q Hq)|intros q a Hq Ha _; by apply (Fd q Hq)]|]. split; [done|]. split; [auto|by left]. }
  destruct Hfresh as [[Fm [Fd Fk Fz Fg Fa] Fnew Fown Fmap] Hz1].
  assert (Hpr : in_ram npage page) by apply Fown.
  destruct (kva_range page Hpr) as [Hk0 Hk1]. pose proof (Hlow page Fnew) as Hk2.
  mstep (on_mach_run _ s1 _ _ (page2kva_run npage Hram page (l_mach s1) Hpr)).
  set (s1' := mkLoading (l_fs s1) (l_mach s1) _ _ _ _). change s1' with s1. clear s1'.
  assert (Hkept1 : kept s s1).
  { split; cbn.
    - intros q Hq. by destruct (Fd q Hq).
    - intros q a Hq Ha _. by apply (Fd q Hq).
    - exact Fk.
    - auto.
    - intros la' Hla'. rewrite Fmap. rewrite decide_False; [done|]. intros Hsp. apply Hla'.
      unfold old_page, mapping in *. destruct Hsp as (-> & -> & ->). exact Hold. }
  assert (Hstk : ~ stack page) by (intros Hx%Hst; by destruct Hx as [[_ Hx] _]).
  assert (Hout1 : forall la', ~ same_page la la' -> mapping (words (l_mach s1)) R la' = mapping (words (l_mach s)) R la').
  { intros la' Hne. cbn. by rewrite Fmap, decide_False. }
  assert (Hself : mapping (words (l_mach s1)) R la = pte_create (page2ppn page) (Z.lor PTE_V perm)).
  { cbn. by rewrite Fmap, decide_True. }
  assert (Hst1 : forall q, stack q -> owned npage (l_mach s1) R q) by (intros q Hq; by destruct (Fd q (Hst q Hq))).
  (** What is left to show of a final state with other contents of the page. *)
  assert (Hfin : forall m' s', l_mach s' = mkMachine m' (phys (l_mach s1)) -> l_pgdir s' = l_pgdir s1 ->
    (exists q, reading K n ext fd q (l_fs s')) -> (forall a, ~ in_page page a -> m' a = words (l_mach s1) a) ->
    loads s' /\ kept s s' /\ (forall la', ~ same_page la la' -> mapping (words (l_mach s')) R la' = mapping (words (l_mach s)) R la') /\
    zero_free (l_mach s') /\
    ((forall i, 0 <= i < PGSIZE -> m' (kva page + i) = image va len offset la i) -> page_loaded s' va len offset la perm page)).
  { intros m' s' Hm' Hpg' Hfi' Hout.
    destruct (kept_write s s1 page m' Hkept1 Fnew Fm Fown Hout s' Hm') as (K1 & K2 & K3 & K4 & K5).
    split; [split; auto; [by rewrite Hpg'|by rewrite Hm'; cbn; auto]|]. split; [done|].
    split; [intros la' Hne; rewrite K4; by apply Hout1|]. split; [by rewrite Hm'|].
    intros Hi. split; [done|done|by rewrite K4|by rewrite Hm']. }
  assert (Hend : u64 (va + len) = va + len) by (unfold USERTOP in *; apply u64_small; lia).
  assert (Hpend : u64 (la + PGSIZE) = la + PGSIZE) by (unfold USERTOP, PGSIZE in *; apply u64_small; lia).
  cbv zeta. rewrite Hend, Hpend. set (vs := if va <? la then la else va).
  set (ve := if la + PGSIZE <? va + len then la + PGSIZE else va + len).
  assert (Hvs : vs = Z.max la va) by (unfold vs; destruct (Z.ltb_spec va la); lia).
  assert (Hve : ve = Z.min (la + PGSIZE) (va + len)) by (unfold ve; destruct (Z.ltb_spec (la + PGSIZE) (va + len)); lia).
  destruct (Z.ltb_spec vs ve) as [Hlt|Hge].
  - assert (Hfi1 : exists q, reading K n ext fd q (l_fs s1)) by exact Hfi.
    unfold USERTOP, PGSIZE in *.
    assert (Hkt : KERNTOP < 2 ^ 64) by done. assert (Hkb : 0 < KERNBASE) by done.
    rewrite (u64_small (kva page + (vs - la))), (s64_small (offset + (vs - va))) by lia.
    destruct (load_icode_read_run K n size byte ext fd Hserves Hsize buffers (kva page + (vs - la)) (ve - vs) (offset + (vs - va)) s1 Hfi1)
      as (ret & s2 & Hr & [Rf Rp Rm Rg Rc]); try lia.
    mstep Hr. destruct Rc as [[-> Rw]|[-> Rw]].
    + change (negb (- E_NO_MEM =? 0)) with true. cbv iota. exists (- E_NO_MEM), s2. split; [done|].
      destruct (Hfin (words (l_mach s1)) s2) as (F1 & F2 & F3 & _); [|done|done|done|].
      { destruct (l_mach s2); cbn in *. by subst. }
      split; [done|]. split; [done|]. split; [done|]. split; [done|by left].
    + change (negb (0 =? 0)) with false. cbv iota.
      mstep (zero_run (la <? vs) (kva page) (vs - la) s2). set (s3 := poke s2 _).
      rewrite (u64_small (kva page + (ve - la))) by lia.
      mstep (zero_run (ve <? la + 4096) (kva page + (ve - la)) (la + 4096 - ve) s3). set (s4 := poke s3 _).
      destruct (page_image (words (l_mach s1)) (kva page) va len offset la (words (l_mach s2))) as [Pin Pout]; try (unfold PGSIZE; lia); [exact Rw|].
      destruct (Hfin (words (l_mach s4)) s4) as (F1 & F2 & F3 & F4 & F5); [by cbn; rewrite Rp|done|done|exact Pout|].
      exists 0, s4. split; [done|]. split; [done|]. split; [done|]. split; [done|]. split; [done|]. right. split; [done|].
      split; [done|]. exists page. by apply F5.
  - mstep (zero_run true (kva page) PGSIZE s1). set (s2 := poke s1 _).
    destruct (Hfin (words (l_mach s2)) s2) as (F1 & F2 & F3 & F4 & F5); [done|done|done|intros a Ha; by apply fill_out; unfold in_page in Ha; lia|].
    exists 0, s2. split; [done|]. split; [done|]. split; [done|]. split; [done|]. split; [done|]. right. split; [done|].
    split; [done|]. exists page. apply F5. intros i Hi. cbn. rewrite fill_in by lia. unfold image. rewrite decide_False by lia. done.
Qed.

(** ** One segment *)
Definition image_loaded s (va len offset start end_ perm : Z) : Prop :=
  forall la, start <= la < end_ -> la mod 4096 = 0 -> exists page, page_loaded s va len offset la perm page.
Definition unmapped s (start end_ : Z) : Prop :=
  forall la, start <= la < end_ -> la mod 4096 = 0 -> old_page (words (l_mach s)) R la = None.
(** The map is as it was outside the range. *)
Definition map_outside s s' (start end_ : Z) : Prop :=
  forall la, 0 <= la < USERTOP -> ~ start <= la < end_ -> mapping (words (l_mach s')) R la = mapping (words (l_mach s)) R la.

Lemma page_apart la la' : la mod 4096 = 0 -> 0 <= la < USERTOP -> 0 <= la' < USERTOP -> ~ la <= la' < la + 4096 -> ~ same_page la la'.
Proof.
  unfold USERTOP. intros Hal Hla Hla' Hne Hsp. apply same_page_eq in Hsp; [|lia|lia]. Z.to_euclidean_division_equations. lia.
Qed.

Lemma load_pages_run va len offset perm end_ fuel : 0 <= va -> 0 <= len -> va + len <= USERTOP -> 0 <= offset ->
  offset + len <= size -> 0 <= perm < 1024 -> end_ <= USERTOP -> end_ mod 4096 = 0 -> forall la s,
  loads s -> zero_free (l_mach s) -> la mod 4096 = 0 -> 0 <= la -> la <= end_ -> unmapped s la end_ ->
  (end_ - la) / 4096 < Z.of_nat fuel ->
  exists ret s', load_pages npage buffers fuel fd va len offset la end_ perm s = Done (ret, s') /\ loads s' /\ kept s s' /\
    l_mm s' = l_mm s /\ map_outside s s' la end_ /\
    (ret = - E_NO_MEM \/ ret = 0 /\ zero_free (l_mach s') /\ image_loaded s' va len offset la end_ perm).
Proof.
  intros Hva Hlen Hvt Hoff Hol Hperm Hend Hea. induction fuel as [|fuel IH]; intros la s Hls Hz Hal Hla Hle Hun Hf.
  { exfalso. pose proof (Z.div_pos (end_ - la) 4096). lia. }
  cbn [load_pages]. destruct (Z.ltb_spec la end_) as [Hlt|Hge].
  2: { exists 0, s. split; [done|]. split; [done|]. split; [apply kept_refl|]. split; [done|]. split; [done|].
       right. split; [done|]. split; [done|]. intros k Hk. lia. }
  assert (Hpe : la + 4096 <= end_) by (Z.to_euclidean_division_equations; lia).
  destruct (load_page_run s va len offset la perm Hls Hz Hal Hla) as (ret & s1 & Hr & Hls1 & Hk1 & Hmm1 & Hmap1 & Hc1);
    try done; [unfold PGSIZE; lia|by apply Hun|].
  assert (Hmo : forall la', 0 <= la' < USERTOP -> ~ la <= la' < la + 4096 -> mapping (words (l_mach s1)) R la' = mapping (words (l_mach s)) R la').
  { intros la' Hla' Hne. apply Hmap1. apply page_apart; [done|lia|done|done]. }
  mstep Hr. destruct Hc1 as [->|(-> & Hz1 & page & Hpage)].
  { exists (- E_NO_MEM), s1. split; [done|]. do 3 (split; [done|]). split; [|by left]. intros la' Hla' Hne. apply Hmo; [done|]. unfold PGSIZE. lia. }
  change (negb (0 =? 0)) with false. cbv iota. unfold USERTOP, PGSIZE in *. rewrite u64_small by lia.
  destruct (IH (la + 4096) s1 Hls1 Hz1) as (ret & s2 & Hr2 & Hls2 & Hk2 & Hmm2 & Hmap2 & Hc2).
  - rewrite Z.add_mod, Hal by lia. done.
  - lia.
  - lia.
  - intros k Hk Hka. unfold old_page. rewrite Hmo by lia. apply Hun; [lia|done].
  - replace (end_ - la) with (end_ - (la + 4096) + 1 * 4096) in Hf by lia. rewrite Z.div_add in Hf by lia. lia.
  - exists ret, s2. split; [done|]. split; [done|]. split; [by eapply kept_trans|]. split; [congruence|]. split.
    + intros la' Hla' Hne. rewrite Hmap2, Hmo by (done || lia). done.
    + destruct Hc2 as [->|(-> & Hz2 & Himg)]; [by left|]. right. split; [done|]. split; [done|].
      intros k Hk Hka. destruct (decide (k = la)) as [->|Hne].
      * exists page. by apply (page_kept s1).
      * apply Himg; [|done]. Z.to_euclidean_division_equations. lia.
Qed.

(** A program header: the range of pages of its segment and the area for it. *)
Definition seg_start (p : proghdr) : Z := ROUNDDOWN (p_va p) PGSIZE.
Definition seg_end (p : proghdr) : Z := ROUNDUP (u64 (p_va p + p_memsz p)) PGSIZE.
Definition seg_area (p : proghdr) : vma_struct := mkVma (seg_start p) (seg_end p) (segment_vm_flags (p_flags p)).
Definition seg_perm (p : proghdr) : Z := segment_perm (segment_vm_flags (p_flags p)).
(** In user space, and in the file. *)
Record seg_ok (p : proghdr) : Prop := mkSegOk {
  so_va : 0 <= p_va p; so_filesz : 0 <= p_filesz p; so_memsz : 0 <= p_memsz p; so_top : p_va p + p_memsz p <= USERTOP;
  so_offset : 0 <= p_offset p; so_file : p_offset p + p_filesz p <= size }.
Definition seg_loaded s (p : proghdr) : Prop :=
  image_loaded s (p_va p) (p_filesz p) (p_offset p) (seg_start p) (seg_end p) (seg_perm p).

(** Every page that is mapped lies in an area. *)
Definition covered s : Prop := forall la, 0 <= la < USERTOP -> old_page (words (l_mach s)) R la <> None ->
  exists v, v ∈ mmap_list (l_mm s) /\ contains v la = true.

Lemma segment_perm_range f : 0 <= segment_perm f < 1024.
Proof. unfold segment_perm, set_if. by destruct (bit f VM_EXEC), (bit f VM_WRITE), (bit f VM_READ). Qed.

Lemma seg_bounds p : seg_ok p -> 0 <= seg_start p <= p_va p /\ seg_start p mod 4096 = 0 /\ seg_end p mod 4096 = 0 /\
  p_va p + p_memsz p <= seg_end p <= USERTOP.
Proof.
  intros [Hva Hf Hmz Ht Ho Hfi]. unfold USERTOP in *. destruct (page_bounds (p_va p) (p_memsz p) Hva Hmz ltac:(lia)) as (H1 & H2 & H3 & H4 & H5).
  fold (seg_start p) in *. fold (seg_end p) in *. split; [done|]. split; [done|]. split; [done|]. Z.to_euclidean_division_equations. lia.
Qed.

Lemma map_area_run addr len flags s : mm_ok (l_mm s) -> 0 <= addr -> 0 <= len -> addr + len < 2 ^ 63 -> map_count (l_mm s) + 1 < 2 ^ 31 ->
  let v := mkVma (ROUNDDOWN addr PGSIZE) (ROUNDUP (u64 (addr + len)) PGSIZE) flags in disjoint_area (l_mm s) v ->
  exists ret mm' k, map_area rooms addr len flags s = Done (ret, mkLoading (l_fs s) (l_mach s) mm' (l_pgdir s) (l_reads s) k) /\
    (ret = 0 /\ inserted (l_mm s) v mm' \/
     (ret = - E_INVAL /\ USER_ACCESS (vm_start v) (vm_end v) = false \/ ret = - E_NO_MEM) /\ mm_ok mm' /\ mmap_list mm' = mmap_list (l_mm s)).
Proof.
  intros Hok Ha Hl Hb Hc v Hd. destruct (mm_map_disjoint (rooms (l_rooms s)) addr len flags (l_mm s) Hok Ha Hl Hb Hc Hd)
    as (ret & o & mm' & Hr & Hcase).
  exists ret, mm', (S (l_rooms s)). split.
  - unfold map_area. mstep (eq_refl : get l_rooms s = Done (l_rooms s, s)).
    set (s1 := mkLoading (l_fs s) (l_mach s) (l_mm s) (l_pgdir s) (l_reads s) (S (l_rooms s))).
    mstep (eq_refl : modify (fun s => mkLoading (l_fs s) (l_mach s) (l_mm s) (l_pgdir s) (l_reads s) (S (l_rooms s))) s = Done (tt, s1)).
    assert (Ho : on_areas (mm_map (rooms (l_rooms s)) addr len flags) s1 = Done ((ret, o), mkLoading (l_fs s) (l_mach s) mm' (l_pgdir s) (l_reads s) (S (l_rooms s))))
      by (unfold on_areas; cbn [l_mm s1]; by rewrite Hr).
    by mstep Ho.
  - destruct Hcase as [(-> & _ & Hi)|Hcase]; [by left|by right].
Qed.

(** How a segment is loaded: whole, or not, for one of four reasons. *)
Lemma load_segment_run p s : loads s -> zero_free (l_mach s) -> mm_ok (l_mm s) -> covered s -> seg_ok p ->
  map_count (l_mm s) + 1 < 2 ^ 31 -> disjoint_area (l_mm s) (seg_area p) ->
  exists ret s', load_segment npage buffers rooms fd p s = Done (ret, s') /\ loads s' /\ kept s s' /\ mm_ok (l_mm s') /\
    (ret = 0 /\ zero_free (l_mach s') /\ covered s' /\ seg_loaded s' p /\ inserted (l_mm s) (seg_area p) (l_mm s') \/
     ret = - E_NO_MEM \/ ret = - E_INVAL_ELF /\ p_memsz p < p_filesz p \/
     ret = - E_INVAL /\ USER_ACCESS (seg_start p) (seg_end p) = false).
Proof.
  intros Hls Hz Hok Hcov Hp Hcnt Hd. pose proof (seg_bounds p Hp) as (Hs1 & Hs2 & Hs3 & Hs4). pose proof Hp as [Hva Hf Hmz Ht Ho Hfi].
  unfold load_segment. destruct (Z.ltb_spec (p_memsz p) (p_filesz p)) as [Hlt|Hge].
  { exists (- E_INVAL_ELF), s. split; [done|]. split; [done|]. split; [apply kept_refl|]. split; [done|]. by right; right; left. }
  destruct (map_area_run (p_va p) (p_memsz p) (segment_vm_flags (p_flags p)) s Hok Hva Hmz) as (ret & mm' & k & Hr & Hcase);
    [unfold USERTOP in *; lia|done|exact Hd|].
  mstep Hr. set (s1 := mkLoading _ _ mm' _ _ k) in *.
  assert (Hls1 : loads s1) by (by destruct Hls). assert (Hk1 : kept s s1) by by split.
  destruct Hcase as [[-> Hins]|[He [Hok1 Hl1]]].
  2: { exists ret, s1. split; [by destruct He as [[-> _]| ->]|]. do 3 (split; [done|]). right. destruct He as [He| ->]; [|by left]. by do 2 right. }
  change (negb (0 =? 0)) with false. cbv iota. change (s64 (p_offset p)) with (s64 (p_offset p)). rewrite (s64_small (p_offset p)) by lia.
  fold (seg_start p) (seg_end p) (seg_perm p).
  assert (Hun : unmapped s1 (seg_start p) (seg_end p)).
  { intros la Hla _. destruct (old_page _ _ la) as [q|] eqn:Hq; [|done]. exfalso.
    destruct (Hcov la) as (v & Hv & Hc); [unfold USERTOP in *; lia|cbn in Hq; congruence|].
    apply contains_spec in Hc. destruct (Hd v Hv) as [Hx|Hx]; cbn in Hx; lia. }
  destruct (load_pages_run (p_va p) (p_filesz p) (p_offset p) (seg_perm p) (seg_end p) (turns (seg_start p) (seg_end p)))
    with (la := seg_start p) (s := s1) as (ret & s2 & Hr2 & Hls2 & Hk2 & Hmm2 & Hmap2 & Hc2);
    try done; try lia; [apply segment_perm_range|unfold turns; change PGSIZE with 4096; rewrite Nat2Z.inj_succ, Z2Nat.id; [lia|apply Z.div_pos; lia]|].
  exists ret, s2. split; [done|]. split; [done|]. split; [by apply (kept_trans s s1)|]. split; [rewrite Hmm2; apply Hins|].
  destruct Hc2 as [->|(-> & Hz2 & Himg)]; [by right; left|]. left. do 2 (split; [done|]). split; [|split; [done|by rewrite Hmm2]].
  intros la Hla Hm. rewrite Hmm2. destruct Hins as (_ & Hin & _). destruct (decide (seg_start p <= la < seg_end p)) as [Hr'|Hr'].
  - exists (seg_area p). split; [apply Hin; by left|]. by apply contains_spec.
  - destruct (Hcov la Hla) as (v & Hv & Hc); [|exists v; split; [apply Hin; by right|done]].
    unfold old_page in *. by rewrite Hmap2 in Hm.
Qed.

(** ** All segments *)
Definition header (e : elfhdr) (j : Z) : proghdr := ph_at byte (e_phoff e + sizeof_proghdr * j).
Definition loadable (p : proghdr) : Prop := p_type p = ELF_PT_LOAD.

Lemma seg_kept s s' p : kept s s' -> seg_loaded s p -> seg_loaded s' p.
Proof.
  intros Hk Hs la Hla Ha. destruct (Hs la Hla Ha) as [page Hp]. exists page. apply (page_kept s); [apply segment_perm_range|done|done].
Qed.

Lemma elf_kept s s' : loads s -> kept s s' -> elf_at (words (l_mach s')) elf = elf_at (words (l_mach s)) elf.
Proof.
  intros Hls Hk. assert (Hw : forall a, elf <= a < elf + 64 -> words (l_mach s') a = words (l_mach s) a).
  { intros a Ha. destruct (Helf a Ha) as (Hh & q & Hq & Hin). apply (ke_data _ _ Hk q); auto. by apply (ls_stack s). }
  unfold elf_at, get32, get16. rewrite !(le_get_ext (words (l_mach s')) (words (l_mach s))); try done; intros j Hj; apply Hw; lia.
Qed.

Lemma ph_at_bytes m a o : holds_bytes m a byte o sizeof_proghdr -> ph_at m a = ph_at byte o.
Proof.
  unfold sizeof_proghdr. intros Hb. assert (Hs : forall d k, 0 <= d -> d + Z.of_nat k <= 56 -> le_get m (a + d) k = le_get byte (o + d) k).
  { intros d k Hd Hk. apply le_get_shift. intros j Hj. rewrite <- !Z.add_assoc. apply Hb. lia. }
  unfold ph_at, get32. rewrite !Hs by lia. pose proof (Hs 0 4%nat) as Hs0. rewrite !Z.add_0_r in Hs0. rewrite Hs0 by lia. done.
Qed.

(** Reading a program header. *)
Lemma read_header off s : loads s -> 0 <= off -> off + sizeof_proghdr <= size ->
  exists ret s', load_icode_read buffers fd ph sizeof_proghdr off s = Done (ret, s') /\ loads s' /\ kept s s' /\ l_mm s' = l_mm s /\
    phys (l_mach s') = phys (l_mach s) /\ (forall la, mapping (words (l_mach s')) R la = mapping (words (l_mach s)) R la) /\
    (ret = - E_NO_MEM \/ ret = 0 /\ ph_at (words (l_mach s')) ph = ph_at byte off).
Proof.
  intros Hls Ho Hos. destruct Hls as [Hfi Hpg Hm Hlow Hst].
  assert (Hhi : ph + sizeof_proghdr <= KERNTOP).
  { destruct (Hph (ph + sizeof_proghdr - 1)) as (q & Hq & Hin); [unfold in_header, sizeof_proghdr; lia|].
    destruct (Hst q Hq) as [[Hr _] _]. destruct (kva_range q Hr) as [_ Hk]. unfold in_page in Hin. lia. }
  destruct (load_icode_read_run K n size byte ext fd Hserves Hsize buffers ph sizeof_proghdr off s Hfi Hphlow eq_refl Hhi Ho Hos)
    as (ret & s1 & Hr & [Rf Rp Rm Rg Rc]).
  assert (Hout : forall a, ~ in_header a -> words (l_mach s1) a = words (l_mach s) a).
  { intros a Ha. destruct Rc as [[_ ->]|[_ [_ Hw]]]; [done|]. apply Hw. unfold in_header in Ha. lia. }
  destruct (data_written npage (l_mach s) R stack (words (l_mach s1)) Hm Hst) as (Hm1 & Hmap1 & Hown1 & Hker1).
  { intros a Ha. apply Hout. intros Hh. destruct (Hph a Hh) as (q & Hq & Hin). by apply (Ha q). }
  rewrite <- Rp in Hm1, Hown1.
  replace (mkMachine (words (l_mach s1)) (phys (l_mach s1))) with (l_mach s1) in Hm1, Hown1 by (by destruct (l_mach s1)).
  exists ret, s1. split; [done|]. split; [split; auto; [by rewrite Rg|by rewrite Rp]|].
  split; [split; auto; by rewrite Rp|]. split; [done|]. split; [done|]. split; [done|].
  destruct Rc as [[-> _]|[-> [Hb _]]]; [by left|]. right. split; [done|]. by apply ph_at_bytes.
Qed.

(** The headers from [i] on: in user space, in the file, and apart from each other and
    from what is mapped. *)
Record headers_ok (e : elfhdr) (i k : Z) (mm : mm_struct) : Prop := mkHeadersOk {
  ho_phoff : 0 <= e_phoff e /\ e_phoff e + sizeof_proghdr * (i + k) <= size;
  ho_seg j : i <= j < i + k -> loadable (header e j) -> seg_ok (header e j) /\ disjoint_area mm (seg_area (header e j));
  ho_apart j j' : i <= j < j' -> j' < i + k -> loadable (header e j) -> loadable (header e j') ->
    apart (seg_area (header e j')) (seg_area (header e j)) }.

(** Segment [j] is refused with [ret]. *)
Definition refused (p : proghdr) (ret : Z) : Prop :=
  loadable p /\ (ret = - E_INVAL_ELF /\ p_memsz p < p_filesz p \/
                 ret = - E_INVAL /\ USER_ACCESS (seg_start p) (seg_end p) = false).

(** One turn of the loop, after the header is read. *)
Lemma load_turn p s : loads s -> zero_free (l_mach s) -> mm_ok (l_mm s) -> covered s ->
  (loadable p -> seg_ok p /\ disjoint_area (l_mm s) (seg_area p)) -> map_count (l_mm s) + 1 < 2 ^ 31 ->
  exists ret s', (if negb (p_type p =? ELF_PT_LOAD) then mret 0 else load_segment npage buffers rooms fd p) s = Done (ret, s') /\
    loads s' /\ kept s s' /\ mm_ok (l_mm s') /\
    (ret = 0 /\ zero_free (l_mach s') /\ covered s' /\ (loadable p -> seg_loaded s' p) /\
       (forall w, w ∈ mmap_list (l_mm s') <-> w ∈ mmap_list (l_mm s) \/ loadable p /\ w = seg_area p) /\
       map_count (l_mm s') <= map_count (l_mm s) + 1 \/
     ret = - E_NO_MEM \/ refused p ret).
Proof.
  intros Hls Hz Hok Hcov Hp Hcnt. destruct (Z.eqb_spec (p_type p) ELF_PT_LOAD) as [Hl|Hl]; cbn [negb].
  2: { exists 0, s. split; [done|]. split; [done|]. split; [apply kept_refl|]. split; [done|]. left.
       do 3 (split; [done|]). split; [done|]. split; [|lia]. intros w. split; [by left|]. by intros [?|[? _]]. }
  destruct (Hp Hl) as [Hso Hd].
  destruct (load_segment_run p s Hls Hz Hok Hcov Hso Hcnt Hd) as (ret & s' & Hr & Hls' & Hk' & Hok' & Hc).
  exists ret, s'. split; [done|]. do 3 (split; [done|]).
  destruct Hc as [(-> & Hz' & Hcov' & Hsl & _ & Hin & Hmc)|[->|Hc]]; [left|by right; left|right; right; by split].
  do 3 (split; [done|]). split; [done|]. split; [|lia]. intros w. rewrite Hin. tauto.
Qed.

Lemma load_segments_run e k : forall i s, loads s -> zero_free (l_mach s) -> mm_ok (l_mm s) -> covered s ->
  elf_at (words (l_mach s)) elf = e -> 0 <= i -> headers_ok e i (Z.of_nat k) (l_mm s) -> map_count (l_mm s) + Z.of_nat k < 2 ^ 31 ->
  exists ret s', load_segments npage elf ph buffers rooms k fd i s = Done (ret, s') /\ loads s' /\ kept s s' /\ mm_ok (l_mm s') /\
    (ret = 0 /\ zero_free (l_mach s') /\ covered s' /\
       (forall j, i <= j < i + Z.of_nat k -> loadable (header e j) -> seg_loaded s' (header e j)) /\
       (forall w, w ∈ mmap_list (l_mm s') <-> w ∈ mmap_list (l_mm s) \/
          exists j, i <= j < i + Z.of_nat k /\ loadable (header e j) /\ w = seg_area (header e j)) \/
     ret = - E_NO_MEM \/ exists j, i <= j < i + Z.of_nat k /\ refused (header e j) ret).
Proof.
  induction k as [|k IH]; intros i s Hls Hz Hok Hcov He Hi Hho Hcnt; cbn [load_segments].
  { exists 0, s. split; [done|]. split; [done|]. split; [apply kept_refl|]. split; [done|]. left.
    do 3 (split; [done|]). split; [lia|]. intros w. split; [by left|]. intros [Hw|(j & Hj & _)]; [done|lia]. }
  mstep (eq_refl : get (fun s => elf_at (words (l_mach s)) elf) s = Done (elf_at (words (l_mach s)) elf, s)). rewrite He.
  destruct Hho as [[Hp0 Hp1] Hseg Hap]. unfold sizeof_proghdr in Hp1.
  rewrite s64_small by (unfold sizeof_proghdr; lia).
  destruct (read_header (e_phoff e + sizeof_proghdr * i) s Hls) as (ret & s1 & Hr1 & Hls1 & Hk1 & Hmm1 & Hph1 & Hmap1 & Hc1);
    [unfold sizeof_proghdr; lia|unfold sizeof_proghdr; lia|]. mstep Hr1.
  destruct Hc1 as [->|[-> Hhd]].
  { exists (- E_NO_MEM), s1. rewrite Hmm1. split; [done|]. do 3 (split; [done|]). right. by left. }
  change (negb (0 =? 0)) with false. cbv iota.
  mstep (eq_refl : get (fun s => ph_at (words (l_mach s)) ph) s1 = Done (ph_at (words (l_mach s1)) ph, s1)). rewrite Hhd.
  fold (header e i).
  assert (Hz1 : zero_free (l_mach s1)) by (unfold zero_free; by rewrite Hph1).
  assert (Hcov1 : covered s1) by (intros la Hla; unfold old_page; rewrite Hmap1, Hmm1; by apply Hcov).
  assert (He1 : elf_at (words (l_mach s1)) elf = e) by (by rewrite (elf_kept s)).
  destruct (load_turn (header e i) s1 Hls1 Hz1) as (ret & s2 & Hr2 & Hls2 & Hk2 & Hok2 & Hc2); try (rewrite Hmm1; done || lia); try done.
  { rewrite Hmm1. intros Hl. apply Hseg; [lia|done]. }
  mstep Hr2. destruct Hc2 as [(-> & Hz2 & Hcov2 & Hsl2 & Hin2 & Hmc2)|Hc2].
  2: { exists ret, s2. assert (Hne : (ret =? 0) = false).
       { apply Z.eqb_neq. destruct Hc2 as [->|[_ [[-> _]|[-> _]]]]; done. }
       rewrite Hne. cbn [negb]. split; [done|]. split; [done|]. split; [by eapply kept_trans|]. split; [done|]. right.
       destruct Hc2 as [->|Hc2]; [by left|]. right. exists i. split; [lia|done]. }
  change (negb (0 =? 0)) with false. cbv iota.
  assert (He2 : elf_at (words (l_mach s2)) elf = e) by (by rewrite (elf_kept s1)).
  assert (Hho2 : headers_ok e (i + 1) (Z.of_nat k) (l_mm s2)).
  { split; [unfold sizeof_proghdr; lia| |].
    - intros j Hj Hl. destruct (Hseg j ltac:(lia) Hl) as [Hso Hd]. split; [done|]. intros w Hw.
      apply Hin2 in Hw as [Hw|[Hli ->]]; [apply Hd; by rewrite Hmm1 in Hw|]. apply Hap; [lia|lia|done|done].
    - intros j j' Hj Hj'. apply Hap; lia. }
  destruct (IH (i + 1) s2 Hls2 Hz2 Hok2 Hcov2 He2 ltac:(lia) Hho2) as (ret & s3 & Hr3 & Hls3 & Hk3 & Hok3 & Hc3); [rewrite Hmm1 in Hmc2; lia|].
  exists ret, s3. split; [done|]. split; [done|]. split; [by eapply kept_trans; [exact Hk1|]; eapply kept_trans|]. split; [done|].
  destruct Hc3 as [(-> & Hz3 & Hcov3 & Hsl3 & Hin3)|[->|(j & Hj & Hrf)]]; [left|by right; left|right; right; exists j; split; [lia|done]].
  do 3 (split; [done|]). split.
  - intros j Hj Hl. destruct (decide (j = i)) as [->|Hne]; [by apply (seg_kept s2); [|apply Hsl2]|]. apply Hsl3; [lia|done].
  - intros w. rewrite Hin3, Hin2, Hmm1. split.
    + intros [[Hw|[Hl ->]]|(j & Hj & Hl & ->)]; [by left|right; exists i; split; [lia|done]|right; exists j; split; [lia|done]].
    + intros [Hw|(j & Hj & Hl & ->)]; [by left; left|]. destruct (decide (j = i)) as [->|Hne]; [by left; right|]. right. exists j. split; [lia|done].
Qed.

(** C6 The loop of [load_icode] over the program headers.  On a state where only
    areas of the process are mapped, with headers that lie in user space and in the
    file and do not overlap, it always ends without a panic.  It returns 0 when every
    loadable segment is in memory: each page of it is mapped with the rights of the
    header to memory of its own, that holds the bytes of the file where the header says
    so and zeros elsewhere, and its area is there.  Otherwise it returns [-E_NO_MEM], or
    the code for a segment with more bytes in the file than in memory or outside user
    space.  In each case what was mapped before and the contents of every page that was
    in use stay, the header on the kernel stack apart, and the page tables are well
    formed. *)
Theorem load_segments_loads e s : loads s -> zero_free (l_mach s) -> mm_ok (l_mm s) -> covered s ->
  elf_at (words (l_mach s)) elf = e -> 0 <= e_phnum e -> headers_ok e 0 (e_phnum e) (l_mm s) ->
  map_count (l_mm s) + e_phnum e < 2 ^ 31 ->
  exists ret s', load_segments npage elf ph buffers rooms (Z.to_nat (e_phnum e)) fd 0 s = Done (ret, s') /\
    loads s' /\ kept s s' /\ mm_ok (l_mm s') /\
    (ret = 0 /\ covered s' /\
       (forall j, 0 <= j < e_phnum e -> loadable (header e j) -> seg_loaded s' (header e j)) /\
       (forall w, w ∈ mmap_list (l_mm s') <-> w ∈ mmap_list (l_mm s) \/
          exists j, 0 <= j < e_phnum e /\ loadable (header e j) /\ w = seg_area (header e j)) \/
     ret = - E_NO_MEM \/ exists j, 0 <= j < e_phnum e /\ refused (header e j) ret).
Proof.
  intros Hls Hz Hok Hcov He Hn Hho Hcnt.
  destruct (load_segments_run e (Z.to_nat (e_phnum e)) 0 s) as (ret & s' & Hr & Hls' & Hk & Hok' & Hc);
    rewrite ?Z2Nat.id by done; try done.
  exists ret, s'. do 4 (split; [done|]). rewrite Z2Nat.id, Z.add_0_l in Hc by done. tauto.
Qed.
End load.

(** ** Witness: one segment, over four free pages

    The sample process reads the sample program through descriptor 0; the root is page
    512, and the headers lie in page 513. *)
Definition load_pmm : pmm :=
  mkPmm (fun i => if i =? 516 then mkPage 0 2 4 else mkPage 0 0 0)
        (list_add (list_init (mkLinks (fun l => l) (fun l => l)) Head) Head (Link 516)) 4.
Definition load_npage : Z := nbase + 520.
Definition load_elf : Z := kva 513 + 256.
Definition load_ph : Z := kva 513 + 512.
Definition load_state : loading plain_inodes pmm :=
  mkLoading sample_process (mkMachine (copy (fun _ => 0) load_elf plain_file 0 64) load_pmm) (mkMm [] None 0 0 1 0) (kva 512) 0 0.
Definition load_stack (q : Z) : Prop := q = 513.

Lemma load_pmm_wf : wf load_pmm [(516, 4)].
Proof.
  split; [|cbn; lia| |done|done].
  - apply (list_add_head_dlist _ _ []); [apply list_init_dlist|].
    by intros [?|?%elem_of_nil]%elem_of_cons.
  - intros b [->|?%elem_of_nil]%elem_of_cons; [|done].
    unfold block_ok. cbn. split_and!; [done|done|..]; intros i Hi; destruct (Z.eqb_spec i 516); try lia; done.
Qed.

Lemma load_free p : free_set load_pmm p <-> 516 <= p < 520.
Proof.
  rewrite (free_set_wf load_pmm [(516, 4)] p load_pmm_wf). split.
  - intros (s & k & Hin & Hp). apply list_elem_of_singleton in Hin as [= -> ->]. lia.
  - intros Hp. exists 516, 4. split; [by left|]. lia.
Qed.

Lemma load_no_child p k : p <> 513 -> index k -> child (words (l_mach load_state)) p k = None.
Proof.
  intros Hp Hk. unfold child, entry. rewrite le_get_zero; [done|]. intros i Hi. cbn [words l_mach load_state].
  rewrite Mem.copy_out; [done|]. unfold slot, load_elf, kva, PGSIZE, index in *. lia.
Qed.

Lemma load_no_dir k : index k -> dir (words (l_mach load_state)) 512 k = None.
Proof. intros Hk. unfold dir. rewrite load_no_child by done. by destruct (k <? 256). Qed.

Lemma load_machine_ok : machine_ok load_npage (l_mach load_state) 512.
Proof.
  pose proof load_no_dir as Hch.
  split.
  - exists [(516, 4)]. exact load_pmm_wf.
  - intros p Hp%load_free. unfold in_ram, load_npage. lia.
  - split.
    + split; [unfold in_ram, load_npage; lia|]. intros Hp%load_free. lia.
    + intros i D Hi. by rewrite Hch.
    + intros i j T Hi Hj. unfold table_of. by rewrite Hch.
    + intros i i' D Hi _. by rewrite Hch.
    + intros i j i' j' T Hi _ _ _. unfold table_of. by rewrite Hch.
Qed.

Lemma load_owned : owned load_npage (l_mach load_state) 512 513.
Proof.
  split.
  - split; [unfold in_ram, load_npage; lia|]. intros Hp%load_free. lia.
  - split; [done|]. split; [intros i Hi; by rewrite load_no_dir|]. intros i j Hi Hj. unfold table_of. by rewrite load_no_dir.
Qed.

Lemma load_unmapped la : old_page (words (l_mach load_state)) 512 la = None.
Proof. unfold old_page, mapping, table_of. by rewrite load_no_dir by apply PDX1_index. Qed.

Lemma plain_serves n : serves (fun _ : plain_inodes => True) n plain_size plain_file.
Proof.
  split.
  - intros w m b len off _ _ _ Ho Hl Hb. exists (plain_read (iobuf_init m b len off)), w. split; [done|]. split; [done|].
    cbn [plain_read iobuf_init io_mem io_base io_offset io_len io_resid iobuf_used].
    assert (Hk : Z.max 0 (Z.min len (plain_size - off)) = len) by lia. split.
    + unfold iobuf_used. cbn. rewrite Hk, u64_small; unfold plain_size in Hb; lia.
    + rewrite Hk. split; [intros i Hi; rewrite Mem.copy_in by lia; f_equal; lia|]. intros x Hx. by rewrite Mem.copy_out by lia.
  - intros w p _ Hw Hp _. by exists w.
Qed.

Lemma load_loads : loads load_npage (fun _ : plain_inodes => True) 2 sample_ext 0 512 load_stack load_state.
Proof.
  split.
  - exists 10. split; try done; exact sample_owns.
  - done.
  - exact load_machine_ok.
  - intros q Hq%load_free. unfold kva, PGSIZE, PHYSICAL_MEMORY_OFFSET, KERNBASE. change nbase with 524288. lia.
  - intros q ->. exact load_owned.
Qed.

Lemma load_headers : headers_ok plain_size plain_file (elf_at plain_file 0) 0 (e_phnum (elf_at plain_file 0)) (l_mm load_state).
Proof.
  assert (Hnum : e_phnum (elf_at plain_file 0) = 1) by (vm_compute; reflexivity). rewrite Hnum. split.
  - split; vm_compute; discriminate.
  - intros j Hj _. assert (j = 0) as -> by lia.
    split; [split; vm_compute; discriminate|]. by intros w ?%elem_of_nil.
  - intros j j' Hj Hj'. lia.
Qed.

Lemma load_segments_loads_witness :
  result (load_segments load_npage load_elf load_ph (fun _ => Some (fun _ => 0)) (fun _ => true) 1 0 0 load_state) = Some 0 /\
  exists ret s', load_segments load_npage load_elf load_ph (fun _ => Some (fun _ => 0)) (fun _ => true) 1 0 0 load_state = Done (ret, s') /\
    loads load_npage (fun _ : plain_inodes => True) 2 sample_ext 0 512 load_stack s' /\
    kept load_npage 512 load_ph load_state s' /\ mm_ok (l_mm s') /\
    let e := elf_at plain_file 0 in
    (ret = 0 /\ covered 512 s' /\
       (forall j, 0 <= j < 1 -> loadable (header plain_file e j) -> seg_loaded load_npage plain_file 512 load_stack s' (header plain_file e j)) /\
       (forall w, w ∈ mmap_list (l_mm s') <-> w ∈ mmap_list (l_mm load_state) \/
          exists j, 0 <= j < 1 /\ loadable (header plain_file e j) /\ w = seg_area (header plain_file e j)) \/
     ret = - E_NO_MEM \/ exists j, 0 <= j < 1 /\ refused (header plain_file e j) ret).
Proof.
  split; [vm_compute; reflexivity|].
  assert (Hin : forall a, kva 513 <= a < kva 513 + 4096 -> exists q, load_stack q /\ in_page q a) by (intros a Ha; exists 513; by split).
  refine (load_segments_loads load_npage _ _ (fun _ => True) 2 plain_size plain_file sample_ext 0 (plain_serves 2) _ 512 load_elf load_ph
    (fun _ => Some (fun _ => 0)) (fun _ => true) load_stack _ _ _ (elf_at plain_file 0) load_state load_loads _ _ _ _ _ _ _).
  - split; vm_compute; [done|discriminate].
  - vm_compute. discriminate.
  - done.
  - intros a Ha. apply Hin. unfold in_header, load_ph, sizeof_proghdr in Ha. lia.
  - vm_compute. discriminate.
  - intros a Ha. unfold sizeof_elfhdr in Ha. split; [unfold in_header, load_ph, load_elf in *; lia|apply Hin; unfold load_elf in Ha; lia].
  - intros q Hq%load_free. cbn. unfold load_pmm. cbn. by destruct (q =? 516).
  - split; cbn; [done|done|done].
  - intros la _ Hla. by rewrite load_unmapped in Hla.
  - vm_compute. reflexivity.
  - vm_compute. discriminate.
  - exact load_headers.
  - vm_compute. reflexivity.
Defined.
