(* ===== verification/Execve.v ===== *)
(** * Replacing the program of a process ([do_execve] of kern/process/proc.c)

    The process layer ([Process]) over page tables in memory, around the loader
    ([Exec]).  What the process sees of its memory is [ram], as in [Process]; the
    loader works on the words of the tables.  A buffer that [kmalloc] gives is a memory
    of its own, and giving it back is left out. *)
From Stdlib Require Import String.
From S2P Require Import Prelude CList Libs Mem Strings Printfmt PrintfmtSpec DefaultPmm SfsDir Inode Vfs VfsSpec File FileSpec Vmm VmmSpec Sysfile SkewHeap Proc RunQueue RunQueueSpec Sched Pid Process PageTable PageTableSpec PagePmm Exec.

(** What the allocations of one call give: the buffers of the arguments, of the path,
    of the reads, the [mm] and what its [locked_by] held, room for each area; and where
    the headers lie on the kernel stack. *)
Record exec_room := mkExecRoom {
  ex_argv : nat -> option mem; ex_path : option mem; ex_mm : option Z; ex_junk : Z;
  ex_reads : nat -> option mem; ex_rooms : nat -> bool; ex_elf : Z; ex_ph : Z }.

(** How the call ends: it returns, the new program starts, or the process exits. *)
Inductive exec_end := Returns (ret : Z) | Starts (f : option start_frame) | Exits (error_code : Z).

(** [snprintf(local_name, 16, "<null> %d", pid)]: the format is at 64, the name at 16. *)
Definition null_name (pid : Z) : option mem :=
  let m : mem := fun a => if a <? 64 then 0 else text_mem (text "<null> %d") (a - 64) in
  match snprintf 40 16 16 64 [pid] m with
  | Done (_, m') => Some (fun a => if (0 <=? a) && (a <? 16) then m' (a + 16) else 0)
  | _ => None
  end.

Section execve.
  Context {W A : Type} `{Inodes W} `{PmmManager A} `{SchedClass} (npage boot_pgdir : Z).
  Notation kern := (kernel W (machine A)).
  Implicit Types s : kern.
#[local] Existing Instance machine_tables.
#[local] Instance exec_tables : PageTables (machine A) := machine_tables npage boot_pgdir.

(** [user_mem_check] on [current->mm]. *)
Definition check_user (addr len : Z) (write : bool) : ST kern bool :=
  cur ← get_current;
  m ← get (fun s => mm (proc_at cur s));
  match m with
  | Some m => on_mm_at m (user_mem_check addr len write)
  | None => mret (kern_mem_check addr len)
  end.
Definition lock_user : ST kern unit :=
  cur ← get_current; m ← get (fun s => mm (proc_at cur s)); match m with Some m => lock_mm_at m | None => mret tt end.
Definition unlock_user : ST kern unit :=
  cur ← get_current; m ← get (fun s => mm (proc_at cur s)); match m with Some m => unlock_mm_at m | None => mret tt end.

(** The arguments from number [i] on: the code and the buffers. *)
Fixpoint copy_args (rooms : nat -> option mem) (k i : nat) (argv : Z) : ST kern (Z * list mem) :=
  match k with
  | O => mret (0, [])
  | S k' =>
      match rooms i with
      | None => mret (- E_NO_MEM, [])
      | Some buffer =>
          m ← get Process.ram;
          '(b, buffer) ← copy_string check_user buffer 0 m (le_get m (argv + 8 * Z.of_nat i) 8) (EXEC_MAX_ARG_LEN + 1);
          if negb b then mret (- E_INVAL, [])
          else
            '(ret, l) ← copy_args rooms k' (S i) argv;
            mret (ret, buffer :: l)
      end
  end.
Definition copy_kargv (rooms : nat -> option mem) (argc argv : Z) : ST kern (Z * list mem) :=
  b ← check_user argv (u64 (8 * argc)) false;
  if negb (b : bool) then mret (- E_INVAL, []) else copy_args rooms (Z.to_nat argc) 0 argv.

(** The files of the current process: [fs] with its table. *)
Definition on_files {X} (op : Z -> vfs W -> outcome (X * vfs W)) : ST kern X := fun s =>
  match filesp (proc_at (current (sch s)) s) with
  | None => Panicked
  | Some f =>
      match op f (Vfs.set_filesp (files s f) (fs s)) with
      | Done (x, v) => Done (x, set_fs v (set_files (upd (files s) f (Vfs.filesp v)) s))
      | Panicked => Panicked
      | NoFuel => NoFuel
      end
  end.

(** A file system call of the current process. *)
Definition on_call {X} (op : ST (sys W) X) : ST kern X := fun s =>
  let p := proc_at (current (sch s)) s in
  match filesp p with
  | None => Panicked
  | Some f =>
      match op (mkSys (Vfs.set_filesp (files s f) (fs s)) (mms s <$> mm p) (Process.ram s) (pid p)) with
      | Done (x, y) =>
          let s := Process.set_ram (Sysfile.ram y) (set_fs (vfs_of y) (set_files (upd (files s) f (Vfs.filesp (vfs_of y))) s)) in
          Done (x, match mm p, cur_mm y with Some m, Some mm' => set_mms (upd (mms s) m mm') s | _, _ => s end)
      | Panicked => Panicked
      | NoFuel => NoFuel
      end
  end.

Definition close_files : ST kern unit :=
  on_files (fun f v => match files_closeall (Vfs.filesp v) v with
                       | Done (x, v) => Done (tt, Vfs.set_filesp x v)
                       | Panicked => Panicked
                       | NoFuel => NoFuel
                       end).

(** The last user of an address space gives it back; the switch to the page directory
    of the kernel before it is not modelled. *)
Definition leave_space (m : Z) : ST kern unit :=
  c ← add_mm_count m (-1);
  (if c =? 0 then
     exit_mm m ;;
     d ← get (fun s => mm_pgdir s m);
     on_tables (p ← kva2page npage d; free_page p) ;;
     destroy_mm m
   else mret tt) ;;
  cur ← get_current;
  on_process cur (Proc.set_mm None).

(** [load_icode] on the files and the tables; once it returns 0 the process has the
    new address space. *)
Definition load (r : exec_room) (fd : Z) (kargv : list mem) : ST kern (Z * option start_frame) := fun s =>
  let p := proc_at (current (sch s)) s in
  match filesp p with
  | None => Panicked
  | Some f =>
      let l := mkLoading (Vfs.set_filesp (files s f) (fs s)) (tables s) (mkMm [] None 0 0 0 0) 0 0 0 in
      match load_icode npage boot_pgdir (ex_elf r) (ex_ph r) (ex_reads r) (ex_rooms r)
              (bool_decide (ex_mm r <> None)) (ex_junk r) fd kargv l with
      | Done ((ret, frame), l) =>
          let s := set_tables (l_mach l) (set_fs (l_fs l) (set_files (upd (files s) f (Vfs.filesp (l_fs l))) s)) in
          match ex_mm r with
          | Some m =>
              if ret =? 0 then
                (cur ← get_current;
                 modify (fun s => set_mm_pgdir (upd (mm_pgdir s) m (l_pgdir l)) (set_mms (upd (mms s) m (l_mm l)) s)) ;;
                 on_process cur (Proc.set_mm (Some m)) ;;
                 a ← PADDR (l_pgdir l);
                 on_process cur (set_pgdir a) ;;
                 mret (0, frame)) s
              else Done ((ret, None), s)
          | None => Done ((ret, None), s)
          end
      | Panicked => Panicked
      | NoFuel => NoFuel
      end
  end.

(** From [files_closeall] on: [path] is a pointer of the process, [local_name] 16 bytes. *)
Definition exec_commit (r : exec_room) (local_name : mem) (kargv : list mem) (path : Z) : ST kern exec_end :=
  close_files ;;
  fd ← on_call (sysfile_open (ex_path r) path O_RDONLY);
  if fd <? 0 then do_exit fd ;; mret (Exits fd)
  else
    cur ← get_current;
    o ← get (fun s => mm (proc_at cur s));
    (match o with Some m => leave_space m | None => mret tt end) ;;
    '(ret, frame) ← load r fd kargv;
    if negb (ret =? 0) then do_exit ret ;; mret (Exits ret)
    else set_proc_name cur (local_name <$> seqZ 0 16) ;; mret (Starts frame).

(** [local_name], if the name can be copied. *)
Definition exec_name (name : Z) : ST kern (option mem) :=
  if name =? 0 then
    cur ← get_current;
    n ← get (fun s => pid (proc_at cur s));
    match null_name n with Some l => mret (Some l) | None => panic end
  else
    m ← get Process.ram;
    '(b, l) ← copy_string check_user (fun _ => 0) 0 m name (PROC_NAME_LEN + 1);
    mret (if (b : bool) then Some l else None).

Definition do_execve (r : exec_room) (name argc argv : Z) : ST kern exec_end :=
  if negb ((1 <=? argc) && (argc <=? EXEC_MAX_ARG_NUM)) then mret (Returns (- E_INVAL))
  else
    lock_user ;;
    o ← exec_name name;
    match o with
    | None => unlock_user ;; mret (Returns (- E_INVAL))
    | Some local_name =>
        '(ret, kargv) ← copy_kargv (ex_argv r) argc argv;
        if negb (ret =? 0) then unlock_user ;; mret (Returns ret)
        else
          path ← get (fun s => le_get (Process.ram s) argv 8);
          unlock_user ;;
          exec_commit r local_name kargv path
    end.

(** [while (argv[argc] != NULL) argc++], at most [k] turns. *)
Fixpoint count_args (k : nat) (m : mem) (argv argc : Z) : option Z :=
  match k with
  | O => None
  | S k' => if le_get m (argv + 8 * argc) 8 =? 0 then Some argc else count_args k' m argv (argc + 1)
  end.

(** Whatever [do_execve] does, the jump to [__trapret] follows: if the call returned,
    the thread starts over from its first frame. *)
Definition kernel_execve (k : nat) (r : exec_room) (name argv : Z) : ST kern exec_end :=
  m ← get Process.ram;
  match count_args k m argv 0 with
  | None => no_fuel
  | Some argc => do_execve r name argc argv
  end.
(** [argv] is where the two pointers lie on the stack, [sh] the string. *)
Definition user_main (r : exec_room) (argv sh : Z) : ST kern exec_end :=
  modify (fun s => Process.set_ram (le_put (le_put (Process.ram s) argv 8 sh) (argv + 8) 8 0) s) ;;
  kernel_execve 2 r sh argv.
End execve.

(** ** Replacing the program of a process, specified

    Up to the point of no return nothing but the lock of the address space changes. *)

Lemma null_name_total n : 0 <= n < MAX_PID -> is_Some (null_name n).
Proof.
  intros Hn. assert (Hall : forallb (fun n => bool_decide (is_Some (null_name n))) (seqZ 0 MAX_PID) = true) by (vm_compute; reflexivity).
  apply (proj1 (forallb_forall _ _)) with (x := n) in Hall; [by apply bool_decide_eq_true in Hall|].
  apply list_elem_of_In, elem_of_seqZ. lia.
Qed.

Section execve_spec.
  Context {W A : Type} `{Inodes W} `{PmmManager A} `{SchedClass} (npage boot_pgdir : Z).
  Implicit Types s : kernel W (machine A).

(** Only address space [m] may differ. *)
Record only_space (m : Z) s s' : Prop := mkOnlySpace {
  os_sch : sch s' = sch s; os_list : proc_list s' = proc_list s; os_hash : hash_list s' = hash_list s;
  os_nr : nr_process s' = nr_process s; os_init : initproc s' = initproc s; os_pids : pids s' = pids s;
  os_pgdir : mm_pgdir s' = mm_pgdir s; os_tables : tables s' = tables s; os_fs : fs s' = fs s; os_files : files s' = files s;
  os_ram : Process.ram s' = Process.ram s; os_freed : freed s' = freed s;
  os_other k : k <> m -> mms s' k = mms s k;
  os_areas : mmap_list (mms s' m) = mmap_list (mms s m); os_ok : mm_ok (mms s' m) }.

  (** The current process [cur] has the address space [m]. *)
  Context (cur m : Z) (s0 : kernel W (machine A)).
  Hypothesis Hcur : current (sch s0) = cur.
  Hypothesis Hmm : mm (proc_at cur s0) = Some m.
  Hypothesis Hok0 : mm_ok (mms s0 m).
  Hypothesis Hpages : whole_pages (mms s0 m).

Definition view (k : Z) s : Prop := only_space m s0 s /\ mm_sem (mms s m) = k.

Lemma view_start : view (mm_sem (mms s0 m)) s0.
Proof. by split. Qed.

Lemma view_cur k s : view k s -> current (sch s) = cur /\ mm (proc_at cur s) = Some m /\ pid (proc_at cur s) = pid (proc_at cur s0).
Proof. intros [Hv _]. unfold proc_at. by rewrite (os_sch _ _ _ Hv). Qed.

Lemma set_space_view k s x : view k s -> mm_ok x -> mmap_list x = mmap_list (mms s0 m) ->
  view (mm_sem x) (set_mms (upd (mms s) m x) s).
Proof.
  intros [[] _] Hx Hl. split; [|cbn; by rewrite upd_eq]. split; cbn; try done.
  - intros j Hj. rewrite upd_ne by done. auto.
  - by rewrite upd_eq.
  - by rewrite upd_eq.
Qed.

Lemma check_view k addr len s : view k s -> 0 <= addr < 2 ^ 64 -> 0 <= len < 2 ^ 64 ->
  exists b s', check_user addr len false s = Done (b, s') /\ view k s' /\
    (b = true <-> USERBASE <= addr /\ 0 < len /\ addr + len <= USERTOP /\
                  forall a, addr <= a < addr + len -> accessible (mms s0 m) addr false a).
Proof.
  intros Hv Ha Hl. destruct (view_cur k s Hv) as (Hc & Hm & _). destruct (Hv) as [Hos Hsem].
  destruct (user_mem_check_run addr len false (mms s m) (os_ok _ _ _ Hos) Ha Hl) as (b & x & Hr & Hok & Hlx & Hb).
  pose proof (user_mem_check_sem _ _ _ _ _ _ Hr) as Hsx.
  exists b, (set_mms (upd (mms s) m x) s). split.
  - unfold check_user. mstep (eq_refl : get_current s = Done (current (sch s), s)). rewrite Hc.
    mstep (eq_refl : get (fun s => mm (proc_at cur s)) s = Done (mm (proc_at cur s), s)). rewrite Hm.
    unfold on_mm_at, on_part. by rewrite Hr.
  - split; [rewrite <- Hsem, <- Hsx; apply (set_space_view k); [done|done|]|].
    + by rewrite Hlx, (os_areas _ _ _ Hos).
    + rewrite Hb. unfold accessible. by rewrite (os_areas _ _ _ Hos).
Qed.

Lemma string_view k dst src maxn s : view k s -> 0 <= src < 2 ^ 64 -> 0 <= maxn < 2 ^ 64 ->
  exists b dst' s', copy_string check_user dst 0 (Process.ram s0) src maxn s = Done ((b, dst'), s') /\ view k s' /\
    copy_result (mms s0 m) (Process.ram s0) src maxn dst 0 b dst'.
Proof.
  intros Hv Hs Hm. apply (copy_string_run check_user (view k) (mms s0 m)); [|done|done|done|done].
  intros addr len s1 Hv1. by apply check_view.
Qed.

(** Pointer number [i] of the array [argv]. *)
Definition arg_ptr (argv : Z) (i : nat) : Z := le_get (Process.ram s0) (argv + 8 * Z.of_nat i) 8.
(** Buffer [b] holds the string at [src], of fewer than [maxn] characters, that the process may read. *)
Definition copied_from (src maxn : Z) (b : mem) : Prop :=
  exists n dst, 0 <= n < maxn /\ string_copied (mms s0 m) (Process.ram s0) src n dst 0 b.
(** No string of fewer than [maxn] characters lies at [src], with its zero byte, in memory
    of the process that it may read. *)
Definition no_string (src maxn : Z) : Prop := forall n, ~ good_string (mms s0 m) (Process.ram s0) src maxn n.

  Hypothesis Hbytes : bytes_ok (Process.ram s0).

Lemma arg_ptr_range argv i : 0 <= arg_ptr argv i < 2 ^ 64.
Proof. apply (le_get_range (Process.ram s0) _ 8 Hbytes). Qed.

Lemma copy_args_run rooms argv k n : forall i s, view k s ->
  exists ret l s', copy_args rooms n i argv s = Done ((ret, l), s') /\ view k s' /\
    (ret = 0 /\ length l = n /\ (forall j b, l !! j = Some b -> copied_from (arg_ptr argv (i + j)) 4096 b) \/
     (ret = - E_NO_MEM /\ exists j, (j < i + n)%nat /\ rooms j = None) \/
     ret = - E_INVAL /\ exists j, (j < i + n)%nat /\ no_string (arg_ptr argv j) 4096).
Proof.
  induction n as [|n IH]; intros i s Hv; cbn [copy_args].
  { exists 0, [], s. split; [done|]. split; [done|]. left. done. }
  destruct (rooms i) as [buffer|] eqn:Hroom.
  2: { exists (- E_NO_MEM), [], s. split; [done|]. split; [done|]. right. left. split; [done|]. exists i. split; [lia|done]. }
  mstep (eq_refl : get Process.ram s = Done (Process.ram s, s)). rewrite (os_ram _ _ _ (proj1 Hv)). fold (arg_ptr argv i).
  destruct (string_view k buffer (arg_ptr argv i) 4096 s Hv (arg_ptr_range argv i) ltac:(lia)) as (b & dst' & s1 & Hr & Hv1 & Ht & Hf).
  change (EXEC_MAX_ARG_LEN + 1) with 4096. mstep Hr. destruct b; cbn [negb].
  2: { exists (- E_INVAL), [], s1. split; [done|]. split; [done|]. right. right. split; [done|]. exists i. split; [lia|]. exact (Hf eq_refl). }
  destruct (IH (S i) s1 Hv1) as (ret & l & s2 & Hr2 & Hv2 & Hc). mstep Hr2.
  exists ret, (dst' :: l), s2. split; [done|]. split; [done|].
  destruct Hc as [(-> & Hlen & Hall)|[(-> & j & Hj & Hjr)|(-> & j & Hj & Hjn)]].
  - left. split; [done|]. split; [cbn; by rewrite Hlen|]. intros [|j] b Hb; cbn in Hb.
    + injection Hb as <-. destruct (Ht eq_refl) as (k' & Hk & Hs). exists k', buffer. by rewrite Nat.add_0_r.
    + replace (i + S j)%nat with (S i + j)%nat by lia. by apply Hall.
  - right. left. split; [done|]. exists j. split; [lia|done].
  - right. right. split; [done|]. exists j. split; [lia|done].
Qed.

Lemma lock_view s : view (mm_sem (mms s0 m)) s -> 0 < mm_sem (mms s0 m) ->
  exists s', lock_user s = Done (tt, s') /\ view (mm_sem (mms s0 m) - 1) s'.
Proof.
  intros Hv Hpos. destruct (view_cur _ s Hv) as (Hc & Hm & _). destruct (Hv) as [Hos Hsem].
  set (x := mkMm (mmap_list (mms s m)) (mmap_cache (mms s m)) (map_count (mms s m)) (mm_count (mms s m)) (mm_sem (mms s0 m) - 1) (pid (proc_at cur s))).
  exists (set_mms (upd (mms s) m x) s). split.
  - unfold lock_user. mstep (eq_refl : get_current s = Done (current (sch s), s)). rewrite Hc.
    mstep (eq_refl : get (fun s => mm (proc_at cur s)) s = Done (mm (proc_at cur s), s)). rewrite Hm.
    unfold lock_mm_at. mstep (eq_refl : get_current s = Done (current (sch s), s)). rewrite Hc.
    mstep (eq_refl : get (fun s => pid (proc_at cur s)) s = Done (pid (proc_at cur s), s)).
    unfold on_mm_at, on_part, lock. by rewrite Hsem, (proj2 (Z.ltb_lt _ _) Hpos).
  - change (mm_sem (mms s0 m) - 1) with (mm_sem x).
    apply (set_space_view (mm_sem (mms s0 m))); [done| |apply Hos].
    by destruct (os_ok _ _ _ Hos).
Qed.

Lemma unlock_view s : view (mm_sem (mms s0 m) - 1) s ->
  exists s', unlock_user s = Done (tt, s') /\ view (mm_sem (mms s0 m)) s'.
Proof.
  intros Hv. destruct (view_cur _ s Hv) as (Hc & Hm & _). destruct (Hv) as [Hos Hsem].
  set (x := mkMm (mmap_list (mms s m)) (mmap_cache (mms s m)) (map_count (mms s m)) (mm_count (mms s m)) (mm_sem (mms s m) + 1) 0).
  exists (set_mms (upd (mms s) m x) s). split.
  - unfold unlock_user. mstep (eq_refl : get_current s = Done (current (sch s), s)). rewrite Hc.
    mstep (eq_refl : get (fun s => mm (proc_at cur s)) s = Done (mm (proc_at cur s), s)). by rewrite Hm.
  - replace (mm_sem (mms s0 m)) with (mm_sem x) by (cbn; lia).
    apply (set_space_view (mm_sem (mms s0 m) - 1)); [done| |apply Hos].
    by destruct (os_ok _ _ _ Hos).
Qed.

Lemma exec_name_run name k s : view k s -> 0 <= name < 2 ^ 64 -> 0 <= pid (proc_at cur s0) < MAX_PID ->
  exists o s', exec_name name s = Done (o, s') /\ view k s' /\
    match o with
    | Some l => if name =? 0 then null_name (pid (proc_at cur s0)) = Some l else copied_from name 16 l
    | None => name <> 0 /\ no_string name 16
    end.
Proof.
  intros Hv Hn Hpid. unfold exec_name. destruct (Z.eqb_spec name 0) as [Hz|Hz].
  - destruct (view_cur _ s Hv) as (Hc & _ & Hp).
    mstep (eq_refl : get_current s = Done (current (sch s), s)). rewrite Hc.
    mstep (eq_refl : get (fun s => pid (proc_at cur s)) s = Done (pid (proc_at cur s), s)). rewrite Hp.
    destruct (null_name_total _ Hpid) as [l Hl]. rewrite Hl. by exists (Some l), s.
  - mstep (eq_refl : get Process.ram s = Done (Process.ram s, s)). rewrite (os_ram _ _ _ (proj1 Hv)).
    destruct (string_view k (fun _ => 0) name 16 s Hv Hn ltac:(lia)) as (b & l & s1 & Hr & Hv1 & Ht & Hf).
    change (PROC_NAME_LEN + 1) with 16. mstep Hr. exists (if b then Some l else None), s1. split; [done|]. split; [done|].
    destruct b; [|split; [done|exact (Hf eq_refl)]]. destruct (Ht eq_refl) as (n & Hn' & Hs). by exists n, (fun _ => 0).
Qed.

(** Why a call is refused. *)
Inductive refusal (r : exec_room) (name argc argv : Z) : Z -> Prop :=
  | R_count : ~ 1 <= argc <= EXEC_MAX_ARG_NUM -> refusal r name argc argv (- E_INVAL)
  | R_name : name <> 0 -> no_string name 16 -> refusal r name argc argv (- E_INVAL)
  | R_array : ~ (USERBASE <= argv /\ argv + 8 * argc <= USERTOP /\
                 forall a, argv <= a < argv + 8 * argc -> accessible (mms s0 m) argv false a) -> refusal r name argc argv (- E_INVAL)
  | R_string i : Z.of_nat i < argc -> no_string (arg_ptr argv i) 4096 -> refusal r name argc argv (- E_INVAL)
  | R_memory i : Z.of_nat i < argc -> ex_argv r i = None -> refusal r name argc argv (- E_NO_MEM).

(** What the new program is given. *)
Record accepted (name argc argv : Z) (local_name : mem) (kargv : list mem) : Prop := mkAccepted {
  ac_count : 1 <= argc <= EXEC_MAX_ARG_NUM /\ Z.of_nat (length kargv) = argc;
  ac_name : if name =? 0 then null_name (pid (proc_at cur s0)) = Some local_name else copied_from name 16 local_name;
  ac_args i b : kargv !! i = Some b -> copied_from (arg_ptr argv i) 4096 b }.

(** C11 [do_execve] comes back to its caller only for one of the reasons of [refusal]:
    the number of arguments; an array of arguments that is not readable memory of the
    process; a name, or one of the arguments, that is no string of fewer than 16, or 4096,
    characters whose bytes, up to its end, the process may read; no memory for a copy.
    (The areas of the process are made of whole pages.)  Otherwise it has copied the name
    and every argument, with their ends, and goes on from [files_closeall] with them.
    Until then the kernel is as it was but for the cache of the address space, whose
    lock is free again. *)
Theorem do_execve_checks r name argc argv :
  0 <= name < 2 ^ 64 -> 0 <= argv < 2 ^ 64 -> 0 <= pid (proc_at cur s0) < MAX_PID -> 0 < mm_sem (mms s0 m) ->
  exists s', only_space m s0 s' /\ mm_sem (mms s' m) = mm_sem (mms s0 m) /\
    ((exists err, refusal r name argc argv err /\ do_execve npage boot_pgdir r name argc argv s0 = Done (Returns err, s')) \/
     (exists local_name kargv, accepted name argc argv local_name kargv /\
        do_execve npage boot_pgdir r name argc argv s0 = exec_commit npage boot_pgdir r local_name kargv (arg_ptr argv 0) s')).
Proof.
  intros Hn Ha Hp Hs. unfold do_execve.
  destruct ((1 <=? argc) && (argc <=? EXEC_MAX_ARG_NUM)) eqn:Hargc; cbn [negb].
  2: { destruct view_start as [Hv Hk]. exists s0. split; [done|]. split; [done|]. left. exists (- E_INVAL). split; [|done].
       apply R_count. intros [Hx Hy]. by rewrite (proj2 (Z.leb_le _ _) Hx), (proj2 (Z.leb_le _ _) Hy) in Hargc. }
  apply andb_true_iff in Hargc as [Hc1%Z.leb_le Hc2%Z.leb_le]. unfold EXEC_MAX_ARG_NUM in Hc2.
  destruct (lock_view s0 view_start Hs) as (s1 & Hr1 & Hv1). mstep Hr1.
  destruct (exec_name_run name _ s1 Hv1 Hn Hp) as (o & s2 & Hr2 & Hv2 & Ho). mstep Hr2. destruct o as [l|].
  2: { destruct (unlock_view s2 Hv2) as (s3 & Hr3 & Hv3 & Hk3). exists s3. split; [done|]. split; [done|]. left. exists (- E_INVAL).
       split; [by destruct Ho; apply R_name|by mstep Hr3]. }
  unfold copy_kargv. rewrite u64_small by lia.
  destruct (check_view _ argv (8 * argc) s2 Hv2 Ha ltac:(lia)) as (b & s3 & Hr3 & Hv3 & Hb).
  assert (Hk : exists ret kargv s4, (b ← check_user argv (8 * argc) false;
      if negb (b : bool) then mret (- E_INVAL, []) else copy_args (ex_argv r) (Z.to_nat argc) 0 argv) s2 = Done ((ret, kargv), s4) /\
      view (mm_sem (mms s0 m) - 1) s4 /\
      (ret = 0 /\ Z.of_nat (length kargv) = argc /\ (forall i b, kargv !! i = Some b -> copied_from (arg_ptr argv i) 4096 b) \/
       ret <> 0 /\ refusal r name argc argv ret)).
  { mstep Hr3. destruct b; cbn [negb].
    - destruct (copy_args_run (ex_argv r) argv _ (Z.to_nat argc) 0 s3 Hv3) as (ret & l' & s4 & Hr4 & Hv4 & Hc).
      exists ret, l', s4. split; [done|]. split; [done|].
      destruct Hc as [(-> & Hlen & Hall)|[(-> & j & Hj & Hjr)|(-> & j & Hj & Hjn)]].
      + left. split; [done|]. split; [lia|]. intros i b0 Hi. by apply (Hall i).
      + right. split; [done|]. apply (R_memory r name argc argv j); [lia|done].
      + right. split; [done|]. apply (R_string r name argc argv j); [lia|done].
    - exists (- E_INVAL), [], s3. split; [done|]. split; [done|]. right. split; [done|]. apply R_array.
      intros (Hx & Hy & Hz). enough (false = true) by done. apply Hb. split; [done|]. split; [lia|done]. }
  destruct Hk as (ret & kargv & s4 & Hr4 & Hv4 & Hc). mstep Hr4.
  destruct (unlock_view s4 Hv4) as (s5 & Hr5 & Hv5 & Hk5). exists s5. split; [done|]. split; [done|].
  destruct Hc as [(-> & Hlen & Hall)|[Hne Href]].
  - right. exists l, kargv. split; [by split|]. cbn [Z.eqb negb].
    mstep (eq_refl : get (fun s => le_get (Process.ram s) argv 8) s4 = Done (le_get (Process.ram s4) argv 8, s4)).
    mstep Hr5. rewrite (os_ram _ _ _ (proj1 Hv4)). unfold arg_ptr. by rewrite Z.add_0_r.
  - left. exists ret. split; [done|]. rewrite (proj2 (Z.eqb_neq _ _) Hne). cbn [negb]. by mstep Hr5.
Qed.
End execve_spec.

(** ** A process that becomes another program

    Process 3, a child of init, has address space 5 and file table 9; its root is page
    512, the page directory of the kernel page 513, its stack page 514; pages 520 to 535
    are free.  Its arguments are ["/a"] at 0x803100 and "x" at 0x803110, the array is at
    0x803200. *)
Definition exec_pmm : pmm :=
  mkPmm (fun i => if i =? 520 then mkPage 0 2 16 else mkPage 0 0 0)
        (list_add (list_init (mkLinks (fun l => l) (fun l => l)) Head) Head (Link 520)) 16.
Definition exec_proc (st : proc_state) (w : Z) (n : Z) (par c mm files : option Z) : proc_struct :=
  set_state st (set_wait_state w (set_pid n (set_parent par (set_cptr c (Proc.set_mm mm (Proc.set_filesp files (fresh_proc 0))))))).
Definition exec_procs (p : Z) : proc_struct :=
  if p =? 0 then exec_proc PROC_RUNNABLE 0 0 None None None None
  else if p =? 1 then exec_proc PROC_SLEEPING WT_CHILD 1 (Some 0) (Some 3) None None
  else if p =? 3 then exec_proc PROC_RUNNABLE 0 3 (Some 1) None (Some 5) (Some 9)
  else fresh_proc 0.
Definition exec_ram : mem :=
  let m : mem := fun a => if a =? 0x803100 then 47 else if a =? 0x803101 then 97 else if a =? 0x803110 then 120 else 0 in
  le_put (le_put m 0x803200 8 0x803100) 0x803208 8 0x803110.
Definition exec_kernel : kernel plain_inodes (machine pmm) :=
  mkKernel (mkSched (mkRqs (mkRq [] 0 5 None) (fun _ => mkSe false 5 true 0 1) (fun _ => mkNode None None None))
                    exec_procs 3 0 (fun _ => mkTimer 0 0) [])
           [3; 1] (fun _ => []) 3 1 pid_init
           (fun _ => mkMm [mkVma 0x800000 0x803000 5; mkVma 0x803000 0x805000 3] None 2 1 1 0)
           (fun _ => kva 512) (mkMachine (fun _ => 0) exec_pmm) sample_process
           (fun _ => mkFiles None sample_table 1 1) exec_ram [].
Definition exec_npage : Z := nbase + 536.
Definition exec_rooms (reads : bool) : exec_room :=
  mkExecRoom (fun _ => Some (fun _ => 0)) (Some (fun _ => 0)) (Some 6) 0
    (fun _ => if reads then Some (fun _ => 0) else None) (fun _ => true) (kva 514 + 256) (kva 514 + 512).
Definition run_execve (r : exec_room) (name argc argv : Z) :=
  do_execve (H1 := RR_class) exec_npage (kva 513) r name argc argv exec_kernel.
Definition after {X} (o : outcome (exec_end * kernel plain_inodes (machine pmm))) (f : kernel plain_inodes (machine pmm) -> X) : option (exec_end * X) :=
  match o with Done (e, s) => Some (e, f s) | _ => None end.

(** It starts at the entry of the program, with the new address space; the old one is
    given back.  The descriptor the program was read through stays open. *)
Example execve_starts :
  after (run_execve (exec_rooms true) 0x803100 2 0x803200)
        (fun s => (mm (proc_at 3 s), name (proc_at 3 s), mm_count (mms s 6), freed s, status (fd_array (files s 9) 1))) =
  Some (Starts (Some (mkFrame 0x7fffffdc 0x800018)), (Some 6, [47; 97] ++ repeat 0 14, 1, [Mm_mem 5], FD_OPENED)).
Proof. vm_compute. reflexivity. Qed.

(** Without memory for reading the program the process exits; its old address space is
    gone by then, and with it the step of [do_exit] that gives the files back: the
    table keeps its count of one user, and its descriptors stay open. *)
Example execve_failure_keeps_files :
  after (run_execve (exec_rooms false) 0x803100 2 0x803200)
        (fun s => (state (proc_at 3 s), files_count (files s 9), status (fd_array (files s 9) 1), opens (inodes (fs s)) 2)) =
  Some (Exits (- E_NO_MEM), (PROC_ZOMBIE, 1, FD_OPENED, 4)).
Proof. vm_compute. reflexivity. Qed.

Lemma do_execve_checks_witness :
  after (run_execve (exec_rooms true) 0x803100 2 0x700000) (fun s => mm_sem (mms s 5)) = Some (Returns (- E_INVAL), 1) /\
  exists s', only_space 5 exec_kernel s' /\ mm_sem (mms s' 5) = 1 /\
    ((exists err, refusal 5 exec_kernel (exec_rooms true) 0x803100 2 0x803200 err /\
        run_execve (exec_rooms true) 0x803100 2 0x803200 = Done (Returns err, s')) \/
     (exists local_name kargv, accepted 3 5 exec_kernel 0x803100 2 0x803200 local_name kargv /\
        run_execve (exec_rooms true) 0x803100 2 0x803200 =
          exec_commit (H1 := RR_class) exec_npage (kva 513) (exec_rooms true) local_name kargv (arg_ptr exec_kernel 0x803200 0) s')).
Proof.
  split; [vm_compute; reflexivity|].
  apply (do_execve_checks (H1 := RR_class) exec_npage (kva 513) 3 5 exec_kernel eq_refl eq_refl).
  - split; [|done|done]. cbn. unfold USERTOP. lia.
  - repeat constructor.
  - change (bytes_ok exec_ram). unfold exec_ram. apply le_put_ok, le_put_ok. intros a. cbv zeta. repeat case_match; lia.
  - lia.
  - lia.
  - cbn. unfold MAX_PID, MAX_PROCESS. lia.
  - cbn. lia.
Defined.
