(* ===== verification/ProcsInv.v ===== *)
(** * The well-formedness of the processes

    What every operation on processes keeps true: who is in [proc_list], in the
    hash lists and in the run queue, the families, the identifiers, and which
    states are possible.  An operation that works on memory, files or page tables
    only is a frame: it leaves all of that alone. *)
From S2P Require Import Prelude Libs Mem SfsDir Inode Vfs VfsSpec File Vmm SkewHeap RunQueue RunQueueSpec Proc Sched SchedSpec Pid Process ProcessSpec.

(** [p] comes after [c]: the lists are prepended to, so [p] is older. *)
Definition older (l : list Z) (c p : Z) : Prop := exists a b, l = a ++ c :: b /\ p ∈ b.

Lemma older_cons l c p x : older l c p -> older (x :: l) c p.
Proof. intros (a & b & -> & Hp). by exists (x :: a), b. Qed.
Lemma older_head l c p : p ∈ l -> older (c :: l) c p.
Proof. intros Hp. by exists [], l. Qed.
Lemma older_unlink l c p x : c <> x -> p <> x -> older l c p -> older (unlink x l) c p.
Proof.
  intros Hc Hp (a & b & -> & Hb). exists (unlink x a), (unlink x b). unfold unlink.
  rewrite filter_app, filter_cons_True by done. split; [done|]. by apply list_elem_of_filter.
Qed.
Lemma older_elem l c p : older l c p -> c ∈ l /\ p ∈ l.
Proof. intros (a & b & -> & Hb). rewrite !elem_of_app, !elem_of_cons. tauto. Qed.
Lemma older_last l c p : last l = Some p -> c ∈ l -> c <> p -> older l c p.
Proof.
  intros Hl (a & b & ->)%list_elem_of_split Hne. exists a, b. split; [done|].
  rewrite last_app, last_cons in Hl. destruct (last b) as [z|] eqn:Hb; injection Hl as ->; [|done]. by apply last_Some_elem_of.
Qed.
(** What comes after the last but one. *)
Lemma older_before l x p q : NoDup (l ++ [x; p]) -> older (l ++ [x; p]) x q -> q = p.
Proof.
  intros Hnd (a & b & Heq & Hq).
  assert (Hx : x ∉ l ++ [p]).
  { apply NoDup_app in Hnd as (_ & Hd & Hnd). apply NoDup_cons in Hnd as [Hxp _].
    rewrite elem_of_app. intros [Hin|Hin]; [|done]. apply (Hd x Hin). left. }
  change (l ++ [x; p]) with (l ++ x :: [p]) in Heq. rewrite Heq in Hnd.
  assert (Hab : l = a /\ [p] = b).
  { revert a Heq Hnd. induction l as [|y l IH]; intros [|z a] Heq Hnd; cbn in Heq.
    - by injection Heq.
    - injection Heq as -> Heq. exfalso. destruct a as [|? [|? ?]]; cbn in Heq; [injection Heq as -> ?|by injection Heq|by injection Heq].
      apply Hx. left.
    - injection Heq as -> Heq. exfalso. apply Hx. left.
    - injection Heq as -> Heq. apply NoDup_cons in Hnd as [_ Hnd]. apply not_elem_of_cons in Hx as [_ Hx].
      destruct (IH Hx a Heq Hnd) as [-> ->]. done. }
  destruct Hab as [_ <-]. by apply list_elem_of_singleton in Hq.
Qed.

Section procs_inv.
  Context {W P : Type} `{Inodes W} `{PageTables P} `{SchedClass}.
  Notation kern := (kernel W P).
  Implicit Types s : kern.

Definition everyone s : list Z := idleproc (sch s) :: proc_list s.
Definition the_pids s : list Z := (fun p => pid (gp s p)) <$> proc_list s.

(** [kids] are the children of each process, the youngest first. *)
Record procs_wf s (kids : Z -> list Z) : Prop := mkProcsWf {
  po_sched : exists q, sched_ok MAX_PROCESS (sch s) q;
  po_nodup : NoDup (everyone s);
  po_count : nr_process s = Z.of_nat (length (everyone s));
  po_room : nr_process s <= MAX_PROCESS;
  po_pid p : p ∈ proc_list s -> 1 <= pid (gp s p) < MAX_PID;
  po_unique : NoDup (the_pids s);
  po_window : window (the_pids s) (pids s);
  po_hash h p : p ∈ hash_list s h <-> p ∈ proc_list s /\ pid_hashfn (pid (gp s p)) = h;
  po_family p : p ∈ everyone s -> family (gp s) p (kids p);
  po_kids p c : p ∈ everyone s -> c ∈ kids p -> c ∈ proc_list s;
  po_order c : c ∈ proc_list s -> exists p, c ∈ kids p /\ (p = idleproc (sch s) \/ older (proc_list s) c p);
  po_alive p : p ∈ proc_list s -> state (gp s p) <> PROC_UNINIT;
  po_known p : runnable (sch s) p -> p ∈ everyone s;
  po_childless p : p ∈ everyone s -> state (gp s p) = PROC_ZOMBIE -> kids p = [];
  po_fit p : p ∈ everyone s -> sc_fit (ents (queues (sch s)) p);
  po_waits p : runnable (sch s) p -> wait_state (gp s p) = 0 }.
(** Between two operations the process that has the processor can run. *)
Definition procs_ok s kids : Prop := procs_wf s kids /\ runnable (sch s) (current (sch s)).

(** [init] is the first process and the only child of the idle process. *)
Record init_ok s (kids : Z -> list Z) : Prop := mkInitOk {
  io_last : last (proc_list s) = Some (initproc s);
  io_idle : kids (idleproc (sch s)) = [initproc s];
  io_alive : state (gp s (initproc s)) <> PROC_ZOMBIE }.
Definition procs_inv s : Prop := exists kids, procs_ok s kids /\ init_ok s kids.

(** ** Using it *)
Lemma known_current s kids : procs_ok s kids -> current (sch s) ∈ everyone s.
Proof. intros [Hok Hc]. by apply (po_known _ _ Hok). Qed.

Lemma parent_of s kids p c : procs_wf s kids -> p ∈ everyone s -> c ∈ kids p -> parent (gp s c) = Some p.
Proof. intros Hok Hp Hc. by apply (siblings_parent _ p (kids p) None), Hc; apply (po_family _ _ Hok). Qed.

Lemma kids_disjoint s kids p p' c : procs_wf s kids -> p ∈ everyone s -> p' ∈ everyone s ->
  c ∈ kids p -> c ∈ kids p' -> p = p'.
Proof.
  intros Hok Hp Hp' Hc Hc'. pose proof (parent_of _ _ _ _ Hok Hp Hc). pose proof (parent_of _ _ _ _ Hok Hp' Hc'). congruence.
Qed.

Lemma po_parent s kids c : procs_wf s kids -> c ∈ proc_list s -> exists p, p ∈ everyone s /\ c ∈ kids p.
Proof.
  intros Hok Hc. destruct (po_order _ _ Hok c Hc) as (p & Hp & Ho). exists p. split; [|done].
  unfold everyone. rewrite elem_of_cons. destruct Ho as [?|Ho%older_elem]; tauto.
Qed.

(** Every process of the list has a parent, which is no zombie. *)
Lemma has_parent s kids c : procs_wf s kids -> c ∈ proc_list s ->
  exists p, p ∈ everyone s /\ c ∈ kids p /\ parent (gp s c) = Some p /\ state (gp s p) <> PROC_ZOMBIE /\ p <> c.
Proof.
  intros Hok Hc. destruct (po_parent _ _ c Hok Hc) as (p & Hp & Hcp). exists p. split; [done|]. split; [done|].
  split; [by eapply parent_of|]. split.
  - intros Hz. rewrite (po_childless _ _ Hok p Hp Hz) in Hcp. by apply elem_of_nil in Hcp.
  - intros ->. by apply (fa_self _ _ _ (po_family _ _ Hok c Hp)).
Qed.

Lemma idle_not_listed s kids : procs_wf s kids -> idleproc (sch s) ∉ proc_list s.
Proof. intros Hok. by pose proof (po_nodup _ _ Hok) as [? _]%NoDup_cons. Qed.

Lemma idle_not_kid s kids p : procs_wf s kids -> p ∈ everyone s -> idleproc (sch s) ∉ kids p.
Proof. intros Hok Hp Hin. by apply (idle_not_listed _ _ Hok), (po_kids _ _ Hok p). Qed.

(** The queue holds no more than there are processes. *)
Lemma queue_short s n q : sched_ok n (sch s) q -> NoDup (everyone s) -> (forall p, runnable (sch s) p -> p ∈ everyone s) ->
  Z.of_nat (length (everyone s)) <= MAX_PROCESS -> sched_ok MAX_PROCESS (sch s) q.
Proof.
  intros [A B C D E] Hnd Hkn Hlen. split; try done. pose proof (sc_queue_nodup _ _ A) as Hq.
  assert (Hsub : q ⊆ everyone s) by (intros p Hp; apply Hkn; by apply B).
  pose proof (submseteq_length _ _ (NoDup_submseteq _ _ Hq Hsub)). split; [lia|]. unfold MAX_PROCESS. lia.
Qed.

(** ** Keeping it: states, the queue and the scheduler may change, links and lists
       do not *)
Definition same_lists s s' : Prop :=
  proc_list s' = proc_list s /\ hash_list s' = hash_list s /\ nr_process s' = nr_process s /\ pids s' = pids s /\
  idleproc (sch s') = idleproc (sch s).
Definition kin s s' (x : Z) : Prop := same_links (gp s) (gp s') x /\ pid (gp s' x) = pid (gp s x).
Definition same_kin s s' : Prop := forall x, kin s s' x.

Lemma same_lists_everyone s s' : same_lists s s' -> everyone s' = everyone s.
Proof. unfold everyone. by intros (-> & _ & _ & _ & ->). Qed.

Lemma procs_wf_step s s' kids n q :
  procs_wf s kids -> same_lists s s' -> (forall x, x ∈ everyone s -> kin s s' x) -> sched_ok n (sch s') q ->
  (forall p, p ∈ everyone s -> state (gp s' p) = PROC_ZOMBIE -> kids p = []) ->
  (forall p, p ∈ proc_list s -> state (gp s' p) <> PROC_UNINIT) ->
  (forall p, runnable (sch s') p -> p ∈ everyone s) ->
  (forall p, p ∈ everyone s -> sc_fit (ents (queues (sch s')) p)) ->
  (forall p, runnable (sch s') p -> wait_state (gp s' p) = 0) ->
  procs_wf s' kids.
Proof.
  intros Hok Hl Hk Hs Hz Hu Hkn Hf Hw. pose proof (same_lists_everyone _ _ Hl) as He.
  destruct Hl as (L1 & L2 & L3 & L4 & L5).
  assert (Hpids : the_pids s' = the_pids s).
  { unfold the_pids. rewrite L1. apply list_fmap_ext. intros i p Hp%list_elem_of_lookup_2.
    by destruct (Hk p ltac:(by right)) as [_ ->]. }
  split; rewrite ?He, ?Hpids, ?L1, ?L2, ?L3, ?L4, ?L5; try apply Hok; try done.
  - exists q. eapply queue_short; [done| | |]; rewrite He; [apply Hok|done|]. rewrite <- (po_count _ _ Hok). apply Hok.
  - intros p Hp. destruct (Hk p ltac:(by right)) as [_ ->]. by apply Hok.
  - intros h p. rewrite (po_hash _ _ Hok). split; intros [Hp Hh]; (split; [done|]);
      destruct (Hk p ltac:(by right)) as [_ Hpe]; [by rewrite Hpe|by rewrite <- Hpe].
  - intros p Hp. destruct (Hk p Hp) as [(_ & Hcp & _) _]. apply (family_ext (gp s)); [by apply Hok|done|].
    intros x Hx. apply (Hk x). right. by apply (po_kids _ _ Hok p).
Qed.

(** ** Frames *)
Definition same_procs_view s s' : Prop :=
  same_lists s s' /\ same_kin s s' /\ queues (sch s') = queues (sch s) /\ current (sch s') = current (sch s) /\
  initproc s' = initproc s /\
  forall x, state (gp s' x) = state (gp s x) /\ wait_state (gp s' x) = wait_state (gp s x).

Lemma view_refl s : same_procs_view s s.
Proof. by repeat split. Qed.

Lemma view_trans s1 s2 s3 : same_procs_view s1 s2 -> same_procs_view s2 s3 -> same_procs_view s1 s3.
Proof.
  intros ((A1 & A2 & A3 & A4 & A5) & B & C & D & E & F) ((A1' & A2' & A3' & A4' & A5') & B' & C' & D' & E' & F').
  split; [unfold same_lists; split_and!; congruence|]. split.
  - intros x. destruct (B x) as [(? & ? & ? & ?) ?], (B' x) as [(? & ? & ? & ?) ?]. unfold kin, same_links. split_and!; congruence.
  - split; [congruence|]. split; [congruence|]. split; [congruence|]. intros x. destruct (F x), (F' x). split; congruence.
Qed.

Lemma procs_wf_view s s' kids : same_procs_view s s' -> procs_wf s kids -> procs_wf s' kids.
Proof.
  intros (Hl & Hk & Hq & Hc & _ & Hst) Hok. destruct (po_sched _ _ Hok) as [q [A B C D E]].
  assert (Hi : idleproc (sch s') = idleproc (sch s)) by (by destruct Hl as (_ & _ & _ & _ & ?)).
  assert (Hr : forall p, runnable (sch s') p <-> runnable (sch s) p).
  { intros p. unfold runnable. destruct (Hst p) as [Hp _]. unfold gp in Hp. by rewrite Hp. }
  apply (procs_wf_step s s' kids MAX_PROCESS q Hok Hl (fun x _ => Hk x)).
  - split; rewrite ?Hq; [done| |by rewrite Hi, Hr| |done].
    + intros p. by rewrite Hr, Hc, Hi, B.
    + intros p. rewrite Hr, Hi. apply D.
  - intros p Hp. destruct (Hst p) as [-> _]. by apply Hok.
  - intros p Hp. destruct (Hst p) as [-> _]. by apply Hok.
  - intros p. rewrite Hr. apply Hok.
  - intros p. rewrite Hq. apply Hok.
  - intros p. rewrite Hr. destruct (Hst p) as [_ ->]. apply Hok.
Qed.

Lemma procs_ok_view s s' kids : same_procs_view s s' -> procs_ok s kids -> procs_ok s' kids.
Proof.
  intros Hv [Hok Hc]. split; [by eapply procs_wf_view|]. destruct Hv as (_ & _ & _ & Hcur & _ & Hst).
  destruct (Hst (current (sch s))) as [Hs _]. unfold runnable, gp in *. by rewrite Hcur, Hs.
Qed.

Definition frames {A} (c : ST kern A) : Prop := forall s a s', c s = Done (a, s') -> same_procs_view s s'.
(** A change of one process that is none of our business. *)
Definition private (f : proc_struct -> proc_struct) : Prop := forall x,
  parent (f x) = parent x /\ cptr (f x) = cptr x /\ yptr (f x) = yptr x /\ optr (f x) = optr x /\
  pid (f x) = pid x /\ state (f x) = state x /\ wait_state (f x) = wait_state x.

Lemma frames_ret {A} (a : A) : frames (mret a).
Proof. intros s b s' Hr. injection Hr as _ <-. apply view_refl. Qed.
Lemma frames_get {A} (f : kern -> A) : frames (get f).
Proof. intros s b s' Hr. injection Hr as _ <-. apply view_refl. Qed.
Lemma frames_panic {A} : frames (panic : ST kern A).
Proof. by intros s b s' Hr. Qed.
Lemma frames_no_fuel {A} : frames (no_fuel : ST kern A).
Proof. by intros s b s' Hr. Qed.
Lemma frames_assert b : frames (assert b).
Proof. destruct b; [apply frames_ret|apply frames_panic]. Qed.
Lemma frames_bind {A B} (c : ST kern A) (k : A -> ST kern B) : frames c -> (forall a, frames (k a)) -> frames (c ≫= k).
Proof. intros Hc Hk s b s' Hr. apply bind_Done_inv in Hr as (a & s1 & E1 & E2). eapply view_trans; [by eapply Hc|by eapply Hk]. Qed.
Lemma frames_modify f : (forall s, same_procs_view s (f s)) -> frames (modify f).
Proof. intros Hf s [] s' Hr. injection Hr as <-. apply Hf. Qed.
Lemma frames_part {X A} part (set : X -> kern -> kern) (m : ST X A) :
  (forall x s, same_procs_view s (set x s)) -> frames (on_part part set m).
Proof. intros Hs s a s' Hr. unfold on_part in Hr. destruct (m (part s)) as [[b x]| |]; try done. injection Hr as _ <-. apply Hs. Qed.
Lemma frames_process p f : private f -> frames (on_process p f).
Proof.
  intros Hf s [] s' Hr. rewrite on_process_run in Hr. injection Hr as <-. repeat split; intros;
    change (gp (with_procs _ s)) with (upd (gp s) p (f (gp s p))); unfold upd; case_decide; subst; try done;
    destruct (Hf (gp s p)) as (? & ? & ? & ? & ? & ? & ?); done.
Qed.

End procs_inv.

Ltac view_tac := intros; split; [by repeat split|]; split; [by repeat split|]; by repeat split.
Ltac frames_step :=
  first
    [ apply frames_ret | apply frames_get | apply frames_panic | apply frames_no_fuel | apply frames_assert
    | apply frames_bind; [|intros ?]
    | apply frames_process; by repeat split
    | apply frames_part; view_tac
    | apply frames_modify; view_tac
    | match goal with
      | |- frames (match ?x with _ => _ end) => destruct x
      | |- frames (let '(_, _) := ?x in _) => destruct x
      end ].
Ltac frames_tac := repeat frames_step.

Section procs_frames.
  Context {W P : Type} `{Inodes W} `{PageTables P} `{SchedClass}.
  Notation kern := (kernel W P).
  Implicit Types s : kern.

Lemma frames_setup_kstack p o : frames (setup_kstack p o : ST kern Z).
Proof. unfold setup_kstack. frames_tac. Qed.
Lemma frames_put_kstack p : frames (put_kstack p : ST kern unit).
Proof. unfold put_kstack, free. frames_tac. Qed.
Lemma frames_free o : frames (free o : ST kern unit).
Proof. unfold free. frames_tac. Qed.
Lemma frames_setup_pgdir m o : frames (setup_pgdir m o : ST kern Z).
Proof. unfold setup_pgdir, on_tables. frames_tac. Qed.
Lemma frames_add_mm_count m d : frames (add_mm_count m d : ST kern Z).
Proof. unfold add_mm_count, on_mm_at. frames_tac. Qed.
Lemma frames_exit_mm m : frames (exit_mm m : ST kern unit).
Proof. unfold exit_mm, on_tables. frames_tac. Qed.
Lemma frames_release_mm m : frames (release_mm m : ST kern unit).
Proof.
  unfold release_mm, put_pgdir, destroy_mm, on_mm_at. apply frames_bind; [apply frames_add_mm_count|intros c].
  destruct (c =? 0); [|apply frames_ret]. apply frames_bind; [apply frames_exit_mm|intros _]. unfold free. frames_tac.
Qed.
Lemma frames_good_mm p m : frames (good_mm p m : ST kern Z).
Proof.
  unfold good_mm, PADDR. apply frames_bind; [apply frames_add_mm_count|intros _]. frames_tac.
Qed.
Lemma frames_copy_mm r fl p : frames (copy_mm r fl p : ST kern Z).
Proof.
  unfold copy_mm, get_current, lock_mm_at, unlock_mm_at, on_mm_tables, on_mm_at, destroy_mm, put_pgdir, free, get_current.
  repeat first [apply frames_good_mm | apply frames_setup_pgdir | apply frames_exit_mm | frames_step].
Qed.
Lemma frames_put_files p : frames (put_files p : ST kern unit).
Proof. unfold put_files, add_files_count, on_fs. frames_tac. Qed.
Lemma frames_copy_files r fl p : frames (copy_files r fl p : ST kern Z).
Proof. unfold copy_files, good_files, add_files_count, on_fs, get_current. frames_tac. Qed.

(** ** Waking, switching, sleeping *)
Lemma wakeup_not_zombie p x r : wakeup_proc p x = Done r -> state (procs x p) <> PROC_ZOMBIE.
Proof.
  intros Hr Hz. unfold wakeup_proc, mbind, ST_bind, get in Hr. rewrite Hz in Hr. by cbn in Hr.
Qed.

(** What an operation on states alone leaves. *)
Definition same_rest s s' : Prop := same_lists s s' /\ same_kin s s' /\ initproc s' = initproc s.

Lemma rest_refl s : same_rest s s.
Proof. by repeat split. Qed.

(** The files are those they were. *)
Definition same_files s s' : Prop :=
  files s' = files s /\ fs s' = fs s /\ forall x, filesp (gp s' x) = filesp (gp s x).

Lemma wakeup_total s kids p : procs_wf s kids -> p ∈ everyone s -> state (gp s p) <> PROC_ZOMBIE ->
  exists s', wakeup p s = Done (tt, s').
Proof.
  intros Hok Hp Hz. destruct (po_sched _ _ Hok) as [q Hs].
  destruct (wakeup_run MAX_PROCESS (sch s) q p Hs ltac:(unfold MAX_PROCESS; lia) Hz (po_fit _ _ Hok p Hp)) as (x & _ & Hx & _).
  exists (set_sch x s). unfold wakeup, on_sched, on_part. by rewrite Hx.
Qed.

Lemma wakeup_keeps s s' kids p : procs_wf s kids -> p ∈ everyone s -> wakeup p s = Done (tt, s') ->
  procs_wf s' kids /\ same_rest s s' /\ current (sch s') = current (sch s) /\
  (forall k, state (gp s' k) = (if decide (k = p) then PROC_RUNNABLE else state (gp s k))) /\ same_files s s' /\
  timer (sch s') = timer (sch s).
Proof.
  intros Hok Hp Hr. unfold wakeup, on_sched, on_part in Hr.
  destruct (wakeup_proc p (sch s)) as [[[] x]| |] eqn:Hx; try done. injection Hr as <-.
  pose proof (wakeup_not_zombie _ _ _ Hx) as Hnz. destruct (po_sched _ _ Hok) as [q Hs].
  destruct (wakeup_run MAX_PROCESS (sch s) q p Hs ltac:(unfold MAX_PROCESS; lia) Hnz (po_fit _ _ Hok p Hp))
    as (x' & q' & Hx' & Hs' & (Hc & Hi & Htm & _ & Hg) & Hf). rewrite Hx in Hx'. injection Hx' as <-.
  assert (Hst : forall k, state (gp (set_sch x s) k) = if decide (k = p) then PROC_RUNNABLE else state (gp s k)).
  { intros k. change (gp (set_sch x s) k) with (procs x k). rewrite Hg. unfold runnable.
    destruct (decide (k = p)) as [->|Hne]; [|by rewrite decide_False by tauto].
    destruct (decide (state (procs (sch s) p) = PROC_RUNNABLE)) as [Hrp|Hrp].
    - by rewrite decide_False by tauto.
    - by rewrite decide_True. }
  assert (Hl : same_lists s (set_sch x s)) by (by repeat split).
  assert (Hk : same_kin s (set_sch x s)).
  { intros k. unfold kin. change (gp (set_sch x s) k) with (procs x k). unfold same_links, gp.
    change (gp (set_sch x s)) with (procs x). rewrite !Hg. by case_decide. }
  split; [|split; [by split; [|split]|split; [done|split; [done|split; [split; [done|split; [done|]]|done]]]]].
  2: { intros k. change (gp (set_sch x s) k) with (procs x k). rewrite Hg. by case_decide. }
  apply (procs_wf_step s (set_sch x s) kids (MAX_PROCESS + 1) q' Hok Hl (fun x _ => Hk x) Hs').
  - intros k Hk' Hz. rewrite Hst in Hz. case_decide; [done|]. by apply (po_childless _ _ Hok).
  - intros k Hk'. rewrite Hst. case_decide; [done|]. by apply (po_alive _ _ Hok).
  - intros k Hk'. unfold runnable in Hk'. change (procs (sch (set_sch x s)) k) with (gp (set_sch x s) k) in Hk'.
    rewrite Hst in Hk'. case_decide; [by subst|]. by apply (po_known _ _ Hok).
  - intros k Hk'. apply Hf. by apply (po_fit _ _ Hok).
  - intros k Hk'. unfold runnable in Hk'. change (procs (sch (set_sch x s)) k) with (gp (set_sch x s) k) in Hk'.
    change (gp (set_sch x s) k) with (procs x k). rewrite Hg. rewrite Hst in Hk'.
    destruct (decide (runnable (sch s) k)) as [Hrk|Hrk].
    + rewrite decide_False by (intros [-> ?]; done). by apply (po_waits _ _ Hok).
    + destruct (decide (k = p)) as [->|]; [by rewrite decide_True|by destruct Hrk].
Qed.

Lemma schedule_keeps s s' kids : procs_wf s kids -> on_sched schedule s = Done (tt, s') ->
  procs_ok s' kids /\ same_rest s s' /\ forall k, state (gp s' k) = state (gp s k).
Proof.
  intros Hok Hr. destruct (po_sched _ _ Hok) as [q Hs].
  destruct (schedule_fit MAX_PROCESS (sch s) q Hs) as (x & q' & Hx & Hs' & (Hi & _ & _ & Hg) & Hc & _ & _ & _ & Hf).
  unfold on_sched, on_part in Hr. rewrite Hx in Hr. injection Hr as <-.
  assert (Hst : forall k, state (gp (set_sch x s) k) = state (gp s k) /\ wait_state (gp (set_sch x s) k) = wait_state (gp s k))
    by (intros k; change (gp (set_sch x s) k) with (procs x k); by rewrite Hg).
  assert (Hrn : forall k, runnable x k <-> runnable (sch s) k) by (intros k; unfold runnable; by rewrite Hg).
  assert (Hl : same_lists s (set_sch x s)) by (by repeat split).
  assert (Hk : same_kin s (set_sch x s)).
  { intros k. unfold kin, same_links. change (gp (set_sch x s)) with (procs x). by rewrite (Hg k). }
  split; [|split; [by split; [|split]|intros k; by destruct (Hst k)]]. split; [|by apply Hrn].
  apply (procs_wf_step s (set_sch x s) kids MAX_PROCESS q' Hok Hl (fun x _ => Hk x) Hs').
  - intros k Hk'. destruct (Hst k) as [-> _]. by apply (po_childless _ _ Hok).
  - intros k Hk'. destruct (Hst k) as [-> _]. by apply (po_alive _ _ Hok).
  - intros k Hk'. apply (po_known _ _ Hok). by apply Hrn.
  - intros k Hk'. apply Hf. by apply (po_fit _ _ Hok).
  - intros k Hk'. destruct (Hst k) as [_ ->]. apply (po_waits _ _ Hok). by apply Hrn.
Qed.

(** The process that has the processor stops being able to run. *)
Lemma stop_keeps s kids st w : procs_ok s kids -> let cur := current (sch s) in cur <> idleproc (sch s) ->
  st <> PROC_UNINIT -> st <> PROC_RUNNABLE -> (st = PROC_ZOMBIE -> kids cur = []) ->
  let s' := with_procs (upd (gp s) cur (set_wait_state w (set_state st (gp s cur)))) s in
  procs_wf s' kids /\ same_rest s s'.
Proof.
  intros [Hok Hcr] cur Hci Hu Hnr Hz s'. destruct (po_sched _ _ Hok) as [q [A B C D E]].
  assert (Hg : forall k, gp s' k = if decide (k = cur) then set_wait_state w (set_state st (gp s cur)) else gp s k)
    by (intros k; unfold s'; rewrite gp_with; unfold upd; by case_decide).
  assert (Hl : same_lists s s') by (by repeat split).
  assert (Hk : same_kin s s') by (intros k; unfold kin, same_links; rewrite !Hg; case_decide; by subst).
  assert (Hrn : forall k, runnable (sch s') k <-> runnable (sch s) k /\ k <> cur).
  { intros k. unfold runnable. change (procs (sch s') k) with (gp s' k). rewrite Hg. case_decide; subst; cbn; [|unfold gp]; tauto. }
  split; [|by split; [|split]]. apply (procs_wf_step s s' kids MAX_PROCESS q Hok Hl (fun x _ => Hk x)).
  - split; [done| | | |done].
    + intros k. rewrite B, Hrn. change (idleproc (sch s')) with (idleproc (sch s)). change (current (sch s')) with cur.
      fold cur. tauto.
    + apply Hrn. split; [done|]. intros Heq. by apply Hci.
    + intros k [Hk' _]%Hrn. by apply D.
  - intros k Hk'. rewrite Hg. case_decide; subst; [done|]. by apply (po_childless _ _ Hok).
  - intros k Hk'. rewrite Hg. case_decide; [done|]. by apply (po_alive _ _ Hok).
  - intros k [Hk' _]%Hrn. by apply (po_known _ _ Hok).
  - intros k Hk'. by apply (po_fit _ _ Hok).
  - intros k [Hk' Hne]%Hrn. rewrite Hg, decide_False by done. by apply (po_waits _ _ Hok).
Qed.
End procs_frames.
