(* ===== verification/ProcsKeep.v ===== *)
(** * What the operations on processes keep

    Killing, yielding, sleeping and waiting keep the processes well-formed
    ([procs_inv] of [ProcsInv]), and so does the change of anything else. *)
From S2P Require Import Prelude Libs Mem SfsDir Inode Vfs VfsSpec File Vmm SkewHeap RunQueue RunQueueSpec Proc Sched SchedSpec TimerSpec Pid Process ProcessSpec ProcsInv.

Section procs_keep.
  Context {W P : Type} `{Inodes W} `{PageTables P} `{SchedClass}.
  Notation kern := (kernel W P).
  Implicit Types s : kern.

(** ** The transfers of the whole invariant *)
Lemma init_ok_rest s s' kids : same_rest s s' -> (state (gp s' (initproc s)) <> PROC_ZOMBIE) -> init_ok s kids -> init_ok s' kids.
Proof. intros ((L1 & _ & _ & _ & L5) & _ & Hi) Hz [A B _]. split; rewrite ?L1, ?L5, ?Hi; done. Qed.

Lemma procs_inv_view s s' : same_procs_view s s' -> procs_inv s -> procs_inv s'.
Proof.
  intros Hv (kids & Hok & Hi). exists kids. split; [by eapply procs_ok_view|]. destruct Hv as (Hl & Hk & _ & _ & Hin & Hst).
  apply (init_ok_rest s); [by split; [|split]| |done]. destruct (Hst (initproc s)) as [-> _]. apply (io_alive _ _ Hi).
Qed.

Lemma procs_inv_frames {A} (c : ST kern A) s a s' : frames c -> c s = Done (a, s') -> procs_inv s -> procs_inv s'.
Proof. intros Hf Hr. eapply procs_inv_view, Hf, Hr. Qed.

Lemma wakeup_inv s s' p : procs_inv s -> p ∈ everyone s -> wakeup p s = Done (tt, s') -> procs_inv s'.
Proof.
  intros (kids & [Hok Hc] & Hi) Hp Hr. destruct (wakeup_keeps s s' kids p Hok Hp Hr) as (Hok' & Hrest & Hcur & Hst & _).
  exists kids. split; [split; [done|]|].
  - unfold runnable. rewrite Hcur. change (state (gp s' (current (sch s))) = PROC_RUNNABLE). rewrite Hst. by case_decide.
  - apply (init_ok_rest s); [done| |done]. rewrite Hst. case_decide; [done|]. apply (io_alive _ _ Hi).
Qed.

Lemma schedule_inv s s' : procs_inv s -> on_sched schedule s = Done (tt, s') -> procs_inv s'.
Proof.
  intros (kids & [Hok Hc] & Hi) Hr. destruct (schedule_keeps s s' kids Hok Hr) as (Hok' & Hrest & Hst).
  exists kids. split; [done|]. apply (init_ok_rest s); [done| |done]. rewrite Hst. apply (io_alive _ _ Hi).
Qed.

(** The process that has the processor goes to sleep, having done [c]. *)
Lemma sleep_inv s s' w cur (c : ST kern unit) : procs_inv s -> cur = current (sch s) -> cur <> idleproc (sch s) -> frames c ->
  (on_process cur (set_state PROC_SLEEPING) ;; on_process cur (set_wait_state w) ;; c ;; on_sched schedule) s = Done (tt, s') ->
  procs_inv s'.
Proof.
  intros (kids & Hok & Hi) -> Hne Hfc Hr.
  destruct (stop_keeps s kids PROC_SLEEPING w Hok Hne ltac:(done) ltac:(done) ltac:(done)) as [Hok1 Hrest1].
  set (cur := current (sch s)) in *. set (s1 := with_procs _ s) in Hok1, Hrest1.
  assert (Heq : (on_process cur (set_state PROC_SLEEPING) ;; on_process cur (set_wait_state w) ;; c ;; on_sched schedule) s
                = (c ;; on_sched schedule) s1).
  { mstep (on_process_run cur (set_state PROC_SLEEPING) s).
    mstep (on_process_run cur (set_wait_state w) (with_procs (upd (gp s) cur (set_state PROC_SLEEPING (gp s cur))) s)).
    unfold s1. rewrite gp_with, upd_eq. unfold with_procs. cbn. by rewrite upd_upd. }
  rewrite Heq in Hr. apply bind_Done_inv in Hr as ([] & s2 & Hc & Hr). pose proof (Hfc _ _ _ Hc) as Hv.
  pose proof (procs_wf_view _ _ _ Hv Hok1) as Hok2.
  destruct (schedule_keeps s2 s' kids Hok2 Hr) as (Hok' & Hrest & Hst).
  exists kids. split; [done|]. destruct Hv as (Hlv & Hkv & _ & _ & Hiv & Hsv). destruct Hrest1 as (Hl1 & Hk1 & Hi1).
  assert (Hal : state (gp s1 (initproc s)) <> PROC_ZOMBIE)
    by (unfold s1; rewrite gp_with; unfold upd; case_decide; [done|apply (io_alive _ _ Hi)]).
  apply (init_ok_rest s2); [done| |apply (init_ok_rest s1)].
  - rewrite Hst, Hiv, Hi1. by destruct (Hsv (initproc s)) as [-> _].
  - by split; [|split].
  - rewrite Hi1. by destruct (Hsv (initproc s)) as [-> _].
  - by apply (init_ok_rest s).
Qed.

(** ** Timers *)
Definition calm {A} (m : ST sched A) : Prop := forall x a y, m x = Done (a, y) -> only_timers x y.

Lemma calm_ret {A} (a : A) : calm (mret a).
Proof. intros x b y Hr. by injection Hr as _ <-. Qed.
Lemma calm_get {A} (f : sched -> A) : calm (get f).
Proof. intros x b y Hr. by injection Hr as _ <-. Qed.
Lemma calm_assert b : calm (assert b).
Proof. intros x [] y Hr. by apply assert_Done_inv in Hr as [_ [= <-]]. Qed.
Lemma calm_bind {A B} (m : ST sched A) (k : A -> ST sched B) : calm m -> (forall a, calm (k a)) -> calm (m ≫= k).
Proof. intros Hm Hk x b y Hr. apply bind_Done_inv in Hr as (a & z & E1 & E2). eapply only_timers_trans; [by eapply Hm|by eapply Hk]. Qed.
Lemma calm_expires t e : calm (set_expires t e).
Proof. intros x [] y Hr. injection Hr as <-. do 4 (split; [done|]). intros k. cbn. unfold upd. case_decide; by subst. Qed.
Lemma calm_timer_list f : calm (modify (fun x => set_timer_list (f x) x)).
Proof. intros x [] y Hr. by injection Hr as <-. Qed.

Ltac calm_tac := repeat first
  [ apply calm_ret | apply calm_get | apply calm_assert | apply calm_expires | apply calm_timer_list
  | apply calm_bind; [|intros ?]
  | match goal with
    | |- calm (match ?x with _ => _ end) => destruct x
    | |- calm (let '(_, _) := ?x in _) => destruct x
    end ].

Lemma calm_pass t l : calm (pass_timers t l).
Proof. induction l as [|n l IH]; cbn [pass_timers]; calm_tac; done. Qed.
Lemma calm_add t : calm (add_timer t).
Proof. unfold add_timer. apply calm_bind; [calm_tac|intros e]. apply calm_bind; [calm_tac|intros _]. apply calm_bind; [calm_tac|intros l].
  apply calm_bind; [calm_tac|intros _]. apply calm_bind; [apply calm_pass|intros [a b]]. apply (calm_timer_list (fun _ => a ++ t :: b)). Qed.
Lemma calm_del t : calm (del_timer t).
Proof. unfold del_timer. calm_tac. Qed.
Lemma frames_calm {A} (m : ST sched A) : calm m -> frames (on_sched m : ST kern A).
Proof.
  intros Hm s a s' Hr. unfold on_sched, on_part in Hr. destruct (m (sch s)) as [[b y]| |] eqn:Hy; try done.
  injection Hr as _ <-. destruct (Hm _ _ _ Hy) as (A1 & A2 & A3 & A4 & _).
  assert (Hg : gp (set_sch y s) = gp s) by (unfold gp; cbn; congruence).
  split; [by split_and!|]. split; [intros x; unfold kin, same_links; by rewrite Hg|]. split; [done|]. split; [done|].
  split; [done|]. intros x. by rewrite Hg.
Qed.

Lemma do_sleep_inv s s' t time r : procs_inv s -> current (sch s) <> idleproc (sch s) ->
  do_sleep t time s = Done (r, s') -> procs_inv s'.
Proof.
  intros Hinv Hne Hr. unfold do_sleep in Hr. destruct (time =? 0); [by injection Hr as _ <-|].
  rewrite (bind_Done _ _ _ _ _ (eq_refl : get_current s = Done (current (sch s), s))) in Hr.
  apply bind_Done_inv in Hr as ([] & s1 & Ht & Hr).
  assert (Hv : same_procs_view s s1) by (injection Ht as <-; split; [|split]; by repeat split). pose proof (procs_inv_view _ _ Hv Hinv) as Hinv1.
  destruct Hv as ((_ & _ & _ & _ & Hi) & _ & _ & Hc & _).
  apply (sleep_inv s1 s' WT_TIMER (current (sch s)) (on_sched (add_timer t)) Hinv1); [done|congruence|apply frames_calm, calm_add|].
  apply bind_Done_inv in Hr as ([] & s2 & H2' & Hr). mstep H2'. apply bind_Done_inv in Hr as ([] & s3 & H3' & Hr). mstep H3'.
  apply bind_Done_inv in Hr as ([] & s4 & H4' & Hr). mstep H4'. apply bind_Done_inv in Hr as ([] & s5 & H5' & Hr).
  injection Hr as _ <-. done.
Qed.

(** The processes whose timers expire are woken, then the class sees the tick. *)
Lemma expire_inv l : forall s s', procs_inv s -> (forall t, t ∈ l -> tproc (timer (sch s) t) ∈ everyone s) ->
  on_sched (expire_timers l) s = Done (tt, s') -> procs_inv s' /\ current (sch s') = current (sch s).
Proof.
  induction l as [|t l IH]; intros s s' Hinv Ht Hr; [injection Hr as <-; by destruct s|].
  unfold on_sched, on_part in Hr. cbn [expire_timers] in Hr.
  rewrite (bind_Done _ _ _ _ _ (eq_refl : get (fun x : sched => expires (timer x t)) (sch s) = Done (expires (timer (sch s) t), sch s))) in Hr.
  destruct (expires (timer (sch s) t) =? 0); [|by injection Hr as <-; destruct s].
  match type of Hr with match ?c with _ => _ end = _ => destruct c as [[[] y]| |] eqn:Hx end; try done. injection Hr as <-.
  apply bind_Done_inv in Hx as (p & x0 & Hp & Hx). injection Hp as <- <-.
  apply bind_Done_inv in Hx as (w & x0 & Hw & Hx). injection Hw as _ <-.
  apply bind_Done_inv in Hx as ([] & x0 & Ha & Hx).
  assert (x0 = sch s) as -> by (destruct (w =? 0); [by injection Ha|by apply assert_Done_inv in Ha as [_ [= <-]]]).
  apply bind_Done_inv in Hx as ([] & x1 & Hwk & Hx). apply bind_Done_inv in Hx as ([] & x2 & Hd & Hx).
  set (p := tproc (timer (sch s) t)) in *. pose proof (Ht t ltac:(left)) as Hp.
  assert (Hwr : wakeup p s = Done (tt, set_sch x1 s)) by (unfold wakeup, on_sched, on_part; by rewrite Hwk).
  pose proof (wakeup_inv s (set_sch x1 s) p Hinv Hp Hwr) as Hinv1.
  assert (Hdr : on_sched (del_timer t) (set_sch x1 s) = Done (tt, set_sch x2 s)) by (unfold on_sched, on_part; cbn; by rewrite Hd).
  pose proof (frames_calm _ (calm_del t) _ _ _ Hdr) as Hv. pose proof (procs_inv_view _ _ Hv Hinv1) as Hinv2.
  pose proof Hinv as (kids & [Hok _] & _). destruct (wakeup_keeps s _ kids p Hok Hp Hwr) as (_ & ((_ & _ & _ & _ & Hi1) & _) & Hc1 & _ & _ & Htm).
  cbn [sch set_sch] in Htm.
  destruct Hv as ((_ & _ & _ & _ & Hi2) & _ & _ & Hc2 & _).
  assert (Htp : forall u, tproc (timer x2 u) = tproc (timer (sch s) u)).
  { intros u. destruct (calm_del t _ _ _ Hd) as (_ & _ & _ & _ & ->). by rewrite Htm. }
  destruct (IH (set_sch x2 s) (set_sch y s) Hinv2) as [Hinv' Hc'].
  - intros u Hu. cbn [sch set_sch]. rewrite Htp. change (everyone (set_sch x2 s)) with (idleproc x2 :: proc_list s).
    cbn in Hi1, Hi2. rewrite Hi2, Hi1. apply Ht. by right.
  - unfold on_sched, on_part. cbn. by rewrite Hx.
  - split; [done|]. cbn in *. congruence.
Qed.


(** ** Finding a process *)
Lemma find_pid_sound n l s p : find_pid n l s = Some p -> p ∈ l /\ pid (gp s p) = n.
Proof.
  induction l as [|x l IH]; [done|]. cbn. destruct (Z.eqb_spec (pid (proc_at x s)) n) as [Hx|Hx].
  - intros [= ->]. split; [left|done].
  - intros Hf. destruct (IH Hf). split; [by right|done].
Qed.
Lemma find_pid_none n l s : find_pid n l s = None -> forall p, p ∈ l -> pid (gp s p) <> n.
Proof.
  induction l as [|x l IH]; [by intros _ p ?%elem_of_nil|]. cbn. destruct (Z.eqb_spec (pid (proc_at x s)) n) as [Hx|Hx]; [done|].
  intros Hf p [->|Hp]%elem_of_cons; [done|]. by apply IH.
Qed.

Lemma NoDup_fmap_inj {A B} (f : A -> B) l x y : NoDup (f <$> l) -> x ∈ l -> y ∈ l -> f x = f y -> x = y.
Proof.
  induction l as [|z l IH]; [by intros _ ?%elem_of_nil|]. cbn. intros [Hz Hnd]%NoDup_cons [->|Hx]%elem_of_cons [->|Hy]%elem_of_cons Hf.
  - done.
  - exfalso. apply Hz. rewrite Hf. by apply list_elem_of_fmap_2.
  - exfalso. apply Hz. rewrite <- Hf. by apply list_elem_of_fmap_2.
  - by apply IH.
Qed.

Lemma find_proc_exact s kids n p : procs_wf s kids -> find_proc n s = Some p <-> p ∈ proc_list s /\ pid (gp s p) = n.
Proof.
  intros Hok. unfold find_proc. split.
  - destruct ((0 <? n) && (n <? MAX_PID)); [|done]. intros [Hin Hp]%find_pid_sound. by apply (po_hash _ _ Hok) in Hin as [? _].
  - intros [Hp Hn]. pose proof (po_pid _ _ Hok p Hp) as Hr. rewrite Hn in Hr.
    rewrite (proj2 (Z.ltb_lt _ _)), (proj2 (Z.ltb_lt _ _)) by lia. cbn [andb].
    assert (Hin : p ∈ hash_list s (pid_hashfn n)) by (apply (po_hash _ _ Hok); by rewrite Hn).
    destruct (find_pid n (hash_list s (pid_hashfn n)) s) as [p'|] eqn:Hf.
    + apply find_pid_sound in Hf as [Hf Hp']. apply (po_hash _ _ Hok) in Hf as [Hf _]. f_equal.
      apply (NoDup_fmap_inj (fun p => pid (gp s p)) (proc_list s)); [apply (po_unique _ _ Hok)|done|done|congruence].
    + by destruct (find_pid_none _ _ _ Hf p Hin).
Qed.

(** ** Killing *)
Lemma kill_inv s s' n r : procs_inv s -> do_kill n s = Done (r, s') -> procs_inv s'.
Proof.
  intros Hinv Hr. pose proof Hinv as (kids & [Hok _] & _). unfold do_kill in Hr.
  rewrite (bind_Done _ _ _ _ _ (eq_refl : get (find_proc n) s = Done (find_proc n s, s))) in Hr.
  destruct (find_proc n s) as [p|] eqn:Hf; [|by injection Hr as _ <-].
  apply (find_proc_exact _ _ _ _ Hok) in Hf as [Hp _].
  rewrite (bind_Done _ _ _ _ _ (eq_refl : get (fun s => flags (proc_at p s)) s = Done (flags (gp s p), s))) in Hr.
  destruct (Z.land (flags (gp s p)) PF_EXITING =? 0); [|by injection Hr as _ <-].
  apply bind_Done_inv in Hr as ([] & s1 & Hm & Hr). apply bind_Done_inv in Hr as (w & s2 & Hw & Hr). injection Hw as _ <-.
  apply bind_Done_inv in Hr as ([] & s3 & Hwk & Hr). injection Hr as _ <-.
  assert (Hfr : frames (W := W) (P := P) (on_process p (fun x => set_flags (Z.lor (flags x) PF_EXITING) x)))
    by (apply frames_process; by repeat split).
  pose proof (Hfr _ _ _ Hm) as Hv. pose proof (procs_inv_view _ _ Hv Hinv) as Hinv1.
  destruct (negb _); [|by injection Hwk as <-]. apply (wakeup_inv s1 s3 p); [done| |done].
  destruct Hv as (Hl & _). rewrite (same_lists_everyone _ _ Hl). unfold everyone. by right.
Qed.

(** ** What changes the queue only *)
Definition set_rqs q s : kern := set_sch (set_queues q (sch s)) s.

Lemma queues_inv s q : procs_inv s -> (forall l, current (sch s) ∉ l -> sc_queue (queues (sch s)) l -> sc_queue q l) ->
  (forall k, sc_fit (ents (queues (sch s)) k) -> sc_fit (ents q k)) -> procs_inv (set_rqs q s).
Proof.
  intros (kids & [Hok Hc] & Hi) Hq Hf. exists kids. split; [split; [|done]|by destruct Hi; split].
  destruct (po_sched _ _ Hok) as [l [A B C D E]].
  apply (procs_wf_step s (set_rqs q s) kids MAX_PROCESS l Hok); try (by repeat split); try apply Hok.
  - split; [|done|done| |done].
    + apply Hq; [|done]. rewrite B. by intros (_ & ? & _).
    + intros p Hp Hpi. by apply Hf, D.
  - intros p Hp. by apply Hf, (po_fit _ _ Hok).
Qed.

Lemma yield_inv s s' r : procs_inv s -> do_yield s = Done (r, s') -> procs_inv s'.
Proof.
  intros Hinv Hr. injection Hr as _ <-.
  apply (queues_inv s (mkRqs (rq (queues (sch s))) (upd (ents (queues (sch s))) (current (sch s))
           (set_need_resched true (ents (queues (sch s)) (current (sch s))))) (nodes (queues (sch s))))); [done| |].
  - intros l _. apply sc_queue_resched.
  - intros k Hk. cbn. unfold upd. case_decide; [subst; by apply sc_fit_resched|done].
Qed.

(** The tick of the clock for the process that runs. *)
Lemma tick_inv s s' : procs_inv s -> on_sched (sched_class_proc_tick (current (sch s))) s = Done (tt, s') -> procs_inv s'.
Proof.
  intros Hinv Hr. pose proof Hinv as (kids & [Hok Hc] & Hi). destruct (po_sched _ _ Hok) as [l Hs].
  unfold on_sched, on_part, sched_class_proc_tick in Hr.
  rewrite (bind_Done _ _ _ _ _ (eq_refl : get idleproc (sch s) = Done (idleproc (sch s), sch s))) in Hr.
  destruct (current (sch s) =? idleproc (sch s)).
  - injection Hr as <-.
    apply (queues_inv s (mkRqs (rq (queues (sch s))) (upd (ents (queues (sch s))) (current (sch s))
           (set_need_resched true (ents (queues (sch s)) (current (sch s))))) (nodes (queues (sch s))))); [done| |].
    + intros k _. apply sc_queue_resched.
    + intros k Hk. cbn. unfold upd. case_decide; [subst; by apply sc_fit_resched|done].
  - unfold on_queues in Hr. destruct (sc_proc_tick (current (sch s)) (queues (sch s))) as [[[] q]| |] eqn:Hq; try done.
    injection Hr as <-. apply (queues_inv s q); [done| |].
    + intros k _ Hk. destruct (sc_tick_law _ _ (current (sch s)) Hk) as (q' & Hq' & ? & _). congruence.
    + intros k Hk. destruct (sc_tick_law _ _ (current (sch s)) (so_queue _ _ _ Hs)) as (q' & Hq' & _ & ?).
      rewrite Hq in Hq'. injection Hq' as <-. auto.
Qed.

(** The clock: the processes whose timers expire are woken, then the tick. *)
Lemma clock_inv s s' : procs_inv s -> (forall t, t ∈ timer_list (sch s) -> tproc (timer (sch s) t) ∈ everyone s) ->
  on_sched run_timer_list s = Done (tt, s') -> procs_inv s'.
Proof.
  intros Hinv Ht Hr. unfold on_sched, on_part in Hr. destruct (run_timer_list (sch s)) as [[[] y]| |] eqn:Hx; try done.
  injection Hr as <-. unfold run_timer_list in Hx.
  apply bind_Done_inv in Hx as (l & x0 & Hl & Hx). injection Hl as <- <-. apply bind_Done_inv in Hx as ([] & x1 & H1' & Hx).
  apply bind_Done_inv in Hx as (cur & x0 & Hc & Hx). injection Hc as <- <-.
  assert (Hinv1 : procs_inv (set_sch x1 s)).
  { destruct (timer_list (sch s)) as [|t l] eqn:Hl; [injection H1' as <-; by destruct s|].
    apply bind_Done_inv in H1' as (e & x0 & He & H1'). injection He as _ <-.
    apply bind_Done_inv in H1' as ([] & x0 & [_ [= ->]]%assert_Done_inv & H1'). apply bind_Done_inv in H1' as ([] & x0 & He & H1').
    pose proof (calm_expires _ _ _ _ _ He) as Ho.
    assert (Hv : same_procs_view s (set_sch x0 s)).
    { apply (frames_calm _ (calm_expires t (e - 1)) s tt). unfold on_sched, on_part. by rewrite He. }
    apply (expire_inv (t :: l) (set_sch x0 s)); [by apply (procs_inv_view s)| |unfold on_sched, on_part; cbn [sch set_sch]; by rewrite H1'].
    intros u Hu. destruct Ho as (_ & _ & _ & Hi & Htp). cbn. rewrite Htp.
    change (everyone (set_sch x0 s)) with (idleproc x0 :: proc_list s). rewrite Hi. by apply Ht. }
  apply (tick_inv (set_sch x1 s)); [done|]. unfold on_sched, on_part. cbn. by rewrite Hx.
Qed.

Lemma priority_inv s s' n : procs_inv s -> (forall e, sc_fit (mkSe (need_resched e) (time_slice e) (on_rq e) (lab6_stride e) (if n =? 0 then 1 else n))) ->
  lab6_set_priority n s = Done (tt, s') -> procs_inv s'.
Proof.
  intros Hinv Hfit Hr. injection Hr as <-. set (cur := current (sch s)). set (e := ents (queues (sch s)) cur).
  apply (queues_inv s (mkRqs (rq (queues (sch s))) (upd (ents (queues (sch s))) cur
           (mkSe (need_resched e) (time_slice e) (on_rq e) (lab6_stride e) (if n =? 0 then 1 else n))) (nodes (queues (sch s))))); [done| |].
  - intros l Hl Hq. rewrite <- (upd_same (nodes (queues (sch s))) cur (nodes (queues (sch s)) cur) eq_refl).
    by apply sc_queue_new.
  - intros k Hk. cbn. unfold upd. case_decide; [apply Hfit|done].
Qed.

(** ** Reaping a child *)
Definition upd_kids (kids : Z -> list Z) (p : Z) (l : list Z) : Z -> list Z := fun q => if decide (q = p) then l else kids q.

(** The families without the zombie child [p] of [cur]. *)
Lemma reaped_families s s' kids cur p store a b : procs_wf s kids -> cur ∈ everyone s -> kids cur = a ++ p :: b ->
  state (gp s p) = PROC_ZOMBIE -> reaped s s' cur p store (a ++ b) ->
  let kids' := upd_kids kids cur (a ++ b) in
  (forall x, x ∈ everyone s -> x <> p -> family (gp s') x (kids' x)) /\
  (forall x c, x ∈ everyone s -> c ∈ kids' x -> c ∈ proc_list s /\ c <> p) /\
  (forall c x, c ∈ kids x -> c <> p -> c ∈ kids' x).
Proof.
  intros Hok Hcur Hk Hz Hre kids'. pose proof (po_family _ _ Hok cur Hcur) as [_ _ Hnd Hself].
  assert (Hp : p ∈ kids cur) by (rewrite Hk; apply elem_of_app; right; left).
  assert (Hpab : p ∉ a ++ b). { rewrite Hk, <- Permutation_middle in Hnd. by apply NoDup_cons in Hnd as [? _]. }
  assert (Hsub : forall c, c ∈ a ++ b -> c ∈ kids cur)
    by (intros c; rewrite Hk, !elem_of_app, elem_of_cons; tauto).
  split; [|split].
  - intros x Hx Hxp. unfold kids', upd_kids. case_decide as Hxc; [rewrite Hxc; apply (re_family _ _ _ _ _ _ Hre)|].
    apply (family_place (gp s)); [by apply (po_family _ _ Hok)|by apply (re_cptr _ _ _ _ _ _ Hre)|].
    intros c Hc. apply (re_place _ _ _ _ _ _ Hre). intros Hin%Hsub. apply Hxc. by apply (kids_disjoint s kids x cur c).
  - intros x c Hx Hc. unfold kids', upd_kids in Hc. case_decide as Hxc.
    + split; [apply (po_kids _ _ Hok cur); auto|]. by intros ->.
    + split; [by apply (po_kids _ _ Hok x)|]. intros ->. apply Hxc. by apply (kids_disjoint s kids x cur p).
  - intros c x Hc Hcp. unfold kids', upd_kids. case_decide as Hxc; [|done]. subst x. rewrite Hk in Hc.
    rewrite elem_of_app, elem_of_cons in Hc. rewrite elem_of_app. tauto.
Qed.

Lemma sched_ok_same n s s' q : sched_ok n (sch s) q -> same_machine s s' -> same_life (gp s) (gp s') -> sched_ok n (sch s') q.
Proof.
  intros [A B C D E] (Hq & Hc & Hi & _) Hl.
  assert (Hr : forall p, runnable (sch s') p <-> runnable (sch s) p)
    by (intros p; unfold runnable; destruct (Hl p) as (Hst & _); unfold gp in Hst; by rewrite Hst).
  split; rewrite ?Hq, ?Hi; [done| |by apply Hr| |done].
  - intros p. rewrite Hr, Hc. apply B.
  - intros p Hp. apply D. by apply Hr.
Qed.

Lemma everyone_length s kids : procs_wf s kids -> nr_process s = Z.of_nat (length (proc_list s)) + 1 /\ nr_process s <= MAX_PROCESS.
Proof. intros Hok. pose proof (po_count _ _ Hok). pose proof (po_room _ _ Hok). unfold everyone in *. cbn [length] in *. lia. Qed.

Lemma reaped_wf s s' kids cur p store a b : procs_ok s kids -> cur = current (sch s) -> kids cur = a ++ p :: b ->
  state (gp s p) = PROC_ZOMBIE -> reaped s s' cur p store (a ++ b) -> procs_ok s' (upd_kids kids cur (a ++ b)).
Proof.
  intros Hpo -> Hk Hz Hre. pose proof Hpo as [Hok Hrc]. pose proof (known_current _ _ Hpo) as Hcur. set (cur := current (sch s)) in *.
  destruct (reaped_families s s' kids cur p store a b Hok Hcur Hk Hz Hre) as (F1 & F2 & F3).
  destruct (re_machine _ _ _ _ _ _ Hre) as (M1 & M2 & M3 & M4 & M5). pose proof (re_life _ _ _ _ _ _ Hre) as Hl.
  pose proof (re_list _ _ _ _ _ _ Hre) as L.
  assert (Hp : p ∈ kids cur) by (rewrite Hk; apply elem_of_app; right; left).
  pose proof (po_kids _ _ Hok cur p Hcur Hp) as Hpl.
  assert (Hpi : p <> idleproc (sch s)) by (intros ->; by apply (idle_not_listed _ _ Hok)).
  assert (Hcp : cur <> p). { intros Heq. unfold runnable in Hrc. unfold gp in Hz. rewrite Heq in Hrc. congruence. }
  pose proof (po_nodup _ _ Hok) as [Hin Hnd]%NoDup_cons.
  assert (He : forall x, x ∈ everyone s' <-> x ∈ everyone s /\ x <> p).
  { intros x. unfold everyone. rewrite L, M3, !elem_of_cons, elem_of_unlink. split; [|tauto]. intros [->|?]; [|tauto]. split; [by left|congruence]. }
  assert (Hst : forall x, state (gp s' x) = state (gp s x)) by (intros x; by destruct (Hl x) as (? & _)).
  assert (Hpd : forall x, pid (gp s' x) = pid (gp s x)) by (intros x; by destruct (Hl x) as (_ & _ & _ & ? & _)).
  assert (Hrn : forall x, runnable (sch s') x <-> runnable (sch s) x).
  { intros x. specialize (Hst x). unfold runnable, gp in *. by rewrite Hst. }
  assert (Hpids : the_pids s' = (fun x => pid (gp s x)) <$> unlink p (proc_list s))
    by (unfold the_pids; rewrite L; apply list_fmap_ext; intros; apply Hpd).
  destruct (everyone_length _ _ Hok) as [Hlen Hroom]. pose proof (length_unlink p (proc_list s) Hnd Hpl) as Hul.
  assert (Hnr : nr_process s' = nr_process s - 1)
    by (rewrite (re_count _ _ _ _ _ _ Hre), s32_small; [done|unfold MAX_PROCESS in *; lia]).
  split; [|unfold runnable; rewrite M2; by apply Hrn]. split.
  - destruct (po_sched _ _ Hok) as [q Hq]. exists q. by apply (sched_ok_same _ s).
  - unfold everyone. rewrite L, M3. apply NoDup_cons. rewrite elem_of_unlink. split; [tauto|]. by apply NoDup_filter.
  - rewrite Hnr. unfold everyone. rewrite L. cbn [length]. lia.
  - lia.
  - intros x. rewrite L, elem_of_unlink, Hpd. intros [? _]. by apply (po_pid _ _ Hok).
  - rewrite Hpids. apply NoDup_fmap_unlink, (po_unique _ _ Hok).
  - rewrite Hpids, M5. destruct (po_window _ _ Hok) as [A B C]. split; [done|done|].
    intros n (x & -> & [Hx _]%elem_of_unlink)%list_elem_of_fmap. apply C. unfold the_pids. apply list_elem_of_fmap. by exists x.
  - intros h x. rewrite (re_hash _ _ _ _ _ _ Hre), L, elem_of_unlink, Hpd.
    pose proof (po_hash _ _ Hok h x) as Hh. case_decide as Hd; [rewrite elem_of_unlink|]; [tauto|].
    split; [|tauto]. intros Hx. split; [|tauto]. split; [tauto|]. intros ->. apply Hd. by apply Hh in Hx as [_ ?].
  - intros x [Hx Hxp]%He. by apply F1.
  - intros x c [Hx _]%He Hc. rewrite L, elem_of_unlink. by apply (F2 x).
  - intros c. rewrite L, elem_of_unlink. intros [Hc Hcne]. destruct (po_order _ _ Hok c Hc) as (x & Hx & Ho).
    assert (Hxp : x <> p).
    { intros ->. rewrite (po_childless _ _ Hok p) in Hx by first [done|by right]. by apply elem_of_nil in Hx. }
    exists x. split; [by apply F3|]. rewrite M3. destruct Ho as [?|Ho]; [by left|right]. by apply older_unlink.
  - intros x. rewrite L, elem_of_unlink, Hst. intros [? _]. by apply (po_alive _ _ Hok).
  - intros x Hx%Hrn. apply He. split; [by apply (po_known _ _ Hok)|]. intros ->. unfold runnable, gp in *. congruence.
  - intros x [Hx Hxp]%He. rewrite Hst. intros Hxz. unfold upd_kids. case_decide as Hd; [|by apply (po_childless _ _ Hok)].
    exfalso. subst x. unfold runnable, gp in *. congruence.
  - intros x [Hx _]%He. rewrite M1. by apply (po_fit _ _ Hok).
  - intros x Hx%Hrn. destruct (Hl x) as (_ & -> & _). by apply (po_waits _ _ Hok).
Qed.

(** ** Waiting *)
Lemma find_zombie_sound s par l : forall fuel y z s', siblings (gp s) par y l ->
  find_zombie fuel (head l) s = Done (z, s') -> s' = s /\ forall p, z = Some p -> p ∈ l /\ state (gp s p) = PROC_ZOMBIE.
Proof.
  induction l as [|x l IH]; intros fuel y z s' Hs Hr.
  - assert (Hn : find_zombie fuel (head []) s = Done (None, s)) by (by destruct fuel).
    rewrite Hn in Hr. by injection Hr as <- <-.
  - destruct Hs as (_ & _ & Ho & Hs). cbn [head] in Hr.
    destruct (decide (state (gp s x) = PROC_ZOMBIE)) as [Hz|Hz].
    + assert (Hn : find_zombie fuel (Some x) s = Done (Some x, s)).
      { destruct fuel; cbn [find_zombie]; mstep (eq_refl : get (fun s => state (proc_at x s)) s = Done (state (gp s x), s));
          by rewrite decide_True. }
      rewrite Hn in Hr. injection Hr as <- <-. split; [done|]. intros p [= <-]. split; [left|done].
    + destruct fuel as [|fuel]; cbn [find_zombie] in Hr;
        rewrite (bind_Done _ _ _ _ _ (eq_refl : get (fun s => state (proc_at x s)) s = Done (state (gp s x), s))) in Hr;
        rewrite decide_False in Hr by done; [done|].
      rewrite (bind_Done _ _ _ _ _ (eq_refl : get (fun s => optr (proc_at x s)) s = Done (optr (gp s x), s))), Ho in Hr.
      destruct (IH fuel _ _ _ Hs Hr) as [-> Hp]. split; [done|]. intros p Hz'. destruct (Hp p Hz'). split; [by right|done].
Qed.

(** A process that the search gives is a zombie child. *)
Lemma search_child_sound s kids n k z s' : procs_ok s kids -> search_child n s = Done ((k, z), s') ->
  s' = s /\ forall p, z = Some p -> p ∈ kids (current (sch s)) /\ state (gp s p) = PROC_ZOMBIE.
Proof.
  intros Hpo Hr. pose proof Hpo as [Hok _]. pose proof (known_current _ _ Hpo) as Hcur. unfold search_child in Hr.
  rewrite (bind_Done _ _ _ _ _ (eq_refl : get_current s = Done (current (sch s), s))) in Hr. destruct (negb (n =? 0)).
  - rewrite (bind_Done _ _ _ _ _ (eq_refl : get (find_proc n) s = Done (find_proc n s, s))) in Hr.
    destruct (find_proc n s) as [p|] eqn:Hf; [|by injection Hr as _ <- <-].
    apply (find_proc_exact _ _ _ _ Hok) in Hf as [Hp _].
    rewrite (bind_Done _ _ _ _ _ (eq_refl : get (fun s => parent (proc_at p s)) s = Done (parent (gp s p), s))) in Hr.
    destruct (decide (parent (gp s p) = Some (current (sch s)))) as [Hpar|]; [|by injection Hr as _ <- <-].
    rewrite (bind_Done _ _ _ _ _ (eq_refl : get (fun s => state (proc_at p s)) s = Done (state (gp s p), s))) in Hr.
    injection Hr as _ <- <-. split; [done|]. case_decide as Hz; [|done]. intros p' [= <-]. split; [|done].
    destruct (has_parent _ _ p Hok Hp) as (q & _ & Hq & Hqp & _). congruence.
  - rewrite (bind_Done _ _ _ _ _ (eq_refl : get (fun s' => cptr (proc_at (current (sch s)) s')) s
                                             = Done (cptr (gp s (current (sch s))), s))) in Hr.
    rewrite (bind_Done _ _ _ _ _ (eq_refl : get proc_list s = Done (proc_list s, s))) in Hr.
    apply bind_Done_inv in Hr as (z' & s1 & Hz & Hr). injection Hr as _ <- <-.
    pose proof (po_family _ _ Hok _ Hcur) as [Hf Hs _ _]. rewrite Hf in Hz. by eapply find_zombie_sound.
Qed.

Lemma reap_inv s s' p store r : procs_inv s -> (exists kids, procs_ok s kids /\ init_ok s kids /\ p ∈ kids (current (sch s))) ->
  state (gp s p) = PROC_ZOMBIE -> reap p store s = Done (r, s') -> procs_inv s'.
Proof.
  intros _ (kids & Hpo & Hi & Hp) Hz Hr. pose proof Hpo as [Hok Hrc]. pose proof (known_current _ _ Hpo) as Hcur.
  apply list_elem_of_split in Hp as (a & b & Hk). pose proof (po_family _ _ Hok _ Hcur) as Hf. rewrite Hk in Hf.
  assert (Hne : p <> idleproc (sch s) /\ p <> initproc s).
  { unfold reap in Hr. apply bind_Done_inv in Hr as (i & ? & Hg & Hr). injection Hg as <- <-.
    apply bind_Done_inv in Hr as (i & ? & Hg & Hr). injection Hg as <- <-.
    apply bind_Done_inv in Hr as (u & ? & Hg & _). unfold assert in Hg.
    destruct (Z.eqb_spec p (idleproc (sch s))), (Z.eqb_spec p (initproc s)); done. }
  destruct Hne as [Hpi Hpn]. destruct (reap_run s (current (sch s)) p store a b Hpi Hpn Hf) as (s1 & Hr1 & Hre).
  rewrite Hr in Hr1. injection Hr1 as _ <-. exists (upd_kids kids (current (sch s)) (a ++ b)). split; [by eapply reaped_wf|].
  destruct (re_machine _ _ _ _ _ _ Hre) as (_ & _ & M3 & M4 & _). destruct Hi as [A B C]. split.
  - rewrite M4, (re_list _ _ _ _ _ _ Hre).
    assert (Hin : initproc s ∈ proc_list s) by (by apply last_Some_elem_of).
    destruct (proj1 (last_Some _ _) A) as [l Hl]. rewrite Hl. unfold unlink. rewrite filter_app, (filter_cons_True _ (initproc s)) by done.
    by rewrite last_app.
  - rewrite M3, M4. unfold upd_kids. case_decide as Hd; [|done]. exfalso. rewrite <- Hd, B in Hk. destruct a as [|? [|? ?]]; cbn in Hk; by simplify_eq.
  - rewrite M4. destruct (re_life _ _ _ _ _ _ Hre (initproc s)) as (-> & _). done.
Qed.

Lemma wait_turn_inv s s' n store r : procs_inv s -> current (sch s) <> idleproc (sch s) ->
  wait_turn n store s = Done (r, s') -> procs_inv s'.
Proof.
  intros Hinv Hne Hr. pose proof Hinv as (kids & Hpo & Hi). unfold wait_turn in Hr.
  apply bind_Done_inv in Hr as ([k z] & s1 & Hs & Hr).
  destruct (search_child_sound _ _ _ _ _ _ Hpo Hs) as [-> Hz]. destruct z as [p|].
  - apply bind_Done_inv in Hr as (ret & s2 & Hr1 & Hr). injection Hr as _ <-. destruct (Hz p eq_refl) as [Hp Hpz].
    apply (reap_inv s s2 p store ret Hinv); [|done|done]. by exists kids.
  - destruct k; [|by injection Hr as _ <-].
    rewrite (bind_Done _ _ _ _ _ (eq_refl : get_current s = Done (current (sch s), s))) in Hr.
    apply (sleep_inv s s' WT_CHILD (current (sch s)) (mret tt) Hinv eq_refl Hne (frames_ret tt)).
    apply bind_Done_inv in Hr as ([] & s2 & H2' & Hr). mstep H2'. apply bind_Done_inv in Hr as ([] & s3 & H3' & Hr). mstep H3'.
    apply bind_Done_inv in Hr as ([] & s4 & H4' & Hr). by injection Hr as _ <-.
Qed.

Lemma frames_mem_check m a l w : frames (W := W) (P := P) (on_mm_at m (user_mem_check a l w)).
Proof. unfold on_mm_at. apply frames_part. intros. split; [by repeat split|]. split; [by repeat split|]. by repeat split. Qed.

Lemma wait_inv s s' n store r : procs_inv s -> current (sch s) <> idleproc (sch s) ->
  do_wait n store s = Done (r, s') -> procs_inv s'.
Proof.
  intros Hinv Hne Hr. unfold do_wait in Hr.
  rewrite (bind_Done _ _ _ _ _ (eq_refl : get_current s = Done (current (sch s), s))) in Hr.
  rewrite (bind_Done _ _ _ _ _ (eq_refl : get (fun s' => mm (proc_at (current (sch s)) s')) s
                                           = Done (mm (gp s (current (sch s))), s))) in Hr.
  apply bind_Done_inv in Hr as (ok & s1 & Hc & Hr).
  assert (Hv : same_procs_view s s1).
  { destruct (store =? 0); [by injection Hc as _ <-; apply view_refl|].
    destruct (mm (gp s (current (sch s)))) as [m|]; [by apply frames_mem_check in Hc|by injection Hc as _ <-; apply view_refl]. }
  pose proof (procs_inv_view _ _ Hv Hinv) as Hinv1. destruct (negb ok); [by injection Hr as _ <-|].
  apply (wait_turn_inv s1 s' n store r Hinv1); [|done]. destruct Hv as ((_ & _ & _ & _ & ->) & _ & _ & -> & _). done.
Qed.
End procs_keep.
