(* ===== verification/ProcsLife.v ===== *)
(** * What the end and the birth of a process keep

    [do_exit] and [do_fork] keep the processes well-formed. *)
From S2P Require Import Prelude Libs Mem SfsDir Inode Vfs VfsSpec File Vmm SkewHeap RunQueue RunQueueSpec Proc Sched SchedSpec Pid Process ProcessSpec ProcsInv ProcsKeep.

Section procs_life.
  Context {W P : Type} `{Inodes W} `{PageTables P} `{SchedClass}.
  Notation kern := (kernel W P).
  Implicit Types s : kern.

(** ** The end *)
Lemma elem_of_rev {A} (l : list A) x : x ∈ rev l <-> x ∈ l.
Proof. rewrite List.rev_alt. apply elem_of_reverse. Qed.

Definition exit_kids s (kids : Z -> list Z) : Z -> list Z :=
  let cur := current (sch s) in
  upd_kids (upd_kids kids (initproc s) (rev (kids cur) ++ kids (initproc s))) cur [].

Lemma init_everyone s kids : init_ok s kids -> initproc s ∈ proc_list s.
Proof. intros Hi. by apply last_Some_elem_of, (io_last _ _ Hi). Qed.

(** What [orphan] needs to run. *)
Lemma orphan_inv s kids e : procs_ok s kids -> init_ok s kids ->
  let cur := current (sch s) in cur <> idleproc (sch s) -> cur <> initproc s ->
  exists s' q par, orphan cur (initproc s) e s = Done (tt, s') /\ only_procs s s' /\ sched_ok (MAX_PROCESS + 2) (sch s') q /\
    state (gp s' cur) = PROC_ZOMBIE /\ cptr (gp s' cur) = None /\
    family (gp s') (initproc s) (rev (kids cur) ++ kids (initproc s)) /\
    par ∈ everyone s /\ cur ∈ kids par /\
    orphaned s s' cur par (initproc s) (kids cur ++ kids (initproc s)).
Proof.
  intros Hpo Hi cur Hci Hcn. pose proof Hpo as [Hok Hrc]. pose proof (known_current _ _ Hpo) as Hcur. fold cur in Hcur, Hrc.
  assert (Hcl : cur ∈ proc_list s) by (by apply elem_of_cons in Hcur as [?|?]).
  destruct (has_parent _ _ cur Hok Hcl) as (par & Hpar & Hcp & Hpp & Hpz & Hpc).
  assert (Hinit : initproc s ∈ everyone s) by (right; by eapply init_everyone).
  destruct (po_sched _ _ Hok) as [q Hq].
  assert (Hil : initproc s ∉ kids cur).
  { intros Hin. apply Hci. apply (kids_disjoint s kids cur (idleproc (sch s)) (initproc s) Hok); [done|left|done|].
    rewrite (io_idle _ _ Hi). left. }
  assert (Hnd : NoDup (kids cur ++ kids (initproc s))).
  { apply NoDup_app. split; [apply (po_family _ _ Hok cur Hcur)|]. split; [|apply (po_family _ _ Hok _ Hinit)].
    intros x Hx Hx'. apply Hcn. by apply (kids_disjoint s kids cur (initproc s) x Hok). }
  assert (Hlen : (length (kids cur) <= length (proc_list s))%nat).
  { apply submseteq_length, NoDup_submseteq; [apply (po_family _ _ Hok cur Hcur)|]. intros x. by apply (po_kids _ _ Hok). }
  destruct (orphan_run MAX_PROCESS s q cur (initproc s) par (kids cur) (kids (initproc s)) e Hq) as
    (s' & q' & Hr & Ho & Hq' & Hz & _ & Hcz & Hf & _ & _ & _ & Hor); try done.
  - apply (io_alive _ _ Hi).
  - by apply (po_fit _ _ Hok).
  - by apply (po_fit _ _ Hok).
  - by apply (po_family _ _ Hok).
  - by apply (po_family _ _ Hok).
  - exists s', q', par. done.
Qed.

(** The children of the process that ends are with [init]. *)
Lemma exit_kids_elem s kids x c : current (sch s) <> initproc s -> c ∈ exit_kids s kids x ->
  exists y, (y = x \/ y = current (sch s) /\ x = initproc s) /\ c ∈ kids y.
Proof.
  intros Hne. unfold exit_kids, upd_kids. case_decide; [by intros ?%elem_of_nil|]. case_decide as Hx; [|by exists x; split; [left|]].
  rewrite elem_of_app, elem_of_rev. intros [Hc|Hc]; [exists (current (sch s)); split; [by right|done]|].
  exists (initproc s). split; [by left|done].
Qed.
Lemma exit_kids_has s kids x c : current (sch s) <> initproc s -> c ∈ kids x ->
  c ∈ exit_kids s kids (if decide (x = current (sch s)) then initproc s else x).
Proof.
  intros Hne Hc. unfold exit_kids, upd_kids. destruct (decide (x = current (sch s))) as [->|Hx].
  - rewrite decide_False by congruence. rewrite decide_True by done. rewrite elem_of_app, elem_of_rev. by left.
  - rewrite (decide_False (P := x = current (sch s))) by done. case_decide as Hi; [|done]. rewrite elem_of_app, elem_of_rev, <- Hi. by right.
Qed.

(** States and the waiting of everyone once the process has ended. *)
Lemma orphaned_state s s' kids par x : procs_wf s kids -> par ∈ everyone s -> initproc s ∈ everyone s ->
  orphaned s s' (current (sch s)) par (initproc s) (kids (current (sch s)) ++ kids (initproc s)) ->
  x <> current (sch s) -> state (gp s' x) = state (gp s x) /\ wait_state (gp s' x) = wait_state (gp s x) \/
    x ∈ everyone s /\ state (gp s' x) = PROC_RUNNABLE /\ wait_state (gp s' x) = 0.
Proof.
  intros Hok Hpar Hi Hor Hx. destruct (or_waits _ _ _ _ _ _ Hor x) as [[Hw Hs]|([->| ->] & ? & ?)].
  - left. split; [by apply Hs|done].
  - by right.
  - by right.
Qed.

Lemma orphan_wf s s' kids q par : procs_ok s kids -> init_ok s kids ->
  let cur := current (sch s) in cur <> idleproc (sch s) -> cur <> initproc s ->
  only_procs s s' -> sched_ok (MAX_PROCESS + 2) (sch s') q ->
  state (gp s' cur) = PROC_ZOMBIE -> cptr (gp s' cur) = None ->
  family (gp s') (initproc s) (rev (kids cur) ++ kids (initproc s)) -> par ∈ everyone s -> cur ∈ kids par ->
  orphaned s s' cur par (initproc s) (kids cur ++ kids (initproc s)) ->
  procs_wf s' (exit_kids s kids).
Proof.
  intros Hpo Hi cur Hci Hcn (L1 & L2 & L3 & L4 & L5 & _ & _ & _ & _ & _ & L6) Hq Hz Hcz Hf Hpar Hcp Hor.
  pose proof Hpo as [Hok Hrc]. pose proof (known_current _ _ Hpo) as Hcur. fold cur in Hcur, Hrc.
  assert (Hinit : initproc s ∈ everyone s) by (right; by eapply init_everyone).
  pose proof (fun x => orphaned_state s s' kids par x Hok Hpar Hinit Hor) as Hst. fold cur in Hst.
  assert (He : everyone s' = everyone s) by (unfold everyone; by rewrite L1, L6).
  assert (Hpids : the_pids s' = the_pids s).
  { unfold the_pids. rewrite L1. apply list_fmap_ext. intros i x _. apply (or_pid _ _ _ _ _ _ Hor). }
  assert (Hrn : forall x, runnable (sch s') x -> x ∈ everyone s).
  { intros x Hx. destruct (decide (x = cur)) as [->|Hne]; [done|].
    destruct (Hst x Hne) as [[Hs _]|[? _]]; [|done]. apply (po_known _ _ Hok). unfold runnable, gp in *. congruence. }
  split; rewrite ?He, ?Hpids, ?L1, ?L3, ?L5, ?L6; try apply Hok.
  - exists q. apply (queue_short s' (MAX_PROCESS + 2) q); [done| | |]; rewrite He; [apply Hok|done|].
    rewrite <- (po_count _ _ Hok). apply Hok.
  - intros x. rewrite (or_pid _ _ _ _ _ _ Hor). by apply Hok.
  - intros h x. rewrite L2, (or_pid _ _ _ _ _ _ Hor). apply Hok.
  - intros x Hx. unfold exit_kids, upd_kids. fold cur. case_decide as Hxc.
    + subst x. split; [done|done|constructor|apply not_elem_of_nil].
    + case_decide as Hxi; [by rewrite Hxi|].
      apply (family_place (gp s)); [by apply (po_family _ _ Hok)|by apply (or_cptr _ _ _ _ _ _ Hor)|].
      intros c Hc. apply (or_place _ _ _ _ _ _ Hor). intros [Hin|Hin]%elem_of_app;
        [apply Hxc|apply Hxi]; by apply (kids_disjoint s kids x _ c Hok).
  - intros x c Hx (y & Hy & Hc)%exit_kids_elem; [|done]. apply (po_kids _ _ Hok y); [|done].
    destruct Hy as [->|[-> _]]; done.
  - intros c Hc. destruct (po_order _ _ Hok c Hc) as (x & Hx & Ho).
    exists (if decide (x = cur) then initproc s else x). split; [by apply exit_kids_has|]. case_decide as Hxc; [|done].
    right. apply older_last; [apply (io_last _ _ Hi)|done|]. intros ->. apply Hci.
    apply (kids_disjoint s kids cur (idleproc (sch s)) (initproc s) Hok); [done|left|by rewrite <- Hxc|].
    rewrite (io_idle _ _ Hi). left.
  - intros x Hx. destruct (decide (x = cur)) as [->|Hne]; [congruence|].
    destruct (Hst x Hne) as [[-> _]|(_ & -> & _)]; [by apply Hok|done].
  - done.
  - intros x Hx Hxz. unfold exit_kids, upd_kids. fold cur. case_decide as Hne; [done|].
    destruct (Hst x Hne) as [[Hs _]|(_ & Hs & _)]; [|congruence]. rewrite Hs in Hxz.
    rewrite decide_False; [by apply (po_childless _ _ Hok)|]. intros ->. by apply (io_alive _ _ Hi).
  - intros x Hx. apply (or_fit _ _ _ _ _ _ Hor). by apply Hok.
  - intros x Hx. destruct (decide (x = cur)) as [->|Hne]; [unfold runnable, gp in *; congruence|].
    destruct (Hst x Hne) as [[Hs ->]|(_ & _ & ?)]; [|done]. apply (po_waits _ _ Hok). unfold runnable, gp in *. congruence.
Qed.

Lemma leave_inv s s' kids e : procs_ok s kids -> init_ok s kids ->
  current (sch s) <> idleproc (sch s) -> current (sch s) <> initproc s ->
  leave (current (sch s)) (initproc s) e s = Done (tt, s') -> procs_inv s'.
Proof.
  intros Hpo Hi Hci Hcn Hr.
  destruct (orphan_inv s kids e Hpo Hi Hci Hcn) as (s1 & q & par & Hr1 & Ho & Hq & Hz & Hcz & Hf & Hpar & Hcp & Hor).
  unfold leave in Hr. rewrite (bind_Done _ _ _ _ _ Hr1) in Hr.
  pose proof (orphan_wf s s1 kids q par Hpo Hi Hci Hcn Ho Hq Hz Hcz Hf Hpar Hcp Hor) as Hok1.
  destruct (schedule_keeps s1 s' _ Hok1 Hr) as (Hok' & Hrest & Hst). exists (exit_kids s kids). split; [done|].
  destruct Ho as (L1 & _ & _ & L4 & _ & _ & _ & _ & _ & _ & L6).
  assert (Hal : state (gp s1 (initproc s)) <> PROC_ZOMBIE).
  { destruct (orphaned_state s s1 kids par (initproc s) (proj1 Hpo) Hpar) as [[-> _]|(_ & -> & _)]; try done.
    - right. by eapply init_everyone.
    - apply (io_alive _ _ Hi). }
  apply (init_ok_rest s1); [done|rewrite Hst, L4; done|]. destruct Hi as [A B C]. split; rewrite ?L1, ?L4, ?L6; [done| |done].
  unfold exit_kids, upd_kids. rewrite decide_False by congruence. rewrite decide_False; [done|].
  intros Heq. apply (idle_not_listed _ _ (proj1 Hpo)). rewrite Heq. by apply last_Some_elem_of.
Qed.

Lemma exit_inv s s' e : procs_inv s -> do_exit e s = Done (tt, s') -> procs_inv s'.
Proof.
  intros Hinv Hr. unfold do_exit in Hr.
  rewrite (bind_Done _ _ _ _ _ (eq_refl : get_current s = Done (current (sch s), s))) in Hr.
  rewrite (bind_Done _ _ _ _ _ (eq_refl : get (fun s => idleproc (sch s)) s = Done (idleproc (sch s), s))) in Hr.
  rewrite (bind_Done _ _ _ _ _ (eq_refl : get initproc s = Done (initproc s, s))) in Hr.
  apply bind_Done_inv in Hr as ([] & s0 & [Hci [= ->]]%assert_Done_inv & Hr).
  apply bind_Done_inv in Hr as ([] & s0 & [Hcn [= ->]]%assert_Done_inv & Hr).
  apply negb_true_iff, Z.eqb_neq in Hci. apply negb_true_iff, Z.eqb_neq in Hcn.
  apply bind_Done_inv in Hr as (m & s0 & Hg & Hr). injection Hg as <- <-.
  apply bind_Done_inv in Hr as ([] & s1 & Hm & Hr).
  assert (Hv : same_procs_view s s1).
  { refine ((_ : frames _) _ _ _ Hm). destruct (mm (proc_at (current (sch s)) s)) as [m|]; [|apply frames_ret].
    apply frames_bind; [apply frames_release_mm|intros _]. apply frames_bind; [apply frames_process; by repeat split|intros _].
    apply frames_put_files. }
  pose proof (procs_inv_view _ _ Hv Hinv) as (kids & Hpo & Hi).
  destruct Hv as ((_ & _ & _ & _ & E1) & _ & _ & E2 & E3 & _). rewrite <- E2, <- E3 in Hr.
  apply (leave_inv s1 s' kids e Hpo Hi); [congruence|congruence|done].
Qed.

Lemma wait_again_inv s s' n store r : procs_inv s -> current (sch s) <> idleproc (sch s) ->
  wait_again n store s = Done (r, s') -> procs_inv s'.
Proof.
  intros Hinv Hne Hr. unfold wait_again in Hr.
  rewrite (bind_Done _ _ _ _ _ (eq_refl : get_current s = Done (current (sch s), s))) in Hr.
  apply bind_Done_inv in Hr as (f & s1 & Hg & Hr). injection Hg as _ <-. destruct (negb _).
  - apply bind_Done_inv in Hr as ([] & s2 & He & Hr). injection Hr as _ <-. by eapply exit_inv.
  - by eapply wait_turn_inv.
Qed.
End procs_life.
