(* ===== verification/ProcsFork.v ===== *)
(** * What the birth of a process keeps

    [do_fork] keeps the processes well-formed: the new one is an outsider until
    [set_links], and then the first child of the process that made it. *)
From S2P Require Import Prelude Libs Mem SfsDir Inode Vfs VfsSpec File Vmm SkewHeap RunQueue RunQueueSpec Proc Sched SchedSpec Pid Process ProcessSpec ProcsInv ProcsKeep.

Section procs_fork.
  Context {W P : Type} `{Inodes W} `{PageTables P} `{SchedClass} (boot_pgdir_pa : Z).
  Notation kern := (kernel W P).
  Implicit Types s : kern.
  (** What [alloc_proc] leaves in the run queue's part of a process suits the class. *)
  Context (fresh_fit : sc_fit (mkSe false 0 false 0 0)).

(** ** A process that is in no list yet *)
Record outsider s (p cur : Z) : Prop := mkOutsider {
  os_out : p ∉ everyone s;
  os_parent : parent (gp s p) = Some cur;
  os_cptr : cptr (gp s p) = None;
  os_state : state (gp s p) = PROC_UNINIT;
  os_fit : sc_fit (ents (queues (sch s)) p) }.

Lemma outsider_view s s' p cur : same_procs_view s s' -> outsider s p cur -> outsider s' p cur.
Proof.
  intros (Hl & Hk & Hq & _ & _ & Hst) [A B C D E]. destruct (Hk p) as [(K1 & K2 & _) _], (Hst p) as [S _].
  split; [by rewrite (same_lists_everyone _ _ Hl)| | | |]; rewrite ?Hq; congruence.
Qed.

(** The memory of the new process and its parent. *)
Lemma outsider_run s kids p cur : procs_ok s kids -> p ∉ everyone s ->
  exists s1 s', alloc_proc boot_pgdir_pa (Some p) s = Done (Some p, s1) /\ current (sch s1) = current (sch s) /\
    on_process p (set_parent (Some cur)) s1 = Done (tt, s') /\ procs_ok s' kids /\ outsider s' p cur /\ same_lists s s' /\ current (sch s') = current (sch s) /\
    initproc s' = initproc s /\ (forall x, x <> p -> gp s' x = gp s x) /\
    gp s' p = set_parent (Some cur) (fresh_proc boot_pgdir_pa) /\ fs s' = fs s /\ files s' = files s.
Proof.
  intros [Hok Hrc] Hp. destruct (po_sched _ _ Hok) as [l Hs]. pose proof Hs as [A B C D E].
  set (f := set_parent (Some cur) (fresh_proc boot_pgdir_pa)).
  set (q := mkRqs (rq (queues (sch s))) (upd (ents (queues (sch s))) p (mkSe false 0 false 0 0))
                  (upd (nodes (queues (sch s))) p (mkNode None None None))).
  set (s' := set_sch (set_procs (upd (gp s) p f) (set_queues q (sch s))) s).
  assert (Hg : forall x, gp s' x = if decide (x = p) then f else gp s x) by done.
  assert (Hne : forall x, x ∈ everyone s -> gp s' x = gp s x)
    by (intros x Hx; rewrite Hg, decide_False; [done|by intros ->]).
  assert (Hrn : forall x, runnable (sch s') x <-> runnable (sch s) x).
  { intros x. unfold runnable. change (procs (sch s') x) with (gp s' x). rewrite Hg. case_decide as Hx; [|done]. subst x.
    split; [done|]. intros Hr. by destruct Hp; apply (po_known _ _ Hok). }
  assert (Hpl : p ∉ l) by (rewrite B; intros (Hr & _); by apply Hp, (po_known _ _ Hok)).
  eexists _, s'. split; [reflexivity|]. split; [done|]. split; [|split; [|split; [split|]]].
  - unfold s'. rewrite on_process_run. unfold gp, with_procs. cbn. by rewrite upd_eq, upd_upd.
  - split; [|by apply Hrn]. apply (procs_wf_step s s' kids MAX_PROCESS l Hok); try (by repeat split).
    + intros x Hx. unfold kin, same_links. by rewrite !Hne.
    + split; [by apply sc_queue_new| | | |done].
      * intros x. rewrite Hrn. apply B.
      * by apply Hrn.
      * intros x Hx%Hrn Hxi. cbn. rewrite upd_ne; [by apply D|]. intros ->. by apply Hp, (po_known _ _ Hok).
    + intros x Hx. rewrite Hne by done. by apply Hok.
    + intros x Hx. rewrite Hne by (by right). by apply Hok.
    + intros x Hx%Hrn. by apply Hok.
    + intros x Hx. cbn. rewrite upd_ne; [by apply Hok|by intros ->].
    + intros x Hx%Hrn. rewrite Hne by (by apply (po_known _ _ Hok)). by apply Hok.
  - done.
  - by rewrite Hg, decide_True.
  - by rewrite Hg, decide_True.
  - by rewrite Hg, decide_True.
  - cbn. by rewrite upd_eq.
  - split; [by repeat split|]. split; [done|]. split; [done|].
    split; [intros x Hx; by rewrite Hg, decide_False|]. by rewrite Hg, decide_True.
Qed.

(** ** Linking it *)
Definition with_child (g : Z -> proc_struct) (p cur : Z) : Z -> proc_struct :=
  let g1 := upd g p (set_yptr None (g p)) in
  let o := cptr (g1 cur) in
  let g2 := upd g1 p (set_optr o (g1 p)) in
  let g3 := match o with Some o => upd g2 o (set_yptr (Some p) (g2 o)) | None => g2 end in
  upd g3 cur (set_cptr (Some p) (g3 cur)).

Lemma with_child_spec g p cur l : family g cur l -> p <> cur -> p ∉ l -> parent (g p) = Some cur ->
  let g' := with_child g p cur in
  family g' cur (p :: l) /\ same_life g g' /\ (forall x, x ∉ p :: l -> same_place g g' x) /\
  (forall x, x <> cur -> cptr (g' x) = cptr (g x)) /\ (forall x, filesp (g' x) = filesp (g x)).
Proof.
  intros [Hf Hs Hnd Hself] Hpc Hpl Hpar g'.
  assert (Hfirst : cptr (upd g p (set_yptr None (g p)) cur) = head l) by (by rewrite upd_ne by congruence).
  assert (Hhl : forall f, head l = Some f -> f ∈ l) by (intros f Hf'; destruct l; [done|]; injection Hf' as ->; left).
  assert (Hg : forall x, g' x = if decide (x = p) then set_optr (head l) (set_yptr None (g p))
                                else if decide (x = cur) then set_cptr (Some p) (g cur)
                                else if decide (head l = Some x) then set_yptr (Some p) (g x) else g x).
  { intros x. unfold g', with_child. cbv zeta. rewrite Hfirst. destruct (head l) as [f|] eqn:Hh.
    - assert (Hfl : f ∈ l) by (by apply Hhl). assert (f <> p /\ f <> cur) as [Hf1 Hf2] by (split; by intros ->).
      unfold upd. repeat (case_decide; subst; try congruence; try done).
    - unfold upd. repeat (case_decide; subst; try congruence; try done). }
  assert (Hgp : g' p = set_optr (head l) (set_yptr None (g p))) by (rewrite Hg; by rewrite decide_True).
  assert (Hgc : g' cur = set_cptr (Some p) (g cur)) by (rewrite Hg; rewrite decide_False by congruence; by rewrite decide_True).
  split; [split|split; [|split; [|split]]].
  - by rewrite Hgc.
  - cbn. rewrite Hgp. cbn. do 3 (split; [done|]). destruct l as [|f l]; [done|]. cbn in Hs. destruct Hs as (A & B & C & Hs).
    assert (Hff : f ∈ f :: l) by left. assert (f <> p /\ f <> cur) as [Hf1 Hf2] by (split; by intros ->).
    assert (Hgf : g' f = set_yptr (Some p) (g f)) by (rewrite Hg; rewrite !decide_False by done; by rewrite decide_True).
    cbn. rewrite Hgf. do 3 (split; [done|]). apply (siblings_place g); [|done]. intros x Hx.
    assert (Hxf : x <> f) by (intros ->; by apply NoDup_cons in Hnd as [? _]).
    unfold same_place. rewrite Hg. rewrite !decide_False; [done|by intros [= ->]|intros ->; apply Hself; by right|intros ->; apply Hpl; by right].
  - by apply NoDup_cons.
  - apply not_elem_of_cons. done.
  - intros x. rewrite Hg. repeat case_decide; subst; done.
  - intros x Hx. apply not_elem_of_cons in Hx as [Hxp Hxl]. unfold same_place. rewrite Hg. rewrite decide_False by done.
    case_decide as Hxc; [by subst|]. rewrite decide_False; [done|]. intros Hh. by apply Hxl, Hhl.
  - intros x Hx. rewrite Hg. case_decide; [by subst|]. rewrite decide_False by done. by case_decide.
  - intros x. rewrite Hg. by repeat case_decide; subst.
Qed.

(** What naming and linking [p] under the pid [n] makes of the kernel. *)
Record linked s s' (p cur n : Z) (l : list Z) : Prop := mkLinked {
  ln_list : proc_list s' = p :: proc_list s;
  ln_hash h : hash_list s' h = if decide (h = pid_hashfn n) then p :: hash_list s h else hash_list s h;
  ln_count : nr_process s' = s32 (nr_process s + 1);
  ln_new : 1 <= n < MAX_PID /\ n ∉ the_pids s;
  ln_given : get_pid (the_pids s) (pids s) = Done (n, pids s');
  ln_window : window (n :: the_pids s) (pids s');
  ln_files : same_files s s';
  ln_pid x : pid (gp s' x) = if decide (x = p) then n else pid (gp s x);
  ln_family : family (gp s') cur (p :: l);
  ln_place x : x ∉ p :: l -> same_place (gp s) (gp s') x;
  ln_cptr x : x <> cur -> cptr (gp s' x) = cptr (gp s x);
  ln_state x : x <> p -> state (gp s' x) = state (gp s x) /\ wait_state (gp s' x) = wait_state (gp s x);
  ln_rest : queues (sch s') = queues (sch s) /\ current (sch s') = current (sch s) /\
            idleproc (sch s') = idleproc (sch s) /\ initproc s' = initproc s }.

(** Until it is woken its state is of no concern. *)
Lemma linked_state s s' p cur n l st : linked s s' p cur n l ->
  linked s (with_procs (upd (gp s') p (set_state st (gp s' p))) s') p cur n l.
Proof.
  intros [A B C D M E N F G I J K L]. set (g := upd (gp s') p (set_state st (gp s' p))).
  assert (Hg : forall x, same_links (gp s') g x /\ pid (g x) = pid (gp s' x) /\ wait_state (g x) = wait_state (gp s' x) /\ filesp (g x) = filesp (gp s' x) /\
                         (x <> p -> state (g x) = state (gp s' x)))
    by (intros x; unfold g, upd, same_links; by destruct (decide (x = p)) as [->|]).
  split; try done; rewrite ?gp_with.
  - destruct N as (N1 & N2 & N3). split; [done|]. split; [done|]. intros x. rewrite gp_with. destruct (Hg x) as (_ & _ & _ & -> & _). apply N3.
  - intros x. destruct (Hg x) as (_ & -> & _). apply F.
  - apply (family_ext (gp s')); [done|by destruct (Hg cur) as ((_ & ? & _) & _)|]. intros x _. apply Hg.
  - intros x Hx. apply (place_trans _ (gp s')); [by apply I|]. by apply links_place, Hg.
  - intros x Hx. destruct (Hg x) as ((_ & -> & _) & _). by apply J.
  - intros x Hx. destruct (Hg x) as (_ & _ & -> & _ & ->); [by apply K|done].
Qed.

Lemma link_run s kids p cur : procs_wf s kids -> nr_process s < MAX_PROCESS -> outsider s p cur -> cur ∈ everyone s ->
  exists n s', (forall {A} (k : Z -> ST kern A), (n ← new_pid; on_process p (set_pid n) ;; hash_proc p ;; set_links p ;; k n) s = k n s') /\
    linked s s' p cur n (kids cur) /\ state (gp s' p) = PROC_UNINIT.
Proof.
  intros Hok Hroom [Hout Hpar Hcp Hst _] Hcur. pose proof (everyone_length _ _ Hok) as [Hlen _].
  assert (Hpc : p <> cur) by (by intros ->).
  destruct (get_pid_run (the_pids s) (pids s) (po_window _ _ Hok)) as (n & ps & Hn & Hnr & Hnew & _ & Hw).
  { unfold the_pids. rewrite length_fmap. unfold MAX_PID, MAX_PROCESS in *. lia. }
  set (g1 := upd (gp s) p (set_pid n (gp s p))).
  assert (Hg1 : forall x, same_links (gp s) g1 x /\ state (g1 x) = state (gp s x) /\ wait_state (g1 x) = wait_state (gp s x) /\
                          filesp (g1 x) = filesp (gp s x) /\ pid (g1 x) = if decide (x = p) then n else pid (gp s x))
    by (intros x; unfold g1, upd, same_links; by destruct (decide (x = p)) as [->|]).
  assert (Hf1 : family g1 cur (kids cur)).
  { apply (family_ext (gp s)); [by apply (po_family _ _ Hok)|by destruct (Hg1 cur) as ((_ & ? & _) & _)|]. intros x _. apply Hg1. }
  assert (Hpk : p ∉ kids cur) by (intros Hin; apply Hout; right; by apply (po_kids _ _ Hok cur)).
  destruct (with_child_spec g1 p cur (kids cur) Hf1 Hpc Hpk) as (Hf & Hl & Hpl & Hc & Hfi); [by destruct (Hg1 p) as ((-> & _) & _)|].
  set (g2 := with_child g1 p cur) in *.
  set (s' := mkKernel (set_procs g2 (sch s)) (p :: proc_list s)
               (upd (hash_list s) (pid_hashfn n) (p :: hash_list s (pid_hashfn n))) (s32 (nr_process s + 1)) (initproc s) ps
               (mms s) (mm_pgdir s) (tables s) (fs s) (files s) (ram s) (freed s)).
  exists n, s'. split; [|split; [split|]]; try done.
  - intros A k. unfold new_pid. unfold mbind at 1, ST_bind at 1.
    assert (Hnp : new_pid s = Done (n, set_pids ps s)).
    { unfold new_pid, on_pids, on_part, mbind, ST_bind, get. unfold the_pids, gp in Hn. unfold proc_at. by rewrite Hn. }
    unfold new_pid in Hnp. rewrite Hnp. mstep (on_process_run p (set_pid n) (set_pids ps s)).
    set (s1 := with_procs _ _).
    assert (Hh : hash_proc p s1 = Done (tt, set_hash_list (upd (hash_list s) (pid_hashfn n) (p :: hash_list s (pid_hashfn n))) s1)).
    { unfold hash_proc, modify. cbn. by rewrite upd_eq. }
    mstep Hh. set (s2 := set_hash_list _ _).
    assert (Hsl : set_links p s2 = Done (tt, s')).
    { unfold set_links. mstep (eq_refl : modify (fun s => set_proc_list (p :: proc_list s) s) s2 = Done (tt, set_proc_list (p :: proc_list s) s2)).
      set (s3 := set_proc_list _ _). mstep (on_process_run p (set_yptr None) s3).
      set (s4 := with_procs _ s3). mstep (eq_refl : get (fun s => parent (proc_at p s)) s4 = Done (parent (gp s4 p), s4)).
      assert (Hp4 : parent (gp s4 p) = Some cur) by (unfold s4; rewrite gp_with, upd_eq; cbn; by rewrite upd_eq).
      rewrite Hp4. mstep (eq_refl : get (fun s => cptr (proc_at cur s)) s4 = Done (cptr (gp s4 cur), s4)).
      unfold s', g2, with_child. cbv zeta. change (upd g1 p (set_yptr None (g1 p))) with (gp s4).
      destruct (cptr (gp s4 cur)) as [o|]; done. }
    by mstep Hsl.
  - intros h. cbn. unfold upd. case_decide; by subst.
  - split; [done|]. split; [done|]. intros x. change (gp s') with g2. rewrite Hfi. by destruct (Hg1 x) as (_ & _ & _ & -> & _).
  - intros x. change (gp s') with g2. destruct (Hl x) as (_ & _ & _ & -> & _). by destruct (Hg1 x) as (_ & _ & _ & _ & ->).
  - intros x Hx. apply (place_trans _ g1); [by apply links_place, Hg1|by apply Hpl].
  - intros x Hx. change (gp s') with g2. rewrite Hc by done. by destruct (Hg1 x) as ((_ & -> & _) & _).
  - intros x _. destruct (Hl x) as (A & B & _), (Hg1 x) as (_ & A1 & B1 & _). change (gp s') with g2. split; congruence.
  - destruct (Hl p) as (A & _), (Hg1 p) as (_ & A1 & _). change (gp s') with g2. congruence.
Qed.

Definition fork_kids (kids : Z -> list Z) (p cur : Z) : Z -> list Z := upd_kids (upd_kids kids cur (p :: kids cur)) p [].

Lemma linked_families s s' kids p cur n : procs_wf s kids -> outsider s p cur -> cur ∈ everyone s ->
  linked s s' p cur n (kids cur) ->
  (forall x, x = p \/ x ∈ everyone s -> family (gp s') x (fork_kids kids p cur x)) /\
  (forall x c, x = p \/ x ∈ everyone s -> c ∈ fork_kids kids p cur x -> c = p \/ c ∈ proc_list s) /\
  (forall c x, x <> p -> c ∈ kids x -> c ∈ fork_kids kids p cur x) /\ p ∈ fork_kids kids p cur cur.
Proof.
  intros Hok Hos Hcur Hln. pose proof (os_out _ _ _ Hos) as Hout. assert (Hpc : cur <> p) by (by intros ->).
  split; [|split; [|split]]; unfold fork_kids, upd_kids.
  - intros x Hx. case_decide as Hxp.
    + subst x. split; [|done|constructor|apply not_elem_of_nil]. rewrite (ln_cptr _ _ _ _ _ _ Hln) by congruence.
      apply (os_cptr _ _ _ Hos).
    + destruct Hx as [?|Hx]; [done|]. case_decide as Hxc; [subst x; apply (ln_family _ _ _ _ _ _ Hln)|].
      apply (family_place (gp s)); [by apply (po_family _ _ Hok)|by apply (ln_cptr _ _ _ _ _ _ Hln)|].
      intros c Hc. apply (ln_place _ _ _ _ _ _ Hln). apply not_elem_of_cons. split.
      * intros ->. apply Hout. right. by apply (po_kids _ _ Hok x).
      * intros Hin. apply Hxc. by apply (kids_disjoint s kids x cur c).
  - intros x c Hx. case_decide as Hxp; [by intros ?%elem_of_nil|]. destruct Hx as [?|Hx]; [done|].
    case_decide; [|intros Hc; right; by apply (po_kids _ _ Hok x)].
    intros [->|Hc]%elem_of_cons; [by left|right]. by apply (po_kids _ _ Hok cur).
  - intros c x Hx Hc. rewrite decide_False by done. case_decide; [subst; by right|done].
  - rewrite decide_False, decide_True by done. left.
Qed.

Lemma linked_wf s s' kids p cur n : procs_wf s kids -> nr_process s < MAX_PROCESS -> outsider s p cur -> cur ∈ everyone s ->
  state (gp s cur) <> PROC_ZOMBIE -> linked s s' p cur n (kids cur) -> state (gp s' p) = PROC_SLEEPING ->
  procs_wf s' (fork_kids kids p cur).
Proof.
  intros Hok Hroom Hos Hcur Hcz Hln Hsl. pose proof (os_out _ _ _ Hos) as Hout.
  destruct (linked_families s s' kids p cur n Hok Hos Hcur Hln) as (F1 & F2 & F3 & F4).
  destruct (ln_rest _ _ _ _ _ _ Hln) as (R1 & R2 & R3 & R4). pose proof (ln_list _ _ _ _ _ _ Hln) as L.
  pose proof (ln_state _ _ _ _ _ _ Hln) as Hst. pose proof (ln_pid _ _ _ _ _ _ Hln) as Hpd.
  destruct (ln_new _ _ _ _ _ _ Hln) as [Hn1 Hn2].
  assert (He : forall x, x ∈ everyone s' <-> x = p \/ x ∈ everyone s)
    by (intros x; unfold everyone; rewrite L, R3, !elem_of_cons; tauto).
  assert (Hpl : p ∉ proc_list s /\ p <> idleproc (sch s)) by (by apply not_elem_of_cons in Hout as [? ?]).
  destruct Hpl as [Hpl Hpi].
  assert (Hpids : the_pids s' = n :: the_pids s).
  { unfold the_pids. rewrite L. cbn [fmap list_fmap]. rewrite Hpd, decide_True by done. f_equal.
    apply list_fmap_ext. intros i x Hx%list_elem_of_lookup_2. rewrite Hpd, decide_False; [done|by intros ->]. }
  assert (Hrn : forall x, runnable (sch s') x <-> runnable (sch s) x).
  { intros x. unfold runnable. change (procs (sch s') x) with (gp s' x). destruct (decide (x = p)) as [->|Hx].
    - rewrite Hsl. split; [done|]. intros Hr. by destruct Hout; apply (po_known _ _ Hok).
    - by destruct (Hst x Hx) as [-> _]. }
  destruct (everyone_length _ _ Hok) as [Hlen _].
  assert (Hnr : nr_process s' = nr_process s + 1)
    by (rewrite (ln_count _ _ _ _ _ _ Hln), s32_small; [done|unfold MAX_PROCESS in *; lia]).
  split.
  - destruct (po_sched _ _ Hok) as [q [A B C D E]]. exists q. split; rewrite ?R1, ?R3; [done| |by apply Hrn| |done].
    + intros x. rewrite Hrn, R2. apply B.
    + intros x Hx%Hrn. by apply D.
  - unfold everyone. rewrite L, R3. pose proof (po_nodup _ _ Hok) as [? ?]%NoDup_cons.
    apply NoDup_cons. split; [by apply not_elem_of_cons; split; [congruence|]|]. by apply NoDup_cons.
  - rewrite Hnr. unfold everyone. rewrite L. cbn [length]. lia.
  - lia.
  - intros x. rewrite L, Hpd. intros [->|Hx]%elem_of_cons; [by rewrite decide_True|].
    rewrite decide_False by (by intros ->). by apply Hok.
  - rewrite Hpids. apply NoDup_cons. split; [done|apply Hok].
  - rewrite Hpids. apply (ln_window _ _ _ _ _ _ Hln).
  - intros h x. rewrite (ln_hash _ _ _ _ _ _ Hln), L, Hpd, elem_of_cons. pose proof (po_hash _ _ Hok h x) as Hh.
    destruct (decide (x = p)) as [->|Hx].
    + case_decide as Hd; [rewrite elem_of_cons; subst; tauto|]. rewrite Hh. split; [by intros [? _]|]. intros [_ ?]. congruence.
    + case_decide; [rewrite elem_of_cons|]; tauto.
  - intros x Hx%He. by apply F1.
  - intros x c Hx%He Hc. rewrite L, elem_of_cons. by apply (F2 x).
  - intros c. rewrite L, R3. intros [->|Hc]%elem_of_cons.
    + exists cur. split; [done|]. unfold everyone in Hcur. apply elem_of_cons in Hcur as [?|?]; [by left|right]. by apply older_head.
    + destruct (po_order _ _ Hok c Hc) as (x & Hx & Ho). exists x. split; [apply F3; [|done]|].
      * intros ->. destruct Ho as [?|Ho%older_elem]; tauto.
      * destruct Ho as [?|?]; [by left|right]. by apply older_cons.
  - intros x. rewrite L. intros [->|Hx]%elem_of_cons; [by rewrite Hsl|].
    destruct (Hst x) as [-> _]; [by intros ->|]. by apply Hok.
  - intros x Hx%Hrn. apply He. right. by apply (po_known _ _ Hok).
  - intros x Hx%He. unfold fork_kids, upd_kids. case_decide as Hxp; [done|]. destruct Hx as [?|Hx]; [done|].
    destruct (Hst x Hxp) as [-> _]. intros Hz. case_decide; [subst; done|]. by apply (po_childless _ _ Hok).
  - intros x Hx%He. rewrite R1. destruct Hx as [->|Hx]; [apply (os_fit _ _ _ Hos)|by apply (po_fit _ _ Hok)].
  - intros x Hx%Hrn. destruct (Hst x) as [_ ->]; [|by apply (po_waits _ _ Hok)]. intros ->.
    by apply Hout, (po_known _ _ Hok).
Qed.

(** Waking looks at the state only to see a zombie or a process that can run. *)
Lemma wakeup_proc_eq p (x : sched) : state (procs x p) <> PROC_ZOMBIE -> state (procs x p) <> PROC_RUNNABLE ->
  wakeup_proc p x = (if p =? current x then mret tt else sched_class_enqueue p)
                      (set_procs (upd (procs x) p (set_wait_state 0 (set_state PROC_RUNNABLE (procs x p)))) x).
Proof.
  intros Hz Hr. unfold wakeup_proc. mstep (eq_refl : get (fun x => state (procs x p)) x = Done (state (procs x p), x)).
  rewrite (bind_Done _ _ _ _ _ (assert_true _ x (bool_decide_eq_true_2 _ Hz))). rewrite decide_True by done.
  set (x1 := set_procs (upd (procs x) p (set_state PROC_RUNNABLE (procs x p))) x).
  mstep (eq_refl : on_proc p (set_state PROC_RUNNABLE) x = Done (tt, x1)).
  set (x2 := set_procs (upd (procs x) p (set_wait_state 0 (set_state PROC_RUNNABLE (procs x p)))) x).
  assert (H2' : on_proc p (set_wait_state 0) x1 = Done (tt, x2)).
  { unfold on_proc, modify, x1, x2. cbn. by rewrite upd_eq, upd_upd. }
  mstep H2'. by mstep (eq_refl : get current x2 = Done (current x, x2)).
Qed.

Lemma wakeup_fresh s p : state (gp s p) = PROC_UNINIT ->
  wakeup p s = wakeup p (with_procs (upd (gp s) p (set_state PROC_SLEEPING (gp s p))) s).
Proof.
  intros Hst. unfold gp in *. unfold wakeup, on_sched, on_part, with_procs.
  rewrite !wakeup_proc_eq; cbn; rewrite ?upd_eq, ?Hst; try done. by rewrite upd_upd.
Qed.

Lemma files_trans s1 s2 s3 : same_files s1 s2 -> same_files s2 s3 -> same_files s1 s3.
Proof. intros (A & B & C) (A' & B' & C'). split_and!; [congruence|congruence|]. intros x. by rewrite C'. Qed.

(** The steps of [start_child] up to the waking. *)
Definition enter {A} (p : Z) (k : Z -> ST kern A) : ST kern A :=
  n ← new_pid; on_process p (set_pid n) ;; hash_proc p ;; set_links p ;; wakeup p ;; k n.

Lemma birth_run s kids p cur : procs_ok s kids -> nr_process s < MAX_PROCESS -> cur = current (sch s) -> outsider s p cur ->
  exists n s1 s', (forall {A} (k : Z -> ST kern A), enter p k s = k n s') /\ linked s s1 p cur n (kids cur) /\
    same_rest s1 s' /\ same_files s s' /\ current (sch s') = cur /\ procs_ok s' (fork_kids kids p cur) /\ state (gp s' p) = PROC_RUNNABLE /\
    forall x, x <> p -> state (gp s' x) = state (gp s x).
Proof.
  intros Hpo Hroom -> Hos. pose proof Hpo as [Hok Hrc]. pose proof (known_current _ _ Hpo) as Hcur.
  set (cur := current (sch s)) in *.
  destruct (link_run s kids p cur Hok Hroom Hos Hcur) as (n & s1 & Hk & Hln & Hst).
  pose proof (linked_state _ _ _ _ _ _ PROC_SLEEPING Hln) as Hln'. set (s1' := with_procs _ s1) in Hln'.
  assert (Hsl : state (gp s1' p) = PROC_SLEEPING) by (unfold s1'; by rewrite gp_with, upd_eq).
  assert (Hcz : state (gp s cur) <> PROC_ZOMBIE) by (unfold runnable, gp in *; congruence).
  pose proof (linked_wf s s1' kids p cur n Hok Hroom Hos Hcur Hcz Hln' Hsl) as Hok1.
  destruct (ln_rest _ _ _ _ _ _ Hln') as (R1 & R2 & R3 & R4). pose proof (ln_list _ _ _ _ _ _ Hln') as L.
  assert (Hcp : cur <> p) by (intros Heq; apply (os_out _ _ _ Hos); by rewrite <- Heq).
  assert (Hp1 : p ∈ everyone s1') by (unfold everyone; rewrite L; right; left).
  destruct (wakeup_total s1' _ p Hok1 Hp1 ltac:(by rewrite Hsl)) as [s' Hw].
  destruct (wakeup_keeps s1' s' _ p Hok1 Hp1 Hw) as (Hok' & Hrest & Hcur' & Hst' & Hfw & _).
  unfold s1' in Hw. rewrite <- wakeup_fresh in Hw by done.
  assert (Hstx : forall x, x <> p -> state (gp s' x) = state (gp s x)).
  { intros x Hx. rewrite Hst', decide_False by done. by destruct (ln_state _ _ _ _ _ _ Hln' x Hx) as [-> _]. }
  exists n, s1', s'. split; [intros A k; unfold enter; rewrite Hk; by mstep Hw|]. split; [done|]. split; [done|].
  split; [apply (files_trans _ s1'); [apply (ln_files _ _ _ _ _ _ Hln')|done]|].
  split; [by rewrite Hcur', R2|]. split; [split; [done|]|split; [|done]].
  - unfold runnable. rewrite Hcur', R2. change (state (gp s' cur) = PROC_RUNNABLE). by rewrite Hstx.
  - by rewrite Hst', decide_True.
Qed.

Lemma birth_inv s p r fl n s' : procs_inv s -> nr_process s < MAX_PROCESS -> current (sch s) <> idleproc (sch s) ->
  outsider s p (current (sch s)) -> start_child r fl p s = Done (n, s') -> procs_inv s'.
Proof.
  intros (kids & Hpo & Hi) Hroom Hci Hos Hr.
  destruct (birth_run s kids p _ Hpo Hroom eq_refl Hos) as (n' & s1 & s2 & Hk & Hln & Hrest & _ & _ & Hok2 & _ & Hst).
  unfold start_child in Hr. unfold enter in Hk. rewrite Hk in Hr. clear Hk.
  destruct (ln_rest _ _ _ _ _ _ Hln) as (R1 & R2 & R3 & R4). pose proof (ln_list _ _ _ _ _ _ Hln) as L.
  pose proof (os_out _ _ _ Hos) as [Hpi Hpl]%not_elem_of_cons.
  assert (Hinit : initproc s ∈ proc_list s) by (by apply last_Some_elem_of, (io_last _ _ Hi)).
  assert (Hip : initproc s <> p) by (intros Heq; apply Hpl; by rewrite <- Heq).
  destruct Hrest as ((Q1 & _ & _ & _ & Q5) & _ & Q6).
  assert (Hinv2 : procs_inv s2).
  { exists (fork_kids kids p (current (sch s))). split; [done|]. split; rewrite ?Q1, ?Q5, ?Q6, ?R3, ?R4.
    - rewrite L, last_cons. by rewrite (io_last _ _ Hi).
    - unfold fork_kids, upd_kids. rewrite !decide_False by congruence. apply (io_idle _ _ Hi).
    - rewrite Hst by done. apply (io_alive _ _ Hi). }
  refine (procs_inv_frames _ s2 n s' _ Hr Hinv2). apply frames_bind; [apply frames_copy_files|intros ret].
  destruct (negb (ret =? 0)); [|apply frames_ret]. apply frames_bind; [apply frames_put_kstack|intros _].
  apply frames_bind; [apply frames_free|intros _]. apply frames_ret.
Qed.

(** Memory that was given out is not that of a process. *)
Definition room_ok s (r : fork_room) : Prop := forall p, room_proc r = Some p -> p ∉ everyone s.

Lemma fork_inv s r fl n s' : procs_inv s -> room_ok s r -> current (sch s) <> idleproc (sch s) ->
  do_fork boot_pgdir_pa r fl s = Done (n, s') -> procs_inv s'.
Proof.
  intros Hinv Hroom Hci Hr. unfold do_fork in Hr.
  rewrite (bind_Done _ _ _ _ _ (eq_refl : get nr_process s = Done (nr_process s, s))) in Hr.
  destruct (Z.leb_spec MAX_PROCESS (nr_process s)) as [Hm|Hm]; [by injection Hr as _ <-|].
  destruct (room_proc r) as [p|] eqn:Hrp; [|by injection Hr as _ <-].
  pose proof Hinv as (kids & Hpo & Hi).
  destruct (outsider_run s kids p (current (sch s)) Hpo (Hroom p Hrp)) as (s1 & s2 & Ha & Hc & Hp & Hpo2 & Hos & Hl2 & Hc2 & Hi2 & Hg2 & _).
  destruct Hl2 as (L1 & _ & Hn2 & _ & L5).
  assert (Hinv2 : procs_inv s2).
  { exists kids. split; [done|]. destruct Hi as [A B C]. split; rewrite ?L1, ?L5, ?Hi2; [done|done|]. rewrite Hg2; [done|].
    intros Heq. apply (Hroom p Hrp). right. rewrite <- Heq. by apply last_Some_elem_of. }
  rewrite (bind_Done _ _ _ _ _ Ha) in Hr.
  rewrite (bind_Done _ _ _ _ _ (eq_refl : get_current s1 = Done (current (sch s1), s1))), Hc in Hr.
  rewrite (bind_Done _ _ _ _ _ Hp) in Hr.
  apply bind_Done_inv in Hr as (w & s3 & Hg & Hr). injection Hg as _ <-.
  apply bind_Done_inv in Hr as ([] & s3 & [_ [= ->]]%assert_Done_inv & Hr).
  assert (Hend : forall o o' : object, forall x : Z, frames (free o ;; mret x : ST kern Z))
    by (intros o _ x; apply frames_bind; [apply frames_free|intros; apply frames_ret]).
  apply bind_Done_inv in Hr as (ret & s3 & Hk & Hr). pose proof (frames_setup_kstack _ _ _ _ _ Hk) as Hv.
  destruct (negb (ret =? 0)).
  { refine (procs_inv_frames _ s3 n s' _ Hr (procs_inv_view _ _ Hv Hinv2)). apply frames_bind; [apply frames_free|intros _; apply frames_ret]. }
  apply bind_Done_inv in Hr as (ret' & s4 & Hm4 & Hr). pose proof (frames_copy_mm _ _ _ _ _ _ Hm4) as Hv4.
  pose proof (view_trans _ _ _ Hv Hv4) as Hv2. pose proof (procs_inv_view _ _ Hv2 Hinv2) as Hinv4.
  destruct (negb (ret' =? 0)).
  { refine (procs_inv_frames _ s4 n s' _ Hr Hinv4). apply frames_bind; [apply frames_put_kstack|intros _].
    apply frames_bind; [apply frames_free|intros _; apply frames_ret]. }
  pose proof (outsider_view _ _ _ _ Hv2 Hos) as Hos4. destruct Hv2 as ((_ & _ & Hnr & _ & Hid) & _ & _ & Hcu & _).
  apply (birth_inv s4 p r fl n s' Hinv4); [by rewrite Hnr, Hn2|by rewrite Hcu, Hid, Hc2, L5|by rewrite Hcu, Hc2|done].
Qed.
End procs_fork.
