(* ===== verification/Boot.v ===== *)
(** * The first processes (kern/process/proc.c)

    [proc_init] makes the idle process and [init], [init_main] is what [init]
    does around its loop of waits, and [cpu_idle] what the idle process does.
    The program that [user_main] executes is that of [Execve]. *)
From Stdlib Require Import String.
From S2P Require Import Prelude Libs Mem Printfmt SfsDir Inode Vfs VfsSpec File Vmm SkewHeap Proc RunQueue RunQueueSpec Sched SchedSpec Pid Process ProcessSpec ProcsInv ProcsKeep ProcsLife ProcsFork.

(** What the allocations give: the idle process, its table of files, and those of
    the fork that makes [init]; where the first stack is; and the memory behind the
    two names, of which 15 bytes are copied. *)
Record boot_room := mkBootRoom {
  room_idle : option Z; room_idle_files : option (Z * (Z -> file)); room_init : fork_room; bootstack : Z;
  after_idle : list Z; after_init : list Z }.

Section boot.
  Context {W P : Type} `{Inodes W} `{PageTables P} `{SchedClass} (boot_pgdir_pa : Z).
  Notation kern := (kernel W P).
  Implicit Types s : kern.

(** ** [proc_init] *)
Definition set_idleproc p (x : sched) : sched := mkSched (queues x) (procs x) (current x) p (timer x) (timer_list x).
Definition set_initproc p s : kern := mkKernel (sch s) (proc_list s) (hash_list s) (nr_process s) p (pids s)
  (mms s) (mm_pgdir s) (tables s) (fs s) (files s) (ram s) (freed s).

(** The process whose fields are set by hand. *)
Definition idle_files (p : Z) (room : option (Z * (Z -> file))) : ST kern unit :=
  match room with
  | None => panic
  | Some (f, raw) =>
      (match files_create (Some raw) with
       | Some x => modify (fun s => set_files (upd (files s) f x) s)
       | None => mret tt
       end) ;;
      on_process p (set_filesp (Some f)) ;;
      add_files_count f 1 ;;
      mret tt
  end.
Definition idle_init (r : boot_room) (p : Z) : ST kern unit :=
  on_sched (modify (set_idleproc p)) ;;
  on_process p (set_pid 0) ;;
  on_process p (set_state PROC_RUNNABLE) ;;
  on_process p (set_kstack (bootstack r)) ;;
  on_sched (on_queues (on_ent p (set_need_resched true))) ;;
  idle_files p (room_idle_files r) ;;
  set_proc_name p (text "idle" ++ 0 :: after_idle r) ;;
  modify (fun s => set_nr_process (s32 (nr_process s + 1)) s) ;;
  on_sched (modify (set_current p)).

Definition proc_init (r : boot_room) : ST kern unit :=
  modify (set_proc_list []) ;;
  modify (set_hash_list (fun _ => [])) ;;
  o ← alloc_proc boot_pgdir_pa (room_idle r);
  match o with
  | None => panic
  | Some p =>
      idle_init r p ;;
      n ← kernel_thread boot_pgdir_pa (room_init r) 0;
      assert (0 <? n) ;;
      o ← get (find_proc n);
      match o with
      | None => panic
      | Some q =>
          modify (set_initproc q) ;;
          set_proc_name q (text "init" ++ 0 :: after_init r) ;;
          k ← get (fun s => pid (proc_at p s));
          assert (k =? 0) ;;
          k ← get (fun s => pid (proc_at q s));
          assert (k =? 1)
      end
  end.

(** What [kern_init] does for processes. *)
Definition start_processes (r : boot_room) : ST kern unit := on_sched sched_init ;; proc_init r.

(** ** [init_main] *)

(** [vfs_set_bootfs] with the files of the current process. *)
Definition set_bootfs (name : list Z) : ST kern Z := fun s =>
  match filesp (proc_at (current (sch s)) s) with
  | None => Panicked
  | Some f =>
      match vfs_set_bootfs (Some name) (Vfs.set_filesp (files s f) (fs s)) with
      | Done (x, v) => Done (x, set_fs v (set_files (upd (files s) f (Vfs.filesp v)) s))
      | Panicked => Panicked
      | NoFuel => NoFuel
      end
  end.
(** Up to the loop; [r] is the room for [user_main]. *)
Definition init_main_start (r : fork_room) : ST kern unit :=
  ret ← set_bootfs (text "disk0:");
  assert (ret =? 0) ;;
  n ← kernel_thread boot_pgdir_pa r 0;
  assert (0 <? n).

(** After the loop: every process of the users has quit. *)
Definition init_main_end : ST kern Z :=
  on_fs vfs_cleanup ;;
  init ← get initproc;
  p ← get (fun s => proc_at init s);
  assert (bool_decide (cptr p = None /\ yptr p = None /\ optr p = None)) ;;
  n ← get nr_process;
  assert (n =? 2) ;;
  l ← get proc_list;
  assert (bool_decide (head l = Some init)) ;;
  assert (bool_decide (last l = Some init)) ;;
  mret 0.

(** A turn of the loop: [again] when the wait is resumed after its sleep.  [None]:
    the wait sleeps; [Some None]: another turn after the switch; [Some (Some r)]:
    [init_main] returned. *)
Definition init_main_turn (again : bool) : ST kern (option (option Z)) :=
  r ← (if again then wait_again 0 0 else do_wait 0 0);
  match r with
  | None => mret None
  | Some r =>
      if r =? 0 then on_sched schedule ;; mret (Some None)
      else x ← init_main_end; mret (Some (Some x))
  end.

(** ** [cpu_idle] *)
Definition cpu_idle_turn : ST kern unit :=
  cur ← get_current;
  b ← get (fun s => need_resched (ents (queues (sch s)) cur));
  if (b : bool) then on_sched schedule else mret tt.
End boot.

(** ** The first processes, specified

    [proc_init] returns and leaves the idle process running and [init] waiting for
    the processor; from then on no step of the kernel breaks the well-formedness of the
    processes, and the assertions of [init_main] hold. *)

Section boot_spec.
  Context {W P : Type} `{Inodes W} `{PageTables P} `{SchedClass} (boot_pgdir_pa : Z).
  Notation kern := (kernel W P).
  Implicit Types s : kern.
  Context (fresh_fit : sc_fit (mkSe false 0 false 0 0)).

(** ** The end of [init_main] *)

(** When [init] has no child there is nobody else. *)
Lemma only_init s kids : procs_wf s kids -> init_ok s kids -> kids (initproc s) = [] -> proc_list s = [initproc s].
Proof.
  intros Hok Hi Hk. destruct (proj1 (last_Some _ _) (io_last _ _ Hi)) as [l Hl]. rewrite Hl.
  destruct l as [|x l' _] using rev_ind; [done|]. exfalso.
  rewrite <- app_assoc in Hl. cbn in Hl. pose proof (po_nodup _ _ Hok) as [_ Hnd]%NoDup_cons.
  assert (Hx : x ∈ proc_list s) by (rewrite Hl, elem_of_app; right; left).
  rewrite Hl in Hnd. destruct (po_order _ _ Hok x Hx) as (p & Hp & [->|Ho]).
  - rewrite (io_idle _ _ Hi) in Hp. apply list_elem_of_singleton in Hp as ->.
    apply NoDup_app in Hnd as (_ & _ & Hnd). apply NoDup_cons in Hnd as [Hn _]. apply Hn. left.
  - rewrite Hl in Ho. apply older_before in Ho as ->; [|done]. rewrite Hk in Hp. by apply elem_of_nil in Hp.
Qed.

Lemma reap_zero p store s r s' : reap p store s = Done (r, s') -> r = 0.
Proof.
  intros Hr. unfold reap in Hr. do 8 (apply bind_Done_inv in Hr as (? & ? & _ & Hr)). by injection Hr.
Qed.

(** A wait for any child that fails found none. *)
Lemma wait_turn_fails s kids r s' : procs_ok s kids -> wait_turn 0 0 s = Done (Some r, s') -> r <> 0 ->
  s' = s /\ kids (current (sch s)) = [].
Proof.
  intros Hpo Hr Hne. pose proof Hpo as [Hok _]. pose proof (known_current _ _ Hpo) as Hcur.
  unfold wait_turn in Hr. apply bind_Done_inv in Hr as ([k z] & s1 & Hs & Hr).
  destruct (search_child_sound _ _ _ _ _ _ Hpo Hs) as [-> _]. destruct z as [p|].
  - apply bind_Done_inv in Hr as (x & s2 & Hr1 & Hr). apply reap_zero in Hr1. injection Hr as ? ?. congruence.
  - destruct k.
    + apply bind_Done_inv in Hr as (cur & s1 & _ & Hr). do 3 (apply bind_Done_inv in Hr as (? & ? & _ & Hr)). by injection Hr.
    + injection Hr as _ <-. split; [done|]. unfold search_child in Hs.
      rewrite (bind_Done _ _ _ _ _ (eq_refl : get_current s = Done (current (sch s), s))) in Hs. cbn [negb Z.eqb] in Hs.
      apply bind_Done_inv in Hs as (c & s1 & Hc & Hs). injection Hc as <- <-.
      apply bind_Done_inv in Hs as (l & s1 & Hl & Hs). injection Hl as _ <-.
      apply bind_Done_inv in Hs as (z & s1 & _ & Hs). injection Hs as Hb _ _.
      pose proof (fa_first _ _ _ (po_family _ _ Hok _ Hcur)) as Hf. change (cptr (proc_at (current (sch s)) s)) with (cptr (gp s (current (sch s)))) in Hb.
      rewrite Hf in Hb. apply bool_decide_eq_false in Hb. destruct (kids (current (sch s))); [done|by destruct Hb].
Qed.

Lemma wait_fails (again : bool) s kids r s' : procs_ok s kids ->
  (if again then wait_again 0 0 else do_wait 0 0) s = Done (Some r, s') -> r <> 0 ->
  s' = s /\ kids (current (sch s)) = [].
Proof.
  intros Hpo Hr Hne. destruct again.
  - unfold wait_again in Hr. apply bind_Done_inv in Hr as (cur & s1 & Hc & Hr). injection Hc as <- <-.
    apply bind_Done_inv in Hr as (f & s1 & Hf & Hr). injection Hf as _ <-. destruct (negb _).
    + by apply bind_Done_inv in Hr as (? & ? & _ & Hr).
    + by apply (wait_turn_fails s kids r s').
  - unfold do_wait in Hr. apply bind_Done_inv in Hr as (cur & s1 & Hc & Hr). injection Hc as _ <-.
    apply bind_Done_inv in Hr as (m & s1 & Hm & Hr). injection Hm as _ <-.
    apply bind_Done_inv in Hr as (ok & s1 & Ho & Hr). injection Ho as <- <-. by apply (wait_turn_fails s kids r s').
Qed.

Lemma init_main_end_run s kids v : procs_wf s kids -> init_ok s kids -> kids (initproc s) = [] ->
  vfs_cleanup (fs s) = Done (tt, v) -> init_main_end s = Done (0, set_fs v s).
Proof.
  intros Hok Hi Hk Hv. pose proof (only_init _ _ Hok Hi Hk) as Hl. unfold init_main_end, on_fs.
  assert (Hc : on_part fs set_fs vfs_cleanup s = Done (tt, set_fs v s)) by (unfold on_part; by rewrite Hv).
  mstep Hc. set (s1 := set_fs v s).
  mstep (eq_refl : get initproc s1 = Done (initproc s, s1)).
  mstep (eq_refl : get (fun s => proc_at (initproc s1) s) s1 = Done (gp s (initproc s), s1)).
  assert (Hin : initproc s ∈ everyone s) by (unfold everyone; rewrite Hl; right; left).
  pose proof (fa_first _ _ _ (po_family _ _ Hok _ Hin)) as Hf. rewrite Hk in Hf.
  pose proof (fa_links _ _ _ (po_family _ _ Hok (idleproc (sch s)) ltac:(left))) as Hs. rewrite (io_idle _ _ Hi) in Hs.
  destruct Hs as (_ & Hy & Ho & _).
  mstep (assert_true _ s1 (bool_decide_eq_true_2 _ (conj Hf (conj Hy Ho)))).
  mstep (eq_refl : get nr_process s1 = Done (nr_process s, s1)).
  assert (Hn : nr_process s = 2) by (rewrite (po_count _ _ Hok); unfold everyone; by rewrite Hl). rewrite Hn.
  mstep (assert_true (2 =? 2) s1 eq_refl).
  mstep (eq_refl : get proc_list s1 = Done (proc_list s, s1)). rewrite Hl. cbn [head last].
  mstep (assert_true (bool_decide (Some (initproc s) = Some (initproc s))) s1 (bool_decide_eq_true_2 _ eq_refl)).
  mstep (assert_true (bool_decide (Some (initproc s) = Some (initproc s))) s1 (bool_decide_eq_true_2 _ eq_refl)). done.
Qed.

(** C22 When a wait of [init] for any child fails, whatever has run before, [init]
    has no child left because there is no other process at all: [init_main] passes
    its four assertions on the family of [init], on the count and on the list, and
    returns 0. *)
Theorem init_main_returns (again : bool) s r s' v :
  procs_inv s -> current (sch s) = initproc s -> vfs_cleanup (fs s) = Done (tt, v) ->
  (if again then wait_again 0 0 else do_wait 0 0) s = Done (Some r, s') -> r <> 0 ->
  s' = s /\ proc_list s = [initproc s] /\ init_main_turn again s = Done (Some (Some 0), set_fs v s).
Proof.
  intros (kids & Hpo & Hi) Hc Hv Hr Hne. destruct (wait_fails again s kids r s' Hpo Hr Hne) as [-> Hk]. rewrite Hc in Hk.
  split; [done|]. split; [by apply (only_init _ kids (proj1 Hpo))|]. unfold init_main_turn. mstep Hr.
  rewrite (proj2 (Z.eqb_neq _ _) Hne). by mstep (init_main_end_run s kids v (proj1 Hpo) Hi Hk Hv).
Qed.

(** ** [proc_init] *)

(** A kernel without processes. *)
Record unborn s : Prop := mkUnborn {
  un_state x : state (gp s x) = PROC_UNINIT;
  un_count : nr_process s = 0;
  un_pids : pids s = pid_init }.

(** The table of files of the idle process: nothing is open. *)
Definition unused_files (x : files_struct) : Prop :=
  pwd x = None /\ 0 < files_count x /\ forall i, testfd i = true -> status (fd_array x i) <> FD_OPENED.

(** The idle process alone. *)
Record idle_alone s (p f : Z) : Prop := mkIdleAlone {
  ia_ok : procs_ok s (fun _ => []);
  ia_list : proc_list s = [];
  ia_idle : idleproc (sch s) = p /\ current (sch s) = p;
  ia_pids : pids s = pid_init;
  ia_count : nr_process s = 1;
  ia_proc : pid (gp s p) = 0 /\ mm (gp s p) = None /\ filesp (gp s p) = Some f /\ wait_state (gp s p) = 0;
  ia_files : unused_files (files s f) }.

(** The kernel once the idle process has the fields [x] and its table of files. *)
Definition with_idle s (p : Z) (x : proc_struct) (b : bool) (fl : Z -> files_struct) (idle cur n : Z) : kern :=
  let q := queues (sch s) in
  mkKernel (mkSched (mkRqs (rq q) (upd (ents q) p (mkSe b 0 false 0 0)) (upd (nodes q) p (mkNode None None None)))
                    (upd (gp s) p x) cur idle (timer (sch s)) (timer_list (sch s)))
    (proc_list s) (hash_list s) n (initproc s) (pids s) (mms s) (mm_pgdir s) (tables s) (fs s) fl (ram s) (freed s).

Lemma with_idle_proc s p x b fl idle cur n f :
  on_process p f (with_idle s p x b fl idle cur n) = Done (tt, with_idle s p (f x) b fl idle cur n).
Proof.
  rewrite on_process_run. unfold with_idle, with_procs, gp. cbn. by rewrite upd_eq, upd_upd.
Qed.

Definition idle_proc (r : boot_room) (f : Z) : proc_struct :=
  set_name (take 15 (text "idle" ++ 0 :: after_idle r) ++ [0]) (Proc.set_filesp (Some f)
    (set_kstack (bootstack r) (set_state PROC_RUNNABLE (set_pid 0 (fresh_proc boot_pgdir_pa))))).

Lemma idle_init_eq s r p f raw : room_idle_files r = Some (f, raw) ->
  exists s1, alloc_proc boot_pgdir_pa (Some p) s = Done (Some p, s1) /\
    idle_init r p s1 = Done (tt, with_idle s p (idle_proc r f) true (upd (files s) f (mkFiles None (fd_array_init raw) 1 1)) p p
                                           (s32 (nr_process s + 1))).
Proof.
  intros Hf. set (c := current (sch s)). set (i := idleproc (sch s)). set (n := nr_process s).
  exists (with_idle s p (fresh_proc boot_pgdir_pa) false (files s) i c n). split; [done|].
  unfold idle_init, idle_files. rewrite Hf. cbn [files_create].
  mstep (eq_refl : on_sched (modify (set_idleproc p)) (with_idle s p (fresh_proc boot_pgdir_pa) false (files s) i c n)
                   = Done (tt, with_idle s p (fresh_proc boot_pgdir_pa) false (files s) p c n)).
  do 3 (rewrite (bind_Done _ _ _ _ _ (with_idle_proc _ _ _ _ _ _ _ _ _))).
  set (x := set_kstack _ _).
  assert (H1' : on_sched (on_queues (on_ent p (set_need_resched true))) (with_idle s p x false (files s) p c n)
                = Done (tt, with_idle s p x true (files s) p c n)).
  { unfold on_sched, on_part, on_queues, on_ent, modify, with_idle. cbn. by rewrite upd_eq, upd_upd. }
  mstep H1'. set (fl := upd (files s) f (mkFiles None (fd_array_init raw) 0 1)).
  set (fl' := upd (files s) f (mkFiles None (fd_array_init raw) 1 1)).
  assert (H2' : (modify (fun s => set_files (upd (files s) f (mkFiles None (fd_array_init raw) 0 1)) s) ;;
                 on_process p (Proc.set_filesp (Some f)) ;; add_files_count f 1 ;; mret tt) (with_idle s p x true (files s) p c n)
                = Done (tt, with_idle s p (Proc.set_filesp (Some f) x) true fl' p c n)).
  { mstep (eq_refl : modify (fun s => set_files (upd (files s) f (mkFiles None (fd_array_init raw) 0 1)) s)
                       (with_idle s p x true (files s) p c n) = Done (tt, with_idle s p x true fl p c n)).
    rewrite (bind_Done _ _ _ _ _ (with_idle_proc _ _ _ _ _ _ _ _ _)).
    unfold add_files_count, modify, get, mbind, ST_bind, with_idle, set_files. cbn. unfold fl, fl'.
    by rewrite !upd_eq, upd_upd. }
  mstep H2'. unfold set_proc_name. rewrite (bind_Done _ _ _ _ _ (with_idle_proc _ _ _ _ _ _ _ _ _)). done.
Qed.

Lemma idle_init_run s r p f raw : unborn s -> sc_queue (queues (sch s)) [] -> proc_list s = [] -> hash_list s = (fun _ => []) ->
  room_idle_files r = Some (f, raw) ->
  exists s1 s', alloc_proc boot_pgdir_pa (Some p) s = Done (Some p, s1) /\ idle_init r p s1 = Done (tt, s') /\
    idle_alone s' p f /\ fs s' = fs s.
Proof.
  intros [Us Uc Up] Uq Hl Hh Hf. destruct (idle_init_eq s r p f raw Hf) as (s1 & Ha & Hi).
  set (s' := with_idle _ _ _ _ _ _ _ _) in Hi. exists s1, s'. split; [done|]. split; [done|]. split; [|done].
  assert (Hg : forall x, x <> p -> gp s' x = gp s x) by (intros x Hx; unfold s'; by apply upd_ne).
  assert (Hp : gp s' p = idle_proc r f) by (unfold s'; apply upd_eq).
  assert (Hr : forall x, runnable (sch s') x <-> x = p).
  { intros x. unfold runnable. change (procs (sch s') x) with (gp s' x).
    destruct (decide (x = p)) as [->|Hx]; [by rewrite Hp|]. by rewrite Hg, Us. }
  assert (Hq : sc_queue (queues (sch s')) []) by (apply sc_queue_new; [done|apply not_elem_of_nil]).
  assert (Hfit : sc_fit (ents (queues (sch s')) p))
    by (cbn; rewrite upd_eq; by apply (sc_fit_resched true (mkSe false 0 false 0 0))).
  assert (Hn : nr_process s' = 1) by (cbn; by rewrite Uc).
  assert (L : proc_list s' = []) by done. assert (Lh : hash_list s' = fun _ => []) by done.
  assert (Lp : pids s' = pid_init) by done. assert (He : everyone s' = [p]) by (unfold everyone; by rewrite L).
  assert (Lc : current (sch s') = p /\ idleproc (sch s') = p) by done.
  assert (Lf : files s' f = mkFiles None (fd_array_init raw) 1 1) by (unfold s'; apply upd_eq).
  clearbody s'. destruct Lc as [Lc Li].
  split; rewrite ?Hp; try done.
  - split; [split|by rewrite Lc; apply Hr]; rewrite ?He, ?L, ?Lh, ?Hn; try (by intros ? ?%elem_of_nil).
    + exists []. split; [done| |by rewrite Li; apply Hr| |done].
      * intros x. rewrite Hr, Lc. split; [by intros ?%elem_of_nil|]. by intros (-> & Hc & _).
      * intros x Hx%Hr Hxi. congruence.
    + apply NoDup_singleton.
    + done.
    + done.
    + unfold the_pids. rewrite L. constructor.
    + unfold the_pids. rewrite L, Lp. split; [done|done|]. by intros x ?%elem_of_nil.
    + intros h x. split; [by intros ?%elem_of_nil|]. by intros [?%elem_of_nil _].
    + intros x Hx%list_elem_of_singleton. subst x. split; [by rewrite Hp|done|constructor|apply not_elem_of_nil].
    + intros x c _ Hc. by apply elem_of_nil in Hc.
    + intros x Hx%Hr. subst x. left.
    + done.
    + intros x Hx%list_elem_of_singleton. by subst x.
    + intros x Hx%Hr. subst x. by rewrite Hp.
  - rewrite Lf. split; [done|]. split; [done|]. intros i Hi'. cbn. unfold fd_array_init. by rewrite Hi'.
Qed.

(** Copying a table in which nothing is open. *)
Lemma dup_none to from (v : vfs W) : forall k i, (forall j, i <= j < i + Z.of_nat k -> status (from j) <> FD_OPENED) ->
  dup_loop k i to from v = Done (to, v).
Proof.
  induction k as [|k IH]; intros i Hj; [done|]. cbn [dup_loop]. rewrite decide_False by (apply Hj; lia).
  rewrite ret_bind, upd_same by done. apply IH. intros j Hjr. apply Hj. lia.
Qed.

Lemma copy_files_unused r fl p s old f raw : filesp (gp s (current (sch s))) = Some old -> unused_files (files s old) ->
  Z.land fl CLONE_FS = 0 -> room_files r = Some (f, raw) -> f <> old ->
  exists s', copy_files r fl p s = Done (0, s').
Proof.
  intros Ho (Hp & Hc & Hn) Hfl Hr Hne. unfold copy_files.
  mstep (eq_refl : get_current s = Done (current (sch s), s)). set (cur := current (sch s)) in *.
  mstep (eq_refl : get (fun s => filesp (proc_at cur s)) s = Done (filesp (gp s cur), s)). rewrite Ho, Hfl, Hr. cbn [negb Z.eqb files_create].
  set (x := mkFiles None (fd_array_init raw) 0 1). set (s1 := set_files (upd (files s) f x) s).
  mstep (eq_refl : modify (fun s => set_files (upd (files s) f x) s) s = Done (tt, s1)).
  mstep (eq_refl : get (fun s => files s f) s1 = Done (upd (files s) f x f, s1)).
  mstep (eq_refl : get (fun s => files s old) s1 = Done (upd (files s) f x old, s1)).
  rewrite upd_eq, upd_ne by congruence.
  assert (Hd : dup_files x (files s old) (fs s) = Done (set_array (fd_array_init raw) (set_pwd (pwd (files s old)) x), fs s)).
  { unfold dup_files. assert (Ha : ((files_count x =? 0) && (0 <? files_count (files s old))) = true)
      by (cbn; by apply Z.ltb_lt). mstep (assert_true _ (fs s) Ha). rewrite Hp, ret_bind.
    assert (Hl : dup_loop (Z.to_nat FILES_STRUCT_NENTRY) 0 (fd_array x) (fd_array (files s old)) (fs s) = Done (fd_array x, fs s)).
    { apply dup_none. intros j Hj. apply Hn. unfold testfd. rewrite Z2Nat.id in Hj by done.
      apply andb_true_iff. split; [apply Z.leb_le|apply Z.ltb_lt]; lia. }
    by mstep Hl. }
  set (y := set_array _ _) in Hd.
  assert (Hd1 : on_fs (dup_files x (files s old)) s1 = Done (y, set_fs (fs s) s1)) by (unfold on_fs, on_part; change (fs s1) with (fs s); by rewrite Hd).
  mstep Hd1. eexists. reflexivity.
Qed.

(** The fork of the idle process. *)
Record first_child s' (p q : Z) : Prop := mkFirstChild {
  fc_ok : procs_ok s' (fork_kids (fun _ => []) q p);
  fc_list : proc_list s' = [q];
  fc_idle : idleproc (sch s') = p /\ current (sch s') = p;
  fc_pids : pid (gp s' p) = 0 /\ pid (gp s' q) = 1;
  fc_state : state (gp s' q) = PROC_RUNNABLE }.

Lemma first_fork s p f r q a f1 raw : idle_alone s p f -> room_proc r = Some q -> room_stack r = Some a ->
  room_files r = Some (f1, raw) -> q <> p -> f1 <> f ->
  exists s', kernel_thread boot_pgdir_pa r 0 s = Done (1, s') /\ first_child s' p q.
Proof.
  intros [Hpo Hl [Hi Hc] Hp Hn (Hpid & Hmm & Hfs & Hw) Hun] Hr1 Hr2 Hr3 Hqp Hff. unfold kernel_thread, do_fork.
  mstep (eq_refl : get nr_process s = Done (nr_process s, s)). rewrite Hn, Hr1. cbn [Z.leb Z.compare MAX_PROCESS].
  change (MAX_PROCESS <=? 1) with false. cbv iota.
  assert (He : everyone s = [p]) by (unfold everyone; by rewrite Hi, Hl).
  destruct (outsider_run boot_pgdir_pa fresh_fit s (fun _ => []) q p Hpo) as (s1 & s2 & Ha & Hc1 & Hs2 & Hpo2 & Hos & Hl2 & Hc2 & _ & Hg2 & Hgq & Hfs2 & Hfl2).
  { rewrite He. by intros ?%list_elem_of_singleton. }
  mstep Ha. mstep (eq_refl : get_current s1 = Done (current (sch s1), s1)). rewrite Hc1, Hc. mstep Hs2.
  mstep (eq_refl : get (fun s => wait_state (proc_at p s)) s2 = Done (wait_state (gp s2 p), s2)). rewrite Hg2, Hw by congruence.
  mstep (assert_true (0 =? 0) s2 eq_refl). rewrite Hr2.
  set (s3 := with_procs (upd (gp s2) q (set_kstack a (gp s2 q))) s2).
  mstep (eq_refl : setup_kstack q (Some a) s2 = Done (0, s3)). cbn [negb Z.eqb].
  pose proof (frames_setup_kstack q (Some a) s2 0 s3 eq_refl) as Hv.
  assert (Hg3 : forall x, mm (gp s3 x) = mm (gp s2 x) /\ filesp (gp s3 x) = filesp (gp s2 x))
    by (intros x; unfold s3; rewrite gp_with; unfold upd; by destruct (decide (x = q)) as [->|]).
  assert (Hm : copy_mm r (Z.lor 0 CLONE_VM) q s3 = Done (0, s3)).
  { unfold copy_mm. mstep (eq_refl : get_current s3 = Done (current (sch s2), s3)). rewrite Hc2, Hc.
    mstep (eq_refl : get (fun s => mm (proc_at p s)) s3 = Done (mm (gp s3 p), s3)).
    destruct (Hg3 p) as [-> _]. rewrite Hg2, Hmm by congruence. done. }
  mstep Hm. cbn [negb Z.eqb]. pose proof (procs_ok_view _ _ _ Hv Hpo2) as Hpo3. pose proof (outsider_view _ _ _ _ Hv Hos) as Hos3.
  pose proof Hl2 as (L1 & L2 & L3 & L4 & L5). pose proof Hv as ((V1 & V2 & V3 & V4 & V5) & Vk & _ & Vc & _).
  destruct (birth_run s3 (fun _ => []) q p Hpo3) as (n & s4 & s5 & Hk & Hln & Hrest & Hsf & Hcur & Hok & Hst & Hsto);
    [rewrite V3, L3, Hn; done|congruence|done|].
  unfold start_child. unfold enter in Hk. rewrite Hk. clear Hk.
  destruct Hsf as (F1 & F2 & F3).
  destruct (copy_files_unused r (Z.lor 0 CLONE_VM) q s5 f f1 raw) as [s6 Hcf]; try done.
  { rewrite Hcur, F3. destruct (Hg3 p) as [_ ->]. by rewrite Hg2 by congruence. }
  { rewrite F1. change (files s3) with (files s2). by rewrite Hfl2. }
  mstep Hcf. cbn [negb Z.eqb]. pose proof (frames_copy_files _ _ _ _ _ _ Hcf) as Hv6.
  assert (Hn1 : n = 1).
  { pose proof (ln_given _ _ _ _ _ _ Hln) as Hg. unfold the_pids in Hg. rewrite V1, L1, Hl, V4, L4, Hp in Hg. cbn [fmap list_fmap] in Hg.
    assert (He1 : result (get_pid [] pid_init) = Some 1) by (vm_compute; reflexivity).
    unfold result in He1. rewrite Hg in He1. by injection He1. }
  subst n. exists s6. split; [done|]. destruct (ln_rest _ _ _ _ _ _ Hln) as (_ & R2 & R3 & _).
  destruct Hrest as ((Q1 & _ & _ & _ & Q5) & Qk & _). destruct Hv6 as ((S1 & S2 & S3 & S4 & S5) & Sk & Sq & Sc & Si & Ss).
  assert (Hpp : forall x, pid (gp s6 x) = pid (gp s4 x)) by (intros x; destruct (Sk x) as [_ ->]; by destruct (Qk x) as [_ ->]).
  split.
  - by apply (procs_ok_view s5).
  - rewrite S1, Q1, (ln_list _ _ _ _ _ _ Hln), V1, L1, Hl. done.
  - split; [by rewrite S5, Q5, R3, V5, L5|by rewrite Sc].
  - rewrite !Hpp, !(ln_pid _ _ _ _ _ _ Hln). rewrite decide_False, decide_True by congruence. split; [|done].
    destruct (Vk p) as [_ ->]. by rewrite Hg2 by congruence.
  - destruct (Ss q) as [-> _]. done.
Qed.

Lemma proc_init_run s r p q f raw f1 raw1 a : unborn s -> sc_queue (queues (sch s)) [] ->
  room_idle r = Some p -> room_idle_files r = Some (f, raw) -> room_proc (room_init r) = Some q ->
  room_stack (room_init r) = Some a -> room_files (room_init r) = Some (f1, raw1) -> q <> p -> f1 <> f ->
  exists s', proc_init boot_pgdir_pa r s = Done (tt, s') /\ procs_inv s' /\ current (sch s') = p /\
    idleproc (sch s') = p /\ initproc s' = q /\ proc_list s' = [q] /\ nr_process s' = 2 /\
    pid (gp s' p) = 0 /\ pid (gp s' q) = 1 /\ state (gp s' q) = PROC_RUNNABLE.
Proof.
  intros Hun Huq Hp Hf Hq Ha Hf1 Hqp Hff. unfold proc_init. set (s1 := set_hash_list (fun _ => []) (set_proc_list [] s)).
  mstep (eq_refl : modify (set_proc_list []) s = Done (tt, set_proc_list [] s)).
  mstep (eq_refl : modify (set_hash_list (fun _ => [])) (set_proc_list [] s) = Done (tt, s1)). rewrite Hp.
  assert (Hun1 : unborn s1) by (destruct Hun; by split).
  destruct (idle_init_run s1 r p f raw Hun1 Huq eq_refl eq_refl Hf) as (s2 & s3 & Hal & Hin & Hia & _).
  mstep Hal. mstep Hin.
  destruct (first_fork s3 p f (room_init r) q a f1 raw1 Hia Hq Ha Hf1 Hqp Hff) as (s4 & Hk & [Hpo Hl [Hi Hc] [Hp0 Hp1] Hst]).
  mstep Hk. mstep (assert_true (0 <? 1) s4 eq_refl).
  mstep (eq_refl : get (find_proc 1) s4 = Done (find_proc 1 s4, s4)).
  assert (Hfp : find_proc 1 s4 = Some q) by (apply (find_proc_exact s4 _ 1 q (proj1 Hpo)); rewrite Hl; split; [left|done]).
  rewrite Hfp. set (s5 := set_initproc q s4). mstep (eq_refl : modify (set_initproc q) s4 = Done (tt, s5)).
  assert (Hinv5 : procs_inv s5).
  { exists (fork_kids (fun _ => []) q p). split; [destruct Hpo as [Hok Hrc]; split; [|done]; destruct Hok; by split|].
    split; [by cbn; rewrite Hl| |change (state (gp s4 q) <> PROC_ZOMBIE); by rewrite Hst].
    change (idleproc (sch s5)) with (idleproc (sch s4)). rewrite Hi. unfold fork_kids, upd_kids.
    rewrite decide_False by done. by rewrite decide_True. }
  assert (Hfr : frames (W := W) (P := P) (set_proc_name q (text "init" ++ 0 :: after_init r)))
    by (apply frames_process; by repeat split).
  set (s6 := with_procs (upd (gp s5) q (set_name (take 15 (text "init" ++ 0 :: after_init r) ++ [0]) (gp s5 q))) s5).
  mstep (on_process_run q (set_name (take 15 (text "init" ++ 0 :: after_init r) ++ [0])) s5). fold s6.
  pose proof (Hfr _ _ _ (on_process_run q (set_name (take 15 (text "init" ++ 0 :: after_init r) ++ [0])) s5)) as Hv. fold s6 in Hv.
  assert (Hpid : forall x, pid (gp s6 x) = pid (gp s4 x)) by (intros x; destruct Hv as (_ & Hk' & _); by destruct (Hk' x) as [_ ->]).
  mstep (eq_refl : get (fun s => pid (proc_at p s)) s6 = Done (pid (gp s6 p), s6)). rewrite Hpid, Hp0.
  mstep (assert_true (0 =? 0) s6 eq_refl).
  mstep (eq_refl : get (fun s => pid (proc_at q s)) s6 = Done (pid (gp s6 q), s6)). rewrite Hpid, Hp1.
  exists s6. split; [done|]. split; [by apply (procs_inv_view s5)|]. rewrite !Hpid.
  destruct Hv as ((V1 & V2 & V3 & V4 & V5) & _ & _ & Vc & Vi & Vs). rewrite Vc, V5, Vi, V1, V3. destruct (Vs q) as [-> _].
  split_and!; try done. change (nr_process s5) with (nr_process s4). rewrite (po_count _ _ (proj1 Hpo)). unfold everyone. by rewrite Hl.
Qed.

Lemma sched_init_run s : unborn s -> exists s', on_sched sched_init s = Done (tt, s') /\ unborn s' /\ sc_queue (queues (sch s')) [].
Proof.
  intros [A B C]. unfold on_sched, on_part, sched_init. set (x1 := set_timer_list [] (sch s)).
  mstep (eq_refl : modify (set_timer_list []) (sch s) = Done (tt, x1)).
  set (x2 := set_queues (set_max_slice MAX_TIME_SLICE (queues x1)) x1).
  mstep (eq_refl : on_queues (modify (set_max_slice MAX_TIME_SLICE)) x1 = Done (tt, x2)).
  destruct (sc_init_law (queues x2)) as (q & Hq & Hq0 & _). rewrite (on_queues_run sc_init x2 tt q Hq).
  eexists. split; [reflexivity|]. by split.
Qed.

Lemma start_run s r p q f raw f1 raw1 a : unborn s ->
  room_idle r = Some p -> room_idle_files r = Some (f, raw) -> room_proc (room_init r) = Some q ->
  room_stack (room_init r) = Some a -> room_files (room_init r) = Some (f1, raw1) -> q <> p -> f1 <> f ->
  exists s', start_processes boot_pgdir_pa r s = Done (tt, s') /\ procs_inv s' /\ current (sch s') = p /\
    idleproc (sch s') = p /\ initproc s' = q /\ proc_list s' = [q] /\ nr_process s' = 2 /\
    pid (gp s' p) = 0 /\ pid (gp s' q) = 1 /\ state (gp s' q) = PROC_RUNNABLE.
Proof.
  intros Hun H1' H2' H3' H4' H5' H6' H7'. destruct (sched_init_run s Hun) as (s1 & Hr & Hun1 & Hq).
  unfold start_processes. mstep Hr. by apply (proc_init_run s1 r p q f raw f1 raw1 a).
Qed.

(** C21 [sched_init] and [proc_init] on a kernel that has no process, given the memory
    they ask for, return: the idle process runs with the pid 0,
    [init] is its only child, has the pid 1 and can run, there are two processes,
    and everything that holds of the processes between two operations holds. *)
Theorem proc_init_starts s r p q f raw f1 raw1 a : unborn s ->
  room_idle r = Some p -> room_idle_files r = Some (f, raw) -> room_proc (room_init r) = Some q ->
  room_stack (room_init r) = Some a -> room_files (room_init r) = Some (f1, raw1) -> q <> p -> f1 <> f ->
  exists s', start_processes boot_pgdir_pa r s = Done (tt, s') /\ procs_inv s' /\ current (sch s') = p /\
    idleproc (sch s') = p /\ initproc s' = q /\ proc_list s' = [q] /\ nr_process s' = 2 /\
    pid (gp s' p) = 0 /\ pid (gp s' q) = 1 /\ state (gp s' q) = PROC_RUNNABLE.
Proof. apply start_run. Qed.
End boot_spec.
