(* ===== verification/KernelSteps.v ===== *)
(** * Everything that happens to processes

    The operations on processes as the steps of one machine, in any order and any
    number: system calls of the process that runs, the clock, the scheduler, and
    changes of memory and files.  Every kernel they reach is well-formed. *)
From S2P Require Import Prelude Libs Mem Strings SfsDir Inode Vfs VfsSpec File Vmm SkewHeap RunQueue RunQueueSpec Proc Sched SchedSpec Pid Process ProcessSpec ProcsInv ProcsKeep ProcsLife ProcsFork PageTable Exec Sysfile Execve Boot.

Section kernel_steps.
  Context {W P : Type} `{Inodes W} `{PageTables P} `{SchedClass} (boot_pgdir_pa : Z).
  Notation kern := (kernel W P).
  Implicit Types s : kern.
  Context (fresh_fit : sc_fit (mkSe false 0 false 0 0)).

(** The idle process asks for nothing but the processor. *)
Definition busy s : Prop := current (sch s) <> idleproc (sch s).
(** Timers are of processes. *)
Definition timers_known s : Prop := forall t, t ∈ timer_list (sch s) -> tproc (timer (sch s) t) ∈ everyone s.

(** The class can serve a process of this priority. *)
Definition fit_priority (n : Z) : Prop := forall e, sc_fit (mkSe (need_resched e) (time_slice e) (on_rq e) (lab6_stride e) n).

(** The child of a fork gets its file table: it shares that of its parent, or there is
    memory for one of its own.  A fork for which there is none frees the structure of a
    child that is listed, hashed and queued already (see [forked_without_files]). *)
Definition files_room (r : fork_room) (fl : Z) : Prop := Z.land fl CLONE_FS <> 0 \/ room_files r <> None.

(** These are the forks whose [copy_files] does not fail. *)
Lemma copy_files_result r fl p s n s' : copy_files r fl p s = Done (n, s') -> (n = 0 <-> files_room r fl).
Proof.
  unfold copy_files. intros Hr.
  apply bind_Done_inv in Hr as (cur & s1 & Hc & Hr). apply bind_Done_inv in Hr as (old & s2 & Ho & Hr).
  assert (Hgood : forall f s a s', good_files p f s = Done (a, s') -> a = 0).
  { intros f t a t' Hg. unfold good_files in Hg. apply bind_Done_inv in Hg as (? & ? & _ & Hg).
    apply bind_Done_inv in Hg as (? & ? & _ & Hg). by injection Hg as <- _. }
  destruct old as [old|]; [|done]. destruct (Z.eqb_spec (Z.land fl CLONE_FS) 0) as [Hz|Hz]; cbn [negb] in Hr.
  2: { apply Hgood in Hr. split; [by left|done]. }
  destruct (room_files r) as [[f raw]|] eqn:Hf.
  - apply bind_Done_inv in Hr as (? & ? & _ & Hr). do 4 (apply bind_Done_inv in Hr as (? & ? & _ & Hr)).
    apply Hgood in Hr. split; [right; by rewrite Hf|done].
  - injection Hr as <- _. unfold E_NO_MEM. split; [done|]. by intros [?|?].
Qed.

Inductive kstep s : kern -> Prop :=
  | K_fork r fl n s' : busy s -> room_ok s r -> files_room r fl -> do_fork boot_pgdir_pa r fl s = Done (n, s') -> kstep s s'
  | K_exit e s' : do_exit e s = Done (tt, s') -> kstep s s'
  | K_wait n store r s' : busy s -> do_wait n store s = Done (r, s') -> kstep s s'
  | K_wait_again n store r s' : busy s -> wait_again n store s = Done (r, s') -> kstep s s'
  | K_kill n r s' : do_kill n s = Done (r, s') -> kstep s s'
  | K_yield r s' : do_yield s = Done (r, s') -> kstep s s'
  | K_sleep t time r s' : busy s -> do_sleep t time s = Done (r, s') -> kstep s s'
  | K_end_sleep t r s' : end_sleep t s = Done (r, s') -> kstep s s'
  (** Semaphores, events and stdin: the process that runs sleeps with some
      [wait_state], having done [c]; a process is woken. *)
  | K_block (c : ST kern unit) w s' : busy s -> frames c ->
      (on_process (current (sch s)) (set_state PROC_SLEEPING) ;; on_process (current (sch s)) (set_wait_state w) ;;
       c ;; on_sched schedule) s = Done (tt, s') -> kstep s s'
  | K_wakeup p s' : p ∈ everyone s -> wakeup p s = Done (tt, s') -> kstep s s'
  | K_clock s' : timers_known s -> on_sched run_timer_list s = Done (tt, s') -> kstep s s'
  | K_schedule s' : on_sched schedule s = Done (tt, s') -> kstep s s'
  | K_idle s' : cpu_idle_turn s = Done (tt, s') -> kstep s s'
  | K_priority n s' : fit_priority (if n =? 0 then 1 else n) -> lab6_set_priority n s = Done (tt, s') -> kstep s s'
  | K_other s' : same_procs_view s s' -> kstep s s'.

Lemma kstep_inv s s' : procs_inv s -> kstep s s' -> procs_inv s'.
Proof.
  intros Hinv Hk. destruct Hk as
    [r fl n s' Hb Hr _ Hf|e s' Hr|n st r s' Hb Hr|n st r s' Hb Hr|n r s' Hr|r s' Hr|t time r s' Hb Hr|t r s' Hr
    |c w s' Hb Hc Hr|p s' Hp Hr|s' Ht Hr|s' Hr|s' Hr|n s' Hp Hr|s' Hv].
  - by eapply fork_inv.
  - by eapply exit_inv.
  - by eapply wait_inv.
  - by eapply wait_again_inv.
  - by eapply kill_inv.
  - by eapply yield_inv.
  - by eapply do_sleep_inv.
  - refine (procs_inv_frames (end_sleep t) s r s' _ Hr Hinv). unfold end_sleep.
    apply frames_bind; [apply frames_calm, calm_del|intros _; apply frames_ret].
  - by eapply sleep_inv.
  - by eapply wakeup_inv.
  - by eapply clock_inv.
  - by eapply schedule_inv.
  - unfold cpu_idle_turn in Hr. apply bind_Done_inv in Hr as (cur & s1 & Hc & Hr). injection Hc as _ <-.
    apply bind_Done_inv in Hr as (b & s1 & Hb & Hr). injection Hb as _ <-.
    destruct b; [by eapply schedule_inv|by injection Hr as <-].
  - by eapply priority_inv.
  - by eapply procs_inv_view.
Qed.

Lemma ksteps_inv s s' : procs_inv s -> rtc kstep s s' -> procs_inv s'.
Proof. intros Hinv Hr. induction Hr as [s|s s1 s' Hk Hr IH]; [done|]. apply IH. by eapply kstep_inv. Qed.

(** What the well-formedness says, in terms of the code. *)
Record processes_sound s : Prop := mkSound {
  ps_current : state (gp s (current (sch s))) = PROC_RUNNABLE /\ current (sch s) ∈ everyone s;
  ps_pids p p' : p ∈ proc_list s -> p' ∈ proc_list s -> pid (gp s p) = pid (gp s p') -> p = p';
  ps_find n p : find_proc n s = Some p <-> p ∈ proc_list s /\ pid (gp s p) = n;
  ps_count : nr_process s = Z.of_nat (length (proc_list s)) + 1 /\ nr_process s <= MAX_PROCESS;
  ps_parent c : c ∈ proc_list s -> exists p, parent (gp s c) = Some p /\ p ∈ everyone s /\ state (gp s p) <> PROC_ZOMBIE;
  ps_children p : p ∈ everyone s -> exists l, family (gp s) p l /\
    forall c, c ∈ l <-> c ∈ proc_list s /\ parent (gp s c) = Some p;
  ps_ready : exists q, sc_queue (queues (sch s)) q /\
    forall p, p ∈ q <-> state (gp s p) = PROC_RUNNABLE /\ p <> current (sch s) /\ p <> idleproc (sch s);
  ps_init : initproc s ∈ proc_list s /\ state (gp s (initproc s)) <> PROC_ZOMBIE /\
            parent (gp s (initproc s)) = Some (idleproc (sch s)) }.

Lemma inv_sound s : procs_inv s -> processes_sound s.
Proof.
  intros (kids & Hpo & Hi). pose proof Hpo as [Hok Hrc]. pose proof (known_current _ _ Hpo) as Hcur. split.
  - done.
  - intros p p' Hp Hp' He. apply (NoDup_fmap_inj (fun x => pid (gp s x)) (proc_list s)); try done. apply (po_unique _ _ Hok).
  - intros n p. by apply (find_proc_exact s kids).
  - by apply (everyone_length s kids).
  - intros c Hc. destruct (has_parent _ _ c Hok Hc) as (p & Hp & _ & Hpp & Hz & _). by exists p.
  - intros p Hp. exists (kids p). split; [by apply (po_family _ _ Hok)|]. intros c. split.
    + intros Hc. split; [by apply (po_kids _ _ Hok p)|by apply (parent_of s kids)].
    + intros [Hc Hpar]. destruct (has_parent _ _ c Hok Hc) as (p' & Hp' & Hcp & Hpp & _). congruence.
  - destruct (po_sched _ _ Hok) as [q Hq]. exists q. split; apply Hq.
  - split; [by apply last_Some_elem_of, (io_last _ _ Hi)|]. split; [apply (io_alive _ _ Hi)|].
    apply (parent_of s kids); [done|left|]. rewrite (io_idle _ _ Hi). left.
Qed.

(** C12 Every kernel reached from one that [proc_init] left, by any sequence of the steps
    of [kstep] (forks, exits, waits, kills, yields, sleeps, wake-ups, ticks, switches
    and changes of memory and files), has sound processes.  The steps leave out forks
    whose [copy_files] finds no memory ([files_room]): the code then frees the structure
    of a process that is in use.  And they assume of [kmalloc] that a fork is not handed
    the structure of a process that exists ([room_ok]).  Sound means: the process that
    runs can run, pids are unique and [find_proc] finds exactly the listed process with
    the pid, the count is right and within its bound, every process has a living parent
    and is in the list of children of exactly that one, the run queue holds exactly the
    other processes that can run, and [init] lives as a child of the idle process. *)
Theorem processes_stay_sound s s' : procs_inv s -> rtc kstep s s' -> procs_inv s' /\ processes_sound s'.
Proof.
  intros Hinv Hr. pose proof (ksteps_inv s s' Hinv Hr). split; [done|by apply inv_sound].
Qed.
End kernel_steps.

(** ** Replacing the program is such a sequence *)
Section execve_steps.
  Context {W A : Type} `{Inodes W} `{PmmManager A} `{SchedClass} (npage boot_pgdir : Z).
  Notation kern := (kernel W (machine A)).
  Implicit Types s : kern.
#[local] Existing Instance exec_tables.

Lemma view_files f v fl s : same_procs_view s (set_fs v (set_files (upd (files s) f fl) s)).
Proof. split; [by repeat split|]. split; [by repeat split|]. by repeat split. Qed.

Lemma frames_on_files {X} (op : Z -> vfs W -> outcome (X * vfs W)) : frames (on_files op : ST kern X).
Proof.
  intros s a s' Hr. unfold on_files in Hr. destruct (filesp _) as [f|]; [|done].
  destruct (op f _) as [[x v]| |]; try done. injection Hr as _ <-. apply view_files.
Qed.

Lemma frames_on_call {X} (op : ST (sys W) X) : frames (on_call op : ST kern X).
Proof.
  intros s a s' Hr. unfold on_call in Hr. destruct (filesp _) as [f|]; [|done].
  destruct (op _) as [[x y]| |]; try done. injection Hr as _ <-.
  destruct (mm _) as [m|], (cur_mm y) as [mm'|]; (split; [by repeat split|]; split; [by repeat split|]; by repeat split).
Qed.

Lemma frames_check_user a l w : frames (check_user a l w : ST kern bool).
Proof. unfold check_user, get_current, on_mm_at. frames_tac. Qed.
Lemma frames_lock_user : frames (lock_user : ST kern unit).
Proof. unfold lock_user, lock_mm_at, get_current, on_mm_at. frames_tac. Qed.
Lemma frames_unlock_user : frames (unlock_user : ST kern unit).
Proof. unfold unlock_user, unlock_mm_at, get_current, on_mm_at. frames_tac. Qed.

Lemma frames_copy_string dst d user src maxn : frames (copy_string check_user dst d user src maxn : ST kern (bool * mem)).
Proof.
  unfold copy_string. generalize (Z.to_nat (maxn / PGSIZE) + 2)%nat as k. generalize (u64 (ROUNDDOWN (u64 (src + PGSIZE)) PGSIZE - src)) as part.
  intros part k. revert dst d src maxn part. induction k as [|k IH]; intros dst d src maxn part; cbn [copy_string_loop]; [apply frames_no_fuel|].
  apply frames_bind; [apply frames_check_user|intros b]. frames_tac. apply IH.
Qed.

Lemma frames_copy_args rooms k : forall i argv, frames (copy_args rooms k i argv : ST kern (Z * list mem)).
Proof.
  induction k as [|k IH]; intros i argv; cbn [copy_args]; [apply frames_ret|]. destruct (rooms i) as [b|]; [|apply frames_ret].
  apply frames_bind; [apply frames_get|intros m]. apply frames_bind; [apply frames_copy_string|intros [c l]].
  destruct (negb c); [apply frames_ret|]. apply frames_bind; [apply IH|intros [ret l']; apply frames_ret].
Qed.
Lemma frames_copy_kargv rooms argc argv : frames (copy_kargv rooms argc argv : ST kern (Z * list mem)).
Proof.
  unfold copy_kargv. apply frames_bind; [apply frames_check_user|intros b]. destruct (negb b); [apply frames_ret|apply frames_copy_args].
Qed.

Lemma frames_leave_space m : frames (leave_space npage boot_pgdir m : ST kern unit).
Proof.
  unfold leave_space, destroy_mm, on_mm_at, free, get_current, on_tables.
  apply frames_bind; [apply frames_add_mm_count|intros c]. apply frames_bind; [|intros _; frames_tac].
  destruct (c =? 0); [|apply frames_ret]. apply frames_bind; [apply frames_exit_mm|intros _]. frames_tac.
Qed.

Lemma frames_load r fd kargv : frames (load npage boot_pgdir r fd kargv : ST kern (Z * option start_frame)).
Proof.
  intros s a s' Hr. unfold load in Hr. destruct (filesp _) as [f|]; [|done].
  destruct (load_icode _ _ _ _ _ _ _ _ _ _ _) as [[[ret frame] l]| |]; try done.
  set (s1 := set_tables _ _) in Hr.
  assert (Hv : same_procs_view s s1) by (split; [by repeat split|]; split; [by repeat split|]; by repeat split).
  destruct (ex_mm r) as [m|]; [|by injection Hr as _ <-]. destruct (ret =? 0); [|by injection Hr as _ <-].
  apply (view_trans _ s1); [done|]. refine ((_ : frames _) _ _ _ Hr). unfold get_current, PADDR. frames_tac.
Qed.

Lemma frames_exec_name name : frames (exec_name name : ST kern (option mem)).
Proof.
  unfold exec_name, get_current. destruct (name =? 0); [frames_tac|].
  apply frames_bind; [apply frames_get|intros m]. apply frames_bind; [apply frames_copy_string|intros [b l]; apply frames_ret].
Qed.

Lemma commit_inv r l kargv path s x s' : procs_inv s -> exec_commit npage boot_pgdir r l kargv path s = Done (x, s') -> procs_inv s'.
Proof.
  intros Hinv Hr. unfold exec_commit in Hr.
  apply bind_Done_inv in Hr as ([] & s1 & H1' & Hr). pose proof (procs_inv_frames _ _ _ _ (frames_on_files _) H1' Hinv) as Hinv1.
  apply bind_Done_inv in Hr as (fd & s2 & H2' & Hr). pose proof (procs_inv_frames _ _ _ _ (frames_on_call _) H2' Hinv1) as Hinv2.
  destruct (fd <? 0).
  { apply bind_Done_inv in Hr as ([] & s3 & He & Hr). injection Hr as _ <-. by eapply exit_inv. }
  apply bind_Done_inv in Hr as (cur & s3 & Hc & Hr). injection Hc as _ <-.
  apply bind_Done_inv in Hr as (o & s3 & Ho & Hr). injection Ho as _ <-.
  apply bind_Done_inv in Hr as ([] & s3 & H3' & Hr).
  assert (Hinv3 : procs_inv s3).
  { refine (procs_inv_frames _ _ _ _ _ H3' Hinv2). destruct o; [apply frames_leave_space|apply frames_ret]. }
  apply bind_Done_inv in Hr as ([ret frame] & s4 & H4' & Hr). pose proof (procs_inv_frames _ _ _ _ (frames_load _ _ _) H4' Hinv3) as Hinv4.
  destruct (negb (ret =? 0)).
  { apply bind_Done_inv in Hr as ([] & s5 & He & Hr). injection Hr as _ <-. by eapply exit_inv. }
  refine (procs_inv_frames _ _ _ _ _ Hr Hinv4). unfold set_proc_name. frames_tac.
Qed.

Lemma execve_inv r name argc argv s x s' : procs_inv s -> do_execve npage boot_pgdir r name argc argv s = Done (x, s') -> procs_inv s'.
Proof.
  intros Hinv Hr. unfold do_execve in Hr. destruct (negb _); [by injection Hr as _ <-|].
  apply bind_Done_inv in Hr as ([] & s1 & H1' & Hr). pose proof (procs_inv_frames _ _ _ _ frames_lock_user H1' Hinv) as Hinv1.
  apply bind_Done_inv in Hr as (o & s2 & H2' & Hr). pose proof (procs_inv_frames _ _ _ _ (frames_exec_name _) H2' Hinv1) as Hinv2.
  destruct o as [l|].
  2: { refine (procs_inv_frames _ _ _ _ _ Hr Hinv2). apply frames_bind; [apply frames_unlock_user|intros _; apply frames_ret]. }
  apply bind_Done_inv in Hr as ([ret kargv] & s3 & H3' & Hr). pose proof (procs_inv_frames _ _ _ _ (frames_copy_kargv _ _ _) H3' Hinv2) as Hinv3.
  destruct (negb (ret =? 0)).
  { refine (procs_inv_frames _ _ _ _ _ Hr Hinv3). apply frames_bind; [apply frames_unlock_user|intros _; apply frames_ret]. }
  apply bind_Done_inv in Hr as (path & s4 & H4' & Hr). injection H4' as _ <-.
  apply bind_Done_inv in Hr as ([] & s4 & H4' & Hr). pose proof (procs_inv_frames _ _ _ _ frames_unlock_user H4' Hinv3) as Hinv4.
  by eapply commit_inv.
Qed.

(** The shell is executed with its path as the only argument. *)
Lemma user_main_eq r argv sh s : 0 < sh < 2 ^ 64 ->
  user_main npage boot_pgdir r argv sh s =
  do_execve npage boot_pgdir r sh 1 argv (Process.set_ram (le_put (le_put (Process.ram s) argv 8 sh) (argv + 8) 8 0) s).
Proof.
  intros Hsh. unfold user_main, kernel_execve. set (m := le_put _ _ _ _). set (s1 := Process.set_ram m s).
  mstep (eq_refl : modify (fun s => Process.set_ram (le_put (le_put (Process.ram s) argv 8 sh) (argv + 8) 8 0) s) s = Done (tt, s1)).
  mstep (eq_refl : get Process.ram s1 = Done (m, s1)).
  assert (H0' : le_get m argv 8 = sh) by (unfold m; rewrite le_get_put_other by lia; apply le_get_put; cbn; lia).
  assert (H1' : le_get m (argv + 8) 8 = 0) by (apply le_get_put; done).
  cbn [count_args]. replace (argv + 8 * 0) with argv by lia. rewrite H0', (proj2 (Z.eqb_neq sh 0)) by lia.
  change (0 + 1) with 1. change (8 * 1) with 8. by rewrite H1'.
Qed.

Lemma user_main_inv r argv sh s x s' : procs_inv s -> user_main npage boot_pgdir r argv sh s = Done (x, s') -> procs_inv s'.
Proof.
  intros Hinv Hr. unfold user_main, kernel_execve in Hr. apply bind_Done_inv in Hr as ([] & s1 & Hm & Hr). injection Hm as <-.
  set (s1 := Process.set_ram _ s) in Hr.
  assert (Hv : same_procs_view s s1) by (split; [by repeat split|]; split; [by repeat split|]; by repeat split).
  pose proof (procs_inv_view _ _ Hv Hinv) as Hinv1. apply bind_Done_inv in Hr as (m & s2 & Hm & Hr). injection Hm as _ <-.
  destruct (count_args _ _ _ _) as [argc|]; [|done]. by eapply execve_inv.
Qed.
End execve_steps.

(** ** Witness: the kernel boots; [init] gets the processor, forks, waits for the child,
    which exits with 7; [init] reaps it and waits again *)
(** The state a run ends in, if it does. *)
Definition end_of {S A} (m : ST S A) (s : S) : S := match m s with Done (_, s') => s' | _ => s end.
Definition is_done {A} (o : outcome A) : bool := match o with Done _ => true | _ => false end.
Lemma end_Done {S A} (m : ST S A) s : is_done (m s) = true -> exists a, m s = Done (a, end_of m s).
Proof. unfold end_of. destruct (m s) as [[a s']| |]; [|done|done]. by exists a. Qed.

Definition unborn_kernel : kernel plain_inodes unit :=
  mkKernel (mkSched (mkRqs (mkRq [] 0 5 None) (fun _ => mkSe false 0 false 0 0) (fun _ => mkNode None None None))
                    (fun _ => fresh_proc 0) 0 0 (fun _ => mkTimer 0 0) [])
    [] (fun _ => []) 0 0 pid_init (fun _ => mkMm [] None 0 0 1 0) (fun _ => 0) tt (fs family_kernel)
    (files family_kernel) (fun _ => 0) [].
Definition fork_memory (p a f : Z) : fork_room :=
  mkRoom (Some p) (Some a) None None (fun _ => true) (Some (f, fun _ => mkFile FD_NONE false false 0 0 None 0)) 0.
Definition boot_memory : boot_room :=
  mkBootRoom (Some 1000) (Some (5000, fun _ => mkFile FD_NONE false false 0 0 None 0)) (fork_memory 2000 8192 6000) 4096 [] [].

Definition booted : kernel plain_inodes unit := end_of (start_processes (H1 := RR_class) 0 boot_memory) unborn_kernel.
Definition init_runs := end_of (on_sched (schedule (H := RR_class))) booted.
Definition forked := end_of (do_fork (H1 := RR_class) 0 (fork_memory 3000 16384 7000) 0) init_runs.
Definition waiting := end_of (do_wait (H1 := RR_class) 0 0) forked.
Definition exited := end_of (do_exit (H1 := RR_class) 7) waiting.
Definition reaped_child := end_of (wait_again (H1 := RR_class) 0 0) exited.

Lemma unborn_ok : unborn unborn_kernel.
Proof. by split. Qed.

Lemma proc_init_starts_witness :
  exists s', start_processes (H1 := RR_class) 0 boot_memory unborn_kernel = Done (tt, s') /\ procs_inv (H1 := RR_class) s' /\
    current (sch s') = 1000 /\ idleproc (sch s') = 1000 /\ initproc s' = 2000 /\ proc_list s' = [2000] /\ nr_process s' = 2 /\
    pid (gp s' 1000) = 0 /\ pid (gp s' 2000) = 1 /\ state (gp s' 2000) = PROC_RUNNABLE.
Proof.
  exact (proc_init_starts (H1 := RR_class) 0 I unborn_kernel boot_memory 1000 2000 5000
    (fun _ => mkFile FD_NONE false false 0 0 None 0) 6000 (fun _ => mkFile FD_NONE false false 0 0 None 0) 8192 unborn_ok
    eq_refl eq_refl eq_refl eq_refl eq_refl ltac:(lia) ltac:(lia)).
Defined.

Lemma booted_inv : procs_inv (H1 := RR_class) booted.
Proof.
  destruct (start_run (H1 := RR_class) 0 I unborn_kernel boot_memory 1000 2000 5000
    (fun _ => mkFile FD_NONE false false 0 0 None 0) 6000 (fun _ => mkFile FD_NONE false false 0 0 None 0) 8192 unborn_ok
    eq_refl eq_refl eq_refl eq_refl eq_refl ltac:(lia) ltac:(lia)) as (s' & Hr & Hinv & _). unfold booted, end_of. by rewrite Hr.
Qed.

Ltac by_compute := unfold busy; refine (proj1 (bool_decide_eq_true _) _); vm_compute; reflexivity.

Lemma boot_steps : rtc (kstep (H1 := RR_class) 0) booted reaped_child.
Proof.
  apply (rtc_l _ _ init_runs).
  { destruct (end_Done (on_sched (schedule (H := RR_class))) booted) as [[] Hr]; [vm_compute; reflexivity|].
    by apply K_schedule. }
  apply (rtc_l _ _ forked).
  { destruct (end_Done (do_fork (H1 := RR_class) 0 (fork_memory 3000 16384 7000) 0) init_runs) as [n Hr]; [vm_compute; reflexivity|].
    apply (K_fork (H1 := RR_class) 0 _ (fork_memory 3000 16384 7000) 0 n); [by_compute| | |exact Hr].
    - intros p [= <-]. by_compute.
    - right. by intros [=]. }
  apply (rtc_l _ _ waiting).
  { destruct (end_Done (do_wait (H1 := RR_class) 0 0) forked) as [n Hr]; [vm_compute; reflexivity|].
    apply (K_wait (H1 := RR_class) 0 _ 0 0 n); [by_compute|exact Hr]. }
  apply (rtc_l _ _ exited).
  { destruct (end_Done (do_exit (H1 := RR_class) 7) waiting) as [[] Hr]; [vm_compute; reflexivity|]. by apply (K_exit (H1 := RR_class) 0 _ 7). }
  apply (rtc_l _ _ reaped_child); [|apply rtc_refl].
  destruct (end_Done (wait_again (H1 := RR_class) 0 0) exited) as [n Hr]; [vm_compute; reflexivity|].
  apply (K_wait_again (H1 := RR_class) 0 _ 0 0 n); [by_compute|exact Hr].
Qed.

(** A fork without memory for a file table returns the pid of a child that is listed and
    can run, and whose structure has been freed. *)
Example forked_without_files :
  let r := mkRoom (Some 3000) (Some 16384) None None (fun _ => true) None 0 in
  match do_fork (H1 := RR_class) 0 r 0 init_runs with
  | Done (n, s) => (n, proc_list s, state (gp s 3000), filesp (gp s 3000), freed s)
  | _ => (0, [], PROC_UNINIT, None, [])
  end = (2, [3000; 2000], PROC_RUNNABLE, None, [Proc_mem 3000; Stack_pages 16384]).
Proof. vm_compute. reflexivity. Qed.

Lemma processes_stay_sound_witness :
  proc_list forked = [3000; 2000] /\ proc_list reaped_child = [2000] /\ procs_inv (H1 := RR_class) reaped_child /\
  processes_sound (H1 := RR_class) reaped_child.
Proof.
  split; [vm_compute; reflexivity|]. split; [vm_compute; reflexivity|].
  exact (processes_stay_sound (H1 := RR_class) 0 I booted reaped_child booted_inv boot_steps).
Defined.

Lemma init_main_returns_witness :
  exists s' v, do_wait (H1 := RR_class) 0 0 reaped_child = Done (Some (- E_BAD_PROC), s') /\
    vfs_cleanup (fs reaped_child) = Done (tt, v) /\ proc_list reaped_child = [2000] /\
    init_main_turn (H1 := RR_class) false reaped_child = Done (Some (Some 0), set_fs v reaped_child).
Proof.
  destruct (end_Done (do_wait (H1 := RR_class) 0 0) reaped_child) as [r Hr]; [vm_compute; reflexivity|].
  destruct (end_Done vfs_cleanup (fs reaped_child)) as [[] Hv]; [vm_compute; reflexivity|].
  assert (Hb : result (do_wait (H1 := RR_class) 0 0 reaped_child) = Some (Some (- E_BAD_PROC))) by (vm_compute; reflexivity).
  unfold result in Hb. rewrite Hr in Hb. injection Hb as ->.
  assert (Hc : current (sch reaped_child) = initproc reaped_child) by (vm_compute; reflexivity).
  destruct (init_main_returns (H1 := RR_class) false reaped_child (- E_BAD_PROC) _ _
    (ksteps_inv (H1 := RR_class) 0 I _ _ booted_inv boot_steps) Hc Hv Hr ltac:(done)) as (_ & Hl & Ht).
  eexists. eexists. split; [exact Hr|]. split; [exact Hv|]. split; [vm_compute; reflexivity|exact Ht].
Defined.
