(* ===== verification/Ring.v ===== *)
(** * Ring buffers

    Two parts of the kernel keep characters that nobody has read yet in an array
    used round and round: the console (kern/driver/console.c) and the standard
    input device (kern/fs/devs/dev_stdin.c).  [ring n buf r q] says that the
    [n] cells of [buf], read from position [r] on, hold the queue [q]. *)
From S2P Require Import Prelude.

Definition ring (n : Z) (buf : Z -> Z) (r : Z) (q : list Z) : Prop :=
  Z.of_nat (length q) <= n /\ forall i c, q !! i = Some c -> buf ((r + Z.of_nat i) mod n) = c.

Section ring.
  Context (n : Z) (Hn : 0 < n).
  Implicit Types (buf : Z -> Z) (q : list Z).

Lemma ring_nil buf r : ring n buf r [].
Proof. split; [cbn; lia|done]. Qed.

(** Only the position modulo the size matters. *)
Lemma ring_mod buf r q : ring n buf (r mod n) q <-> ring n buf r q.
Proof. split; intros [Hl Hb]; split; try done; intros i c Hc; rewrite <- (Hb i c Hc); by rewrite Zplus_mod_idemp_l. Qed.

Lemma cells_differ r i j : 0 <= i < n -> 0 <= j < n -> i <> j -> (r + i) mod n <> (r + j) mod n.
Proof.
  intros Hi Hj Hne Heq. apply Hne.
  assert (Hd : ((r + i) - (r + j)) mod n = 0) by (rewrite Zminus_mod, Heq, Z.sub_diag; apply Z.mod_0_l; lia).
  apply Z.mod_divide in Hd as [k Hk]; [|lia]. assert (k = 0) by nia. lia.
Qed.

Lemma ring_push buf r q c : Z.of_nat (length q) < n -> ring n buf r q ->
  ring n (upd buf ((r + Z.of_nat (length q)) mod n) c) r (q ++ [c]).
Proof.
  intros Hl [_ Hb]. split; [rewrite length_app; cbn; lia|]. intros i x Hi.
  destruct (decide (i = length q)) as [->|Hne].
  - rewrite upd_eq. rewrite list_lookup_middle in Hi by done. by injection Hi.
  - assert (Hlt : (i < length q)%nat) by (apply lookup_lt_Some in Hi; rewrite length_app in Hi; cbn in Hi; lia).
    rewrite lookup_app_l in Hi by done. rewrite upd_ne; [by apply Hb|]. apply cells_differ; lia.
Qed.

(** A full ring: the cell of the oldest element is the one written next. *)
Lemma ring_push_full buf r x q c : Z.of_nat (length (x :: q)) = n -> ring n buf r (x :: q) ->
  ring n (upd buf ((r + n) mod n) c) r (c :: q).
Proof.
  intros Hl [_ Hb]. split; [cbn in *; lia|].
  replace ((r + n) mod n) with ((r + 0) mod n) by (rewrite <- (Z_mod_plus_full (r + 0) 1 n); f_equal; lia).
  intros [|i] y Hi; cbn in Hi.
  - rewrite upd_eq. by injection Hi.
  - rewrite upd_ne; [by apply (Hb (S i))|]. apply lookup_lt_Some in Hi. cbn in Hl. apply cells_differ; lia.
Qed.

Lemma ring_pop buf r x q : ring n buf r (x :: q) -> buf (r mod n) = x /\ ring n buf (r + 1) q.
Proof.
  intros [Hl Hb]. split; [|split].
  - rewrite <- (Hb 0%nat x eq_refl). f_equal. f_equal. lia.
  - cbn in Hl. lia.
  - intros i c Hi. rewrite <- (Hb (S i) c Hi). f_equal. f_equal. lia.
Qed.
End ring.

(** Stepping a position that is kept below the size. *)
Definition step_pos (n p : Z) : Z := if p + 1 =? n then 0 else p + 1.
Lemma step_pos_mod n p : 0 < n -> 0 <= p < n -> step_pos n p = (p + 1) mod n.
Proof.
  intros Hn Hp. unfold step_pos. destruct (Z.eqb_spec (p + 1) n) as [->|].
  - by rewrite Z.mod_same by lia.
  - symmetry. apply Z.mod_small. lia.
Qed.
