(* ===== verification/Console.v ===== *)
(** * The console (kern/driver/console.c, kern/libs/stdio.c, kern/libs/readline.c)

    What the serial line delivers is a list: each call of [sbi_console_getchar]
    takes its first element, negative when nothing has arrived, and once the
    list is empty nothing arrives any more.  What is printed is collected in
    [output]. *)
From S2P Require Import Prelude Mem Printfmt Ring.

Definition CONSBUFSIZE : Z := 512.
Definition BACKSPACE : Z := 8.

Record console := mkConsole { cbuf : Z -> Z; rpos : Z; wpos : Z; line_in : list Z; output : list Z }.
Definition set_cbuf b (s : console) : console := mkConsole b (rpos s) (wpos s) (line_in s) (output s).
Definition set_rpos x (s : console) : console := mkConsole (cbuf s) x (wpos s) (line_in s) (output s).
Definition set_wpos x (s : console) : console := mkConsole (cbuf s) (rpos s) x (line_in s) (output s).
Definition set_line_in l (s : console) : console := mkConsole (cbuf s) (rpos s) (wpos s) l (output s).
Definition set_output l (s : console) : console := mkConsole (cbuf s) (rpos s) (wpos s) (line_in s) l.

(** ** console.c *)
Definition sbi_console_getchar : ST console Z := fun s =>
  match line_in s with
  | [] => Done (-1, s)
  | c :: l => Done (c, set_line_in l s)
  end.
Definition sbi_console_putchar (c : Z) : ST console unit := modify (fun s => set_output (output s ++ [c mod 256]) s).

(** The loop ends at the first -1, at the latest when the line is empty. *)
Fixpoint cons_intr (fuel : nat) (proc : ST console Z) : ST console unit :=
  match fuel with
  | O => no_fuel
  | S fuel' =>
      c ← proc;
      if c =? -1 then mret tt
      else
        (if negb (c =? 0) then
           w ← get wpos;
           modify (fun s => set_cbuf (upd (cbuf s) w (c mod 256)) s) ;;
           modify (set_wpos (u32 (w + 1))) ;;
           w ← get wpos;
           if w =? CONSBUFSIZE then modify (set_wpos 0) else mret tt
         else mret tt) ;;
        cons_intr fuel' proc
  end.

Definition serial_proc_data : ST console Z :=
  c ← sbi_console_getchar;
  mret (if c <? 0 then -1 else if c =? 127 then BACKSPACE else c).
Definition serial_intr : ST console unit := n ← get (fun s => length (line_in s)); cons_intr (S n) serial_proc_data.
Definition kbd_intr : ST console unit := serial_intr.

Definition serial_putc (c : Z) : ST console unit :=
  if negb (c =? BACKSPACE) then sbi_console_putchar c
  else sbi_console_putchar BACKSPACE ;; sbi_console_putchar 32 ;; sbi_console_putchar BACKSPACE.
Definition cons_init : ST console unit := _ ← sbi_console_getchar; mret tt.
Definition cons_putc (c : Z) : ST console unit := serial_putc c.

Definition cons_getc : ST console Z :=
  serial_intr ;;
  r ← get rpos;
  w ← get wpos;
  if negb (r =? w) then
    c ← get (fun s => cbuf s r);
    modify (set_rpos (u32 (r + 1))) ;;
    r ← get rpos;
    (if r =? CONSBUFSIZE then modify (set_rpos 0) else mret tt) ;;
    mret c
  else mret 0.

(** ** stdio.c *)
Definition cputch (c : Z) : ST (console * Z) unit := fun '(s, cnt) =>
  match cons_putc c s with
  | Done (_, s') => Done (tt, (s', s32 (cnt + 1)))
  | Panicked => Panicked
  | NoFuel => NoFuel
  end.
Definition vcprintf (m : mem) (fuel : nat) (fmt : Z) (args : list Z) : ST console Z := fun s =>
  match vprintfmt cputch m fuel fmt (mkP args (s, 0)) with
  | Done (_, x) => Done ((dat x).2, (dat x).1)
  | Panicked => Panicked
  | NoFuel => NoFuel
  end.
Definition cprintf := vcprintf.
Definition cputchar (c : Z) : ST console unit := cons_putc c.

Fixpoint cputs_loop (m : mem) (fuel : nat) (str : Z) : ST (console * Z) unit :=
  match fuel with
  | O => no_fuel
  | S fuel' => if m str =? 0 then mret tt else cputch (m str) ;; cputs_loop m fuel' (str + 1)
  end.
Definition cputs (m : mem) (fuel : nat) (str : Z) : ST console Z := fun s =>
  match (cputs_loop m fuel str ;; cputch 10) (s, 0) with
  | Done (_, (s', cnt)) => Done (cnt, s')
  | Panicked => Panicked
  | NoFuel => NoFuel
  end.

(** [getchar] asks again until a character has arrived. *)
Fixpoint getchar_loop (fuel : nat) : ST console Z :=
  match fuel with
  | O => no_fuel
  | S fuel' => c ← cons_getc; if c =? 0 then getchar_loop fuel' else mret c
  end.
Definition getchar : ST console Z := n ← get (fun s => length (line_in s)); getchar_loop (S n).

(** ** readline.c: the line so far is the first [i] cells of [buf] *)
Definition BUFSIZE : Z := 1024.
Fixpoint readline_loop (fuel : nat) (lbuf : mem) (i : Z) : ST console (option mem) :=
  match fuel with
  | O => no_fuel
  | S fuel' =>
      c ← getchar;
      if c <? 0 then mret None
      else if (32 <=? c) && (i <? BUFSIZE - 1) then cputchar c ;; readline_loop fuel' (upd lbuf i (c mod 256)) (i + 1)
      else if (c =? BACKSPACE) && (0 <? i) then cputchar c ;; readline_loop fuel' lbuf (i - 1)
      else if (c =? 10) || (c =? 13) then cputchar c ;; mret (Some (upd lbuf i 0))
      else readline_loop fuel' lbuf i
  end.
(** [fmt] is the address of the text [%s]. *)
Definition readline (m : mem) (fuel : nat) (fmt prompt : Z) (lbuf : mem) : ST console (option mem) :=
  (if negb (prompt =? 0) then _ ← cprintf m fuel fmt [prompt]; mret tt else mret tt) ;;
  readline_loop fuel lbuf 0.

(** ** What the console delivers

    The characters typed come out of [cons_getc] in their order, as long as
    fewer than 512 of them wait at any time; when the 512th arrives the
    positions meet and all that waited is lost.  [readline] returns the line as
    its backspaces leave it. *)

(** The characters of [q] wait in the buffer. *)
Record unread (s : console) (q : list Z) : Prop := mkUnread {
  un_rpos : 0 <= rpos s < CONSBUFSIZE;
  un_wpos : wpos s = (rpos s + Z.of_nat (length q)) mod CONSBUFSIZE;
  un_less : Z.of_nat (length q) < CONSBUFSIZE;
  un_ring : ring CONSBUFSIZE (cbuf s) (rpos s) q;
  un_char : Forall (fun c => 0 < c < 256) q }.

Definition on_line (l : list Z) : Prop := Forall (fun c => c < 256) l.
Definition key (c : Z) : Z := if c =? 127 then BACKSPACE else c.

(** What one call of [serial_intr] takes from the line, and leaves on it. *)
Fixpoint arrived (l : list Z) : list Z :=
  match l with
  | [] => []
  | c :: l' => if c <? 0 then [] else if c =? 0 then arrived l' else key c :: arrived l'
  end.
Fixpoint left_on_line (l : list Z) : list Z :=
  match l with
  | [] => []
  | c :: l' => if c <? 0 then l' else left_on_line l'
  end.
(** All the characters that are ever typed. *)
Fixpoint typed (l : list Z) : list Z :=
  match l with
  | [] => []
  | c :: l' => if c <=? 0 then typed l' else key c :: typed l'
  end.

Definition cons_push (q : list Z) (c : Z) : list Z :=
  if Z.of_nat (length q) <? CONSBUFSIZE - 1 then q ++ [c] else [].

Lemma typed_split l : typed l = arrived l ++ typed (left_on_line l).
Proof.
  induction l as [|c l IH]; [done|]. cbn. destruct (Z.ltb_spec c 0).
  - by rewrite (proj2 (Z.leb_le c 0)) by lia.
  - destruct (Z.eqb_spec c 0) as [->|]; [done|]. rewrite (proj2 (Z.leb_gt c 0)) by lia. cbn. by rewrite IH.
Qed.

Lemma left_shorter l : l <> [] -> (length (left_on_line l) < length l)%nat.
Proof.
  induction l as [|c l IH]; [done|]. intros _. cbn. destruct (c <? 0); [lia|].
  destruct l as [|d l]; [cbn; lia|]. specialize (IH ltac:(done)). lia.
Qed.

Lemma left_on l : on_line l -> on_line (left_on_line l).
Proof. induction 1 as [|c l Hc Hl IH]; cbn; [constructor|]. by destruct (c <? 0). Qed.

Lemma key_char c : 0 < c < 256 -> 0 < key c < 256.
Proof. unfold key, BACKSPACE. destruct (c =? 127); lia. Qed.

Lemma typed_char l : on_line l -> Forall (fun c => 0 < c < 256) (typed l).
Proof.
  induction 1 as [|c l Hc Hl IH]; cbn; [constructor|]. destruct (Z.leb_spec c 0); [done|].
  constructor; [|done]. apply key_char. lia.
Qed.

Lemma cons_pushes l : forall q, Z.of_nat (length (q ++ l)) < CONSBUFSIZE -> foldl cons_push q l = q ++ l.
Proof.
  induction l as [|c l IH]; intros q Hl; cbn; [by rewrite app_nil_r|]. rewrite length_app in Hl. cbn in Hl.
  unfold cons_push at 2. rewrite (proj2 (Z.ltb_lt _ _)) by lia. rewrite IH; [by rewrite <- app_assoc|].
  rewrite !length_app. cbn. lia.
Qed.

(** ** The buffer *)
Lemma store_char c s q : unread s q -> 0 < c < 256 ->
  exists s', (w ← get wpos;
              modify (fun s => set_cbuf (upd (cbuf s) w (c mod 256)) s) ;;
              modify (set_wpos (u32 (w + 1))) ;;
              w ← get wpos;
              if w =? CONSBUFSIZE then modify (set_wpos 0) else mret tt) s = Done (tt, s') /\
    unread s' (cons_push q c) /\ line_in s' = line_in s /\ output s' = output s.
Proof.
  intros [Hr Hw Hl Hq Hc] Hb. unfold CONSBUFSIZE in *.
  assert (Hwr : 0 <= wpos s < 512) by (rewrite Hw; apply Z.mod_pos_bound; lia).
  set (s' := set_wpos (step_pos 512 (wpos s)) (set_cbuf (upd (cbuf s) (wpos s) c) s)).
  exists s'. split; [|split; [|done]].
  - unfold mbind, ST_bind, get, modify. cbn. rewrite u32_small, Z.mod_small by lia. unfold s', step_pos.
    by destruct (wpos s + 1 =? 512).
  - assert (Hpos : wpos s' = (rpos s + Z.of_nat (S (length q))) mod 512).
    { cbn. rewrite step_pos_mod, Hw, Zplus_mod_idemp_l by lia. f_equal. lia. }
    unfold cons_push, CONSBUFSIZE. destruct (Z.ltb_spec (Z.of_nat (length q)) (512 - 1)).
    + split; unfold CONSBUFSIZE; try done.
      * rewrite Hpos, length_app. cbn. f_equal. lia.
      * rewrite length_app. cbn. lia.
      * cbn. rewrite Hw. apply ring_push; [lia|lia|done].
      * apply Forall_app. split; [done|]. constructor; [done|constructor].
    + split; unfold CONSBUFSIZE; try done.
      rewrite Hpos. cbn [length]. assert (Z.of_nat (S (length q)) = 512) as -> by lia.
      rewrite Z.add_0_r. change (rpos s') with (rpos s). rewrite <- (Z_mod_plus_full (rpos s) 1 512). f_equal; lia.
Qed.

Lemma serial_proc_data_run s :
  serial_proc_data s = match line_in s with
                       | [] => Done (-1, s)
                       | c :: l => Done (if c <? 0 then -1 else key c, set_line_in l s)
                       end.
Proof. unfold serial_proc_data, mbind, ST_bind, sbi_console_getchar. by destruct (line_in s). Qed.

Lemma cons_intr_run l : forall s q n, line_in s = l -> on_line l -> unread s q -> (length l < n)%nat ->
  exists s', cons_intr n serial_proc_data s = Done (tt, s') /\
    unread s' (foldl cons_push q (arrived l)) /\ line_in s' = left_on_line l /\ output s' = output s.
Proof.
  induction l as [|c l IH]; intros s q n Hs Hl Hq Hn; (destruct n as [|n]; [cbn in Hn; lia|]); cbn [cons_intr];
    pose proof (serial_proc_data_run s) as Hd; rewrite Hs in Hd; rewrite (bind_Done _ _ _ _ _ Hd).
  - by exists s.
  - apply Forall_cons in Hl as [Hc Hl]. cbn [arrived left_on_line length] in *. set (s1 := set_line_in l s).
    assert (Hq1 : unread s1 q) by (by destruct Hq). destruct (Z.ltb_spec c 0).
    { by exists s1. }
    assert (Hk : (key c =? -1) = false) by (unfold key, BACKSPACE; destruct (c =? 127); lia).
    rewrite Hk.
    assert (Hk0 : (key c =? 0) = (c =? 0)).
    { unfold key, BACKSPACE. destruct (Z.eqb_spec c 127) as [->|]; done. }
    rewrite Hk0. destruct (Z.eqb_spec c 0) as [->|]; cbn [negb].
    + destruct (IH s1 q n eq_refl Hl Hq1 ltac:(lia)) as (s' & Hr & ?). exists s'. by rewrite ret_bind.
    + destruct (store_char (key c) s1 q Hq1) as (s2 & Hst & Hq2 & Hl2 & Ho2); [apply key_char; lia|].
      destruct (IH s2 _ n Hl2 Hl Hq2 ltac:(lia)) as (s' & Hr & Hq' & Hl' & Ho').
      exists s'. rewrite (bind_Done _ _ _ _ _ Hst). split; [done|]. split; [done|]. split; [done|]. by rewrite Ho', Ho2.
Qed.

(** What [cons_getc] does to the queue. *)
Definition first_char (q : list Z) : Z := default 0 (head q).

Lemma cons_getc_run s q : unread s q -> on_line (line_in s) ->
  exists s', cons_getc s = Done (first_char (foldl cons_push q (arrived (line_in s))), s') /\
    unread s' (tail (foldl cons_push q (arrived (line_in s)))) /\
    line_in s' = left_on_line (line_in s) /\ output s' = output s.
Proof.
  intros Hq Hl. unfold cons_getc, serial_intr.
  destruct (cons_intr_run _ s q (S (length (line_in s))) eq_refl Hl Hq ltac:(lia)) as (s1 & Hr & Hq1 & Hl1 & Ho1).
  assert (Hin : (n ← get (fun s => length (line_in s)); cons_intr (S n) serial_proc_data) s = Done (tt, s1)) by done.
  rewrite (bind_Done _ _ _ _ _ Hin).
  set (q1 := foldl cons_push q (arrived (line_in s))) in *. pose proof Hq1 as [Hp Hw Hlen Hrg Hc].
  unfold CONSBUFSIZE in *.
  unfold mbind, ST_bind, get, modify. cbn.
  destruct q1 as [|c q2].
  - cbn in Hw. rewrite Z.add_0_r, Z.mod_small in Hw by lia. rewrite Hw, Z.eqb_refl. by exists s1.
  - assert (Hne : rpos s1 =? wpos s1 = false).
    { apply Z.eqb_neq. rewrite Hw. cbn [length] in *. intros He.
      apply (cells_differ 512 ltac:(lia) (rpos s1) 0 (Z.of_nat (S (length q2)))); [lia|lia|lia|].
      rewrite <- He, Z.add_0_r. apply Z.mod_small. lia. }
    rewrite Hne. cbn. destruct (ring_pop 512 _ _ _ _ Hrg) as [Hch Hrg2]. rewrite Z.mod_small in Hch by lia.
    exists (set_rpos (step_pos 512 (rpos s1)) s1). unfold CONSBUFSIZE, step_pos. rewrite u32_small by lia.
    split; [rewrite Hch; by destruct (rpos s1 + 1 =? 512)|]. split; [|done].
    fold (step_pos 512 (rpos s1)). cbn [length] in *. apply Forall_cons in Hc as [? Hc].
    split; cbn; unfold CONSBUFSIZE; rewrite ?step_pos_mod by lia; try done.
    + apply Z.mod_pos_bound. lia.
    + rewrite Zplus_mod_idemp_l, Hw. f_equal. lia.
    + lia.
    + by apply ring_mod.
Qed.

(** ** Reading *)
(** [t] is what is still to be read: the characters that wait, and those the
    line will deliver, however they are spread over time. *)
Definition waiting (s : console) (t : list Z) : Prop :=
  exists q, unread s q /\ on_line (line_in s) /\ t = q ++ typed (line_in s) /\ Z.of_nat (length t) < CONSBUFSIZE.

Lemma waiting_char s c t : waiting s (c :: t) -> 0 < c < 256.
Proof.
  intros (q & Hq & Hl & Ht & _). assert (Hall : Forall (fun c => 0 < c < 256) (c :: t)); [|by apply Forall_cons in Hall as []].
  rewrite Ht. apply Forall_app. split; [apply Hq|by apply typed_char].
Qed.

Lemma getchar_loop_run n : forall s c t, (length (line_in s) < n)%nat -> waiting s (c :: t) ->
  exists s', getchar_loop n s = Done (c, s') /\ waiting s' t /\ output s' = output s.
Proof.
  induction n as [|n IH]; intros s c t Hn Hw; [lia|]. pose proof (waiting_char _ _ _ Hw) as Hc.
  destruct Hw as (q & Hq & Hl & Ht & Hlen).
  destruct (cons_getc_run s q Hq Hl) as (s1 & Hr & Hq1 & Hl1 & Ho1).
  rewrite typed_split, app_assoc in Ht. cbn [getchar_loop].
  rewrite cons_pushes in Hr, Hq1 by (rewrite Ht, length_app in Hlen; lia).
  rewrite (bind_Done _ _ _ _ _ Hr). destruct (q ++ arrived (line_in s)) as [|c' q1] eqn:Hqa; cbn [first_char head default tail] in *.
  - rewrite Z.eqb_refl. apply app_eq_nil in Hqa as [-> Ha]. cbn in Ht.
    assert (Hne : line_in s <> []) by (intros He; by rewrite He in Ht).
    destruct (IH s1 c t) as (s' & Hr' & Hw' & Ho').
    + rewrite Hl1. pose proof (left_shorter _ Hne). lia.
    + exists []. rewrite Hl1. split; [done|]. split; [by apply left_on|done].
    + exists s'. split; [done|]. split; [done|congruence].
  - cbn in Ht. injection Ht as <- Ht. unfold first_char. cbn. rewrite (proj2 (Z.eqb_neq _ _)) by lia.
    exists s1. split; [done|]. split; [|done]. exists q1. rewrite Hl1.
    split; [done|]. split; [by apply left_on|]. split; [done|]. cbn in Hlen. lia.
Qed.

Lemma getchar_run s c t : waiting s (c :: t) ->
  exists s', getchar s = Done (c, s') /\ waiting s' t /\ output s' = output s.
Proof. intros Hw. by apply getchar_loop_run; [lia|]. Qed.

Definition echo (c : Z) : list Z := if c =? BACKSPACE then [BACKSPACE; 32; BACKSPACE] else [c mod 256].
Lemma cputchar_run c s : cputchar c s = Done (tt, set_output (output s ++ echo c) s).
Proof.
  unfold cputchar, cons_putc, serial_putc, echo, sbi_console_putchar, mbind, ST_bind, modify.
  destruct (Z.eqb_spec c BACKSPACE) as [->|]; cbn; [|done]. unfold set_output. cbn. by rewrite <- !app_assoc.
Qed.

Lemma waiting_output s t o : waiting s t -> waiting (set_output o s) t.
Proof. intros (q & [] & ?). by exists q. Qed.

(** One character of a line, and what the screen shows of it. *)
Definition edit (line : list Z) (c : Z) : list Z :=
  if (32 <=? c) && (Z.of_nat (length line) <? BUFSIZE - 1) then line ++ [c]
  else if c =? BACKSPACE then removelast line else line.
Definition shown (line : list Z) (c : Z) : list Z :=
  if decide (edit line c = line) then [] else echo c.
Fixpoint shown_all (line l : list Z) : list Z :=
  match l with
  | [] => []
  | c :: l' => shown line c ++ shown_all (edit line c) l'
  end.

Definition holds_line (m : mem) (line : list Z) : Prop := forall i c, line !! i = Some c -> m (Z.of_nat i) = c.

Lemma holds_push m line c : holds_line m line -> holds_line (upd m (Z.of_nat (length line)) c) (line ++ [c]).
Proof.
  intros Hm i x Hi. destruct (decide (i = length line)) as [->|Hne].
  - rewrite upd_eq. rewrite list_lookup_middle in Hi by done. by injection Hi.
  - rewrite lookup_app_l in Hi by (apply lookup_lt_Some in Hi; rewrite length_app in Hi; cbn in Hi; lia).
    rewrite upd_ne by lia. by apply Hm.
Qed.

Lemma removelast_length (l : list Z) : length (removelast l) = (length l - 1)%nat.
Proof. induction l as [|x [|y l] IH]; [done|done|]. cbn [removelast length] in *. lia. Qed.

Lemma holds_pop m line : holds_line m line -> holds_line m (removelast line).
Proof.
  intros Hm i c Hi. apply Hm. destruct (decide (line = [])) as [->|Hne]; [done|].
  rewrite (app_removelast_last 0 Hne). by apply lookup_app_l_Some.
Qed.

(** The three cases of [readline]. *)
Lemma edit_add line c : (32 <=? c) && (Z.of_nat (length line) <? BUFSIZE - 1) = true ->
  edit line c = line ++ [c] /\ shown line c = echo c.
Proof.
  intros Hc. assert (He : edit line c = line ++ [c]) by (unfold edit; by rewrite Hc). split; [done|].
  unfold shown. rewrite He, decide_False; [done|]. intros Hx%(f_equal length). rewrite length_app in Hx. cbn in Hx. lia.
Qed.

Lemma edit_del line c : (c =? BACKSPACE) && (0 <? Z.of_nat (length line)) = true ->
  edit line c = removelast line /\ shown line c = echo c.
Proof.
  intros [Hc Hp%Z.ltb_lt]%andb_true_iff. apply Z.eqb_eq in Hc as ->.
  assert (He : edit line BACKSPACE = removelast line) by done. split; [done|].
  unfold shown. rewrite He, decide_False; [done|]. intros Hx%(f_equal length). rewrite removelast_length in Hx. lia.
Qed.

Lemma edit_none line c : (32 <=? c) && (Z.of_nat (length line) <? BUFSIZE - 1) = false ->
  (c =? BACKSPACE) && (0 <? Z.of_nat (length line)) = false -> edit line c = line /\ shown line c = [].
Proof.
  intros Ha Hd. assert (He : edit line c = line).
  { unfold edit. rewrite Ha. revert Hd. destruct (c =? BACKSPACE); [|done]. by destruct line. }
  split; [done|]. unfold shown. by rewrite He, decide_True.
Qed.

Lemma readline_loop_run e t : e = 10 \/ e = 13 -> forall l s m line n,
  Forall (fun c => c <> 10 /\ c <> 13) l -> waiting s (l ++ e :: t) -> holds_line m line ->
  Z.of_nat (length line) < BUFSIZE -> (length l < n)%nat ->
  exists s' m', readline_loop n m (Z.of_nat (length line)) s = Done (Some m', s') /\ waiting s' t /\
    output s' = output s ++ shown_all line l ++ [e] /\
    holds_line m' (foldl edit line l) /\ m' (Z.of_nat (length (foldl edit line l))) = 0 /\
    Z.of_nat (length (foldl edit line l)) < BUFSIZE.
Proof.
  intros He. induction l as [|c l IH]; intros s m line n Hf Hw Hm Hlen Hn; (destruct n as [|n]; [cbn in Hn; lia|]);
    cbn [app] in Hw; destruct (getchar_run _ _ _ Hw) as (s1 & Hr & Hw1 & Ho1); pose proof (waiting_char _ _ _ Hw) as Hc;
    cbn [readline_loop]; rewrite (bind_Done _ _ _ _ _ Hr); rewrite (proj2 (Z.ltb_ge _ 0)) by lia.
  - rewrite (proj2 (Z.leb_gt 32 e)) by lia. cbn [andb].
    rewrite (proj2 (Z.eqb_neq e BACKSPACE)) by (unfold BACKSPACE; lia). cbn [andb].
    assert (Hor : (e =? 10) || (e =? 13) = true) by (destruct He as [->| ->]; done). rewrite Hor.
    rewrite (bind_Done _ _ _ _ _ (cputchar_run e s1)). eexists _, _. split; [done|].
    split; [by apply waiting_output|]. cbn [output set_output]. rewrite Ho1. split.
    { f_equal. unfold echo. destruct He as [->| ->]; done. }
    cbn [foldl]. split; [|split; [by rewrite upd_eq|done]].
    intros i x Hi. rewrite upd_ne; [by apply Hm|]. apply lookup_lt_Some in Hi. lia.
  - apply Forall_cons in Hf as [[Hc1 Hc2] Hf]. cbn [length foldl shown_all] in *.
    assert (Hnl : (c =? 10) || (c =? 13) = false) by (rewrite !(proj2 (Z.eqb_neq _ _)) by done; done). rewrite Hnl.
    destruct ((32 <=? c) && (Z.of_nat (length line) <? BUFSIZE - 1)) eqn:Hadd.
    + destruct (edit_add line c Hadd) as [-> ->]. rewrite (bind_Done _ _ _ _ _ (cputchar_run c s1)).
      rewrite Z.mod_small by lia. apply andb_true_iff in Hadd as [_ Hroom%Z.ltb_lt].
      replace (Z.of_nat (length line) + 1) with (Z.of_nat (length (line ++ [c]))) by (rewrite length_app; cbn; lia).
      destruct (IH (set_output (output s1 ++ echo c) s1) (upd m (Z.of_nat (length line)) c) (line ++ [c]) n)
        as (s' & m' & Hr' & Hw' & Ho' & ?); [done|by apply waiting_output|by apply holds_push| |lia|].
      { rewrite length_app. cbn. lia. }
      exists s', m'. split; [done|]. split; [done|]. split; [|done]. rewrite Ho'. cbn. by rewrite Ho1, <- !app_assoc.
    + destruct ((c =? BACKSPACE) && (0 <? Z.of_nat (length line))) eqn:Hdel.
      * destruct (edit_del line c Hdel) as [-> ->]. rewrite (bind_Done _ _ _ _ _ (cputchar_run c s1)).
        apply andb_true_iff in Hdel as [_ Hpos%Z.ltb_lt]. pose proof (removelast_length line) as Hrl.
        replace (Z.of_nat (length line) - 1) with (Z.of_nat (length (removelast line))) by lia.
        destruct (IH (set_output (output s1 ++ echo c) s1) m (removelast line) n) as (s' & m' & Hr' & Hw' & Ho' & ?);
          [done|by apply waiting_output|by apply holds_pop|lia|lia|].
        exists s', m'. split; [done|]. split; [done|]. split; [|done]. rewrite Ho'. cbn. by rewrite Ho1, <- !app_assoc.
      * destruct (edit_none line c Hadd Hdel) as [-> ->].
        destruct (IH s1 m line n) as (s' & m' & Hr' & Hw' & Ho' & ?); [done|done|done|done|lia|].
        exists s', m'. split; [done|]. split; [done|]. split; [|done]. by rewrite Ho', Ho1.
Qed.

(** ** The theorems *)
(** What is typed comes out of [cons_getc] as from a queue: each call takes
    what the serial line has up to its first pause, appends it to the queue
    (emptying the queue when it would hold 512), and returns the front, or 0
    when there is none. *)
Theorem cons_getc_queue s q : unread s q -> on_line (line_in s) ->
  exists s', cons_getc s = Done (first_char (foldl cons_push q (arrived (line_in s))), s') /\
    unread s' (tail (foldl cons_push q (arrived (line_in s)))) /\
    line_in s' = left_on_line (line_in s) /\ output s' = output s.
Proof. apply cons_getc_run. Qed.

(** [readline] ends at the first end of line and returns the line as its
    backspaces leave it, cut at 1023 characters and ended by 0; every character
    it keeps or takes back is shown, and what was typed after the line is still
    there to be read. *)
Theorem readline_edits s m fuel fmt lbuf l e t :
  waiting s (l ++ e :: t) -> e = 10 \/ e = 13 -> Forall (fun c => c <> 10 /\ c <> 13) l -> (length l < fuel)%nat ->
  exists s' lbuf', readline m fuel fmt 0 lbuf s = Done (Some lbuf', s') /\
    holds_line lbuf' (foldl edit [] l) /\ lbuf' (Z.of_nat (length (foldl edit [] l))) = 0 /\
    Z.of_nat (length (foldl edit [] l)) < BUFSIZE /\
    output s' = output s ++ shown_all [] l ++ [e] /\ waiting s' t.
Proof.
  intros Hw He Hl Hn.
  destruct (readline_loop_run e t He l s lbuf [] fuel Hl Hw) as (s' & m' & Hr & ? & ? & ? & ? & ?); [done|done|done|].
  exists s', m'. by split_and!.
Qed.

(** ** Witnesses: "lz", backspace, "s", a pause, end of line, "x" *)
Definition sample_console : console := mkConsole (fun a => if a =? 511 then 108 else 0) 511 0 [122; 127; -1; 115; 0; -1; 13; 120] [].

Lemma sample_console_unread : unread sample_console [108].
Proof.
  split; unfold CONSBUFSIZE; cbn; try done; [|by constructor; [|constructor]].
  split; [done|]. intros [|i] c Hi; cbn in Hi; [by injection Hi as <-|by destruct i].
Qed.

Lemma cons_getc_queue_witness : exists s', cons_getc sample_console = Done (108, s') /\ unread s' [122; 8] /\
  line_in s' = [115; 0; -1; 13; 120] /\ output s' = [].
Proof. apply (cons_getc_queue sample_console [108] sample_console_unread). by repeat (constructor; [done|]). Defined.

Lemma readline_edits_witness : exists s' lbuf', readline (fun _ => 0) 5 0 0 (fun _ => 0) sample_console = Done (Some lbuf', s') /\
  holds_line lbuf' [108; 115] /\ lbuf' 2 = 0 /\ 2 < BUFSIZE /\
  output s' = [] ++ [108; 122; 8; 32; 8; 115] ++ [13] /\ waiting s' [120].
Proof.
  apply (readline_edits sample_console (fun _ => 0) 5 0 (fun _ => 0) [108; 122; 8; 115] 13 [120]).
  - exists [108]. split; [apply sample_console_unread|]. split; [by repeat (constructor; [done|])|done].
  - by right.
  - by repeat (constructor; [done|]).
  - cbn. lia.
Defined.
