(* ===== verification/Devs.v ===== *)
(** * Devices that are files: standard input and output (kern/fs/devs)

    dev_stdin.c, dev_stdout.c, and dev.c, which forwards the operations of an
    inode to those of a device.  Reading the standard input is cut where the
    reader sleeps: [dev_stdin_read] runs up to there, [dev_stdin_resume] goes on
    when the reader has the processor again. *)
From S2P Require Import Prelude Libs Mem Disk SfsDir Inode Vfs RunQueue RunQueueSpec Proc Sched Sync Console.

(** ** dev_stdin.c *)
Definition STDIN_BUFSIZE : Z := 4096.

Record stdin := mkStdin { stdin_buffer : Z -> Z; p_rpos : Z; p_wpos : Z; kwait : syncs }.
Definition set_stdin_buffer b (s : stdin) : stdin := mkStdin b (p_rpos s) (p_wpos s) (kwait s).
Definition set_p_rpos x (s : stdin) : stdin := mkStdin (stdin_buffer s) x (p_wpos s) (kwait s).
Definition set_p_wpos x (s : stdin) : stdin := mkStdin (stdin_buffer s) (p_rpos s) x (kwait s).
Definition set_kwait k (s : stdin) : stdin := mkStdin (stdin_buffer s) (p_rpos s) (p_wpos s) k.

Definition on_kwait {A} (m : ST syncs A) : ST stdin A := fun s =>
  match m (kwait s) with
  | Done (a, k) => Done (a, set_kwait k s)
  | Panicked => Panicked
  | NoFuel => NoFuel
  end.

(** A read that goes on or has returned, with the characters it has copied. *)
Inductive progress := Returned (got : list Z) | Sleeping (got : list Z).

Section stdin.
  Context `{SchedClass} (kbd_queue : Z).

Definition dev_stdin_write (c : Z) : ST stdin unit :=
  if negb (c =? 0) then
    w ← get p_wpos;
    modify (fun s => set_stdin_buffer (upd (stdin_buffer s) (Z.rem w STDIN_BUFSIZE) c) s) ;;
    r ← get p_rpos;
    (if w - r <? STDIN_BUFSIZE then modify (set_p_wpos (s64 (w + 1))) else mret tt) ;;
    e ← get (fun s => wait_queue_empty kbd_queue (kwait s));
    if negb e then on_kwait (wakeup_queue kbd_queue WT_KBD true) else mret tt
  else mret tt.

(** The turns of the loop that find a character; at most [n]. *)
Fixpoint take_chars (n : nat) : ST stdin (list Z) :=
  match n with
  | O => mret []
  | S n' =>
      r ← get p_rpos;
      w ← get p_wpos;
      if r <? w then
        c ← get (fun s => stdin_buffer s (Z.rem r STDIN_BUFSIZE));
        modify (set_p_rpos (s64 (r + 1))) ;;
        l ← take_chars n';
        mret (c :: l)
      else mret []
  end.

(** [w] is the wait on the stack of the reader, [len] the size it asked for. *)
Definition dev_stdin_read (w len : Z) (got : list Z) : ST stdin progress :=
  l ← take_chars (Z.to_nat (len - Z.of_nat (length got)));
  let got := got ++ l in
  if Z.of_nat (length got) <? len then
    on_kwait (wait_current_set kbd_queue w WT_KBD ;; on_ksched schedule) ;; mret (Sleeping got)
  else mret (Returned got).
Definition dev_stdin_resume (w len : Z) (got : list Z) : ST stdin progress :=
  on_kwait (wait_current_del kbd_queue w) ;;
  f ← get (fun s => wakeup_flags (waits (kwait s) w));
  if f =? WT_KBD then dev_stdin_read w len got else mret (Returned got).

Definition stdin_open (open_flags : Z) : ST stdin Z :=
  mret (if negb (open_flags =? O_RDONLY) then - E_INVAL else 0).
Definition stdin_close : ST stdin Z := mret 0.
Definition stdin_ioctl (op : Z) : ST stdin Z := mret (- E_INVAL).

(** The characters copied to the buffer of the call. *)
Fixpoint put_chars (m : mem) (a : Z) (l : list Z) : mem :=
  match l with [] => m | c :: l' => put_chars (upd m a c) (a + 1) l' end.
(** [stdin_io] when the read has returned [got]. *)
Definition stdin_io_end (iob : iobuf) (got : list Z) : Z * iobuf :=
  let ret := s32 (Z.of_nat (length got)) in
  (ret, mkIob (put_chars (io_mem iob) (io_base iob) got) (io_base iob) (io_offset iob) (io_len iob)
              (if 0 <? ret then u64 (io_resid iob - ret) else io_resid iob)).
(** [inr] is a read that sleeps. *)
Definition stdin_io (w : Z) (iob : iobuf) (write : bool) : ST stdin (Z * iobuf + list Z) :=
  if negb write then
    p ← dev_stdin_read w (io_resid iob) [];
    mret (match p with Returned got => inl (stdin_io_end iob got) | Sleeping got => inr got end)
  else mret (inl (- E_INVAL, iob)).

Definition stdin_device_init : ST stdin unit :=
  modify (set_p_wpos 0) ;; modify (set_p_rpos 0) ;; on_kwait (wait_queue_init kbd_queue).
End stdin.

(** ** dev_stdout.c *)
Definition stdout_open (open_flags : Z) : ST console Z :=
  mret (if negb (open_flags =? O_WRONLY) then - E_INVAL else 0).
Definition stdout_close : ST console Z := mret 0.
Definition stdout_ioctl (op : Z) : ST console Z := mret (- E_INVAL).

(** The loop of [stdout_io]: [n] is [io_resid]. *)
Fixpoint put_all (n : nat) (m : mem) (data : Z) : ST console unit :=
  match n with O => mret tt | S n' => cputchar (m data) ;; put_all n' m (data + 1) end.
Definition stdout_io (iob : iobuf) (write : bool) : ST console (Z * iobuf) :=
  if write then
    put_all (Z.to_nat (io_resid iob)) (io_mem iob) (io_base iob) ;;
    mret (0, mkIob (io_mem iob) (io_base iob) (io_offset iob) (io_len iob) 0)
  else mret (- E_INVAL, iob).

(** ** dev.c *)
Record device (W : Type) := mkDevice {
  d_blocks : Z; d_blocksize : Z;
  d_open : Z -> ST W Z;
  d_close : ST W Z;
  d_io : iobuf -> bool -> ST W (Z * iobuf);
  d_ioctl : Z -> ST W Z }.
Arguments mkDevice {W}.
Arguments d_blocks {W}.
Arguments d_blocksize {W}.
Arguments d_open {W}.
Arguments d_close {W}.
Arguments d_io {W}.
Arguments d_ioctl {W}.

Definition stdout_device : device console := mkDevice 0 1 stdout_open stdout_close stdout_io stdout_ioctl.

Definition S_IFCHR : Z := 0x4000.
Definition S_IFBLK : Z := 0x5000.

Section dev.
  Context {W : Type} (dev : device W).

Definition dev_open (open_flags : Z) : ST W Z :=
  if negb (Z.land open_flags (Z.lor (Z.lor (Z.lor O_CREAT O_TRUNC) O_EXCL) O_APPEND) =? 0) then mret (- E_INVAL)
  else d_open dev open_flags.
Definition dev_close : ST W Z := d_close dev.
Definition dev_read (iob : iobuf) : ST W (Z * iobuf) := d_io dev iob false.
Definition dev_write (iob : iobuf) : ST W (Z * iobuf) := d_io dev iob true.
Definition dev_ioctl (op : Z) : ST W Z := d_ioctl dev op.
Definition dev_gettype : Z * Z := (0, if 0 <? d_blocks dev then S_IFBLK else S_IFCHR).
Definition dev_fstat : Z * stat :=
  (0, mkStat dev_gettype.2 1 (d_blocks dev) (u64 (d_blocks dev * d_blocksize dev))).
(** [pos] is signed, the sizes are not: the division and the comparison with the
    size convert [pos] to 64 bits without sign. *)
Definition dev_tryseek (pos : Z) : Z :=
  if (0 <? d_blocks dev) && (u64 pos mod d_blocksize dev =? 0) &&
     ((0 <=? pos) && (u64 pos <? u64 (d_blocks dev * d_blocksize dev)))
  then 0 else - E_INVAL.
End dev.

Section dev_inodes.
  Context {W : Type} `{Inodes W}.

Definition dev_lookup (node : Z) (path : list Z) : ST W (Z * option Z) :=
  match path with
  | [] => _ ← vop_ref_inc node; mret (0, Some node)
  | _ :: _ => mret (- E_NOENT, None)
  end.

(** [node] is what [dev_create_inode] returns, a new inode with one reference;
    the two flags say whether the allocations of [vfs_add_dev] succeed. *)
Definition dev_init_device (name : list Z) (mountable : bool) (node : option Z) (name_mem vdev_mem : bool) : ST (vfs W) unit :=
  match node with
  | None => panic
  | Some n => ret ← vfs_add_dev name_mem vdev_mem name (Some n) mountable; assert (ret =? 0)
  end.
Definition dev_init_stdin : option Z -> bool -> bool -> ST (vfs W) unit := dev_init_device [115; 116; 100; 105; 110] false.
Definition dev_init_stdout : option Z -> bool -> bool -> ST (vfs W) unit := dev_init_device [115; 116; 100; 111; 117; 116] false.
Definition dev_init_disk0 : option Z -> bool -> bool -> ST (vfs W) unit := dev_init_device [100; 105; 115; 107; 48] true.
Definition dev_init (n_stdin n_stdout n_disk0 : option Z) (mem : bool) : ST (vfs W) unit :=
  dev_init_stdin n_stdin mem mem ;; dev_init_stdout n_stdout mem mem ;; dev_init_disk0 n_disk0 mem mem.
End dev_inodes.
