(* ===== verification/DevsSpec.v ===== *)
(** * The standard input device as a queue

    However key presses, reads and everything else interleave, the device is a
    queue of characters: readers take from its front what was typed, in order,
    and nobody sleeps while a character waits. *)
From S2P Require Import Prelude RunQueue RunQueueSpec Proc Sched SchedSpec Sync Ring Devs.

Section devs_spec.
  Context `{SchedClass} (kbd_queue : Z).
  Implicit Types (d : stdin) (q : list Z).

Notation ks d := (ksched (kwait d)).
Notation sleepers d := (wqueues (kwait d) kbd_queue).

(** The characters of [q] were typed and not read; at most [k] were typed in all. *)
Record typed_ahead (k : Z) d q : Prop := mkTyped {
  ta_rpos : 0 <= p_rpos d;
  ta_wpos : p_wpos d = p_rpos d + Z.of_nat (length q);
  ta_count : p_wpos d <= k;
  ta_ring : ring STDIN_BUFSIZE (stdin_buffer d) (p_rpos d) q }.

(** A key press on a full queue takes the place of the oldest character. *)
Definition press q (c : Z) : list Z :=
  if c =? 0 then q else if Z.of_nat (length q) <? STDIN_BUFSIZE then q ++ [c] else c :: tail q.

(** ** Writing *)
Lemma wakeup_all_empties x f : forall n s s', wakeup_all n x f s = Done (tt, s') -> wqueues s' x = [].
Proof.
  induction n as [|n IH]; intros s s' Hr; cbn [wakeup_all] in Hr; unfold mbind, ST_bind, get, wait_queue_first, mret, ST_ret, no_fuel in Hr;
    destruct (wqueues s x) as [|w ws] eqn:Hq; cbn [head] in Hr; try done; try congruence.
  destruct (wakeup_wait x w f true s) as [[[] s1]| |]; try done. by eapply IH.
Qed.

Lemma wakeup_queue_empties x f s s' : wakeup_queue x f true s = Done (tt, s') -> wqueues s' x = [].
Proof.
  intros Hr. unfold wakeup_queue, mbind, ST_bind, get, wait_queue_first, mret, ST_ret in Hr.
  destruct (wqueues s x) eqn:Hq; cbn [head] in Hr; [by injection Hr as <-|]. by eapply wakeup_all_empties.
Qed.

(** The device after the character is stored, before anyone is woken. *)
Definition stored_char d (c : Z) : stdin :=
  mkStdin (upd (stdin_buffer d) (Z.rem (p_wpos d) STDIN_BUFSIZE) c) (p_rpos d)
          (if p_wpos d - p_rpos d <? STDIN_BUFSIZE then s64 (p_wpos d + 1) else p_wpos d) (kwait d).

Lemma stored_typed k d q c : typed_ahead k d q -> k + 1 < 2 ^ 63 -> c <> 0 -> typed_ahead (k + 1) (stored_char d c) (press q c).
Proof.
  intros [Hr Hw Hk Hq] Hb Hc. unfold press. rewrite (proj2 (Z.eqb_neq _ _) Hc).
  assert (Hl : Z.of_nat (length q) <= STDIN_BUFSIZE) by apply Hq. unfold STDIN_BUFSIZE in *.
  unfold stored_char, STDIN_BUFSIZE. replace (p_wpos d - p_rpos d) with (Z.of_nat (length q)) by lia.
  rewrite Z.rem_mod_nonneg by lia. destruct (Z.ltb_spec (Z.of_nat (length q)) 4096).
  - split; cbn; try done; rewrite ?s64_small by lia; [rewrite length_app; cbn; lia|lia|].
    rewrite Hw. unfold STDIN_BUFSIZE. by apply ring_push.
  - assert (Hlen : Z.of_nat (length q) = 4096) by lia. destruct q as [|x q]; [cbn in Hlen; lia|].
    split; cbn; try done; [cbn in Hw; lia|]. unfold STDIN_BUFSIZE. rewrite Hw, Hlen. by eapply ring_push_full.
Qed.

Lemma dev_stdin_write_run c d : c <> 0 -> dev_stdin_write kbd_queue c d =
  match sleepers d with
  | [] => Done (tt, stored_char d c)
  | _ :: _ => on_kwait (wakeup_queue kbd_queue WT_KBD true) (stored_char d c)
  end.
Proof.
  intros Hc. unfold dev_stdin_write. rewrite (proj2 (Z.eqb_neq _ _) Hc). cbn [negb].
  unfold mbind, ST_bind, get, modify, stored_char. cbn. unfold wait_queue_empty.
  destruct (p_wpos d - p_rpos d <? STDIN_BUFSIZE); cbn; by destruct (sleepers d).
Qed.

Lemma on_kwait_inv {A} (m : ST syncs A) d a d' : on_kwait m d = Done (a, d') ->
  exists k, m (kwait d) = Done (a, k) /\ d' = set_kwait k d.
Proof. unfold on_kwait. destruct (m (kwait d)) as [[b k]| |]; intros Hr; try done. injection Hr as <- <-. by exists k. Qed.

Lemma typed_kwait k d q x : typed_ahead k d q -> typed_ahead k (set_kwait x d) q.
Proof. by intros []. Qed.

Lemma write_step k d q c d' : typed_ahead k d q -> k + 1 < 2 ^ 63 -> dev_stdin_write kbd_queue c d = Done (tt, d') ->
  (sleepers d <> [] -> q = []) -> typed_ahead (k + 1) d' (press q c) /\ (sleepers d' <> [] -> press q c = []).
Proof.
  intros Hq Hk Hr He. destruct (decide (c = 0)) as [->|Hc].
  { injection Hr as <-. destruct Hq. split; [split; try done; lia|done]. }
  pose proof (stored_typed k d q c Hq Hk Hc) as Hs. rewrite dev_stdin_write_run in Hr by done.
  destruct (sleepers d) eqn:Hsl.
  - injection Hr as <-. split; [done|]. cbn. by rewrite Hsl.
  - apply on_kwait_inv in Hr as (x & Hx & ->). split; [by apply typed_kwait|]. cbn.
    by rewrite (wakeup_queue_empties _ _ _ _ Hx).
Qed.

(** ** Reading *)
Lemma take_chars_run k n : forall d q, typed_ahead k d q -> k < 2 ^ 63 ->
  exists d', take_chars n d = Done (take n q, d') /\ typed_ahead k d' (drop n q) /\ kwait d' = kwait d.
Proof.
  induction n as [|n IH]; intros d q Hq Hk; [by exists d|]. cbn [take_chars]. pose proof Hq as [Hr Hw Hc Hrg].
  mstep (eq_refl : get p_rpos d = Done (p_rpos d, d)). mstep (eq_refl : get p_wpos d = Done (p_wpos d, d)).
  destruct q as [|c q].
  { cbn in Hw. rewrite (proj2 (Z.ltb_ge _ _)) by lia. by exists d. }
  cbn [length] in Hw. rewrite (proj2 (Z.ltb_lt _ _)) by lia.
  destruct (ring_pop STDIN_BUFSIZE _ _ _ _ Hrg) as [Hch Hrg'].
  mstep (eq_refl : get (fun s => stdin_buffer s (Z.rem (p_rpos d) STDIN_BUFSIZE)) d
                   = Done (stdin_buffer d (Z.rem (p_rpos d) STDIN_BUFSIZE), d)).
  rewrite Z.rem_mod_nonneg by (unfold STDIN_BUFSIZE; lia). rewrite Hch.
  set (d1 := set_p_rpos (p_rpos d + 1) d).
  assert (Hm : modify (set_p_rpos (s64 (p_rpos d + 1))) d = Done (tt, d1)) by (unfold modify; by rewrite s64_small by lia).
  mstep Hm. destruct (IH d1 q) as (d' & Hd' & Hq' & Hkw); [split; cbn; try done; lia|done|].
  exists d'. mstep Hd'. by cbn [take drop].
Qed.

Definition chars (p : progress) : list Z := match p with Returned l | Sleeping l => l end.
Definition wanted (len : Z) (got : list Z) : nat := Z.to_nat (len - Z.of_nat (length got)).

(** What a read that stops, or goes to sleep, has taken. *)
Lemma read_step k d q w len got p d' : typed_ahead k d q -> k < 2 ^ 63 -> Z.of_nat (length got) <= len ->
  dev_stdin_read kbd_queue w len got d = Done (p, d') -> (sleepers d <> [] -> q = []) ->
  chars p = got ++ take (wanted len got) q /\ typed_ahead k d' (drop (wanted len got) q) /\
  Z.of_nat (length (chars p)) <= len /\ (sleepers d' <> [] -> drop (wanted len got) q = []).
Proof.
  intros Hq Hk Hlen Hr He. destruct (take_chars_run k (wanted len got) d q Hq Hk) as (d1 & Hd1 & Hq1 & Hk1).
  unfold dev_stdin_read in Hr. fold (wanted len got) in Hr. rewrite (bind_Done _ _ _ _ _ Hd1) in Hr.
  set (l := take (wanted len got) q) in *.
  assert (Hle : Z.of_nat (length (got ++ l)) <= len).
  { unfold l, wanted. rewrite length_app, length_take. lia. }
  destruct (Z.ltb_spec (Z.of_nat (length (got ++ l))) len) as [Hlt|Hge].
  - apply bind_Done_inv in Hr as ([] & d2 & Hs & Hr). injection Hr as <- <-.
    apply on_kwait_inv in Hs as (x & _ & ->). do 2 (split; [done || by apply typed_kwait|]). split; [done|].
    intros _. apply drop_ge. unfold l, wanted in *. rewrite length_app, length_take in Hlt. lia.
  - injection Hr as <- <-. do 3 (split; [done|]). rewrite Hk1. intros Hs. by rewrite (He Hs), drop_nil.
Qed.

Lemma resume_step k d q w len got p d' : typed_ahead k d q -> k < 2 ^ 63 -> Z.of_nat (length got) <= len ->
  dev_stdin_resume kbd_queue w len got d = Done (p, d') -> (sleepers d <> [] -> q = []) ->
  exists n, chars p = got ++ take n q /\ typed_ahead k d' (drop n q) /\
    Z.of_nat (length (chars p)) <= len /\ (sleepers d' <> [] -> drop n q = []).
Proof.
  intros Hq Hk Hlen Hr He. unfold dev_stdin_resume in Hr. apply bind_Done_inv in Hr as ([] & d1 & Hd & Hr).
  apply on_kwait_inv in Hd as (x & Hx & ->). set (d1 := set_kwait x d) in *.
  assert (Hs1 : sleepers d1 <> [] -> q = []).
  { intros Hs. apply He. intros Hn. apply Hs. cbn. unfold wait_current_del in Hx.
    apply bind_Done_inv in Hx as (b & y & Hy & Hx). injection Hy as <- <-. destruct (wait_in_queue w (kwait d)).
    - unfold wait_queue_del in Hx. apply bind_Done_inv in Hx as (u & y & Hy & Hx). injection Hx as <-.
      unfold must_be_in in Hy. apply bind_Done_inv in Hy as (b & z & Hz & Hy). injection Hz as <- <-.
      apply bind_Done_inv in Hy as (b & z & Hz & Hy). injection Hz as <- <-. apply assert_Done_inv in Hy as [_ Hy].
      injection Hy as -> ->. cbn. by rewrite upd_eq, Hn.
    - by injection Hx as <-. }
  apply bind_Done_inv in Hr as (f & y & Hf & Hr). injection Hf as <- <-.
  destruct (_ =? WT_KBD).
  - exists (wanted len got). eapply (read_step k d1); [exact (typed_kwait _ _ _ x Hq)|done..].
  - injection Hr as <- <-. exists 0%nat. cbn [take chars]. rewrite app_nil_r. split; [done|]. rewrite drop_0.
    split; [exact (typed_kwait _ _ _ x Hq)|done].
Qed.

(** ** Everything together

    Processes read, sleep, are woken or killed, and keys are pressed, in any
    order; what the rest of the kernel does is anything that leaves the buffer
    and the queue of the device alone. *)
Record reader := mkReader { rwait : Z; rlen : Z; rgot : list Z }.
Record tty := mkTty { tdev : stdin; readers : Z -> option reader }.
Inductive event := Key (c : Z) | Took (p : Z) (l : list Z) | Other.

Definition go_on (p w len : Z) (pr : progress) (rs : Z -> option reader) : Z -> option reader :=
  upd rs p (match pr with Returned _ => None | Sleeping got => Some (mkReader w len got) end).

Inductive tty_step : tty -> event -> tty -> Prop :=
| step_key d rs c d' : dev_stdin_write kbd_queue c d = Done (tt, d') -> tty_step (mkTty d rs) (Key c) (mkTty d' rs)
| step_read d rs p w len pr d' :
    current (ks d) = p -> rs p = None -> 0 <= len -> dev_stdin_read kbd_queue w len [] d = Done (pr, d') ->
    tty_step (mkTty d rs) (Took p (chars pr)) (mkTty d' (go_on p w len pr rs))
| step_resume d rs p r pr d' :
    current (ks d) = p -> rs p = Some r -> dev_stdin_resume kbd_queue (rwait r) (rlen r) (rgot r) d = Done (pr, d') ->
    tty_step (mkTty d rs) (Took p (drop (length (rgot r)) (chars pr))) (mkTty d' (go_on p (rwait r) (rlen r) pr rs))
| step_other d rs x : wqueues x kbd_queue = sleepers d -> tty_step (mkTty d rs) Other (mkTty (set_kwait x d) rs).

Inductive tty_run : tty -> list event -> tty -> Prop :=
| run_nil t : tty_run t [] t
| run_cons t e t1 es t2 : tty_step t e t1 -> tty_run t1 es t2 -> tty_run t (e :: es) t2.

(** The queue the device implements. *)
Inductive queue_run : list Z -> list event -> list Z -> Prop :=
| q_nil q : queue_run q [] q
| q_key q c es q' : queue_run (press q c) es q' -> queue_run q (Key c :: es) q'
| q_took q p l es q' : queue_run q es q' -> queue_run (l ++ q) (Took p l :: es) q'
| q_other q es q' : queue_run q es q' -> queue_run q (Other :: es) q'.

(** The characters typed and taken, and whether a key is pressed while
    [STDIN_BUFSIZE] of them wait. *)
Fixpoint keys (es : list event) : list Z :=
  match es with
  | [] => []
  | Key c :: es' => if c =? 0 then keys es' else c :: keys es'
  | _ :: es' => keys es'
  end.
Fixpoint taken (es : list event) : list Z :=
  match es with
  | [] => []
  | Took _ l :: es' => l ++ taken es'
  | _ :: es' => taken es'
  end.
Fixpoint overruns (n : Z) (es : list event) : bool :=
  match es with
  | [] => false
  | Key c :: es' => if c =? 0 then overruns n es' else (STDIN_BUFSIZE <=? n) || overruns (n + 1) es'
  | Took _ l :: es' => overruns (n - Z.of_nat (length l)) es'
  | Other :: es' => overruns n es'
  end.

Lemma queue_run_fifo q es q' : queue_run q es q' -> overruns (Z.of_nat (length q)) es = false ->
  q ++ keys es = taken es ++ q'.
Proof.
  induction 1 as [q|q c es q' _ IH|q p l es q' _ IH|q es q' _ IH]; cbn [overruns keys taken]; intros Ho.
  - by rewrite app_nil_r.
  - unfold press in IH. destruct (c =? 0); [by apply IH|]. apply orb_false_iff in Ho as [Hl%Z.leb_gt Ho].
    rewrite (proj2 (Z.ltb_lt _ _)) in IH by done. rewrite <- IH; [by rewrite <- app_assoc|].
    rewrite <- Ho. f_equal. rewrite length_app. cbn. lia.
  - rewrite <- !app_assoc. rewrite IH; [done|]. rewrite <- Ho. f_equal. rewrite length_app. lia.
  - by apply IH.
Qed.

(** Readers have not more than they asked for. *)
Definition readers_ok (rs : Z -> option reader) : Prop :=
  forall p r, rs p = Some r -> Z.of_nat (length (rgot r)) <= rlen r.

Lemma go_on_ok p w len pr rs : readers_ok rs -> Z.of_nat (length (chars pr)) <= len -> readers_ok (go_on p w len pr rs).
Proof.
  intros Hrs Hl p' r. unfold go_on, upd. case_decide; [|by apply Hrs]. destruct pr; intros Hr; [done|]. by injection Hr as <-.
Qed.

Lemma tty_step_run k t e t1 q : tty_step t e t1 -> typed_ahead k (tdev t) q -> k + 1 < 2 ^ 63 ->
  (sleepers (tdev t) <> [] -> q = []) -> readers_ok (readers t) ->
  exists q1, (forall es q', queue_run q1 es q' -> queue_run q (e :: es) q') /\
    typed_ahead (k + 1) (tdev t1) q1 /\ (sleepers (tdev t1) <> [] -> q1 = []) /\ readers_ok (readers t1).
Proof.
  assert (Hup : forall d q, typed_ahead k d q -> typed_ahead (k + 1) d q) by (intros d q' []; split; try done; lia).
  intros Hstep Hq Hk He Hrs. destruct Hstep as [d rs c d' Hw|d rs p w len pr d' _ Hp Hl Hr|d rs p r pr d' _ Hp Hr|d rs x Hx];
    cbn [tdev readers] in *.
  - exists (press q c). destruct (write_step k d q c d' Hq Hk Hw He) as [Hq1 He1]. split; [by constructor|done].
  - destruct (read_step k d q w len [] pr d' Hq ltac:(lia) Hl Hr He) as (Hch & Hq1 & Hlen & He1).
    exists (drop (wanted len []) q). split; [|split; [by apply Hup|split; [done|by apply go_on_ok]]].
    intros es q' Hrun. rewrite Hch. rewrite <- (take_drop (wanted len []) q) at 1. by constructor.
  - destruct (resume_step k d q _ _ _ pr d' Hq ltac:(lia) (Hrs p r Hp) Hr He) as (n & Hch & Hq1 & Hlen & He1).
    exists (drop n q). split; [|split; [by apply Hup|split; [done|by apply go_on_ok]]].
    intros es q' Hrun. rewrite Hch, drop_app_length. rewrite <- (take_drop n q) at 1. by constructor.
  - exists q. split; [by constructor|]. split; [by apply Hup, typed_kwait|]. split; [|done]. cbn. by rewrite Hx.
Qed.

Lemma tty_run_queue t es t' : tty_run t es t' -> forall k q, typed_ahead k (tdev t) q ->
  k + Z.of_nat (length es) < 2 ^ 63 -> (sleepers (tdev t) <> [] -> q = []) -> readers_ok (readers t) ->
  exists q', queue_run q es q' /\ typed_ahead (k + Z.of_nat (length es)) (tdev t') q' /\
    (sleepers (tdev t') <> [] -> q' = []).
Proof.
  induction 1 as [t|t e t1 es t2 Hs Hrun IH]; intros k q Hq Hk He Hrs; cbn [length] in *.
  - exists q. rewrite Z.add_0_r. split; [constructor|done].
  - destruct (tty_step_run k t e t1 q Hs Hq ltac:(lia) He Hrs) as (q1 & Hc & Hq1 & He1 & Hrs1).
    destruct (IH (k + 1) q1 Hq1 ltac:(lia) He1 Hrs1) as (q' & Hr & Hq' & He').
    exists q'. split; [by apply Hc|]. by replace (k + Z.of_nat (S (length es))) with (k + 1 + Z.of_nat (length es)) by lia.
Qed.

(** C7 The standard input device is a queue under every interleaving of key
    presses, reads that return or sleep, wake-ups and kills: what was waiting
    or typed is what was read, in that order, followed by what waits now,
    unless a key was pressed while 4096 characters waited (then the oldest is
    replaced); and no process sleeps in the queue of the device while a
    character waits. *)
Theorem stdin_refines_queue t es t' k q :
  tty_run t es t' -> typed_ahead k (tdev t) q -> k + Z.of_nat (length es) < 2 ^ 63 ->
  (sleepers (tdev t) <> [] -> q = []) -> readers_ok (readers t) ->
  exists q', queue_run q es q' /\ typed_ahead (k + Z.of_nat (length es)) (tdev t') q' /\
    (sleepers (tdev t') <> [] -> q' = []) /\
    (overruns (Z.of_nat (length q)) es = false -> q ++ keys es = taken es ++ q').
Proof.
  intros Hrun Hq Hk He Hrs. destruct (tty_run_queue t es t' Hrun k q Hq Hk He Hrs) as (q' & Hr & Hq' & He').
  exists q'. split_and!; try done. by apply queue_run_fifo.
Qed.

(** ** A reader that finds too little *)
(** The waits in the queue of the device are of processes that can be woken. *)
Record sleepers_ok d : Prop := mkSleepers {
  sl_nodup : NoDup (sleepers d);
  sl_wait w : w ∈ sleepers d ->
    wait_queue (waits (kwait d) w) = kbd_queue /\ state (procs (ks d) (wproc (waits (kwait d) w))) <> PROC_ZOMBIE /\
    sc_fit (ents (queues (ks d)) (wproc (waits (kwait d) w))) }.

Lemma on_kwait_run {A} (m : ST syncs A) d a k : m (kwait d) = Done (a, k) -> on_kwait m d = Done (a, set_kwait k d).
Proof. unfold on_kwait. by intros ->. Qed.

Lemma read_sleeps k d q w len n l : typed_ahead k d q -> k < 2 ^ 63 -> sched_ok n (ks d) l ->
  runnable (ks d) (current (ks d)) -> current (ks d) <> idleproc (ks d) -> (forall y, w ∉ wqueues (kwait d) y) ->
  Z.of_nat (length q) < len ->
  exists d1 l', dev_stdin_read kbd_queue w len [] d = Done (Sleeping q, d1) /\ typed_ahead k d1 [] /\
    asleep n (kwait d) kbd_queue w WT_KBD (current (ks d)) (kwait d1) l'.
Proof.
  intros Hq Hk Hok Hrun Hidle Hw Hlen.
  destruct (take_chars_run k (wanted len []) d q Hq Hk) as (d1 & Hd1 & Hq1 & Hk1).
  assert (Hall : take (wanted len []) q = q /\ drop (wanted len []) q = [])
    by (unfold wanted; split; [apply take_ge|apply drop_ge]; cbn; lia). destruct Hall as [Ht Hd]. rewrite Ht in Hd1. rewrite Hd in Hq1.
  destruct (sleep_run (kwait d) kbd_queue w WT_KBD n l _ Hok eq_refl Hrun Hidle Hw) as (x & l' & Hx & Has).
  exists (set_kwait x d1), l'. split; [|split; [by apply typed_kwait|done]].
  unfold dev_stdin_read. fold (wanted len []). mstep Hd1. cbn [app]. rewrite (proj2 (Z.ltb_lt _ _) Hlen).
  rewrite <- Hk1 in Hx. by mstep (on_kwait_run _ _ _ _ Hx).
Qed.

Lemma write_wakes k d q c n l : typed_ahead k d q -> k + 1 < 2 ^ 63 -> c <> 0 -> sched_ok n (ks d) l -> sleepers_ok d ->
  n + Z.of_nat (length (sleepers d)) < 2 ^ 32 - 2 ->
  exists d' l', dev_stdin_write kbd_queue c d = Done (tt, d') /\ typed_ahead (k + 1) d' (press q c) /\
    sched_ok (n + Z.of_nat (length (sleepers d))) (ks d') l' /\ sleepers d' = [] /\
    (forall p, runnable (ks d') p <-> runnable (ks d) p \/ exists w, w ∈ sleepers d /\ wproc (waits (kwait d) w) = p) /\
    (forall w, w ∈ sleepers d -> wakeup_flags (waits (kwait d') w) = WT_KBD /\ wait_queue (waits (kwait d') w) = kbd_queue) /\
    timer (ks d') = timer (ks d) /\ timer_list (ks d') = timer_list (ks d).
Proof.
  intros Hq Hk Hc Hok [Hnd Hws] Hn. pose proof (stored_typed k d q c Hq Hk Hc) as Hs.
  destruct (wakeup_all_run kbd_queue WT_KBD (sleepers d) (kwait d) (length (sleepers d)) n l eq_refl Hnd ltac:(lia) Hws Hok Hn)
    as (x & l' & Hx & Hok' & He & _ & Hwt & Hrn & Htm & Htl).
  rewrite dev_stdin_write_run by done. destruct (sleepers d) as [|w ws] eqn:Hsl.
  - exists (stored_char d c), l. cbn [length]. rewrite Z.add_0_r. split; [done|]. split; [done|]. split; [done|].
    split; [done|]. split; [|split; [by intros w ?%elem_of_nil|done]]. intros p. split; [by left|]. by intros [?|(w & ?%elem_of_nil & _)].
  - exists (set_kwait x (stored_char d c)), l'. split.
    { apply on_kwait_run. unfold wakeup_queue. cbn [kwait stored_char].
      mstep (eq_refl : get (wait_queue_first kbd_queue) (kwait d) = Done (wait_queue_first kbd_queue (kwait d), kwait d)).
      mstep (eq_refl : get (fun s => length (wqueues s kbd_queue)) (kwait d) = Done (length (sleepers d), kwait d)).
      unfold wait_queue_first. by rewrite Hsl. }
    split; [by apply typed_kwait|]. split; [done|]. split; [done|]. split; [done|].
    split; [|done]. intros y Hy. cbn. by rewrite Hwt, decide_True.
Qed.

(** A reader that asks for one character more than there are takes them
    all and sleeps; the next key pressed wakes it and every other reader; and
    when it runs again, and nobody was faster, its read returns with that
    character at the end. *)
Theorem stdin_read_wakes k d q w c n l :
  typed_ahead k d q -> k + 1 < 2 ^ 63 -> sched_ok n (ks d) l -> sleepers_ok d ->
  runnable (ks d) (current (ks d)) -> current (ks d) <> idleproc (ks d) -> (forall y, w ∉ wqueues (kwait d) y) ->
  n + Z.of_nat (length (sleepers d)) + 1 < 2 ^ 32 - 2 -> c <> 0 ->
  exists d1 d2, dev_stdin_read kbd_queue w (Z.of_nat (length q) + 1) [] d = Done (Sleeping q, d1) /\
    state (procs (ks d1) (current (ks d))) = PROC_SLEEPING /\ current (ks d1) <> current (ks d) /\
    dev_stdin_write kbd_queue c d1 = Done (tt, d2) /\ sleepers d2 = [] /\
    (forall p, p = current (ks d) \/ (exists v, v ∈ sleepers d /\ wproc (waits (kwait d) v) = p) -> runnable (ks d2) p) /\
    forall x, wqueues x kbd_queue = [] -> waits x w = waits (kwait d2) w ->
      exists d3, dev_stdin_resume kbd_queue w (Z.of_nat (length q) + 1) q (set_kwait x d2) = Done (Returned (q ++ [c]), d3) /\
        typed_ahead (k + 1) d3 [].
Proof.
  intros Hq Hk Hok [Hnd Hws] Hrun Hidle Hw Hn Hc. set (p := current (ks d)) in *.
  destruct (read_sleeps k d q w (Z.of_nat (length q) + 1) n l Hq ltac:(lia) Hok Hrun Hidle Hw ltac:(lia))
    as (d1 & l1 & Hr & Hq1 & [Hok1 Hoc _ Hsl Hww Hwo _ _ (Hst & _ & Hft) Hpr Hfit]).
  assert (Hws1 : forall v, v ∈ sleepers d -> waits (kwait d1) v = waits (kwait d) v)
    by (intros v Hv; apply Hwo; intros ->; by apply (Hw kbd_queue)).
  assert (Hok2 : sleepers_ok d1).
  { split.
    - rewrite Hsl. apply NoDup_app. split; [done|]. split; [|apply NoDup_singleton].
      intros v Hv ->%list_elem_of_singleton. by apply (Hw kbd_queue).
    - rewrite Hsl. intros v [Hv|Hv%list_elem_of_singleton]%elem_of_app.
      + rewrite Hws1 by done. destruct (Hws v Hv) as (? & Hz & ?). split; [done|]. split; [|by apply Hfit].
        destruct (decide (wproc (waits (kwait d) v) = p)) as [Heq|Hne]; [rewrite Heq; unfold p; by rewrite Hst|]. by destruct (Hpr _ Hne) as [-> _].
      + subst v. rewrite Hww. cbn [wproc wait_queue]. split; [done|]. split; [by rewrite Hst|done]. }
  destruct (write_wakes k d1 [] c n l1 Hq1 Hk Hc Hok1 Hok2) as (d2 & l2 & Hwr & Hq2 & _ & He & Hrn & Hfl & _);
    [rewrite Hsl, length_app; cbn; lia|].
  exists d1, d2. do 5 (split; [done|]). split.
  - intros r Hp. apply Hrn. right. destruct Hp as [->|(v & Hv & <-)].
    + exists w. rewrite Hsl, Hww. split; [apply elem_of_app; right; left|done].
    + exists v. rewrite Hsl, Hws1 by done. split; [by apply elem_of_app; left|done].
  - intros x Hx Hxw. destruct (Hfl w) as [Hf1 Hf2]; [rewrite Hsl; apply elem_of_app; right; left|].
    unfold dev_stdin_resume. assert (Hdel : wait_current_del kbd_queue w x = Done (tt, x)).
    { unfold wait_current_del. mstep (eq_refl : get (wait_in_queue w) x = Done (wait_in_queue w x, x)).
      unfold wait_in_queue. rewrite Hxw, Hf2, Hx, bool_decide_eq_false_2 by apply not_elem_of_nil. done. }
    set (d2x := set_kwait x d2). assert (Hd2 : on_kwait (wait_current_del kbd_queue w) d2x = Done (tt, d2x))
      by (by apply (on_kwait_run _ d2x)). mstep Hd2.
    mstep (eq_refl : get (fun s => wakeup_flags (waits (kwait s) w)) d2x = Done (wakeup_flags (waits x w), d2x)).
    rewrite Hxw, Hf1, Z.eqb_refl. assert (Hp : press [] c = [c]) by (unfold press; by rewrite (proj2 (Z.eqb_neq _ _) Hc)).
    rewrite Hp in Hq2.
    destruct (take_chars_run (k + 1) (wanted (Z.of_nat (length q) + 1) q) d2x [c] (typed_kwait _ _ _ x Hq2) ltac:(lia)) as (d3 & Hd3 & Hq3 & _).
    assert (Hone : wanted (Z.of_nat (length q) + 1) q = 1%nat) by (unfold wanted; lia). rewrite Hone in Hd3, Hq3. cbn in Hq3.
    exists d3. split; [|done]. unfold dev_stdin_read. fold (wanted (Z.of_nat (length q) + 1) q). rewrite Hone. mstep Hd3.
    cbn [take]. rewrite length_app. rewrite (proj2 (Z.ltb_ge _ _)) by (cbn; lia). done.
Qed.
End devs_spec.

(** ** Witnesses: process 1 reads two characters and finds one *)
Definition sample_stdin : stdin := mkStdin (fun i => if i =? 4095 then 104 else 0) 4095 4096 sync_sample.

Lemma sample_typed : typed_ahead 4096 sample_stdin [104].
Proof.
  split; cbn; try lia. split; [done|]. intros [|i] c Hi; cbn in Hi; [by injection Hi as <-|by destruct i].
Qed.

Lemma stdin_read_wakes_witness :
  exists d1 d2, dev_stdin_read (H := RR_class) 7 300 (Z.of_nat (length [104]) + 1) [] sample_stdin = Done (Sleeping [104], d1) /\
    state (procs (ksched (kwait d1)) 1) = PROC_SLEEPING /\ current (ksched (kwait d1)) <> 1 /\
    dev_stdin_write (H := RR_class) 7 105 d1 = Done (tt, d2) /\ wqueues (kwait d2) 7 = [] /\
    (forall p, p = 1 \/ (exists v, v ∈ [200] /\ wproc (waits (kwait sample_stdin) v) = p) -> runnable (ksched (kwait d2)) p) /\
    forall x, wqueues x 7 = [] -> waits x 300 = waits (kwait d2) 300 ->
      exists d3, dev_stdin_resume (H := RR_class) 7 300 (Z.of_nat (length [104]) + 1) [104] (set_kwait x d2) = Done (Returned ([104] ++ [105]), d3) /\
        typed_ahead (4096 + 1) d3 [].
Proof.
  refine (stdin_read_wakes (H := RR_class) 7 4096 sample_stdin [104] 300 105 2 [2; 3] sample_typed _ sync_sched_ok _ _ _ _ _ _); try done.
  - split; cbn; [apply NoDup_singleton|]. by intros w ->%list_elem_of_singleton.
  - intros y Hy. cbn in Hy. destruct (y =? 7); [by apply list_elem_of_singleton in Hy|by apply elem_of_nil in Hy].
Defined.

(** Process 1 reads two characters and finds one, ["i"] is typed, process 1 goes
    on when it has the processor again. *)
Definition run_again (p : Z) (k : syncs) : syncs := set_ksched (set_current p (ksched k)) k.
Definition no_readers : Z -> option reader := fun _ => None.

Lemma stdin_refines_queue_witness :
  exists t', tty_run (H := RR_class) 8 (mkTty sample_stdin no_readers) [Took 1 [104]; Key 105; Other; Took 1 [105]] t' /\
  exists q', queue_run [104] [Took 1 [104]; Key 105; Other; Took 1 [105]] q' /\ typed_ahead (4096 + 4) (tdev t') q' /\
    (wqueues (kwait (tdev t')) 8 <> [] -> q' = []) /\
    (overruns 1 [Took 1 [104]; Key 105; Other; Took 1 [105]] = false ->
     [104] ++ keys [Took 1 [104]; Key 105; Other; Took 1 [105]] = taken [Took 1 [104]; Key 105; Other; Took 1 [105]] ++ q').
Proof.
  eassert (Hrun : tty_run (H := RR_class) 8 (mkTty sample_stdin no_readers) [Took 1 [104]; Key 105; Other; Took 1 [105]] _).
  { eapply run_cons; [refine (step_read 8 _ _ 1 300 2 (Sleeping [104]) _ _ _ _ _); [reflexivity|reflexivity|lia|vm_compute; reflexivity]|].
    eapply run_cons; [apply step_key; vm_compute; reflexivity|].
    eapply run_cons; [refine (step_other 8 _ _ (run_again 1 _) _); reflexivity|].
    eapply run_cons; [refine (step_resume 8 _ _ 1 (mkReader 300 2 [104]) (Returned [104; 105]) _ _ _ _); [reflexivity|reflexivity|vm_compute; reflexivity]|].
    apply run_nil. }
  eexists. split; [exact Hrun|].
  refine (stdin_refines_queue (H := RR_class) 8 _ _ _ 4096 [104] Hrun sample_typed _ _ _); [cbn; lia|done|done].
Defined.
