(* ===== verification/Trap.v ===== *)
(** * Traps and system calls (kern/trap/trap.c, kern/syscall/syscall.c,
      kern/driver/clock.c, libs/unistd.h)

    What the kernel does between saving the registers of a process and restoring
    them.  The services behind the system calls are the other parts of the
    kernel: [Services] is what this part uses of them and promises to them. *)
From S2P Require Import Prelude Libs.

(** ** trap.h *)
Record pushregs := mkRegs {
  zero : Z; ra : Z; sp : Z; gp : Z; tp : Z; t0 : Z; t1 : Z; t2 : Z; s0 : Z; s1 : Z;
  a0 : Z; a1 : Z; a2 : Z; a3 : Z; a4 : Z; a5 : Z; a6 : Z; a7 : Z;
  s2 : Z; s3 : Z; s4 : Z; s5 : Z; s6 : Z; s7 : Z; s8 : Z; s9 : Z; s10 : Z; s11 : Z;
  t3 : Z; t4 : Z; t5 : Z; t6 : Z }.
Record trapframe := mkFrame { gpr : pushregs; status : Z; epc : Z; tval : Z; cause : Z }.

Definition regs_list (r : pushregs) : list Z :=
  [zero r; ra r; sp r; gp r; tp r; t0 r; t1 r; t2 r; s0 r; s1 r; a0 r; a1 r; a2 r; a3 r; a4 r; a5 r; a6 r; a7 r;
   s2 r; s3 r; s4 r; s5 r; s6 r; s7 r; s8 r; s9 r; s10 r; s11 r; t3 r; t4 r; t5 r; t6 r].
Definition set_a0 (x : Z) (f : trapframe) : trapframe :=
  let r := gpr f in
  mkFrame (mkRegs (zero r) (ra r) (sp r) (gp r) (tp r) (t0 r) (t1 r) (t2 r) (s0 r) (s1 r)
             x (a1 r) (a2 r) (a3 r) (a4 r) (a5 r) (a6 r) (a7 r)
             (s2 r) (s3 r) (s4 r) (s5 r) (s6 r) (s7 r) (s8 r) (s9 r) (s10 r) (s11 r) (t3 r) (t4 r) (t5 r) (t6 r))
          (status f) (epc f) (tval f) (cause f).
Definition set_sp (x : Z) (f : trapframe) : trapframe :=
  let r := gpr f in
  mkFrame (mkRegs (zero r) (ra r) x (gp r) (tp r) (t0 r) (t1 r) (t2 r) (s0 r) (s1 r)
             (a0 r) (a1 r) (a2 r) (a3 r) (a4 r) (a5 r) (a6 r) (a7 r)
             (s2 r) (s3 r) (s4 r) (s5 r) (s6 r) (s7 r) (s8 r) (s9 r) (s10 r) (s11 r) (t3 r) (t4 r) (t5 r) (t6 r))
          (status f) (epc f) (tval f) (cause f).
Definition set_epc (x : Z) (f : trapframe) : trapframe := mkFrame (gpr f) (status f) x (tval f) (cause f).

(** libs/riscv.h *)
Definition SSTATUS_SPP : Z := 0x100.
Definition IRQ_S_TIMER : Z := 5.
Definition CAUSE_MISALIGNED_STORE : Z := 6.
Definition CAUSE_USER_ECALL : Z := 8.
Definition CAUSE_SUPERVISOR_ECALL : Z := 9.

Definition trap_in_kernel (f : trapframe) : bool := negb (Z.land (status f) SSTATUS_SPP =? 0).

(** ** The rest of the kernel *)
(** A call of a service, with the arguments it gets. *)
Inductive call :=
| do_exit (error_code : Z) | do_fork (clone_flags stack tf : Z) | do_wait (pid store : Z)
| do_execve (name argc argv : Z) | do_yield | do_kill (pid : Z) | cputchar (c : Z)
| lab6_set_priority (priority : Z) | do_sleep (time : Z)
| sysfile_open (path open_flags : Z) | sysfile_close (fd : Z) | sysfile_read (fd base len : Z)
| sysfile_write (fd base len : Z) | sysfile_seek (fd pos whence : Z) | sysfile_fstat (fd stat : Z)
| sysfile_fsync (fd : Z) | sysfile_getcwd (buf len : Z) | sysfile_getdirentry (fd direntp : Z) | sysfile_dup (fd1 fd2 : Z).

Definition int_ok (x : Z) : Prop := - 2 ^ 31 <= x < 2 ^ 31.
Definition uint_ok (x : Z) : Prop := 0 <= x < 2 ^ 32.
Definition word_ok (x : Z) : Prop := 0 <= x < 2 ^ 64.
Definition off_ok (x : Z) : Prop := - 2 ^ 63 <= x < 2 ^ 63.
Definition frame_ok (f : trapframe) : Prop :=
  Forall word_ok (regs_list (gpr f)) /\ word_ok (status f) /\ word_ok (epc f) /\ word_ok (tval f) /\ word_ok (cause f).

(** The types the services declare for their parameters. *)
Definition call_ok (c : call) : Prop :=
  match c with
  | do_exit x | do_kill x | cputchar x | sysfile_close x | sysfile_fsync x => int_ok x
  | do_fork x y z => uint_ok x /\ word_ok y /\ word_ok z
  | do_wait x y => int_ok x /\ word_ok y
  | do_execve x y z => word_ok x /\ int_ok y /\ word_ok z
  | do_yield => True
  | lab6_set_priority x | do_sleep x => uint_ok x
  | sysfile_open x y => word_ok x /\ uint_ok y
  | sysfile_read x y z | sysfile_write x y z => int_ok x /\ word_ok y /\ word_ok z
  | sysfile_seek x y z => int_ok x /\ off_ok y /\ int_ok z
  | sysfile_fstat x y | sysfile_getdirentry x y => int_ok x /\ word_ok y
  | sysfile_getcwd x y => word_ok x /\ word_ok y
  | sysfile_dup x y => int_ok x /\ int_ok y
  end.

(** What the clock interrupt uses. *)
Class Clock (M : Type) := {
  ticks : M -> Z;
  set_ticks : Z -> M -> M;
  run_timer_list : ST M unit;
  cons_getc : ST M Z;
  dev_stdin_write : Z -> ST M unit }.

(** The kernel [M] as seen from its entry: the process that runs, where its trap
    frame is ([proc->tf]), the frames in memory, the flags trap.c looks at, and
    the services.  A service runs until it returns to the process
    that called it; what other processes did meanwhile is part of its effect. *)
Class Services (M : Type) `{!Clock M} := {
  running : M -> option Z;
  proc_pid : M -> Z -> Z;
  proc_tf : M -> Z -> Z;
  set_proc_tf : Z -> Z -> M -> M;
  frame : M -> Z -> trapframe;
  set_frame : Z -> trapframe -> M -> M;
  exiting : M -> Z -> bool;        (* flags & PF_EXITING *)
  wants_resched : M -> Z -> bool;
  service : call -> ST M Z;
  schedule : ST M unit;
  kernel_ok : M -> Prop;           (* what the other parts keep true *)

  running_tf p a m : running (set_proc_tf p a m) = running m;
  running_frame a f m : running (set_frame a f m) = running m;
  running_ticks t m : running (set_ticks t m) = running m;
  tf_tf p a q m : proc_tf (set_proc_tf p a m) q = if decide (q = p) then a else proc_tf m q;
  tf_frame a f q m : proc_tf (set_frame a f m) q = proc_tf m q;
  tf_ticks t q m : proc_tf (set_ticks t m) q = proc_tf m q;
  frame_tf p a b m : frame (set_proc_tf p a m) b = frame m b;
  frame_frame a f b m : frame (set_frame a f m) b = if decide (b = a) then f else frame m b;
  frame_ticks t b m : frame (set_ticks t m) b = frame m b;
  flags_tf p a q m : exiting (set_proc_tf p a m) q = exiting m q /\ wants_resched (set_proc_tf p a m) q = wants_resched m q;
  flags_frame a f q m : exiting (set_frame a f m) q = exiting m q /\ wants_resched (set_frame a f m) q = wants_resched m q;
  ticks_tf p a m : ticks (set_proc_tf p a m) = ticks m;
  ticks_frame a f m : ticks (set_frame a f m) = ticks m;
  ticks_ticks t m : ticks (set_ticks t m) = t;
  ok_tf p a m : kernel_ok m -> word_ok a -> kernel_ok (set_proc_tf p a m);
  ok_frame a f m : kernel_ok m -> frame_ok f -> kernel_ok (set_frame a f m);
  ok_ticks t m : kernel_ok m -> word_ok t -> kernel_ok (set_ticks t m);
  ok_frames m a : kernel_ok m -> frame_ok (frame m a);
  ok_proc_tf m p : kernel_ok m -> word_ok (proc_tf m p);
  ok_pid m p : kernel_ok m -> int_ok (proc_pid m p);
  ok_clock m : kernel_ok m -> word_ok (ticks m);

  (** Called with arguments of its types, a service returns an [int] to the same
      process, whose frame is where it was; only [do_execve] changes the frame. *)
  service_law c m r m' p : kernel_ok m -> call_ok c -> running m = Some p -> service c m = Done (r, m') ->
    kernel_ok m' /\ int_ok r /\ running m' = Some p /\ proc_tf m' p = proc_tf m p /\
    ((forall x y z, c <> do_execve x y z) -> frame m' (proc_tf m p) = frame m (proc_tf m p));
  do_exit_law x m r : service (do_exit x) m <> Done r;
  schedule_law m m' p : kernel_ok m -> running m = Some p -> schedule m = Done (tt, m') ->
    kernel_ok m' /\ running m' = Some p /\ proc_tf m' p = proc_tf m p /\ frame m' (proc_tf m p) = frame m (proc_tf m p);
  timer_law m m' : kernel_ok m -> run_timer_list m = Done (tt, m') ->
    kernel_ok m' /\ running m' = running m /\ (forall p, proc_tf m' p = proc_tf m p) /\ forall a, frame m' a = frame m a;
  getc_law m c m' : kernel_ok m -> cons_getc m = Done (c, m') ->
    kernel_ok m' /\ 0 <= c < 256 /\ running m' = running m /\ (forall p, proc_tf m' p = proc_tf m p) /\
    forall a, frame m' a = frame m a;
  stdin_law m c m' : kernel_ok m -> 0 <= c < 256 -> dev_stdin_write c m = Done (tt, m') ->
    kernel_ok m' /\ running m' = running m /\ (forall p, proc_tf m' p = proc_tf m p) /\ forall a, frame m' a = frame m a }.

Section clock.
  Context {M : Type} `{Clock M}.

(** The case of [IRQ_S_TIMER]; [clock_set_next_event] sets the hardware. *)
Definition timer_interrupt : ST M unit :=
  t ← get ticks;
  modify (set_ticks (u64 (t + 1))) ;;
  run_timer_list ;;
  ch ← cons_getc;
  dev_stdin_write (ch mod 256).
End clock.

Section trap.
  Context {M : Type} `{Services M}.

(** ** syscall.c

    [arg] holds [a1] to [a5]; the casts of the source to [int], [unsigned int]
    and [off_t] are [s32], [u32] and [s64]. *)
Definition with_current {A} (k : Z -> ST M A) : ST M A :=
  o ← get running; match o with Some p => k p | None => panic end.
Definition sys_exit (arg : Z -> Z) : ST M Z := service (do_exit (s32 (arg 0))).
Definition sys_fork (arg : Z -> Z) : ST M Z :=
  with_current (fun p =>
    tf ← get (fun m => proc_tf m p);
    stack ← get (fun m => sp (gpr (frame m tf)));
    service (do_fork 0 stack tf)).
Definition sys_wait (arg : Z -> Z) : ST M Z := service (do_wait (s32 (arg 0)) (arg 1)).
Definition sys_exec (arg : Z -> Z) : ST M Z := service (do_execve (arg 0) (s32 (arg 1)) (arg 2)).
Definition sys_yield (arg : Z -> Z) : ST M Z := service do_yield.
Definition sys_kill (arg : Z -> Z) : ST M Z := service (do_kill (s32 (arg 0))).
Definition sys_getpid (arg : Z -> Z) : ST M Z :=
  with_current (fun p => get (fun m => proc_pid m p)).
Definition sys_putc (arg : Z -> Z) : ST M Z := _ ← service (cputchar (s32 (arg 0))); mret 0.
Definition sys_pgdir (arg : Z -> Z) : ST M Z := mret 0.
Definition sys_gettime (arg : Z -> Z) : ST M Z := t ← get ticks; mret (s32 (s32 t * 10)).
Definition sys_lab6_set_priority (arg : Z -> Z) : ST M Z := _ ← service (lab6_set_priority (u32 (arg 0))); mret 0.
Definition sys_sleep (arg : Z -> Z) : ST M Z := service (do_sleep (u32 (arg 0))).
Definition sys_open (arg : Z -> Z) : ST M Z := service (sysfile_open (arg 0) (u32 (arg 1))).
Definition sys_close (arg : Z -> Z) : ST M Z := service (sysfile_close (s32 (arg 0))).
Definition sys_read (arg : Z -> Z) : ST M Z := service (sysfile_read (s32 (arg 0)) (arg 1) (arg 2)).
Definition sys_write (arg : Z -> Z) : ST M Z := service (sysfile_write (s32 (arg 0)) (arg 1) (arg 2)).
Definition sys_seek (arg : Z -> Z) : ST M Z := service (sysfile_seek (s32 (arg 0)) (s64 (arg 1)) (s32 (arg 2))).
Definition sys_fstat (arg : Z -> Z) : ST M Z := service (sysfile_fstat (s32 (arg 0)) (arg 1)).
Definition sys_fsync (arg : Z -> Z) : ST M Z := service (sysfile_fsync (s32 (arg 0))).
Definition sys_getcwd (arg : Z -> Z) : ST M Z := service (sysfile_getcwd (arg 0) (arg 1)).
Definition sys_getdirentry (arg : Z -> Z) : ST M Z := service (sysfile_getdirentry (s32 (arg 0)) (arg 1)).
Definition sys_dup (arg : Z -> Z) : ST M Z := service (sysfile_dup (s32 (arg 0)) (s32 (arg 1))).

(** The table; the numbers are those of libs/unistd.h. *)
Definition NUM_SYSCALLS : Z := 256.
Definition syscalls (num : Z) : option ((Z -> Z) -> ST M Z) :=
  if num =? 1 then Some sys_exit else if num =? 2 then Some sys_fork else if num =? 3 then Some sys_wait
  else if num =? 4 then Some sys_exec else if num =? 10 then Some sys_yield else if num =? 12 then Some sys_kill
  else if num =? 18 then Some sys_getpid else if num =? 30 then Some sys_putc else if num =? 31 then Some sys_pgdir
  else if num =? 17 then Some sys_gettime else if num =? 255 then Some sys_lab6_set_priority
  else if num =? 11 then Some sys_sleep else if num =? 100 then Some sys_open else if num =? 101 then Some sys_close
  else if num =? 102 then Some sys_read else if num =? 103 then Some sys_write else if num =? 104 then Some sys_seek
  else if num =? 110 then Some sys_fstat else if num =? 111 then Some sys_fsync else if num =? 121 then Some sys_getcwd
  else if num =? 128 then Some sys_getdirentry else if num =? 130 then Some sys_dup else None.

Definition args_of (r : pushregs) : Z -> Z := fun i =>
  if i =? 0 then a1 r else if i =? 1 then a2 r else if i =? 2 then a3 r else if i =? 3 then a4 r else a5 r.

(** The frame is read before the call and written where it was then. *)
Definition syscall : ST M unit :=
  with_current (fun p =>
    tf ← get (fun m => proc_tf m p);
    r ← get (fun m => gpr (frame m tf));
    let num := s32 (a0 r) in
    if (0 <=? num) && (num <? NUM_SYSCALLS) then
      match syscalls num with
      | Some f => ret ← f (args_of r); modify (fun m => set_frame tf (set_a0 (u64 ret) (frame m tf)) m)
      | None => panic
      end
    else panic).

(** ** The frame of a new process (proc.c)

    [f] is the frame of the parent; the context that makes the new process start
    in [forkret] with this frame is not modelled. *)
Definition KSTACKSIZE : Z := 2 * 4096.
Definition TRAPFRAME_SIZE : Z := 36 * 8.
Definition copy_thread (p kstack esp : Z) (f : trapframe) : ST M unit :=
  modify (set_proc_tf p (u64 (kstack + KSTACKSIZE - TRAPFRAME_SIZE))) ;;
  tf ← get (fun m => proc_tf m p);
  modify (set_frame tf f) ;;
  modify (fun m => set_frame tf (set_a0 0 (frame m tf)) m) ;;
  modify (fun m => set_frame tf (set_sp (if esp =? 0 then tf else esp) (frame m tf)) m).

(** ** trap.c; what is printed is left out *)
Definition interrupt_handler (tf : Z) : ST M unit :=
  c ← get (fun m => cause (frame m tf));
  let cause := Z.shiftr (u64 (Z.shiftl c 1)) 1 in
  if cause =? IRQ_S_TIMER then timer_interrupt else mret tt.

Definition exception_handler (tf : Z) : ST M unit :=
  c ← get (fun m => cause (frame m tf));
  if c =? CAUSE_MISALIGNED_STORE then panic
  else if (c =? CAUSE_USER_ECALL) || (c =? CAUSE_SUPERVISOR_ECALL) then
    modify (fun m => set_frame tf (set_epc (u64 (epc (frame m tf) + 4)) (frame m tf)) m) ;;
    syscall
  else mret tt.

Definition trap_dispatch (tf : Z) : ST M unit :=
  c ← get (fun m => cause (frame m tf));
  if s64 c <? 0 then interrupt_handler tf else exception_handler tf.

Definition E_KILLED_exit : call := do_exit (- E_KILLED).
Definition trap (tf : Z) : ST M unit :=
  o ← get running;
  match o with
  | None => trap_dispatch tf
  | Some p =>
      otf ← get (fun m => proc_tf m p);
      modify (set_proc_tf p tf) ;;
      in_kernel ← get (fun m => trap_in_kernel (frame m tf));
      trap_dispatch tf ;;
      with_current (fun p => modify (set_proc_tf p otf)) ;;
      if negb in_kernel then
        with_current (fun p =>
          e ← get (fun m => exiting m p);
          if (e : bool) then _ ← service E_KILLED_exit; mret tt else mret tt) ;;
        with_current (fun p => r ← get (fun m => wants_resched m p); if (r : bool) then schedule else mret tt)
      else mret tt
  end.
End trap.

(** ** What a trap does to the process that takes it

    The types of everything that crosses the border between user and kernel,
    and the effect of a system call on the registers of its caller. *)

(** The system calls as the services behind them are declared (proc.h, sysfile.h,
    sched.h, stdio.h): the types of the parameters, in their order; argument number
    [i] of the call arrives in register [a(i+1)].  The flag tells whether the
    caller gets the result of the service or 0.  [fork] and the calls without a
    service are not in this table. *)
Inductive ctype := CInt | CUnsigned | COff | CWord.
Definition cast (t : ctype) (x : Z) : Z :=
  match t with CInt => s32 x | CUnsigned => u32 x | COff => s64 x | CWord => x end.
Inductive prototype :=
| P0 (c : call) | P1 (t : ctype) (c : Z -> call) | P2 (t u : ctype) (c : Z -> Z -> call)
| P3 (t u v : ctype) (c : Z -> Z -> Z -> call).
Definition declared_call (d : prototype) (r : pushregs) : call :=
  match d with
  | P0 c => c
  | P1 t c => c (cast t (a1 r))
  | P2 t u c => c (cast t (a1 r)) (cast u (a2 r))
  | P3 t u v c => c (cast t (a1 r)) (cast u (a2 r)) (cast v (a3 r))
  end.
Definition prototypes : list (Z * (prototype * bool)) :=
  [(1, (P1 CInt do_exit, true)); (3, (P2 CInt CWord do_wait, true)); (4, (P3 CWord CInt CWord do_execve, true));
   (10, (P0 do_yield, true)); (11, (P1 CUnsigned do_sleep, true)); (12, (P1 CInt do_kill, true));
   (30, (P1 CInt cputchar, false)); (100, (P2 CWord CUnsigned sysfile_open, true)); (101, (P1 CInt sysfile_close, true));
   (102, (P3 CInt CWord CWord sysfile_read, true)); (103, (P3 CInt CWord CWord sysfile_write, true));
   (104, (P3 CInt COff CInt sysfile_seek, true)); (110, (P2 CInt CWord sysfile_fstat, true));
   (111, (P1 CInt sysfile_fsync, true)); (121, (P2 CWord CWord sysfile_getcwd, true));
   (128, (P2 CInt CWord sysfile_getdirentry, true)); (130, (P2 CInt CInt sysfile_dup, true));
   (255, (P1 CUnsigned lab6_set_priority, false))].

Section trap_spec.
  Context {M : Type} `{Services M}.
  Implicit Types m : M.

(** ** Types *)
(** A piece of a trap taken by [p] whose frame is at [tf]: it returns to [p],
    with the frame in the same place. *)
Definition stays {A} (P : A -> Prop) (c : ST M A) : Prop :=
  forall m a m', kernel_ok m -> running m <> None -> c m = Done (a, m') ->
    kernel_ok m' /\ P a /\ running m' = running m /\ forall p, running m = Some p -> proc_tf m' p = proc_tf m p.

Lemma stays_ret {A} (P : A -> Prop) a : P a -> stays P (mret a).
Proof. intros Ha m b m' Hm _ Hr. injection Hr as <- <-. done. Qed.

Lemma stays_get {A} (P : A -> Prop) f : (forall m, kernel_ok m -> P (f m)) -> stays P (get f).
Proof. intros Hf m b m' Hm _ Hr. injection Hr as <- <-. by auto. Qed.

Lemma stays_bind {A B} (P : A -> Prop) (Q : B -> Prop) c (k : A -> ST M B) :
  stays P c -> (forall a, P a -> stays Q (k a)) -> stays Q (c ≫= k).
Proof.
  intros Hc Hk m b m2 Hm Hp Hr. apply bind_Done_inv in Hr as (a & m1 & H1 & H2).
  destruct (Hc m a m1 Hm Hp H1) as (Hm1 & Ha & Hr1 & Ht1). destruct (Hk a Ha m1 b m2 Hm1 ltac:(congruence) H2) as (Hm2 & Hb & Hr2 & Ht2).
  split; [done|]. split; [done|]. split; [congruence|]. intros p Hq. rewrite Ht2 by congruence. by apply Ht1.
Qed.

Lemma stays_weaken {A} (P Q : A -> Prop) c : (forall a, P a -> Q a) -> stays P c -> stays Q c.
Proof. intros HPQ Hc m a m' Hm Hp Hr. destruct (Hc m a m' Hm Hp Hr) as (? & ? & ?). auto. Qed.

Lemma stays_panic {A} (P : A -> Prop) : stays P panic.
Proof. by intros m a m' _ _ Hr. Qed.

Lemma stays_current {A} (P : A -> Prop) (k : Z -> ST M A) : (forall p, stays P (k p)) -> stays P (with_current k).
Proof.
  intros Hk. apply (stays_bind (fun _ => True)); [by apply stays_get|]. intros [p|] _; [apply Hk|apply stays_panic].
Qed.

Lemma with_current_run {A} (k : Z -> ST M A) m p : running m = Some p -> with_current k m = k p m.
Proof. intros Hp. unfold with_current, mbind, ST_bind, get. by rewrite Hp. Qed.

Lemma int_s32 x : int_ok (s32 x).
Proof. apply s32_range. Qed.
Lemma word_u64 x : word_ok (u64 x).
Proof. apply u64_range. Qed.
Lemma uint_u32 x : uint_ok (u32 x).
Proof. apply u32_range. Qed.
Lemma off_s64 x : off_ok (s64 x).
Proof. unfold off_ok, s64. pose proof (Z.mod_pos_bound (x + 2 ^ 63) (2 ^ 64)). lia. Qed.
Hint Resolve int_s32 word_u64 uint_u32 off_s64 : core.


Lemma stays_service c : call_ok c -> stays int_ok (service c).
Proof.
  intros Hc m a m' Hm Hp Hr. destruct (running m) as [p|] eqn:Hrun; [|done].
  destruct (service_law c m a m' p Hm Hc Hrun Hr) as (? & ? & ? & ? & _). split_and!; try done. intros q Hq. by injection Hq as <-.
Qed.

Lemma stays_schedule : stays (fun _ => True) schedule.
Proof.
  intros m [] m' Hm Hp Hr. destruct (running m) as [p|] eqn:Hrun; [|done].
  destruct (schedule_law m m' p Hm Hrun Hr) as (? & ? & ? & _). split_and!; try done. intros q Hq. by injection Hq as <-.
Qed.

Lemma stays_frame f a : (forall m, kernel_ok m -> frame_ok (f m)) -> stays (fun _ => True) (modify (fun m => set_frame a (f m) m)).
Proof.
  intros Hf m [] m' Hm _ Hr. injection Hr as <-. split; [by apply ok_frame; [|apply Hf]|]. split; [done|].
  split; [apply running_frame|]. intros p _. apply tf_frame.
Qed.

(** Every way the arguments of a system call are cast gives the type the service
    declares. *)
Definition args_ok (arg : Z -> Z) : Prop := forall i, word_ok (arg i).
Lemma syscalls_keep num f arg : syscalls num = Some f -> args_ok arg -> stays int_ok (f arg).
Proof.
  intros Hf Ha. assert (Hput : forall c, call_ok c -> stays int_ok (_ ← service c; mret 0)).
  { intros c Hc. apply (stays_bind int_ok); [by apply stays_service|]. intros _ _. by apply stays_ret. }
  unfold syscalls in Hf.
  repeat match type of Hf with (if ?b then _ else _) = _ => destruct b; [injection Hf as <-|] end; try done.
  all: try (apply stays_service; cbn; split_and?; auto; fail).
  - apply stays_current. intros p. apply (stays_bind word_ok); [apply stays_get; intros; by apply ok_proc_tf|].
    intros tf Htf. apply (stays_bind word_ok).
    + apply stays_get. intros m Hm. destruct (ok_frames m tf Hm) as [Hg _]. by repeat (apply Forall_cons in Hg as [? Hg]).
    + intros stack Hs. by apply stays_service.
  - apply stays_current. intros p. apply stays_get. intros. by apply ok_pid.
  - apply Hput. cbn. auto.
  - by apply stays_ret.
  - apply (stays_bind (fun _ => True)); [by apply stays_get|]. intros t _. apply stays_ret. auto.
  - apply Hput. cbn. auto.
Qed.

Lemma frame_set_a0 x f : frame_ok f -> word_ok x -> frame_ok (set_a0 x f).
Proof.
  intros [Hg Hf] Hx. split; [|done]. cbn in *. repeat (apply Forall_cons in Hg as [? Hg]). by repeat (apply Forall_cons; split).
Qed.
Lemma frame_set_epc x f : frame_ok f -> word_ok x -> frame_ok (set_epc x f).
Proof. by intros (Hg & Hs & _ & Hr) Hx. Qed.

Lemma stays_syscall : stays (fun _ => True) syscall.
Proof.
  apply stays_current. intros p. apply (stays_bind word_ok); [apply stays_get; intros; by apply ok_proc_tf|]. intros tf _.
  apply (stays_bind (fun r => Forall word_ok (regs_list r))); [apply stays_get; intros; by apply ok_frames|]. intros r Hr.
  assert (Ha : args_ok (args_of r)).
  { cbn in Hr. repeat (apply Forall_cons in Hr as [? Hr]). intros i. unfold args_of. by repeat case_match. }
  cbv zeta. match goal with |- stays _ (if ?b then _ else _) => destruct b end; [|apply stays_panic]. destruct (syscalls (s32 (a0 r))) as [f|] eqn:Hf; [|apply stays_panic].
  apply (stays_bind int_ok); [by apply (syscalls_keep _ _ _ Hf)|]. intros ret _.
  apply stays_frame. intros m Hm. apply frame_set_a0; [by apply ok_frames|auto].
Qed.

Lemma stays_tick : stays (fun _ => True) timer_interrupt.
Proof.
  apply (stays_bind (fun _ => True)); [by apply stays_get|]. intros t _. apply (stays_bind (fun _ => True)).
  { intros m [] m' Hm _ Hr. injection Hr as <-. split; [apply ok_ticks; [done|apply word_u64]|]. split; [done|]. split; [apply running_ticks|].
    intros p _. apply tf_ticks. }
  intros _ _. apply (stays_bind (fun _ => True)).
  { intros m [] m' Hm _ Hr. destruct (timer_law m m' Hm Hr) as (? & ? & ? & _). by split_and!. }
  intros _ _. apply (stays_bind (fun c => 0 <= c < 256)).
  { intros m c m' Hm _ Hr. destruct (getc_law m c m' Hm Hr) as (? & ? & ? & ? & _). split; [done|]; split; [assumption|]; by split. }
  intros c Hc m [] m' Hm _ Hr. rewrite Z.mod_small in Hr by done.
  destruct (stdin_law m c m' Hm Hc Hr) as (? & ? & ? & _). by split_and!.
Qed.

Lemma stays_dispatch tf : stays (fun _ => True) (trap_dispatch tf).
Proof.
  apply (stays_bind (fun _ => True)); [by apply stays_get|]. intros c _. destruct (s64 c <? 0).
  - apply (stays_bind (fun _ => True)); [by apply stays_get|]. intros c' _.
    cbv zeta. destruct (Z.shiftr (u64 (Z.shiftl c' 1)) 1 =? IRQ_S_TIMER); [apply stays_tick|by apply stays_ret].
  - apply (stays_bind (fun _ => True)); [by apply stays_get|]. intros c' _.
    destruct (c' =? CAUSE_MISALIGNED_STORE); [apply stays_panic|]. destruct ((c' =? CAUSE_USER_ECALL) || (c' =? CAUSE_SUPERVISOR_ECALL)); [|by apply stays_ret].
    apply (stays_bind (fun _ => True)); [|intros _ _; apply stays_syscall].
    apply stays_frame. intros m Hm. apply frame_set_epc; [by apply ok_frames|auto].
Qed.

(** After the dispatch: the exit of a process that is being killed, and the
    switch of processes. *)
Definition trap_leave : ST M unit :=
  with_current (fun p =>
    e ← get (fun m => exiting m p);
    if (e : bool) then _ ← service E_KILLED_exit; mret tt else mret tt) ;;
  with_current (fun p => r ← get (fun m => wants_resched m p); if (r : bool) then schedule else mret tt).

Lemma stays_leave : stays (fun _ => True) trap_leave.
Proof.
  apply (stays_bind (fun _ => True)).
  - apply stays_current. intros p. apply (stays_bind (fun _ => True)); [by apply stays_get|]. intros [|] _; [|by apply stays_ret].
    apply (stays_bind int_ok); [apply stays_service; cbn; unfold int_ok, E_KILLED; lia|]. intros. by apply stays_ret.
  - intros _ _. apply stays_current. intros p. apply (stays_bind (fun _ => True)); [by apply stays_get|].
    intros [|] _; [apply stays_schedule|by apply stays_ret].
Qed.

Lemma bind_first {A B} (c c' : ST M A) (k : A -> ST M B) m : c m = c' m -> (c ≫= k) m = (c' ≫= k) m.
Proof. unfold mbind, ST_bind. by intros ->. Qed.

Lemma leave_run m p : running m = Some p ->
  trap_leave m = ((if exiting m p then _ ← service E_KILLED_exit; mret tt else mret tt) ;;
                  with_current (fun p => r ← get (fun m => wants_resched m p); if (r : bool) then schedule else mret tt)) m.
Proof. intros Hp. apply bind_first. by rewrite (with_current_run _ m p Hp). Qed.

(** The trap of a process, with the frame at [tf]. *)
Lemma trap_unfold tf m p : running m = Some p ->
  trap tf m = (trap_dispatch tf ;; with_current (fun q => modify (set_proc_tf q (proc_tf m p))) ;;
               if negb (trap_in_kernel (frame m tf)) then trap_leave else mret tt) (set_proc_tf p tf m).
Proof.
  intros Hp. unfold trap. mstep (eq_refl : get running m = Done (running m, m)). rewrite Hp.
  mstep (eq_refl : get (fun m => proc_tf m p) m = Done (proc_tf m p, m)).
  mstep (eq_refl : modify (set_proc_tf p tf) m = Done (tt, set_proc_tf p tf m)).
  set (m1 := set_proc_tf p tf m).
  mstep (eq_refl : get (fun m => trap_in_kernel (frame m tf)) m1 = Done (trap_in_kernel (frame m1 tf), m1)).
  unfold m1. by rewrite frame_tf.
Qed.

(** ** A system call *)
(** Every call but [exec] leaves the frame alone. *)
Lemma service_frame c m a m' p : kernel_ok m -> call_ok c -> running m = Some p -> service c m = Done (a, m') ->
  (forall x y z, c <> do_execve x y z) -> frame m' (proc_tf m p) = frame m (proc_tf m p).
Proof. intros Hm Hc Hp Hr Hne. by destruct (service_law c m a m' p Hm Hc Hp Hr) as (_ & _ & _ & _ & Hf); apply Hf. Qed.

Lemma syscalls_frame num f arg m a m' p : syscalls num = Some f -> num <> 4 -> args_ok arg -> kernel_ok m ->
  running m = Some p -> f arg m = Done (a, m') -> frame m' (proc_tf m p) = frame m (proc_tf m p).
Proof.
  intros Hf Hne Ha Hm Hp Hr. unfold syscalls in Hf.
  assert (Hput : forall c, call_ok c -> (_ ← service c; mret 0) m = Done (a, m') -> (forall x y z, c <> do_execve x y z) ->
                           frame m' (proc_tf m p) = frame m (proc_tf m p)).
  { intros c Hc Hr' Hx. apply bind_Done_inv in Hr' as (b & m1 & H1 & H2). injection H2 as _ <-. by eapply service_frame. }
  repeat match type of Hf with (if ?b then _ else _) = _ => destruct b eqn:? ; [injection Hf as <-|] end; try done.
  all: try (refine (service_frame _ m a m' p Hm _ Hp Hr _); [cbn; split_and?; auto|done]; fail).
  - unfold sys_fork in Hr. rewrite (with_current_run _ m p Hp) in Hr.
    cbn in Hr. unfold mbind, ST_bind, get in Hr. refine (service_frame _ m a m' p Hm _ Hp Hr _); [|done].
    cbn. split; [done|]. split; [|by apply ok_proc_tf]. destruct (ok_frames m (proc_tf m p) Hm) as [Hg _].
    by repeat (apply Forall_cons in Hg as [? Hg]).
  - lia.
  - unfold sys_getpid in Hr. rewrite (with_current_run _ m p Hp) in Hr.
    by injection Hr as _ <-.
  - refine (Hput _ _ Hr _); [cbn; auto|done].
  - by injection Hr as _ <-.
  - apply bind_Done_inv in Hr as (t & m1 & H1 & H2). injection H1 as _ <-. by injection H2 as _ <-.
  - refine (Hput _ _ Hr _); [cbn; auto|done].
Qed.

Lemma syscalls_num num f : syscalls num = Some f -> (0 <=? num) && (num <? NUM_SYSCALLS) = true.
Proof.
  unfold syscalls, NUM_SYSCALLS. intros Hf.
  repeat match type of Hf with (if ?b then _ else _) = _ => destruct b eqn:? ; [lia|] end. done.
Qed.

(** The frame of the caller when the service starts. *)
Definition past_ecall (f : trapframe) : trapframe := set_epc (u64 (epc f + 4)) f.

Definition is_ecall (f : trapframe) : Prop := cause f = CAUSE_USER_ECALL \/ cause f = CAUSE_SUPERVISOR_ECALL.
(** The result goes to register [a0] of the frame. *)
Definition give (tf : Z) (ret : Z) : ST M unit := modify (fun m => set_frame tf (set_a0 (u64 ret) (frame m tf)) m).

Lemma dispatch_number tf m p : running m = Some p -> proc_tf m p = tf -> is_ecall (frame m tf) ->
  trap_dispatch tf m =
    match syscalls (s32 (a0 (gpr (frame m tf)))) with
    | Some f => (ret ← f (args_of (gpr (frame m tf))); give tf ret) (set_frame tf (past_ecall (frame m tf)) m)
    | None => Panicked
    end.
Proof.
  intros Hp Htf Hc. unfold trap_dispatch. mstep (eq_refl : get (fun m => cause (frame m tf)) m = Done (cause (frame m tf), m)).
  assert (Hs : (s64 (cause (frame m tf)) <? 0) = false /\ (cause (frame m tf) =? CAUSE_MISALIGNED_STORE) = false /\
    ((cause (frame m tf) =? CAUSE_USER_ECALL) || (cause (frame m tf) =? CAUSE_SUPERVISOR_ECALL)) = true)
    by (by destruct Hc as [-> | ->]).
  destruct Hs as (Hs1 & Hs2 & Hs3). rewrite Hs1. unfold exception_handler.
  mstep (eq_refl : get (fun m => cause (frame m tf)) m = Done (cause (frame m tf), m)). rewrite Hs2, Hs3.
  set (m1 := set_frame tf (past_ecall (frame m tf)) m) in *.
  mstep (eq_refl : modify (fun m => set_frame tf (set_epc (u64 (epc (frame m tf) + 4)) (frame m tf)) m) m = Done (tt, m1)).
  unfold syscall. rewrite (with_current_run _ m1 p) by (unfold m1; by rewrite running_frame, Hp).
  assert (Htf1 : get (fun m => proc_tf m p) m1 = Done (tf, m1)) by (unfold get, m1; by rewrite tf_frame, Htf). mstep Htf1.
  assert (Hg1 : get (fun m => gpr (frame m tf)) m1 = Done (gpr (frame m tf), m1))
    by (unfold get, m1; by rewrite frame_frame, decide_True).
  mstep Hg1. cbv zeta. destruct (syscalls (s32 (a0 (gpr (frame m tf))))) as [f|] eqn:Hf.
  - by rewrite (syscalls_num _ _ Hf).
  - by destruct ((0 <=? _) && _).
Qed.

Lemma dispatch_ecall tf m p f ret m2 : running m = Some p -> proc_tf m p = tf -> is_ecall (frame m tf) ->
  syscalls (s32 (a0 (gpr (frame m tf)))) = Some f ->
  f (args_of (gpr (frame m tf))) (set_frame tf (past_ecall (frame m tf)) m) = Done (ret, m2) ->
  trap_dispatch tf m = Done (tt, set_frame tf (set_a0 (u64 ret) (frame m2 tf)) m2).
Proof. intros Hp Htf Hc Hf Hr. rewrite (dispatch_number tf m p Hp Htf Hc), Hf. by mstep Hr. Qed.

(** After the dispatch: the frame pointer is what it was before the trap, and a trap
    from user mode goes through [trap_leave]. *)
Definition trap_end (otf : Z) (in_kernel : bool) : ST M unit :=
  with_current (fun q => modify (set_proc_tf q otf)) ;; if negb in_kernel then trap_leave else mret tt.

(** The kernel when a system call starts. *)
Definition entered (tf p : Z) (m : M) : M := set_frame tf (past_ecall (frame m tf)) (set_proc_tf p tf m).

Lemma trap_number tf m p : running m = Some p -> is_ecall (frame m tf) ->
  trap tf m =
    match syscalls (s32 (a0 (gpr (frame m tf)))) with
    | Some f => ((ret ← f (args_of (gpr (frame m tf))); give tf ret) ;; trap_end (proc_tf m p) (trap_in_kernel (frame m tf))) (entered tf p m)
    | None => Panicked
    end.
Proof.
  intros Hp Hc. rewrite (trap_unfold tf m p Hp). fold (trap_end (proc_tf m p) (trap_in_kernel (frame m tf))).
  set (m1 := set_proc_tf p tf m). assert (Hf : frame m1 tf = frame m tf) by (unfold m1; by rewrite frame_tf).
  unfold mbind at 1, ST_bind at 1. rewrite (dispatch_number tf m1 p); rewrite ?Hf; [|unfold m1; by rewrite running_tf| |done].
  - destruct (syscalls _) as [f|]; [|done]. unfold entered. by rewrite <- Hf.
  - unfold m1. by rewrite tf_tf, decide_True.
Qed.

Lemma frame_reg_ok f : frame_ok f -> Forall word_ok [sp (gpr f); a1 (gpr f); a2 (gpr f); a3 (gpr f)].
Proof. intros [Hg _]. repeat (apply Forall_cons in Hg as [? Hg]). repeat (apply Forall_cons; split; [assumption|]). by apply Forall_nil. Qed.

(** Every prototype: the call has the types its service declares, and the entry of
    the table makes it. *)
Lemma declared_ok num d (keeps : bool) r : (num, (d, keeps)) ∈ prototypes -> Forall word_ok [a1 r; a2 r; a3 r] -> call_ok (declared_call d r).
Proof.
  intros Hin Hr. repeat (apply Forall_cons in Hr as [? Hr]).
  unfold prototypes in Hin. repeat (apply elem_of_cons in Hin as [Hx|Hin]; [injection Hx as -> -> ->; cbn; split_and?; auto|]).
  by apply elem_of_nil in Hin.
Qed.

Lemma declared_syscall num d (keeps : bool) r : (num, (d, keeps)) ∈ prototypes -> exists f, syscalls num = Some f /\
  f (args_of r) = (if keeps then service (declared_call d r) else (_ ← service (declared_call d r); mret 0)).
Proof.
  unfold prototypes. intros Hin.
  repeat (apply elem_of_cons in Hin as [Hx|Hin]; [injection Hx as -> -> ->; eexists; split; reflexivity|]). by apply elem_of_nil in Hin.
Qed.

(** The numbers of the table of the kernel. *)
Definition numbers : list Z := map fst prototypes ++ [2; 17; 18; 31].
Lemma other_number num : num ∉ numbers -> syscalls num = None.
Proof.
  intros Hn. unfold syscalls.
  repeat match goal with |- (if num =? ?k then _ else _) = _ =>
    destruct (Z.eqb_spec num k) as [->|_]; [exfalso; apply Hn; unfold numbers; apply (bool_decide_unpack _); reflexivity|] end.
  done.
Qed.

Lemma trap_kernel_ok tf m m' p : kernel_ok m -> word_ok tf -> running m = Some p -> trap tf m = Done (tt, m') -> kernel_ok m'.
Proof.
  intros Hm Htf Hp Hr. rewrite (trap_unfold tf m p Hp) in Hr. set (m1 := set_proc_tf p tf m) in *.
  assert (Hm1 : kernel_ok m1) by (by apply ok_tf). assert (Hp1 : running m1 = Some p) by (unfold m1; by rewrite running_tf).
  apply bind_Done_inv in Hr as ([] & m2 & H2 & Hr).
  destruct (stays_dispatch tf m1 _ m2 Hm1 ltac:(congruence) H2) as (Hm2 & _ & Hp2 & _).
  apply bind_Done_inv in Hr as ([] & m3 & H3 & Hr).
  rewrite (with_current_run _ m2 p) in H3 by congruence. injection H3 as <-.
  set (m3 := set_proc_tf p (proc_tf m p) m2) in *. assert (Hm3 : kernel_ok m3) by (apply ok_tf; [done|by apply ok_proc_tf]).
  assert (Hp3 : running m3 = Some p) by (unfold m3; rewrite running_tf; congruence).
  assert (Hend : stays (fun _ => True) (if negb (trap_in_kernel (frame m tf)) then trap_leave else mret tt)).
  { destruct (negb (trap_in_kernel (frame m tf))); [apply stays_leave|by apply stays_ret]. }
  by destruct (Hend m3 tt m' Hm3 ltac:(congruence) Hr) as (Hm' & _).
Qed.

(** C19 Types across the border between user and kernel.  A trap by [ecall] moves the
    program counter past the instruction and then, whatever the registers hold: for a
    number of [prototypes] it calls the service of that number once, with registers
    [a1], [a2], ... cast, each, to the type the service declares for that parameter,
    and writes its result (for [putc] and [lab6_set_priority] 0) as a 64-bit word to
    [a0] of the frame; [fork] calls [do_fork] with no flags, the stack pointer and
    the frame; [getpid], [pgdir] and [gettime] answer without a service; with any other
    number the kernel panics.  Every call made has the types of its service.  Given
    that services called so keep the kernel well formed (the laws of [Services]), every
    frame holds 64-bit words when the trap returns, traps inside the trap included. *)
Theorem trap_preserves_types tf m p :
  kernel_ok m -> word_ok tf -> running m = Some p -> is_ecall (frame m tf) ->
  let fr := frame m tf in
  let num := s32 (a0 (gpr fr)) in
  let m1 := entered tf p m in
  let finish := trap_end (proc_tf m p) (trap_in_kernel fr) in
  kernel_ok m1 /\
  (forall d keeps, (num, (d, keeps)) ∈ prototypes -> call_ok (declared_call d (gpr fr)) /\
     trap tf m = (ret ← service (declared_call d (gpr fr)); give tf (if (keeps : bool) then ret else 0) ;; finish) m1) /\
  (num = 2 -> call_ok (do_fork 0 (sp (gpr fr)) tf) /\
     trap tf m = (ret ← service (do_fork 0 (sp (gpr fr)) tf); give tf ret ;; finish) m1) /\
  (num = 17 -> trap tf m = (give tf (s32 (s32 (ticks m) * 10)) ;; finish) m1) /\
  (num = 18 -> trap tf m = (give tf (proc_pid m1 p) ;; finish) m1) /\
  (num = 31 -> trap tf m = (give tf 0 ;; finish) m1) /\
  (num ∉ numbers -> trap tf m = Panicked) /\
  forall m', trap tf m = Done (tt, m') -> forall a, frame_ok (frame m' a).
Proof.
  intros Hm Hw Hp Hc fr num m1 finish. assert (Hfr : frame_ok fr) by (by apply ok_frames).
  pose proof (frame_reg_ok fr Hfr) as Hg. pose proof (trap_number tf m p Hp Hc) as Ht. fold fr num m1 finish in Ht.
  assert (Hp1 : running m1 = Some p) by (unfold m1, entered; by rewrite running_frame, running_tf).
  split. { apply ok_frame; [by apply ok_tf|]. apply frame_set_epc; [done|auto]. }
  split. { intros d keeps Hin. split; [apply (declared_ok num d keeps); [done|by apply Forall_cons in Hg as [_ Hg]]|].
    destruct (declared_syscall num d keeps (gpr fr) Hin) as (f & Hf & Hcall). rewrite Ht, Hf, Hcall. unfold mbind, ST_bind.
    destruct keeps; destruct (service (declared_call d (gpr fr)) m1) as [[r m2]| |]; reflexivity. }
  assert (Hsp : word_ok (sp (gpr fr))) by (by apply Forall_cons in Hg as [Hsp _]).
  split. { intros Hn. split; [by split|]. rewrite Ht, Hn. cbn [syscalls Z.eqb Pos.eqb]. unfold sys_fork, mbind at 1 2, ST_bind at 1 2.
    assert (Ht1 : proc_tf m1 p = tf) by (unfold m1, entered; by rewrite tf_frame, tf_tf, decide_True).
    assert (Hf1 : frame m1 tf = past_ecall fr) by (unfold m1, entered; by rewrite frame_frame, decide_True).
    rewrite (with_current_run _ m1 p Hp1). unfold mbind, ST_bind, get. rewrite Ht1, Hf1.
    change (sp (gpr (past_ecall (frame m tf)))) with (sp (gpr fr)).
    cbn [sp gpr past_ecall set_epc]. destruct (service (do_fork 0 (sp (gpr fr)) tf) m1) as [[r m2]| |]; reflexivity. }
  split. { intros Hn. assert (Hk : ticks m1 = ticks m) by (unfold m1, entered; by rewrite ticks_frame, ticks_tf).
    rewrite Ht, Hn, <- Hk. reflexivity. }
  split. { intros Hn. rewrite Ht, Hn. cbn [syscalls Z.eqb Pos.eqb]. unfold sys_getpid, mbind, ST_bind. by rewrite (with_current_run _ m1 p Hp1). }
  split. { intros Hn. by rewrite Ht, Hn. }
  split. { intros Hn. by rewrite Ht, (other_number num Hn). }
  intros m' Hr a. apply ok_frames. by apply (trap_kernel_ok tf m m' p).
Qed.

(** C28 A system call from user mode: its number and arguments are the
    registers of the caller; when the service returns, the caller goes on with the
    frame the service left and the result in [a0], after a switch to another process if
    one is due; a caller that is being killed does not return to user mode.  For every
    call but [exec] (number 4) the frame the service left is the caller's own past the
    [ecall]: the caller goes on after the instruction with every register but [a0] as
    it was.  [exec] is the exception: its service gives the process the frame of the
    new program.  That a service, and the scheduler, come back to the process that
    called them with its frame in place is what [Services] demands of them
    ([service_law], [schedule_law]). *)
Theorem trap_syscall tf m p f ret m2 :
  kernel_ok m -> word_ok tf -> running m = Some p -> proc_tf m p = tf ->
  cause (frame m tf) = CAUSE_USER_ECALL -> trap_in_kernel (frame m tf) = false ->
  syscalls (s32 (a0 (gpr (frame m tf)))) = Some f ->
  f (args_of (gpr (frame m tf))) (set_frame tf (past_ecall (frame m tf)) (set_proc_tf p tf m)) = Done (ret, m2) ->
  int_ok ret /\
  (exiting m2 p = true -> forall r, trap tf m <> Done r) /\
  (exiting m2 p = false ->
     (wants_resched m2 p = false -> exists m', trap tf m = Done (tt, m')) /\
     forall m', trap tf m = Done (tt, m') -> frame m' tf = set_a0 (u64 ret) (frame m2 tf)) /\
  (s32 (a0 (gpr (frame m tf))) <> 4 -> frame m2 tf = past_ecall (frame m tf)).
Proof.
  intros Hm Hw Hp Htf Hc Hk Hf Hr. set (fr := frame m tf) in *. set (m0 := set_proc_tf p tf m) in *.
  assert (Hm0 : kernel_ok m0) by (by apply ok_tf).
  assert (Hp0 : running m0 = Some p) by (unfold m0; by rewrite running_tf).
  assert (Ht0 : proc_tf m0 p = tf) by (unfold m0; by rewrite tf_tf, decide_True).
  assert (Hf0 : frame m0 tf = fr) by (unfold m0; by rewrite frame_tf).
  set (m1 := set_frame tf (past_ecall fr) m0) in *. assert (Hfr : frame_ok fr) by (by apply ok_frames).
  assert (Ha : args_ok (args_of (gpr fr))).
  { destruct Hfr as [Hg _]. repeat (apply Forall_cons in Hg as [? Hg]). intros i. unfold args_of. by repeat case_match. }
  assert (Hm1 : kernel_ok m1) by (apply ok_frame; [done|apply frame_set_epc; [done|auto]]).
  assert (Hp1 : running m1 = Some p) by (unfold m1; by rewrite running_frame).
  assert (Ht1 : proc_tf m1 p = tf) by (unfold m1; by rewrite tf_frame).
  destruct (syscalls_keep _ f _ Hf Ha m1 ret m2 Hm1 ltac:(congruence) Hr) as (Hm2 & Hret & Hp2 & Ht2).
  assert (Hf1 : frame m1 tf = past_ecall fr) by (unfold m1; by rewrite frame_frame, decide_True).
  rewrite Hp1 in Hp2. specialize (Ht2 p Hp1).
  assert (Hdis : trap_dispatch tf m0 = Done (tt, set_frame tf (set_a0 (u64 ret) (frame m2 tf)) m2)).
  { apply (dispatch_ecall tf m0 p f); rewrite ?Hf0; [done|done|by left|done|done]. }
  set (m3 := set_frame tf (set_a0 (u64 ret) (frame m2 tf)) m2) in *. set (m4 := set_proc_tf p tf m3).
  assert (Hp3 : running m3 = Some p) by (unfold m3; by rewrite running_frame).
  assert (Htr : trap tf m = trap_leave m4).
  { rewrite (trap_unfold tf m p Hp). fold fr. rewrite Hk, Htf. fold m0. rewrite (bind_Done _ _ _ _ _ Hdis).
    refine (bind_Done _ (fun _ => trap_leave) m3 tt m4 _). by rewrite (with_current_run _ m3 p Hp3). }
  assert (Hp4 : running m4 = Some p) by (unfold m4; by rewrite running_tf).
  assert (Hf4 : frame m4 tf = set_a0 (u64 ret) (frame m2 tf)) by (unfold m4, m3; by rewrite frame_tf, frame_frame, decide_True).
  assert (Hm4 : kernel_ok m4) by (apply ok_tf; [apply ok_frame; [done|apply frame_set_a0; [by apply ok_frames|auto]]|done]).
  assert (Hx : exiting m4 p = exiting m2 p /\ wants_resched m4 p = wants_resched m2 p).
  { destruct (flags_tf p tf p m3) as [E1 E2]. destruct (flags_frame tf (set_a0 (u64 ret) (frame m2 tf)) p m2) as [E3 E4].
    split; [exact (eq_trans E1 E3)|exact (eq_trans E2 E4)]. }
  destruct Hx as [Hx Hrs]. rewrite Htr. split; [done|]. rewrite (leave_run m4 p Hp4), Hx. split; [|split].
  3: { intros Hne. pose proof (syscalls_frame _ f _ m1 ret m2 p Hf Hne Ha Hm1 Hp1 Hr) as Hfr2. by rewrite Ht1, Hf1 in Hfr2. }
  all: intros ->.
  - intros r. unfold mbind, ST_bind. destruct (service E_KILLED_exit m4) as [[x m5]| |] eqn:Hs; [|done|done].
    by apply do_exit_law in Hs.
  - rewrite ret_bind, (with_current_run _ m4 p Hp4).
    mstep (eq_refl : get (fun m => wants_resched m p) m4 = Done (wants_resched m4 p, m4)). rewrite Hrs.
    split; [intros ->; by eexists|]. intros m' Hr'. destruct (wants_resched m2 p).
    + destruct (schedule_law m4 m' p Hm4 Hp4 Hr') as (_ & _ & _ & Hfr').
      assert (Ht4 : proc_tf m4 p = tf) by (unfold m4; by rewrite tf_tf, decide_True). rewrite Ht4 in Hfr'. congruence.
    + by injection Hr' as <-.
Qed.

(** The child of a fork starts after the [ecall] of its parent with 0 in [a0],
    the stack it is given and every other register of the parent; no other frame
    changes. *)
Lemma copy_thread_child p kstack esp f m : word_ok (kstack + KSTACKSIZE - TRAPFRAME_SIZE) -> exists m',
  let tf := kstack + KSTACKSIZE - TRAPFRAME_SIZE in
  copy_thread p kstack esp f m = Done (tt, m') /\ proc_tf m' p = tf /\
  frame m' tf = set_sp (if esp =? 0 then tf else esp) (set_a0 0 f) /\ forall b, b <> tf -> frame m' b = frame m b.
Proof.
  intros Hk. unfold copy_thread. rewrite u64_small by done. set (tf := kstack + KSTACKSIZE - TRAPFRAME_SIZE) in *.
  set (m1 := set_proc_tf p tf m). mstep (eq_refl : modify (set_proc_tf p tf) m = Done (tt, m1)).
  assert (Ht : get (fun m => proc_tf m p) m1 = Done (tf, m1)) by (unfold get, m1; by rewrite tf_tf, decide_True).
  mstep Ht. eexists. split; [reflexivity|]. rewrite !tf_frame, !frame_frame, !decide_True by done.
  split; [unfold m1; by rewrite tf_tf, decide_True|]. split; [done|]. intros b Hb.
  rewrite !frame_frame, !decide_False by done. apply frame_tf.
Qed.
End trap_spec.

(** ** Witnesses: a kernel that keeps the calls it gets and answers [-E_INVAL] *)
Record sample_kernel := mkSample { k_tf : Z -> Z; k_frames : Z -> trapframe; k_ticks : Z; calls : list call }.
Definition sample_service (c : call) : ST sample_kernel Z := fun m =>
  match c with
  | do_exit _ => Panicked
  | _ => Done (- E_INVAL, mkSample (k_tf m) (k_frames m) (k_ticks m) (c :: calls m))
  end.
Definition sample_ok (m : sample_kernel) : Prop :=
  (forall a, frame_ok (k_frames m a)) /\ (forall p, word_ok (k_tf m p)) /\ word_ok (k_ticks m).

#[local] Instance sample_clock : Clock sample_kernel := {|
  ticks := k_ticks;
  set_ticks t m := mkSample (k_tf m) (k_frames m) t (calls m);
  run_timer_list := mret tt;
  cons_getc := mret 0;
  dev_stdin_write c := mret tt |}.

#[local] Program Instance sample_services : Services sample_kernel := {|
  running m := Some 1;
  proc_pid m p := p mod 2 ^ 31;
  proc_tf := k_tf;
  set_proc_tf p a m := mkSample (upd (k_tf m) p a) (k_frames m) (k_ticks m) (calls m);
  frame := k_frames;
  set_frame a f m := mkSample (k_tf m) (upd (k_frames m) a f) (k_ticks m) (calls m);
  exiting m p := false;
  wants_resched m p := true;
  service := sample_service;
  schedule := mret tt;
  kernel_ok := sample_ok |}.
Solve Obligations with done.
Next Obligation. intros p a m (H1 & H2 & H3) Ha. split; [done|]. split; [|done]. intros q. cbn. unfold upd. by case_decide. Qed.
Next Obligation. intros a f m (H1 & H2 & H3) Ha. split; [|done]. intros q. cbn. unfold upd. by case_decide. Qed.
Next Obligation. intros t m (H1 & H2 & H3) Ha. by split. Qed.
Next Obligation. by intros m a (H1 & H2 & H3). Qed.
Next Obligation. by intros m a (H1 & H2 & H3). Qed.
Next Obligation. intros m p _. cbn. unfold int_ok. pose proof (Z.mod_pos_bound p (2 ^ 31)). lia. Qed.
Next Obligation. by intros m (H1 & H2 & H3). Qed.
Next Obligation.
  intros c m r m' p Hm _ Hp Hr. unfold sample_service in Hr.
  destruct c; try done; injection Hr as <- <-; (split; [done|]); (split; [unfold int_ok, E_INVAL; lia|done]).
Qed.
Next Obligation. intros m m' p Hm Hp Hr. by injection Hr as <-. Qed.
Next Obligation. intros m m' Hm Hr. by injection Hr as <-. Qed.
Next Obligation. intros m c m' Hm Hr. injection Hr as <- <-. done. Qed.
Next Obligation. intros m c m' Hm _ Hr. by injection Hr as <-. Qed.

(** Process 1 calls [read(0, 0x800000, 16)]. *)
Definition sample_regs (num : Z) : pushregs :=
  mkRegs 0 0x800100 0x7ffffff0 0 0 0 0 0 0 0 num 0 0x800000 16 0 0 0 0 0 0 0 0 0 0 0 0 0 0 0 0 0 0.
Definition sample_frame (num epc : Z) : trapframe := mkFrame (sample_regs num) 0 epc 0 8.
Definition sample_machine : sample_kernel := mkSample (fun _ => 4096) (fun _ => sample_frame 102 0x800020) 7 [].

Lemma sample_kernel_ok : sample_ok sample_machine.
Proof.
  unfold sample_ok, sample_machine, sample_frame, sample_regs, regs_list, frame_ok, word_ok. cbn.
  split; [intros a|split; [intros p; lia|lia]]. split; [|lia].
  repeat (apply Forall_cons; split; [cbn; lia|]). by apply Forall_nil.
Qed.

(** The read reaches its service with its arguments in their places. *)
Lemma trap_preserves_types_witness :
  (exists m', trap (M := sample_kernel) 4096 sample_machine = Done (tt, m') /\ calls m' = [sysfile_read 0 0x800000 16]) /\
  (forall d keeps, (102, (d, keeps)) ∈ prototypes -> call_ok (declared_call d (sample_regs 102)) /\
     trap 4096 sample_machine =
       (ret ← service (declared_call d (sample_regs 102)); give 4096 (if (keeps : bool) then ret else 0) ;; trap_end 4096 false)
         (entered 4096 1 sample_machine)) /\
  forall m', trap 4096 sample_machine = Done (tt, m') -> forall a, frame_ok (k_frames m' a).
Proof.
  split; [eexists; split; [vm_compute; reflexivity|reflexivity]|].
  destruct (trap_preserves_types (H := sample_services) 4096 sample_machine 1 sample_kernel_ok) as (_ & Hd & _ & _ & _ & _ & _ & Hok); [done|done|by left|].
  split; [exact Hd|exact Hok].
Defined.

Lemma trap_syscall_witness :
  exists m2, sys_read (M := sample_kernel) (args_of (sample_regs 102))
               (set_frame 4096 (past_ecall (sample_frame 102 0x800020)) (set_proc_tf 1 4096 sample_machine)) = Done (- E_INVAL, m2) /\
  int_ok (- E_INVAL) /\ (exiting m2 1 = true -> forall r, trap 4096 sample_machine <> Done r) /\
  (exiting m2 1 = false ->
     (wants_resched m2 1 = false -> exists m', trap 4096 sample_machine = Done (tt, m')) /\
     forall m', trap 4096 sample_machine = Done (tt, m') -> frame m' 4096 = set_a0 (u64 (- E_INVAL)) (frame m2 4096)) /\
  (s32 102 <> 4 -> frame m2 4096 = past_ecall (sample_frame 102 0x800020)).
Proof.
  eexists. split; [reflexivity|].
  refine (trap_syscall 4096 sample_machine 1 sys_read (- E_INVAL) _ sample_kernel_ok _ _ _ _ _ _ _); done.
Defined.
