(* ===== verification/Tick.v ===== *)
(** * One tick of the clock

    The interrupt of the clock drives three parts of the kernel: the timers of
    the scheduler, the console, and the standard input that takes one character
    of the console at a time and wakes its readers.  [clocked] puts them
    together; they are an instance of the interface [Clock] of [Trap]. *)
From S2P Require Import Prelude Trap RunQueue RunQueueSpec Proc Sched SchedSpec TimerSpec Sync Ring Console Devs DevsSpec.

Record clocked := mkClocked { input : stdin; keyboard : console; jiffies : Z }.
Definition set_input x (m : clocked) : clocked := mkClocked x (keyboard m) (jiffies m).
Definition set_keyboard x (m : clocked) : clocked := mkClocked (input m) x (jiffies m).

Definition on_input {A} (c : ST stdin A) : ST clocked A := fun m =>
  match c (input m) with Done (a, x) => Done (a, set_input x m) | Panicked => Panicked | NoFuel => NoFuel end.
Definition on_keyboard {A} (c : ST console A) : ST clocked A := fun m =>
  match c (keyboard m) with Done (a, x) => Done (a, set_keyboard x m) | Panicked => Panicked | NoFuel => NoFuel end.

Section tick.
  Context `{SchedClass} (kbd_queue : Z).

#[export] Instance kernel_clock : Clock clocked := {|
  Trap.ticks := jiffies;
  Trap.set_ticks t m := mkClocked (input m) (keyboard m) t;
  Trap.run_timer_list := on_input (on_kwait (on_ksched run_timer_list));
  Trap.cons_getc := on_keyboard cons_getc;
  Trap.dev_stdin_write c := on_input (dev_stdin_write kbd_queue c) |}.

Notation ks m := (ksched (kwait (input m))).
Notation sleepers m := (wqueues (kwait (input m)) kbd_queue).

(** Of the three parts: runnable processes are queued, timers are to come and
    may fire, [q] was typed and not read, [kq] waits in the console, and those
    that wait for the standard input can be woken. *)
Record clocked_ok (n k : Z) (m : clocked) (q kq : list Z) : Prop := mkClockedOk {
  mo_sched : exists l, sched_ok n (ks m) l;
  mo_timers : timers_ok (ks m);
  mo_due p : p ∈ due 1 (ks m) -> wakeable (ks m) p;
  mo_typed : typed_ahead k (input m) q;
  mo_sleepers : sleepers_ok kbd_queue (input m);
  mo_console : unread (keyboard m) kq;
  mo_line : on_line (line_in (keyboard m)) }.

(** The processes that wait for a character. *)
Definition waiting_for_input (m : clocked) (p : Z) : Prop :=
  exists w, w ∈ sleepers m /\ wproc (waits (kwait (input m)) w) = p.

Lemma pushes_char l : forall q, Forall (fun c => 0 < c < 256) q -> Forall (fun c => 0 < c < 256) l ->
  Forall (fun c => 0 < c < 256) (foldl cons_push q l).
Proof.
  induction l as [|c l IH]; intros q Hq Hl; [done|]. apply Forall_cons in Hl as [Hc Hl]. cbn [foldl]. apply IH; [|done].
  unfold cons_push. destruct (_ <? _); [|constructor]. apply Forall_app. split; [done|]. by constructor.
Qed.

Lemma arrived_char l : on_line l -> Forall (fun c => 0 < c < 256) (arrived l).
Proof. intros Hl%typed_char. rewrite typed_split in Hl. by apply Forall_app in Hl as [? _]. Qed.

Lemma first_char_byte q : Forall (fun c => 0 < c < 256) q -> 0 <= first_char q < 256.
Proof. intros [|c l Hc _]; unfold first_char; cbn; lia. Qed.

(** C20 A tick of the clock never fails; it brings every timer one tick closer,
    takes those that expire off the list and makes their processes runnable,
    whatever the scheduling class; and it moves one
    character, the oldest the console has, to the end of the standard input,
    with which everyone who waits for input is runnable. *)
Theorem timer_interrupt_feeds_stdin n k m q kq : clocked_ok n k m q kq -> k + 1 < 2 ^ 63 ->
  n + Z.of_nat (length (timer_list (ks m))) + Z.of_nat (length (sleepers m)) < 2 ^ 32 - 2 ->
  let kq' := foldl cons_push kq (arrived (line_in (keyboard m))) in
  exists m' l', timer_interrupt m = Done (tt, m') /\ jiffies m' = u64 (jiffies m + 1) /\
    sched_ok (n + Z.of_nat (length (timer_list (ks m))) + Z.of_nat (length (sleepers m))) (ks m') l' /\
    deadlines (ks m') = earlier (later 1 (deadlines (ks m))) /\
    (forall p, p ∈ due 1 (ks m) -> runnable (ks m') p) /\ (forall p, runnable (ks m) p -> runnable (ks m') p) /\
    typed_ahead (k + 1) (input m') (press q (first_char kq')) /\
    unread (keyboard m') (tail kq') /\ line_in (keyboard m') = left_on_line (line_in (keyboard m)) /\
    (first_char kq' <> 0 -> sleepers m' = [] /\ forall p, waiting_for_input m p -> runnable (ks m') p).
Proof.
  intros [[l Hok] Ht Hw Hq Hsl Hu Hl] Hk Hn kq'.
  destruct (run_timer_list_run n (ks m) l Hok Ht ltac:(lia) Hw) as (x & l1 & Hr1 & Hok1 & Ht1 & Hd1 & Hc1 & Hp1 & Hf1).
  set (d1 := set_kwait (set_ksched x (kwait (input m))) (input m)).
  destruct (cons_getc_run (keyboard m) kq Hu Hl) as (kb & Hr2 & Hu2 & Hl2 & _). fold kq' in Hr2, Hu2.
  assert (Hmono : forall p, runnable (ks m) p -> runnable x p).
  { intros p Hp. unfold runnable. rewrite Hp1. by case_decide. }
  assert (Hdue : forall p, p ∈ due 1 (ks m) -> runnable x p).
  { intros p Hp. destruct (decide (runnable (ks m) p)) as [|Hnr]; [by apply Hmono|]. unfold runnable. by rewrite Hp1, decide_True. }
  assert (Hok2 : sleepers_ok kbd_queue d1).
  { destruct Hsl as [Hnd Hws]. split; [done|]. intros w Hw'. destruct (Hws w Hw') as (A & B & C). split; [done|].
    split; [|by apply Hf1]. cbn. rewrite Hp1. by case_decide. }
  assert (Hch : 0 <= first_char kq' < 256).
  { apply first_char_byte, pushes_char; [apply Hu|by apply arrived_char]. }
  set (m1 := mkClocked d1 (keyboard m) (u64 (jiffies m + 1))). set (m2 := set_keyboard kb m1).
  assert (Hrun : forall d', dev_stdin_write kbd_queue (first_char kq') d1 = Done (tt, d') ->
                   timer_interrupt m = Done (tt, set_input d' m2)).
  { intros d' Hd. unfold timer_interrupt. mstep (eq_refl : get ticks m = Done (jiffies m, m)).
    set (m0 := mkClocked (input m) (keyboard m) (u64 (jiffies m + 1))).
    mstep (eq_refl : modify (set_ticks (u64 (jiffies m + 1))) m = Done (tt, m0)).
    assert (H1 : Trap.run_timer_list m0 = Done (tt, m1)).
    { cbn. unfold on_input, on_kwait, on_ksched. cbn. by rewrite Hr1. }
    mstep H1. assert (H2 : Trap.cons_getc m1 = Done (first_char kq', m2)) by (cbn; unfold on_keyboard; cbn; by rewrite Hr2).
    mstep H2. rewrite Z.mod_small by done. cbn. unfold on_input. cbn. by rewrite Hd. }
  assert (Hq1 : typed_ahead k d1 q) by (by apply typed_kwait).
  destruct (decide (first_char kq' = 0)) as [Hz|Hnz].
  - exists (set_input d1 m2), l1. split; [apply Hrun; by rewrite Hz|]. split; [done|]. split.
    { destruct Hok1. split; try done. lia. }
    split; [done|]. split; [done|]. split; [done|]. split; [|done]. rewrite Hz. destruct Hq1 as [A B C D]. cbn. split; try done. lia.
  - destruct (write_wakes kbd_queue k d1 q (first_char kq') _ l1 Hq1 Hk Hnz Hok1 Hok2 Hn) as (d' & l2 & Hd & Hq2 & Hok3 & He & Hrn & _ & Htm & Htl).
    exists (set_input d' m2), l2. split; [by apply Hrun|]. split; [done|]. split; [done|].
    split; [rewrite <- Hd1; unfold deadlines, exps; cbn; by rewrite Htm, Htl|].
    split; [intros p Hp; apply Hrn; left; by apply Hdue|]. split; [intros p Hp; apply Hrn; left; by apply Hmono|].
    split; [done|]. split; [done|]. split; [done|]. intros _. split; [done|]. intros p Hp. apply Hrn. by right.
Qed.
End tick.

(** ** Witness: the timer of process 4, which also waits for input, is due, and
       "z" arrives while "l" waits in the console *)
Definition tick_sched : sched :=
  set_procs (upd (procs sample_sched) 4 (set_wait_state WT_KBD (procs sample_sched 4))) sample_sched.
Definition tick_syncs : syncs :=
  mkSyncs tick_sched (fun w => mkWait (if w =? 200 then 4 else 0) WT_INTERRUPTED 7)
          (fun q => if q =? 7 then [200] else []) (fun _ => 0).
Definition tick_sample : clocked := mkClocked (set_kwait tick_syncs sample_stdin) sample_console 41.

Lemma tick_sched_ok : sched_ok (H := RR_class) 2 tick_sched [2; 3].
Proof.
  assert (Hr : forall p, runnable tick_sched p <-> runnable sample_sched p)
    by (intros p; unfold runnable; cbn; unfold upd; case_decide; by subst).
  destruct sample_sched_ok as [Hq Hel Hi Hf Hl]. split; [done| |by apply Hr| |done].
  - intros p. rewrite Hr. apply Hel.
  - intros p Hp. apply Hf. by apply Hr.
Qed.

Lemma tick_sample_ok : clocked_ok (H := RR_class) 7 2 4096 tick_sample [104] [108].
Proof.
  split.
  - exists [2; 3]. apply tick_sched_ok.
  - split; [|intros d Hd; vm_compute in Hd; apply list_elem_of_singleton in Hd as ->; done].
    split; cbn.
    + apply NoDup_singleton.
    + intros t Ht. apply list_elem_of_singleton in Ht as ->. vm_compute. done.
    + intros d Hd. vm_compute in Hd. apply list_elem_of_singleton in Hd as ->. done.
  - intros p Hp. vm_compute in Hp. apply list_elem_of_singleton in Hp as ->. split; [done|]. split; [|done]. by right.
  - apply typed_kwait, sample_typed.
  - split; cbn; [apply NoDup_singleton|]. by intros w ->%list_elem_of_singleton.
  - apply sample_console_unread.
  - by repeat (constructor; [done|]).
Qed.

Lemma timer_interrupt_feeds_stdin_witness :
  exists m' l', timer_interrupt (H := kernel_clock (H := RR_class) 7) tick_sample = Done (tt, m') /\ jiffies m' = 42 /\
    sched_ok (H := RR_class) (2 + 1 + 1) (ksched (kwait (input m'))) l' /\
    deadlines (ksched (kwait (input m'))) = [] /\
    (forall p, p ∈ [4] -> runnable (ksched (kwait (input m'))) p) /\
    (forall p, runnable tick_sched p -> runnable (ksched (kwait (input m'))) p) /\
    typed_ahead (4096 + 1) (input m') [104; 108] /\
    unread (keyboard m') [122; 8] /\ line_in (keyboard m') = [115; 0; -1; 13; 120] /\
    (108 <> 0 -> wqueues (kwait (input m')) 7 = [] /\
       forall p, waiting_for_input 7 tick_sample p -> runnable (ksched (kwait (input m'))) p).
Proof.
  refine (timer_interrupt_feeds_stdin (H := RR_class) 7 2 4096 tick_sample [104] [108] tick_sample_ok _ _); done.
Defined.
